(* ===== verification/_CoqProject ===== *)
-Q . S2P
Prelude.v
LatencyLog.v
Tailq.v
PerfRep.v
PerfRepLemmas.v
PerfRepSafety.v
PerfRepBuild.v
PerfRepTheorems.v
PerfRepBatch.v
PerfRepBatchLemmas.v
PerfRepBatchSafety.v
PerfRepBatchTheorems.v
Reservation.v
ReservationLemmas.v
ReservationTheorems.v
NsCmd.v
NsCmdLemmas.v
NsCmdTree.v
NsCmdCut.v
NsCmdSgl.v
NsCmdPrp.v
NsCmdVectored.v
NsCmdTheorems.v
NvmeQpair.v
NvmeQpairLemmas.v
NvmeQpairDrop.v
NvmeQpairSpec.v
NvmeQpairRefine.v
NvmeQpairCommands.v
NvmeQpairPoll.v
NvmeQpairIssue.v
NvmeQpairRun.v
NvmeQpairTheorems.v
NvmeQpairStatus.v
NvmeQpairLive.v
NvmeQpairDeviations.v
NvmeQpairCompose.v
NvmfBdev.v
NvmfIo.v
NvmfLemmas.v
NvmfTheorems.v
Subsys.v
SubsysInv.v
SubsysReq.v
SubsysExec.v
SubsysGroup.v
SubsysStep.v
SubsysTheorems.v
Pipe.v
PipeLemmas.v
IovLemmas.v
PipeInv.v
PipeOps.v
PipeTheorems.v
Dif.v
DifExt.v
DifMem.v
IovXfer.v
DifLemmas.v
DifBlocks.v
DifCopy.v
DifFlat.v
DifTheorems.v
DifStream.v
DifInterleave.v
DifRemap.v
DifDix.v
UserCmd.v
UserCmdLemmas.v
UserWire.v
UserCmdTheorems.v
Sock.v
SockList.v
SockInv.v
SockRead.v
SockResize.v
SockGroup.v
SockRun.v
SockTheorems.v
SockDeviations.v
