(* ===== verification/Prelude.v ===== *)
(** * Verification of the nof-rep NVMe-over-Fabrics replication stack

    nof-rep is an SPDK tree with load generators that write each I/O to several
    NVMe-over-Fabrics namespaces.  The development follows an I/O from the
    generator that replicates it, through the host driver that splits it into
    requests and the queue pair that carries them, over the sockets of the
    transport, to the target that checks and executes the requests on a block
    device.

    ** The program and its models

    - Replicated generator (app/spdk_nvme_perf_rep/perf_rep.c).  A worker keeps
      g_queue_depth replica groups in flight; a group is a main task and one
      copy per further namespace, on one buffer, linked in a tail queue.
      [PerfRep] models the data and the operations (submit_io_rep,
      allocate_main_task, copy_task, submit_single_io_rep, nvme_submit_io,
      io_complete, task_complete, rep_task_release, cleanup_ns_worker_ctx and
      the retry of queued tasks) over an explicit heap: tasks, io vectors and
      buffers are objects that can be freed, and an access to a freed object is
      the outcome [UB UB_freed].  [PerfRepLemmas], [PerfRepSafety] and
      [PerfRepBuild] hold the invariant and its preservation, [PerfRepTheorems]
      the results.
    - Batched generator (app/spdk_nvme_perf_rep_batch/perf_rep_batch.c).
      [PerfRepBatch] models what it adds to the one above: the linked list of
      groups that wait, the batches, judge_if_send and the busy wait; the
      replicated I/O is that of [PerfRep].  [PerfRepBatchLemmas] treats the list
      and the clock, [PerfRepBatchSafety] the simulation of the handlers by an
      abstract machine, [PerfRepBatchTheorems] whole runs.
    - Tail queues (include/spdk/queue.h, queue_extras.h).  [Tailq] models the
      macros by their pointers (tqe_next, tqe_prev, tqh_first, tqh_last),
      because one link field of a task serves two queues; [tq_rep] says that a
      head represents a list.
    - Latency log (lib/util/latency_log.c and the sampling code of
      lib/nvme/nvme_internal.h): [LatencyLog].  The results of malloc and msgsnd
      in the timer are arguments of its step.
    - Host driver, commands (lib/nvme/nvme_ns_cmd.c, request pool of
      lib/nvme/nvme_internal.h): [NsCmd] models the I/O commands.  A request
      with its children is a tree with the pool identities of its nodes, so
      that leaks and double frees are visible.  [NsCmdLemmas] treats the split
      by transfer size and stripe; [NsCmdTree] what holds of every node of a
      tree; [NsCmdCut] what the splits of a scattered payload share, [NsCmdSgl]
      and [NsCmdPrp] the split by SGL elements and the one by page boundaries,
      [NsCmdVectored] their composition with the first two; [NsCmdTheorems] the
      commands.
    - Host driver, queue pairs (lib/nvme/nvme_qpair.c, nvme_internal.h, and of
      nvme_tcp.c, nvme_transport.c and nvme_ctrlr.c what connects and
      disconnects): [NvmeQpair] models submission of request trees, the queue
      of requests the transport does not take, completion through parents,
      aborts, error injection, polling, disconnection and reconnection over a
      heap of requests.  [NvmeQpairSpec] is an abstract machine over trees;
      [NvmeQpairLemmas], [NvmeQpairDrop], [NvmeQpairRefine],
      [NvmeQpairCommands], [NvmeQpairPoll] and [NvmeQpairIssue] hold the
      simulation, operation by operation; [NvmeQpairRun], [NvmeQpairTheorems],
      [NvmeQpairStatus] and [NvmeQpairLive] runs; [NvmeQpairCompose] composes
      the commands of [NsCmd] with a queue pair; [NvmeQpairDeviations] holds
      the inputs on which the code fails.
    - Host driver, commands with a copied payload (dataset management, copy,
      reservations and I/O management of lib/nvme/nvme_ns_cmd.c,
      nvme_allocate_request_user_copy and its completion in lib/nvme/nvme.c):
      [UserCmd] models them over the request pool of [NsCmd] and the memory of
      [Pipe]; [UserCmdLemmas] holds the invariant of histories, [UserWire] the
      code of the target that reads such payloads, [UserCmdTheorems] the
      results.
    - Pipes and scattered memory (lib/util/pipe.c, lib/util/iov.c): [Pipe], with
      [PipeLemmas], [IovLemmas], [PipeInv], [PipeOps] and [PipeTheorems];
      [IovXfer] has the transfers between iovecs and a flat buffer.  The list of
      free buffers of a group is kept beside the memory, and the link and the
      size that the code stores in a free buffer are written to its first 12
      bytes ([PIPE_HDR]).
    - Protection information (lib/util/dif.c): [Dif] and [DifExt] model its
      functions over the scattered memory of [Pipe]; the CRC functions of ISA-L
      are the class [Crc], with the laws [CrcLaws].  [DifMem] reduces walks over
      iovecs to positions in one list of bytes; [DifLemmas], [DifBlocks],
      [DifCopy] and [DifFlat] show that both paths of every function, the one
      for contiguous blocks and the one for blocks split over iovecs, compute
      the same function of the bytes; [DifTheorems], [DifStream], [DifRemap],
      [DifDix] and [DifInterleave] hold the results.
    - Sockets (lib/sock/sock.c, module/sock/posix/posix.c): [Sock] models the
      receiving side, in which a socket reads ahead into a pipe of the model
      above and a group rotates its list of sockets with data.  [SockList],
      [SockInv], [SockRead], [SockResize], [SockGroup] and [SockRun] hold the
      invariant and the operations, [SockTheorems] and [SockDeviations] the
      results.
    - Target, reservations (lib/nvmf/subsystem.c, lib/nvmf/ctrlr.c,
      lib/nvmf/nvmf.c): [Reservation], [ReservationLemmas],
      [ReservationTheorems].  A registrant is an object with an address, and the
      holder is an address.
    - Target, I/O (lib/nvmf/ctrlr_bdev.c, lib/nvmf/ctrlr.c): [NvmfBdev] models
      the handlers of the commands, with the life of a deallocate command over
      several unmaps; [NvmfIo] the dispatch with the fused commands and the
      reservation check.  [NvmfLemmas] and [NvmfTheorems] hold the proofs.
    - Target, subsystem states (lib/nvmf/subsystem.c, lib/nvmf/nvmf.c,
      lib/nvmf/ctrlr.c, and the iteration over channels of lib/thread/thread.c):
      [Subsys] models start, stop, pause and resume of a subsystem, what they do
      in every poll group, and how a group counts, queues and releases
      requests.  An event is one message or callback on one thread, so that
      histories are interleavings.  [SubsysInv] has the invariant and says
      which histories are considered; [SubsysReq] and [SubsysExec] treat the
      requests of a group, [SubsysGroup] its operations, [SubsysStep] the
      events, [SubsysTheorems] histories and the inputs on which the code fails.

    The parts meet in six places.  [PerfRepBatch] runs the operations of
    [PerfRep].  The commands [PerfRep] logs are the calls of the functions
    [NsCmd] models.  The trees of [NsCmd] are issued on the queue pair of
    [NvmeQpair] (io_command_completes).  Their leaves, with the encoded command,
    are the requests [NvmfIo] executes (split_io_reaches_device), and [NvmfIo]
    consults the poll groups' copy of the state of [Reservation].  The commands
    and payloads of [UserCmd] are what [NvmfBdev] and [Reservation] decode
    (deallocate_end_to_end, reservation_end_to_end).  [Sock] runs on [Pipe].

    ** Conventions

    Machine integers are [Z] with the wrap-around written out ([wrap]); signed
    64-bit arithmetic is checked ([chk64]).  Code runs in the state monad [M S
    A], whose outcome [res] is a result, a process exit, undefined behaviour
    with its reason, or exhausted fuel.  [wp] is its weakest precondition; it
    requires a result, so every theorem stated with it, or with [= Ok _], is a
    statement of total correctness.  Functions outside the modelled files
    (allocator, clock, kernel, block device, transport, persistence, random
    numbers) are fields of environment records or section variables, arbitrary
    unless a theorem names a hypothesis on them.

    ** The theorems

    - Generator.  worker_run_safe, replicas_receive_same_io, io_complete_round
      and the lemma make_group_correct: whole runs are free of undefined
      behaviour and refine a machine of outstanding replicas; replicas receive
      identical commands; a group is built correctly.  The first two assume
      that allocations and submissions succeed and that no namespace drains;
      the lemmas at the end of [PerfRepTheorems] show what happens otherwise.
    - Batched generator.  batched_run_safe: under any order of completions and
      any timing of the loop every group is either outstanding or waits on the
      list exactly once.  batch_rate_limited: the rate is respected between any
      two moments, up to the rounding of the period of an I/O to nanoseconds.
    - Host driver, commands.  contig_cmd_tiles, vectored_cmd_tiles,
      prp_split_minimal and the lemma requests_well_typed: the requests of a
      command tile its blocks, its data and its metadata within the limits
      of the device, failures return the requests except where the theorem says
      that they are lost, the pool that always suffices is bounded, the split by
      page boundaries cuts no more than it has to, and all fields are in the
      ranges of their types.
    - Host driver, copied payloads.  user_copy_conserved: whatever fails, every
      copy is freed once and every request comes back; payload_returned: data
      from the controller reaches the caller.  deallocate_end_to_end,
      reservation_end_to_end: the target decodes what the caller passed.
    - Host driver, queue pairs.  qpair_refines_spec, requests_conserved,
      split_commands_complete, io_command_completes: no assertion fails, no
      request is lost or freed twice, a command is called back exactly once with
      the status of its parts, and polling drains the queue.
    - Pipes and sockets.  pipes_refine_queues, iovcpy_correct,
      iov_xfer_roundtrip, socket_streams_delivered, poll_no_starvation: pipes
      are bounded queues of bytes, sockets deliver the stream of the kernel
      without loss or reordering, and no socket of a group starves.  A pipe of
      a group has at least 12 bytes; the rules of [allowed] in [SockRun] leave
      out what [SockDeviations] shows to fail.
    - Protection information.  dif_verify_exact, dif_roundtrip,
      dif_copy_roundtrip, dif_stream_correct, dix_roundtrip and the lemma
      dif_remap_correct: a verification reports exactly the first block that
      fails, whatever the scattering; generated blocks verify, in place,
      through a bounce buffer, part by part as data arrives, after their tags
      were remapped, and with separate metadata.  dif_misdirected_detected: a
      block read back from another place is rejected.  interleave_maps_data:
      the iovecs made for a transport map the data and no metadata.  They
      assume that the arrays of a call do not overlap, that sizes fit the types
      of the code, and that the first iovec of an array of contiguous blocks is
      not empty.
    - Reservations.  reservation_requests_safe, reservation_stable,
      preempt_transfers_reservation, io_check_correct, restore_roundtrip and
      the lemma exclusive_single_writer: safety and the invariant for every
      sequence of requests of up to 16 hosts, stability, preemption, the I/O
      check against its specification, persistence, mutual exclusion.
    - Target.  split_io_reaches_device, io_cmds_in_bounds,
      exclusive_reservation_enforced, deallocate_completes_at_most_once,
      deallocate_unmaps_every_range and the lemma fused_commands_conserved:
      bounds of the block device accesses (the compare buffer of a fused pair
      apart, which the code does not check), end-to-end delivery of split
      commands, enforcement of exclusive reservations (Copy and passthrough
      apart), and the completion of deallocate commands.
    - Subsystem states.  changes_serialised: no assertion fails, changes take
      effect and are called back in their order, and all poll groups agree with
      the subsystem between changes; pause_quiesces, pause_ends: a pause
      succeeds only when, and always once, the requests it waits for are gone;
      requests_accounted: no request is lost, and none stays queued at an
      active subsystem.  The histories ([ev_ok]) exclude what the lemmas at the
      end of [SubsysTheorems] show to fail: opcode 0Ch on an I/O queue, event
      requests on a queue pair that is not enabled, connect commands queued at
      a group that is started, a stop without memory, and the pause of an
      inactive subsystem.  They also assume that a queue pair with requests in
      flight is found by the removal, that an inactive group has no queue pair
      of the subsystem, and that a namespace changes only in a slot without
      I/O.
    - Latency log.  log_run_conserves: the samples are in the table, in queued
      snapshots, or in those whose msgsnd failed.

    The sections on error paths, deviations and failing inputs evaluate the
    models on inputs where the code does not do what it is meant to.

    ** Bounds and fuel

    Loops over a replica group take the fuel [F]; g_rep_num iterations are
    enough, and the theorems assume only [g_rep_num G <= F].  The loop that
    sends a batch takes batch_size; the busy wait takes the number of readings
    of the clock after which the period has passed, which the theorems ask of
    the clock.  The split loops of [NsCmd] take one unit of fuel per child or
    per SGL element; the theorems ask for the size of the pool, and for more
    than the number [K] of elements of one transfer.  The recursion of
    _nvme_ns_cmd_rw is at most [rw_depth] deep: a stripe split, a transfer
    split, an SGL or PRP split, and the leaf.  The loop of the PRP split does
    not terminate on an element of length zero; its model then runs out of fuel
    for every fuel.  The recursions over request trees of [NvmeQpair] take the
    depth [D], at least the number of requests of the pool and at least 2.
    spdk_iovcpy takes the sum of the lengths of its arrays, which
    iovcpy_terminates proves enough; a transfer takes [xfer_fuel], twice the
    number of its iovecs and one.  The release of the queue of a group takes
    the length of the queue, since no released request is queued again.  The
    loops of [Dif] over the pieces of a block take [pieces], two more than the
    iovecs that are left, and those of the streams [parts], two more than the
    blocks of the part; the theorems show that both are enough.  The walk over
    the sockets with data takes one more than their number.  log_run_conserves
    bounds a run at 2^20 events so that sums of durations fit 64 bits.

    ** Not modelled

    The build of the generators without PERF_LATENCY_LOG is modelled, with one
    worker.  Parsing of options, registration of controllers, and the rest of
    the polling loop of the generators are not modelled.  Of the sockets, the
    sending side is missing: its request queues are inline functions of a
    header that is not part of the sources.  Transports below the queue pair,
    the block device layer, and the handlers of admin and fabrics commands are
    parameters or left out, and so are the creation and destruction of
    subsystems, poll groups and target queue pairs. *)
From stdpp Require Export base numbers list gmap fin_maps.
From Stdlib Require Export Lia.

#[global] Open Scope Z_scope.

(** ** Machine integers

    A w-bit unsigned integer is a [Z] in [0, 2^w); the wrap-around of C's
    unsigned arithmetic is written out with [wrap].  A signed 64-bit result is
    checked with [chk64], because signed overflow is undefined behaviour. *)

Definition wrap (w x : Z) : Z := x mod 2 ^ w.

Declare Scope spdk_scope.
Delimit Scope spdk_scope with spdk.
Abbreviation u8 := (wrap 8).
Abbreviation u16 := (wrap 16).
Abbreviation u32 := (wrap 32).
Abbreviation u64 := (wrap 64).
Notation "x '+32' y" := (wrap 32 (x + y)) (at level 50, left associativity)
  : spdk_scope.
Notation "x '-32' y" := (wrap 32 (x - y)) (at level 50, left associativity)
  : spdk_scope.
Notation "x '*32' y" := (wrap 32 (x * y)) (at level 40, left associativity)
  : spdk_scope.
Notation "x '+64' y" := (wrap 64 (x + y)) (at level 50, left associativity)
  : spdk_scope.
Notation "x '-64' y" := (wrap 64 (x - y)) (at level 50, left associativity)
  : spdk_scope.

(** Conversion of an unsigned value to [int]: two's complement, as every
    compiler the project supports does it. *)
Definition s32 (x : Z) : Z := (x + 2 ^ 31) mod 2 ^ 32 - 2 ^ 31.

Definition UINT16_MAX : Z := 2 ^ 16 - 1.
Definition UINT32_MAX : Z := 2 ^ 32 - 1.
Definition UINT64_MAX : Z := 2 ^ 64 - 1.

(** Error numbers used by the sources (Linux values). *)
Definition EPERM : Z := 1.
Definition EIO : Z := 5.
Definition ENXIO : Z := 6.
Definition ENODEV : Z := 19.
Definition EAGAIN : Z := 11.
Definition ENOMEM : Z := 12.
Definition EBUSY : Z := 16.
Definition EEXIST : Z := 17.
Definition EINVAL : Z := 22.
Definition ERANGE : Z := 34.

(** ** Outcomes of C code

    [Ok a] is a normal result, [Exit n] a call of exit(n), [UB r] an execution
    the C standard leaves undefined (or a failed assertion), with its reason,
    and [OutOfFuel] a loop that was cut off. *)

Inductive ub : Type :=
  | UB_overflow      (** signed overflow *)
  | UB_null          (** null pointer dereference *)
  | UB_freed         (** use of, or second free of, a freed object *)
  | UB_uninit        (** use of an indeterminate value *)
  | UB_bounds        (** array access out of bounds *)
  | UB_div0          (** division by zero *)
  | UB_assert.       (** assert() failed *)

Inductive res (A : Type) : Type :=
  | Ok (a : A)
  | Exit (code : Z)
  | UB (r : ub)
  | OutOfFuel.
Arguments Ok {A} a.
Arguments Exit {A} code.
Arguments UB {A} r.
Arguments OutOfFuel {A}.

#[export] Instance res_ret : MRet res := fun A => Ok.
#[export] Instance res_bind : MBind res := fun A B f m =>
  match m with
  | Ok a => f a
  | Exit c => Exit c
  | UB r => UB r
  | OutOfFuel => OutOfFuel
  end.

Definition chk64 (x : Z) : res Z :=
  if bool_decide (- 2 ^ 63 <= x < 2 ^ 63) then Ok x else UB UB_overflow.

(** A state monad over [res], for the code that threads a heap. *)
Definition M (S A : Type) : Type := S -> res (A * S).

#[export] Instance M_ret {S} : MRet (M S) := fun A a s => Ok (a, s).
#[export] Instance M_bind {S} : MBind (M S) := fun A B f m s =>
  match m s with
  | Ok (a, s') => f a s'
  | Exit c => Exit c
  | UB r => UB r
  | OutOfFuel => OutOfFuel
  end.

Definition fail {S A} (r : ub) : M S A := fun _ => UB r.
Definition get {S} : M S S := fun s => Ok (s, s).
Definition put {S} (s : S) : M S unit := fun _ => Ok (tt, s).
Definition gets {S A} (f : S -> A) : M S A := fun s => Ok (f s, s).
Definition modify {S} (f : S -> S) : M S unit := fun s => Ok (tt, f s).
Definition exit {S A} (c : Z) : M S A := fun _ => Exit c.
Definition out_of_fuel {S A} : M S A := fun _ => OutOfFuel.
Definition lift_opt {S A} (r : ub) (o : option A) : M S A :=
  match o with Some a => mret a | None => fail r end.
Definition c_assert {S} (b : bool) : M S unit :=
  if b then mret tt else fail UB_assert.

Lemma M_bind_ok {S A B} (m : M S A) (k : A -> M S B) s a s' :
  m s = Ok (a, s') -> (m ≫= k) s = k a s'.
Proof. intros H. unfold mbind, M_bind. by rewrite H. Qed.

Lemma M_bind_inv {S A B} (m : M S A) (k : A -> M S B) s b s' :
  (m ≫= k) s = Ok (b, s') ->
  exists a s1, m s = Ok (a, s1) /\ k a s1 = Ok (b, s').
Proof.
  unfold mbind, M_bind. destruct (m s) as [[a s1]| | |]; try discriminate.
  eauto.
Qed.

Lemma M_bind_assoc {S A B C} (m : M S A) (f : A -> M S B) (g : B -> M S C) s :
  ((m ≫= f) ≫= g) s = (m ≫= fun a => f a ≫= g) s.
Proof. unfold mbind, M_bind. by destruct (m s) as [[a s']| | |]. Qed.

Lemma M_bind_ub {S A B} (m : M S A) (k : A -> M S B) s r :
  m s = UB r -> (m ≫= k) s = UB r.
Proof. intros H. unfold mbind, M_bind. by rewrite H. Qed.

(** ** Generic lemmas on machine integers *)

Lemma wrap_range w x : 0 <= w -> 0 <= wrap w x < 2 ^ w.
Proof. intros. apply Z.mod_pos_bound, Z.pow_pos_nonneg; lia. Qed.

Lemma wrap_small w x : 0 <= x < 2 ^ w -> wrap w x = x.
Proof. apply Z.mod_small. Qed.

Lemma wrap_wrap w x : wrap w (wrap w x) = wrap w x.
Proof. apply Zmod_mod. Qed.

Lemma wrap_add_l w x y : wrap w (wrap w x + y) = wrap w (x + y).
Proof. apply Zplus_mod_idemp_l. Qed.

Lemma wrap_add_r w x y : wrap w (x + wrap w y) = wrap w (x + y).
Proof. apply Zplus_mod_idemp_r. Qed.

Lemma wrap_sub_l w x y : wrap w (wrap w x - y) = wrap w (x - y).
Proof. apply Zminus_mod_idemp_l. Qed.

Lemma wrap_mul_l w x y : wrap w (wrap w x * y) = wrap w (x * y).
Proof. apply Zmult_mod_idemp_l. Qed.

Lemma land_bound w x m : 0 <= x -> 0 <= m < 2 ^ w -> 0 <= Z.land x m < 2 ^ w.
Proof.
  intros Hx Hm. assert (0 <= Z.land x m) by (apply Z.land_nonneg; lia).
  destruct (Z.eq_dec (Z.land x m) 0) as [->|Hn]; [lia|]. split; [done|].
  destruct (Z.eq_dec m 0) as [->|]; [by rewrite Z.land_0_r in Hn|].
  apply Z.log2_lt_pow2; [lia|]. pose proof (Z.log2_land x m ltac:(lia) ltac:(lia)).
  pose proof (proj1 (Z.log2_lt_pow2 m w ltac:(lia)) ltac:(lia)). lia.
Qed.

Lemma lor_bound w x y : 0 <= w -> 0 <= x < 2 ^ w -> 0 <= y < 2 ^ w -> 0 <= Z.lor x y < 2 ^ w.
Proof.
  intros Hw Hx Hy. assert (0 <= Z.lor x y) by (apply Z.lor_nonneg; lia).
  destruct (Z.eq_dec (Z.lor x y) 0) as [->|Hn]; [lia|]. split; [done|].
  destruct (Z.eq_dec x 0) as [->|]; [rewrite Z.lor_0_l; lia|].
  destruct (Z.eq_dec y 0) as [->|]; [rewrite Z.lor_0_r; lia|].
  apply Z.log2_lt_pow2; [lia|]. rewrite Z.log2_lor by lia. apply Z.max_lub_lt; apply Z.log2_lt_pow2; lia.
Qed.

Lemma chk64_ok x : - 2 ^ 63 <= x < 2 ^ 63 -> chk64 x = Ok x.
Proof. intros H. unfold chk64. by rewrite bool_decide_true. Qed.

Lemma s32_small x : - 2 ^ 31 <= x < 2 ^ 31 -> s32 x = x.
Proof. intros H. unfold s32. rewrite Z.mod_small; lia. Qed.

Create HintDb spdk.
Create Rewrite HintDb spdk_wrap.
#[export] Hint Rewrite @wrap_wrap @wrap_add_l @wrap_add_r @wrap_sub_l
  @wrap_mul_l : spdk_wrap.
#[export] Hint Resolve wrap_range : spdk.

(** ** Sums of integers *)

Definition zsum (l : list Z) : Z := foldr Z.add 0 l.
#[global] Arguments zsum : simpl never.

Lemma zsum_nil : zsum [] = 0.
Proof. done. Qed.

Lemma zsum_cons x l : zsum (x :: l) = x + zsum l.
Proof. done. Qed.

Lemma zsum_app l k : zsum (l ++ k) = zsum l + zsum k.
Proof.
  unfold zsum. induction l as [|x l IH]; simpl; [done | rewrite IH; lia].
Qed.

Lemma zsum_repeat (n : nat) x : zsum (repeat x n) = Z.of_nat n * x.
Proof.
  unfold zsum. induction n as [|n IH]; [done|].
  cbn [repeat foldr]. rewrite IH. lia.
Qed.

(** ** Lists *)

Lemma elem_of_concat_map {A B} (f : A -> list B) l x :
  x ∈ concat (map f l) <-> exists a, a ∈ l /\ x ∈ f a.
Proof.
  induction l as [|a l IH]; cbn.
  - split; [by intros ?%not_elem_of_nil|]. by intros (a & ?%not_elem_of_nil & _).
  - rewrite elem_of_app, IH. setoid_rewrite elem_of_cons. naive_solver.
Qed.

(** The middle element of a concatenation moves to the front. *)
Lemma concat_mid {A B} (f : A -> list B) l1 t l2 :
  concat (map f (l1 ++ t :: l2)) ≡ₚ f t ++ concat (map f (l1 ++ l2)).
Proof.
  rewrite !map_app, !concat_app. cbn. rewrite !(assoc (++)). f_equiv.
  apply Permutation_app_comm.
Qed.

(** [res_inv H] takes apart a successful computation in [res]. *)
Lemma res_bind_inv {A B} (m : res A) (f : A -> res B) b :
  (m ≫= f) = Ok b -> exists a, m = Ok a /\ f a = Ok b.
Proof. destruct m; cbn; try discriminate; eauto. Qed.

Lemma chk64_inv x y : chk64 x = Ok y -> y = x.
Proof. unfold chk64. case_bool_decide; congruence. Qed.

Create Rewrite HintDb zsum.
#[export] Hint Rewrite zsum_nil zsum_cons zsum_app : zsum.

Ltac res_inv :=
  repeat match goal with
  | H : (_ ≫= _) = Ok _ |- _ =>
      apply res_bind_inv in H; destruct H as (? & ? & H)
  | H : chk64 _ = Ok _ |- _ => apply chk64_inv in H
  | H : mret _ = Ok _ |- _ => injection H as <-
  | H : Ok _ = Ok _ |- _ => injection H as ?
  | H : UB _ = Ok _ |- _ => discriminate H
  | p : (_ * _)%type |- _ => destruct p
  | H : (if ?b then _ else _) = Ok _ |- _ => destruct b eqn:?
  end; simplify_eq.

(** [mstep] runs a monadic program by one bind whose action reduces. *)
Ltac mstep := erewrite M_bind_ok; [| solve [eauto | reflexivity]]; cbn beta.

(** [case_ifs] splits every [if] on a boolean of the goal. *)
Ltac case_ifs :=
  repeat match goal with
  | |- context [if ?b then _ else _] => destruct b eqn:?
  end.

(** ** Little-endian fields *)

Fixpoint le_bytes (n : nat) (x : Z) : list Z :=
  match n with O => [] | S n' => x mod 256 :: le_bytes n' (x / 256) end.

Lemma le_bytes_length n x : length (le_bytes n x) = n.
Proof. revert x. induction n as [|n IH]; intros x; cbn; [done|]. by rewrite IH. Qed.

(** ** A weakest precondition for the state monad

    [wp m Q s]: run in [s], [m] returns normally (no exit, no undefined
    behaviour, no loop cut off) with a result and a state that satisfy [Q]. *)

Definition wp {S A} (m : M S A) (Q : A -> S -> Prop) (s : S) : Prop :=
  exists a s', m s = Ok (a, s') /\ Q a s'.

Section wp.
Context {S : Type}.

Lemma wp_ret {A} (a : A) Q (s : S) : Q a s -> wp (mret a) Q s.
Proof. intros H. by exists a, s. Qed.

Lemma wp_bind {A B} (m : M S A) (k : A -> M S B) Q (s : S) :
  wp m (fun a => wp (k a) Q) s -> wp (m ≫= k) Q s.
Proof.
  intros (a & s1 & Hm & b & s2 & Hk & HQ). exists b, s2. split; [|done].
  by erewrite M_bind_ok.
Qed.

Lemma wp_mono {A} (m : M S A) (P Q : A -> S -> Prop) s :
  wp m P s -> (forall a s', P a s' -> Q a s') -> wp m Q s.
Proof. intros (a & s' & H & HP) HPQ. exists a, s'. auto. Qed.

Lemma wp_get Q (s : S) : Q s s -> wp get Q s.
Proof. intros H. by exists s, s. Qed.

Lemma wp_put Q (s s' : S) : Q tt s' -> wp (put s') Q s.
Proof. intros H. by exists tt, s'. Qed.

Lemma wp_modify Q f (s : S) : Q tt (f s) -> wp (modify f) Q s.
Proof. intros H. by exists tt, (f s). Qed.

Lemma wp_assert Q b (s : S) : b = true -> Q tt s -> wp (c_assert b) Q s.
Proof. intros -> H. by exists tt, s. Qed.

(** Programs are deterministic. *)
Lemma wp_conj {A} (m : M S A) (P Q : A -> S -> Prop) s :
  wp m P s -> wp m Q s -> wp m (fun a s' => P a s' /\ Q a s') s.
Proof.
  intros (a & s' & Hm & HP) (b & s'' & Hm' & HQ).
  exists a, s'. rewrite Hm in Hm'. injection Hm' as <- <-. done.
Qed.

Lemma wp_eq {A} (m m' : M S A) Q s : m s = m' s -> wp m' Q s -> wp m Q s.
Proof. intros He (a & s' & Hm & HQ). exists a, s'. by rewrite He. Qed.

Lemma wp_eval {A} (m : M S A) Q s a s' : m s = Ok (a, s') -> Q a s' -> wp m Q s.
Proof. intros Hm HQ. by exists a, s'. Qed.
End wp.

(** [wstep] applies the rule for the first action of the program; the goal is
    left at actions without a rule and at case distinctions. *)
Ltac wstep :=
  match goal with
  | |- wp (_ ≫= _) _ _ => apply wp_bind
  | |- wp (mret _) _ _ => apply wp_ret
  | |- wp get _ _ => apply wp_get
  | |- wp (put _) _ _ => apply wp_put
  | |- wp (modify _) _ _ => apply wp_modify
  end; cbn beta iota.
