(* ===== verification/LatencyLog.v ===== *)
(** * Latency accounting (lib/util/latency_log.c, include/spdk/util.h)

    The [timespec] arithmetic, the per-namespace accumulators that the perf
    tools and the NVMe driver add samples to, the one-second timer that moves
    the accumulators to the message queue, and the writer that turns a
    snapshot into CSV rows. *)

From S2P Require Import Prelude.

Record timespec := Timespec { tv_sec : Z; tv_nsec : Z }.

Definition NSEC : Z := 1000000000.

Definition timespec_zero : timespec := Timespec 0 0.

(** ** timespec arithmetic

    [tv_sec] and [tv_nsec] are C longs: every addition, subtraction and
    multiplication is checked for overflow. *)

(** Result: the return code and [*result]. *)
Definition timespec_sub (a b : timespec) : res (Z * timespec) :=
  sec ← chk64 (tv_sec a - tv_sec b);
  nsec ← chk64 (tv_nsec a - tv_nsec b);
  '(sec, nsec) ← (if nsec <? 0 then
                    sec' ← chk64 (sec - 1);
                    nsec' ← chk64 (nsec + NSEC);
                    mret (sec', nsec')
                  else mret (sec, nsec));
  mret (if sec <? 0 then -1 else 0, Timespec sec nsec).

Definition timespec_add (a b : timespec) : res timespec :=
  sec ← chk64 (tv_sec a + tv_sec b);
  nsec ← chk64 (tv_nsec a + tv_nsec b);
  if NSEC <=? nsec then
    sec' ← chk64 (sec + 1);
    nsec' ← chk64 (nsec - NSEC);
    mret (Timespec sec' nsec')
  else mret (Timespec sec nsec).

(** C's [/] and [%] truncate: [Z.quot] and [Z.rem].  The result is the return
    code and the new [*ts]. *)
Definition timespec_divide (ts : timespec) (num : Z) : res (Z * timespec) :=
  if num <=? 0 then mret (-1, ts)
  else
    let sec_result := Z.quot (tv_sec ts) num in
    let sec_remainder := Z.rem (tv_sec ts) num in
    let nsec_result := Z.quot (tv_nsec ts) num in
    let nsec_remainder := Z.rem (tv_nsec ts) num in
    t ← chk64 (sec_remainder * NSEC);
    remainder_nsec_as_sec ← chk64 (t + nsec_remainder);
    nsec_result ← chk64 (nsec_result + Z.quot remainder_nsec_as_sec num);
    sec_result ← chk64 (sec_result + Z.quot nsec_result NSEC);
    mret (0, Timespec sec_result (Z.rem nsec_result NSEC)).

Definition timespec_multiply (ts : timespec) (num : Z) : res (Z * timespec) :=
  if num <=? 0 then mret (-1, ts)
  else
    sec_result ← chk64 (tv_sec ts * num);
    nsec_result ← chk64 (tv_nsec ts * num);
    let carry_sec := Z.quot nsec_result NSEC in
    let nsec_result := Z.rem nsec_result NSEC in
    sec_result ← chk64 (sec_result + carry_sec);
    mret (0, Timespec sec_result nsec_result).

(** The number of nanoseconds a timespec stands for, and its normal form. *)
Definition ns_of (t : timespec) : Z := tv_sec t * NSEC + tv_nsec t.

Definition ts_norm (t : timespec) : Prop :=
  0 <= tv_nsec t < NSEC /\ 0 <= tv_sec t < 2 ^ 61.

(** ** The accumulators *)

Record latency_log_ctx := LatCtx { latency_time : timespec; io_num : Z }.

Record latency_ns_log := NsLog {
  task_queue_latency : latency_log_ctx;
  task_complete_latency : latency_log_ctx;
  req_send_latency : latency_log_ctx;
  req_complete_latency : latency_log_ctx;
  wr_send_latency : latency_log_ctx;
  wr_complete_latency : latency_log_ctx }.

Definition lat_zero : latency_log_ctx := LatCtx timespec_zero 0.
Definition ns_log_zero : latency_ns_log :=
  NsLog lat_zero lat_zero lat_zero lat_zero lat_zero lat_zero.

(** One sample: [timespec_sub(&sub_time, t1, t0)], [timespec_add] into the
    accumulator and [io_num++]; the return code of timespec_sub is ignored. *)
Definition log_sample (c : latency_log_ctx) (t1 t0 : timespec)
  : res latency_log_ctx :=
  '(_, sub_time) ← timespec_sub t1 t0;
  lat ← timespec_add (latency_time c) sub_time;
  mret (LatCtx lat (u32 (io_num c + 1))).

(** The time stamps of an nvme_request. *)
Record req_times := ReqTimes {
  req_submit_time : timespec;
  req_complete_time : timespec;
  wr_send_time : timespec;
  wr_send_complete_time : timespec;
  wr_recv_time : timespec }.

(** ** The state of the accounting

    [ll_logs] is latency_msg.latency_log_namespaces (namespace_num entries),
    [ll_queue] the System V message queue, oldest message first, [ll_leaked] the
    snapshots that were allocated and neither queued nor freed, and [ll_prob] is
    is_prob_finish. *)
Record log_state := LogState {
  ll_logs : list latency_ns_log;
  ll_queue : list (list latency_ns_log);
  ll_leaked : list (list latency_ns_log);
  ll_prob : bool }.

Definition set_logs (l : list latency_ns_log) (s : log_state) : log_state :=
  LogState l (ll_queue s) (ll_leaked s) (ll_prob s).

(** A change of the entry of namespace [ns]. *)
Definition upd_ns (s : log_state) (ns : nat)
    (f : latency_ns_log -> res latency_ns_log) : res log_state :=
  match ll_logs s !! ns with
  | None => UB UB_bounds
  | Some l => l' ← f l; mret (set_logs (<[ns := l']> (ll_logs s)) s)
  end.

(** The accounting block of nvme_complete_request. *)
Definition nvme_complete_request_log (ns : nat) (t : req_times) (s : log_state)
  : res log_state :=
  if ll_prob s then
    upd_ns s ns (fun l =>
      rs ← log_sample (req_send_latency l) (wr_send_time t) (req_submit_time t);
      rc ← log_sample (req_complete_latency l) (req_complete_time t)
             (req_submit_time t);
      ws ← log_sample (wr_send_latency l) (wr_send_complete_time t)
             (wr_send_time t);
      wc ← log_sample (wr_complete_latency l) (wr_recv_time t) (wr_send_time t);
      mret (NsLog (task_queue_latency l) (task_complete_latency l) rs rc ws wc))
  else mret s.

(** ** The one-second timer *)

Definition cleanup_log (l : list latency_ns_log) : list latency_ns_log :=
  map (fun _ => ns_log_zero) l.

Definition copy_latency_ns_log (l : list latency_ns_log) : list latency_ns_log :=
  map (fun x => x) l.

Definition ns_log_nonempty (l : latency_ns_log) : bool :=
  negb (io_num (task_complete_latency l) =? 0)
  || negb (io_num (task_queue_latency l) =? 0)
  || negb (io_num (req_send_latency l) =? 0)
  || negb (io_num (req_complete_latency l) =? 0)
  || negb (io_num (wr_send_latency l) =? 0)
  || negb (io_num (wr_complete_latency l) =? 0).

Fixpoint is_io_num_not_empty (l : list latency_ns_log) : bool :=
  match l with
  | [] => false
  | x :: l' => if ns_log_nonempty x then true else is_io_num_not_empty l'
  end.

(** [mem_ok] and [sent] are the outcomes of malloc and of msgsnd, neither of which
    the code looks at: the copy goes through the pointer malloc returned, and the
    table is cleared when the message was not taken too. *)
Definition latency_log_1s (mem_ok sent : bool) (s : log_state) : res log_state :=
  if is_io_num_not_empty (ll_logs s) then
    if negb mem_ok then UB UB_null
    else
      let temp := copy_latency_ns_log (ll_logs s) in
      let logs := cleanup_log (ll_logs s) in
      mret (if sent then LogState logs (ll_queue s ++ [temp]) (ll_leaked s) (ll_prob s)
            else LogState logs (ll_queue s) (ll_leaked s ++ [temp]) (ll_prob s))
  else mret s.

(** ** The CSV writer *)

Inductive row_name :=
  | task_queue | task_complete | req_send | req_complete | wr_send | wr_complete.

Record row := Row {
  r_id : Z; r_ns : Z; r_name : row_name;
  r_latency : timespec; r_io_num : Z; r_average : timespec }.

Inductive line := LTitle | LRow (r : row) | LBlank.

(** [if_open] and the static [num] of write_log_tasks_to_file, and the lines
    of the file. *)
Record writer := Writer { if_open : bool; w_num : Z; w_lines : list line }.

Definition fprint_log (namespace_num i num : Z) (name : row_name)
    (latency : timespec) (n : Z) : res line :=
  '(_, average) ← timespec_divide latency (s32 n);
  mret (LRow (Row (Z.quot num namespace_num) i name latency n average)).

(** [opened] is the outcome of fopen; [w+] truncates the file.  When fopen
    fails the code jumps to [err] and calls fclose on the null pointer. *)
Definition write_log_tasks_to_file (namespace_num i : Z) (l : latency_ns_log)
    (new_line : bool) (opened : bool) (w : writer) : res writer :=
  if negb opened then UB UB_null
  else
    let lines := if if_open w then w_lines w else [LTitle] in
    let row name (c : latency_log_ctx) n :=
      fprint_log namespace_num i (w_num w) name (latency_time c) n in
    r1 ← row task_queue (task_queue_latency l) (io_num (task_queue_latency l));
    r2 ← row task_complete (task_complete_latency l)
           (io_num (task_complete_latency l));
    r3 ← row req_send (req_send_latency l) (io_num (req_send_latency l));
    r4 ← row req_complete (req_complete_latency l)
           (io_num (req_complete_latency l));
    r5 ← row wr_send (wr_send_latency l) (io_num (wr_complete_latency l));
    r6 ← row wr_complete (wr_complete_latency l)
           (io_num (wr_complete_latency l));
    num ← (if bool_decide (w_num w + 1 < 2 ^ 31) then Ok (w_num w + 1)
           else UB UB_overflow);
    mret (Writer true num
            (lines ++ [r1; r2; r3; r4; r5; r6]
                   ++ (if new_line then [LBlank] else []))).

(** [opened i] is the outcome of the fopen of iteration [i]. *)
Fixpoint write_rows (opened : Z -> bool) (namespace_num i : Z)
    (ls : list latency_ns_log) (w : writer) : res writer :=
  match ls with
  | [] => mret w
  | l :: ls' =>
      w' ← write_log_tasks_to_file namespace_num i l
             (i =? namespace_num - 1) (opened i) w;
      write_rows opened namespace_num (i + 1) ls' w'
  end.

Definition write_latency_tasks_log (opened : Z -> bool)
    (ls : list latency_ns_log) (w : writer) : res writer :=
  write_rows opened (Z.of_nat (length ls)) 0 ls w.

(** ** Runs of the accounting

    The events of a run: a sample of nvme_submit_io (task queue latency), a
    sample of task_complete, the accounting block of nvme_complete_request, the
    end of probing (is_prob_finish is set), a tick of the timer. *)
Inductive log_event :=
  | EvTaskQueue (ns : nat) (t1 t0 : timespec)
  | EvTaskComplete (ns : nat) (t1 t0 : timespec)
  | EvRequest (ns : nat) (t : req_times)
  | EvProbed
  | EvTick (mem_ok sent : bool).

Definition log_step (e : log_event) (s : log_state) : res log_state :=
  match e with
  | EvTaskQueue ns t1 t0 => upd_ns s ns (fun l =>
      c ← log_sample (task_queue_latency l) t1 t0;
      mret (NsLog c (task_complete_latency l) (req_send_latency l)
              (req_complete_latency l) (wr_send_latency l)
              (wr_complete_latency l)))
  | EvTaskComplete ns t1 t0 => upd_ns s ns (fun l =>
      c ← log_sample (task_complete_latency l) t1 t0;
      mret (NsLog (task_queue_latency l) c (req_send_latency l)
              (req_complete_latency l) (wr_send_latency l)
              (wr_complete_latency l)))
  | EvRequest ns t => nvme_complete_request_log ns t s
  | EvProbed => mret (LogState (ll_logs s) (ll_queue s) (ll_leaked s) true)
  | EvTick mem_ok sent => latency_log_1s mem_ok sent s
  end.

Fixpoint log_run (es : list log_event) (s : log_state) : res log_state :=
  match es with
  | [] => mret s
  | e :: es' => s' ← log_step e s; log_run es' s'
  end.

(** What the accumulators should hold: for namespace [ns] and an accumulator
    selected by its row name, the durations of the samples of a run.  Requests
    count once probing has ended ([prob]). *)
Definition ev_samples (r : row_name) (ns : nat) (prob : bool) (e : log_event) : list Z :=
  let at_ns (n : nat) (d : Z) := if bool_decide (n = ns) then [d] else [] in
  let req_ns (n : nat) (d : Z) := if prob then at_ns n d else [] in
  match e, r with
  | EvTaskQueue n t1 t0, task_queue => at_ns n (ns_of t1 - ns_of t0)
  | EvTaskComplete n t1 t0, task_complete => at_ns n (ns_of t1 - ns_of t0)
  | EvRequest n t, req_send =>
      req_ns n (ns_of (wr_send_time t) - ns_of (req_submit_time t))
  | EvRequest n t, req_complete =>
      req_ns n (ns_of (req_complete_time t) - ns_of (req_submit_time t))
  | EvRequest n t, wr_send =>
      req_ns n (ns_of (wr_send_complete_time t) - ns_of (wr_send_time t))
  | EvRequest n t, wr_complete =>
      req_ns n (ns_of (wr_recv_time t) - ns_of (wr_send_time t))
  | _, _ => []
  end.

Fixpoint run_samples (r : row_name) (ns : nat) (prob : bool) (es : list log_event) : list Z :=
  match es with
  | [] => []
  | e :: es' =>
      ev_samples r ns prob e
      ++ run_samples r ns (match e with EvProbed => true | _ => prob end) es'
  end.

Definition sel (r : row_name) (l : latency_ns_log) : latency_log_ctx :=
  match r with
  | task_queue => task_queue_latency l
  | task_complete => task_complete_latency l
  | req_send => req_send_latency l
  | req_complete => req_complete_latency l
  | wr_send => wr_send_latency l
  | wr_complete => wr_complete_latency l
  end.

(** Sums of an accumulator over the table, the queued snapshots and the leaked
    ones. *)
Definition at_ns (f : latency_ns_log -> Z) (ns : nat) (t : list latency_ns_log)
  : Z := from_option f 0 (t !! ns).
Definition sum_state (f : latency_ns_log -> Z) (ns : nat) (s : log_state) : Z :=
  at_ns f ns (ll_logs s) + zsum (map (at_ns f ns) (ll_queue s))
  + zsum (map (at_ns f ns) (ll_leaked s)).
Definition total_ns (r : row_name) := sum_state (fun l => ns_of (latency_time (sel r l))).
Definition total_io (r : row_name) := sum_state (fun l => io_num (sel r l)).

(** ** Correctness of the timespec arithmetic *)

(** Whatever the operands, a computation that does not overflow is exact. *)
Lemma timespec_sub_exact a b rc t :
  timespec_sub a b = Ok (rc, t) -> ns_of t = ns_of a - ns_of b.
Proof. unfold timespec_sub, ns_of, NSEC. intros H. res_inv; cbn; lia. Qed.

Lemma timespec_add_exact a b t :
  timespec_add a b = Ok t -> ns_of t = ns_of a + ns_of b.
Proof. unfold timespec_add, ns_of, NSEC. intros H. res_inv; cbn; lia. Qed.

(** Evaluation of the checked arithmetic when the bounds hold. *)
Ltac chk :=
  repeat (rewrite chk64_ok by (cbn; unfold NSEC in *; first [lia | nia]); cbn [mbind res_bind]).

(** timespec_sub on times with a normalised nanosecond part never overflows,
    yields a normalised nanosecond part and the exact difference, and returns -1
    exactly when the first time is earlier than the second. *)
Lemma timespec_sub_correct a b :
  0 <= tv_nsec a < NSEC -> 0 <= tv_nsec b < NSEC ->
  - 2 ^ 62 < tv_sec a < 2 ^ 62 -> - 2 ^ 61 < tv_sec b < 2 ^ 61 ->
  exists rc t, timespec_sub a b = Ok (rc, t)
    /\ 0 <= tv_nsec t < NSEC
    /\ ns_of t = ns_of a - ns_of b
    /\ rc = if bool_decide (ns_of a < ns_of b) then -1 else 0.
Proof.
  intros Ha Hb Hsa Hsb. destruct (timespec_sub a b) as [[rc t]| | |] eqn:E.
  2-4: exfalso; revert E; unfold timespec_sub; chk; case_ifs; cbn; chk; discriminate.
  exists rc, t. split; [done|].
  pose proof (timespec_sub_exact _ _ _ _ E) as Hx.
  assert (Hn : 0 <= tv_nsec t < NSEC /\ rc = if tv_sec t <? 0 then -1 else 0).
  { revert E. unfold timespec_sub. intros E. res_inv; cbn in *; unfold NSEC in *; lia. }
  destruct Hn as [Hn ->]. do 2 (split; [done|]).
  unfold ns_of, NSEC in *. case_bool_decide; destruct (Z.ltb_spec (tv_sec t) 0); lia.
Qed.

Lemma timespec_add_ok a b :
  ts_norm a -> 0 <= tv_nsec b < NSEC -> - 2 ^ 61 <= tv_sec b < 2 ^ 61 ->
  exists t, timespec_add a b = Ok t /\ 0 <= tv_nsec t < NSEC.
Proof.
  unfold ts_norm, timespec_add. intros Ha Hb Hs. chk.
  destruct (Z.leb_spec NSEC (tv_nsec a + tv_nsec b)).
  - chk. eexists. split; [reflexivity|]. cbn. unfold NSEC in *. lia.
  - eexists. split; [reflexivity|]. cbn. unfold NSEC in *. lia.
Qed.

Lemma timespec_divide_floor ts num :
  ts_norm ts -> 0 < num < 2 ^ 31 ->
  exists t, timespec_divide ts num = Ok (0, t)
    /\ ts_norm t /\ ns_of t = ns_of ts / num.
Proof.
  intros [Hn Hs] Hnum. unfold timespec_divide.
  destruct (Z.leb_spec num 0); [lia|].
  rewrite !Z.quot_div_nonneg, !Z.rem_mod_nonneg by lia.
  pose proof (Z.mod_pos_bound (tv_sec ts) num ltac:(lia)).
  pose proof (Z.mod_pos_bound (tv_nsec ts) num ltac:(lia)).
  pose proof (Z.div_pos (tv_sec ts) num ltac:(lia) ltac:(lia)).
  pose proof (Z.div_pos (tv_nsec ts) num ltac:(lia) ltac:(lia)).
  pose proof (Z.div_mod (tv_sec ts) num ltac:(lia)) as Es.
  pose proof (Z.div_mod (tv_nsec ts) num ltac:(lia)) as En.
  set (sq := tv_sec ts / num) in *. set (sr := tv_sec ts mod num) in *.
  set (nq := tv_nsec ts / num) in *. set (nr := tv_nsec ts mod num) in *.
  assert (Hq : 0 <= (sr * NSEC + nr) / num <= NSEC).
  { split; [apply Z.div_pos; unfold NSEC in *; lia|].
    apply Z.div_le_upper_bound; unfold NSEC in *; nia. }
  chk. rewrite !Z.quot_div_nonneg by (unfold NSEC in *; nia). chk.
  rewrite Z.quot_div_nonneg, Z.rem_mod_nonneg by (unfold NSEC in *; lia).
  set (q := (sr * NSEC + nr) / num) in *.
  assert (Hnq : nq <= NSEC) by (unfold NSEC in *; nia).
  pose proof (Z.div_mod (nq + q) NSEC ltac:(unfold NSEC; lia)) as Ec.
  pose proof (Z.mod_pos_bound (nq + q) NSEC ltac:(unfold NSEC; lia)).
  assert (0 <= (nq + q) / NSEC <= 2).
  { split; [apply Z.div_pos; unfold NSEC; lia|].
    apply Z.div_le_upper_bound; unfold NSEC in *; lia. }
  assert (Htot : sq * NSEC + nq + q = ns_of ts / num).
  { unfold ns_of. rewrite Es, En.
    replace ((num * sq + sr) * NSEC + (num * nq + nr))
      with ((sr * NSEC + nr) + (sq * NSEC + nq) * num) by lia.
    rewrite Z.div_add by lia. fold q. lia. }
  assert (Hle : ns_of ts / num <= ns_of ts).
  { apply Z.div_le_upper_bound; unfold ns_of, NSEC in *; nia. }
  assert (Hbound : sq + (nq + q) / NSEC < 2 ^ 61).
  { unfold ns_of, NSEC in *. lia. }
  chk. eexists. split; [reflexivity|].
  unfold ts_norm; cbn. split; [split; [done|lia]|].
  rewrite <- Htot. unfold ns_of; cbn. lia.
Qed.

(** timespec_divide on a normalised time and a positive [int] divisor
    never overflows and yields the floor of the quotient, normalised (no
    nanosecond is lost when the seconds' remainder is carried over); a divisor
    that is not positive leaves the time unchanged and returns -1. *)
Lemma timespec_divide_correct ts num :
  ts_norm ts -> - 2 ^ 31 <= num < 2 ^ 31 ->
  exists rc t, timespec_divide ts num = Ok (rc, t)
    /\ ts_norm t
    /\ (0 < num -> rc = 0 /\ ns_of t = ns_of ts / num)
    /\ (num <= 0 -> rc = -1 /\ t = ts).
Proof.
  intros Hts Hnum. destruct (Z.leb_spec num 0) as [Hle|Hgt].
  - exists (-1), ts. unfold timespec_divide.
    destruct (Z.leb_spec num 0); [|lia]. repeat split; try apply Hts; lia.
  - destruct (timespec_divide_floor ts num Hts ltac:(lia)) as (t & -> & Hn & Ht).
    exists 0, t. repeat split; try apply Hn; try done; lia.
Qed.

(** timespec_multiply on a normalised time whose product stays below
    2^61 seconds is exact and normalised. *)
Lemma timespec_multiply_correct ts num :
  ts_norm ts -> 0 < num < 2 ^ 31 -> tv_sec ts * num < 2 ^ 61 ->
  exists t, timespec_multiply ts num = Ok (0, t)
    /\ 0 <= tv_nsec t < NSEC /\ ns_of t = ns_of ts * num.
Proof.
  intros [Hn Hs] Hnum Hm. unfold timespec_multiply.
  destruct (Z.leb_spec num 0); [lia|]. chk.
  rewrite Z.quot_div_nonneg, Z.rem_mod_nonneg by (unfold NSEC in *; nia).
  pose proof (Z.div_mod (tv_nsec ts * num) NSEC ltac:(unfold NSEC; lia)).
  pose proof (Z.mod_pos_bound (tv_nsec ts * num) NSEC ltac:(unfold NSEC; lia)).
  assert (0 <= tv_nsec ts * num / NSEC < 2 ^ 31).
  { split; [apply Z.div_pos; unfold NSEC in *; nia|].
    apply Z.div_lt_upper_bound; unfold NSEC in *; nia. }
  chk. eexists. split; [reflexivity|]. cbn. split; [done|].
  unfold ns_of; cbn. lia.
Qed.

(** ** Conservation of samples *)

Lemma log_sample_exact c t1 t0 c' :
  log_sample c t1 t0 = Ok c' ->
  ns_of (latency_time c') = ns_of (latency_time c) + (ns_of t1 - ns_of t0)
  /\ io_num c' = u32 (io_num c + 1).
Proof.
  unfold log_sample. intros H. res_inv; cbn. split; [|done].
  repeat match goal with
  | H : timespec_add _ _ = Ok _ |- _ => apply timespec_add_exact in H
  | H : timespec_sub _ _ = Ok _ |- _ => apply timespec_sub_exact in H
  end. lia.
Qed.

Lemma upd_ns_inv s ns f s' :
  upd_ns s ns f = Ok s' ->
  exists l l', ll_logs s !! ns = Some l /\ f l = Ok l'
    /\ s' = set_logs (<[ns := l']> (ll_logs s)) s.
Proof.
  unfold upd_ns. destruct (ll_logs s !! ns) as [l|]; [|discriminate].
  intros H. res_inv. eauto.
Qed.

Lemma sum_state_upd g ns k l l' s :
  ll_logs s !! ns = Some l ->
  sum_state g k (set_logs (<[ns := l']> (ll_logs s)) s)
  = sum_state g k s + if bool_decide (ns = k) then g l' - g l else 0.
Proof.
  intros Hl. unfold sum_state, at_ns; cbn. case_bool_decide; subst.
  - rewrite list_lookup_insert_eq by (eapply lookup_lt_Some; eauto).
    rewrite Hl. cbn. lia.
  - rewrite list_lookup_insert_ne by done. lia.
Qed.

Lemma sum_state_1s g k m b s s' :
  g ns_log_zero = 0 -> latency_log_1s m b s = Ok s' -> sum_state g k s' = sum_state g k s.
Proof.
  intros Hg. unfold latency_log_1s. destruct (is_io_num_not_empty _); [|by intros [= <-]].
  destruct m; [|done]. intros [= <-]. unfold sum_state, at_ns, cleanup_log, copy_latency_ns_log.
  destruct b; cbn; rewrite map_id, map_app, list_lookup_fmap; cbn;
    autorewrite with zsum; destruct (ll_logs s !! k); cbn; lia.
Qed.

Lemma log_step_prob e s s' :
  log_step e s = Ok s' -> ll_prob s' = match e with EvProbed => true | _ => ll_prob s end.
Proof.
  destruct e as [ns t1 t0|ns t1 t0|ns t| |m b]; cbn; intros H.
  1-2: by apply upd_ns_inv in H as (l & l' & _ & _ & ->).
  - unfold nvme_complete_request_log in H. destruct (ll_prob s) eqn:E; [|by injection H as <-].
    by apply upd_ns_inv in H as (l & l' & _ & _ & ->).
  - by injection H as <-.
  - unfold latency_log_1s in H. destruct (is_io_num_not_empty _); [|by injection H as <-].
    destruct m; [|done]. injection H as <-. by destruct b.
Qed.

Lemma log_step_totals r k e s s' :
  log_step e s = Ok s' ->
  total_ns r k s' = total_ns r k s + zsum (ev_samples r k (ll_prob s) e)
  /\ (total_io r k s' - total_io r k s
       - Z.of_nat (length (ev_samples r k (ll_prob s) e))) mod 2 ^ 32 = 0.
Proof.
  assert (Hmod : forall x, (u32 (x + 1) - x - 1) mod 2 ^ 32 = 0).
  { intros x. apply Z.mod_divide; [lia|]. exists (- ((x + 1) / 2 ^ 32)).
    pose proof (Z.div_mod (x + 1) (2 ^ 32)). unfold wrap. lia. }
  assert (Hsame : total_ns r k s' = total_ns r k s -> total_io r k s' = total_io r k s ->
    ev_samples r k (ll_prob s) e = [] ->
    total_ns r k s' = total_ns r k s + zsum (ev_samples r k (ll_prob s) e)
    /\ (total_io r k s' - total_io r k s
         - Z.of_nat (length (ev_samples r k (ll_prob s) e))) mod 2 ^ 32 = 0).
  { intros H1 H2 ->. rewrite zsum_nil, H1, H2. split; [lia|]. by rewrite Z.sub_diag. }
  destruct e as [ns t1 t0|ns t1 t0|ns t| |m b]; cbn [log_step]; intros H.
  4: { injection H as <-. apply Hsame; by destruct r. }
  4: { apply Hsame; [eapply sum_state_1s; [|exact H]; by destruct r..|by destruct r]. }
  3: unfold nvme_complete_request_log in H; destruct (ll_prob s) eqn:Ep;
       [|injection H as <-; apply Hsame; by destruct r].
  all: clear Hsame; unfold total_ns, total_io; apply upd_ns_inv in H as (l & l' & Hl & Hf & ->).
  all: rewrite !(sum_state_upd _ _ _ _ _ _ Hl).
  all: res_inv.
  all: repeat match goal with
       | H : log_sample _ _ _ = Ok _ |- _ =>
           apply log_sample_exact in H; destruct H as [? ?] end.
  all: destruct r; cbn; case_bool_decide; cbn; autorewrite with zsum.
  all: split; [lia|].
  all: match goal with
       | E : io_num ?c = u32 (io_num ?d + 1) |- context [io_num ?c - io_num ?d] =>
           rewrite E; etransitivity; [|apply (Hmod (io_num d))]; f_equal; lia
       | |- (?x mod _) = 0 => replace x with 0 by lia; done
       end.
Qed.

(** Totals of a run that does not overflow. *)
Lemma log_run_totals r k es s s' :
  log_run es s = Ok s' ->
  total_ns r k s' = total_ns r k s + zsum (run_samples r k (ll_prob s) es)
  /\ (total_io r k s' - total_io r k s
       - Z.of_nat (length (run_samples r k (ll_prob s) es))) mod 2 ^ 32 = 0.
Proof.
  revert s. induction es as [|e es IH]; cbn [log_run run_samples]; intros s H.
  - res_inv. split; [cbn; autorewrite with zsum; lia|]. by rewrite Z.sub_diag.
  - destruct (log_step e s) as [s1| | |] eqn:E; try done. cbn [mbind res_bind] in H. destruct (IH _ H) as [I1 I2].
    destruct (log_step_totals r k _ _ _ E) as [J1 J2]. rewrite (log_step_prob _ _ _ E) in I1, I2.
    rewrite zsum_app, length_app. split; [lia|].
    apply Z.mod_divide in I2, J2; [|lia..]. apply Z.mod_divide; [lia|].
    pose proof (Z.divide_add_r _ _ _ I2 J2) as Hd.
    eapply Z.divide_trans; [exact Hd|]. exists 1. lia.
Qed.

(** Nothing is leaked as long as the messages are taken. *)
Definition ev_sent (e : log_event) : Prop :=
  match e with EvTick _ sent => sent = true | _ => True end.

Lemma log_step_leaked e s s' : log_step e s = Ok s' -> ev_sent e -> ll_leaked s' = ll_leaked s.
Proof.
  destruct e as [ns t1 t0|ns t1 t0|ns t| |m b]; cbn; intros H He.
  1-2: by apply upd_ns_inv in H as (l & l' & _ & _ & ->).
  - unfold nvme_complete_request_log in H. destruct (ll_prob s) eqn:E; [|by injection H as <-].
    by apply upd_ns_inv in H as (l & l' & _ & _ & ->).
  - by injection H as <-.
  - unfold latency_log_1s in H. subst b. destruct (is_io_num_not_empty _); [|by injection H as <-].
    destruct m; [|done]. by injection H as <-.
Qed.

Lemma log_run_leaked es s s' : log_run es s = Ok s' -> Forall ev_sent es -> ll_leaked s' = ll_leaked s.
Proof.
  revert s. induction es as [|e es IH]; cbn [log_run]; intros s H Hs; [by injection H as <-|].
  apply Forall_cons in Hs as [He Hs]. destruct (log_step e s) as [s1| | |] eqn:E; try done.
  rewrite (IH s1 H Hs). by eapply log_step_leaked.
Qed.

(** Time stamps of the next 34,000 years, and accumulators of at most [k]
    samples of them. *)
Definition ts_ok (t : timespec) : Prop := 0 <= tv_nsec t < NSEC /\ 0 <= tv_sec t < 2 ^ 40.

Definition acc_le (k : Z) (c : latency_log_ctx) : Prop :=
  0 <= tv_nsec (latency_time c) < NSEC /\ Z.abs (tv_sec (latency_time c)) <= k * 2 ^ 41.

Definition ns_log_le (k : Z) (l : latency_ns_log) : Prop := forall r, acc_le k (sel r l).

Definition ev_ok (n : nat) (e : log_event) : Prop :=
  match e with
  | EvTaskQueue ns t1 t0 | EvTaskComplete ns t1 t0 => (ns < n)%nat /\ ts_ok t1 /\ ts_ok t0
  | EvRequest ns t => (ns < n)%nat /\ ts_ok (req_submit_time t) /\ ts_ok (req_complete_time t)
      /\ ts_ok (wr_send_time t) /\ ts_ok (wr_send_complete_time t) /\ ts_ok (wr_recv_time t)
  | EvProbed => True
  | EvTick mem_ok _ => mem_ok = true
  end.

Lemma ns_log_le_S k l : ns_log_le k l -> ns_log_le (k + 1) l.
Proof. intros Hl r. specialize (Hl r). unfold acc_le in *. lia. Qed.

Lemma log_sample_ok k c t1 t0 :
  0 <= k <= 2 ^ 20 -> acc_le k c -> ts_ok t1 -> ts_ok t0 ->
  exists c', log_sample c t1 t0 = Ok c' /\ acc_le (k + 1) c'.
Proof.
  unfold acc_le, ts_ok. intros Hk Hc H1 H0. unfold log_sample, timespec_sub, timespec_add.
  chk. destruct (_ <? 0) eqn:E; cbn [mbind res_bind]; chk;
    cbn [tv_sec tv_nsec mret res_ret mbind res_bind]; chk.
  all: match goal with |- context [NSEC <=? ?x] => destruct (Z.leb_spec NSEC x) end; eexists; (split; [reflexivity|]); cbn; unfold NSEC in *; lia.
Qed.

Lemma log_step_ok k e s :
  0 <= k <= 2 ^ 20 -> ev_ok (length (ll_logs s)) e -> Forall (ns_log_le k) (ll_logs s) ->
  exists s', log_step e s = Ok s' /\ Forall (ns_log_le (k + 1)) (ll_logs s')
    /\ length (ll_logs s') = length (ll_logs s).
Proof.
  intros Hk He Hs.
  assert (Hw : Forall (ns_log_le (k + 1)) (ll_logs s)).
  { eapply Forall_impl; [exact Hs|]. apply ns_log_le_S. }
  assert (Hupd : forall ns f, (ns < length (ll_logs s))%nat ->
    (forall l, ns_log_le k l -> exists l', f l = Ok l' /\ ns_log_le (k + 1) l') ->
    exists s', upd_ns s ns f = Ok s' /\ Forall (ns_log_le (k + 1)) (ll_logs s')
      /\ length (ll_logs s') = length (ll_logs s)).
  { intros ns f Hn Hf. apply lookup_lt_is_Some in Hn as [l Hl]. unfold upd_ns. rewrite Hl.
    destruct (Hf l) as (l' & -> & Hl'); [by eapply (Forall_lookup_1 _ _ _ _ Hs)|].
    eexists. split; [reflexivity|]. cbn. split; [by apply Forall_insert|by rewrite length_insert]. }
  destruct e as [ns t1 t0|ns t1 t0|ns t| |m b]; cbn [log_step ev_ok] in *.
  - destruct He as (Hn & H1 & H0). apply Hupd; [done|]. intros l Hl.
    destruct (log_sample_ok k _ t1 t0 Hk (Hl task_queue) H1 H0) as (c & Hc & Hle).
    cbn in Hc. rewrite Hc. eexists. split; [reflexivity|].
    intros r. pose proof (ns_log_le_S _ _ Hl r). by destruct r.
  - destruct He as (Hn & H1 & H0). apply Hupd; [done|]. intros l Hl.
    destruct (log_sample_ok k _ t1 t0 Hk (Hl task_complete) H1 H0) as (c & Hc & Hle).
    cbn in Hc. rewrite Hc. eexists. split; [reflexivity|].
    intros r. pose proof (ns_log_le_S _ _ Hl r). by destruct r.
  - destruct He as (Hn & H1 & H2 & H3 & H4 & H5). unfold nvme_complete_request_log.
    destruct (ll_prob s); [|by exists s]. apply Hupd; [done|]. intros l Hl.
    destruct (log_sample_ok k _ _ _ Hk (Hl req_send) H3 H1) as (c1 & E1 & L1),
      (log_sample_ok k _ _ _ Hk (Hl req_complete) H2 H1) as (c2 & E2 & L2),
      (log_sample_ok k _ _ _ Hk (Hl wr_send) H4 H3) as (c3 & E3 & L3),
      (log_sample_ok k _ _ _ Hk (Hl wr_complete) H5 H3) as (c4 & E4 & L4).
    cbn in E1, E2, E3, E4. rewrite E1, E2, E3, E4.
    eexists. split; [reflexivity|].
    intros r. pose proof (ns_log_le_S _ _ Hl r). by destruct r.
  - by eexists.
  - subst m. unfold latency_log_1s. destruct (is_io_num_not_empty _); [|by eexists]. cbn [negb].
    eexists. split; [reflexivity|].
    replace (ll_logs _) with (cleanup_log (ll_logs s)) by (by destruct b). unfold cleanup_log. rewrite length_map. split; [|done]. apply Forall_map, Forall_true.
    intros l r. destruct r; unfold acc_le, NSEC; cbn; lia.
Qed.

Lemma log_run_ok k es s :
  0 <= k -> k + Z.of_nat (length es) <= 2 ^ 20 -> Forall (ev_ok (length (ll_logs s))) es ->
  Forall (ns_log_le k) (ll_logs s) -> exists s', log_run es s = Ok s'.
Proof.
  revert k s. induction es as [|e es IH]; intros k s Hk Hl He Hs; [by eexists|].
  inversion He as [|? ? He1 He2]; subst. cbn [length] in Hl.
  destruct (log_step_ok k e s ltac:(lia) He1 Hs) as (s1 & H1 & Hs1 & Hlen).
  cbn [log_run]. rewrite H1. cbn [mbind res_bind]. rewrite <- Hlen in He2.
  by apply (IH (k + 1) s1); [lia|lia|..].
Qed.

(** C40: every run of up to 2^20 samples, requests and timer ticks with time
    stamps in range, namespaces of the table and allocations that succeed
    executes without overflow, and each accumulator of each namespace together
    with all its queued and all its leaked snapshots then holds the exact sum of
    the sampled durations and, modulo 2^32, the number of samples, where requests
    are sampled from the end of probing on: the timer neither loses nor repeats a
    sample on its way to the queue.  The leaked snapshots are those whose msgsnd
    failed: none is leaked in a run in which every msgsnd succeeds. *)
Theorem log_run_conserves es s :
  Forall (ev_ok (length (ll_logs s))) es -> Z.of_nat (length es) <= 2 ^ 20 ->
  Forall (ns_log_le 0) (ll_logs s) ->
  exists s', log_run es s = Ok s'
    /\ (forall r k,
          total_ns r k s' = total_ns r k s + zsum (run_samples r k (ll_prob s) es)
          /\ (total_io r k s' - total_io r k s
               - Z.of_nat (length (run_samples r k (ll_prob s) es))) mod 2 ^ 32 = 0)
    /\ (Forall ev_sent es -> ll_leaked s' = ll_leaked s).
Proof.
  intros He Hl Hs. destruct (log_run_ok 0 es s ltac:(lia) ltac:(lia) He Hs) as (s' & Hr).
  exists s'. split; [done|]. split; [|by apply log_run_leaked]. intros r k. by apply log_run_totals.
Qed.

(** A tick that cannot allocate the snapshot writes through the null pointer, and
    one whose message is not taken clears the table all the same. *)
Lemma tick_without_memory sent s :
  is_io_num_not_empty (ll_logs s) = true -> latency_log_1s false sent s = UB UB_null.
Proof. intros H. unfold latency_log_1s. by rewrite H. Qed.

Lemma tick_not_sent_loses s :
  is_io_num_not_empty (ll_logs s) = true ->
  exists s', latency_log_1s true false s = Ok s' /\ ll_queue s' = ll_queue s
    /\ ll_logs s' = cleanup_log (ll_logs s).
Proof. intros H. unfold latency_log_1s. rewrite H. by eexists. Qed.

(** ** The CSV rows *)

(** The io_num of an accumulator fits an [int] (the writer passes it to
    timespec_divide's [int num]) and its latency is normalised. *)
Definition lat_ok (c : latency_log_ctx) : Prop :=
  ts_norm (latency_time c) /\ 0 <= io_num c < 2 ^ 31.

Definition ns_log_ok (l : latency_ns_log) : Prop := forall r, lat_ok (sel r l).

(** The average a row should print: the floor of latency / n, or the latency
    itself when there was no sample. *)
Definition avg_ok (lat : timespec) (n : Z) (avg : timespec) : Prop :=
  if n =? 0 then avg = lat else ns_of avg = ns_of lat / n.

Lemma fprint_log_ok nn i num name lat n :
  ts_norm lat -> 0 <= n < 2 ^ 31 ->
  exists avg, fprint_log nn i num name lat n
    = Ok (LRow (Row (Z.quot num nn) i name lat n avg)) /\ avg_ok lat n avg.
Proof.
  intros Hl Hn. unfold fprint_log, avg_ok. rewrite s32_small by lia.
  destruct (Z.eqb_spec n 0) as [->|].
  - exists lat. done.
  - destruct (timespec_divide_floor lat n Hl ltac:(lia)) as (t & -> & _ & Ht).
    exists t. done.
Qed.

(** The row that is printed for an accumulator: its name and latency, but for
    wr_send the sample count of wr_complete. *)
Definition printed_io_num (l : latency_ns_log) (r : row_name) : Z :=
  match r with wr_send => io_num (wr_complete_latency l) | _ => io_num (sel r l) end.

Definition row_ok (nn i num : Z) (l : latency_ns_log) (r : row_name) (x : line)
  : Prop :=
  exists avg, x = LRow (Row (Z.quot num nn) i r (latency_time (sel r l))
                     (printed_io_num l r) avg)
    /\ avg_ok (latency_time (sel r l)) (printed_io_num l r) avg.

Definition row_names : list row_name :=
  [task_queue; task_complete; req_send; req_complete; wr_send; wr_complete].

(** When fopen succeeds and the accumulators are in range, a call of
    write_log_tasks_to_file appends exactly the six rows of the namespace in
    order (after the title line when the file is new), each with the floor
    average of its latency over the printed count, and a blank line when
    asked. *)
Lemma write_log_tasks_correct nn i l nl w :
  ns_log_ok l -> 0 <= w_num w < 2 ^ 31 - 1 ->
  exists w' rows, write_log_tasks_to_file nn i l nl true w = Ok w'
    /\ Forall2 (row_ok nn i (w_num w) l) row_names rows
    /\ w_lines w' = (if if_open w then w_lines w else [LTitle])
         ++ rows ++ (if nl then [LBlank] else [])
    /\ if_open w' = true /\ w_num w' = w_num w + 1.
Proof.
  intros Hl Hw. unfold write_log_tasks_to_file; cbn.
  assert (P : forall r, exists avg,
    fprint_log nn i (w_num w) r (latency_time (sel r l)) (printed_io_num l r)
    = Ok (LRow (Row (Z.quot (w_num w) nn) i r (latency_time (sel r l))
                  (printed_io_num l r) avg))
    /\ avg_ok (latency_time (sel r l)) (printed_io_num l r) avg).
  { intros r. apply fprint_log_ok; [apply Hl|].
    destruct r; cbn; [apply (Hl task_queue) | apply (Hl task_complete)
    | apply (Hl req_send) | apply (Hl req_complete) | apply (Hl wr_complete)
    | apply (Hl wr_complete)]. }
  destruct (P task_queue) as (a1 & E1 & H1), (P task_complete) as (a2 & E2 & H2),
    (P req_send) as (a3 & E3 & H3), (P req_complete) as (a4 & E4 & H4),
    (P wr_send) as (a5 & E5 & H5), (P wr_complete) as (a6 & E6 & H6).
  cbn in E1, E2, E3, E4, E5, E6.
  rewrite E1, E2, E3, E4, E5, E6; cbn [mbind res_bind].
  rewrite bool_decide_true by lia. cbn [mbind res_bind].
  set (mk r avg := LRow (Row (Z.quot (w_num w) nn) i r (latency_time (sel r l))
                           (printed_io_num l r) avg)).
  exists (Writer true (w_num w + 1)
            ((if if_open w then w_lines w else [LTitle])
             ++ [mk task_queue a1; mk task_complete a2; mk req_send a3;
                 mk req_complete a4; mk wr_send a5; mk wr_complete a6]
             ++ (if nl then [LBlank] else []))),
    [mk task_queue a1; mk task_complete a2; mk req_send a3;
     mk req_complete a4; mk wr_send a5; mk wr_complete a6].
  split; [reflexivity|]. split; [|done].
  unfold row_names, row_ok. repeat constructor; eauto.
Qed.

(** The CSV file never shows the number of wr_send samples: changing it
    changes nothing, because the wr_send row prints and divides by
    wr_complete's count. *)
Theorem wr_send_count_ignored nn i l n nl opened w :
  write_log_tasks_to_file nn i
    (NsLog (task_queue_latency l) (task_complete_latency l)
       (req_send_latency l) (req_complete_latency l)
       (LatCtx (latency_time (wr_send_latency l)) n)
       (wr_complete_latency l)) nl opened w
  = write_log_tasks_to_file nn i l nl opened w.
Proof. reflexivity. Qed.

(** A log file that cannot be opened makes the writer call
    fclose on a null pointer. *)
Theorem write_log_open_failure nn i l nl w :
  write_log_tasks_to_file nn i l nl false w = UB UB_null.
Proof. reflexivity. Qed.

(** ** Witnesses *)

Definition demo_ts (sec nsec : Z) : timespec := Timespec sec nsec.
Definition demo_acc : latency_log_ctx := LatCtx (demo_ts 7 500) 3.
Definition demo_ns_log : latency_ns_log :=
  NsLog demo_acc demo_acc demo_acc demo_acc demo_acc demo_acc.

Lemma log_run_conserves_witness :
  let t := ReqTimes (demo_ts 3 0) (demo_ts 8 0) (demo_ts 4 0) (demo_ts 5 0) (demo_ts 7 0) in
  let es := [EvTaskQueue 0 (demo_ts 5 100) (demo_ts 3 900); EvRequest 0 t; EvProbed;
             EvTick true true; EvRequest 0 t; EvTick true false;
             EvTaskComplete 0 (demo_ts 9 0) (demo_ts 3 900)] in
  let s := LogState [ns_log_zero] [] [] false in
  exists s', log_run es s = Ok s'
    /\ (forall r k,
          total_ns r k s' = total_ns r k s + zsum (run_samples r k (ll_prob s) es)
          /\ (total_io r k s' - total_io r k s
               - Z.of_nat (length (run_samples r k (ll_prob s) es))) mod 2 ^ 32 = 0)
    /\ (Forall ev_sent es -> ll_leaked s' = ll_leaked s).
Proof.
  intros t es s. apply (log_run_conserves es s).
  - unfold es. repeat constructor; vm_compute; congruence.
  - vm_compute. congruence.
  - repeat constructor; destruct r; vm_compute; congruence.
Defined.

Lemma write_log_tasks_demo :
  let w := Writer false 0 [] in
  exists w' rows, write_log_tasks_to_file 1 0 demo_ns_log true true w = Ok w'
    /\ Forall2 (row_ok 1 0 (w_num w) demo_ns_log) row_names rows
    /\ w_lines w' = (if if_open w then w_lines w else [LTitle]) ++ rows ++ [LBlank]
    /\ if_open w' = true /\ w_num w' = w_num w + 1.
Proof.
  apply (write_log_tasks_correct 1 0 demo_ns_log true (Writer false 0 [])).
  - intros r. destruct r; (split; [split|]); vm_compute; split; congruence.
  - vm_compute. split; congruence.
Defined.
