(* ===== verification/Tailq.v ===== *)
(** * BSD tail queues at pointer level (sys/queue.h, spdk/queue_extras.h)

    The perf tools link one [struct perf_task] into several tail queues through
    the same TAILQ_ENTRY, so the queues are modelled as the C macros work: a
    head holds the address of the first element and the address of the last
    [next] field, an element holds its [next] pointer and the address of the
    pointer that points to it.  [tq_rep] relates a head to the list of elements
    it represents; the macros are proved correct against it. *)

From S2P Require Import Prelude.

(** Addresses of heap objects. *)
Abbreviation loc := positive.

Section Tailq.
Context {H : Type} `{EqDecision H} `{Countable H}.

(** The address of a pointer field: a null pointer, &head->tqh_first, or
    &elm->field.tqe_next. *)
Inductive slot : Type :=
  | SNull
  | SFirst (h : H)
  | SNext (e : loc).

#[export] Instance slot_eq_dec : EqDecision slot.
Proof. solve_decision. Defined.

Record entry : Type := Entry { tqe_next : option loc; tqe_prev : slot }.
Record head : Type := Head { tqh_first : option loc; tqh_last : slot }.

(** All the tail queues that share one link field. *)
Record tailqs : Type := Tailqs { heads : gmap H head; nodes : gmap loc entry }.

Definition set_head (h : H) (x : head) (q : tailqs) : tailqs :=
  Tailqs (<[h := x]> (heads q)) (nodes q).
Definition set_node (e : loc) (x : entry) (q : tailqs) : tailqs :=
  Tailqs (heads q) (<[e := x]> (nodes q)).

(** [*p = v]; None when [p] does not point to live memory. *)
Definition store (p : slot) (v : option loc) (q : tailqs) : option tailqs :=
  match p with
  | SNull => None
  | SFirst h =>
      x ← heads q !! h; Some (set_head h (Head v (tqh_last x)) q)
  | SNext e =>
      x ← nodes q !! e; Some (set_node e (Entry v (tqe_prev x)) q)
  end.

Definition TAILQ_INIT (h : H) (q : tailqs) : tailqs :=
  set_head h (Head None (SFirst h)) q.

Definition TAILQ_FIRST (h : H) (q : tailqs) : option (option loc) :=
  tqh_first <$> heads q !! h.

Definition TAILQ_NEXT (e : loc) (q : tailqs) : option (option loc) :=
  tqe_next <$> nodes q !! e.

Definition TAILQ_INSERT_TAIL (h : H) (e : loc) (q : tailqs) : option tailqs :=
  _ ← nodes q !! e;
  x ← heads q !! h;
  let q := set_node e (Entry None (tqh_last x)) q in
  q ← store (tqh_last x) (Some e) q;
  x ← heads q !! h;
  Some (set_head h (Head (tqh_first x) (SNext e)) q).

Definition TAILQ_REMOVE (h : H) (e : loc) (q : tailqs) : option tailqs :=
  x ← nodes q !! e;
  q ← match tqe_next x with
      | Some n =>
          y ← nodes q !! n; Some (set_node n (Entry (tqe_next y) (tqe_prev x)) q)
      | None =>
          y ← heads q !! h; Some (set_head h (Head (tqh_first y) (tqe_prev x)) q)
      end;
  x ← nodes q !! e;
  store (tqe_prev x) (tqe_next x) q.

(** After the exchange of the two heads, the first element of each (or the
    head's own last pointer) is redirected. *)
Definition fix_first (h : H) (q : tailqs) : option tailqs :=
  x ← heads q !! h;
  match tqh_first x with
  | Some e =>
      y ← nodes q !! e; Some (set_node e (Entry (tqe_next y) (SFirst h)) q)
  | None => Some (set_head h (Head None (SFirst h)) q)
  end.

Definition TAILQ_SWAP (h1 h2 : H) (q : tailqs) : option tailqs :=
  x1 ← heads q !! h1;
  x2 ← heads q !! h2;
  let q := set_head h1 x2 q in
  let q := set_head h2 x1 q in
  q ← fix_first h1 q;
  fix_first h2 q.

(** ** Representation *)

Definition hd_or (l : list loc) (d : option loc) : option loc :=
  match l with [] => d | e :: _ => Some e end.

(** [seg ns p l d z]: the elements [l] hang off the pointer at [p], each
    pointing back to its predecessor; the last next pointer is stored at [z]
    and holds [d]. *)
Fixpoint seg (ns : gmap loc entry) (p : slot) (l : list loc) (d : option loc)
    (z : slot) : Prop :=
  match l with
  | [] => z = p
  | e :: l' =>
      ns !! e = Some (Entry (hd_or l' d) p) /\ seg ns (SNext e) l' d z
  end.

Definition tq_rep (q : tailqs) (h : H) (l : list loc) : Prop :=
  exists z, heads q !! h = Some (Head (hd_or l None) z)
    /\ seg (nodes q) (SFirst h) l None z /\ NoDup l.

Lemma hd_or_app l k d : hd_or (l ++ k) d = hd_or l (hd_or k d).
Proof. by destruct l. Qed.

Lemma seg_agree ns ns' p l d z :
  (forall e, e ∈ l -> ns' !! e = ns !! e) -> seg ns p l d z -> seg ns' p l d z.
Proof.
  revert p. induction l as [|a l IH]; cbn; [done|].
  intros p He [Ha Hc]. split; [rewrite He; [done|set_solver]|].
  apply IH; [|done]. intros e Hel. apply He. set_solver.
Qed.

Lemma seg_insert_ne ns p l d z e x :
  e ∉ l -> seg ns p l d z -> seg (<[e := x]> ns) p l d z.
Proof.
  intros Hn. apply seg_agree. intros e' He'.
  rewrite lookup_insert_ne; [done|congruence].
Qed.

Lemma seg_app ns p l k d z :
  seg ns p (l ++ k) d z
  <-> exists y, seg ns p l (hd_or k d) y /\ seg ns y k d z.
Proof.
  revert p. induction l as [|a l IH]; intros p; cbn [seg app].
  - split; [eauto|]. intros (y & -> & Hy). done.
  - rewrite hd_or_app, IH. naive_solver.
Qed.

Lemma seg_elem ns p l d z e : seg ns p l d z -> e ∈ l -> is_Some (ns !! e).
Proof.
  revert p. induction l as [|a l IH]; cbn; [set_solver|].
  intros p [Ha Hc] He. apply elem_of_cons in He as [->|He]; eauto.
Qed.

(** Storing through the end of a segment redirects its last next pointer. *)
Lemma seg_snoc_inv ns p l e d z :
  seg ns p (l ++ [e]) d z ->
  exists y, seg ns p l (Some e) y /\ ns !! e = Some (Entry d y) /\ z = SNext e.
Proof. rewrite seg_app. cbn. naive_solver. Qed.

Lemma seg_retarget ns p l e d d' z y :
  seg ns p l (Some e) y -> e ∉ l -> ns !! e = Some (Entry d y) ->
  z = SNext e ->
  seg (<[e := Entry d' y]> ns) p (l ++ [e]) d' z.
Proof.
  intros Hs Hn He ->. apply seg_app. exists y. split.
  - by apply seg_insert_ne.
  - cbn. by rewrite lookup_insert_eq.
Qed.

(** A head whose own record and elements are untouched still represents the
    same list. *)
Lemma tq_rep_agree q q' h l :
  heads q' !! h = heads q !! h ->
  (forall e, e ∈ l -> nodes q' !! e = nodes q !! e) ->
  tq_rep q h l -> tq_rep q' h l.
Proof.
  intros Hh Hn (z & Hz & Hs & Hd). exists z. rewrite Hh.
  split; [done|]. split; [|done]. by eapply seg_agree.
Qed.

Lemma tq_rep_elem q h l e : tq_rep q h l -> e ∈ l -> is_Some (nodes q !! e).
Proof. intros (z & _ & Hs & _). by eapply seg_elem. Qed.

Lemma tq_rep_head q h l : tq_rep q h l -> is_Some (heads q !! h).
Proof. intros (z & Hz & _). eauto. Qed.

Lemma TAILQ_FIRST_rep q h l :
  tq_rep q h l -> TAILQ_FIRST h q = Some (hd_or l None).
Proof. intros (z & Hz & _). unfold TAILQ_FIRST. by rewrite Hz. Qed.

Lemma TAILQ_NEXT_rep q h l1 e l2 :
  tq_rep q h (l1 ++ e :: l2) -> TAILQ_NEXT e q = Some (hd_or l2 None).
Proof.
  intros (z & _ & Hs & _). apply seg_app in Hs as (y & _ & Hs).
  destruct Hs as [He _]. unfold TAILQ_NEXT. by rewrite He.
Qed.

(** TAILQ_INIT makes the empty queue. *)
Lemma TAILQ_INIT_rep q h : tq_rep (TAILQ_INIT h q) h [].
Proof.
  exists (SFirst h). unfold TAILQ_INIT, set_head; cbn.
  rewrite lookup_insert_eq. repeat constructor.
Qed.

(** The operations never invalidate an element. *)
Lemma set_node_live e x p q :
  is_Some (nodes q !! p) -> is_Some (nodes (set_node e x q) !! p).
Proof.
  intros Hp. cbn. destruct (decide (e = p)) as [->|]; [rewrite lookup_insert_eq; eauto|].
  by rewrite lookup_insert_ne.
Qed.

Lemma store_live s v q q' p :
  store s v q = Some q' -> is_Some (nodes q !! p) -> is_Some (nodes q' !! p).
Proof.
  destruct s as [|h|e]; cbn; [done|..]; intros Hs Hp.
  - apply bind_Some in Hs as (x & _ & [= <-]). done.
  - apply bind_Some in Hs as (x & _ & [= <-]). by apply set_node_live.
Qed.

Lemma TAILQ_REMOVE_live h e q q' p :
  TAILQ_REMOVE h e q = Some q' -> is_Some (nodes q !! p) -> is_Some (nodes q' !! p).
Proof.
  intros Hr Hp. unfold TAILQ_REMOVE in Hr.
  apply bind_Some in Hr as (x & _ & Hr). apply bind_Some in Hr as (q1 & H1 & Hr).
  apply bind_Some in Hr as (x' & _ & Hr). eapply store_live; [exact Hr|].
  destruct (tqe_next x); apply bind_Some in H1 as (y & _ & [= <-]); [|done].
  by apply set_node_live.
Qed.

(** What an operation on head [h] with elements in [l] leaves untouched. *)
Definition only_touches (h : H) (l : list loc) (q q' : tailqs) : Prop :=
  (forall h', h' <> h -> heads q' !! h' = heads q !! h')
  /\ (forall e, e ∉ l -> nodes q' !! e = nodes q !! e).

Lemma only_touches_rep h l q q' h' l' :
  only_touches h l q q' -> h' <> h -> l ## l' ->
  tq_rep q h' l' -> tq_rep q' h' l'.
Proof.
  intros [Hh Hn] Hne Hd. apply tq_rep_agree; [auto|].
  intros e He. apply Hn. set_solver.
Qed.

(** TAILQ_INSERT_TAIL appends a node that is in no position of the queue. *)
Lemma TAILQ_INSERT_TAIL_rep q h l e :
  tq_rep q h l -> e ∉ l -> is_Some (nodes q !! e) ->
  exists q', TAILQ_INSERT_TAIL h e q = Some q' /\ tq_rep q' h (l ++ [e])
    /\ only_touches h (l ++ [e]) q q'.
Proof.
  intros (z & Hz & Hs & Hd) Hn [x Hx]. unfold TAILQ_INSERT_TAIL.
  rewrite Hx; cbn. rewrite Hz; cbn.
  destruct (decide (l = [])) as [->|Hl].
  - cbn in Hs. subst z. cbn. rewrite Hz; cbn. rewrite lookup_insert_eq; cbn.
    eexists. split; [reflexivity|]. split.
    + exists (SNext e). cbn. rewrite !lookup_insert_eq.
      repeat split; try done. apply NoDup_singleton.
    + split; cbn; intros; [by rewrite !lookup_insert_ne by done|].
      rewrite lookup_insert_ne; [done|set_solver].
  - destruct (exists_last Hl) as (l' & b & ->).
    apply seg_snoc_inv in Hs as (y & Hs & Hb & ->). cbn.
    apply NoDup_app in Hd as (Hd1 & Hd2 & _).
    assert (b ≠ e) by set_solver.
    assert (b ∉ l') by (intros Hin; eapply Hd2; [exact Hin|set_solver]).
    rewrite lookup_insert_ne, Hb by done; cbn. rewrite Hz; cbn.
    eexists. split; [reflexivity|]. split.
    + exists (SNext e). cbn. rewrite lookup_insert_eq.
      split; [by rewrite <- app_assoc, !hd_or_app; destruct l'|].
      split.
      * apply seg_app. exists (SNext b). split.
        -- eapply seg_retarget; [| done | | done].
           ++ apply seg_insert_ne; [set_solver|exact Hs].
           ++ rewrite lookup_insert_ne by done. exact Hb.
        -- cbn. rewrite lookup_insert_ne, lookup_insert_eq by done. done.
      * apply NoDup_app. repeat split; [|set_solver|apply NoDup_singleton].
        apply NoDup_app. repeat split; [done| |apply NoDup_singleton]. set_solver.
    + split; cbn; intros; [by rewrite lookup_insert_ne by done|].
      rewrite !lookup_insert_ne; [done| |]; set_solver.
Qed.

(** Redirecting the pointer that a segment starts from. *)
Lemma seg_restart ns p p' l d z :
  seg ns p l d z -> NoDup l ->
  match l with
  | [] => seg ns p' [] d p'
  | n :: l' => seg (<[n := Entry (hd_or l' d) p']> ns) p' l d z
  end.
Proof.
  destruct l as [|n l']; cbn; [done|]. intros [Hn Hs] Hd.
  rewrite lookup_insert_eq. split; [done|].
  apply seg_insert_ne; [|done]. by apply NoDup_cons in Hd as [? _].
Qed.

(** TAILQ_REMOVE unlinks a member of the queue. *)
Lemma TAILQ_REMOVE_rep q h l1 e l2 :
  tq_rep q h (l1 ++ e :: l2) ->
  exists q', TAILQ_REMOVE h e q = Some q' /\ tq_rep q' h (l1 ++ l2)
    /\ only_touches h (l1 ++ e :: l2) q q'.
Proof.
  intros (z & Hz & Hs & Hd). apply seg_app in Hs as (y & Hs1 & He & Hs2).
  cbn [hd_or] in Hs1. rewrite hd_or_app in Hz. cbn [hd_or] in Hz.
  assert (Hd' : NoDup (l1 ++ l2) /\ e ∉ l1 /\ e ∉ l2 /\ NoDup l2 /\ l1 ## l2).
  { apply NoDup_app in Hd as (D1 & D2 & D3). apply NoDup_cons in D3 as [D3 D4].
    split; [apply NoDup_app; repeat split; [done| |done]; set_solver|].
    repeat split; try done; set_solver. }
  destruct Hd' as (Hdl & He1 & He2 & Hd2 & Hdj).
  unfold TAILQ_REMOVE. rewrite He; cbn.
  (* first part: the successor's prev pointer, or the head's last pointer *)
  assert (exists q1 z', (match hd_or l2 None with
      | Some n => y0 ← nodes q !! n; Some (set_node n (Entry (tqe_next y0) y) q)
      | None => y0 ← heads q !! h; Some (set_head h (Head (tqh_first y0) y) q)
      end) = Some q1
    /\ heads q1 !! h = Some (Head (hd_or l1 (Some e)) z')
    /\ nodes q1 !! e = Some (Entry (hd_or l2 None) y)
    /\ seg (nodes q1) (SFirst h) l1 (Some e) y
    /\ seg (nodes q1) y l2 None z'
    /\ only_touches h l2 q q1) as (q1 & z' & -> & Hz1 & He' & Hs1' & Hs2' & Hot).
  { destruct l2 as [|n l2'].
    - cbn in *. subst z. rewrite Hz. cbn. exists (set_head h (Head (hd_or l1 (Some e)) y) q), y.
      cbn. rewrite lookup_insert_eq. repeat split; try done.
      intros h' Hh'. cbn. by rewrite lookup_insert_ne.
    - cbn [hd_or]. pose proof Hs2 as [Hn _]. rewrite Hn; cbn.
      exists (set_node n (Entry (hd_or l2' None) y) q), z. cbn -[seg].
      split; [done|]. split; [done|].
      split; [rewrite lookup_insert_ne; [done|set_solver]|].
      split; [apply seg_insert_ne; [set_solver|done]|].
      split; [exact (seg_restart _ _ y _ _ _ Hs2 Hd2)|].
      split; [done|]. intros x Hx. cbn. rewrite lookup_insert_ne; [done|set_solver]. }
  cbn. rewrite He'; cbn. destruct Hot as [Hot1 Hot2].
  (* second part: the predecessor's next pointer *)
  destruct (decide (l1 = [])) as [->|Hl].
  - cbn in Hs1'. subst y. cbn. rewrite Hz1; cbn. eexists. split; [reflexivity|]. split.
    + exists z'. cbn. rewrite lookup_insert_eq. done.
    + split; intros; cbn; [rewrite lookup_insert_ne by done; auto|].
      apply Hot2. set_solver.
  - destruct (exists_last Hl) as (l' & b & ->).
    apply seg_snoc_inv in Hs1' as (y' & Hs1' & Hb & ->). cbn. rewrite Hb; cbn.
    assert (b ∉ l' /\ b ∉ l2) as [Hbl Hb2].
    { apply NoDup_app in Hdl as (D1 & D2 & _). apply NoDup_app in D1 as (_ & D1 & _).
      split; [intros Hin; eapply D1; [exact Hin|set_solver]|set_solver]. }
    eexists. split; [reflexivity|]. split.
    + exists z'. cbn. split; [rewrite Hz1; by destruct l'|]. split; [|done].
      apply seg_app. exists (SNext b). split.
      * eapply seg_retarget; [exact Hs1'|done|exact Hb|done].
      * by apply seg_insert_ne.
    + split; intros; cbn; [auto|]. rewrite lookup_insert_ne; [|set_solver].
      apply Hot2. set_solver.
Qed.

(** TAILQ_SWAP with an empty queue moves the whole queue. *)
Lemma TAILQ_SWAP_rep q h1 h2 l :
  h1 <> h2 -> tq_rep q h1 [] -> tq_rep q h2 l ->
  exists q', TAILQ_SWAP h1 h2 q = Some q' /\ tq_rep q' h1 l /\ tq_rep q' h2 []
    /\ (forall h', h' <> h1 -> h' <> h2 -> heads q' !! h' = heads q !! h')
    /\ (forall e, e ∉ l -> nodes q' !! e = nodes q !! e).
Proof.
  intros Hne (z1 & Hz1 & Hs1 & _) (z2 & Hz2 & Hs2 & Hd). cbn in Hs1. subst z1.
  unfold TAILQ_SWAP. rewrite Hz1, Hz2; cbn. unfold fix_first; cbn.
  rewrite lookup_insert_ne, lookup_insert_eq by done. cbn.
  destruct l as [|e l'].
  - cbn in *. subst z2. rewrite lookup_insert_ne, lookup_insert_eq by done. cbn.
    eexists. split; [reflexivity|]. cbn. split; [|split; [|split]].
    + exists (SFirst h1). cbn. rewrite lookup_insert_ne, lookup_insert_eq by done.
      repeat split; constructor.
    + exists (SFirst h2). cbn. rewrite lookup_insert_eq. repeat split; constructor.
    + intros h' H1 H2. by rewrite !lookup_insert_ne.
    + done.
  - cbn [hd_or]. pose proof Hs2 as [He _]. rewrite He; cbn.
    rewrite lookup_insert_eq; cbn.
    eexists. split; [reflexivity|]. cbn -[seg]. split; [|split; [|split]].
    + exists z2. cbn -[seg]. rewrite !lookup_insert_ne, lookup_insert_eq by done.
      split; [done|]. split; [|done].
      exact (seg_restart _ _ (SFirst h1) _ _ _ Hs2 Hd).
    + exists (SFirst h2). cbn. rewrite lookup_insert_eq. repeat split; constructor.
    + intros h' H1 H2. by rewrite !lookup_insert_ne.
    + intros x Hx. rewrite lookup_insert_ne; [done|set_solver].
Qed.

End Tailq.
Arguments slot : clear implicits.
Arguments entry : clear implicits.
Arguments head : clear implicits.
Arguments tailqs H {_ _} : rename.
