(* ===== verification/PerfRep.v ===== *)
(** * The replicated I/O generator (app/spdk_nvme_perf_rep/perf_rep.c)

    One worker thread drives [g_rep_num] namespaces.  Each unit of the queue
    depth is a replica group: a main task and one copy per further namespace,
    linked in the main task's rep_tasks queue and sharing one data buffer.  A
    round submits the same read or write to every replica; the group is
    resubmitted when all replicas have completed.

    The heap of tasks, iovec arrays and DMA buffers is explicit, objects are
    freed, and the tail queues are those of [Tailq], because rep_tasks and
    queued_tasks share one link field.  The build without PERF_LATENCY_LOG is
    modelled here; the accounting of that option is in [LatencyLog]. *)

From S2P Require Import Prelude Tailq.

(** ** Data *)

(** iov_base is a DMA buffer and an offset into it. *)
Record iovec := Iovec { iov_base : loc * Z; iov_len : Z }.

Record ns_entry := NsEntry {
  io_size_blocks : Z;
  size_in_ios : Z;
  md_size : Z;
  md_interleave : bool;
  io_flags : Z;
  seed : Z;
  zipf : option Z }.

Record ns_worker_stats := Stats {
  io_submitted : Z;
  io_completed : Z;
  total_tsc : Z;
  min_tsc : Z;
  max_tsc : Z }.

Record ns_worker_ctx := NsCtx {
  c_entry : loc;
  stats : ns_worker_stats;
  current_queue_depth : Z;
  c_offset_in_ios : Z;
  is_draining : bool;
  num_active_qpairs : Z;
  last_qpair : Z;
  histogram : list Z;
  status : Z }.

Record perf_task := Task {
  io_id : Z;
  ns_id : Z;
  t_ns_ctx : loc;
  iovs : loc;
  iovcnt : Z;
  md_iov : option loc;
  submit_tsc : Z;
  t_offset_in_ios : Z;
  is_read : bool;
  main_task : loc;
  rep_completed_num : Z }.

(** The tail queue heads linked through perf_task.link. *)
Inductive hid := HRep (t : loc) | HQueued (n : loc) | HSwap.

#[export] Instance hid_eq_dec : EqDecision hid.
Proof. solve_decision. Defined.

#[export] Instance hid_countable : Countable hid.
Proof.
  refine (inj_countable'
    (fun h => match h with
              | HRep t => inl t | HQueued n => inr (inl n)
              | HSwap => inr (inr tt) end)
    (fun s => match s with
              | inl t => HRep t | inr (inl n) => HQueued n
              | inr (inr _) => HSwap end) _).
  by intros [].
Defined.

(** A call of the driver: the task, the qpair it goes to, the direction,
    whether the vectored entry point is used, the blocks and the buffers. *)
Record io_cmd := IoCmd {
  cmd_task : loc;
  cmd_ns : loc;
  cmd_qpair : Z;
  cmd_read : bool;
  cmd_vectored : bool;
  cmd_lba : Z;
  cmd_lba_count : Z;
  cmd_buf : loc * Z;
  cmd_md : option loc }.

(** The options of the command line the I/O path reads. *)
Record config := Config {
  g_rep_num : Z;
  g_send_main_rep_finally : bool;
  g_is_random : bool;
  g_rw_percentage : Z;
  g_queue_depth : Z;
  g_number_ios : Z;
  g_continue_on_error : bool;
  g_latency_sw_tracking_level : Z;
  g_io_size_bytes : Z;
  g_max_io_md_size : Z;
  g_max_io_size_blocks : Z;
  g_io_unit_size : Z }.

(** The environment: outcomes of the allocator, of the driver's submission
    functions, of the clock, of the C library's rand_r, and of the zipf and DIF
    libraries.  Sequences are indexed by the number of earlier calls. *)
Record env := Env {
  e_alloc : nat -> bool;
  e_submit : nat -> io_cmd -> Z;
  e_ticks : nat -> Z;
  e_rand_r : Z -> Z * Z;
  e_zipf_generate : Z -> Z * Z;
  e_dif_ctx_init : ns_entry -> Z -> Z;
  e_dif_generate : perf_task -> Z }.

Record st := St {
  tasks : gmap loc perf_task;
  tqs : tailqs hid;
  nsctx : gmap loc ns_worker_ctx;
  entries : gmap loc ns_entry;
  g_namespaces : list loc;
  worker_ns_ctx : list loc;
  iov_arrays : gmap loc (list iovec);
  bufs : gset loc;
  next_loc : loc;
  n_alloc : nat;
  n_ticks : nat;
  io_log : list (io_cmd * Z) }.

Definition SPDK_NVME_IO_FLAGS_PRACT : Z := Z.shiftl 1 29.

(** *** Field updates *)

Definition set_tasks (f : gmap loc perf_task -> gmap loc perf_task) (s : st) : st :=
  St (f (tasks s)) (tqs s) (nsctx s) (entries s) (g_namespaces s)
     (worker_ns_ctx s) (iov_arrays s) (bufs s) (next_loc s) (n_alloc s)
     (n_ticks s) (io_log s).
Definition set_tqs (q : tailqs hid) (s : st) : st :=
  St (tasks s) q (nsctx s) (entries s) (g_namespaces s)
     (worker_ns_ctx s) (iov_arrays s) (bufs s) (next_loc s) (n_alloc s)
     (n_ticks s) (io_log s).
Definition set_nsctx (f : gmap loc ns_worker_ctx -> gmap loc ns_worker_ctx) (s : st) : st :=
  St (tasks s) (tqs s) (f (nsctx s)) (entries s) (g_namespaces s)
     (worker_ns_ctx s) (iov_arrays s) (bufs s) (next_loc s) (n_alloc s)
     (n_ticks s) (io_log s).
Definition set_entries (f : gmap loc ns_entry -> gmap loc ns_entry) (s : st) : st :=
  St (tasks s) (tqs s) (nsctx s) (f (entries s)) (g_namespaces s)
     (worker_ns_ctx s) (iov_arrays s) (bufs s) (next_loc s) (n_alloc s)
     (n_ticks s) (io_log s).
Definition set_iov_arrays (f : gmap loc (list iovec) -> gmap loc (list iovec)) (s : st) : st :=
  St (tasks s) (tqs s) (nsctx s) (entries s) (g_namespaces s)
     (worker_ns_ctx s) (f (iov_arrays s)) (bufs s) (next_loc s) (n_alloc s)
     (n_ticks s) (io_log s).
Definition set_bufs (f : gset loc -> gset loc) (s : st) : st :=
  St (tasks s) (tqs s) (nsctx s) (entries s) (g_namespaces s)
     (worker_ns_ctx s) (iov_arrays s) (f (bufs s)) (next_loc s) (n_alloc s)
     (n_ticks s) (io_log s).
Definition log_cmd (x : io_cmd * Z) (s : st) : st :=
  St (tasks s) (tqs s) (nsctx s) (entries s) (g_namespaces s)
     (worker_ns_ctx s) (iov_arrays s) (bufs s) (next_loc s) (n_alloc s)
     (n_ticks s) (io_log s ++ [x]).

Definition with_round (tsc off : Z) (rd : bool) (t : perf_task) : perf_task :=
  Task (io_id t) (ns_id t) (t_ns_ctx t) (iovs t) (iovcnt t) (md_iov t) tsc off rd
       (main_task t) (rep_completed_num t).
Definition with_submit_tsc (tsc : Z) (t : perf_task) : perf_task :=
  with_round tsc (t_offset_in_ios t) (is_read t) t.
Definition with_io_id (i : Z) (t : perf_task) : perf_task :=
  Task i (ns_id t) (t_ns_ctx t) (iovs t) (iovcnt t) (md_iov t) (submit_tsc t)
       (t_offset_in_ios t) (is_read t) (main_task t) (rep_completed_num t).
Definition with_completed (n : Z) (t : perf_task) : perf_task :=
  Task (io_id t) (ns_id t) (t_ns_ctx t) (iovs t) (iovcnt t) (md_iov t)
       (submit_tsc t) (t_offset_in_ios t) (is_read t) (main_task t) n.

Definition with_draining (b : bool) (c : ns_worker_ctx) : ns_worker_ctx :=
  NsCtx (c_entry c) (stats c) (current_queue_depth c) (c_offset_in_ios c) b
        (num_active_qpairs c) (last_qpair c) (histogram c) (status c).
Definition with_status (z : Z) (c : ns_worker_ctx) : ns_worker_ctx :=
  NsCtx (c_entry c) (stats c) (current_queue_depth c) (c_offset_in_ios c)
        (is_draining c) (num_active_qpairs c) (last_qpair c) (histogram c) z.
Definition with_offset (z : Z) (c : ns_worker_ctx) : ns_worker_ctx :=
  NsCtx (c_entry c) (stats c) (current_queue_depth c) z (is_draining c)
        (num_active_qpairs c) (last_qpair c) (histogram c) (status c).
Definition with_last_qpair (z : Z) (c : ns_worker_ctx) : ns_worker_ctx :=
  NsCtx (c_entry c) (stats c) (current_queue_depth c) (c_offset_in_ios c)
        (is_draining c) (num_active_qpairs c) z (histogram c) (status c).
(** current_queue_depth++ and stats.io_submitted++ *)
Definition bump_submitted (c : ns_worker_ctx) : ns_worker_ctx :=
  let x := stats c in
  NsCtx (c_entry c)
    (Stats (u64 (io_submitted x + 1)) (io_completed x) (total_tsc x) (min_tsc x)
       (max_tsc x))
    (u64 (current_queue_depth c + 1)) (c_offset_in_ios c) (is_draining c)
    (num_active_qpairs c) (last_qpair c) (histogram c) (status c).
Definition with_seed (z : Z) (e : ns_entry) : ns_entry :=
  NsEntry (io_size_blocks e) (size_in_ios e) (md_size e) (md_interleave e)
    (io_flags e) z (zipf e).
Definition with_zipf (z : Z) (e : ns_entry) : ns_entry :=
  NsEntry (io_size_blocks e) (size_in_ios e) (md_size e) (md_interleave e)
    (io_flags e) (seed e) (Some z).

(** *** Memory *)

Definition load_task (t : loc) : M st perf_task :=
  s ← get; lift_opt UB_freed (tasks s !! t).
Definition upd_task (t : loc) (f : perf_task -> perf_task) : M st unit :=
  x ← load_task t; modify (set_tasks <[t := f x]>).
Definition load_ns (n : loc) : M st ns_worker_ctx :=
  s ← get; lift_opt UB_freed (nsctx s !! n).
Definition upd_ns (n : loc) (f : ns_worker_ctx -> ns_worker_ctx) : M st unit :=
  x ← load_ns n; modify (set_nsctx <[n := f x]>).
Definition load_entry (e : loc) : M st ns_entry :=
  s ← get; lift_opt UB_freed (entries s !! e).
Definition upd_entry (e : loc) (f : ns_entry -> ns_entry) : M st unit :=
  x ← load_entry e; modify (set_entries <[e := f x]>).
(** A queue macro; it fails when it touches memory that is not live. *)
Definition tq_op (f : tailqs hid -> option (tailqs hid)) : M st unit :=
  s ← get; q ← lift_opt UB_freed (f (tqs s)); modify (set_tqs q).
Definition tq_first (h : hid) : M st (option loc) :=
  s ← get; lift_opt UB_freed (TAILQ_FIRST h (tqs s)).
Definition tq_next (t : loc) : M st (option loc) :=
  s ← get; lift_opt UB_freed (TAILQ_NEXT t (tqs s)).

(** free(task): the task, its link and its rep_tasks head are gone. *)
Definition free_task (t : loc) : M st unit :=
  _ ← load_task t;
  s ← get;
  put (set_tqs (Tailqs (delete (HRep t) (heads (tqs s))) (delete t (nodes (tqs s))))
         (set_tasks (delete t) s)).
Definition free_iovs (a : loc) : M st unit :=
  s ← get;
  match iov_arrays s !! a with
  | None => fail UB_freed
  | Some _ => put (set_iov_arrays (delete a) s)
  end.
(** spdk_dma_free: the null pointer is ignored. *)
Definition dma_free (b : option loc) : M st unit :=
  match b with
  | None => mret tt
  | Some b =>
      s ← get;
      if bool_decide (b ∈ bufs s) then put (set_bufs (fun x => x ∖ {[b]}) s)
      else fail UB_freed
  end.
Definition load_iov0 (a : loc) : M st iovec :=
  s ← get;
  l ← lift_opt UB_freed (iov_arrays s !! a);
  lift_opt UB_bounds (l !! 0%nat).

Section Ops.
Context (E : env) (G : config).
(** The number of iterations a TAILQ_FOREACH may take: a walk that takes more
    is cut off with [OutOfFuel]. *)
Context (F : nat).

Definition spdk_get_ticks : M st Z :=
  s ← get;
  _ ← put (St (tasks s) (tqs s) (nsctx s) (entries s) (g_namespaces s)
             (worker_ns_ctx s) (iov_arrays s) (bufs s) (next_loc s) (n_alloc s)
             (S (n_ticks s)) (io_log s));
  mret (e_ticks E (n_ticks s)).

(** An allocation: a fresh address, or None when the allocator fails. *)
Definition alloc : M st (option loc) :=
  s ← get;
  _ ← put (St (tasks s) (tqs s) (nsctx s) (entries s) (g_namespaces s)
             (worker_ns_ctx s) (iov_arrays s) (bufs s)
             (Pos.succ (next_loc s)) (S (n_alloc s)) (n_ticks s) (io_log s));
  mret (if e_alloc E (n_alloc s) then Some (next_loc s) else None).

(** ** Payload set-up *)

(** The filling loop of nvme_perf_allocate_iovs; [cnt] array slots are left.
    A write past them is out of bounds. *)
Fixpoint fill_iovs (cnt : nat) (buf : loc) (length offset : Z) (acc : list iovec)
  : res (list iovec) :=
  if length <=? 0 then Ok acc
  else match cnt with
  | O => UB UB_bounds
  | S cnt' =>
      let len := Z.min length (g_io_unit_size G) in
      fill_iovs cnt' buf (u32 (length - len)) (u32 (offset + len))
        (acc ++ [Iovec (buf, offset) len])
  end.

(** Result: the return code, the iovec array and its length. *)
Definition nvme_perf_allocate_iovs (buf : loc) (length : Z)
  : M st (option (loc * Z)) :=
  if g_io_unit_size G =? 0 then fail UB_div0
  else
    let iovcnt := s32 (u64 (length + g_io_unit_size G - 1) / g_io_unit_size G) in
    a ← alloc;
    match a with
    | None => mret None
    | Some a =>
        l ← (fun s => match fill_iovs (Z.to_nat iovcnt) buf length 0 [] with
                      | Ok l => Ok (l, s)
                      | Exit c => Exit c | UB r => UB r
                      | OutOfFuel => OutOfFuel end);
        _ ← modify (set_iov_arrays <[a := l]>);
        mret (Some (a, iovcnt))
    end.

(** Result: task->iovs, task->iovcnt, task->md_iov.iov_base.  The memset with
    the pattern touches only the buffer's contents. *)
Definition nvme_setup_payload : M st (loc * Z * option loc) :=
  let max_io_size_bytes :=
    u32 (g_io_size_bytes G + g_max_io_md_size G * g_max_io_size_blocks G) in
  buf ← alloc;
  match buf with
  | None => exit 1
  | Some buf =>
      _ ← modify (set_bufs (fun x => {[buf]} ∪ x));
      r ← nvme_perf_allocate_iovs buf max_io_size_bytes;
      match r with
      | None => _ ← dma_free (Some buf); exit 1
      | Some (a, cnt) =>
          let max_io_md_size := u32 (g_max_io_md_size G * g_max_io_size_blocks G) in
          if max_io_md_size =? 0 then mret (a, cnt, None)
          else
            md ← alloc;
            match md with
            | None => exit 1
            | Some md =>
                _ ← modify (set_bufs (fun x => {[md]} ∪ x));
                mret (a, cnt, Some md)
            end
      end
  end.

(** ** Submission *)

Inductive dif_mode := DIF_MODE_NONE | DIF_MODE_DIF | DIF_MODE_DIX.

Definition io_dif_mode (e : ns_entry) : dif_mode :=
  if negb (md_size e =? 0)
     && (Z.land (io_flags e) SPDK_NVME_IO_FLAGS_PRACT =? 0)
  then if md_interleave e then DIF_MODE_DIF else DIF_MODE_DIX
  else DIF_MODE_NONE.

Definition nvme_submit_io (t n : loc) (entry : loc) (offset_in_ios : Z) : M st Z :=
  e ← load_entry entry;
  let lba := u64 (offset_in_ios * io_size_blocks e) in
  let mode := io_dif_mode e in
  c ← load_ns n;
  let qp_num := last_qpair c in
  _ ← upd_ns n (with_last_qpair
        (if qp_num + 1 =? num_active_qpairs c then 0 else qp_num + 1));
  _ ← match mode with
      | DIF_MODE_NONE => mret tt
      | _ => if e_dif_ctx_init E e lba =? 0 then mret tt else exit 1
      end;
  x ← load_task t;
  let rc_dif := match mode with
                | DIF_MODE_NONE => 0
                | _ => if is_read x then 0 else e_dif_generate E x
                end in
  if negb (rc_dif =? 0) then mret rc_dif
  else
    v ← load_iov0 (iovs x);
    let cmd := IoCmd t n qp_num (is_read x) (negb (iovcnt x =? 1)) lba
                 (io_size_blocks e) (iov_base v) (md_iov x) in
    s ← get;
    let rc := e_submit E (length (io_log s)) cmd in
    _ ← put (log_cmd (cmd, rc) s);
    mret rc.

Fixpoint min_loop (l : list loc) (m : Z) : M st Z :=
  match l with
  | [] => mret m
  | e :: l' => x ← load_entry e; min_loop l' (Z.min m (size_in_ios x))
  end.

Definition get_min_size_in_ios : M st Z :=
  s ← get;
  match g_namespaces s with
  | [] => fail UB_null
  | e0 :: _ => x0 ← load_entry e0; min_loop (g_namespaces s) (size_in_ios x0)
  end.

(** The failure branch without g_continue_on_error, shared by submit_single_io
    and submit_single_io_rep. *)
Definition drop_failed (t : loc) : M st unit :=
  x ← load_task t;
  v ← load_iov0 (iovs x);
  _ ← dma_free (Some (fst (iov_base v)));
  _ ← free_iovs (iovs x);
  _ ← dma_free (md_iov x);
  _ ← upd_ns (t_ns_ctx x) (with_status 1);
  free_task t.

(** The end of a submission: queue or drop on failure, count on success, and
    start draining once g_number_ios have been submitted. *)
Definition submit_tail (t n : loc) (rc : Z) : M st unit :=
  _ ← (if negb (rc =? 0) then
         if g_continue_on_error G then tq_op (TAILQ_INSERT_TAIL (HQueued n) t)
         else drop_failed t
       else upd_ns n bump_submitted);
  c ← load_ns n;
  if negb (g_number_ios G =? 0) && (g_number_ios G <=? io_submitted (stats c))
  then upd_ns n (with_draining true) else mret tt.

(** submit_single_io reads its local variable offset_in_ios, which it never
    sets. *)
Definition submit_single_io (t : loc) : M st unit :=
  x ← load_task t;
  let n := t_ns_ctx x in
  c ← load_ns n;
  _ ← c_assert (negb (is_draining c));
  tsc ← spdk_get_ticks;
  _ ← upd_task t (with_submit_tsc tsc);
  offset_in_ios ← fail UB_uninit;
  rc ← nvme_submit_io t n (c_entry c) offset_in_ios;
  submit_tail t n rc.

(** One replica of a round. *)
Definition submit_replica (off : Z) (rd : bool) (t : loc) : M st unit :=
  tsc ← spdk_get_ticks;
  _ ← upd_task t (with_round tsc off rd);
  x ← load_task t;
  c ← load_ns (t_ns_ctx x);
  rc ← nvme_submit_io t (t_ns_ctx x) (c_entry c) off;
  submit_tail t (t_ns_ctx x) rc.

(** TAILQ_FOREACH(task, &main_task->rep_tasks, link): the next pointer is read
    after the body has run. *)
Fixpoint submit_loop (fuel : nat) (cur : option loc) (off : Z) (rd : bool)
  : M st unit :=
  match cur with
  | None => mret tt
  | Some t =>
      match fuel with
      | O => fun _ => OutOfFuel
      | S fuel' =>
          _ ← submit_replica off rd t;
          nxt ← tq_next t;
          submit_loop fuel' nxt off rd
      end
  end.

(** The offset of the next round and the namespace or entry state it comes
    from. *)
Definition gen_offset (n entry : loc) (min_size : Z) : M st Z :=
  e ← load_entry entry;
  match zipf e with
  | Some z =>
      let '(v, z') := e_zipf_generate E z in
      _ ← upd_entry entry (with_zipf z'); mret v
  | None =>
      if g_is_random G then
        let '(v, sd) := e_rand_r E (seed e) in
        _ ← upd_entry entry (with_seed sd);
        if size_in_ios e =? 0 then fail UB_div0 else mret (v mod size_in_ios e)
      else
        c ← load_ns n;
        let o := c_offset_in_ios c in
        let o' := u64 (o + 1) in
        _ ← upd_ns n (with_offset (if o' =? min_size then 0 else o'));
        mret o
  end.

Definition gen_is_read (entry : loc) : M st bool :=
  if g_rw_percentage G =? 100 then mret true
  else if g_rw_percentage G =? 0 then mret false
  else
    e ← load_entry entry;
    let '(v, sd) := e_rand_r E (seed e) in
    _ ← upd_entry entry (with_seed sd);
    mret (Z.rem v 100 <? g_rw_percentage G).

Definition submit_single_io_rep (main : loc) : M st unit :=
  m ← load_task main;
  let main_ns_ctx := t_ns_ctx m in
  c ← load_ns main_ns_ctx;
  let main_entry := c_entry c in
  min_size_in_ios ← get_min_size_in_ios;
  _ ← c_assert (negb (is_draining c));
  offset_in_ios ← gen_offset main_ns_ctx main_entry min_size_in_ios;
  rd ← gen_is_read main_entry;
  cur ← tq_first (HRep main);
  submit_loop F cur offset_in_ios rd.

(** ** Completion *)

(** The next pointer is read after free(task). *)
Fixpoint release_loop (fuel : nat) (cur : option loc) (main : loc) : M st unit :=
  match cur with
  | None => mret tt
  | Some t =>
      match fuel with
      | O => fun _ => OutOfFuel
      | S fuel' =>
          x ← load_task t;
          _ ← free_iovs (iovs x);
          _ ← (if bool_decide (t = main) then mret tt else free_task t);
          nxt ← tq_next t;
          release_loop fuel' nxt main
      end
  end.

Definition rep_task_release (main : loc) : M st unit :=
  m ← load_task main;
  v ← load_iov0 (iovs m);
  _ ← dma_free (Some (fst (iov_base v)));
  _ ← dma_free (md_iov m);
  cur ← tq_first (HRep main);
  _ ← release_loop F cur main;
  free_task main.

(** The loop of task_complete over the replicas: stop and release when a
    namespace is draining, else give the replica its next io_id.  The result
    tells whether the group was released. *)
Fixpoint next_round_loop (fuel : nat) (cur : option loc) (main : loc) (id : Z)
  : M st bool :=
  match cur with
  | None => mret false
  | Some t =>
      match fuel with
      | O => fun _ => OutOfFuel
      | S fuel' =>
          x ← load_task t;
          c ← load_ns (t_ns_ctx x);
          if is_draining c then _ ← rep_task_release main; mret true
          else
            _ ← upd_task t (with_io_id id);
            nxt ← tq_next t;
            next_round_loop fuel' nxt main id
      end
  end.

Definition next_io_id (id : Z) : Z :=
  let id' := u32 (id + g_queue_depth G) in
  if id' =? 0 then 1 else id'.

(** The statistics of a completion. *)
Definition complete_stats (tsc_diff : Z) (c : ns_worker_ctx) : ns_worker_ctx :=
  let x := stats c in
  NsCtx (c_entry c)
    (Stats (io_submitted x) (u64 (io_completed x + 1))
       (u64 (total_tsc x + tsc_diff))
       (if tsc_diff <? min_tsc x then tsc_diff else min_tsc x)
       (if max_tsc x <? tsc_diff then tsc_diff else max_tsc x))
    (u64 (current_queue_depth c - 1)) (c_offset_in_ios c) (is_draining c)
    (num_active_qpairs c) (last_qpair c)
    (if 0 <? g_latency_sw_tracking_level G then histogram c ++ [tsc_diff]
     else histogram c)
    (status c).

(** What a completion does before the group goes on: the result is the main task
    when all replicas have completed and no namespace drains.  The verification
    of the data of a namespace with metadata only prints. *)
Definition group_done (t : loc) : M st (option loc) :=
  x ← load_task t;
  now ← spdk_get_ticks;
  _ ← upd_ns (t_ns_ctx x) (complete_stats (u64 (now - submit_tsc x)));
  let main := main_task x in
  _ ← upd_task main (fun m => with_completed (u32 (rep_completed_num m + 1)) m);
  m ← load_task main;
  if rep_completed_num m <? g_rep_num G then mret None
  else
    _ ← upd_task main (with_completed 0);
    cur ← tq_first (HRep main);
    released ← next_round_loop F cur main (next_io_id (io_id m));
    mret (if (released : bool) then None else Some main).

Definition task_complete (t : loc) : M st unit :=
  r ← group_done t;
  match r with
  | Some main => submit_single_io_rep main
  | None => mret tt
  end.

(** A completion: no error, an error, or the "invalid namespace or format"
    error of a namespace that was unplugged. *)
Inductive cpl := CplOk | CplError | CplInvalidNs.

(** The reaction to an error. *)
Definition io_status (t : loc) (r : cpl) : M st unit :=
  match r with
  | CplOk => mret tt
  | _ =>
      x ← load_task t;
      if g_continue_on_error G then mret tt
      else
        _ ← match r with
            | CplInvalidNs => upd_ns (t_ns_ctx x) (with_draining true)
            | _ => mret tt
            end;
        upd_ns (t_ns_ctx x) (with_status 1)
  end.

Definition io_complete (t : loc) (r : cpl) : M st unit :=
  _ ← io_status t r;
  task_complete t.

(** ** Construction of the groups *)

(** A zeroed task is linked into no queue and has no queue head yet. *)
Definition new_task (t : loc) (x : perf_task) (s : st) : st :=
  set_tqs (Tailqs (heads (tqs s)) (<[t := Entry None SNull]> (nodes (tqs s))))
    (set_tasks <[t := x]> s).

Definition allocate_main_task (n : loc) (io_id ns_id : Z) : M st loc :=
  t ← alloc;
  match t with
  | None => exit 1
  | Some t =>
      '(a, cnt, md) ← nvme_setup_payload;
      _ ← modify (new_task t (Task (u32 io_id) ns_id n a cnt md 0 0 false t 0));
      _ ← tq_op (fun q => Some (TAILQ_INIT (HRep t) q));
      _ ← tq_op (TAILQ_INSERT_TAIL (HRep t) t);
      mret t
  end.

(** The allocation of the copy's iovec array is not checked: memcpy writes
    through the null pointer when it fails. *)
Definition copy_task (main : loc) (n : loc) (ns_id : Z) : M st loc :=
  t ← alloc;
  match t with
  | None => exit 1
  | Some t =>
      m ← load_task main;
      a ← alloc;
      match a with
      | None => fail UB_null
      | Some a =>
          s ← get;
          l ← lift_opt UB_freed (iov_arrays s !! iovs m);
          _ ← modify (set_iov_arrays <[a := l]>);
          _ ← modify (new_task t (Task (io_id m) ns_id n a (iovcnt m) (md_iov m)
                                    0 0 false main 0));
          _ ← tq_op (TAILQ_INSERT_TAIL (HRep main) t);
          mret t
      end
  end.

(** The inner loop of submit_io_rep over the worker's namespaces. *)
Fixpoint make_copies (main : loc) (ns : list loc) (ns_id : Z) : M st unit :=
  match ns with
  | [] => mret tt
  | n :: ns' => _ ← copy_task main n ns_id; make_copies main ns' (ns_id + 1)
  end.

Definition make_group (ns : list loc) (io_id : Z) : M st loc :=
  match ns with
  | [] => fail UB_null
  | n :: ns' =>
      main ← allocate_main_task n io_id 0;
      _ ← (if g_send_main_rep_finally G then tq_op (TAILQ_REMOVE (HRep main) main)
           else mret tt);
      _ ← make_copies main ns' 1;
      _ ← (if g_send_main_rep_finally G
           then tq_op (TAILQ_INSERT_TAIL (HRep main) main) else mret tt);
      mret main
  end.

Fixpoint submit_io_rep (queue_depth : nat) (io_id : Z) : M st unit :=
  match queue_depth with
  | O => mret tt
  | S qd =>
      s ← get;
      main ← make_group (worker_ns_ctx s) io_id;
      _ ← submit_single_io_rep main;
      submit_io_rep qd (u32 (io_id + 1))
  end.

(** ** The retry queue and the end of a run *)

Fixpoint retry_loop (fuel : nat) (n : loc) : M st unit :=
  match fuel with
  | O => fun _ => OutOfFuel
  | S fuel' =>
      cur ← tq_first HSwap;
      match cur with
      | None => mret tt
      | Some t =>
          _ ← tq_op (TAILQ_REMOVE HSwap t);
          c ← load_ns n;
          _ ← (if is_draining c then tq_op (TAILQ_INSERT_TAIL (HQueued n) t)
               else submit_single_io t);
          retry_loop fuel' n
      end
  end.

(** The first part of work_fn's loop body for a namespace. *)
Definition submit_queued (n : loc) : M st unit :=
  c ← load_ns n;
  if g_continue_on_error G && negb (is_draining c) then
    _ ← tq_op (fun q => Some (TAILQ_INIT HSwap q));
    _ ← tq_op (TAILQ_SWAP HSwap (HQueued n));
    retry_loop F n
  else mret tt.

Fixpoint cleanup_loop (fuel : nat) (cur : option loc) (n : loc) : M st unit :=
  match cur with
  | None => mret tt
  | Some t =>
      match fuel with
      | O => fun _ => OutOfFuel
      | S fuel' =>
          ttask ← tq_next t;
          _ ← tq_op (TAILQ_REMOVE (HQueued n) t);
          _ ← task_complete t;
          cleanup_loop fuel' ttask n
      end
  end.

Definition cleanup_ns_worker_ctx (n : loc) : M st unit :=
  cur ← tq_first (HQueued n);
  cleanup_loop F cur n.

End Ops.
