(* ===== verification/PerfRepLemmas.v ===== *)
(** * Lock-step replication: the invariant of the replicated I/O generator

    Evaluation lemmas for the heap primitives of [PerfRep], the postconditions
    of a replica's submission and of a whole round, and the invariant that
    relates the groups, the commands in flight and the queue depths of the
    namespaces. *)

From S2P Require Import Prelude Tailq PerfRep.

(** ** Primitives *)

Lemma load_task_ok s t x : tasks s !! t = Some x -> load_task t s = Ok (x, s).
Proof. intros H. unfold load_task, mbind, M_bind, get. by rewrite H. Qed.

Lemma upd_task_ok s t x f :
  tasks s !! t = Some x -> upd_task t f s = Ok (tt, set_tasks <[t := f x]> s).
Proof.
  intros H. unfold upd_task. erewrite M_bind_ok by by apply load_task_ok. done.
Qed.

Lemma load_ns_ok s n c : nsctx s !! n = Some c -> load_ns n s = Ok (c, s).
Proof. intros H. unfold load_ns, mbind, M_bind, get. by rewrite H. Qed.

Lemma upd_ns_ok s n c f :
  nsctx s !! n = Some c -> upd_ns n f s = Ok (tt, set_nsctx <[n := f c]> s).
Proof.
  intros H. unfold upd_ns. erewrite M_bind_ok by by apply load_ns_ok. done.
Qed.

Lemma load_entry_ok s n e : entries s !! n = Some e -> load_entry n s = Ok (e, s).
Proof. intros H. unfold load_entry, mbind, M_bind, get. by rewrite H. Qed.

Lemma upd_entry_ok s n e f :
  entries s !! n = Some e -> upd_entry n f s = Ok (tt, set_entries <[n := f e]> s).
Proof.
  intros H. unfold upd_entry. erewrite M_bind_ok by by apply load_entry_ok. done.
Qed.

Lemma load_iov0_ok s a v vs :
  iov_arrays s !! a = Some (v :: vs) -> load_iov0 a s = Ok (v, s).
Proof. intros H. unfold load_iov0, mbind, M_bind, get. by rewrite H. Qed.

Lemma tq_op_ok s f q : f (tqs s) = Some q -> tq_op f s = Ok (tt, set_tqs q s).
Proof. intros H. unfold tq_op, mbind, M_bind, get. by rewrite H. Qed.

Lemma tq_first_ok s h l :
  tq_rep (tqs s) h l -> tq_first h s = Ok (hd_or l None, s).
Proof.
  intros H. unfold tq_first, mbind, M_bind, get.
  by rewrite (TAILQ_FIRST_rep _ _ _ H).
Qed.

Lemma tq_next_ok s h l1 t l2 :
  tq_rep (tqs s) h (l1 ++ t :: l2) -> tq_next t s = Ok (hd_or l2 None, s).
Proof.
  intros H. unfold tq_next, mbind, M_bind, get.
  by rewrite (TAILQ_NEXT_rep _ _ _ _ _ H).
Qed.

#[export] Hint Resolve load_task_ok upd_task_ok load_ns_ok upd_ns_ok
  load_entry_ok upd_entry_ok load_iov0_ok tq_op_ok tq_first_ok tq_next_ok : spdk.

(** [mrun] runs the next action of a program by an evaluation lemma. *)
Ltac mrun := erewrite M_bind_ok; [| solve [eauto with spdk | reflexivity]]; cbn beta.

(** ** The environment of an undisturbed run: every driver and DIF call
    succeeds. *)
Record env_ok (E : env) : Prop := {
  eo_submit : forall n c, e_submit E n c = 0;
  eo_dif_init : forall e lba, e_dif_ctx_init E e lba = 0;
  eo_dif_gen : forall x, e_dif_generate E x = 0 }.

(** The memory a replica's submission needs. *)
Record replica_mem (s : st) (x : perf_task) (vs : list iovec) : Prop := {
  rm_ns : exists c e, nsctx s !! t_ns_ctx x = Some c
            /\ entries s !! c_entry c = Some e;
  rm_iovs : iov_arrays s !! iovs x = Some vs;
  rm_vs : vs <> [] }.

(** The fields of a namespace entry that do not change during a run. *)
Definition strip (e : ns_entry) : ns_entry :=
  NsEntry (io_size_blocks e) (size_in_ios e) (md_size e) (md_interleave e)
    (io_flags e) 0 ((fun _ => 0) <$> zipf e).

(** The parts of the state that the I/O path leaves alone. *)
Record same_heap (s s' : st) : Prop := {
  sh_tqs : tqs s' = tqs s;
  sh_entries : forall k, strip <$> entries s' !! k = strip <$> entries s !! k;
  sh_namespaces : g_namespaces s' = g_namespaces s;
  sh_workers : worker_ns_ctx s' = worker_ns_ctx s;
  sh_iovs : iov_arrays s' = iov_arrays s;
  sh_bufs : bufs s' = bufs s;
  sh_next : next_loc s' = next_loc s }.

Lemma same_heap_refl s : same_heap s s.
Proof. by constructor. Qed.

Lemma same_heap_trans s1 s2 s3 :
  same_heap s1 s2 -> same_heap s2 s3 -> same_heap s1 s3.
Proof. intros [] []. constructor; congruence. Qed.

Lemma same_heap_entry s s' k e :
  same_heap s s' -> entries s !! k = Some e ->
  exists e', entries s' !! k = Some e' /\ strip e' = strip e.
Proof.
  intros Hh He. pose proof (sh_entries _ _ Hh k) as H. rewrite He in H.
  destruct (entries s' !! k) as [e'|]; [|discriminate].
  exists e'. split; [done|]. by apply (inj Some).
Qed.

Lemma same_heap_entry_back s s' k e' :
  same_heap s s' -> entries s' !! k = Some e' ->
  exists e, entries s !! k = Some e /\ strip e' = strip e.
Proof.
  intros Hh He. pose proof (sh_entries _ _ Hh k) as H. rewrite He in H.
  destruct (entries s !! k) as [e|]; [|discriminate].
  exists e. split; [done|]. by apply (inj Some).
Qed.

(** [tasks_upd R l m m']: the tasks of [l] changed by [R], no other task
    changed. *)
Definition tasks_upd (R : perf_task -> perf_task -> Prop) (l : list loc)
    (m m' : gmap loc perf_task) : Prop :=
  forall t, if bool_decide (t ∈ l)
    then exists x x', m !! t = Some x /\ m' !! t = Some x' /\ R x x'
    else m' !! t = m !! t.

Lemma tasks_upd_insert (R : perf_task -> perf_task -> Prop) t x x' m :
  m !! t = Some x -> R x x' -> tasks_upd R [t] m (<[t := x']> m).
Proof.
  intros Hx HR t'. case_bool_decide as Ht'.
  - apply list_elem_of_singleton in Ht' as ->. exists x, x'.
    by rewrite lookup_insert_eq.
  - rewrite lookup_insert_ne; [done|set_solver].
Qed.

(** The addresses a task is built with. *)
Definition same_shape (x x' : perf_task) : Prop :=
  t_ns_ctx x' = t_ns_ctx x /\ iovs x' = iovs x /\ iovcnt x' = iovcnt x
  /\ md_iov x' = md_iov x /\ main_task x' = main_task x /\ ns_id x' = ns_id x.

Definition round_of (off : Z) (rd : bool) (x x' : perf_task) : Prop :=
  exists tsc, x' = with_round tsc off rd x.

Lemma round_of_shape off rd x x' : round_of off rd x x' -> same_shape x x'.
Proof. intros [tsc ->]. done. Qed.

#[export] Hint Resolve round_of_shape : spdk.

(** How a step changes the namespaces: [k n] commands were submitted to (or,
    when negative, completed by) namespace [n]. *)
Definition ns_after (G : config) (k : loc -> Z) (m m' : gmap loc ns_worker_ctx)
  : Prop :=
  forall n, match m !! n with
  | None => m' !! n = None
  | Some c => exists c', m' !! n = Some c'
      /\ c_entry c' = c_entry c
      /\ num_active_qpairs c' = num_active_qpairs c
      /\ u64 (current_queue_depth c') = u64 (current_queue_depth c + k n)
      /\ (0 <= current_queue_depth c < 2 ^ 64 ->
          0 <= current_queue_depth c' < 2 ^ 64)
      /\ (g_number_ios G = 0 -> is_draining c' = is_draining c)
  end.

Lemma ns_after_refl G m : ns_after G (fun _ => 0) m m.
Proof.
  intros n. destruct (m !! n) as [c|]; [|done].
  exists c. rewrite Z.add_0_r. tauto.
Qed.

Lemma ns_after_trans G k1 k2 m1 m2 m3 :
  ns_after G k1 m1 m2 -> ns_after G k2 m2 m3 ->
  ns_after G (fun n => k1 n + k2 n) m1 m3.
Proof.
  intros H1 H2 n. specialize (H1 n). specialize (H2 n).
  destruct (m1 !! n) as [c1|].
  - destruct H1 as (c2 & E2 & A1 & A2 & A3 & A4 & A5). rewrite E2 in H2.
    destruct H2 as (c3 & E3 & B1 & B2 & B3 & B4 & B5). exists c3.
    split; [done|]. split; [congruence|]. split; [congruence|]. split; [|split].
    + rewrite B3, <- wrap_add_l, A3, wrap_add_l. f_equal. lia.
    + auto.
    + intros Hg. rewrite B5, A5; auto.
  - by rewrite H1 in H2.
Qed.

Lemma ns_after_ext G k k' m m' :
  (forall n, k n = k' n) -> ns_after G k m m' -> ns_after G k' m m'.
Proof.
  intros Hk H n. specialize (H n). destruct (m !! n); [|done].
  rewrite <- Hk. exact H.
Qed.

(** One namespace record is replaced. *)
Lemma ns_after_insert G n c c' d m :
  m !! n = Some c -> c_entry c' = c_entry c ->
  num_active_qpairs c' = num_active_qpairs c ->
  current_queue_depth c' = u64 (current_queue_depth c + d)
    \/ current_queue_depth c' = current_queue_depth c /\ d = 0 ->
  (g_number_ios G = 0 -> is_draining c' = is_draining c) ->
  ns_after G (fun j => if bool_decide (j = n) then d else 0) m (<[n := c']> m).
Proof.
  intros Hn He Ha Hd Hg j. destruct (decide (j = n)) as [->|Hne].
  - rewrite Hn. exists c'. rewrite lookup_insert_eq, bool_decide_true by done.
    do 3 (split; [done|]). destruct Hd as [->|[-> ->]].
    + rewrite wrap_wrap. split; [done|]. split; [|done].
      intros _. apply wrap_range. lia.
    + rewrite Z.add_0_r. auto.
  - rewrite lookup_insert_ne, bool_decide_false by done.
    exact (ns_after_refl G m j).
Qed.

(** The command a replica's submission issues. *)
Definition replica_cmd (s : st) (off : Z) (rd : bool) (t : loc) (cmd : io_cmd)
  : Prop :=
  exists x c e v vs, tasks s !! t = Some x
    /\ nsctx s !! t_ns_ctx x = Some c /\ entries s !! c_entry c = Some e
    /\ iov_arrays s !! iovs x = Some (v :: vs)
    /\ cmd_task cmd = t /\ cmd_ns cmd = t_ns_ctx x
    /\ cmd_read cmd = rd /\ cmd_lba cmd = u64 (off * io_size_blocks e)
    /\ cmd_lba_count cmd = io_size_blocks e
    /\ cmd_buf cmd = iov_base v /\ cmd_md cmd = md_iov x.

Lemma nvme_submit_io_ok E s t n entry e c x v vs off :
  env_ok E -> entries s !! entry = Some e -> nsctx s !! n = Some c ->
  tasks s !! t = Some x -> iov_arrays s !! iovs x = Some (v :: vs) ->
  exists cmd qp, nvme_submit_io E t n entry off s
    = Ok (0, log_cmd (cmd, 0) (set_nsctx <[n := with_last_qpair qp c]> s))
    /\ cmd = IoCmd t n (last_qpair c) (is_read x) (negb (iovcnt x =? 1))
              (u64 (off * io_size_blocks e)) (io_size_blocks e) (iov_base v)
              (md_iov x).
Proof.
  intros [H1 H2 H3] He Hc Hx Hv. unfold nvme_submit_io.
  mrun. mrun. mrun. set (s1 := set_nsctx _ s).
  assert (Hm : (match io_dif_mode e with
      | DIF_MODE_NONE => mret tt
      | _ => if e_dif_ctx_init E e (u64 (off * io_size_blocks e)) =? 0
             then mret tt else exit 1
      end : M st unit) s1 = Ok (tt, s1)).
  { destruct (io_dif_mode e); rewrite ?H2; done. }
  erewrite M_bind_ok by exact Hm. cbn beta.
  assert (Hx1 : tasks s1 !! t = Some x) by done.
  assert (Hv1 : iov_arrays s1 !! iovs x = Some (v :: vs)) by done.
  mrun. replace (match io_dif_mode e with
                 | DIF_MODE_NONE => 0
                 | _ => if is_read x then 0 else e_dif_generate E x end) with 0.
  2: { destruct (io_dif_mode e), (is_read x); rewrite ?H3; done. }
  cbn [Z.eqb negb]. mrun. eexists _, _. split; [|reflexivity].
  unfold mbind, M_bind, get, put, mret, M_ret. by rewrite H1.
Qed.

Lemma submit_tail_ok G s t n c :
  nsctx s !! n = Some c ->
  exists c', submit_tail G t n 0 s = Ok (tt, set_nsctx (fun _ => <[n := c']> (nsctx s)) s)
    /\ c_entry c' = c_entry c /\ num_active_qpairs c' = num_active_qpairs c
    /\ current_queue_depth c' = u64 (current_queue_depth c + 1)
    /\ (g_number_ios G = 0 -> is_draining c' = is_draining c).
Proof.
  intros Hc. unfold submit_tail. cbn [Z.eqb negb]. mrun.
  set (c1 := bump_submitted c). set (s1 := set_nsctx _ s).
  assert (Hc1 : nsctx s1 !! n = Some c1) by apply lookup_insert_eq.
  mrun. destruct (negb (g_number_ios G =? 0) && _) eqn:Eg.
  - exists (with_draining true c1). erewrite upd_ns_ok by exact Hc1.
    unfold set_nsctx; cbn. rewrite insert_insert_eq. repeat split; try done.
    intros Hg. rewrite Hg in Eg. discriminate.
  - exists c1. done.
Qed.

Lemma submit_replica_ok E G s t x vs off rd :
  env_ok E -> tasks s !! t = Some x -> replica_mem s x vs ->
  exists s' cmd, submit_replica E G off rd t s = Ok (tt, s')
    /\ same_heap s s' /\ tasks_upd (round_of off rd) [t] (tasks s) (tasks s')
    /\ ns_after G (fun j => if bool_decide (j = t_ns_ctx x) then 1 else 0)
         (nsctx s) (nsctx s')
    /\ io_log s' = io_log s ++ [(cmd, 0)] /\ replica_cmd s off rd t cmd.
Proof.
  intros HE Hx [(c & e & Hc & He) Hv Hne]. destruct vs as [|v vs]; [done|].
  unfold submit_replica. mrun. set (tsc := e_ticks E (n_ticks s)).
  set (s0 := St _ _ _ _ _ _ _ _ _ _ _ _).
  assert (Hx0 : tasks s0 !! t = Some x) by done. mrun.
  set (s1 := set_tasks _ s0).
  assert (Hx1 : tasks s1 !! t = Some (with_round tsc off rd x))
    by apply lookup_insert_eq.
  mrun. cbn [t_ns_ctx with_round].
  assert (Hc1 : nsctx s1 !! t_ns_ctx x = Some c) by done. mrun.
  edestruct (nvme_submit_io_ok E s1 t (t_ns_ctx x) (c_entry c) e c
    (with_round tsc off rd x) v vs off) as (cmd & qp & Hs & Hcmd); try done.
  erewrite M_bind_ok by exact Hs. cbn beta.
  set (c2 := with_last_qpair qp c) in *. set (s2 := log_cmd _ _).
  assert (Hc2 : nsctx s2 !! t_ns_ctx x = Some c2) by apply lookup_insert_eq.
  destruct (submit_tail_ok G s2 t _ _ Hc2) as (c3 & Ht & A1 & A2 & A3 & A4).
  exists (set_nsctx (fun _ => <[t_ns_ctx x := c3]> (nsctx s2)) s2), cmd.
  split; [exact Ht|]. split; [|split; [|split; [|split]]].
  - by constructor.
  - cbn. apply tasks_upd_insert with (x := x); [done|by exists tsc].
  - cbn. rewrite insert_insert_eq. apply ns_after_insert with (c := c); auto.
  - done.
  - exists x, c, e, v, vs. subst cmd. done.
Qed.

(** ** A whole round *)

(** The number of tasks of [l] that belong to namespace [n]. *)
Definition cnt_ns (m : gmap loc perf_task) (l : list loc) (n : loc) : Z :=
  Z.of_nat (length (filter (fun t => t_ns_ctx <$> m !! t = Some n) l)).

Lemma cnt_ns_cons m t l n x :
  m !! t = Some x ->
  cnt_ns m (t :: l) n = (if bool_decide (n = t_ns_ctx x) then 1 else 0) + cnt_ns m l n.
Proof.
  intros Hx. unfold cnt_ns. rewrite filter_cons, Hx; cbn.
  case_decide as Hd; case_bool_decide; cbn -[Z.of_nat]; try congruence; lia.
Qed.

(** cnt_ns only reads the namespaces of the tasks. *)
Lemma cnt_ns_ext m m' l n :
  (forall t, t ∈ l -> t_ns_ctx <$> m' !! t = t_ns_ctx <$> m !! t) ->
  cnt_ns m' l n = cnt_ns m l n.
Proof.
  intros H. unfold cnt_ns. do 2 f_equal.
  induction l as [|t l IH]; [done|]. rewrite !filter_cons.
  rewrite (H t) by set_solver. rewrite IH by set_solver. done.
Qed.

Lemma tasks_upd_shape R l m m' t x' :
  (forall x x', R x x' -> same_shape x x') ->
  tasks_upd R l m m' -> m' !! t = Some x' ->
  exists x, m !! t = Some x /\ same_shape x x'.
Proof.
  intros HR H Hx. specialize (H t). case_bool_decide.
  - destruct H as (x & y & Hm & Hm' & HRx). simplify_eq. eauto.
  - rewrite <- H. exists x'. done.
Qed.

Lemma tasks_upd_ns R l m m' t :
  (forall x x', R x x' -> same_shape x x') ->
  tasks_upd R l m m' -> t_ns_ctx <$> m' !! t = t_ns_ctx <$> m !! t.
Proof.
  intros HR H. specialize (H t). case_bool_decide; [|by rewrite H].
  destruct H as (x & x' & -> & -> & Hx). cbn. by destruct (HR _ _ Hx) as [-> _].
Qed.

Lemma tasks_upd_nil R m : tasks_upd R [] m m.
Proof. by intros t. Qed.

Lemma tasks_upd_cons R t l m1 m2 m3 :
  t ∉ l -> tasks_upd R [t] m1 m2 -> tasks_upd R l m2 m3 ->
  tasks_upd R (t :: l) m1 m3.
Proof.
  intros Hn H1 H2 t'. specialize (H1 t'). specialize (H2 t').
  destruct (decide (t' = t)) as [->|Hne].
  - rewrite bool_decide_true in H1 by set_solver.
    rewrite bool_decide_false in H2 by done.
    rewrite bool_decide_true by set_solver. by rewrite H2.
  - rewrite bool_decide_false in H1 by set_solver.
    destruct (decide (t' ∈ l)) as [Hin|Hni].
    + rewrite bool_decide_true in H2 by done. rewrite bool_decide_true by set_solver.
      by rewrite H1 in H2.
    + rewrite bool_decide_false in H2 by done.
      rewrite bool_decide_false by set_solver. by rewrite H2.
Qed.

(** Facts about a replica survive steps that keep the heap, the tasks'
    addresses and the namespaces' entries. *)
Lemma replica_mem_mono G k s s' x x' vs :
  same_heap s s' -> ns_after G k (nsctx s) (nsctx s') -> same_shape x x' ->
  replica_mem s x vs -> replica_mem s' x' vs.
Proof.
  intros Hh Hns (S1 & S2 & _) [(c & e & Hc & He) Hv Hne].
  constructor; [|by rewrite (sh_iovs _ _ Hh), S2|done].
  specialize (Hns (t_ns_ctx x)). rewrite Hc in Hns.
  destruct Hns as (c' & Hc' & Hce & _).
  destruct (same_heap_entry _ _ _ _ Hh He) as (e' & He' & _).
  exists c', e'. by rewrite S1, Hce.
Qed.

Lemma replica_cmd_back G k R l s s' off rd t cmd :
  (forall x x', R x x' -> same_shape x x') ->
  same_heap s s' -> ns_after G k (nsctx s) (nsctx s') ->
  tasks_upd R l (tasks s) (tasks s') ->
  replica_cmd s' off rd t cmd -> replica_cmd s off rd t cmd.
Proof.
  intros HR Hh Hns Ht (x & c & e & v & vs & Hx & Hc & He & Hv & P).
  rewrite (sh_iovs _ _ Hh) in Hv.
  destruct (same_heap_entry_back _ _ _ _ Hh He) as (e0 & He0 & Hst).
  destruct (tasks_upd_shape _ _ _ _ _ _ HR Ht Hx) as (x0 & Hx0 & Hsh).
  destruct Hsh as (E1 & E2 & E3 & E4 & _). rewrite E1, E2, E4 in *.
  specialize (Hns (t_ns_ctx x0)).
  destruct (nsctx s !! t_ns_ctx x0) as [c0|] eqn:E0; [|congruence].
  destruct Hns as (c' & Hc' & Hce & _). rewrite Hc in Hc'. injection Hc' as <-.
  exists x0, c0, e0, v, vs. rewrite <- Hce.
  assert (io_size_blocks e = io_size_blocks e0) as <- by (by injection Hst).
  done.
Qed.

Lemma submit_loop_ok E G fuel s h l1 l off rd :
  env_ok E -> tq_rep (tqs s) h (l1 ++ l) -> (length l <= fuel)%nat ->
  (forall t, t ∈ l -> exists x vs, tasks s !! t = Some x /\ replica_mem s x vs) ->
  exists s' cmds, submit_loop E G fuel (hd_or l None) off rd s = Ok (tt, s')
    /\ same_heap s s' /\ tasks_upd (round_of off rd) l (tasks s) (tasks s')
    /\ ns_after G (cnt_ns (tasks s) l) (nsctx s) (nsctx s')
    /\ io_log s' = io_log s ++ map (fun c => (c, 0)) cmds
    /\ Forall2 (replica_cmd s off rd) l cmds.
Proof.
  intros HE. revert fuel s l1. induction l as [|t l IH]; intros fuel s l1 Hrep Hf Hl.
  { exists s, []. destruct fuel; cbn; (split; [done|]);
      (split; [apply same_heap_refl|]); (split; [apply tasks_upd_nil|]);
      (split; [apply ns_after_refl|]); by rewrite app_nil_r. }
  destruct fuel as [|fuel]; [cbn in Hf; lia|].
  destruct (Hl t) as (x & vs & Hx & Hm); [set_solver|].
  destruct (submit_replica_ok E G s t x vs off rd HE Hx Hm)
    as (s1 & cmd & Hs & Hh & Ht & Hns & Hlog & Hcmd).
  cbn [hd_or submit_loop]. erewrite M_bind_ok by exact Hs. cbn beta.
  assert (Hrep1 : tq_rep (tqs s1) h (l1 ++ t :: l)) by by rewrite (sh_tqs _ _ Hh).
  erewrite M_bind_ok by (eapply tq_next_ok; exact Hrep1). cbn beta.
  assert (Htl : t ∉ l).
  { destruct Hrep as (z & _ & _ & Hd). apply NoDup_app in Hd as (_ & _ & Hd).
    by apply NoDup_cons in Hd as [? _]. }
  edestruct (IH fuel s1 (l1 ++ [t])) as (s2 & cmds & Hs2 & Hh2 & Ht2 & Hns2 & Hlog2 & Hcmds).
  - by rewrite <- app_assoc.
  - cbn in Hf. lia.
  - intros t' Ht'. destruct (Hl t') as (x' & vs' & Hx' & Hm'); [set_solver|].
    exists x', vs'. split; [|by eapply replica_mem_mono].
    specialize (Ht t'). rewrite bool_decide_false in Ht by set_solver. by rewrite Ht.
  - exists s2, (cmd :: cmds). split; [exact Hs2|].
    split; [by eapply same_heap_trans|]. split; [by eapply tasks_upd_cons|].
    split; [|split].
    + eapply ns_after_ext; [|eapply ns_after_trans; [exact Hns|exact Hns2]].
      intros n. cbn beta. rewrite (cnt_ns_cons _ _ _ _ _ Hx). f_equal.
      apply cnt_ns_ext. intros. eapply tasks_upd_ns; [|exact Ht]. eauto with spdk.
    + by rewrite Hlog2, Hlog, <- app_assoc.
    + constructor; [done|]. eapply Forall2_impl; [exact Hcmds|].
      intros. eapply (replica_cmd_back _ _ (round_of off rd)); eauto.
      apply round_of_shape.
Qed.

(** The namespace table is not empty and every namespace can hold an I/O, as
    register_ns ensures. *)
Record entries_ok (s : st) : Prop := {
  eo_ne : g_namespaces s <> [];
  eo_in : forall k, k ∈ g_namespaces s -> is_Some (entries s !! k);
  eo_size : forall k e, entries s !! k = Some e -> 0 < size_in_ios e }.

Lemma entries_ok_mono s s' : same_heap s s' -> entries_ok s -> entries_ok s'.
Proof.
  intros Hh [H1 H2 H3]. constructor.
  - by rewrite (sh_namespaces _ _ Hh).
  - intros k. rewrite (sh_namespaces _ _ Hh). intros Hk.
    destruct (H2 k Hk) as [e He]. destruct (same_heap_entry _ _ _ _ Hh He) as (e' & -> & _).
    eauto.
  - intros k e' He. destruct (same_heap_entry_back _ _ _ _ Hh He) as (e & He0 & Hs).
    assert (size_in_ios e' = size_in_ios e) as -> by (by injection Hs). eauto.
Qed.

Lemma min_loop_ok s l m0 :
  (forall k, k ∈ l -> is_Some (entries s !! k)) ->
  exists m, min_loop l m0 s = Ok (m, s) /\ m <= m0
    /\ (forall k e, k ∈ l -> entries s !! k = Some e -> m <= size_in_ios e)
    /\ (m = m0 \/ exists k e, k ∈ l /\ entries s !! k = Some e /\ m = size_in_ios e).
Proof.
  revert m0. induction l as [|k l IH]; intros m0 Hl; cbn [min_loop].
  - exists m0. repeat split; [lia|set_solver|by left].
  - destruct (Hl k) as [e He]; [set_solver|]. mrun.
    destruct (IH (Z.min m0 (size_in_ios e))) as (m & -> & Hle & Hall & Hex).
    { set_solver. }
    exists m. split; [done|]. split; [lia|]. split.
    + intros k' e' Hk He'. apply elem_of_cons in Hk as [->|Hk]; [|eauto].
      assert (e' = e) as -> by congruence. lia.
    + destruct Hex as [->|(k' & e' & ? & ? & ?)].
      * destruct (Z.min_spec m0 (size_in_ios e)) as [[_ ->]|[_ ->]]; [by left|].
        right. exists k, e. repeat split; [set_solver|done].
      * right. exists k', e'. repeat split; [set_solver|done..].
Qed.

(** get_min_size_in_ios computes the smallest size of the namespaces. *)
Lemma get_min_ok s :
  entries_ok s ->
  exists m, get_min_size_in_ios s = Ok (m, s)
    /\ (forall k e, k ∈ g_namespaces s -> entries s !! k = Some e -> m <= size_in_ios e)
    /\ (exists k e, k ∈ g_namespaces s /\ entries s !! k = Some e /\ m = size_in_ios e).
Proof.
  intros [H1 H2 _]. unfold get_min_size_in_ios. mrun.
  destruct (g_namespaces s) as [|k0 ks] eqn:Ens; [done|].
  destruct (H2 k0) as [e0 He0]; [set_solver|]. erewrite M_bind_ok by by apply load_entry_ok.
  destruct (min_loop_ok s (k0 :: ks) (size_in_ios e0) H2) as (m & -> & _ & Hall & Hex).
  exists m. split; [done|]. split; [done|]. destruct Hex as [->|?]; [|done].
  exists k0, e0. repeat split; [set_solver|done].
Qed.

(** Generating the offset and the direction of a round changes only the
    generator state of the main task's namespace. *)
Definition quiet (G : config) (s s' : st) : Prop :=
  same_heap s s' /\ tasks s' = tasks s /\ io_log s' = io_log s
  /\ ns_after G (fun _ => 0) (nsctx s) (nsctx s').

Lemma quiet_refl G s : quiet G s s.
Proof. split; [apply same_heap_refl|]. repeat split. apply ns_after_refl. Qed.

Lemma quiet_trans G s1 s2 s3 : quiet G s1 s2 -> quiet G s2 s3 -> quiet G s1 s3.
Proof.
  intros (A1 & A2 & A3 & A4) (B1 & B2 & B3 & B4).
  split; [by eapply same_heap_trans|]. split; [congruence|]. split; [congruence|].
  eapply ns_after_ext; [|by eapply ns_after_trans]. done.
Qed.

Lemma quiet_entry G s k e e' :
  entries s !! k = Some e -> strip e' = strip e ->
  quiet G s (set_entries <[k := e']> s).
Proof.
  intros He Hs. split; [|repeat split; apply ns_after_refl].
  constructor; try done. intros k'. cbn.
  destruct (decide (k' = k)) as [->|]; [|by rewrite lookup_insert_ne].
  rewrite lookup_insert_eq, He. cbn. by rewrite Hs.
Qed.

Lemma gen_offset_ok E G n k c e m s :
  nsctx s !! n = Some c -> entries s !! k = Some e -> size_in_ios e <> 0 ->
  exists off s', gen_offset E G n k m s = Ok (off, s') /\ quiet G s s'.
Proof.
  intros Hc He Hsz. unfold gen_offset. mrun. destruct (zipf e) as [z|] eqn:Ez.
  - destruct (e_zipf_generate E z) as [v z']. mrun. eexists _, _.
    split; [reflexivity|]. apply quiet_entry with (e := e); [done|].
    unfold strip; cbn. by rewrite Ez.
  - destruct (g_is_random G).
    + destruct (e_rand_r E (seed e)) as [v sd]. mrun.
      destruct (Z.eqb_spec (size_in_ios e) 0); [done|]. eexists _, _.
      split; [reflexivity|]. by apply quiet_entry with (e := e).
    + mrun. mrun. eexists _, _. split; [reflexivity|].
      split; [by constructor|]. do 2 (split; [done|]). cbn.
      eapply ns_after_ext; [|apply ns_after_insert with (d := 0) (c := c)]; auto.
      intros j. cbn. by destruct (bool_decide _).
Qed.

Lemma gen_is_read_ok E G k e s :
  entries s !! k = Some e ->
  exists rd s', gen_is_read E G k s = Ok (rd, s') /\ quiet G s s'.
Proof.
  intros He. unfold gen_is_read.
  destruct (g_rw_percentage G =? 100); [eexists _, _; split; [done|apply quiet_refl]|].
  destruct (g_rw_percentage G =? 0); [eexists _, _; split; [done|apply quiet_refl]|].
  mrun. destruct (e_rand_r E (seed e)) as [v sd]. mrun. eexists _, _.
  split; [reflexivity|]. by apply quiet_entry with (e := e).
Qed.

(** ** Groups *)

(** A replica group: the main task's queue holds exactly [l], the replicas
    point to the main task, their namespaces exist, and all iovec arrays
    describe the same buffers [vs]. *)
Record group (s : st) (main : loc) (l : list loc) (vs : list iovec) : Prop := {
  gr_rep : tq_rep (tqs s) (HRep main) l;
  gr_main : main ∈ l;
  gr_tasks : forall t, t ∈ l -> exists x, tasks s !! t = Some x
     /\ main_task x = main /\ replica_mem s x vs }.

Lemma group_mono G k R l0 s s' main l vs :
  (forall x x', R x x' -> same_shape x x') ->
  same_heap s s' -> ns_after G k (nsctx s) (nsctx s') ->
  tasks_upd R l0 (tasks s) (tasks s') ->
  group s main l vs -> group s' main l vs.
Proof.
  intros HR Hh Hns Ht [H1 H2 H3]. constructor; [by rewrite (sh_tqs _ _ Hh)|done|].
  intros t Hin. destruct (H3 t Hin) as (x & Hx & Hm & Hmem).
  specialize (Ht t). case_bool_decide.
  - destruct Ht as (y & x' & Hy & Hx' & HRx). simplify_eq.
    exists x'. pose proof (HR _ _ HRx) as Hsh. split; [done|].
    split; [apply Hsh|by eapply replica_mem_mono].
  - exists x. rewrite Ht. split; [done|]. split; [done|].
    by eapply replica_mem_mono.
Qed.

Lemma submit_single_io_rep_ok E G F s main l vs x c :
  env_ok E -> entries_ok s -> group s main l vs -> (length l <= F)%nat ->
  tasks s !! main = Some x -> nsctx s !! t_ns_ctx x = Some c ->
  is_draining c = false ->
  exists off rd s' cmds, submit_single_io_rep E G F main s = Ok (tt, s')
    /\ same_heap s s' /\ tasks_upd (round_of off rd) l (tasks s) (tasks s')
    /\ ns_after G (cnt_ns (tasks s) l) (nsctx s) (nsctx s')
    /\ io_log s' = io_log s ++ map (fun c => (c, 0)) cmds
    /\ Forall2 (replica_cmd s off rd) l cmds
    /\ exists m s1, get_min_size_in_ios s = Ok (m, s)
         /\ gen_offset E G (t_ns_ctx x) (c_entry c) m s = Ok (off, s1).
Proof.
  intros HE He [Hrep Hmain Hl] HF Hx Hc Hd. unfold submit_single_io_rep.
  mrun. mrun. destruct (get_min_ok s He) as (m & Hm & _). erewrite M_bind_ok by exact Hm.
  cbn beta. rewrite Hd. mrun.
  destruct (Hl main Hmain) as (x' & Hx' & _ & [(c' & e & Hc' & Hent) _ _]).
  simplify_eq. pose proof (eo_size _ He _ _ Hent) as Hsz.
  destruct (gen_offset_ok E G (t_ns_ctx x) (c_entry c) c e m s Hc Hent ltac:(lia))
    as (off & s1 & Ho & Hq1).
  erewrite M_bind_ok by exact Ho. cbn beta. pose proof Hq1 as (Hh1 & _).
  destruct (same_heap_entry _ _ _ _ Hh1 Hent) as (e1 & He1 & _).
  destruct (gen_is_read_ok E G (c_entry c) e1 s1 He1) as (rd & s2 & Hr & Hq2).
  erewrite M_bind_ok by exact Hr. cbn beta.
  destruct (quiet_trans _ _ _ _ Hq1 Hq2) as (Hh & Ht & Hlog & Hns).
  assert (Hrep2 : tq_rep (tqs s2) (HRep main) l) by by rewrite (sh_tqs _ _ Hh).
  erewrite M_bind_ok by (apply tq_first_ok; exact Hrep2). cbn beta.
  assert (Hl2 : forall t, t ∈ l -> exists x vs, tasks s2 !! t = Some x /\ replica_mem s2 x vs).
  { intros t Hin. destruct (Hl t Hin) as (y & Hy & _ & Hmem). exists y, vs.
    rewrite Ht. split; [done|]. by eapply replica_mem_mono. }
  destruct (submit_loop_ok E G F s2 (HRep main) [] l off rd HE Hrep2 HF Hl2)
    as (s3 & cmds & Hs & Hh3 & Ht3 & Hns3 & Hlog3 & Hcmds).
  exists off, rd, s3, cmds. split; [exact Hs|]. split; [by eapply same_heap_trans|].
  rewrite Ht in Ht3, Hns3. split; [done|]. split; [|split].
  - eapply ns_after_ext; [|by eapply ns_after_trans]. done.
  - by rewrite Hlog3, Hlog.
  - split; [|by exists m, s1]. eapply Forall2_impl; [exact Hcmds|]. intros t cmd.
    apply (replica_cmd_back G (fun _ => 0) same_shape []); auto.
    rewrite Ht. apply tasks_upd_nil.
Qed.
