(* ===== verification/PerfRepSafety.v ===== *)
(** * The worker invariant and the lock-step theorem

    The invariant of a worker between two completions, its preservation by
    io_complete for every order of completions, and its establishment by
    submit_io_rep: while no namespace drains, the program neither reads freed
    memory nor fails an assertion, resubmits a group exactly when its last
    outstanding replica has completed, and sends every replica of a group the
    same sequence of offsets, directions and buffers. *)

From S2P Require Import Prelude Tailq PerfRep PerfRepLemmas.

(** ** The invariant *)

(** The commands of task [t] in the log of the driver. *)
Definition cmds_of (t : loc) (log : list (io_cmd * Z)) : list io_cmd :=
  filter (fun c => cmd_task c = t) (map fst log).

(** The outstanding members of a group. *)
Definition outstanding (l P : list loc) : list loc := filter (fun t => t ∈ l) P.

(** [gs]: the groups as pairs of the main task and its replicas. *)
Record core (G : config) (gs : list (loc * list loc)) (s : st) : Prop := {
  co_entries : entries_ok s;
  co_rep : forall main l, (main, l) ∈ gs -> Z.of_nat (length l) = g_rep_num G;
  co_groups : forall main l, (main, l) ∈ gs -> exists vs, group s main l vs;
  co_disj : NoDup (concat (map snd gs));
  co_log : forall main l, (main, l) ∈ gs -> exists rs : list (Z * bool),
    forall t, t ∈ l ->
      Forall2 (fun r cmd => replica_cmd s r.1 r.2 t cmd) rs (cmds_of t (io_log s)) }.

(** [P]: the tasks whose command is outstanding. *)
Record counters (gs : list (loc * list loc)) (P : list loc) (s : st) : Prop := {
  ct_nodup : NoDup P;
  ct_in : forall t, t ∈ P -> exists main l, (main, l) ∈ gs /\ t ∈ l;
  ct_done : forall main l x, (main, l) ∈ gs -> tasks s !! main = Some x ->
    outstanding l P <> [] /\
    rep_completed_num x = Z.of_nat (length l) - Z.of_nat (length (outstanding l P));
  ct_ns : forall n c, nsctx s !! n = Some c -> is_draining c = false
    /\ current_queue_depth c = u64 (cnt_ns (tasks s) P n) }.

Definition inv (G : config) gs P s : Prop := core G gs s /\ counters gs P s.

Lemma replica_cmd_fwd G k R l s s' off rd t cmd :
  (forall x x', R x x' -> same_shape x x') ->
  same_heap s s' -> ns_after G k (nsctx s) (nsctx s') ->
  tasks_upd R l (tasks s) (tasks s') ->
  replica_cmd s off rd t cmd -> replica_cmd s' off rd t cmd.
Proof.
  intros HR Hh Hns Ht (x & c & e & v & vs & Hx & Hc & He & Hv & P).
  rewrite <- (sh_iovs _ _ Hh) in Hv.
  destruct (same_heap_entry _ _ _ _ Hh He) as (e' & He' & Hst).
  assert (exists x', tasks s' !! t = Some x' /\ same_shape x x') as (x' & Hx' & Hsh).
  { specialize (Ht t). case_bool_decide.
    - destruct Ht as (y & x' & Hy & Hx' & Hr). simplify_eq. eauto.
    - exists x. by rewrite Ht. }
  destruct Hsh as (E1 & E2 & _ & E4 & _).
  specialize (Hns (t_ns_ctx x)). rewrite Hc in Hns. destruct Hns as (c' & Hc' & Hce & _).
  exists x', c', e', v, vs. rewrite E1, E2, E4, Hce.
  assert (io_size_blocks e' = io_size_blocks e) as -> by (by injection Hst).
  done.
Qed.

Lemma core_mono G k R l0 gs s s' :
  (forall x x', R x x' -> same_shape x x') ->
  same_heap s s' -> ns_after G k (nsctx s) (nsctx s') ->
  tasks_upd R l0 (tasks s) (tasks s') -> io_log s' = io_log s ->
  core G gs s -> core G gs s'.
Proof.
  intros HR Hh Hns Ht Hlog [C1 C2 C3 C4 C5]. constructor; [|done| |done|].
  - by eapply entries_ok_mono.
  - intros main l Hin. destruct (C3 main l Hin) as [vs Hg]. exists vs.
    by eapply group_mono.
  - intros main l Hin. destruct (C5 main l Hin) as [rs Hrs]. exists rs.
    rewrite Hlog. intros t Ht'. eapply Forall2_impl; [by apply Hrs|].
    intros r cmd. by eapply replica_cmd_fwd.
Qed.

Lemma cmds_of_app t a b : cmds_of t (a ++ b) = cmds_of t a ++ cmds_of t b.
Proof. unfold cmds_of. by rewrite map_app, filter_app. Qed.

(** A round adds one command to each replica it submits and none to the other
    tasks. *)
Lemma cmds_of_round s off rd l cmds t :
  NoDup l -> Forall2 (replica_cmd s off rd) l cmds ->
  if bool_decide (t ∈ l)
  then exists cmd, cmds_of t (map (fun c => (c, 0)) cmds) = [cmd] /\ replica_cmd s off rd t cmd
  else cmds_of t (map (fun c => (c, 0)) cmds) = [].
Proof.
  intros Hnd H. unfold cmds_of. rewrite map_map, map_id.
  induction H as [|t' cmd l cmds Hcmd _ IH].
  - by rewrite bool_decide_false by set_solver.
  - apply NoDup_cons in Hnd as [Hni Hnd]. specialize (IH Hnd).
    assert (cmd_task cmd = t') as Et.
    { destruct Hcmd as (x & c & e & v & vs & P). apply P. }
    rewrite filter_cons. destruct (decide (t' = t)) as [->|Hne].
    + rewrite decide_True by done. rewrite bool_decide_false in IH by done.
      rewrite bool_decide_true by set_solver. exists cmd. by rewrite IH.
    + rewrite decide_False by congruence.
      destruct (decide (t ∈ l)).
      * rewrite bool_decide_true in * by set_solver. done.
      * rewrite bool_decide_false in * by set_solver. done.
Qed.

Lemma gs_disj (gs : list (loc * list loc)) main l main' l' t :
  NoDup (concat (map snd gs)) -> (main, l) ∈ gs -> (main', l') ∈ gs ->
  t ∈ l -> t ∈ l' -> (main, l) = (main', l').
Proof.
  induction gs as [|[m0 l0] gs IH]; cbn; [set_solver|].
  intros Hnd H1 H2 Ht Ht'. apply NoDup_app in Hnd as (N1 & N2 & N3).
  assert (HA : forall m1 l1, (m1, l1) ∈ gs -> t ∈ l1 -> t ∈ concat (map snd gs)).
  { intros m1 l1 Hin Hl. apply list_elem_of_In, in_concat. exists l1.
    split; [|by apply list_elem_of_In]. apply in_map_iff. exists (m1, l1).
    split; [done|by apply list_elem_of_In]. }
  apply elem_of_cons in H1 as [?|H1], H2 as [?|H2]; simplify_eq; auto.
  - exfalso. eapply N2; eauto.
  - exfalso. eapply N2; eauto.
Qed.

Lemma group_nodup s main l vs : group s main l vs -> NoDup l.
Proof. intros [(z & _ & _ & Hd) _ _]. exact Hd. Qed.

(** A round of group [(main, l)] keeps the core invariant: its replicas' logs
    grow by the same offset and direction. *)
Lemma core_round G k gs s s' main l vs off rd cmds :
  core G gs s -> (main, l) ∈ gs -> group s main l vs ->
  same_heap s s' -> ns_after G k (nsctx s) (nsctx s') ->
  tasks_upd (round_of off rd) l (tasks s) (tasks s') ->
  io_log s' = io_log s ++ map (fun c => (c, 0)) cmds ->
  Forall2 (replica_cmd s off rd) l cmds ->
  core G gs s'.
Proof.
  intros [C1 C2 C3 C4 C5] Hin Hg Hh Hns Ht Hlog Hcmds.
  pose proof (round_of_shape off rd) as HR.
  constructor; [by eapply entries_ok_mono|done| |done|].
  { intros m' l' Hin'. destruct (C3 _ _ Hin') as [vs' Hg']. exists vs'.
    by eapply group_mono. }
  intros m' l' Hin'. destruct (C5 _ _ Hin') as [rs Hrs].
  pose proof (group_nodup _ _ _ _ Hg) as Hnd.
  assert (Hfwd : forall t off' rd' cmd, replica_cmd s off' rd' t cmd ->
            replica_cmd s' off' rd' t cmd).
  { intros. by eapply replica_cmd_fwd. }
  destruct (decide ((m', l') = (main, l))) as [[= -> ->]|Hne].
  - exists (rs ++ [(off, rd)]). intros t Htl. rewrite Hlog, cmds_of_app.
    apply Forall2_app; [eapply Forall2_impl; [by apply Hrs|]; cbn; auto|].
    pose proof (cmds_of_round s off rd l cmds t Hnd Hcmds) as H.
    rewrite bool_decide_true in H by done. destruct H as (cmd & -> & Hc).
    constructor; [cbn; auto|constructor].
  - exists rs. intros t Htl. rewrite Hlog, cmds_of_app.
    pose proof (cmds_of_round s off rd l cmds t Hnd Hcmds) as H.
    rewrite bool_decide_false in H.
    + rewrite H, app_nil_r. eapply Forall2_impl; [by apply Hrs|]; cbn; auto.
    + intros Htl'. apply Hne. by eapply gs_disj.
Qed.

(** ** The completion loop *)

Lemma next_round_loop_ok F fuel s h l1 l main id :
  tq_rep (tqs s) h (l1 ++ l) -> (length l <= fuel)%nat ->
  (forall t, t ∈ l -> exists x c, tasks s !! t = Some x
      /\ nsctx s !! t_ns_ctx x = Some c /\ is_draining c = false) ->
  exists m, next_round_loop F fuel (hd_or l None) main id s
      = Ok (false, set_tasks (fun _ => m) s)
    /\ tasks_upd (fun x x' => x' = with_io_id id x) l (tasks s) m.
Proof.
  revert fuel s l1. induction l as [|t l IH]; intros fuel s l1 Hrep Hf Hl.
  { exists (tasks s). destruct s, fuel; (split; [done|apply tasks_upd_nil]). }
  destruct fuel as [|fuel]; [cbn in Hf; lia|].
  destruct (Hl t) as (x & c & Hx & Hc & Hd); [set_solver|].
  cbn [hd_or next_round_loop]. mrun. mrun. rewrite Hd. mrun.
  set (s1 := set_tasks _ s).
  assert (Hrep1 : tq_rep (tqs s1) h (l1 ++ t :: l)) by done.
  erewrite M_bind_ok by (eapply tq_next_ok; exact Hrep1). cbn beta.
  assert (Htl : t ∉ l).
  { destruct Hrep as (z & _ & _ & Hnd). apply NoDup_app in Hnd as (_ & _ & Hnd).
    by apply NoDup_cons in Hnd as [? _]. }
  destruct (IH fuel s1 (l1 ++ [t])) as (m & -> & Hm).
  - by rewrite <- app_assoc.
  - cbn in Hf. lia.
  - intros t' Ht'. destruct (Hl t') as (x' & c' & Hx' & ?); [set_solver|].
    exists x', c'. cbn. rewrite lookup_insert_ne by set_solver. done.
  - exists m. split; [done|].
    eapply tasks_upd_cons; [done| |exact Hm]. by apply tasks_upd_insert with (x := x).
Qed.

(** ** Counting *)

Definition ns_depths (a : loc -> Z) (s : st) : Prop :=
  forall n c, nsctx s !! n = Some c ->
    is_draining c = false /\ current_queue_depth c = u64 (a n).

Lemma ns_depths_step G a k s s' :
  g_number_ios G = 0 -> ns_depths a s -> ns_after G k (nsctx s) (nsctx s') ->
  ns_depths (fun n => a n + k n) s'.
Proof.
  intros HG Ha H n c' Hc'. specialize (H n). specialize (Ha n).
  destruct (nsctx s !! n) as [c|]; [|congruence].
  destruct H as (c1 & H1 & _ & _ & H2 & H3 & H4). rewrite Hc' in H1. injection H1 as <-.
  destruct (Ha c eq_refl) as [Hd Hq]. rewrite H4 by done. split; [done|].
  rewrite <- (wrap_small 64 (current_queue_depth c')).
  - rewrite H2, Hq. apply wrap_add_l.
  - apply H3. rewrite Hq. apply wrap_range. lia.
Qed.

Lemma ns_depths_ext a b s :
  (forall n, u64 (a n) = u64 (b n)) -> ns_depths a s -> ns_depths b s.
Proof. intros H Ha n c Hc. rewrite <- H. by apply Ha. Qed.

Lemma outstanding_cons l t P :
  outstanding l (t :: P) = if bool_decide (t ∈ l) then t :: outstanding l P else outstanding l P.
Proof.
  unfold outstanding. rewrite filter_cons. by case_decide; case_bool_decide.
Qed.

Lemma outstanding_app l P Q : outstanding l (P ++ Q) = outstanding l P ++ outstanding l Q.
Proof. apply filter_app. Qed.

Lemma outstanding_self l : outstanding l l = l.
Proof.
  assert (H : forall l', l' ⊆ l -> outstanding l l' = l'); [|by apply H].
  induction l' as [|t l' IH]; [done|]. intros Hs. rewrite outstanding_cons.
  rewrite bool_decide_true by set_solver. by rewrite IH by set_solver.
Qed.

Lemma outstanding_nil l P : outstanding l P = [] <-> (forall t, t ∈ P -> t ∉ l).
Proof.
  unfold outstanding. split.
  - intros H t Ht Hl. assert (t ∈ filter (fun t => t ∈ l) P) as Hin.
    { by apply list_elem_of_filter. }
    rewrite H in Hin. set_solver.
  - intros H. destruct (filter _ P) as [|t l'] eqn:E; [done|].
    assert (t ∈ filter (fun t => t ∈ l) P) as Hin by (rewrite E; set_solver).
    apply list_elem_of_filter in Hin as [Hl Hp]. by destruct (H t).
Qed.

Lemma outstanding_length l P : NoDup P -> (length (outstanding l P) <= length l)%nat.
Proof.
  intros Hnd. apply submseteq_length, NoDup_submseteq; [by apply NoDup_filter|].
  intros t Ht. by apply list_elem_of_filter in Ht as [? _].
Qed.

Lemma cnt_ns_app m l1 l2 n : cnt_ns m (l1 ++ l2) n = cnt_ns m l1 n + cnt_ns m l2 n.
Proof. unfold cnt_ns. rewrite filter_app, length_app. lia. Qed.

(** ** One completion *)

Definition completed_of (n : Z) (x x' : perf_task) : Prop := x' = with_completed n x.

Lemma completed_of_shape n x x' : completed_of n x x' -> same_shape x x'.
Proof. by intros ->. Qed.

Lemma io_id_shape id x x' : x' = with_io_id id x -> same_shape x x'.
Proof. by intros ->. Qed.

#[export] Hint Resolve completed_of_shape io_id_shape : spdk.

(** What group_done does after the command has left its namespace and was
    counted in the main task. *)
Definition after_count (G : config) (F : nat) (main : loc) : M st (option loc) :=
  m ← load_task main;
  if rep_completed_num m <? g_rep_num G then mret None
  else
    _ ← upd_task main (with_completed 0);
    cur ← tq_first (HRep main);
    released ← next_round_loop F F cur main (next_io_id G (io_id m));
    mret (if (released : bool) then None else Some main).

Lemma group_done_count E G F s t x m c :
  tasks s !! t = Some x -> tasks s !! main_task x = Some m ->
  nsctx s !! t_ns_ctx x = Some c ->
  exists s1, group_done E G F t s = after_count G F (main_task x) s1
    /\ same_heap s s1 /\ io_log s1 = io_log s
    /\ tasks s1 = <[main_task x := with_completed (u32 (rep_completed_num m + 1)) m]> (tasks s)
    /\ ns_after G (fun j => if bool_decide (j = t_ns_ctx x) then -1 else 0)
         (nsctx s) (nsctx s1).
Proof.
  intros Hx Hm Hc. unfold group_done. mrun. mrun.
  set (s0 := St _ _ _ _ _ _ _ _ _ _ _ _).
  assert (Hc0 : nsctx s0 !! t_ns_ctx x = Some c) by done. mrun.
  set (s1 := set_nsctx _ s0).
  assert (Hm1 : tasks s1 !! main_task x = Some m) by done. mrun.
  eexists. split; [reflexivity|]. split; [by constructor|]. do 2 (split; [done|]).
  cbn. apply ns_after_insert with (c := c); auto.
Qed.

(** The error path of io_complete changes only the status of the namespace. *)
Lemma io_status_quiet G s t r x c :
  tasks s !! t = Some x -> nsctx s !! t_ns_ctx x = Some c ->
  r <> CplInvalidNs \/ g_continue_on_error G = true ->
  exists s1, io_status G t r s = Ok (tt, s1) /\ quiet G s s1.
Proof.
  intros Hx Hc Hr. unfold io_status.
  assert (Hst : quiet G s (set_nsctx <[t_ns_ctx x := with_status 1 c]> s)).
  { split; [by constructor|]. do 2 (split; [done|]). cbn.
    eapply ns_after_ext; [|apply ns_after_insert with (d := 0) (c := c)]; auto.
    intros j. cbn. by destruct (bool_decide _). }
  destruct r.
  - exists s. split; [done|apply quiet_refl].
  - mrun. destruct (g_continue_on_error G).
    + exists s. split; [done|apply quiet_refl].
    + eexists. split; [|exact Hst]. by rewrite (M_bind_ok _ _ _ _ _ eq_refl), (upd_ns_ok _ _ _ _ Hc).
  - mrun. destruct Hr as [?|Eg]; [done|]. rewrite Eg. exists s. split; [done|apply quiet_refl].
Qed.

Lemma core_quiet G gs s s' : quiet G s s' -> core G gs s -> core G gs s'.
Proof.
  intros (Hh & Ht & Hlog & Hns). apply (core_mono G (fun _ => 0) same_shape []); auto.
  rewrite Ht. apply tasks_upd_nil.
Qed.

Lemma counters_quiet G gs P s s' :
  g_number_ios G = 0 -> quiet G s s' -> counters gs P s -> counters gs P s'.
Proof.
  intros HG (Hh & Ht & Hlog & Hns) [D1 D2 D3 D4]. constructor; [done|done|by rewrite Ht|].
  rewrite Ht. eapply ns_depths_ext; [|by eapply ns_depths_step]. intros n. cbn. f_equal. lia.
Qed.

(** [running]: the options of a run that is not limited by a number of I/Os. *)
Record running (G : config) : Prop := {
  ru_ios : g_number_ios G = 0;
  ru_rep : 0 < g_rep_num G < 2 ^ 32 }.

Lemma core_main G gs s main l t x :
  core G gs s -> (main, l) ∈ gs -> t ∈ l -> tasks s !! t = Some x ->
  main_task x = main.
Proof.
  intros C Hin Ht Hx. destruct (co_groups _ _ _ C _ _ Hin) as [vs Hg].
  destruct (gr_tasks _ _ _ _ Hg t Ht) as (x' & Hx' & Hm & _). by simplify_eq.
Qed.

Lemma core_tasks G gs R l f s :
  (forall x x', R x x' -> same_shape x x') ->
  tasks_upd R l (tasks s) (f (tasks s)) -> core G gs s -> core G gs (set_tasks f s).
Proof.
  intros HR Hup. apply (core_mono G (fun _ => 0) R l); try done.
  apply ns_after_refl.
Qed.

(** The counters of the groups other than [main]. *)
Definition others_done (gs : list (loc * list loc)) (main : loc) (P : list loc) (s : st) :=
  forall main' l' x', (main', l') ∈ gs -> main' <> main -> tasks s !! main' = Some x' ->
    outstanding l' P <> [] /\
    rep_completed_num x' = Z.of_nat (length l') - Z.of_nat (length (outstanding l' P)).

Lemma other_group G gs s main l main' l' t :
  core G gs s -> (main, l) ∈ gs -> (main', l') ∈ gs -> main' <> main ->
  t ∈ l -> t ∉ l'.
Proof.
  intros C H1 H2 Hne Ht Ht'.
  pose proof (gs_disj _ _ _ _ _ _ (co_disj _ _ _ C) H1 H2 Ht Ht'). congruence.
Qed.

Lemma group_unique G gs s main l l' :
  core G gs s -> (main, l) ∈ gs -> (main, l') ∈ gs -> l' = l.
Proof.
  intros C Hin Hin'. destruct (co_groups _ _ _ C _ _ Hin) as [vs Hg].
  destruct (co_groups _ _ _ C _ _ Hin') as [vs' Hg'].
  pose proof (gs_disj _ _ _ _ _ main (co_disj _ _ _ C) Hin' Hin
    (gr_main _ _ _ _ Hg') (gr_main _ _ _ _ Hg)). congruence.
Qed.

(** A main task is in no other group. *)
Lemma main_not_in G gs s main l main' l' :
  core G gs s -> (main, l) ∈ gs -> (main', l') ∈ gs -> main' <> main -> main' ∉ l.
Proof.
  intros C H1 H2 Hne Hl. destruct (co_groups _ _ _ C _ _ H2) as [vs Hg].
  exact (other_group _ _ _ _ _ _ _ _ C H1 H2 Hne Hl (gr_main _ _ _ _ Hg)).
Qed.

(** *** The parts of a completion

    [A]: the groups with outstanding replicas, among all groups [gs]. *)
Section Completion.
Context (E : env) (G : config) (F : nat) (gs A : list (loc * list loc)) (HG : running G).
Context (HA : A ⊆ gs).

Definition complete (t : loc) (r : cpl) : M st (option loc) :=
  _ ← io_status G t r; group_done E G F t.

(** The state after the completion of [t] has been counted: the group's counter
    is exact and, when the group is complete, possibly the full count. *)
Lemma complete_count P s main l t r :
  core G gs s -> counters A (t :: P) s -> (main, l) ∈ A -> t ∈ l ->
  r <> CplInvalidNs \/ g_continue_on_error G = true ->
  exists s1 m1, complete t r s = after_count G F main s1
    /\ core G gs s1 /\ io_log s1 = io_log s /\ tasks s1 !! main = Some m1
    /\ rep_completed_num m1
         = Z.of_nat (length l) - Z.of_nat (length (outstanding l P))
    /\ ns_depths (cnt_ns (tasks s1) P) s1 /\ others_done A main P s1
    /\ same_heap s s1 /\ forall t', t' <> main -> tasks s1 !! t' = tasks s !! t'.
Proof.
  intros C D Hin Ht Hr. destruct HG as [HGn HR]. pose proof (HA _ Hin) as Hgs.
  destruct (co_groups _ _ _ C _ _ Hgs) as [vs Hg].
  destruct (gr_tasks _ _ _ _ Hg t Ht) as (x & Hx & Hmain & [(c & e & Hc & _) _ _]).
  destruct (gr_tasks _ _ _ _ Hg main (gr_main _ _ _ _ Hg)) as (m & Hm & _).
  destruct (io_status_quiet G s t r x c Hx Hc Hr) as (s0 & Hs0 & Hq).
  unfold complete. rewrite (M_bind_ok _ _ _ _ _ Hs0).
  apply (core_quiet _ _ _ _ Hq) in C. apply (counters_quiet _ _ _ _ _ HGn Hq) in D.
  destruct Hq as (Hh0 & Et & El & Hns). rewrite <- Et in Hx, Hm.
  specialize (Hns (t_ns_ctx x)). rewrite Hc in Hns. destruct Hns as (c0 & Hc0 & _).
  subst main.
  destruct (group_done_count E G F s0 t x m c0 Hx Hm Hc0)
    as (s1 & Hs1 & Hh1 & Hl1 & Ht1 & Hns1).
  destruct D as [D1 D2 D3 D4].
  assert (Hup : tasks_upd same_shape [main_task x] (tasks s0) (tasks s1)).
  { rewrite Ht1. by apply tasks_upd_insert with (x := m). }
  eexists s1, _. split; [exact Hs1|].
  split; [|split; [|split; [|split; [|split; [|split; [|split]]]]]].
  - by eapply core_mono.
  - congruence.
  - rewrite Ht1. apply lookup_insert_eq.
  - cbn. destruct (D3 _ _ _ Hin Hm) as [_ ->]. rewrite outstanding_cons.
    rewrite bool_decide_true by done.
    pose proof (outstanding_length l (t :: P) D1) as HL.
    rewrite outstanding_cons, bool_decide_true in HL by done. cbn [length] in *.
    rewrite <- (co_rep _ _ _ C _ _ Hgs) in HR. rewrite wrap_small; lia.
  - eapply ns_depths_ext; [|eapply (ns_depths_step _ _ _ _ _ HGn); [exact D4|exact Hns1]].
    intros n. cbn. rewrite (cnt_ns_cons _ _ _ _ _ Hx).
    rewrite (cnt_ns_ext (tasks s0) (tasks s1)).
    + f_equal. case_bool_decide; lia.
    + intros t' _. by eapply tasks_upd_ns.
  - intros main' l' x' Hin' Hne Hx'. rewrite Ht1, lookup_insert_ne in Hx' by done.
    pose proof (D3 _ _ _ Hin' Hx') as HD. rewrite outstanding_cons in HD.
    rewrite bool_decide_false in HD; [done|].
    exact (other_group _ _ _ _ _ _ _ _ C Hgs (HA _ Hin') Hne Ht).
  - by eapply same_heap_trans.
  - intros t' Hne. by rewrite Ht1, lookup_insert_ne, Et.
Qed.

(** The completion of a replica that is not the last outstanding one of its
    group only counts. *)
Lemma complete_wait P s main l t r :
  core G gs s -> counters A (t :: P) s -> (main, l) ∈ A -> t ∈ l ->
  r <> CplInvalidNs \/ g_continue_on_error G = true -> outstanding l P <> [] ->
  exists s', complete t r s = Ok (None, s') /\ core G gs s' /\ counters A P s'
    /\ io_log s' = io_log s /\ same_heap s s'
    /\ forall t', t' ∉ l -> tasks s' !! t' = tasks s !! t'.
Proof.
  intros C0 D Hin Ht Hr Ho.
  destruct (complete_count P s main l t r C0 D Hin Ht Hr)
    as (s1 & m1 & -> & C & Hl & Hm1 & Hrep & Hns & Hoth & Hh1 & Hk).
  destruct (co_groups _ _ _ C _ _ (HA _ Hin)) as [vs Hg].
  exists s1. split; [|split; [done|split; [|split; [done|split; [done|]]]]].
  - unfold after_count. mrun. rewrite (proj2 (Z.ltb_lt _ _)); [done|].
    rewrite Hrep, <- (co_rep _ _ _ C _ _ (HA _ Hin)).
    destruct (outstanding l P); [done|]. cbn [length]. lia.
  - destruct D as [D1 D2 D3 D4]. constructor.
    + by apply NoDup_cons in D1 as [_ ?].
    + intros t' Ht'. apply D2. set_solver.
    + intros main' l' x' Hin' Hx'. destruct (decide (main' = main)) as [->|]; [|eauto].
      simplify_eq. by assert (l' = l) as -> by (eapply group_unique; [done|apply HA|apply HA]; done).
    + exact Hns.
  - intros t' Ht'. apply Hk. intros ->. apply Ht', Hg.
Qed.

(** After the completion of the last outstanding replica the group is ready for
    its next round. *)
Lemma complete_last P s main l t r :
  core G gs s -> counters A (t :: P) s -> (main, l) ∈ A -> t ∈ l ->
  (length l <= F)%nat -> r <> CplInvalidNs \/ g_continue_on_error G = true ->
  outstanding l P = [] ->
  exists s' m, complete t r s = Ok (Some main, s') /\ core G gs s'
    /\ tasks s' !! main = Some m /\ rep_completed_num m = 0
    /\ ns_depths (cnt_ns (tasks s') P) s' /\ others_done A main P s'
    /\ io_log s' = io_log s /\ same_heap s s'
    /\ forall t', t' ∉ l -> tasks s' !! t' = tasks s !! t'.
Proof.
  intros C0 D Hin Ht HF Hr Ho. pose proof (HA _ Hin) as Hgs.
  destruct (complete_count P s main l t r C0 D Hin Ht Hr)
    as (s1 & m1 & -> & C & Hl & Hm1 & Hrep & Hns & Hoth & Hh1 & Hk).
  rewrite Ho, Z.sub_0_r in Hrep. unfold after_count. mrun.
  rewrite Hrep, (co_rep _ _ _ C _ _ Hgs), Z.ltb_irrefl. mrun.
  set (s2 := set_tasks _ s1). destruct (co_groups _ _ _ C _ _ Hgs) as [vs Hg].
  assert (Hq2 : tq_rep (tqs s2) (HRep main) l) by apply Hg.
  erewrite M_bind_ok by (apply tq_first_ok; exact Hq2). cbn beta.
  assert (Hup2 : tasks_upd same_shape [main] (tasks s1) (tasks s2)).
  { by apply tasks_upd_insert with (x := m1). }
  assert (C2 : core G gs s2).
  { by apply (core_tasks G gs same_shape [main]). }
  destruct (next_round_loop_ok F F s2 (HRep main) [] l main (next_io_id G (io_id m1)) Hq2 HF)
    as (tk & Hnr & Hup3).
  { intros t' Ht'. destruct (co_groups _ _ _ C2 _ _ Hgs) as [vs2 Hg2].
    destruct (gr_tasks _ _ _ _ Hg2 t' Ht') as (y & Hy & _ & [(c & e & Hc & _) _ _]).
    exists y, c. split; [done|]. split; [done|]. by destruct (Hns _ _ Hc). }
  erewrite M_bind_ok by exact Hnr. cbn beta. set (s3 := set_tasks _ s2).
  assert (Hout : forall t', t' ∉ l -> tk !! t' = tasks s1 !! t').
  { intros t' Hl'. specialize (Hup3 t'). rewrite bool_decide_false in Hup3 by done.
    rewrite Hup3. cbn. rewrite lookup_insert_ne; [done|]. intros ->. apply Hl', Hg. }
  pose proof (Hup3 main) as Hm3. rewrite bool_decide_true in Hm3 by apply Hg.
  destruct Hm3 as (y & m3 & Hy & Hm3 & ->).
  cbn in Hy. rewrite lookup_insert_eq in Hy. injection Hy as <-.
  exists s3. eexists. split; [reflexivity|].
  split; [by eapply core_tasks; [apply io_id_shape|..]|]. split; [exact Hm3|]. split; [done|].
  split; [|split; [|split; [done|split]]].
  - eapply ns_depths_ext; [|exact Hns]. intros n. cbn. f_equal. apply cnt_ns_ext. intros t' _.
    rewrite (tasks_upd_ns _ _ _ _ _ (io_id_shape _) Hup3). symmetry. by eapply tasks_upd_ns.
  - intros main' l' x' Hin' Hne. cbn. rewrite Hout; [by apply Hoth|].
    exact (main_not_in _ _ _ _ _ _ _ C Hgs (HA _ Hin') Hne).
  - eapply same_heap_trans; [exact Hh1|]. by constructor.
  - intros t' Hl'. cbn. rewrite Hout by done. apply Hk. intros ->. apply Hl', Hg.
Qed.

(** A round of a group none of whose replicas is outstanding. *)
Lemma round_inv P s main l m :
  env_ok E -> core G gs s -> (main, l) ∈ A -> (length l <= F)%nat ->
  NoDup P -> (forall t, t ∈ P -> exists main l, (main, l) ∈ A /\ t ∈ l) ->
  tasks s !! main = Some m -> rep_completed_num m = 0 -> outstanding l P = [] ->
  ns_depths (cnt_ns (tasks s) P) s -> others_done A main P s ->
  exists s' cmds off rd, submit_single_io_rep E G F main s = Ok (tt, s')
    /\ core G gs s' /\ counters A (l ++ P) s'
    /\ io_log s' = io_log s ++ map (fun c => (c, 0)) cmds
    /\ Forall2 (replica_cmd s off rd) l cmds
    /\ same_heap s s' /\ tasks_upd (round_of off rd) l (tasks s) (tasks s')
    /\ ns_after G (cnt_ns (tasks s) l) (nsctx s) (nsctx s').
Proof.
  intros HE C Hin HF D1 D2 Hm Hrep Ho Hns Hoth. destruct HG as [HGn HR].
  pose proof (HA _ Hin) as Hgs. destruct (co_groups _ _ _ C _ _ Hgs) as [vs Hg].
  destruct (gr_tasks _ _ _ _ Hg main (gr_main _ _ _ _ Hg))
    as (m' & Hm' & _ & [(c & e & Hc & _) _ _]). simplify_eq.
  destruct (Hns _ _ Hc) as [Hd _].
  destruct (submit_single_io_rep_ok E G F s main l vs m c HE (co_entries _ _ _ C) Hg HF Hm Hc Hd)
    as (off & rd & s' & cmds & Hs & Hh & Ht & Hns' & Hlog & Hcmds & _).
  exists s', cmds, off, rd. split; [exact Hs|]. split; [by eapply core_round|].
  split; [|done]. constructor.
  - apply NoDup_app. split; [by eapply group_nodup|]. split; [|done].
    intros t Hl Hp. by apply (proj1 (outstanding_nil l P) Ho t).
  - intros t [Hl|Hp]%elem_of_app; [eauto|eauto].
  - intros main' l' x' Hin' Hx'. rewrite outstanding_app.
    destruct (decide (main' = main)) as [->|Hne].
    + assert (l' = l) as -> by (eapply group_unique; [done|apply HA|apply HA]; done).
      rewrite outstanding_self, Ho, app_nil_r. split.
      * intros ->. pose proof (gr_main _ _ _ _ Hg). set_solver.
      * specialize (Ht main). rewrite bool_decide_true in Ht by apply Hg.
        destruct Ht as (y & y' & Hy & Hy' & [tsc ->]). simplify_eq. cbn. lia.
    + assert (outstanding l' l = []) as ->.
      { apply outstanding_nil. intros t Hl.
        exact (other_group _ _ _ _ _ _ _ _ C Hgs (HA _ Hin') Hne Hl). }
      apply (Hoth main' l' x' Hin' Hne). specialize (Ht main').
      rewrite bool_decide_false in Ht; [by rewrite <- Ht|].
      exact (main_not_in _ _ _ _ _ _ _ C Hgs (HA _ Hin') Hne).
  - eapply ns_depths_ext; [|by eapply (ns_depths_step _ _ _ _ _ HGn)].
    intros n. cbn. rewrite (cnt_ns_ext (tasks s) (tasks s')), cnt_ns_app by
      (intros t' _; eapply tasks_upd_ns; [|exact Ht]; apply round_of_shape).
    f_equal. lia.
Qed.
End Completion.

Lemma io_complete_parts E G F t r s :
  io_complete E G F t r s = mbind (fun x : option loc =>
    match x with Some main => submit_single_io_rep E G F main | None => mret tt end)
    (complete E G F t r) s.
Proof. unfold complete. by rewrite M_bind_assoc. Qed.

(** The completion of a replica that is not the last outstanding one of its
    group submits nothing. *)
Lemma io_complete_wait E G F gs P s main l t r :
  running G -> inv G gs (t :: P) s -> (main, l) ∈ gs -> t ∈ l ->
  r <> CplInvalidNs \/ g_continue_on_error G = true ->
  outstanding l P <> [] ->
  exists s', io_complete E G F t r s = Ok (tt, s') /\ inv G gs P s'
    /\ io_log s' = io_log s /\ same_heap s s'.
Proof.
  intros HG [C D] Hin Ht Hr Ho.
  destruct (complete_wait E G F gs gs HG (reflexivity gs) P s main l t r C D Hin Ht Hr Ho)
    as (s' & Hs & C' & D' & Hl & Hh & _).
  exists s'. rewrite io_complete_parts, (M_bind_ok _ _ _ _ _ Hs). by split_and!.
Qed.

(** The completion of the last outstanding replica of a group starts the next
    round: one command for every replica. *)
Lemma io_complete_last E G F gs P s main l t r :
  running G -> env_ok E -> inv G gs (t :: P) s -> (main, l) ∈ gs -> t ∈ l ->
  (length l <= F)%nat -> r <> CplInvalidNs \/ g_continue_on_error G = true ->
  outstanding l P = [] ->
  exists s' s0 cmds off rd, io_complete E G F t r s = Ok (tt, s')
    /\ inv G gs (l ++ P) s' /\ io_log s' = io_log s ++ map (fun c => (c, 0)) cmds
    /\ Forall2 (replica_cmd s0 off rd) l cmds /\ same_heap s s'.
Proof.
  intros HG HE [C D] Hin Ht HF Hr Ho.
  destruct (complete_last E G F gs gs HG (reflexivity gs) P s main l t r C D Hin Ht HF Hr Ho)
    as (s1 & m & Hs & C1 & Hm & Hrep & Hns & Hoth & Hl & Hh & _).
  rewrite io_complete_parts, (M_bind_ok _ _ _ _ _ Hs). destruct D as [D1 D2 _ _].
  destruct (round_inv E G F gs gs HG (reflexivity gs) P s1 main l m)
    as (s' & cmds & off & rd & Hs' & C' & D' & Hlog & Hcm & Hh' & _); try done.
  - by apply NoDup_cons in D1 as [_ ?].
  - intros t' Ht'. apply D2. set_solver.
  - exists s', s1, cmds, off, rd. rewrite Hlog, Hl. split; [done|]. split; [done|].
    do 2 (split; [done|]). by eapply same_heap_trans.
Qed.

(** ** The abstract machine

    The contract of the completion path: a set of outstanding tasks; the
    completion of a task removes it, and when it was the last of its group, the
    whole group becomes outstanding again. *)

Definition group_of (gs : list (loc * list loc)) (t : loc) : option (list loc) :=
  (fun r => r.2.2) <$> list_find (fun g => t ∈ g.2) gs.

Definition spec_complete (gs : list (loc * list loc)) (t : loc) (P : list loc)
  : list loc :=
  match group_of gs t with
  | Some l => if bool_decide (outstanding l P = []) then l ++ P else P
  | None => P
  end.

(** None when the trace completes a task that is not outstanding. *)
Fixpoint spec_run (gs : list (loc * list loc)) (P : list loc) (tr : list (loc * cpl))
  : option (list loc) :=
  match tr with
  | [] => Some P
  | (t, _) :: tr' =>
      if bool_decide (t ∈ P)
      then spec_run gs (spec_complete gs t (filter (fun x => x <> t) P)) tr'
      else None
  end.

(** The program driven by the same trace of completions. *)
Fixpoint run_completions (E : env) (G : config) (F : nat) (tr : list (loc * cpl))
  : M st unit :=
  match tr with
  | [] => mret tt
  | (t, r) :: tr' => _ ← io_complete E G F t r; run_completions E G F tr'
  end.

#[export] Instance outstanding_perm l : Proper ((≡ₚ) ==> (≡ₚ)) (outstanding l).
Proof. intros P Q H. unfold outstanding. by rewrite H. Qed.

#[export] Instance inv_perm G gs : Proper ((≡ₚ) ==> (=) ==> impl) (inv G gs).
Proof.
  intros P Q HPQ s _ <- [C [D1 D2 D3 D4]]. split; [done|]. constructor.
  - by rewrite <- HPQ.
  - intros t. rewrite <- HPQ. auto.
  - intros main l x Hin Hx. destruct (D3 main l x Hin Hx) as [Hne ->].
    pose proof (outstanding_perm l _ _ HPQ) as Hp. split.
    + intros Hnil. apply Hne. apply Permutation_nil_r. by rewrite <- Hnil.
    + by rewrite (Permutation_length Hp).
  - intros n c Hc. destruct (D4 n c Hc) as [Hd ->]. split; [done|].
    unfold cnt_ns. by rewrite HPQ.
Qed.

Lemma remove_perm (t : loc) P :
  NoDup P -> t ∈ P -> P ≡ₚ t :: filter (fun x => x <> t) P.
Proof.
  induction 1 as [|a P Hni Hnd IH]; [set_solver|]. intros Ht. rewrite filter_cons.
  destruct (decide (a = t)) as [->|Hne].
  - rewrite decide_False by auto. f_equiv. assert (Hf : forall x, x ∈ P -> x <> t) by set_solver.
    clear -Hf. induction P as [|x P IH]; [done|]. rewrite filter_cons, decide_True by set_solver.
    f_equiv. apply IH. set_solver.
  - rewrite decide_True by auto. rewrite Permutation_swap. f_equiv. apply IH. set_solver.
Qed.

Lemma group_of_in gs t main l :
  NoDup (concat (map snd gs)) -> (main, l) ∈ gs -> t ∈ l -> group_of gs t = Some l.
Proof.
  intros Hnd Hin Ht. unfold group_of.
  destruct (list_find_elem_of (fun g => t ∈ g.2) gs (main, l) Hin Ht) as [[i [m' l']] Hf].
  rewrite Hf. cbn. f_equal. apply list_find_Some in Hf as (Hi & Ht' & _).
  apply list_elem_of_lookup_2 in Hi.
  pose proof (gs_disj _ _ _ _ _ _ Hnd Hi Hin Ht' Ht). congruence.
Qed.

(** One step of the simulation. *)
Lemma io_complete_simulates E G F gs P s t r :
  running G -> env_ok E -> g_rep_num G <= Z.of_nat F -> inv G gs P s -> t ∈ P ->
  r <> CplInvalidNs \/ g_continue_on_error G = true ->
  exists s', io_complete E G F t r s = Ok (tt, s')
    /\ inv G gs (spec_complete gs t (filter (fun x => x <> t) P)) s' /\ same_heap s s'.
Proof.
  intros HG HE HF HI Ht Hr.
  rewrite (remove_perm t P (ct_nodup _ _ _ (proj2 HI)) Ht) in HI.
  destruct (ct_in _ _ _ (proj2 HI) t ltac:(set_solver)) as (main & l & Hin & Hl).
  pose proof (co_disj _ _ _ (proj1 HI)) as Hnd. unfold spec_complete.
  rewrite (group_of_in gs t main l Hnd Hin Hl).
  assert ((length l <= F)%nat) as HlF.
  { pose proof (co_rep _ _ _ (proj1 HI) _ _ Hin). lia. }
  case_bool_decide as Ho.
  - destruct (io_complete_last E G F gs _ s main l t r HG HE HI Hin Hl HlF Hr Ho)
      as (s' & s0 & cmds & off & rd & -> & HI' & _ & _ & Hh). eauto.
  - destruct (io_complete_wait E G F gs _ s main l t r HG HI Hin Hl Hr Ho)
      as (s' & -> & HI' & _ & Hh). eauto.
Qed.

Lemma run_simulates E G F gs P s tr P' :
  running G -> env_ok E -> g_rep_num G <= Z.of_nat F -> inv G gs P s ->
  Forall (fun x => x.2 <> CplInvalidNs \/ g_continue_on_error G = true) tr ->
  spec_run gs P tr = Some P' ->
  exists s', run_completions E G F tr s = Ok (tt, s') /\ inv G gs P' s'
    /\ same_heap s s'.
Proof.
  intros HG HE HF. revert P s. induction tr as [|[t r] tr IH]; intros P s HI Hr Hs; cbn in *.
  - injection Hs as <-. exists s. split; [done|]. split; [done|apply same_heap_refl].
  - apply Forall_cons in Hr as [Hr Hrs]. case_bool_decide as Ht; [|discriminate].
    destruct (io_complete_simulates E G F gs P s t r HG HE HF HI Ht Hr) as (s1 & Hs1 & HI1 & Hh1).
    erewrite M_bind_ok by exact Hs1.
    destruct (IH _ s1 HI1 Hrs Hs) as (s2 & -> & HI2 & Hh2). exists s2.
    split; [done|]. split; [done|]. by eapply same_heap_trans.
Qed.
