(* ===== verification/PerfRepBuild.v ===== *)
(** * Construction of the replica groups

    nvme_setup_payload tiles the data buffer with io-unit sized elements;
    allocate_main_task, copy_task and submit_io_rep build, for each unit of the
    queue depth, one group with one replica per namespace, all replicas sharing
    the main task's buffers, and thereby establish the worker invariant of
    [PerfRepSafety]. *)

From S2P Require Import Prelude Tailq PerfRep PerfRepLemmas PerfRepSafety.

(** ** The payload *)

(** [covers G buf off vs len]: the elements [vs] cover [len] bytes of [buf] from
    [off] without gap or overlap, each of at most g_io_unit_size bytes. *)
Fixpoint covers (G : config) (buf : loc) (off : Z) (vs : list iovec) (len : Z) : Prop :=
  match vs with
  | [] => len = 0
  | v :: vs' => iov_base v = (buf, off) /\ 0 < iov_len v <= g_io_unit_size G
      /\ covers G buf (off + iov_len v) vs' (len - iov_len v)
  end.

Lemma fill_iovs_ok G cnt buf len off acc :
  0 < g_io_unit_size G -> 0 <= len -> 0 <= off -> off + len < 2 ^ 32 ->
  len <= Z.of_nat cnt * g_io_unit_size G ->
  exists vs, fill_iovs G cnt buf len off acc = Ok (acc ++ vs)
    /\ covers G buf off vs len.
Proof.
  intros Hu. revert len off acc. induction cnt as [|cnt IH]; intros len off acc Hl Ho Hs Hc;
    cbn [fill_iovs].
  - exists []. rewrite (proj2 (Z.leb_le len 0)) by lia. rewrite app_nil_r.
    split; [done|cbn; lia].
  - destruct (Z.leb_spec len 0).
    { exists []. rewrite app_nil_r. split; [done|cbn; lia]. }
    set (k := Z.min len (g_io_unit_size G)).
    rewrite !wrap_small by lia.
    destruct (IH (len - k) (off + k) (acc ++ [Iovec (buf, off) k])) as (vs & -> & Hv);
      [lia..|].
    exists (Iovec (buf, off) k :: vs). rewrite <- app_assoc. split; [done|]. cbn.
    split; [done|]. split; [lia|done].
Qed.

Lemma ceil_div a b : 0 < b -> a <= (a + b - 1) / b * b.
Proof.
  intros Hb. pose proof (Z.div_mod (a + b - 1) b ltac:(lia)).
  pose proof (Z.mod_pos_bound (a + b - 1) b Hb). lia.
Qed.

(** ** Extension of the heap by fresh objects *)

(** The state of the allocator: nothing lives at an address it has not yet
    handed out. *)
Record fresh (s : st) : Prop := {
  fr_tasks : forall p, (next_loc s <= p)%positive -> tasks s !! p = None;
  fr_iovs : forall p, (next_loc s <= p)%positive -> iov_arrays s !! p = None;
  fr_nodes : forall p, (next_loc s <= p)%positive -> nodes (tqs s) !! p = None;
  fr_log : Forall (fun c => (cmd_task c.1 < next_loc s)%positive) (io_log s) }.

(** Every object of [s] that was allocated below [b] is unchanged in [s']. *)
Record ext (b : loc) (s s' : st) : Prop := {
  ex_tasks : forall p, (p < b)%positive -> tasks s' !! p = tasks s !! p;
  ex_iovs : forall p, (p < b)%positive -> iov_arrays s' !! p = iov_arrays s !! p;
  ex_ns : nsctx s' = nsctx s;
  ex_entries : entries s' = entries s;
  ex_namespaces : g_namespaces s' = g_namespaces s;
  ex_workers : worker_ns_ctx s' = worker_ns_ctx s;
  ex_log : io_log s' = io_log s;
  ex_next : (next_loc s <= next_loc s')%positive }.

(** The queues of tasks below [b] are unchanged. *)
Definition tq_ext (b : loc) (q q' : tailqs hid) : Prop :=
  (forall p, (p < b)%positive -> heads q' !! HRep p = heads q !! HRep p)
  /\ (forall p, (p < b)%positive -> nodes q' !! p = nodes q !! p).

Lemma ext_refl b s : ext b s s.
Proof. by constructor. Qed.

Lemma ext_trans b b' s1 s2 s3 :
  (b <= b')%positive -> ext b s1 s2 -> ext b' s2 s3 -> ext b s1 s3.
Proof.
  intros Hb [] []. constructor; try congruence; try lia.
  - intros p Hp. rewrite ex_tasks1, ex_tasks0; [done|lia..].
  - intros p Hp. rewrite ex_iovs1, ex_iovs0; [done|lia..].
Qed.

Lemma ext_weaken b b' s s' : (b <= b')%positive -> ext b' s s' -> ext b s s'.
Proof. intros Hb. apply ext_trans; [done|apply ext_refl]. Qed.

Lemma tq_ext_refl b q : tq_ext b q q.
Proof. done. Qed.

Lemma tq_ext_trans b q1 q2 q3 : tq_ext b q1 q2 -> tq_ext b q2 q3 -> tq_ext b q1 q3.
Proof.
  intros [A1 A2] [B1 B2]. split; intros p Hp; [rewrite B1, A1|rewrite B2, A2]; done.
Qed.

Lemma only_touches_ext b main l q q' :
  (b <= main)%positive -> (forall t, t ∈ l -> (b <= t)%positive) ->
  only_touches (HRep main) l q q' -> tq_ext b q q'.
Proof.
  intros Hm Hl [H1 H2]. split; intros p Hp.
  - apply H1. intros [= ->]. lia.
  - apply H2. intros Hin%Hl. lia.
Qed.

(** ** The allocation of a group *)

(** Allocation never fails. *)
Definition alloc_ok (E : env) : Prop := forall n, e_alloc E n = true.

(** The options that size the payload. *)
Definition payload_bytes (G : config) : Z :=
  u32 (g_io_size_bytes G + g_max_io_md_size G * g_max_io_size_blocks G).

Record payload_ok (G : config) : Prop := {
  po_unit : 0 < g_io_unit_size G < 2 ^ 32;
  po_bytes : 0 < payload_bytes G < 2 ^ 31 }.

Definition bump_alloc (s : st) : st :=
  St (tasks s) (tqs s) (nsctx s) (entries s) (g_namespaces s) (worker_ns_ctx s)
     (iov_arrays s) (bufs s) (Pos.succ (next_loc s)) (S (n_alloc s)) (n_ticks s)
     (io_log s).

Lemma alloc_run E s : alloc_ok E -> alloc E s = Ok (Some (next_loc s), bump_alloc s).
Proof. intros HE. unfold alloc, mbind, M_bind, get, put, mret, M_ret. by rewrite HE. Qed.

Lemma fresh_bump s : fresh s -> fresh (bump_alloc s).
Proof.
  intros [H1 H2 H3 H4]. constructor; cbn.
  - intros p Hp. apply H1. lia.
  - intros p Hp. apply H2. lia.
  - intros p Hp. apply H3. lia.
  - eapply Forall_impl; [exact H4|]. cbn. lia.
Qed.

Lemma ext_bump b s : ext b s (bump_alloc s).
Proof. constructor; try done. cbn. lia. Qed.

Lemma fresh_iovs a l s :
  (a < next_loc s)%positive -> fresh s -> fresh (set_iov_arrays <[a := l]> s).
Proof.
  intros Ha [H1 H2 H3 H4]. constructor; cbn; auto. intros p Hp.
  rewrite lookup_insert_ne by lia. auto.
Qed.

Lemma ext_iovs b a l s : (b <= a)%positive -> ext b s (set_iov_arrays <[a := l]> s).
Proof.
  intros Hb. constructor; try done. cbn. intros p Hp. rewrite lookup_insert_ne by lia. done.
Qed.

Lemma fresh_task t x s :
  (t < next_loc s)%positive -> fresh s -> fresh (new_task t x s).
Proof.
  intros Ha [H1 H2 H3 H4]. constructor; cbn; auto; intros p Hp;
    rewrite lookup_insert_ne by lia; auto.
Qed.

Lemma ext_task b t x s : (b <= t)%positive -> ext b s (new_task t x s).
Proof.
  intros Hb. constructor; try done. cbn. intros p Hp. by rewrite lookup_insert_ne by lia.
Qed.

Lemma tq_ext_task b t x s : (b <= t)%positive -> tq_ext b (tqs s) (tqs (new_task t x s)).
Proof. intros Hb. split; [done|]. cbn. intros p Hp. by rewrite lookup_insert_ne by lia. Qed.

Lemma fresh_bufs f s : fresh s -> fresh (set_bufs f s).
Proof. by intros [H1 H2 H3 H4]. Qed.

Lemma ext_bufs b f s : ext b s (set_bufs f s).
Proof. by constructor. Qed.

Lemma fresh_tqs b q s :
  (b <= next_loc s)%positive -> (forall p, (next_loc s <= p)%positive -> nodes q !! p = None) ->
  fresh s -> fresh (set_tqs q s).
Proof. intros Hb Hq [H1 H2 H3 H4]. by constructor. Qed.

Lemma ext_tqs b q s : ext b s (set_tqs q s).
Proof. by constructor. Qed.

Lemma nvme_perf_allocate_iovs_ok E G s buf len :
  alloc_ok E -> 0 < g_io_unit_size G < 2 ^ 32 -> 0 < len < 2 ^ 31 ->
  exists vs cnt, nvme_perf_allocate_iovs E G buf len s
      = Ok (Some (next_loc s, cnt), set_iov_arrays <[next_loc s := vs]> (bump_alloc s))
    /\ covers G buf 0 vs len.
Proof.
  intros HE Hu Hl. unfold nvme_perf_allocate_iovs.
  rewrite (proj2 (Z.eqb_neq _ _)) by lia. set (cnt := s32 _).
  erewrite M_bind_ok by by apply alloc_run. cbn beta iota.
  assert (Hcnt : cnt = (len + g_io_unit_size G - 1) / g_io_unit_size G).
  { subst cnt. rewrite wrap_small by lia. apply s32_small.
    split; [apply Z.le_trans with 0; [lia|apply Z.div_pos; lia]|].
    apply Z.div_lt_upper_bound; nia. }
  pose proof (ceil_div len (g_io_unit_size G) ltac:(lia)).
  destruct (fill_iovs_ok G (Z.to_nat cnt) buf len 0 []) as (vs & Hf & Hv); [lia..| |].
  { rewrite Z2Nat.id; [by rewrite Hcnt|]. rewrite Hcnt. apply Z.div_pos; lia. }
  exists vs, cnt. split; [|done]. unfold mbind, M_bind at 1. by rewrite Hf.
Qed.

Lemma covers_nonempty G buf off vs len : covers G buf off vs len -> 0 < len -> vs <> [].
Proof. destruct vs; cbn; [lia|done]. Qed.

Lemma nvme_setup_payload_ok E G s :
  alloc_ok E -> payload_ok G -> fresh s ->
  exists a cnt md vs buf s', nvme_setup_payload E G s = Ok ((a, cnt, md), s')
    /\ ext (next_loc s) s s' /\ tqs s' = tqs s /\ fresh s' /\ tasks s' = tasks s
    /\ (next_loc s <= a < next_loc s')%positive
    /\ iov_arrays s' !! a = Some vs /\ covers G buf 0 vs (payload_bytes G)
    /\ buf ∈ bufs s'.
Proof.
  intros HE [Hu Hb] Hf. unfold nvme_setup_payload. fold (payload_bytes G).
  erewrite M_bind_ok by by apply alloc_run. cbn beta iota. set (s1 := bump_alloc s).
  erewrite M_bind_ok by reflexivity. set (s2 := set_bufs _ s1).
  destruct (nvme_perf_allocate_iovs_ok E G s2 (next_loc s) (payload_bytes G) HE Hu Hb)
    as (vs & cnt & Ha & Hv).
  erewrite M_bind_ok by exact Ha. cbn beta iota.
  set (a := next_loc s2). set (s3 := set_iov_arrays _ _).
  assert (Hx3 : ext (next_loc s) s s3).
  { eapply ext_trans; [reflexivity|apply ext_bump|].
    eapply ext_trans; [reflexivity|apply ext_bufs|].
    eapply ext_trans; [reflexivity|apply ext_bump|]. apply ext_iovs. cbn. lia. }
  assert (Hf3 : fresh s3).
  { apply fresh_iovs; [cbn; lia|]. by apply fresh_bump, fresh_bufs, fresh_bump. }
  assert (Ha3 : iov_arrays s3 !! a = Some vs) by apply lookup_insert_eq.
  destruct (_ =? 0).
  - eexists a, cnt, None, vs, (next_loc s), s3. split; [reflexivity|].
    do 4 (split; [done|]). split; [cbn; lia|]. do 2 (split; [done|]). cbn. set_solver.
  - erewrite M_bind_ok by by apply alloc_run. cbn beta iota.
    erewrite M_bind_ok by reflexivity. eexists a, cnt, _, vs, (next_loc s), _.
    split; [reflexivity|]. split.
    { eapply ext_trans; [reflexivity|exact Hx3|].
      eapply ext_trans; [reflexivity|apply ext_bump|apply ext_bufs]. }
    split; [done|]. split; [by apply fresh_bufs, fresh_bump|]. split; [done|].
    split; [cbn; lia|]. do 2 (split; [done|]). cbn. set_solver.
Qed.

(** The members of a group under construction. *)
Definition member (s : st) (main : loc) (vs : list iovec) (n t : loc) : Prop :=
  exists x, tasks s !! t = Some x /\ main_task x = main /\ t_ns_ctx x = n
    /\ iov_arrays s !! iovs x = Some vs /\ rep_completed_num x = 0
    /\ (iovs x < next_loc s)%positive.

Lemma member_ext b s s' main vs n t :
  (next_loc s <= b)%positive -> fresh s -> ext b s s' ->
  member s main vs n t -> member s' main vs n t.
Proof.
  intros Hb Hf Hx (x & Hx0 & Hm & Hn & Hv & Hr & Hl). exists x.
  assert ((t < next_loc s)%positive).
  { destruct (decide (t < next_loc s)%positive) as [|Hge%Pos.le_nlt]; [done|].
    rewrite (fr_tasks _ Hf t Hge) in Hx0. discriminate. }
  rewrite (ex_tasks _ _ _ Hx), (ex_iovs _ _ _ Hx) by lia.
  repeat split; try done. pose proof (ex_next _ _ _ Hx). lia.
Qed.

Lemma fresh_node_lt s h l t :
  fresh s -> tq_rep (tqs s) h l -> t ∈ l -> (t < next_loc s)%positive.
Proof.
  intros Hf Hq Ht. destruct (tq_rep_elem _ _ _ _ Hq Ht) as [x Hx].
  destruct (decide (t < next_loc s)%positive) as [|Hge%Pos.le_nlt]; [done|].
  rewrite (fr_nodes _ Hf t Hge) in Hx. discriminate.
Qed.

Lemma allocate_main_task_ok E G s n id :
  alloc_ok E -> payload_ok G -> fresh s ->
  exists vs buf s', allocate_main_task E G n id 0 s = Ok (next_loc s, s')
    /\ ext (next_loc s) s s' /\ tq_ext (next_loc s) (tqs s) (tqs s') /\ fresh s'
    /\ tq_rep (tqs s') (HRep (next_loc s)) [next_loc s]
    /\ member s' (next_loc s) vs n (next_loc s)
    /\ (next_loc s < next_loc s')%positive
    /\ covers G buf 0 vs (payload_bytes G) /\ buf ∈ bufs s'.
Proof.
  intros HE HG Hf. unfold allocate_main_task. set (t := next_loc s).
  erewrite M_bind_ok by by apply alloc_run. cbn beta iota. fold t.
  destruct (nvme_setup_payload_ok E G (bump_alloc s) HE HG (fresh_bump _ Hf))
    as (a & cnt & md & vs & buf & s1 & Hp & Hx & Hq & Hf1 & Ht1 & Ha & Hv & Hc & Hb).
  erewrite M_bind_ok by exact Hp. cbn beta iota. erewrite M_bind_ok by reflexivity.
  set (x := Task _ _ _ _ _ _ _ _ _ _ _). set (s2 := new_task t x s1).
  cbn in Ha, Hx. erewrite M_bind_ok by (apply tq_op_ok; reflexivity).
  set (s3 := set_tqs _ s2).
  assert (Hq3 : tq_rep (tqs s3) (HRep t) []) by apply TAILQ_INIT_rep.
  destruct (TAILQ_INSERT_TAIL_rep _ _ _ t Hq3 ltac:(set_solver)) as (q & Hi & Hq4 & Ho).
  { cbn. rewrite lookup_insert_eq. eauto. }
  erewrite M_bind_ok by (apply tq_op_ok; exact Hi). exists vs, buf, (set_tqs q s3).
  split; [reflexivity|].
  assert (Hlt : (t < next_loc s1)%positive) by (unfold t; lia).
  split.
  { eapply ext_trans; [reflexivity|apply ext_bump|].
    eapply ext_trans; [reflexivity|by eapply ext_weaken; [|exact Hx]; lia|].
    eapply ext_trans; [reflexivity|apply (ext_task t t x s1); lia|].
    eapply ext_trans; [reflexivity|apply ext_tqs|apply ext_tqs]. }
  split.
  { eapply tq_ext_trans; [|eapply tq_ext_trans].
    - change (tqs s) with (tqs (bump_alloc s)). rewrite <- Hq. apply (tq_ext_task t t x s1). lia.
    - instantiate (1 := tqs s3). split; [|done]. intros p Hpt. cbn.
      rewrite lookup_insert_ne; [done|]. intros [= <-]. lia.
    - eapply (only_touches_ext t t [t]); [lia| |exact Ho].
      intros ? ->%list_elem_of_singleton. lia. }
  split.
  { apply (fresh_tqs t); [cbn; lia| |].
    - intros p Hpt. cbn in Hpt. rewrite (proj2 Ho).
      + cbn. rewrite lookup_insert_ne by lia. by apply (fr_nodes _ Hf1).
      + intros ->%list_elem_of_singleton. lia.
    - apply (fresh_tqs t); [cbn; lia| |by apply fresh_task].
      intros p Hpt. cbn in *. rewrite lookup_insert_ne by lia. by apply (fr_nodes _ Hf1). }
  split; [done|]. split; [|done].
  exists x. cbn. rewrite lookup_insert_eq. split; [done|]. do 3 (split; [done|]).
  split; [done|]. lia.
Qed.

(** A group under construction in [s], begun in [s0]: the queue of [main] holds
    [l], whose members belong to the namespaces [ns]. *)
Record stage (s0 s : st) (main n0 : loc) (ns l : list loc) (vs : list iovec) : Prop := {
  sg_ext : ext (next_loc s0) s0 s;
  sg_tq : tq_ext (next_loc s0) (tqs s0) (tqs s);
  sg_fresh : fresh s;
  sg_rep : tq_rep (tqs s) (HRep main) l;
  sg_main : member s main vs n0 main;
  sg_live : is_Some (nodes (tqs s) !! main);
  sg_members : Forall2 (member s main vs) ns l;
  sg_new : forall t, t ∈ main :: l -> (next_loc s0 <= t)%positive }.

Lemma stage_lt s0 s main n0 ns l vs t :
  stage s0 s main n0 ns l vs -> t ∈ main :: l -> (t < next_loc s)%positive.
Proof.
  intros [E1 E2 E3 E4 E5 E6 E7 E8] Ht. apply elem_of_cons in Ht as [->|Ht].
  - destruct (decide (main < next_loc s)%positive) as [|Hge%Pos.le_nlt]; [done|].
    destruct E6 as [x Hx]. rewrite (fr_nodes _ E3 _ Hge) in Hx. discriminate.
  - by eapply fresh_node_lt.
Qed.

(** A queue operation on the group's queue. *)
Lemma stage_tq s0 s main n0 ns l vs q ns' l' l0 :
  stage s0 s main n0 ns l vs -> tq_rep q (HRep main) l' ->
  only_touches (HRep main) l0 (tqs s) q ->
  (forall t, t ∈ l0 ++ l' -> (next_loc s0 <= t < next_loc s)%positive) ->
  Forall2 (member s main vs) ns' l' -> is_Some (nodes q !! main) ->
  stage s0 (set_tqs q s) main n0 ns' l' vs.
Proof.
  intros [E1 E2 E3 E4 E5 E6 E7 E8] Hq Ho Hb Hm Hlive. constructor; try done.
  - eapply ext_trans; [reflexivity|exact E1|apply ext_tqs].
  - eapply tq_ext_trans; [exact E2|]. eapply only_touches_ext; [|intros t Ht|exact Ho].
    + apply E8. set_solver.
    + apply Hb. set_solver.
  - apply (fresh_tqs 1); [lia| |done]. intros p Hp. rewrite (proj2 Ho).
    + by apply (fr_nodes _ E3).
    + intros Hp'. specialize (Hb p ltac:(set_solver)). lia.
  - intros t Ht. apply elem_of_cons in Ht as [->|Ht]; [apply E8; set_solver|].
    apply Hb. set_solver.
Qed.

(** Objects allocated during the construction. *)
Lemma stage_ext s0 s s' main n0 ns l vs :
  stage s0 s main n0 ns l vs -> ext (next_loc s) s s' ->
  tq_ext (next_loc s) (tqs s) (tqs s') -> fresh s' ->
  stage s0 s' main n0 ns l vs.
Proof.
  intros Hst Hx Hq Hf.
  assert (Hml : (main < next_loc s)%positive) by (eapply stage_lt; [exact Hst|set_solver]).
  destruct Hst as [E1 E2 E3 E4 E5 E6 E7 E8].
  assert (Hb : (next_loc s0 <= next_loc s)%positive) by apply E1.
  constructor; try done.
  - eapply ext_trans; [exact Hb|exact E1|exact Hx].
  - eapply tq_ext_trans; [exact E2|]. split; intros p Hp; apply Hq; lia.
  - eapply tq_rep_agree; [| |exact E4].
    + by apply Hq.
    + intros e He. apply Hq. by eapply fresh_node_lt.
  - by apply (member_ext (next_loc s) s).
  - by rewrite (proj2 Hq).
  - eapply Forall2_impl; [exact E7|]. intros n t. by apply (member_ext (next_loc s)).
Qed.

Lemma copy_task_ok E s0 s main n0 ns l vs n id :
  alloc_ok E -> stage s0 s main n0 ns l vs ->
  exists t s', copy_task E main n id s = Ok (t, s')
    /\ stage s0 s' main n0 (ns ++ [n]) (l ++ [t]) vs /\ bufs s' = bufs s
    /\ (next_loc s <= t)%positive /\ (next_loc s <= next_loc s')%positive.
Proof.
  intros HE Hst. pose proof Hst as [E1 E2 E3 E4 E5 E6 E7 E8].
  destruct E5 as (m & Hm & Hmm & Hmn & Hmv & _ & Hml). unfold copy_task.
  erewrite M_bind_ok by by apply alloc_run. cbn beta iota. set (s1 := bump_alloc s).
  assert (Hm1 : tasks s1 !! main = Some m) by done.
  erewrite M_bind_ok by (by apply load_task_ok). cbn beta iota.
  erewrite M_bind_ok by by apply alloc_run. cbn beta iota. set (s2 := bump_alloc s1).
  erewrite M_bind_ok by reflexivity. erewrite M_bind_ok.
  2: { cbn. rewrite Hmv. reflexivity. }
  erewrite M_bind_ok by reflexivity. erewrite M_bind_ok by reflexivity.
  set (t := next_loc s). set (a := next_loc s1). set (s3 := set_iov_arrays _ s2).
  set (x := Task _ _ _ _ _ _ _ _ _ _ _). set (s4 := new_task t x s3).
  assert (Ha : a = Pos.succ (next_loc s)) by done.
  assert (St4 : stage s0 s4 main n0 ns l vs).
  { apply (stage_ext s0 s); [done| | |].
    - eapply ext_trans; [reflexivity|apply ext_bump|].
      eapply ext_trans; [reflexivity|apply ext_bump|].
      eapply ext_trans; [reflexivity|apply (ext_iovs _ a vs); lia|]. by apply ext_task.
    - by apply (tq_ext_task (next_loc s) t x s3).
    - apply fresh_task; [cbn; lia|]. apply fresh_iovs; [rewrite Ha; cbn; lia|].
      by apply fresh_bump, fresh_bump. }
  assert (Htl : t ∉ l).
  { intros Hin. pose proof (fresh_node_lt _ _ _ _ E3 E4 Hin). lia. }
  destruct (TAILQ_INSERT_TAIL_rep _ _ _ t (sg_rep _ _ _ _ _ _ _ St4) Htl) as (q & Hi & Hq & Ho).
  { cbn. rewrite lookup_insert_eq. eauto. }
  erewrite M_bind_ok by (apply tq_op_ok; exact Hi). eexists t, _. split; [reflexivity|].
  split; [|split; [done|split; [done|cbn; lia]]]. assert (Ht4 : (t < next_loc s4)%positive) by (cbn; lia).
  assert (Hs0 : (next_loc s0 <= t)%positive) by apply E1.
  eapply stage_tq; [exact St4|exact Hq|exact Ho| | |].
  - intros p Hp. destruct (decide (p = t)) as [->|Hne]; [done|].
    assert (p ∈ main :: l) by set_solver. split; [by apply E8|].
    by apply (stage_lt _ _ _ _ _ _ _ _ St4).
  - apply Forall2_app; [apply St4|]. constructor; [|constructor]. exists x. cbn.
    rewrite !lookup_insert_eq. do 5 (split; [done|]). lia.
  - destruct (decide (main ∈ l ++ [t])); [by eapply tq_rep_elem|].
    rewrite (proj2 Ho) by done. apply St4.
Qed.

Lemma make_copies_ok E s0 s main n0 ns ns' l vs id :
  alloc_ok E -> stage s0 s main n0 ns l vs ->
  exists l' s', make_copies E main ns' id s = Ok (tt, s')
    /\ stage s0 s' main n0 (ns ++ ns') (l ++ l') vs /\ bufs s' = bufs s
    /\ (forall t, t ∈ l' -> (next_loc s <= t)%positive).
Proof.
  intros HE. revert s ns l id. induction ns' as [|n ns' IH]; intros s ns l id Hst.
  - exists [], s. rewrite !app_nil_r. repeat split; try done; [apply Hst..|set_solver].
  - cbn [make_copies].
    destruct (copy_task_ok E s0 s main n0 ns l vs n id HE Hst)
      as (t & s1 & Hc & Hst1 & Hb1 & Ht & Hle).
    erewrite M_bind_ok by exact Hc.
    destruct (IH s1 _ _ (id + 1) Hst1) as (l' & s2 & -> & Hst2 & Hb2 & Hnew).
    exists (t :: l'), s2. rewrite Hb2, <- Hb1. rewrite <- !app_assoc in Hst2.
    do 3 (split; [done|]). intros t' Ht'. apply elem_of_cons in Ht' as [->|Ht']; [done|].
    specialize (Hnew t' Ht'). lia.
Qed.

(** make_group builds one replica per namespace, in the order of the
    namespaces, or with the main replica last when g_send_main_rep_finally is
    set. *)
Lemma make_group_ok E G s n ns id :
  alloc_ok E -> payload_ok G -> fresh s ->
  exists main l vs buf s', make_group E G (n :: ns) id s = Ok (main, s')
    /\ stage s s' main n (if g_send_main_rep_finally G then ns ++ [n] else n :: ns) l vs
    /\ main ∈ l /\ covers G buf 0 vs (payload_bytes G) /\ buf ∈ bufs s'.
Proof.
  intros HE HG Hf. unfold make_group. set (main := next_loc s).
  destruct (allocate_main_task_ok E G s n id HE HG Hf)
    as (vs & buf & s1 & Ha & Hx & Hq & Hf1 & Hrep & Hm & Hlt & Hc & Hb).
  erewrite M_bind_ok by exact Ha. cbn beta. fold main in Hrep, Hm, Hlt |- *.
  assert (Hst : stage s s1 main n [n] [main] vs).
  { constructor; try done.
    - eapply tq_rep_elem; [exact Hrep|set_solver].
    - by constructor.
    - intros t Ht. assert (t = main) as -> by set_solver. done. }
  destruct (g_send_main_rep_finally G).
  2: { erewrite M_bind_ok by reflexivity.
    destruct (make_copies_ok E s s1 main n [n] ns [main] vs 1 HE Hst) as (l' & s2 & Hmc & Hst2 & Hb2 & _).
    erewrite M_bind_ok by exact Hmc. erewrite M_bind_ok by reflexivity.
    exists main, (main :: l'), vs, buf, s2. rewrite Hb2. repeat split; try done; [apply Hst2..|set_solver]. }
  destruct (TAILQ_REMOVE_rep (tqs s1) (HRep main) [] main [] Hrep) as (q & Hr & Hq2 & Ho).
  erewrite M_bind_ok by (apply tq_op_ok; exact Hr).
  assert (Hst2 : stage s (set_tqs q s1) main n [] [] vs).
  { eapply stage_tq; [exact Hst|exact Hq2|exact Ho| |constructor|].
    - intros t Ht. assert (t = main) as -> by set_solver. done.
    - eapply TAILQ_REMOVE_live; [exact Hr|apply Hst]. }
  destruct (make_copies_ok E s _ main n [] ns [] vs 1 HE Hst2)
    as (l' & s3 & Hmc & Hst3 & Hb3 & Hnew).
  erewrite M_bind_ok by exact Hmc. cbn [app] in Hst3.
  assert (Hml : main ∉ l'). { intros Hin%Hnew. cbn in Hin. lia. }
  destruct (TAILQ_INSERT_TAIL_rep _ _ _ main (sg_rep _ _ _ _ _ _ _ Hst3) Hml
    (sg_live _ _ _ _ _ _ _ Hst3)) as (q' & Hi & Hq' & Ho').
  erewrite M_bind_ok by (apply tq_op_ok; exact Hi).
  eexists main, (l' ++ [main]), vs, buf, _. split; [reflexivity|].
  split; [|split; [set_solver|split; [done|cbn; by rewrite Hb3]]].
  eapply stage_tq; [exact Hst3|exact Hq'|exact Ho'| | |].
  - intros t Ht. assert (t ∈ main :: l') as Ht' by set_solver.
    split; [by apply Hst3|]. by eapply stage_lt.
  - apply Forall2_app; [apply Hst3|]. constructor; [apply Hst3|constructor].
  - eapply tq_rep_elem; [exact Hq'|set_solver].
Qed.

(** ** The worker's first rounds *)

(** The namespaces of the worker exist. *)
Definition workers_ok (s : st) : Prop :=
  forall n, n ∈ worker_ns_ctx s -> exists c e, nsctx s !! n = Some c
    /\ entries s !! c_entry c = Some e.

(** Existing groups survive the construction of a new one. *)
Lemma group_ext s s' main l vs :
  fresh s -> ext (next_loc s) s s' -> tq_ext (next_loc s) (tqs s) (tqs s') ->
  group s main l vs -> group s' main l vs.
Proof.
  intros Hf Hx Hq [H1 H2 H3].
  assert (Hlt : forall t, t ∈ l -> (t < next_loc s)%positive)
    by (intros t Ht; by eapply fresh_node_lt).
  constructor; [|done|].
  - eapply tq_rep_agree; [| |exact H1]; [apply Hq; auto|intros e He; apply Hq; auto].
  - intros t Ht. destruct (H3 t Ht) as (x & Hx0 & Hm & [Hn Hv Hne]). exists x.
    rewrite (ex_tasks _ _ _ Hx) by auto. split; [done|]. split; [done|]. constructor; [|..|done].
    + by rewrite (ex_ns _ _ _ Hx), (ex_entries _ _ _ Hx).
    + rewrite (ex_iovs _ _ _ Hx); [done|].
      destruct (decide (iovs x < next_loc s)%positive) as [|Hge%Pos.le_nlt]; [done|].
      rewrite (fr_iovs _ Hf _ Hge) in Hv. discriminate.
Qed.

Lemma replica_cmd_ext s s' off rd t cmd :
  fresh s -> ext (next_loc s) s s' -> replica_cmd s off rd t cmd -> replica_cmd s' off rd t cmd.
Proof.
  intros Hf Hx (x & c & e & v & vs & Hx0 & Hc & He & Hv & P).
  exists x, c, e, v, vs. rewrite (ex_ns _ _ _ Hx), (ex_entries _ _ _ Hx).
  rewrite (ex_tasks _ _ _ Hx), (ex_iovs _ _ _ Hx); [done|..].
  - destruct (decide (iovs x < next_loc s)%positive) as [|Hge%Pos.le_nlt]; [done|].
    rewrite (fr_iovs _ Hf _ Hge) in Hv. discriminate.
  - destruct (decide (t < next_loc s)%positive) as [|Hge%Pos.le_nlt]; [done|].
    rewrite (fr_tasks _ Hf _ Hge) in Hx0. discriminate.
Qed.

Lemma gs_old G gs s t :
  fresh s -> core G gs s -> t ∈ concat (map snd gs) -> (t < next_loc s)%positive.
Proof.
  intros Hf C Ht. apply list_elem_of_In, in_concat in Ht as (l & Hl & Ht).
  apply in_map_iff in Hl as ([main l'] & <- & Hin). apply list_elem_of_In in Hin, Ht.
  destruct (co_groups _ _ _ C _ _ Hin) as [vs Hg].
  eapply fresh_node_lt; [done|apply Hg|done].
Qed.

Lemma cmds_of_fresh s t : fresh s -> (next_loc s <= t)%positive -> cmds_of t (io_log s) = [].
Proof.
  intros Hf Ht. pose proof (fr_log _ Hf) as Hl. unfold cmds_of.
  induction Hl as [|[c z] log Hc _ IH]; cbn [map]; [done|]. cbn in Hc.
  rewrite filter_cons, decide_False by (cbn; lia). done.
Qed.

(** The core invariant of the old groups together with the new one. *)
Lemma core_add G gs s s' main n0 ns l vs :
  fresh s -> core G gs s -> workers_ok s -> stage s s' main n0 ns l vs -> main ∈ l ->
  vs <> [] -> ns ⊆ worker_ns_ctx s -> Z.of_nat (length ns) = g_rep_num G ->
  core G (gs ++ [(main, l)]) s'.
Proof.
  intros Hf C Hw [E1 E2 E3 E4 E5 E6 E7 E8] Hin Hvs Hsub Hlen.
  assert (Hnew : forall t, t ∈ l -> (next_loc s <= t)%positive) by (intros; apply E8; set_solver).
  constructor.
  - destruct (co_entries _ _ _ C) as [C1 C2 C3].
    constructor; rewrite ?(ex_namespaces _ _ _ E1), ?(ex_entries _ _ _ E1); done.
  - intros m' l' [Hi|Hi%list_elem_of_singleton]%elem_of_app; [by eapply (co_rep _ _ _ C)|].
    simplify_eq. rewrite <- Hlen. f_equal. symmetry. by eapply Forall2_length.
  - intros m' l' [Hi|Hi%list_elem_of_singleton]%elem_of_app.
    + destruct (co_groups _ _ _ C _ _ Hi) as [vs' Hg]. exists vs'. by apply (group_ext s).
    + simplify_eq. exists vs. constructor; [done|done|]. intros t Ht.
      apply list_elem_of_lookup_1 in Ht as [i Ht].
      destruct (Forall2_lookup_r _ _ _ _ _ E7 Ht) as (n & Hn & x & Hx & Hm & Hxn & Hv & _).
      exists x. split; [done|]. split; [done|]. constructor; [|done|done].
      rewrite (ex_ns _ _ _ E1), (ex_entries _ _ _ E1), Hxn. apply Hw, Hsub.
      by eapply list_elem_of_lookup_2.
  - rewrite map_app, concat_app. cbn. rewrite app_nil_r. apply NoDup_app.
    split; [apply C|]. split.
    + intros t Ht Hl%Hnew. pose proof (gs_old _ _ _ _ Hf C Ht). lia.
    + by destruct E4 as (z & _ & _ & ?).
  - intros m' l' [Hi|Hi%list_elem_of_singleton]%elem_of_app; rewrite (ex_log _ _ _ E1).
    + destruct (co_log _ _ _ C _ _ Hi) as [rs Hrs]. exists rs. intros t Ht.
      eapply Forall2_impl; [by apply Hrs|]. intros r cmd. by apply (replica_cmd_ext s).
    + simplify_eq. exists []. intros t Ht. by rewrite cmds_of_fresh by auto.
Qed.

Lemma fresh_same_heap s s' R l :
  same_heap s s' -> tasks_upd R l (tasks s) (tasks s') ->
  (forall t, t ∈ l -> (t < next_loc s)%positive) ->
  Forall (fun c => (cmd_task c.1 < next_loc s)%positive) (io_log s') ->
  fresh s -> fresh s'.
Proof.
  intros Hh Ht Hl Hlog [H1 H2 H3 H4]. destruct Hh.
  constructor; rewrite ?sh_tqs, ?sh_iovs, ?sh_next; auto.
  intros p Hp. specialize (Ht p). rewrite bool_decide_false in Ht.
  - rewrite Ht. auto.
  - intros Hin%Hl. lia.
Qed.

Lemma first_round_inv E G F gs P s s1 main n0 ns l vs :
  env_ok E -> running G -> g_rep_num G <= Z.of_nat F -> inv G gs P s -> fresh s ->
  workers_ok s -> stage s s1 main n0 ns l vs -> main ∈ l -> vs <> [] ->
  ns ⊆ worker_ns_ctx s -> Z.of_nat (length ns) = g_rep_num G ->
  exists s2, submit_single_io_rep E G F main s1 = Ok (tt, s2)
    /\ inv G (gs ++ [(main, l)]) (l ++ P) s2 /\ fresh s2 /\ workers_ok s2
    /\ worker_ns_ctx s2 = worker_ns_ctx s
    /\ (forall k, strip <$> entries s2 !! k = strip <$> entries s !! k).
Proof.
  intros HE HR HF [C [D1 D2 D3 D4]] Hf Hw Hst Hin Hvs Hsub Hlen.
  pose proof (core_add _ _ _ _ _ _ _ _ _ Hf C Hw Hst Hin Hvs Hsub Hlen) as C1.
  assert (Hold : forall t, t ∈ P -> (t < next_loc s)%positive).
  { intros t Ht. destruct (D2 t Ht) as (m' & l' & Hi & Hl').
    destruct (co_groups _ _ _ C _ _ Hi) as [vs' Hg]. by eapply fresh_node_lt; [|apply Hg|]. }
  pose proof (fun t => stage_lt _ _ _ _ _ _ _ t Hst) as Hlt.
  destruct Hst as [E1 E2 E3 E4 E5 E6 E7 E8]. destruct E5 as (m & Hm & _ & _ & _ & Hrep & _).
  edestruct (round_inv E G F (gs ++ [(main, l)]) (gs ++ [(main, l)]) HR (reflexivity _) P s1 main l m)
    as (s2 & cmds & off & rd & Hs & C2 & D2' & Hlog & Hcmds & Hh & Hup & Hns); try done.
  - set_solver.
  - pose proof (co_rep _ _ _ C1 main l ltac:(set_solver)). lia.
  - intros t Ht. destruct (D2 t Ht) as (m' & l' & ? & ?). exists m', l'. set_solver.
  - apply outstanding_nil. intros t Ht%Hold Hl.
    pose proof (E8 t ltac:(set_solver)). lia.
  - intros n c. rewrite (ex_ns _ _ _ E1). intros Hc. destruct (D4 n c Hc) as [Hd ->].
    split; [done|]. f_equal. symmetry. apply cnt_ns_ext. intros t Ht.
    by rewrite (ex_tasks _ _ _ E1) by auto.
  - intros m' l' x' [Hi|Hi%list_elem_of_singleton]%elem_of_app Hne Hx'; [|congruence].
    apply (D3 m' l' x' Hi). rewrite <- (ex_tasks _ _ _ E1); [done|].
    destruct (co_groups _ _ _ C _ _ Hi) as [vs' Hg].
    eapply fresh_node_lt; [done|apply Hg|apply Hg].
  - exists s2. split; [done|]. split; [done|]. split; [|split].
    + eapply fresh_same_heap; [exact Hh|exact Hup| | |exact E3].
      * intros t Ht. apply Hlt. set_solver.
      * rewrite Hlog. apply Forall_app. split; [apply E3|]. apply Forall_map. cbn.
        apply Forall_forall. intros cmd Hc. apply list_elem_of_lookup_1 in Hc as [i Hc].
        destruct (Forall2_lookup_r _ _ _ _ _ Hcmds Hc) as (t & Ht & x & c & e & v & vs' & Q).
        destruct Q as (_ & _ & _ & _ & -> & _). apply Hlt.
        apply list_elem_of_lookup_2 in Ht. set_solver.
    + intros n. rewrite (sh_workers _ _ Hh), (ex_workers _ _ _ E1). intros Hn.
      destruct (Hw n Hn) as (c & e & Hc & He). rewrite <- (ex_ns _ _ _ E1) in Hc.
      rewrite <- (ex_entries _ _ _ E1) in He. specialize (Hns n). rewrite Hc in Hns.
      destruct Hns as (c' & Hc' & Hce & _).
      destruct (same_heap_entry _ _ _ _ Hh He) as (e' & He' & _). exists c', e'.
      by rewrite Hce.
    + split; [rewrite (sh_workers _ _ Hh); apply E1|]. intros k.
      rewrite (sh_entries _ _ Hh). by rewrite (ex_entries _ _ _ E1).
Qed.

Lemma submit_io_rep_inv E G F qd id gs P s :
  alloc_ok E -> env_ok E -> payload_ok G -> running G -> g_rep_num G <= Z.of_nat F ->
  inv G gs P s -> fresh s -> workers_ok s ->
  Z.of_nat (length (worker_ns_ctx s)) = g_rep_num G ->
  exists gs' s', submit_io_rep E G F qd id s = Ok (tt, s')
    /\ length gs' = qd /\ inv G (gs ++ gs') (concat (map snd gs') ++ P) s'
    /\ (forall k, strip <$> entries s' !! k = strip <$> entries s !! k).
Proof.
  intros HE HE' HP HR HF. revert id gs P s.
  induction qd as [|qd IH]; intros id gs P s HI Hf Hw Hlen.
  { exists [], s. by rewrite app_nil_r. }
  cbn [submit_io_rep]. erewrite M_bind_ok by reflexivity.
  destruct (worker_ns_ctx s) as [|n ns] eqn:Ens.
  { destruct HR. cbn in Hlen. lia. }
  destruct (make_group_ok E G s n ns id HE HP Hf)
    as (main & l & vs & buf & s1 & Hg & Hst & Hin & Hcov & _).
  erewrite M_bind_ok by exact Hg.
  assert (Hvs : vs <> []) by (eapply covers_nonempty; [exact Hcov|apply HP]).
  destruct (first_round_inv E G F gs P s s1 main n _ l vs HE' HR HF HI Hf Hw Hst Hin Hvs)
    as (s2 & Hs & HI2 & Hf2 & Hw2 & Hwe & Hen).
  { rewrite Ens. destruct (g_send_main_rep_finally G); set_solver. }
  { rewrite <- Hlen. destruct (g_send_main_rep_finally G); [|done].
    rewrite length_app. cbn. lia. }
  erewrite M_bind_ok by exact Hs.
  destruct (IH (u32 (id + 1)) _ _ s2 HI2 Hf2 Hw2) as (gs' & s' & Hs' & Hl' & HI' & Hen').
  { by rewrite Hwe, Ens. }
  exists ((main, l) :: gs'), s'. split; [done|]. split; [cbn; by rewrite Hl'|].
  rewrite <- app_assoc in HI'. cbn [app] in HI'. cbn [map concat snd].
  split; [by rewrite (Permutation_app_comm l), <- app_assoc|].
  intros k. by rewrite Hen', Hen.
Qed.
