(* ===== verification/PerfRepTheorems.v ===== *)
(** * What the replicated I/O generator guarantees, and where it fails

    End-to-end theorems on submit_io_rep and io_complete for a worker whose
    allocations and submissions succeed and whose namespaces do not drain, and
    the behaviour of the error and drain paths. *)

From S2P Require Import Prelude Tailq PerfRep PerfRepLemmas PerfRepSafety PerfRepBuild.

(** ** A concrete worker *)

Module Demo.

Definition E0 : env :=
  Env (fun _ => true) (fun _ _ => 0) (fun n => Z.of_nat n) (fun z => (z, z + 1))
      (fun z => (z, z)) (fun _ _ => 0) (fun _ => 0).
(** The driver refuses the second command. *)
Definition E1 : env :=
  Env (fun _ => true) (fun n _ => if Nat.eqb n 1 then -12 else 0)
      (fun n => Z.of_nat n) (fun z => (z, z + 1)) (fun z => (z, z)) (fun _ _ => 0)
      (fun _ => 0).
(** Three replicas, sequential writes of 4 KiB. *)
Definition G0 (cont rnd : bool) : config :=
  Config 3 false rnd 0 2 0 cont 0 4096 0 8 4294967292.
Definition ent (sz : Z) : ns_entry := NsEntry 8 sz 0 false 0 15 None.
Definition ctx (e : loc) : ns_worker_ctx :=
  NsCtx e (Stats 0 0 0 UINT64_MAX 0) 0 0 false 1 0 [] 0.
Definition hq (n : loc) : head hid := Head None (SFirst (HQueued n)).
Definition s0 : st :=
  St ∅ (Tailqs (<[HQueued 4 := hq 4]> (<[HQueued 5 := hq 5]> (<[HQueued 6 := hq 6]> ∅))) ∅)
     (<[4%positive := ctx 1]> (<[5%positive := ctx 2]> (<[6%positive := ctx 3]> ∅)))
     (<[1%positive := ent 20]> (<[2%positive := ent 10]> (<[3%positive := ent 10]> ∅)))
     [1%positive; 2%positive; 3%positive] [4%positive; 5%positive; 6%positive]
     ∅ ∅ 7 0 0 [].

Lemma env0_ok : env_ok E0.
Proof. by constructor. Qed.

Lemma running0 c r : running (G0 c r).
Proof. by constructor. Qed.

Lemma payload0 c r : payload_ok (G0 c r).
Proof. by constructor. Qed.

Lemma s0_entries : entries_ok s0.
Proof.
  constructor; [done|..].
  - intros k Hk. assert (k = 1%positive \/ k = 2%positive \/ k = 3%positive) as [->|[->| ->]]
      by set_solver; vm_compute; eauto.
  - intros k e. cbn. rewrite !lookup_insert_Some, lookup_empty.
    intros [[_ <-]|[_ [[_ <-]|[_ [[_ <-]|[_ ?]]]]]]; done.
Qed.

Lemma s0_fresh : fresh s0.
Proof. by constructor. Qed.

Lemma s0_workers : workers_ok s0.
Proof.
  intros n Hn. assert (n = 4%positive \/ n = 5%positive \/ n = 6%positive) as [->|[->| ->]]
    by set_solver; eexists _, _; split; vm_compute; reflexivity.
Qed.

Lemma s0_ns n c : nsctx s0 !! n = Some c ->
  is_draining c = false /\ current_queue_depth c = 0.
Proof.
  cbn. rewrite !lookup_insert_Some, lookup_empty.
  intros [[_ <-]|[_ [[_ <-]|[_ [[_ <-]|[_ ?]]]]]]; done.
Qed.

End Demo.

(** ** Lock-step replication *)

(** The state of a worker before submit_io_rep: no command was sent, no
    namespace drains, one namespace per replica. *)
Record init_worker (G : config) (s : st) : Prop := {
  iw_entries : entries_ok s;
  iw_fresh : fresh s;
  iw_workers : workers_ok s;
  iw_len : Z.of_nat (length (worker_ns_ctx s)) = g_rep_num G;
  iw_ns : forall n c, nsctx s !! n = Some c ->
    is_draining c = false /\ current_queue_depth c = 0 }.

Lemma init_inv G s : init_worker G s -> inv G [] [] s.
Proof.
  intros [H1 H2 H3 H4 H5]. split; constructor; try done; try (intros ??; set_solver).
  - constructor.
  - constructor.
Qed.

Lemma init_run E G F qd s :
  alloc_ok E -> env_ok E -> payload_ok G -> running G -> g_rep_num G <= Z.of_nat F ->
  init_worker G s ->
  exists gs s1, submit_io_rep E G F qd 1 s = Ok (tt, s1) /\ length gs = qd
    /\ inv G gs (concat (map snd gs)) s1
    /\ (forall k, strip <$> entries s1 !! k = strip <$> entries s !! k).
Proof.
  intros HE HE' HP HR HF Hi.
  destruct (submit_io_rep_inv E G F qd 1 [] [] s HE HE' HP HR HF (init_inv _ _ Hi)
    (iw_fresh _ _ Hi) (iw_workers _ _ Hi) (iw_len _ _ Hi)) as (gs & s1 & Hs & Hl & HI & Hen).
  rewrite app_nil_r in HI. eauto 10.
Qed.

(** C1: Safety and refinement of the whole run of a worker whose allocations,
    submissions and protection information calls succeed, that has no limit on
    the number of I/Os and whose namespaces do not drain; a completion for an
    invalid namespace is seen only when errors are to be ignored.  The worker has
    one namespace per replica and a payload of less than 2^31 bytes.  submit_io_rep,
    for any queue depth, followed by any sequence of completions of outstanding
    ones in any order, executes without undefined behaviour, without a failed
    assertion and without exhausting a loop bound of g_rep_num iterations, and
    follows the abstract machine of [spec_run]: a completion removes one
    outstanding task and the completion of a group's last outstanding replica
    makes the whole group outstanding again.  In every reached state the worker
    invariant holds: each namespace's current_queue_depth is the number of its
    outstanding commands and each group's rep_completed_num the number of its
    replicas that are not outstanding.  Outside these conditions it fails:
    [failed_submission_use_after_free], [rep_task_release_use_after_free]. *)
Theorem worker_run_safe E G F qd s :
  alloc_ok E -> env_ok E -> payload_ok G -> running G -> g_rep_num G <= Z.of_nat F ->
  init_worker G s ->
  exists gs s1, submit_io_rep E G F qd 1 s = Ok (tt, s1) /\ length gs = qd
    /\ inv G gs (concat (map snd gs)) s1
    /\ forall tr P,
      Forall (fun x => x.2 <> CplInvalidNs \/ g_continue_on_error G = true) tr ->
      spec_run gs (concat (map snd gs)) tr = Some P ->
      exists s2, run_completions E G F tr s1 = Ok (tt, s2) /\ inv G gs P s2.
Proof.
  intros HE HE' HP HR HF Hi.
  destruct (init_run E G F qd s HE HE' HP HR HF Hi) as (gs & s1 & Hs & Hl & HI & _).
  exists gs, s1. split; [done|]. split; [done|]. split; [done|]. intros tr P Htr Hsp.
  destruct (run_simulates E G F gs _ s1 tr P HR HE' HF HI Htr Hsp) as (s2 & H2 & HI2 & _).
  eauto.
Qed.

Lemma demo_init c r : init_worker (Demo.G0 c r) Demo.s0.
Proof.
  constructor; [apply Demo.s0_entries|apply Demo.s0_fresh|apply Demo.s0_workers|done|].
  apply Demo.s0_ns.
Qed.

Lemma worker_run_safe_witness :
  exists (gs : list (loc * list loc)) s1, submit_io_rep Demo.E0 (Demo.G0 false false) 3 2 1 Demo.s0 = Ok (tt, s1)
    /\ length gs = 2%nat.
Proof.
  destruct (worker_run_safe Demo.E0 (Demo.G0 false false) 3 2 Demo.s0)
    as (gs & s1 & Hs & Hl & _); [done|apply Demo.env0_ok|apply Demo.payload0
    |apply Demo.running0|done|apply demo_init|].
  exists gs, s1. exact (conj Hs Hl).
Defined.

(** What the device of a replica sees of a command. *)
Definition io_of (c : io_cmd) : bool * Z * Z * (loc * Z) :=
  (cmd_read c, cmd_lba c, cmd_lba_count c, cmd_buf c).

Lemma replica_logs_agree G gs s main l t1 t2 bs :
  core G gs s -> (main, l) ∈ gs -> t1 ∈ l -> t2 ∈ l ->
  (forall k e, entries s !! k = Some e -> io_size_blocks e = bs) ->
  map io_of (cmds_of t1 (io_log s)) = map io_of (cmds_of t2 (io_log s)).
Proof.
  intros C Hin H1 H2 Hbs. destruct (co_groups _ _ _ C _ _ Hin) as [vs Hg].
  destruct (co_log _ _ _ C _ _ Hin) as [rs Hrs].
  assert (HA : forall t, t ∈ l -> forall rs cmds,
    Forall2 (fun r cmd => replica_cmd s r.1 r.2 t cmd) rs cmds ->
    map io_of cmds = map (fun r => (r.2, u64 (r.1 * bs), bs,
                                    from_option iov_base (1%positive, 0) (vs !! 0%nat))) rs).
  { intros t Ht rs' cmds Hf. destruct (gr_tasks _ _ _ _ Hg t Ht) as (y & Hy & _ & [_ Hv _]).
    induction Hf as [|r cmd rs' cmds Hc _ IH]; [done|]. cbn [map]. rewrite IH. f_equal.
    destruct Hc as (x & c & e & v & vs' & Hx & Hc & He & Hv' & _ & _ & Q1 & Q2 & Q3 & Q4 & _).
    simplify_eq. unfold io_of. rewrite Q1, Q2, Q3, Q4, (Hbs _ _ He). done. }
  rewrite (HA t1 H1 _ _ (Hrs t1 H1)). by rewrite (HA t2 H2 _ _ (Hrs t2 H2)).
Qed.

(** C2: Replica consistency, for a worker as in C1 (allocations, submissions and
    protection information calls succeed, no limit on the number of I/Os, no
    draining, one namespace per replica, a payload of less than 2^31 bytes,
    completions for an invalid namespace only when errors are ignored) whose
    namespaces all use the same number of blocks per I/O.  After submit_io_rep and
    any sequence of completions, in any order, the commands sent to any two
    replicas of a group are the same sequence: same direction, same first block,
    same number of blocks and the same data buffer, whatever the offset generator
    produced.  A submission that fails breaks it: [failed_submission_drops_rest].
    *)
Theorem replicas_receive_same_io E G F qd s bs :
  alloc_ok E -> env_ok E -> payload_ok G -> running G -> g_rep_num G <= Z.of_nat F ->
  init_worker G s ->
  (forall k e, entries s !! k = Some e -> io_size_blocks e = bs) ->
  exists gs s1, submit_io_rep E G F qd 1 s = Ok (tt, s1) /\ length gs = qd
    /\ (forall main l, (main, l) ∈ gs -> Z.of_nat (length l) = g_rep_num G)
    /\ forall tr P,
      Forall (fun x => x.2 <> CplInvalidNs \/ g_continue_on_error G = true) tr ->
      spec_run gs (concat (map snd gs)) tr = Some P ->
      exists s2, run_completions E G F tr s1 = Ok (tt, s2)
        /\ forall main l t1 t2, (main, l) ∈ gs -> t1 ∈ l -> t2 ∈ l ->
          map io_of (cmds_of t1 (io_log s2)) = map io_of (cmds_of t2 (io_log s2)).
Proof.
  intros HE HE' HP HR HF Hi Hbs.
  destruct (init_run E G F qd s HE HE' HP HR HF Hi) as (gs & s1 & Hs & Hl & HI & Hen).
  exists gs, s1. split; [done|]. split; [done|]. split; [apply HI|]. intros tr P Htr Hsp.
  destruct (run_simulates E G F gs _ s1 tr P HR HE' HF HI Htr Hsp) as (s2 & H2 & HI2 & Hh2).
  exists s2. split; [done|]. intros main l t1 t2 Hin H1 H3.
  apply (replica_logs_agree G gs s2 main l t1 t2 bs); [apply HI2|done..|]. intros k e He.
  destruct (same_heap_entry_back _ _ _ _ Hh2 He) as (e1 & He1 & Hst).
  pose proof (Hen k) as Hk. rewrite He1 in Hk.
  destruct (entries s !! k) as [e0|] eqn:He0; [|discriminate].
  apply (inj Some) in Hk. rewrite <- (Hbs _ _ He0).
  change (io_size_blocks (strip e) = io_size_blocks (strip e0)). by rewrite Hst, Hk.
Qed.

Lemma replicas_receive_same_io_witness :
  exists (gs : list (loc * list loc)) s1, submit_io_rep Demo.E0 (Demo.G0 false true) 3 2 1 Demo.s0 = Ok (tt, s1)
    /\ length gs = 2%nat.
Proof.
  destruct (replicas_receive_same_io Demo.E0 (Demo.G0 false true) 3 2 Demo.s0 8)
    as (gs & s1 & Hs & Hl & _); [done|apply Demo.env0_ok|apply Demo.payload0
    |apply Demo.running0|done|apply demo_init| |].
  - intros k e. cbn. rewrite !lookup_insert_Some, lookup_empty.
    intros [[_ <-]|[_ [[_ <-]|[_ [[_ <-]|[_ ?]]]]]]; done.
  - exists gs, s1. exact (conj Hs Hl).
Defined.

(** C10: In a worker whose submissions and protection information calls succeed,
    that has no limit on the number of I/Os and whose namespaces are not draining
    (the worker invariant says so), the completion of a replica either only counts
    (other replicas of its group are outstanding: no command is sent) or starts the
    next round (it was the last one: exactly one command per replica is sent, in
    the order of the group's queue, all with one offset and direction), and the
    state it leads to satisfies the worker invariant.  The completion is not one
    for an invalid namespace unless errors are to be ignored. *)
Theorem io_complete_round E G F gs P s main l t r :
  running G -> env_ok E -> inv G gs (t :: P) s -> (main, l) ∈ gs -> t ∈ l ->
  g_rep_num G <= Z.of_nat F -> r <> CplInvalidNs \/ g_continue_on_error G = true ->
  exists s', io_complete E G F t r s = Ok (tt, s')
    /\ if bool_decide (outstanding l P = [])
       then inv G gs (l ++ P) s' /\ exists s0 cmds off rd,
              io_log s' = io_log s ++ map (fun c => (c, 0)) cmds
              /\ Forall2 (replica_cmd s0 off rd) l cmds
       else inv G gs P s' /\ io_log s' = io_log s.
Proof.
  intros HR HE HI Hin Ht HF Hr.
  assert ((length l <= F)%nat).
  { pose proof (co_rep _ _ _ (proj1 HI) _ _ Hin). lia. }
  case_bool_decide as Ho.
  - destruct (io_complete_last E G F gs P s main l t r)
      as (s' & s0 & cmds & off & rd & ? & ? & ? & ? & _); [done..|].
    exists s'. split; [done|]. eauto 10.
  - destruct (io_complete_wait E G F gs P s main l t r) as (s' & ? & ? & ? & _); [done..|].
    eauto.
Qed.

Lemma io_complete_round_witness :
  exists gs s1 main l t P, inv (Demo.G0 false false) gs (t :: P) s1 /\ (main, l) ∈ gs
    /\ exists s', io_complete Demo.E0 (Demo.G0 false false) 3 t CplOk s1 = Ok (tt, s').
Proof.
  destruct (init_run Demo.E0 (Demo.G0 false false) 3 1 Demo.s0)
    as (gs & s1 & Hs & Hl & HI & _); [done|apply Demo.env0_ok|apply Demo.payload0
    |apply Demo.running0|done|apply demo_init|]. clear Hs.
  destruct gs as [|[main l] [|? ?]]; [discriminate Hl| |discriminate Hl].
  cbn [map concat snd] in HI. rewrite app_nil_r in HI.
  pose proof (co_rep _ _ _ (proj1 HI) main l ltac:(set_solver)) as Hlen.
  destruct l as [|t P]; [discriminate Hlen|]. exists [(main, t :: P)], s1, main, (t :: P), t, P.
  split; [done|]. split; [set_solver|].
  destruct (io_complete_round Demo.E0 (Demo.G0 false false) 3 [(main, t :: P)] P s1 main
    (t :: P) t CplOk) as (s' & Hc & _); [apply Demo.running0|apply Demo.env0_ok|done
    |set_solver|set_solver|done|by left|]. exists s'. exact Hc.
Defined.

(** ** Construction of a group *)

(** make_group (the body of submit_io_rep's loop up to the submission)
    builds, in a fresh part of the heap, a queue with exactly one replica per
    namespace of the worker, in the worker's order, or with the main task's
    replica moved to the end under g_send_main_rep_finally.  All replicas point
    to the main task, none has completed, and all describe the same live buffer,
    tiled without gap or overlap by elements of at most g_io_unit_size bytes.
    Objects allocated before are unchanged. *)
Theorem make_group_correct E G s n ns id :
  alloc_ok E -> payload_ok G -> fresh s ->
  exists main l vs buf s', make_group E G (n :: ns) id s = Ok (main, s')
    /\ tq_rep (tqs s') (HRep main) l /\ main ∈ l
    /\ Forall2 (member s' main vs)
         (if g_send_main_rep_finally G then ns ++ [n] else n :: ns) l
    /\ covers G buf 0 vs (payload_bytes G) /\ buf ∈ bufs s'
    /\ ext (next_loc s) s s' /\ tq_ext (next_loc s) (tqs s) (tqs s').
Proof.
  intros HE HP Hf.
  destruct (make_group_ok E G s n ns id HE HP Hf)
    as (main & l & vs & buf & s' & Hg & Hst & Hin & Hc & Hb).
  exists main, l, vs, buf, s'. destruct Hst. done.
Qed.

Lemma make_group_correct_demo :
  exists main s', make_group Demo.E0 (Demo.G0 false false) [4; 5; 6]%positive 1 Demo.s0
    = Ok (main, s').
Proof.
  destruct (make_group_correct Demo.E0 (Demo.G0 false false) Demo.s0 4 [5; 6]%positive 1)
    as (main & l & vs & buf & s' & Hg & _); [done|apply Demo.payload0|apply Demo.s0_fresh|].
  exists main, s'. exact Hg.
Defined.

(** ** Offsets *)

(** [n] successive calls of the offset generator. *)
Fixpoint gen_offsets (E : env) (G : config) (n : nat) (ns entry : loc) (m : Z)
  : M st (list Z) :=
  match n with
  | O => mret []
  | S n' => o ← gen_offset E G ns entry m;
            os ← gen_offsets E G n' ns entry m; mret (o :: os)
  end.

Lemma gen_offset_seq E G s n k c e m :
  g_is_random G = false -> nsctx s !! n = Some c -> entries s !! k = Some e ->
  zipf e = None -> 0 <= c_offset_in_ios c < m -> m < 2 ^ 64 ->
  exists s', gen_offset E G n k m s = Ok (c_offset_in_ios c, s')
    /\ entries s' = entries s
    /\ nsctx s' !! n = Some (with_offset ((c_offset_in_ios c + 1) mod m) c).
Proof.
  intros HG Hc He Hz Ho Hm. unfold gen_offset. mrun. rewrite Hz, HG. mrun. mrun.
  eexists. split; [reflexivity|]. split; [done|]. cbn. rewrite lookup_insert_eq.
  do 2 f_equal. rewrite wrap_small by lia.
  destruct (Z.eqb_spec (c_offset_in_ios c + 1) m) as [->|].
  - by rewrite Z.mod_same by lia.
  - by rewrite Z.mod_small by lia.
Qed.

(** The sequential offset generator walks through the first [m] units
    and wraps around: started at offset [o], its i-th result is (o + i) mod m,
    where [m] is the size of the smallest namespace. *)
Lemma sequential_offsets_cycle E G s n k c e m cnt :
  g_is_random G = false -> nsctx s !! n = Some c -> entries s !! k = Some e ->
  zipf e = None -> 0 <= c_offset_in_ios c < m -> m < 2 ^ 64 ->
  exists s', gen_offsets E G cnt n k m s
    = Ok (map (fun i => (c_offset_in_ios c + Z.of_nat i) mod m) (seq 0 cnt), s').
Proof.
  intros HG Hc He Hz Ho Hm. revert s c Hc He Ho.
  induction cnt as [|cnt IH]; intros s c Hc He Ho; cbn [gen_offsets seq map].
  { exists s. done. }
  destruct (gen_offset_seq E G s n k c e m HG Hc He Hz Ho Hm) as (s1 & Hg & He1 & Hc1).
  erewrite M_bind_ok by exact Hg.
  destruct (IH s1 _ Hc1) as (s2 & Hs2).
  { by rewrite He1. }
  { cbn. apply Z.mod_pos_bound. lia. }
  erewrite M_bind_ok by exact Hs2. exists s2. unfold mret, M_ret. do 3 f_equal.
  - rewrite Z.add_0_r. by rewrite Z.mod_small by lia.
  - rewrite <- seq_shift, map_map. apply map_ext. intros i. cbn.
    rewrite Zplus_mod_idemp_l. f_equal. lia.
Qed.

Lemma sequential_offsets_demo :
  exists s', gen_offsets Demo.E0 (Demo.G0 false false) 3 4 1 2 Demo.s0 = Ok ([0; 1; 0], s').
Proof.
  apply (sequential_offsets_cycle Demo.E0 (Demo.G0 false false) Demo.s0 4 1 (Demo.ctx 1)
    (Demo.ent 20) 2 3); try reflexivity; cbn; lia.
Defined.

(** A sequential round stays inside every replica: when the generator
    is sequential and its offset is below the size of the smallest namespace
    (which the generator maintains), every command of the round addresses
    blocks of its namespace only. *)
Lemma sequential_round_in_bounds E G F s main l vs x c e0 m :
  env_ok E -> entries_ok s -> group s main l vs -> (length l <= F)%nat ->
  tasks s !! main = Some x -> nsctx s !! t_ns_ctx x = Some c -> is_draining c = false ->
  g_is_random G = false -> entries s !! c_entry c = Some e0 -> zipf e0 = None ->
  get_min_size_in_ios s = Ok (m, s) -> m < 2 ^ 64 -> 0 <= c_offset_in_ios c < m ->
  (forall n c, nsctx s !! n = Some c -> c_entry c ∈ g_namespaces s) ->
  (forall k e, entries s !! k = Some e ->
     0 < io_size_blocks e /\ size_in_ios e * io_size_blocks e < 2 ^ 64) ->
  exists s' cmds, submit_single_io_rep E G F main s = Ok (tt, s')
    /\ io_log s' = io_log s ++ map (fun c => (c, 0)) cmds
    /\ map cmd_task cmds = l
    /\ Forall (fun cmd => exists c e, nsctx s !! cmd_ns cmd = Some c
         /\ entries s !! c_entry c = Some e
         /\ 0 <= cmd_lba cmd
         /\ cmd_lba cmd + cmd_lba_count cmd <= size_in_ios e * io_size_blocks e) cmds.
Proof.
  intros HE He Hg HF Hx Hc Hd HG He0 Hz Hmin Hm Ho Hin Hsz.
  destruct (submit_single_io_rep_ok E G F s main l vs x c HE He Hg HF Hx Hc Hd)
    as (off & rd & s' & cmds & Hs & _ & _ & _ & Hlog & Hcmds & m' & s1 & Hm' & Hgen).
  destruct (gen_offset_seq E G s _ _ c e0 m HG Hc He0 Hz Ho Hm) as (s1' & Hgen' & _).
  destruct (get_min_ok s He) as (m2 & Hm2 & Hmle & _).
  assert (m' = m) as -> by congruence. assert (m2 = m) as -> by congruence.
  assert (off = c_offset_in_ios c) as -> by congruence.
  exists s', cmds. split; [done|]. split; [done|]. split.
  - clear -Hcmds. induction Hcmds as [|t cmd l cmds Hc _ IH]; [done|]. cbn. f_equal; [|done].
    destruct Hc as (? & ? & ? & ? & ? & ? & ? & ? & ? & ? & _). done.
  - apply Forall_forall. intros cmd Hcmd. apply list_elem_of_lookup_1 in Hcmd as [i Hi].
    destruct (Forall2_lookup_r _ _ _ _ _ Hcmds Hi)
      as (t & _ & y & c' & e & v & vs' & _ & Hc' & He' & _ & _ & Q1 & _ & Q2 & Q3 & _).
    exists c', e. rewrite Q1, Q2, Q3. split; [done|]. split; [done|].
    pose proof (Hmle _ _ (Hin _ _ Hc') He'). destruct (Hsz _ _ He').
    assert ((c_offset_in_ios c + 1) * io_size_blocks e <= size_in_ios e * io_size_blocks e)
      by (apply Z.mul_le_mono_nonneg_r; lia).
    assert (0 <= c_offset_in_ios c * io_size_blocks e) by (apply Z.mul_nonneg_nonneg; lia).
    rewrite Z.mul_add_distr_r in *. rewrite wrap_small by lia. lia.
Qed.

(** A worker with the first group built, before its first round. *)
Lemma demo_group : exists main l vs s1,
  group s1 main l vs /\ (length l <= 3)%nat /\ env_ok Demo.E0 /\ entries_ok s1
  /\ ext (next_loc Demo.s0) Demo.s0 s1
  /\ (exists x, tasks s1 !! main = Some x /\ t_ns_ctx x = 4%positive).
Proof.
  destruct (make_group_ok Demo.E0 (Demo.G0 false false) Demo.s0 4 [5; 6]%positive 1)
    as (main & l & vs & buf & s1 & _ & Hst & Hin & Hc & _);
    [done|apply Demo.payload0|apply Demo.s0_fresh|].
  pose proof (core_add (Demo.G0 false false) [] Demo.s0 s1 main 4 _ l vs Demo.s0_fresh
    (proj1 (init_inv _ _ (demo_init false false))) Demo.s0_workers Hst Hin) as C.
  assert (C' : core (Demo.G0 false false) [(main, l)] s1).
  { apply C; [by eapply covers_nonempty|set_solver|done]. }
  exists main, l, vs, s1. pose proof (Forall2_length _ _ _ (sg_members _ _ _ _ _ _ _ Hst)) as H.
  cbn in H. split; [|split; [lia|]].
  - destruct (co_groups _ _ _ C' main l ltac:(set_solver)) as [vs' Hg].
    destruct (sg_main _ _ _ _ _ _ _ Hst) as (x & Hx & Hm & _ & Hv & _).
    destruct (gr_tasks _ _ _ _ Hg main Hin) as (x' & Hx' & _ & [_ Hv' _]).
    by assert (vs' = vs) as <- by congruence.
  - split; [apply Demo.env0_ok|]. split; [apply C'|]. split; [apply Hst|].
    destruct (sg_main _ _ _ _ _ _ _ Hst) as (x & Hx & _ & Hn & _). eauto.
Qed.

Lemma sequential_round_demo :
  exists main s1 s', submit_single_io_rep Demo.E0 (Demo.G0 false false) 3 main s1 = Ok (tt, s').
Proof.
  destruct demo_group as (main & l & vs & s1 & Hg & Hl & HE & He & Hx & x & Hx0 & Hn).
  exists main, s1.
  destruct (sequential_round_in_bounds Demo.E0 (Demo.G0 false false) 3 s1 main l vs x
    (Demo.ctx 1) (Demo.ent 20) 10) as (s' & cmds & Hs & _);
    rewrite ?Hn, ?(ex_ns _ _ _ Hx), ?(ex_entries _ _ _ Hx); try done.
  - unfold get_min_size_in_ios. erewrite M_bind_ok by reflexivity.
    rewrite (ex_namespaces _ _ _ Hx). cbn [Demo.s0 g_namespaces min_loop].
    do 4 (erewrite M_bind_ok by
      (apply load_entry_ok; rewrite (ex_entries _ _ _ Hx); reflexivity)). reflexivity.
  - intros n c. cbn. rewrite (ex_namespaces _ _ _ Hx), !lookup_insert_Some, lookup_empty.
    intros [[_ <-]|[_ [[_ <-]|[_ [[_ <-]|[_ ?]]]]]]; cbn; set_solver.
  - intros k e. cbn. rewrite !lookup_insert_Some, lookup_empty.
    intros [[_ <-]|[_ [[_ <-]|[_ [[_ <-]|[_ ?]]]]]]; done.
  - exists s'. exact Hs.
Defined.

(** ** The release of a group *)

Lemma tq_next_freed s t :
  nodes (tqs s) !! t = None -> tq_next t s = UB UB_freed.
Proof. intros H. unfold tq_next, TAILQ_NEXT, mbind, M_bind, get. by rewrite H. Qed.

(** The release loop at a copy: its link is read after it was freed. *)
Lemma release_loop_copy fuel t main x vs s :
  t <> main -> tasks s !! t = Some x -> iov_arrays s !! iovs x = Some vs ->
  release_loop (S fuel) (Some t) main s = UB UB_freed.
Proof.
  intros Hne Hx Hv. cbn [release_loop]. mrun. unfold free_iovs at 1.
  erewrite M_bind_ok.
  2: { erewrite M_bind_ok by reflexivity. rewrite Hv. reflexivity. }
  rewrite bool_decide_false by done. set (s1 := set_iov_arrays _ s).
  assert (Hx1 : tasks s1 !! t = Some x) by done.
  erewrite M_bind_ok.
  2: { unfold free_task. mrun. erewrite M_bind_ok by reflexivity. reflexivity. }
  apply M_bind_ub, tq_next_freed. cbn. apply lookup_delete_eq.
Qed.

Lemma dma_free_cases b s :
  dma_free b s = UB UB_freed \/ exists bs, dma_free b s = Ok (tt, set_bufs bs s).
Proof.
  destruct b as [b|]; [|right; exists (fun x => x); by destruct s].
  unfold dma_free. erewrite M_bind_ok by reflexivity.
  destruct (bool_decide (b ∈ bufs s)); [right; eauto|by left].
Qed.

(** rep_task_release is only safe for unreplicated groups: for every group
    with at least two replicas, whatever the order of its queue, releasing it
    reads the link field of a task that was just freed.  (The release runs when
    a namespace drains, which is how every timed run ends.) *)
Lemma rep_task_release_use_after_free F s main l vs :
  group s main l vs -> (2 <= length l)%nat -> (2 <= F)%nat ->
  rep_task_release F main s = UB UB_freed.
Proof.
  intros Hg Hl HF. pose proof (group_nodup _ _ _ _ Hg) as Hnd.
  destruct Hg as [Hrep Hmain Ht]. unfold rep_task_release.
  destruct (Ht main Hmain) as (m & Hm & _ & [_ Hv Hne]). destruct vs as [|v vs]; [done|].
  mrun. mrun. destruct (dma_free_cases (Some (fst (iov_base v))) s) as [Hd|(b1 & Hd)].
  { by apply M_bind_ub. }
  erewrite M_bind_ok by exact Hd. set (s1 := set_bufs b1 s).
  destruct (dma_free_cases (md_iov m) s1) as [Hd2|(b2 & Hd2)]; [by apply M_bind_ub|].
  erewrite M_bind_ok by exact Hd2. set (s2 := set_bufs b2 s1).
  assert (Hrep2 : tq_rep (tqs s2) (HRep main) l) by exact Hrep.
  erewrite M_bind_ok by (apply tq_first_ok; exact Hrep2). apply M_bind_ub.
  destruct l as [|t1 [|t2 l]]; [cbn in Hl; lia..|].
  destruct F as [|[|F]]; [lia..|]. cbn [hd_or].
  destruct (Ht t1) as (x1 & Hx1 & _ & [_ Hv1 _]); [set_solver|].
  destruct (decide (t1 = main)) as [->|Hne1].
  2: { by eapply release_loop_copy. }
  cbn [release_loop]. assert (Hx1' : tasks s2 !! main = Some x1) by done. mrun.
  erewrite M_bind_ok.
  2: { unfold free_iovs. erewrite M_bind_ok by reflexivity.
       change (iov_arrays s2) with (iov_arrays s). rewrite Hv1. reflexivity. }
  rewrite bool_decide_true by done. erewrite M_bind_ok by reflexivity.
  set (s3 := set_iov_arrays _ s2).
  assert (Hrep3 : tq_rep (tqs s3) (HRep main) ([] ++ main :: t2 :: l)) by exact Hrep.
  erewrite M_bind_ok by (eapply tq_next_ok; exact Hrep3). cbn [hd_or].
  destruct (Ht t2) as (x2 & Hx2 & _ & [_ Hv2 _]); [set_solver|].
  assert (t2 <> main). { apply NoDup_cons in Hnd as [Hn _]. set_solver. }
  destruct (decide (iovs x2 = iovs x1)) as [He|He].
  - assert (Hx2' : tasks s3 !! t2 = Some x2) by done. cbn [release_loop].
    mrun. apply M_bind_ub. unfold free_iovs. erewrite M_bind_ok by reflexivity.
    cbn. by rewrite He, lookup_delete_eq.
  - apply (release_loop_copy F t2 main x2 (v :: vs)); [done|done|].
    cbn. by rewrite lookup_delete_ne.
Qed.

Lemma rep_task_release_demo :
  exists main s1, rep_task_release 3 main s1 = UB UB_freed.
Proof.
  destruct (init_run Demo.E0 (Demo.G0 false false) 3 1 Demo.s0)
    as (gs & s1 & Hs & Hl & HI & _); [done|apply Demo.env0_ok|apply Demo.payload0
    |apply Demo.running0|done|apply demo_init|]. clear Hs.
  destruct gs as [|[main l] gs]; [discriminate Hl|].
  destruct (co_groups _ _ _ (proj1 HI) main l ltac:(set_solver)) as [vs Hg].
  pose proof (co_rep _ _ _ (proj1 HI) main l ltac:(set_solver)) as Hlen. cbn in Hlen.
  exists main, s1. apply (rep_task_release_use_after_free 3 s1 main l vs Hg); lia.
Defined.

(** ** The error paths *)

(** The retry path: every resubmission of a queued task reads an
    uninitialised offset. *)
Lemma submit_single_io_uninit E G t s x c :
  tasks s !! t = Some x -> nsctx s !! t_ns_ctx x = Some c -> is_draining c = false ->
  submit_single_io E G t s = UB UB_uninit.
Proof.
  intros Hx Hc Hd. unfold submit_single_io. mrun. mrun. rewrite Hd.
  erewrite M_bind_ok by reflexivity. mrun. set (s1 := St _ _ _ _ _ _ _ _ _ _ _ _).
  assert (Hx1 : tasks s1 !! t = Some x) by done. mrun. reflexivity.
Qed.

(** The commands of a run and their results, as (task, namespace, first block,
    result). *)
Definition log_view (r : res (unit * st)) : option (list (loc * loc * Z * Z)) :=
  match r with
  | Ok (_, s) => Some (map (fun x => (cmd_task x.1, cmd_ns x.1, cmd_lba x.1, x.2)) (io_log s))
  | _ => None
  end.

(** With g_continue_on_error, a replica whose submission fails is moved to the
    retry queue through the link field the loop is iterating on: the third
    replica of the round is never submitted. *)
Lemma failed_submission_drops_rest :
  log_view (submit_io_rep Demo.E1 (Demo.G0 true false) 9 1 1 Demo.s0)
  = Some [(7%positive, 4%positive, 0, 0); (10%positive, 5%positive, 0, -12)].
Proof. vm_compute. reflexivity. Qed.

(** Without g_continue_on_error the failed replica is freed before its link
    field is read. *)
Lemma failed_submission_use_after_free :
  submit_io_rep Demo.E1 (Demo.G0 false false) 9 1 1 Demo.s0 = UB UB_freed.
Proof. vm_compute. reflexivity. Qed.

(** A random offset is drawn from the main namespace's size only: here the
    first block is 120 on namespaces of 80 blocks. *)
Lemma random_offset_out_of_range :
  log_view (submit_io_rep Demo.E0 (Demo.G0 false true) 9 1 1 Demo.s0)
  = Some [(7%positive, 4%positive, 120, 0); (10%positive, 5%positive, 120, 0);
          (12%positive, 6%positive, 120, 0)]
  /\ size_in_ios (Demo.ent 10) * io_size_blocks (Demo.ent 10) = 80.
Proof. vm_compute. split; reflexivity. Qed.

(** cleanup_ns_worker_ctx completes tasks that were never submitted: the queue
    depth wraps around. *)
Lemma cleanup_underflows_depth :
  (r ← (submit_io_rep Demo.E1 (Demo.G0 true false) 9 1 1;;
        cleanup_ns_worker_ctx Demo.E1 (Demo.G0 true false) 9 5) Demo.s0;
   mret (current_queue_depth <$> nsctx r.2 !! 5%positive))
  = Ok (Some UINT64_MAX).
Proof. vm_compute. reflexivity. Qed.
