(* ===== verification/PerfRepBatch.v ===== *)
(** * The batched generator (app/spdk_nvme_perf_rep_batch/perf_rep_batch.c)

    perf_rep_batch.c is perf_rep.c with a rate limit: with -E, a group whose
    round has completed is not resubmitted at once but put on a linked list of
    waiting tasks; the loop of the worker takes batch_size groups from the list,
    waits until as many rounds have completed, and then busy-waits until the
    period of a batch has passed.  The replicated I/O itself is that of
    [PerfRep]; this file models what is added.  One worker uses the list, which
    is a global variable. *)

From S2P Require Import Prelude LatencyLog Tailq PerfRep.

(** [k_next] is None while the pointer is not initialised. *)
Record perf_task_link := Link { k_task : option loc; k_next : option (option loc) }.

Record bst := Bst {
  b_st : st;
  links : gmap loc perf_task_link;
  link_head : option loc;
  link_tail : option loc;
  batch : Z;
  submit_batch : Z;
  before_time : timespec;
  n_clock : nat }.

(** The options that are added. *)
Record bconfig := BConfig { io_num_per_second : Z; batch_size : Z }.

Definition set_b_st (x : st) (s : bst) : bst :=
  Bst x (links s) (link_head s) (link_tail s) (batch s) (submit_batch s) (before_time s) (n_clock s).
Definition set_links (f : gmap loc perf_task_link -> gmap loc perf_task_link) (s : bst) : bst :=
  Bst (b_st s) (f (links s)) (link_head s) (link_tail s) (batch s) (submit_batch s) (before_time s)
    (n_clock s).
Definition set_link_head (k : option loc) (s : bst) : bst :=
  Bst (b_st s) (links s) k (link_tail s) (batch s) (submit_batch s) (before_time s) (n_clock s).
Definition set_link_tail (k : option loc) (s : bst) : bst :=
  Bst (b_st s) (links s) (link_head s) k (batch s) (submit_batch s) (before_time s) (n_clock s).
Definition set_batch (z : Z) (s : bst) : bst :=
  Bst (b_st s) (links s) (link_head s) (link_tail s) z (submit_batch s) (before_time s) (n_clock s).
Definition set_submit_batch (z : Z) (s : bst) : bst :=
  Bst (b_st s) (links s) (link_head s) (link_tail s) (batch s) z (before_time s) (n_clock s).
Definition set_before (t : timespec) (s : bst) : bst :=
  Bst (b_st s) (links s) (link_head s) (link_tail s) (batch s) (submit_batch s) t (n_clock s).
Definition bump_clock (s : bst) : bst :=
  Bst (b_st s) (links s) (link_head s) (link_tail s) (batch s) (submit_batch s) (before_time s)
    (S (n_clock s)).

(** An operation of [PerfRep]. *)
Definition on_st {A} (m : M st A) : M bst A := fun s =>
  match m (b_st s) with
  | Ok (a, x) => Ok (a, set_b_st x s)
  | Exit c => Exit c
  | UB r => UB r
  | OutOfFuel => OutOfFuel
  end.

Definition lift_res {A} (r : res A) : M bst A := fun s =>
  match r with
  | Ok a => Ok (a, s)
  | Exit c => Exit c
  | UB r => UB r
  | OutOfFuel => OutOfFuel
  end.

Definition load_link (k : option loc) : M bst perf_task_link :=
  k ← lift_opt UB_null k; s ← get; lift_opt UB_freed (links s !! k).
Definition upd_link (k : option loc) (f : perf_task_link -> perf_task_link) : M bst unit :=
  x ← load_link k; k ← lift_opt UB_null k; modify (set_links <[k := f x]>).
Definition with_task (t : loc) (x : perf_task_link) : perf_task_link := Link (Some t) (k_next x).
Definition with_next (k : option loc) (x : perf_task_link) : perf_task_link := Link (k_task x) (Some k).

Section Batch.
(** [clock n] is the n-th reading of CLOCK_REALTIME. *)
Context (E : env) (G : config) (F : nat) (B : bconfig) (clock : nat -> timespec).

(** malloc; the result is not checked, and the members are not initialised. *)
Definition new_link : M bst (option loc) :=
  k ← on_st (alloc E);
  match k with
  | Some k => _ ← modify (set_links <[k := Link None None]>); mret (Some k)
  | None => mret None
  end.

(** The list as main creates it: a head whose next is not assigned. *)
Definition init_links : M bst unit :=
  k ← new_link;
  _ ← upd_link k (fun x => Link None (k_next x));
  _ ← modify (set_link_head k);
  modify (set_link_tail k).

Definition enqueue (main : loc) : M bst unit :=
  k ← new_link;
  _ ← upd_link k (with_task main);
  tail ← gets link_tail;
  _ ← upd_link tail (with_next k);
  _ ← upd_link k (with_next None);
  modify (set_link_tail k).

Definition b_task_complete (t : loc) : M bst unit :=
  r ← on_st (group_done E G F t);
  match r with
  | None => mret tt
  | Some main =>
      if io_num_per_second B =? 0 then on_st (submit_single_io_rep E G F main)
      else _ ← enqueue main; modify (fun s => set_batch (u32 (batch s + 1)) s)
  end.

Definition b_io_complete (t : loc) (r : cpl) : M bst unit :=
  _ ← on_st (io_status G t r);
  b_task_complete t.

Fixpoint b_submit_io_rep (queue_depth : nat) (io_id : Z) : M bst unit :=
  match queue_depth with
  | O => mret tt
  | S qd =>
      s ← get;
      main ← on_st (make_group E G (worker_ns_ctx (b_st s)) io_id);
      _ ← (if io_num_per_second B =? 0 then on_st (submit_single_io_rep E G F main)
           else enqueue main);
      b_submit_io_rep qd (u32 (io_id + 1))
  end.

(** ** The loop of the worker *)

Definition clock_gettime : M bst timespec :=
  s ← get; _ ← put (bump_clock s); mret (clock (n_clock s)).

Definition judge_if_send : M bst bool :=
  '(_, p) ← lift_res (timespec_divide (Timespec 1 0) (s32 (io_num_per_second B)));
  '(_, io_send_period) ← lift_res (timespec_multiply p (s32 (batch_size B)));
  temp ← clock_gettime;
  before ← gets before_time;
  '(_, now_time) ← lift_res (timespec_sub temp before);
  '(rc, _) ← lift_res (timespec_sub now_time io_send_period);
  if rc =? 0 then _ ← modify (set_before temp); mret true else mret false.

(** The busy wait; [n] bounds the readings of the clock. *)
Fixpoint wait_send (n : nat) : M bst unit :=
  match n with
  | O => out_of_fuel
  | S n' => b ← judge_if_send; if (b : bool) then mret tt else wait_send n'
  end.

(** The task of the first element behind the head, which is taken off. *)
Definition dequeue : M bst loc :=
  head ← gets link_head;
  h ← load_link head;
  temp ← lift_opt UB_uninit (k_next h);
  _ ← match temp with
      | None => mret tt
      | Some _ =>
          x ← load_link temp;
          next ← lift_opt UB_uninit (k_next x);
          _ ← upd_link head (with_next next);
          if bool_decide (next = None) then modify (set_link_tail head) else mret tt
      end;
  x ← load_link temp;
  lift_opt UB_null (k_task x).

(** One iteration of the loop that submits. *)
Definition send_one : M bst unit :=
  main ← dequeue;
  _ ← on_st (submit_single_io_rep E G F main);
  modify (fun s => set_submit_batch (u32 (submit_batch s + 1)) s).

(** The loop; it makes at most batch_size iterations. *)
Fixpoint send_loop (n : nat) : M bst unit :=
  s ← get;
  if submit_batch s <? batch_size B then
    match n with
    | O => out_of_fuel
    | S n' => _ ← send_one; send_loop n'
    end
  else mret tt.

(** The part of the worker's loop that is added; [W]: the readings of the clock
    a busy wait may take. *)
Definition send_batch (W : nat) : M bst unit :=
  if 0 <? io_num_per_second B then
    _ ← send_loop (Z.to_nat (batch_size B));
    s ← get;
    if batch_size B <=? batch s then
      _ ← modify (set_batch 0);
      _ ← modify (set_submit_batch 0);
      wait_send W
    else mret tt
  else mret tt.

(** The start of a worker. *)
Definition b_start (qd : nat) : M bst unit :=
  _ ← init_links; b_submit_io_rep qd 1.

(** What happens to a worker: a completion, reported by check_io, or the added
    part of an iteration of its loop. *)
Inductive bevent := EvComplete (t : loc) (r : cpl) | EvSend (W : nat).

Definition b_exec (e : bevent) : M bst unit :=
  match e with
  | EvComplete t r => b_io_complete t r
  | EvSend W => send_batch W
  end.

Fixpoint b_execs (es : list bevent) : M bst unit :=
  match es with
  | [] => mret tt
  | e :: es' => _ ← b_exec e; b_execs es'
  end.
End Batch.
