(* ===== verification/PerfRepBatchLemmas.v ===== *)
(** * The list of waiting tasks, the pacing, and the invariant of a batched worker *)

From S2P Require Import Prelude LatencyLog Tailq PerfRep PerfRepLemmas PerfRepSafety PerfRepBuild PerfRepBatch.

Lemma on_st_ok {A} (m : M st A) s a x :
  m (b_st s) = Ok (a, x) -> on_st m s = Ok (a, set_b_st x s).
Proof. intros H. unfold on_st. by rewrite H. Qed.

(** ** The list

    [ws]: the elements behind the head, with their tasks. *)

Fixpoint linked (m : gmap loc perf_task_link) (k : loc) (ws : list (loc * loc)) : Prop :=
  match ws with
  | [] => is_Some (m !! k)
  | (k', t) :: ws' =>
      (exists x, m !! k = Some x /\ k_next x = Some (Some k'))
      /\ (exists y, m !! k' = Some y /\ k_task y = Some t /\ (ws' = [] -> k_next y = Some None))
      /\ linked m k' ws'
  end.

Fixpoint last_link (k : loc) (ws : list (loc * loc)) : loc :=
  match ws with [] => k | (k', _) :: ws' => last_link k' ws' end.

Lemma last_link_in k ws : last_link k ws ∈ k :: map fst ws.
Proof.
  revert k. induction ws as [|[k' t] ws IH]; intros k; cbn; [set_solver|].
  specialize (IH k'). set_solver.
Qed.

Lemma last_link_snoc k ws k' t : last_link k (ws ++ [(k', t)]) = k'.
Proof. revert k. induction ws as [|[k1 t1] ws IH]; intros k; cbn; auto. Qed.

Lemma linked_last m k ws : linked m k ws -> is_Some (m !! last_link k ws).
Proof.
  revert k. induction ws as [|[k' t] ws IH]; intros k; cbn; [done|]. intros (_ & _ & H). auto.
Qed.

(** A new last element. *)
Lemma linked_snoc m m' k ws k' t x :
  linked m k ws -> NoDup (k :: map fst ws) -> k' ∉ k :: map fst ws ->
  m !! last_link k ws = Some x -> m' !! last_link k ws = Some (with_next (Some k') x) ->
  m' !! k' = Some (Link (Some t) (Some None)) ->
  (forall j, j ∈ k :: map fst ws -> j <> last_link k ws -> m' !! j = m !! j) ->
  linked m' k (ws ++ [(k', t)]).
Proof.
  revert k. induction ws as [|[k1 t1] ws IH]; intros k Hl Hn Hk Hx Hx' Hk' Hj; cbn in *.
  { split; [by eexists|]. split; [by eexists|]. by eexists. }
  destruct Hl as ((y & Hy & Hyn) & (z & Hz & Ht & Hzn) & Hl). apply NoDup_cons in Hn as [Hn1 Hn].
  assert (Hne : k <> last_link k1 ws) by (pose proof (last_link_in k1 ws); set_solver).
  split; [exists y; rewrite Hj by set_solver; done|]. split.
  - destruct (decide (k1 = last_link k1 ws)) as [He|Hne1].
    + rewrite <- He in *. simplify_eq. eexists. split; [exact Hx'|]. split; [done|]. by destruct ws.
    + exists z. rewrite Hj by set_solver. split; [done|]. split; [done|]. by destruct ws.
  - apply IH; try done; set_solver.
Qed.

(** The first element taken off. *)
Lemma linked_pop m m' k k1 t ws x :
  linked m k ((k1, t) :: ws) -> NoDup (k :: map fst ((k1, t) :: ws)) ->
  m !! k1 = Some x -> (exists y, m' !! k = Some y /\ k_next y = k_next x) ->
  (forall j, j <> k -> m' !! j = m !! j) -> linked m' k ws.
Proof.
  intros (_ & (y & Hy & _ & Hyn) & Hl) Hn Hx (z & Hz & Hzn) Hj. simplify_eq.
  destruct ws as [|[k2 t2] ws]; [by eexists|]. destruct Hl as ((y' & Hy' & Hn') & H2 & Hl). simplify_eq.
  split; [exists z; by rewrite Hzn|]. cbn in Hn. split.
  { destruct H2 as (u & Hu & H2). exists u. rewrite Hj; [done|]. rewrite NoDup_cons in Hn. set_solver. }
  assert (Hsub : k ∉ k2 :: map fst ws) by (rewrite NoDup_cons in Hn; set_solver).
  clear -Hl Hj Hsub. revert k2 Hl Hsub. induction ws as [|[k3 t3] ws IH]; intros k2 Hl Hsub; cbn in *.
  { rewrite Hj by set_solver. done. }
  destruct Hl as ((a & Ha & Han) & (b & Hb & Hbt) & Hl).
  split; [exists a; rewrite Hj by set_solver; done|].
  split; [exists b; rewrite Hj by set_solver; done|]. apply IH; [done|set_solver].
Qed.

(** [W]: the waiting tasks, in order. *)
Definition waits (s : bst) (W : list loc) : Prop :=
  exists h ws, link_head s = Some h /\ link_tail s = Some (last_link h ws)
    /\ linked (links s) h ws /\ map snd ws = W /\ NoDup (h :: map fst ws)
    /\ Forall (fun k => (k < next_loc (b_st s))%positive) (h :: map fst ws).

(** Operations that leave the list alone. *)
Lemma waits_mono s s' W :
  links s' = links s -> link_head s' = link_head s -> link_tail s' = link_tail s ->
  (next_loc (b_st s) <= next_loc (b_st s'))%positive -> waits s W -> waits s' W.
Proof.
  intros H1 H2 H3 Hn (h & ws & Hh & Ht & Hl & HW & Hnd & Hlt). exists h, ws. rewrite H1, H2, H3.
  split_and!; try done. eapply Forall_impl; [exact Hlt|]. cbn. lia.
Qed.

Lemma load_link_ok s k x : links s !! k = Some x -> load_link (Some k) s = Ok (x, s).
Proof. intros H. unfold load_link, mbind, M_bind, lift_opt, mret, M_ret, get. by rewrite H. Qed.

Lemma upd_link_ok s k x f :
  links s !! k = Some x -> upd_link (Some k) f s = Ok (tt, set_links <[k := f x]> s).
Proof. intros H. unfold upd_link. by rewrite (M_bind_ok _ _ _ _ _ (load_link_ok _ _ _ H)). Qed.

Lemma enqueue_ok E s W main :
  alloc_ok E -> waits s W ->
  exists s', enqueue E main s = Ok (tt, s') /\ waits s' (W ++ [main])
    /\ b_st s' = bump_alloc (b_st s) /\ batch s' = batch s /\ submit_batch s' = submit_batch s
    /\ before_time s' = before_time s /\ n_clock s' = n_clock s.
Proof.
  intros HE (h & ws & Hh & Ht & Hl & HW & Hnd & Hlt). set (k := next_loc (b_st s)).
  assert (Hk : k ∉ h :: map fst ws).
  { intros Hin. rewrite Forall_forall in Hlt. specialize (Hlt k Hin). unfold k in Hlt. lia. }
  destruct (linked_last _ _ _ Hl) as [x Hx].
  assert (Hne : k <> last_link h ws) by (intros ->; apply Hk, last_link_in).
  unfold enqueue, new_link. rewrite M_bind_assoc, (M_bind_ok _ _ _ _ _ (on_st_ok _ _ _ _ (alloc_run E _ HE))).
  fold k. set (s1 := set_b_st _ s). erewrite M_bind_ok by reflexivity.
  set (s2 := set_links <[k := Link None None]> s1).
  assert (Hk2 : links s2 !! k = Some (Link None None)) by apply lookup_insert_eq.
  rewrite (M_bind_ok _ _ _ _ _ (upd_link_ok _ _ _ _ Hk2)). set (s3 := set_links _ s2).
  erewrite M_bind_ok by reflexivity. change (link_tail s3) with (link_tail s). rewrite Ht.
  assert (Hx3 : links s3 !! last_link h ws = Some x) by (cbn; by rewrite !lookup_insert_ne).
  rewrite (M_bind_ok _ _ _ _ _ (upd_link_ok _ _ _ _ Hx3)). set (s4 := set_links _ s3).
  assert (Hk4 : links s4 !! k = Some (Link (Some main) None)).
  { cbn. rewrite lookup_insert_ne by done. apply lookup_insert_eq. }
  rewrite (M_bind_ok _ _ _ _ _ (upd_link_ok _ _ _ _ Hk4)). set (s5 := set_links _ s4).
  eexists. split; [reflexivity|]. split; [|done]. exists h, (ws ++ [(k, main)]).
  split; [done|]. split; [by rewrite last_link_snoc|]. split; [|split; [|split]].
  - eapply linked_snoc; [exact Hl|done|done|exact Hx| | |].
    + cbn. rewrite lookup_insert_ne by done. apply lookup_insert_eq.
    + apply lookup_insert_eq.
    + intros j Hj Hjl. cbn. rewrite !lookup_insert_ne by set_solver. done.
  - by rewrite map_app, HW.
  - rewrite map_app, app_comm_cons. apply NoDup_app. split; [done|]. split; [|apply NoDup_singleton].
    cbn. intros j Hj ->%list_elem_of_singleton. done.
  - rewrite map_app, app_comm_cons. apply Forall_app. split.
    + eapply Forall_impl; [exact Hlt|]. cbn. lia.
    + apply Forall_singleton. cbn. unfold k. lia.
Qed.

Lemma init_links_ok E s :
  alloc_ok E -> exists s', init_links E s = Ok (tt, s') /\ waits s' []
    /\ b_st s' = bump_alloc (b_st s) /\ batch s' = batch s /\ submit_batch s' = submit_batch s
    /\ before_time s' = before_time s.
Proof.
  intros HE. unfold init_links, new_link.
  rewrite M_bind_assoc, (M_bind_ok _ _ _ _ _ (on_st_ok _ _ _ _ (alloc_run E _ HE))).
  erewrite M_bind_ok by reflexivity. erewrite M_bind_ok.
  2: { unfold upd_link, load_link, mbind, M_bind, lift_opt, mret, M_ret, get. cbn -[insert lookup].
       by rewrite lookup_insert_eq. }
  eexists. split; [reflexivity|]. split; [|done]. exists (next_loc (b_st s)), [].
  do 2 (split; [done|]). split; [by eexists; apply lookup_insert_eq|]. split; [done|].
  split; [apply NoDup_singleton|]. apply Forall_singleton. cbn. lia.
Qed.

(** The first task leaves the list. *)
Lemma dequeue_ok s main W :
  waits s (main :: W) ->
  exists m k, dequeue s = Ok (main, set_link_tail k (set_links (fun _ => m) s))
    /\ waits (set_link_tail k (set_links (fun _ => m) s)) W.
Proof.
  intros (h & ws & Hh & Ht & Hl & HW & Hnd & Hlt). destruct ws as [|[k1 t1] ws]; [done|].
  injection HW as -> HW. pose proof Hl as ((x & Hx & Hxn) & (y & Hy & Hyt & Hyn) & Hl').
  assert (Hne : h <> k1) by (cbn in Hnd; rewrite NoDup_cons in Hnd; set_solver).
  assert (Hnext : exists next, k_next y = Some next /\ (next = None <-> ws = [])).
  { destruct ws as [|[k2 t2] ws]; [exists None; split; [by apply Hyn|done]|].
    destruct Hl' as ((z & Hz & Hzn) & _). simplify_eq. by exists (Some k2). }
  destruct Hnext as (next & Hnx & Hend).
  exists (<[h := with_next next x]> (links s)), (if bool_decide (next = None) then Some h else link_tail s).
  split.
  - unfold dequeue. erewrite M_bind_ok by reflexivity. rewrite Hh.
    rewrite (M_bind_ok _ _ _ _ _ (load_link_ok _ _ _ Hx)), Hxn.
    erewrite M_bind_ok by reflexivity. erewrite M_bind_ok.
    2: { rewrite (M_bind_ok _ _ _ _ _ (load_link_ok _ _ _ Hy)), Hnx. erewrite M_bind_ok by reflexivity.
         rewrite (M_bind_ok _ _ _ _ _ (upd_link_ok _ _ _ _ Hx)).
         instantiate (1 := set_link_tail (if bool_decide (next = None) then Some h else link_tail s)
           (set_links <[h := with_next next x]> s)).
         instantiate (1 := tt). by case_bool_decide; destruct s. }
    erewrite M_bind_ok by (apply load_link_ok; cbn; by rewrite lookup_insert_ne). by rewrite Hyt.
  - exists h, ws. split; [done|]. split; [|split; [|split; [done|split]]].
    + cbn. case_bool_decide as Hn; [by rewrite (proj1 Hend Hn)|]. destruct ws as [|[? ?] ?]; [by destruct Hn; apply Hend|done].
    + eapply linked_pop; [exact Hl|done|exact Hy| |].
      * eexists. split; [apply lookup_insert_eq|done].
      * intros j Hj. cbn. by rewrite lookup_insert_ne.
    + cbn in Hnd. rewrite NoDup_cons in *. cbn in *. rewrite NoDup_cons in Hnd. set_solver.
    + cbn in *. rewrite !Forall_cons in *. tauto.
Qed.

(** ** The period *)

Section Pace.
Context (B : bconfig) (clock : nat -> timespec).

(** The period of a batch in nanoseconds. *)
Definition period : Z := NSEC / io_num_per_second B * batch_size B.

Record paced : Prop := {
  pc_rate : 0 < io_num_per_second B < 2 ^ 31;
  pc_batch : 0 < batch_size B < 2 ^ 31;
  pc_clock : forall n, ts_norm (clock n) }.

(** Whether the period has passed at a time. *)
Definition due (s : bst) (t : timespec) : Prop := ns_of (before_time s) + period <= ns_of t.

#[global] Instance due_dec s t : Decision (due s t).
Proof. unfold due. apply _. Defined.

Lemma judge_if_send_ok s :
  paced -> ts_norm (before_time s) ->
  let t := clock (n_clock s) in
  judge_if_send B clock s = Ok (bool_decide (due s t),
    bump_clock (if bool_decide (due s t) then set_before t s else s)).
Proof.
  intros [Hr Hb Hc] Hs t. unfold judge_if_send. rewrite !s32_small by lia.
  destruct (timespec_divide_floor (Timespec 1 0) (io_num_per_second B)) as (p & Hp & Hpn & Hpv).
  { by unfold ts_norm; cbn. }
  { lia. }
  erewrite M_bind_ok by (unfold lift_res; rewrite Hp; reflexivity). cbn beta iota.
  assert (Hpb : ns_of p <= NSEC).
  { rewrite Hpv. apply Z.div_le_upper_bound; [lia|]. unfold ns_of, NSEC; cbn. lia. }
  destruct (timespec_multiply_correct p (batch_size B)) as (q & Hq & Hqn & Hqv).
  { done. }
  { lia. }
  { assert (0 <= tv_sec p <= 1) by (unfold ts_norm, ns_of, NSEC in *; lia). nia. }
  erewrite M_bind_ok by (unfold lift_res; rewrite Hq; reflexivity). cbn beta iota.
  erewrite M_bind_ok by reflexivity. erewrite M_bind_ok by reflexivity. cbn [before_time bump_clock].
  fold t. pose proof (Hc (n_clock s)) as Ht. fold t in Ht. destruct Ht as [Htn Hts], Hs as [Hsn Hss].
  destruct (timespec_sub_correct t (before_time s)) as (rc & d & Hd & Hdn & Hdv & _); [done|done|lia|lia|].
  erewrite M_bind_ok by (unfold lift_res; rewrite Hd; reflexivity). cbn beta iota.
  assert (Hqv' : ns_of q = period).
  { rewrite Hqv, Hpv. unfold period. f_equal. }
  destruct (timespec_sub_correct d q) as (rc2 & d2 & Hd2 & _ & _ & Hrc); [done|done| | |].
  { unfold ns_of, NSEC in *. lia. }
  { assert (0 <= ns_of q <= NSEC * 2 ^ 31) by (destruct Hpn; unfold ns_of, NSEC in *; nia).
    unfold ns_of, NSEC in *. lia. }
  erewrite M_bind_ok by (unfold lift_res; rewrite Hd2; reflexivity). cbn beta iota.
  assert (Hrc' : rc2 = if bool_decide (due s t) then 0 else -1).
  { rewrite Hrc. unfold due. repeat case_bool_decide; lia. }
  rewrite Hrc'. by destruct (bool_decide (due s t)).
Qed.

(** The busy wait ends at the first reading after the period. *)
Lemma wait_send_ok W s :
  paced -> ts_norm (before_time s) ->
  (exists k, (k < W)%nat /\ due s (clock (n_clock s + k))) ->
  exists t n, wait_send B clock W s = Ok (tt, Bst (b_st s) (links s) (link_head s) (link_tail s)
      (batch s) (submit_batch s) t n) /\ due s t /\ ts_norm t.
Proof.
  intros HP. revert s. induction W as [|W IH]; intros s Hs (k & Hk & Hd); [lia|]. cbn [wait_send].
  rewrite (M_bind_ok _ _ _ _ _ (judge_if_send_ok s HP Hs)). case_bool_decide as Hn.
  - eexists _, _. split; [reflexivity|]. split; [done|apply HP].
  - destruct k as [|k]; [by rewrite Nat.add_0_r in Hd|].
    destruct (IH (bump_clock s) Hs) as (t & n & Hr & Ht); [|by eauto].
    exists k. split; [lia|]. cbn. by replace (S (n_clock s + k)) with (n_clock s + S k)%nat by lia.
Qed.
End Pace.
