(* ===== verification/PerfRepBatchSafety.v ===== *)
(** * A batched worker follows its abstract machine

    The machine keeps the groups that wait, in order, those with outstanding
    replicas, the outstanding tasks, and the two counters of rounds. *)

From S2P Require Import Prelude LatencyLog Tailq PerfRep PerfRepLemmas PerfRepSafety PerfRepBuild PerfRepBatch.
From S2P Require Import PerfRepBatchLemmas.

(** ** The abstract machine *)

Record bspec := BSpec {
  waiting : list (loc * list loc);
  active : list (loc * list loc);
  out : list loc;
  rounds_done : Z;
  rounds_sent : Z }.

(** A completion removes the task; a group without outstanding tasks goes to the
    end of the queue. *)
Definition a_complete (t : loc) (a : bspec) : option bspec :=
  if bool_decide (t ∈ out a) then
    let P := filter (fun x => x <> t) (out a) in
    '(i, g) ← list_find (fun g => t ∈ g.2) (active a);
    Some (if bool_decide (outstanding g.2 P = [])
          then BSpec (waiting a ++ [g]) (delete i (active a)) P (rounds_done a + 1) (rounds_sent a)
          else BSpec (waiting a) (active a) P (rounds_done a) (rounds_sent a))
  else None.

(** One group from the front of the queue becomes active. *)
Definition a_send_one (a : bspec) : option bspec :=
  match waiting a with
  | [] => None
  | g :: W => Some (BSpec W (g :: active a) (g.2 ++ out a) (rounds_done a) (rounds_sent a + 1))
  end.

Fixpoint a_send_loop (n : nat) (a : bspec) : option bspec :=
  match n with
  | O => Some a
  | S n' => b ← a_send_one a; a_send_loop n' b
  end.

(** A batch is filled; when as many rounds have completed, the next one starts. *)
Definition a_send (size : Z) (a : bspec) : option bspec :=
  b ← a_send_loop (Z.to_nat (size - rounds_sent a)) a;
  Some (if size <=? rounds_done b then BSpec (waiting b) (active b) (out b) 0 0 else b).

(** ** The relation *)

#[export] Instance core_perm G : Proper ((≡ₚ) ==> (=) ==> impl) (core G).
Proof.
  intros gs gs' Hp s _ <- [C1 C2 C3 C4 C5]. constructor; [done|..].
  - intros main l. rewrite <- Hp. eauto.
  - intros main l. rewrite <- Hp. eauto.
  - rewrite <- flat_map_concat_map in *. by rewrite <- Hp.
  - intros main l. rewrite <- Hp. eauto.
Qed.

Lemma counters_perm gs P Q s : P ≡ₚ Q -> counters gs P s -> counters gs Q s.
Proof.
  intros HPQ [D1 D2 D3 D4]. constructor.
  - by rewrite <- HPQ.
  - intros t. rewrite <- HPQ. auto.
  - intros main l x Hin Hx. destruct (D3 main l x Hin Hx) as [Hne ->].
    pose proof (outstanding_perm l _ _ HPQ) as Hp. split.
    + intros Hnil. apply Hne. apply Permutation_nil_r. by rewrite <- Hnil.
    + by rewrite (Permutation_length Hp).
  - intros n c Hc. destruct (D4 n c Hc) as [Hd ->]. split; [done|]. unfold cnt_ns. by rewrite HPQ.
Qed.

Section Sim.
Context (E : env) (G : config) (F : nat) (B : bconfig) (clock : nat -> timespec).
Context (HE : env_ok E) (HA : alloc_ok E) (HG : running G) (HF : g_rep_num G <= Z.of_nat F).
Context (HP : paced B clock).

Record binv (s : bst) (a : bspec) : Prop := {
  bi_core : core G (waiting a ++ active a) (b_st s);
  bi_cnt : counters (active a) (out a) (b_st s);
  bi_zero : forall main l x, (main, l) ∈ waiting a -> tasks (b_st s) !! main = Some x ->
    rep_completed_num x = 0;
  bi_waits : waits s (map fst (waiting a));
  bi_done : batch s = rounds_done a;
  bi_sent : submit_batch s = rounds_sent a;
  bi_sum : Z.of_nat (length (active a)) + rounds_done a = rounds_sent a;
  bi_range : 0 <= rounds_done a /\ rounds_sent a <= batch_size B;
  bi_before : ts_norm (before_time s) }.

(** The namespaces keep what a command depends on. *)
Definition same_entries (s s' : bst) : Prop :=
  forall k, strip <$> entries (b_st s') !! k = strip <$> entries (b_st s) !! k.

Lemma on_st_bind {X Y} (m : M st X) (k : X -> M st Y) s :
  mbind (fun a => on_st (k a)) (on_st m) s = on_st (mbind k m) s.
Proof.
  unfold mbind, M_bind, on_st. by destruct (m (b_st s)) as [[x s1]| | |].
Qed.

Lemma core_len s gs main l : core G gs s -> (main, l) ∈ gs -> (length l <= F)%nat.
Proof. intros C Hin. pose proof (co_rep _ _ _ C _ _ Hin). lia. Qed.

Lemma core_bump gs s : core G gs s -> core G gs (bump_alloc s).
Proof.
  intros [C1 C2 C3 C4 C5]. constructor; try done.
  - destruct C1. by constructor.
  - intros main l Hin. destruct (C3 main l Hin) as [vs [H1 H2 H3]]. exists vs. constructor; [done|done|].
    intros t Ht. destruct (H3 t Ht) as (x & Hx & Hm & []). exists x. do 2 (split; [done|]). by constructor.
Qed.

Lemma counters_bump gs P s : counters gs P s -> counters gs P (bump_alloc s).
Proof. intros [D1 D2 D3 D4]. by constructor. Qed.

Lemma main_in_concat (gs : list (loc * list loc)) main l t :
  (main, l) ∈ gs -> t ∈ l -> t ∈ concat (map snd gs).
Proof.
  intros Hi Ht. apply list_elem_of_In, in_concat. exists l. split; [|by apply list_elem_of_In].
  apply in_map_iff. exists (main, l). by split; [|apply list_elem_of_In].
Qed.

(** What the other groups keep when a group is taken out. *)
Lemma counters_remove A A' P s gs main l :
  core G gs s -> A ⊆ gs -> NoDup (concat (map snd A)) -> A ≡ₚ (main, l) :: A' -> NoDup P ->
  (forall t, t ∈ P -> exists main l, (main, l) ∈ A /\ t ∈ l) -> outstanding l P = [] ->
  ns_depths (cnt_ns (tasks s) P) s -> others_done A main P s -> counters A' P s.
Proof.
  intros C Hsub Hnd HA' Hn Hin Ho Hns Hoth. constructor; [done| | |done].
  - intros t Ht. destruct (Hin t Ht) as (m' & l' & Hi & Hl). exists m', l'. split; [|done].
    rewrite HA' in Hi. apply elem_of_cons in Hi as [[= -> ->]|Hi]; [|done].
    by destruct (proj1 (outstanding_nil l P) Ho t Ht).
  - intros m' l' x Hi Hx. apply (Hoth m' l' x); [rewrite HA'; set_solver| |done]. intros ->.
    assert (Hl : (main, l) ∈ A) by (rewrite HA'; set_solver).
    assert (Hl' : (main, l') ∈ A) by (rewrite HA'; set_solver).
    assert (l' = l) as -> by (eapply group_unique; [exact C|apply Hsub|apply Hsub]; done).
    destruct (co_groups _ _ _ C _ _ (Hsub _ Hl)) as [vs Hg]. pose proof (gr_main _ _ _ _ Hg) as Hm.
    rewrite <- flat_map_concat_map, HA', flat_map_concat_map in Hnd. cbn in Hnd.
    apply NoDup_app in Hnd as (_ & Hd & _). apply (Hd main Hm).
    by eapply main_in_concat.
Qed.

Lemma active_nodup s gs A W : core G gs s -> gs = W ++ A -> NoDup (concat (map snd A)).
Proof.
  intros C ->. pose proof (co_disj _ _ _ C) as H. rewrite map_app, concat_app in H.
  by apply NoDup_app in H as (_ & _ & ?).
Qed.

(** A waiting group is not active. *)
Lemma waiting_active s W A main l l' : core G (W ++ A) s -> (main, l) ∈ W -> (main, l') ∈ A -> False.
Proof.
  intros C H1 H2.
  assert (l' = l) as -> by (apply (group_unique _ _ _ main l l' C); set_solver).
  destruct (co_groups _ _ _ C main l ltac:(set_solver)) as [vs Hg]. pose proof (gr_main _ _ _ _ Hg) as Hm.
  pose proof (co_disj _ _ _ C) as Hnd. rewrite map_app, concat_app in Hnd.
  apply NoDup_app in Hnd as (_ & Hd & _).
  eapply Hd; by eapply main_in_concat.
Qed.

(** A completion. *)
Lemma complete_sim s a t r :
  binv s a -> t ∈ out a -> r <> CplInvalidNs \/ g_continue_on_error G = true ->
  0 < io_num_per_second B ->
  exists s' a', b_io_complete E G F B t r s = Ok (tt, s') /\ a_complete t a = Some a' /\ binv s' a'
    /\ io_log (b_st s') = io_log (b_st s) /\ before_time s' = before_time s
    /\ submit_batch s' = submit_batch s /\ same_entries s s'.
Proof.
  intros [C D Hz Hw Hd Hs Hsum Hr Hb] Ht Hrc Hrate.
  pose proof (counters_perm _ _ _ _ (remove_perm t _ (ct_nodup _ _ _ D) Ht) D) as D'.
  destruct (ct_in _ _ _ D t Ht) as (main0 & l0 & Hin0 & Hl0).
  unfold a_complete. rewrite bool_decide_true by done. set (P := filter _ (out a)) in *.
  destruct (list_find_elem_of (fun g => t ∈ g.2) (active a) (main0, l0) Hin0 Hl0) as [[i [main l]] Hf].
  rewrite Hf. cbn [mbind option_bind snd]. apply list_find_Some in Hf as (Hi & Hl & _). cbn in Hl.
  pose proof (list_elem_of_lookup_2 _ _ _ Hi) as Hin. clear main0 l0 Hin0 Hl0.
  assert (HAs : active a ⊆ waiting a ++ active a) by set_solver.
  pose proof (core_len _ _ _ _ C (HAs _ Hin)) as HlF.
  unfold b_io_complete, b_task_complete. rewrite <- M_bind_assoc.
  assert (Hpre : forall x s1, complete E G F t r (b_st s) = Ok (x, s1) ->
    mbind (fun _ : unit => on_st (group_done E G F t)) (on_st (io_status G t r)) s = Ok (x, set_b_st s1 s)).
  { intros x s1 H. rewrite (on_st_bind (io_status G t r) (fun _ => group_done E G F t)). by apply on_st_ok. }
  assert (HPn : NoDup P) by (apply NoDup_filter; apply D).
  assert (HPin : forall t', t' ∈ P -> exists main l, (main, l) ∈ active a /\ t' ∈ l).
  { intros t' [_ Ht']%list_elem_of_filter. by apply (ct_in _ _ _ D). }
  assert (Hzero : forall s1, (forall t', t' ∉ l -> tasks s1 !! t' = tasks (b_st s) !! t') ->
    forall main' l' x, (main', l') ∈ waiting a -> tasks s1 !! main' = Some x -> rep_completed_num x = 0).
  { intros s1 Hk main' l' x Hi' Hx. rewrite Hk in Hx; [by eapply Hz|].
    apply (main_not_in G (waiting a ++ active a) (b_st s) main l main' l'); [done|set_solver|set_solver|].
    intros ->. by eapply waiting_active. }
  case_bool_decide as Ho.
  - destruct (complete_last E G F _ _ HG HAs P (b_st s) main l t r C D' Hin Hl HlF Hrc Ho)
      as (s1 & m & Hc & C1 & Hm & Hm0 & Hns & Hoth & Hlog & Hh & Hk).
    rewrite (M_bind_ok _ _ _ _ _ (Hpre _ _ Hc)). rewrite (proj2 (Z.eqb_neq _ _)) by lia.
    destruct (enqueue_ok E (set_b_st s1 s) (map fst (waiting a)) main HA)
      as (s2 & Hq & Hw2 & Hst & Hb2 & Hs2 & Hbf & _).
    { apply (waits_mono s); [done..| |exact Hw]. cbn. by rewrite (sh_next _ _ Hh). }
    rewrite (M_bind_ok _ _ _ _ _ Hq). eexists _, _. split; [reflexivity|]. split; [reflexivity|].
    cbn in Hst, Hb2, Hs2, Hbf. pose proof (delete_Permutation _ _ _ Hi) as Hdel.
    pose proof (Permutation_length Hdel) as Hlen. cbn in Hlen.
    assert (Hbn : rounds_done a + 1 < 2 ^ 32) by (destruct HP; lia).
    split; [|unfold same_entries; cbn; rewrite Hst, Hbf, Hs2; split_and!; try done; exact (sh_entries _ _ Hh)].
    constructor; cbn; rewrite ?Hst, ?Hb2, ?Hs2, ?Hbf, ?Hd, ?Hs; try done; try lia.
    + apply core_bump. eapply core_perm; [|reflexivity|exact C1].
      rewrite Hdel at 1. rewrite <- app_assoc. done.
    + apply counters_bump.
      eapply counters_remove; [exact C1|exact HAs|by eapply active_nodup|exact Hdel|done..].
    + intros main' l' x [Hi'|[= -> ->]%list_elem_of_singleton]%elem_of_app Hx; [|cbn in Hx; congruence].
      by eapply (Hzero s1).
    + rewrite map_app. apply (waits_mono s2); [done..| |exact Hw2]. done.
    + apply wrap_small. lia.
  - destruct (complete_wait E G F _ _ HG HAs P (b_st s) main l t r C D' Hin Hl Hrc Ho)
      as (s1 & Hc & C1 & D1 & Hlog & Hh & Hk).
    rewrite (M_bind_ok _ _ _ _ _ (Hpre _ _ Hc)). eexists _, _. split; [reflexivity|].
    split; [reflexivity|]. split; [|split_and!; try done; exact (sh_entries _ _ Hh)].
    constructor; try done; [by apply Hzero|]. cbn. apply (waits_mono s); [done..| |exact Hw].
    cbn. by rewrite (sh_next _ _ Hh).
Qed.

(** A group is sent. *)
Lemma send_one_sim s a :
  binv s a -> waiting a <> [] -> rounds_sent a < batch_size B ->
  exists s' a', send_one E G F s = Ok (tt, s') /\ a_send_one a = Some a' /\ binv s' a'
    /\ Z.of_nat (length (io_log (b_st s'))) = Z.of_nat (length (io_log (b_st s))) + g_rep_num G
    /\ before_time s' = before_time s /\ n_clock s' = n_clock s /\ same_entries s s'.
Proof.
  intros [C D Hz Hw Hd Hs Hsum Hr Hb] Hne Hlt. unfold a_send_one.
  destruct (waiting a) as [|[main l] W] eqn:EW; [done|]. cbn [map fst] in Hw.
  destruct (dequeue_ok s main _ Hw) as (m & k & Hq & Hw1). unfold send_one. rewrite (M_bind_ok _ _ _ _ _ Hq).
  set (s1 := set_link_tail k _) in *. set (A' := (main, l) :: active a).
  assert (HAs : A' ⊆ ((main, l) :: W) ++ active a) by set_solver.
  assert (Hin : (main, l) ∈ A') by set_solver.
  destruct (co_groups _ _ _ C _ _ (HAs _ Hin)) as [vs Hg].
  destruct (gr_tasks _ _ _ _ Hg main (gr_main _ _ _ _ Hg)) as (x & Hx & _).
  assert (Hout : forall t, t ∈ out a -> t ∉ l).
  { intros t Ht Hl. destruct (ct_in _ _ _ D t Ht) as (m' & l' & Hi & Hl').
    assert (H : (main, l) = (m', l')) by (apply (gs_disj _ _ _ _ _ t (co_disj _ _ _ C)); set_solver).
    injection H as <- <-. eapply (waiting_active _ _ _ main l l C); [set_solver|done]. }
  destruct (round_inv E G F (((main, l) :: W) ++ active a) A' HG HAs (out a) (b_st s) main l x)
    as (s2 & cmds & off & rd & Hsub & C2 & D2 & Hlog & Hcm & Hh & Hup & _); try done.
  - apply (core_len _ _ main l C). set_solver.
  - apply D.
  - intros t Ht. destruct (ct_in _ _ _ D t Ht) as (m' & l' & ? & ?). exists m', l'. set_solver.
  - apply (Hz main l x); [set_solver|done].
  - by apply outstanding_nil.
  - exact (ct_ns _ _ _ D).
  - intros m' l' x' [?|Hi]%elem_of_cons Hne'; [congruence|]. by apply (ct_done _ _ _ D).
  - rewrite (M_bind_ok _ _ _ _ _ (on_st_ok _ s1 _ _ Hsub)). eexists _, _. split; [reflexivity|].
    split; [reflexivity|].
    assert (Hbn : rounds_sent a + 1 < 2 ^ 32) by (destruct HP; lia).
    split; [constructor; cbn; rewrite ?Hd, ?Hs; try done; try lia|].
    + eapply core_perm; [|reflexivity|exact C2]. cbn. by rewrite Permutation_middle.
    + intros m' l' y Hi Hy. eapply Hz; [apply list_elem_of_further; exact Hi|]. rewrite <- Hy.
      symmetry. specialize (Hup m'). rewrite bool_decide_false in Hup; [done|].
      apply (main_not_in G (((main, l) :: W) ++ active a) (b_st s) main l m' l'); [done|set_solver..|].
      intros ->. assert (l' = l) as -> by (apply (group_unique _ _ _ main l l' C); set_solver).
      pose proof (co_disj _ _ _ C) as Hnd. cbn in Hnd. apply NoDup_app in Hnd as (_ & Hdj & _).
      apply (Hdj main (gr_main _ _ _ _ Hg)). apply (main_in_concat _ main l); [set_solver|apply Hg].
    + apply (waits_mono s1); [done..| |exact Hw1]. cbn. by rewrite (sh_next _ _ Hh).
    + apply wrap_small. lia.
    + split; [|split_and!; try done; exact (sh_entries _ _ Hh)]. cbn. rewrite Hlog, length_app, length_map, <- (Forall2_length _ _ _ Hcm).
      rewrite <- (co_rep _ _ _ C main l) by set_solver. lia.
Qed.

(** A batch is filled. *)
Lemma send_loop_sim n s a :
  binv s a -> batch_size B - rounds_sent a = Z.of_nat n -> (n <= length (waiting a))%nat ->
  exists s' a', send_loop E G F B n s = Ok (tt, s') /\ a_send_loop n a = Some a' /\ binv s' a'
    /\ rounds_sent a' = batch_size B /\ rounds_done a' = rounds_done a
    /\ waiting a' ++ active a' ≡ₚ waiting a ++ active a
    /\ Z.of_nat (length (io_log (b_st s'))) = Z.of_nat (length (io_log (b_st s))) + g_rep_num G * Z.of_nat n
    /\ before_time s' = before_time s /\ n_clock s' = n_clock s /\ same_entries s s'.
Proof.
  revert s a. induction n as [|n IH]; intros s a HI Hn Hw; cbn [send_loop a_send_loop];
    erewrite M_bind_ok by reflexivity; rewrite (bi_sent _ _ HI).
  - rewrite (proj2 (Z.ltb_ge _ _)) by lia. exists s, a. split_and!; try done; lia.
  - rewrite (proj2 (Z.ltb_lt _ _)) by lia.
    assert (Hne : waiting a <> []) by (intros H0; rewrite H0 in Hw; cbn in Hw; lia).
    destruct (send_one_sim s a HI Hne) as (s1 & a1 & H1 & Ha1 & HI1 & Hlog1 & Hb1 & Hc1 & He1); [lia|].
    rewrite (M_bind_ok _ _ _ _ _ H1), Ha1. cbn [mbind option_bind]. unfold a_send_one in Ha1.
    destruct (waiting a) as [|g W]; [done|]. injection Ha1 as <-. cbn [length] in Hw.
    destruct (IH s1 _ HI1) as (s2 & a2 & H2 & Ha2 & HI2 & Hs2 & Hd2 & Hl2 & Hlog2 & Hb2 & Hc2 & He2);
      cbn in *; [lia|lia|].
    exists s2, a2. rewrite H2, Ha2, Hl2, Hlog2, Hlog1, Hb2, Hc2. cbn. split_and!; try done; try lia.
    { by rewrite Permutation_middle. }
    intros j. by rewrite He2, He1.
Qed.

(** Between two iterations of the worker's loop a batch is full or not begun,
    and no group is lost. *)
Record steady (gs : list (loc * list loc)) (a : bspec) : Prop := {
  sy_groups : waiting a ++ active a ≡ₚ gs;
  sy_sent : rounds_sent a = 0 \/ rounds_sent a = batch_size B }.

Lemma complete_steady gs t a a' : a_complete t a = Some a' -> steady gs a -> steady gs a'.
Proof.
  unfold a_complete. intros H [H1 H2]. case_bool_decide; [|done].
  destruct (list_find _ (active a)) as [[i g]|] eqn:Hf; [|done]. cbn in H. injection H as <-.
  case_bool_decide; constructor; cbn; try done.
  apply list_find_Some in Hf as (Hi & _). rewrite <- H1, <- app_assoc. cbn.
  f_equiv. symmetry. by apply delete_Permutation.
Qed.

(** The added part of the loop: what it sends, and how far the time moves. *)
Lemma send_sim gs s a W :
  binv s a -> steady gs a -> batch_size B <= Z.of_nat (length gs) ->
  (batch_size B <= batch s -> exists k, (k < W)%nat /\ due B s (clock (n_clock s + k))) ->
  exists s' a', send_batch E G F B clock W s = Ok (tt, s') /\ a_send (batch_size B) a = Some a'
    /\ binv s' a' /\ steady gs a' /\ same_entries s s'
    /\ (let d := Z.of_nat (length (io_log (b_st s'))) - Z.of_nat (length (io_log (b_st s))) in
        let r := submit_batch s' - submit_batch s in
        d = g_rep_num G * r /\ before_time s' = before_time s
        \/ d = g_rep_num G * (batch_size B + r) /\ due B s (before_time s')).
Proof.
  intros HI [Hgs Hst] HB Hdue. pose proof HP as [Hrate Hbs _].
  pose proof (Permutation_length Hgs) as Hqd. rewrite length_app in Hqd. unfold send_batch, a_send.
  rewrite (proj2 (Z.ltb_lt _ _)) by lia.
  pose proof (bi_sum _ _ HI) as Hsum. pose proof (bi_range _ _ HI) as [Hr0 Hr1].
  set (n := Z.to_nat (batch_size B - rounds_sent a)).
  assert (Hloop : forall k, k = n \/ rounds_sent a = batch_size B ->
    send_loop E G F B k s = send_loop E G F B n s).
  { intros k [->|Hk]; [done|]. destruct k, n eqn:En; try done; cbn [send_loop];
      unfold mbind, M_bind, get; rewrite (bi_sent _ _ HI), (proj2 (Z.ltb_ge _ _)) by lia; done. }
  destruct (send_loop_sim n s a HI) as (s1 & a1 & H1 & Ha1 & HI1 & Hs1 & Hd1 & Hl1 & Hlog1 & Hb1 & Hc1 & He1);
    [lia|lia|].
  assert (Hk0 : Z.to_nat (batch_size B) = n \/ rounds_sent a = batch_size B) by (unfold n; lia).
  rewrite (M_bind_ok _ _ _ _ _ (eq_trans (Hloop _ Hk0) H1)), Ha1. cbn [mbind option_bind].
  erewrite M_bind_ok by reflexivity. rewrite (bi_done _ _ HI1).
  pose proof (bi_sum _ _ HI1) as Hsum1.
  destruct (Z.leb_spec (batch_size B) (rounds_done a1)) as [Hfull|Hpart].
  - rewrite (bi_done _ _ HI), <- Hd1 in Hdue. destruct (Hdue Hfull) as (k & Hk & Hkd).
    destruct (wait_send_ok B clock W (set_submit_batch 0 (set_batch 0 s1)) HP) as (t & c & Hwt & Ht & Htn).
    { apply HI1. }
    { exists k. cbn. unfold due in *. cbn. by rewrite Hb1, Hc1. }
    do 2 (erewrite M_bind_ok by reflexivity). rewrite Hwt. eexists _, _. split; [reflexivity|].
    split; [reflexivity|]. destruct HI1 as [C1 D1 Hz1 Hw1 _ _ _ _ _]. split; [|split; [|split; [done|right]]].
    + pose proof (Permutation_length Hl1) as Hl. rewrite !length_app in Hl.
      constructor; cbn; try done; try lia.
    + constructor; cbn; [by rewrite Hl1|by left].
    + cbn. unfold due in *. cbn in Ht. rewrite Hb1 in Ht. split; [|done].
      rewrite Hlog1, (bi_sent _ _ HI). lia.
  - exists s1, a1. split; [done|]. split; [done|]. split; [done|]. split; [constructor; [by rewrite Hl1|by right]|].
    split; [done|]. left. split; [|done]. rewrite Hlog1, (bi_sent _ _ HI1), (bi_sent _ _ HI), Hs1. lia.
Qed.
End Sim.
