(* ===== verification/PerfRepBatchTheorems.v ===== *)
(** * What the batched generator guarantees, and where it fails *)

From S2P Require Import Prelude LatencyLog Tailq PerfRep PerfRepLemmas PerfRepSafety PerfRepBuild PerfRepTheorems.
From S2P Require Import PerfRepBatch PerfRepBatchLemmas PerfRepBatchSafety.

(** ** Runs *)

Section Run.
Context (E : env) (G : config) (F : nat) (B : bconfig) (clock : nat -> timespec).

Definition a_exec (e : bevent) (a : bspec) : option bspec :=
  match e with
  | EvComplete t _ => a_complete t a
  | EvSend _ => a_send (batch_size B) a
  end.

Fixpoint a_execs (es : list bevent) (a : bspec) : option bspec :=
  match es with
  | [] => Some a
  | e :: es' => b ← a_exec e a; a_execs es' b
  end.

(** Only outstanding tasks complete, and without draining a namespace; when a
    batch has completed, the clock passes the period within the readings that
    the busy wait may take. *)
Definition b_allowed (s : bst) (a : bspec) (e : bevent) : Prop :=
  match e with
  | EvComplete t r => t ∈ out a /\ (r <> CplInvalidNs \/ g_continue_on_error G = true)
  | EvSend W => batch_size B <= batch s ->
      exists k, (k < W)%nat /\ due B s (clock (n_clock s + k))
  end.

Fixpoint b_alloweds (es : list bevent) (s : bst) (a : bspec) : Prop :=
  match es with
  | [] => True
  | e :: es' => b_allowed s a e /\
      forall s' a', b_exec E G F B clock e s = Ok (tt, s') -> a_exec e a = Some a' -> b_alloweds es' s' a'
  end.

Lemma alloweds_app es1 es2 : forall s a,
  b_alloweds (es1 ++ es2) s a -> b_alloweds es1 s a /\
    forall s' a', b_execs E G F B clock es1 s = Ok (tt, s') -> a_execs es1 a = Some a' -> b_alloweds es2 s' a'.
Proof.
  induction es1 as [|e es1 IH]; intros s a; cbn.
  - intros H. split; [done|]. intros s' a' [= <-] [= <-]. done.
  - intros [Ha Hn]. split.
    + split; [done|]. intros s' a' H1 H2. by apply (IH s' a'), Hn.
    + intros s' a' (u & s1 & H1 & H2)%M_bind_inv Ha'. destruct u.
      destruct (a_exec e a) as [a1|] eqn:Ha1; [|done]. cbn in Ha'. by apply (IH s1 a1); [apply Hn|..].
Qed.

Context (HE : env_ok E) (HA : alloc_ok E) (HG : running G) (HF : g_rep_num G <= Z.of_nat F).
Context (HP : paced B clock).

(** [spent]: commands sent, less those of the current batch, on the scale of
    time. *)
Definition spent (s : bst) : Z :=
  (Z.of_nat (length (io_log (b_st s))) - g_rep_num G * submit_batch s)
    * (NSEC / io_num_per_second B) - g_rep_num G * ns_of (before_time s).

Lemma step_sim gs s a e :
  binv G B s a -> steady B gs a -> batch_size B <= Z.of_nat (length gs) -> b_allowed s a e ->
  exists s' a', b_exec E G F B clock e s = Ok (tt, s') /\ a_exec e a = Some a' /\ binv G B s' a'
    /\ steady B gs a' /\ same_entries s s' /\ spent s' <= spent s.
Proof.
  intros HI Hst HB Ha. destruct HG as [_ HR]. destruct HP as [Hr Hb Hc]. destruct e as [t r|W]; cbn [b_allowed] in Ha.
  - destruct Ha as [Ht Hrc].
    destruct (complete_sim E G F B clock HE HA HG HF HP s a t r HI Ht Hrc) as (s' & a' & H1 & H2 & H3 & Hl & Hbf & Hs & He);
      [lia|].
    exists s', a'. split; [done|]. split; [done|]. split; [done|]. split; [by eapply complete_steady|]. split; [done|].
    unfold spent. rewrite Hl, Hbf, Hs. done.
  - destruct (send_sim E G F B clock HE HA HG HF HP gs s a W HI Hst HB Ha)
      as (s' & a' & H1 & H2 & H3 & H4 & He & Hv). exists s', a'. do 5 (split; [done|]).
    unfold spent, due, period in *. cbn zeta in Hv. destruct Hv as [[Hd Hbf]|[Hd Hdue]].
    + rewrite Hbf. nia.
    + nia.
Qed.

Lemma run_sim gs es : forall s a,
  binv G B s a -> steady B gs a -> batch_size B <= Z.of_nat (length gs) -> b_alloweds es s a ->
  exists s' a', b_execs E G F B clock es s = Ok (tt, s') /\ a_execs es a = Some a' /\ binv G B s' a'
    /\ steady B gs a' /\ same_entries s s' /\ spent s' <= spent s.
Proof.
  induction es as [|e es IH]; intros s a HI Hst HB Ha; cbn.
  - exists s, a. by split_and!.
  - destruct Ha as [Ha Hn]. destruct (step_sim gs s a e HI Hst HB Ha) as (s1 & a1 & H1 & Ha1 & HI1 & Hst1 & He1 & Hsp1).
    destruct (IH s1 a1 HI1 Hst1 HB (Hn _ _ H1 Ha1)) as (s2 & a2 & H2 & Ha2 & HI2 & Hst2 & He2 & Hsp2).
    exists s2, a2. rewrite (M_bind_ok _ _ _ _ _ H1), Ha1. cbn. split_and!; try done; [|lia].
    intros k. by rewrite He2, He1.
Qed.

(** ** The start *)

Record b_init (s : bst) : Prop := {
  in_worker : init_worker G (b_st s);
  in_batch : batch s = 0;
  in_submit : submit_batch s = 0;
  in_before : ts_norm (before_time s) }.

Lemma workers_bump s : workers_ok s -> workers_ok (bump_alloc s).
Proof. done. Qed.

(** Each group that is built waits at the end of the list. *)
Lemma build_sim (HPay : payload_ok G) qd : forall id gs s,
  binv G B s (BSpec gs [] [] 0 0) -> fresh (b_st s) -> workers_ok (b_st s) ->
  Z.of_nat (length (worker_ns_ctx (b_st s))) = g_rep_num G ->
  exists gs' s', b_submit_io_rep E G F B qd id s = Ok (tt, s') /\ length gs' = qd
    /\ binv G B s' (BSpec (gs ++ gs') [] [] 0 0)
    /\ (forall k, strip <$> entries (b_st s') !! k = strip <$> entries (b_st s) !! k).
Proof.
  induction qd as [|qd IH]; intros id gs s HI Hf Hw Hlen.
  { exists [], s. by rewrite app_nil_r. }
  pose proof HP as [Hrate _ _]. destruct HG as [_ HR]. cbn [b_submit_io_rep]. erewrite M_bind_ok by reflexivity.
  destruct (worker_ns_ctx (b_st s)) as [|n ns] eqn:Ens; [cbn in Hlen; lia|].
  destruct (make_group_ok E G (b_st s) n ns id HA HPay Hf) as (main & l & vs & buf & s1 & Hg & Hst & Hin & Hcov & _).
  rewrite (M_bind_ok _ _ _ _ _ (on_st_ok _ s _ _ Hg)). rewrite (proj2 (Z.eqb_neq _ _)) by lia.
  assert (Hvs : vs <> []) by (eapply covers_nonempty; [exact Hcov|apply HPay]).
  destruct HI as [C D Hz Hwt Hd Hs Hsum Hr Hb]. cbn in *. rewrite app_nil_r in C.
  assert (C1 : core G (gs ++ [(main, l)]) s1).
  { eapply core_add; [exact Hf|exact C|exact Hw|exact Hst|done|done| |].
    - rewrite Ens. destruct (g_send_main_rep_finally G); set_solver.
    - rewrite <- Hlen. destruct (g_send_main_rep_finally G); [|done]. rewrite length_app. cbn. lia. }
  destruct Hst as [E1 E2 E3 E4 E5 E6 E7 E8]. destruct E5 as (m & Hm & _ & _ & _ & Hrep & _).
  destruct (enqueue_ok E (set_b_st s1 s) (map fst gs) main HA) as (s2 & Hq & Hw2 & Hst2 & Hb2 & Hs2 & Hbf & _).
  { apply (waits_mono s); [done..| |exact Hwt]. cbn. apply E1. }
  rewrite (M_bind_ok _ _ _ _ _ Hq). cbn in Hst2, Hb2, Hs2, Hbf.
  destruct (IH (u32 (id + 1)) (gs ++ [(main, l)]) s2) as (gs' & s' & H' & Hl' & HI' & He').
  - constructor; cbn; rewrite ?Hst2, ?Hb2, ?Hs2, ?Hbf; try done.
    + rewrite app_nil_r. by apply core_bump.
    + apply counters_bump. destruct D as [D1 D2 D3 D4]. constructor; try done; [set_solver|].
      intros k c. rewrite (ex_ns _ _ _ E1). apply D4.
    + intros m' l' x [Hi|[= -> ->]%list_elem_of_singleton]%elem_of_app Hx; [|cbn in Hx; congruence].
      eapply Hz; [exact Hi|]. rewrite <- Hx. symmetry. apply (ex_tasks _ _ _ E1).
      destruct (co_groups _ _ _ C _ _ Hi) as [vs' Hg']. by eapply fresh_node_lt; [|apply Hg'|apply Hg'].
    + by rewrite map_app.
  - rewrite Hst2. by apply fresh_bump.
  - rewrite Hst2. intros k. cbn. rewrite (ex_workers _ _ _ E1), (ex_ns _ _ _ E1), (ex_entries _ _ _ E1). apply Hw.
  - rewrite Hst2. cbn. by rewrite (ex_workers _ _ _ E1), Ens.
  - exists ((main, l) :: gs'), s'. rewrite <- app_assoc in HI'. split; [done|]. split; [cbn; by rewrite Hl'|].
    split; [done|]. intros k. rewrite He', Hst2. cbn. by rewrite (ex_entries _ _ _ E1).
Qed.

Lemma start_sim qd s :
  payload_ok G -> b_init s ->
  exists gs s1, b_start E G F B qd s = Ok (tt, s1) /\ length gs = qd
    /\ binv G B s1 (BSpec gs [] [] 0 0) /\ steady B gs (BSpec gs [] [] 0 0)
    /\ (forall k, strip <$> entries (b_st s1) !! k = strip <$> entries (b_st s) !! k).
Proof.
  intros HPay [Hi Hb0 Hs0 Hbf0]. destruct (init_links_ok E s HA) as (s0 & H0 & Hw & Hst & Hb & Hs & Hbf).
  destruct Hi as [Hen Hfr Hwk Hlen Hns]. pose proof HP as [_ Hbs _].
  destruct (build_sim HPay qd 1 [] s0) as (gs & s1 & H1 & Hl & HI & He).
  - assert (Hinv : inv G [] [] (b_st s)).
    { by apply init_inv. }
    destruct Hinv as [C D]. constructor; cbn; rewrite ?Hst, ?Hb, ?Hs, ?Hbf; try done; try lia.
    + by apply core_bump.
    + by apply counters_bump.
    + intros ???. set_solver.
  - rewrite Hst. by apply fresh_bump.
  - by rewrite Hst.
  - by rewrite Hst.
  - exists gs, s1. unfold b_start. rewrite (M_bind_ok _ _ _ _ _ H0). split; [done|]. split; [done|].
    split; [done|]. split; [constructor; cbn; [by rewrite app_nil_r|by left]|].
    intros k. by rewrite He, Hst.
Qed.
End Run.

(** ** The guarantees *)

(** C11: a batched worker whose batches are not larger than its queue depth, whose
    submissions, allocations and protection information calls succeed, with a rate
    and a batch size below 2^31, no limit on the number of I/Os, no draining, the
    same number of blocks per I/O in all namespaces, completions for an invalid
    namespace only when errors are to be ignored, one namespace per replica, a
    payload of less than 2^31 bytes, and a clock that passes the
    period of a batch while the worker waits for it, runs without undefined
    behaviour and follows the machine of waiting and active groups, for every
    interleaving of completions and iterations of its loop; no group is lost, and
    the replicas of a group receive the same commands.  A batch larger than the
    queue depth is undefined behaviour: [batch_larger_than_queue]. *)
Theorem batched_run_safe E G F B clock qd s bs :
  env_ok E -> alloc_ok E -> payload_ok G -> running G -> g_rep_num G <= Z.of_nat F ->
  paced B clock -> batch_size B <= Z.of_nat qd -> b_init G s ->
  (forall k e, entries (b_st s) !! k = Some e -> io_size_blocks e = bs) ->
  exists gs s1, b_start E G F B qd s = Ok (tt, s1) /\ length gs = qd
    /\ forall es, b_alloweds E G F B clock es s1 (BSpec gs [] [] 0 0) ->
      exists s2 a2, b_execs E G F B clock es s1 = Ok (tt, s2)
        /\ a_execs B es (BSpec gs [] [] 0 0) = Some a2 /\ binv G B s2 a2
        /\ waiting a2 ++ active a2 ≡ₚ gs
        /\ forall main l t1 t2, (main, l) ∈ gs -> t1 ∈ l -> t2 ∈ l ->
           map io_of (cmds_of t1 (io_log (b_st s2))) = map io_of (cmds_of t2 (io_log (b_st s2))).
Proof.
  intros HE HA HPay HG HF HP HB Hi Hbs.
  destruct (start_sim E G F B clock HE HA HG HF HP qd s HPay Hi) as (gs & s1 & H1 & Hl & HI & Hst & He).
  exists gs, s1. split; [done|]. split; [done|]. intros es Ha.
  destruct (run_sim E G F B clock HE HA HG HF HP gs es s1 _ HI Hst ltac:(lia) Ha)
    as (s2 & a2 & H2 & Ha2 & HI2 & Hst2 & He2 & _).
  exists s2, a2. do 3 (split; [done|]). split; [apply Hst2|]. intros main l t1 t2 Hin Ht1 Ht2.
  apply (replica_logs_agree G (waiting a2 ++ active a2) (b_st s2) main l t1 t2 bs);
    [apply HI2|by rewrite (sy_groups _ _ _ Hst2)|done|done|].
  intros k e Hk. pose proof (He2 k) as Hs. rewrite Hk, He in Hs. cbn in Hs.
  destruct (entries (b_st s) !! k) as [e0|] eqn:Hk0; [|done]. cbn in Hs. apply (inj Some) in Hs.
  rewrite <- (Hbs _ _ Hk0). change (io_size_blocks (strip e) = io_size_blocks (strip e0)). by rewrite Hs.
Qed.

(** What a period of floor(10^9 / rate) nanoseconds means for the rate. *)
Lemma rate_of_period over rate allowed :
  0 < rate -> over * (NSEC / rate) <= allowed -> 0 <= over -> rate <= NSEC ->
  over * (NSEC - rate + 1) <= rate * allowed.
Proof.
  intros Hr Hb Ho _. pose proof (Z.div_mod NSEC rate ltac:(lia)) as Hd.
  pose proof (Z.mod_pos_bound NSEC rate Hr). set (p := NSEC / rate) in *. set (m := NSEC mod rate) in *.
  assert (NSEC - rate + 1 <= rate * p) by lia. nia.
Qed.

(** C22: the rate is limited, for a worker whose submissions and allocations
    succeed, whose batches are not larger than its queue depth, with a rate and a
    batch size below 2^31, no I/O limit, one namespace per replica, a payload of
    less than 2^31 bytes, no draining and a clock that passes the period of a
    batch while the worker waits for it.  Between any two moments of a run it
    sends at most one batch more than the time between the last releases allows,
    at one group per floor(10^9 / rate) nanoseconds.  In terms of the configured
    rate this exceeds it by at most the factor 10^9 / (10^9 - rate + 1), which is
    1.000001 at 1000 groups a second and grows without bound towards 10^9; beyond
    10^9 the period is 0 and nothing is limited. *)
Theorem batch_rate_limited E G F B clock qd s :
  env_ok E -> alloc_ok E -> payload_ok G -> running G -> g_rep_num G <= Z.of_nat F ->
  paced B clock -> batch_size B <= Z.of_nat qd -> b_init G s ->
  exists gs s1, b_start E G F B qd s = Ok (tt, s1)
    /\ forall es1 es2, b_alloweds E G F B clock (es1 ++ es2) s1 (BSpec gs [] [] 0 0) ->
      exists s2 s3, b_execs E G F B clock es1 s1 = Ok (tt, s2) /\ b_execs E G F B clock es2 s2 = Ok (tt, s3)
        /\ let sent := Z.of_nat (length (io_log (b_st s3))) - Z.of_nat (length (io_log (b_st s2))) in
           let over := sent - g_rep_num G * batch_size B in
           let allowed := g_rep_num G * (ns_of (before_time s3) - ns_of (before_time s2)) in
           over * (NSEC / io_num_per_second B) <= allowed
           /\ (0 <= over -> io_num_per_second B <= NSEC ->
               over * (NSEC - io_num_per_second B + 1) <= io_num_per_second B * allowed).
Proof.
  intros HE HA HPay HG HF HP HB Hi.
  destruct (start_sim E G F B clock HE HA HG HF HP qd s HPay Hi) as (gs & s1 & H1 & Hl & HI & Hst & _).
  exists gs, s1. split; [done|]. intros es1 es2 Ha. apply alloweds_app in Ha as [Ha1 Ha2].
  destruct (run_sim E G F B clock HE HA HG HF HP gs es1 s1 _ HI Hst ltac:(lia) Ha1)
    as (s2 & a2 & H2 & E2 & HI2 & Hst2 & _).
  destruct (run_sim E G F B clock HE HA HG HF HP gs es2 s2 a2 HI2 Hst2 ltac:(lia) (Ha2 _ _ H2 E2))
    as (s3 & a3 & H3 & _ & HI3 & _ & _ & Hsp).
  exists s2, s3. do 2 (split; [done|]). unfold spent in Hsp.
  pose proof (bi_range _ _ _ _ HI3) as [_ Hr3]. pose proof (bi_range _ _ _ _ HI2) as [Hr2 _].
  pose proof (bi_sum _ _ _ _ HI2) as Hs2. rewrite (bi_sent _ _ _ _ HI3), (bi_sent _ _ _ _ HI2) in Hsp.
  destruct HG as [_ HR]. destruct HP as [Hrate Hbs _].
  assert (0 <= NSEC / io_num_per_second B) by (apply Z.div_pos; unfold NSEC; lia). cbn zeta.
  match goal with |- ?a /\ _ => assert (Hb : a) by nia end. split; [exact Hb|]. intros. apply rate_of_period; (done || lia).
Qed.

(** ** A concrete worker: two groups of three replicas, one per batch, 1000
    rounds per second, and a clock that advances by 600 microseconds. *)

Module BatchDemo.
Definition s0 : bst := Bst Demo.s0 ∅ None None 0 0 timespec_zero 0.
Definition B0 (size : Z) : bconfig := BConfig 1000 size.
Definition clock (n : nat) : timespec := Timespec (Z.of_nat n `mod` 1000) 600000.

Lemma paced0 size : 0 < size < 2 ^ 31 -> paced (B0 size) clock.
Proof.
  intros H. constructor; [done|done|]. intros n. unfold ts_norm, clock, NSEC. cbn.
  pose proof (Z.mod_pos_bound (Z.of_nat n) 1000). lia.
Qed.

Lemma init0 c r : b_init (Demo.G0 c r) s0.
Proof. constructor; [apply demo_init|done..]. Qed.

Lemma blocks0 : forall k e, entries (b_st s0) !! k = Some e -> io_size_blocks e = 8.
Proof.
  intros k e. cbn. rewrite !lookup_insert_Some, lookup_empty.
  intros [[_ <-]|[_ [[_ <-]|[_ [[_ <-]|[_ ?]]]]]]; done.
Qed.

Definition start (size : Z) (qd : nat) : M bst unit := b_start Demo.E0 (Demo.G0 false false) 3 (B0 size) qd.
Definition send (size : Z) : M bst unit := send_batch Demo.E0 (Demo.G0 false false) 3 (B0 size) clock 4.
End BatchDemo.

(** The first batch of the concrete worker. *)
Lemma batched_run_safe_witness :
  exists s1 s2, BatchDemo.start 1 2 BatchDemo.s0 = Ok (tt, s1) /\ BatchDemo.send 1 s1 = Ok (tt, s2)
    /\ submit_batch s2 = 1.
Proof.
  destruct (batched_run_safe Demo.E0 (Demo.G0 false false) 3 (BatchDemo.B0 1) BatchDemo.clock 2 BatchDemo.s0 8)
    as (gs & s1 & Hs & Hl & H); [apply Demo.env0_ok|done|apply Demo.payload0|apply Demo.running0|done
    |by apply BatchDemo.paced0|done|apply BatchDemo.init0|apply BatchDemo.blocks0|].
  assert (Hb : batch s1 = 0) by (vm_compute in Hs; by injection Hs as <-).
  destruct (H [EvSend 4]) as (s2 & a2 & H2 & Ha & HI & _).
  { split; [|done]. cbn. rewrite Hb. lia. }
  apply M_bind_inv in H2 as (u & s3 & H2 & H3). destruct u. injection H3 as <-.
  exists s1, s3. split; [exact Hs|]. split; [exact H2|]. rewrite (bi_sent _ _ _ _ HI).
  destruct gs as [|g gs]; [discriminate Hl|]. vm_compute in Ha. by injection Ha as <-.
Defined.

Lemma batch_rate_limited_witness :
  exists s1 s2, BatchDemo.start 1 2 BatchDemo.s0 = Ok (tt, s1) /\ BatchDemo.send 1 s1 = Ok (tt, s2)
    /\ (Z.of_nat (length (io_log (b_st s2))) - Z.of_nat (length (io_log (b_st s1))) - 3 * 1) * 1000000
       <= 3 * (ns_of (before_time s2) - ns_of (before_time s1)).
Proof.
  destruct (batch_rate_limited Demo.E0 (Demo.G0 false false) 3 (BatchDemo.B0 1) BatchDemo.clock 2 BatchDemo.s0)
    as (gs & s1 & Hs & H); [apply Demo.env0_ok|done|apply Demo.payload0|apply Demo.running0|done
    |by apply BatchDemo.paced0|done|apply BatchDemo.init0|].
  assert (Hb : batch s1 = 0) by (vm_compute in Hs; by injection Hs as <-).
  destruct (H [] [EvSend 4]) as (s2 & s3 & H2 & H3 & Hr).
  { split; [|done]. cbn. rewrite Hb. lia. }
  injection H2 as <-. apply M_bind_inv in H3 as (u & s4 & H3 & H4). destruct u. injection H4 as <-.
  exists s1, s4. split; [exact Hs|]. split; [exact H3|]. exact (proj1 Hr).
Defined.

(** ** Deviations *)

(** With a batch larger than the queue depth the list runs empty and the worker
    reads the task of a null element. *)
Lemma batch_larger_than_queue :
  (_ ← BatchDemo.start 3 2; BatchDemo.send 3) BatchDemo.s0 = UB UB_null.
Proof. by vm_compute. Qed.

(** The element of a task that was sent is not freed: the head, the element of
    the waiting task, and that of the task already sent are all allocated. *)
Lemma links_leak :
  exists s, (_ ← BatchDemo.start 1 2; BatchDemo.send 1) BatchDemo.s0 = Ok (tt, s) /\ size (links s) = 3%nat.
Proof. eexists. split; by vm_compute. Qed.

(** A rate above one I/O per nanosecond has a period of zero, and a rate of
    2^31 or more is read as negative, which leaves the period at one second per
    group of the batch. *)
Lemma period_of_huge_rate :
  timespec_divide (Timespec 1 0) (s32 2000000000) = Ok (0, timespec_zero)
  /\ timespec_divide (Timespec 1 0) (s32 3000000000) = Ok (-1, Timespec 1 0).
Proof. by vm_compute. Qed.
