(* ===== verification/Reservation.v ===== *)
(** * Persistent reservations of the NVMe-oF target (lib/nvmf/subsystem.c, lib/nvmf/ctrlr.c)

    The reservation state of one namespace, the Reservation Register, Acquire,
    Release and Report handlers, the persistence of the state through power
    loss, the copy the poll groups keep, and the check that every I/O command
    passes.

    A registrant is an object with an address ([reg_id]); ns->holder is such an
    address, so that a holder which points to a freed registrant is visible in
    the model.  Host identifiers are 128-bit values; their textual form in
    spdk_nvmf_reservation_info is represented by the identifier it denotes, the
    empty string by [None]. *)

From S2P Require Import Prelude.

(** ** Data *)

Record registrant := Reg { reg_id : nat; hostid : Z; rkey : Z }.

Record ns_t := Ns {
  registrants : list registrant;
  gen : Z;
  rtype : Z;
  crkey : Z;
  holder : option nat;
  ptpl_activated : bool;
  mask : Z }.

(** struct spdk_nvmf_reservation_info *)
Record resv_info := Info {
  i_crkey : Z;
  i_rtype : Z;
  i_ptpl : bool;
  i_bdev_uuid : Z;
  i_holder_uuid : option Z;
  i_regs : list (Z * Z) (** rkey, host_uuid *) }.

(** A controller of the subsystem. *)
Record ctrlr_t := Ctrlr { ctrlr_id : nat; c_hostid : Z }.

(** A request: the first two words of its data buffer are the keys of
    spdk_nvme_reservation_{register,acquire}_data. *)
Record req_t := Req {
  opc : Z;
  cdw10 : Z;
  cdw11 : Z;
  iovcnt : Z;
  length_ : Z;
  key0 : Z;
  key1 : Z }.

(** The environment: the controllers of the subsystem, the persistence
    operations and the allocator. *)
Record renv := Renv {
  ctrlrs : list ctrlr_t;
  is_ptpl_capable : bool;
  bdev_uuid : option Z (** None: no bdev *);
  r_update : resv_info -> Z;
  r_alloc : nat -> bool }.

(** [notices]: the reservation log pages sent, as (controller, type). *)
Record rst := Rst {
  ns : ns_t;
  next_reg : nat;
  n_calloc : nat;
  notices : list (nat * Z);
  stored : list resv_info }.

Definition SPDK_NVMF_MAX_NUM_REGISTRANTS : nat := 16.

Definition SPDK_NVME_RESERVE_WRITE_EXCLUSIVE : Z := 1.
Definition SPDK_NVME_RESERVE_EXCLUSIVE_ACCESS : Z := 2.
Definition SPDK_NVME_RESERVE_WRITE_EXCLUSIVE_REG_ONLY : Z := 3.
Definition SPDK_NVME_RESERVE_EXCLUSIVE_ACCESS_REG_ONLY : Z := 4.
Definition SPDK_NVME_RESERVE_WRITE_EXCLUSIVE_ALL_REGS : Z := 5.
Definition SPDK_NVME_RESERVE_EXCLUSIVE_ACCESS_ALL_REGS : Z := 6.

Definition SPDK_NVME_SC_SUCCESS : Z := 0x00.
Definition SPDK_NVME_SC_INVALID_FIELD : Z := 0x02.
Definition SPDK_NVME_SC_INTERNAL_DEVICE_ERROR : Z := 0x06.
Definition SPDK_NVME_SC_HOSTID_INCONSISTENT_FORMAT : Z := 0x18.
Definition SPDK_NVME_SC_RESERVATION_CONFLICT : Z := 0x83.

Definition SPDK_NVME_REGISTRATION_PREEMPTED : Z := 1.
Definition SPDK_NVME_RESERVATION_RELEASED : Z := 2.
Definition SPDK_NVME_RESERVATION_PREEMPTED : Z := 3.
(** The mask bit of a notification type. *)
Definition notice_mask (type : Z) : Z := Z.shiftl 1 type.

Definition SPDK_NVME_OPC_FLUSH : Z := 0x00.
Definition SPDK_NVME_OPC_WRITE : Z := 0x01.
Definition SPDK_NVME_OPC_READ : Z := 0x02.
Definition SPDK_NVME_OPC_WRITE_UNCORRECTABLE : Z := 0x04.
Definition SPDK_NVME_OPC_COMPARE : Z := 0x05.
Definition SPDK_NVME_OPC_WRITE_ZEROES : Z := 0x08.
Definition SPDK_NVME_OPC_DATASET_MANAGEMENT : Z := 0x09.
Definition SPDK_NVME_OPC_RESERVATION_REGISTER : Z := 0x0d.
Definition SPDK_NVME_OPC_RESERVATION_REPORT : Z := 0x0e.
Definition SPDK_NVME_OPC_RESERVATION_ACQUIRE : Z := 0x11.
Definition SPDK_NVME_OPC_RESERVATION_RELEASE : Z := 0x15.

(** Fields of command dwords 10 and 11. *)
Definition bits (x lo len : Z) : Z := Z.land (Z.shiftr x lo) (2 ^ len - 1).
Definition rrega (r : req_t) : Z := bits (cdw10 r) 0 3.
Definition racqa (r : req_t) : Z := bits (cdw10 r) 0 3.
Definition rrela (r : req_t) : Z := bits (cdw10 r) 0 3.
Definition iekey (r : req_t) : bool := Z.testbit (cdw10 r) 3.
Definition cptpl (r : req_t) : Z := bits (cdw10 r) 30 2.
Definition req_rtype (r : req_t) : Z := bits (cdw10 r) 8 8.
Definition eds (r : req_t) : bool := Z.testbit (cdw11 r) 0.

(** *** Field updates *)

Definition set_ns (f : ns_t -> ns_t) (s : rst) : rst :=
  Rst (f (ns s)) (next_reg s) (n_calloc s) (notices s) (stored s).
Definition with_regs (l : list registrant) (n : ns_t) : ns_t :=
  Ns l (gen n) (rtype n) (crkey n) (holder n) (ptpl_activated n) (mask n).
Definition with_gen (g : Z) (n : ns_t) : ns_t :=
  Ns (registrants n) g (rtype n) (crkey n) (holder n) (ptpl_activated n) (mask n).
Definition with_rtype (t : Z) (n : ns_t) : ns_t :=
  Ns (registrants n) (gen n) t (crkey n) (holder n) (ptpl_activated n) (mask n).
Definition with_holder (h : option nat) (n : ns_t) : ns_t :=
  Ns (registrants n) (gen n) (rtype n) (crkey n) h (ptpl_activated n) (mask n).
Definition with_reservation (t k : Z) (h : option nat) (n : ns_t) : ns_t :=
  Ns (registrants n) (gen n) t k h (ptpl_activated n) (mask n).
Definition with_ptpl (b : bool) (n : ns_t) : ns_t :=
  Ns (registrants n) (gen n) (rtype n) (crkey n) (holder n) b (mask n).

Section Ops.
Context (E : renv).

(** ** Helpers *)

Definition nvmf_ns_reservation_get_registrant (uuid : Z) (n : ns_t) : option registrant :=
  List.find (fun r => hostid r =? uuid) (registrants n).

(** nvmf_ctrlr_reservation_notice_log; a failed allocation drops the log. *)
Definition nvmf_ctrlr_reservation_notice_log (c : nat) (type : Z) : M rst unit :=
  s ← get;
  if negb (Z.land (mask (ns s)) (notice_mask type) =? 0) then mret tt
  else
    put (Rst (ns s) (next_reg s) (S (n_calloc s))
           (if r_alloc E (n_calloc s) then notices s ++ [(c, type)] else notices s)
           (stored s)).

Fixpoint notify_ctrlrs (cs : list ctrlr_t) (h type : Z) : M rst unit :=
  match cs with
  | [] => mret tt
  | c :: cs' =>
      _ ← (if c_hostid c =? h then nvmf_ctrlr_reservation_notice_log (ctrlr_id c) type
           else mret tt);
      notify_ctrlrs cs' h type
  end.

Fixpoint nvmf_subsystem_gen_ctrlr_notification (hostid_list : list Z) (type : Z)
  : M rst unit :=
  match hostid_list with
  | [] => mret tt
  | h :: l => _ ← notify_ctrlrs (ctrlrs E) h type;
              nvmf_subsystem_gen_ctrlr_notification l type
  end.

(** The assertion fails when there are more other hosts than array slots. *)
Definition nvmf_ns_reservation_get_all_other_hostid (current : Z) : M rst (list Z) :=
  s ← get;
  let l := filter (fun h => h <> current) (map hostid (registrants (ns s))) in
  if (SPDK_NVMF_MAX_NUM_REGISTRANTS <? length l)%nat then fail UB_assert else mret l.

Definition nvmf_ns_reservation_get_unregistered_hostid (old remaining : list Z) : list Z :=
  match remaining with
  | [] => old
  | _ => filter (fun h => h ∉ remaining) old
  end.

Definition nvmf_ns_reservation_all_registrants_type (n : ns_t) : bool :=
  (rtype n =? SPDK_NVME_RESERVE_WRITE_EXCLUSIVE_ALL_REGS)
  || (rtype n =? SPDK_NVME_RESERVE_EXCLUSIVE_ACCESS_ALL_REGS).

Definition nvmf_ns_reservation_registrant_is_holder (n : ns_t) (reg : option registrant)
  : bool :=
  match reg with
  | None => false
  | Some r =>
      if nvmf_ns_reservation_all_registrants_type n then true
      else bool_decide (holder n = Some (reg_id r))
  end.

(** Result: false when the allocation fails (-ENOMEM). *)
Definition nvmf_ns_reservation_add_registrant (c : ctrlr_t) (nrkey : Z) : M rst bool :=
  s ← get;
  if r_alloc E (n_calloc s) then
    let r := Reg (next_reg s) (c_hostid c) nrkey in
    _ ← put (Rst (with_gen (u32 (gen (ns s) + 1))
                    (with_regs (registrants (ns s) ++ [r]) (ns s)))
               (S (next_reg s)) (S (n_calloc s)) (notices s) (stored s));
    mret true
  else
    _ ← put (Rst (ns s) (next_reg s) (S (n_calloc s)) (notices s) (stored s));
    mret false.

Definition nvmf_ns_reservation_release_reservation : M rst unit :=
  modify (set_ns (with_reservation 0 0 None)).

Definition nvmf_ns_reservation_check_release_on_remove_registrant (r : registrant)
  : M rst unit :=
  s ← get;
  let n := ns s in
  match holder n with
  | None => c_assert (rtype n =? 0)
  | Some _ =>
      match registrants n with
      | next_reg :: _ =>
          if nvmf_ns_reservation_all_registrants_type n
          then modify (set_ns (with_holder (Some (reg_id next_reg))))
          else if nvmf_ns_reservation_registrant_is_holder n (Some r)
          then nvmf_ns_reservation_release_reservation else mret tt
      | [] => if nvmf_ns_reservation_registrant_is_holder n (Some r)
              then nvmf_ns_reservation_release_reservation else mret tt
      end
  end.

Definition nvmf_ns_reservation_remove_registrant (r : registrant) : M rst unit :=
  _ ← modify (set_ns (fun n => with_regs
        (List.filter (fun x => negb (Nat.eqb (reg_id x) (reg_id r))) (registrants n)) n));
  _ ← nvmf_ns_reservation_check_release_on_remove_registrant r;
  modify (set_ns (fun n => with_gen (u32 (gen n + 1)) n)).

(** TAILQ_FOREACH_SAFE over the registrants the queue held at the start; only
    the visited element is removed.  Result: the number of removals. *)
Fixpoint remove_where (p : registrant -> bool) (l : list registrant) : M rst Z :=
  match l with
  | [] => mret 0
  | r :: l' =>
      if p r then
        _ ← nvmf_ns_reservation_remove_registrant r;
        k ← remove_where p l'; mret (k + 1)
      else remove_where p l'
  end.

Definition nvmf_ns_reservation_remove_registrants_by_key (k : Z) : M rst Z :=
  s ← get; remove_where (fun r => rkey r =? k) (registrants (ns s)).

Definition nvmf_ns_reservation_remove_all_other_registrants (reg : registrant) : M rst Z :=
  s ← get;
  remove_where (fun r => negb (Nat.eqb (reg_id r) (reg_id reg))) (registrants (ns s)).

Definition nvmf_ns_reservation_clear_all_registrants : M rst Z :=
  s ← get; remove_where (fun _ => true) (registrants (ns s)).

Definition nvmf_ns_reservation_acquire_reservation (k t : Z) (h : registrant) : M rst unit :=
  s ← get;
  _ ← c_assert (bool_decide (holder (ns s) = None));
  modify (set_ns (with_reservation t k (Some (reg_id h)))).

(** ** Handlers

    The result of a handler is the status code and update_sgroup. *)

(** The cptpl switch of Reservation Register; None is the INVALID_FIELD
    exit. *)
Definition register_ptpl (req : req_t) : M rst (option bool) :=
  s ← get;
  if cptpl req =? 2 then
    if ptpl_activated (ns s) then _ ← modify (set_ns (with_ptpl false)); mret (Some true)
    else mret (Some false)
  else if cptpl req =? 3 then
    if negb (is_ptpl_capable E) then mret None
    else if negb (ptpl_activated (ns s))
    then _ ← modify (set_ns (with_ptpl true)); mret (Some true)
    else mret (Some false)
  else mret (Some false).

(** reg->rkey = k *)
Definition set_rkey (id : nat) (k : Z) (n : ns_t) : ns_t :=
  with_regs (map (fun r => if Nat.eqb (reg_id r) id then Reg (reg_id r) (hostid r) k else r)
                 (registrants n)) n.

Definition nvmf_ns_reservation_register (c : ctrlr_t) (req : req_t) : M rst (Z * bool) :=
  if negb ((0 <? iovcnt req) && (16 <=? length_ req))
  then mret (SPDK_NVME_SC_INVALID_FIELD, false)
  else
    let k_crkey := key0 req in
    let nrkey := key1 req in
    p ← register_ptpl req;
    match p with
    | None => mret (SPDK_NVME_SC_INVALID_FIELD, false)
    | Some upd =>
        s ← get;
        let reg := nvmf_ns_reservation_get_registrant (c_hostid c) (ns s) in
        if rrega req =? 0 then (* REGISTER_KEY *)
          match reg with
          | None =>
              if nrkey =? 0 then mret (SPDK_NVME_SC_INVALID_FIELD, upd)
              else
                ok ← nvmf_ns_reservation_add_registrant c nrkey;
                if (ok : bool) then mret (SPDK_NVME_SC_SUCCESS, true)
                else mret (SPDK_NVME_SC_INTERNAL_DEVICE_ERROR, upd)
          | Some r =>
              if negb (rkey r =? nrkey) then mret (SPDK_NVME_SC_RESERVATION_CONFLICT, upd)
              else mret (SPDK_NVME_SC_SUCCESS, upd)
          end
        else if rrega req =? 1 then (* UNREGISTER_KEY *)
          match reg with
          | None => mret (SPDK_NVME_SC_RESERVATION_CONFLICT, upd)
          | Some r =>
              if negb (iekey req) && negb (rkey r =? k_crkey)
              then mret (SPDK_NVME_SC_RESERVATION_CONFLICT, upd)
              else
                let t := rtype (ns s) in
                hosts ← nvmf_ns_reservation_get_all_other_hostid (c_hostid c);
                _ ← nvmf_ns_reservation_remove_registrant r;
                s ← get;
                _ ← (if (rtype (ns s) =? 0) && bool_decide (hosts <> [])
                        && ((t =? SPDK_NVME_RESERVE_WRITE_EXCLUSIVE_REG_ONLY)
                            || (t =? SPDK_NVME_RESERVE_EXCLUSIVE_ACCESS_REG_ONLY))
                     then nvmf_subsystem_gen_ctrlr_notification hosts
                            SPDK_NVME_RESERVATION_RELEASED
                     else mret tt);
                mret (SPDK_NVME_SC_SUCCESS, true)
          end
        else if rrega req =? 2 then (* REPLACE_KEY *)
          if nrkey =? 0 then mret (SPDK_NVME_SC_INVALID_FIELD, upd)
          else
            match reg with
            | Some r =>
                if negb (iekey req) && negb (rkey r =? k_crkey)
                then mret (SPDK_NVME_SC_RESERVATION_CONFLICT, upd)
                else if rkey r =? nrkey then mret (SPDK_NVME_SC_SUCCESS, upd)
                else _ ← modify (set_ns (set_rkey (reg_id r) nrkey));
                     mret (SPDK_NVME_SC_SUCCESS, true)
            | None =>
                if iekey req then
                  ok ← nvmf_ns_reservation_add_registrant c nrkey;
                  if (ok : bool) then mret (SPDK_NVME_SC_SUCCESS, true)
                  else mret (SPDK_NVME_SC_INTERNAL_DEVICE_ERROR, upd)
                else mret (SPDK_NVME_SC_RESERVATION_CONFLICT, upd)
            end
        else mret (SPDK_NVME_SC_INVALID_FIELD, upd)
    end.

(** ns->holder dereferenced. *)
Definition load_holder : M rst registrant :=
  s ← get;
  match holder (ns s) with
  | None => fail UB_null
  | Some h => lift_opt UB_freed (List.find (fun r => Nat.eqb (reg_id r) h) (registrants (ns s)))
  end.

(** The outcome of the switch of Reservation Acquire. *)
Record acq := Acq {
  a_status : Z;
  a_update : bool;
  a_hosts : list Z;
  a_released : bool }.

Definition acquire_preempt (c : ctrlr_t) (req : req_t) (reg : registrant) (all_regs : bool)
  : M rst acq :=
  let k_crkey := key0 req in
  let prkey := key1 req in
  let t := req_rtype req in
  s ← get;
  match holder (ns s) with
  | None =>
      _ ← nvmf_ns_reservation_remove_registrants_by_key prkey;
      mret (Acq SPDK_NVME_SC_SUCCESS true [] false)
  | Some _ =>
      hosts ← nvmf_ns_reservation_get_all_other_hostid (c_hostid c);
      if negb all_regs then
        if nvmf_ns_reservation_registrant_is_holder (ns s) (Some reg)
           && (crkey (ns s) =? prkey)
        then
          _ ← modify (set_ns (with_rtype t));
          mret (Acq SPDK_NVME_SC_SUCCESS true hosts true)
        else if crkey (ns s) =? prkey then
          h ← load_holder;
          _ ← nvmf_ns_reservation_remove_registrant h;
          _ ← nvmf_ns_reservation_acquire_reservation k_crkey t reg;
          mret (Acq SPDK_NVME_SC_SUCCESS true hosts true)
        else if negb (prkey =? 0) then
          _ ← nvmf_ns_reservation_remove_registrants_by_key prkey;
          mret (Acq SPDK_NVME_SC_SUCCESS true hosts false)
        else mret (Acq SPDK_NVME_SC_RESERVATION_CONFLICT false hosts false)
      else if prkey =? 0 then
        _ ← nvmf_ns_reservation_remove_all_other_registrants reg;
        s ← get;
        _ ← c_assert (bool_decide (holder (ns s) = Some (reg_id reg)));
        mret (Acq SPDK_NVME_SC_SUCCESS true hosts false)
      else
        count ← nvmf_ns_reservation_remove_registrants_by_key prkey;
        if count =? 0 then mret (Acq SPDK_NVME_SC_RESERVATION_CONFLICT false hosts false)
        else mret (Acq SPDK_NVME_SC_SUCCESS true hosts false)
  end.

(** The part of the handler before its exit label. *)
Definition acquire_body (c : ctrlr_t) (req : req_t) : M rst acq :=
  if negb ((0 <? iovcnt req) && (16 <=? length_ req))
  then mret (Acq SPDK_NVME_SC_INVALID_FIELD true [] false)
  else if iekey req || (SPDK_NVME_RESERVE_EXCLUSIVE_ACCESS_ALL_REGS <? req_rtype req)
  then mret (Acq SPDK_NVME_SC_INVALID_FIELD false [] false)
  else
    s ← get;
    match nvmf_ns_reservation_get_registrant (c_hostid c) (ns s) with
    | None => mret (Acq SPDK_NVME_SC_RESERVATION_CONFLICT false [] false)
    | Some reg =>
        if negb (rkey reg =? key0 req)
        then mret (Acq SPDK_NVME_SC_RESERVATION_CONFLICT false [] false)
        else
          let all_regs := nvmf_ns_reservation_all_registrants_type (ns s) in
          if racqa req =? 0 then (* ACQUIRE *)
            if nvmf_ns_reservation_registrant_is_holder (ns s) (Some reg)
               && (rtype (ns s) =? req_rtype req)
            then mret (Acq SPDK_NVME_SC_SUCCESS false [] false)
            else match holder (ns s) with
            | None =>
                _ ← nvmf_ns_reservation_acquire_reservation (key0 req) (req_rtype req) reg;
                mret (Acq SPDK_NVME_SC_SUCCESS true [] false)
            | Some _ => mret (Acq SPDK_NVME_SC_RESERVATION_CONFLICT false [] false)
            end
          else if racqa req =? 1 then acquire_preempt c req reg all_regs
          else mret (Acq SPDK_NVME_SC_INVALID_FIELD false [] false)
    end.

Definition nvmf_ns_reservation_acquire (c : ctrlr_t) (req : req_t) : M rst (Z * bool) :=
  a ← acquire_body c req;
  _ ← (if a_update a && (racqa req =? 1) then
         new_hosts ← nvmf_ns_reservation_get_all_other_hostid (c_hostid c);
         let gone := nvmf_ns_reservation_get_unregistered_hostid (a_hosts a) new_hosts in
         _ ← nvmf_subsystem_gen_ctrlr_notification gone SPDK_NVME_REGISTRATION_PREEMPTED;
         if a_released a
         then nvmf_subsystem_gen_ctrlr_notification new_hosts SPDK_NVME_RESERVATION_RELEASED
         else mret tt
       else mret tt);
  mret (a_status a, a_update a).

Definition nvmf_ns_reservation_release (c : ctrlr_t) (req : req_t) : M rst (Z * bool) :=
  if negb ((0 <? iovcnt req) && (8 <=? length_ req))
  then mret (SPDK_NVME_SC_INVALID_FIELD, true)
  else if iekey req then mret (SPDK_NVME_SC_INVALID_FIELD, false)
  else
    s ← get;
    match nvmf_ns_reservation_get_registrant (c_hostid c) (ns s) with
    | None => mret (SPDK_NVME_SC_RESERVATION_CONFLICT, false)
    | Some reg =>
        if negb (rkey reg =? key0 req) then mret (SPDK_NVME_SC_RESERVATION_CONFLICT, false)
        else
          hosts ← nvmf_ns_reservation_get_all_other_hostid (c_hostid c);
          if rrela req =? 0 then (* RELEASE *)
            match holder (ns s) with
            | None => mret (SPDK_NVME_SC_SUCCESS, false)
            | Some _ =>
                if negb (rtype (ns s) =? req_rtype req)
                then mret (SPDK_NVME_SC_INVALID_FIELD, false)
                else if negb (nvmf_ns_reservation_registrant_is_holder (ns s) (Some reg))
                then mret (SPDK_NVME_SC_SUCCESS, false)
                else
                  let t := rtype (ns s) in
                  _ ← nvmf_ns_reservation_release_reservation;
                  _ ← (if bool_decide (hosts <> [])
                          && negb (t =? SPDK_NVME_RESERVE_WRITE_EXCLUSIVE)
                          && negb (t =? SPDK_NVME_RESERVE_EXCLUSIVE_ACCESS)
                       then nvmf_subsystem_gen_ctrlr_notification hosts
                              SPDK_NVME_RESERVATION_RELEASED
                       else mret tt);
                  mret (SPDK_NVME_SC_SUCCESS, true)
            end
          else if rrela req =? 1 then (* CLEAR *)
            _ ← nvmf_ns_reservation_clear_all_registrants;
            _ ← nvmf_subsystem_gen_ctrlr_notification hosts SPDK_NVME_RESERVATION_PREEMPTED;
            mret (SPDK_NVME_SC_SUCCESS, true)
          else mret (SPDK_NVME_SC_INVALID_FIELD, false)
    end.

(** The Reservation Report data: the status header and one entry per
    registrant, as (reservation holder, key, host). *)
Record report := Report {
  rp_gen : Z;
  rp_rtype : Z;
  rp_regctl : Z;
  rp_ptpls : bool;
  rp_ctrlrs : list (bool * Z * Z) }.

(** regctl is a 16-bit field. *)
Definition report_data (n : ns_t) : report :=
  Report (gen n) (rtype n) (u16 (Z.of_nat (length (registrants n)))) (ptpl_activated n)
    (map (fun r => (bool_decide (holder n = Some (reg_id r)), rkey r, hostid r))
         (registrants n)).

(** The data handed to spdk_iov_xfer_from_buf, which keeps what fits. *)
Definition nvmf_ns_reservation_report (req : req_t) : M rst (Z * option report) :=
  if iovcnt req =? 0 then mret (SPDK_NVME_SC_INVALID_FIELD, None)
  else if negb (eds req) then mret (SPDK_NVME_SC_HOSTID_INCONSISTENT_FORMAT, None)
  else if u32 ((cdw10 req + 1) * 4) <? 64
  then mret (SPDK_NVME_SC_INTERNAL_DEVICE_ERROR, None)
  else s ← get; mret (SPDK_NVME_SC_SUCCESS, Some (report_data (ns s))).

(** ** Persistence *)

Definition holder_reg (n : ns_t) : option registrant :=
  h ← holder n; List.find (fun r => Nat.eqb (reg_id r) h) (registrants n).

(** info.registrants has SPDK_NVMF_MAX_NUM_REGISTRANTS elements. *)
Definition nvmf_ns_update_reservation_info : M rst Z :=
  s ← get;
  let n := ns s in
  match bdev_uuid E with
  | None => mret 0
  | Some uuid =>
      if negb (is_ptpl_capable E) then mret 0
      else
        hu ← (if (rtype n =? 0) || nvmf_ns_reservation_all_registrants_type n
              then mret None
              else match holder n with
              | None => fail UB_assert
              | Some _ => r ← lift_opt UB_freed (holder_reg n); mret (Some (hostid r))
              end);
        if (SPDK_NVMF_MAX_NUM_REGISTRANTS <? length (registrants n))%nat
        then fail UB_bounds
        else
          let info := Info (if rtype n =? 0 then 0 else crkey n) (rtype n)
                        (ptpl_activated n) uuid hu
                        (map (fun r => (rkey r, hostid r)) (registrants n)) in
          let rc := r_update E info in
          _ ← put (Rst n (next_reg s) (n_calloc s) (notices s)
                     (if rc =? 0 then stored s ++ [info] else stored s));
          mret rc
  end.

(** nvmf_ns_reservation_request up to nvmf_subsystem_update_ns.  Result: the
    status of the completion and whether the poll groups are updated. *)
Definition nvmf_ns_reservation_request (c : ctrlr_t) (req : req_t) : M rst (Z * bool) :=
  '(sc, upd) ←
    (if opc req =? SPDK_NVME_OPC_RESERVATION_REGISTER then nvmf_ns_reservation_register c req
     else if opc req =? SPDK_NVME_OPC_RESERVATION_ACQUIRE
     then nvmf_ns_reservation_acquire c req
     else if opc req =? SPDK_NVME_OPC_RESERVATION_RELEASE
     then nvmf_ns_reservation_release c req
     else if opc req =? SPDK_NVME_OPC_RESERVATION_REPORT
     then '(sc, _) ← nvmf_ns_reservation_report req; mret (sc, false)
     else mret (SPDK_NVME_SC_SUCCESS, false));
  if (upd : bool) then
    s ← get;
    if ptpl_activated (ns s) || (opc req =? SPDK_NVME_OPC_RESERVATION_REGISTER) then
      rc ← nvmf_ns_update_reservation_info;
      if rc =? 0 then mret (sc, true) else mret (SPDK_NVME_SC_INTERNAL_DEVICE_ERROR, true)
    else mret (sc, true)
  else mret (sc, false).

(** The loop of nvmf_ns_reservation_restore that rebuilds the registrants.
    [hu] is what holder_uuid holds (the parse of an empty string leaves it
    unchanged).  Result: false when an allocation fails, and the holder. *)
Fixpoint restore_regs (regs : list (Z * Z)) (ck : Z) (hu : Z) (h : option nat)
  : M rst (bool * option nat) :=
  match regs with
  | [] => mret (true, h)
  | (k, u) :: regs' =>
      s ← get;
      if r_alloc E (n_calloc s) then
        let r := Reg (next_reg s) u k in
        _ ← put (Rst (with_regs (registrants (ns s) ++ [r]) (ns s)) (S (next_reg s))
                   (S (n_calloc s)) (notices s) (stored s));
        restore_regs regs' ck hu
          (if negb (ck =? 0) && (hu =? u) then Some (reg_id r) else h)
      else
        _ ← put (Rst (ns s) (next_reg s) (S (n_calloc s)) (notices s) (stored s));
        mret (false, h)
  end.

(** [junk]: the indeterminate initial value of holder_uuid. *)
Definition nvmf_ns_reservation_restore (junk : Z) (info : resv_info) : M rst Z :=
  if negb (i_ptpl info) || bool_decide (i_regs info = []) then mret 0
  else if negb (existsb (fun x => i_crkey info =? x.1) (i_regs info))
          && negb (i_crkey info =? 0)
  then mret (- EINVAL)
  else if negb (bool_decide (bdev_uuid E = Some (i_bdev_uuid info))) then mret (- EINVAL)
  else
    _ ← modify (set_ns (fun n => with_ptpl (i_ptpl info)
          (with_reservation (i_rtype info) (i_crkey info) (holder n) n)));
    '(ok, h) ← restore_regs (i_regs info) (i_crkey info)
                 (default junk (i_holder_uuid info)) None;
    if negb ok then mret (- ENOMEM)
    else
      s ← get;
      _ ← modify (set_ns (with_holder
            (if nvmf_ns_reservation_all_registrants_type (ns s)
             then reg_id <$> List.head (registrants (ns s)) else h)));
      mret 0.

End Ops.

(** ** The poll groups' copy and the I/O check *)

(** The reservation part of struct spdk_nvmf_subsystem_pg_ns_info. *)
Record pg_ns_info := PgInfo {
  p_crkey : Z;
  p_rtype : Z;
  p_holder_id : Z;
  p_reg_hostid : list Z (** 16 slots *) }.

(** The namespace part of poll_group_update_subsystem; the second component is
    its return code.  On too many registrants the array keeps what was copied. *)
Definition poll_group_update_ns (n : ns_t) (p : pg_ns_info) : res (pg_ns_info * Z) :=
  h ← match holder n with
      | None => Ok (p_holder_id p)
      | Some _ => match holder_reg n with
                  | None => UB UB_freed
                  | Some r => Ok (hostid r)
                  end
      end;
  let hosts := map hostid (registrants n) in
  let regs := take SPDK_NVMF_MAX_NUM_REGISTRANTS hosts in
  mret (PgInfo (crkey n) (rtype n) h
          (regs ++ replicate (SPDK_NVMF_MAX_NUM_REGISTRANTS - length regs) 0),
        if (SPDK_NVMF_MAX_NUM_REGISTRANTS <? length hosts)%nat then - EINVAL else 0).

Definition nvmf_ns_info_ctrlr_is_registrant (p : pg_ns_info) (c : ctrlr_t) : bool :=
  existsb (fun h => h =? c_hostid c) (p_reg_hostid p).

(** The status the check leaves in the response; the return code is -EPERM
    exactly when it is RESERVATION_CONFLICT. *)
Definition reservation_check_status (p : pg_ns_info) (c : ctrlr_t) (req : req_t) : Z :=
  let t := p_rtype p in
  if t =? 0 then SPDK_NVME_SC_SUCCESS
  else
    let is_registrant := nvmf_ns_info_ctrlr_is_registrant p c in
    if ((t =? SPDK_NVME_RESERVE_WRITE_EXCLUSIVE_ALL_REGS)
        || (t =? SPDK_NVME_RESERVE_EXCLUSIVE_ACCESS_ALL_REGS)) && is_registrant
    then SPDK_NVME_SC_SUCCESS
    else if p_holder_id p =? c_hostid c then SPDK_NVME_SC_SUCCESS
    else if (opc req =? SPDK_NVME_OPC_READ) || (opc req =? SPDK_NVME_OPC_COMPARE) then
      if t =? SPDK_NVME_RESERVE_EXCLUSIVE_ACCESS then SPDK_NVME_SC_RESERVATION_CONFLICT
      else if ((t =? SPDK_NVME_RESERVE_EXCLUSIVE_ACCESS_REG_ONLY)
               || (t =? SPDK_NVME_RESERVE_EXCLUSIVE_ACCESS_ALL_REGS)) && negb is_registrant
      then SPDK_NVME_SC_RESERVATION_CONFLICT else SPDK_NVME_SC_SUCCESS
    else if (opc req =? SPDK_NVME_OPC_FLUSH) || (opc req =? SPDK_NVME_OPC_WRITE)
         || (opc req =? SPDK_NVME_OPC_WRITE_UNCORRECTABLE)
         || (opc req =? SPDK_NVME_OPC_WRITE_ZEROES)
         || (opc req =? SPDK_NVME_OPC_DATASET_MANAGEMENT) then
      if (t =? SPDK_NVME_RESERVE_WRITE_EXCLUSIVE) || (t =? SPDK_NVME_RESERVE_EXCLUSIVE_ACCESS)
      then SPDK_NVME_SC_RESERVATION_CONFLICT
      else if negb is_registrant then SPDK_NVME_SC_RESERVATION_CONFLICT
      else SPDK_NVME_SC_SUCCESS
    else if opc req =? SPDK_NVME_OPC_RESERVATION_ACQUIRE then
      if racqa req =? 0 then SPDK_NVME_SC_RESERVATION_CONFLICT
      else if negb is_registrant then SPDK_NVME_SC_RESERVATION_CONFLICT
      else SPDK_NVME_SC_SUCCESS
    else if opc req =? SPDK_NVME_OPC_RESERVATION_RELEASE then
      if negb is_registrant then SPDK_NVME_SC_RESERVATION_CONFLICT
      else SPDK_NVME_SC_SUCCESS
    else SPDK_NVME_SC_SUCCESS.

Definition nvmf_ns_reservation_request_check (p : pg_ns_info) (c : ctrlr_t) (req : req_t) : Z :=
  if reservation_check_status p c req =? SPDK_NVME_SC_RESERVATION_CONFLICT
  then - EPERM else 0.
