(* ===== verification/ReservationLemmas.v ===== *)
(** * The reservation invariant

    Pure descriptions of the operations on the registrants and the holder, the
    invariant of the reservation state, and its preservation by every request,
    for target configurations in which at most 16 hosts use the namespace. *)

From S2P Require Import Prelude Reservation.

(** ** The invariant *)

(** [H]: the host identifiers in use; [nr]: the next registrant address. *)
Record ns_inv (H : list Z) (nr : nat) (n : ns_t) : Prop := {
  ni_ids : NoDup (map reg_id (registrants n));
  ni_next : forall r, r ∈ registrants n -> (reg_id r < nr)%nat;
  ni_hosts : NoDup (map hostid (registrants n));
  ni_in : forall r, r ∈ registrants n -> hostid r ∈ H;
  ni_keys : forall r, r ∈ registrants n -> rkey r <> 0;
  ni_holder : forall h, holder n = Some h -> h ∈ map reg_id (registrants n);
  ni_none : holder n = None -> rtype n = 0 /\ crkey n = 0;
  ni_type : 0 <= rtype n <= 6;
  ni_gen : 0 <= gen n < 2 ^ 32 }.

Definition resv_inv (H : list Z) (s : rst) : Prop := ns_inv H (next_reg s) (ns s).

Lemma reg_unique l (r r' : registrant) :
  NoDup (map reg_id l) -> r ∈ l -> r' ∈ l -> reg_id r = reg_id r' -> r = r'.
Proof.
  induction l as [|x l IH]; cbn; [set_solver|].
  intros Hnd Hr Hr' He. apply NoDup_cons in Hnd as [Hni Hnd].
  apply elem_of_cons in Hr as [->|Hr], Hr' as [->|Hr']; [done| | |auto].
  - destruct Hni. rewrite He. by apply list_elem_of_fmap_2.
  - destruct Hni. rewrite <- He. by apply list_elem_of_fmap_2.
Qed.

Lemma get_registrant_some h n r :
  nvmf_ns_reservation_get_registrant h n = Some r -> r ∈ registrants n /\ hostid r = h.
Proof.
  intros Hf. apply find_some in Hf as [Hin Hh]. split; [by apply list_elem_of_In|lia].
Qed.

Lemma get_registrant_none h n r :
  nvmf_ns_reservation_get_registrant h n = None -> r ∈ registrants n -> hostid r <> h.
Proof.
  intros Hf Hin. apply list_elem_of_In in Hin.
  pose proof (find_none _ _ Hf _ Hin) as Hb. cbn in Hb. lia.
Qed.

Lemma holder_reg_ok H nr n h :
  ns_inv H nr n -> holder n = Some h ->
  exists r, holder_reg n = Some r /\ r ∈ registrants n /\ reg_id r = h.
Proof.
  intros HI Hh. unfold holder_reg. rewrite Hh. cbn.
  destruct (List.find _ (registrants n)) as [r|] eqn:Ef.
  - exists r. apply find_some in Ef as [Hin He]. apply Nat.eqb_eq in He.
    split; [done|]. split; [by apply list_elem_of_In|done].
  - apply (ni_holder _ _ _ HI) in Hh. apply list_elem_of_fmap in Hh as (r & -> & Hin).
    pose proof (find_none _ _ Ef r) as Hn. cbn in Hn. rewrite Nat.eqb_refl in Hn.
    by discriminate Hn; apply list_elem_of_In.
Qed.

(** ** Removal of a registrant as a function *)

Definition rm_regs (r : registrant) (l : list registrant) : list registrant :=
  List.filter (fun x => negb (Nat.eqb (reg_id x) (reg_id r))) l.

(** The holder and the reservation after [r] has left the queue. *)
Definition rehold (r : registrant) (n : ns_t) : ns_t :=
  match holder n with
  | None => n
  | Some h =>
      match registrants n with
      | x :: _ =>
          if nvmf_ns_reservation_all_registrants_type n
          then with_holder (Some (reg_id x)) n
          else if decide (h = reg_id r) then with_reservation 0 0 None n else n
      | [] =>
          if nvmf_ns_reservation_all_registrants_type n || bool_decide (h = reg_id r)
          then with_reservation 0 0 None n else n
      end
  end.

Definition rm (n : ns_t) (r : registrant) : ns_t :=
  let n' := rehold r (with_regs (rm_regs r (registrants n)) n) in
  with_gen (u32 (gen n' + 1)) n'.

Lemma elem_of_rm_regs r x l : x ∈ rm_regs r l <-> x ∈ l /\ reg_id x <> reg_id r.
Proof.
  unfold rm_regs. rewrite !list_elem_of_In, filter_In.
  rewrite negb_true_iff, Nat.eqb_neq. done.
Qed.

Lemma rm_regs_sublist r l : sublist (rm_regs r l) l.
Proof.
  induction l as [|x l IH]; cbn; [done|]. destruct (negb _); by constructor.
Qed.

Lemma rm_regs_nodup {A} (f : registrant -> A) r l :
  NoDup (map f l) -> NoDup (map f (rm_regs r l)).
Proof.
  intros Hnd. eapply sublist_NoDup; [exact Hnd|]. apply (fmap_sublist f), rm_regs_sublist.
Qed.

Lemma with_gen_inv H nr n g : 0 <= g < 2 ^ 32 -> ns_inv H nr n -> ns_inv H nr (with_gen g n).
Proof. intros Hg []. by constructor. Qed.

Lemma rm_inv H nr n r : ns_inv H nr n -> ns_inv H nr (rm n r).
Proof.
  intros HI. unfold rm. apply with_gen_inv; [apply wrap_range; lia|].
  destruct HI as [H1 H2 H3 H4 H5 H6 H7 H8 H9].
  set (n1 := with_regs _ n).
  assert (HA : forall m, registrants m = registrants n1 -> gen m = gen n ->
    (forall h, holder m = Some h -> h ∈ map reg_id (registrants n1)) ->
    (holder m = None -> rtype m = 0 /\ crkey m = 0) -> 0 <= rtype m <= 6 -> ns_inv H nr m).
  { intros m Hr Hg Hh Hn Ht. constructor; rewrite ?Hr, ?Hg; try done.
    - by apply rm_regs_nodup.
    - intros x [Hx _]%elem_of_rm_regs. auto.
    - by apply rm_regs_nodup.
    - intros x [Hx _]%elem_of_rm_regs. auto.
    - intros x [Hx _]%elem_of_rm_regs. auto. }
  assert (HB : forall h, holder n = Some h -> h <> reg_id r -> h ∈ map reg_id (registrants n1)).
  { intros h Hh Hne. apply H6 in Hh. apply list_elem_of_fmap in Hh as (x & -> & Hx).
    apply list_elem_of_fmap_2, elem_of_rm_regs. done. }
  unfold rehold. change (holder n1) with (holder n). change (gen n1) with (gen n) in *.
  destruct (holder n) as [h|] eqn:Eh.
  2: { apply HA; cbn; try done; rewrite Eh; [done|auto]. }
  destruct (registrants n1) as [|x l] eqn:El.
  - destruct (_ || _) eqn:Eb; [apply HA; cbn; try done; lia|].
    apply orb_false_iff in Eb as [_ Eb]. apply bool_decide_eq_false in Eb.
    pose proof (HB h eq_refl Eb). set_solver.
  - destruct (nvmf_ns_reservation_all_registrants_type n1); [|destruct (decide _)].
    + apply HA; cbn; try done. intros ? [= <-]. set_solver.
    + apply HA; cbn; done.
    + apply HA; cbn; try done; rewrite Eh; [|done]. intros ? [= <-]. by apply HB.
Qed.

(** ** The primitives *)

Lemma remove_registrant_run H nr n r s :
  ns_inv H nr n -> ns s = n ->
  nvmf_ns_reservation_remove_registrant r s = Ok (tt, set_ns (fun _ => rm n r) s).
Proof.
  intros HI <-. unfold nvmf_ns_reservation_remove_registrant.
  mstep. set (s1 := set_ns _ s).
  assert (Hc : nvmf_ns_reservation_check_release_on_remove_registrant r s1
    = Ok (tt, set_ns (rehold r) s1)).
  { unfold nvmf_ns_reservation_check_release_on_remove_registrant. mstep.
    unfold rehold, nvmf_ns_reservation_registrant_is_holder.
    destruct (holder (ns s1)) as [h|] eqn:Eh.
    - destruct (registrants (ns s1)) as [|x l] eqn:El;
        destruct (nvmf_ns_reservation_all_registrants_type (ns s1)) eqn:Ea;
        unfold set_ns; cbn [orb]; rewrite ?Eh, ?El, ?Ea; cbn [orb];
        try reflexivity.
      + destruct (bool_decide (h = reg_id r)) eqn:Eb; rewrite ?bool_decide_eq_true,
          ?bool_decide_eq_false in Eb; [rewrite bool_decide_true by congruence; done|].
        rewrite bool_decide_false by congruence. by destruct s1.
      + destruct (decide (h = reg_id r)).
        * rewrite bool_decide_true by congruence. done.
        * rewrite bool_decide_false by congruence. by destruct s1.
    - pose proof (ni_none _ _ _ HI Eh) as [Ht _].
      change (rtype (ns s1)) with (rtype (ns s)). rewrite Ht. unfold set_ns.
      rewrite Eh. by destruct s1. }
  erewrite M_bind_ok by exact Hc. reflexivity.
Qed.

Lemma remove_where_run H nr p l n s :
  ns_inv H nr n -> ns s = n ->
  remove_where p l s
  = Ok (Z.of_nat (length (List.filter p l)),
        set_ns (fun _ => fold_left rm (List.filter p l) n) s).
Proof.
  revert n s. induction l as [|r l IH]; intros n s HI Hn; cbn [remove_where List.filter].
  - cbn. subst n. by destruct s.
  - destruct (p r); [|by apply IH].
    erewrite M_bind_ok by by eapply remove_registrant_run.
    erewrite M_bind_ok by (eapply IH; [by apply rm_inv|done]).
    cbn [fold_left length]. unfold mret, M_ret. do 2 f_equal. lia.
Qed.

Lemma fold_rm_inv H nr l n : ns_inv H nr n -> ns_inv H nr (fold_left rm l n).
Proof. revert n. induction l as [|r l IH]; intros n HI; cbn; [done|]. by apply IH, rm_inv. Qed.

Lemma rehold_regs r n : registrants (rehold r n) = registrants n.
Proof. unfold rehold. destruct n as [[|] ? ? ? [|] ? ?]; cbn; case_ifs; done. Qed.

Lemma rm_registrants n r : registrants (rm n r) = rm_regs r (registrants n).
Proof. unfold rm. cbn. by rewrite rehold_regs. Qed.

(** Registrants that remain after removing the members of [l]. *)
Lemma elem_of_fold_rm l n x :
  x ∈ registrants (fold_left rm l n)
  <-> x ∈ registrants n /\ forall r, r ∈ l -> reg_id x <> reg_id r.
Proof.
  revert n. induction l as [|r l IH]; intros n; cbn [fold_left]; [set_solver|].
  rewrite IH, rm_registrants, elem_of_rm_regs. set_solver.
Qed.

Lemma hosts_length H nr n c :
  NoDup H -> (length H <= 16)%nat -> ns_inv H nr n ->
  (length (filter (fun h => h <> c) (map hostid (registrants n))) <= 16)%nat
  /\ (length (registrants n) <= 16)%nat.
Proof.
  intros Hnd Hl HI.
  assert (length (map hostid (registrants n)) <= length H)%nat as HA.
  { apply submseteq_length, NoDup_submseteq; [apply HI|].
    intros h (r & -> & Hr)%list_elem_of_fmap. by apply (ni_in _ _ _ HI). }
  rewrite length_map in HA. split; [|lia].
  etransitivity; [apply length_filter|]. rewrite length_map. lia.
Qed.

(** Removing the holder of a reservation of a single-holder type releases it. *)
Lemma rm_holder_released n r :
  nvmf_ns_reservation_all_registrants_type n = false -> holder n = Some (reg_id r) ->
  rm n r = with_gen (u32 (gen n + 1))
             (with_reservation 0 0 None (with_regs (rm_regs r (registrants n)) n)).
Proof.
  intros Ha Hh. unfold rm, rehold. cbn [with_regs holder]. rewrite Hh.
  assert (Ha' : nvmf_ns_reservation_all_registrants_type
                  (with_regs (rm_regs r (registrants n)) n) = false) by exact Ha.
  rewrite Ha'. cbn [registrants with_regs orb].
  rewrite bool_decide_true by done. rewrite decide_True by done.
  by destruct (rm_regs r (registrants n)).
Qed.

(** Removing other registrants of an all-registrants reservation keeps it held. *)
Lemma rm_all_regs n r reg :
  nvmf_ns_reservation_all_registrants_type n = true -> holder n <> None ->
  reg ∈ registrants n -> reg_id r <> reg_id reg ->
  nvmf_ns_reservation_all_registrants_type (rm n r) = true /\ holder (rm n r) <> None
  /\ reg ∈ registrants (rm n r).
Proof.
  intros Ha Hh Hin Hne.
  assert (Hin' : reg ∈ rm_regs r (registrants n)) by (apply elem_of_rm_regs; auto).
  rewrite rm_registrants. unfold rm, rehold. cbn [with_regs holder registrants].
  destruct (holder n) as [h|]; [|done].
  assert (Ha' : nvmf_ns_reservation_all_registrants_type
                  (with_regs (rm_regs r (registrants n)) n) = true) by exact Ha.
  rewrite Ha'. destruct (rm_regs r (registrants n)) as [|x l]; [set_solver|]. done.
Qed.

Lemma fold_rm_all_regs l n reg :
  nvmf_ns_reservation_all_registrants_type n = true -> holder n <> None ->
  reg ∈ registrants n -> (forall r, r ∈ l -> reg_id r <> reg_id reg) ->
  holder (fold_left rm l n) <> None.
Proof.
  revert n. induction l as [|r l IH]; intros n Ha Hh Hin Hl; cbn; [done|].
  destruct (rm_all_regs n r reg Ha Hh Hin) as (A & B & C); [apply Hl; set_solver|].
  apply IH; try done. set_solver.
Qed.

Lemma bits_range x lo len : 0 <= len -> 0 <= bits x lo len.
Proof.
  intros Hl. unfold bits. apply Z.land_nonneg. right.
  pose proof (Z.pow_pos_nonneg 2 len). lia.
Qed.

Section Hosts.
Context (E : renv) (H : list Z).
Hypothesis H_nodup : NoDup H.
Hypothesis H_len : (length H <= 16)%nat.

Lemma get_all_other_run c s :
  resv_inv H s ->
  nvmf_ns_reservation_get_all_other_hostid c s
  = Ok (filter (fun h => h <> c) (map hostid (registrants (ns s))), s).
Proof.
  intros HI. unfold nvmf_ns_reservation_get_all_other_hostid. mstep.
  destruct (hosts_length H _ _ c H_nodup H_len HI) as [Hl _].
  destruct (Nat.ltb_spec SPDK_NVMF_MAX_NUM_REGISTRANTS
    (length (filter (fun h => h <> c) (map hostid (registrants (ns s)))))) as [Hlt|]; [|done].
  unfold SPDK_NVMF_MAX_NUM_REGISTRANTS in Hlt. lia.
Qed.

(** Notifications change only the log and the allocation count. *)
Definition same_resv (s s' : rst) : Prop :=
  ns s' = ns s /\ next_reg s' = next_reg s /\ stored s' = stored s.

Lemma notice_log_ok c type Q s :
  (forall s', same_resv s s' -> Q tt s') ->
  wp (nvmf_ctrlr_reservation_notice_log E c type) Q s.
Proof.
  intros HQ. unfold nvmf_ctrlr_reservation_notice_log. do 2 wstep.
  destruct (negb _); wstep; apply HQ; done.
Qed.

Lemma notify_ok cs h type Q s :
  (forall s', same_resv s s' -> Q tt s') -> wp (notify_ctrlrs E cs h type) Q s.
Proof.
  revert s. induction cs as [|c cs IH]; intros s HQ; cbn [notify_ctrlrs]; [by wstep; apply HQ|].
  wstep. destruct (_ =? _).
  - apply notice_log_ok. intros s1 (A1 & A2 & A3). apply IH. intros s2 (B1 & B2 & B3).
    apply HQ. repeat split; congruence.
  - wstep. by apply IH.
Qed.

Lemma notification_ok hosts type Q s :
  (forall s', same_resv s s' -> Q tt s') ->
  wp (nvmf_subsystem_gen_ctrlr_notification E hosts type) Q s.
Proof.
  revert s. induction hosts as [|h hosts IH]; intros s HQ; cbn; [by wstep; apply HQ|].
  wstep. apply notify_ok. intros s1 (A1 & A2 & A3). apply IH. intros s2 (B1 & B2 & B3).
  apply HQ. repeat split; congruence.
Qed.

Lemma add_registrant_ok c nrkey s :
  resv_inv H s -> c_hostid c ∈ H -> nrkey <> 0 ->
  nvmf_ns_reservation_get_registrant (c_hostid c) (ns s) = None ->
  wp (nvmf_ns_reservation_add_registrant E c nrkey) (fun _ => resv_inv H) s.
Proof.
  intros [H1 H2 H3 H4 H5 H6 H7 H8 H9] Hc Hk Hn.
  unfold nvmf_ns_reservation_add_registrant. do 2 wstep.
  destruct (r_alloc E (n_calloc s)); do 3 wstep; [|by constructor].
  constructor; cbn -[wrap]; rewrite ?map_app; cbn [map]; try done.
  - apply NoDup_app. split; [done|]. split; [|apply NoDup_singleton].
    intros i (r & -> & Hr)%list_elem_of_fmap Hin. apply H2 in Hr.
    assert (reg_id r = next_reg s) by set_solver. lia.
  - intros r [Hr|Hr%list_elem_of_singleton]%elem_of_app; [apply H2 in Hr; lia|].
    subst r. cbn. lia.
  - apply NoDup_app. split; [done|]. split; [|apply NoDup_singleton].
    intros h (r & -> & Hr)%list_elem_of_fmap Hin.
    apply (get_registrant_none _ _ _ Hn Hr). set_solver.
  - intros r [Hr|Hr%list_elem_of_singleton]%elem_of_app; [auto|by subst r].
  - intros r [Hr|Hr%list_elem_of_singleton]%elem_of_app; [auto|by subst r].
  - intros h Hh. apply elem_of_app. auto.
  - apply wrap_range. lia.
Qed.

Lemma register_ptpl_ok req s :
  resv_inv H s -> wp (register_ptpl E req) (fun _ s' => resv_inv H s'
    /\ registrants (ns s') = registrants (ns s)) s.
Proof.
  intros HI. unfold register_ptpl. do 2 wstep. case_ifs; repeat wstep;
    (split; [|done]); try done; by destruct HI.
Qed.

Lemma set_rkey_inv nr n id k : k <> 0 -> ns_inv H nr n -> ns_inv H nr (set_rkey id k n).
Proof.
  intros Hk [H1 H2 H3 H4 H5 H6 H7 H8 H9].
  assert (Hid : map reg_id (registrants (set_rkey id k n)) = map reg_id (registrants n)).
  { cbn. rewrite map_map. apply map_ext. intros r. by destruct (Nat.eqb _ _). }
  assert (Hho : map hostid (registrants (set_rkey id k n)) = map hostid (registrants n)).
  { cbn. rewrite map_map. apply map_ext. intros r. by destruct (Nat.eqb _ _). }
  assert (Hin : forall r, r ∈ registrants (set_rkey id k n) -> exists r', r' ∈ registrants n
    /\ reg_id r = reg_id r' /\ hostid r = hostid r' /\ (rkey r = k \/ rkey r = rkey r')).
  { intros r (r' & -> & Hr)%list_elem_of_fmap. exists r'. destruct (Nat.eqb _ _); cbn; auto. }
  constructor; rewrite ?Hid, ?Hho; try done.
  - intros r (r' & Hr & -> & _)%Hin. auto.
  - intros r (r' & Hr & _ & -> & _)%Hin. auto.
  - intros r (r' & Hr & _ & _ & [->| ->])%Hin; auto.
Qed.

Lemma register_ok c req s :
  resv_inv H s -> c_hostid c ∈ H ->
  wp (nvmf_ns_reservation_register E c req) (fun _ => resv_inv H) s.
Proof.
  intros HI Hc. unfold nvmf_ns_reservation_register.
  destruct (negb (_ && _)); [by wstep|].
  wstep. eapply wp_mono; [by apply register_ptpl_ok|]. intros [upd|] s1 [HI1 _]; [|by wstep].
  do 2 wstep.
  assert (Hadd : nvmf_ns_reservation_get_registrant (c_hostid c) (ns s1) = None -> key1 req <> 0 ->
    wp (ok ← nvmf_ns_reservation_add_registrant E c (key1 req);
        if (ok : bool) then mret (SPDK_NVME_SC_SUCCESS, true)
        else mret (SPDK_NVME_SC_INTERNAL_DEVICE_ERROR, upd)) (fun _ => resv_inv H) s1).
  { intros Hn Hk. wstep. eapply wp_mono; [by apply add_registrant_ok|].
    intros [] s2 HI2; by wstep. }
  destruct (nvmf_ns_reservation_get_registrant (c_hostid c) (ns s1)) as [r|] eqn:Er.
  - destruct (rrega req =? 0); [case_ifs; by wstep|].
    destruct (rrega req =? 1).
    + destruct (negb (iekey req) && _); [by wstep|].
      wstep. eapply wp_eval; [by apply get_all_other_run|]. wstep.
      eapply wp_eval; [by eapply remove_registrant_run|]. do 2 wstep.
      pose proof (rm_inv _ _ _ r HI1) as HI2. wstep.
      destruct (_ && _ && _); [|by do 2 wstep].
      apply notification_ok. intros s3 (A1 & A2 & A3). wstep. unfold resv_inv.
      by rewrite A1, A2.
    + destruct (rrega req =? 2); [|by wstep]. destruct (Z.eqb_spec (key1 req) 0); [by wstep|].
      destruct (negb (iekey req) && _); [by wstep|]. destruct (rkey r =? _); [by wstep|].
      do 3 wstep. by apply set_rkey_inv.
  - destruct (rrega req =? 0); [destruct (Z.eqb_spec (key1 req) 0); [by wstep|auto]|].
    destruct (rrega req =? 1); [by wstep|].
    destruct (rrega req =? 2); [|by wstep]. destruct (Z.eqb_spec (key1 req) 0); [by wstep|].
    destruct (iekey req); [auto|by wstep].
Qed.

Lemma acquire_reservation_ok k t reg s :
  resv_inv H s -> holder (ns s) = None -> reg ∈ registrants (ns s) -> 0 <= t <= 6 ->
  wp (nvmf_ns_reservation_acquire_reservation k t reg) (fun _ => resv_inv H) s.
Proof.
  intros [H1 H2 H3 H4 H5 H6 H7 H8 H9] Hn Hr Ht.
  unfold nvmf_ns_reservation_acquire_reservation. do 3 wstep.
  apply wp_assert; [by apply bool_decide_true|]. wstep. constructor; try done.
  intros h [= <-]. by apply list_elem_of_fmap_2.
Qed.

Lemma remove_where_ok p s Q :
  resv_inv H s ->
  (forall k s', s' = set_ns (fun _ => fold_left rm (List.filter p (registrants (ns s))) (ns s)) s ->
     resv_inv H s' -> Q k s') ->
  wp (remove_where p (registrants (ns s))) Q s.
Proof.
  intros HI HQ. eapply wp_eval; [by eapply remove_where_run|].
  apply HQ; [done|]. by apply fold_rm_inv.
Qed.

Lemma preempt_other_ok req reg s :
  resv_inv H s -> reg ∈ registrants (ns s) ->
  nvmf_ns_reservation_all_registrants_type (ns s) = false ->
  holder (ns s) <> None -> holder (ns s) <> Some (reg_id reg) -> 0 <= req_rtype req <= 6 ->
  wp (h ← load_holder; _ ← nvmf_ns_reservation_remove_registrant h;
      nvmf_ns_reservation_acquire_reservation (key0 req) (req_rtype req) reg)
     (fun _ => resv_inv H) s.
Proof.
  intros HI Hr Ha Hh Hne Ht. destruct (holder (ns s)) as [h|] eqn:Eh; [|done].
  destruct (holder_reg_ok _ _ _ _ HI Eh) as (r & Hf & Hin & Hid). wstep.
  eapply wp_eval.
  { unfold load_holder, mbind, M_bind, get. rewrite Eh. unfold holder_reg in Hf.
    rewrite Eh in Hf. cbn in Hf. rewrite Hf. reflexivity. }
  wstep. eapply wp_eval; [by eapply remove_registrant_run|].
  subst h. pose proof (rm_inv _ _ _ r HI) as HI2.
  apply acquire_reservation_ok; [done| | |done].
  - change (holder (rm (ns s) r) = None). by rewrite rm_holder_released.
  - change (reg ∈ registrants (rm (ns s) r)). rewrite rm_registrants. apply elem_of_rm_regs. split; [done|]. congruence.
Qed.

Lemma acquire_preempt_ok c req reg s :
  resv_inv H s -> reg ∈ registrants (ns s) -> 0 <= req_rtype req <= 6 ->
  wp (acquire_preempt c req reg (nvmf_ns_reservation_all_registrants_type (ns s)))
     (fun _ => resv_inv H) s.
Proof.
  intros HI Hr Ht. unfold acquire_preempt. do 2 wstep.
  destruct (holder (ns s)) as [h|] eqn:Eh.
  2: { wstep. unfold nvmf_ns_reservation_remove_registrants_by_key. do 2 wstep.
       apply remove_where_ok; [done|]. intros k s' _ HI'. by wstep. }
  wstep. eapply wp_eval; [by apply get_all_other_run|].
  destruct (nvmf_ns_reservation_all_registrants_type (ns s)) eqn:Ea; cbn [negb].
  - destruct (key1 req =? 0).
    + wstep. unfold nvmf_ns_reservation_remove_all_other_registrants. do 2 wstep.
      apply remove_where_ok; [done|]. intros k s' Hs' HI'. do 3 wstep.
      apply wp_assert; [|by wstep]. apply bool_decide_true.
      assert (Hh : holder (ns s') <> None).
      { subst s'. cbn. apply (fold_rm_all_regs _ _ reg); [done|congruence|done|].
        intros r Hin. apply list_elem_of_In, filter_In in Hin as [_ Hin].
        by apply negb_true_iff, Nat.eqb_neq in Hin. }
      destruct (holder (ns s')) as [h'|] eqn:Eh'; [|done]. f_equal.
      apply (ni_holder _ _ _ HI') in Eh'. apply list_elem_of_fmap in Eh' as (x & -> & Hx).
      subst s'. cbn in Hx. apply elem_of_fold_rm in Hx as [Hx Hno].
      destruct (decide (reg_id x = reg_id reg)) as [|Hne]; [done|].
      destruct (Hno x); [|done]. apply list_elem_of_In, filter_In.
      split; [by apply list_elem_of_In|]. by apply negb_true_iff, Nat.eqb_neq.
    + wstep. unfold nvmf_ns_reservation_remove_registrants_by_key. do 2 wstep.
      apply remove_where_ok; [done|]. intros k s' _ HI'. destruct (k =? 0); by wstep.
  - unfold nvmf_ns_reservation_registrant_is_holder. rewrite Ea.
    destruct (bool_decide (holder (ns s) = Some (reg_id reg)) && _) eqn:Es.
    + do 3 wstep. destruct HI as [H1 H2 H3 H4 H5 H6 H7 H8 H9]. constructor; try done.
      cbn. congruence.
    + destruct (crkey (ns s) =? key1 req).
      * rewrite andb_true_r in Es. apply bool_decide_eq_false in Es.
        assert (Hp : wp (h ← load_holder; _ ← nvmf_ns_reservation_remove_registrant h;
                         nvmf_ns_reservation_acquire_reservation (key0 req) (req_rtype req) reg)
                        (fun _ => resv_inv H) s).
        { apply preempt_other_ok; try done. congruence. }
        destruct Hp as (u & s' & Hp & HI'). exists (Acq SPDK_NVME_SC_SUCCESS true
          (filter (fun h => h <> c_hostid c) (map hostid (registrants (ns s)))) true), s'.
        split; [|done]. revert Hp. unfold mbind, M_bind.
        destruct (load_holder s) as [[x s1]| | |]; [|discriminate..].
        destruct (nvmf_ns_reservation_remove_registrant x s1) as [[? s2]| | |]; [|discriminate..].
        intros ->. done.
      * destruct (negb _); [|by wstep]. wstep.
        unfold nvmf_ns_reservation_remove_registrants_by_key. do 2 wstep.
        apply remove_where_ok; [done|]. intros k s' _ HI'. by wstep.
Qed.

Lemma acquire_body_ok c req s :
  resv_inv H s -> wp (acquire_body c req) (fun _ => resv_inv H) s.
Proof.
  intros HI. unfold acquire_body. destruct (negb (_ && _)); [by wstep|].
  destruct (iekey req || _) eqn:Et; [by wstep|]. do 2 wstep.
  apply orb_false_iff in Et as [_ Et]. apply Z.ltb_ge in Et.
  assert (Ht : 0 <= req_rtype req <= 6) by (split; [by apply bits_range|exact Et]).
  destruct (nvmf_ns_reservation_get_registrant _ _) as [reg|] eqn:Er; [|by wstep].
  apply get_registrant_some in Er as [Hr _].
  destruct (negb (rkey reg =? _)); [by wstep|].
  destruct (racqa req =? 0).
  - destruct (_ && _); [by wstep|]. destruct (holder (ns s)) eqn:Eh; [by wstep|].
    wstep. eapply wp_mono; [by apply acquire_reservation_ok|]. intros [] s' HI'. by wstep.
  - destruct (racqa req =? 1); [by apply acquire_preempt_ok|by wstep].
Qed.

Lemma acquire_ok c req s :
  resv_inv H s -> wp (nvmf_ns_reservation_acquire E c req) (fun _ => resv_inv H) s.
Proof.
  intros HI. unfold nvmf_ns_reservation_acquire. wstep.
  eapply wp_mono; [by apply acquire_body_ok|]. intros a s1 HI1. wstep.
  destruct (a_update a && _); [|by do 2 wstep]. wstep.
  eapply wp_eval; [by apply get_all_other_run|]. wstep.
  apply notification_ok. intros s2 (A1 & A2 & _).
  assert (HI2 : resv_inv H s2) by (unfold resv_inv; by rewrite A1, A2).
  destruct (a_released a); [|by do 2 wstep].
  apply notification_ok. intros s3 (B1 & B2 & _). wstep. unfold resv_inv. by rewrite B1, B2.
Qed.

Lemma release_ok c req s :
  resv_inv H s -> wp (nvmf_ns_reservation_release E c req) (fun _ => resv_inv H) s.
Proof.
  intros HI. unfold nvmf_ns_reservation_release. destruct (negb (_ && _)); [by wstep|].
  destruct (iekey req); [by wstep|]. do 2 wstep.
  destruct (nvmf_ns_reservation_get_registrant _ _) as [reg|]; [|by wstep].
  destruct (negb (rkey reg =? _)); [by wstep|]. wstep.
  eapply wp_eval; [by apply get_all_other_run|].
  destruct (rrela req =? 0).
  - destruct (holder (ns s)); [|by wstep]. do 2 (destruct (negb _); [by wstep|]).
    unfold nvmf_ns_reservation_release_reservation. do 2 wstep. set (s1 := set_ns _ s).
    assert (HI1 : resv_inv H s1) by (destruct HI; by constructor).
    wstep. destruct (_ && _ && _); [|by do 2 wstep].
    apply notification_ok. intros s3 (B1 & B2 & _). wstep. unfold resv_inv. by rewrite B1, B2.
  - destruct (rrela req =? 1); [|by wstep]. wstep.
    unfold nvmf_ns_reservation_clear_all_registrants. do 2 wstep.
    apply remove_where_ok; [done|]. intros k s' _ HI'. wstep.
    apply notification_ok. intros s3 (B1 & B2 & _). wstep. unfold resv_inv. by rewrite B1, B2.
Qed.

Lemma update_info_ok s :
  resv_inv H s ->
  wp (nvmf_ns_update_reservation_info E) (fun _ => resv_inv H) s.
Proof.
  intros HI. unfold nvmf_ns_update_reservation_info. do 2 wstep.
  destruct (bdev_uuid E) as [u|]; [|by wstep]. destruct (negb _); [by wstep|].
  wstep.
  assert (Hh : exists hu, ((if (rtype (ns s) =? 0) || nvmf_ns_reservation_all_registrants_type (ns s)
     then mret None
     else match holder (ns s) with
          | None => fail UB_assert
          | Some _ => r ← lift_opt UB_freed (holder_reg (ns s)); mret (Some (hostid r))
          end) : M rst (option Z)) s = Ok (hu, s)).
  { destruct (_ || _) eqn:Eo; [by exists None|]. apply orb_false_iff in Eo as [Et _].
    destruct (holder (ns s)) as [h|] eqn:Eh.
    - destruct (holder_reg_ok _ _ _ _ HI Eh) as (r & -> & _). by exists (Some (hostid r)).
    - destruct (ni_none _ _ _ HI Eh) as [Ht _]. rewrite Ht in Et. discriminate. }
  destruct Hh as [hu Hh]. eapply wp_eval; [exact Hh|].
  destruct (hosts_length H _ _ 0 H_nodup H_len HI) as [_ Hl].
  destruct (Nat.ltb_spec SPDK_NVMF_MAX_NUM_REGISTRANTS (length (registrants (ns s)))) as [Hlt|_].
  { unfold SPDK_NVMF_MAX_NUM_REGISTRANTS in Hlt. lia. }
  by do 3 wstep.
Qed.

Lemma request_ok c req s :
  resv_inv H s -> c_hostid c ∈ H ->
  wp (nvmf_ns_reservation_request E c req) (fun _ => resv_inv H) s.
Proof.
  intros HI Hc. unfold nvmf_ns_reservation_request. wstep.
  apply (wp_mono _ (fun _ => resv_inv H)).
  - destruct (opc req =? SPDK_NVME_OPC_RESERVATION_REGISTER); [by apply register_ok|].
    destruct (_ =? _); [by apply acquire_ok|]. destruct (_ =? _); [by apply release_ok|].
    destruct (_ =? _); [|by wstep]. wstep. unfold nvmf_ns_reservation_report.
    case_ifs; repeat wstep; done.
  - intros [sc upd] s1 HI1. destruct upd; [|by wstep]. do 2 wstep.
    destruct (_ || _); [|by wstep]. wstep. eapply wp_mono; [by apply update_info_ok|].
    intros rc s2 HI2. destruct (rc =? 0); by wstep.
Qed.

End Hosts.
