(* ===== verification/ReservationTheorems.v ===== *)
(** * What the reservation code guarantees

    Safety of every sequence of requests, stability and transfer of
    reservations, correctness of the I/O check against the reservation state,
    the persistence round trip, and the inputs on which the code fails. *)

From S2P Require Import Prelude Reservation ReservationLemmas.

(** ** Sequences of requests *)

Fixpoint run_requests (E : renv) (l : list (ctrlr_t * req_t)) : M rst (list (Z * bool)) :=
  match l with
  | [] => mret []
  | (c, req) :: l' =>
      r ← nvmf_ns_reservation_request E c req;
      rs ← run_requests E l'; mret (r :: rs)
  end.

(** A namespace without registrants. *)
Definition empty_ns : ns_t := Ns [] 0 0 0 None false 0.
Definition init_rst : rst := Rst empty_ns 0 0 [] [].

Lemma init_resv_inv H : resv_inv H init_rst.
Proof. constructor; cbn; try done; try (intros; set_solver); constructor. Qed.

(** C3: Safety.  When at most 16 hosts send requests, every sequence of
    reservation requests, with arbitrary contents and arbitrary results of the
    allocator and of the persistence layer, is processed without a failed
    assertion, a null or dangling holder, or a write past the 16 slots of the
    persistent information, and maintains the invariant: one registrant per
    host with a nonzero key, a holder that is a registrant, and no reservation
    type or key without a holder. *)
Theorem reservation_requests_safe E H l :
  NoDup H -> (length H <= 16)%nat -> Forall (fun x => c_hostid x.1 ∈ H) l ->
  exists rs s', run_requests E l init_rst = Ok (rs, s') /\ resv_inv H s'.
Proof.
  intros Hnd Hlen Hl. pose proof (init_resv_inv H) as HI. revert HI.
  generalize init_rst. induction Hl as [|[c req] l Hc _ IH]; intros s HI; cbn [run_requests].
  { exists [], s. done. }
  destruct (request_ok E H Hnd Hlen c req s HI Hc) as (r & s1 & Hr & HI1).
  erewrite M_bind_ok by exact Hr.
  destruct (IH s1 HI1) as (rs & s2 & Hrs & HI2). erewrite M_bind_ok by exact Hrs.
  exists (r :: rs), s2. done.
Qed.

(** Register dword with key 5, and acquire of Write Exclusive. *)
Definition demo_env : renv := Renv [Ctrlr 1 11; Ctrlr 2 22] true (Some 7) (fun _ => 0) (fun _ => true).
Definition demo_register (k : Z) : req_t := Req 0x0d (Z.shiftl 3 30) 0 1 16 0 k.
Definition demo_acquire (k t : Z) : req_t := Req 0x11 (Z.shiftl t 8) 0 1 16 k 0.
Definition demo_preempt (k p t : Z) : req_t := Req 0x11 (Z.lor 1 (Z.shiftl t 8)) 0 1 16 k p.
Definition demo_replace (k : Z) : req_t := Req 0x0d (Z.lor 2 8) 0 1 16 0 k.
Definition demo_unregister : req_t := Req 0x0d (Z.lor 1 8) 0 1 16 0 0.

Lemma reservation_requests_safe_witness :
  exists rs s', run_requests demo_env
    [(Ctrlr 1 11, demo_register 5); (Ctrlr 2 22, demo_register 6);
     (Ctrlr 1 11, demo_acquire 5 1); (Ctrlr 2 22, demo_preempt 6 5 2)] init_rst = Ok (rs, s').
Proof.
  destruct (reservation_requests_safe demo_env [11; 22]
    [(Ctrlr 1 11, demo_register 5); (Ctrlr 2 22, demo_register 6);
     (Ctrlr 1 11, demo_acquire 5 1); (Ctrlr 2 22, demo_preempt 6 5 2)])
    as (rs & s' & Hr & _).
  - apply (bool_decide_unpack _). vm_compute. exact I.
  - cbn. lia.
  - repeat constructor; cbn; set_solver.
  - exists rs, s'. exact Hr.
Defined.

(** ** Who can change a reservation *)

Section Stability.
Context (E : renv) (H : list Z).
Hypothesis H_nodup : NoDup H.
Hypothesis H_len : (length H <= 16)%nat.

Lemma update_info_ns s Q :
  resv_inv H s -> (forall rc s', ns s' = ns s -> Q rc s') ->
  wp (nvmf_ns_update_reservation_info E) Q s.
Proof.
  intros HI HQ. destruct (update_info_ok E H H_nodup H_len s HI) as (rc & s' & Hr & _).
  exists rc, s'. split; [done|]. apply HQ. unfold nvmf_ns_update_reservation_info in Hr.
  apply M_bind_inv in Hr as (s1 & s2 & Hg & Hr). injection Hg as <- <-.
  destruct (bdev_uuid E); [|by injection Hr as _ <-].
  destruct (negb _); [by injection Hr as _ <-|].
  apply M_bind_inv in Hr as (hu & s3 & Hh & Hr).
  destruct (_ <? _)%nat; [discriminate|].
  apply M_bind_inv in Hr as (u & s4 & Hp & Hr). injection Hp as _ <-. by injection Hr as _ <-.
Qed.

(** A property of the namespace that holds after the handler holds after the
    whole request. *)
Lemma request_ns c req s (P : ns_t -> Prop) :
  wp (if opc req =? SPDK_NVME_OPC_RESERVATION_REGISTER then nvmf_ns_reservation_register E c req
      else if opc req =? SPDK_NVME_OPC_RESERVATION_ACQUIRE
      then nvmf_ns_reservation_acquire E c req
      else if opc req =? SPDK_NVME_OPC_RESERVATION_RELEASE
      then nvmf_ns_reservation_release E c req
      else if opc req =? SPDK_NVME_OPC_RESERVATION_REPORT
      then '(sc, _) ← nvmf_ns_reservation_report req; mret (sc, false)
      else mret (SPDK_NVME_SC_SUCCESS, false))
     (fun _ s' => resv_inv H s' /\ P (ns s')) s ->
  wp (nvmf_ns_reservation_request E c req) (fun _ s' => P (ns s')) s.
Proof.
  intros Hw. unfold nvmf_ns_reservation_request. wstep. eapply wp_mono; [exact Hw|].
  intros [sc upd] s1 [HI1 HP]. destruct upd; [|by wstep]. do 2 wstep.
  destruct (_ || _); [|by wstep]. wstep. apply update_info_ns; [done|].
  intros rc s2 Hs2. destruct (rc =? 0); wstep; by rewrite Hs2.
Qed.

Lemma report_ns req s : resv_inv H s ->
  wp ('(sc, _) ← nvmf_ns_reservation_report req; mret (sc, false))
     (fun _ s' => resv_inv H s' /\ s' = s) s.
Proof.
  intros HI. wstep. unfold nvmf_ns_reservation_report. case_ifs; repeat wstep; done.
Qed.

(** A request other than Register from a host without a registration has
    no effect on the registrants, the reservation or the generation. *)
Lemma unregistered_host_has_no_effect c req s :
  resv_inv H s -> opc req <> SPDK_NVME_OPC_RESERVATION_REGISTER ->
  nvmf_ns_reservation_get_registrant (c_hostid c) (ns s) = None ->
  wp (nvmf_ns_reservation_request E c req) (fun _ s' => ns s' = ns s) s.
Proof.
  intros HI Ho Hn. apply (request_ns c req s (fun n => n = ns s)).
  rewrite (proj2 (Z.eqb_neq _ _) Ho). destruct (_ =? _); [|destruct (_ =? _)].
  - unfold nvmf_ns_reservation_acquire. wstep.
    apply (wp_mono _ (fun a s' => s' = s /\ a_hosts a = [] /\ a_released a = false)).
    + unfold acquire_body. destruct (negb (_ && _)); [by wstep|].
      destruct (iekey req || _); [by wstep|]. do 2 wstep. rewrite Hn. by wstep.
    + intros a s1 (-> & Ha & Hr). wstep. destruct (a_update a && _); [|by do 2 wstep].
      wstep. eapply wp_eval; [by eapply get_all_other_run|]. rewrite Ha, Hr.
      assert (nvmf_ns_reservation_get_unregistered_hostid []
        (filter (fun h => h <> c_hostid c) (map hostid (registrants (ns s)))) = []) as ->.
      { by destruct (filter _ _). }
      cbn [nvmf_subsystem_gen_ctrlr_notification]. by do 4 wstep.
  - unfold nvmf_ns_reservation_release. destruct (negb (_ && _)); [by wstep|].
    destruct (iekey req); [by wstep|]. do 2 wstep. rewrite Hn. by wstep.
  - destruct (_ =? _); [|by wstep]. eapply wp_mono; [by apply report_ns|].
    by intros a s1 [? ->].
Qed.

(** Registrant [r] holds the reservation of type [t] with key [k]. *)
Definition held (r : registrant) (t k : Z) (n : ns_t) : Prop :=
  r ∈ registrants n /\ holder n = Some (reg_id r) /\ rtype n = t /\ crkey n = k.

Definition single_holder (t : Z) : Prop :=
  t <> SPDK_NVME_RESERVE_WRITE_EXCLUSIVE_ALL_REGS
  /\ t <> SPDK_NVME_RESERVE_EXCLUSIVE_ACCESS_ALL_REGS.

Lemma single_holder_type n :
  single_holder (rtype n) -> nvmf_ns_reservation_all_registrants_type n = false.
Proof.
  intros [H1 H2]. unfold nvmf_ns_reservation_all_registrants_type.
  by rewrite (proj2 (Z.eqb_neq _ _) H1), (proj2 (Z.eqb_neq _ _) H2).
Qed.

Lemma rm_held r t k n x :
  held r t k n -> single_holder t -> reg_id x <> reg_id r -> held r t k (rm n x).
Proof.
  intros (H1 & H2 & H3 & H4) Ha Hne. rewrite <- H3 in Ha. apply single_holder_type in Ha.
  unfold held. rewrite rm_registrants, elem_of_rm_regs.
  split; [split; [done|congruence]|]. unfold rm, rehold. cbn [with_regs holder registrants].
  rewrite H2.
  assert (Ha' : nvmf_ns_reservation_all_registrants_type
                  (with_regs (rm_regs x (registrants n)) n) = false) by exact Ha.
  rewrite Ha'. cbn [orb].
  destruct (rm_regs x (registrants n)) as [|y l].
  - rewrite bool_decide_false by congruence. done.
  - rewrite decide_False by congruence. done.
Qed.

Lemma other_reg r t k n r' h :
  NoDup (map reg_id (registrants n)) -> held r t k n ->
  nvmf_ns_reservation_get_registrant h n = Some r' -> h <> hostid r -> reg_id r' <> reg_id r.
Proof.
  intros Hnd (Hr & _) Hg Hne Hid. apply get_registrant_some in Hg as [Hr' Hh].
  assert (r' = r) as -> by by eapply reg_unique. done.
Qed.

Lemma register_held c req s r t k :
  resv_inv H s -> held r t k (ns s) -> single_holder t -> c_hostid c <> hostid r ->
  wp (nvmf_ns_reservation_register E c req) (fun _ s' => held r t k (ns s')) s.
Proof.
  intros HI Hh Ht Hne. unfold nvmf_ns_reservation_register.
  destruct (negb (_ && _)); [by wstep|]. wstep.
  apply (wp_mono _ (fun _ s' => held r t k (ns s') /\ resv_inv H s')).
  { apply wp_conj; [|eapply wp_mono; [by apply register_ptpl_ok|by intros ?? []]].
    unfold register_ptpl. do 2 wstep. case_ifs; repeat wstep; done. }
  intros [upd|] s1 [Hh1 HI1]; [|by wstep]. do 2 wstep.
  assert (Hadd : wp (ok ← nvmf_ns_reservation_add_registrant E c (key1 req);
        if (ok : bool) then mret (SPDK_NVME_SC_SUCCESS, true)
        else mret (SPDK_NVME_SC_INTERNAL_DEVICE_ERROR, upd))
        (fun _ s' => held r t k (ns s')) s1).
  { wstep. unfold nvmf_ns_reservation_add_registrant. do 2 wstep.
    destruct Hh1 as (A1 & A2 & A3 & A4).
    case_ifs; repeat wstep; (split; [set_solver|done]). }
  destruct (nvmf_ns_reservation_get_registrant (c_hostid c) (ns s1)) as [r'|] eqn:Er.
  - pose proof (other_reg _ _ _ _ _ _ (ni_ids _ _ _ HI1) Hh1 Er Hne) as Hid.
    destruct (rrega req =? 0); [case_ifs; by wstep|]. destruct (rrega req =? 1).
    + destruct (negb (iekey req) && _); [by wstep|].
      wstep. eapply wp_eval; [by eapply get_all_other_run|]. wstep.
      eapply wp_eval; [by eapply remove_registrant_run|]. do 2 wstep.
      assert (Hh2 : held r t k (rm (ns s1) r')) by by apply rm_held. wstep.
      destruct (_ && _ && _); [|by do 2 wstep].
      apply notification_ok. intros s3 (A1 & _). wstep. by rewrite A1.
    + destruct (rrega req =? 2); [|by wstep]. destruct (key1 req =? 0); [by wstep|].
      destruct (negb (iekey req) && _); [by wstep|]. destruct (rkey r' =? _); [by wstep|].
      do 3 wstep. destruct Hh1 as (A1 & A2 & A3 & A4). split; [|done].
      cbn. apply list_elem_of_fmap. exists r.
      rewrite (proj2 (Nat.eqb_neq _ _)) by congruence. done.
  - case_ifs; auto; by wstep.
Qed.

Lemma acquire_held c req s r t k :
  resv_inv H s -> held r t k (ns s) -> single_holder t -> c_hostid c <> hostid r ->
  racqa req <> 1 ->
  wp (nvmf_ns_reservation_acquire E c req) (fun _ s' => held r t k (ns s')) s.
Proof.
  intros HI Hh Ht Hne Ha. unfold nvmf_ns_reservation_acquire. wstep.
  apply (wp_mono _ (fun _ s' => held r t k (ns s'))).
  - unfold acquire_body. destruct (negb (_ && _)); [by wstep|].
    destruct (iekey req || _); [by wstep|]. do 2 wstep.
    destruct (nvmf_ns_reservation_get_registrant _ _) as [r'|] eqn:Er; [|by wstep].
    destruct (negb (rkey r' =? _)); [by wstep|].
    rewrite (proj2 (Z.eqb_neq _ _) Ha). destruct (racqa req =? 0); [|by wstep].
    destruct (_ && _); [by wstep|]. pose proof Hh as (_ & -> & _). by wstep.
  - intros a s1 Hh1. wstep. rewrite (proj2 (Z.eqb_neq _ _) Ha), andb_false_r.
    by do 2 wstep.
Qed.

Lemma release_held c req s r t k :
  resv_inv H s -> held r t k (ns s) -> single_holder t -> c_hostid c <> hostid r ->
  rrela req <> 1 ->
  wp (nvmf_ns_reservation_release E c req) (fun _ s' => held r t k (ns s')) s.
Proof.
  intros HI Hh Ht Hne Ha. unfold nvmf_ns_reservation_release.
  destruct (negb (_ && _)); [by wstep|]. destruct (iekey req); [by wstep|]. do 2 wstep.
  destruct (nvmf_ns_reservation_get_registrant _ _) as [r'|] eqn:Er; [|by wstep].
  pose proof (other_reg _ _ _ _ _ _ (ni_ids _ _ _ HI) Hh Er Hne) as Hid.
  destruct (negb (rkey r' =? _)); [by wstep|]. wstep.
  eapply wp_eval; [by eapply get_all_other_run|].
  rewrite (proj2 (Z.eqb_neq _ _) Ha). destruct (rrela req =? 0); [|by wstep].
  pose proof Hh as (_ & Hho & Hty & _). rewrite Hho. destruct (negb _); [by wstep|].
  unfold nvmf_ns_reservation_registrant_is_holder.
  rewrite <- Hty in Ht. rewrite (single_holder_type _ Ht), Hho.
  rewrite bool_decide_false by congruence. cbn [negb]. by wstep.
Qed.

(** C12: Stability.  While a registrant holds a reservation of a single-holder
    type, no request of another host changes the holder, its registration, the
    type or the key, except a Preempt and a Clear: Register, Unregister and
    Replace of other hosts' keys, Acquire and Release leave it in place. *)
Theorem reservation_stable c req s r t k :
  resv_inv H s -> c_hostid c ∈ H -> held r t k (ns s) -> single_holder t ->
  c_hostid c <> hostid r ->
  ~ (opc req = SPDK_NVME_OPC_RESERVATION_ACQUIRE /\ racqa req = 1) ->
  ~ (opc req = SPDK_NVME_OPC_RESERVATION_RELEASE /\ rrela req = 1) ->
  wp (nvmf_ns_reservation_request E c req) (fun _ s' => held r t k (ns s')) s.
Proof.
  intros HI Hc Hh Ht Hne Hp Hcl. apply request_ns.
  destruct (Z.eqb_spec (opc req) SPDK_NVME_OPC_RESERVATION_REGISTER).
  { apply wp_conj; [by apply register_ok|by apply register_held]. }
  destruct (Z.eqb_spec (opc req) SPDK_NVME_OPC_RESERVATION_ACQUIRE).
  { apply wp_conj; [by apply acquire_ok|apply acquire_held; auto]. }
  destruct (Z.eqb_spec (opc req) SPDK_NVME_OPC_RESERVATION_RELEASE).
  { apply wp_conj; [by apply release_ok|apply release_held; auto]. }
  destruct (_ =? _); [|by wstep]. eapply wp_mono; [by apply report_ns|].
  by intros a s1 [? ->].
Qed.
End Stability.

(** A namespace with two registrants, the first of which holds a Write
    Exclusive reservation. *)
Definition demo_state : rst :=
  Rst (Ns [Reg 0 11 5; Reg 1 22 6] 2 1 5 (Some 0%nat) false 0) 2 0 [] [].

Lemma demo_nodup : NoDup [11; 22].
Proof. apply (bool_decide_unpack _). vm_compute. exact I. Qed.

Lemma demo_resv_inv : resv_inv [11; 22] demo_state.
Proof.
  constructor; cbn; try lia; try (by apply (bool_decide_unpack _); vm_compute).
  - intros r Hr. assert (r = Reg 0 11 5 \/ r = Reg 1 22 6) as [->| ->] by set_solver; cbn; lia.
  - intros r Hr. assert (r = Reg 0 11 5 \/ r = Reg 1 22 6) as [->| ->] by set_solver; set_solver.
  - intros r Hr. assert (r = Reg 0 11 5 \/ r = Reg 1 22 6) as [->| ->] by set_solver; done.
  - intros h [= <-]. set_solver.
Qed.

Lemma demo_held : held (Reg 0 11 5) 1 5 (ns demo_state).
Proof. split; [set_solver|done]. Qed.

Lemma unregistered_host_demo :
  wp (nvmf_ns_reservation_request demo_env (Ctrlr 3 33) (demo_acquire 5 1))
     (fun _ s' => ns s' = ns demo_state) demo_state.
Proof.
  apply (unregistered_host_has_no_effect demo_env [11; 22] demo_nodup); [cbn; lia| | |].
  - apply demo_resv_inv.
  - discriminate.
  - reflexivity.
Defined.

Lemma reservation_stable_witness :
  wp (nvmf_ns_reservation_request demo_env (Ctrlr 2 22) (demo_acquire 6 1))
     (fun _ s' => held (Reg 0 11 5) 1 5 (ns s')) demo_state.
Proof.
  apply (reservation_stable demo_env [11; 22] demo_nodup); [cbn; lia| | | | | | |].
  - apply demo_resv_inv.
  - cbn. set_solver.
  - apply demo_held.
  - split; discriminate.
  - discriminate.
  - intros [_ Ha]. discriminate Ha.
  - intros [Ha _]. discriminate Ha.
Defined.

(** ** Preemption *)

Section Preempt.
Context (E : renv) (H : list Z).
Hypothesis H_nodup : NoDup H.
Hypothesis H_len : (length H <= 16)%nat.

(** A well-formed Preempt of registrant [reg]. *)
Record preempt_req (c : ctrlr_t) (req : req_t) (reg : registrant) (n : ns_t) : Prop := {
  pr_buf : 0 < iovcnt req;
  pr_len : 16 <= length_ req;
  pr_iekey : iekey req = false;
  pr_type : req_rtype req <= 6;
  pr_action : racqa req = 1;
  pr_reg : nvmf_ns_reservation_get_registrant (c_hostid c) n = Some reg;
  pr_key : rkey reg = key0 req }.

Lemma acquire_of_preempt c req reg s (P : ns_t -> Prop) :
  resv_inv H s -> preempt_req c req reg (ns s) ->
  wp (acquire_preempt c req reg (nvmf_ns_reservation_all_registrants_type (ns s)))
     (fun a s' => resv_inv H s' /\ P (ns s') /\ a_status a = SPDK_NVME_SC_SUCCESS
                  /\ a_update a = true) s ->
  wp (nvmf_ns_reservation_acquire E c req)
     (fun r s' => r = (SPDK_NVME_SC_SUCCESS, true) /\ P (ns s')) s.
Proof.
  intros HI [Hb Hl Hi Ht Ha Hr Hk] Hw. unfold nvmf_ns_reservation_acquire. wstep.
  apply (wp_mono _ (fun a s' => resv_inv H s' /\ P (ns s')
    /\ a_status a = SPDK_NVME_SC_SUCCESS /\ a_update a = true)).
  - unfold acquire_body. rewrite (proj2 (Z.ltb_lt _ _) Hb), (proj2 (Z.leb_le _ _) Hl), Hi.
    unfold SPDK_NVME_RESERVE_EXCLUSIVE_ACCESS_ALL_REGS.
    rewrite (proj2 (Z.ltb_ge 6 _) Ht). cbn [andb negb orb]. do 2 wstep.
    rewrite Hr, Hk, Z.eqb_refl, Ha. cbn [negb]. exact Hw.
  - intros a s1 (HI1 & HP & Hs & Hu). wstep. rewrite Hu, Ha, Z.eqb_refl. cbn [andb].
    wstep. eapply wp_eval; [by eapply get_all_other_run|]. wstep.
    apply notification_ok. intros s2 (A1 & _). rewrite Hs.
    destruct (a_released a); [|do 2 wstep; by rewrite A1].
    apply notification_ok. intros s3 (B1 & _). wstep. by rewrite B1, A1.
Qed.

(** C33: Preemption of a single-holder reservation.  A registrant other than
    the holder that presents its own key and the holder's key takes over the
    reservation with the requested type; exactly the old holder loses its
    registration. *)
Theorem preempt_transfers_reservation c req reg s r t :
  resv_inv H s -> preempt_req c req reg (ns s) -> held r t (key1 req) (ns s) ->
  single_holder t -> r <> reg ->
  wp (nvmf_ns_reservation_acquire E c req)
     (fun res s' => res = (SPDK_NVME_SC_SUCCESS, true)
        /\ held reg (req_rtype req) (key0 req) (ns s')
        /\ forall x, x ∈ registrants (ns s') <-> x ∈ registrants (ns s) /\ x <> r) s.
Proof.
  intros HI Hp Hh Ht Hne. pose proof Hp as [_ _ _ Hty _ Hr _].
  apply get_registrant_some in Hr as [Hr _]. destruct Hh as (H1 & H2 & H3 & H4).
  apply (acquire_of_preempt c req reg s (fun n => held reg (req_rtype req) (key0 req) n
    /\ forall x, x ∈ registrants n <-> x ∈ registrants (ns s) /\ x <> r)); [done|done|].
  assert (Hid : reg_id r <> reg_id reg).
  { intros He. apply Hne. by eapply reg_unique; [apply HI|..]. }
  assert (Hall : nvmf_ns_reservation_all_registrants_type (ns s) = false)
    by (apply single_holder_type; by rewrite H3).
  rewrite Hall. unfold acquire_preempt. do 2 wstep. rewrite H2. wstep.
  eapply wp_eval; [by eapply get_all_other_run|]. cbn [negb].
  unfold nvmf_ns_reservation_registrant_is_holder. rewrite Hall, H2, H4, Z.eqb_refl.
  rewrite bool_decide_false by congruence. cbn [andb]. wstep.
  destruct (holder_reg_ok _ _ _ _ HI H2) as (r' & Hf & Hin & He).
  assert (r' = r) as -> by by eapply reg_unique; [apply HI|..].
  eapply wp_eval.
  { unfold load_holder, mbind, M_bind, get. rewrite H2. unfold holder_reg in Hf.
    rewrite H2 in Hf. cbn in Hf. rewrite Hf. reflexivity. }
  wstep. eapply wp_eval; [by eapply remove_registrant_run|]. wstep.
  pose proof (rm_inv _ _ _ r HI) as HI2. set (s1 := set_ns _ s).
  assert (Hs1 : holder (ns s1) = None) by (cbn [s1 set_ns ns]; by rewrite rm_holder_released).
  assert (Hr1 : registrants (ns s1) = rm_regs r (registrants (ns s)))
    by (cbn [s1 set_ns ns]; by rewrite rm_registrants).
  assert (Hreg1 : reg ∈ registrants (ns s1)).
  { rewrite Hr1. apply elem_of_rm_regs. auto. }
  apply (wp_mono _ (fun _ s' => resv_inv H s' /\
    ns s' = with_reservation (req_rtype req) (key0 req) (Some (reg_id reg)) (ns s1))).
  - apply wp_conj; [apply acquire_reservation_ok; try done; split; [by apply bits_range|done]|].
    unfold nvmf_ns_reservation_acquire_reservation. do 3 wstep.
    apply wp_assert; [by apply bool_decide_true|]. by wstep.
  - intros [] s2 [HI3 Hs2]. wstep. split; [done|]. split; [|done]. rewrite Hs2. split.
    + by split.
    + intros x. cbn. change (x ∈ registrants (ns s1) <-> x ∈ registrants (ns s) /\ x <> r).
      rewrite Hr1, elem_of_rm_regs. split; intros [Hx Hx']; (split; [done|]); [congruence|].
      intros He'. apply Hx'. by eapply reg_unique; [apply HI|..].
Qed.

End Preempt.

Lemma preempt_transfers_witness :
  wp (nvmf_ns_reservation_acquire demo_env (Ctrlr 2 22) (demo_preempt 6 5 2))
     (fun res s' => res = (SPDK_NVME_SC_SUCCESS, true)
        /\ held (Reg 1 22 6) 2 6 (ns s')
        /\ forall x, x ∈ registrants (ns s') <-> x ∈ registrants (ns demo_state) /\ x <> Reg 0 11 5)
     demo_state.
Proof.
  apply (preempt_transfers_reservation demo_env [11; 22] demo_nodup ltac:(cbn; lia)
    (Ctrlr 2 22) (demo_preempt 6 5 2) (Reg 1 22 6) demo_state (Reg 0 11 5) 1).
  - apply demo_resv_inv.
  - constructor; vm_compute; done.
  - apply demo_held.
  - split; discriminate.
  - discriminate.
Defined.

(** ** The I/O check *)

Definition registered (n : ns_t) (h : Z) : Prop :=
  exists r, r ∈ registrants n /\ hostid r = h.
(** [h] is (one of) the reservation holder(s). *)
Definition holds (n : ns_t) (h : Z) : Prop :=
  exists r, r ∈ registrants n /\ hostid r = h
    /\ (nvmf_ns_reservation_all_registrants_type n = true \/ holder n = Some (reg_id r)).

Definition is_write (o : Z) : Prop :=
  o ∈ [SPDK_NVME_OPC_FLUSH; SPDK_NVME_OPC_WRITE; SPDK_NVME_OPC_WRITE_UNCORRECTABLE;
       SPDK_NVME_OPC_WRITE_ZEROES; SPDK_NVME_OPC_DATASET_MANAGEMENT].
Definition is_read (o : Z) : Prop := o ∈ [SPDK_NVME_OPC_READ; SPDK_NVME_OPC_COMPARE].

(** The copy of the poll group decides registration and holding as the
    namespace does. *)
Lemma poll_group_copy H s p c :
  NoDup H -> (length H <= 16)%nat -> resv_inv H s -> rtype (ns s) <> 0 -> c_hostid c <> 0 ->
  exists p', poll_group_update_ns (ns s) p = Ok (p', 0) /\ p_rtype p' = rtype (ns s)
    /\ (nvmf_ns_info_ctrlr_is_registrant p' c = true <-> registered (ns s) (c_hostid c))
    /\ (p_holder_id p' = c_hostid c -> holds (ns s) (c_hostid c))
    /\ (nvmf_ns_reservation_all_registrants_type (ns s) = false -> holds (ns s) (c_hostid c) ->
        p_holder_id p' = c_hostid c).
Proof.
  intros Hnd Hl HI Ht Hc. unfold poll_group_update_ns.
  destruct (holder (ns s)) as [h|] eqn:Eh; [|by destruct (ni_none _ _ _ HI Eh)].
  destruct (holder_reg_ok _ _ _ _ HI Eh) as (r & -> & Hr & Hid).
  destruct (hosts_length H _ _ 0 Hnd Hl HI) as [_ Hlen].
  eexists. split; [|split; [|split; [|split]]]; cbn [mbind res_bind].
  - unfold mret, res_ret. rewrite length_map.
    destruct (Nat.ltb_spec SPDK_NVMF_MAX_NUM_REGISTRANTS (length (registrants (ns s)))) as [Hlt|_].
    { unfold SPDK_NVMF_MAX_NUM_REGISTRANTS in Hlt. lia. }
    reflexivity.
  - done.
  - unfold nvmf_ns_info_ctrlr_is_registrant; cbn [p_reg_hostid].
    rewrite take_ge by (rewrite length_map; exact Hlen).
    rewrite existsb_exists. split.
    + intros (x & Hx & Hex). apply Z.eqb_eq in Hex as ->.
      apply list_elem_of_In in Hx. apply elem_of_app in Hx as [Hx|Hx].
      * apply list_elem_of_fmap in Hx as (r' & Hr' & Hin). exists r'. auto.
      * apply elem_of_replicate in Hx as [? _]. done.
    + intros (r' & Hin & Hr'). exists (c_hostid c). split; [|apply Z.eqb_refl].
      apply list_elem_of_In, elem_of_app. left. rewrite <- Hr'. by apply list_elem_of_fmap_2.
  - cbn. intros He. exists r. split; [done|]. split; [done|]. right. congruence.
  - cbn. intros Ha (r' & Hin & Hr' & [Ha'|Ho]); [congruence|].
    assert (r' = r) as -> by (eapply reg_unique; [apply HI|done|done|congruence]). done.
Qed.

Lemma all_regs_holds n h :
  nvmf_ns_reservation_all_registrants_type n = true -> holds n h <-> registered n h.
Proof.
  intros Ha. split.
  - intros (r & ? & ? & _). by exists r.
  - intros (r & ? & ?). exists r. auto.
Qed.

Lemma holds_registered n h : holds n h -> registered n h.
Proof. intros (r & ? & ? & _). by exists r. Qed.

(** The check for data commands as a function of the type and of what the copy
    says about the controller. *)
Definition check_table (t : Z) (reg hol wr : bool) : bool :=
  if ((t =? 5) || (t =? 6)) && reg then true else if hol then true
  else if wr then negb ((t =? 1) || (t =? 2)) && reg
  else negb (t =? 2) && (negb ((t =? 4) || (t =? 6)) || reg).

Lemma check_is_table p c req (wr : bool) :
  p_rtype p <> 0 -> (if wr then is_write (opc req) else is_read (opc req)) ->
  nvmf_ns_reservation_request_check p c req = 0
  <-> check_table (p_rtype p) (nvmf_ns_info_ctrlr_is_registrant p c)
        (p_holder_id p =? c_hostid c) wr = true.
Proof.
  intros Ht Ho. unfold nvmf_ns_reservation_request_check, reservation_check_status, check_table.
  rewrite (proj2 (Z.eqb_neq _ _) Ht).
  unfold SPDK_NVME_RESERVE_WRITE_EXCLUSIVE_ALL_REGS, SPDK_NVME_RESERVE_EXCLUSIVE_ACCESS_ALL_REGS,
    SPDK_NVME_RESERVE_WRITE_EXCLUSIVE, SPDK_NVME_RESERVE_EXCLUSIVE_ACCESS,
    SPDK_NVME_RESERVE_EXCLUSIVE_ACCESS_REG_ONLY.
  set (t := p_rtype p). set (reg := nvmf_ns_info_ctrlr_is_registrant p c).
  set (hol := p_holder_id p =? c_hostid c). generalize (opc req), Ho. clear Ho. intros o Ho.
  destruct wr; unfold is_write, is_read in Ho;
    repeat (apply elem_of_cons in Ho as [->|Ho]); try (by apply elem_of_nil in Ho);
    destruct (t =? 1), (t =? 2), (t =? 4), (t =? 5), (t =? 6), reg, hol; vm_compute; done.
Qed.

Lemma table_logic t (reg hol wr : bool) (R Hd : Prop) :
  1 <= t <= 6 -> (reg = true <-> R) -> (hol = true -> Hd) ->
  (t <> 5 -> t <> 6 -> Hd -> hol = true) -> (t = 5 \/ t = 6 -> Hd <-> R) -> (Hd -> R) ->
  check_table t reg hol wr = true
  <-> if wr then Hd \/ R /\ (t = 3 \/ t = 4)
      else Hd \/ (t = 1 \/ t = 3 \/ t = 5) \/ R /\ t = 4.
Proof.
  intros Ht HR H1 H2 H3 H4.
  assert (t = 1 \/ t = 2 \/ t = 3 \/ t = 4 \/ t = 5 \/ t = 6)
    as [->|[->|[->|[->|[->| ->]]]]] by lia; destruct wr, reg, hol; cbv [check_table];
    cbn [Z.eqb Pos.eqb orb andb negb];
    (assert (HRb : R \/ ~ R) by (first [left; tauto|right; intros ?; naive_solver]));
    intuition (congruence || lia).
Qed.

(** The check for the reservation commands and for the opcodes it does not know. *)
Lemma check_others p c req :
  p_rtype p <> 0 ->
  let reg := nvmf_ns_info_ctrlr_is_registrant p c in
  let hold := ((p_rtype p =? 5) || (p_rtype p =? 6)) && reg || (p_holder_id p =? c_hostid c) in
  (opc req = SPDK_NVME_OPC_RESERVATION_ACQUIRE ->
     nvmf_ns_reservation_request_check p c req = 0 <-> hold || negb (racqa req =? 0) && reg = true)
  /\ (opc req = SPDK_NVME_OPC_RESERVATION_RELEASE ->
     nvmf_ns_reservation_request_check p c req = 0 <-> hold || reg = true)
  /\ (~ is_write (opc req) -> ~ is_read (opc req) -> opc req <> SPDK_NVME_OPC_RESERVATION_ACQUIRE ->
      opc req <> SPDK_NVME_OPC_RESERVATION_RELEASE -> nvmf_ns_reservation_request_check p c req = 0).
Proof.
  intros Ht reg hold. unfold nvmf_ns_reservation_request_check, reservation_check_status.
  rewrite (proj2 (Z.eqb_neq _ _) Ht).
  unfold SPDK_NVME_RESERVE_WRITE_EXCLUSIVE_ALL_REGS, SPDK_NVME_RESERVE_EXCLUSIVE_ACCESS_ALL_REGS.
  fold reg. unfold hold. destruct (((p_rtype p =? 5) || (p_rtype p =? 6)) && reg); [by split_and!|].
  destruct (p_holder_id p =? c_hostid c); [by split_and!|]. cbn [orb]. split_and!.
  - intros ->. change (SPDK_NVME_OPC_RESERVATION_ACQUIRE) with 0x11. cbn [Z.eqb Pos.eqb orb].
    destruct (racqa req =? 0), reg; vm_compute; done.
  - intros ->. destruct reg; vm_compute; done.
  - intros Hw Hr Ha Hl. unfold is_write, is_read in Hw, Hr.
    repeat match goal with |- context [opc req =? ?o] =>
      destruct (Z.eqb_spec (opc req) o) as [E|_]; [exfalso; set_solver|] end. done.
Qed.

(** C13: The check that every I/O command passes decides exactly as the
    reservation state demands, opcode by opcode, while a reservation is held, for
    a host with a nonzero identifier and at most 16 registrants.  A flush, write,
    write uncorrectable, write zeroes or dataset management is admitted for the
    holders and, under the registrants-only types, for the registrants; a read or
    compare is moreover admitted for everybody under the three write-exclusive
    types; a reservation acquire is admitted for the holders, and when it
    preempts for the registrants; a reservation release is admitted for the
    registrants; every other opcode, Copy and Reservation Register among them, is
    admitted for everybody. *)
Theorem io_check_correct H s p c req :
  NoDup H -> (length H <= 16)%nat -> resv_inv H s -> rtype (ns s) <> 0 -> c_hostid c <> 0 ->
  exists p', poll_group_update_ns (ns s) p = Ok (p', 0)
    /\ (is_write (opc req) ->
        nvmf_ns_reservation_request_check p' c req = 0
        <-> holds (ns s) (c_hostid c)
            \/ registered (ns s) (c_hostid c) /\ (rtype (ns s) = 3 \/ rtype (ns s) = 4))
    /\ (is_read (opc req) ->
        nvmf_ns_reservation_request_check p' c req = 0
        <-> holds (ns s) (c_hostid c)
            \/ (rtype (ns s) = 1 \/ rtype (ns s) = 3 \/ rtype (ns s) = 5)
            \/ registered (ns s) (c_hostid c) /\ rtype (ns s) = 4)
    /\ (opc req = SPDK_NVME_OPC_RESERVATION_ACQUIRE ->
        nvmf_ns_reservation_request_check p' c req = 0
        <-> holds (ns s) (c_hostid c) \/ racqa req <> 0 /\ registered (ns s) (c_hostid c))
    /\ (opc req = SPDK_NVME_OPC_RESERVATION_RELEASE ->
        nvmf_ns_reservation_request_check p' c req = 0 <-> registered (ns s) (c_hostid c))
    /\ (~ is_write (opc req) -> ~ is_read (opc req) ->
        opc req <> SPDK_NVME_OPC_RESERVATION_ACQUIRE -> opc req <> SPDK_NVME_OPC_RESERVATION_RELEASE ->
        nvmf_ns_reservation_request_check p' c req = 0).
Proof.
  intros Hnd Hl HI Ht Hc.
  destruct (poll_group_copy H s p c Hnd Hl HI Ht Hc) as (p' & Hp & Hpt & Hreg & Hh1 & Hh2).
  exists p'. split; [done|]. pose proof (ni_type _ _ _ HI) as Hty.
  assert (Hpt' : p_rtype p' <> 0) by congruence.
  pose proof (all_regs_holds (ns s) (c_hostid c)) as Hall.
  pose proof (holds_registered (ns s) (c_hostid c)) as Hhr.
  assert (Hset : (rtype (ns s) = 5 \/ rtype (ns s) = 6) ->
      nvmf_ns_reservation_all_registrants_type (ns s) = true)
    by (intros Ha; unfold nvmf_ns_reservation_all_registrants_type; destruct Ha as [-> | ->]; reflexivity).
  assert (Hlog : forall wr, check_table (rtype (ns s)) (nvmf_ns_info_ctrlr_is_registrant p' c)
      (p_holder_id p' =? c_hostid c) wr = true <-> _)
    by (intros wr; eapply table_logic; [lia|exact Hreg| | | |exact Hhr];
        [rewrite Z.eqb_eq; exact Hh1
        |intros ? ? ?; apply Z.eqb_eq, Hh2; [by apply single_holder_type|done]
        |intros Ha; apply Hall, Hset, Ha]).
  destruct (check_others p' c req Hpt') as (Hacq & Hrel & Hoth). rewrite Hpt in Hacq, Hrel.
  assert (Hhold : ((rtype (ns s) =? 5) || (rtype (ns s) =? 6)) && nvmf_ns_info_ctrlr_is_registrant p' c
      || (p_holder_id p' =? c_hostid c) = true <-> holds (ns s) (c_hostid c)).
  { rewrite orb_true_iff, andb_true_iff, orb_true_iff, !Z.eqb_eq, Hreg. split.
    - intros [[Ha Hr]|Hi]; [by apply Hall; [apply Hset|]|by apply Hh1].
    - intros Hi. destruct (decide (rtype (ns s) = 5 \/ rtype (ns s) = 6)); [left; auto|right].
      apply Hh2; [|done]. apply single_holder_type. split; intros E; apply n; rewrite E; auto. }
  split_and!; [intros Ho; rewrite (check_is_table p' c req true Hpt' Ho), Hpt, Hlog; done
              |intros Ho; rewrite (check_is_table p' c req false Hpt' Ho), Hpt, Hlog; done| | |exact Hoth].
  - intros Ho. rewrite (Hacq Ho), orb_true_iff, Hhold, andb_true_iff, negb_true_iff, Z.eqb_neq, Hreg. done.
  - intros Ho. rewrite (Hrel Ho), orb_true_iff, Hhold, Hreg. tauto.
Qed.

Lemma io_check_correct_witness :
  exists p', poll_group_update_ns (ns demo_state) (PgInfo 0 0 0 []) = Ok (p', 0)
    /\ nvmf_ns_reservation_request_check p' (Ctrlr 2 22) (Req 0x01 0 0 0 0 0 0) <> 0.
Proof.
  destruct (io_check_correct [11; 22] demo_state (PgInfo 0 0 0 []) (Ctrlr 2 22)
    (Req 0x01 0 0 0 0 0 0)) as (p' & Hp & Hw & _).
  - apply demo_nodup.
  - cbn. lia.
  - apply demo_resv_inv.
  - discriminate.
  - discriminate.
  - exists p'. split; [exact Hp|]. intros Hc. apply Hw in Hc; [|unfold is_write; cbn; set_solver].
    destruct Hc as [(r & Hr & He & Hh)|[_ [Hr|Hr]]]; [|discriminate Hr..].
    assert (r = Reg 0 11 5 \/ r = Reg 1 22 6) as [->| ->] by set_solver; [discriminate He|].
    destruct Hh as [Hh|Hh]; discriminate Hh.
Defined.

(** Mutual exclusion.  After any sequence of requests of at most 16
    hosts, while the namespace carries an exclusive reservation (Write Exclusive
    or Exclusive Access), the check over the poll groups' copy admits writing
    commands of at most one host, and that host is the registered holder. *)
Lemma exclusive_single_writer E H l rs s p p' rc c1 c2 req1 req2 :
  NoDup H -> (length H <= 16)%nat -> Forall (fun x => c_hostid x.1 ∈ H) l ->
  run_requests E l init_rst = Ok (rs, s) ->
  rtype (ns s) = SPDK_NVME_RESERVE_WRITE_EXCLUSIVE
    \/ rtype (ns s) = SPDK_NVME_RESERVE_EXCLUSIVE_ACCESS ->
  poll_group_update_ns (ns s) p = Ok (p', rc) ->
  is_write (opc req1) -> is_write (opc req2) ->
  nvmf_ns_reservation_request_check p' c1 req1 = 0 ->
  nvmf_ns_reservation_request_check p' c2 req2 = 0 ->
  c_hostid c1 = c_hostid c2 /\ holds (ns s) (c_hostid c1).
Proof.
  intros Hnd Hlen Hl Hrun Ht Hp Hw1 Hw2 H1 H2.
  assert (HI : resv_inv H s).
  { clear -Hnd Hlen Hl Hrun. pose proof (init_resv_inv H) as HI. revert HI Hrun.
    generalize init_rst, rs. induction Hl as [|[c req] l Hc _ IH]; intros s0 rs0 HI Hr; cbn in Hr.
    - by injection Hr as _ <-.
    - destruct (request_ok E H Hnd Hlen c req s0 HI Hc) as (r & s1 & Hq & HI1).
      erewrite M_bind_ok in Hr by exact Hq. apply M_bind_inv in Hr as (rs1 & s2 & Hr & Hm).
      injection Hm as _ <-. by eapply IH. }
  assert (Hne : rtype (ns s) <> 0) by (destruct Ht as [-> | ->]; discriminate).
  unfold poll_group_update_ns in Hp.
  destruct (holder (ns s)) as [h|] eqn:Eh; [|by destruct (ni_none _ _ _ HI Eh)].
  destruct (holder_reg_ok _ _ _ _ HI Eh) as (r & Hr & Hin & Hid). rewrite Hr in Hp.
  cbn in Hp. injection Hp as <- _.
  apply (check_is_table _ _ _ true) in H1, H2; [|done..]. cbn [p_rtype p_holder_id] in H1, H2.
  assert (HA : forall (b : bool) c, check_table (rtype (ns s)) b (hostid r =? c_hostid c) true
    = true -> hostid r = c_hostid c).
  { intros b c. destruct (Z.eqb_spec (hostid r) (c_hostid c)); [done|].
    destruct Ht as [-> | ->]; discriminate. }
  apply HA in H1, H2. split; [congruence|]. exists r. split; [done|]. split; [done|].
  right. congruence.
Qed.

Lemma exclusive_single_writer_demo :
  c_hostid (Ctrlr 1 11) = c_hostid (Ctrlr 9 11)
  /\ exists s, holds (ns s) (c_hostid (Ctrlr 1 11)).
Proof.
  pose (l := [(Ctrlr 1 11, demo_register 5); (Ctrlr 2 22, demo_register 6);
              (Ctrlr 1 11, demo_acquire 5 1)]).
  destruct (run_requests demo_env l init_rst) as [[rs s]| | |] eqn:Hr; [|discriminate Hr..].
  vm_compute in Hr. injection Hr as Hrs Hs.
  destruct (exclusive_single_writer demo_env [11; 22] l rs s (PgInfo 0 0 0 [])
    (PgInfo 5 1 11 ([11; 22] ++ replicate 14 0)) 0 (Ctrlr 1 11) (Ctrlr 9 11)
    (Req 1 0 0 0 0 0 0) (Req 8 0 0 0 0 0 0)) as [He Hh].
  - apply demo_nodup.
  - cbn. lia.
  - repeat constructor; cbn; set_solver.
  - rewrite <- Hrs, <- Hs. vm_compute. reflexivity.
  - left. rewrite <- Hs. reflexivity.
  - rewrite <- Hs. vm_compute. reflexivity.
  - unfold is_write; cbn; set_solver.
  - unfold is_write; cbn; set_solver.
  - reflexivity.
  - reflexivity.
  - split; [exact He|]. exists s. exact Hh.
Defined.

(** ** Persistence *)

(** The registrants restored from the (key, host) pairs, at addresses from
    [base]. *)
Fixpoint mk_regs (base : nat) (l : list (Z * Z)) : list registrant :=
  match l with
  | [] => []
  | (k, u) :: l' => Reg base u k :: mk_regs (S base) l'
  end.

(** The last restored registrant of host [hu]. *)
Fixpoint last_match (base : nat) (l : list (Z * Z)) (hu : Z) (h : option nat) : option nat :=
  match l with
  | [] => h
  | (_, u) :: l' => last_match (S base) l' hu (if hu =? u then Some base else h)
  end.

Lemma restore_regs_run E regs ck hu h s :
  (forall n, r_alloc E n = true) -> ck <> 0 \/ h = None ->
  exists s', restore_regs E regs ck hu h s
      = Ok ((true, if ck =? 0 then h else last_match (next_reg s) regs hu h), s')
    /\ ns s' = with_regs (registrants (ns s) ++ mk_regs (next_reg s) regs) (ns s).
Proof.
  intros HE. revert s h. induction regs as [|[k u] regs IH]; intros s h Hck; cbn [restore_regs].
  - exists s. cbn. rewrite app_nil_r. split; [by destruct (ck =? 0)|].
    destruct s as [[]]. done.
  - mstep. rewrite HE. mstep. cbn [last_match mk_regs].
    destruct (IH (Rst (with_regs (registrants (ns s) ++ [Reg (next_reg s) u k]) (ns s))
      (S (next_reg s)) (S (n_calloc s)) (notices s) (stored s))
      (if negb (ck =? 0) && (hu =? u) then Some (next_reg s) else h)) as (s' & Hs' & Hn).
    { destruct Hck as [Hck| ->]; [by left|]. destruct (Z.eqb_spec ck 0); [by right|by left]. }
    exists s'. cbn [reg_id]. rewrite Hs', Hn. cbn. rewrite <- app_assoc.
    split; [|done]. destruct (ck =? 0); done.
Qed.

Lemma mk_regs_pairs base l : map (fun r => (rkey r, hostid r)) (mk_regs base l) = l.
Proof. revert base. induction l as [|[k u] l IH]; intros base; cbn; [done|]. by rewrite IH. Qed.

Lemma mk_regs_ids base l r : r ∈ mk_regs base l -> (base <= reg_id r)%nat.
Proof.
  revert base. induction l as [|[k u] l IH]; intros base; cbn; [set_solver|].
  intros [->|Hr]%elem_of_cons; [cbn; lia|]. apply IH in Hr. lia.
Qed.

Lemma last_match_spec base l hu h :
  NoDup (map snd l) ->
  match last_match base l hu h with
  | Some i => h = Some i \/ exists r, r ∈ mk_regs base l /\ reg_id r = i /\ hostid r = hu
  | None => h = None
  end /\ (hu ∈ map snd l -> exists r, r ∈ mk_regs base l /\ hostid r = hu
           /\ last_match base l hu h = Some (reg_id r)).
Proof.
  revert base h. induction l as [|[k u] l IH]; intros base h Hnd; cbn [last_match mk_regs map snd] in *.
  { split; [destruct h; auto|set_solver]. }
  apply NoDup_cons in Hnd as [Hni Hnd].
  destruct (IH (S base) (if hu =? u then Some base else h) Hnd) as [H1 H2].
  destruct (Z.eqb_spec hu u) as [->|Hne].
  - assert (Hlm : last_match (S base) l u (Some base) = Some base).
    { destruct (last_match (S base) l u (Some base)) as [i|] eqn:El; [|discriminate].
      destruct H1 as [[= ->]|(r & Hr & _ & Hu)]; [done|]. destruct Hni.
      rewrite <- (mk_regs_pairs (S base) l), map_map. cbn. rewrite <- Hu.
      by apply list_elem_of_fmap_2. }
    rewrite Hlm. split.
    + right. exists (Reg base u k). set_solver.
    + intros _. exists (Reg base u k). split; [set_solver|done].
  - split.
    + destruct (last_match (S base) l hu h); [|done].
      destruct H1 as [->|(r & Hr & ? & ?)]; [by left|]. right. exists r. set_solver.
    + intros [?|Hin]%elem_of_cons; [done|]. destruct (H2 Hin) as (r & Hr & ? & ?).
      exists r. set_solver.
Qed.

Lemma holds_pairs n h :
  nvmf_ns_reservation_all_registrants_type n = true ->
  holds n h <-> h ∈ map snd (map (fun r => (rkey r, hostid r)) (registrants n)).
Proof.
  intros Ha. rewrite (all_regs_holds _ _ Ha), map_map. cbn. split.
  - intros (r & Hr & <-). by apply list_elem_of_fmap_2.
  - intros (r & -> & Hr)%list_elem_of_fmap. by exists r.
Qed.

Lemma mk_regs_nodup base l : NoDup (map reg_id (mk_regs base l)).
Proof.
  revert base. induction l as [|[k u] l IH]; intros base; cbn; constructor; [|done].
  intros (r & Hb & Hr)%list_elem_of_fmap. apply mk_regs_ids in Hr. lia.
Qed.

Lemma all_regs_rtype n n' :
  rtype n' = rtype n ->
  nvmf_ns_reservation_all_registrants_type n' = nvmf_ns_reservation_all_registrants_type n.
Proof. unfold nvmf_ns_reservation_all_registrants_type. by intros ->. Qed.

(** The information written for an active reservation. *)
Definition info_of (n : ns_t) (u : Z) (r : registrant) : resv_info :=
  Info (crkey n) (rtype n) (ptpl_activated n) u
    (if nvmf_ns_reservation_all_registrants_type n then None else Some (hostid r))
    (map (fun r => (rkey r, hostid r)) (registrants n)).

Lemma update_info_run E H s u :
  NoDup H -> (length H <= 16)%nat -> resv_inv H s ->
  is_ptpl_capable E = true -> bdev_uuid E = Some u -> (forall i, r_update E i = 0) ->
  rtype (ns s) <> 0 ->
  exists r s1, r ∈ registrants (ns s) /\ holder (ns s) = Some (reg_id r)
    /\ nvmf_ns_update_reservation_info E s = Ok (0, s1)
    /\ stored s1 = stored s ++ [info_of (ns s) u r].
Proof.
  intros Hnd Hl HI Hcap Hu Hup Ht.
  destruct (holder (ns s)) as [h|] eqn:Eh; [|by destruct (ni_none _ _ _ HI Eh)].
  destruct (holder_reg_ok _ _ _ _ HI Eh) as (r & Hr & Hin & <-). exists r.
  unfold nvmf_ns_update_reservation_info. mstep. rewrite Hu, Hcap. cbn [negb].
  destruct (hosts_length H _ _ 0 Hnd Hl HI) as [_ Hlen].
  assert (Hlt : (SPDK_NVMF_MAX_NUM_REGISTRANTS <? length (registrants (ns s)))%nat = false)
    by (apply Nat.ltb_ge; exact Hlen).
  rewrite (proj2 (Z.eqb_neq _ _) Ht), Eh, Hr. cbn [orb]. unfold info_of.
  destruct (nvmf_ns_reservation_all_registrants_type (ns s));
    (erewrite M_bind_ok by reflexivity); rewrite Hlt; mstep; rewrite !Hup; cbn [Z.eqb];
    (eexists; split; [done|]; split; [done|]; split; reflexivity).
Qed.

Lemma restore_run E junk info :
  (forall n, r_alloc E n = true) -> i_ptpl info = true -> bdev_uuid E = Some (i_bdev_uuid info) ->
  i_crkey info ∈ map fst (i_regs info) -> i_crkey info <> 0 ->
  exists s2, nvmf_ns_reservation_restore E junk info init_rst = Ok (0, s2)
    /\ registrants (ns s2) = mk_regs 0 (i_regs info) /\ rtype (ns s2) = i_rtype info
    /\ crkey (ns s2) = i_crkey info /\ ptpl_activated (ns s2) = true
    /\ holder (ns s2) = if nvmf_ns_reservation_all_registrants_type (ns s2)
         then reg_id <$> List.head (registrants (ns s2))
         else last_match 0 (i_regs info) (default junk (i_holder_uuid info)) None.
Proof.
  intros HE Hp Hb Hk Hk0. unfold nvmf_ns_reservation_restore. rewrite Hp, Hb.
  rewrite bool_decide_false by (intros He; rewrite He in Hk; set_solver).
  rewrite (bool_decide_true (Some (i_bdev_uuid info) = _)) by done.
  assert (existsb (fun x => i_crkey info =? x.1) (i_regs info) = true) as ->.
  { apply existsb_exists. apply list_elem_of_fmap in Hk as (x & Hx & Hin).
    exists x. split; [by apply list_elem_of_In|]. rewrite Hx. apply Z.eqb_refl. }
  cbn [negb orb andb]. erewrite M_bind_ok by reflexivity. set (s1 := set_ns _ _).
  destruct (restore_regs_run E (i_regs info) (i_crkey info)
    (default junk (i_holder_uuid info)) None s1 HE ltac:(by left)) as (s2 & Hs2 & Hn2).
  erewrite M_bind_ok by exact Hs2. cbn [negb].
  rewrite (proj2 (Z.eqb_neq _ _) Hk0). mstep. erewrite M_bind_ok by reflexivity.
  eexists. split; [reflexivity|]. unfold set_ns; cbn [ns]. rewrite Hn2. done.
Qed.

(** C38: Persistence through power loss.  When a reservation is active (PTPL
    enabled, rtype not 0), its key is the key of a current registrant, and storing
    and allocating succeed, the information written by
    nvmf_ns_update_reservation_info for at most 16 hosts and a bdev with a UUID
    and a store for it is accepted by nvmf_ns_reservation_restore on a fresh
    namespace of the same bdev, whatever holder_uuid contained before, and
    restores the registrants in order with their keys, the type, the key and the
    set of holding hosts.  A key that no registrant has any more is not restored:
    [replaced_key_not_restored], [unregistered_holder_key_not_restored]. *)
Theorem restore_roundtrip E H s junk :
  NoDup H -> (length H <= 16)%nat -> resv_inv H s ->
  is_ptpl_capable E = true -> is_Some (bdev_uuid E) ->
  (forall i, r_update E i = 0) -> (forall n, r_alloc E n = true) ->
  ptpl_activated (ns s) = true -> rtype (ns s) <> 0 ->
  crkey (ns s) ∈ map rkey (registrants (ns s)) ->
  exists s1 info s2, nvmf_ns_update_reservation_info E s = Ok (0, s1)
    /\ stored s1 = stored s ++ [info]
    /\ nvmf_ns_reservation_restore E junk info init_rst = Ok (0, s2)
    /\ map (fun r => (rkey r, hostid r)) (registrants (ns s2))
       = map (fun r => (rkey r, hostid r)) (registrants (ns s))
    /\ rtype (ns s2) = rtype (ns s) /\ crkey (ns s2) = crkey (ns s)
    /\ ptpl_activated (ns s2) = true
    /\ forall h, holds (ns s2) h <-> holds (ns s) h.
Proof.
  intros Hnd Hl HI Hcap [u Hu] Hup HE Hpt Ht Hk.
  destruct (update_info_run E H s u Hnd Hl HI Hcap Hu Hup Ht) as (r & s1 & Hr & Hh & Hs1 & Hst).
  assert (Hk0 : crkey (ns s) <> 0).
  { apply list_elem_of_fmap in Hk as (x & -> & Hx). by apply (ni_keys _ _ _ HI). }
  destruct (restore_run E junk (info_of (ns s) u r) HE Hpt Hu) as
    (s2 & Hs2 & Hregs & Hty & Hck & Hptl & Hho); [|done|].
  { unfold info_of; cbn. by rewrite map_map. }
  exists s1, (info_of (ns s) u r), s2. do 3 (split; [done|]).
  rewrite Hregs. cbn [i_regs info_of]. split; [apply mk_regs_pairs|]. do 3 (split; [done|]).
  intros h. destruct (nvmf_ns_reservation_all_registrants_type (ns s)) eqn:Ea.
  - rewrite !holds_pairs; [|done|by rewrite (all_regs_rtype _ _ Hty)].
    by rewrite Hregs, mk_regs_pairs.
  - rewrite (all_regs_rtype _ _ Hty) in Hho. rewrite Ea in Hho. cbn in Hho. rewrite Ea in Hho.
    destruct (last_match_spec 0 (map (fun r => (rkey r, hostid r)) (registrants (ns s)))
      (hostid r) None) as [_ Hlm].
    { rewrite map_map. apply HI. }
    destruct Hlm as (r2 & Hr2 & Hhost & Hlm).
    { rewrite map_map. by apply list_elem_of_fmap_2. }
    cbn in Hho. rewrite Hlm in Hho. split.
    + intros (x & Hx & <- & [Ha|Hx2]); [rewrite (all_regs_rtype _ _ Hty) in Ha; congruence|].
      exists r. split; [done|]. split; [|by right]. rewrite <- Hhost. f_equal.
      rewrite Hregs in Hx. eapply reg_unique; [|exact Hr2|exact Hx|congruence].
      apply mk_regs_nodup.
    + intros (x & Hx & <- & [Ha|Hx2]); [congruence|].
      assert (x = r) as -> by (eapply reg_unique; [apply HI|done|done|congruence]).
      exists r2. rewrite Hregs. split; [done|]. split; [done|]. by right.
Qed.

Lemma restore_roundtrip_witness :
  exists s1 info s2, nvmf_ns_update_reservation_info demo_env
      (set_ns (with_ptpl true) demo_state) = Ok (0, s1)
    /\ stored s1 = [info] /\ nvmf_ns_reservation_restore demo_env 99 info init_rst = Ok (0, s2)
    /\ forall h, holds (ns s2) h <-> holds (ns (set_ns (with_ptpl true) demo_state)) h.
Proof.
  destruct (restore_roundtrip demo_env [11; 22] (set_ns (with_ptpl true) demo_state) 99)
    as (s1 & info & s2 & H1 & H2 & H3 & _ & _ & _ & _ & H4).
  - apply demo_nodup.
  - cbn. lia.
  - destruct demo_resv_inv. by constructor.
  - reflexivity.
  - by exists 7.
  - reflexivity.
  - reflexivity.
  - reflexivity.
  - discriminate.
  - cbn. set_solver.
  - exists s1, info, s2. split; [exact H1|]. split; [exact H2|]. split; [exact H3|exact H4].
Defined.

(** ** Inputs on which the code fails *)

(** The result of restoring what the last request persisted. *)
Definition restore_last (l : list (ctrlr_t * req_t)) : option (res Z) :=
  match run_requests demo_env l init_rst with
  | Ok (_, s) =>
      info ← last (stored s);
      Some (match nvmf_ns_reservation_restore demo_env 0 info init_rst with
            | Ok (rc, _) => Ok rc | Exit c => Exit c | UB r => UB r | OutOfFuel => OutOfFuel end)
  | _ => None
  end.

(** Replacing the holder's registration key leaves ns->crkey at the old key;
    what is then persisted is rejected by the restore. *)
Lemma replaced_key_not_restored :
  restore_last [(Ctrlr 1 11, demo_register 5); (Ctrlr 1 11, demo_acquire 5 1);
                (Ctrlr 1 11, demo_replace 9)] = Some (Ok (- EINVAL)).
Proof. vm_compute. reflexivity. Qed.

(** The same after the holder of an all-registrants reservation unregisters. *)
Lemma unregistered_holder_key_not_restored :
  restore_last [(Ctrlr 1 11, demo_register 5); (Ctrlr 2 22, demo_register 6);
                (Ctrlr 1 11, demo_acquire 5 5); (Ctrlr 1 11, demo_unregister)]
  = Some (Ok (- EINVAL)).
Proof. vm_compute. reflexivity. Qed.

(** Acquire accepts the reserved type 0: there is a holder, other hosts'
    Acquire conflicts, but no I/O is restricted. *)
Lemma reserved_type_acquired :
  match run_requests demo_env [(Ctrlr 1 11, demo_register 5); (Ctrlr 2 22, demo_register 6);
          (Ctrlr 1 11, demo_acquire 5 0); (Ctrlr 2 22, demo_acquire 6 1)] init_rst with
  | Ok (rs, s) => map fst rs = [0; 0; 0; SPDK_NVME_SC_RESERVATION_CONFLICT]
                  /\ holder (ns s) = Some 0%nat /\ rtype (ns s) = 0
  | _ => False
  end.
Proof. vm_compute. done. Qed.

(** The number of registrants is not limited: with 18 registered hosts, an
    Unregister fails the assertion of get_all_other_hostid, and with
    persistence the 17th registration writes past the array. *)
Lemma too_many_registrants :
  run_requests (Renv [] false None (fun _ => 0) (fun _ => true))
    (map (fun i => (Ctrlr i (Z.of_nat i), Req 0x0d 0 0 1 16 0 5)) (seq 1 18)
     ++ [(Ctrlr 1 1, demo_unregister)]) init_rst = UB UB_assert
  /\ run_requests demo_env
    (map (fun i => (Ctrlr i (Z.of_nat i), Req 0x0d 0 0 1 16 0 5)) (seq 1 17)) init_rst
     = UB UB_bounds.
Proof. vm_compute. split; reflexivity. Qed.

(** A controller with the all-zero host identifier is taken for a registrant:
    it may write although it never registered. *)
Lemma zero_hostid_is_registrant :
  match run_requests demo_env [(Ctrlr 1 11, demo_register 5); (Ctrlr 1 11, demo_acquire 5 3)]
          init_rst with
  | Ok (_, s) => match poll_group_update_ns (ns s) (PgInfo 0 0 0 []) with
                 | Ok (p, _) => nvmf_ns_reservation_request_check p (Ctrlr 9 0)
                                  (Req 0x01 0 0 0 0 0 0) = 0
                                /\ nvmf_ns_reservation_request_check p (Ctrlr 8 33)
                                     (Req 0x01 0 0 0 0 0 0) = - EPERM
                 | _ => False
                 end
  | _ => False
  end.
Proof. vm_compute. done. Qed.
