(* ===== verification/NsCmd.v ===== *)
(** * Construction of NVMe I/O requests (lib/nvme/nvme_ns_cmd.c, lib/nvme/nvme_internal.h)

    The request pool of a queue pair, the tree of child requests into which an
    I/O is split (at stripe boundaries, at the controller's maximum transfer
    size, and where a scattered payload cannot be described by one PRP list or
    SGL), and the public command functions built on it.

    A request is a tree node with the address of its pool element, its fields
    and its children; the parent pointers are implicit.  A split that fails
    returns the error code in place of the request, as *rc does. *)

From S2P Require Import Prelude.

(** ** Data *)

Record nvme_ns := NvmeNs {
  ns_id : Z;
  sector_size : Z;
  extended_lba_size : Z;
  md_size : Z;
  pi_type : Z;
  ns_flags : Z;
  ns_sectors_per_max_io : Z;
  sectors_per_max_io_no_md : Z;
  ns_sectors_per_stripe : Z;
  csi_is_zns : bool }.

Record nvme_ctrlr := NvmeCtrlr {
  ctrlr_flags : Z;
  page_size : Z;
  max_sges : Z;
  io_queue_requests : Z;
  max_zone_append_size : Z }.

(** NVME_PAYLOAD_CONTIG and NVME_PAYLOAD_SGL; the callbacks of the latter are
    the parameters [reset_sgl_fn] and [next_sge_fn] below. *)
Inductive nvme_payload :=
  | PayloadContig (buffer : Z) (md : option Z)
  | PayloadSgl (md : option Z).

Record nvme_cmd := NvmeCmd {
  cmd_opc : Z;
  cmd_nsid : Z;
  cmd_lba : Z (** cdw10 and cdw11 *);
  cmd_fuse : Z;
  cmd_cdw12 : Z;
  cmd_cdw13 : Z;
  cmd_cdw14 : Z;
  cmd_cdw15 : Z }.

(** The zeroed command of a new request. *)
Definition cmd0 : nvme_cmd := NvmeCmd 0 0 0 0 0 0 0 0.

(** Who is called when the request completes. *)
Inductive cb := CbUser | CbChild.

Record req_fields := Fields {
  r_cb : cb;
  r_payload : nvme_payload;
  r_payload_offset : Z;
  r_md_offset : Z;
  r_payload_size : Z;
  r_md_size : Z;
  r_accel : option Z;
  r_cmd : nvme_cmd;
  r_tag : Z (** io_id or ns_id of the request log *) }.

Inductive request := Request (id : nat) (f : req_fields) (children : list request).

Definition req_id (r : request) : nat := let 'Request i _ _ := r in i.
Definition req_f (r : request) : req_fields := let 'Request _ f _ := r in f.
Definition req_children (r : request) : list request := let 'Request _ _ c := r in c.

(** The queue pair: the free requests and the number in use. *)
Record qpair := Qpair { free_req : list nat; num_outstanding_reqs : Z }.

Definition SPDK_NVME_IO_FLAGS_VALID_MASK : Z := 0xFFFF0003.
Definition SPDK_NVME_IO_FLAGS_CDW12_MASK : Z := 0xFFFF0000.
Definition SPDK_NVME_IO_FLAGS_FUSE_MASK : Z := 0x3.
Definition SPDK_NVME_IO_FLAGS_PRACT : Z := Z.shiftl 1 29.
Definition SPDK_NVME_NS_DPS_PI_SUPPORTED : Z := Z.shiftl 1 4.
Definition SPDK_NVME_NS_EXTENDED_LBA_SUPPORTED : Z := Z.shiftl 1 5.
Definition SPDK_NVME_CTRLR_SGL_SUPPORTED : Z := Z.shiftl 1 0.
Definition SPDK_NVME_CTRLR_ZONE_APPEND_SUPPORTED : Z := Z.shiftl 1 5.
Definition SPDK_NVME_CTRLR_ACCEL_SEQUENCE_SUPPORTED : Z := Z.shiftl 1 8.

Definition SPDK_NVME_OPC_FLUSH : Z := 0x00.
Definition SPDK_NVME_OPC_WRITE : Z := 0x01.
Definition SPDK_NVME_OPC_READ : Z := 0x02.
Definition SPDK_NVME_OPC_WRITE_UNCORRECTABLE : Z := 0x04.
Definition SPDK_NVME_OPC_COMPARE : Z := 0x05.
Definition SPDK_NVME_OPC_WRITE_ZEROES : Z := 0x08.
Definition SPDK_NVME_OPC_VERIFY : Z := 0x0c.
Definition SPDK_NVME_OPC_ZONE_APPEND : Z := 0x7d.

(** ** The request pool *)

Definition nvme_allocate_request (payload : nvme_payload) (payload_size md_sz : Z)
  : M qpair (option request) :=
  q ← get;
  match free_req q with
  | [] => mret None
  | i :: l =>
      _ ← put (Qpair l (u32 (num_outstanding_reqs q + 1)));
      mret (Some (Request i (Fields CbUser payload 0 0 payload_size md_sz None cmd0 0) []))
  end.

Definition nvme_allocate_request_null : M qpair (option request) :=
  nvme_allocate_request (PayloadContig 0 None) 0 0.

(** nvme_free_request; the request has no children. *)
Definition free_id (i : nat) : M qpair unit :=
  q ← get;
  _ ← c_assert (0 <? num_outstanding_reqs q);
  put (Qpair (i :: free_req q) (u32 (num_outstanding_reqs q - 1))).

(** nvme_request_free_children followed by nvme_free_request. *)
Fixpoint free_tree (r : request) : M qpair unit :=
  let 'Request i _ cs := r in
  _ ← (fix go (cs : list request) : M qpair unit :=
         match cs with
         | [] => mret tt
         | c :: cs' => _ ← free_tree c; go cs'
         end) cs;
  free_id i.

Definition set_cb (c : cb) (r : request) : request :=
  let 'Request i f cs := r in
  Request i (Fields c (r_payload f) (r_payload_offset f) (r_md_offset f) (r_payload_size f)
               (r_md_size f) (r_accel f) (r_cmd f) (r_tag f)) cs.
Definition set_cmd (c : nvme_cmd) (r : request) : request :=
  let 'Request i f cs := r in
  Request i (Fields (r_cb f) (r_payload f) (r_payload_offset f) (r_md_offset f)
               (r_payload_size f) (r_md_size f) (r_accel f) c (r_tag f)) cs.
Definition set_tag (t : Z) (r : request) : request :=
  let 'Request i f cs := r in
  Request i (Fields (r_cb f) (r_payload f) (r_payload_offset f) (r_md_offset f)
               (r_payload_size f) (r_md_size f) (r_accel f) (r_cmd f) t) cs.
(** The assignments after the allocation in _nvme_ns_cmd_rw. *)
Definition set_offsets (po mo : Z) (a : option Z) (r : request) : request :=
  let 'Request i f cs := r in
  Request i (Fields (r_cb f) (r_payload f) po mo (r_payload_size f) (r_md_size f) a
               (r_cmd f) (r_tag f)) cs.

Definition nvme_request_add_child (parent child : request) : M qpair request :=
  let 'Request i f cs := parent in
  _ ← c_assert (negb (Z.of_nat (length cs) =? UINT16_MAX));
  mret (Request i f (cs ++ [set_cb CbChild child])).

(** ** Sizes *)

Definition nvme_ns_check_request_length
    (lba_count sectors_per_max_io sectors_per_stripe qdepth : Z) : bool :=
  let child_per_io :=
    if 0 <? sectors_per_stripe
    then u32 (lba_count + sectors_per_stripe - 1) / sectors_per_stripe
    else if 0 <? sectors_per_max_io
    then u32 (lba_count + sectors_per_max_io - 1) / sectors_per_max_io
    else UINT32_MAX in
  qdepth <=? child_per_io.

Definition nvme_ns_map_failure_rc
    (lba_count sectors_per_max_io sectors_per_stripe qdepth rc : Z) : Z :=
  if (rc =? - ENOMEM)
     && nvme_ns_check_request_length lba_count sectors_per_max_io sectors_per_stripe qdepth
  then - EINVAL else rc.

Definition _nvme_md_excluded_from_xfer (ns : nvme_ns) (io_flags : Z) : bool :=
  negb (Z.land io_flags SPDK_NVME_IO_FLAGS_PRACT =? 0)
  && negb (Z.land (ns_flags ns) SPDK_NVME_NS_EXTENDED_LBA_SUPPORTED =? 0)
  && negb (Z.land (ns_flags ns) SPDK_NVME_NS_DPS_PI_SUPPORTED =? 0)
  && (md_size ns =? 8).

Definition _nvme_get_host_buffer_sector_size (ns : nvme_ns) (io_flags : Z) : Z :=
  if _nvme_md_excluded_from_xfer ns io_flags then sector_size ns else extended_lba_size ns.

Definition _nvme_get_sectors_per_max_io (ns : nvme_ns) (io_flags : Z) : Z :=
  if _nvme_md_excluded_from_xfer ns io_flags
  then sectors_per_max_io_no_md ns else ns_sectors_per_max_io ns.

Definition _is_io_flags_valid (io_flags : Z) : bool :=
  Z.land io_flags (Z.lxor UINT32_MAX SPDK_NVME_IO_FLAGS_VALID_MASK) =? 0.

Definition _is_page_aligned (address page : Z) : bool := Z.land address (page - 1) =? 0.

(** The parameters of an I/O that are the same for a request and its
    children. *)
Record rw_args := RwArgs {
  a_opc : Z;
  a_flags : Z;
  a_apptag_mask : Z;
  a_apptag : Z;
  a_cdw13 : Z;
  a_payload : nvme_payload }.

Definition _nvme_ns_cmd_setup_request (ns : nvme_ns) (a : rw_args) (lba lba_count : Z)
    (r : request) : M qpair request :=
  _ ← c_assert (_is_io_flags_valid (a_flags a));
  mret (set_cmd (NvmeCmd (a_opc a) (ns_id ns) lba
    (Z.land (a_flags a) SPDK_NVME_IO_FLAGS_FUSE_MASK)
    (Z.lor (u32 (lba_count - 1)) (Z.land (a_flags a) SPDK_NVME_IO_FLAGS_CDW12_MASK))
    (a_cdw13 a)
    (if negb (Z.land (ns_flags ns) SPDK_NVME_NS_DPS_PI_SUPPORTED =? 0)
        && ((pi_type ns =? 1) || (pi_type ns =? 2))
     then u32 lba else cmd_cdw14 (r_cmd (req_f r)))
    (Z.lor (u32 (Z.shiftl (a_apptag_mask a) 16)) (a_apptag a))) r).

(** ** Splitting *)

Section Split.
Context (ns : nvme_ns) (ctrlr : nvme_ctrlr).
(** The payload callbacks: the state of the caller's iterator, reset_sgl_fn
    and next_sge_fn, which gives the address and the length of the next
    element. *)
Context {I : Type} (reset_sgl_fn : Z -> I) (next_sge_fn : I -> (Z * Z) * I).
Context (a : rw_args).

(** The recursive call of _nvme_ns_cmd_rw on (payload_offset, md_offset, lba,
    lba_count, check_sgl). *)
Context (rw : Z -> Z -> Z -> Z -> bool -> M qpair (request + Z)).

Definition _nvme_add_child_request (payload_offset md_offset lba lba_count : Z)
    (parent : request) (check_sgl : bool) : M qpair (request + Z) :=
  c ← rw payload_offset md_offset lba lba_count check_sgl;
  match c with
  | inr rc => _ ← free_tree parent; mret (inr rc)
  | inl child => p ← nvme_request_add_child parent child; mret (inl p)
  end.

Fixpoint split_loop (fuel : nat) (sectors_per_max_io sector_mask : Z)
    (payload_offset md_offset lba remaining : Z) (req : request) : M qpair (request + Z) :=
  if remaining <=? 0 then mret (inl req)
  else match fuel with
  | O => fun _ => OutOfFuel
  | S fuel' =>
      let n := u32 (sectors_per_max_io - Z.land lba sector_mask) in
      let lba_count := Z.min remaining n in
      r ← _nvme_add_child_request payload_offset md_offset lba lba_count req true;
      match r with
      | inr rc => mret (inr rc)
      | inl req' =>
          split_loop fuel' sectors_per_max_io sector_mask
            (u32 (payload_offset + lba_count * _nvme_get_host_buffer_sector_size ns (a_flags a)))
            (u32 (md_offset + lba_count * md_size ns))
            (u64 (lba + lba_count)) (u32 (remaining - lba_count)) req'
      end
  end.

(** The early return with an accel sequence does not free [req]. *)
Definition _nvme_ns_cmd_split_request (fuel : nat) (payload_offset md_offset lba lba_count : Z)
    (req : request) (sectors_per_max_io sector_mask : Z) (accel : option Z)
  : M qpair (request + Z) :=
  match accel with
  | Some _ => mret (inr (- EINVAL))
  | None => split_loop fuel sectors_per_max_io sector_mask payload_offset md_offset lba
              lba_count req
  end.

(** The split point of the SGL and PRP loops: the accumulated [child_length]
    bytes become a child.  Result: the parent and the number of blocks. *)
Definition split_here (payload_offset md_offset child_lba child_length : Z) (req : request)
    (accel : option Z) : M qpair ((request * Z) + Z) :=
  if extended_lba_size ns =? 0 then fail UB_div0
  else if negb (child_length mod extended_lba_size ns =? 0) then mret (inr (- EINVAL))
  else match accel with
  | Some _ => mret (inr (- EINVAL))
  | None =>
      let n := child_length / extended_lba_size ns in
      r ← _nvme_add_child_request payload_offset md_offset child_lba n req false;
      match r with
      | inr rc => mret (inr rc)
      | inl req' => mret (inl (req', n))
      end
  end.

Definition finish_split (child_length lba lba_count : Z) (req : request)
  : M qpair (request + Z) :=
  if child_length =? r_payload_size (req_f req)
  then r ← _nvme_ns_cmd_setup_request ns a lba lba_count req; mret (inl r)
  else mret (inl req).

Fixpoint sgl_loop (fuel : nat) (it : I) (lba lba_count : Z)
    (payload_offset md_offset child_lba cur_len child_length num_sges : Z)
    (req : request) (accel : option Z) : M qpair (request + Z) :=
  let size := r_payload_size (req_f req) in
  if size <=? cur_len then finish_split child_length lba lba_count req
  else match fuel with
  | O => fun _ => OutOfFuel
  | S fuel' =>
      let '((_, len0), it') := next_sge_fn it in
      let len := if size <? u32 (cur_len + len0) then u32 (size - cur_len) else len0 in
      let child_length := u32 (child_length + len) in
      let cur_len := u32 (cur_len + len) in
      let num_sges := u16 (num_sges + 1) in
      if (num_sges <? max_sges ctrlr) && (cur_len <? size)
      then sgl_loop fuel' it' lba lba_count payload_offset md_offset child_lba cur_len
             child_length num_sges req accel
      else if child_length =? size
      then sgl_loop fuel' it' lba lba_count payload_offset md_offset child_lba cur_len
             child_length num_sges req accel
      else
        r ← split_here payload_offset md_offset child_lba child_length req accel;
        match r with
        | inr rc => mret (inr rc)
        | inl (req', n) =>
            sgl_loop fuel' it' lba lba_count (u32 (payload_offset + child_length))
              (u32 (md_offset + n * md_size ns)) (u64 (child_lba + n)) cur_len 0 0 req' accel
        end
  end.

Definition _nvme_ns_cmd_split_request_sgl (fuel : nat)
    (payload_offset md_offset lba lba_count : Z) (req : request) (accel : option Z)
  : M qpair (request + Z) :=
  sgl_loop fuel (reset_sgl_fn payload_offset) lba lba_count payload_offset md_offset lba
    0 0 0 req accel.

(** An element of length 0 leaves the loop's state unchanged. *)
Fixpoint prp_loop (fuel : nat) (it : I) (address sge_length : Z) (lba lba_count : Z)
    (payload_offset md_offset child_lba cur_len child_length : Z)
    (req : request) (accel : option Z) : M qpair (request + Z) :=
  let size := r_payload_size (req_f req) in
  let page := page_size ctrlr in
  if size <=? cur_len then finish_split child_length lba lba_count req
  else match fuel with
  | O => fun _ => OutOfFuel
  | S fuel' =>
      if sge_length =? 0
      then prp_loop fuel' it address sge_length lba lba_count payload_offset md_offset
             child_lba cur_len child_length req accel
      else
        let len := if size <? u32 (cur_len + sge_length) then u32 (size - cur_len)
                   else sge_length in
        let start_valid := (child_length =? 0) || _is_page_aligned address page in
        let last_sge := u32 (cur_len + len) =? size in
        let end_valid := last_sge || _is_page_aligned (u64 (address + len)) page in
        let child_equals_parent := u32 (child_length + len) =? size in
        let child_length' := if start_valid then u32 (child_length + len) else child_length in
        let cur_len' := if start_valid then u32 (cur_len + len) else cur_len in
        let fetch := start_valid && (cur_len' <? size) in
        let '((address', sge_length'), it') :=
          if fetch then next_sge_fn it else ((address, len), it) in
        let start_valid' :=
          if fetch then _is_page_aligned address' page else start_valid in
        if start_valid' && end_valid && negb last_sge
        then prp_loop fuel' it' address' sge_length' lba lba_count payload_offset md_offset
               child_lba cur_len' child_length' req accel
        else if child_equals_parent
        then prp_loop fuel' it' address' sge_length' lba lba_count payload_offset md_offset
               child_lba cur_len' child_length' req accel
        else
          r ← split_here payload_offset md_offset child_lba child_length' req accel;
          match r with
          | inr rc => mret (inr rc)
          | inl (req', n) =>
              prp_loop fuel' it' address' sge_length' lba lba_count
                (u32 (payload_offset + child_length')) (u32 (md_offset + n * md_size ns))
                (u64 (child_lba + n)) cur_len' 0 req' accel
          end
  end.

Definition _nvme_ns_cmd_split_request_prp (fuel : nat)
    (payload_offset md_offset lba lba_count : Z) (req : request) (accel : option Z)
  : M qpair (request + Z) :=
  let '((address, sge_length), it) := next_sge_fn (reset_sgl_fn payload_offset) in
  prp_loop fuel it address sge_length lba lba_count payload_offset md_offset lba 0 0 req accel.

End Split.

Section Rw.
Context (ns : nvme_ns) (ctrlr : nvme_ctrlr).
Context {I : Type} (reset_sgl_fn : Z -> I) (next_sge_fn : I -> (Z * Z) * I).
Context (a : rw_args).
(** The bound of the splitting loops. *)
Context (fuel : nat).

(** [depth] bounds the nesting of splits: stripe, maximum size, payload and the
    leaf. *)
Fixpoint _nvme_ns_cmd_rw (depth : nat) (accel : option Z)
    (payload_offset md_offset lba lba_count : Z) (check_sgl : bool)
  : M qpair (request + Z) :=
  match depth with
  | O => fun _ => OutOfFuel
  | S depth' =>
      let rw := _nvme_ns_cmd_rw depth' None in
      let max_io := _nvme_get_sectors_per_max_io ns (a_flags a) in
      r ← nvme_allocate_request (a_payload a)
            (u32 (lba_count * _nvme_get_host_buffer_sector_size ns (a_flags a)))
            (u32 (lba_count * md_size ns));
      match r with
      | None => mret (inr (- ENOMEM))
      | Some r0 =>
          let req := set_offsets payload_offset md_offset accel r0 in
          _ ← c_assert (negb (a_opc a =? SPDK_NVME_OPC_ZONE_APPEND) || csi_is_zns ns);
          let stripe := if a_opc a =? SPDK_NVME_OPC_ZONE_APPEND then 0
                        else ns_sectors_per_stripe ns in
          if (0 <? stripe) && (stripe <? Z.land lba (stripe - 1) + lba_count)
          then _nvme_ns_cmd_split_request ns a rw fuel payload_offset md_offset lba lba_count
                 req stripe (stripe - 1) accel
          else if max_io <? lba_count
          then _nvme_ns_cmd_split_request ns a rw fuel payload_offset md_offset lba lba_count
                 req max_io 0 accel
          else match a_payload a with
          | PayloadSgl _ =>
              if check_sgl then
                if negb (Z.land (ctrlr_flags ctrlr) SPDK_NVME_CTRLR_SGL_SUPPORTED =? 0)
                then _nvme_ns_cmd_split_request_sgl ns ctrlr reset_sgl_fn next_sge_fn a rw fuel
                       payload_offset md_offset lba lba_count req accel
                else _nvme_ns_cmd_split_request_prp ns ctrlr reset_sgl_fn next_sge_fn a rw fuel
                       payload_offset md_offset lba lba_count req accel
              else r ← _nvme_ns_cmd_setup_request ns a lba lba_count req; mret (inl r)
          | PayloadContig _ _ =>
              r ← _nvme_ns_cmd_setup_request ns a lba lba_count req; mret (inl r)
          end
      end
  end.
End Rw.

(** ** The command functions *)

(** struct spdk_nvme_ns_cmd_ext_io_opts *)
Record ext_opts := ExtOpts {
  o_flags : Z;
  o_metadata : option Z;
  o_apptag_mask : Z;
  o_apptag : Z;
  o_accel : option Z;
  o_cdw13 : Z }.

Section Commands.
Context (ns : nvme_ns) (ctrlr : nvme_ctrlr).
(** The callbacks of a vectored command; None when one of them is NULL. *)
Context {I : Type} (sgl_fns : option ((Z -> I) * (I -> (Z * Z) * I))).
(** A callback pair for contiguous payloads, which never use it. *)
Context (no_sgl : I).
(** nvme_qpair_submit_request, and whether the qpair is in a poll group. *)
Context (submit : request -> M qpair Z) (in_poll_group : bool).
Context (fuel : nat).

Definition rw_depth : nat := 4.

Definition failure_rc (lba_count rc : Z) : Z :=
  nvme_ns_map_failure_rc lba_count (ns_sectors_per_max_io ns) (ns_sectors_per_stripe ns)
    (io_queue_requests ctrlr) rc.

(** _nvme_ns_cmd_rw with the callbacks of the command. *)
Definition run_rw (a : rw_args) (accel : option Z) (lba lba_count : Z) (check_sgl : bool)
  : M qpair (request + Z) :=
  let '(reset, next) := default (fun _ => no_sgl, fun i => ((0, 0), i)) sgl_fns in
  _nvme_ns_cmd_rw ns ctrlr reset next a fuel rw_depth accel 0 0 lba lba_count check_sgl.

(** The common tail of the command functions. *)
Definition rw_submit (a : rw_args) (accel : option Z) (lba lba_count : Z) (check_sgl : bool)
  : M qpair Z :=
  r ← run_rw a accel lba lba_count check_sgl;
  match r with
  | inl req => submit req
  | inr rc => mret (failure_rc lba_count rc)
  end.

(** The variants with a tag write req->io_id or req->ns_id before they test
    req for NULL. *)
Definition rw_submit_tag (a : rw_args) (lba lba_count : Z) (check_sgl : bool) (tag : Z)
  : M qpair Z :=
  r ← run_rw a None lba lba_count check_sgl;
  match r with
  | inl req => submit (set_tag tag req)
  | inr _ => fail UB_null
  end.

Definition contig_cmd (opc buffer : Z) (md : option Z) (lba lba_count flags mask tag : Z)
  : M qpair Z :=
  if negb (_is_io_flags_valid flags) then mret (- EINVAL)
  else rw_submit (RwArgs opc flags mask tag 0 (PayloadContig buffer md)) None lba lba_count false.

Definition vectored_cmd (opc : Z) (md : option Z) (lba lba_count flags mask tag : Z) : M qpair Z :=
  if negb (_is_io_flags_valid flags) then mret (- EINVAL)
  else match sgl_fns with
  | None => mret (- EINVAL)
  | Some _ =>
      rw_submit (RwArgs opc flags mask tag 0 (PayloadSgl md)) None lba lba_count true
  end.

Definition spdk_nvme_ns_cmd_compare (buffer lba lba_count flags : Z) : M qpair Z :=
  contig_cmd SPDK_NVME_OPC_COMPARE buffer None lba lba_count flags 0 0.
Definition spdk_nvme_ns_cmd_compare_with_md (buffer : Z) (md : option Z)
    (lba lba_count flags mask tag : Z) : M qpair Z :=
  contig_cmd SPDK_NVME_OPC_COMPARE buffer md lba lba_count flags mask tag.
Definition spdk_nvme_ns_cmd_comparev (lba lba_count flags : Z) : M qpair Z :=
  vectored_cmd SPDK_NVME_OPC_COMPARE None lba lba_count flags 0 0.
Definition spdk_nvme_ns_cmd_comparev_with_md (md : option Z) (lba lba_count flags mask tag : Z)
  : M qpair Z :=
  vectored_cmd SPDK_NVME_OPC_COMPARE md lba lba_count flags mask tag.
Definition spdk_nvme_ns_cmd_read (buffer lba lba_count flags : Z) : M qpair Z :=
  contig_cmd SPDK_NVME_OPC_READ buffer None lba lba_count flags 0 0.
Definition spdk_nvme_ns_cmd_read_with_md (buffer : Z) (md : option Z)
    (lba lba_count flags mask tag : Z) : M qpair Z :=
  contig_cmd SPDK_NVME_OPC_READ buffer md lba lba_count flags mask tag.
Definition spdk_nvme_ns_cmd_readv (lba lba_count flags : Z) : M qpair Z :=
  vectored_cmd SPDK_NVME_OPC_READ None lba lba_count flags 0 0.
Definition spdk_nvme_ns_cmd_readv_with_md (md : option Z) (lba lba_count flags mask tag : Z)
  : M qpair Z :=
  vectored_cmd SPDK_NVME_OPC_READ md lba lba_count flags mask tag.
Definition spdk_nvme_ns_cmd_write (buffer lba lba_count flags : Z) : M qpair Z :=
  contig_cmd SPDK_NVME_OPC_WRITE buffer None lba lba_count flags 0 0.
Definition spdk_nvme_ns_cmd_write_with_md (buffer : Z) (md : option Z)
    (lba lba_count flags mask tag : Z) : M qpair Z :=
  contig_cmd SPDK_NVME_OPC_WRITE buffer md lba lba_count flags mask tag.
Definition spdk_nvme_ns_cmd_writev (lba lba_count flags : Z) : M qpair Z :=
  vectored_cmd SPDK_NVME_OPC_WRITE None lba lba_count flags 0 0.
Definition spdk_nvme_ns_cmd_writev_with_md (md : option Z) (lba lba_count flags mask tag : Z)
  : M qpair Z :=
  vectored_cmd SPDK_NVME_OPC_WRITE md lba lba_count flags mask tag.

(** The PERF_LATENCY_LOG variants that tag the request. *)
Definition contig_cmd_tag (opc buffer : Z) (md : option Z) (lba lba_count id flags mask tag : Z)
  : M qpair Z :=
  if negb (_is_io_flags_valid flags) then mret (- EINVAL)
  else rw_submit_tag (RwArgs opc flags mask tag 0 (PayloadContig buffer md)) lba lba_count
         false id.
Definition vectored_cmd_tag (opc : Z) (md : option Z) (lba lba_count id flags mask tag : Z)
  : M qpair Z :=
  if negb (_is_io_flags_valid flags) then mret (- EINVAL)
  else match sgl_fns with
  | None => mret (- EINVAL)
  | Some _ => rw_submit_tag (RwArgs opc flags mask tag 0 (PayloadSgl md)) lba lba_count true id
  end.

Definition spdk_nvme_ns_cmd_read_with_md_io_id := contig_cmd_tag SPDK_NVME_OPC_READ.
Definition spdk_nvme_ns_cmd_read_with_md_ns_id := contig_cmd_tag SPDK_NVME_OPC_READ.
Definition spdk_nvme_ns_cmd_readv_with_md_io_id := vectored_cmd_tag SPDK_NVME_OPC_READ.
Definition spdk_nvme_ns_cmd_readv_with_md_ns_id := vectored_cmd_tag SPDK_NVME_OPC_READ.
Definition spdk_nvme_ns_cmd_write_with_md_io_id := contig_cmd_tag SPDK_NVME_OPC_WRITE.
Definition spdk_nvme_ns_cmd_write_with_md_ns_id := contig_cmd_tag SPDK_NVME_OPC_WRITE.
Definition spdk_nvme_ns_cmd_writev_with_md_io_id := vectored_cmd_tag SPDK_NVME_OPC_WRITE.
Definition spdk_nvme_ns_cmd_writev_with_md_ns_id := vectored_cmd_tag SPDK_NVME_OPC_WRITE.

Definition _is_accel_sequence_valid (seq : option Z) : bool :=
  match seq with
  | None => true
  | Some _ =>
      negb (Z.land (ctrlr_flags ctrlr) SPDK_NVME_CTRLR_ACCEL_SEQUENCE_SUPPORTED =? 0)
      && in_poll_group
  end.

Definition nvme_ns_cmd_rw_ext (opc buffer lba lba_count : Z) (o : ext_opts) : M qpair Z :=
  if negb (_is_io_flags_valid (o_flags o)) then mret (- EINVAL)
  else if negb (_is_accel_sequence_valid (o_accel o)) then mret (- EINVAL)
  else rw_submit (RwArgs opc (o_flags o) (o_apptag_mask o) (o_apptag o) 0
                    (PayloadContig buffer (o_metadata o))) (o_accel o) lba lba_count false.

Definition spdk_nvme_ns_cmd_read_ext := nvme_ns_cmd_rw_ext SPDK_NVME_OPC_READ.
Definition spdk_nvme_ns_cmd_write_ext := nvme_ns_cmd_rw_ext SPDK_NVME_OPC_WRITE.

Definition nvme_ns_cmd_rwv_ext (opc lba lba_count : Z) (o : option ext_opts) : M qpair Z :=
  match sgl_fns with
  | None => mret (- EINVAL)
  | Some _ =>
      match o with
      | Some o =>
          if negb (_is_io_flags_valid (o_flags o)) then mret (- EINVAL)
          else if negb (_is_accel_sequence_valid (o_accel o)) then mret (- EINVAL)
          else rw_submit (RwArgs opc (o_flags o) (o_apptag_mask o) (o_apptag o) (o_cdw13 o)
                            (PayloadSgl (o_metadata o))) (o_accel o) lba lba_count true
      | None => rw_submit (RwArgs opc 0 0 0 0 (PayloadSgl None)) None lba lba_count true
      end
  end.

Definition spdk_nvme_ns_cmd_readv_ext := nvme_ns_cmd_rwv_ext SPDK_NVME_OPC_READ.
Definition spdk_nvme_ns_cmd_writev_ext := nvme_ns_cmd_rwv_ext SPDK_NVME_OPC_WRITE.

(** *** Zone append *)

Definition nvme_ns_cmd_check_zone_append (lba_count flags : Z) : Z :=
  if Z.land (ctrlr_flags ctrlr) SPDK_NVME_CTRLR_ZONE_APPEND_SUPPORTED =? 0 then - EINVAL
  else if max_zone_append_size ctrlr
          <? u32 (lba_count * _nvme_get_host_buffer_sector_size ns flags)
  then - EINVAL else 0.

(** The request is freed again when it was split. *)
Definition append_submit (lba_count : Z) (r : request + Z) (must_not_split : bool) : M qpair Z :=
  match r with
  | inr rc => mret (failure_rc lba_count rc)
  | inl req =>
      match req_children req with
      | [] => submit req
      | _ => _ ← c_assert (negb must_not_split); _ ← free_tree req; mret (- EINVAL)
      end
  end.

Definition nvme_ns_cmd_zone_append_with_md (buffer : Z) (md : option Z)
    (zslba lba_count flags mask tag : Z) : M qpair Z :=
  if negb (_is_io_flags_valid flags) then mret (- EINVAL)
  else
    let rc := nvme_ns_cmd_check_zone_append lba_count flags in
    if negb (rc =? 0) then mret rc
    else
      r ← run_rw (RwArgs SPDK_NVME_OPC_ZONE_APPEND flags mask tag 0 (PayloadContig buffer md))
            None zslba lba_count false;
      append_submit lba_count r true.

Definition nvme_ns_cmd_zone_appendv_with_md (md : option Z)
    (zslba lba_count flags mask tag : Z) : M qpair Z :=
  if negb (_is_io_flags_valid flags) then mret (- EINVAL)
  else match sgl_fns with
  | None => mret (- EINVAL)
  | Some _ =>
      let rc := nvme_ns_cmd_check_zone_append lba_count flags in
      if negb (rc =? 0) then mret rc
      else
        r ← run_rw (RwArgs SPDK_NVME_OPC_ZONE_APPEND flags mask tag 0 (PayloadSgl md))
              None zslba lba_count true;
        append_submit lba_count r false
  end.

(** *** Commands without data *)

(** cdw12 of a command on lba_count blocks. *)
Definition nlb (lba_count flags : Z) : Z :=
  Z.lor (u32 (lba_count - 1)) (Z.land flags SPDK_NVME_IO_FLAGS_CDW12_MASK).

Definition null_cmd (c : nvme_cmd) : M qpair Z :=
  r ← nvme_allocate_request_null;
  match r with
  | None => mret (- ENOMEM)
  | Some req => submit (set_cmd c req)
  end.

Definition spdk_nvme_ns_cmd_write_zeroes (lba lba_count flags : Z) : M qpair Z :=
  if negb (_is_io_flags_valid flags) then mret (- EINVAL)
  else if (lba_count =? 0) || (UINT16_MAX + 1 <? lba_count) then mret (- EINVAL)
  else null_cmd (NvmeCmd SPDK_NVME_OPC_WRITE_ZEROES (ns_id ns) lba
         (Z.land flags SPDK_NVME_IO_FLAGS_FUSE_MASK) (nlb lba_count flags) 0 0 0).

Definition spdk_nvme_ns_cmd_verify (lba lba_count flags : Z) : M qpair Z :=
  if negb (_is_io_flags_valid flags) then mret (- EINVAL)
  else if (lba_count =? 0) || (UINT16_MAX + 1 <? lba_count) then mret (- EINVAL)
  else null_cmd (NvmeCmd SPDK_NVME_OPC_VERIFY (ns_id ns) lba
         (Z.land flags SPDK_NVME_IO_FLAGS_FUSE_MASK) (nlb lba_count flags) 0 0 0).

Definition spdk_nvme_ns_cmd_write_uncorrectable (lba lba_count : Z) : M qpair Z :=
  if (lba_count =? 0) || (UINT16_MAX + 1 <? lba_count) then mret (- EINVAL)
  else null_cmd (NvmeCmd SPDK_NVME_OPC_WRITE_UNCORRECTABLE (ns_id ns) lba 0
         (u32 (lba_count - 1)) 0 0 0).

Definition spdk_nvme_ns_cmd_flush : M qpair Z :=
  null_cmd (NvmeCmd SPDK_NVME_OPC_FLUSH (ns_id ns) 0 0 0 0 0 0).

End Commands.
