(* ===== verification/NsCmdLemmas.v ===== *)
(** * Splitting: trees of requests, the pool, and the tiling of an I/O

    Induction over request trees, the accounting of pool elements, and the
    specification of the splitting loop for contiguous payloads. *)

From S2P Require Import Prelude NsCmd.

(** ** Trees of requests *)

Fixpoint ids (r : request) : list nat :=
  let 'Request i _ cs := r in
  i :: (fix go (cs : list request) : list nat :=
          match cs with [] => [] | c :: cs' => ids c ++ go cs' end) cs.

Fixpoint leaves (r : request) : list request :=
  let 'Request i f cs := r in
  match cs with
  | [] => [Request i f []]
  | _ => (fix go (cs : list request) : list request :=
            match cs with [] => [] | c :: cs' => leaves c ++ go cs' end) cs
  end.

Definition ids_list (cs : list request) : list nat := concat (map ids cs).
Definition leaves_list (cs : list request) : list request := concat (map leaves cs).

Lemma ids_eq i f cs : ids (Request i f cs) = i :: ids_list cs.
Proof. cbn. f_equal. unfold ids_list. induction cs as [|c cs IH]; cbn; [done|]. by rewrite IH. Qed.

Lemma leaves_eq i f cs :
  leaves (Request i f cs) = match cs with [] => [Request i f []] | _ => leaves_list cs end.
Proof.
  cbn. destruct cs as [|c cs]; [done|]. unfold leaves_list. cbn. f_equal.
  induction cs as [|c' cs IH]; cbn; [done|]. by rewrite IH.
Qed.

Lemma request_ind' (P : request -> Prop) :
  (forall i f cs, Forall P cs -> P (Request i f cs)) -> forall r, P r.
Proof.
  intros HP. fix IH 1. intros [i f cs]. apply HP.
  induction cs as [|c cs IHcs]; constructor; [apply IH|apply IHcs].
Qed.

Lemma ids_set_cb c r : ids (set_cb c r) = ids r.
Proof. by destruct r. Qed.

Lemma ids_list_app l k : ids_list (l ++ k) = ids_list l ++ ids_list k.
Proof. unfold ids_list. by rewrite map_app, concat_app. Qed.

Lemma leaves_list_app l k : leaves_list (l ++ k) = leaves_list l ++ leaves_list k.
Proof. unfold leaves_list. by rewrite map_app, concat_app. Qed.

Lemma ids_nonempty r : (1 <= length (ids r))%nat.
Proof. destruct r. rewrite ids_eq. cbn. lia. Qed.

Lemma ids_list_length cs : (length cs <= length (ids_list cs))%nat.
Proof.
  induction cs as [|c cs IH]; [done|]. unfold ids_list in *. cbn. rewrite length_app.
  pose proof (ids_nonempty c). lia.
Qed.

Lemma leaves_list_ids cs :
  Forall (fun r => length (leaves r) <= length (ids r))%nat cs ->
  (length (leaves_list cs) <= length (ids_list cs))%nat.
Proof.
  induction 1 as [|c cs Hc _ IH]; [done|]. unfold leaves_list, ids_list in *. cbn.
  rewrite !length_app. lia.
Qed.

Lemma leaves_ids r : (length (leaves r) <= length (ids r))%nat.
Proof.
  induction r as [i f cs IH] using request_ind'. apply leaves_list_ids in IH.
  rewrite leaves_eq, ids_eq. destruct cs; cbn in *; lia.
Qed.

(** A tree with several leaves has an inner node as well. *)
Lemma many_leaves_ids r :
  (1 < length (leaves r))%nat -> (length (leaves r) < length (ids r))%nat.
Proof.
  destruct r as [i f cs]. rewrite leaves_eq, ids_eq. destruct cs as [|c cs]; cbn [length]; [lia|].
  intros _. apply le_n_S, leaves_list_ids, Forall_forall. intros r _. apply leaves_ids.
Qed.

(** ** The pool *)

Record q_ok (q : qpair) : Prop := {
  qo_num : 0 <= num_outstanding_reqs q;
  qo_max : num_outstanding_reqs q + Z.of_nat (length (free_req q)) < 2 ^ 32 }.

(** [taken l q q']: the elements [l] left the pool between [q] and [q']. *)
Definition taken (l : list nat) (q q' : qpair) : Prop :=
  free_req q ≡ₚ l ++ free_req q'
  /\ num_outstanding_reqs q' = num_outstanding_reqs q + Z.of_nat (length l).

Lemma taken_nil q : taken [] q q.
Proof. split; [done|cbn; lia]. Qed.

Lemma taken_trans l k q1 q2 q3 : taken l q1 q2 -> taken k q2 q3 -> taken (l ++ k) q1 q3.
Proof.
  intros [A1 A2] [B1 B2]. split.
  - rewrite A1, B1. by rewrite app_assoc.
  - rewrite B2, A2, length_app. lia.
Qed.

Lemma taken_length l q q' :
  taken l q q' -> length (free_req q) = (length l + length (free_req q'))%nat.
Proof. intros [H _]. by rewrite H, length_app. Qed.

Lemma taken_ok l q q' : q_ok q -> taken l q q' -> q_ok q'.
Proof.
  intros [H1 H2] Ht. pose proof (taken_length _ _ _ Ht). destruct Ht as [_ Ht].
  constructor; lia.
Qed.

Lemma taken_perm l k q q' : l ≡ₚ k -> taken l q q' -> taken k q q'.
Proof. intros Hl [A B]. split; [by rewrite A, Hl|]. by rewrite B, Hl. Qed.

(** [returned l q q']: the elements [l] came back. *)
Definition returned (l : list nat) (q q' : qpair) : Prop := taken l q' q.

Lemma returned_app l k q q1 q2 :
  returned (l ++ k) q1 q2 -> taken k q q1 -> returned l q q2.
Proof.
  intros [A1 A2] [B1 B2]. split.
  - by rewrite A1, <- app_assoc, <- B1.
  - rewrite length_app in A2. lia.
Qed.

(** What is lost stays lost when other elements come back. *)
Lemma leak_app l k m q q1 qa q' :
  returned (l ++ k) qa q' -> taken k q q1 -> taken m q1 qa ->
  exists qb, taken m q qb /\ returned l qb q'.
Proof.
  intros [A1 A2] [B1 B2] [C1 C2].
  exists (Qpair (k ++ free_req qa) (num_outstanding_reqs qa - Z.of_nat (length k))).
  rewrite length_app in A2. split; split; cbn; try lia.
  - rewrite B1, C1, !app_assoc. apply Permutation_app_tail, Permutation_app_comm.
  - by rewrite A1, app_assoc.
Qed.

Lemma returned_nil q q' : returned [] q q' -> taken [] q q'.
Proof. intros [A B]. split; [symmetry; exact A|cbn in *; lia]. Qed.

Lemma free_id_ok i q :
  q_ok q -> 0 < num_outstanding_reqs q ->
  exists q', free_id i q = Ok (tt, q') /\ returned [i] q q' /\ q_ok q'.
Proof.
  intros [H1 H2] Hn. unfold free_id. mstep.
  rewrite (proj2 (Z.ltb_lt _ _) Hn). mstep. eexists. split; [reflexivity|].
  split.
  - split; cbn; [done|]. rewrite wrap_small by lia. lia.
  - constructor; cbn [num_outstanding_reqs free_req length]; rewrite wrap_small by lia; lia.
Qed.

Lemma free_tree_ok r q :
  q_ok q -> Z.of_nat (length (ids r)) <= num_outstanding_reqs q ->
  exists q', free_tree r q = Ok (tt, q') /\ returned (ids r) q q' /\ q_ok q'.
Proof.
  revert q. induction r as [i f cs IH] using request_ind'. intros q Hq Hn.
  rewrite ids_eq in *. cbn [length] in Hn. cbn [free_tree].
  assert (Hgo : forall q, q_ok q -> Z.of_nat (length (ids_list cs)) <= num_outstanding_reqs q ->
    exists q', (fix go (cs : list request) : M qpair unit :=
         match cs with
         | [] => mret tt
         | c :: cs' => _ ← free_tree c; go cs'
         end) cs q = Ok (tt, q') /\ returned (ids_list cs) q q' /\ q_ok q').
  { clear q Hq Hn. induction IH as [|c cs Hc _ IHcs]; intros q Hq Hn.
    - exists q. split; [done|]. split; [apply taken_nil|done].
    - unfold ids_list in Hn. cbn [map concat] in Hn. rewrite length_app in Hn.
      fold (ids_list cs) in Hn.
      destruct (Hc q Hq ltac:(lia)) as (q1 & H1 & R1 & O1).
      destruct (IHcs q1 O1) as (q2 & H2 & R2 & O2); [destruct R1 as [_ R1]; lia|].
      exists q2. split; [by erewrite M_bind_ok by exact H1|]. split; [|done].
      unfold returned, ids_list in *. cbn [map concat].
      eapply taken_perm; [|exact (taken_trans _ _ _ _ _ R2 R1)]. apply Permutation_app_comm. }
  destruct (Hgo q Hq ltac:(lia)) as (q1 & H1 & R1 & O1).
  erewrite M_bind_ok by exact H1.
  destruct (free_id_ok i q1 O1) as (q2 & H2 & R2 & O2); [destruct R1 as [_ R1]; lia|].
  exists q2. split; [done|]. split; [|done].
  exact (taken_trans _ _ _ _ _ R2 R1).
Qed.

(** ** The tiling of an I/O *)

Section Tile.
Context (ns : nvme_ns) (a : rw_args).
Let ss : Z := _nvme_get_host_buffer_sector_size ns (a_flags a).
Let mx : Z := _nvme_get_sectors_per_max_io ns (a_flags a).

(** The stripe size that applies to the command. *)
Definition stripe : Z :=
  if a_opc a =? SPDK_NVME_OPC_ZONE_APPEND then 0 else ns_sectors_per_stripe ns.

Definition crosses (lba n : Z) : bool :=
  (0 <? stripe) && (stripe <? Z.land lba (stripe - 1) + n).

(** The command of a leaf. *)
Definition leaf_cmd (lba n : Z) : nvme_cmd :=
  NvmeCmd (a_opc a) (ns_id ns) lba (Z.land (a_flags a) SPDK_NVME_IO_FLAGS_FUSE_MASK)
    (Z.lor (u32 (n - 1)) (Z.land (a_flags a) SPDK_NVME_IO_FLAGS_CDW12_MASK)) (a_cdw13 a)
    (if negb (Z.land (ns_flags ns) SPDK_NVME_NS_DPS_PI_SUPPORTED =? 0)
        && ((pi_type ns =? 1) || (pi_type ns =? 2)) then u32 lba else 0)
    (Z.lor (u32 (Z.shiftl (a_apptag_mask a) 16)) (a_apptag a)).

(** [r] transfers [n] blocks from [lba] at the given offsets of the payload and
    the metadata. *)
Record leaf_ok (r : request) (po mo lba n : Z) : Prop := {
  lf_payload : r_payload (req_f r) = a_payload a;
  lf_po : r_payload_offset (req_f r) = po;
  lf_mo : r_md_offset (req_f r) = mo;
  lf_size : r_payload_size (req_f r) = n * ss;
  lf_md : r_md_size (req_f r) = n * md_size ns;
  lf_cmd : r_cmd (req_f r) = leaf_cmd lba n }.

(** The requests [l] cover [cnt] blocks from [lba] without gap or overlap, with
    contiguous parts of the payload and the metadata, and respect the transfer
    size and the stripe boundaries. *)
Fixpoint tile (l : list request) (po mo lba cnt : Z) : Prop :=
  match l with
  | [] => cnt = 0
  | r :: l' => exists n, 0 < n <= mx /\ crosses lba n = false /\ leaf_ok r po mo lba n
      /\ tile l' (po + n * ss) (mo + n * md_size ns) (lba + n) (cnt - n)
  end.

Lemma tile_app l k po mo lba n1 n2 :
  tile l po mo lba n1 ->
  tile k (po + n1 * ss) (mo + n1 * md_size ns) (lba + n1) n2 ->
  tile (l ++ k) po mo lba (n1 + n2).
Proof.
  revert po mo lba n1. induction l as [|r l IH]; intros po mo lba n1; cbn [tile app].
  - intros ->. rewrite !Z.mul_0_l, !Z.add_0_r. done.
  - intros (n & Hn & Hc & Hl & Ht) Hk. exists n. do 3 (split; [done|]).
    replace (n1 + n2 - n) with (n1 - n + n2) by lia. apply IH; [done|].
    replace (po + n * ss + (n1 - n) * ss) with (po + n1 * ss) by lia.
    replace (mo + n * md_size ns + (n1 - n) * md_size ns) with (mo + n1 * md_size ns) by lia.
    by replace (lba + n + (n1 - n)) with (lba + n1) by lia.
Qed.

Lemma tile_nonneg l po mo lba cnt : tile l po mo lba cnt -> 0 <= cnt.
Proof.
  revert po mo lba cnt. induction l as [|r l IH]; intros po mo lba cnt; cbn [tile]; [lia|].
  intros (n & Hn & _ & _ & Ht). apply IH in Ht. lia.
Qed.

Lemma tile_length l c po mo lba cnt :
  (forall lba n, 0 < n <= mx -> crosses lba n = false -> n <= c) ->
  tile l po mo lba cnt -> cnt <= Z.of_nat (length l) * c.
Proof.
  intros Hc. revert po mo lba cnt. induction l as [|r l IH]; intros po mo lba cnt; cbn [tile length].
  - intros ->. lia.
  - intros (n & Hn & Hx & _ & Ht). apply IH in Ht. specialize (Hc _ _ Hn Hx). lia.
Qed.

(** ** The splitting loop *)

(** The geometry the code relies on. *)
Record geometry_ok : Prop := {
  ge_mx : 0 < mx < 2 ^ 32;
  ge_ss : 0 <= ss;
  ge_md : 0 <= md_size ns;
  ge_stripe : stripe = 0 \/ exists k, 0 <= k < 32 /\ stripe = 2 ^ k }.

(** The arithmetic of an I/O does not overflow. *)
Record io_fits (po mo lba cnt : Z) : Prop := {
  if_po : 0 <= po;
  if_mo : 0 <= mo;
  if_lba : 0 <= lba;
  if_cnt : 0 < cnt < 2 ^ 32;
  if_po_max : po + cnt * ss < 2 ^ 32;
  if_mo_max : mo + cnt * md_size ns < 2 ^ 32;
  if_lba_max : lba + cnt < 2 ^ 64 }.

Lemma io_fits_sub po mo lba cnt n :
  geometry_ok -> io_fits po mo lba cnt -> 0 < n <= cnt -> io_fits po mo lba n.
Proof.
  intros [_ Hs Hm _] [H1 H2 H3 H4 H5 H6 H7] Hn. constructor; try lia.
  - assert (n * ss <= cnt * ss) by (apply Z.mul_le_mono_nonneg_r; lia). lia.
  - assert (n * md_size ns <= cnt * md_size ns) by (apply Z.mul_le_mono_nonneg_r; lia). lia.
Qed.

Lemma io_fits_mid po mo lba cnt k m :
  geometry_ok -> io_fits po mo lba cnt -> 0 <= k -> 0 < m -> k + m <= cnt ->
  io_fits (po + k * ss) (mo + k * md_size ns) (lba + k) m.
Proof.
  intros [_ Hs Hm _] [H1 H2 H3 H4 H5 H6 H7] Hk Hm0 Hle.
  assert (0 <= k * ss) by (apply Z.mul_nonneg_nonneg; lia).
  assert (0 <= k * md_size ns) by (apply Z.mul_nonneg_nonneg; lia).
  assert ((k + m) * ss <= cnt * ss) by (apply Z.mul_le_mono_nonneg_r; lia).
  assert ((k + m) * md_size ns <= cnt * md_size ns) by (apply Z.mul_le_mono_nonneg_r; lia).
  constructor; lia.
Qed.

Lemma land_pow2 k x : 0 <= k -> 0 <= x -> Z.land x (2 ^ k - 1) = x mod 2 ^ k.
Proof.
  intros Hk Hx. rewrite <- Z.land_ones by done. f_equal. rewrite Z.ones_equiv. lia.
Qed.

(** Every request transfers at least one block. *)
Lemma tile_count l po mo lba cnt : tile l po mo lba cnt -> Z.of_nat (length l) <= cnt.
Proof.
  revert po mo lba cnt. induction l as [|r l IH]; intros po mo lba cnt; cbn [tile length]; [lia|].
  intros (n & Hn & _ & _ & Ht). apply IH in Ht. lia.
Qed.

(** [piece]: the parts of the payload, by offset and length, one request can
    describe.  [bad]: the ranges, by payload offset and number of blocks, that
    cannot be cut into such parts at block boundaries. *)
Context (piece bad : Z -> Z -> Prop).

Definition piece_ok (r : request) : Prop :=
  piece (r_payload_offset (req_f r)) (r_payload_size (req_f r)).

(** What a recursive call promises for a range, when the pool holds at most
    [F] elements.  The error for a bad range loses the requests of the range. *)
Definition rw_spec (F : nat) (rw : Z -> Z -> Z -> Z -> bool -> M qpair (request + Z))
    (chk : bool) (po mo lba n : Z) : Prop :=
  forall q, q_ok q -> Z.of_nat (length (free_req q)) < 65535 -> (length (free_req q) <= F)%nat ->
  exists res q', rw po mo lba n chk q = Ok (res, q') /\ q_ok q' /\
    match res with
    | inl r => taken (ids r) q q' /\ tile (leaves r) po mo lba n
        /\ Forall piece_ok (leaves r) /\ Z.of_nat (length (ids r)) < 2 * n
    | inr rc =>
        (rc = - ENOMEM /\ taken [] q q' /\ Z.of_nat (length (free_req q)) < 2 * n - 1)
        \/ (rc = - EINVAL /\ bad po n /\ exists l, l <> [] /\ taken l q q')
    end.

Lemma leaves_set_cb c r po mo lba n : tile (leaves r) po mo lba n -> tile (leaves (set_cb c r)) po mo lba n.
Proof.
  destruct r as [i f [|ch cs]]; cbn [set_cb]; rewrite !leaves_eq; [|done].
  intros (k & H1 & H2 & [] & H4). exists k. do 2 (split; [done|]). split; [|done].
  by constructor.
Qed.

Lemma pieces_set_cb c r : Forall piece_ok (leaves r) -> Forall piece_ok (leaves (set_cb c r)).
Proof.
  destruct r as [i f [|ch cs]]; cbn [set_cb]; rewrite !leaves_eq; [|done].
  by rewrite !Forall_singleton.
Qed.

Lemma add_child_ok i f cs c q :
  Z.of_nat (length cs) < 65535 ->
  nvme_request_add_child (Request i f cs) c q = Ok (Request i f (cs ++ [set_cb CbChild c]), q).
Proof.
  intros Hl. cbn. unfold UINT16_MAX. erewrite M_bind_ok; [done|].
  rewrite (proj2 (Z.eqb_neq _ _)) by lia. reflexivity.
Qed.

Lemma split_loop_done rw fuel chunk mask po mo lba req q :
  split_loop ns a rw fuel chunk mask po mo lba 0 req q = Ok (inl req, q).
Proof. by destruct fuel. Qed.

Section Loop.
Context (F : nat) (rw : Z -> Z -> Z -> Z -> bool -> M qpair (request + Z)) (chunk mask : Z).
Context (Inv : Z -> Z -> Prop).
(** The size of the next child. *)
Let step (lba rem : Z) : Z := Z.min rem (u32 (chunk - Z.land lba mask)).
Let few (lba rem : Z) : Z := if step lba rem <? rem then 2 else 1.
Hypothesis H_geo : geometry_ok.
Hypothesis H_bad : forall po n k m, 0 <= k -> k + m <= n -> bad (po + k * ss) m -> bad po n.

Lemma few_pos lba rem : 1 <= few lba rem.
Proof. unfold few. by destruct (_ <? _). Qed.

Hypothesis H_step : forall lba rem, Inv lba rem -> 0 <= lba -> 0 < rem ->
  0 < step lba rem
  /\ (forall po mo, io_fits po mo lba (step lba rem) -> rw_spec F rw true po mo lba (step lba rem))
  /\ (step lba rem < rem -> Inv (lba + step lba rem) (rem - step lba rem)).

Lemma split_loop_ok fuel q req po mo lba rem :
  q_ok q -> io_fits po mo lba rem -> Inv lba rem -> (length (free_req q) < fuel)%nat ->
  (length (free_req q) <= F)%nat ->
  Z.of_nat (length (req_children req)) + Z.of_nat (length (free_req q)) < 65535 ->
  Z.of_nat (length (ids req)) <= num_outstanding_reqs q ->
  exists res q', split_loop ns a rw fuel chunk mask po mo lba rem req q = Ok (res, q') /\ q_ok q' /\
    match res with
    | inl r => exists cs, r = Request (req_id req) (req_f req) (req_children req ++ cs)
        /\ cs <> [] /\ taken (ids_list cs) q q' /\ tile (leaves_list cs) po mo lba rem
        /\ Forall piece_ok (leaves_list cs)
        /\ Z.of_nat (length (ids_list cs)) <= 2 * rem - few lba rem
    | inr rc =>
        (rc = - ENOMEM /\ returned (ids req) q q'
         /\ Z.of_nat (length (free_req q)) < 2 * rem - few lba rem)
        \/ (rc = - EINVAL /\ bad po rem
            /\ exists l qa, l <> [] /\ taken l q qa /\ returned (ids req) qa q')
    end.
Proof.
  revert q req po mo lba rem. induction fuel as [|fuel IH]; intros q req po mo lba rem Hq Hfit Hinv Hfu HF Hch Hn;
    [lia|]. pose proof Hfit as [F1 F2 F3 F4 F5 F6 F7].
  cbn [split_loop]. rewrite (proj2 (Z.leb_gt rem 0)) by lia.
  fold (step lba rem). destruct (H_step lba rem Hinv F3 ltac:(lia)) as (Hs & Hrw & Hnext).
  assert (Hfew : few lba rem = if step lba rem <? rem then 2 else 1) by done.
  set (n := step lba rem) in *. assert (n <= rem) by (unfold n, step; lia).
  unfold _nvme_add_child_request.
  assert (Hfn : io_fits po mo lba n) by (apply (io_fits_sub _ _ _ rem); [done|done|lia]).
  destruct (Hrw po mo Hfn q Hq ltac:(lia) HF) as (res & q1 & Hr & Hq1 & Hres).
  rewrite M_bind_assoc. erewrite M_bind_ok by exact Hr. destruct res as [c|rc].
  - destruct Hres as (Ht & Htile & Hpc & Hsz). destruct req as [i f cs0]. cbn [req_id req_f req_children] in *.
    pose proof (taken_length _ _ _ Ht) as Hlen. pose proof (ids_nonempty c) as Hc1.
    rewrite M_bind_assoc. erewrite M_bind_ok by (apply add_child_ok; lia).
    erewrite M_bind_ok by reflexivity.
    assert (0 <= n * ss) by (apply Z.mul_nonneg_nonneg; [lia|apply H_geo]).
    assert (0 <= n * md_size ns) by (apply Z.mul_nonneg_nonneg; [lia|apply H_geo]).
    assert (n * ss <= rem * ss) by (apply Z.mul_le_mono_nonneg_r; [apply H_geo|lia]).
    assert (n * md_size ns <= rem * md_size ns)
      by (apply Z.mul_le_mono_nonneg_r; [apply H_geo|lia]).
    fold ss.
    rewrite !wrap_small by lia.
    assert (Htl : tile (leaves_list [set_cb CbChild c]) po mo lba n).
    { unfold leaves_list. cbn. rewrite app_nil_r. by apply leaves_set_cb. }
    assert (Hpl : Forall piece_ok (leaves_list [set_cb CbChild c])).
    { unfold leaves_list. cbn. rewrite app_nil_r. by apply pieces_set_cb. }
    assert (Htk : taken (ids_list [set_cb CbChild c]) q q1).
    { unfold ids_list. cbn. by rewrite ids_set_cb, app_nil_r. }
    assert (Hl1 : length (ids_list [set_cb CbChild c]) = length (ids c)).
    { unfold ids_list. cbn. by rewrite ids_set_cb, app_nil_r. }
    destruct (Z.eq_dec n rem) as [He|Hne].
    + rewrite He, Z.sub_diag, split_loop_done. eexists _, q1. split; [reflexivity|].
      split; [done|]. exists [set_cb CbChild c]. rewrite <- He in *.
      rewrite Hfew, Z.ltb_irrefl, Hl1. split_and!; [done|done|done|done|done|lia].
    + rewrite Hfew, (proj2 (Z.ltb_lt n rem)) by lia.
      pose proof (few_pos (lba + n) (rem - n)).
      destruct (IH q1 (Request i f (cs0 ++ [set_cb CbChild c])) (po + n * ss)
        (mo + n * md_size ns) (lba + n) (rem - n)) as (res & q2 & Hl2 & Hq2 & Hres2).
      * done.
      * eapply io_fits_mid; [done|exact Hfit|lia..].
      * apply Hnext. lia.
      * lia.
      * lia.
      * cbn [req_children]. rewrite length_app. cbn. lia.
      * rewrite ids_eq, ids_list_app in *. cbn [length] in *. rewrite length_app.
        destruct Htk as [_ Htk]. lia.
      * exists res, q2. split; [exact Hl2|]. split; [done|]. destruct res as [r|rc].
        -- destruct Hres2 as (cs & -> & Hcs & Htk2 & Htl2 & Hpl2 & Hsz2). exists (set_cb CbChild c :: cs).
           cbn [req_children req_id req_f]. rewrite <- app_assoc. split; [done|]. split; [done|].
           change (set_cb CbChild c :: cs) with ([set_cb CbChild c] ++ cs).
           rewrite ids_list_app, leaves_list_app.
           split; [exact (taken_trans _ _ _ _ _ Htk Htk2)|].
           split; [|split; [by apply Forall_app|rewrite length_app; lia]].
           replace rem with (n + (rem - n)) by lia. by apply tile_app.
        -- rewrite ids_eq, ids_list_app in Hres2. rewrite ids_eq.
           destruct Hres2 as [(-> & Hret & Hsz2)|(-> & Hb & l & qa & Hl & Ht2 & Hret)].
           ++ left. split; [done|]. split; [|lia]. by eapply (returned_app (i :: ids_list cs0)).
           ++ right. split; [done|]. split; [apply (H_bad po rem n (rem - n)); [lia..|done]|].
              exists l. apply (leak_app (i :: ids_list cs0) (ids_list [set_cb CbChild c]) l q q1 qa) in Hret
                as (qb & Hqb1 & Hqb2); [by exists qb|done|done].
  - assert (Htk : exists l, taken l q q1) by (destruct Hres as [(_ & Ht & _)|(_ & _ & l & _ & Ht)]; by eexists).
    destruct (free_tree_ok req q1 Hq1) as (q2 & Hf & Hret & Hq2).
    { destruct Htk as (l & _ & Htk). lia. }
    rewrite M_bind_assoc. erewrite M_bind_ok by exact Hf.
    erewrite M_bind_ok by reflexivity. exists (inr rc), q2. split; [done|].
    split; [done|]. destruct Hres as [(-> & Ht & Hsz)|(-> & Hb & l & Hl & Ht)].
    + left. split; [done|]. split; [|rewrite Hfew; destruct (Z.ltb_spec n rem); lia].
      eapply (returned_app (ids req) []); [|exact Ht]. by rewrite app_nil_r.
    + right. split; [done|]. split; [|by exists l, q1].
      apply (H_bad po rem 0 n); [lia..|]. by rewrite Z.mul_0_l, Z.add_0_r.
Qed.
End Loop.

(** ** The recursion *)

Section Rw.
Context (ctrlr : nvme_ctrlr) {I : Type} (reset_sgl_fn : Z -> I) (next_sge_fn : I -> (Z * Z) * I).
Context (fuel : nat).
Hypothesis H_geo : geometry_ok.
Hypothesis H_flags : _is_io_flags_valid (a_flags a) = true.
Hypothesis H_zns : a_opc a = SPDK_NVME_OPC_ZONE_APPEND -> csi_is_zns ns = true.
Hypothesis H_bad : forall po n k m, 0 <= k -> k + m <= n -> bad (po + k * ss) m -> bad po n.

Let rw (depth : nat) := _nvme_ns_cmd_rw ns ctrlr reset_sgl_fn next_sge_fn a fuel depth.

(** The payload of the range is taken as one piece. *)
Definition one_piece (chk : bool) : Prop :=
  match a_payload a with PayloadContig _ _ => True | PayloadSgl _ => chk = false end.

(** The request [_nvme_ns_cmd_rw] starts from. *)
Definition base_req (i : nat) (acc : option Z) (po mo n : Z) : request :=
  Request i (Fields CbUser (a_payload a) po mo (n * ss) (n * md_size ns) acc cmd0 0) [].

Lemma alloc_step q :
  q_ok q ->
  match free_req q with
  | [] => True
  | i :: l => taken [i] q (Qpair l (num_outstanding_reqs q + 1))
      /\ q_ok (Qpair l (num_outstanding_reqs q + 1))
      /\ u32 (num_outstanding_reqs q + 1) = num_outstanding_reqs q + 1
  end.
Proof.
  intros [H1 H2]. destruct (free_req q) as [|i l] eqn:Ef; [done|]. cbn [length] in H2.
  split; [|split].
  - split; cbn; [by rewrite Ef|lia].
  - constructor; cbn; lia.
  - apply wrap_small. lia.
Qed.

Lemma setup_leaf i po mo lba n q :
  exists r, _nvme_ns_cmd_setup_request ns a lba n (base_req i None po mo n) q = Ok (r, q)
    /\ ids r = [i] /\ leaves r = [r] /\ leaf_ok r po mo lba n.
Proof.
  unfold _nvme_ns_cmd_setup_request. rewrite H_flags. erewrite M_bind_ok by reflexivity.
  eexists. split; [reflexivity|]. split; [done|]. split; [done|]. by constructor.
Qed.

Lemma rw_alloc d acc chk po mo lba n q :
  io_fits po mo lba n ->
  rw (S d) acc po mo lba n chk q
  = match free_req q with
    | [] => Ok (inr (- ENOMEM), q)
    | i :: l =>
        let req := base_req i acc po mo n in
        (if crosses lba n
         then _nvme_ns_cmd_split_request ns a (rw d None) fuel po mo lba n req stripe
                (stripe - 1) acc
         else if mx <? n
         then _nvme_ns_cmd_split_request ns a (rw d None) fuel po mo lba n req mx 0 acc
         else match a_payload a with
         | PayloadSgl _ =>
             if chk then
               if negb (Z.land (ctrlr_flags ctrlr) SPDK_NVME_CTRLR_SGL_SUPPORTED =? 0)
               then _nvme_ns_cmd_split_request_sgl ns ctrlr reset_sgl_fn next_sge_fn a
                      (rw d None) fuel po mo lba n req acc
               else _nvme_ns_cmd_split_request_prp ns ctrlr reset_sgl_fn next_sge_fn a
                      (rw d None) fuel po mo lba n req acc
             else r ← _nvme_ns_cmd_setup_request ns a lba n req; mret (inl r)
         | PayloadContig _ _ =>
             r ← _nvme_ns_cmd_setup_request ns a lba n req; mret (inl r)
         end) (Qpair l (u32 (num_outstanding_reqs q + 1)))
    end.
Proof.
  intros [F1 F2 F3 F4 F5 F6 F7].
  assert (0 <= n * ss) by (apply Z.mul_nonneg_nonneg; [lia|apply H_geo]).
  assert (0 <= n * md_size ns) by (apply Z.mul_nonneg_nonneg; [lia|apply H_geo]).
  unfold rw. cbn [_nvme_ns_cmd_rw]. fold ss. rewrite !(wrap_small 32) by lia.
  destruct (free_req q) as [|i l] eqn:Ef.
  - erewrite M_bind_ok; [|unfold nvme_allocate_request, mbind, M_bind, get; by rewrite Ef].
    done.
  - erewrite M_bind_ok; [|unfold nvme_allocate_request, mbind, M_bind, get; by rewrite Ef].
    cbn beta iota. erewrite M_bind_ok; [done|].
    unfold c_assert. destruct (Z.eqb_spec (a_opc a) SPDK_NVME_OPC_ZONE_APPEND) as [He|He]; [|done].
    by rewrite (H_zns He).
Qed.

(** A range that needs no split becomes one request. *)
Lemma rw_leaf_run d chk po mo lba n q :
  one_piece chk -> io_fits po mo lba n -> crosses lba n = false -> n <= mx -> q_ok q ->
  match free_req q with
  | [] => rw (S d) None po mo lba n chk q = Ok (inr (- ENOMEM), q)
  | i :: _ => exists r q', rw (S d) None po mo lba n chk q = Ok (inl r, q') /\ q_ok q'
      /\ taken [i] q q' /\ ids r = [i] /\ leaves r = [r] /\ leaf_ok r po mo lba n
  end.
Proof.
  intros Hp Hfit Hc Hn Hq. rewrite rw_alloc by done.
  pose proof (alloc_step q Hq) as Ha. destruct (free_req q) as [|i l] eqn:Ef; [done|].
  destruct Ha as (Ht & Hq1 & ->). rewrite Hc. cbn zeta.
  rewrite (proj2 (Z.ltb_ge mx n)) by lia.
  destruct (setup_leaf i po mo lba n (Qpair l (num_outstanding_reqs q + 1)))
    as (r & Hs & Hi & Hl & Hlf).
  assert (HT : (r ← _nvme_ns_cmd_setup_request ns a lba n (base_req i None po mo n);
    mret (inl r)) (Qpair l (num_outstanding_reqs q + 1))
    = Ok (inl r : request + Z, Qpair l (num_outstanding_reqs q + 1)))
    by (erewrite M_bind_ok by exact Hs; done).
  exists r, (Qpair l (num_outstanding_reqs q + 1)). split; [|done].
  unfold one_piece in Hp. destruct (a_payload a); [exact HT|]. rewrite Hp. exact HT.
Qed.

Lemma leaf_tile r po mo lba n :
  leaf_ok r po mo lba n -> crosses lba n = false -> 0 < n <= mx -> tile [r] po mo lba n.
Proof. intros. exists n. do 3 (split; [done|]). cbn. lia. Qed.

Lemma rw_leaf_ok d chk po mo lba n :
  one_piece chk -> piece po (n * ss) -> io_fits po mo lba n -> crosses lba n = false -> n <= mx ->
  rw_spec fuel (rw (S d) None) chk po mo lba n.
Proof.
  intros Hp Hpc Hfit Hc Hn q Hq _ _. pose proof (rw_leaf_run d chk po mo lba n q Hp Hfit Hc Hn Hq) as Hr.
  pose proof (if_cnt _ _ _ _ Hfit). destruct (free_req q) as [|i l] eqn:Ef.
  - eexists _, q. split; [exact Hr|]. split; [done|]. left. split; [done|].
    split; [apply taken_nil|]. cbn. lia.
  - destruct Hr as (r & q' & Hr & Hq' & Ht & Hi & Hl & Hlf). exists (inl r), q'.
    split; [exact Hr|]. split; [done|]. rewrite Hi, Hl. split; [done|].
    split; [apply leaf_tile; [done|done|lia]|]. split; [|cbn; lia]. apply Forall_singleton.
    unfold piece_ok. by rewrite (lf_po _ _ _ _ _ Hlf), (lf_size _ _ _ _ _ Hlf).
Qed.

(** A split of a range by a loop whose chunks the recursive calls handle. *)
Lemma rw_split_ok d chk po mo lba n chunk mask (Inv : Z -> Z -> Prop) :
  io_fits po mo lba n -> Inv lba n -> Z.min n (u32 (chunk - Z.land lba mask)) < n ->
  (forall q i l, free_req q = i :: l ->
     rw (S d) None po mo lba n chk q
     = _nvme_ns_cmd_split_request ns a (rw d None) fuel po mo lba n (base_req i None po mo n)
         chunk mask None (Qpair l (u32 (num_outstanding_reqs q + 1)))) ->
  (forall lba rem, Inv lba rem -> 0 <= lba -> 0 < rem ->
    0 < Z.min rem (u32 (chunk - Z.land lba mask))
    /\ (forall po mo, io_fits po mo lba (Z.min rem (u32 (chunk - Z.land lba mask))) ->
        rw_spec fuel (rw d None) true po mo lba (Z.min rem (u32 (chunk - Z.land lba mask))))
    /\ (Z.min rem (u32 (chunk - Z.land lba mask)) < rem ->
        Inv (lba + Z.min rem (u32 (chunk - Z.land lba mask)))
            (rem - Z.min rem (u32 (chunk - Z.land lba mask))))) ->
  rw_spec fuel (rw (S d) None) chk po mo lba n.
Proof.
  intros Hfit Hinv Hfirst Hrw Hstep q Hq Hlen Hfu.
  pose proof (alloc_step q Hq) as Ha. destruct (free_req q) as [|i l] eqn:Ef.
  { exists (inr (- ENOMEM)), q. rewrite rw_alloc, Ef by done. split; [done|]. split; [done|]. left.
    split; [done|]. split; [apply taken_nil|]. cbn. destruct Hfit. lia. }
  destruct Ha as (Ht & Hq1 & Hw). rewrite (Hrw q i l Ef), Hw.
  cbn [length] in Hlen, Hfu. unfold _nvme_ns_cmd_split_request.
  destruct (split_loop_ok fuel (rw d None) chunk mask Inv H_geo H_bad Hstep fuel
    (Qpair l (num_outstanding_reqs q + 1)) (base_req i None po mo n) po mo lba n)
    as (res & q' & Hs & Hq' & Hres); try done.
  - cbn. lia.
  - cbn. lia.
  - cbn. destruct Hq. lia.
  - exists res, q'. split; [exact Hs|]. split; [done|]. destruct res as [r|rc].
    + destruct Hres as (cs & -> & Hcs & Htk & Htl & Hpl & Hsz). cbn [req_id req_f req_children base_req app] in *.
      rewrite ids_eq, leaves_eq. split; [exact (taken_trans _ _ _ _ _ Ht Htk)|].
      rewrite (proj2 (Z.ltb_lt _ _) Hfirst) in Hsz. cbn [length].
      destruct cs as [|c cs]; [done|]. split; [done|]. split; [done|lia].
    + change (ids (base_req i None po mo n)) with [i] in Hres.
      destruct Hres as [(-> & Hret & Hsz)|(-> & Hb & k & qa & Hk & Hta & Hret)].
      * left. split; [done|]. rewrite (proj2 (Z.ltb_lt _ _) Hfirst) in Hsz. cbn [free_req] in Hsz.
        cbn [length]. split; [|lia]. apply returned_nil. exact (returned_app [] [i] _ _ _ Hret Ht).
      * right. split; [done|]. split; [done|]. exists k. split; [done|].
        destruct (leak_app [] [i] k q _ qa q' Hret Ht Hta) as (qb & H1 & [H2 H3]).
        cbn in H2, H3. destruct H1 as [H1 H4]. split; [by rewrite H1, H2|lia].
Qed.

Lemma stripe_mod lba : 0 <= lba -> 0 < stripe -> Z.land lba (stripe - 1) = lba mod stripe.
Proof.
  intros Hl Hs. destruct (ge_stripe H_geo) as [He|(k & Hk & He)]; [lia|].
  rewrite He. apply land_pow2; lia.
Qed.

Lemma crosses_false lba n :
  0 <= lba -> crosses lba n = false <-> stripe <= 0 \/ lba mod stripe + n <= stripe.
Proof.
  intros Hl. unfold crosses. destruct (Z.ltb_spec 0 stripe) as [Hs|Hs]; cbn [andb].
  - rewrite stripe_mod by done. rewrite Z.ltb_ge. lia.
  - split; [by left|done].
Qed.

Lemma crosses_sub lba n k m :
  0 <= lba -> crosses lba n = false -> 0 <= k -> 0 < m -> k + m <= n -> crosses (lba + k) m = false.
Proof.
  intros Hl Hc Hk Hm Hle. apply crosses_false in Hc; [|done]. apply crosses_false; [lia|].
  destruct (Z.le_gt_cases stripe 0) as [Hs|Hs]; [by left|]. right. destruct Hc as [Hc|Hc]; [lia|].
  pose proof (Z.mod_pos_bound lba stripe Hs). rewrite <- Zplus_mod_idemp_l, Z.mod_small by lia. lia.
Qed.

(** The payloads and the values of check_sgl for which a range inside one stripe
    and one transfer is handled as promised. *)
Context (chk_ok : bool -> Prop) (H_chk : chk_ok true).
Hypothesis H_unit : forall d chk po mo lba n,
  chk_ok chk -> io_fits po mo lba n -> crosses lba n = false -> n <= mx ->
  rw_spec fuel (rw (S (S d)) None) chk po mo lba n.

(** A range inside one stripe, of any size. *)
Lemma rw_max_ok d chk po mo lba n :
  chk_ok chk -> io_fits po mo lba n -> crosses lba n = false ->
  rw_spec fuel (rw (S (S (S d))) None) chk po mo lba n.
Proof.
  intros Hp Hfit Hc. destruct (Z.le_gt_cases n mx) as [Hle|Hgt]; [by apply H_unit|].
  apply (rw_split_ok (S (S d)) chk po mo lba n mx 0
    (fun lba rem => 0 <= lba -> crosses lba rem = false)); [done|done| | |].
  - rewrite Z.land_0_r, Z.sub_0_r, wrap_small by (pose proof (ge_mx H_geo); lia). lia.
  - intros q i l Ef. rewrite rw_alloc, Ef, Hc by done.
    by rewrite (proj2 (Z.ltb_lt _ _) Hgt).
  - clear lba n po mo Hfit Hc Hgt. intros lba rem Hc Hl Hr. specialize (Hc Hl).
    rewrite Z.land_0_r, Z.sub_0_r, wrap_small by (pose proof (ge_mx H_geo); lia).
    pose proof (ge_mx H_geo) as Hmx. split; [lia|]. split.
    + intros po mo Hfit. apply H_unit; [done|done| |lia].
      rewrite <- (Z.add_0_r lba). apply (crosses_sub lba rem); [done|done|lia..].
    + intros Hlt _. apply (crosses_sub lba rem); [done|done|lia..].
Qed.

Lemma rw_ok d chk po mo lba n :
  chk_ok chk -> io_fits po mo lba n ->
  rw_spec fuel (rw (S (S (S (S d)))) None) chk po mo lba n.
Proof.
  intros Hp Hfit. destruct (crosses lba n) eqn:Hc; [|by apply rw_max_ok].
  assert (Hs : 0 < stripe).
  { unfold crosses in Hc. apply andb_true_iff in Hc as [Hc _]. by apply Z.ltb_lt. }
  assert (Hs32 : stripe < 2 ^ 32).
  { destruct (ge_stripe H_geo) as [He|(k & Hk & He)]; rewrite He; [lia|].
    apply Z.pow_lt_mono_r; lia. }
  apply (rw_split_ok (S (S (S d))) chk po mo lba n stripe (stripe - 1) (fun _ _ => True));
    [done|done| | |].
  - destruct Hfit as [_ _ Hl Hn _ _ _]. rewrite stripe_mod by done.
    pose proof (Z.mod_pos_bound lba stripe Hs). rewrite wrap_small by lia.
    apply not_false_iff_true in Hc. rewrite crosses_false in Hc by done. lia.
  - intros q i l Ef. rewrite rw_alloc, Ef, Hc by done. done.
  - clear lba n po mo Hfit Hc. intros lba rem _ Hl Hr.
    rewrite stripe_mod by done. pose proof (Z.mod_pos_bound lba stripe Hs).
    rewrite wrap_small by lia. split; [lia|]. split; [|done].
    intros po mo Hfit. apply rw_max_ok; [done|done|].
    apply crosses_false; [done|]. lia.
Qed.
End Rw.
End Tile.

(** A contiguous payload: one request describes any part of it, so that the only
    error is an empty pool. *)
Lemma rw_contig_ok ns a ctrlr {I : Type} (reset_sgl_fn : Z -> I) (next_sge_fn : I -> (Z * Z) * I)
    fuel chk po mo lba n q :
  geometry_ok ns a -> _is_io_flags_valid (a_flags a) = true ->
  (a_opc a = SPDK_NVME_OPC_ZONE_APPEND -> csi_is_zns ns = true) ->
  (exists b md, a_payload a = PayloadContig b md) -> io_fits ns a po mo lba n ->
  q_ok q -> Z.of_nat (length (free_req q)) < 65535 -> (length (free_req q) <= fuel)%nat ->
  exists res q', _nvme_ns_cmd_rw ns ctrlr reset_sgl_fn next_sge_fn a fuel rw_depth None
      po mo lba n chk q = Ok (res, q') /\ q_ok q' /\
    match res with
    | inl r => taken (ids r) q q' /\ tile ns a (leaves r) po mo lba n
        /\ Z.of_nat (length (ids r)) < 2 * n
    | inr rc => rc = - ENOMEM /\ taken [] q q' /\ Z.of_nat (length (free_req q)) < 2 * n - 1
    end.
Proof.
  intros Hg Hf Hz (b & md & Hp) Hfit Hq Hl Hfu.
  assert (Hone : forall chk, one_piece a chk) by (intros; unfold one_piece; by rewrite Hp).
  destruct (rw_ok ns a (fun _ _ => True) (fun _ _ => False) ctrlr reset_sgl_fn next_sge_fn fuel Hg Hz
    ltac:(done) (fun _ => True) Logic.I ltac:(intros; by apply rw_leaf_ok) 0 chk po mo lba n
    Logic.I Hfit q Hq Hl Hfu) as (res & q' & Hr & Hq' & Hres).
  exists res, q'. split; [exact Hr|]. split; [done|].
  destruct res; [by destruct Hres as (? & ? & _ & ?)|]. by destruct Hres as [|(_ & [] & _)].
Qed.
