(* ===== verification/NsCmdTree.v ===== *)
(** * What holds of every request of a command

    [_nvme_ns_cmd_rw] builds a tree of requests, split by split.  A property of
    the fields of a request that holds of a fresh request and survives the
    assignments of the command, of the callback and of the children holds of
    every request of the tree, whatever the payload and the geometry. *)

From S2P Require Import Prelude NsCmd NsCmdLemmas.

(** [P] holds of the fields of [r] and of all its descendants. *)
Fixpoint all_reqs (P : req_fields -> Prop) (r : request) : Prop :=
  let 'Request _ f cs := r in
  P f /\ (fix go (cs : list request) : Prop :=
            match cs with [] => True | c :: cs' => all_reqs P c /\ go cs' end) cs.

Lemma all_reqs_eq P i f cs : all_reqs P (Request i f cs) <-> P f /\ Forall (all_reqs P) cs.
Proof.
  cbn [all_reqs]. apply and_iff_compat_l. induction cs as [|c cs IH]; [done|].
  by rewrite Forall_cons, <- IH.
Qed.

Lemma all_reqs_mono (P Q : req_fields -> Prop) r :
  (forall f, P f -> Q f) -> all_reqs P r -> all_reqs Q r.
Proof.
  intros HPQ. induction r as [i f cs IH] using request_ind'. rewrite !all_reqs_eq. intros [Hf Hcs].
  split; [by apply HPQ|]. induction Hcs as [|c cs Hc Hcs IHcs]; [done|].
  apply Forall_cons_1 in IH as [IHc IH]. constructor; [by apply IHc|by apply IHcs].
Qed.

(** The arguments of a recursive call are in the ranges of their types. *)
Record args_typed (po mo lba n : Z) : Prop := {
  at_po : 0 <= po < 2 ^ 32;
  at_mo : 0 <= mo < 2 ^ 32;
  at_lba : 0 <= lba < 2 ^ 64;
  at_n : 0 <= n < 2 ^ 32 }.

Section Tree.
Context (ns : nvme_ns) (ctrlr : nvme_ctrlr) {I : Type}.
Context (reset : Z -> I) (next : I -> (Z * Z) * I) (a : rw_args) (fuel : nat).
Context (P : req_fields -> Prop).

(** The fields of a request of [n] blocks before it has a command. *)
Definition fresh_fields (acc : option Z) (po mo n : Z) : req_fields :=
  Fields CbUser (a_payload a) po mo (u32 (n * _nvme_get_host_buffer_sector_size ns (a_flags a)))
    (u32 (n * md_size ns)) acc cmd0 0.

(** The accel sequences with which the command may be called; the children have
    none. *)
Context (acc_ok : option Z -> Prop) (acc_none : acc_ok None).
Hypothesis P_fresh : forall acc po mo lba n,
  acc_ok acc -> args_typed po mo lba n -> P (fresh_fields acc po mo n).
Hypothesis P_cb : forall c i f cs, P f -> P (req_f (set_cb c (Request i f cs))).
Hypothesis P_cmd : forall i f cs lba n q r q',
  P f -> 0 <= lba < 2 ^ 64 -> 0 <= n < 2 ^ 32 ->
  _nvme_ns_cmd_setup_request ns a lba n (Request i f cs) q = Ok (r, q') -> P (req_f r).
Hypothesis H_ext : 0 <= extended_lba_size ns.

Lemma tree_setup lba n r q r' q' :
  all_reqs P r -> 0 <= lba < 2 ^ 64 -> 0 <= n < 2 ^ 32 ->
  _nvme_ns_cmd_setup_request ns a lba n r q = Ok (r', q') -> all_reqs P r'.
Proof.
  destruct r as [i f cs]. rewrite all_reqs_eq. intros [Hf Hcs] Hl Hn H.
  pose proof (P_cmd i f cs lba n q r' q' Hf Hl Hn H) as Hr. unfold _nvme_ns_cmd_setup_request in H.
  apply M_bind_inv in H as (u & q1 & _ & H). injection H as <- _. by apply all_reqs_eq.
Qed.

Lemma tree_add_child p c r q q' :
  nvme_request_add_child p c q = Ok (r, q') -> all_reqs P p -> all_reqs P c -> all_reqs P r.
Proof.
  destruct p as [i f cs]. cbn [nvme_request_add_child]. intros H Hp Hc.
  apply M_bind_inv in H as (u & q1 & _ & H). injection H as <- _. rewrite all_reqs_eq in *.
  destruct Hp as [Hf Hcs]. split; [done|]. apply Forall_app. split; [done|]. apply Forall_singleton.
  destruct c as [j g ds]. cbn [set_cb]. rewrite all_reqs_eq in *. destruct Hc as [Hg Hds].
  split; [exact (P_cb CbChild j g ds Hg)|done].
Qed.

Section Loops.
Context (rw : Z -> Z -> Z -> Z -> bool -> M qpair (request + Z)).
Hypothesis H_rw : forall po mo lba n chk q r q', args_typed po mo lba n ->
  rw po mo lba n chk q = Ok (inl r, q') -> all_reqs P r.

Lemma tree_child po mo lba n p chk q r q' :
  args_typed po mo lba n -> all_reqs P p ->
  _nvme_add_child_request rw po mo lba n p chk q = Ok (inl r, q') -> all_reqs P r.
Proof.
  intros Ha Hp H. unfold _nvme_add_child_request in H.
  apply M_bind_inv in H as (res & q1 & Hr & H). destruct res as [c|rc].
  - apply M_bind_inv in H as (p' & q2 & Hadd & He). injection He as -> _.
    eapply tree_add_child; [exact Hadd|done|]. by eapply H_rw.
  - by apply M_bind_inv in H as (? & ? & _ & ?).
Qed.

Lemma tree_split_loop chunk mask k : forall po mo lba rem req q r q',
  args_typed po mo lba rem -> all_reqs P req ->
  split_loop ns a rw k chunk mask po mo lba rem req q = Ok (inl r, q') -> all_reqs P r.
Proof.
  induction k as [|k IH]; intros po mo lba rem req q r q' Ha Hp; cbn [split_loop];
    (destruct (Z.leb_spec rem 0); [by intros [= <- _]|]); [done|]. intros H'.
  apply M_bind_inv in H' as (res & q1 & Hadd & H'). destruct res as [req'|rc]; [|done].
  pose proof (wrap_range 32 (chunk - Z.land lba mask) ltac:(lia)).
  apply IH in H'; [done| |].
  - constructor; apply wrap_range; lia.
  - eapply tree_child; [|exact Hp|exact Hadd]. destruct Ha. constructor; lia.
Qed.

(** The accumulated part is cut off, and the walk goes on. *)
Lemma tree_split_here po mo lba len req acc q (F : request * Z -> M qpair (request + Z)) r q' :
  args_typed po mo lba len -> all_reqs P req ->
  (forall req' n q1, all_reqs P req' -> F (req', n) q1 = Ok (inl r, q') -> all_reqs P r) ->
  (x ← split_here ns rw po mo lba len req acc;
   match x with inr rc => mret (inr rc) | inl y => F y end) q = Ok (inl r, q') -> all_reqs P r.
Proof.
  intros Ha Hp HF H. apply M_bind_inv in H as (res & q1 & Hs & H). destruct res as [[req' n]|rc]; [|done].
  eapply HF; [|exact H]. unfold split_here in Hs.
  destruct (Z.eqb_spec (extended_lba_size ns) 0) as [|He]; [done|]. destruct (negb _); [done|].
  destruct acc; [done|]. apply M_bind_inv in Hs as (res & q2 & Hadd & Hs).
  destruct res as [r2|rc]; [|done]. injection Hs as -> <- <-. eapply tree_child; [|exact Hp|exact Hadd].
  destruct Ha. constructor; [done..|]. split; [apply Z.div_pos; lia|].
  apply Z.div_lt_upper_bound; nia.
Qed.

Lemma tree_finish len lba n req q r q' :
  0 <= lba < 2 ^ 64 -> 0 <= n < 2 ^ 32 -> all_reqs P req ->
  finish_split ns a len lba n req q = Ok (inl r, q') -> all_reqs P r.
Proof.
  intros Hl Hn Hp H. unfold finish_split in H. destruct (_ =? _); [|by injection H as <- _].
  apply M_bind_inv in H as (r1 & q1 & Hs & He). injection He as <- _. by eapply tree_setup.
Qed.

Lemma tree_sgl_loop acc lba n :
  0 <= lba < 2 ^ 64 -> 0 <= n < 2 ^ 32 ->
  forall k it po mo clba cur len ns' req q r q', args_typed po mo clba len -> all_reqs P req ->
  sgl_loop ns ctrlr next a rw k it lba n po mo clba cur len ns' req acc q = Ok (inl r, q') ->
  all_reqs P r.
Proof.
  intros Hl Hn. induction k as [|k IH]; intros it po mo clba cur len ns' req q r q' Ha Hp;
    cbn [sgl_loop]; (destruct (_ <=? cur); [by apply tree_finish|]); [done|].
  destruct (next it) as [[addr l0] it']. set (l := if _ <? u32 (cur + l0) then _ else _).
  assert (Ha' : args_typed po mo clba (u32 (len + l))) by (destruct Ha; constructor; [done..|apply wrap_range; lia]).
  destruct (_ && _); [by apply IH|]. destruct (_ =? _); [by apply IH|].
  apply (tree_split_here po mo clba (u32 (len + l)) req acc q
    (fun '(req', n') => sgl_loop ns ctrlr next a rw k it' lba n (u32 (po + u32 (len + l)))
      (u32 (mo + n' * md_size ns)) (u64 (clba + n')) (u32 (cur + l)) 0 0 req' acc)); [done..|].
  intros req' n' q1 Hr. apply IH; [|done]. constructor; [apply wrap_range; lia..|lia].
Qed.

Lemma tree_prp_loop acc lba n :
  0 <= lba < 2 ^ 64 -> 0 <= n < 2 ^ 32 ->
  forall k it addr sl po mo clba cur len req q r q', args_typed po mo clba len -> all_reqs P req ->
  prp_loop ns ctrlr next a rw k it addr sl lba n po mo clba cur len req acc q = Ok (inl r, q') ->
  all_reqs P r.
Proof.
  intros Hl Hn. induction k as [|k IH]; intros it addr sl po mo clba cur len req q r q' Ha Hp;
    cbn [prp_loop]; (destruct (_ <=? cur); [by apply tree_finish|]); [done|].
  destruct (sl =? 0); [by apply IH|]. set (l := if _ <? u32 (cur + sl) then _ else _).
  set (sv := (len =? 0) || _). set (len' := if sv then u32 (len + l) else len).
  assert (Ha' : args_typed po mo clba len').
  { unfold len'. destruct sv; [|done]. destruct Ha. constructor; [done..|apply wrap_range; lia]. }
  clearbody len' sv l. destruct (if sv && _ then _ else _) as [[addr' sl'] it'].
  destruct (_ && _ && _); [by apply IH|]. destruct (_ =? _); [by apply IH|].
  apply (tree_split_here po mo clba len' req acc q
    (fun '(req', n') => prp_loop ns ctrlr next a rw k it' addr' sl' lba n (u32 (po + len'))
      (u32 (mo + n' * md_size ns)) (u64 (clba + n')) (if sv then u32 (cur + l) else cur) 0 req' acc));
    [done..|].
  intros req' n' q1 Hr. apply IH; [|done]. constructor; [apply wrap_range; lia..|lia].
Qed.
End Loops.

Lemma tree_rw depth : forall acc po mo lba n chk q r q',
  acc_ok acc -> args_typed po mo lba n ->
  _nvme_ns_cmd_rw ns ctrlr reset next a fuel depth acc po mo lba n chk q = Ok (inl r, q') ->
  all_reqs P r.
Proof.
  induction depth as [|d IH]; intros acc po mo lba n chk q r q' Hacc Ha; cbn [_nvme_ns_cmd_rw]; [done|].
  intros H. apply M_bind_inv in H as (res & q1 & Hal & H). destruct res as [r0|]; [|done].
  assert (Hp : all_reqs P (set_offsets po mo acc r0)).
  { unfold nvme_allocate_request in Hal. apply M_bind_inv in Hal as (q2 & q3 & _ & Hal).
    destruct (free_req q2); [done|]. apply M_bind_inv in Hal as (? & ? & _ & Hal).
    injection Hal as <- _. split; [exact (P_fresh acc po mo lba n Hacc Ha)|done]. }
  apply M_bind_inv in H as (u & q2 & _ & H). pose proof Ha as [_ _ Hl Hn].
  assert (Ha0 : args_typed po mo lba 0) by (destruct Ha; constructor; [done..|lia]).
  assert (Hsplit : forall chunk mask q r q',
    _nvme_ns_cmd_split_request ns a (_nvme_ns_cmd_rw ns ctrlr reset next a fuel d None) fuel po mo lba n
      (set_offsets po mo acc r0) chunk mask acc q = Ok (inl r, q') -> all_reqs P r).
  { intros chunk mask q4 r4 q5 Hs. unfold _nvme_ns_cmd_split_request in Hs. destruct acc; [done|].
    eapply tree_split_loop; [|exact Ha|exact Hp|exact Hs]. intros. by eapply (IH None). }
  assert (Hset : forall q r q', (r ← _nvme_ns_cmd_setup_request ns a lba n (set_offsets po mo acc r0);
    mret (inl r : request + Z)) q = Ok (inl r, q') -> all_reqs P r).
  { intros q4 r4 q5 Hs. apply M_bind_inv in Hs as (r1 & q6 & Hs & He). injection He as <- _.
    by eapply tree_setup. }
  destruct (_ && _); [by eapply Hsplit|]. destruct (_ <? _); [by eapply Hsplit|].
  destruct (a_payload a); [by eapply Hset|]. destruct chk; [|by eapply Hset].
  destruct (negb _).
  - unfold _nvme_ns_cmd_split_request_sgl in H. eapply tree_sgl_loop; [|done..|exact H]. intros. by eapply (IH None).
  - unfold _nvme_ns_cmd_split_request_prp in H. destruct (next _) as [[ad sl] it].
    eapply tree_prp_loop; [|done..|exact H]. intros. by eapply (IH None).
Qed.
End Tree.

(** ** The fields of the requests have their types *)

Record cmd_typed (c : nvme_cmd) : Prop := {
  cy_opc : 0 <= cmd_opc c < 2 ^ 8;
  cy_nsid : 0 <= cmd_nsid c < 2 ^ 32;
  cy_lba : 0 <= cmd_lba c < 2 ^ 64;
  cy_fuse : 0 <= cmd_fuse c < 2 ^ 2;
  cy_cdw12 : 0 <= cmd_cdw12 c < 2 ^ 32;
  cy_cdw13 : 0 <= cmd_cdw13 c < 2 ^ 32;
  cy_cdw14 : 0 <= cmd_cdw14 c < 2 ^ 32;
  cy_cdw15 : 0 <= cmd_cdw15 c < 2 ^ 32 }.

Record fields_typed (f : req_fields) : Prop := {
  fy_po : 0 <= r_payload_offset f < 2 ^ 32;
  fy_mo : 0 <= r_md_offset f < 2 ^ 32;
  fy_size : 0 <= r_payload_size f < 2 ^ 32;
  fy_md : 0 <= r_md_size f < 2 ^ 32;
  fy_cmd : cmd_typed (r_cmd f) }.

Section Typed.
Context (ns : nvme_ns) (ctrlr : nvme_ctrlr) {I : Type} (sgl_fns : option ((Z -> I) * (I -> (Z * Z) * I))).
Context (no_sgl : I) (fuel : nat) (a : rw_args).

(** The members of struct spdk_nvme_ns and the arguments of a command are in the
    ranges of their types. *)
Record inputs_typed : Prop := {
  it_nsid : 0 <= ns_id ns < 2 ^ 32;
  it_ext : 0 <= extended_lba_size ns < 2 ^ 32;
  it_opc : 0 <= a_opc a < 2 ^ 8;
  it_flags : 0 <= a_flags a < 2 ^ 32;
  it_mask : 0 <= a_apptag_mask a < 2 ^ 16;
  it_tag : 0 <= a_apptag a < 2 ^ 16;
  it_cdw13 : 0 <= a_cdw13 a < 2 ^ 32 }.

Hypothesis HT : inputs_typed.

Lemma setup_typed i f cs lba n q r q' :
  fields_typed f -> 0 <= lba < 2 ^ 64 -> 0 <= n < 2 ^ 32 ->
  _nvme_ns_cmd_setup_request ns a lba n (Request i f cs) q = Ok (r, q') -> fields_typed (req_f r).
Proof.
  intros [F1 F2 F3 F4 [C1 C2 C3 C4 C5 C6 C7 C8]] Hl Hn H. destruct HT as [T1 T2 T3 T4 T5 T6 T7].
  unfold _nvme_ns_cmd_setup_request in H. apply M_bind_inv in H as (u & q1 & _ & H). injection H as <- _.
  constructor; [done..|]. cbn [set_cmd req_f r_cmd]. constructor; cbn; [done..| | |done| |].
  - apply land_bound; [lia|done].
  - apply lor_bound; [lia|apply wrap_range; lia|apply land_bound; [lia|done]].
  - destruct (_ && _); [apply wrap_range; lia|done].
  - apply lor_bound; [lia|apply wrap_range; lia|lia].
Qed.

(** Every field of every request that a read, write or compare command
    builds is in the range of its C type, without any assumption on the
    geometry of the namespace, the payload or the pool: the arithmetic of the
    splits is that of the machine types, also where it wraps around. *)
Lemma requests_well_typed acc lba n chk q r q' :
  0 <= lba < 2 ^ 64 -> 0 <= n < 2 ^ 32 ->
  run_rw ns ctrlr sgl_fns no_sgl fuel a acc lba n chk q = Ok (inl r, q') ->
  all_reqs fields_typed r.
Proof.
  intros Hl Hn H. unfold run_rw in H. destruct (default _ _) as [reset next].
  refine (tree_rw ns ctrlr reset next a fuel fields_typed (fun _ => True) Logic.I _ _ setup_typed _ rw_depth
    acc 0 0 lba n chk q r q' Logic.I _ H).
  - intros acc' po mo lba' n' _ [? ? ? ?]. constructor; [done|done|apply wrap_range; lia..|].
    constructor; cbn; lia.
  - intros c i f cs [? ? ? ? ?]. by constructor.
  - apply HT.
  - constructor; lia.
Qed.
End Typed.

(** A read of 2^23 + 1 blocks of 512 bytes, whose size wraps around, in
    transfers of 2^22 blocks. *)
Lemma requests_well_typed_demo :
  let ns := NvmeNs 1 512 512 0 0 0 (2 ^ 22) (2 ^ 22) 0 false in
  let a := RwArgs SPDK_NVME_OPC_READ 0 0xFFFF 7 0 (PayloadContig 0x1000 None) in
  let c := NvmeCtrlr 0 4096 1 16 0 in
  exists r q', run_rw ns c None tt 8 a None 5 (2 ^ 23 + 1) false (Qpair (seq 0 8) 0) = Ok (inl r, q')
    /\ length (leaves r) = 3%nat /\ all_reqs fields_typed r.
Proof.
  intros ns a c. eexists _, _. split; [vm_compute; reflexivity|]. split; [reflexivity|].
  eapply (requests_well_typed ns c None tt 8 a ltac:(constructor; split; by vm_compute) None 5 (2 ^ 23 + 1) false
    (Qpair (seq 0 8) 0)); [lia|lia|vm_compute; reflexivity].
Defined.
