(* ===== verification/NsCmdCut.v ===== *)
(** * Cutting a scattered payload into requests

    What the SGL and the PRP split share: the position of the elements of a
    payload, and the requests cut off so far, over a predicate [piece] that
    says which parts of the payload one request can describe. *)

From S2P Require Import Prelude NsCmd NsCmdLemmas.

Section Elements.
Context {I : Type} (reset_sgl_fn : Z -> I) (next_sge_fn : I -> (Z * Z) * I).

(** The length and the address of the element at an offset of the payload. *)
Definition sge_len (off : Z) : Z := snd (fst (next_sge_fn (reset_sgl_fn off))).
Definition sge_addr (off : Z) : Z := fst (fst (next_sge_fn (reset_sgl_fn off))).

(** The offset after [k] elements. *)
Fixpoint boundary (off : Z) (k : nat) : Z :=
  match k with
  | O => off
  | S k' => boundary off k' + sge_len (boundary off k')
  end.

(** The [len] bytes from [off] touch [k] elements. *)
Definition spans (off len : Z) (k : nat) : Prop :=
  match k with
  | O => len = 0
  | S k' => boundary off k' < off + len <= boundary off k
  end.

(** The contract of the payload callbacks: reset_sgl_fn positions the iterator
    at an offset, next_sge_fn returns a non-empty element and moves past it. *)
Record sgl_contract : Prop := {
  sc_next : forall off, 0 <= off ->
    snd (next_sge_fn (reset_sgl_fn off)) = reset_sgl_fn (off + sge_len off);
  sc_len : forall off, 0 <= off -> 0 < sge_len off <= 2 ^ 31 }.

Lemma boundary_add off j k : boundary (boundary off j) k = boundary off (j + k).
Proof.
  induction k as [|k IH]; cbn [boundary]; [by rewrite Nat.add_0_r|].
  rewrite Nat.add_succ_r. cbn [boundary]. by rewrite IH.
Qed.

Hypothesis H_sgl : sgl_contract.

Lemma boundary_ge off k : 0 <= off -> off + Z.of_nat k <= boundary off k.
Proof.
  intros Ho. induction k as [|k IH]; cbn [boundary]; [lia|].
  pose proof (sc_len H_sgl (boundary off k) ltac:(lia)). lia.
Qed.

Lemma boundary_mono off j k : 0 <= off -> (j <= k)%nat -> boundary off j <= boundary off k.
Proof.
  intros Ho Hjk. replace k with (j + (k - j))%nat by lia. rewrite <- boundary_add.
  pose proof (boundary_ge off j Ho). pose proof (boundary_ge (boundary off j) (k - j) ltac:(lia)).
  lia.
Qed.

(** The element at the current position. *)
Lemma sgl_next off : 0 <= off ->
  next_sge_fn (reset_sgl_fn off)
  = ((sge_addr off, sge_len off), reset_sgl_fn (off + sge_len off)).
Proof.
  intros Ho. pose proof (sc_next H_sgl off Ho) as Hn. unfold sge_len, sge_addr in *.
  destruct (next_sge_fn (reset_sgl_fn off)) as [[addr l] it]. cbn in *. by subst it.
Qed.
End Elements.

(** A vectored command on a namespace of sound geometry. *)
Record vectored (ns : nvme_ns) (a : rw_args) : Prop := {
  v_geo : geometry_ok ns a;
  v_flags : _is_io_flags_valid (a_flags a) = true;
  v_zns : a_opc a = SPDK_NVME_OPC_ZONE_APPEND -> csi_is_zns ns = true;
  v_payload : exists md, a_payload a = PayloadSgl md;
  v_md : _nvme_md_excluded_from_xfer ns (a_flags a) = false;
  v_ext : 0 < extended_lba_size ns }.

(** A range of it inside one stripe and one transfer, and the pool. *)
Record one_transfer (ns : nvme_ns) (a : rw_args) (po0 mo0 lba n : Z) (q0 : qpair) : Prop := {
  ot_fit : io_fits ns a po0 mo0 lba n;
  ot_size : n * extended_lba_size ns < 2 ^ 31;
  ot_cross : crosses ns a lba n = false;
  ot_max : n <= _nvme_get_sectors_per_max_io ns (a_flags a);
  ot_ok : q_ok q0;
  ot_pool : Z.of_nat (length (free_req q0)) < 65535 }.

Section Cut.
Context (ns : nvme_ns) (ctrlr : nvme_ctrlr) (a : rw_args).
Context {I : Type} (reset_sgl_fn : Z -> I) (next_sge_fn : I -> (Z * Z) * I).
Context (fuel0 : nat) (d : nat).
Context (piece : Z -> Z -> Prop).

Hypothesis HV : vectored ns a.
Let H_geo := v_geo _ _ HV.
Let H_flags := v_flags _ _ HV.
Let H_zns := v_zns _ _ HV.
Let H_payload := v_payload _ _ HV.
Let H_md := v_md _ _ HV.
Let H_ext := v_ext _ _ HV.

Let ss := extended_lba_size ns.
Let rw := _nvme_ns_cmd_rw ns ctrlr reset_sgl_fn next_sge_fn a fuel0 (S d) None.

Lemma sgl_ss : _nvme_get_host_buffer_sector_size ns (a_flags a) = ss.
Proof. unfold _nvme_get_host_buffer_sector_size. by rewrite H_md. Qed.

Context (po0 mo0 lba n : Z) (i : nat) (q0 : qpair).
Hypothesis HO : one_transfer ns a po0 mo0 lba n q0.
Let H_fit := ot_fit _ _ _ _ _ _ _ HO.
Let H_cross := ot_cross _ _ _ _ _ _ _ HO.
Let H_max := ot_max _ _ _ _ _ _ _ HO.
Let H_ok0 := ot_ok _ _ _ _ _ _ _ HO.
Let H_q0 := ot_pool _ _ _ _ _ _ _ HO.

Definition sgl_fields : req_fields :=
  Fields CbUser (a_payload a) po0 mo0 (n * ss) (n * md_size ns) None cmd0 0.

(** The children so far: [dn] blocks done, the requests taken from the pool. *)
Record cut (dn : Z) (cs : list request) (q : qpair) : Prop := {
  ct_q : q_ok q;
  ct_dn : 0 <= dn <= n;
  ct_taken : taken (i :: ids_list cs) q0 q;
  ct_nil : cs = [] <-> dn = 0;
  ct_tile : tile ns a (leaves_list cs) po0 mo0 lba dn;
  ct_piece : Forall (piece_ok piece) (leaves_list cs);
  ct_len : length (leaves_list cs) = length (ids_list cs) }.

Lemma cut_len dn cs q :
  cut dn cs q -> Z.of_nat (length cs) < 65535
    /\ Z.of_nat (length (i :: ids_list cs)) <= num_outstanding_reqs q.
Proof.
  intros [Hq _ Ht _ _ _ _]. pose proof (taken_length _ _ _ Ht) as Hl. destruct Ht as [_ Ht].
  pose proof (ids_list_length cs). cbn [length] in *. destruct H_ok0. lia.
Qed.

Lemma cut_extend dn cs q m r j q' :
  cut dn cs q -> 0 < m -> dn + m <= n ->
  piece (po0 + dn * ss) (m * ss) ->
  q_ok q' -> taken [j] q q' -> ids r = [j] -> leaves r = [r] ->
  leaf_ok ns a r (po0 + dn * ss) (mo0 + dn * md_size ns) (lba + dn) m ->
  cut (dn + m) (cs ++ [set_cb CbChild r]) q'.
Proof.
  intros [Hq Hdn Ht Hnil Htl Hsgl Hll] Hm Hle Hsp Hq' Htk Hi Hl Hlf.
  assert (Hids : ids_list [set_cb CbChild r] = [j]).
  { unfold ids_list. cbn. by rewrite ids_set_cb, Hi. }
  destruct r as [i' f' cs']. assert (cs' = []) as ->.
  { rewrite ids_eq in Hi. pose proof (ids_list_length cs'). destruct cs'; [done|].
    injection Hi as _ Hi. rewrite Hi in *. cbn in *. lia. }
  assert (Hleaf : leaves_list [set_cb CbChild (Request i' f' [])]
    = [set_cb CbChild (Request i' f' [])]) by done.
  assert (Hlf' : leaf_ok ns a (set_cb CbChild (Request i' f' [])) (po0 + dn * ss)
    (mo0 + dn * md_size ns) (lba + dn) m) by (destruct Hlf; by constructor).
  constructor.
  - done.
  - lia.
  - rewrite ids_list_app, Hids. exact (taken_trans _ _ _ _ _ Ht Htk).
  - split; [by destruct cs|lia].
  - rewrite leaves_list_app, Hleaf. apply tile_app; [done|]. rewrite sgl_ss.
    apply leaf_tile; [done| |lia]. apply (crosses_sub ns a H_geo lba n); [apply H_fit|done|lia..].
  - rewrite leaves_list_app, Hleaf. apply Forall_app. split; [done|]. apply Forall_singleton.
    unfold piece_ok. destruct Hlf' as [_ -> _ -> _ _]. by rewrite sgl_ss.
  - by rewrite leaves_list_app, ids_list_app, Hleaf, Hids, !length_app, Hll.
Qed.

(** A child of [m] blocks is added after [dn] blocks, or the pool is empty and
    gets back what the request has taken. *)
Lemma split_here_ok dn cs q m :
  cut dn cs q -> 0 < m -> dn + m <= n -> piece (po0 + dn * ss) (m * ss) ->
  exists res q', split_here ns rw (po0 + dn * ss) (mo0 + dn * md_size ns) (lba + dn) (m * ss)
      (Request i sgl_fields cs) None q = Ok (res, q') /\
    match res with
    | inl (r, m') => m' = m /\ exists cs', r = Request i sgl_fields cs' /\ cut (dn + m) cs' q'
        /\ length (ids_list cs') = S (length (ids_list cs))
    | inr rc => rc = - ENOMEM /\ q_ok q' /\ taken [] q0 q'
        /\ length (free_req q0) = S (length (ids_list cs))
    end.
Proof.
  intros Hcut Hm Hle Hsp. pose proof (cut_len _ _ _ Hcut) as [Hlen Hout].
  destruct Hcut as [Hq Hdn Ht Hnil Htl Hsgl Hll].
  pose proof sgl_ss as Hss. unfold split_here. fold ss.
  rewrite (proj2 (Z.eqb_neq ss 0)) by (unfold ss; lia).
  rewrite Z.mod_mul, Z.div_mul by (unfold ss; lia). cbn [negb Z.eqb].
  assert (Hfm : io_fits ns a (po0 + dn * ss) (mo0 + dn * md_size ns) (lba + dn) m).
  { rewrite <- Hss. apply (io_fits_mid ns a po0 mo0 lba n); [done|done|lia..]. }
  assert (Hxm : crosses ns a (lba + dn) m = false).
  { apply (crosses_sub ns a H_geo lba n); [apply H_fit|done|lia..]. }
  assert (Hpay : one_piece a false) by (unfold one_piece; destruct H_payload as [md ->]; done).
  pose proof (rw_leaf_run ns a ctrlr reset_sgl_fn next_sge_fn fuel0 H_geo H_flags H_zns d false
    _ _ _ m q Hpay Hfm Hxm ltac:(lia) Hq) as Hrun.
  unfold _nvme_add_child_request. rewrite M_bind_assoc.
  destruct (free_req q) as [|j l] eqn:Ef.
  - erewrite M_bind_ok by exact Hrun.
    destruct (free_tree_ok (Request i sgl_fields cs) q Hq) as (q2 & Hf & Hret & Hq2).
    { by rewrite ids_eq. }
    rewrite M_bind_assoc. erewrite M_bind_ok by exact Hf. eexists _, q2. split; [reflexivity|].
    split; [done|]. split; [done|]. split.
    + rewrite ids_eq in Hret. apply returned_nil. exact (returned_app [] _ _ _ _ Hret Ht).
    + pose proof (taken_length _ _ _ Ht) as Hl'. rewrite Ef in Hl'. cbn [length] in Hl'. lia.
  - destruct Hrun as (r & q' & Hr & Hq' & Htk & Hi & Hl & Hlf).
    erewrite M_bind_ok by exact Hr. cbn beta iota. rewrite M_bind_assoc.
    erewrite M_bind_ok by exact (add_child_ok ns a _ _ _ _ _ Hlen).
    eexists _, q'. split; [reflexivity|]. split; [done|].
    exists (cs ++ [set_cb CbChild r]). split; [done|].
    split; [by apply (cut_extend dn cs q m r j q')|].
    rewrite ids_list_app, length_app. unfold ids_list at 2. cbn. rewrite ids_set_cb, Hi. cbn. lia.
Qed.

(** The end of the walk: the request itself when it was never cut, else the
    parent of the children. *)
Lemma finish_ok dn cs q len :
  cut dn cs q -> (dn = 0 -> len = n * ss /\ piece po0 (n * ss)) ->
  (dn <> 0 -> dn = n /\ len = 0 /\ 1 < n) ->
  exists r, finish_split ns a len lba n (Request i sgl_fields cs) q = Ok (inl r, q)
    /\ taken (ids r) q0 q /\ tile ns a (leaves r) po0 mo0 lba n /\ Forall (piece_ok piece) (leaves r)
    /\ length (leaves r) = Nat.max 1 (length (ids_list cs)) /\ Z.of_nat (length (ids r)) < 2 * n.
Proof.
  intros [Hq Hdn Ht Hnil Htl Hsgl Hll] H0 Hn. pose proof (if_cnt _ _ _ _ _ _ H_fit) as Hcnt.
  assert (0 < n * ss) by (apply Z.mul_pos_pos; unfold ss; lia).
  unfold finish_split. cbn [req_f r_payload_size sgl_fields].
  destruct (Z.eq_dec dn 0) as [Hd|Hd].
  - destruct (H0 Hd) as [-> Hok]. rewrite Z.eqb_refl, (proj2 Hnil Hd).
    destruct (setup_leaf ns a H_flags i po0 mo0 lba n q) as (r & Hs & Hi & Hl & Hlf).
    unfold base_req in Hs. rewrite sgl_ss in Hs. erewrite M_bind_ok by exact Hs.
    exists r. split; [reflexivity|]. rewrite Hi, Hl.
    rewrite (proj2 Hnil Hd) in Ht. split; [done|]. split; [apply leaf_tile; [done|done|lia]|].
    split; [|cbn; split; [done|lia]]. apply Forall_singleton. destruct Hlf as [_ H1 _ H2 _ _]. unfold piece_ok.
    by rewrite H1, H2, sgl_ss.
  - destruct (Hn Hd) as (-> & -> & H1). rewrite (proj2 (Z.eqb_neq 0 (n * ss))) by lia.
    eexists. split; [reflexivity|]. rewrite ids_eq, leaves_eq.
    destruct cs as [|c cs]; [by destruct Hd; apply Hnil|]. apply tile_count in Htl as Hcn.
    pose proof (ids_list_length (c :: cs)). rewrite Hll in *. cbn [length] in *. split_and!; [done..|lia|lia].
Qed.

Lemma cut_offsets dn cs q :
  cut dn cs q -> 0 <= po0 + dn * ss < 2 ^ 32 /\ 0 <= mo0 + dn * md_size ns < 2 ^ 32
    /\ 0 <= lba + dn < 2 ^ 64.
Proof.
  intros [_ Hdn _ _ _ _ _]. pose proof (ge_md _ _ H_geo). destruct H_fit as [F1 F2 F3 F4 F5 F6 F7].
  rewrite sgl_ss in F5.
  assert (0 <= dn * ss <= n * ss) by (unfold ss in *; nia).
  assert (0 <= dn * md_size ns <= n * md_size ns) by nia. lia.
Qed.

(** A cut followed by the rest of the walk, for any postcondition of it. *)
Lemma split_then (post : request + Z -> qpair -> Prop) dn cs q len
    (F : request -> Z -> M qpair (request + Z)) :
  cut dn cs q -> 0 < len <= n * ss - dn * ss -> (dn = 0 -> len < n * ss) ->
  piece (po0 + dn * ss) len ->
  (forall q', q_ok q' -> taken [] q0 q' -> length (free_req q0) = S (length (ids_list cs)) ->
     Z.of_nat (length (free_req q0)) < 2 * n - 1 -> post (inr (- ENOMEM)) q') ->
  (len mod ss <> 0 -> post (inr (- EINVAL)) q) ->
  (forall m cs' q', len = m * ss -> cut (dn + m) cs' q' ->
     length (ids_list cs') = S (length (ids_list cs)) ->
     exists res q2, F (Request i sgl_fields cs') m q' = Ok (res, q2) /\ post res q2) ->
  exists res q', (r ← split_here ns rw (po0 + dn * ss) (mo0 + dn * md_size ns) (lba + dn) len
       (Request i sgl_fields cs) None;
     match r with inr rc => mret (inr rc) | inl (req', m) => F req' m end) q = Ok (res, q')
    /\ post res q'.
Proof.
  intros Hcut Hlen Hlt Hsp Hnomem Hinval HF. assert (Hss0 : 0 < ss) by (unfold ss; lia).
  destruct (Z.eq_dec (len mod ss) 0) as [Hmod|Hmod].
  - set (m := len / ss). assert (Hm : len = m * ss).
    { unfold m. pose proof (Z.div_mod len ss ltac:(lia)). lia. }
    destruct (split_here_ok dn cs q m) as (res & q' & Hs & Hres); [done|nia|nia|by rewrite <- Hm|].
    rewrite <- Hm in Hs. erewrite M_bind_ok by exact Hs. destruct res as [[r m']|rc].
    + destruct Hres as (-> & cs' & -> & Hcut' & Hids). by apply HF.
    + destruct Hres as (-> & Hq' & Ht & Hl). eexists _, q'. split; [reflexivity|]. apply Hnomem; [done..|].
      pose proof (tile_count _ _ _ _ _ _ _ (ct_tile _ _ _ Hcut)) as Hcn. rewrite (ct_len _ _ _ Hcut) in Hcn.
      pose proof (ct_dn _ _ _ Hcut). rewrite Hm in Hlen, Hlt. clearbody m.
      assert (0 < m /\ dn + m <= n) by nia. assert (dn = 0 -> m < n) by (intros Hd; specialize (Hlt Hd); nia). lia.
  - erewrite M_bind_ok.
    2: { unfold split_here. fold ss. rewrite (proj2 (Z.eqb_neq ss 0)) by lia.
         rewrite (proj2 (Z.eqb_neq _ _) Hmod). reflexivity. }
    eexists _, q. split; [reflexivity|]. by apply Hinval.
Qed.
(** The walk starts with the request allocated, which leaves the pool without
    children. *)
Lemma cut_start l :
  free_req q0 = i :: l -> cut 0 [] (Qpair l (num_outstanding_reqs q0 + 1)).
Proof.
  intros Ef. pose proof (alloc_step ns a q0 H_ok0) as Ha. rewrite Ef in Ha. destruct Ha as (Ht & Hq1 & _).
  pose proof (if_cnt _ _ _ _ _ _ H_fit). constructor; [done|lia|done|done|done|constructor|done].
Qed.
End Cut.
