(* ===== verification/NsCmdSgl.v ===== *)
(** * Splitting of a scattered payload for a controller with SGL support

    [_nvme_ns_cmd_split_request_sgl] walks the elements of the payload and
    cuts the request where it would need more than max_sges of them. *)

From S2P Require Import Prelude NsCmd NsCmdLemmas NsCmdCut.

Section Sgl.
Context (ns : nvme_ns) (ctrlr : nvme_ctrlr) (a : rw_args).
Context {I : Type} (reset_sgl_fn : Z -> I) (next_sge_fn : I -> (Z * Z) * I).
Context (fuel0 : nat) (d : nat).

Local Notation boundary := (boundary reset_sgl_fn next_sge_fn).
Local Notation spans := (spans reset_sgl_fn next_sge_fn).
Local Notation sge_len := (sge_len reset_sgl_fn next_sge_fn).

(** The bytes the transport can describe with the controller's SGL entries. *)
Definition sgl_piece (off len : Z) : Prop :=
  exists k, spans off len k /\ Z.of_nat k <= max_sges ctrlr.

Hypothesis H_sgl : sgl_contract reset_sgl_fn next_sge_fn.
Hypothesis HV : vectored ns a.
Hypothesis H_sges : 0 < max_sges ctrlr < 2 ^ 16.

Let ss := extended_lba_size ns.
Let rw := _nvme_ns_cmd_rw ns ctrlr reset_sgl_fn next_sge_fn a fuel0 (S d) None.

(** The pool cannot hold the parent and a child for every full [max_sges] of
    the [K] elements of the payload. *)
Definition few_free (q : qpair) (K : nat) : Prop :=
  (Z.of_nat (length (free_req q)) - 1) * max_sges ctrlr < Z.of_nat K.

(** An element of the payload ends inside a block of the [n] blocks from [po]. *)
Definition unaligned (po n : Z) : Prop :=
  exists off, po <= off /\ off + sge_len off < po + n * ss /\ (off + sge_len off - po) mod ss <> 0.

Section Request.
Context (po0 mo0 lba n : Z) (i : nat) (q0 : qpair) (K : nat).
Hypothesis HO : one_transfer ns a po0 mo0 lba n q0.
Local Notation cut := (cut ns a sgl_piece po0 mo0 lba n i q0).
Local Notation parent cs := (Request i (sgl_fields ns a po0 mo0 n) cs).

(** The outcome of the split. *)
Definition sgl_post (res : request + Z) (q' : qpair) : Prop :=
  q_ok q' /\
  match res with
  | inl r => taken (ids r) q0 q' /\ tile ns a (leaves r) po0 mo0 lba n
      /\ Forall (piece_ok sgl_piece) (leaves r) /\ Z.of_nat (length (ids r)) < 2 * n
  | inr rc =>
      (rc = - ENOMEM /\ taken [] q0 q' /\ Z.of_nat (length (free_req q0)) < 2 * n - 1
       /\ few_free q0 K)
      \/ (rc = - EINVAL /\ unaligned po0 n /\ exists l, l <> [] /\ taken l q0 q')
  end.

(** The loop leaves when the payload is exhausted. *)
Lemma sgl_done fuel it dn cs q po' mo' lba' len k :
  cut dn cs q -> (dn = 0 -> len = n * ss /\ sgl_piece po0 (n * ss)) ->
  (dn <> 0 -> dn = n /\ len = 0 /\ 1 < n) ->
  exists res q', sgl_loop ns ctrlr next_sge_fn a rw fuel it lba n po' mo' lba' (n * ss) len k
      (parent cs) None q = Ok (res, q') /\ sgl_post res q'.
Proof.
  intros Hcut H0 Hn.
  destruct (finish_ok ns a sgl_piece HV po0 mo0 lba n i q0 HO dn cs q len Hcut H0 Hn)
    as (r & Hf & Ht & Htl & Hp & _ & Hid).
  exists (inl r), q. split; [|by split; [apply Hcut|]]. rewrite <- Hf.
  destruct fuel; cbn [sgl_loop req_f r_payload_size sgl_fields]; by rewrite Z.leb_refl.
Qed.

(** A cut followed by the rest of the walk. *)
Lemma sgl_split_then dn cs q len (F : request -> Z -> M qpair (request + Z)) :
  cut dn cs q -> 0 < len <= n * ss - dn * ss -> (dn = 0 -> len < n * ss) ->
  sgl_piece (po0 + dn * ss) len ->
  Z.of_nat (length (ids_list cs)) * max_sges ctrlr < Z.of_nat K ->
  (len mod ss <> 0 -> unaligned po0 n) ->
  (forall m cs' q', len = m * ss -> cut (dn + m) cs' q' ->
     length (ids_list cs') = S (length (ids_list cs)) ->
     exists res q2, F (parent cs') m q' = Ok (res, q2) /\ sgl_post res q2) ->
  exists res q', (r ← split_here ns rw (po0 + dn * ss) (mo0 + dn * md_size ns) (lba + dn) len
       (parent cs) None;
     match r with inr rc => mret (inr rc) | inl (req', m) => F req' m end) q = Ok (res, q')
    /\ sgl_post res q'.
Proof.
  intros Hcut Hlen Hlt Hp HK Hun HF.
  apply (split_then ns ctrlr a reset_sgl_fn next_sge_fn fuel0 d sgl_piece HV po0 mo0 lba n i q0 HO);
    [done..| | |done].
  - intros q' Hq' Ht Hl Hl2. split; [done|]. left. split_and!; [done..|]. unfold few_free. lia.
  - intros Hmod. split; [apply Hcut|]. right. split; [done|]. split; [by apply Hun|].
    exists (i :: ids_list cs). split; [done|apply Hcut].
Qed.

Lemma sgl_loop_ok fuel j k dn cs q :
  cut dn cs q -> Z.of_nat (length (ids_list cs)) * max_sges ctrlr <= Z.of_nat j ->
  boundary po0 j = po0 + dn * ss -> boundary po0 (j + k) < po0 + n * ss ->
  po0 + n * ss <= boundary po0 K -> (K < fuel + (j + k))%nat -> Z.of_nat k < max_sges ctrlr ->
  let pos := boundary po0 (j + k) in
  exists res q', sgl_loop ns ctrlr next_sge_fn a rw fuel (reset_sgl_fn pos) lba n (po0 + dn * ss)
      (mo0 + dn * md_size ns) (lba + dn) (pos - po0) (pos - (po0 + dn * ss)) (Z.of_nat k)
      (parent cs) None q = Ok (res, q') /\ sgl_post res q'.
Proof.
  pose proof (ot_fit _ _ _ _ _ _ _ HO) as H_fit. pose proof (ot_size _ _ _ _ _ _ _ HO) as H_size. fold ss in H_size.
  pose proof (v_ext _ _ HV) as H_ext.
  revert j k dn cs q. induction fuel as [|fuel IH]; intros j k dn cs q Hcut Hcnt Hj Hpos HK Hfu Hk pos.
  { exfalso. pose proof (boundary_mono _ _ H_sgl po0 K (j + k) ltac:(apply H_fit) ltac:(lia)). lia. }
  pose proof (if_po _ _ _ _ _ _ H_fit) as Hpo0.
  assert (HjK : (j + k < K)%nat).
  { destruct (Nat.lt_ge_cases (j + k) K) as [|HKj]; [done|].
    pose proof (boundary_mono _ _ H_sgl po0 K (j + k) Hpo0 HKj). lia. }
  assert (Hpj : po0 + dn * ss <= pos) by (rewrite <- Hj; apply (boundary_mono _ _ H_sgl); [done|lia]).
  pose proof (boundary_ge _ _ H_sgl po0 (j + k) Hpo0) as Hp0. fold pos in Hp0, Hpos.
  pose proof (sgl_next _ _ H_sgl pos ltac:(lia)) as Hnx. pose proof (sc_len _ _ H_sgl pos ltac:(lia)) as Hlen.
  assert (Hbk : boundary po0 (j + S k) = pos + sge_len pos) by (by rewrite Nat.add_succ_r).
  cbn [sgl_loop req_f r_payload_size sgl_fields]. fold ss.
  rewrite (proj2 (Z.leb_gt (n * ss) (pos - po0))) by lia. rewrite Hnx.
  rewrite (wrap_small 32 (pos - po0 + sge_len pos)) by lia.
  set (l := if n * ss <? pos - po0 + sge_len pos then u32 (n * ss - (pos - po0)) else sge_len pos).
  assert (Hl : l = Z.min (sge_len pos) (n * ss - (pos - po0))).
  { unfold l. rewrite wrap_small by lia. destruct (Z.ltb_spec (n * ss) (pos - po0 + sge_len pos)); lia. }
  clearbody l. assert (0 <= dn * ss) by (apply Z.mul_nonneg_nonneg; [apply Hcut|unfold ss; lia]).
  rewrite !(wrap_small 32), (wrap_small 16) by lia.
  replace (Z.of_nat k + 1) with (Z.of_nat (S k)) by lia.
  destruct (Z.le_gt_cases (n * ss) (pos - po0 + sge_len pos)) as [Hlast|Hmore].
  - replace (pos - po0 + l) with (n * ss) by lia.
    replace (pos - (po0 + dn * ss) + l) with ((n - dn) * ss) by lia.
    rewrite Z.ltb_irrefl, andb_false_r.
    assert (Hsp : spans (po0 + dn * ss) ((n - dn) * ss) (S k)).
    { cbn [NsCmdCut.spans]. rewrite <- Hj, !boundary_add, Hbk. fold pos. rewrite Hj. lia. }
    destruct (Z.eqb_spec ((n - dn) * ss) (n * ss)) as [He|Hne].
    + assert (dn = 0) as -> by (unfold ss in *; nia).
      apply (sgl_done _ _ 0); [done| |done]. intros _. split; [done|].
      exists (S k). rewrite Z.mul_0_l, Z.add_0_r, Z.sub_0_r in Hsp. split; [done|lia].
    + apply (sgl_split_then dn cs q); [done|lia|intros ->; lia|exists (S k); split; [done|lia]|lia| |].
      { intros Hmod. by rewrite Z.mod_mul in Hmod by (unfold ss; lia). }
      intros m cs' q' Hm Hcut' _.
      assert (dn + m = n) as Hdm by (unfold ss in *; nia).
      pose proof (if_cnt _ _ _ _ _ _ H_fit). pose proof (ct_dn _ _ _ _ _ _ _ _ _ _ _ _ Hcut).
      assert (dn <> 0) by (intros ->; lia). assert (0 < m) by (unfold ss in *; nia).
      apply (sgl_done _ _ (dn + m)); [done|lia|lia].
  - replace l with (sge_len pos) by lia.
    destruct (Z.ltb_spec (Z.of_nat (S k)) (max_sges ctrlr)) as [Hlt|Hge];
      rewrite (proj2 (Z.ltb_lt (pos - po0 + sge_len pos) (n * ss))) by lia; cbn [andb].
    + specialize (IH j (S k) dn cs q Hcut Hcnt Hj). rewrite Hbk in IH.
      replace (pos - po0 + sge_len pos) with (pos + sge_len pos - po0) by lia.
      replace (pos - (po0 + dn * ss) + sge_len pos) with (pos + sge_len pos - (po0 + dn * ss)) by lia.
      apply IH; lia.
    + rewrite (proj2 (Z.eqb_neq _ (n * ss))) by lia.
      apply (sgl_split_then dn cs q); [done|lia|lia| |lia| |].
      { exists (S k). split; [|lia]. cbn [NsCmdCut.spans]. rewrite <- Hj, !boundary_add, Hbk. fold pos. rewrite Hj. lia. }
      { intros Hmod. exists pos. split; [lia|]. split; [lia|]. intros Hz. apply Hmod.
        replace (pos - (po0 + dn * ss) + sge_len pos) with (pos + sge_len pos - po0 + - dn * ss) by lia.
        by rewrite Z.mod_add by (unfold ss; lia). }
      intros m cs' q' Hm Hcut' Hids. destruct (cut_offsets ns a sgl_piece HV po0 mo0 lba n i q0 HO _ _ _ Hcut') as (Ho1 & Ho2 & Ho3).
      destruct (cut_offsets ns a sgl_piece HV po0 mo0 lba n i q0 HO _ _ _ Hcut) as (Ho4 & Ho5 & Ho6).
      specialize (IH (j + S k)%nat O (dn + m) cs' q' Hcut' ltac:(rewrite Hids; lia)). rewrite Nat.add_0_r, Hbk in IH.
      cbn zeta in IH.
      replace (pos + sge_len pos - (po0 + (dn + m) * ss)) with 0 in IH by lia.
      replace (pos - po0 + sge_len pos) with (pos + sge_len pos - po0) by lia.
      replace (po0 + dn * ss + (pos - (po0 + dn * ss) + sge_len pos))
        with (po0 + (dn + m) * ss) by lia.
      replace (mo0 + dn * md_size ns + m * md_size ns) with (mo0 + (dn + m) * md_size ns) by lia.
      rewrite <- Z.add_assoc, !wrap_small by lia. apply IH; lia.
Qed.
End Request.

(** The whole of _nvme_ns_cmd_rw on a range that fits one stripe and one
    transfer. *)
Lemma rw_sgl_ok po0 mo0 lba n q K :
  Z.land (ctrlr_flags ctrlr) SPDK_NVME_CTRLR_SGL_SUPPORTED <> 0 ->
  one_transfer ns a po0 mo0 lba n q -> po0 + n * ss <= boundary po0 K -> (K < fuel0)%nat ->
  exists res q', _nvme_ns_cmd_rw ns ctrlr reset_sgl_fn next_sge_fn a fuel0 (S (S d)) None
      po0 mo0 lba n true q = Ok (res, q') /\ sgl_post po0 mo0 lba n q K res q'.
Proof.
  intros Hsup HO HK Hfu. pose proof (ot_fit _ _ _ _ _ _ _ HO) as Hfit.
  rewrite (rw_alloc ns a ctrlr reset_sgl_fn next_sge_fn fuel0 (v_geo _ _ HV) (v_zns _ _ HV)) by done.
  pose proof (ot_ok _ _ _ _ _ _ _ HO) as Hq. pose proof (alloc_step ns a q Hq) as Ha.
  destruct (free_req q) as [|i l] eqn:Ef.
  { eexists _, q. split; [reflexivity|]. split; [done|]. left. split; [done|]. split; [apply taken_nil|].
    unfold few_free. rewrite Ef. pose proof (if_cnt _ _ _ _ _ _ Hfit). cbn [length]. lia. }
  destruct Ha as (_ & _ & ->).
  rewrite (ot_cross _ _ _ _ _ _ _ HO), (proj2 (Z.ltb_ge _ n)) by apply (ot_max _ _ _ _ _ _ _ HO).
  destruct (v_payload _ _ HV) as [md Hpay]. rewrite Hpay, (proj2 (Z.eqb_neq _ _) Hsup).
  assert (0 < n * ss) by (apply Z.mul_pos_pos; [apply Hfit|apply HV]).
  destruct (sgl_loop_ok po0 mo0 lba n i q K HO fuel0 0 0 0 [] (Qpair l (num_outstanding_reqs q + 1)))
    as (res & q' & Hr & Hpost); [by apply cut_start|cbn; lia..|].
  exists res, q'. split; [|done].
  unfold _nvme_ns_cmd_split_request_sgl, base_req. rewrite (sgl_ss _ _ HV). cbn [negb].
  rewrite <- Hr. cbn [NsCmdCut.boundary Nat.add]. unfold sgl_fields.
  by rewrite !Z.mul_0_l, !Z.add_0_r, Z.sub_diag.
Qed.

Lemma unaligned_sub po n k m : 0 <= k -> k + m <= n -> unaligned (po + k * ss) m -> unaligned po n.
Proof.
  pose proof (v_ext _ _ HV). intros Hk Hle (off & H1 & H2 & H3). exists off.
  split; [unfold ss in *; nia|]. split; [unfold ss in *; nia|]. intros Hz. apply H3.
  replace (off + sge_len off - (po + k * ss)) with (off + sge_len off - po + - k * ss) by lia.
  by rewrite Z.mod_add by (unfold ss in *; lia).
Qed.
End Sgl.
