(* ===== verification/NsCmdPrp.v ===== *)
(** * Splitting of a scattered payload for a controller without SGL support

    A PRP list describes the payload page by page: only its first element may
    start inside a page and only its last may end inside one.
    [_nvme_ns_cmd_split_request_prp] walks the elements of the payload and cuts
    the request wherever two neighbours do not meet at page boundaries. *)

From S2P Require Import Prelude NsCmd NsCmdLemmas NsCmdCut.

Section Prp.
Context (ns : nvme_ns) (ctrlr : nvme_ctrlr) (a : rw_args).
Context {I : Type} (reset_sgl_fn : Z -> I) (next_sge_fn : I -> (Z * Z) * I).
Context (fuel0 : nat) (d : nat).

Local Notation boundary := (boundary reset_sgl_fn next_sge_fn).
Local Notation spans := (spans reset_sgl_fn next_sge_fn).
Local Notation sge_len := (sge_len reset_sgl_fn next_sge_fn).
Local Notation sge_addr := (sge_addr reset_sgl_fn next_sge_fn).

(** The element at [off] ends inside a page, or the next one starts inside one. *)
Definition gap (off : Z) : bool :=
  negb (_is_page_aligned (u64 (sge_addr off + sge_len off)) (page_size ctrlr)
        && _is_page_aligned (sge_addr (off + sge_len off)) (page_size ctrlr)).

(** The bytes one PRP list can describe. *)
Definition prp_piece (off len : Z) : Prop :=
  forall k, boundary off (S k) < off + len -> gap (boundary off k) = false.

(** The gaps behind the first [k] elements. *)
Fixpoint gaps (off : Z) (k : nat) : nat :=
  match k with
  | O => O
  | S k' => gaps off k' + if gap (boundary off k') then 1 else 0
  end.

(** The requests of a payload with [g] gaps: one, or a parent with a child for
    every part. *)
Definition prp_requests (g : nat) : nat := match g with O => 1 | S _ => g + 2 end.

Lemma gaps_mono off j k : (j <= k)%nat -> (gaps off j <= gaps off k)%nat.
Proof. induction 1; cbn [gaps]; lia. Qed.

Lemma gaps_none off j k :
  (forall e, j <= e < j + k -> gap (boundary off e) = false)%nat ->
  gaps off (j + k) = gaps off j.
Proof.
  induction k as [|k IH]; intros He; [by rewrite Nat.add_0_r|].
  rewrite Nat.add_succ_r. cbn [gaps]. rewrite IH, He by (intros; try apply He; lia). lia.
Qed.

Hypothesis H_sgl : sgl_contract reset_sgl_fn next_sge_fn.
Hypothesis HV : vectored ns a.

Let ss := extended_lba_size ns.
Let rw := _nvme_ns_cmd_rw ns ctrlr reset_sgl_fn next_sge_fn a fuel0 (S d) None.

(** There is a gap inside a block of the [n] blocks from [po]. *)
Definition gap_in_block (po n : Z) : Prop :=
  exists off, po <= off /\ off + sge_len off < po + n * ss /\ gap off = true
    /\ (off + sge_len off - po) mod ss <> 0.

Section Request.
(** The payload ends in the element [E]. *)
Context (po0 mo0 lba n : Z) (i : nat) (q0 : qpair) (E : nat).
Hypothesis HO : one_transfer ns a po0 mo0 lba n q0.
Hypothesis HE : spans po0 (n * ss) (S E).
Local Notation cut := (cut ns a prp_piece po0 mo0 lba n i q0).
Local Notation parent cs := (Request i (sgl_fields ns a po0 mo0 n) cs).

(** The outcome of the split. *)
Definition prp_post (res : request + Z) (q' : qpair) : Prop :=
  q_ok q' /\
  match res with
  | inl r => taken (ids r) q0 q' /\ tile ns a (leaves r) po0 mo0 lba n
      /\ Forall (piece_ok prp_piece) (leaves r) /\ Z.of_nat (length (ids r)) < 2 * n
      /\ length (leaves r) = S (gaps po0 E)
  | inr rc =>
      (rc = - ENOMEM /\ taken [] q0 q' /\ Z.of_nat (length (free_req q0)) < 2 * n - 1
       /\ (length (free_req q0) < prp_requests (gaps po0 E))%nat)
      \/ (rc = - EINVAL /\ gap_in_block po0 n /\ exists l, l <> [] /\ taken l q0 q')
  end.

Lemma prp_done fuel it addr l dn cs q po' mo' lba' len :
  cut dn cs q -> (dn = 0 -> len = n * ss /\ prp_piece po0 (n * ss)) ->
  (dn <> 0 -> dn = n /\ len = 0 /\ 1 < n) -> Nat.max 1 (length (ids_list cs)) = S (gaps po0 E) ->
  exists res q', prp_loop ns ctrlr next_sge_fn a rw fuel it addr l lba n po' mo' lba' (n * ss) len
      (parent cs) None q = Ok (res, q') /\ prp_post res q'.
Proof.
  intros Hcut H0 Hn Hc.
  destruct (finish_ok ns a prp_piece HV po0 mo0 lba n i q0 HO dn cs q len Hcut H0 Hn)
    as (r & Hf & Ht & Htl & Hp & Hl & Hid).
  exists (inl r), q. split; [|split; [apply Hcut|]; split_and!; [done..|lia]]. rewrite <- Hf.
  destruct fuel; cbn [prp_loop req_f r_payload_size sgl_fields]; by rewrite Z.leb_refl.
Qed.

(** A cut followed by the rest of the walk. *)
Lemma prp_split_then dn cs q len (F : request -> Z -> M qpair (request + Z)) :
  cut dn cs q -> 0 < len <= n * ss - dn * ss -> (dn = 0 -> len < n * ss) ->
  prp_piece (po0 + dn * ss) len ->
  (S (length (ids_list cs)) < prp_requests (gaps po0 E))%nat ->
  (len mod ss <> 0 -> gap_in_block po0 n) ->
  (forall m cs' q', len = m * ss -> cut (dn + m) cs' q' ->
     length (ids_list cs') = S (length (ids_list cs)) ->
     exists res q2, F (parent cs') m q' = Ok (res, q2) /\ prp_post res q2) ->
  exists res q', (r ← split_here ns rw (po0 + dn * ss) (mo0 + dn * md_size ns) (lba + dn) len
       (parent cs) None;
     match r with inr rc => mret (inr rc) | inl (req', m) => F req' m end) q = Ok (res, q')
    /\ prp_post res q'.
Proof.
  intros Hcut Hlen Hlt Hp HK Hun HF.
  apply (split_then ns ctrlr a reset_sgl_fn next_sge_fn fuel0 d prp_piece HV po0 mo0 lba n i q0 HO);
    [done..| | |done].
  - intros q' Hq' Ht Hl Hl2. split; [done|]. left. split_and!; [done..|lia].
  - intros Hmod. split; [apply Hcut|]. right. split; [done|]. split; [by apply Hun|].
    exists (i :: ids_list cs). split; [done|apply Hcut].
Qed.

(** The part from element [j] up to element [j + k] has no gap inside. *)
Lemma prp_part j k len :
  0 <= po0 -> (forall e, j <= e < j + k -> gap (boundary po0 e) = false)%nat ->
  boundary po0 j + len <= boundary po0 (S (j + k)) -> prp_piece (boundary po0 j) len.
Proof.
  intros Hpo He Hlen e Hb. rewrite boundary_add in *. apply He.
  destruct (Nat.lt_ge_cases (j + e) (j + k)) as [|Hge]; [lia|].
  pose proof (boundary_mono _ _ H_sgl po0 (S (j + k)) (j + S e) Hpo ltac:(lia)). lia.
Qed.

(** The start of the element the loop stands at is valid. *)
Lemma prp_start_valid j k :
  (forall e, j <= e < j + k -> gap (boundary po0 e) = false)%nat -> 0 <= po0 ->
  (boundary po0 (j + k) - boundary po0 j =? 0)
    || _is_page_aligned (sge_addr (boundary po0 (j + k))) (page_size ctrlr) = true.
Proof.
  intros He Hpo. destruct k as [|k].
  - by rewrite Nat.add_0_r, Z.sub_diag.
  - specialize (He (j + k)%nat ltac:(lia)). unfold gap in He. apply negb_false_iff, andb_true_iff in He as [_ He].
    rewrite Nat.add_succ_r. cbn [NsCmdCut.boundary]. by rewrite He, orb_true_r.
Qed.

(** The loop in front of element [j + k], with a part open since element [j]. *)
Definition prp_at (fuel j k : nat) (dn : Z) (cs : list request) : M qpair (request + Z) :=
  let pos := boundary po0 (j + k) in
  prp_loop ns ctrlr next_sge_fn a rw fuel (reset_sgl_fn (pos + sge_len pos)) (sge_addr pos)
    (sge_len pos) lba n (po0 + dn * ss) (mo0 + dn * md_size ns) (lba + dn) (pos - po0)
    (pos - (po0 + dn * ss)) (parent cs) None.

Record prp_inv (j k : nat) (dn : Z) (cs : list request) (q : qpair) : Prop := {
  pi_cut : cut dn cs q;
  pi_count : length (ids_list cs) = gaps po0 j;
  pi_start : boundary po0 j = po0 + dn * ss;
  pi_le : (j + k <= E)%nat;
  pi_part : (forall e, j <= e < j + k -> gap (boundary po0 e) = false)%nat }.

Lemma prp_bounds j k dn cs q :
  prp_inv j k dn cs q ->
  0 <= dn * ss /\ po0 + dn * ss <= boundary po0 (j + k) /\ boundary po0 (j + k) < po0 + n * ss
  /\ 0 < sge_len (boundary po0 (j + k)) <= 2 ^ 31 /\ n * ss < 2 ^ 31 /\ 0 <= po0 /\ 0 < ss.
Proof.
  intros [Hcut _ Hj Hle _]. pose proof (v_ext _ _ HV). pose proof (ot_size _ _ _ _ _ _ _ HO).
  pose proof (if_po _ _ _ _ _ _ (ot_fit _ _ _ _ _ _ _ HO)) as Hpo.
  pose proof (ct_dn _ _ _ _ _ _ _ _ _ _ _ _ Hcut).
  pose proof (boundary_mono _ _ H_sgl po0 j (j + k) ltac:(lia) ltac:(lia)).
  pose proof (boundary_mono _ _ H_sgl po0 (j + k) E ltac:(lia) ltac:(lia)).
  pose proof (boundary_ge _ _ H_sgl po0 (j + k) ltac:(lia)).
  pose proof (sc_len _ _ H_sgl (boundary po0 (j + k)) ltac:(lia)). cbn [NsCmdCut.spans] in HE.
  split_and!; unfold ss in *; lia || nia.
Qed.

(** The last element: the request itself, or the last child. *)
Lemma prp_last fuel k j dn cs q :
  prp_inv j k dn cs q -> (j + k = E)%nat ->
  exists res q', prp_at (S fuel) j k dn cs q = Ok (res, q') /\ prp_post res q'.
Proof.
  intros HI HjE. pose proof (prp_bounds _ _ _ _ _ HI) as (B1 & B2 & B3 & B4 & B5 & B6 & B7).
  destruct HI as [Hcut Hcnt Hj Hle Hpart].
  pose proof (prp_start_valid j k Hpart B6) as Hsv. rewrite Hj in Hsv.
  pose proof (gaps_none po0 j k Hpart) as Hgn. rewrite HjE in Hgn.
  assert (Hend : po0 + n * ss <= boundary po0 (j + k) + sge_len (boundary po0 (j + k))).
  { rewrite HjE. cbn [NsCmdCut.spans NsCmdCut.boundary] in HE. lia. }
  assert (Hp : prp_piece (po0 + dn * ss) (n * ss - dn * ss)).
  { rewrite <- Hj. apply (prp_part j k); [done..|]. cbn [NsCmdCut.boundary]. lia. }
  unfold prp_at. set (pos := boundary po0 (j + k)) in *.
  cbn [prp_loop req_f r_payload_size sgl_fields]. fold ss.
  rewrite (proj2 (Z.leb_gt (n * ss) (pos - po0))), (proj2 (Z.eqb_neq (sge_len pos) 0)) by lia.
  rewrite Hsv. rewrite (wrap_small 32 (pos - po0 + sge_len pos)) by lia.
  set (l := if n * ss <? pos - po0 + sge_len pos then u32 (n * ss - (pos - po0)) else sge_len pos).
  assert (Hl : l = n * ss - (pos - po0)).
  { unfold l. rewrite wrap_small by lia. destruct (Z.ltb_spec (n * ss) (pos - po0 + sge_len pos)); lia. }
  clearbody l. rewrite !(wrap_small 32) by lia.
  replace (pos - po0 + l) with (n * ss) by lia.
  replace (pos - (po0 + dn * ss) + l) with (n * ss - dn * ss) by lia.
  rewrite Z.eqb_refl, Z.ltb_irrefl. cbn [andb orb negb].
  destruct (Z.eqb_spec (n * ss - dn * ss) (n * ss)) as [He|Hne].
  - assert (dn = 0) as -> by nia. apply (prp_done _ _ _ _ 0 cs q); [done| |done|].
    + intros _. split; [lia|]. by rewrite Z.mul_0_l, Z.add_0_r, Z.sub_0_r in Hp.
    + rewrite (proj2 (ct_nil _ _ _ _ _ _ _ _ _ _ _ _ Hcut) eq_refl) in *. cbn in *. lia.
  - assert (gaps po0 j <> O).
    { rewrite <- Hcnt. intros Hz. pose proof (ids_list_length cs). destruct cs; [|cbn in *; lia].
      apply Hne. rewrite (proj1 (ct_nil _ _ _ _ _ _ _ _ _ _ _ _ Hcut) eq_refl). lia. }
    apply (prp_split_then dn cs q); [done|lia|intros ->; lia|done| | |].
    { rewrite Hcnt, Hgn. unfold prp_requests. destruct (gaps po0 j); lia. }
    { intros Hmod. destruct Hmod. by rewrite <- Z.mul_sub_distr_r, Z.mod_mul by lia. }
    intros m cs' q' Hm Hcut' Hids. assert (dn + m = n) as Hdm by nia.
    pose proof (if_cnt _ _ _ _ _ _ (ot_fit _ _ _ _ _ _ _ HO)). pose proof (ct_dn _ _ _ _ _ _ _ _ _ _ _ _ Hcut).
    assert (dn <> 0) by (intros ->; lia). assert (0 < m) by nia.
    apply (prp_done _ _ _ _ (dn + m) cs' q'); [done|lia|lia|lia].
Qed.

(** An element that is not the last: the part goes on, or a child is cut off. *)
Lemma prp_more fuel j k dn cs q :
  prp_inv j k dn cs q -> (j + k < E)%nat ->
  (forall j' k' dn' cs' q', prp_inv j' k' dn' cs' q' -> (j' + k' = S (j + k))%nat ->
     exists res q2, prp_at fuel j' k' dn' cs' q' = Ok (res, q2) /\ prp_post res q2) ->
  exists res q', prp_at (S fuel) j k dn cs q = Ok (res, q') /\ prp_post res q'.
Proof.
  intros HI HjE IH. pose proof (prp_bounds _ _ _ _ _ HI) as (B1 & B2 & B3 & B4 & B5 & B6 & B7).
  destruct HI as [Hcut Hcnt Hj Hle Hpart].
  pose proof (prp_start_valid j k Hpart B6) as Hsv. rewrite Hj in Hsv.
  assert (Hend : boundary po0 (j + k) + sge_len (boundary po0 (j + k)) < po0 + n * ss).
  { pose proof (boundary_mono _ _ H_sgl po0 (S (j + k)) E B6 ltac:(lia)) as Hb.
    cbn [NsCmdCut.spans NsCmdCut.boundary] in *. lia. }
  assert (Hp : prp_piece (po0 + dn * ss) (boundary po0 (S (j + k)) - (po0 + dn * ss))).
  { rewrite <- Hj. apply (prp_part j k); [done..|]. lia. }
  unfold prp_at at 1. cbn [NsCmdCut.boundary] in Hp. set (pos := boundary po0 (j + k)) in *.
  assert (Hs1 : boundary po0 (j + S k) = pos + sge_len pos) by (by rewrite Nat.add_succ_r).
  assert (Hs2 : boundary po0 (S (j + k)) = pos + sge_len pos) by done.
  cbn [prp_loop req_f r_payload_size sgl_fields]. fold ss.
  rewrite (proj2 (Z.leb_gt (n * ss) (pos - po0))), (proj2 (Z.eqb_neq (sge_len pos) 0)) by lia.
  rewrite Hsv, (wrap_small 32 (pos - po0 + sge_len pos)) by lia.
  rewrite (proj2 (Z.ltb_ge (n * ss) (pos - po0 + sge_len pos))) by lia.
  rewrite (wrap_small 32 (pos - po0 + sge_len pos)), !(wrap_small 32 (pos - (po0 + dn * ss) + sge_len pos)) by lia.
  rewrite (proj2 (Z.eqb_neq (pos - po0 + sge_len pos) (n * ss))) by lia.
  rewrite (proj2 (Z.ltb_lt (pos - po0 + sge_len pos) (n * ss))) by lia.
  rewrite (proj2 (Z.eqb_neq (pos - (po0 + dn * ss) + sge_len pos) (n * ss))) by lia.
  cbn [andb orb negb]. rewrite (sgl_next _ _ H_sgl (pos + sge_len pos)) by lia. rewrite andb_true_r.
  replace (pos - (po0 + dn * ss) + sge_len pos) with (pos + sge_len pos - (po0 + dn * ss)) in * by lia.
  replace (pos - po0 + sge_len pos) with (pos + sge_len pos - po0) by lia.
  assert (Hg : gap pos = negb (_is_page_aligned (sge_addr (pos + sge_len pos)) (page_size ctrlr)
    && _is_page_aligned (u64 (sge_addr pos + sge_len pos)) (page_size ctrlr))) by (unfold gap; by rewrite andb_comm).
  destruct (_ && _); cbn [negb] in Hg.
  - specialize (IH j (S k) dn cs q). unfold prp_at in IH. rewrite Hs1 in IH. apply IH; [|lia].
    constructor; [done..|lia|]. intros e He. destruct (decide (e = j + k)%nat) as [->|]; [done|apply Hpart; lia].
  - pose proof (gaps_none po0 j k Hpart) as Hgn.
    assert (Hgs : gaps po0 (S (j + k)) = S (gaps po0 j)) by (cbn [gaps]; fold pos; rewrite Hg, Hgn; lia).
    pose proof (gaps_mono po0 (S (j + k)) E ltac:(lia)) as Hgm.
    apply (prp_split_then dn cs q); [done|lia|lia|done| | |].
    { rewrite Hcnt. unfold prp_requests. destruct (gaps po0 E); lia. }
    { intros Hmod. exists pos. split; [lia|]. split; [lia|]. split; [done|]. intros Hz. apply Hmod.
      replace (pos + sge_len pos - (po0 + dn * ss)) with (pos + sge_len pos - po0 + - dn * ss) by lia.
      by rewrite Z.mod_add by lia. }
    intros m cs' q' Hm Hcut' Hids. specialize (IH (S (j + k)) O (dn + m) cs' q'). unfold prp_at in IH.
    destruct (cut_offsets ns a prp_piece HV po0 mo0 lba n i q0 HO _ _ _ Hcut') as (Ho1 & Ho2 & Ho3).
    rewrite Nat.add_0_r, Hs2 in IH. cbn zeta in IH.
    replace (pos + sge_len pos - (po0 + (dn + m) * ss)) with 0 in IH by lia.
    replace (po0 + dn * ss + (pos + sge_len pos - (po0 + dn * ss))) with (po0 + (dn + m) * ss) by lia.
    replace (mo0 + dn * md_size ns + m * md_size ns) with (mo0 + (dn + m) * md_size ns) by lia.
    rewrite <- (Z.add_assoc lba dn m), !wrap_small by (unfold ss in *; lia). apply IH; [|lia].
    constructor; [done|lia|rewrite Hs2; lia|lia|intros; lia].
Qed.

Lemma prp_loop_ok fuel : forall j k dn cs q,
  prp_inv j k dn cs q -> (E < fuel + (j + k))%nat ->
  exists res q', prp_at fuel j k dn cs q = Ok (res, q') /\ prp_post res q'.
Proof.
  induction fuel as [|fuel IH]; intros j k dn cs q HI Hf; [destruct HI; lia|].
  destruct (Nat.eq_dec (j + k)%nat E) as [He|Hne]; [by apply prp_last|].
  pose proof (pi_le _ _ _ _ _ HI). apply prp_more; [done|lia|]. intros j' k' dn' cs' q' HI' He'.
  apply IH; [done|lia].
Qed.
End Request.

(** The whole of _nvme_ns_cmd_rw on a range that fits one stripe and one
    transfer. *)
Lemma rw_prp_ok po0 mo0 lba n q E :
  Z.land (ctrlr_flags ctrlr) SPDK_NVME_CTRLR_SGL_SUPPORTED = 0 ->
  one_transfer ns a po0 mo0 lba n q -> spans po0 (n * ss) (S E) -> (E < fuel0)%nat ->
  exists res q', _nvme_ns_cmd_rw ns ctrlr reset_sgl_fn next_sge_fn a fuel0 (S (S d)) None
      po0 mo0 lba n true q = Ok (res, q') /\ prp_post po0 mo0 lba n q E res q'.
Proof.
  intros Hsup HO HE Hfu. pose proof (ot_fit _ _ _ _ _ _ _ HO) as Hfit.
  rewrite (rw_alloc ns a ctrlr reset_sgl_fn next_sge_fn fuel0 (v_geo _ _ HV) (v_zns _ _ HV)) by done.
  pose proof (ot_ok _ _ _ _ _ _ _ HO) as Hq. pose proof (alloc_step ns a q Hq) as Ha.
  destruct (free_req q) as [|i l] eqn:Ef.
  { eexists _, q. split; [reflexivity|]. split; [done|]. left. split; [done|]. split; [apply taken_nil|].
    rewrite Ef. pose proof (if_cnt _ _ _ _ _ _ Hfit). unfold prp_requests. destruct (gaps _ _); cbn [length]; lia. }
  destruct Ha as (_ & _ & ->).
  rewrite (ot_cross _ _ _ _ _ _ _ HO), (proj2 (Z.ltb_ge _ n)) by apply (ot_max _ _ _ _ _ _ _ HO).
  destruct (v_payload _ _ HV) as [md Hpay]. rewrite Hpay, (proj2 (Z.eqb_eq _ _) Hsup).
  destruct (prp_loop_ok po0 mo0 lba n i q E HO HE fuel0 0 0 0 [] (Qpair l (num_outstanding_reqs q + 1)))
    as (res & q' & Hr & Hpost); [|lia|].
  { constructor; [by apply cut_start|done|cbn; lia|lia|lia]. }
  exists res, q'. split; [|done]. unfold _nvme_ns_cmd_split_request_prp, base_req.
  rewrite (sgl_ss _ _ HV), (sgl_next _ _ H_sgl po0) by apply Hfit. cbn [negb].
  rewrite <- Hr. unfold prp_at. cbn [NsCmdCut.boundary Nat.add]. unfold sgl_fields.
  by rewrite !Z.mul_0_l, !Z.add_0_r, Z.sub_diag.
Qed.

Lemma gap_in_block_sub po n k m :
  0 <= k -> k + m <= n -> gap_in_block (po + k * ss) m -> gap_in_block po n.
Proof.
  pose proof (v_ext _ _ HV). intros Hk Hle (off & H1 & H2 & H3 & H4). exists off.
  split; [unfold ss in *; nia|]. split; [unfold ss in *; nia|]. split; [done|]. intros Hz. apply H4.
  replace (off + sge_len off - (po + k * ss)) with (off + sge_len off - po + - k * ss) by lia.
  by rewrite Z.mod_add by (unfold ss in *; lia).
Qed.
End Prp.
