(* ===== verification/NsCmdVectored.v ===== *)
(** * Vectored commands of any size

    A vectored command is cut three times: at the stripes, at the maximum
    transfer, and where one request cannot describe the payload, which depends
    on whether the controller takes SGLs or PRP lists. *)

From S2P Require Import Prelude NsCmd NsCmdLemmas NsCmdCut NsCmdSgl NsCmdPrp.

Lemma spans_last {I : Type} (reset : Z -> I) (next : I -> (Z * Z) * I) off len K :
  0 < len -> off + len <= boundary reset next off K ->
  exists E, (E < K)%nat /\ spans reset next off len (S E).
Proof.
  intros Hl. induction K as [|K IH]; cbn [boundary]; [lia|]. intros HK.
  destruct (Z.le_gt_cases (off + len) (boundary reset next off K)) as [Hle|Hgt].
  - destruct (IH Hle) as (E & HE & Hs). exists E. split; [lia|done].
  - exists K. split; [lia|]. cbn [spans boundary]. lia.
Qed.

Section Vectored.
Context (ns : nvme_ns) (ctrlr : nvme_ctrlr) (a : rw_args).
Context {I : Type} (reset : Z -> I) (next : I -> (Z * Z) * I).

(** What one request can describe, and why a range may be refused. *)
Definition vec_piece : Z -> Z -> Prop :=
  if Z.land (ctrlr_flags ctrlr) SPDK_NVME_CTRLR_SGL_SUPPORTED =? 0
  then prp_piece ctrlr reset next else sgl_piece ctrlr reset next.
Definition vec_bad : Z -> Z -> Prop :=
  if Z.land (ctrlr_flags ctrlr) SPDK_NVME_CTRLR_SGL_SUPPORTED =? 0
  then gap_in_block ns ctrlr reset next else unaligned ns reset next.

(** A maximal transfer is below 2 GiB and takes at most [K] elements of the
    payload, wherever it starts. *)
Record payload_fits (K : nat) : Prop := {
  pf_sges : 0 < max_sges ctrlr < 2 ^ 16;
  pf_size : _nvme_get_sectors_per_max_io ns (a_flags a) * extended_lba_size ns < 2 ^ 31;
  pf_elems : forall off, 0 <= off ->
    off + _nvme_get_sectors_per_max_io ns (a_flags a) * extended_lba_size ns
    <= boundary reset next off K }.

Context (fuel K : nat).
Hypothesis H_sgl : sgl_contract reset next.
Hypothesis HV : vectored ns a.
Hypothesis H_fits : payload_fits K.
Hypothesis H_fuel : (K < fuel)%nat.

Lemma rw_unit_ok d chk po mo lba n :
  chk = true -> io_fits ns a po mo lba n -> crosses ns a lba n = false ->
  n <= _nvme_get_sectors_per_max_io ns (a_flags a) ->
  rw_spec ns a vec_piece vec_bad fuel
    (_nvme_ns_cmd_rw ns ctrlr reset next a fuel (S (S d)) None) chk po mo lba n.
Proof.
  intros -> Hfit Hc Hn q Hq Hl _. pose proof (v_ext _ _ HV) as Hx. destruct H_fits as [Hs Hsz HK].
  pose proof (if_cnt _ _ _ _ _ _ Hfit) as Hcnt.
  assert (HO : one_transfer ns a po mo lba n q) by (constructor; [done|nia|done..]).
  assert (Hb : po + n * extended_lba_size ns <= boundary reset next po K)
    by (specialize (HK po (if_po _ _ _ _ _ _ Hfit)); nia).
  unfold vec_piece, vec_bad.
  destruct (Z.eqb_spec (Z.land (ctrlr_flags ctrlr) SPDK_NVME_CTRLR_SGL_SUPPORTED) 0) as [Hf|Hf].
  - destruct (spans_last reset next po (n * extended_lba_size ns) K) as (E & HE & Hsp); [nia|done|].
    destruct (rw_prp_ok ns ctrlr a reset next fuel d H_sgl HV po mo lba n q E Hf HO Hsp ltac:(lia))
      as (res & q' & Hr & Hq' & Hres).
    exists res, q'. split; [done|]. split; [done|]. destruct res; naive_solver.
  - destruct (rw_sgl_ok ns ctrlr a reset next fuel d H_sgl HV Hs po mo lba n q K Hf HO Hb H_fuel)
      as (res & q' & Hr & Hq' & Hres).
    exists res, q'. split; [done|]. split; [done|]. destruct res; naive_solver.
Qed.

Lemma vec_bad_sub po n k m :
  0 <= k -> k + m <= n -> vec_bad (po + k * _nvme_get_host_buffer_sector_size ns (a_flags a)) m ->
  vec_bad po n.
Proof.
  rewrite (sgl_ss _ _ HV). unfold vec_bad.
  destruct (_ =? 0); [by apply (gap_in_block_sub _ _ a)|by apply (unaligned_sub _ a)].
Qed.

Lemma rw_vectored_ok po mo lba n :
  io_fits ns a po mo lba n ->
  rw_spec ns a vec_piece vec_bad fuel
    (_nvme_ns_cmd_rw ns ctrlr reset next a fuel rw_depth None) true po mo lba n.
Proof.
  intros Hfit. apply (rw_ok ns a vec_piece vec_bad ctrlr reset next fuel (v_geo _ _ HV) (v_zns _ _ HV)
    vec_bad_sub (fun chk => chk = true) eq_refl); [|done|done].
  intros d chk. apply rw_unit_ok.
Qed.
End Vectored.
