(* ===== verification/NsCmdTheorems.v ===== *)
(** * Read, write and compare commands: splitting, pool accounting, encoding

    The contiguous commands build a tree of requests that covers the I/O
    exactly, or leave the pool as it was; the error they report for an I/O
    that can never fit is permanent; the deviations of the repository's tagged
    variants and of the early error returns. *)

From S2P Require Import Prelude NsCmd NsCmdLemmas NsCmdCut NsCmdSgl NsCmdPrp NsCmdVectored.

(** ** The contiguous commands *)

(** The leaves of a command that is too long. *)
Lemma too_long_leaves ns ctrlr a po mo lba n l :
  geometry_ok ns a -> a_opc a <> SPDK_NVME_OPC_ZONE_APPEND ->
  _nvme_md_excluded_from_xfer ns (a_flags a) = false ->
  n + Z.max (ns_sectors_per_stripe ns) (ns_sectors_per_max_io ns) <= 2 ^ 32 -> 0 < n < 2 ^ 32 ->
  nvme_ns_check_request_length n (ns_sectors_per_max_io ns) (ns_sectors_per_stripe ns)
    (io_queue_requests ctrlr) = true ->
  tile ns a l po mo lba n -> io_queue_requests ctrlr <= Z.of_nat (length l).
Proof.
  intros Hg Hz Hmd Hn Hn0 Hchk Ht.
  pose proof (ge_mx _ _ Hg) as Hmx. pose proof (ge_stripe _ _ Hg) as Hst.
  unfold _nvme_get_sectors_per_max_io in Hmx. rewrite Hmd in Hmx.
  unfold stripe in Hst. rewrite (proj2 (Z.eqb_neq _ _) Hz) in Hst.
  unfold nvme_ns_check_request_length in Hchk. apply Z.leb_le in Hchk.
  assert (Hdiv : forall c, 0 < c -> n + c <= 2 ^ 32 -> n <= Z.of_nat (length l) * c ->
    u32 (n + c - 1) / c <= Z.of_nat (length l)).
  { intros c Hc Hb Hle. rewrite wrap_small by lia. apply Z.lt_succ_r, Z.div_lt_upper_bound; lia. }
  destruct (Z.ltb_spec 0 (ns_sectors_per_stripe ns)) as [Hs|Hs].
  - etransitivity; [exact Hchk|]. apply Hdiv; [done|lia|].
    eapply (tile_length ns a); [|exact Ht]. intros lba' k Hk Hx. revert Hx.
    unfold crosses, stripe. rewrite (proj2 (Z.eqb_neq _ _) Hz), (proj2 (Z.ltb_lt _ _) Hs).
    cbn [andb]. rewrite Z.ltb_ge. destruct Hst as [|(e & He & ->)]; [lia|].
    replace (2 ^ e - 1) with (Z.ones e) by (rewrite Z.ones_equiv; lia).
    rewrite Z.land_ones by lia. pose proof (Z.mod_pos_bound lba' (2 ^ e) ltac:(lia)). lia.
  - rewrite (proj2 (Z.ltb_lt _ _) (proj1 Hmx)) in Hchk. etransitivity; [exact Hchk|].
    apply Hdiv; [lia|lia|]. eapply (tile_length ns a); [|exact Ht].
    intros lba' k Hk _. unfold _nvme_get_sectors_per_max_io in Hk. rewrite Hmd in Hk. lia.
Qed.

Section Contig.
Context (ns : nvme_ns) (ctrlr : nvme_ctrlr) {I : Type}.
Context (sgl_fns : option ((Z -> I) * (I -> (Z * Z) * I))) (no_sgl : I).
Context (submit : request -> M qpair Z).

(** C4: for every opcode, a contiguous command with valid flags either submits
    a tree of requests taken from the pool, whose leaves cover the blocks of the
    command exactly once and in order, each leaf within the maximum transfer
    size and inside one stripe, with matching parts of the data and metadata
    buffers and the encoded command; or it fails for lack of requests and puts
    every request back.  With 2n-1 free requests for n blocks it always
    submits. *)
Theorem contig_cmd_tiles fuel opc buffer md lba n flags mask tag q :
  let a := RwArgs opc flags mask tag 0 (PayloadContig buffer md) in
  _is_io_flags_valid flags = true -> geometry_ok ns a -> io_fits ns a 0 0 lba n ->
  (opc = SPDK_NVME_OPC_ZONE_APPEND -> csi_is_zns ns = true) ->
  q_ok q -> Z.of_nat (length (free_req q)) < 65535 -> (length (free_req q) <= fuel)%nat ->
  (exists r q1, contig_cmd ns ctrlr sgl_fns no_sgl submit fuel opc buffer md lba n flags mask tag q
       = submit r q1
     /\ taken (ids r) q q1 /\ tile ns a (leaves r) 0 0 lba n)
  \/ (exists q1, contig_cmd ns ctrlr sgl_fns no_sgl submit fuel opc buffer md lba n flags mask tag q
       = Ok (failure_rc ns ctrlr n (- ENOMEM), q1)
     /\ taken [] q q1 /\ Z.of_nat (length (free_req q)) < 2 * n - 1).
Proof.
  intros a Hf Hg Hfit Hz Hq Hp Hfu. unfold contig_cmd. rewrite Hf. cbn [negb].
  unfold rw_submit, run_rw. fold a. destruct (default _ _) as [reset next].
  destruct (rw_contig_ok ns a ctrlr reset next fuel false 0 0 lba n q Hg Hf Hz
    ltac:(by exists buffer, md) Hfit Hq Hp Hfu) as (res & q1 & Hr & _ & Hres).
  erewrite M_bind_ok by exact Hr. destruct res as [r|rc].
  - left. exists r, q1. split_and!; [done|apply Hres..].
  - right. destruct Hres as (-> & Ht & Hl). by exists q1.
Qed.

(** A command that nvme_ns_check_request_length calls too long for the
    queue fails with -EINVAL, not with the retryable -ENOMEM, whatever the state
    of a pool of io_queue_requests requests, and leaves the pool as it was. *)
Lemma too_long_is_einval fuel opc buffer md lba n flags mask tag q :
  let a := RwArgs opc flags mask tag 0 (PayloadContig buffer md) in
  _is_io_flags_valid flags = true -> geometry_ok ns a -> io_fits ns a 0 0 lba n ->
  opc <> SPDK_NVME_OPC_ZONE_APPEND -> _nvme_md_excluded_from_xfer ns flags = false ->
  n + Z.max (ns_sectors_per_stripe ns) (ns_sectors_per_max_io ns) <= 2 ^ 32 ->
  q_ok q -> Z.of_nat (length (free_req q)) < 65535 -> (length (free_req q) <= fuel)%nat ->
  nvme_ns_check_request_length n (ns_sectors_per_max_io ns) (ns_sectors_per_stripe ns)
    (io_queue_requests ctrlr) = true ->
  Z.of_nat (length (free_req q)) <= io_queue_requests ctrlr -> 2 <= io_queue_requests ctrlr ->
  exists q1, contig_cmd ns ctrlr sgl_fns no_sgl submit fuel opc buffer md lba n flags mask tag q
    = Ok (- EINVAL, q1) /\ taken [] q q1.
Proof.
  intros a Hf Hg Hfit Hz Hmd Hn Hq Hp Hfu Hchk Hpool Hqd.
  unfold contig_cmd. rewrite Hf. cbn [negb].
  unfold rw_submit, run_rw. fold a. destruct (default _ _) as [reset next].
  destruct (rw_contig_ok ns a ctrlr reset next fuel false 0 0 lba n q Hg Hf
    (fun H => False_ind _ (Hz H)) ltac:(by exists buffer, md) Hfit Hq Hp Hfu)
    as (res & q1 & Hr & _ & Hres).
  erewrite M_bind_ok by exact Hr. destruct res as [r|rc].
  - exfalso. destruct Hres as (Ht & Htile & _).
    pose proof (too_long_leaves ns ctrlr a 0 0 lba n _ Hg Hz Hmd Hn ltac:(apply Hfit) Hchk Htile).
    pose proof (many_leaves_ids r ltac:(lia)). apply taken_length in Ht. lia.
  - destruct Hres as (-> & Ht & _). exists q1. split; [|done].
    unfold failure_rc, nvme_ns_map_failure_rc. by rewrite Hchk.
Qed.
End Contig.

(** ** The vectored commands *)

Section VectoredCmd.
Context (ns : nvme_ns) (ctrlr : nvme_ctrlr) {I : Type}.
Context (reset : Z -> I) (next : I -> (Z * Z) * I) (no_sgl : I) (submit : request -> M qpair Z).
Context (fuel : nat) (opc : Z) (md : option Z) (lba n flags mask tag : Z) (q : qpair) (K : nat).
Let a := RwArgs opc flags mask tag 0 (PayloadSgl md).
Let run := vectored_cmd ns ctrlr (Some (reset, next)) no_sgl submit fuel opc md lba n flags mask tag.



(** With SGL support, a command inside one transfer fails for lack of requests
    only when the pool has no room for the parent and a child per max_sges
    elements. *)
Lemma sgl_split_room q1 :
  Z.land (ctrlr_flags ctrlr) SPDK_NVME_CTRLR_SGL_SUPPORTED <> 0 -> 0 < max_sges ctrlr < 2 ^ 16 ->
  sgl_contract reset next -> vectored ns a -> one_transfer ns a 0 0 lba n q ->
  n * extended_lba_size ns <= boundary reset next 0 K -> (K < fuel)%nat ->
  run_rw ns ctrlr (Some (reset, next)) no_sgl fuel a None lba n true q = Ok (inr (- ENOMEM), q1) ->
  few_free ctrlr q K.
Proof.
  intros Hf Hs Hc HV HO HK Hfu Hrun.
  destruct (rw_sgl_ok ns ctrlr a reset next fuel 2 Hc HV Hs 0 0 lba n q K Hf HO HK Hfu)
    as (res & q2 & Hr & _ & Hres).
  pose proof (eq_trans (eq_sym Hr) Hrun) as [= -> ->].
  by destruct Hres as [(_ & _ & _ & ?)|[? _]].
Qed.
End VectoredCmd.

(** ** Deviations *)

(** An exhausted pool makes the tagged variants write through the NULL request
    _nvme_ns_cmd_rw returned. *)
Lemma tagged_cmd_null_deref ns ctrlr {I : Type} sgl_fns (no_sgl : I) submit fuel
    opc buffer md lba n id flags mask tag q :
  _is_io_flags_valid flags = true -> free_req q = [] ->
  contig_cmd_tag ns ctrlr sgl_fns no_sgl submit fuel opc buffer md lba n id flags mask tag q
  = UB UB_null.
Proof.
  intros Hf He. unfold contig_cmd_tag, rw_submit_tag, run_rw. rewrite Hf. cbn [negb].
  destruct (default _ _) as [reset next].
  rewrite (M_bind_ok _ _ q (inr (- ENOMEM)) q); [done|].
  unfold rw_depth. cbn [_nvme_ns_cmd_rw]. rewrite (M_bind_ok _ _ q None q); [done|].
  unfold nvme_allocate_request. mstep. by rewrite He.
Qed.

(** A request with an accel sequence that would have to be split is lost: the
    command fails, and the request does not come back to the pool. *)
Lemma split_with_accel_leaks ns ctrlr {I : Type} sgl_fns (no_sgl : I) submit fuel
    opc buffer lba n o i l out :
  _is_io_flags_valid (o_flags o) = true -> o_accel o <> None ->
  _is_accel_sequence_valid ctrlr true (o_accel o) = true -> opc <> SPDK_NVME_OPC_ZONE_APPEND ->
  ns_sectors_per_stripe ns = 0 -> _nvme_get_sectors_per_max_io ns (o_flags o) < n ->
  nvme_ns_cmd_rw_ext ns ctrlr sgl_fns no_sgl submit true fuel opc buffer lba n o
    (Qpair (i :: l) out) = Ok (- EINVAL, Qpair l (u32 (out + 1))).
Proof.
  intros Hf Ha Hv Hz Hs Hn. unfold nvme_ns_cmd_rw_ext. rewrite Hf, Hv. cbn [negb].
  unfold rw_submit, run_rw. destruct (default _ _) as [reset next].
  rewrite (M_bind_ok _ _ _ (inr (- EINVAL)) (Qpair l (u32 (out + 1)))); [done|]. unfold rw_depth. cbn [_nvme_ns_cmd_rw a_payload].
  erewrite M_bind_ok by reflexivity. cbn beta iota. cbn [a_opc a_flags].
  rewrite (proj2 (Z.eqb_neq _ _) Hz). erewrite M_bind_ok by reflexivity.
  rewrite Hs. cbn [Z.ltb Z.compare andb]. rewrite (proj2 (Z.ltb_lt _ _) Hn).
  unfold _nvme_ns_cmd_split_request. destruct (o_accel o); done.
Qed.

(** The PRP loop does not advance past an element of length 0: no bound on the
    number of iterations is enough. *)
Lemma zero_length_sge_spins ns ctrlr {I : Type} (next : I -> (Z * Z) * I) a rw fuel it addr
    lba n po mo clba cur len req q :
  cur < r_payload_size (req_f req) ->
  prp_loop ns ctrlr next a rw fuel it addr 0 lba n po mo clba cur len req None q = OutOfFuel.
Proof.
  intros Hc. induction fuel as [|fuel IH]; cbn [prp_loop];
    rewrite (proj2 (Z.leb_gt _ _) Hc); [done|]. exact IH.
Qed.

(** ** A concrete namespace *)

Module NsDemo.
(** 512-byte blocks, 8 blocks per transfer, stripes of 16 blocks. *)
Definition ns : nvme_ns := NvmeNs 1 512 512 0 0 0 8 8 16 false.
Definition ctrlr : nvme_ctrlr := NvmeCtrlr SPDK_NVME_CTRLR_SGL_SUPPORTED 4096 2 4 0.
Definition q : qpair := Qpair (seq 0 16) 0.
Definition args (p : nvme_payload) : rw_args := RwArgs SPDK_NVME_OPC_READ 0 0 0 0 p.
Definition submit (r : request) : M qpair Z := mret (Z.of_nat (length (leaves r))).

(** A payload of 1024-byte elements: the iterator is an offset. *)
Definition reset (off : Z) : Z := off.
Definition next (it : Z) : (Z * Z) * Z := ((0x10000 + it, 1024 - it mod 1024), it + (1024 - it mod 1024)).

Lemma geometry p : geometry_ok ns (args p).
Proof. constructor; [by vm_compute|done|done|]. right. exists 4. split; [lia|reflexivity]. Qed.

Lemma fits p lba n : 0 <= lba -> 0 < n <= 64 -> lba < 1000 -> io_fits ns (args p) 0 0 lba n.
Proof.
  intros Hl Hn Hb. constructor; cbn [args a_flags md_size ns]; try lia.
  unfold _nvme_get_host_buffer_sector_size. change (_nvme_md_excluded_from_xfer ns 0) with false.
  cbn. lia.
Qed.

Lemma pool : q_ok q.
Proof. constructor; vm_compute; [done|done]. Qed.





(** No element ends inside a block. *)
Lemma aligned n : ~ vec_bad ns ctrlr reset next 0 n.
Proof.
  intros (off & Ho & _ & Hm). apply Hm. unfold sge_len, next, reset. cbn [fst snd extended_lba_size ns].
  pose proof (Z.div_mod off 1024 ltac:(lia)).
  replace (off + (1024 - off mod 1024) - 0) with ((off / 1024 + 1) * 2 * 512) by lia.
  apply Z.mod_mul. lia.
Qed.

(** 40 blocks from block 10: six requests. *)
Lemma demo_contig_run :
  fst <$> (match contig_cmd ns ctrlr (Some (reset, next)) 0 submit 16 SPDK_NVME_OPC_READ 0x1000 None
             10 40 0 0 0 q with Ok r => Some r | _ => None end) = Some 6.
Proof. vm_compute. reflexivity. Qed.
End NsDemo.

(** [contig_cmd_tiles] for a read of 40 blocks. *)
Lemma contig_cmd_tiles_witness :
  let a := NsDemo.args (PayloadContig 0x1000 None) in
  let run := contig_cmd NsDemo.ns NsDemo.ctrlr (Some (NsDemo.reset, NsDemo.next)) 0 NsDemo.submit 16
    SPDK_NVME_OPC_READ 0x1000 None 10 40 0 0 0 NsDemo.q in
  (exists r q1, run = NsDemo.submit r q1
     /\ taken (ids r) NsDemo.q q1 /\ tile NsDemo.ns a (leaves r) 0 0 10 40)
  \/ (exists q1, run = Ok (failure_rc NsDemo.ns NsDemo.ctrlr 40 (- ENOMEM), q1)
     /\ taken [] NsDemo.q q1 /\ Z.of_nat (length (free_req NsDemo.q)) < 2 * 40 - 1).
Proof.
  apply contig_cmd_tiles.
  - reflexivity.
  - apply NsDemo.geometry.
  - apply NsDemo.fits; lia.
  - discriminate.
  - apply NsDemo.pool.
  - vm_compute. reflexivity.
  - vm_compute. lia.
Defined.

(** [too_long_is_einval] for 64 blocks on a queue of 4 requests. *)
Lemma too_long_is_einval_demo :
  let q := Qpair [0; 1; 2]%nat 1 in
  exists q1, contig_cmd NsDemo.ns NsDemo.ctrlr (Some (NsDemo.reset, NsDemo.next)) 0 NsDemo.submit 16
    SPDK_NVME_OPC_READ 0x1000 None 10 64 0 0 0 q = Ok (- EINVAL, q1) /\ taken [] q q1.
Proof.
  apply too_long_is_einval.
  - reflexivity.
  - apply NsDemo.geometry.
  - apply NsDemo.fits; lia.
  - discriminate.
  - reflexivity.
  - vm_compute. discriminate.
  - constructor; vm_compute; done.
  - vm_compute. reflexivity.
  - vm_compute. lia.
  - reflexivity.
  - vm_compute. discriminate.
  - vm_compute. discriminate.
Defined.



(** With PRACT and 8 bytes of metadata the payload holds 512 bytes per block,
    but the SGL split counts in extended blocks of 520 bytes: a vectored read
    of two blocks in two 512-byte elements is refused when the controller takes
    one element per request. *)
Lemma pract_split_refused :
  let ns := NvmeNs 1 512 520 8 1 (SPDK_NVME_NS_EXTENDED_LBA_SUPPORTED + SPDK_NVME_NS_DPS_PI_SUPPORTED)
              8 8 0 false in
  let ctrlr := NvmeCtrlr SPDK_NVME_CTRLR_SGL_SUPPORTED 4096 1 16 0 in
  let next (it : Z) := ((0x10000 + it, 512), it + 512) in
  vectored_cmd ns ctrlr (Some (fun off => off, next)) 0 NsDemo.submit 16 SPDK_NVME_OPC_READ None 0 2
    SPDK_NVME_IO_FLAGS_PRACT 0 0 NsDemo.q = Ok (- EINVAL, Qpair (seq 1 15) 1).
Proof. vm_compute. reflexivity. Qed.
