(* ===== verification/NvmeQpair.v ===== *)
(** * Life of a request on a queue pair (lib/nvme/nvme_qpair.c, lib/nvme/nvme_internal.h)

    Submission of a request tree to the transport, the queue of requests the
    transport cannot take, completion of a split request through its children,
    abort of queued requests, error injection, and the states of the connection.

    The requests are objects of a heap with their parent and child pointers,
    because a request is reached from the queues, from the transport and from
    its children.  An element that is returned to the pool stays readable, as in
    the code, but must not be returned twice.  The model is that of an I/O queue
    pair on the TCP transport; the transport accepts or refuses a request
    ([t_submit]) and reports completions ([poll]).  Callbacks of the user are
    recorded in [done]; what they would submit are later calls.  num_children is
    the length of the list of children. *)

From S2P Require Import Prelude NsCmd.

(** ** Data *)

Definition SPDK_NVME_SCT_GENERIC : Z := 0x0.
Definition SPDK_NVME_SCT_PATH : Z := 0x3.
Definition SPDK_NVME_SC_SUCCESS : Z := 0x00.
Definition SPDK_NVME_SC_INTERNAL_DEVICE_ERROR : Z := 0x06.
Definition SPDK_NVME_SC_ABORTED_BY_REQUEST : Z := 0x07.
Definition SPDK_NVME_SC_ABORTED_SQ_DELETION : Z := 0x08.
Definition SPDK_NVME_SC_NAMESPACE_NOT_READY : Z := 0x82.
Definition SPDK_NVME_SC_FORMAT_IN_PROGRESS : Z := 0x84.
Definition SPDK_NVME_SC_INTERNAL_PATH_ERROR : Z := 0x00.
Definition SPDK_NVME_OPC_FABRIC : Z := 0x7f.

Inductive nvme_qpair_state :=
  | NVME_QPAIR_DISCONNECTED
  | NVME_QPAIR_DISCONNECTING
  | NVME_QPAIR_CONNECTING
  | NVME_QPAIR_CONNECTED
  | NVME_QPAIR_ENABLING
  | NVME_QPAIR_ENABLED
  | NVME_QPAIR_DESTROYING.

#[export] Instance nvme_qpair_state_eq_dec : EqDecision nvme_qpair_state.
Proof. solve_decision. Defined.

(** enum spdk_nvme_qp_failure_reason; the reasons LOCAL, REMOTE and UNKNOWN
    are treated alike. *)
Inductive failure_reason :=
  | SPDK_NVME_QPAIR_FAILURE_NONE
  | SPDK_NVME_QPAIR_FAILURE_OTHER
  | SPDK_NVME_QPAIR_FAILURE_RESET.

#[export] Instance failure_reason_eq_dec : EqDecision failure_reason.
Proof. solve_decision. Defined.

Record cpl := Cpl { cpl_cdw0 : Z; cpl_sct : Z; cpl_sc : Z; cpl_dnr : Z }.

Definition spdk_nvme_cpl_is_error (c : cpl) : bool :=
  negb (cpl_sc c =? SPDK_NVME_SC_SUCCESS) || negb (cpl_sct c =? SPDK_NVME_SCT_GENERIC).

(** cb_fn and cb_arg of a request. *)
Inductive req_cb := CbNull | CbArg (arg : Z) | CbCompleteChild.

#[export] Instance req_cb_eq_dec : EqDecision req_cb.
Proof. solve_decision. Defined.

Record nvme_request := NvmeRequest {
  r_opc : Z;
  r_fn : req_cb;
  r_queued : bool;
  r_children : list nat;
  r_parent : option nat;
  r_cpl : cpl;
  parent_status : cpl;
  timeout_tsc : Z;
  submit_tick : Z;
  accel_sequence : option Z }.

Record nvme_error_cmd := ErrorCmd {
  ec_opc : Z;
  do_not_submit : bool;
  ec_timeout_tsc : Z;
  err_count : Z;
  ec_sct : Z;
  ec_sc : Z }.

(** The fields of the connection and of the controller. *)
Record conn := Conn {
  state : nvme_qpair_state;
  is_new_qpair : bool;
  transport_failure_reason : failure_reason;
  abort_dnr : Z;
  is_failed : bool;
  is_removed : bool;
  is_resetting : bool;
  timeout_enabled : bool }.

(** [inflight]: the requests the transport holds, oldest first. *)
Record qst := Qst {
  reqs : gmap nat nvme_request;
  free_reqs : list nat;
  outstanding : Z (** num_outstanding_reqs *);
  queued_req : list nat;
  aborting_queued_req : list nat;
  err_req_head : list nat;
  err_cmd_head : list nvme_error_cmd;
  cn : conn;
  inflight : list nat;
  done : list (Z * cpl);
  n_submits : nat;
  n_ticks : nat }.

(** The environment: the transport's answer to a submission (given the number
    of earlier ones and the requests it holds), the clock, whether the queue
    pair was created for asynchronous connection, and its size (num_entries). *)
Record tenv := Tenv {
  t_submit : nat -> list nat -> nat -> Z;
  t_ticks : nat -> Z;
  t_async : bool;
  t_entries : Z }.

(** *** Field updates *)

Definition set_reqs (f : gmap nat nvme_request -> gmap nat nvme_request) (s : qst) : qst :=
  Qst (f (reqs s)) (free_reqs s) (outstanding s) (queued_req s) (aborting_queued_req s)
    (err_req_head s) (err_cmd_head s) (cn s) (inflight s) (done s) (n_submits s) (n_ticks s).
Definition set_pool (l : list nat) (n : Z) (s : qst) : qst :=
  Qst (reqs s) l n (queued_req s) (aborting_queued_req s)
    (err_req_head s) (err_cmd_head s) (cn s) (inflight s) (done s) (n_submits s) (n_ticks s).
Definition set_queued (l : list nat) (s : qst) : qst :=
  Qst (reqs s) (free_reqs s) (outstanding s) l (aborting_queued_req s)
    (err_req_head s) (err_cmd_head s) (cn s) (inflight s) (done s) (n_submits s) (n_ticks s).
Definition set_aborting (l : list nat) (s : qst) : qst :=
  Qst (reqs s) (free_reqs s) (outstanding s) (queued_req s) l
    (err_req_head s) (err_cmd_head s) (cn s) (inflight s) (done s) (n_submits s) (n_ticks s).
Definition set_err_req (l : list nat) (s : qst) : qst :=
  Qst (reqs s) (free_reqs s) (outstanding s) (queued_req s) (aborting_queued_req s)
    l (err_cmd_head s) (cn s) (inflight s) (done s) (n_submits s) (n_ticks s).
Definition set_err_cmd (l : list nvme_error_cmd) (s : qst) : qst :=
  Qst (reqs s) (free_reqs s) (outstanding s) (queued_req s) (aborting_queued_req s)
    (err_req_head s) l (cn s) (inflight s) (done s) (n_submits s) (n_ticks s).
Definition set_conn (c : conn) (s : qst) : qst :=
  Qst (reqs s) (free_reqs s) (outstanding s) (queued_req s) (aborting_queued_req s)
    (err_req_head s) (err_cmd_head s) c (inflight s) (done s) (n_submits s) (n_ticks s).
Definition set_inflight (l : list nat) (s : qst) : qst :=
  Qst (reqs s) (free_reqs s) (outstanding s) (queued_req s) (aborting_queued_req s)
    (err_req_head s) (err_cmd_head s) (cn s) l (done s) (n_submits s) (n_ticks s).
Definition log_done (x : Z * cpl) (s : qst) : qst :=
  Qst (reqs s) (free_reqs s) (outstanding s) (queued_req s) (aborting_queued_req s)
    (err_req_head s) (err_cmd_head s) (cn s) (inflight s) (done s ++ [x]) (n_submits s) (n_ticks s).
Definition bump_submits (s : qst) : qst :=
  Qst (reqs s) (free_reqs s) (outstanding s) (queued_req s) (aborting_queued_req s)
    (err_req_head s) (err_cmd_head s) (cn s) (inflight s) (done s) (S (n_submits s)) (n_ticks s).
Definition bump_ticks (s : qst) : qst :=
  Qst (reqs s) (free_reqs s) (outstanding s) (queued_req s) (aborting_queued_req s)
    (err_req_head s) (err_cmd_head s) (cn s) (inflight s) (done s) (n_submits s) (S (n_ticks s)).

Definition with_children (l : list nat) (r : nvme_request) : nvme_request :=
  NvmeRequest (r_opc r) (r_fn r) (r_queued r) l (r_parent r) (r_cpl r) (parent_status r)
    (timeout_tsc r) (submit_tick r) (accel_sequence r).
Definition with_parent (p : option nat) (r : nvme_request) : nvme_request :=
  NvmeRequest (r_opc r) (r_fn r) (r_queued r) (r_children r) p (r_cpl r) (parent_status r)
    (timeout_tsc r) (submit_tick r) (accel_sequence r).
Definition with_queued (b : bool) (r : nvme_request) : nvme_request :=
  NvmeRequest (r_opc r) (r_fn r) b (r_children r) (r_parent r) (r_cpl r) (parent_status r)
    (timeout_tsc r) (submit_tick r) (accel_sequence r).
Definition with_cpl (sct sc : Z) (r : nvme_request) : nvme_request :=
  NvmeRequest (r_opc r) (r_fn r) (r_queued r) (r_children r) (r_parent r)
    (Cpl (cpl_cdw0 (r_cpl r)) sct sc (cpl_dnr (r_cpl r))) (parent_status r)
    (timeout_tsc r) (submit_tick r) (accel_sequence r).
Definition with_parent_status (c : cpl) (r : nvme_request) : nvme_request :=
  NvmeRequest (r_opc r) (r_fn r) (r_queued r) (r_children r) (r_parent r) (r_cpl r) c
    (timeout_tsc r) (submit_tick r) (accel_sequence r).
Definition with_ticks (tmo tick : Z) (r : nvme_request) : nvme_request :=
  NvmeRequest (r_opc r) (r_fn r) (r_queued r) (r_children r) (r_parent r) (r_cpl r)
    (parent_status r) tmo tick (accel_sequence r).
Definition with_accel (a : option Z) (r : nvme_request) : nvme_request :=
  NvmeRequest (r_opc r) (r_fn r) (r_queued r) (r_children r) (r_parent r) (r_cpl r)
    (parent_status r) (timeout_tsc r) (submit_tick r) a.

Definition load (i : nat) : M qst nvme_request :=
  s ← get; lift_opt UB_null (reqs s !! i).
Definition upd (i : nat) (f : nvme_request -> nvme_request) : M qst unit :=
  x ← load i; modify (set_reqs <[i := f x]>).

Definition nvme_qpair_get_state : M qst nvme_qpair_state := gets (fun s => state (cn s)).
Definition with_state (x : nvme_qpair_state) (c : conn) : conn :=
  Conn x (if bool_decide (x = NVME_QPAIR_ENABLED) then false else is_new_qpair c)
    (transport_failure_reason c) (abort_dnr c) (is_failed c) (is_removed c)
    (is_resetting c) (timeout_enabled c).
Definition with_failure (f : failure_reason) (c : conn) : conn :=
  Conn (state c) (is_new_qpair c) f (abort_dnr c) (is_failed c) (is_removed c)
    (is_resetting c) (timeout_enabled c).
Definition with_resetting (b : bool) (c : conn) : conn :=
  Conn (state c) (is_new_qpair c) (transport_failure_reason c) (abort_dnr c) (is_failed c)
    (is_removed c) b (timeout_enabled c).
Definition nvme_qpair_set_state (x : nvme_qpair_state) : M qst unit :=
  modify (fun s => set_conn (with_state x (cn s)) s).

Definition spdk_get_ticks (E : tenv) : M qst Z :=
  s ← get; _ ← put (bump_ticks s); mret (t_ticks E (n_ticks s)).

(** The loops over a list that the body does not change ahead of the current
    element (TAILQ_FOREACH_SAFE, or a list that was moved aside). *)
Fixpoint for_each {A} (l : list A) (f : A -> M qst unit) : M qst unit :=
  match l with
  | [] => mret tt
  | x :: l' => _ ← f x; for_each l' f
  end.

(** ** Requests and their children *)

Definition nvme_request_remove_child (parent : option nat) (child : nat) : M qst unit :=
  p ← lift_opt UB_assert parent;
  c ← load child;
  _ ← c_assert (bool_decide (r_parent c = Some p));
  x ← load p;
  _ ← c_assert (negb (bool_decide (r_children x = [])));
  _ ← upd p (with_children (List.filter (fun i => negb (Nat.eqb i child)) (r_children x)));
  upd child (with_parent None).

(** Request 0 is qpair->reserved_req. *)
Definition _nvme_free_request (i : nat) : M qst unit :=
  x ← load i;
  _ ← c_assert (bool_decide (r_children x = []));
  if (i =? 0)%nat then mret tt
  else
    s ← get;
    if bool_decide (i ∈ free_reqs s) then fail UB_freed
    else
      _ ← c_assert (0 <? outstanding s);
      put (set_pool (i :: free_reqs s) (u32 (outstanding s - 1)) s).

Fixpoint nvme_request_free_children (d : nat) (i : nat) : M qst unit :=
  x ← load i;
  match r_children x, d with
  | [], _ => mret tt
  | _, O => out_of_fuel
  | cs, S d' =>
      for_each cs (fun c =>
        _ ← nvme_request_remove_child (Some i) c;
        _ ← nvme_request_free_children d' c;
        _nvme_free_request c)
  end.

(** The body of the loops that give up the children of a request. *)
Definition drop_child (d : nat) (i c : nat) : M qst unit :=
  _ ← nvme_request_remove_child (Some i) c;
  _ ← nvme_request_free_children d c;
  _nvme_free_request c.

(** ** Completion *)

(** The first element of err_cmd_head that replaces a successful completion;
    its count is decremented. *)
Fixpoint inject (l : list nvme_error_cmd) (opc : Z) (c : cpl) : list nvme_error_cmd * cpl :=
  match l with
  | [] => ([], c)
  | e :: l' =>
      if negb (do_not_submit e) && (ec_opc e =? opc) && negb (err_count e =? 0)
      then (ErrorCmd (ec_opc e) (do_not_submit e) (ec_timeout_tsc e) (u32 (err_count e - 1))
              (ec_sct e) (ec_sc e) :: l', Cpl (cpl_cdw0 c) (ec_sct e) (ec_sc e) (cpl_dnr c))
      else let '(l2, c2) := inject l' opc c in (e :: l2, c2)
  end.

Definition nvme_cb_complete_child (complete : nat -> cpl -> M qst unit) (child : nat) (c : cpl)
  : M qst unit :=
  x ← load child;
  let parent := r_parent x in
  _ ← nvme_request_remove_child parent child;
  p ← lift_opt UB_null parent;
  _ ← (if spdk_nvme_cpl_is_error c then upd p (with_parent_status c) else mret tt);
  y ← load p;
  match r_children y with
  | [] => complete p (parent_status y)
  | _ => mret tt
  end.

Fixpoint nvme_complete_request (d : nat) (i : nat) (c : cpl) : M qst unit :=
  match d with
  | O => out_of_fuel
  | S d' =>
      x ← load i;
      _ ← match accel_sequence x with
          | None => mret tt
          | Some _ => _ ← c_assert (spdk_nvme_cpl_is_error c); upd i (with_accel None)
          end;
      s ← get;
      let '(l, c') := if spdk_nvme_cpl_is_error c then (err_cmd_head s, c)
                      else inject (err_cmd_head s) (r_opc x) c in
      _ ← put (set_err_cmd l s);
      _ ← _nvme_free_request i;
      match r_fn x with
      | CbNull => mret tt
      | CbArg arg => modify (log_done (arg, c'))
      | CbCompleteChild => nvme_cb_complete_child (nvme_complete_request d') i c'
      end
  end.

Definition nvme_completion_is_retry (c : cpl) : bool :=
  if cpl_sct c =? SPDK_NVME_SCT_GENERIC then
    if (cpl_sc c =? SPDK_NVME_SC_NAMESPACE_NOT_READY) || (cpl_sc c =? SPDK_NVME_SC_FORMAT_IN_PROGRESS)
    then cpl_dnr c =? 0 else false
  else if cpl_sct c =? SPDK_NVME_SCT_PATH then
    if cpl_sc c =? SPDK_NVME_SC_INTERNAL_PATH_ERROR then cpl_dnr c =? 0 else false
  else false.

Section Qpair.
Context (E : tenv).
(** A bound on the depth of request trees. *)
Context (D : nat).

Definition nvme_qpair_manual_complete_request (i : nat) (sct sc dnr : Z) : M qst unit :=
  nvme_complete_request D i (Cpl 0 sct sc dnr).

(** ** Aborts *)

Definition nvme_qpair_abort_queued_reqs : M qst unit :=
  tmp ← gets queued_req;
  _ ← modify (set_queued []);
  for_each tmp (fun i =>
    dnr ← gets (fun s => abort_dnr (cn s));
    nvme_qpair_manual_complete_request i SPDK_NVME_SCT_GENERIC SPDK_NVME_SC_ABORTED_SQ_DELETION dnr).

Definition _nvme_qpair_complete_abort_queued_reqs : M qst unit :=
  tmp ← gets aborting_queued_req;
  match tmp with
  | [] => mret tt
  | _ =>
      _ ← modify (set_aborting []);
      for_each tmp (fun i =>
        nvme_qpair_manual_complete_request i SPDK_NVME_SCT_GENERIC SPDK_NVME_SC_ABORTED_BY_REQUEST 1)
  end.

(** Whether cb_arg of the request, or of its parent, is [arg]. *)
Definition has_cbarg (h : gmap nat nvme_request) (arg : Z) (i : nat) : bool :=
  let hit (j : nat) := match h !! j with
                      | Some x => bool_decide (r_fn x = CbArg arg)
                      | None => false
                      end in
  hit i || match h !! i with
          | Some x => match r_parent x with Some p => hit p | None => false end
          | None => false
          end.

Definition nvme_qpair_abort_queued_reqs_with_cbarg (arg : Z) : M qst Z :=
  s ← get;
  let sel := List.filter (has_cbarg (reqs s) arg) (queued_req s) in
  let keep := List.filter (fun i => negb (has_cbarg (reqs s) arg i)) (queued_req s) in
  _ ← put (set_aborting (aborting_queued_req s ++ sel) (set_queued keep s));
  mret (u32 (Z.of_nat (length sel))).

(** The while loop pops one request at a time. *)
Definition nvme_qpair_complete_error_reqs : M qst unit :=
  l ← gets err_req_head;
  for_each l (fun i =>
    _ ← modify (fun s => set_err_req (tail (err_req_head s)) s);
    x ← load i;
    dnr ← gets (fun s => abort_dnr (cn s));
    nvme_qpair_manual_complete_request i (cpl_sct (r_cpl x)) (cpl_sc (r_cpl x)) dnr).

Definition nvme_qpair_abort_all_queued_reqs : M qst unit :=
  _ ← nvme_qpair_complete_error_reqs;
  _ ← nvme_qpair_abort_queued_reqs;
  _nvme_qpair_complete_abort_queued_reqs.

(** ** The transport *)

(** The transport gives up a request and completes it. *)
Definition transport_complete (i : nat) (c : cpl) : M qst unit :=
  _ ← modify (fun s => set_inflight (List.filter (fun j => negb (Nat.eqb j i)) (inflight s)) s);
  nvme_complete_request D i c.

(** No request has accel operations in progress. *)
Definition nvme_tcp_qpair_abort_reqs (dnr : Z) : M qst unit :=
  l ← gets inflight;
  for_each l (fun i =>
    transport_complete i (Cpl 0 SPDK_NVME_SCT_GENERIC SPDK_NVME_SC_ABORTED_SQ_DELETION dnr)).

Definition nvme_transport_ctrlr_disconnect_qpair_done : M qst unit :=
  _ ← nvme_qpair_abort_all_queued_reqs;
  nvme_qpair_set_state NVME_QPAIR_DISCONNECTED.

Definition nvme_tcp_ctrlr_disconnect_qpair : M qst unit :=
  _ ← nvme_tcp_qpair_abort_reqs 0;
  if t_async E then mret tt
  else
    l ← gets inflight;
    _ ← c_assert (bool_decide (l = []));
    nvme_transport_ctrlr_disconnect_qpair_done.

Definition nvme_transport_ctrlr_disconnect_qpair : M qst unit :=
  st ← nvme_qpair_get_state;
  if bool_decide (st = NVME_QPAIR_DISCONNECTING) || bool_decide (st = NVME_QPAIR_DISCONNECTED)
  then mret tt
  else
    _ ← nvme_qpair_set_state NVME_QPAIR_DISCONNECTING;
    nvme_tcp_ctrlr_disconnect_qpair.

Definition nvme_transport_qpair_submit_request (i : nat) : M qst Z :=
  s ← get;
  let rc := t_submit E (n_submits s) (inflight s) i in
  _ ← put (bump_submits (if rc =? 0 then set_inflight (inflight s ++ [i]) s else s));
  mret rc.

(** ** Submission *)

Section Submit.
(** _nvme_qpair_submit_request on a smaller depth. *)
Context (submit_ : nat -> M qst Z).

Definition nvme_qpair_resubmit_request (i : nat) : M qst Z :=
  x ← load i;
  _ ← c_assert (bool_decide (r_children x = []));
  _ ← c_assert (r_queued x);
  rc ← submit_ i;
  _ ← (if rc =? - EAGAIN then modify (fun s => set_queued (i :: queued_req s) s) else mret tt);
  mret rc.

(** The loop ends at the first failure; [n] bounds the requests queued. *)
Fixpoint drain_queued (n : nat) : M qst unit :=
  l ← gets queued_req;
  match l with
  | [] => mret tt
  | i :: l' =>
      match n with
      | O => out_of_fuel
      | S n' =>
          _ ← modify (set_queued l');
          rc ← nvme_qpair_resubmit_request i;
          if rc =? 0 then drain_queued n' else mret tt
      end
  end.

Definition nvme_qpair_check_enabled : M qst bool :=
  s ← get;
  _ ← (if bool_decide (state (cn s) = NVME_QPAIR_CONNECTED) && negb (is_resetting (cn s)) then
         _ ← nvme_qpair_set_state NVME_QPAIR_ENABLING;
         _ ← nvme_qpair_set_state NVME_QPAIR_ENABLED;
         drain_queued (length (queued_req s))
       else mret tt);
  s ← get;
  if negb (bool_decide (transport_failure_reason (cn s) = SPDK_NVME_QPAIR_FAILURE_NONE))
     && bool_decide (state (cn s) = NVME_QPAIR_ENABLED)
  then
    _ ← nvme_transport_ctrlr_disconnect_qpair;
    (* nvme_ctrlr_reinitialize_io_qpair asserts that it is not on fabrics *)
    s ← get;
    _ ← c_assert (negb (bool_decide
          (transport_failure_reason (cn s) = SPDK_NVME_QPAIR_FAILURE_RESET)));
    mret false
  else mret (bool_decide (state (cn s) = NVME_QPAIR_ENABLED)).

Definition queue_tail (i : nat) : M qst unit :=
  _ ← modify (fun s => set_queued (queued_req s ++ [i]) s);
  upd i (with_queued true).

Definition nvme_qpair_submit_request (i : nat) : M qst Z :=
  s ← get;
  x ← load i;
  if negb (bool_decide (queued_req s = [])) && bool_decide (r_children x = [])
     && (negb (r_opc x =? SPDK_NVME_OPC_FABRIC)
         || negb (bool_decide (state (cn s) = NVME_QPAIR_CONNECTING)))
  then _ ← queue_tail i; mret 0
  else
    rc ← submit_ i;
    if rc =? - EAGAIN then _ ← queue_tail i; mret 0 else mret rc.

(** The children in order; after the first failure the rest is given up. *)
Fixpoint submit_children (i : nat) (cs : list nat) : M qst Z :=
  match cs with
  | [] => mret 0
  | c :: cs' =>
      rc ← nvme_qpair_submit_request c;
      if rc =? 0 then submit_children i cs'
      else _ ← for_each cs' (drop_child D i); mret rc
  end.

(** The label error. *)
Definition submit_error (i : nat) (rc : Z) : M qst Z :=
  x ← load i;
  _ ← match r_parent x with
      | Some p => nvme_request_remove_child (Some p) i
      | None => mret tt
      end;
  dnr ← gets (fun s => abort_dnr (cn s));
  _ ← (if r_queued x then
         if rc =? - ENXIO
         then nvme_qpair_manual_complete_request i SPDK_NVME_SCT_GENERIC
                SPDK_NVME_SC_ABORTED_SQ_DELETION dnr
         else nvme_qpair_manual_complete_request i SPDK_NVME_SCT_GENERIC
                SPDK_NVME_SC_INTERNAL_DEVICE_ERROR 1
       else _nvme_free_request i);
  mret rc.

(** The first element of err_cmd_head that withholds a request from the
    transport, with its count decremented. *)
Fixpoint withhold (l : list nvme_error_cmd) (opc : Z)
  : option (nvme_error_cmd * list nvme_error_cmd) :=
  match l with
  | [] => None
  | e :: l' =>
      if do_not_submit e && (ec_opc e =? opc) && negb (err_count e =? 0)
      then Some (e, ErrorCmd (ec_opc e) (do_not_submit e) (ec_timeout_tsc e)
                      (u32 (err_count e - 1)) (ec_sct e) (ec_sc e) :: l')
      else '(x, l2) ← withhold l' opc; Some (x, e :: l2)
  end.

(** submit_tick, for requests without children. *)
Definition assign_tick (i : nat) : M qst unit :=
  x ← load i;
  tmo ← gets (fun s => timeout_enabled (cn s));
  if (tmo : bool) then
    if submit_tick x =? 0 then
      now ← spdk_get_ticks E; upd i (with_ticks (timeout_tsc x) now)
    else mret tt
  else upd i (with_ticks (timeout_tsc x) 0).

(** A request without children. *)
Definition submit_leaf (i : nat) : M qst Z :=
  x ← load i;
  s ← get;
  match withhold (err_cmd_head s) (r_opc x) with
  | Some (e, l) =>
      now ← spdk_get_ticks E;
      _ ← upd i (fun x => with_cpl (ec_sct e) (ec_sc e) (with_ticks (ec_timeout_tsc e) now x));
      _ ← modify (fun s => set_err_cmd l (set_err_req (err_req_head s ++ [i]) s));
      mret 0
  | None =>
      if is_failed (cn s) then submit_error i (- ENXIO)
      else
        _ ← assign_tick i;
        st ← nvme_qpair_get_state;
        if bool_decide (st = NVME_QPAIR_ENABLED)
           || (r_opc x =? SPDK_NVME_OPC_FABRIC) && bool_decide (st = NVME_QPAIR_CONNECTING)
        then
          rc ← nvme_transport_qpair_submit_request i;
          if rc =? 0 then _ ← upd i (with_queued false); mret 0
          else if rc =? - EAGAIN then mret (- EAGAIN)
          else submit_error i rc
        else mret (- EAGAIN)
  end.

Definition submit_body (i : nat) : M qst Z :=
  _ ← nvme_qpair_check_enabled;
  st ← nvme_qpair_get_state;
  x ← load i;
  if bool_decide (st = NVME_QPAIR_DISCONNECTED) || bool_decide (st = NVME_QPAIR_DISCONNECTING)
     || bool_decide (st = NVME_QPAIR_DESTROYING)
  then
    _ ← for_each (r_children x) (drop_child D i);
    submit_error i (- ENXIO)
  else
    match r_children x with
    | [] => submit_leaf i
    | cs =>
        rc ← submit_children i cs;
        if rc =? 0 then mret 0
        else
          x ← load i;
          match r_children x with
          | [] => submit_error i rc
          | _ =>
              _ ← upd i (with_cpl SPDK_NVME_SCT_GENERIC SPDK_NVME_SC_INTERNAL_DEVICE_ERROR);
              mret 0
          end
    end.
End Submit.

Fixpoint _nvme_qpair_submit_request (d : nat) (i : nat) : M qst Z :=
  match d with
  | O => out_of_fuel
  | S d' => submit_body (_nvme_qpair_submit_request d') i
  end.

(** ** Polling *)

(** The elements of err_req_head whose time is over. *)
Definition complete_timed (l : list nat) : M qst unit :=
  for_each l (fun i =>
    now ← spdk_get_ticks E;
    x ← load i;
    if timeout_tsc x <? u64 (now - submit_tick x) then
      _ ← modify (fun s => set_err_req
            (List.filter (fun j => negb (Nat.eqb j i)) (err_req_head s)) s);
      dnr ← gets (fun s => abort_dnr (cn s));
      nvme_qpair_manual_complete_request i (cpl_sct (r_cpl x)) (cpl_sc (r_cpl x)) dnr
    else mret tt).

Fixpoint resubmit_loop (d n : nat) : M qst unit :=
  match n with
  | O => mret tt
  | S n' =>
      s ← get;
      if is_resetting (cn s) then mret tt
      else match queued_req s with
           | [] => mret tt
           | i :: l =>
               _ ← modify (set_queued l);
               rc ← nvme_qpair_resubmit_request (_nvme_qpair_submit_request d) i;
               if rc =? 0 then resubmit_loop d n' else mret tt
           end
  end.

Definition nvme_qpair_resubmit_requests (d : nat) (num_requests : Z) : M qst unit :=
  _ ← c_assert (0 <? num_requests);
  _ ← resubmit_loop d (Z.to_nat num_requests);
  _nvme_qpair_complete_abort_queued_reqs.

(** A poll of the transport: whether the socket could be flushed; the
    positions, among the requests it holds at that moment, of those it completes,
    with their completions; their number; whether reading failed; and the answer
    of nvme_tcp_ctrlr_connect_qpair_poll. *)
Record poll := Poll {
  p_flushed : bool;
  p_cpls : list (nat * cpl);
  p_ret : Z;
  p_read : bool;
  p_connect : Z }.

(** The label fail. *)
Definition nvme_tcp_qpair_fail : M qst Z :=
  _ ← modify (fun s => set_conn (with_failure SPDK_NVME_QPAIR_FAILURE_OTHER (cn s)) s);
  _ ← nvme_transport_ctrlr_disconnect_qpair;
  mret (- ENXIO).

Definition nvme_tcp_qpair_process_completions (d : nat) (p : poll) : M qst Z :=
  st ← nvme_qpair_get_state;
  if negb (p_flushed p) then
    if bool_decide (st = NVME_QPAIR_DISCONNECTING) then
      l ← gets inflight;
      _ ← match l with [] => nvme_transport_ctrlr_disconnect_qpair_done | _ => mret tt end;
      mret 0
    else nvme_tcp_qpair_fail
  else
    _ ← for_each (p_cpls p) (fun x =>
          l ← gets inflight;
          match l !! x.1 with
          | Some i => transport_complete i x.2
          | None => mret tt
          end);
    if negb (p_read p) then nvme_tcp_qpair_fail
    else
      st ← nvme_qpair_get_state;
      if bool_decide (st = NVME_QPAIR_CONNECTING) then
        if p_connect p =? 0 then
          _ ← nvme_qpair_set_state NVME_QPAIR_CONNECTED;
          _ ← nvme_qpair_resubmit_requests d (t_entries E);
          mret (p_ret p)
        else if p_connect p =? - EAGAIN then mret (p_ret p)
        else nvme_tcp_qpair_fail
      else mret (p_ret p).

Definition spdk_nvme_qpair_process_completions (d : nat) (p : poll) : M qst Z :=
  s ← get;
  if is_failed (cn s) && negb (bool_decide (state (cn s) = NVME_QPAIR_DISCONNECTING)) then
    _ ← (if is_removed (cn s) then
           _ ← nvme_qpair_set_state NVME_QPAIR_DESTROYING;
           _ ← nvme_qpair_abort_all_queued_reqs;
           nvme_tcp_qpair_abort_reqs (abort_dnr (cn s))
         else mret tt);
    mret (- ENXIO)
  else
    en ← nvme_qpair_check_enabled (_nvme_qpair_submit_request d);
    st ← nvme_qpair_get_state;
    if negb en && negb (bool_decide (st = NVME_QPAIR_CONNECTING)
                        || bool_decide (st = NVME_QPAIR_DISCONNECTING))
    then mret (- ENXIO)
    else
      l ← gets err_req_head;
      _ ← complete_timed l;
      ret ← nvme_tcp_qpair_process_completions d p;
      st ← nvme_qpair_get_state;
      let ret := if (ret =? - ENXIO) && bool_decide (st = NVME_QPAIR_DISCONNECTING)
                 then 0 else ret in
      _ ← (if 0 <? ret then nvme_qpair_resubmit_requests d ret
           else _nvme_qpair_complete_abort_queued_reqs);
      mret ret.

(** ** Connection *)

Definition nvme_transport_connect_qpair_fail (last : failure_reason) : M qst unit :=
  _ ← modify (fun s => set_conn (with_failure last (cn s)) s);
  nvme_transport_ctrlr_disconnect_qpair.

(** The busy wait of a synchronous connection; [polls] are the answers of the
    transport while it lasts. *)
Fixpoint connect_wait (d : nat) (polls : list poll) : M qst Z :=
  st ← nvme_qpair_get_state;
  if negb (bool_decide (st = NVME_QPAIR_CONNECTING)) then mret 0
  else match polls with
  | [] => out_of_fuel
  | p :: ps =>
      rc ← spdk_nvme_qpair_process_completions d p;
      if rc <? 0 then mret rc else connect_wait d ps
  end.

(** [rc0]: the result of the transport's ctrlr_connect_qpair. *)
Definition nvme_transport_ctrlr_connect_qpair (d : nat) (rc0 : Z) (polls : list poll) : M qst Z :=
  last ← gets (fun s => transport_failure_reason (cn s));
  _ ← modify (fun s => set_conn (with_failure SPDK_NVME_QPAIR_FAILURE_NONE (cn s)) s);
  _ ← nvme_qpair_set_state NVME_QPAIR_CONNECTING;
  rc ← (if rc0 =? 0 then if t_async E then mret 0 else connect_wait d polls else mret rc0);
  if rc =? 0 then mret 0
  else
    _ ← nvme_transport_connect_qpair_fail last;
    st ← nvme_qpair_get_state;
    if bool_decide (st = NVME_QPAIR_DISCONNECTING)
    then _ ← c_assert (t_async E); mret 0
    else mret rc.

Definition spdk_nvme_ctrlr_reconnect_io_qpair (d : nat) (rc0 : Z) (polls : list poll) : M qst Z :=
  s ← get;
  if is_removed (cn s) then mret (- ENODEV)
  else if is_resetting (cn s) || bool_decide (state (cn s) = NVME_QPAIR_DISCONNECTING)
  then mret (- EAGAIN)
  else if is_failed (cn s) || bool_decide (state (cn s) = NVME_QPAIR_DESTROYING)
  then mret (- ENXIO)
  else if negb (bool_decide (state (cn s) = NVME_QPAIR_DISCONNECTED)) then mret 0
  else
    rc ← nvme_transport_ctrlr_connect_qpair d rc0 polls;
    mret (if rc =? 0 then 0 else - EAGAIN).

(** ** Creation and error injection *)

(** A request object as nvme_qpair_init leaves it. *)
Definition request0 : nvme_request :=
  NvmeRequest 0 CbNull false [] None (Cpl 0 0 0 0) (Cpl 0 0 0 0) 0 0 None.

Definition nvme_qpair_init (num_requests : nat) (c : conn) : qst :=
  Qst (list_to_map (map (fun i => (i, request0)) (seq 0 (S num_requests))))
    (rev (seq 1 num_requests)) 0 [] [] [] [] c [] [] 0 0.

Definition nvme_qpair_deinit : M qst unit :=
  _ ← nvme_qpair_abort_queued_reqs;
  _ ← _nvme_qpair_complete_abort_queued_reqs;
  _ ← nvme_qpair_complete_error_reqs;
  modify (set_err_cmd []).

(** [mem]: whether a new element could be allocated; [hz]: spdk_get_ticks_hz. *)
Definition spdk_nvme_qpair_add_cmd_error_injection (mem : bool) (hz opc : Z) (do_not_submit : bool)
    (timeout_in_us err_count sct sc : Z) : M qst Z :=
  let e := ErrorCmd opc do_not_submit (u64 (timeout_in_us * hz) / 1000000) err_count sct sc in
  l ← gets err_cmd_head;
  match list_find (fun x => ec_opc x = opc) l with
  | Some (k, _) => _ ← modify (set_err_cmd (<[k := e]> l)); mret 0
  | None =>
      if mem then _ ← modify (set_err_cmd (l ++ [e])); mret 0 else mret (- ENOMEM)
  end.

Definition spdk_nvme_qpair_remove_cmd_error_injection (opc : Z) : M qst unit :=
  l ← gets err_cmd_head;
  match list_find (fun x => ec_opc x = opc) l with
  | Some (k, _) => modify (set_err_cmd (delete k l))
  | None => mret tt
  end.

(** ** Issuing a command *)

(** The heap after nvme_allocate_request and nvme_request_add_child have built
    the tree [r] of [NsCmd] for a command with callback argument [arg]. *)
Fixpoint build (fn : req_cb) (parent : option nat) (r : request)
    (h : gmap nat nvme_request) : gmap nat nvme_request :=
  let 'Request i f cs := r in
  let h1 := (fix go (cs : list request) (h : gmap nat nvme_request) : gmap nat nvme_request :=
               match cs with
               | [] => h
               | c :: cs' => go cs' (build CbCompleteChild (Some i) c h)
               end) cs h in
  let old := default request0 (h !! i) in
  <[i := NvmeRequest (cmd_opc (r_cmd f)) fn false (map req_id cs)
           (match parent, cs with
            | Some p, _ => Some p
            | None, [] => r_parent old
            | None, _ => None
            end)
           (r_cpl old)
           (match cs with [] => parent_status old | _ => Cpl 0 0 0 0 end)
           (timeout_tsc old) 0 (r_accel f)]> h1.

(** The pool, as the command functions of [NsCmd] see it. *)
Definition pool (s : qst) : qpair := Qpair (free_reqs s) (outstanding s).

Definition install (arg : Z) (r : request) (q : qpair) (s : qst) : qst :=
  set_pool (free_req q) (num_outstanding_reqs q) (set_reqs (build (CbArg arg) None r) s).

(** nvme_ctrlr_fail_io_qpairs, for this queue pair. *)
Definition nvme_ctrlr_fail_io_qpairs : M qst unit :=
  modify (fun s => set_conn (with_failure SPDK_NVME_QPAIR_FAILURE_OTHER (cn s)) s).

(** A command function that has built [r], leaving the pool [q]. *)
Definition issue (d : nat) (arg : Z) (r : request) (q : qpair) : M qst Z :=
  _ ← modify (install arg r q);
  nvme_qpair_submit_request (_nvme_qpair_submit_request d) (req_id r).
End Qpair.
