(* ===== verification/NvmeQpairLemmas.v ===== *)
(** * Request trees on the heap and their completion

    The abstract view of the requests of a queue pair: a forest of trees, one
    per command of the user, with the status each inner request has collected.
    Completing a leaf acts on the forest ([fcomplete]); the lemmas show that
    nvme_complete_request, which climbs the parent pointers, does the same to
    the heap. *)

From S2P Require Import Prelude NsCmd NsCmdLemmas NvmeQpair.

(** ** Trees *)

Inductive rt := Rt (i : nat) (st : cpl) (cs : list rt).

Definition root (t : rt) : nat := let 'Rt i _ _ := t in i.

Lemma rt_ind' (P : rt -> Prop) :
  (forall i st cs, Forall P cs -> P (Rt i st cs)) -> forall t, P t.
Proof.
  intros HP. fix IH 1. intros [i st cs]. apply HP.
  induction cs as [|c cs IHcs]; constructor; [apply IH|apply IHcs].
Qed.

Fixpoint tids (t : rt) : list nat := let 'Rt i _ cs := t in i :: concat (map tids cs).

Fixpoint tleaves (t : rt) : list nat :=
  let 'Rt i _ cs := t in match cs with [] => [i] | _ => concat (map tleaves cs) end.

Fixpoint depth (t : rt) : nat := let 'Rt _ _ cs := t in S (list_max (map depth cs)).

(** The first tree of a list on which [f] succeeds: the new list and, when the
    tree is done, its completion. *)
Definition first_tree (f : rt -> option (rt + cpl)) : list rt -> option (list rt * option cpl) :=
  fix go (cs : list rt) :=
    match cs with
    | [] => None
    | t :: ts =>
        match f t with
        | Some (inl t') => Some (t' :: ts, None)
        | Some (inr c') => Some (ts, Some c')
        | None => match go ts with
                  | Some (ts', e) => Some (t :: ts', e)
                  | None => None
                  end
        end
    end.

(** Completion of the leaf [l] with [c]: the rest of the tree, or the
    completion of the tree. *)
Fixpoint tcomplete (l : nat) (c : cpl) (t : rt) : option (rt + cpl) :=
  let 'Rt i st cs := t in
  match cs with
  | [] => if (l =? i)%nat then Some (inr c) else None
  | _ =>
      match first_tree (tcomplete l c) cs with
      | None => None
      | Some (cs', None) => Some (inl (Rt i st cs'))
      | Some (cs', Some c') =>
          let st' := if spdk_nvme_cpl_is_error c' then c' else st in
          match cs' with
          | [] => Some (inr st')
          | _ => Some (inl (Rt i st' cs'))
          end
      end
  end.

(** The tree found splits the list. *)
Lemma first_tree_split f cs cs' e :
  first_tree f cs = Some (cs', e) ->
  exists l1 t l2, cs = l1 ++ t :: l2 /\ Forall (fun u => f u = None) l1
    /\ match e with
       | None => exists t', f t = Some (inl t') /\ cs' = l1 ++ t' :: l2
       | Some c => f t = Some (inr c) /\ cs' = l1 ++ l2
       end.
Proof.
  revert cs'. induction cs as [|u us IH]; intros cs'; cbn; [done|].
  destruct (f u) as [[t'|c]|] eqn:Ef.
  - intros [= <- <-]. exists [], u, us. eauto.
  - intros [= <- <-]. by exists [], u, us.
  - destruct (first_tree f us) as [[us' e']|]; [|done]. intros [= <- ->].
    destruct (IH _ eq_refl) as (l1 & t & l2 & -> & Hl & He). exists (u :: l1), t, l2.
    split; [done|]. split; [by constructor|]. destruct e as [c|].
    + destruct He as [H1 ->]. done.
    + destruct He as (t' & H1 & ->). by exists t'.
Qed.

Lemma first_tree_none f cs : first_tree f cs = None <-> Forall (fun u => f u = None) cs.
Proof.
  induction cs as [|u us IH]; cbn; [by split|]. rewrite Forall_cons, <- IH.
  destruct (f u) as [[?|?]|]; [naive_solver..|].
  destruct (first_tree f us) as [[? ?]|]; naive_solver.
Qed.

Lemma tids_eq i st cs : tids (Rt i st cs) = i :: concat (map tids cs).
Proof. done. Qed.

Lemma root_tids t : root t ∈ tids t.
Proof. destruct t. cbn. left. Qed.

Lemma tleaves_tids t l : l ∈ tleaves t -> l ∈ tids t.
Proof.
  induction t as [i st cs IH] using rt_ind'. rewrite Forall_forall in IH. cbn.
  destruct cs as [|c cs]; [set_solver|]. intros Hl. right.
  apply elem_of_concat_map in Hl as (t & Ht & Hl). apply elem_of_concat_map. eauto.
Qed.

(** Exactly the leaves can be completed. *)
Lemma tcomplete_leaf l c t : l ∈ tleaves t <-> tcomplete l c t <> None.
Proof.
  induction t as [i st cs IH] using rt_ind'. cbn [tleaves tcomplete].
  destruct cs as [|u us].
  { rewrite list_elem_of_singleton. destruct (Nat.eqb_spec l i); naive_solver. }
  rewrite elem_of_concat_map. transitivity (first_tree (tcomplete l c) (u :: us) <> None).
  - rewrite first_tree_none. rewrite Forall_forall in *. split.
    + intros (t & Ht & Hl) Hn. apply (IH t Ht) in Hl. by apply Hl, Hn.
    + intros Hn. destruct (decide (Exists (fun t => l ∈ tleaves t) (u :: us))) as [He|He].
      * apply Exists_exists in He as (t & Ht & Hl). eauto.
      * destruct Hn. intros t Ht. destruct (tcomplete l c t) eqn:E; [|done].
        destruct He. apply Exists_exists. exists t. split; [done|]. apply IH; [done|]. by rewrite E.
  - destruct (first_tree _ _) as [[cs' [c'|]]|]; [|naive_solver..].
    destruct cs'; naive_solver.
Qed.

(** What is left after a completion. *)
Definition rest_leaves (r : rt + cpl) : list nat :=
  match r with inl t => tleaves t | inr _ => [] end.
Definition rest_ids (r : rt + cpl) : list nat :=
  match r with inl t => tids t | inr _ => [] end.

Lemma tcomplete_leaves l c t r : tcomplete l c t = Some r -> tleaves t ≡ₚ l :: rest_leaves r.
Proof.
  revert r. induction t as [i st cs IH] using rt_ind'. intros r. cbn [tcomplete].
  destruct cs as [|u us].
  { destruct (Nat.eqb_spec l i) as [->|]; [|done]. by intros [= <-]. }
  destruct (first_tree _ _) as [[cs' e]|] eqn:Ef; [|done].
  apply first_tree_split in Ef as (l1 & t & l2 & Hcs & _ & He).
  rewrite Hcs in IH |- *. rewrite Forall_app, Forall_cons in IH. destruct IH as (_ & IH & _).
  assert (Hn : tleaves (Rt i st (l1 ++ t :: l2)) = concat (map tleaves (l1 ++ t :: l2)))
    by (cbn; by destruct l1).
  rewrite Hn, concat_mid. destruct e as [c'|].
  - destruct He as [Ht ->]. rewrite (IH _ Ht). cbn [rest_leaves]. intros Hr.
    destruct (l1 ++ l2) as [|v vs]; by injection Hr as <-.
  - destruct He as (t' & Ht & ->). rewrite (IH _ Ht). intros [= <-]. cbn [rest_leaves].
    assert (tleaves (Rt i st (l1 ++ t' :: l2)) = concat (map tleaves (l1 ++ t' :: l2))) as ->
      by (cbn; by destruct l1). rewrite concat_mid. solve_Permutation.
Qed.

(** ** Trees on the heap *)

Record node := Nd {
  n_id : nat;
  n_parent : option nat;
  n_fn : req_cb;
  n_children : list nat;
  n_status : cpl }.

Fixpoint flat (par : option nat) (fn : req_cb) (t : rt) : list node :=
  let 'Rt i st cs := t in
  Nd i par fn (map root cs) st :: concat (map (flat (Some i) CbCompleteChild) cs).

Record has (h : gmap nat nvme_request) (n : node) (x : nvme_request) : Prop := {
  has_at : h !! n_id n = Some x;
  has_parent : r_parent x = n_parent n;
  has_fn : r_fn x = n_fn n;
  has_children : r_children x = n_children n;
  has_status : n_children n <> [] -> parent_status x = n_status n;
  has_accel : accel_sequence x = None;
  has_opc : r_opc x <> SPDK_NVME_OPC_FABRIC }.

Definition holds_node (h : gmap nat nvme_request) (n : node) : Prop := exists x, has h n x.

Definition holds (h : gmap nat nvme_request) : list node -> Prop := Forall (holds_node h).

Lemma flat_ids par fn t : map n_id (flat par fn t) = tids t.
Proof.
  revert par fn. induction t as [i st cs IH] using rt_ind'. intros par fn. cbn. f_equal.
  rewrite Forall_forall in IH. induction cs as [|c cs IHcs]; [done|]. cbn.
  rewrite map_app, IH by left. f_equal. apply IHcs. intros t Ht. apply IH. by right.
Qed.

(** Changes outside the nodes do not matter. *)
Lemma holds_agree h h' l :
  (forall i, i ∈ map n_id l -> h' !! i = h !! i) -> holds h l -> holds h' l.
Proof.
  unfold holds. rewrite !Forall_forall. intros Ha Hl n Hn. destruct (Hl n Hn) as [x Hx]. exists x.
  destruct Hx. constructor; try done. rewrite Ha; [done|]. by apply list_elem_of_fmap_2.
Qed.

Lemma holds_app h l k : holds h (l ++ k) <-> holds h l /\ holds h k.
Proof. apply Forall_app. Qed.

(** ** Evaluation of the primitives *)

Lemma load_ok i s x : reqs s !! i = Some x -> load i s = Ok (x, s).
Proof. intros H. unfold load. mstep. by rewrite H. Qed.

Lemma upd_ok i f s x :
  reqs s !! i = Some x -> upd i f s = Ok (tt, set_reqs <[i := f x]> s).
Proof. intros H. unfold upd. erewrite M_bind_ok by by apply load_ok. done. Qed.

Lemma remove_child_ok p i s x y :
  reqs s !! i = Some y -> r_parent y = Some p -> reqs s !! p = Some x -> i ∈ r_children x ->
  p <> i ->
  nvme_request_remove_child (Some p) i s
  = Ok (tt, set_reqs (fun h => <[i := with_parent None y]>
        (<[p := with_children (List.filter (fun j => negb (Nat.eqb j i)) (r_children x)) x]> h)) s).
Proof.
  intros Hi Hp Hx Hin Hne. unfold nvme_request_remove_child. cbn [lift_opt]. mstep.
  erewrite M_bind_ok by by apply load_ok. rewrite Hp, bool_decide_true by done.
  mstep. erewrite M_bind_ok by by apply load_ok.
  rewrite bool_decide_false by (destruct (r_children x); [set_solver|done]). mstep.
  erewrite M_bind_ok by by apply upd_ok. erewrite upd_ok; [done|].
  cbn. by rewrite lookup_insert_ne.
Qed.

Lemma free_ok i s x :
  reqs s !! i = Some x -> r_children x = [] -> i <> O -> i ∉ free_reqs s ->
  0 < outstanding s < 2 ^ 32 ->
  _nvme_free_request i s = Ok (tt, set_pool (i :: free_reqs s) (outstanding s - 1) s).
Proof.
  intros Hi Hc H0 Hf Ho. unfold _nvme_free_request. erewrite M_bind_ok by by apply load_ok.
  rewrite bool_decide_true by done. mstep. destruct (Nat.eqb_spec i 0); [done|].
  mstep. rewrite bool_decide_false by done. rewrite (proj2 (Z.ltb_lt _ _)) by lia. mstep.
  by rewrite wrap_small by lia.
Qed.

(** What nvme_complete_request does after it has returned the request. *)
Definition after (d : nat) (fn : req_cb) (i : nat) (c : cpl) : M qst unit :=
  match fn with
  | CbNull => mret tt
  | CbArg a => modify (log_done (a, c))
  | CbCompleteChild => nvme_cb_complete_child (nvme_complete_request d) i c
  end.

Lemma complete_head d i c s x :
  reqs s !! i = Some x -> accel_sequence x = None -> err_cmd_head s = [] ->
  r_children x = [] -> i <> O -> i ∉ free_reqs s -> 0 < outstanding s < 2 ^ 32 ->
  nvme_complete_request (S d) i c s
  = after d (r_fn x) i c (set_pool (i :: free_reqs s) (outstanding s - 1) s).
Proof.
  intros Hi Ha He Hc H0 Hf Ho. cbn [nvme_complete_request]. erewrite M_bind_ok by by apply load_ok.
  rewrite Ha. mstep. mstep.
  assert (Hs : forall l c', (if spdk_nvme_cpl_is_error c then (err_cmd_head s, c)
     else inject (err_cmd_head s) (r_opc x) c) = (l, c') -> l = [] /\ c' = c).
  { rewrite He. destruct (spdk_nvme_cpl_is_error c); cbn; naive_solver. }
  destruct (if spdk_nvme_cpl_is_error c then _ else _) as [l c'].
  destruct (Hs _ _ eq_refl) as [-> ->]. mstep.
  assert (set_err_cmd [] s = s) as -> by (destruct s; cbn in *; by subst).
  erewrite M_bind_ok by by eapply free_ok. done.
Qed.

Lemma child_done d p i c s x y :
  reqs s !! i = Some y -> r_parent y = Some p -> reqs s !! p = Some x -> i ∈ r_children x ->
  p <> i ->
  let cs := List.filter (fun j => negb (Nat.eqb j i)) (r_children x) in
  let st := if spdk_nvme_cpl_is_error c then c else parent_status x in
  exists h, h !! i = Some (with_parent None y)
    /\ h !! p = Some (with_parent_status st (with_children cs x))
    /\ (forall j, j <> i -> j <> p -> h !! j = reqs s !! j)
    /\ after d CbCompleteChild i c s
       = match cs with
         | [] => nvme_complete_request d p st (set_reqs (fun _ => h) s)
         | _ => Ok (tt, set_reqs (fun _ => h) s)
         end.
Proof.
  intros Hi Hp Hx Hin Hne cs st. unfold after, nvme_cb_complete_child.
  erewrite M_bind_ok by by apply load_ok. rewrite Hp.
  erewrite M_bind_ok by by apply remove_child_ok. fold cs. cbn [lift_opt]. mstep.
  set (s1 := set_reqs _ s).
  assert (H1 : reqs s1 !! p = Some (with_children cs x)).
  { cbn. rewrite lookup_insert_ne, lookup_insert_eq by done. done. }
  assert (He : exists h, (if spdk_nvme_cpl_is_error c then upd p (with_parent_status c) else mret tt) s1
      = Ok (tt, set_reqs (fun _ => h) s) /\ h !! i = Some (with_parent None y)
      /\ h !! p = Some (with_parent_status st (with_children cs x))
      /\ (forall j, j <> i -> j <> p -> h !! j = reqs s !! j)).
  { unfold st. destruct (spdk_nvme_cpl_is_error c).
    - erewrite upd_ok by exact H1. eexists. split; [reflexivity|]. cbn.
      rewrite lookup_insert_ne, lookup_insert_eq, lookup_insert_eq by done.
      split; [done|]. split; [done|]. intros j ??. by rewrite !lookup_insert_ne.
    - eexists. split; [reflexivity|]. cbn. rewrite lookup_insert_eq, lookup_insert_ne, lookup_insert_eq by done.
      split; [done|]. split; [by destruct x|]. intros j ??. by rewrite !lookup_insert_ne. }
  destruct He as (h & Hr & Hhi & Hhp & Hhj). exists h. split; [done|]. split; [done|]. split; [done|].
  erewrite M_bind_ok by exact Hr. erewrite M_bind_ok by (apply load_ok; exact Hhp).
  cbn [r_children with_parent_status with_children parent_status]. destruct cs; done.
Qed.

(** ** Completion of a leaf of a tree *)

(** The step from [s] to [s'] changes only the requests [owned] and returns the
    requests [freed] to the pool. *)
Record frees (owned freed : list nat) (s s' : qst) : Prop := {
  fr_heap : forall j, j ∉ owned -> reqs s' !! j = reqs s !! j;
  fr_queued : forall j, r_queued <$> reqs s' !! j = r_queued <$> reqs s !! j;
  fr_free : free_reqs s' ≡ₚ freed ++ free_reqs s;
  fr_out : outstanding s' = outstanding s - Z.of_nat (length freed);
  fr_rest : s' = set_reqs (fun _ => reqs s') (set_pool (free_reqs s') (outstanding s') s) }.

Lemma frees_weaken o1 o2 f s s' : (forall i, i ∈ o1 -> i ∈ o2) -> frees o1 f s s' -> frees o2 f s s'.
Proof. intros Ho [A B C D H]. constructor; [|done..]. intros j Hj. apply A. naive_solver. Qed.

Lemma frees_trans o f1 f2 s1 s2 s3 :
  frees o f1 s1 s2 -> frees o f2 s2 s3 -> frees o (f2 ++ f1) s1 s3.
Proof.
  intros [A Q B C D] [A' Q' B' C' D']. constructor.
  - intros j Hj. by rewrite A', A.
  - intros j. by rewrite Q', Q.
  - by rewrite B', B, (assoc (++)).
  - rewrite C', C, length_app. lia.
  - rewrite D' at 1. rewrite D. done.
Qed.

Lemma frees_pool i s :
  frees [i] [i] s (set_pool (i :: free_reqs s) (outstanding s - 1) s).
Proof. constructor; try done. Qed.

Lemma frees_reqs o h s :
  (forall j, j ∉ o -> h !! j = reqs s !! j) ->
  (forall j, r_queued <$> h !! j = r_queued <$> reqs s !! j) ->
  frees o [] s (set_reqs (fun _ => h) s).
Proof. intros Hh Hq. constructor; try done. cbn. lia. Qed.

Lemma filter_other (l : list nat) i :
  i ∉ l -> List.filter (fun j => negb (Nat.eqb j i)) l = l.
Proof.
  induction l as [|j l IH]; [done|]. rewrite not_elem_of_cons. intros [Hj Hl]. cbn.
  destruct (Nat.eqb_spec j i); [congruence|]. cbn. by rewrite IH.
Qed.

Lemma filter_roots l1 t l2 :
  NoDup (map root (l1 ++ t :: l2)) ->
  List.filter (fun j => negb (Nat.eqb j (root t))) (map root (l1 ++ t :: l2)) = map root (l1 ++ l2).
Proof.
  rewrite !map_app, List.filter_app. cbn [map List.filter]. rewrite Nat.eqb_refl. cbn [negb].
  rewrite NoDup_app. intros (_ & H1 & [H2 _]%NoDup_cons).
  rewrite !filter_other; [done|done|]. intros Hin. apply (H1 _ Hin). left.
Qed.

Lemma NoDup_roots cs : NoDup (concat (map tids cs)) -> NoDup (map root cs).
Proof.
  induction cs as [|c cs IH]; [constructor|]. cbn. rewrite NoDup_app. intros (_ & Hd & Hn).
  constructor; [|by apply IH]. intros Hin. apply (Hd _ (root_tids c)).
  apply list_elem_of_fmap in Hin as (t & -> & Ht). apply elem_of_concat_map. exists t.
  split; [done|]. apply root_tids.
Qed.

Lemma depth_child t cs : t ∈ cs -> (depth t <= list_max (map depth cs))%nat.
Proof.
  intros Ht. pose proof (proj1 (list_max_le (map depth cs) _) (le_n _)) as Hm.
  rewrite List.Forall_forall in Hm. apply Hm, in_map. by apply list_elem_of_In.
Qed.

(** The result of nvme_complete_request on a leaf: the rest of the tree is on the
    heap, or the call continues with the callback of the root. *)
Definition completes (d : nat) (par : option nat) (fn : req_cb) (t : rt) (l : nat) (c : cpl)
    (res : rt + cpl) (s : qst) : Prop :=
  exists s' freed, frees (tids t) freed s s' /\ tids t ≡ₚ freed ++ rest_ids res
    /\ (forall j, j ∈ freed -> j <> root t ->
          exists x, reqs s' !! j = Some x /\ r_parent x = None)
    /\ match res with
       | inl t' => root t' = root t /\ holds (reqs s') (flat par fn t')
           /\ nvme_complete_request d l c s = Ok (tt, s')
       | inr c' => exists d1, (d <= d1 + depth t)%nat
           /\ nvme_complete_request d l c s = after d1 fn (root t) c' s'
           /\ exists x, reqs s' !! root t = Some x /\ r_parent x = par
       end.

(** [s] can complete the tree. *)
Record ready (t : rt) (s : qst) : Prop := {
  rdy_dup : NoDup (tids t);
  rdy_err : err_cmd_head s = [];
  rdy_free : forall i, i ∈ tids t -> i <> O /\ i ∉ free_reqs s;
  rdy_out : Z.of_nat (length (tids t)) <= outstanding s < 2 ^ 32 }.

Lemma complete_leaf d par fn i st c s :
  holds (reqs s) (flat par fn (Rt i st [])) -> ready (Rt i st []) s -> (1 <= d)%nat ->
  completes d par fn (Rt i st []) i c (inr c) s.
Proof.
  intros Hh [_ He Hf Ho] Hd. destruct d as [|d]; [lia|].
  apply Forall_singleton in Hh as [x [H1 H2 H3 H4 _ H6 _]]. cbn in *.
  destruct (Hf i) as [Hi0 Hif]; [set_solver|].
  eexists _, [i]. split; [apply frees_pool|]. split; [done|].
  split; [intros j ->%list_elem_of_singleton Hj; done|].
  exists d. split; [cbn; lia|]. split; [|by exists x].
  rewrite (complete_head d i c s x) by (done || lia). by rewrite H3.
Qed.

Lemma flat_eq par fn i st cs :
  flat par fn (Rt i st cs)
  = Nd i par fn (map root cs) st :: concat (map (flat (Some i) CbCompleteChild) cs).
Proof. done. Qed.

Lemma holds_mid h i l1 t l2 :
  holds h (concat (map (flat (Some i) CbCompleteChild) (l1 ++ t :: l2)))
  <-> holds h (flat (Some i) CbCompleteChild t)
      /\ holds h (concat (map (flat (Some i) CbCompleteChild) (l1 ++ l2))).
Proof. rewrite <- holds_app. unfold holds. by rewrite concat_mid. Qed.

Lemma flat_list_ids i cs :
  map n_id (concat (map (flat (Some i) CbCompleteChild) cs)) = concat (map tids cs).
Proof.
  induction cs as [|c cs IH]; [done|]. cbn. by rewrite map_app, flat_ids, IH.
Qed.

(** The requests of a tree, around one subtree. *)
Lemma tids_mid i st l1 t l2 :
  tids (Rt i st (l1 ++ t :: l2)) ≡ₚ tids t ++ i :: concat (map tids (l1 ++ l2)).
Proof. cbn. rewrite concat_mid. apply Permutation_middle. Qed.

Lemma ready_child i st l1 t l2 s : ready (Rt i st (l1 ++ t :: l2)) s -> ready t s.
Proof.
  intros [Hn He Hf Ho]. rewrite tids_mid in Hn. rewrite tids_mid, length_app in Ho.
  constructor; [by apply NoDup_app in Hn as [? _]|done| |lia].
  intros j Hj. apply Hf. rewrite tids_mid. apply elem_of_app. by left.
Qed.

(** A step inside a subtree leaves the rest of the tree in place. *)
Lemma holds_outside par fn i st l1 t l2 freed s s' :
  NoDup (tids (Rt i st (l1 ++ t :: l2))) -> frees (tids t) freed s s' ->
  holds (reqs s) (flat par fn (Rt i st (l1 ++ t :: l2))) ->
  holds_node (reqs s') (Nd i par fn (map root (l1 ++ t :: l2)) st)
  /\ holds (reqs s') (concat (map (flat (Some i) CbCompleteChild) (l1 ++ l2))).
Proof.
  rewrite tids_mid, NoDup_app. intros (_ & Hd & _) Hfr. rewrite flat_eq.
  unfold holds at 1. rewrite Forall_cons. intros [Hi Hr]. apply holds_mid in Hr as [_ Hr]. split.
  - destruct Hi as [x [? ? ? ? ? ? ?]]. exists x. constructor; try done. cbn in *.
    rewrite (fr_heap _ _ _ _ Hfr); [done|]. intros Hin. apply (Hd _ Hin). left.
  - eapply holds_agree; [|exact Hr]. intros j Hj. rewrite flat_list_ids in Hj.
    apply (fr_heap _ _ _ _ Hfr). intros Hin. apply (Hd _ Hin). by right.
Qed.

Lemma complete_inner_stay d par fn i st l1 t l2 l c t' s :
  holds (reqs s) (flat par fn (Rt i st (l1 ++ t :: l2))) -> ready (Rt i st (l1 ++ t :: l2)) s ->
  completes d (Some i) CbCompleteChild t l c (inl t') s ->
  completes d par fn (Rt i st (l1 ++ t :: l2)) l c (inl (Rt i st (l1 ++ t' :: l2))) s.
Proof.
  intros Hh Hr (s' & freed & Hfr & Hids & Hpar & Hroot & Ht' & Hrun).
  destruct (holds_outside _ _ _ _ _ _ _ _ _ _ (rdy_dup _ _ Hr) Hfr Hh) as [Hi Hrest].
  exists s', freed. split; [|split; [|split]].
  - eapply frees_weaken; [|exact Hfr]. intros j Hj. rewrite tids_mid. apply elem_of_app. by left.
  - cbn [rest_ids] in *. rewrite !tids_mid, Hids. by rewrite (assoc (++)).
  - intros j Hj _. apply Hpar; [done|]. intros ->.
    pose proof (rdy_dup _ _ Hr) as Hn. rewrite tids_mid, Hids, <- (assoc (++)) in Hn.
    rewrite NoDup_app in Hn. destruct Hn as (_ & Hn & _). apply (Hn _ Hj).
    rewrite <- Hroot. apply elem_of_app. left. apply root_tids.
  - split; [done|]. split; [|done]. rewrite flat_eq. apply Forall_cons. split.
    + rewrite map_app in *. cbn [map] in *. by rewrite Hroot.
    + by apply holds_mid.
Qed.

(** A child is done: the parent has lost it and has taken over its error. *)
Lemma complete_inner_child d par fn i st l1 t l2 l c c' s :
  holds (reqs s) (flat par fn (Rt i st (l1 ++ t :: l2))) -> ready (Rt i st (l1 ++ t :: l2)) s ->
  completes d (Some i) CbCompleteChild t l c (inr c') s ->
  let st' := if spdk_nvme_cpl_is_error c' then c' else st in
  exists s' d1, frees (tids (Rt i st (l1 ++ t :: l2))) (tids t) s s'
    /\ (d <= d1 + depth t)%nat
    /\ (forall j, j ∈ tids t -> exists x, reqs s' !! j = Some x /\ r_parent x = None)
    /\ holds (reqs s') (flat par fn (Rt i st' (l1 ++ l2)))
    /\ nvme_complete_request d l c s
       = match l1 ++ l2 with
         | [] => nvme_complete_request d1 i st' s'
         | _ => Ok (tt, s')
         end.
Proof.
  intros Hh Hr (s1 & freed & Hfr & Hids & Hpar & d1 & Hd1 & Hrun & y & Hy & Hyp) st'.
  cbn [rest_ids] in Hids. rewrite app_nil_r in Hids.
  pose proof (rdy_dup _ _ Hr) as Hn.
  destruct (holds_outside _ _ _ _ _ _ _ _ _ _ Hn Hfr Hh) as [[x Hx] Hrest].
  rewrite tids_mid, NoDup_app in Hn. destruct Hn as (_ & Hd & [Hi Hn]%NoDup_cons).
  assert (Hni : i ∉ tids t) by (intros Hin; apply (Hd _ Hin); left).
  assert (Hit : i <> root t) by (intros ->; apply Hni, root_tids).
  destruct (child_done d1 i (root t) c' s1 x y) as (h & Hhi & Hhp & Hhj & Hrun2);
    [done|done|apply Hx| |done|].
  { rewrite (has_children _ _ _ Hx). cbn. rewrite map_app. apply elem_of_app. right. left. }
  assert (Hcs : List.filter (fun j => negb (Nat.eqb j (root t))) (r_children x) = map root (l1 ++ l2)).
  { rewrite (has_children _ _ _ Hx). apply filter_roots, NoDup_roots.
    pose proof (rdy_dup _ _ Hr) as Hn2. by apply NoDup_cons in Hn2 as [_ ?]. }
  assert (Hst : (if spdk_nvme_cpl_is_error c' then c' else parent_status x) = st').
  { unfold st'. destruct (spdk_nvme_cpl_is_error c'); [done|]. apply (has_status _ _ _ Hx).
    cbn. rewrite map_app. by destruct (map root l1). }
  rewrite Hcs, Hst in *. exists (set_reqs (fun _ => h) s1), d1.
  split; [|split; [done|split; [|split]]].
  - assert (Hfr' : frees (tids t) (tids t) s s1).
    { destruct Hfr as [A Q B C F]. constructor; [done|done|by rewrite B, Hids| |done].
      rewrite C. by rewrite <- Hids. }
    eapply (frees_trans _ _ []).
    + eapply frees_weaken; [|exact Hfr']. intros j Hj. rewrite tids_mid. apply elem_of_app. by left.
    + apply frees_reqs.
      * intros j Hj. rewrite tids_mid, elem_of_app, elem_of_cons in Hj.
        apply Hhj; [|naive_solver]. intros ->. apply Hj. left. apply root_tids.
      * intros j. destruct (decide (j = root t)) as [->|]; [by rewrite Hhi, Hy|].
        destruct (decide (j = i)) as [->|]; [|by rewrite Hhj].
        rewrite Hhp. by rewrite (has_at _ _ _ Hx : reqs s1 !! i = _).
  - intros j Hj. cbn. destruct (decide (j = root t)) as [->|Hne]; [by eexists|].
    rewrite Hhj; [|done|congruence]. apply Hpar; [by rewrite <- Hids|done].
  - rewrite flat_eq. apply Forall_cons. split.
    + eexists. destruct Hx as [? ? ? ? ? ? ?]. constructor; cbn in *; done.
    + eapply holds_agree; [|exact Hrest]. intros j Hj. rewrite flat_list_ids in Hj. apply Hhj.
      * intros ->. apply (Hd _ (root_tids t)). by right.
      * congruence.
  - rewrite Hrun, Hrun2. by destruct (l1 ++ l2).
Qed.

Lemma complete_tree t : forall par fn l c res d s,
  holds (reqs s) (flat par fn t) -> ready t s -> tcomplete l c t = Some res ->
  (depth t <= d)%nat -> completes d par fn t l c res s.
Proof.
  induction t as [i st cs IH] using rt_ind'. intros par fn l c res d s Hh Hr Hc Hd.
  cbn [tcomplete] in Hc. destruct cs as [|u us].
  { destruct (Nat.eqb_spec l i) as [->|]; [|done]. injection Hc as <-.
    apply complete_leaf; [done|done|cbn in Hd; lia]. }
  destruct (first_tree _ _) as [[cs' e]|] eqn:Ef; [|done].
  apply first_tree_split in Ef as (l1 & t & l2 & Hcs & _ & He). rewrite Hcs in *. clear u us Hcs.
  pose proof (proj1 (Forall_forall _ _) IH t ltac:(set_solver)) as IHt. clear IH.
  assert (Hdt : (S (depth t) <= d)%nat).
  { pose proof (depth_child t (l1 ++ t :: l2) ltac:(set_solver)). cbn in Hd. lia. }
  assert (Hht : holds (reqs s) (flat (Some i) CbCompleteChild t)).
  { apply Forall_cons in Hh as [_ Hh]. by apply holds_mid in Hh as [? _]. }
  destruct e as [c'|].
  - destruct He as [Ht ->].
    destruct (complete_inner_child d par fn i st l1 t l2 l c c' s Hh Hr) as
      (s' & d1 & Hfr & Hd1 & Hpar & Hh' & Hrun).
    { apply IHt; [done|by eapply ready_child|done|lia]. }
    destruct (l1 ++ l2) as [|v vs] eqn:El.
    + injection Hc as <-. destruct d1 as [|d1]; [lia|].
      apply Forall_singleton in Hh' as [x Hx].
      destruct (rdy_free _ _ Hr i) as [Hi0 Hif]; [left|].
      assert (l1 = [] /\ l2 = []) as [-> ->] by (by destruct l1, l2). cbn [app] in *.
      pose proof (rdy_dup _ _ Hr) as Hn. pose proof (rdy_out _ _ Hr) as Ho. cbn in Hn, Ho.
      rewrite app_nil_r in Hn, Ho. apply NoDup_cons in Hn as [Hni _].
      rewrite (complete_head d1 i _ s' x) in Hrun;
        [|apply Hx|apply Hx| |apply Hx|done| |rewrite (fr_out _ _ _ _ Hfr); lia].
      2: { rewrite (fr_rest _ _ _ _ Hfr). apply Hr. }
      2: { rewrite (fr_free _ _ _ _ Hfr), elem_of_app. naive_solver. }
      rewrite (has_fn _ _ _ Hx) in Hrun. cbn [n_fn] in Hrun.
      eexists _, (i :: tids t). split; [|split; [|split]].
      * eapply (frees_trans _ _ [i]); [exact Hfr|]. eapply frees_weaken; [|apply frees_pool].
        intros j ->%list_elem_of_singleton. left.
      * cbn [rest_ids tids]. cbn. by rewrite !app_nil_r.
      * intros j [->|Hj]%elem_of_cons Hne; [done|]. by apply Hpar.
      * exists d1. split; [cbn; lia|]. split; [exact Hrun|]. exists x. split; [apply Hx|].
        apply (has_parent _ _ _ Hx).
    + injection Hc as <-. rewrite <- El in *. exists s', (tids t).
      split; [done|]. split; [cbn [rest_ids]; by rewrite tids_mid|].
      split; [by intros j Hj _; apply Hpar|]. done.
  - destruct He as (t' & Ht & ->). injection Hc as <-.
    apply complete_inner_stay; [done|done|]. apply IHt; [done|by eapply ready_child|done|lia].
Qed.

(** ** Forests *)

(** The commands of the user: callback argument and tree. *)
Abbreviation forest := (list (Z * rt)).

Definition fids (F : forest) : list nat := concat (map (fun x => tids x.2) F).
Definition fleaves (F : forest) : list nat := concat (map (fun x => tleaves x.2) F).
Definition fflat (F : forest) : list node := concat (map (fun x => flat None (CbArg x.1) x.2) F).

(** Completion of a leaf: the new forest and the callbacks made. *)
Fixpoint fcomplete (l : nat) (c : cpl) (F : forest) : forest * list (Z * cpl) :=
  match F with
  | [] => ([], [])
  | (a, t) :: F' =>
      match tcomplete l c t with
      | Some (inl t') => ((a, t') :: F', [])
      | Some (inr c') => (F', [(a, c')])
      | None => let '(F2, o) := fcomplete l c F' in ((a, t) :: F2, o)
      end
  end.

Lemma fcomplete_split l c F :
  l ∈ fleaves F ->
  exists F1 a t F2 r, F = F1 ++ (a, t) :: F2 /\ tcomplete l c t = Some r
    /\ fcomplete l c F = match r with
                         | inl t' => (F1 ++ (a, t') :: F2, [])
                         | inr c' => (F1 ++ F2, [(a, c')])
                         end.
Proof.
  induction F as [|[a t] F IH]; [by intros ?%not_elem_of_nil|].
  unfold fleaves. cbn. rewrite elem_of_app. intros Hl.
  destruct (tcomplete l c t) as [r|] eqn:Et.
  - exists [], a, t, F, r. by destruct r.
  - destruct Hl as [Hl|Hl]; [by apply (tcomplete_leaf l c) in Hl|].
    destruct (IH Hl) as (F1 & a' & t' & F2 & r & -> & Ht & ->).
    exists ((a, t) :: F1), a', t', F2, r. by destruct r.
Qed.

Lemma fcomplete_leaves l c F :
  l ∈ fleaves F -> fleaves F ≡ₚ l :: fleaves (fcomplete l c F).1.
Proof.
  intros Hl. destruct (fcomplete_split l c F Hl) as (F1 & a & t & F2 & r & -> & Ht & ->).
  unfold fleaves. rewrite concat_mid. cbn [snd]. rewrite (tcomplete_leaves _ _ _ _ Ht).
  destruct r as [t'|c']; cbn [fst rest_leaves]; [|done]. by rewrite concat_mid.
Qed.

Lemma list_max_cons x l : list_max (x :: l) = Nat.max x (list_max l).
Proof. done. Qed.

Lemma tcomplete_depth l c t t' : tcomplete l c t = Some (inl t') -> (depth t' <= depth t)%nat.
Proof.
  revert t'. induction t as [i st cs IH] using rt_ind'. intros t'. cbn [tcomplete].
  destruct cs as [|u us]; [by destruct (l =? i)%nat|].
  destruct (first_tree _ _) as [[cs' e]|] eqn:Ef; [|done].
  apply first_tree_split in Ef as (l1 & t & l2 & Hcs & _ & He). rewrite Hcs in *.
  rewrite Forall_app, Forall_cons in IH. destruct IH as (_ & IH & _).
  assert (Hm : forall f : rt -> nat, list_max (map f (l1 ++ t :: l2))
    = Nat.max (f t) (list_max (map f (l1 ++ l2)))).
  { intros f. rewrite !map_app, !list_max_app. cbn [map]. rewrite list_max_cons. lia. }
  destruct e as [c'|].
  - destruct He as [_ ->]. intros Ht'.
    assert (depth t' = S (list_max (map depth (l1 ++ l2)))) as ->
      by (destruct (l1 ++ l2); [done|by injection Ht' as <-]).
    cbn [depth]. rewrite Hm. lia.
  - destruct He as (t2 & Ht & ->). intros [= <-]. cbn [depth]. rewrite Hm.
    rewrite !map_app, !list_max_app. cbn [map]. rewrite list_max_cons. specialize (IH _ Ht). lia.
Qed.

(** ** The heap of a queue pair *)

(** The heap of a queue pair with [N] requests holds the forest [F], and all
    other requests are in the pool; no error is injected. *)
Record rep (N D : nat) (s : qst) (F : forest) : Prop := {
  rp_holds : holds (reqs s) (fflat F);
  rp_ids : fids F ++ free_reqs s ≡ₚ seq 1 N;
  rp_out : outstanding s = Z.of_nat (length (fids F));
  rp_size : Z.of_nat N < 2 ^ 32;
  rp_free : forall j, j ∈ free_reqs s -> exists x, reqs s !! j = Some x /\ r_parent x = None;
  rp_err_cmd : err_cmd_head s = [];
  rp_err_req : err_req_head s = [];
  rp_depth : Forall (fun x => depth x.2 <= D)%nat F }.

(** A step that makes the callbacks [o] and leaves the queues alone. *)
Record keeps (o : list (Z * cpl)) (s s' : qst) : Prop := {
  kp_queued : queued_req s' = queued_req s;
  kp_aborting : aborting_queued_req s' = aborting_queued_req s;
  kp_conn : cn s' = cn s;
  kp_inflight : inflight s' = inflight s;
  kp_done : done s' = done s ++ o;
  kp_submits : n_submits s' = n_submits s;
  kp_flag : forall j, r_queued <$> reqs s' !! j = r_queued <$> reqs s !! j }.

Lemma keeps_refl s : keeps [] s s.
Proof. constructor; try done. by rewrite app_nil_r. Qed.

Lemma keeps_trans o1 o2 s1 s2 s3 : keeps o1 s1 s2 -> keeps o2 s2 s3 -> keeps (o1 ++ o2) s1 s3.
Proof.
  intros [A B C D H I J] [A' B' C' D' H' I' J']. constructor; try congruence.
  by rewrite H', H, (assoc (++)).
Qed.

Lemma frees_keeps o f s s' : frees o f s s' -> keeps [] s s'.
Proof.
  intros [_ Q _ _ H]. constructor; try done; rewrite H; try done. cbn. by rewrite app_nil_r.
Qed.

Lemma rep_NoDup N D s F : rep N D s F -> NoDup (fids F ++ free_reqs s).
Proof. intros H. rewrite (rp_ids _ _ _ _ H). apply NoDup_seq. Qed.

Lemma fids_mid F1 a t F2 : fids (F1 ++ (a, t) :: F2) ≡ₚ tids t ++ fids (F1 ++ F2).
Proof. unfold fids. by rewrite concat_mid. Qed.

Lemma fflat_mid h F1 a t F2 :
  holds h (fflat (F1 ++ (a, t) :: F2)) <-> holds h (flat None (CbArg a) t) /\ holds h (fflat (F1 ++ F2)).
Proof. rewrite <- holds_app. unfold holds, fflat. by rewrite concat_mid. Qed.

Lemma fflat_ids F : map n_id (fflat F) = fids F.
Proof.
  unfold fflat, fids. induction F as [|[a t] F IH]; [done|]. cbn. by rewrite map_app, flat_ids, IH.
Qed.

Lemma rep_ready N D s F1 a t F2 : rep N D s (F1 ++ (a, t) :: F2) -> ready t s.
Proof.
  intros H. pose proof (rep_NoDup _ _ _ _ H) as Hn. destruct H as [_ Hids Ho HN _ He _ _].
  rewrite fids_mid in Ho. rewrite fids_mid in Hids. rewrite fids_mid in Hn.
  rewrite <- (assoc (++)), NoDup_app in Hn. destruct Hn as (Hn & Hd & _).
  constructor; [done|done| |].
  - intros i Hi. split; [|intros Hf; apply (Hd i Hi), elem_of_app; by right].
    assert (i ∈ seq 1 N) as Hs by (rewrite <- Hids; set_solver).
    apply elem_of_seq in Hs. lia.
  - rewrite Ho. pose proof (Permutation_length Hids) as Hl. rewrite length_seq in Hl.
    rewrite !length_app in *. lia.
Qed.

Lemma rep_complete N D s F l c :
  rep N D s F -> l ∈ fleaves F ->
  exists s', nvme_complete_request D l c s = Ok (tt, s')
    /\ rep N D s' (fcomplete l c F).1 /\ keeps (fcomplete l c F).2 s s'.
Proof.
  intros HR Hl. destruct (fcomplete_split l c F Hl) as (F1 & a & t & F2 & r & -> & Ht & ->).
  pose proof (rep_ready _ _ _ _ _ _ _ HR) as Hrdy. pose proof (rep_NoDup _ _ _ _ HR) as Hn.
  destruct HR as [Hh Hids Ho HN Hfree He1 He2 Hdep].
  apply fflat_mid in Hh as [Ht1 Hrest].
  rewrite Forall_app, Forall_cons in Hdep. destruct Hdep as (Hdep1 & Hdept & Hdep2).
  destruct (complete_tree t None (CbArg a) l c r D s Ht1 Hrdy Ht Hdept)
    as (s' & freed & Hfr & Hperm & Hpar & Hres).
  rewrite fids_mid, <- (assoc (++)), NoDup_app in Hn. destruct Hn as (_ & Hd & _).
  assert (Hrest' : holds (reqs s') (fflat (F1 ++ F2))).
  { eapply holds_agree; [|exact Hrest]. intros j Hj. rewrite fflat_ids in Hj.
    apply (fr_heap _ _ _ _ Hfr). intros Hin. apply (Hd j Hin), elem_of_app. by left. }
  assert (Hroot : exists x, reqs s' !! root t = Some x /\ r_parent x = None).
  { destruct r as [t'|c'].
    - destruct Hres as (Hroot & Hh' & _). destruct t' as [i' st' cs'].
      apply Forall_cons in Hh' as [[x Hx] _]. exists x. rewrite <- Hroot. split; [apply Hx|].
      apply (has_parent _ _ _ Hx).
    - by destruct Hres as (d1 & _ & _ & Hx). }
  assert (Hfree' : forall j, j ∈ free_reqs s' -> exists x, reqs s' !! j = Some x /\ r_parent x = None).
  { intros j Hj. rewrite (fr_free _ _ _ _ Hfr), elem_of_app in Hj. destruct Hj as [Hj|Hj].
    - destruct (decide (j = root t)) as [->|]; [done|by apply Hpar].
    - rewrite (fr_heap _ _ _ _ Hfr); [by apply Hfree|]. intros Hin. apply (Hd j Hin), elem_of_app.
      by right. }
  assert (Hids' : freed ++ rest_ids r ++ fids (F1 ++ F2) ++ free_reqs s ≡ₚ seq 1 N).
  { rewrite <- Hids, fids_mid, Hperm. by rewrite <- !(assoc (++)). }
  assert (Ho' : outstanding s' = Z.of_nat (length (rest_ids r ++ fids (F1 ++ F2)))).
  { rewrite (fr_out _ _ _ _ Hfr), Ho, fids_mid, Hperm, !length_app. lia. }
  assert (Hs' : err_cmd_head s' = [] /\ err_req_head s' = []) by (by rewrite (fr_rest _ _ _ _ Hfr)).
  destruct r as [t'|c'].
  - destruct Hres as (_ & Hh' & Hrun). exists s'. split; [done|]. cbn [fst snd].
    split; [|by eapply frees_keeps]. constructor; try done.
    + by apply fflat_mid.
    + rewrite fids_mid, (fr_free _ _ _ _ Hfr), <- Hids'. cbn [rest_ids]. solve_Permutation.
    + by rewrite fids_mid.
    + apply Hs'.
    + apply Hs'.
    + apply Forall_app. split; [done|]. constructor; [|done]. apply tcomplete_depth in Ht. cbn in *. lia.
  - destruct Hres as (d1 & _ & Hrun & _). cbn [after] in Hrun. eexists. split; [exact Hrun|].
    cbn [fst snd]. split.
    + constructor; cbn; try done; try apply Hs'.
      * rewrite (fr_free _ _ _ _ Hfr), <- Hids'. cbn [rest_ids]. solve_Permutation.
      * by apply Forall_app.
    + eapply (keeps_trans [] _ _ s'); [by eapply frees_keeps|]. by constructor.
Qed.
