(* ===== verification/NvmeQpairDrop.v ===== *)
(** * Giving up a request tree

    nvme_request_free_children and the loops over drop_child return every
    request below a node to the pool. *)

From S2P Require Import Prelude NsCmd NsCmdLemmas NvmeQpair NvmeQpairLemmas.

Definition below (t : rt) : list nat := let 'Rt _ _ cs := t in concat (map tids cs).
Definition bare (par : option nat) (fn : req_cb) (t : rt) : node :=
  let 'Rt i st _ := t in Nd i par fn [] st.

(** All requests below the root are returned; the root has no children. *)
Definition gives_up (m : M qst unit) (par : option nat) (fn : req_cb) (t : rt) (s : qst) : Prop :=
  exists s', m s = Ok (tt, s') /\ frees (tids t) (below t) s s'
    /\ (forall j, j ∈ below t -> exists x, reqs s' !! j = Some x /\ r_parent x = None)
    /\ holds_node (reqs s') (bare par fn t).

Lemma tids_below t : tids t = root t :: below t.
Proof. by destruct t. Qed.

Lemma ready_set_reqs t h s : ready t s -> ready t (set_reqs h s).
Proof. intros [? ? ? ?]. by constructor. Qed.

Lemma frees_refl o s : frees o [] s s.
Proof. constructor; try done; [cbn; lia|by destruct s]. Qed.

(** The first child is unlinked. *)
Lemma unlink_ok par fn i st u us s :
  holds (reqs s) (flat par fn (Rt i st (u :: us))) -> NoDup (tids (Rt i st (u :: us))) ->
  exists h, nvme_request_remove_child (Some i) (root u) s = Ok (tt, set_reqs (fun _ => h) s)
    /\ frees (tids (Rt i st (u :: us))) [] s (set_reqs (fun _ => h) s)
    /\ holds h (flat par fn (Rt i st us)) /\ holds h (flat None CbCompleteChild u).
Proof.
  rewrite !flat_eq. unfold holds. rewrite !Forall_cons. cbn [map concat]. rewrite Forall_app.
  intros ([x Hx] & Hu & Hus) Hn. destruct u as [k stk ks] eqn:Eu. rewrite <- Eu in *.
  assert (Hk : root u = k) by by subst u.
  assert (Hnode : holds_node (reqs s) (Nd k (Some i) CbCompleteChild (map root ks) stk))
    by (rewrite Eu, flat_eq in Hu; by apply Forall_cons in Hu as [? _]).
  destruct Hnode as [y Hy].
  pose proof (tids_mid i st [] u us) as Hmid. cbn [app] in Hmid.
  pose proof Hn as Hn2. rewrite Hmid, NoDup_app in Hn2. destruct Hn2 as (Hnu & Hd & [Hi _]%NoDup_cons).
  assert (Hik : i <> k) by (intros ->; apply (Hd k); [rewrite <- Hk; apply root_tids|left]).
  rewrite Hk. erewrite (remove_child_ok i k s x y); [|apply Hy|apply Hy|apply Hx| |done].
  2: { rewrite (has_children _ _ _ Hx). cbn. rewrite Hk. left. }
  rewrite (has_children _ _ _ Hx : _ = map root (u :: us)).
  pose proof (filter_roots [] u us) as Hfl. cbn [app] in Hfl. rewrite <- Hk, Hfl, Hk.
  2: { apply NoDup_roots. by apply NoDup_cons in Hn as [_ ?]. }
  eexists. split; [reflexivity|]. set (h := <[k := _]> _).
  assert (Hh : forall j, j <> i -> j <> k -> h !! j = reqs s !! j)
    by (intros; unfold h; by rewrite !lookup_insert_ne).
  assert (Hhi : h !! i = Some (with_children (map root us) x))
    by (unfold h; by rewrite lookup_insert_ne, lookup_insert_eq).
  assert (Hhk : h !! k = Some (with_parent None y)) by (unfold h; by rewrite lookup_insert_eq).
  split; [|split; [|rewrite Eu, flat_eq in *; apply Forall_cons in Hu as [_ Hu]; apply Forall_cons; split]].
  - apply frees_reqs.
    + intros j Hj. rewrite Hmid, elem_of_app, elem_of_cons in Hj. apply Hh; [naive_solver|].
      intros ->. apply Hj. left. rewrite <- Hk. apply root_tids.
    + intros j. destruct (decide (j = i)) as [->|]; [by rewrite Hhi, (has_at _ _ _ Hx : reqs s !! i = _)|].
      destruct (decide (j = k)) as [->|]; [by rewrite Hhk, (has_at _ _ _ Hy : reqs s !! k = _)|].
      by rewrite Hh.
  - apply Forall_cons. split.
    + eexists. destruct Hx as [? ? ? ? Hs ? ?]. constructor; cbn in *; try done. intros _. by apply Hs.
    + eapply holds_agree; [|exact Hus]. intros j Hj. rewrite flat_list_ids in Hj. apply Hh.
      * intros ->. done.
      * intros ->. apply (Hd k); [rewrite <- Hk; apply root_tids|by right].
  - eexists. destruct Hy. by constructor.
  - eapply holds_agree; [|exact Hu]. intros j Hj. rewrite flat_list_ids in Hj.
    assert (Hju : j ∈ tids (Rt k stk ks)) by by right.
    apply Hh; [intros ->; apply (Hd i Hju); left|].
    intros ->. apply NoDup_cons in Hnu as [Hnu _]. done.
Qed.

(** The root follows. *)
Lemma free_root_ok u s s1 x :
  ready u s -> frees (tids u) (below u) s s1 ->
  reqs s1 !! root u = Some x -> r_parent x = None -> r_children x = [] ->
  (forall j, j ∈ below u -> exists x, reqs s1 !! j = Some x /\ r_parent x = None) ->
  exists s', _nvme_free_request (root u) s1 = Ok (tt, s') /\ frees (tids u) (tids u) s s'
    /\ (forall j, j ∈ tids u -> exists x, reqs s' !! j = Some x /\ r_parent x = None).
Proof.
  intros [Hn He Hf Ho] Hfr Hat Hxp Hxc Hpar.
  rewrite tids_below in Hn, Ho. apply NoDup_cons in Hn as [Hn _].
  destruct (Hf (root u) (root_tids u)) as [H0 H1]. cbn in Ho.
  erewrite (free_ok (root u) s1 x); [|done|done|done|..].
  2: { rewrite (fr_free _ _ _ _ Hfr), elem_of_app. naive_solver. }
  2: { rewrite (fr_out _ _ _ _ Hfr). lia. }
  eexists. split; [reflexivity|]. split.
  - rewrite (tids_below u) at 2. apply (frees_trans _ _ [root u] _ s1 _); [done|].
    eapply frees_weaken; [|apply frees_pool]. intros j ->%list_elem_of_singleton. apply root_tids.
  - intros j. rewrite tids_below. intros [->|Hj]%elem_of_cons; [by exists x|by apply Hpar].
Qed.

(** A subtree without a parent is returned to the pool. *)
Lemma free_subtree d u s :
  gives_up (nvme_request_free_children d (root u)) None CbCompleteChild u s -> ready u s ->
  exists s', (_ ← nvme_request_free_children d (root u); _nvme_free_request (root u)) s = Ok (tt, s')
    /\ frees (tids u) (tids u) s s'
    /\ (forall j, j ∈ tids u -> exists x, reqs s' !! j = Some x /\ r_parent x = None).
Proof.
  intros (s1 & Hr1 & Hfr & Hpar & [x Hx]) Hr. erewrite M_bind_ok by exact Hr1.
  apply (free_root_ok u s s1 x Hr Hfr); [..|done]; destruct u; apply Hx.
Qed.

Lemma drop_child_ok d par fn i st u us s :
  holds (reqs s) (flat par fn (Rt i st (u :: us))) -> ready (Rt i st (u :: us)) s ->
  (forall s, holds (reqs s) (flat None CbCompleteChild u) -> ready u s ->
     gives_up (nvme_request_free_children d (root u)) None CbCompleteChild u s) ->
  exists s', drop_child d i (root u) s = Ok (tt, s')
    /\ frees (tids (Rt i st (u :: us))) (tids u) s s'
    /\ holds (reqs s') (flat par fn (Rt i st us))
    /\ (forall j, j ∈ tids u -> exists x, reqs s' !! j = Some x /\ r_parent x = None).
Proof.
  intros Hh Hr Hu. pose proof (rdy_dup _ _ Hr) as Hn.
  destruct (unlink_ok par fn i st u us s Hh Hn) as (h & Hr1 & Hfr1 & Hh1 & Hu1).
  pose proof (ready_child i st [] u us s Hr) as Hru. apply (ready_set_reqs u (fun _ => h)) in Hru.
  unfold drop_child. erewrite M_bind_ok by exact Hr1.
  destruct (free_subtree d u _ (Hu (set_reqs (fun _ => h) s) Hu1 Hru) Hru) as (s2 & Hr2 & Hfr2 & Hpar).
  exists s2. split; [done|]. pose proof (tids_mid i st [] u us) as Hmid. cbn [app] in Hmid.
  split; [|split; [|done]].
  - rewrite <- (app_nil_r (tids u)). eapply frees_trans; [exact Hfr1|].
    eapply frees_weaken; [|exact Hfr2]. intros j Hj. rewrite Hmid. apply elem_of_app. by left.
  - eapply holds_agree; [|exact Hh1]. intros j Hj. rewrite flat_ids in Hj.
    rewrite (fr_heap _ _ _ _ Hfr2); [done|]. rewrite Hmid, NoDup_app in Hn.
    destruct Hn as (_ & Hd & _). intros Hin. by apply (Hd j Hin).
Qed.

Lemma drop_loop d par fn i st cs : forall s,
  holds (reqs s) (flat par fn (Rt i st cs)) -> ready (Rt i st cs) s ->
  Forall (fun u => forall s, holds (reqs s) (flat None CbCompleteChild u) -> ready u s ->
     gives_up (nvme_request_free_children d (root u)) None CbCompleteChild u s) cs ->
  gives_up (for_each (map root cs) (drop_child d i)) par fn (Rt i st cs) s.
Proof.
  induction cs as [|u us IH]; intros s Hh Hr HF.
  { exists s. split; [done|]. split; [apply frees_refl|].
    split; [by intros j ?%not_elem_of_nil|]. rewrite flat_eq in Hh. by apply Forall_cons in Hh as [? _]. }
  apply Forall_cons in HF as [Hu Hus].
  destruct (drop_child_ok d par fn i st u us s Hh Hr Hu) as (s1 & Hr1 & Hfr1 & Hh1 & Hpar1).
  pose proof (tids_mid i st [] u us) as Hmid. cbn [app] in Hmid.
  pose proof Hr as [Hn He Hf Ho]. rewrite Hmid in Hn, Ho. rewrite length_app in Ho.
  rewrite NoDup_app in Hn. destruct Hn as (_ & Hd & Hn).
  destruct (IH s1 Hh1) as (s2 & Hr2 & Hfr2 & Hpar2 & Hb); [|done|].
  { constructor; [done| | |rewrite (fr_out _ _ _ _ Hfr1); cbn in *; lia].
    - rewrite (fr_rest _ _ _ _ Hfr1). done.
    - intros j Hj. destruct (Hf j) as [H0 H1]; [rewrite Hmid; apply elem_of_app; by right|].
      split; [done|]. rewrite (fr_free _ _ _ _ Hfr1), elem_of_app. intros [Hju|]; [|done].
      by apply (Hd j Hju). }
  exists s2. cbn [map for_each]. erewrite M_bind_ok by exact Hr1. split; [done|].
  assert (Hsub : forall j, j ∈ tids (Rt i st us) -> j ∈ tids (Rt i st (u :: us)))
    by (intros j Hj; rewrite Hmid; apply elem_of_app; by right).
  split; [|split; [|done]].
  - assert (Hfr : frees (tids (Rt i st (u :: us))) (below (Rt i st us) ++ tids u) s s2).
    { eapply frees_trans; [exact Hfr1|]. by eapply frees_weaken. }
    destruct Hfr as [A Q B C F]. constructor; [done|done| |rewrite C|done].
    + rewrite B. cbn. solve_Permutation.
    + cbn. rewrite !length_app. lia.
  - intros j Hj. cbn in Hj. rewrite elem_of_app in Hj. destruct Hj as [Hj|Hj]; [|by apply Hpar2].
    rewrite (fr_heap _ _ _ _ Hfr2); [by apply Hpar1|]. intros Hin. by apply (Hd j Hj).
Qed.

Lemma free_children_ok t : forall par fn d s,
  holds (reqs s) (flat par fn t) -> ready t s -> (depth t <= S d)%nat ->
  gives_up (nvme_request_free_children d (root t)) par fn t s.
Proof.
  induction t as [i st cs IH] using rt_ind'. intros par fn d s Hh Hr Hd.
  assert (Hx : exists x, reqs s !! i = Some x /\ r_children x = map root cs).
  { rewrite flat_eq in Hh. apply Forall_cons in Hh as [[x Hx] _]. exists x. split; apply Hx. }
  destruct Hx as (x & Hx & Hc). cbn [root]. destruct cs as [|u us].
  - exists s. split; [|split; [apply frees_refl|]].
    + destruct d; cbn; erewrite M_bind_ok by (by apply load_ok); by rewrite Hc.
    + split; [by intros j ?%not_elem_of_nil|]. rewrite flat_eq in Hh. by apply Forall_cons in Hh as [? _].
  - destruct d as [|d].
    { cbn [depth] in Hd. pose proof (depth_child u (u :: us) ltac:(left)). destruct u. cbn in *. lia. }
    destruct (drop_loop d par fn i st (u :: us) s Hh Hr) as (s' & Hr' & Hrest).
    { rewrite Forall_forall in IH |- *. intros t Ht s1 Hh1 Hr1. apply IH; [done..|].
      pose proof (depth_child t (u :: us) Ht). cbn [depth] in Hd. lia. }
    exists s'. split; [|done]. cbn [nvme_request_free_children].
    erewrite M_bind_ok by (by apply load_ok). by rewrite Hc.
Qed.

(** A tree of the forest loses all children. *)
Lemma drop_whole_ok d fn t s :
  holds (reqs s) (flat None fn t) -> ready t s -> (depth t <= d)%nat ->
  exists x s', reqs s !! root t = Some x
    /\ for_each (r_children x) (drop_child d (root t)) s = Ok (tt, s')
    /\ frees (tids t) (below t) s s'
    /\ (forall j, j ∈ below t -> exists x, reqs s' !! j = Some x /\ r_parent x = None)
    /\ exists y, reqs s' !! root t = Some y /\ r_parent y = None /\ r_children y = [].
Proof.
  destruct t as [i st cs]. intros Hh Hr Hd. pose proof Hh as Hh2. rewrite flat_eq in Hh2.
  apply Forall_cons in Hh2 as [[x Hx] _]. exists x.
  destruct (drop_loop d None fn i st cs s Hh Hr) as (s' & Hr' & Hfr & Hpar & [y Hy]).
  { apply Forall_forall. intros t Ht s1 Hh1 Hr1. apply free_children_ok; [done..|].
    pose proof (depth_child t cs Ht). cbn [depth] in Hd. lia. }
  exists s'. split; [apply Hx|]. rewrite (has_children _ _ _ Hx). do 3 (split; [done|]).
  exists y. split_and!; apply Hy.
Qed.

Lemma rp_tree N D s F1 a t F2 :
  rep N D s (F1 ++ (a, t) :: F2) -> holds (reqs s) (flat None (CbArg a) t) /\ (depth t <= D)%nat.
Proof.
  intros [Hh _ _ _ _ _ _ Hd]. apply fflat_mid in Hh as [Hh _].
  rewrite Forall_app, Forall_cons in Hd. naive_solver.
Qed.

Lemma rep_drop N D s s' F1 a t F2 :
  rep N D s (F1 ++ (a, t) :: F2) -> frees (tids t) (tids t) s s' ->
  (forall j, j ∈ tids t -> exists x, reqs s' !! j = Some x /\ r_parent x = None) ->
  rep N D s' (F1 ++ F2).
Proof.
  intros HR Hfr Hpar. pose proof (rep_NoDup _ _ _ _ HR) as Hn.
  destruct HR as [Hh Hids Ho HN Hfree He1 He2 Hdep]. apply fflat_mid in Hh as [_ Hrest].
  rewrite fids_mid, <- (assoc (++)), NoDup_app in Hn. destruct Hn as (_ & Hd & _).
  constructor; try done.
  - eapply holds_agree; [|exact Hrest]. intros j Hj. rewrite fflat_ids in Hj.
    apply (fr_heap _ _ _ _ Hfr). intros Hin. apply (Hd j Hin), elem_of_app. by left.
  - rewrite <- Hids, fids_mid, (fr_free _ _ _ _ Hfr). solve_Permutation.
  - rewrite (fr_out _ _ _ _ Hfr), Ho, fids_mid, length_app. lia.
  - intros j Hj. rewrite (fr_free _ _ _ _ Hfr), elem_of_app in Hj. destruct Hj as [Hj|Hj]; [by apply Hpar|].
    rewrite (fr_heap _ _ _ _ Hfr); [by apply Hfree|]. intros Hin. apply (Hd j Hin), elem_of_app. by right.
  - by rewrite (fr_rest _ _ _ _ Hfr).
  - by rewrite (fr_rest _ _ _ _ Hfr).
  - rewrite Forall_app, Forall_cons in Hdep. apply Forall_app. naive_solver.
Qed.
