(* ===== verification/NvmeQpairSpec.v ===== *)
(** * Specification of the queue pair

    The queue pair as a machine over a forest of commands, without heap, pool
    and callbacks of children: which requests the transport holds, which are
    queued, which wait for their abort, and which commands have been completed
    to the user with which status. *)

From S2P Require Import Prelude NsCmd NsCmdLemmas NvmeQpair NvmeQpairLemmas.

Record ast := Ast {
  a_forest : forest;
  a_inflight : list nat;
  a_queued : list nat;
  a_aborting : list nat;
  a_conn : conn;
  a_done : list (Z * cpl);
  a_submits : nat }.

Definition a_set_forest (F : forest) (A : ast) : ast :=
  Ast F (a_inflight A) (a_queued A) (a_aborting A) (a_conn A) (a_done A) (a_submits A).
Definition a_set_inflight (l : list nat) (A : ast) : ast :=
  Ast (a_forest A) l (a_queued A) (a_aborting A) (a_conn A) (a_done A) (a_submits A).
Definition a_set_queued (l : list nat) (A : ast) : ast :=
  Ast (a_forest A) (a_inflight A) l (a_aborting A) (a_conn A) (a_done A) (a_submits A).
Definition a_set_aborting (l : list nat) (A : ast) : ast :=
  Ast (a_forest A) (a_inflight A) (a_queued A) l (a_conn A) (a_done A) (a_submits A).
Definition a_set_conn (c : conn) (A : ast) : ast :=
  Ast (a_forest A) (a_inflight A) (a_queued A) (a_aborting A) c (a_done A) (a_submits A).

(** A leaf completes. *)
Definition acomplete (l : nat) (c : cpl) (A : ast) : ast :=
  let '(F, o) := fcomplete l c (a_forest A) in
  Ast F (a_inflight A) (a_queued A) (a_aborting A) (a_conn A) (a_done A ++ o) (a_submits A).

Definition acompletes (l : list nat) (c : cpl) (A : ast) : ast :=
  fold_left (fun A i => acomplete i c A) l A.

Definition aborted_sq (dnr : Z) : cpl :=
  Cpl 0 SPDK_NVME_SCT_GENERIC SPDK_NVME_SC_ABORTED_SQ_DELETION dnr.
Definition aborted_by_request : cpl :=
  Cpl 0 SPDK_NVME_SCT_GENERIC SPDK_NVME_SC_ABORTED_BY_REQUEST 1.

(** The requests that wait for their abort. *)
Definition afinish_aborts (A : ast) : ast :=
  acompletes (a_aborting A) aborted_by_request (a_set_aborting [] A).

(** Everything is aborted: what the transport holds, what is queued, what waits
    for its abort. *)
Definition adisconnect (A : ast) : ast :=
  if bool_decide (state (a_conn A) = NVME_QPAIR_DISCONNECTED) then A
  else
    let A0 := a_set_conn (with_state NVME_QPAIR_DISCONNECTING (a_conn A)) A in
    let A1 := acompletes (a_inflight A) (aborted_sq 0) (a_set_inflight [] A0) in
    let A2 := acompletes (a_queued A) (aborted_sq (abort_dnr (a_conn A))) (a_set_queued [] A1) in
    let A3 := afinish_aborts A2 in
    a_set_conn (with_state NVME_QPAIR_DISCONNECTED (a_conn A3)) A3.

Section Spec.
Context (E : tenv).

(** A leaf is offered to the transport, if the queue pair is enabled. *)
Definition asend (A : ast) (i : nat) : Z * ast :=
  if bool_decide (state (a_conn A) = NVME_QPAIR_ENABLED) then
    let rc := t_submit E (a_submits A) (a_inflight A) i in
    (rc, Ast (a_forest A) (if rc =? 0 then a_inflight A ++ [i] else a_inflight A) (a_queued A)
           (a_aborting A) (a_conn A) (a_done A) (S (a_submits A)))
  else (- EAGAIN, A).

(** At most [k] queued requests go to the transport, in order, until it refuses
    one, which stays at the head. *)
Fixpoint aresend (k : nat) (A : ast) : ast :=
  match k, a_queued A with
  | O, _ | _, [] => A
  | S k', i :: q =>
      let '(rc, B) := asend (a_set_queued q A) i in
      if rc =? 0 then aresend k' B else a_set_queued (i :: q) B
  end.

(** A connected queue pair becomes enabled and sends its queue; one with a
    transport failure is disconnected. *)
Definition acheck (A : ast) : ast :=
  let A1 :=
    if bool_decide (state (a_conn A) = NVME_QPAIR_CONNECTED) && negb (is_resetting (a_conn A))
    then aresend (length (a_queued A))
           (a_set_conn (with_state NVME_QPAIR_ENABLED (with_state NVME_QPAIR_ENABLING (a_conn A))) A)
    else A in
  if negb (bool_decide (transport_failure_reason (a_conn A1) = SPDK_NVME_QPAIR_FAILURE_NONE))
     && bool_decide (state (a_conn A1) = NVME_QPAIR_ENABLED)
  then adisconnect A1 else A1.

(** A leaf goes behind the queue, or to the transport when the queue is empty. *)
Definition asubmit_leaf (A : ast) (i : nat) : ast :=
  if bool_decide (a_queued A = []) then
    let '(rc, B) := asend A i in
    if rc =? 0 then B else a_set_queued [i] B
  else a_set_queued (a_queued A ++ [i]) A.

Definition disconnected (c : conn) : bool :=
  bool_decide (state c = NVME_QPAIR_DISCONNECTED).

Definition is_leaf (t : rt) : bool := let 'Rt _ _ cs := t in match cs with [] => true | _ => false end.

(** A command: the return code, and the new state. *)
Definition aissue (arg : Z) (t : rt) (A : ast) : Z * ast :=
  let A0 := a_set_forest (a_forest A ++ [(arg, t)]) A in
  if negb (bool_decide (a_queued A = [])) && is_leaf t
  then (0, a_set_queued (a_queued A ++ [root t]) A0)
  else
    let A1 := acheck A0 in
    if disconnected (a_conn A1)
    then (- ENXIO, a_set_forest
            (List.filter (fun x => negb (Nat.eqb (root x.2) (root t))) (a_forest A1)) A1)
    else (0, fold_left asubmit_leaf (tleaves t) A1).

(** The transport completes the requests at the given positions. *)
Definition areap (A : ast) (x : nat * cpl) : ast :=
  match a_inflight A !! x.1 with
  | Some i =>
      acomplete i x.2 (a_set_inflight
        (List.filter (fun j => negb (Nat.eqb j i)) (a_inflight A)) A)
  | None => A
  end.

(** The transport has failed. *)
Definition afail (A : ast) : Z * ast :=
  (- ENXIO, adisconnect (a_set_conn (with_failure SPDK_NVME_QPAIR_FAILURE_OTHER (a_conn A)) A)).

(** The connection is established.  The first queued request is taken off the
    queue, then the queue pair is enabled, which sends the others first. *)
Definition aconnected (k : nat) (A : ast) : ast :=
  let A0 := a_set_conn (with_state NVME_QPAIR_CONNECTED (a_conn A)) A in
  if is_resetting (a_conn A0) then A0
  else match k, a_queued A0 with
  | O, _ | _, [] => A0
  | S k', i :: q =>
      let A1 := acheck (a_set_queued q A0) in
      let '(rc, B) := asend A1 i in
      if rc =? 0 then aresend k' B else a_set_queued (i :: a_queued B) B
  end.

Definition atcp_poll (p : poll) (A : ast) : Z * ast :=
  if negb (p_flushed p) then afail A
  else
    let A1 := fold_left areap (p_cpls p) A in
    if negb (p_read p) then afail A1
    else if bool_decide (state (a_conn A1) = NVME_QPAIR_CONNECTING) then
      if p_connect p =? 0
      then (p_ret p, afinish_aborts (aconnected (Z.to_nat (t_entries E)) A1))
      else if p_connect p =? - EAGAIN then (p_ret p, A1)
      else afail A1
    else (p_ret p, A1).

Definition apoll (p : poll) (A : ast) : Z * ast :=
  let A1 := acheck A in
  let st := state (a_conn A1) in
  if negb (bool_decide (st = NVME_QPAIR_ENABLED)) && negb (bool_decide (st = NVME_QPAIR_CONNECTING))
  then (- ENXIO, A1)
  else
    let '(ret, A2) := atcp_poll p A1 in
    let A3 :=
      if (0 <? ret) && negb (is_resetting (a_conn A2)) then aresend (Z.to_nat ret) A2 else A2 in
    (ret, afinish_aborts A3).

(** The busy wait for a connection; None when it outlasts the given polls. *)
Fixpoint aconnect_wait (polls : list poll) (A : ast) : option (Z * ast) :=
  if negb (bool_decide (state (a_conn A) = NVME_QPAIR_CONNECTING)) then Some (0, A)
  else match polls with
  | [] => None
  | p :: ps =>
      let '(rc, B) := apoll p A in
      if rc <? 0 then Some (rc, B) else aconnect_wait ps B
  end.

Definition areconnect (rc0 : Z) (polls : list poll) (A : ast) : option (Z * ast) :=
  if is_removed (a_conn A) then Some (- ENODEV, A)
  else if is_resetting (a_conn A) then Some (- EAGAIN, A)
  else if negb (bool_decide (state (a_conn A) = NVME_QPAIR_DISCONNECTED)) then Some (0, A)
  else
    let A0 := a_set_conn (with_state NVME_QPAIR_CONNECTING
                (with_failure SPDK_NVME_QPAIR_FAILURE_NONE (a_conn A))) A in
    match (if rc0 =? 0 then aconnect_wait polls A0 else Some (rc0, A0)) with
    | None => None
    | Some (rc, B) =>
        if rc =? 0 then Some (0, B)
        else Some (- EAGAIN, adisconnect
               (a_set_conn (with_failure (transport_failure_reason (a_conn A)) (a_conn B)) B))
    end.

(** The queued requests of the command with callback argument [arg]: the
    unsplit request itself or the children of the split one.  Requests further
    down a tree are not found. *)
Definition of_arg (F : forest) (arg : Z) (i : nat) : bool :=
  existsb (fun x => (x.1 =? arg)
    && (Nat.eqb (root x.2) i
        || let 'Rt _ _ cs := x.2 in existsb (fun c => Nat.eqb (root c) i) cs)) F.

Definition aabort (arg : Z) (A : ast) : ast :=
  a_set_aborting (a_aborting A ++ List.filter (of_arg (a_forest A) arg) (a_queued A))
    (a_set_queued (List.filter (fun i => negb (of_arg (a_forest A) arg i)) (a_queued A)) A).
End Spec.
