(* ===== verification/NvmeQpairRefine.v ===== *)
(** * The queue pair implements its specification

    The operations of [NvmeQpair] on the heap and the pool simulate the
    operations of [NvmeQpairSpec] on the forest, for a transport that accepts a
    request or asks to retry it. *)

From S2P Require Import Prelude NsCmd NsCmdLemmas NvmeQpair NvmeQpairLemmas NvmeQpairSpec.

(** ** The simulation relation *)

(** [fresh]: requests that have never been queued; [kept]: requests taken off
    the queue that may return to it. *)
Record refines (N D : nat) (fresh kept : list nat) (s : qst) (A : ast) : Prop := {
  rf_rep : rep N D s (a_forest A);
  rf_inflight : inflight s = a_inflight A;
  rf_queued : queued_req s = a_queued A;
  rf_aborting : aborting_queued_req s = a_aborting A;
  rf_conn : cn s = a_conn A;
  rf_done : done s = a_done A;
  rf_submits : n_submits s = a_submits A;
  rf_flag : forall j, j ∈ a_queued A -> r_queued <$> reqs s !! j = Some true;
  rf_fresh : forall j, j ∈ fresh -> r_queued <$> reqs s !! j = Some false;
  rf_kept : forall j, j ∈ kept -> r_queued <$> reqs s !! j = Some true }.

(** Every leaf is held by the transport, queued, to be aborted, or in [todo]. *)
Definition placed (todo : list nat) (A : ast) : Prop :=
  fleaves (a_forest A) ≡ₚ a_inflight A ++ a_queued A ++ a_aborting A ++ todo.

(** The states a synchronous fabrics queue pair can be seen in. *)
Record settled (c : conn) : Prop := {
  co_failed : is_failed c = false;
  co_state : state c = NVME_QPAIR_DISCONNECTED \/ state c = NVME_QPAIR_CONNECTING
    \/ state c = NVME_QPAIR_CONNECTED \/ state c = NVME_QPAIR_ENABLED;
  co_reset : transport_failure_reason c <> SPDK_NVME_QPAIR_FAILURE_RESET }.

(** Between two calls, a new connection has not failed. *)
Record conn_ok (c : conn) : Prop := {
  co_settled : settled c;
  co_new : state c = NVME_QPAIR_CONNECTING \/ state c = NVME_QPAIR_CONNECTED ->
    transport_failure_reason c = SPDK_NVME_QPAIR_FAILURE_NONE }.

(** A disconnected queue pair holds nothing. *)
Definition drained (A : ast) : Prop :=
  state (a_conn A) = NVME_QPAIR_DISCONNECTED ->
  a_inflight A = [] /\ a_queued A = [] /\ a_aborting A = [].

(** A synchronous transport that accepts a request or asks to retry it. *)
Class SyncTransport (E : tenv) : Prop := {
  tr_rc : forall n l i, t_submit E n l i = 0 \/ t_submit E n l i = - EAGAIN;
  tr_sync : t_async E = false;
  tr_entries : 0 < t_entries E }.

(** ** Leaves *)

Lemma tleaves_NoDup t : NoDup (tids t) -> NoDup (tleaves t).
Proof.
  induction t as [i st cs IH] using rt_ind'. cbn. rewrite NoDup_cons. intros [_ Hn].
  destruct cs as [|u us]; [apply NoDup_singleton|]. revert Hn IH. generalize (u :: us). clear.
  intros cs. induction cs as [|t cs IHcs]; cbn; [constructor|]. rewrite !NoDup_app.
  intros (H1 & H2 & H3) [Ht Hcs]%Forall_cons. split; [by apply Ht|]. split; [|by apply IHcs].
  intros x Hx%tleaves_tids Hx2. apply (H2 x Hx). apply elem_of_concat_map in Hx2 as (v & Hv & Hx2).
  apply elem_of_concat_map. exists v. split; [done|]. by apply tleaves_tids.
Qed.

Lemma fleaves_fids F l : l ∈ fleaves F -> l ∈ fids F.
Proof.
  unfold fleaves, fids. rewrite !elem_of_concat_map. intros ([a t] & Ht & Hl).
  exists (a, t). split; [done|]. by apply tleaves_tids.
Qed.

Lemma fleaves_NoDup F : NoDup (fids F) -> NoDup (fleaves F).
Proof.
  induction F as [|[a t] F IH]; [constructor|]. unfold fids, fleaves in *. cbn.
  rewrite !NoDup_app. intros (H1 & H2 & H3). split; [by apply tleaves_NoDup|]. split; [|by apply IH].
  intros x Hx%tleaves_tids Hx2. apply (H2 x Hx). by apply fleaves_fids.
Qed.

Section Refine.
Context (N D : nat) (fresh kept : list nat).

Abbreviation R := (refines N D fresh kept).

Lemma placed_NoDup s A todo :
  R s A -> placed todo A -> NoDup (a_inflight A ++ a_queued A ++ a_aborting A ++ todo).
Proof.
  intros HR Hp. rewrite <- Hp. apply fleaves_NoDup. pose proof (rep_NoDup _ _ _ _ (rf_rep _ _ _ _ _ _ HR)) as Hn.
  by apply NoDup_app in Hn as [? _].
Qed.

(** ** Completions *)

Lemma complete_ok s A l c todo :
  R s A -> placed (l :: todo) A ->
  exists s', nvme_complete_request D l c s = Ok (tt, s') /\ R s' (acomplete l c A)
    /\ placed todo (acomplete l c A).
Proof.
  intros [HR ? ? ? ? ? ? Hfl Hfr Hkp] Hp.
  assert (Hl : l ∈ fleaves (a_forest A)) by (rewrite Hp; set_solver).
  destruct (rep_complete N D s _ l c HR Hl) as (s' & Hrun & HR' & [? ? ? ? ? ? ?]).
  pose proof (fcomplete_leaves l c _ Hl) as Hfl'.
  exists s'. split; [done|]. unfold acomplete, placed in *.
  destruct (fcomplete l c (a_forest A)) as [F' o]. cbn in *. split.
  - constructor; cbn; try congruence; intros j Hj; rewrite kp_flag; auto.
  - apply (Permutation_cons_inv (a := l)). rewrite <- Hfl', Hp. solve_Permutation.
Qed.

Lemma acomplete_lists l c A :
  a_inflight (acomplete l c A) = a_inflight A /\ a_queued (acomplete l c A) = a_queued A
  /\ a_aborting (acomplete l c A) = a_aborting A /\ a_conn (acomplete l c A) = a_conn A
  /\ a_submits (acomplete l c A) = a_submits A.
Proof. unfold acomplete. by destruct (fcomplete l c (a_forest A)). Qed.

Lemma acompletes_lists l c A :
  a_inflight (acompletes l c A) = a_inflight A /\ a_queued (acompletes l c A) = a_queued A
  /\ a_aborting (acompletes l c A) = a_aborting A /\ a_conn (acompletes l c A) = a_conn A
  /\ a_submits (acompletes l c A) = a_submits A.
Proof.
  revert A. induction l as [|i l IH]; intros A; [done|].
  change (acompletes (i :: l) c A) with (acompletes l c (acomplete i c A)).
  destruct (IH (acomplete i c A)) as (-> & -> & -> & -> & ->). apply acomplete_lists.
Qed.

(** A list of requests that is in none of the queues is completed. *)
Lemma for_each_complete (f : nat -> M qst unit) c c0 l :
  (forall i s, cn s = c0 -> f i s = nvme_complete_request D i c s) ->
  forall s A todo, R s A -> placed (l ++ todo) A -> a_conn A = c0 ->
  exists s', for_each l f s = Ok (tt, s') /\ R s' (acompletes l c A)
    /\ placed todo (acompletes l c A).
Proof.
  intros Hf. induction l as [|i l IH]; intros s A todo HR Hp Hc; [by exists s|].
  cbn [for_each acompletes fold_left].
  destruct (complete_ok s A i c (l ++ todo) HR Hp) as (s1 & Hrun & HR1 & Hp1).
  erewrite M_bind_ok; [|rewrite Hf; [exact Hrun|by rewrite (rf_conn _ _ _ _ _ _ HR)]].
  apply IH; [done|done|]. by destruct (acomplete_lists i c A) as (_ & _ & _ & -> & _).
Qed.

Lemma set_queued_ok l s A :
  R s A -> (forall j, j ∈ l -> r_queued <$> reqs s !! j = Some true) ->
  R (set_queued l s) (a_set_queued l A).
Proof. intros [[? ? ? ? ? ? ? ?] ? ? ? ? ? ? ? ? ?] Hl. by repeat (constructor; cbn; try done). Qed.

Lemma set_aborting_ok l s A : R s A -> R (set_aborting l s) (a_set_aborting l A).
Proof. intros [[? ? ? ? ? ? ? ?] ? ? ? ? ? ? ? ? ?]. by repeat (constructor; cbn; try done). Qed.

Lemma set_inflight_ok l s A : R s A -> R (set_inflight l s) (a_set_inflight l A).
Proof. intros [[? ? ? ? ? ? ? ?] ? ? ? ? ? ? ? ? ?]. by repeat (constructor; cbn; try done). Qed.

Lemma set_conn_ok c s A : R s A -> R (set_conn c s) (a_set_conn c A).
Proof. intros [[? ? ? ? ? ? ? ?] ? ? ? ? ? ? ? ? ?]. by repeat (constructor; cbn; try done). Qed.

Lemma abort_queued_ok s A todo :
  R s A -> placed todo A ->
  let A' := acompletes (a_queued A) (aborted_sq (abort_dnr (a_conn A))) (a_set_queued [] A) in
  exists s', nvme_qpair_abort_queued_reqs D s = Ok (tt, s') /\ R s' A' /\ placed todo A'.
Proof.
  intros HR Hp A'. unfold nvme_qpair_abort_queued_reqs. mstep. mstep. rewrite (rf_queued _ _ _ _ _ _ HR).
  apply (for_each_complete _ (aborted_sq (abort_dnr (a_conn A))) (a_conn A)).
  - intros i s1 Hs1. mstep. by rewrite Hs1.
  - apply set_queued_ok; [done|]. by intros j ?%not_elem_of_nil.
  - unfold placed in *. cbn. rewrite Hp. solve_Permutation.
  - done.
Qed.

Lemma finish_aborts_ok s A todo :
  R s A -> placed todo A ->
  exists s', _nvme_qpair_complete_abort_queued_reqs D s = Ok (tt, s')
    /\ R s' (afinish_aborts A) /\ placed todo (afinish_aborts A).
Proof.
  intros HR Hp. unfold _nvme_qpair_complete_abort_queued_reqs. mstep. rewrite (rf_aborting _ _ _ _ _ _ HR).
  unfold afinish_aborts. destruct (a_aborting A) as [|i l] eqn:Ea.
  { exists s. assert (a_set_aborting [] A = A) as Hs by (destruct A; cbn in *; by subst).
    cbn. rewrite Hs. done. }
  mstep. apply (for_each_complete _ aborted_by_request (a_conn A)).
  - done.
  - by apply set_aborting_ok.
  - unfold placed in *. cbn. rewrite Hp, Ea. solve_Permutation.
  - done.
Qed.

(** The requests the transport holds are aborted from the oldest on. *)
Lemma tcp_abort_ok dnr s A todo :
  R s A -> placed todo A ->
  let A' := acompletes (a_inflight A) (aborted_sq dnr) (a_set_inflight [] A) in
  exists s', nvme_tcp_qpair_abort_reqs D dnr s = Ok (tt, s') /\ R s' A' /\ placed todo A'.
Proof.
  intros HR Hp A'. unfold nvme_tcp_qpair_abort_reqs. mstep. rewrite (rf_inflight _ _ _ _ _ _ HR). subst A'.
  remember (a_inflight A) as l eqn:El. revert s A HR Hp El.
  induction l as [|i l IH]; intros s A HR Hp El.
  { exists s. assert (a_set_inflight [] A = A) as Hs by (destruct A; cbn in *; by subst).
    cbn. rewrite Hs. done. }
  cbn [for_each acompletes fold_left]. unfold transport_complete.
  assert (Hfil : List.filter (fun j => negb (Nat.eqb j i)) (inflight s) = l).
  { pose proof (placed_NoDup _ _ _ HR Hp) as Hn. rewrite (rf_inflight _ _ _ _ _ _ HR), <- El.
    rewrite <- El in Hn. cbn in Hn. apply NoDup_cons in Hn as [Hn _]. cbn. rewrite Nat.eqb_refl. cbn.
    apply filter_other. set_solver. }
  rewrite M_bind_assoc. mstep. rewrite Hfil.
  destruct (complete_ok (set_inflight l s) (a_set_inflight l A) i (aborted_sq dnr) todo)
    as (s1 & Hrun & HR1 & Hp1).
  { by apply set_inflight_ok. }
  { unfold placed in *. cbn. rewrite Hp, <- El. solve_Permutation. }
  erewrite M_bind_ok by exact Hrun.
  destruct (acomplete_lists i (aborted_sq dnr) (a_set_inflight l A)) as (Hi & _ & _ & _ & _).
  destruct (IH s1 _ HR1 Hp1 (eq_sym Hi)) as (s' & Hr & HR' & Hp').
  exists s'. split; [exact Hr|].
  assert (Hcomm : a_set_inflight [] (acomplete i (aborted_sq dnr) (a_set_inflight l A))
    = acomplete i (aborted_sq dnr) (a_set_inflight [] A)).
  { unfold acomplete. cbn. by destruct (fcomplete _ _ _). }
  rewrite Hcomm in *. done.
Qed.

Lemma abort_all_ok s A todo :
  R s A -> placed todo A ->
  let A2 := acompletes (a_queued A) (aborted_sq (abort_dnr (a_conn A))) (a_set_queued [] A) in
  exists s', nvme_qpair_abort_all_queued_reqs D s = Ok (tt, s') /\ R s' (afinish_aborts A2)
    /\ placed todo (afinish_aborts A2).
Proof.
  intros HR Hp A2. unfold nvme_qpair_abort_all_queued_reqs.
  rewrite (M_bind_ok _ _ s tt s).
  2: { unfold nvme_qpair_complete_error_reqs. mstep. by rewrite (rp_err_req _ _ _ _ (rf_rep _ _ _ _ _ _ HR)). }
  destruct (abort_queued_ok s A todo HR Hp) as (s1 & Hr1 & HR1 & Hp1).
  erewrite M_bind_ok by exact Hr1. by apply finish_aborts_ok.
Qed.

Lemma afinish_lists A :
  a_inflight (afinish_aborts A) = a_inflight A /\ a_queued (afinish_aborts A) = a_queued A
  /\ a_aborting (afinish_aborts A) = [] /\ a_conn (afinish_aborts A) = a_conn A
  /\ a_submits (afinish_aborts A) = a_submits A.
Proof.
  unfold afinish_aborts.
  by destruct (acompletes_lists (a_aborting A) aborted_by_request (a_set_aborting [] A))
    as (-> & -> & -> & -> & ->).
Qed.

(** What a disconnected queue pair looks like. *)
Lemma adisconnect_ok A :
  settled (a_conn A) -> drained A ->
  conn_ok (a_conn (adisconnect A)) /\ drained (adisconnect A)
  /\ state (a_conn (adisconnect A)) = NVME_QPAIR_DISCONNECTED
  /\ a_submits (adisconnect A) = a_submits A.
Proof.
  intros Hc Hd. unfold adisconnect.
  destruct (bool_decide_reflect (state (a_conn A) = NVME_QPAIR_DISCONNECTED)) as [Hs|Hs].
  { split; [|done]. split; [done|]. naive_solver congruence. }
  set (A1 := acompletes (a_inflight A) _ _). set (A2 := acompletes (a_queued A) _ _).
  destruct (acompletes_lists (a_inflight A) (aborted_sq 0)
    (a_set_inflight [] (a_set_conn (with_state NVME_QPAIR_DISCONNECTING (a_conn A)) A)))
    as (Hi1 & _ & _ & Hc1 & Hn1). fold A1 in Hi1, Hc1, Hn1.
  destruct (acompletes_lists (a_queued A) (aborted_sq (abort_dnr (a_conn A))) (a_set_queued [] A1))
    as (Hi2 & Hq2 & _ & Hc2 & Hn2). fold A2 in Hi2, Hq2, Hc2, Hn2.
  destruct (afinish_lists A2) as (Hi & Hq & Ha & Hcn & Hn). cbn in *.
  rewrite Hcn, Hc2, Hc1. cbn. split; [|split; [|split; [done|congruence]]].
  - destruct Hc as [? ? ?]. constructor; [constructor; cbn; [done|by left|done]|by intros [?|?]].
  - intros _. cbn. rewrite Hi, Hi2, Hi1, Hq, Hq2. done.
Qed.

(** ** Leaves on the heap *)

(** An update of a field the trees do not depend on. *)
Record similar (x y : nvme_request) : Prop := {
  sm_parent : r_parent y = r_parent x;
  sm_fn : r_fn y = r_fn x;
  sm_children : r_children y = r_children x;
  sm_status : parent_status y = parent_status x;
  sm_accel : accel_sequence y = accel_sequence x;
  sm_opc : r_opc y = r_opc x }.

Lemma touch_ok i f s A x :
  R s A -> reqs s !! i = Some x -> similar x (f x) ->
  (i ∈ a_queued A -> r_queued (f x) = true) -> (i ∈ fresh -> r_queued (f x) = false) ->
  (i ∈ kept -> r_queued (f x) = true) ->
  R (set_reqs <[i := f x]> s) A.
Proof.
  intros [[Hh ? ? ? Hfree ? ? ?] ? ? ? ? ? ? Hfl Hfr Hkp] Hx [? ? ? ? ? ?] Hq Hf Hk.
  assert (Hlk : forall j y, reqs s !! j = Some y ->
    exists y', <[i := f x]> (reqs s) !! j = Some y' /\ similar y y').
  { intros j y Hy. destruct (decide (j = i)) as [->|Hj].
    - rewrite lookup_insert_eq. eexists. split; [done|]. assert (x = y) as <- by congruence. done.
    - rewrite lookup_insert_ne by done. exists y. by split. }
  assert (Hfg : forall j b, r_queued <$> reqs s !! j = Some b -> (j = i -> r_queued (f x) = b) ->
    r_queued <$> <[i := f x]> (reqs s) !! j = Some b).
  { intros j b Hb Hji. destruct (decide (j = i)) as [->|]; [|by rewrite lookup_insert_ne].
    rewrite lookup_insert_eq. cbn. f_equal. by apply Hji. }
  constructor; try done; cbn.
  - constructor; try done; cbn.
    + eapply Forall_impl; [exact Hh|]. intros n [y [Hat ? ? ? Hst ? ?]].
      destruct (Hlk _ _ Hat) as (y' & Hy' & [? ? ? Hst' ? ?]). exists y'.
      constructor; try congruence. intros Hc. by rewrite Hst', Hst.
    + intros j Hj. destruct (Hfree j Hj) as (y & Hy & Hp).
      destruct (Hlk _ _ Hy) as (y' & Hy' & [? ? ? ? ? ?]). exists y'. split; [done|congruence].
  - intros j Hj. apply Hfg; [auto|by intros ->; auto].
  - intros j Hj. apply Hfg; [auto|by intros ->; auto].
  - intros j Hj. apply Hfg; [auto|by intros ->; auto].
Qed.

(** A leaf on the heap. *)
Record leaf_at (s : qst) (i : nat) (x : nvme_request) : Prop := {
  la_at : reqs s !! i = Some x;
  la_children : r_children x = [];
  la_opc : r_opc x <> SPDK_NVME_OPC_FABRIC }.

Lemma holds_concat {T} h (f : T -> list node) l :
  holds h (concat (map f l)) <-> Forall (fun a => holds h (f a)) l.
Proof.
  induction l as [|a l IH]; cbn; [split; constructor|]. by rewrite holds_app, Forall_cons, IH.
Qed.

Lemma flat_leaf h t : forall par fn l, holds h (flat par fn t) -> l ∈ tleaves t ->
  exists n, holds_node h n /\ n_id n = l /\ n_children n = [].
Proof.
  induction t as [i st cs IH] using rt_ind'. intros par fn l Hh Hl. rewrite flat_eq in Hh.
  apply Forall_cons in Hh as [Hn Hh]. cbn [tleaves] in Hl. destruct cs as [|u us].
  { apply list_elem_of_singleton in Hl as ->. by eexists. }
  apply elem_of_concat_map in Hl as (t & Ht & Hl). rewrite Forall_forall in IH.
  apply (IH t Ht (Some i) CbCompleteChild l); [|done].
  apply holds_concat in Hh. rewrite Forall_forall in Hh. by apply Hh.
Qed.

Lemma leaf_ok s A i todo : R s A -> placed (i :: todo) A -> exists x, leaf_at s i x.
Proof.
  intros HR Hp. assert (Hi : i ∈ fleaves (a_forest A)) by (rewrite Hp; set_solver).
  pose proof (rp_holds _ _ _ _ (rf_rep _ _ _ _ _ _ HR)) as Hh. unfold fflat in Hh.
  apply holds_concat in Hh. apply elem_of_concat_map in Hi as ([a t] & Ht & Hi).
  rewrite Forall_forall in Hh. destruct (flat_leaf _ _ _ _ _ (Hh _ Ht) Hi) as (n & [x Hx] & <- & Hn).
  exists x. constructor; try apply Hx. rewrite (has_children _ _ _ Hx). done.
Qed.

Lemma bump_ticks_ok s A : R s A -> R (bump_ticks s) A.
Proof. intros [[? ? ? ? ? ? ? ?] ? ? ? ? ? ? ? ? ?]. by repeat (constructor; cbn; try done). Qed.

(** The step changed no flag. *)
Definition same_flags (s s' : qst) : Prop :=
  forall j, r_queued <$> reqs s' !! j = r_queued <$> reqs s !! j.

Lemma placed_fresh s A i todo : R s A -> placed (i :: todo) A -> i ∉ a_queued A.
Proof.
  intros HR Hp Hi. pose proof (placed_NoDup _ _ _ HR Hp) as Hn.
  apply NoDup_app in Hn as (_ & _ & Hn). apply NoDup_app in Hn as (_ & Hn & _).
  apply (Hn i Hi). set_solver.
Qed.

Context (E : tenv) {HE : SyncTransport E}.

(** The requests kept aside are not among those being submitted. *)
Definition aside (todo : list nat) : Prop := forall j, j ∈ kept -> j ∈ todo.

Lemma aside_not s A i todo : R s A -> placed (i :: todo) A -> aside todo -> i ∉ kept.
Proof.
  intros HR Hp Ha Hi. pose proof (placed_NoDup _ _ _ HR Hp) as Hn. rewrite !NoDup_app in Hn.
  destruct Hn as (_ & _ & _ & _ & _ & _ & [Hn _]%NoDup_cons). by apply Hn, Ha.
Qed.

(** ** Disconnection *)

Lemma disconnect_ok s A todo :
  R s A -> placed todo A -> settled (a_conn A) -> drained A ->
  exists s', nvme_transport_ctrlr_disconnect_qpair E D s = Ok (tt, s') /\ R s' (adisconnect A)
    /\ placed todo (adisconnect A).
Proof.
  intros HR Hp Hc Hd. unfold nvme_transport_ctrlr_disconnect_qpair, nvme_qpair_get_state, adisconnect.
  mstep. rewrite (rf_conn _ _ _ _ _ _ HR).
  destruct (bool_decide_reflect (state (a_conn A) = NVME_QPAIR_DISCONNECTED)) as [Hs|Hs].
  { rewrite orb_true_r. by exists s. }
  rewrite bool_decide_false by (destruct Hc as [_ [? |[? |[? |? ]]] _]; congruence). cbn [orb].
  unfold nvme_qpair_set_state. mstep. unfold nvme_tcp_ctrlr_disconnect_qpair. rewrite (rf_conn _ _ _ _ _ _ HR).
  set (c1 := with_state NVME_QPAIR_DISCONNECTING (a_conn A)).
  destruct (tcp_abort_ok 0 (set_conn c1 s) (a_set_conn c1 A) todo) as (s1 & Hr1 & HR1 & Hp1);
    [by apply set_conn_ok|done|]. cbn [a_inflight a_set_conn] in HR1, Hp1.
  erewrite M_bind_ok by exact Hr1. rewrite tr_sync.
  set (A1 := acompletes _ _ (a_set_inflight [] _)) in *.
  destruct (acompletes_lists (a_inflight A) (aborted_sq 0) (a_set_inflight [] (a_set_conn c1 A)))
    as (Hi & Hq & _ & Hcn & _). fold A1 in Hi, Hq, Hcn. cbn in Hi, Hq, Hcn.
  mstep. rewrite (rf_inflight _ _ _ _ _ _ HR1), Hi, bool_decide_true by done. mstep.
  unfold nvme_transport_ctrlr_disconnect_qpair_done.
  destruct (abort_all_ok s1 A1 todo HR1 Hp1) as (s2 & Hr2 & HR2 & Hp2).
  erewrite M_bind_ok by exact Hr2. rewrite Hq, Hcn in *. eexists. split; [reflexivity|].
  rewrite (rf_conn _ _ _ _ _ _ HR2). split; [by apply set_conn_ok|done].
Qed.
(** ** Submission of a leaf *)

Lemma assign_tick_ok s A i x :
  R s A -> leaf_at s i x ->
  exists s' x', assign_tick E i s = Ok (tt, s') /\ R s' A /\ leaf_at s' i x' /\ same_flags s s'.
Proof.
  intros HR [Hx Hc Ho]. unfold assign_tick. erewrite M_bind_ok by by apply load_ok. mstep.
  assert (Hgo : forall s1 tick, R s1 A -> reqs s1 = reqs s -> exists s' x',
    upd i (with_ticks (timeout_tsc x) tick) s1 = Ok (tt, s') /\ R s' A /\ leaf_at s' i x'
    /\ same_flags s s').
  { intros s1 tick HR1 Hs1. eexists _, (with_ticks (timeout_tsc x) tick x).
    split; [by apply upd_ok; rewrite Hs1|]. split.
    - apply touch_ok; [done|by rewrite Hs1|done|intros Hi..].
      + pose proof (rf_flag _ _ _ _ _ _ HR i Hi) as Hf. rewrite Hx in Hf. by injection Hf.
      + pose proof (rf_fresh _ _ _ _ _ _ HR i Hi) as Hf. rewrite Hx in Hf. by injection Hf.
      + pose proof (rf_kept _ _ _ _ _ _ HR i Hi) as Hf. rewrite Hx in Hf. by injection Hf.
    - split; [constructor; cbn; [by rewrite lookup_insert_eq|done..]|].
      intros j. cbn. rewrite Hs1. destruct (decide (j = i)) as [->|].
      + by rewrite lookup_insert_eq, Hx.
      + by rewrite lookup_insert_ne. }
  destruct (timeout_enabled (cn s)); [|by apply Hgo].
  destruct (submit_tick x =? 0); [|by exists s, x].
  unfold spdk_get_ticks. rewrite M_bind_assoc. mstep. rewrite M_bind_assoc. mstep. mstep.
  apply Hgo; [by apply bump_ticks_ok|done].
Qed.
Lemma transport_submit_ok s A i :
  R s A -> state (a_conn A) = NVME_QPAIR_ENABLED ->
  exists s', nvme_transport_qpair_submit_request E i s = Ok ((asend E A i).1, s')
    /\ R s' (asend E A i).2 /\ reqs s' = reqs s.
Proof.
  intros HR Hen. unfold nvme_transport_qpair_submit_request, asend.
  rewrite bool_decide_true by done. mstep. mstep. cbn [fst snd].
  rewrite (rf_submits _ _ _ _ _ _ HR), (rf_inflight _ _ _ _ _ _ HR). eexists. split; [reflexivity|].
  destruct HR as [[? ? ? ? ? ? ? ?] ? ? ? ? ? ? ? ? ?].
  destruct (t_submit _ _ _ _ =? 0); (split; [|done]); repeat (constructor; cbn; try congruence; try done).
Qed.

Lemma asend_rc A i : (asend E A i).1 = 0 \/ (asend E A i).1 = - EAGAIN.
Proof. unfold asend. case_bool_decide; [apply tr_rc|by right]. Qed.

Lemma asend_lists A i :
  a_forest (asend E A i).2 = a_forest A /\ a_queued (asend E A i).2 = a_queued A
  /\ a_aborting (asend E A i).2 = a_aborting A /\ a_conn (asend E A i).2 = a_conn A
  /\ a_inflight (asend E A i).2
     = if (asend E A i).1 =? 0 then a_inflight A ++ [i] else a_inflight A.
Proof. unfold asend. by case_bool_decide. Qed.

Lemma asend_placed A i todo :
  placed (i :: todo) A ->
  placed (if (asend E A i).1 =? 0 then todo else i :: todo) (asend E A i).2.
Proof.
  unfold placed. destruct (asend_lists A i) as (-> & -> & -> & _ & ->). intros ->.
  destruct (_ =? 0); [solve_Permutation|done].
Qed.

Lemma submit_leaf_ok s A i todo :
  R s A -> placed (i :: todo) A -> is_failed (a_conn A) = false -> aside todo ->
  exists s', submit_leaf E D i s = Ok ((asend E A i).1, s') /\ R s' (asend E A i).2
    /\ ((asend E A i).1 <> 0 -> same_flags s s').
Proof.
  intros HR Hp Hf Hk. destruct (leaf_ok _ _ _ _ HR Hp) as [x [Hx Hc Ho]]. unfold submit_leaf.
  erewrite M_bind_ok by by apply load_ok. mstep.
  rewrite (rp_err_cmd _ _ _ _ (rf_rep _ _ _ _ _ _ HR)). cbn [withhold].
  rewrite (rf_conn _ _ _ _ _ _ HR), Hf.
  destruct (assign_tick_ok s A i x HR ltac:(by constructor)) as (s1 & x1 & Hr1 & HR1 & Hx1 & Hfl).
  erewrite M_bind_ok by exact Hr1. unfold nvme_qpair_get_state. mstep.
  rewrite (rf_conn _ _ _ _ _ _ HR1), (proj2 (Z.eqb_neq _ _) Ho). cbn [andb]. rewrite orb_false_r.
  destruct (bool_decide_reflect (state (a_conn A) = NVME_QPAIR_ENABLED)) as [Hen|Hen].
  2: { unfold asend. rewrite bool_decide_false by done. by exists s1. }
  destruct (transport_submit_ok s1 A i HR1 Hen) as (s2 & Hr2 & HR2 & Hq2).
  erewrite M_bind_ok by exact Hr2. destruct (asend_rc A i) as [Hrc|Hrc]; rewrite Hrc; cbn [Z.eqb].
  - destruct Hx1 as [Hx1 Hc1 Ho1].
    erewrite M_bind_ok by (apply upd_ok; rewrite Hq2; exact Hx1). eexists. split; [reflexivity|].
    split; [|done]. apply touch_ok; [done|by rewrite Hq2|done| |done|].
    2: { intros Hi. by destruct (aside_not _ _ _ _ HR Hp Hk). }
    destruct (asend_lists A i) as (_ & -> & _). intros Hi. by apply placed_fresh with (todo := todo) (s := s) in Hi.
  - exists s2. split; [done|]. split; [done|]. intros _ j. by rewrite Hq2.
Qed.
(** ** Resubmission of the queue *)

(** nvme_qpair_check_enabled has nothing to do. *)
Record stable (c : conn) : Prop := {
  sb_connected : state c = NVME_QPAIR_CONNECTED -> is_resetting c = true;
  sb_failure : state c = NVME_QPAIR_ENABLED ->
    transport_failure_reason c = SPDK_NVME_QPAIR_FAILURE_NONE }.

(** The queue pair takes requests. *)
Record live (c : conn) : Prop := {
  lv_ok : conn_ok c;
  lv_stable : stable c;
  lv_state : state c <> NVME_QPAIR_DISCONNECTED }.

Lemma check_stable submit_ s :
  stable (cn s) ->
  nvme_qpair_check_enabled E D submit_ s = Ok (bool_decide (state (cn s) = NVME_QPAIR_ENABLED), s).
Proof.
  intros [H1 H2]. unfold nvme_qpair_check_enabled. mstep.
  rewrite (M_bind_ok _ _ s tt s).
  2: { case_bool_decide as Hc; [|done]. by rewrite H1. }
  mstep. case_bool_decide as Hf; [done|]. cbn [negb andb]. by case_bool_decide; [naive_solver|].
Qed.

Lemma live_running c :
  live c -> bool_decide (state c = NVME_QPAIR_DISCONNECTED)
    || bool_decide (state c = NVME_QPAIR_DISCONNECTING)
    || bool_decide (state c = NVME_QPAIR_DESTROYING) = false.
Proof.
  intros [[[_ Hs _] _] _ Hd]. rewrite !bool_decide_false; [done|..]; naive_solver congruence.
Qed.

Lemma body_leaf_ok submit_ s A i todo :
  R s A -> placed (i :: todo) A -> live (a_conn A) -> aside todo ->
  exists s', submit_body E D submit_ i s = Ok ((asend E A i).1, s') /\ R s' (asend E A i).2
    /\ ((asend E A i).1 <> 0 -> same_flags s s').
Proof.
  intros HR Hp Hl Hk. unfold submit_body. rewrite <- (rf_conn _ _ _ _ _ _ HR) in Hl.
  erewrite M_bind_ok by apply check_stable, Hl. unfold nvme_qpair_get_state. mstep.
  destruct (leaf_ok _ _ _ _ HR Hp) as [x [Hx Hc Ho]].
  erewrite M_bind_ok by by apply load_ok. rewrite live_running by done. rewrite Hc.
  apply (submit_leaf_ok _ _ _ todo); [done|done| |done]. rewrite <- (rf_conn _ _ _ _ _ _ HR). apply Hl.
Qed.

Lemma resubmit_ok d s A i q todo :
  R s A -> placed todo A -> live (a_conn A) -> aside todo -> a_queued A = i :: q ->
  let rc := (asend E (a_set_queued q A) i).1 in
  let B := (asend E (a_set_queued q A) i).2 in
  let A' := if rc =? 0 then B else a_set_queued (i :: q) B in
  exists s', nvme_qpair_resubmit_request (_nvme_qpair_submit_request E D (S d)) i (set_queued q s)
      = Ok (rc, s') /\ R s' A' /\ placed todo A'.
Proof.
  intros HR Hp Hl Hk Hq rc B A'.
  assert (Hfl : forall j, j ∈ i :: q -> r_queued <$> reqs s !! j = Some true)
    by (rewrite <- Hq; apply HR).
  assert (HR1 : R (set_queued q s) (a_set_queued q A)).
  { apply set_queued_ok; [done|]. intros j Hj. apply Hfl. by right. }
  assert (Hp1 : placed (i :: todo) (a_set_queued q A)).
  { unfold placed in *. rewrite Hp, Hq. cbn. solve_Permutation. }
  destruct (leaf_ok _ _ _ _ HR1 Hp1) as [x [Hx Hc Ho]].
  pose proof (Hfl i ltac:(left)) as Hqi. cbn in Hx. rewrite Hx in Hqi. injection Hqi as Hqi.
  unfold nvme_qpair_resubmit_request. erewrite M_bind_ok by by apply load_ok.
  rewrite bool_decide_true, Hqi by done. mstep. mstep. cbn [_nvme_qpair_submit_request].
  destruct (body_leaf_ok (_nvme_qpair_submit_request E D d) _ _ _ _ HR1 Hp1 Hl Hk) as (s2 & Hr2 & HR2 & Hf2).
  erewrite M_bind_ok by exact Hr2. pose proof (asend_placed _ _ _ Hp1) as Hp2.
  fold rc B in Hf2, HR2, Hp2 |- *. subst A'.
  destruct (asend_rc (a_set_queued q A) i) as [Hrc|Hrc]; fold rc in Hrc; rewrite Hrc in *; cbn [Z.eqb] in *.
  - by exists s2.
  - eexists. split; [reflexivity|].
    destruct (asend_lists (a_set_queued q A) i) as (_ & HqB & _). fold B in HqB.
    rewrite (rf_queued _ _ _ _ _ _ HR2), HqB. split.
    + apply set_queued_ok; [done|]. intros j Hj. rewrite Hf2 by done. by apply Hfl.
    + unfold placed in *. rewrite Hp2, HqB. cbn. solve_Permutation.
Qed.

Lemma aresend_conn k A : a_conn (aresend E k A) = a_conn A /\ a_aborting (aresend E k A) = a_aborting A.
Proof.
  revert A. induction k as [|k IH]; intros A; [done|]. cbn.
  destruct (a_queued A) as [|i q]; [done|].
  destruct (asend_lists (a_set_queued q A) i) as (_ & _ & Ha & Hc & _).
  destruct (asend E _ i) as [rc B]. cbn in Ha, Hc. destruct (rc =? 0); [|done].
  destruct (IH B) as [-> ->]. done.
Qed.

Lemma aresend_cons k A i q :
  a_queued A = i :: q ->
  aresend E (S k) A = if (asend E (a_set_queued q A) i).1 =? 0
                      then aresend E k (asend E (a_set_queued q A) i).2
                      else a_set_queued (i :: q) (asend E (a_set_queued q A) i).2.
Proof. intros Hq. cbn. rewrite Hq. by destruct (asend E _ i). Qed.

Lemma aresend_nil k A : a_queued A = [] -> aresend E k A = A.
Proof. intros Hq. destruct k; cbn; [done|]. by rewrite Hq. Qed.

Lemma drain_ok d k s A todo :
  R s A -> placed todo A -> live (a_conn A) -> aside todo -> (length (a_queued A) <= k)%nat ->
  exists s', drain_queued (_nvme_qpair_submit_request E D (S d)) k s = Ok (tt, s')
    /\ R s' (aresend E k A) /\ placed todo (aresend E k A).
Proof.
  revert s A. induction k as [|k IH]; intros s A HR Hp Hl Has Hk.
  { destruct (a_queued A) eqn:Hq; [|cbn in Hk; lia]. cbn [drain_queued]. mstep.
    rewrite (rf_queued _ _ _ _ _ _ HR), Hq. by exists s. }
  cbn [drain_queued]. mstep. rewrite (rf_queued _ _ _ _ _ _ HR).
  destruct (a_queued A) as [|i q] eqn:Hq.
  { rewrite aresend_nil by done. by exists s. }
  mstep. destruct (resubmit_ok d s A i q todo HR Hp Hl Has Hq) as (s1 & Hr1 & HR1 & Hp1).
  erewrite M_bind_ok by exact Hr1. rewrite (aresend_cons _ _ _ _ Hq).
  destruct (asend_lists (a_set_queued q A) i) as (_ & Hq1 & _ & Hc1 & _).
  destruct (_ =? 0); [|by exists s1].
  apply IH; [done|done|by rewrite Hc1|done|]. rewrite Hq1. cbn in *. lia.
Qed.

Lemma resubmit_loop_ok d k s A todo :
  R s A -> placed todo A -> live (a_conn A) -> aside todo -> is_resetting (a_conn A) = false ->
  exists s', resubmit_loop E D (S d) k s = Ok (tt, s')
    /\ R s' (aresend E k A) /\ placed todo (aresend E k A).
Proof.
  revert s A. induction k as [|k IH]; intros s A HR Hp Hl Has Hrs; [by exists s|].
  cbn [resubmit_loop]. mstep. rewrite (rf_conn _ _ _ _ _ _ HR), Hrs, (rf_queued _ _ _ _ _ _ HR).
  destruct (a_queued A) as [|i q] eqn:Hq.
  { rewrite aresend_nil by done. by exists s. }
  mstep. destruct (resubmit_ok d s A i q todo HR Hp Hl Has Hq) as (s1 & Hr1 & HR1 & Hp1).
  erewrite M_bind_ok by exact Hr1. rewrite (aresend_cons _ _ _ _ Hq).
  destruct (asend_lists (a_set_queued q A) i) as (_ & Hq1 & _ & Hc1 & _).
  destruct (_ =? 0); [|by exists s1]. apply IH; [done|done|by rewrite Hc1|done|by rewrite Hc1].
Qed.
(** ** nvme_qpair_check_enabled *)

(** What holds of the connection between two calls. *)
Record calm (A : ast) : Prop := {
  cm_conn : conn_ok (a_conn A);
  cm_drained : drained A }.

(** The first half of nvme_qpair_check_enabled. *)
Definition aenable (A : ast) : ast :=
  if bool_decide (state (a_conn A) = NVME_QPAIR_CONNECTED) && negb (is_resetting (a_conn A))
  then aresend E (length (a_queued A))
         (a_set_conn (with_state NVME_QPAIR_ENABLED (with_state NVME_QPAIR_ENABLING (a_conn A))) A)
  else A.

Lemma aenable_ok A :
  calm A -> calm (aenable A)
  /\ (state (a_conn (aenable A)) = NVME_QPAIR_CONNECTED -> is_resetting (a_conn (aenable A)) = true).
Proof.
  intros [[[Hf Hs Hr] Hn] Hd]. unfold aenable.
  case_bool_decide as Hc; cbn [andb]; [|done].
  destruct (is_resetting (a_conn A)) eqn:Hrs; cbn [negb]; [done|].
  split; [split|]; unfold drained; rewrite (proj1 (aresend_conn _ _)); cbn; [|done..].
  constructor; [constructor; cbn; auto|cbn; auto].
Qed.

Lemma acheck_eq A :
  acheck E A = if negb (bool_decide (transport_failure_reason (a_conn (aenable A))
                                     = SPDK_NVME_QPAIR_FAILURE_NONE))
                  && bool_decide (state (a_conn (aenable A)) = NVME_QPAIR_ENABLED)
               then adisconnect (aenable A) else aenable A.
Proof. done. Qed.

Lemma acheck_calm A : calm A -> calm (acheck E A) /\ stable (a_conn (acheck E A)).
Proof.
  intros HA. apply aenable_ok in HA as [[Hc Hd] Hs]. rewrite acheck_eq.
  case_bool_decide as Hf; cbn [negb andb]; [done|].
  case_bool_decide as He; [|done].
  destruct (adisconnect_ok _ (co_settled _ Hc) Hd) as (Hc' & Hd' & Hs' & _). split; [done|].
  by constructor; rewrite Hs'.
Qed.

Lemma enable_ok d s A todo :
  R s A -> placed todo A -> calm A -> aside todo ->
  exists s', (if bool_decide (state (cn s) = NVME_QPAIR_CONNECTED) && negb (is_resetting (cn s)) then
         _ ← nvme_qpair_set_state NVME_QPAIR_ENABLING;
         _ ← nvme_qpair_set_state NVME_QPAIR_ENABLED;
         drain_queued (_nvme_qpair_submit_request E D (S d)) (length (queued_req s))
       else mret tt) s = Ok (tt, s') /\ R s' (aenable A) /\ placed todo (aenable A).
Proof.
  intros HR Hp [[[Hf Hs Hr] Hn] Hd] Has. rewrite (rf_conn _ _ _ _ _ _ HR). unfold aenable.
  case_bool_decide as Hc; cbn [andb]; [|by exists s].
  destruct (is_resetting (a_conn A)) eqn:Hrs; cbn [negb]; [by exists s|].
  unfold nvme_qpair_set_state. mstep. mstep. rewrite (rf_queued _ _ _ _ _ _ HR).
  rewrite (rf_conn _ _ _ _ _ _ HR). apply (drain_ok d); [|done| |done|done].
  - by apply (set_conn_ok (with_state NVME_QPAIR_ENABLED
      (with_state NVME_QPAIR_ENABLING (a_conn A))) s A).
  - split; [split| |]; try split; cbn; auto; done.
Qed.

Lemma check_ok d s A todo :
  R s A -> placed todo A -> calm A -> aside todo ->
  exists s', nvme_qpair_check_enabled E D (_nvme_qpair_submit_request E D (S d)) s
      = Ok (bool_decide (state (a_conn (acheck E A)) = NVME_QPAIR_ENABLED), s')
    /\ R s' (acheck E A) /\ placed todo (acheck E A).
Proof.
  intros HR Hp HA Has. unfold nvme_qpair_check_enabled. mstep.
  destruct (enable_ok d s A todo HR Hp HA Has) as (s1 & Hr1 & HR1 & Hp1).
  erewrite M_bind_ok by exact Hr1. mstep. apply aenable_ok in HA as [[Hc Hd] _]. rewrite acheck_eq.
  rewrite (rf_conn _ _ _ _ _ _ HR1).
  destruct (negb _ && _) eqn:Hb; [|by exists s1].
  destruct (disconnect_ok s1 _ todo HR1 Hp1 (co_settled _ Hc) Hd) as (s2 & Hr2 & HR2 & Hp2).
  erewrite M_bind_ok by exact Hr2. mstep. rewrite (rf_conn _ _ _ _ _ _ HR2).
  destruct (adisconnect_ok _ (co_settled _ Hc) Hd) as (Hc' & Hd' & Hs' & _).
  rewrite bool_decide_false by apply Hc'. mstep. exists s2. by rewrite Hs'.
Qed.
End Refine.
