(* ===== verification/NvmeQpairCommands.v ===== *)
(** * Commands on a queue pair

    Submission of a whole request tree, of a new command, the reaping of
    completions, and the abort of queued requests: each call of the driver
    simulates the step of [NvmeQpairSpec]. *)

From S2P Require Import Prelude NsCmd NsCmdLemmas NvmeQpair NvmeQpairLemmas NvmeQpairSpec NvmeQpairRefine.

Section Commands.
Context (E : tenv) {HE : SyncTransport E} (N D : nat).

Abbreviation R := (refines N D [] []).

Lemma aside_nil todo : aside [] todo.
Proof. by intros j ?%not_elem_of_nil. Qed.

(** ** Submission of a tree *)

Lemma queue_tail_ok s A i todo :
  R s A -> placed (i :: todo) A ->
  exists s', queue_tail i s = Ok (tt, s') /\ R s' (a_set_queued (a_queued A ++ [i]) A)
    /\ placed todo (a_set_queued (a_queued A ++ [i]) A).
Proof.
  intros HR Hp. destruct (leaf_ok _ _ _ _ _ _ _ _ HR Hp) as [x [Hx _ _]]. unfold queue_tail. mstep.
  eexists. split; [by apply upd_ok|]. split; [|unfold placed in *; rewrite Hp; cbn; solve_Permutation].
  rewrite (rf_queued _ _ _ _ _ _ HR).
  assert (HR1 : R (set_reqs <[i := with_queued true x]> s) A)
    by (apply (touch_ok _ _ _ _ i (with_queued true)); try done; by intros ?%not_elem_of_nil).
  apply (set_queued_ok N D [] [] (a_queued A ++ [i]) (set_reqs <[i := with_queued true x]> s) A HR1).
  intros j [Hj| ->%list_elem_of_singleton]%elem_of_app; [by apply HR1|].
  cbn. by rewrite lookup_insert_eq.
Qed.

Lemma asubmit_leaf_keeps A i :
  a_forest (asubmit_leaf E A i) = a_forest A /\ a_conn (asubmit_leaf E A i) = a_conn A
  /\ a_aborting (asubmit_leaf E A i) = a_aborting A.
Proof.
  unfold asubmit_leaf. case_bool_decide; [|done].
  destruct (asend_lists E A i) as (H1 & _ & H2 & H3 & _). destruct (asend E A i) as [rc B].
  cbn in *. by destruct (rc =? 0).
Qed.

Lemma asubmit_leaves_keeps l A :
  a_forest (fold_left (asubmit_leaf E) l A) = a_forest A
  /\ a_conn (fold_left (asubmit_leaf E) l A) = a_conn A
  /\ a_aborting (fold_left (asubmit_leaf E) l A) = a_aborting A.
Proof.
  revert A. induction l as [|i l IH]; intros A; [done|]. cbn.
  destruct (IH (asubmit_leaf E A i)) as (-> & -> & ->). apply asubmit_leaf_keeps.
Qed.

Lemma submit_leaf_request d s A i todo :
  R s A -> placed (i :: todo) A -> live (a_conn A) -> (1 <= d)%nat ->
  exists s', nvme_qpair_submit_request (_nvme_qpair_submit_request E D d) i s = Ok (0, s')
    /\ R s' (asubmit_leaf E A i) /\ placed todo (asubmit_leaf E A i).
Proof.
  intros HR Hp Hl Hd. destruct d as [|d]; [lia|].
  destruct (leaf_ok _ _ _ _ _ _ _ _ HR Hp) as [x [Hx Hc Ho]].
  unfold nvme_qpair_submit_request, asubmit_leaf. mstep. erewrite M_bind_ok by by apply load_ok.
  rewrite (rf_queued _ _ _ _ _ _ HR), (bool_decide_true (r_children x = [])) by done.
  rewrite (proj2 (Z.eqb_neq _ _) Ho). cbn [negb orb]. rewrite !andb_true_r.
  destruct (bool_decide_reflect (a_queued A = [])) as [Hq|Hq]; cbn [negb].
  - cbn [_nvme_qpair_submit_request].
    destruct (body_leaf_ok N D [] [] E (_nvme_qpair_submit_request E D d) s A i todo HR Hp Hl (aside_nil _))
      as (s1 & Hr1 & HR1 & _). erewrite M_bind_ok by exact Hr1.
    pose proof (asend_placed E _ _ _ Hp) as Hp1. destruct (asend_lists E A i) as (_ & Hq1 & _).
    pose proof (asend_rc E A i) as Hrc. destruct (asend E A i) as [rc B]. cbn in *.
    destruct Hrc as [-> | ->]; cbn [Z.eqb] in *; [by exists s1|].
    destruct (queue_tail_ok s1 B i todo HR1 Hp1) as (s2 & Hr2 & HR2 & Hp2).
    rewrite Hq1, Hq in *. exists s2. rewrite Z.eqb_refl. by erewrite M_bind_ok by exact Hr2.
  - destruct (queue_tail_ok s A i todo HR Hp) as (s2 & Hr2 & HR2 & Hp2).
    erewrite M_bind_ok by exact Hr2. by exists s2.
Qed.

(** The tree is part of the forest. *)
Definition within (par : option nat) (fn : req_cb) (u : rt) (A : ast) : Prop :=
  forall n, n ∈ flat par fn u -> n ∈ fflat (a_forest A).

Lemma within_node par fn i st cs s A :
  R s A -> within par fn (Rt i st cs) A ->
  exists x, has (reqs s) (Nd i par fn (map root cs) st) x.
Proof.
  intros HR Hw. pose proof (rp_holds _ _ _ _ (rf_rep _ _ _ _ _ _ HR)) as Hh.
  unfold holds in Hh. rewrite Forall_forall in Hh. apply Hh, Hw. rewrite flat_eq. left.
Qed.

Lemma within_child par fn i st cs t A :
  within par fn (Rt i st cs) A -> t ∈ cs -> within (Some i) CbCompleteChild t A.
Proof.
  intros Hw Ht n Hn. apply Hw. rewrite flat_eq. right. apply elem_of_concat_map. by exists t.
Qed.

(** Every child in turn. *)
Lemma submit_children_ok d i cs : forall s A todo,
  Forall (fun u => forall s A todo, R s A -> placed (tleaves u ++ todo) A -> live (a_conn A) ->
    within (Some i) CbCompleteChild u A -> exists s',
      nvme_qpair_submit_request (_nvme_qpair_submit_request E D d) (root u) s = Ok (0, s')
      /\ R s' (fold_left (asubmit_leaf E) (tleaves u) A)
      /\ placed todo (fold_left (asubmit_leaf E) (tleaves u) A)) cs ->
  R s A -> placed (concat (map tleaves cs) ++ todo) A -> live (a_conn A) ->
  (forall t, t ∈ cs -> within (Some i) CbCompleteChild t A) ->
  exists s', submit_children D (_nvme_qpair_submit_request E D d) i (map root cs) s = Ok (0, s')
    /\ R s' (fold_left (asubmit_leaf E) (concat (map tleaves cs)) A)
    /\ placed todo (fold_left (asubmit_leaf E) (concat (map tleaves cs)) A).
Proof.
  induction cs as [|u us IH]; intros s A todo Hf HR Hp Hl Hw; [by exists s|].
  apply Forall_cons in Hf as [Hu Hus]. cbn [map submit_children concat].
  cbn [map concat] in Hp. rewrite <- (assoc (++)) in Hp.
  destruct (Hu s A (concat (map tleaves us) ++ todo) HR Hp Hl) as (s1 & Hr1 & HR1 & Hp1);
    [apply Hw; left|].
  erewrite M_bind_ok by exact Hr1. cbn [Z.eqb]. rewrite fold_left_app.
  destruct (asubmit_leaves_keeps (tleaves u) A) as (Hf1 & Hc1 & _).
  apply IH; [done|done|done|by rewrite Hc1|]. intros t Ht. unfold within. rewrite Hf1. apply Hw. by right.
Qed.

Lemma submit_tree u : forall par fn d s A todo,
  R s A -> placed (tleaves u ++ todo) A -> live (a_conn A) -> within par fn u A ->
  (depth u <= d)%nat ->
  exists s', nvme_qpair_submit_request (_nvme_qpair_submit_request E D d) (root u) s = Ok (0, s')
    /\ R s' (fold_left (asubmit_leaf E) (tleaves u) A)
    /\ placed todo (fold_left (asubmit_leaf E) (tleaves u) A).
Proof.
  induction u as [i st cs IH] using rt_ind'. intros par fn d s A todo HR Hp Hl Hw Hd.
  cbn [depth] in Hd. destruct d as [|d]; [lia|]. destruct cs as [|u us].
  { apply submit_leaf_request; [done|done|done|lia]. }
  destruct (within_node _ _ _ _ _ _ _ HR Hw) as [x Hx]. cbn [root].
  assert (Hcs : r_children x = map root (u :: us)) by apply Hx.
  unfold nvme_qpair_submit_request. mstep. erewrite M_bind_ok by (apply load_ok, Hx).
  rewrite (bool_decide_false (r_children x = [])) by (by rewrite Hcs).
  rewrite andb_false_r. cbn [andb _nvme_qpair_submit_request]. unfold submit_body.
  rewrite <- (rf_conn _ _ _ _ _ _ HR) in Hl.
  rewrite M_bind_assoc. erewrite M_bind_ok by apply check_stable, Hl.
  unfold nvme_qpair_get_state. rewrite M_bind_assoc. mstep. rewrite M_bind_assoc.
  erewrite M_bind_ok by (apply load_ok, Hx). rewrite live_running by done. rewrite Hcs.
  rewrite (rf_conn _ _ _ _ _ _ HR) in Hl.
  destruct (submit_children_ok d i (u :: us) s A todo) as (s' & Hr & HR' & Hp');
    [|done|done|done|intros t Ht; by eapply within_child|].
  { rewrite Forall_forall in IH |- *. intros t Ht s1 A1 todo1 HR1 Hp1 Hl1 Hw1.
    apply (IH t Ht (Some i) CbCompleteChild); try done.
    pose proof (depth_child t (u :: us) Ht). lia. }
  exists s'. split; [|done]. cbn [map] in Hr |- *. rewrite M_bind_assoc.
  erewrite M_bind_ok by exact Hr. done.
Qed.
(** ** Polling *)

Lemma filter_self (l : list nat) i :
  NoDup l -> i ∈ l -> l ≡ₚ i :: List.filter (fun j => negb (Nat.eqb j i)) l.
Proof.
  intros Hn (l1 & l2 & ->)%list_elem_of_split. rewrite NoDup_app in Hn.
  destruct Hn as (_ & H1 & [H2 _]%NoDup_cons). rewrite List.filter_app. cbn. rewrite Nat.eqb_refl. cbn.
  rewrite !filter_other; [by rewrite Permutation_middle|done|]. intros Hin. apply (H1 i Hin). left.
Qed.

Lemma areap_conn A x : a_conn (areap A x) = a_conn A.
Proof.
  unfold areap. destruct (a_inflight A !! x.1) as [i|]; [|done].
  by destruct (acomplete_lists i x.2 (a_set_inflight (List.filter (fun j => negb (Nat.eqb j i)) (a_inflight A)) A))
    as (_ & _ & _ & -> & _).
Qed.

Lemma areaps_conn l A : a_conn (fold_left areap l A) = a_conn A.
Proof. revert A. induction l as [|x l IH]; intros A; [done|]. cbn. by rewrite IH, areap_conn. Qed.

Lemma reap_ok l : forall s A,
  R s A -> placed [] A ->
  exists s', for_each l (fun x => l ← gets inflight;
        match l !! x.1 with
        | Some i => transport_complete D i x.2
        | None => mret tt
        end) s = Ok (tt, s') /\ R s' (fold_left areap l A) /\ placed [] (fold_left areap l A).
Proof.
  induction l as [|x l IH]; intros s A HR Hp; [by exists s|]. cbn [for_each fold_left].
  rewrite M_bind_assoc. mstep. rewrite (rf_inflight _ _ _ _ _ _ HR). unfold areap at 2 4.
  destruct (a_inflight A !! x.1) as [i|] eqn:Hi; [|mstep; by apply IH].
  unfold transport_complete. rewrite M_bind_assoc. mstep. rewrite (rf_inflight _ _ _ _ _ _ HR).
  set (q := List.filter _ _).
  destruct (complete_ok N D [] [] (set_inflight q s) (a_set_inflight q A) i x.2 []) as (s1 & Hr1 & HR1 & Hp1).
  - by apply set_inflight_ok.
  - pose proof (placed_NoDup _ _ _ _ _ _ _ HR Hp) as Hn. apply NoDup_app in Hn as [Hn _].
    apply list_elem_of_lookup_2 in Hi. unfold placed in *. cbn. rewrite Hp, (filter_self _ i Hn Hi).
    fold q. solve_Permutation.
  - erewrite M_bind_ok by exact Hr1. by apply IH.
Qed.

(** The check at the start of _nvme_qpair_submit_request can be run ahead. *)
Lemma body_check submit_ i s b s1 :
  nvme_qpair_check_enabled E D submit_ s = Ok (b, s1) -> stable (cn s1) ->
  submit_body E D submit_ i s = submit_body E D submit_ i s1.
Proof.
  intros H1 H2. unfold submit_body. erewrite M_bind_ok by exact H1.
  symmetry. by erewrite M_bind_ok by by apply check_stable.
Qed.

(** The state in which the queue can be sent again. *)
Definition sendable (A : ast) : Prop :=
  live (a_conn A) \/ a_queued A = [] \/ is_resetting (a_conn A) = true.

Lemma resubmit_requests_ok d n s A :
  R s A -> placed [] A -> sendable A -> 0 < n ->
  let A3 := if negb (is_resetting (a_conn A)) then aresend E (Z.to_nat n) A else A in
  exists s', nvme_qpair_resubmit_requests E D (S d) n s = Ok (tt, s')
    /\ R s' (afinish_aborts A3) /\ placed [] (afinish_aborts A3).
Proof.
  intros HR Hp Hl Hn A3. unfold nvme_qpair_resubmit_requests. rewrite (proj2 (Z.ltb_lt _ _) Hn). mstep.
  assert (Hgo : exists s1, resubmit_loop E D (S d) (Z.to_nat n) s = Ok (tt, s1) /\ R s1 A3 /\ placed [] A3).
  { unfold A3. destruct (Z.to_nat n) as [|k] eqn:Hk; [lia|].
    destruct (is_resetting (a_conn A)) eqn:Hrs; cbn [negb].
    - exists s. split; [|done]. cbn. mstep. by rewrite (rf_conn _ _ _ _ _ _ HR), Hrs.
    - destruct Hl as [Hl|[Hq|?]]; [apply resubmit_loop_ok; try done; apply aside_nil| |congruence].
      rewrite aresend_nil by done. exists s. split; [|done]. cbn. mstep.
      by rewrite (rf_conn _ _ _ _ _ _ HR), Hrs, (rf_queued _ _ _ _ _ _ HR), Hq. }
  destruct Hgo as (s1 & Hr1 & HR1 & Hp1). erewrite M_bind_ok by exact Hr1. by apply finish_aborts_ok.
Qed.
End Commands.

(** ** Abort of queued requests *)

(** A node other than the root completes to its parent. *)
Lemma flat_fn n t : forall par fn, n ∈ flat par fn t ->
  n_fn n = CbCompleteChild
  \/ exists st cs, t = Rt (n_id n) st cs /\ n = Nd (n_id n) par fn (map root cs) st.
Proof.
  induction t as [i st cs IH] using rt_ind'. intros par fn. rewrite flat_eq.
  intros [->|Hn]%elem_of_cons; [right; by exists st, cs|].
  apply elem_of_concat_map in Hn as (t & Ht & Hn). rewrite Forall_forall in IH.
  destruct (IH t Ht _ _ Hn) as [?|(st' & cs' & _ & ->)]; by left.
Qed.

(** The parent of a node is in the tree. *)
Lemma flat_parent n p t : forall par fn, n ∈ flat par fn t -> n_parent n = Some p ->
  (n_id n = root t /\ par = Some p)
  \/ exists m, m ∈ flat par fn t /\ n_id m = p /\ n_id n ∈ n_children m.
Proof.
  induction t as [i st cs IH] using rt_ind'. intros par fn. rewrite flat_eq.
  intros [->|Hn]%elem_of_cons Hp; [by left|]. right.
  apply elem_of_concat_map in Hn as (t & Ht & Hn). rewrite Forall_forall in IH.
  destruct (IH t Ht _ _ Hn Hp) as [[Hr [= <-]]|(m & Hm & Hmp & Hc)].
  - eexists. split; [left|]. split; [done|]. cbn. rewrite Hr. by apply list_elem_of_fmap_2.
  - exists m. split; [|done]. right. apply elem_of_concat_map. by exists t.
Qed.

Section Abort.
Context (N D : nat) (s : qst) (F : forest).
Hypothesis HR : rep N D s F.

Lemma node_at n : n ∈ fflat F -> exists x, has (reqs s) n x.
Proof. intros Hn. pose proof (rp_holds _ _ _ _ HR) as Hh. unfold holds in Hh. rewrite Forall_forall in Hh. by apply Hh. Qed.

Lemma root_node a i st cs : (a, Rt i st cs) ∈ F -> Nd i None (CbArg a) (map root cs) st ∈ fflat F.
Proof.
  intros Hin. apply elem_of_concat_map. exists (a, Rt i st cs). split; [done|]. cbn [fst snd].
  rewrite flat_eq. left.
Qed.

Lemma child_node a i st cs c : (a, Rt i st cs) ∈ F -> c ∈ cs ->
  exists m, m ∈ fflat F /\ n_id m = root c /\ n_parent m = Some i.
Proof.
  intros Hin Hc. destruct c as [k stk ks]. exists (Nd k (Some i) CbCompleteChild (map root ks) stk).
  split; [|done]. apply elem_of_concat_map. exists (a, Rt i st cs). split; [done|]. cbn [fst snd].
  rewrite flat_eq. right. apply elem_of_concat_map. exists (Rt k stk ks). split; [done|].
  rewrite flat_eq. left.
Qed.

(** The object with callback argument [arg] is the root of a command with it. *)
Lemma hit_root n x arg :
  n ∈ fflat F -> has (reqs s) n x -> r_fn x = CbArg arg ->
  exists t, (arg, t) ∈ F /\ root t = n_id n
    /\ n_children n = let 'Rt _ _ cs := t in map root cs.
Proof.
  intros Hn Hx Hfn. apply elem_of_concat_map in Hn as ([a t] & Ht & Hn).
  rewrite (has_fn _ _ _ Hx) in Hfn. cbn in Hn.
  destruct (flat_fn _ _ _ _ Hn) as [H|(st & cs & -> & Hnd)]; [congruence|].
  rewrite Hnd in Hfn. cbn in Hfn. injection Hfn as ->.
  exists (Rt (n_id n) st cs). by rewrite Hnd.
Qed.

Lemma has_cbarg_of_arg arg i :
  i ∈ fleaves F -> has_cbarg (reqs s) arg i = of_arg F arg i.
Proof.
  intros Hi%fleaves_fids. rewrite <- fflat_ids in Hi. apply list_elem_of_fmap in Hi as (n & -> & Hn).
  destruct (node_at n Hn) as [x Hx]. apply eq_true_iff_eq. unfold has_cbarg, of_arg.
  rewrite (has_at _ _ _ Hx). rewrite orb_true_iff, bool_decide_eq_true. setoid_rewrite existsb_exists. split.
  - intros [Hfn|Hpar].
    + destruct (hit_root n x arg Hn Hx Hfn) as (t & Ht & Hr & _). exists (arg, t).
      split; [by apply list_elem_of_In|]. cbn. by rewrite Z.eqb_refl, Hr, Nat.eqb_refl.
    + destruct (r_parent x) as [p|] eqn:Hp; [|done]. rewrite (has_parent _ _ _ Hx) in Hp.
      pose proof Hn as Hn2. apply elem_of_concat_map in Hn2 as ([a t] & Ht & Hnt). cbn in Hnt.
      destruct (flat_parent _ _ _ _ _ Hnt Hp) as [[_ ?]|(m & Hm & <- & Hc)]; [done|].
      assert (HmF : m ∈ fflat F) by (apply elem_of_concat_map; by exists (a, t)).
      destruct (node_at m HmF) as [y Hy]. rewrite (has_at _ _ _ Hy), bool_decide_eq_true in Hpar.
      destruct (hit_root m y arg HmF Hy Hpar) as ([j st cs] & Hjt & _ & Hcs). exists (arg, Rt j st cs).
      split; [by apply list_elem_of_In|]. cbn. rewrite Z.eqb_refl. cbn. apply orb_true_iff. right.
      apply existsb_exists. rewrite Hcs in Hc. apply list_elem_of_fmap in Hc as (c & Hc & Hin). exists c.
      split; [by apply list_elem_of_In|]. by apply Nat.eqb_eq.
  - intros ([a [j st cs]] & Ht%list_elem_of_In & [Ha%Z.eqb_eq Hor]%andb_true_iff).
    cbn [fst snd root] in *. subst a.
    destruct (node_at _ (root_node _ _ _ _ Ht)) as [y Hy].
    pose proof (has_at _ _ _ Hy) as Hyj. cbn in Hyj. apply orb_true_iff in Hor as [Hr%Nat.eqb_eq|Hc].
    + left. assert (x = y) as -> by (pose proof (has_at _ _ _ Hx); congruence).
      by rewrite (has_fn _ _ _ Hy).
    + right. apply existsb_exists in Hc as (c & Hc%list_elem_of_In & Hrc%Nat.eqb_eq).
      destruct (child_node _ _ _ _ _ Ht Hc) as (m & HmF & Hmi & Hmp). destruct (node_at m HmF) as [z Hz].
      assert (x = z) as -> by (pose proof (has_at _ _ _ Hx); pose proof (has_at _ _ _ Hz); congruence).
      rewrite (has_parent _ _ _ Hz), Hmp, Hyj. apply bool_decide_eq_true. apply (has_fn _ _ _ Hy).
Qed.
End Abort.

Lemma filter_partition {T} (f : T -> bool) l :
  l ≡ₚ List.filter f l ++ List.filter (fun x => negb (f x)) l.
Proof.
  induction l as [|x l IH]; [done|]. cbn. destruct (f x); cbn; [by rewrite <- IH|].
  rewrite <- Permutation_middle. by rewrite <- IH.
Qed.

Lemma abort_ok N D s A arg :
  refines N D [] [] s A -> placed [] A ->
  exists s', nvme_qpair_abort_queued_reqs_with_cbarg arg s
      = Ok (u32 (Z.of_nat (length (List.filter (of_arg (a_forest A) arg) (a_queued A)))), s')
    /\ refines N D [] [] s' (aabort arg A) /\ placed [] (aabort arg A).
Proof.
  intros HR Hp. unfold nvme_qpair_abort_queued_reqs_with_cbarg. mstep. mstep.
  assert (Hleaf : forall i, i ∈ a_queued A -> i ∈ fleaves (a_forest A)) by (intros; rewrite Hp; set_solver).
  assert (Hext : forall i, List.In i (a_queued A) ->
    has_cbarg (reqs s) arg i = of_arg (a_forest A) arg i).
  { intros i Hi%list_elem_of_In. apply (has_cbarg_of_arg N D); [apply HR|by apply Hleaf]. }
  rewrite (rf_queued _ _ _ _ _ _ HR), (rf_aborting _ _ _ _ _ _ HR).
  rewrite (List.filter_ext_in _ _ _ Hext).
  rewrite (List.filter_ext_in (fun i => negb (has_cbarg (reqs s) arg i))
    (fun i => negb (of_arg (a_forest A) arg i)) (a_queued A)) by (intros i Hi; by rewrite Hext).
  eexists. split; [reflexivity|]. split.
  - apply set_aborting_ok, set_queued_ok; [done|]. intros j Hj%list_elem_of_In%List.filter_In.
    apply HR, list_elem_of_In, Hj.
  - unfold placed in *. cbn. rewrite Hp.
    rewrite (filter_partition (of_arg (a_forest A) arg) (a_queued A)) at 1. solve_Permutation.
Qed.
