(* ===== verification/NvmeQpairPoll.v ===== *)
(** * Polling and connecting a queue pair

    spdk_nvme_qpair_process_completions with the poll of the TCP transport
    below it, and the connection of a queue pair, simulate [apoll] and
    [areconnect]. *)

From S2P Require Import Prelude NsCmd NsCmdLemmas NvmeQpair NvmeQpairLemmas NvmeQpairSpec.
From S2P Require Import NvmeQpairRefine NvmeQpairCommands.

Lemma refines_weaken N D fresh kept s A : refines N D fresh kept s A -> refines N D [] [] s A.
Proof. intros [? ? ? ? ? ? ? ? _ _]. constructor; try done; by intros j ?%not_elem_of_nil. Qed.

Section Poll.
Context (E : tenv) {HE : SyncTransport E} (N D : nat).

Abbreviation R := (refines N D [] []).

(** ** The first request after a connection *)

Lemma acheck_enabled A :
  calm A -> state (a_conn A) = NVME_QPAIR_CONNECTED -> is_resetting (a_conn A) = false ->
  state (a_conn (acheck E A)) = NVME_QPAIR_ENABLED /\ is_resetting (a_conn (acheck E A)) = false.
Proof.
  intros HA Hs Hr. rewrite acheck_eq. unfold aenable.
  rewrite (bool_decide_true (state (a_conn A) = NVME_QPAIR_CONNECTED)), Hr by done. cbn [andb negb].
  rewrite (proj1 (aresend_conn _ _ _)). cbn [a_conn a_set_conn with_state transport_failure_reason].
  rewrite (co_new _ (cm_conn _ HA)) by by right. rewrite bool_decide_true by done. cbn [negb andb].
  by rewrite (proj1 (aresend_conn _ _ _)).
Qed.

Lemma acheck_connected A :
  calm A -> state (a_conn A) = NVME_QPAIR_CONNECTED -> is_resetting (a_conn A) = false ->
  live (a_conn (acheck E A)) /\ is_resetting (a_conn (acheck E A)) = false.
Proof.
  intros HA Hs Hr. destruct (acheck_calm E A HA) as [[Hc1 _] Hs1].
  destruct (acheck_enabled A HA Hs Hr) as [Hen ?]. split; [|done]. constructor; [done|done|].
  by rewrite Hen.
Qed.

Lemma resubmit_first_ok d s A i q :
  R s A -> placed [] A -> calm A -> a_queued A = i :: q ->
  state (a_conn A) = NVME_QPAIR_CONNECTED -> is_resetting (a_conn A) = false ->
  let A1 := acheck E (a_set_queued q A) in
  let rc := (asend E A1 i).1 in
  let B := (asend E A1 i).2 in
  let A' := if rc =? 0 then B else a_set_queued (i :: a_queued B) B in
  exists s', nvme_qpair_resubmit_request (_nvme_qpair_submit_request E D (S (S d))) i (set_queued q s)
      = Ok (rc, s') /\ R s' A' /\ placed [] A' /\ live (a_conn A') /\ is_resetting (a_conn A') = false.
Proof.
  intros HR Hp HA Hq Hs Hr A1 rc B A'.
  assert (Hfl : forall j, j ∈ i :: q -> r_queued <$> reqs s !! j = Some true) by (rewrite <- Hq; apply HR).
  assert (HR1 : refines N D [] [i] (set_queued q s) (a_set_queued q A)).
  { assert (HR0 : R (set_queued q s) (a_set_queued q A))
      by (apply set_queued_ok; [done|]; intros j Hj; apply Hfl; by right).
    destruct HR0. constructor; try done. intros j ->%list_elem_of_singleton. apply (Hfl i). left. }
  assert (HA1 : calm (a_set_queued q A)).
  { destruct HA. constructor; [done|]. intros Hd. cbn in Hd. congruence. }
  assert (Hp1 : placed [i] (a_set_queued q A))
    by (unfold placed in *; rewrite Hp, Hq; cbn; solve_Permutation).
  destruct (leaf_ok _ _ _ _ _ _ _ _ HR1 Hp1) as [x [Hx Hc _]].
  pose proof (rf_kept _ _ _ _ _ _ HR1 i ltac:(left)) as Hqi. rewrite Hx in Hqi. injection Hqi as Hqi.
  unfold nvme_qpair_resubmit_request. erewrite M_bind_ok by by apply load_ok.
  rewrite bool_decide_true, Hqi by done. mstep. mstep.
  change (_nvme_qpair_submit_request E D (S (S d)) i) with
    (submit_body E D (_nvme_qpair_submit_request E D (S d)) i).
  destruct (check_ok N D [] [i] E d _ _ [i] HR1 Hp1 HA1 (fun j Hj => Hj)) as (s1 & Hr1 & HR2 & Hp2).
  destruct (acheck_connected _ HA1 Hs Hr) as [Hl2 Hrs2]. fold A1 in HR2, Hp2, Hl2, Hrs2.
  destruct (body_leaf_ok N D [] [] E (_nvme_qpair_submit_request E D (S d)) s1 A1 i []
    (refines_weaken _ _ _ _ _ _ HR2) Hp2 Hl2 (aside_nil _)) as (s2 & Hr2 & HR3 & Hf3).
  erewrite M_bind_ok.
  2: { rewrite (body_check E D _ i _ _ s1 Hr1); [exact Hr2|].
       rewrite (rf_conn _ _ _ _ _ _ HR2). apply Hl2. }
  pose proof (asend_placed E _ _ _ Hp2) as Hp3. pose proof (asend_rc E A1 i) as Hrc.
  destruct (asend_lists E A1 i) as (_ & _ & _ & Hcn & _). fold rc B in Hf3, HR3, Hp3, Hrc, Hcn |- *.
  subst A'. destruct Hrc as [Hrc|Hrc]; rewrite Hrc in *; cbn [Z.eqb] in *.
  - exists s2. by rewrite Hcn.
  - change (- EAGAIN =? 0) with false in *. eexists. split; [reflexivity|].
    rewrite (rf_queued _ _ _ _ _ _ HR3). split; [|split; [|cbn [a_conn a_set_queued]; by rewrite Hcn]].
    + apply set_queued_ok; [done|]. intros j [->|Hj]%elem_of_cons; [|by apply HR3].
      rewrite Hf3 by done. apply (rf_kept _ _ _ _ _ _ HR2). left.
    + unfold placed in *. rewrite Hp3. cbn. solve_Permutation.
Qed.

Lemma connected_ok d s A :
  R s A -> placed [] A -> calm A -> state (a_conn A) = NVME_QPAIR_CONNECTING ->
  let A' := afinish_aborts (aconnected E (Z.to_nat (t_entries E)) A) in
  exists s', (_ ← nvme_qpair_set_state NVME_QPAIR_CONNECTED;
              nvme_qpair_resubmit_requests E D (S (S d)) (t_entries E)) s = Ok (tt, s')
    /\ R s' A' /\ placed [] A'.
Proof.
  intros HR Hp HA Hs A'. unfold nvme_qpair_set_state, nvme_qpair_resubmit_requests. mstep.
  rewrite (rf_conn _ _ _ _ _ _ HR). pose proof tr_entries as Hen. rewrite (proj2 (Z.ltb_lt _ _) Hen).
  mstep. subst A'. unfold aconnected. set (A0 := a_set_conn _ A). set (s0 := set_conn _ s).
  assert (HR0 : R s0 A0) by by apply set_conn_ok.
  assert (HA0 : calm A0).
  { destruct HA as [[[? ? ?] Hn] Hd]. constructor; [constructor; [constructor; cbn; auto|]|done].
    intros _. apply Hn. by left. }
  set (A1 := if is_resetting (a_conn A0) then A0 else _).
  assert (Hgo : exists s1, resubmit_loop E D (S (S d)) (Z.to_nat (t_entries E)) s0 = Ok (tt, s1)
    /\ R s1 A1 /\ placed [] A1).
  { unfold A1. destruct (Z.to_nat (t_entries E)) as [|k] eqn:Hk; [lia|]. cbn [resubmit_loop]. mstep.
    rewrite (rf_conn _ _ _ _ _ _ HR0), (rf_queued _ _ _ _ _ _ HR0).
    destruct (is_resetting (a_conn A0)) eqn:Hrs; [by exists s0|].
    destruct (a_queued A0) as [|i q] eqn:Hq; [by exists s0|]. mstep.
    destruct (resubmit_first_ok d s0 A0 i q) as (s1 & Hr1 & HR1 & Hp1 & Hl1 & Hrs1); try done.
    erewrite M_bind_ok by exact Hr1. destruct (asend E _ i) as [rc B]. cbn [fst snd] in *.
    destruct (rc =? 0); [|by exists s1]. by apply resubmit_loop_ok. }
  destruct Hgo as (s1 & Hr1 & HR1 & Hp1). erewrite M_bind_ok by exact Hr1. by apply finish_aborts_ok.
Qed.
Lemma calm_conn A B : calm A -> a_conn B = a_conn A -> state (a_conn A) <> NVME_QPAIR_DISCONNECTED -> calm B.
Proof. intros [Hc _] Heq Hs. constructor; [by rewrite Heq|]. intros Hd. congruence. Qed.

(** The connection has just been established. *)
Definition newly (A : ast) : ast := a_set_conn (with_state NVME_QPAIR_CONNECTED (a_conn A)) A.

Lemma newly_calm A : calm A -> state (a_conn A) = NVME_QPAIR_CONNECTING -> calm (newly A).
Proof.
  intros [[[? ? ?] Hn] Hd] Hs. constructor; [constructor; [constructor; cbn; auto|]|done].
  intros _. apply Hn. by left.
Qed.

Lemma aconnected_calm k A :
  calm A -> state (a_conn A) = NVME_QPAIR_CONNECTING -> (0 < k)%nat ->
  calm (aconnected E k A) /\ sendable (aconnected E k A).
Proof.
  intros HA Hs Hk. unfold aconnected. fold (newly A). pose proof (newly_calm A HA Hs) as HA0.
  destruct (is_resetting (a_conn (newly A))) eqn:Hrs; [split; [done|]; right; by right|].
  destruct k as [|k]; [lia|].
  destruct (a_queued (newly A)) as [|i q] eqn:Hq; [split; [done|]; right; by left|].
  assert (HA1 : calm (a_set_queued q (newly A))) by (destruct HA0; constructor; [done|]; by intros Hd).
  destruct (acheck_connected _ HA1 eq_refl Hrs) as [Hl _]. destruct (acheck_calm E _ HA1) as [HA2 _].
  set (A2 := acheck E (a_set_queued q (newly A))) in *.
  destruct (asend_lists E A2 i) as (_ & _ & _ & Hc & _). destruct (asend E A2 i) as [rc B]. cbn in Hc.
  assert (Hcn : forall B', a_conn B' = a_conn A2 -> calm B' /\ sendable B').
  { intros B' HB. split; [eapply calm_conn; [exact HA2|done|apply Hl]|]. left. by rewrite HB. }
  destruct (rc =? 0); apply Hcn; [|done]. by rewrite (proj1 (aresend_conn _ _ _)).
Qed.

Lemma afinish_calm A : calm A -> calm (afinish_aborts A).
Proof.
  intros [Hc Hd]. destruct (afinish_lists A) as (Hi & Hq & Ha & Hcn & _).
  constructor; [by rewrite Hcn|]. unfold drained. rewrite Hcn, Hi, Hq, Ha.
  by intros (? & ? & _)%Hd.
Qed.

Lemma afinish_sendable A : sendable A -> sendable (afinish_aborts A).
Proof. unfold sendable. by destruct (afinish_lists A) as (_ & -> & _ & -> & _). Qed.

(** ** Failure *)

Lemma failing_settled A : settled (a_conn A) ->
  settled (a_conn (a_set_conn (with_failure SPDK_NVME_QPAIR_FAILURE_OTHER (a_conn A)) A)).
Proof. intros [? ? ?]. by constructor. Qed.

Lemma afail_calm A : calm A -> calm (afail A).2.
Proof.
  intros [[Hc _] Hd]. unfold afail. cbn [snd].
  destruct (adisconnect_ok _ (failing_settled A Hc) Hd) as (? & ? & _). by constructor.
Qed.

Lemma fail_ok s A :
  R s A -> placed [] A -> calm A ->
  exists s', nvme_tcp_qpair_fail E D s = Ok ((afail A).1, s') /\ R s' (afail A).2
    /\ placed [] (afail A).2.
Proof.
  intros HR Hp [[Hc _] Hd]. unfold nvme_tcp_qpair_fail, afail. mstep. rewrite (rf_conn _ _ _ _ _ _ HR).
  destruct (disconnect_ok N D [] [] E (set_conn (with_failure SPDK_NVME_QPAIR_FAILURE_OTHER (a_conn A)) s)
    (a_set_conn (with_failure SPDK_NVME_QPAIR_FAILURE_OTHER (a_conn A)) A) []) as (s1 & Hr1 & HR1 & Hp1).
  - by apply set_conn_ok.
  - done.
  - by apply failing_settled.
  - done.
  - exists s1. by erewrite M_bind_ok by exact Hr1.
Qed.

(** ** The poll of the transport *)

(** The queue pair is polled. *)
Record polled (A : ast) : Prop := {
  po_calm : calm A;
  po_live : live (a_conn A) }.

Lemma areaps_polled l A : polled A -> polled (fold_left areap l A).
Proof.
  intros [Hc Hl]. pose proof (areaps_conn l A) as Hcn. constructor; [|by rewrite Hcn].
  eapply calm_conn; [done|done|apply Hl].
Qed.

Lemma polled_state A :
  polled A -> bool_decide (state (a_conn A) = NVME_QPAIR_DISCONNECTING) = false.
Proof.
  intros [[[[_ Hs _] _] _] _]. apply bool_decide_eq_false. naive_solver congruence.
Qed.

Lemma tcp_poll_ok d p s A :
  R s A -> placed [] A -> polled A ->
  exists s', nvme_tcp_qpair_process_completions E D (S (S d)) p s = Ok ((atcp_poll E p A).1, s')
    /\ R s' (atcp_poll E p A).2 /\ placed [] (atcp_poll E p A).2.
Proof.
  intros HR Hp HA. unfold nvme_tcp_qpair_process_completions, atcp_poll, nvme_qpair_get_state. mstep.
  rewrite (rf_conn _ _ _ _ _ _ HR), polled_state by done.
  destruct (p_flushed p); cbn [negb]; [|by apply fail_ok; [..|apply HA]].
  destruct (reap_ok N D (p_cpls p) s A HR Hp) as (s1 & Hr1 & HR1 & Hp1).
  erewrite M_bind_ok by exact Hr1. apply (areaps_polled (p_cpls p)) in HA.
  set (A1 := fold_left areap (p_cpls p) A) in *.
  destruct (p_read p); cbn [negb]; [|by apply fail_ok; [..|apply HA]].
  mstep. rewrite (rf_conn _ _ _ _ _ _ HR1).
  destruct (bool_decide_reflect (state (a_conn A1) = NVME_QPAIR_CONNECTING)) as [Hs|Hs]; [|by exists s1].
  destruct (p_connect p =? 0).
  - destruct (connected_ok d s1 A1 HR1 Hp1 (po_calm _ HA) Hs) as (s2 & Hr2 & HR2 & Hp2).
    exists s2. split; [|done]. rewrite <- M_bind_assoc. by erewrite M_bind_ok by exact Hr2.
  - destruct (p_connect p =? - EAGAIN); [by exists s1|]. by apply fail_ok; [..|apply HA].
Qed.

Lemma atcp_poll_calm p A :
  polled A -> calm (atcp_poll E p A).2 /\ (0 < (atcp_poll E p A).1 -> sendable (atcp_poll E p A).2).
Proof.
  intros HA. unfold atcp_poll.
  assert (Hfail : forall B, polled B -> calm (afail B).2 /\ (0 < (afail B).1 -> sendable (afail B).2)).
  { intros B [HB _]. split; [by apply afail_calm|done]. }
  destruct (p_flushed p); cbn [negb]; [|by apply Hfail].
  apply (areaps_polled (p_cpls p)) in HA. set (A1 := fold_left areap (p_cpls p) A) in *.
  destruct (p_read p); cbn [negb]; [|by apply Hfail].
  assert (HA1 : calm A1 /\ (0 < p_ret p -> sendable A1)) by (destruct HA; split; [done|by left]).
  destruct (bool_decide_reflect (state (a_conn A1) = NVME_QPAIR_CONNECTING)) as [Hs|Hs]; [|done].
  destruct (p_connect p =? 0); [|destruct (p_connect p =? - EAGAIN); [done|by apply Hfail]].
  destruct (aconnected_calm (Z.to_nat (t_entries E)) A1 (po_calm _ HA) Hs) as [Hc Hsd];
    [pose proof tr_entries; lia|]. cbn [fst snd].
  split; [by apply afinish_calm|]. intros _. by apply afinish_sendable.
Qed.

(** ** spdk_nvme_qpair_process_completions *)

Lemma poll_ok d p s A :
  R s A -> placed [] A -> calm A ->
  exists s', spdk_nvme_qpair_process_completions E D (S (S d)) p s = Ok ((apoll E p A).1, s')
    /\ R s' (apoll E p A).2 /\ placed [] (apoll E p A).2 /\ calm (apoll E p A).2.
Proof.
  intros HR Hp HA. unfold spdk_nvme_qpair_process_completions, apoll. mstep.
  rewrite (rf_conn _ _ _ _ _ _ HR), (co_failed _ (co_settled _ (cm_conn _ HA))). cbn [andb].
  destruct (check_ok N D [] [] E (S d) s A [] HR Hp HA (aside_nil _)) as (s1 & Hr1 & HR1 & Hp1).
  destruct (acheck_calm E A HA) as [HA1 Hs1]. set (A1 := acheck E A) in *.
  erewrite M_bind_ok by exact Hr1. unfold nvme_qpair_get_state at 1. mstep. rewrite (rf_conn _ _ _ _ _ _ HR1).
  assert (Hnd : forall B, calm B -> bool_decide (state (a_conn B) = NVME_QPAIR_DISCONNECTING) = false).
  { intros B [[[_ Hs _] _] _]. apply bool_decide_eq_false. naive_solver congruence. }
  rewrite (Hnd A1), orb_false_r by done. destruct (negb _ && negb _) eqn:Hb; [by exists s1|].
  assert (HP : polled A1).
  { constructor; [done|]. constructor; [apply HA1|done|]. intros Hs. rewrite Hs in Hb. done. }
  mstep. rewrite (rp_err_req _ _ _ _ (rf_rep _ _ _ _ _ _ HR1)). unfold complete_timed. cbn [for_each]. mstep.
  destruct (tcp_poll_ok d p s1 A1 HR1 Hp1 HP) as (s2 & Hr2 & HR2 & Hp2).
  destruct (atcp_poll_calm p A1 HP) as [HA2 Hsd].
  erewrite M_bind_ok by exact Hr2. unfold nvme_qpair_get_state. mstep.
  rewrite (rf_conn _ _ _ _ _ _ HR2), Hnd, andb_false_r by done.
  destruct (atcp_poll E p A1) as [ret A2]. cbn [fst snd] in *.
  destruct (Z.ltb_spec 0 ret) as [Hret|Hret]; cbn [andb].
  - destruct (resubmit_requests_ok E N D (S d) ret s2 A2 HR2 Hp2 (Hsd Hret) Hret) as (s3 & Hr3 & HR3 & Hp3).
    exists s3. split; [by erewrite M_bind_ok by exact Hr3|]. split; [done|]. split; [done|].
    apply afinish_calm. case_ifs; [|done].
    destruct (aresend_conn E (Z.to_nat ret) A2) as [Hcn _].
    destruct HA2 as [Hc Hd]. constructor; [by rewrite Hcn|]. unfold drained. rewrite Hcn. intros Hs.
    destruct (Hd Hs) as (H1 & H2 & H3). rewrite aresend_nil by done. done.
  - destruct (finish_aborts_ok N D [] [] s2 A2 [] HR2 Hp2) as (s3 & Hr3 & HR3 & Hp3).
    exists s3. split; [by erewrite M_bind_ok by exact Hr3|]. split; [done|]. split; [done|]. by apply afinish_calm.
Qed.
(** ** Connecting *)

Lemma M_bind_fuel {X Y} (m : M qst X) (k : X -> M qst Y) s :
  m s = OutOfFuel -> (m ≫= k) s = OutOfFuel.
Proof. intros H. unfold mbind, M_bind. by rewrite H. Qed.

(** The simulation relation between two calls. *)
Definition sim (s : qst) (A : ast) : Prop := R s A /\ placed [] A /\ calm A.

Lemma wait_ok d polls : forall s A, sim s A ->
  match aconnect_wait E polls A with
  | Some (rc, B) => exists s', connect_wait E D (S (S d)) polls s = Ok (rc, s') /\ sim s' B
  | None => connect_wait E D (S (S d)) polls s = OutOfFuel
  end.
Proof.
  induction polls as [|p ps IH]; intros s A (HR & Hp & HA); cbn [aconnect_wait connect_wait];
    unfold nvme_qpair_get_state; mstep; rewrite (rf_conn _ _ _ _ _ _ HR); destruct (negb _);
    [by exists s|done|by exists s|].
  destruct (poll_ok d p s A HR Hp HA) as (s1 & Hr1 & HR1 & Hp1 & HA1).
  erewrite M_bind_ok by exact Hr1. destruct (apoll E p A) as [rc B]. cbn [fst snd] in *.
  destruct (rc <? 0); [by exists s1|]. by apply IH.
Qed.

Lemma connect_fail_ok last s A :
  sim s A -> last <> SPDK_NVME_QPAIR_FAILURE_RESET ->
  let A' := adisconnect (a_set_conn (with_failure last (a_conn A)) A) in
  exists s', nvme_transport_connect_qpair_fail E D last s = Ok (tt, s') /\ sim s' A'
    /\ state (a_conn A') = NVME_QPAIR_DISCONNECTED.
Proof.
  intros (HR & Hp & HA) Hl A'. unfold nvme_transport_connect_qpair_fail. mstep.
  rewrite (rf_conn _ _ _ _ _ _ HR).
  assert (Hst : settled (a_conn (a_set_conn (with_failure last (a_conn A)) A)))
    by (destruct HA as [[[? ? ?] _] _]; by constructor).
  destruct (disconnect_ok N D [] [] E (set_conn (with_failure last (a_conn A)) s)
    (a_set_conn (with_failure last (a_conn A)) A) []) as (s1 & Hr1 & HR1 & Hp1);
    [by apply set_conn_ok|done|done|apply HA|].
  destruct (adisconnect_ok _ Hst (cm_drained _ HA)) as (? & ? & ? & _).
  exists s1. split; [done|]. split; [|done]. split; [done|]. split; [done|]. by constructor.
Qed.

Lemma reconnect_ok d rc0 polls s A : sim s A ->
  match areconnect E rc0 polls A with
  | Some (rc, B) => exists s', spdk_nvme_ctrlr_reconnect_io_qpair E D (S (S d)) rc0 polls s = Ok (rc, s')
      /\ sim s' B
  | None => spdk_nvme_ctrlr_reconnect_io_qpair E D (S (S d)) rc0 polls s = OutOfFuel
  end.
Proof.
  intros HS. pose proof HS as (HR & Hp & HA). pose proof HA as [[[Hfl Hst Hrs] Hn] Hd].
  unfold spdk_nvme_ctrlr_reconnect_io_qpair, areconnect. mstep. rewrite (rf_conn _ _ _ _ _ _ HR), Hfl.
  rewrite (bool_decide_false (_ = NVME_QPAIR_DISCONNECTING)), (bool_decide_false (_ = NVME_QPAIR_DESTROYING))
    by naive_solver congruence. rewrite orb_false_r. cbn [orb].
  destruct (is_removed (a_conn A)); [by exists s|]. destruct (is_resetting (a_conn A)); [by exists s|].
  destruct (bool_decide_reflect (state (a_conn A) = NVME_QPAIR_DISCONNECTED)) as [Hs|Hs]; cbn [negb];
    [|by exists s].
  unfold nvme_transport_ctrlr_connect_qpair, nvme_qpair_set_state. rewrite M_bind_assoc. mstep.
  rewrite M_bind_assoc. mstep. rewrite M_bind_assoc. mstep. cbn [cn set_conn].
  rewrite (rf_conn _ _ _ _ _ _ HR). set (c0 := with_state _ _).
  assert (HS0 : sim (set_conn c0 s) (a_set_conn c0 A)).
  { split; [by apply set_conn_ok|]. split; [done|]. constructor; [|done].
    constructor; [constructor; cbn; auto; done|done]. }
  rewrite M_bind_assoc. rewrite tr_sync.
  assert (Hw : match (if rc0 =? 0 then aconnect_wait E polls (a_set_conn c0 A) else Some (rc0, a_set_conn c0 A)) with
    | Some (rc, B) => exists s', (if rc0 =? 0 then connect_wait E D (S (S d)) polls else mret rc0)
        (set_conn c0 s) = Ok (rc, s') /\ sim s' B
    | None => (if rc0 =? 0 then connect_wait E D (S (S d)) polls else mret rc0) (set_conn c0 s) = OutOfFuel
    end) by (destruct (rc0 =? 0); [by apply wait_ok|by eexists]).
  destruct (if rc0 =? 0 then aconnect_wait _ _ _ else _) as [[rc B]|].
  2: { apply M_bind_fuel. exact Hw. }
  destruct Hw as (s1 & Hr1 & HS1). erewrite M_bind_ok by exact Hr1.
  destruct (rc =? 0) eqn:Hrc; [by exists s1|].
  destruct (connect_fail_ok (transport_failure_reason (a_conn A)) s1 B HS1 Hrs) as (s2 & Hr2 & HS2 & Hst2).
  exists s2. split; [|done]. rewrite M_bind_assoc. erewrite M_bind_ok by exact Hr2.
  unfold nvme_qpair_get_state. rewrite M_bind_assoc. mstep.
  rewrite (rf_conn _ _ _ _ _ _ (proj1 HS2)), Hst2. rewrite bool_decide_false by done.
  mstep. by rewrite Hrc.
Qed.
End Poll.
