(* ===== verification/NvmeQpairIssue.v ===== *)
(** * A new command on the queue pair

    The tree that a command function of [NsCmd] has built from pool elements is
    on the heap, and its submission sends or queues every leaf, or gives the
    whole tree back. *)

From S2P Require Import Prelude NsCmd NsCmdLemmas NvmeQpair NvmeQpairLemmas NvmeQpairDrop.
From S2P Require Import NvmeQpairSpec NvmeQpairRefine NvmeQpairCommands NvmeQpairPoll.

(** ** The tree of a request *)

Fixpoint of_request (r : request) : rt :=
  let 'Request i _ cs := r in Rt i (Cpl 0 0 0 0) (map of_request cs).

(** No accelerator sequence and no fabrics command. *)
Fixpoint plain (r : request) : bool :=
  let 'Request _ f cs := r in
  bool_decide (r_accel f = None) && negb (cmd_opc (r_cmd f) =? SPDK_NVME_OPC_FABRIC)
  && forallb plain cs.

Lemma root_of_request r : root (of_request r) = req_id r.
Proof. by destruct r. Qed.

Lemma tids_of_request r : tids (of_request r) = ids r.
Proof.
  induction r as [i f cs IH] using request_ind'. rewrite ids_eq. cbn. f_equal. unfold ids_list.
  rewrite map_map. f_equal. apply map_ext_Forall. apply Forall_forall. rewrite Forall_forall in IH. done.
Qed.

Lemma tleaves_of_request r : tleaves (of_request r) = map req_id (leaves r).
Proof.
  induction r as [i f cs IH] using request_ind'. rewrite leaves_eq. cbn [of_request tleaves].
  destruct cs as [|c cs]; [done|]. unfold leaves_list. rewrite concat_map, !map_map.
  cbn [map]. f_equal. apply Forall_cons in IH as [-> IH]. f_equal. apply map_ext_Forall.
  eapply Forall_impl; [exact IH|]. done.
Qed.

Lemma depth_tids t : (depth t <= length (tids t))%nat.
Proof.
  induction t as [i st cs IH] using rt_ind'. cbn. apply le_n_S.
  induction IH as [|t cs Ht _ IHcs]; [done|]. cbn [map concat]. rewrite list_max_cons, length_app. lia.
Qed.

(** ** Building *)

Definition build_list (i : nat) (cs : list request) (h : gmap nat nvme_request) :=
  fold_left (fun h c => build CbCompleteChild (Some i) c h) cs h.

Definition built (fn : req_cb) (parent : option nat) (r : request) (old : nvme_request) : nvme_request :=
  let 'Request i f cs := r in
  NvmeRequest (cmd_opc (r_cmd f)) fn false (map req_id cs)
    (match parent, cs with
     | Some p, _ => Some p
     | None, [] => r_parent old
     | None, _ => None
     end)
    (r_cpl old) (match cs with [] => parent_status old | _ => Cpl 0 0 0 0 end)
    (timeout_tsc old) 0 (r_accel f).

Lemma build_eq fn par i f cs h :
  build fn par (Request i f cs) h
  = <[i := built fn par (Request i f cs) (default request0 (h !! i))]> (build_list i cs h).
Proof. done. Qed.

Lemma build_list_outside i cs h j :
  Forall (fun c => forall fn par h, j ∉ ids c -> build fn par c h !! j = h !! j) cs ->
  j ∉ ids_list cs -> build_list i cs h !! j = h !! j.
Proof.
  intros HF. unfold build_list. revert h. induction HF as [|c cs Hc _ IH]; intros h Hj; [done|].
  unfold ids_list in Hj. cbn in Hj. apply not_elem_of_app in Hj as [Hj1 Hj2]. cbn. rewrite IH by done.
  by apply Hc.
Qed.

Lemma build_outside r : forall j fn par h, j ∉ ids r -> build fn par r h !! j = h !! j.
Proof.
  induction r as [i f cs IH] using request_ind'. intros j fn par h Hj. rewrite ids_eq in Hj.
  apply not_elem_of_cons in Hj as [Hji Hj]. rewrite build_eq, lookup_insert_ne by done.
  apply build_list_outside; [|done]. eapply Forall_impl; [exact IH|]. cbn. auto.
Qed.

(** The requests of the tree are on the heap and have not been queued. *)
Definition laid (fn : req_cb) (par : option nat) (r : request) (h : gmap nat nvme_request) : Prop :=
  holds h (flat par fn (of_request r))
  /\ forall j, j ∈ ids r -> r_queued <$> h !! j = Some false.

Lemma laid_agree fn par r h h' :
  (forall j, j ∈ ids r -> h' !! j = h !! j) -> laid fn par r h -> laid fn par r h'.
Proof.
  intros Ha [H1 H2]. split.
  - eapply holds_agree; [|exact H1]. intros j Hj. rewrite flat_ids, tids_of_request in Hj. by apply Ha.
  - intros j Hj. rewrite Ha by done. by apply H2.
Qed.

(** The old contents of the elements matter only through a stale parent. *)
Definition unlinked (l : list nat) (h : gmap nat nvme_request) : Prop :=
  forall j, j ∈ l -> r_parent (default request0 (h !! j)) = None.

Lemma build_list_laid i cs : forall h,
  Forall (fun c => forall fn par h, NoDup (ids c) -> plain c = true -> unlinked (ids c) h ->
    laid fn par c (build fn par c h)) cs ->
  NoDup (ids_list cs) -> forallb plain cs = true -> unlinked (ids_list cs) h ->
  Forall (fun c => laid CbCompleteChild (Some i) c (build_list i cs h)) cs.
Proof.
  unfold ids_list, build_list. induction cs as [|c cs IH]; intros h HF Hn Hp Hu; [constructor|].
  apply Forall_cons in HF as [Hc HF]. cbn in Hn, Hp |- *. apply andb_true_iff in Hp as [Hp1 Hp2].
  rewrite NoDup_app in Hn. destruct Hn as (Hn1 & Hd & Hn2). constructor.
  - eapply laid_agree; [|apply (Hc CbCompleteChild (Some i) h); [done..|]].
    + intros j Hj. apply (build_list_outside i cs).
      * apply Forall_forall. intros r _ fn par h'. apply build_outside.
      * by apply Hd.
    + intros j Hj. apply Hu. cbn. apply elem_of_app. by left.
  - apply IH; [done..|]. intros j Hj. rewrite build_outside.
    + apply Hu. cbn. apply elem_of_app. by right.
    + intros Hin. by apply (Hd j Hin).
Qed.

Lemma build_laid r : forall fn par h,
  NoDup (ids r) -> plain r = true -> unlinked (ids r) h -> laid fn par r (build fn par r h).
Proof.
  induction r as [i f cs IH] using request_ind'. intros fn par h Hn Hp Hu. rewrite ids_eq in Hn, Hu.
  apply NoDup_cons in Hn as [Hi Hn]. cbn [plain] in Hp. rewrite !andb_true_iff in Hp.
  destruct Hp as [[Ha%bool_decide_eq_true Ho%negb_true_iff%Z.eqb_neq] Hp].
  assert (HL : Forall (fun c => laid CbCompleteChild (Some i) c (build_list i cs h)) cs).
  { apply build_list_laid; [done..|]. intros j Hj. apply Hu. by right. }
  rewrite build_eq. set (x := built _ _ _ _).
  assert (HL' : Forall (fun c => laid CbCompleteChild (Some i) c (<[i := x]> (build_list i cs h))) cs).
  { rewrite Forall_forall in HL |- *. intros c Hc. eapply laid_agree; [|by apply HL].
    intros j Hj. rewrite lookup_insert_ne; [done|]. intros <-. apply Hi. unfold ids_list.
    apply elem_of_concat_map. by exists c. }
  split.
  - cbn [of_request]. rewrite flat_eq. apply Forall_cons. split.
    + exists x. constructor; cbn; try done.
      * by rewrite lookup_insert_eq.
      * destruct par; [done|]. destruct cs; [|done]. apply Hu. left.
      * rewrite map_map. apply map_ext. intros r. by rewrite root_of_request.
      * by destruct cs.
    + rewrite map_map. apply holds_concat. eapply Forall_impl; [exact HL'|]. by intros c [? _].
  - rewrite ids_eq. intros j [->|Hj]%elem_of_cons; [by rewrite lookup_insert_eq|].
    apply elem_of_concat_map in Hj as (c & Hc & Hj). rewrite Forall_forall in HL'.
    by apply (HL' c Hc).
Qed.

(** ** The new tree in the forest *)

Lemma fids_app F G : fids (F ++ G) = fids F ++ fids G.
Proof. unfold fids. by rewrite map_app, concat_app. Qed.

Lemma fids_single a t : fids [(a, t)] = tids t.
Proof. unfold fids. cbn. apply app_nil_r. Qed.

Lemma fleaves_app F G : fleaves (F ++ G) = fleaves F ++ fleaves G.
Proof. unfold fleaves. by rewrite map_app, concat_app. Qed.

Lemma fflat_app F G : fflat (F ++ G) = fflat F ++ fflat G.
Proof. unfold fflat. by rewrite map_app, concat_app. Qed.

Section Install.
Context (N D : nat) (s : qst) (F : forest) (arg : Z) (r : request) (q : qpair).
Hypothesis (HD : (N <= D)%nat) (HR : rep N D s F) (Ht : taken (ids r) (pool s) q).
Hypothesis (Hp : plain r = true).

Lemma taken_dup : NoDup (fids F ++ ids r ++ free_req q).
Proof.
  pose proof (rep_NoDup _ _ _ _ HR) as Hn. destruct Ht as [Hf _]. cbn in Hf. by rewrite Hf in Hn.
Qed.

Lemma install_laid : laid (CbArg arg) None r (reqs (install arg r q s)).
Proof.
  cbn. pose proof taken_dup as Hn. apply build_laid; [|done|].
  - apply NoDup_app in Hn as (_ & _ & Hn). by apply NoDup_app in Hn as [? _].
  - intros j Hj. destruct (rp_free _ _ _ _ HR j) as (x & -> & ?); [|done].
    destruct Ht as [Hf _]. cbn in Hf. rewrite Hf. apply elem_of_app. by left.
Qed.

Lemma install_outside j : j ∈ fids F \/ j ∈ free_req q -> reqs (install arg r q s) !! j = reqs s !! j.
Proof.
  intros Hj. cbn. apply build_outside. pose proof taken_dup as Hn.
  rewrite !NoDup_app in Hn. destruct Hn as (_ & Hd1 & _ & Hd2 & _). intros Hin.
  destruct Hj as [Hj|Hj]; [|by apply (Hd2 j)]. apply (Hd1 j Hj), elem_of_app. by left.
Qed.

Lemma install_rep : rep N D (install arg r q s) (F ++ [(arg, of_request r)]).
Proof.
  pose proof install_laid as [Hl _]. pose proof install_outside as Hout. pose proof HR as [? Hids ? ? Hfree ? ? Hdep].
  destruct Ht as [Hf Hnum]. cbn in Hf, Hnum. constructor; try done.
  - rewrite fflat_app, holds_app. split.
    + eapply holds_agree; [|done]. intros j Hj. rewrite fflat_ids in Hj. apply Hout. by left.
    + unfold fflat. cbn [map concat]. by rewrite app_nil_r.
  - rewrite fids_app, fids_single, tids_of_request. rewrite Hf in Hids. cbn. by rewrite <- (assoc (++)).
  - rewrite fids_app, fids_single, tids_of_request, length_app. cbn. lia.
  - intros j Hj. rewrite Hout by by right. apply Hfree. rewrite Hf. apply elem_of_app. by right.
  - apply Forall_app. split; [done|]. apply Forall_singleton. cbn. etransitivity; [apply depth_tids|].
    rewrite tids_of_request. apply Permutation_length in Hids. rewrite Hf, !length_app, length_seq in Hids.
    lia.
Qed.
End Install.

(** The abstract state with the new command. *)
Definition a_add (arg : Z) (r : request) (A : ast) : ast :=
  a_set_forest (a_forest A ++ [(arg, of_request r)]) A.

Lemma install_ok N D s A arg r q :
  (N <= D)%nat -> refines N D [] [] s A -> placed [] A -> taken (ids r) (pool s) q -> plain r = true ->
  refines N D (ids r) [] (install arg r q s) (a_add arg r A)
  /\ placed (tleaves (of_request r)) (a_add arg r A).
Proof.
  intros HD [HR ? ? ? ? ? ? Hfl _ _] Hp Ht Hpl. split.
  - constructor; try done.
    + by apply install_rep.
    + intros j Hj. rewrite (install_outside N D s (a_forest A)); [by apply Hfl|done|done|].
      left. apply fleaves_fids. rewrite Hp. set_solver.
    + apply (install_laid N D s (a_forest A) arg r q HR Ht Hpl).
    + by intros j ?%not_elem_of_nil.
  - unfold placed in *. cbn [a_add a_set_forest a_forest a_inflight a_queued a_aborting].
    rewrite fleaves_app, Hp. unfold fleaves. cbn [map concat]. rewrite !app_nil_r.
    solve_Permutation.
Qed.

(** ** The tree stays while others complete *)

Lemma fcomplete_other x l c F :
  l ∉ tleaves x.2 -> x ∈ F -> x ∈ (fcomplete l c F).1.
Proof.
  destruct x as [a t]. cbn. intros Hl. induction F as [|[a' t'] F IH]; [done|].
  intros [Heq|Hin]%elem_of_cons; cbn.
  - injection Heq as <- <-. destruct (tcomplete l c t) eqn:Ht.
    { destruct Hl. apply (tcomplete_leaf l c). by rewrite Ht. }
    destruct (fcomplete l c F). cbn. left.
  - specialize (IH Hin). destruct (tcomplete l c t') as [[t2|c2]|]; cbn; [by right|done|].
    destruct (fcomplete l c F). cbn in *. by right.
Qed.

Lemma acompletes_other x l c A :
  (forall i, i ∈ l -> i ∉ tleaves x.2) -> x ∈ a_forest A -> x ∈ a_forest (acompletes l c A).
Proof.
  revert A. induction l as [|i l IH]; intros A Hl Hx; [done|].
  change (acompletes (i :: l) c A) with (acompletes l c (acomplete i c A)).
  apply IH; [intros j Hj; apply Hl; by right|]. unfold acomplete.
  pose proof (fcomplete_other x i c (a_forest A) (Hl i ltac:(left)) Hx).
  by destruct (fcomplete i c (a_forest A)).
Qed.

Definition held (A : ast) : list nat := a_inflight A ++ a_queued A ++ a_aborting A.

Lemma adisconnect_other x A :
  (forall i, i ∈ held A -> i ∉ tleaves x.2) -> x ∈ a_forest A -> x ∈ a_forest (adisconnect A).
Proof.
  intros Hl Hx. unfold adisconnect. case_bool_decide; [done|]. cbn. unfold afinish_aborts, held in *.
  apply acompletes_other; [|apply acompletes_other; [|apply acompletes_other]]; [|set_solver..|done].
  set (A2 := acompletes (a_queued A) _ _).
  assert (a_aborting A2 = a_aborting A) as ->; [|set_solver].
  unfold A2. destruct (acompletes_lists (a_queued A) (aborted_sq (abort_dnr (a_conn A)))
    (a_set_queued [] (acompletes (a_inflight A) (aborted_sq 0) (a_set_inflight []
      (a_set_conn (with_state NVME_QPAIR_DISCONNECTING (a_conn A)) A))))) as (_ & _ & -> & _).
  cbn. by destruct (acompletes_lists (a_inflight A) (aborted_sq 0) (a_set_inflight []
      (a_set_conn (with_state NVME_QPAIR_DISCONNECTING (a_conn A)) A))) as (_ & _ & -> & _).
Qed.

Lemma aresend_held E k A : a_forest (aresend E k A) = a_forest A /\ held (aresend E k A) ≡ₚ held A.
Proof.
  revert A. induction k as [|k IH]; intros A; [done|].
  destruct (a_queued A) as [|i q] eqn:Hq; [by rewrite aresend_nil|].
  rewrite (aresend_cons _ _ _ _ _ Hq).
  destruct (asend_lists E (a_set_queued q A) i) as (Hf & Hq1 & Ha & _ & Hi).
  destruct (asend E _ i) as [rc B]. cbn in Hf, Hq1, Ha, Hi |- *. unfold held in *.
  destruct (rc =? 0).
  - destruct (IH B) as [-> ->]. split; [done|]. rewrite Hq1, Ha, Hi, Hq. solve_Permutation.
  - cbn. rewrite Ha, Hi, Hq. done.
Qed.

Lemma acheck_other E x A :
  (forall i, i ∈ held A -> i ∉ tleaves x.2) -> x ∈ a_forest A -> x ∈ a_forest (acheck E A).
Proof.
  intros Hl Hx. rewrite acheck_eq.
  assert (He : x ∈ a_forest (aenable E A) /\ held (aenable E A) ≡ₚ held A).
  { unfold aenable. destruct (_ && _); [|done].
    destruct (aresend_held E (length (a_queued A)) (a_set_conn (with_state NVME_QPAIR_ENABLED
      (with_state NVME_QPAIR_ENABLING (a_conn A))) A)) as [-> ->]. done. }
  destruct He as [Hx' Hh]. destruct (_ && _); [|done]. apply adisconnect_other; [|done].
  intros i. rewrite Hh. apply Hl.
Qed.

(** ** The queue pair is disconnected: the tree is given back *)

Lemma filter_root (F1 F2 : forest) a t :
  NoDup (fids (F1 ++ (a, t) :: F2)) ->
  List.filter (fun x => negb (Nat.eqb (root x.2) (root t))) (F1 ++ (a, t) :: F2) = F1 ++ F2.
Proof.
  rewrite fids_mid, NoDup_app. intros (_ & Hd & _).
  assert (Hf : forall G, (forall x, x ∈ G -> x ∈ F1 ++ F2) ->
    List.filter (fun x : Z * rt => negb (Nat.eqb (root x.2) (root t))) G = G).
  { induction G as [|x G IH]; intros HG; [done|]. cbn. rewrite IH by (intros; apply HG; by right).
    destruct (Nat.eqb_spec (root x.2) (root t)) as [Hx|]; [|done]. destruct (Hd (root t) (root_tids t)).
    rewrite <- Hx. apply elem_of_concat_map. exists x. split; [apply HG; left|apply root_tids]. }
  rewrite List.filter_app. cbn. rewrite Nat.eqb_refl. cbn. rewrite !Hf; [done|set_solver..].
Qed.

(** nvme_qpair_submit_request fails after nvme_qpair_check_enabled. *)
Lemma give_back_ok N D s F1 a t F2 :
  rep N D s (F1 ++ (a, t) :: F2) -> r_queued <$> reqs s !! root t = Some false ->
  exists x s', reqs s !! root t = Some x
    /\ (_ ← for_each (r_children x) (drop_child D (root t)); submit_error D (root t) (- ENXIO)) s
       = Ok (- ENXIO, s')
    /\ rep N D s' (F1 ++ F2) /\ keeps [] s s'.
Proof.
  intros HR Hq. pose proof (rep_ready _ _ _ _ _ _ _ HR) as Hrdy. destruct (rp_tree _ _ _ _ _ _ _ HR) as [Ht Hd].
  destruct (drop_whole_ok D (CbArg a) t s Ht Hrdy ltac:(lia)) as (x & s1 & Hx & Hr1 & Hfr1 & Hpar1 & y & Hy & Hyp & Hyc).
  exists x. destruct (free_root_ok t s s1 y Hrdy Hfr1 Hy Hyp Hyc Hpar1) as (s2 & Hr2 & Hfr2 & Hpar2).
  exists s2. split; [done|]. split; [|split; [by eapply rep_drop|by eapply frees_keeps]].
  erewrite M_bind_ok by exact Hr1. unfold submit_error. erewrite M_bind_ok by by apply load_ok.
  rewrite Hyp. mstep. mstep.
  assert (r_queued y = false) as ->.
  { pose proof (fr_queued _ _ _ _ Hfr1 (root t)) as Hf. rewrite Hq, Hy in Hf. by injection Hf. }
  by erewrite M_bind_ok by exact Hr2.
Qed.

Lemma keeps_refines N D s s' A F :
  refines N D [] [] s A -> rep N D s' F -> keeps [] s s' -> refines N D [] [] s' (a_set_forest F A).
Proof.
  intros [? ? ? ? ? ? ? Hfl _ _] HR [? ? ? ? Hd ? Hf]. rewrite app_nil_r in Hd.
  constructor; cbn; try congruence; try done.
  - intros j Hj. rewrite Hf. by apply Hfl.
  - by intros j ?%not_elem_of_nil.
  - by intros j ?%not_elem_of_nil.
Qed.

Lemma acheck_queue E A : calm A -> a_queued A = [] -> a_queued (acheck E A) = [].
Proof.
  intros HA Hq. rewrite acheck_eq.
  assert (He : a_queued (aenable E A) = []).
  { unfold aenable. destruct (_ && _); [|done]. rewrite Hq. done. }
  destruct (_ && _); [|done]. apply (aenable_ok E) in HA as [[Hc Hd] _].
  destruct (adisconnect_ok _ (co_settled _ Hc) Hd) as (_ & Hd' & Hs & _). by apply Hd' in Hs as (_ & ? & _).
Qed.

(** A tree of the forest is within it. *)
Lemma within_forest A a t : (a, t) ∈ a_forest A -> within None (CbArg a) t A.
Proof. intros Hin n Hn. apply elem_of_concat_map. by exists (a, t). Qed.

(** ** The commands accounted for *)

(** The callback arguments of the commands done and of those under way. *)
Definition args (A : ast) : list Z := map fst (a_done A) ++ map fst (a_forest A).

Lemma fcomplete_args l c F :
  map fst F ≡ₚ map fst (fcomplete l c F).2 ++ map fst (fcomplete l c F).1.
Proof.
  induction F as [|[a t] F IH]; [done|]. cbn. destruct (tcomplete l c t) as [[t'|c']|]; [done|done|].
  destruct (fcomplete l c F) as [F2 o]. cbn in *. rewrite IH. apply Permutation_middle.
Qed.

Lemma acomplete_args l c A : args (acomplete l c A) ≡ₚ args A.
Proof.
  unfold acomplete, args. pose proof (fcomplete_args l c (a_forest A)) as Hp.
  destruct (fcomplete l c (a_forest A)) as [F o]. cbn in *. by rewrite map_app, <- (assoc (++)), Hp.
Qed.

Lemma acompletes_args l c A : args (acompletes l c A) ≡ₚ args A.
Proof.
  revert A. induction l as [|i l IH]; intros A; [done|].
  change (acompletes (i :: l) c A) with (acompletes l c (acomplete i c A)).
  by rewrite IH, acomplete_args.
Qed.

Lemma afinish_args A : args (afinish_aborts A) ≡ₚ args A.
Proof. unfold afinish_aborts. by rewrite acompletes_args. Qed.

Lemma adisconnect_args A : args (adisconnect A) ≡ₚ args A.
Proof.
  unfold adisconnect. case_bool_decide; [done|]. cbv zeta.
  etransitivity; [|apply (acompletes_args (a_inflight A) (aborted_sq 0) (a_set_inflight []
    (a_set_conn (with_state NVME_QPAIR_DISCONNECTING (a_conn A)) A)))].
  etransitivity; [|apply (acompletes_args (a_queued A) (aborted_sq (abort_dnr (a_conn A)))
    (a_set_queued [] (acompletes (a_inflight A) (aborted_sq 0) (a_set_inflight []
    (a_set_conn (with_state NVME_QPAIR_DISCONNECTING (a_conn A)) A)))))].
  apply (afinish_args (acompletes (a_queued A) _ _)).
Qed.

(** The operations that only move requests. *)
Lemma asend_args E A i : args (asend E A i).2 = args A.
Proof. unfold asend. by case_bool_decide. Qed.

Lemma aresend_args E k A : args (aresend E k A) = args A.
Proof.
  revert A. induction k as [|k IH]; intros A; [done|].
  destruct (a_queued A) as [|i q] eqn:Hq; [by rewrite aresend_nil|].
  rewrite (aresend_cons _ _ _ _ _ Hq). pose proof (asend_args E (a_set_queued q A) i) as Ha.
  destruct (asend E _ i) as [rc B]. cbn in Ha |- *. destruct (rc =? 0); [by rewrite IH|done].
Qed.

Lemma acheck_args E A : args (acheck E A) ≡ₚ args A.
Proof.
  rewrite acheck_eq.
  assert (He : args (aenable E A) = args A).
  { unfold aenable. destruct (_ && _); [|done]. by rewrite aresend_args. }
  destruct (_ && _); [|by rewrite He]. by rewrite adisconnect_args, He.
Qed.

Lemma asubmit_leaves_args E l A : args (fold_left (asubmit_leaf E) l A) = args A.
Proof.
  revert A. induction l as [|i l IH]; intros A; [done|]. cbn. rewrite IH. unfold asubmit_leaf.
  case_bool_decide; [|done]. pose proof (asend_args E A i) as Ha. destruct (asend E A i) as [rc B].
  cbn in Ha. by destruct (rc =? 0).
Qed.

Section Issue.
Context (E : tenv) {HE : SyncTransport E} (N D : nat).
Hypothesis (HD : (N <= D)%nat) (HD2 : (2 <= D)%nat).

Abbreviation R := (refines N D [] []).

Lemma give_back_refines s A arg r :
  refines N D (ids r) [] s A -> placed (tleaves (of_request r)) A -> calm A ->
  state (a_conn A) = NVME_QPAIR_DISCONNECTED -> (arg, of_request r) ∈ a_forest A ->
  let A' := a_set_forest (List.filter (fun x => negb (Nat.eqb (root x.2) (req_id r))) (a_forest A)) A in
  exists x s', reqs s !! req_id r = Some x
    /\ (_ ← for_each (r_children x) (drop_child D (req_id r)); submit_error D (req_id r) (- ENXIO)) s
       = Ok (- ENXIO, s')
    /\ R s' A' /\ placed [] A' /\ arg :: args A' ≡ₚ args A.
Proof.
  intros HR Hp [_ Hd] Hs (F1 & F2 & HF)%list_elem_of_split. cbv zeta.
  pose proof (rf_rep _ _ _ _ _ _ HR) as Hrep. rewrite HF in Hrep.
  pose proof (rf_fresh _ _ _ _ _ _ HR (req_id r)) as Hq.
  rewrite <- (root_of_request r) in *.
  destruct (give_back_ok N D s F1 arg (of_request r) F2 Hrep) as (x & s' & Hx & Hr & HR' & Hk).
  { apply Hq. rewrite <- tids_of_request. apply root_tids. }
  exists x, s'. split; [done|]. split; [done|]. rewrite HF, filter_root.
  2: { pose proof (rep_NoDup _ _ _ _ Hrep) as Hn. by apply NoDup_app in Hn as [? _]. }
  split; [by eapply keeps_refines; [eapply refines_weaken|..]|].
  split; [|unfold args; rewrite HF; cbn; rewrite !map_app; cbn; solve_Permutation].
  destruct (Hd Hs) as (Hi & Hqu & Ha). unfold placed in *. cbn. rewrite HF, Hi, Hqu, Ha in *.
  cbn in *. unfold fleaves in *. rewrite concat_mid in Hp. cbn in Hp.
  rewrite <- (app_nil_r (tleaves _)) in Hp at 2. by apply Permutation_app_inv_l in Hp.
Qed.
(** The tree passes nvme_qpair_check_enabled. *)
Lemma check_new s A arg r d :
  refines N D (ids r) [] s (a_add arg r A) -> placed (tleaves (of_request r)) (a_add arg r A) ->
  calm (a_add arg r A) ->
  let A1 := acheck E (a_add arg r A) in
  exists b s1, nvme_qpair_check_enabled E D (_nvme_qpair_submit_request E D (S d)) s = Ok (b, s1)
    /\ refines N D (ids r) [] s1 A1 /\ placed (tleaves (of_request r)) A1 /\ calm A1
    /\ stable (a_conn A1) /\ (arg, of_request r) ∈ a_forest A1.
Proof.
  intros HR Hp HA A1. destruct (check_ok N D (ids r) [] E d s _ _ HR Hp HA (aside_nil _)) as (s1 & Hr1 & HR1 & Hp1).
  exists (bool_decide (state (a_conn A1) = NVME_QPAIR_ENABLED)), s1. split; [done|].
  split; [done|]. split; [done|]. destruct (acheck_calm E _ HA) as [HA1 Hs1]. split; [done|].
  split; [done|]. apply acheck_other; [|cbn; set_solver]. intros i Hi Hin.
  pose proof (placed_NoDup _ _ _ _ _ _ _ HR Hp) as Hn. rewrite !(assoc (++)) in Hn.
  apply NoDup_app in Hn as (_ & Hn & _). apply (Hn i); [|done].
  unfold held in Hi. by rewrite (assoc (++)) in Hi.
Qed.

(** A request that does not go behind the queue. *)
Lemma submit_start fresh s A arg r submit_ :
  refines N D fresh [] s A -> (arg, of_request r) ∈ a_forest A ->
  (is_leaf (of_request r) = true -> a_queued A = []) ->
  nvme_qpair_submit_request submit_ (req_id r) s
  = (rc ← submit_ (req_id r);
     if rc =? - EAGAIN then _ ← queue_tail (req_id r); mret 0 else mret rc) s.
Proof.
  intros HR Hin Hq. unfold nvme_qpair_submit_request. mstep. destruct r as [i f cs].
  destruct (within_node N D None (CbArg arg) i (Cpl 0 0 0 0) (map of_request cs) s A
    (refines_weaken _ _ _ _ _ _ HR) (within_forest _ _ _ Hin)) as [x Hx].
  erewrite M_bind_ok by (apply load_ok, Hx).
  rewrite (has_children _ _ _ Hx : _ = map root (map of_request cs)), (rf_queued _ _ _ _ _ _ HR).
  destruct cs as [|c cs].
  - by rewrite Hq.
  - rewrite (bool_decide_false (map root (map of_request (c :: cs)) = [])) by done.
    by rewrite andb_false_r.
Qed.

(** The submission from the check on. *)
Lemma submit_checked s A arg r :
  refines N D (ids r) [] s A -> placed (tleaves (of_request r)) A -> calm A -> stable (a_conn A) ->
  (arg, of_request r) ∈ a_forest A -> (is_leaf (of_request r) = true -> a_queued A = []) ->
  let A' := if disconnected (a_conn A)
            then a_set_forest (List.filter (fun x => negb (Nat.eqb (root x.2) (req_id r))) (a_forest A)) A
            else fold_left (asubmit_leaf E) (tleaves (of_request r)) A in
  exists s', nvme_qpair_submit_request (_nvme_qpair_submit_request E D D) (req_id r) s
      = Ok (if disconnected (a_conn A) then - ENXIO else 0, s')
    /\ R s' A' /\ placed [] A'
    /\ (if disconnected (a_conn A) then arg :: args A' else args A') ≡ₚ args A.
Proof.
  intros HR Hp HA Hs Hin Hq. unfold disconnected. cbv zeta. case_bool_decide as Hst.
  - erewrite submit_start by done. assert (exists d, D = S d) as [d Hd] by (exists (D - 1)%nat; lia).
    destruct (give_back_refines s A arg r HR Hp HA Hst Hin) as (x & s' & Hx & Hr & HR' & Hp' & Hargs).
    exists s'. split; [|done]. rewrite Hd at 2. cbn [_nvme_qpair_submit_request]. unfold submit_body.
    rewrite <- (rf_conn _ _ _ _ _ _ HR) in Hs, Hst. rewrite M_bind_assoc.
    erewrite M_bind_ok by by apply check_stable. rewrite M_bind_assoc. unfold nvme_qpair_get_state. mstep.
    rewrite M_bind_assoc. erewrite M_bind_ok by by apply load_ok.
    rewrite Hst, (bool_decide_true (_ = _)) by done. cbn [orb]. by erewrite M_bind_ok by exact Hr.
  - rewrite <- root_of_request.
    destruct (submit_tree E N D (of_request r) None (CbArg arg) D s A []) as (s' & Hr & HR' & Hp').
    + by eapply refines_weaken.
    + by rewrite app_nil_r.
    + by constructor; [apply HA|..].
    + by apply within_forest.
    + etransitivity; [|exact HD]. pose proof (rf_rep _ _ _ _ _ _ HR) as Hrep.
      apply list_elem_of_split in Hin as (F1 & F2 & HF). rewrite HF in Hrep.
      etransitivity; [apply depth_tids|]. pose proof (Permutation_length (rp_ids _ _ _ _ Hrep)) as Hl.
      rewrite fids_mid, !length_app, length_seq in Hl. lia.
    + exists s'. by rewrite asubmit_leaves_args.
Qed.

Lemma bind_state {X Y : Type} (m : M qst X) (f : X -> M qst Y) s s1 :
  m s = m s1 -> (m ≫= f) s = (m ≫= f) s1.
Proof. intros H. unfold mbind, M_bind. by rewrite H. Qed.

Lemma aissue_calm arg t A :
  calm A -> calm (aissue E arg t A).2.
Proof.
  intros HA. unfold aissue. set (A0 := a_set_forest _ A).
  assert (HA0 : calm A0) by (destruct HA; by constructor).
  destruct (negb _ && _) eqn:Hb; cbn [snd].
  - apply andb_true_iff in Hb as [Hb%negb_true_iff%bool_decide_eq_false _].
    destruct HA as [Hc Hd]. constructor; [done|]. intros Hs. cbn in Hs. by destruct (Hd Hs) as (_ & ? & _).
  - destruct (acheck_calm E _ HA0) as [HA1 _]. unfold disconnected.
    destruct (bool_decide_reflect (state (a_conn (acheck E A0)) = NVME_QPAIR_DISCONNECTED)) as [Hs|Hs];
      cbn [snd].
    + destruct HA1 as [Hc Hd]. constructor; [done|]. intros Hs'. apply (Hd Hs').
    + destruct HA1 as [Hc Hd].
      destruct (asubmit_leaves_keeps E (tleaves t) (acheck E A0)) as (_ & Hc' & _).
      constructor; [by rewrite Hc'|]. intros Hs'. by rewrite Hc' in Hs'.
Qed.

Lemma issue_ok s A arg r q :
  R s A -> placed [] A -> calm A -> taken (ids r) (pool s) q -> plain r = true ->
  exists s', issue E D D arg r q s = Ok ((aissue E arg (of_request r) A).1, s')
    /\ R s' (aissue E arg (of_request r) A).2 /\ placed [] (aissue E arg (of_request r) A).2
    /\ args (aissue E arg (of_request r) A).2
       ≡ₚ (if (aissue E arg (of_request r) A).1 =? 0 then [arg] else []) ++ args A.
Proof.
  intros HR Hp HA Ht Hpl. unfold issue. mstep.
  destruct (install_ok N D s A arg r q HD HR Hp Ht Hpl) as [HR0 Hp0].
  assert (HA0 : calm (a_add arg r A)) by (destruct HA; by constructor).
  assert (Hin0 : (arg, of_request r) ∈ a_forest (a_add arg r A)) by (cbn; set_solver).
  assert (Hargs0 : args (a_add arg r A) ≡ₚ arg :: args A)
    by (unfold args, a_add; cbn; rewrite map_app; cbn; solve_Permutation).
  unfold aissue. fold (a_add arg r A). destruct (negb _ && _) eqn:Hb; cbn [fst snd].
  - apply andb_true_iff in Hb as [Hb%negb_true_iff%bool_decide_eq_false Hlf].
    assert (Htl : tleaves (of_request r) = [req_id r]) by (destruct r as [i f [|c cs]]; done).
    rewrite Htl in Hp0. pose proof (refines_weaken _ _ _ _ _ _ HR0) as HR1.
    destruct (leaf_ok _ _ _ _ _ _ _ _ HR1 Hp0) as [x [Hx Hc Ho]].
    destruct (queue_tail_ok N D _ _ _ _ HR1 Hp0) as (s' & Hr & HR' & Hp').
    exists s'. unfold nvme_qpair_submit_request. mstep. erewrite M_bind_ok by by apply load_ok.
    rewrite (rf_queued _ _ _ _ _ _ HR1 : _ = a_queued A), bool_decide_false, bool_decide_true by done.
    rewrite (proj2 (Z.eqb_neq _ _) Ho). cbn [negb andb orb].
    split; [by erewrite M_bind_ok by exact Hr|]. rewrite root_of_request. split; [done|]. split; [done|].
    cbn [app Z.eqb]. by rewrite <- Hargs0.
  - assert (Hq : is_leaf (of_request r) = true -> a_queued A = []).
    { intros Hlf. rewrite Hlf, andb_true_r in Hb. by apply negb_false_iff, bool_decide_eq_true in Hb. }
    assert (exists d, D = S (S d)) as [d Hd] by (exists (D - 2)%nat; lia).
    destruct (check_new _ A arg r d HR0 Hp0 HA0) as (b & s1 & Hr1 & HR1 & Hp1 & HA1 & Hs1 & Hin1).
    assert (Hq1 : is_leaf (of_request r) = true -> a_queued (acheck E (a_add arg r A)) = []).
    { intros Hlf. apply acheck_queue; [done|]. by apply Hq. }
    destruct (submit_checked s1 _ arg r HR1 Hp1 HA1 Hs1 Hin1 Hq1) as (s' & Hr & HR' & Hp' & Hargs).
    rewrite (acheck_args E), Hargs0 in Hargs.
    exists s'. rewrite root_of_request. split;
      [|destruct (disconnected _); (split; [done|]; split; [done|]); [by apply Permutation_cons_inv in Hargs|done]].
    transitivity (nvme_qpair_submit_request (_nvme_qpair_submit_request E D D) (req_id r) s1);
      [|rewrite Hr; by destruct (disconnected _)].
    rewrite (submit_start _ _ _ arg r _ HR0 Hin0 Hq), (submit_start _ _ _ arg r _ HR1 Hin1 Hq1).
    apply bind_state. rewrite Hd at 2 4. cbn [_nvme_qpair_submit_request].
    apply (body_check E D _ _ _ b); [exact Hr1|]. by rewrite (rf_conn _ _ _ _ _ _ HR1).
Qed.
End Issue.
