(* ===== verification/NvmeQpairRun.v ===== *)
(** * The queue pair driven by its user, its transport and its controller

    The calls that reach a queue pair as events, their runs, and the relation
    of a run to the specification: every run is one of [NvmeQpairSpec], no
    assertion fails, and every command is accounted for. *)

From S2P Require Import Prelude NsCmd NsCmdLemmas NvmeQpair NvmeQpairLemmas NvmeQpairSpec.
From S2P Require Import NvmeQpairRefine NvmeQpairCommands NvmeQpairPoll NvmeQpairIssue.

Inductive event :=
  | EvIssue (arg : Z) (r : request) (q : qpair) (** a command has built [r], leaving the pool [q] *)
  | EvPoll (p : poll)
  | EvAbort (arg : Z)
  | EvFail (** nvme_ctrlr_fail_io_qpairs *)
  | EvReconnect (rc0 : Z) (polls : list poll)
  | EvDisconnect
  | EvReset (b : bool) (** is_resetting of the controller *).

Section Run.
Context (E : tenv) (D : nat).

Definition exec (e : event) : M qst Z :=
  match e with
  | EvIssue arg r q => issue E D D arg r q
  | EvPoll p => spdk_nvme_qpair_process_completions E D D p
  | EvAbort arg => nvme_qpair_abort_queued_reqs_with_cbarg arg
  | EvFail => _ ← nvme_ctrlr_fail_io_qpairs; mret 0
  | EvReconnect rc0 polls => spdk_nvme_ctrlr_reconnect_io_qpair E D D rc0 polls
  | EvDisconnect => _ ← nvme_transport_ctrlr_disconnect_qpair E D; mret 0
  | EvReset b => _ ← modify (fun s => set_conn (with_resetting b (cn s)) s); mret 0
  end.

(** A command takes its requests from the pool; the controller fails a queue
    pair that is enabled or disconnected; the busy wait of a connection ends. *)
Definition allowed (s : qst) (e : event) : Prop :=
  match e with
  | EvIssue arg r q => taken (ids r) (pool s) q /\ plain r = true
  | EvFail => state (cn s) = NVME_QPAIR_ENABLED \/ state (cn s) = NVME_QPAIR_DISCONNECTED
  | EvReconnect rc0 polls => exec e s <> OutOfFuel
  | _ => True
  end.

(** A run: events, their results, the state after them. *)
Inductive runs (s0 : qst) : list event -> list Z -> qst -> Prop :=
  | runs_nil : runs s0 [] [] s0
  | runs_step es rs s e rc s' :
      runs s0 es rs s -> allowed s e -> exec e s = Ok (rc, s') ->
      runs s0 (es ++ [e]) (rs ++ [rc]) s'.

(** The steps of the specification. *)
Definition aexec (e : event) (A : ast) : option (Z * ast) :=
  match e with
  | EvIssue arg r q => Some (aissue E arg (of_request r) A)
  | EvPoll p => Some (apoll E p A)
  | EvAbort arg =>
      Some (u32 (Z.of_nat (length (List.filter (of_arg (a_forest A) arg) (a_queued A)))), aabort arg A)
  | EvFail => Some (0, a_set_conn (with_failure SPDK_NVME_QPAIR_FAILURE_OTHER (a_conn A)) A)
  | EvReconnect rc0 polls => areconnect E rc0 polls A
  | EvDisconnect => Some (0, adisconnect A)
  | EvReset b => Some (0, a_set_conn (with_resetting b (a_conn A)) A)
  end.

Fixpoint aexecs (es : list event) (A : ast) : option (list Z * ast) :=
  match es with
  | [] => Some ([], A)
  | e :: es' =>
      '(rc, B) ← aexec e A;
      '(rcs, C) ← aexecs es' B;
      Some (rc :: rcs, C)
  end.

Lemma aexecs_snoc es : forall A rs B e rc C,
  aexecs es A = Some (rs, B) -> aexec e B = Some (rc, C) -> aexecs (es ++ [e]) A = Some (rs ++ [rc], C).
Proof.
  induction es as [|e0 es IH]; intros A rs B e rc C; cbn.
  - intros [= <- <-] ->. done.
  - destruct (aexec e0 A) as [[rc0 B0]|]; [|done]. cbn.
    destruct (aexecs es B0) as [[rs0 C0]|] eqn:He; [|done]. cbn. intros [= <- <-] H2.
    by rewrite (IH _ _ _ _ _ _ He H2).
Qed.

(** The commands accepted during a run. *)
Fixpoint accepted (es : list event) (rs : list Z) : list Z :=
  match es, rs with
  | EvIssue arg _ _ :: es', rc :: rs' => (if rc =? 0 then [arg] else []) ++ accepted es' rs'
  | _ :: es', _ :: rs' => accepted es' rs'
  | _, _ => []
  end.

Definition accepts (e : event) (rc : Z) : list Z := accepted [e] [rc].

Lemma accepted_snoc es rs e rc :
  length es = length rs -> accepted (es ++ [e]) (rs ++ [rc]) = accepted es rs ++ accepts e rc.
Proof.
  revert rs. induction es as [|e0 es IH]; intros [|rc0 rs] Hl; cbn in Hl; try done.
  injection Hl as Hl. rewrite <- !app_comm_cons. cbn [accepted].
  destruct e0; rewrite IH by done; by rewrite ?(assoc (++)).
Qed.
End Run.

Lemma runs_cons E D s e rc s1 es rs s' :
  allowed E D s e -> exec E D e s = Ok (rc, s1) -> runs E D s1 es rs s' ->
  runs E D s (e :: es) (rc :: rs) s'.
Proof.
  intros Ha He H. induction H as [|es rs s2 e2 rc2 s3 _ IH Ha2 He2].
  - apply (runs_step E D s [] [] s); [constructor|done|done].
  - rewrite !app_comm_cons. by eapply runs_step.
Qed.

(** ** One event *)

Section Step.
Context (E : tenv) {HE : SyncTransport E} (N D : nat).
Hypothesis (HD : (N <= D)%nat) (HD2 : (2 <= D)%nat).

Abbreviation sim := (sim N D).

Lemma apoll_args p A : args (apoll E p A).2 ≡ₚ args A.
Proof.
  unfold apoll. destruct (negb _ && negb _); [apply acheck_args|].
  assert (Hfail : forall B, args (afail B).2 ≡ₚ args B) by (intros B; unfold afail; cbn [snd]; by rewrite adisconnect_args).
  assert (Hreap : forall l B, args (fold_left areap l B) ≡ₚ args B).
  { intros l. induction l as [|x l IH]; intros B; [done|]. cbn. rewrite IH. unfold areap.
    destruct (a_inflight B !! x.1); [|done]. by rewrite acomplete_args. }
  assert (Ht : args (atcp_poll E p (acheck E A)).2 ≡ₚ args A).
  { rewrite <- (acheck_args E A). unfold atcp_poll. destruct (negb (p_flushed p)); [apply Hfail|].
    rewrite <- (Hreap (p_cpls p) (acheck E A)). set (B := fold_left areap _ _). destruct (negb (p_read p)); [apply Hfail|].
    case_bool_decide; [|done]. destruct (p_connect p =? 0); [|destruct (_ =? _); [done|apply Hfail]].
    cbn [snd]. rewrite afinish_args. unfold aconnected. set (B0 := a_set_conn _ B).
    destruct (is_resetting _); [done|]. destruct (Z.to_nat _) as [|k]; [done|].
    destruct (a_queued B0) as [|i q]; [done|]. pose proof (asend_args E (acheck E (a_set_queued q B0)) i) as Ha.
    pose proof (acheck_args E (a_set_queued q B0)) as Hc. destruct (asend E _ i) as [rc C]. cbn [snd] in Ha.
    rewrite <- Ha in Hc. destruct (rc =? 0); [by rewrite aresend_args|done]. }
  destruct (atcp_poll E p (acheck E A)) as [ret B]. cbn [snd] in *. rewrite afinish_args.
  destruct (_ && _); by rewrite ?aresend_args.
Qed.

Lemma aconnect_wait_args polls : forall A rc B,
  aconnect_wait E polls A = Some (rc, B) -> args B ≡ₚ args A.
Proof.
  induction polls as [|p ps IH]; intros A rc B; cbn; destruct (negb _); [by intros [= _ <-]|done|by intros [= _ <-]|].
  pose proof (apoll_args p A) as Ha. destruct (apoll E p A) as [rc1 B1]. cbn [snd] in Ha.
  destruct (rc1 <? 0); [by intros [= _ <-]|]. intros H. by rewrite (IH _ _ _ H).
Qed.

Lemma areconnect_args rc0 polls A rc B : areconnect E rc0 polls A = Some (rc, B) -> args B ≡ₚ args A.
Proof.
  unfold areconnect. destruct (is_removed _); [by intros [= _ <-]|].
  destruct (is_resetting _); [by intros [= _ <-]|]. destruct (negb _); [by intros [= _ <-]|].
  set (A0 := a_set_conn _ A). destruct (rc0 =? 0).
  - destruct (aconnect_wait E polls A0) as [[rc1 B1]|] eqn:Hw; [|done].
    apply aconnect_wait_args in Hw. destruct (rc1 =? 0); intros [= _ <-]; [done|].
    by rewrite adisconnect_args.
  - destruct (rc0 =? 0); intros [= _ <-]; [done|]. by rewrite adisconnect_args.
Qed.

Lemma step_ok s A e :
  sim s A -> allowed E D s e ->
  exists rc s' B, exec E D e s = Ok (rc, s') /\ aexec E e A = Some (rc, B) /\ sim s' B
    /\ args B ≡ₚ accepts e rc ++ args A.
Proof.
  intros HS Ha. pose proof HS as (HR & Hp & HA).
  assert (exists d, D = S (S d)) as [d Hd] by (exists (D - 2)%nat; lia).
  destruct e as [arg r q|p|arg| |rc0 polls| |b]; cbn [exec aexec allowed] in *.
  - destruct Ha as [Ht Hpl]. destruct (issue_ok E N D HD HD2 s A arg r q HR Hp HA Ht Hpl)
      as (s' & Hr & HR' & Hp' & Hargs). pose proof (aissue_calm E arg (of_request r) A HA) as HA'.
    destruct (aissue E arg (of_request r) A) as [rc B]. exists rc, s', B. split; [done|]. split; [done|].
    split; [done|]. cbn [accepts accepted]. by rewrite app_nil_r.
  - destruct (poll_ok E N D d p s A HR Hp HA) as (s' & Hr & HR' & Hp' & HA').
    pose proof (apoll_args p A) as Hargs. rewrite <- Hd in Hr. destruct (apoll E p A) as [rc B].
    by exists rc, s', B.
  - destruct (abort_ok N D s A arg HR Hp) as (s' & Hr & HR' & Hp').
    eexists _, s', _. split; [exact Hr|]. split; [done|]. split; [|done]. split; [done|]. split; [done|].
    destruct HA as [Hc Hdr]. constructor; [done|]. intros Hs. destruct (Hdr Hs) as (H1 & H2 & H3).
    cbn. rewrite H1, H2, H3. done.
  - exists 0. eexists _, _. split; [reflexivity|]. split; [done|]. split; [|done].
    rewrite (rf_conn _ _ _ _ _ _ HR) in Ha |- *. split; [by apply set_conn_ok|]. split; [done|].
    destruct HA as [[Hc Hn] Hdr]. constructor; [|done]. constructor; [by apply failing_settled|].
    cbn. intros [?|?]; destruct Ha; congruence.
  - pose proof (reconnect_ok E N D d rc0 polls s A HS) as Hrc. rewrite <- Hd in Hrc.
    destruct (areconnect E rc0 polls A) as [[rc B]|] eqn:Hre; [|done].
    destruct Hrc as (s' & Hr & HS'). exists rc, s', B. do 3 (split; [done|]). by eapply areconnect_args.
  - destruct (disconnect_ok N D [] [] E s A [] HR Hp (co_settled _ (cm_conn _ HA)) (cm_drained _ HA))
      as (s' & Hr & HR' & Hp').
    destruct (adisconnect_ok A (co_settled _ (cm_conn _ HA)) (cm_drained _ HA)) as (Hc & Hdr & _).
    exists 0, s', (adisconnect A). split; [by erewrite M_bind_ok by exact Hr|]. split; [done|].
    split; [by split; [|split; [|constructor]]|]. by rewrite (adisconnect_args A).
  - exists 0. eexists _, _. split; [reflexivity|]. split; [done|]. split; [|done].
    rewrite (rf_conn _ _ _ _ _ _ HR). split; [by apply set_conn_ok|]. split; [done|].
    destruct HA as [[[? ? ?] Hn] Hdr]. constructor; [|done]. by constructor.
Qed.
End Step.
