(* ===== verification/NvmeQpairTheorems.v ===== *)
(** * The queue pair: refinement, conservation, completion, progress *)

From S2P Require Import Prelude NsCmd NsCmdLemmas NvmeQpair NvmeQpairLemmas NvmeQpairSpec.
From S2P Require Import NvmeQpairRefine NvmeQpairCommands NvmeQpairPoll NvmeQpairIssue NvmeQpairRun.

(** ** The initial state *)

Definition ainit (c : conn) : ast := Ast [] [] [] [] c [] 0.

Lemma init_ok N D c :
  conn_ok c -> Z.of_nat N < 2 ^ 32 -> sim N D (nvme_qpair_init N c) (ainit c).
Proof.
  intros Hc HN. split; [|split; [by unfold placed|by constructor]].
  constructor; try done; [|by intros j ?%not_elem_of_nil..].
  constructor; try done; [apply Forall_nil_2|..].
  - cbn. symmetry. apply Permutation_rev.
  - intros j Hj. cbn in Hj |- *. exists request0. split; [|done].
    rewrite list_elem_of_In, <- in_rev, in_seq in Hj.
    rewrite lookup_insert_ne by lia. apply elem_of_list_to_map_1.
    + rewrite map_map. cbn. rewrite map_id. apply NoDup_seq.
    + apply list_elem_of_fmap. exists j. split; [done|]. apply elem_of_seq. lia.
Qed.

Section Reach.
Context (E : tenv) {HE : SyncTransport E} (N D : nat) (c : conn).
Hypothesis (HD : (N <= D)%nat) (HD2 : (2 <= D)%nat) (HN : Z.of_nat N < 2 ^ 32) (Hc : conn_ok c).

Lemma runs_sim es rs s :
  runs E D (nvme_qpair_init N c) es rs s ->
  exists A, aexecs E es (ainit c) = Some (rs, A) /\ sim N D s A
    /\ args A ≡ₚ accepted es rs /\ length es = length rs.
Proof.
  induction 1 as [|es rs s e rc s' _ (A & He & HS & Hargs & Hl) Ha Hr].
  - exists (ainit c). split; [done|]. split; [by apply init_ok|done].
  - destruct (step_ok E N D HD HD2 s A e HS Ha) as (rc' & s2 & B & Hr' & Ha' & HS' & Hargs').
    rewrite Hr in Hr'. injection Hr' as <- <-. exists B. split; [by eapply aexecs_snoc|].
    split; [done|]. rewrite accepted_snoc, !length_app by done. cbn. split; [|lia].
    rewrite Hargs', Hargs. apply Permutation_app_comm.
Qed.

(** C6: over a transport that completes its connections synchronously and either
    takes a request or asks to retry it, and for requests without an accel
    sequence that are not fabrics commands and that take their identifiers from
    the pool (of less than 2^32 requests): whatever the sequence of commands, polls,
    aborts, connections, resets and failures, where the controller fails
    the queue pair while it is enabled or disconnected only and the busy wait of a
    connection ends, the queue pair never fails an assertion, never returns a
    request twice and never follows a null parent; and its return codes, callbacks,
    queues and connection state are those of the specification over trees.
    Transports and failures outside these conditions do lead to a null parent:
    [resubmit_error_null_parent], [fail_while_connecting_null_parent]. *)
Theorem qpair_refines_spec es rs s :
  runs E D (nvme_qpair_init N c) es rs s ->
  (exists A, aexecs E es (ainit c) = Some (rs, A)
     /\ done s = a_done A /\ inflight s = a_inflight A /\ queued_req s = a_queued A
     /\ aborting_queued_req s = a_aborting A /\ cn s = a_conn A)
  /\ forall e, allowed E D s e -> exists rc s', exec E D e s = Ok (rc, s').
Proof.
  intros Hr. destruct (runs_sim es rs s Hr) as (A & He & HS & _). split.
  - exists A. destruct HS as [HR _]. split; [done|]. split_and!; apply HR.
  - intros e Ha. destruct (step_ok E N D HD HD2 s A e HS Ha) as (rc & s' & _ & Hx & _). eauto.
Qed.

(** A tree has a leaf. *)
Lemma tleaves_nonempty t : tleaves t <> [].
Proof.
  induction t as [i st cs IH] using rt_ind'. cbn. destruct cs as [|u us]; [done|].
  apply Forall_cons in IH as [Hu _]. cbn. by destruct (tleaves u).
Qed.

Lemma fleaves_nil F : fleaves F = [] -> F = [].
Proof.
  destruct F as [|[a t] F]; [done|]. unfold fleaves. cbn. pose proof (tleaves_nonempty t).
  by destruct (tleaves t).
Qed.

(** Nothing is held: everything is back in the pool. *)
Lemma sim_idle s A :
  sim N D s A -> held A = [] -> outstanding s = 0 /\ free_reqs s ≡ₚ seq 1 N /\ a_forest A = [].
Proof.
  intros (HR & Hp & _) Hh. unfold placed, held in *. rewrite app_nil_r, Hh in Hp.
  apply Permutation_nil_r, fleaves_nil in Hp. destruct (rf_rep _ _ _ _ _ _ HR) as [_ Hids Ho _ _ _ _ _].
  by rewrite Hp in *.
Qed.

(** C7: every request of the pool is at every moment in exactly one place;
    each accepted command is called back exactly once or still has a request in
    the hands of the transport or in a queue; and when none is, all requests are
    back and exactly the accepted commands have been called back.  The runs are
    those of C6: over a transport that connects synchronously and takes a request or
    asks to retry it, for requests without an accel sequence that are not fabrics
    commands, with failures of an enabled or disconnected queue pair only and
    connections whose busy wait ends. *)
Theorem requests_conserved es rs s :
  runs E D (nvme_qpair_init N c) es rs s ->
  outstanding s + Z.of_nat (length (free_reqs s)) = Z.of_nat N
  /\ NoDup (inflight s ++ queued_req s ++ aborting_queued_req s ++ free_reqs s)
  /\ (exists pending, accepted es rs ≡ₚ map fst (done s) ++ pending
        /\ (length pending <= length (inflight s ++ queued_req s ++ aborting_queued_req s))%nat)
  /\ (inflight s = [] -> queued_req s = [] -> aborting_queued_req s = [] ->
      free_reqs s ≡ₚ seq 1 N /\ accepted es rs ≡ₚ map fst (done s)).
Proof.
  intros Hr. destruct (runs_sim es rs s Hr) as (A & _ & HS & Hargs & _).
  pose proof HS as (HR & Hp & _). pose proof (rf_rep _ _ _ _ _ _ HR) as Hrep.
  rewrite (rf_inflight _ _ _ _ _ _ HR), (rf_queued _ _ _ _ _ _ HR), (rf_aborting _ _ _ _ _ _ HR),
    (rf_done _ _ _ _ _ _ HR).
  split_and!.
  - rewrite (rp_out _ _ _ _ Hrep). pose proof (Permutation_length (rp_ids _ _ _ _ Hrep)) as Hl.
    rewrite length_app, length_seq in Hl. lia.
  - pose proof (rep_NoDup _ _ _ _ Hrep) as Hn. pose proof (placed_NoDup _ _ _ _ _ _ _ HR Hp) as Hn2.
    rewrite app_nil_r in Hn2. rewrite (assoc (++) (a_queued A)), (assoc (++) (a_inflight A)).
    apply NoDup_app. split; [done|]. rewrite NoDup_app in Hn. destruct Hn as (_ & Hd & Hn).
    split; [|done]. intros i Hi. apply Hd, fleaves_fids. rewrite Hp, app_nil_r. done.
  - exists (map fst (a_forest A)). split; [by rewrite <- Hargs|]. rewrite length_map.
    unfold placed in Hp. rewrite app_nil_r in Hp. rewrite <- Hp. clear.
    induction (a_forest A) as [|[a t] F IH]; [done|]. unfold fleaves in *. cbn. rewrite length_app.
    pose proof (tleaves_nonempty t). destruct (tleaves t); [done|]. cbn. lia.
  - intros H1 H2 H3. destruct (sim_idle s A HS) as (_ & Hf & HF).
    { unfold held. by rewrite H1, H2, H3. }
    split; [done|]. rewrite <- Hargs. unfold args. rewrite HF. by rewrite app_nil_r.
Qed.
End Reach.

(** ** An example run *)

Module QpDemo.
(** A transport that holds one request at a time. *)
Definition E : tenv := Tenv (fun _ l _ => match l with [] => 0 | _ => - EAGAIN end) (fun _ => 0) false 1.
Definition c : conn :=
  Conn NVME_QPAIR_CONNECTED true SPDK_NVME_QPAIR_FAILURE_NONE 0 false false false false.
Definition f : req_fields := Fields CbUser (PayloadContig 0 None) 0 0 0 0 None cmd0 0.
(** A command split in two. *)
Definition r : request := Request 4 f [Request 3 f []; Request 2 f []].
Definition p : poll := Poll true [(O, Cpl 0 0 0 0)] 1 true 0.
Definition es : list event := [EvIssue 77 r (Qpair [1%nat] 3); EvPoll p; EvPoll p].
Definition run1 (e : event) (s : qst) : qst :=
  match exec E 4 e s with Ok (_, s') => s' | _ => s end.
Definition s1 : qst := Eval vm_compute in run1 (EvIssue 77 r (Qpair [1%nat] 3)) (nvme_qpair_init 4 c).
Definition s2 : qst := Eval vm_compute in run1 (EvPoll p) s1.
Definition s3 : qst := Eval vm_compute in run1 (EvPoll p) s2.

#[global] Instance E_sync : SyncTransport E.
Proof. constructor; [intros n [|] i; cbn; auto|done|done]. Qed.

Lemma c_ok : conn_ok c.
Proof. constructor; [constructor; cbn; auto; done|done]. Qed.

Lemma issue_allowed : allowed E 4 (nvme_qpair_init 4 c) (EvIssue 77 r (Qpair [1%nat] 3)).
Proof. by split. Qed.

Lemma runs_es : runs E 4 (nvme_qpair_init 4 c) es [0; 1; 1] s3.
Proof.
  eapply runs_cons; [exact issue_allowed|by vm_compute|].
  eapply runs_cons; [done|by vm_compute|]. eapply runs_cons; [done|by vm_compute|]. constructor.
Qed.

(** The transport held the first child, the second waited. *)
Lemma s1_waits : inflight s1 = [3%nat] /\ queued_req s1 = [2%nat] /\ done s3 = [(77, Cpl 0 0 0 0)].
Proof. done. Qed.
End QpDemo.

Lemma qpair_refines_spec_witness :
  (exists A, aexecs QpDemo.E QpDemo.es (ainit QpDemo.c) = Some ([0; 1; 1], A)
     /\ done QpDemo.s3 = a_done A /\ inflight QpDemo.s3 = a_inflight A
     /\ queued_req QpDemo.s3 = a_queued A /\ aborting_queued_req QpDemo.s3 = a_aborting A
     /\ cn QpDemo.s3 = a_conn A)
  /\ forall e, allowed QpDemo.E 4 QpDemo.s3 e -> exists rc s', exec QpDemo.E 4 e QpDemo.s3 = Ok (rc, s').
Proof.
  apply (qpair_refines_spec QpDemo.E 4 4 QpDemo.c); [lia|lia|lia|apply QpDemo.c_ok|apply QpDemo.runs_es].
Defined.

Lemma requests_conserved_witness :
  outstanding QpDemo.s1 + Z.of_nat (length (free_reqs QpDemo.s1)) = 4
  /\ NoDup (inflight QpDemo.s1 ++ queued_req QpDemo.s1 ++ aborting_queued_req QpDemo.s1 ++ free_reqs QpDemo.s1)
  /\ (exists pending, accepted [EvIssue 77 QpDemo.r (Qpair [1%nat] 3)] [0]
         ≡ₚ map fst (done QpDemo.s1) ++ pending
      /\ (length pending <= length (inflight QpDemo.s1 ++ queued_req QpDemo.s1
                                     ++ aborting_queued_req QpDemo.s1))%nat)
  /\ (inflight QpDemo.s1 = [] -> queued_req QpDemo.s1 = [] -> aborting_queued_req QpDemo.s1 = [] ->
      free_reqs QpDemo.s1 ≡ₚ seq 1 4
      /\ accepted [EvIssue 77 QpDemo.r (Qpair [1%nat] 3)] [0] ≡ₚ map fst (done QpDemo.s1)).
Proof.
  apply (requests_conserved QpDemo.E 4 4 QpDemo.c); [lia|lia|lia|apply QpDemo.c_ok|].
  eapply runs_cons; [exact QpDemo.issue_allowed|by vm_compute|constructor].
Defined.
