(* ===== verification/NvmeQpairStatus.v ===== *)
(** * The status of a split command

    A command completes when the last of its leaves does, in whatever order
    the leaves of all commands complete; it fails if and only if one of its
    leaves failed, with the status of a failed leaf. *)

From S2P Require Import Prelude NsCmd NsCmdLemmas NvmeQpair NvmeQpairLemmas NvmeQpairSpec.
From S2P Require Import NvmeQpairRefine NvmeQpairCommands NvmeQpairPoll NvmeQpairIssue NvmeQpairRun.
From S2P Require Import NvmeQpairTheorems.

Abbreviation err := spdk_nvme_cpl_is_error.

(** The statuses that the inner requests have collected. *)
Fixpoint stored (t : rt) : list cpl :=
  let 'Rt _ st cs := t in match cs with [] => [] | _ => st :: concat (map stored cs) end.

Definition bad (t : rt) : bool := existsb err (stored t).

Lemma stored_cons i st l : l <> [] -> stored (Rt i st l) = st :: concat (map stored l).
Proof. by destruct l. Qed.

Lemma stored_mid i st l1 t l2 :
  stored (Rt i st (l1 ++ t :: l2)) ≡ₚ st :: stored t ++ concat (map stored (l1 ++ l2)).
Proof. rewrite stored_cons by (by destruct l1). by rewrite concat_mid. Qed.

Lemma existsb_perm {T} (f : T -> bool) l k : l ≡ₚ k -> existsb f l = existsb f k.
Proof.
  induction 1 as [|x l k _ IH|x y l|l k m _ IH1 _ IH2]; cbn; [done|by rewrite IH| |by rewrite IH1].
  destruct (f x), (f y); done.
Qed.

Definition result_stored (r : rt + cpl) : list cpl :=
  match r with inl t => stored t | inr c => [c] end.

(** The completion of a leaf is the only new status, and no error is lost. *)
Lemma tcomplete_stored l c t : forall r, tcomplete l c t = Some r ->
  (forall x, x ∈ result_stored r -> x ∈ stored t \/ x = c)
  /\ existsb err (result_stored r) = bad t || err c.
Proof.
  induction t as [i st cs IH] using rt_ind'. intros r. cbn [tcomplete]. destruct cs as [|u us].
  { destruct (l =? i)%nat; [|done]. intros [= <-]. cbn. rewrite orb_false_r.
    split; [|done]. intros x ->%list_elem_of_singleton. by right. }
  destruct (first_tree _ _) as [[cs' e]|] eqn:Ef; [|done].
  apply first_tree_split in Ef as (l1 & t & l2 & Hcs & _ & He). rewrite Hcs in *.
  rewrite Forall_app, Forall_cons in IH. destruct IH as (_ & IH & _).
  unfold bad. rewrite (existsb_perm err _ _ (stored_mid i st l1 t l2)). cbn [existsb].
  rewrite existsb_app. setoid_rewrite stored_mid. setoid_rewrite elem_of_cons. setoid_rewrite elem_of_app.
  destruct e as [c'|].
  - destruct He as [Ht ->]. destruct (IH _ Ht) as [H1 H2]. cbn in H1, H2. rewrite orb_false_r in H2.
    setoid_rewrite list_elem_of_singleton in H1. unfold bad in H2.
    set (st' := if err c' then c' else st).
    assert (Hst : err st' = existsb err (stored t) || err c || err st).
    { unfold st'. destruct (err c') eqn:Hc'; rewrite <- H2; [by rewrite Hc'|done]. }
    assert (Hin : st' = st \/ st' ∈ stored t \/ st' = c).
    { unfold st'. destruct (err c'); [right; by apply H1|by left]. }
    destruct (l1 ++ l2) as [|v vs] eqn:El; intros [= <-]; cbn [result_stored].
    + cbn. rewrite Hst, !orb_false_r. split; [|by destruct (err st), (existsb err (stored t)), (err c)].
      intros x ->%list_elem_of_singleton. naive_solver.
    + rewrite stored_cons by done. cbn [existsb]. rewrite Hst. split.
      * intros x [->|Hx]%elem_of_cons; naive_solver.
      * by destruct (err st), (existsb err (stored t)), (err c), (existsb err (concat _)).
  - destruct He as (t' & Ht & ->). intros [= <-]. destruct (IH _ Ht) as [H1 H2]. cbn [result_stored] in *.
    unfold bad in H2. split.
    + intros x. rewrite stored_mid, elem_of_cons, elem_of_app. naive_solver.
    + rewrite (existsb_perm err _ _ (stored_mid i st l1 t' l2)). cbn [existsb]. rewrite existsb_app, H2.
      by destruct (err st), (existsb err (stored t)), (err c), (existsb err (concat _)).
Qed.

(** What the completion [c] of a command says about its tree and the completions
    [cs] of leaves. *)
Definition verdict (cs : list (nat * cpl)) (t : rt) (c : cpl) : Prop :=
  err c = bad t || existsb (fun x => bool_decide (x.1 ∈ tleaves t) && err x.2) cs
  /\ (c ∈ stored t \/ exists l, l ∈ tleaves t /\ (l, c) ∈ cs).

Lemma verdict_other l c cs u x : l ∉ tleaves u -> verdict cs u x -> verdict ((l, c) :: cs) u x.
Proof.
  intros Hl [H1 H2]. split.
  - cbn. rewrite bool_decide_false by done. done.
  - destruct H2 as [?|(k & ? & ?)]; [by left|]. right. exists k. split; [done|]. by right.
Qed.

(** The leaves of [t] are [l] and those of [rest]; [l] does not complete again. *)
Lemma leaves_existsb l cs t rest :
  tleaves t ≡ₚ l :: rest -> l ∉ map fst cs ->
  existsb (fun x : nat * cpl => bool_decide (x.1 ∈ tleaves t) && err x.2) cs
  = existsb (fun x => bool_decide (x.1 ∈ rest) && err x.2) cs.
Proof.
  intros Ht Hl. induction cs as [|[k x] cs IH]; [done|]. cbn in Hl |- *.
  apply not_elem_of_cons in Hl as [Hk Hl]. rewrite IH by done. f_equal. f_equal.
  apply bool_decide_ext. rewrite Ht, elem_of_cons. naive_solver.
Qed.

Lemma verdict_stay l c cs t t' x :
  tcomplete l c t = Some (inl t') -> l ∉ map fst cs -> verdict cs t' x -> verdict ((l, c) :: cs) t x.
Proof.
  intros Ht Hl [H1 H2]. pose proof (tcomplete_leaves _ _ _ _ Ht) as Hlv. cbn in Hlv.
  destruct (tcomplete_stored _ _ _ _ Ht) as [H3 H4]. cbn [result_stored] in H3, H4. fold (bad t') in H4.
  assert (Hlt : l ∈ tleaves t) by (rewrite Hlv; left). split.
  - rewrite H1, H4. cbn. rewrite bool_decide_true by done. cbn.
    rewrite (leaves_existsb l cs t _ Hlv Hl). by rewrite orb_assoc.
  - destruct H2 as [H2|(k & H2 & H5)].
    + apply H3 in H2 as [?| ->]; [by left|]. right. exists l. split; [done|]. left.
    + right. exists k. split; [rewrite Hlv; by right|]. by right.
Qed.

Lemma verdict_done l c cs t x :
  tcomplete l c t = Some (inr x) -> l ∉ map fst cs -> verdict ((l, c) :: cs) t x.
Proof.
  intros Ht Hl. pose proof (tcomplete_leaves _ _ _ _ Ht) as Hlv. cbn in Hlv.
  destruct (tcomplete_stored _ _ _ _ Ht) as [H3 H4]. cbn in H4. rewrite orb_false_r in H4.
  assert (Hlt : l ∈ tleaves t) by (rewrite Hlv; left). split.
  - rewrite H4. cbn. rewrite bool_decide_true by done. cbn. rewrite (leaves_existsb l cs t _ Hlv Hl).
    f_equal. assert (existsb (fun x : nat * cpl => bool_decide (x.1 ∈ @nil nat) && err x.2) cs = false) as ->;
      [|by rewrite orb_false_r]. clear. induction cs as [|y cs IH]; [done|]. cbn. rewrite IH.
    rewrite bool_decide_false; [done|]. by intros ?%not_elem_of_nil.
  - destruct (H3 x) as [?| ->]; [left|by left|]. right. exists l. split; [done|]. left.
Qed.

(** Completions one after the other. *)
Fixpoint fcompletes (cs : list (nat * cpl)) (F : forest) : forest * list (Z * cpl) :=
  match cs with
  | [] => (F, [])
  | (l, c) :: cs' =>
      let '(F1, o1) := fcomplete l c F in
      let '(F2, o2) := fcompletes cs' F1 in
      (F2, o1 ++ o2)
  end.

Lemma fleaves_mid F1 a t F2 : fleaves (F1 ++ (a, t) :: F2) ≡ₚ tleaves t ++ fleaves (F1 ++ F2).
Proof. unfold fleaves. by rewrite concat_mid. Qed.

Lemma Forall2_verdict_other l c cs (F : forest) cl :
  l ∉ fleaves F -> Forall2 (fun x k => verdict cs x.2 k) F cl ->
  Forall2 (fun x k => verdict ((l, c) :: cs) x.2 k) F cl.
Proof.
  intros Hl H. induction H as [|x k F cl Hx _ IH]; constructor; unfold fleaves in Hl; cbn in Hl;
    apply not_elem_of_app in Hl as [H1 H2]; [by apply verdict_other|by apply IH].
Qed.

Lemma fcompletes_verdict cs : forall F, NoDup (fleaves F) -> map fst cs ≡ₚ fleaves F ->
  exists cl, (fcompletes cs F).1 = [] /\ Forall2 (fun x c => verdict cs x.2 c) F cl
    /\ (fcompletes cs F).2 ≡ₚ zip (map fst F) cl.
Proof.
  induction cs as [|[l c] cs IH]; intros F Hn Hp; cbn in Hp.
  { apply symmetry, Permutation_nil_r, fleaves_nil in Hp as ->. exists []. split; [done|]. split; [constructor|done]. }
  assert (Hl : l ∈ fleaves F) by (rewrite <- Hp; left). cbn [fcompletes].
  pose proof (fcomplete_leaves l c F Hl) as Hlv.
  assert (Hp' : map fst cs ≡ₚ fleaves (fcomplete l c F).1)
    by (apply (Permutation_cons_inv (a := l)); by rewrite Hp).
  assert (Hn' : NoDup (l :: fleaves (fcomplete l c F).1)) by by rewrite <- Hlv.
  apply NoDup_cons in Hn' as [Hl' Hn']. assert (Hlc : l ∉ map fst cs) by by rewrite Hp'.
  destruct (IH _ Hn' Hp') as (cl & HF & Hv & Hz). clear IH.
  destruct (fcomplete_split l c F Hl) as (F1 & a & t & F2 & r & -> & Ht & Hfc). rewrite Hfc in *.
  rewrite fleaves_mid, (tcomplete_leaves _ _ _ _ Ht) in Hn. cbn [app] in Hn.
  apply NoDup_cons in Hn as [Hn _]. rewrite not_elem_of_app in Hn. destruct Hn as [_ Hn].
  unfold fleaves in Hn. rewrite map_app, concat_app, not_elem_of_app in Hn. destruct Hn as [Hn1 Hn2].
  destruct r as [t'|c']; cbn [fst snd] in *; destruct (fcompletes cs _) as [F' o] eqn:Ho; cbn [fst snd] in *.
  - apply Forall2_app_inv_l in Hv as (cl1 & cl2 & Hv1 & Hv2 & ->).
    apply Forall2_cons_inv_l in Hv2 as (x & cl2' & Hx & Hv2 & ->). exists (cl1 ++ x :: cl2').
    split; [done|]. split.
    + apply Forall2_app; [by apply Forall2_verdict_other|]. constructor; [by eapply verdict_stay|].
      by apply Forall2_verdict_other.
    + cbn. rewrite Hz. by rewrite !map_app.
  - apply Forall2_app_inv_l in Hv as (cl1 & cl2 & Hv1 & Hv2 & ->). exists (cl1 ++ c' :: cl2).
    split; [done|]. split.
    + apply Forall2_app; [by apply Forall2_verdict_other|]. constructor; [by apply verdict_done|].
      by apply Forall2_verdict_other.
    + cbn. rewrite Hz, !map_app. apply Forall2_length in Hv1. rewrite !zip_with_app by by rewrite length_map.
      cbn. by rewrite Permutation_middle.
Qed.

Lemma completes_rep N D cs : forall s F, rep N D s F -> NoDup (fleaves F) -> map fst cs ≡ₚ fleaves F ->
  exists s', for_each cs (fun x => nvme_complete_request D x.1 x.2) s = Ok (tt, s')
    /\ rep N D s' (fcompletes cs F).1 /\ done s' = done s ++ (fcompletes cs F).2.
Proof.
  induction cs as [|[l c] cs IH]; intros s F HR Hn Hp; cbn in Hp.
  { exists s. cbn. by rewrite app_nil_r. }
  assert (Hl : l ∈ fleaves F) by (rewrite <- Hp; left).
  pose proof (fcomplete_leaves l c F Hl) as Hlv.
  destruct (rep_complete N D s F l c HR Hl) as (s1 & Hr1 & HR1 & Hk). cbn [for_each fcompletes fst snd].
  erewrite M_bind_ok by exact Hr1. rewrite Hlv in Hn, Hp. apply NoDup_cons in Hn as [_ Hn].
  apply Permutation_cons_inv in Hp. destruct (IH s1 _ HR1 Hn Hp) as (s' & Hr & HR' & Hd).
  exists s'. split; [done|]. destruct (fcomplete l c F) as [F1 o1]. cbn [fst snd] in *.
  destruct (fcompletes cs F1) as [F2 o2]. cbn [fst snd] in *. split; [done|].
  rewrite Hd, (kp_done _ _ _ Hk). by rewrite (assoc (++)).
Qed.

Lemma of_request_good r : bad (of_request r) = false /\ Forall (fun c => c = Cpl 0 0 0 0) (stored (of_request r)).
Proof.
  assert (H : Forall (fun c => c = Cpl 0 0 0 0) (stored (of_request r))).
  { induction r as [i f cs IH] using request_ind'. cbn. destruct cs as [|d cs]; [constructor|].
    constructor; [done|]. apply Forall_concat. rewrite map_map. by apply (Forall_map (fun r => stored (of_request r))). }
  split; [|done]. unfold bad. apply not_true_iff_false. rewrite existsb_exists.
  intros (x & Hx%list_elem_of_In & He). rewrite Forall_forall in H. by rewrite (H x Hx) in He.
Qed.

(** The forest of new commands. *)
Definition commands (cmds : list (Z * request)) : forest :=
  map (fun x => (x.1, of_request x.2)) cmds.

Definition leaf_ids (r : request) : list nat := map req_id (leaves r).

(** The command [r] completed with [c] after the completions [cs]. *)
Definition outcome (cs : list (nat * cpl)) (r : request) (c : cpl) : Prop :=
  (err c = true <-> exists l k, l ∈ leaf_ids r /\ (l, k) ∈ cs /\ err k = true)
  /\ (err c = true -> exists l, l ∈ leaf_ids r /\ (l, c) ∈ cs).

Lemma verdict_outcome cs r c : verdict cs (of_request r) c -> outcome cs r c.
Proof.
  destruct (of_request_good r) as [Hb Hs]. intros [H1 H2]. rewrite Hb in H1. cbn in H1.
  unfold outcome, leaf_ids. rewrite <- tleaves_of_request. split.
  - rewrite H1, existsb_exists. split.
    + intros ([l k] & Hin%list_elem_of_In & [Hl%bool_decide_eq_true He]%andb_true_iff). by exists l, k.
    + intros (l & k & Hl & Hin & He). exists (l, k). split; [by apply list_elem_of_In|].
      cbn. by rewrite bool_decide_true.
  - intros He. destruct H2 as [H2|H2]; [|done]. rewrite Forall_forall in Hs. by rewrite (Hs c H2) in He.
Qed.

(** C20: once every leaf of every split command has completed, in any order and
    interleaving, every command has been called back exactly once; it reports an
    error if and only if one of its own leaves did, with the status of such a
    leaf; and all requests are back in the pool. *)
Theorem split_commands_complete N D s cmds cs :
  rep N D s (commands cmds) -> map fst cs ≡ₚ concat (map (fun x => leaf_ids x.2) cmds) ->
  exists s' ds cl, for_each cs (fun x => nvme_complete_request D x.1 x.2) s = Ok (tt, s')
    /\ done s' = done s ++ ds /\ ds ≡ₚ zip (map fst cmds) cl
    /\ Forall2 (fun x c => outcome cs x.2 c) cmds cl
    /\ free_reqs s' ≡ₚ seq 1 N /\ outstanding s' = 0.
Proof.
  intros HR Hp.
  assert (Hfl : fleaves (commands cmds) = concat (map (fun x => leaf_ids x.2) cmds)).
  { unfold fleaves, commands. rewrite map_map. f_equal. apply map_ext. intros [a r]. apply tleaves_of_request. }
  rewrite <- Hfl in Hp. assert (Hn : NoDup (fleaves (commands cmds))).
  { apply fleaves_NoDup. pose proof (rep_NoDup _ _ _ _ HR) as Hn. by apply NoDup_app in Hn as [? _]. }
  destruct (fcompletes_verdict cs _ Hn Hp) as (cl & HF & Hv & Hz).
  destruct (completes_rep N D cs s _ HR Hn Hp) as (s' & Hr & HR' & Hd). rewrite HF in HR'.
  exists s', (fcompletes cs (commands cmds)).2, cl. split; [done|]. split; [done|]. split.
  { rewrite Hz. unfold commands. by rewrite map_map. }
  destruct HR' as [_ Hids Ho _ _ _ _ _]. split; [|done].
  clear -Hv. revert cl Hv. induction cmds as [|[a r] cmds IH]; intros cl Hv; cbn in Hv.
  - apply Forall2_nil_inv_l in Hv as ->. constructor.
  - apply Forall2_cons_inv_l in Hv as (c & cl' & Hc & Hv & ->). constructor; [by apply verdict_outcome|].
    by apply IH.
Qed.

Lemma split_commands_complete_witness :
  let cs := [(2%nat, Cpl 0 0 0 0); (3%nat, Cpl 0 0 0x80 0)] in
  exists s' ds cl, for_each cs (fun x => nvme_complete_request 4 x.1 x.2)
      (install 77 QpDemo.r (Qpair [1%nat] 3) (nvme_qpair_init 4 QpDemo.c)) = Ok (tt, s')
    /\ done s' = [] ++ ds /\ ds ≡ₚ zip [77] cl
    /\ Forall2 (fun x c => outcome cs x.2 c) [(77, QpDemo.r)] cl
    /\ free_reqs s' ≡ₚ seq 1 4 /\ outstanding s' = 0.
Proof.
  cbv zeta. refine (split_commands_complete 4 4
    (install 77 QpDemo.r (Qpair [1%nat] 3) (nvme_qpair_init 4 QpDemo.c)) [(77, QpDemo.r)]
    [(2%nat, Cpl 0 0 0 0); (3%nat, Cpl 0 0 0x80 0)] _ _).
  - apply (install_rep 4 4 (nvme_qpair_init 4 QpDemo.c) [] 77 QpDemo.r (Qpair [1%nat] 3));
      [lia|apply (init_ok 4 4 QpDemo.c QpDemo.c_ok); lia|apply QpDemo.issue_allowed|done].
  - cbn. by apply Permutation_swap.
Defined.
