(* ===== verification/NvmeQpairLive.v ===== *)
(** * Progress of a queue pair

    With a transport that accepts a request whenever it holds none, and a
    controller that is not being reset, an enabled queue pair never has queued
    requests without a request at the transport.  Polling it until the transport
    has answered as often as there are requests completes every command. *)

From S2P Require Import Prelude NsCmd NsCmdLemmas NvmeQpair NvmeQpairLemmas NvmeQpairSpec.
From S2P Require Import NvmeQpairRefine NvmeQpairCommands NvmeQpairPoll NvmeQpairIssue NvmeQpairRun.
From S2P Require Import NvmeQpairTheorems.

Class IdleTransport (E : tenv) : Prop := {
  tr_idle : forall n i, t_submit E n [] i = 0 }.

(** A poll that completes requests reports so. *)
Definition counted (p : poll) : Prop := p_cpls p <> [] -> 0 < p_ret p.

(** The events considered: no controller reset. *)
Definition driven (e : event) : Prop :=
  match e with
  | EvPoll p => counted p
  | EvReconnect _ polls => Forall counted polls
  | EvReset b => b = false
  | _ => True
  end.

(** The queue waits only behind a request at the transport. *)
Record busy (A : ast) : Prop := {
  by_reset : is_resetting (a_conn A) = false;
  by_held : state (a_conn A) = NVME_QPAIR_ENABLED -> a_queued A <> [] -> a_inflight A <> [] }.

Section Live.
Context (E : tenv) {HI : IdleTransport E}.

Lemma asend_refused A i :
  state (a_conn A) = NVME_QPAIR_ENABLED -> a_inflight (asend E A i).2 <> [].
Proof.
  intros Hs. unfold asend. rewrite bool_decide_true by done. cbn.
  destruct (a_inflight A) as [|j l]; [by rewrite tr_idle|]. by destruct (_ =? 0).
Qed.

Lemma aresend_grows k A : a_inflight A <> [] -> a_inflight (aresend E k A) <> [].
Proof.
  revert A. induction k as [|k IH]; intros A Hi; [done|].
  destruct (a_queued A) as [|i q] eqn:Hq; [by rewrite aresend_nil|]. rewrite (aresend_cons _ _ _ _ _ Hq).
  destruct (asend_lists E (a_set_queued q A) i) as (_ & _ & _ & _ & Hl).
  destruct (asend E _ i) as [rc B]. cbn in *.
  assert (a_inflight B <> []) by (rewrite Hl; by destruct (rc =? 0), (a_inflight A)).
  destruct (rc =? 0); [by apply IH|done].
Qed.

(** Sending the queue restores the property. *)
Lemma aresend_held_some k A :
  state (a_conn A) = NVME_QPAIR_ENABLED -> (0 < k)%nat -> a_queued A <> [] ->
  a_inflight (aresend E k A) <> [].
Proof.
  intros Hs Hk Hq. destruct k as [|k]; [lia|]. destruct (a_queued A) as [|i q] eqn:Eq; [done|].
  rewrite (aresend_cons _ _ _ _ _ Eq). pose proof (asend_refused (a_set_queued q A) i Hs) as Hi.
  destruct (asend E _ i) as [rc B]. cbn in *. destruct (rc =? 0); [by apply aresend_grows|done].
Qed.

Lemma aresend_busy k A : busy A -> busy (aresend E k A).
Proof.
  intros [Hr Hh]. destruct (aresend_conn E k A) as [Hc _]. constructor; rewrite Hc; [done|].
  intros Hs Hq. destruct k as [|k]; [by apply Hh|]. apply aresend_held_some; [done|lia|].
  intros Hn. by rewrite aresend_nil in Hq.
Qed.

(** Not enabled: nothing to show. *)
Lemma not_enabled_busy A :
  is_resetting (a_conn A) = false -> state (a_conn A) <> NVME_QPAIR_ENABLED -> busy A.
Proof. intros H1 H2. by constructor. Qed.

Lemma adisconnect_busy A :
  settled (a_conn A) -> drained A -> is_resetting (a_conn A) = false -> busy (adisconnect A).
Proof.
  intros Hc Hd Hr. destruct (adisconnect_ok A Hc Hd) as (_ & _ & Hs & _).
  apply not_enabled_busy; [|by rewrite Hs]. unfold adisconnect.
  case_bool_decide; [done|]. cbn. destruct (afinish_lists (acompletes (a_queued A)
    (aborted_sq (abort_dnr (a_conn A))) (a_set_queued [] (acompletes (a_inflight A) (aborted_sq 0)
    (a_set_inflight [] (a_set_conn (with_state NVME_QPAIR_DISCONNECTING (a_conn A)) A))))))
    as (_ & _ & _ & -> & _).
  destruct (acompletes_lists (a_queued A)
    (aborted_sq (abort_dnr (a_conn A))) (a_set_queued [] (acompletes (a_inflight A) (aborted_sq 0)
    (a_set_inflight [] (a_set_conn (with_state NVME_QPAIR_DISCONNECTING (a_conn A)) A)))))
    as (_ & _ & _ & -> & _). cbn.
  by destruct (acompletes_lists (a_inflight A) (aborted_sq 0)
    (a_set_inflight [] (a_set_conn (with_state NVME_QPAIR_DISCONNECTING (a_conn A)) A)))
    as (_ & _ & _ & -> & _).
Qed.

Lemma acheck_busy A : calm A -> busy A -> busy (acheck E A).
Proof.
  intros HA [Hr Hh]. rewrite acheck_eq.
  assert (He : busy (aenable E A)).
  { unfold aenable. case_bool_decide as Hs; cbn [andb]; [|done]. rewrite Hr. cbn [negb].
    set (A0 := a_set_conn _ A). destruct (aresend_conn E (length (a_queued A)) A0) as [Hc _].
    constructor; rewrite Hc; [done|]. intros _ Hq. apply aresend_held_some; [done| |].
    - destruct (a_queued A) eqn:Eq; [by rewrite aresend_nil in Hq|]. cbn. lia.
    - intros Hn. by rewrite aresend_nil in Hq. }
  destruct (_ && _); [|done]. apply (aenable_ok E) in HA as [[[Hc _] Hd] _].
  apply adisconnect_busy; [done|done|apply He].
Qed.

Lemma asubmit_leaf_busy A i : busy A -> busy (asubmit_leaf E A i).
Proof.
  intros [Hr Hh]. destruct (asubmit_leaf_keeps E A i) as (_ & Hc & _). constructor; rewrite Hc; [done|].
  intros Hs _. unfold asubmit_leaf. case_bool_decide as Hq; [|by apply Hh].
  pose proof (asend_refused A i Hs) as Hi. destruct (asend E A i) as [rc B]. cbn in Hi. by destruct (rc =? 0).
Qed.

Lemma asubmit_leaves_busy l A : busy A -> busy (fold_left (asubmit_leaf E) l A).
Proof. revert A. induction l as [|i l IH]; intros A HA; [done|]. cbn. by apply IH, asubmit_leaf_busy. Qed.

Lemma aissue_busy arg t A : calm A -> busy A -> busy (aissue E arg t A).2.
Proof.
  intros HA HB. unfold aissue. set (A0 := a_set_forest _ A).
  assert (HA0 : calm A0) by (destruct HA; by constructor).
  assert (HB0 : busy A0) by (destruct HB; by constructor).
  destruct (negb _ && _) eqn:Hb; cbn [snd].
  - apply andb_true_iff in Hb as [Hb%negb_true_iff%bool_decide_eq_false _].
    destruct HB as [Hr Hh]. constructor; [done|]. cbn. intros Hs _. by apply Hh.
  - pose proof (acheck_busy A0 HA0 HB0) as HB1. destruct (disconnected _); cbn [snd].
    + destruct HB1. by constructor.
    + by apply asubmit_leaves_busy.
Qed.

Lemma afinish_busy A : busy A -> busy (afinish_aborts A).
Proof.
  intros [Hr Hh]. destruct (afinish_lists A) as (Hi & Hq & _ & Hc & _).
  constructor; rewrite Hc; [done|]. by rewrite Hi, Hq.
Qed.

Lemma aconnected_busy k A :
  calm A -> is_resetting (a_conn A) = false -> state (a_conn A) = NVME_QPAIR_CONNECTING ->
  busy (aconnected E k A).
Proof.
  intros HA Hr Hs. unfold aconnected. fold (newly A). pose proof (newly_calm A HA Hs) as HA0.
  assert (Hrs : is_resetting (a_conn (newly A)) = false) by done. rewrite Hrs.
  destruct k as [|k]; [by apply not_enabled_busy|].
  destruct (a_queued (newly A)) as [|i q] eqn:Hq; [by apply not_enabled_busy|].
  assert (HA1 : calm (a_set_queued q (newly A))) by (destruct HA0; constructor; [done|]; by intros Hd).
  pose proof (acheck_enabled E (a_set_queued q (newly A)) HA1 eq_refl Hrs) as [Hen Hrs2].
  set (A2 := acheck E (a_set_queued q (newly A))) in *.
  destruct (asend_lists E A2 i) as (_ & _ & _ & Hc & _). pose proof (asend_refused A2 i Hen) as Hi.
  destruct (asend E A2 i) as [rc B]. cbn in Hc, Hi. destruct (rc =? 0).
  - apply aresend_busy. constructor; rewrite Hc; done.
  - constructor; cbn; rewrite Hc; done.
Qed.
(** ** Polls *)

Lemma areap_lists A x :
  a_queued (areap A x) = a_queued A /\ a_aborting (areap A x) = a_aborting A
  /\ (length (a_inflight (areap A x)) <= length (a_inflight A))%nat
  /\ (x.1 = O -> a_inflight A <> [] -> (length (a_inflight (areap A x)) < length (a_inflight A))%nat).
Proof.
  unfold areap. destruct (a_inflight A !! x.1) as [i|] eqn:Hi.
  - set (l := List.filter _ _). destruct (acomplete_lists i x.2 (a_set_inflight l A)) as (-> & -> & -> & _).
    cbn. split; [done|]. split; [done|]. unfold l.
    pose proof (filter_length_le (fun j => negb (Nat.eqb j i)) (a_inflight A)). split; [done|].
    intros Hx Hne. rewrite Hx in Hi. destruct (a_inflight A) as [|j m]; [done|]. injection Hi as ->.
    cbn. rewrite Nat.eqb_refl. cbn. pose proof (filter_length_le (fun j => negb (Nat.eqb j i)) m). lia.
  - split; [done|]. split; [done|]. split; [lia|]. intros Hx. rewrite Hx in Hi.
    by destruct (a_inflight A).
Qed.

Lemma areaps_lists l A :
  a_queued (fold_left areap l A) = a_queued A /\ a_aborting (fold_left areap l A) = a_aborting A
  /\ (length (a_inflight (fold_left areap l A)) <= length (a_inflight A))%nat.
Proof.
  revert A. induction l as [|x l IH]; intros A; [done|]. cbn.
  destruct (IH (areap A x)) as (-> & -> & Hle). destruct (areap_lists A x) as (-> & -> & Hle2 & _).
  split; [done|]. split; [done|]. lia.
Qed.

Context {HE : SyncTransport E}.

Lemma atcp_poll_busy p A :
  polled A -> busy A ->
  is_resetting (a_conn (atcp_poll E p A).2) = false
  /\ (busy (atcp_poll E p A).2 \/ p_cpls p <> [] /\ (atcp_poll E p A).1 = p_ret p).
Proof.
  intros HP [Hr Hh]. unfold atcp_poll.
  assert (Hfail : forall B, polled B -> is_resetting (a_conn B) = false ->
    is_resetting (a_conn (afail B).2) = false
    /\ (busy (afail B).2 \/ p_cpls p <> [] /\ (afail B).1 = p_ret p)).
  { intros B [[[HB _] Hd] _] HrB. assert (Hb : busy (afail B).2); [|split; [apply Hb|by left]].
    apply adisconnect_busy; [by apply failing_settled|done|done]. }
  destruct (p_flushed p); cbn [negb]; [|by apply Hfail].
  pose proof (areaps_conn (p_cpls p) A) as Hc. apply (areaps_polled (p_cpls p)) in HP.
  set (A1 := fold_left areap (p_cpls p) A) in *.
  assert (Hr1 : is_resetting (a_conn A1) = false) by by rewrite Hc.
  destruct (p_read p); cbn [negb]; [|by apply Hfail].
  assert (HA1 : is_resetting (a_conn A1) = false /\ (busy A1 \/ p_cpls p <> [] /\ p_ret p = p_ret p)).
  { split; [done|]. destruct (p_cpls p) as [|x l] eqn:Hl; [|by right]. left. by constructor. }
  destruct (bool_decide_reflect (state (a_conn A1) = NVME_QPAIR_CONNECTING)) as [Hs|Hs]; [|done].
  destruct (p_connect p =? 0); [|destruct (p_connect p =? - EAGAIN); [done|by apply Hfail]].
  cbn [fst snd]. pose proof (aconnected_busy (Z.to_nat (t_entries E)) A1 (po_calm _ HP) Hr1 Hs) as HB.
  apply afinish_busy in HB. split; [apply HB|by left].
Qed.

Lemma apoll_busy p A : calm A -> busy A -> counted p -> busy (apoll E p A).2.
Proof.
  intros HA HB Hp. unfold apoll. destruct (acheck_calm E A HA) as [HA1 Hs1].
  pose proof (acheck_busy A HA HB) as HB1. set (A1 := acheck E A) in *.
  destruct (negb _ && negb _) eqn:Hb; [done|].
  assert (HP : polled A1).
  { constructor; [done|]. constructor; [apply HA1|done|]. intros Hs. rewrite Hs in Hb. done. }
  destruct (atcp_poll_busy p A1 HP HB1) as [Hr2 HB2]. destruct (atcp_poll E p A1) as [ret A2].
  cbn [fst snd] in *. apply afinish_busy. rewrite Hr2. cbn [negb]. rewrite andb_true_r.
  destruct HB2 as [HB2|[Hne ->]]; [destruct (0 <? ret); [by apply aresend_busy|done]|].
  rewrite (proj2 (Z.ltb_lt _ _) (Hp Hne)). specialize (Hp Hne).
  destruct (aresend_conn E (Z.to_nat (p_ret p)) A2) as [Hc _]. constructor; rewrite Hc; [done|].
  intros Hs Hq. apply aresend_held_some; [done|lia|]. intros Hn. by rewrite aresend_nil in Hq.
Qed.

Lemma aconnect_wait_busy N D d polls : forall s A rc B,
  sim N D s A -> busy A -> Forall counted polls -> (2 <= d)%nat ->
  aconnect_wait E polls A = Some (rc, B) -> busy B /\ calm B.
Proof.
  induction polls as [|p ps IH]; intros s A rc B (HR & Hp & HA) HB Hc Hd; cbn;
    destruct (negb _); [by intros [= _ <-]|done|by intros [= _ <-]|].
  apply Forall_cons in Hc as [Hc Hcs]. pose proof (apoll_busy p A HA HB Hc) as HB1.
  destruct (poll_ok E N D (d - 2) p s A HR Hp HA) as (s1 & _ & HR1 & Hp1 & HA1).
  destruct (apoll E p A) as [rc1 B1]. cbn [fst snd] in *.
  destruct (rc1 <? 0); [by intros [= _ <-]|]. by apply (IH s1).
Qed.

Lemma areconnect_busy N D rc0 polls s A rc B :
  sim N D s A -> busy A -> Forall counted polls -> areconnect E rc0 polls A = Some (rc, B) -> busy B.
Proof.
  intros HS HB Hc. pose proof HS as (HR & Hp & HA). unfold areconnect.
  destruct (is_removed _); [by intros [= _ <-]|]. rewrite (by_reset _ HB).
  destruct (negb _) eqn:Hs; [by intros [= _ <-]|].
  apply negb_false_iff, bool_decide_eq_true in Hs. set (c0 := with_state _ (with_failure _ _)).
  assert (HS0 : sim N D (set_conn c0 s) (a_set_conn c0 A)).
  { split; [by apply set_conn_ok|]. split; [done|]. destruct HA as [[[? ? ?] ?] ?]. constructor; [|done].
    constructor; [constructor; cbn; auto; done|done]. }
  assert (HB0 : busy (a_set_conn c0 A)) by (apply not_enabled_busy; [apply HB|done]).
  assert (Hdone : forall rc1 B1, busy B1 -> calm B1 ->
    (if rc1 =? 0 then Some (0, B1) else Some (- EAGAIN,
       adisconnect (a_set_conn (with_failure (transport_failure_reason (a_conn A)) (a_conn B1)) B1)))
    = Some (rc, B) -> busy B).
  { intros rc1 B1 HB1 HA1. destruct (rc1 =? 0); intros [= _ <-]; [done|].
    destruct HA as [[[? ? Hnr] ?] ?]. destruct HA1 as [[[? ? ?] ?] ?].
    apply adisconnect_busy; [by constructor|done|apply HB1]. }
  destruct (rc0 =? 0).
  - destruct (aconnect_wait E polls _) as [[rc1 B1]|] eqn:Hw; [|done].
    destruct (aconnect_wait_busy N D 2 polls _ _ _ _ HS0 HB0 Hc (le_n 2) Hw) as [? ?]. by apply Hdone.
  - apply (Hdone rc0); [done|apply HS0].
Qed.

Lemma aexec_busy N D s A e rc B :
  sim N D s A -> busy A -> driven e -> aexec E e A = Some (rc, B) -> busy B.
Proof.
  intros HS HB He. pose proof HS as (_ & _ & HA).
  destruct e as [arg r q|p|arg| |rc0 polls| |b]; cbn [aexec driven] in *.
  - pose proof (aissue_busy arg (of_request r) A HA HB) as H. intros [= Hi]. by rewrite Hi in H.
  - pose proof (apoll_busy p A HA HB He) as H. intros [= Hi]. by rewrite Hi in H.
  - intros [= _ <-]. destruct HB as [Hr Hh]. constructor; [done|]. cbn. intros Hs Hq. apply Hh; [done|].
    intros Hn. by rewrite Hn in Hq.
  - intros [= _ <-]. destruct HB. by constructor.
  - by apply (areconnect_busy N D rc0 polls s).
  - intros [= _ <-]. destruct HA as [[? ?] ?]. apply adisconnect_busy; [done|done|apply HB].
  - intros [= _ <-]. subst b. destruct HB. by constructor.
Qed.
End Live.

(** ** Draining *)

(** The transport completes the oldest request it holds, and perhaps others. *)
Record productive (p : poll) : Prop := {
  pr_flushed : p_flushed p = true;
  pr_read : p_read p = true;
  pr_first : exists c l, p_cpls p = (O, c) :: l;
  pr_ret : 0 < p_ret p }.

(** The connection works. *)
Record working (c : conn) : Prop := {
  wk_state : state c = NVME_QPAIR_ENABLED;
  wk_failure : transport_failure_reason c = SPDK_NVME_QPAIR_FAILURE_NONE }.

Section Drain.
Context (E : tenv) {HE : SyncTransport E} {HI : IdleTransport E} (N D : nat) (c : conn).
Hypothesis (HD : (N <= D)%nat) (HD2 : (2 <= D)%nat) (HN : Z.of_nat N < 2 ^ 32) (Hc : conn_ok c).

Lemma acheck_working A : working (a_conn A) -> acheck E A = A.
Proof.
  intros [H1 H2]. unfold acheck. rewrite (bool_decide_false (state (a_conn A) = NVME_QPAIR_CONNECTED)) by congruence.
  cbn [andb]. by rewrite H2, bool_decide_true.
Qed.

Lemma apoll_drains p A :
  productive p -> busy A -> working (a_conn A) ->
  a_conn (apoll E p A).2 = a_conn A
  /\ ((length (held (apoll E p A).2) < length (held A))%nat \/ held (apoll E p A).2 = []).
Proof.
  intros [Hf Hr (x & l & Hl) Hret] [Hrs Hh] Hw. pose proof Hw as [Hs _]. unfold apoll.
  rewrite (acheck_working A Hw), Hs. rewrite (bool_decide_true (NVME_QPAIR_ENABLED = NVME_QPAIR_ENABLED)) by done. cbn [negb andb].
  unfold atcp_poll. rewrite Hf, Hr, areaps_conn, Hs. cbn [negb].
  rewrite (bool_decide_false (NVME_QPAIR_ENABLED = NVME_QPAIR_CONNECTING)) by done.
  cbn [snd]. rewrite areaps_conn, (proj2 (Z.ltb_lt _ _) Hret), Hrs. cbn [andb negb].
  set (A2 := fold_left areap (p_cpls p) A). set (A3 := aresend E (Z.to_nat (p_ret p)) A2).
  destruct (aresend_conn E (Z.to_nat (p_ret p)) A2) as [Hc3 Ha3].
  destruct (aresend_held E (Z.to_nat (p_ret p)) A2) as [_ Hh3]. fold A3 in Hc3, Ha3, Hh3.
  destruct (afinish_lists A3) as (Hi4 & Hq4 & Ha4 & Hc4 & _).
  split; [rewrite Hc4, Hc3; apply areaps_conn|].
  destruct (areaps_lists (p_cpls p) A) as (Hq2 & Ha2 & Hle). fold A2 in Hq2, Ha2, Hle.
  apply Permutation_length in Hh3. unfold held in *. rewrite Hi4, Hq4, Ha4. rewrite !length_app in *.
  rewrite Ha3, Hq2, Ha2 in Hh3. cbn [length].
  destruct (decide (a_inflight A = [])) as [Hi|Hi].
  - assert (a_queued A = []) as Hqn.
    { destruct (decide (a_queued A = [])); [done|]. by destruct (Hh Hs). }
    right. rewrite Hi in Hle. rewrite Hqn in Hh3. cbn in Hle, Hh3.
    apply nil_length_inv. rewrite !length_app. cbn. lia.
  - left. assert ((length (a_inflight A2) < length (a_inflight A))%nat); [|lia].
    unfold A2. rewrite Hl. cbn. destruct (areaps_lists l (areap A (O, x))) as (_ & _ & Hle2).
    destruct (areap_lists A (O, x)) as (_ & _ & _ & Hlt). specialize (Hlt eq_refl Hi). lia.
Qed.

Lemma polls_drain polls : forall s A,
  sim N D s A -> busy A -> working (a_conn A) -> Forall productive polls ->
  (length (held A) <= length polls)%nat ->
  exists rs s' B, runs E D s (map EvPoll polls) rs s' /\ sim N D s' B /\ held B = [] /\ args B ≡ₚ args A.
Proof.
  induction polls as [|p ps IH]; intros s A HS HB Hw Hp Hl.
  { exists [], s, A. split; [constructor|]. split; [done|]. split; [|done].
    apply nil_length_inv. cbn in Hl. lia. }
  apply Forall_cons in Hp as [Hp Hps].
  destruct (step_ok E N D HD HD2 s A (EvPoll p) HS Logic.I) as (rc & s1 & B & Hr & Ha & HS1 & Hargs).
  destruct (apoll_drains p A Hp HB Hw) as [Hcn Hdec].
  pose proof (apoll_busy E p A (proj2 (proj2 HS)) HB (fun _ => pr_ret p Hp)) as HB1.
  cbn in Ha. injection Ha as Ha. rewrite Ha in Hcn, Hdec, HB1. cbn [snd] in *.
  destruct (IH s1 B HS1 HB1) as (rs & s' & C & Hrun & HS' & Hh & Hargs'); [by rewrite Hcn|done| |].
  { cbn in Hl. destruct Hdec as [?| ->]; cbn; lia. }
  exists (rc :: rs), s', C. split; [by eapply runs_cons|]. split; [done|]. split; [done|].
  by rewrite Hargs', Hargs.
Qed.

Lemma runs_busy es rs s :
  runs E D (nvme_qpair_init N c) es rs s -> Forall driven es -> is_resetting c = false ->
  exists A, sim N D s A /\ busy A /\ args A ≡ₚ accepted es rs /\ length es = length rs.
Proof.
  intros H Hd Hr. induction H as [|es rs s e rc s' _ IH Ha He].
  - exists (ainit c). split; [by apply init_ok|]. split; [by constructor|]. done.
  - apply Forall_app in Hd as [Hd [He1 _]%Forall_cons].
    destruct (IH Hd) as (A & HS & HB & Hargs & Hl).
    destruct (step_ok E N D HD HD2 s A e HS Ha) as (rc' & s2 & B & Hx & Ha' & HS' & Hargs').
    rewrite He in Hx. injection Hx as <- <-. exists B. split; [done|].
    split; [exact (aexec_busy E N D s A e rc B HS HB He1 Ha')|]. rewrite accepted_snoc, !length_app by done.
    cbn. split; [|lia]. rewrite Hargs', Hargs. apply Permutation_app_comm.
Qed.

Lemma polling_drains_from es rs s polls :
  runs E D (nvme_qpair_init N c) es rs s -> Forall driven es -> is_resetting c = false ->
  working (cn s) -> Forall productive polls -> outstanding s <= Z.of_nat (length polls) ->
  exists rs' s', runs E D s (map EvPoll polls) rs' s'
    /\ outstanding s' = 0 /\ free_reqs s' ≡ₚ seq 1 N /\ map fst (done s') ≡ₚ accepted es rs.
Proof.
  intros Hr Hd Hrs Hw Hp Hl. destruct (runs_busy es rs s Hr Hd Hrs) as (A & HS & HB & Hargs & _).
  pose proof HS as (HR & Hpl & _). rewrite (rf_conn _ _ _ _ _ _ HR) in Hw.
  destruct (polls_drain polls s A HS HB Hw Hp) as (rs' & s' & B & Hrun & HS' & Hh & Hargs').
  { rewrite (rp_out _ _ _ _ (rf_rep _ _ _ _ _ _ HR)) in Hl. unfold placed in Hpl. rewrite app_nil_r in Hpl.
    apply Permutation_length in Hpl. fold (held A) in Hpl. rewrite <- Hpl.
    assert ((length (fleaves (a_forest A)) <= length (fids (a_forest A)))%nat); [|lia].
    apply submseteq_length. apply NoDup_submseteq; [|apply fleaves_fids]. apply fleaves_NoDup.
    pose proof (rep_NoDup _ _ _ _ (rf_rep _ _ _ _ _ _ HR)) as Hn. by apply NoDup_app in Hn as [? _]. }
  exists rs', s'. split; [done|]. destruct (sim_idle N D s' B HS' Hh) as (Ho & Hf & HF).
  split; [done|]. split; [done|]. rewrite <- Hargs, <- Hargs'. unfold args. rewrite HF, app_nil_r.
  by rewrite (rf_done _ _ _ _ _ _ (proj1 HS')).
Qed.

(** An enabled queue pair never gets stuck.  However it was driven, if the
    transport then answers as many polls as there are requests outstanding, each
    completing the oldest request it holds, every accepted command has been
    called back and every request is back in the pool. *)
Lemma polling_drains es rs s polls :
  runs E D (nvme_qpair_init N c) es rs s -> Forall driven es -> is_resetting c = false ->
  working (cn s) -> Forall productive polls -> outstanding s <= Z.of_nat (length polls) ->
  exists rs' s', runs E D s (map EvPoll polls) rs' s'
    /\ outstanding s' = 0 /\ free_reqs s' ≡ₚ seq 1 N /\ map fst (done s') ≡ₚ accepted es rs.
Proof. apply polling_drains_from. Qed.
End Drain.

#[export] Instance demo_idle : IdleTransport QpDemo.E.
Proof. by constructor. Qed.

Lemma polling_drains_demo :
  exists rs' s', runs QpDemo.E 4 QpDemo.s1 (map EvPoll [QpDemo.p; QpDemo.p; QpDemo.p]) rs' s'
    /\ outstanding s' = 0 /\ free_reqs s' ≡ₚ seq 1 4
    /\ map fst (done s') ≡ₚ accepted [EvIssue 77 QpDemo.r (Qpair [1%nat] 3)] [0].
Proof.
  apply (polling_drains QpDemo.E 4 4 QpDemo.c); [lia|lia|lia|apply QpDemo.c_ok| | |done|done| |done].
  - eapply runs_cons; [exact QpDemo.issue_allowed|by vm_compute|constructor].
  - by repeat constructor.
  - assert (productive QpDemo.p) by (constructor; cbn; eauto; lia).
    repeat (apply Forall_cons_2; [done|]). apply Forall_nil_2.
Defined.
