(* ===== verification/NvmeQpairDeviations.v ===== *)
(** * Deviations of the queue pair

    Runs outside the guarantees of [NvmeQpairTheorems]: a transport that
    rejects a request, and a command split on two levels. *)

From S2P Require Import Prelude NsCmd NvmeQpair NvmeQpairLemmas NvmeQpairSpec NvmeQpairRefine.
From S2P Require Import NvmeQpairIssue NvmeQpairRun NvmeQpairTheorems.

(** The results of a list of events. *)
Fixpoint execs (E : tenv) (D : nat) (es : list event) : M qst (list Z) :=
  match es with
  | [] => mret []
  | e :: es' => rc ← exec E D e; rcs ← execs E D es'; mret (rc :: rcs)
  end.

(** The transport takes the first request, asks to retry the second, and fails
    when it is retried. *)
Definition refusing : tenv :=
  Tenv (fun n _ _ => match n with 0%nat => 0 | 1%nat => - EAGAIN | _ => - EIO end)
    (fun _ => 0) false 1.

(** A queued child that cannot be resubmitted is unlinked from its parent and
    then completed: nvme_cb_complete_child is called with a null parent. *)
Lemma resubmit_error_null_parent :
  execs refusing 4 [EvIssue 77 QpDemo.r (Qpair [1%nat] 3); EvPoll QpDemo.p]
    (nvme_qpair_init 4 QpDemo.c) = UB UB_assert.
Proof. by vm_compute. Qed.

(** The same when the controller has failed a queue pair that was being
    connected: the queue is sent while the queue pair disconnects. *)
Definition connecting : conn := with_state NVME_QPAIR_CONNECTING QpDemo.c.

Lemma fail_while_connecting_null_parent :
  execs QpDemo.E 4 [EvIssue 77 QpDemo.r (Qpair [1%nat] 3); EvFail; EvPoll (Poll true [] 0 true 0)]
    (nvme_qpair_init 4 connecting) = UB UB_assert.
Proof. by vm_compute. Qed.

(** The transport takes the first child and rejects the second. *)
Definition rejecting : tenv :=
  Tenv (fun n _ _ => match n with 0%nat => 0 | _ => - EIO end) (fun _ => 0) false 1.

(** The second half of the command was never submitted, yet it completes with
    success: the error is stored in cpl, the completion is taken from
    parent_status. *)
Lemma partial_submission_succeeds :
  exists s, execs rejecting 4 [EvIssue 77 QpDemo.r (Qpair [1%nat] 3); EvPoll QpDemo.p]
      (nvme_qpair_init 4 QpDemo.c) = Ok ([0; 1], s)
    /\ done s = [(77, Cpl 0 0 0 0)] /\ n_submits s = 2%nat.
Proof. eexists. split; [by vm_compute|done]. Qed.

(** A command split on two levels whose leaves are queued. *)
Definition nested : request :=
  Request 4 QpDemo.f [Request 3 QpDemo.f [Request 2 QpDemo.f []; Request 1 QpDemo.f []]].

(** The abort of the command finds none of its queued requests. *)
Lemma abort_misses_grandchildren :
  exists s, execs QpDemo.E 4 [EvIssue 77 nested (Qpair [] 4); EvAbort 77]
      (nvme_qpair_init 4 connecting) = Ok ([0; 0], s)
    /\ queued_req s = [2%nat; 1%nat] /\ aborting_queued_req s = [].
Proof. eexists. split; [by vm_compute|done]. Qed.
