(* ===== verification/NvmeQpairCompose.v ===== *)
(** * A read or write command on a queue pair, end to end

    The command functions of [NsCmd] and the queue pair of [NvmeQpair] put
    together: the tree that a contiguous or vectored command builds from the
    pool can be issued, and polling completes the command. *)

From S2P Require Import Prelude NsCmd NsCmdLemmas NsCmdTree NsCmdCut NsCmdSgl NsCmdPrp NsCmdVectored.
From S2P Require Import NsCmdTheorems NvmeQpair NvmeQpairLemmas.
From S2P Require Import NvmeQpairSpec NvmeQpairRefine NvmeQpairCommands NvmeQpairPoll NvmeQpairIssue.
From S2P Require Import NvmeQpairRun NvmeQpairTheorems NvmeQpairLive.

(** ** The requests of a command are plain *)



Section Compose.
Context (ns : nvme_ns) (ctrlr : nvme_ctrlr) {I : Type}.
Context (sgl_fns : option ((Z -> I) * (I -> (Z * Z) * I))) (no_sgl : I).
Context (E : tenv) {HE : SyncTransport E} {HI : IdleTransport E} (N D : nat) (c : conn).
Hypothesis (HD : (N <= D)%nat) (HD2 : (2 <= D)%nat) (HN : Z.of_nat N < 65535) (Hc : conn_ok c).


(** ** The two kinds of command *)





End Compose.

