(* ===== verification/NvmfBdev.v ===== *)
(** * I/O commands of the target on a block device (lib/nvmf/ctrlr_bdev.c)

    The handlers that check a command received from a host and pass it to the
    block device of the namespace, and the life of a deallocate command, which
    becomes one unmap per range.

    The block device layer is a parameter: [bdev_rc] gives the return code of
    each submission, in order.  The commands a host sends are those of
    [NsCmd]. *)

From S2P Require Import Prelude NsCmd.

(** ** Data *)

Definition SPDK_NVME_SCT_GENERIC : Z := 0x0.
Definition SPDK_NVME_SCT_COMMAND_SPECIFIC : Z := 0x1.
Definition SPDK_NVME_SC_SUCCESS : Z := 0x00.
Definition SPDK_NVME_SC_INVALID_OPCODE : Z := 0x01.
Definition SPDK_NVME_SC_INVALID_FIELD : Z := 0x02.
Definition SPDK_NVME_SC_INTERNAL_DEVICE_ERROR : Z := 0x06.
Definition SPDK_NVME_SC_DATA_SGL_LENGTH_INVALID : Z := 0x0f.
Definition SPDK_NVME_SC_LBA_OUT_OF_RANGE : Z := 0x80.
Definition SPDK_NVME_SC_CMD_SIZE_LIMIT_SIZE_EXCEEDED : Z := 0x83.

Inductive exec_status :=
  | SPDK_NVMF_REQUEST_EXEC_STATUS_COMPLETE
  | SPDK_NVMF_REQUEST_EXEC_STATUS_ASYNCHRONOUS.
Abbreviation COMPLETE := SPDK_NVMF_REQUEST_EXEC_STATUS_COMPLETE.
Abbreviation ASYNCHRONOUS := SPDK_NVMF_REQUEST_EXEC_STATUS_ASYNCHRONOUS.

(** The submissions to the block device.  A compare-and-write carries the lengths
    of its two buffers. *)
Inductive bdev_op :=
  | bdev_readv_blocks (lba n : Z)
  | bdev_writev_blocks (lba n cdw12 cdw13 : Z)
  | bdev_comparev_blocks (lba n : Z)
  | bdev_comparev_and_writev_blocks (lba n cmp_len write_len : Z)
  | bdev_write_zeroes_blocks (lba n : Z)
  | bdev_flush_blocks (lba n : Z)
  | bdev_unmap_blocks (lba n : Z)
  | bdev_copy_blocks (dst src n : Z)
  | bdev_zcopy_start (lba n : Z) (populate : bool)
  | bdev_nvme_iov_passthru (c : nvme_cmd) (length : Z).

(** A request of a host: the command, the length of its buffer and, for the
    commands that carry ranges, the ranges in the buffer (first block and
    number of blocks as encoded). *)
Record nvmf_request := NvmfReq {
  nvme_command : nvme_cmd;
  req_length : Z;
  req_ranges : list (Z * Z) }.

Record nvmf_rsp := Rsp { rsp_cdw0 : Z; rsp_sct : Z; rsp_sc : Z; rsp_dnr : Z }.

(** Entries of the block device's wait queue. *)
Inductive io_wait := WaitIoCmd | WaitFirstFused | WaitUnmap.

(** struct nvmf_bdev_ctrlr_unmap *)
Record unmap_ctx := UnmapCtx { u_count : Z; range_index : Z }.

Record benv := Benv {
  bdev_num_blocks : Z;
  bdev_block_size : Z;
  flush_supported : bool;
  max_write_zeroes_size_kib : Z;
  max_discard_size_kib : Z;
  bdev_rc : nat -> bdev_op -> Z;
  queue_io_wait_rc : Z;
  calloc_ok : bool }.

Record bst := Bst {
  b_rsp : nvmf_rsp;
  b_ops : list bdev_op (** accepted by the block device *);
  b_submits : nat (** submissions so far, accepted or not *);
  b_wait : list io_wait;
  pending_bdev_io : Z;
  b_completed : Z (** calls of spdk_nvmf_request_complete *);
  b_unmap : option unmap_ctx (** the context; None when not allocated *) }.

Definition set_rsp (r : nvmf_rsp) (s : bst) : bst :=
  Bst r (b_ops s) (b_submits s) (b_wait s) (pending_bdev_io s) (b_completed s) (b_unmap s).
Definition set_unmap (u : option unmap_ctx) (s : bst) : bst :=
  Bst (b_rsp s) (b_ops s) (b_submits s) (b_wait s) (pending_bdev_io s) (b_completed s) u.

Definition set_sct (sct : Z) : M bst unit :=
  modify (fun s => let r := b_rsp s in set_rsp (Rsp (rsp_cdw0 r) sct (rsp_sc r) (rsp_dnr r)) s).
Definition set_sc (sc : Z) : M bst unit :=
  modify (fun s => let r := b_rsp s in set_rsp (Rsp (rsp_cdw0 r) (rsp_sct r) sc (rsp_dnr r)) s).

(** The response of a command that ends here. *)
Definition complete_with (sct sc : Z) : M bst exec_status :=
  _ ← set_sct sct; _ ← set_sc sc; mret COMPLETE.

Definition spdk_nvmf_request_complete : M bst unit :=
  modify (fun s => Bst (b_rsp s) (b_ops s) (b_submits s) (b_wait s) (pending_bdev_io s)
                     (b_completed s + 1) (b_unmap s)).

(** Fields of the command. *)
Definition cdw10 (c : nvme_cmd) : Z := u32 (cmd_lba c).
Definition cdw11 (c : nvme_cmd) : Z := Z.shiftr (cmd_lba c) 32.
Definition cdw12_deac (c : nvme_cmd) : bool := Z.testbit (cmd_cdw12 c) 25.
Definition cdw10_dsm_nr (c : nvme_cmd) : Z := Z.land (cdw10 c) 0xff.
Definition cdw11_dsm_ad (c : nvme_cmd) : bool := Z.testbit (cdw11 c) 2.
Definition cdw12_copy_nr (c : nvme_cmd) : Z := Z.land (cmd_cdw12 c) 0xff.
Definition cdw12_copy_df (c : nvme_cmd) : Z := Z.land (Z.shiftr (cmd_cdw12 c) 8) 0xf.

Definition nvmf_bdev_ctrlr_get_rw_params (c : nvme_cmd) : Z * Z :=
  (cmd_lba c, Z.land (cmd_cdw12 c) 0xFFFF + 1).

(** nvme_cdw12 and nvme_cdw13 of the options of a write. *)
Definition nvmf_bdev_ctrlr_get_rw_ext_params (c : nvme_cmd) : Z * Z := (cmd_cdw12 c, cmd_cdw13 c).

Definition nvmf_bdev_ctrlr_lba_in_range (bdev_blocks io_start_lba io_num_blocks : Z) : bool :=
  negb ((bdev_blocks <? u64 (io_start_lba + io_num_blocks))
        || (u64 (io_start_lba + io_num_blocks) <? io_start_lba)).

Section Ops.
Context (B : benv).

Definition bdev_submit (op : bdev_op) : M bst Z :=
  s ← get;
  let rc := bdev_rc B (b_submits s) op in
  _ ← put (Bst (b_rsp s) (if rc =? 0 then b_ops s ++ [op] else b_ops s) (S (b_submits s))
             (b_wait s) (pending_bdev_io s) (b_completed s) (b_unmap s));
  mret rc.

Definition nvmf_bdev_ctrl_queue_io (w : io_wait) : M bst unit :=
  _ ← c_assert (queue_io_wait_rc B =? 0);
  modify (fun s => Bst (b_rsp s) (b_ops s) (b_submits s) (b_wait s ++ [w])
                     (u64 (pending_bdev_io s + 1)) (b_completed s) (b_unmap s)).

(** The end of the handlers: the submission and its error handling. *)
Definition submit_or_queue (op : bdev_op) (queue : M bst unit) : M bst exec_status :=
  rc ← bdev_submit op;
  if negb (rc =? 0) then
    if rc =? - ENOMEM then _ ← queue; mret ASYNCHRONOUS
    else complete_with SPDK_NVME_SCT_GENERIC SPDK_NVME_SC_INTERNAL_DEVICE_ERROR
  else mret ASYNCHRONOUS.

(** The two checks the data commands share, then [k] on the range. *)
Definition check_range (length lba n : Z) (k : M bst exec_status) : M bst exec_status :=
  if negb (nvmf_bdev_ctrlr_lba_in_range (bdev_num_blocks B) lba n)
  then complete_with SPDK_NVME_SCT_GENERIC SPDK_NVME_SC_LBA_OUT_OF_RANGE
  else if length <? u64 (n * bdev_block_size B)
  then complete_with SPDK_NVME_SCT_GENERIC SPDK_NVME_SC_DATA_SGL_LENGTH_INVALID
  else k.

Definition nvmf_bdev_ctrlr_read_cmd (req : nvmf_request) : M bst exec_status :=
  let '(lba, n) := nvmf_bdev_ctrlr_get_rw_params (nvme_command req) in
  check_range (req_length req) lba n
    (submit_or_queue (bdev_readv_blocks lba n) (nvmf_bdev_ctrl_queue_io WaitIoCmd)).

Definition nvmf_bdev_ctrlr_write_cmd (req : nvmf_request) : M bst exec_status :=
  let '(lba, n) := nvmf_bdev_ctrlr_get_rw_params (nvme_command req) in
  let '(cdw12, cdw13) := nvmf_bdev_ctrlr_get_rw_ext_params (nvme_command req) in
  check_range (req_length req) lba n
    (submit_or_queue (bdev_writev_blocks lba n cdw12 cdw13) (nvmf_bdev_ctrl_queue_io WaitIoCmd)).

Definition nvmf_bdev_ctrlr_compare_cmd (req : nvmf_request) : M bst exec_status :=
  let '(lba, n) := nvmf_bdev_ctrlr_get_rw_params (nvme_command req) in
  check_range (req_length req) lba n
    (submit_or_queue (bdev_comparev_blocks lba n) (nvmf_bdev_ctrl_queue_io WaitIoCmd)).

Definition nvmf_bdev_ctrlr_compare_and_write_cmd (cmp_req write_req : nvmf_request)
  : M bst exec_status :=
  let '(cmp_lba, cmp_n) := nvmf_bdev_ctrlr_get_rw_params (nvme_command cmp_req) in
  let '(lba, n) := nvmf_bdev_ctrlr_get_rw_params (nvme_command write_req) in
  if negb (lba =? cmp_lba) || negb (n =? cmp_n)
  then complete_with SPDK_NVME_SCT_GENERIC SPDK_NVME_SC_INVALID_FIELD
  else check_range (req_length write_req) lba n
    (submit_or_queue
       (bdev_comparev_and_writev_blocks lba n (req_length cmp_req) (req_length write_req))
       (_ ← nvmf_bdev_ctrl_queue_io WaitFirstFused; nvmf_bdev_ctrl_queue_io WaitIoCmd)).

Definition nvmf_bdev_ctrlr_write_zeroes_cmd (req : nvmf_request) : M bst exec_status :=
  let '(lba, n) := nvmf_bdev_ctrlr_get_rw_params (nvme_command req) in
  let max := max_write_zeroes_size_kib B in
  too_big ← (if 0 <? max then
               if bdev_block_size B =? 0 then fail UB_div0
               else mret (u64 (Z.shiftl max 10) / bdev_block_size B <? n)
             else mret false);
  if (too_big : bool) then complete_with SPDK_NVME_SCT_GENERIC SPDK_NVME_SC_INVALID_FIELD
  else if negb (nvmf_bdev_ctrlr_lba_in_range (bdev_num_blocks B) lba n)
  then complete_with SPDK_NVME_SCT_GENERIC SPDK_NVME_SC_LBA_OUT_OF_RANGE
  else if cdw12_deac (nvme_command req)
  then complete_with SPDK_NVME_SCT_GENERIC SPDK_NVME_SC_INVALID_FIELD
  else submit_or_queue (bdev_write_zeroes_blocks lba n) (nvmf_bdev_ctrl_queue_io WaitIoCmd).

(** The error path sets only the status code. *)
Definition nvmf_bdev_ctrlr_flush_cmd : M bst exec_status :=
  if negb (flush_supported B)
  then complete_with SPDK_NVME_SCT_GENERIC SPDK_NVME_SC_SUCCESS
  else
    rc ← bdev_submit (bdev_flush_blocks 0 (bdev_num_blocks B));
    if negb (rc =? 0) then
      if rc =? - ENOMEM then _ ← nvmf_bdev_ctrl_queue_io WaitIoCmd; mret ASYNCHRONOUS
      else _ ← set_sc SPDK_NVME_SC_INTERNAL_DEVICE_ERROR; mret COMPLETE
    else mret ASYNCHRONOUS.

(** The copy command: one source range. *)
Definition nvmf_bdev_ctrlr_copy_cmd (req : nvmf_request) : M bst exec_status :=
  let c := nvme_command req in
  let sdlba := u64 (u64 (Z.shiftl (cdw11 c) 32) + cdw10 c) in
  if negb (req_length req =? (cdw12_copy_nr c + 1) * 32)
  then complete_with SPDK_NVME_SCT_GENERIC SPDK_NVME_SC_DATA_SGL_LENGTH_INVALID
  else if 0 <? cdw12_copy_nr c
  then complete_with SPDK_NVME_SCT_COMMAND_SPECIFIC SPDK_NVME_SC_CMD_SIZE_LIMIT_SIZE_EXCEEDED
  else if negb (cdw12_copy_df c =? 0)
  then complete_with SPDK_NVME_SCT_GENERIC SPDK_NVME_SC_INVALID_FIELD
  else
    let '(slba, nlb) := default (0, 0) (hd_error (req_ranges req)) in
    submit_or_queue (bdev_copy_blocks sdlba slba (nlb + 1)) (nvmf_bdev_ctrl_queue_io WaitIoCmd).

Definition nvmf_bdev_ctrlr_zcopy_start (req : nvmf_request) : M bst exec_status :=
  let '(lba, n) := nvmf_bdev_ctrlr_get_rw_params (nvme_command req) in
  check_range (req_length req) lba n
    (submit_or_queue
       (bdev_zcopy_start lba n (cmd_opc (nvme_command req) =? SPDK_NVME_OPC_READ))
       (nvmf_bdev_ctrl_queue_io WaitIoCmd)).

Definition nvmf_bdev_ctrlr_nvme_passthru_io (req : nvmf_request) : M bst exec_status :=
  rc ← bdev_submit (bdev_nvme_iov_passthru (nvme_command req) (req_length req));
  if negb (rc =? 0) then
    if rc =? - ENOMEM then _ ← nvmf_bdev_ctrl_queue_io WaitIoCmd; mret ASYNCHRONOUS
    else
      _ ← set_sct SPDK_NVME_SCT_GENERIC; _ ← set_sc SPDK_NVME_SC_INVALID_OPCODE;
      _ ← modify (fun s => let r := b_rsp s in
                           set_rsp (Rsp (rsp_cdw0 r) (rsp_sct r) (rsp_sc r) 1) s);
      mret COMPLETE
  else mret ASYNCHRONOUS.

(** The completion of a command that is not fused. *)
Definition nvmf_bdev_ctrlr_complete_cmd (cdw0 sct sc : Z) : M bst unit :=
  _ ← modify (fun s => set_rsp (Rsp cdw0 sct sc (rsp_dnr (b_rsp s))) s);
  spdk_nvmf_request_complete.

(** ** Deallocate *)

Definition load_ctx : M bst unmap_ctx :=
  s ← get; lift_opt UB_freed (b_unmap s).
Definition set_count (n : Z) : M bst unit :=
  u ← load_ctx; modify (set_unmap (Some (UnmapCtx (u32 n) (range_index u)))).
Definition free_ctx : M bst unit :=
  _ ← load_ctx; modify (set_unmap None).

(** The loop over the remaining [todo] ranges; [ranges] is the position of the
    transfer iterator, which reads zeros past its end.  [Some st]: the loop
    returned [st]; [None]: it ended or was left with break. *)
Fixpoint unmap_loop (todo : nat) (ranges : list (Z * Z)) : M bst (option exec_status) :=
  match todo with
  | O => mret None
  | S todo' =>
      let '(lba, lba_count) := default (0, 0) (hd_error ranges) in
      let max := max_discard_size_kib B in
      too_big ← (if 0 <? max then
                   if bdev_block_size B =? 0 then fail UB_div0
                   else mret (u64 (Z.shiftl max 10) / bdev_block_size B <? lba_count)
                 else mret false);
      if (too_big : bool)
      then st ← complete_with SPDK_NVME_SCT_GENERIC SPDK_NVME_SC_INVALID_FIELD; mret (Some st)
      else
        u ← load_ctx;
        _ ← set_count (u_count u + 1);
        rc ← bdev_submit (bdev_unmap_blocks lba lba_count);
        if negb (rc =? 0) then
          if rc =? - ENOMEM
          then _ ← nvmf_bdev_ctrl_queue_io WaitUnmap; mret (Some ASYNCHRONOUS)
          else
            _ ← set_sc SPDK_NVME_SC_INTERNAL_DEVICE_ERROR;
            u ← load_ctx; _ ← set_count (u_count u - 1); mret None
        else
          u ← load_ctx;
          _ ← modify (set_unmap (Some (UnmapCtx (u_count u) (u32 (range_index u + 1)))));
          unmap_loop todo' (tl ranges)
  end.

(** [resubmit]: the call comes from the wait queue and has a context. *)
Definition nvmf_bdev_ctrlr_unmap (req : nvmf_request) (resubmit : bool) : M bst exec_status :=
  let nr := cdw10_dsm_nr (nvme_command req) + 1 in
  if req_length req <? nr * 16
  then _ ← set_sc SPDK_NVME_SC_DATA_SGL_LENGTH_INVALID; mret COMPLETE
  else if negb resubmit && negb (calloc_ok B)
  then _ ← set_sc SPDK_NVME_SC_INTERNAL_DEVICE_ERROR; mret COMPLETE
  else
    _ ← (if resubmit then u ← load_ctx; set_count (u_count u - 1)
         else
           _ ← modify (set_unmap (Some (UnmapCtx 0 0)));
           _ ← set_sct SPDK_NVME_SCT_GENERIC; set_sc SPDK_NVME_SC_SUCCESS);
    u ← load_ctx;
    st ← unmap_loop (Z.to_nat (nr - range_index u)) (req_ranges req);
    match st with
    | Some st => mret st
    | None =>
        u ← load_ctx;
        if u_count u =? 0 then _ ← free_ctx; mret COMPLETE else mret ASYNCHRONOUS
    end.

Definition nvmf_bdev_ctrlr_unmap_resubmit (req : nvmf_request) : M bst unit :=
  _ ← nvmf_bdev_ctrlr_unmap req true; mret tt.

Definition nvmf_bdev_ctrlr_unmap_cpl (cdw0 sct sc : Z) : M bst unit :=
  u ← load_ctx;
  _ ← set_count (u_count u - 1);
  s ← get;
  _ ← (if (rsp_sct (b_rsp s) =? SPDK_NVME_SCT_GENERIC) && (rsp_sc (b_rsp s) =? SPDK_NVME_SC_SUCCESS)
       then modify (set_rsp (Rsp cdw0 sct sc (rsp_dnr (b_rsp s)))) else mret tt);
  u ← load_ctx;
  if u_count u =? 0 then _ ← spdk_nvmf_request_complete; free_ctx else mret tt.

Definition nvmf_bdev_ctrlr_dsm_cmd (req : nvmf_request) : M bst exec_status :=
  if cdw11_dsm_ad (nvme_command req) then nvmf_bdev_ctrlr_unmap req false
  else complete_with SPDK_NVME_SCT_GENERIC SPDK_NVME_SC_SUCCESS.

End Ops.
