(* ===== verification/NvmfIo.v ===== *)
(** * Dispatch of I/O commands on the target (lib/nvmf/ctrlr.c)

    [nvmf_ctrlr_process_io_cmd]: the checks of controller, namespace, ANA state
    and reservation, the pairing of fused compare-and-write commands, and the
    choice of the handler of [NvmfBdev]. *)

From S2P Require Import Prelude Reservation NsCmd NvmfBdev.

Definition SPDK_NVME_SCT_PATH : Z := 0x3.
Definition SPDK_NVME_SC_ABORTED_FAILED_FUSED : Z := 0x09.
Definition SPDK_NVME_SC_ABORTED_MISSING_FUSED : Z := 0x0a.
Definition SPDK_NVME_SC_INVALID_NAMESPACE_OR_FORMAT : Z := 0x0b.
Definition SPDK_NVME_SC_COMMAND_SEQUENCE_ERROR : Z := 0x0c.
Definition SPDK_NVME_OPC_COPY : Z := 0x19.
Definition SPDK_NVME_CMD_FUSE_FIRST : Z := 0x1.
Definition SPDK_NVME_CMD_FUSE_SECOND : Z := 0x2.
Definition SPDK_NVME_CMD_FUSE_MASK : Z := 0x3.
Definition SPDK_NVME_ANA_OPTIMIZED_STATE : Z := 0x1.
Definition SPDK_NVME_ANA_NON_OPTIMIZED_STATE : Z := 0x2.
Definition SPDK_NVME_ANA_INACCESSIBLE_STATE : Z := 0x3.
Definition SPDK_NVME_ANA_PERSISTENT_LOSS_STATE : Z := 0x4.
Definition SPDK_NVME_ANA_CHANGE_STATE : Z := 0xF.

Definition _nvme_ana_state_to_path_status (ana_state : Z) : Z :=
  if ana_state =? SPDK_NVME_ANA_INACCESSIBLE_STATE then 0x02
  else if ana_state =? SPDK_NVME_ANA_PERSISTENT_LOSS_STATE then 0x01
  else if ana_state =? SPDK_NVME_ANA_CHANGE_STATE then 0x03
  else 0x00.

(** What the dispatch reads of the controller, the namespace and the poll
    group. *)
Record ioenv := IoEnv {
  io_bdev : benv;
  cc_en : bool;
  ns_has_bdev : bool;
  io_ana_state : Z;
  io_ns_info : pg_ns_info;
  io_ctrlr : ctrlr_t }.

(** A first fused command and its response. *)
Record fused := Fused { f_req : nvmf_request; f_rsp : nvmf_rsp }.

(** The state of a queue pair while it executes a request: the block device
    and response state of the request, qpair->first_fused_req,
    req->first_fused_req, the completed first commands, and the requests sent
    to the subsystem's thread. *)
Record ioq := Ioq {
  q_bst : bst;
  qp_first_fused : option fused;
  rq_first_fused : option fused;
  first_done : list nvmf_rsp;
  resv_sent : list nvmf_request }.

Definition lift_b {A} (m : M bst A) : M ioq A := fun q =>
  match m (q_bst q) with
  | Ok (a, b) => Ok (a, Ioq b (qp_first_fused q) (rq_first_fused q) (first_done q) (resv_sent q))
  | Exit c => Exit c
  | UB r => UB r
  | OutOfFuel => OutOfFuel
  end.

Definition set_qp_first (f : option fused) : M ioq unit :=
  modify (fun q => Ioq (q_bst q) f (rq_first_fused q) (first_done q) (resv_sent q)).
Definition set_rq_first (f : option fused) : M ioq unit :=
  modify (fun q => Ioq (q_bst q) (qp_first_fused q) f (first_done q) (resv_sent q)).
(** _nvmf_request_complete of a first fused command with its response. *)
Definition complete_first (r : nvmf_rsp) : M ioq unit :=
  modify (fun q => Ioq (q_bst q) (qp_first_fused q) (rq_first_fused q)
    (first_done q ++ [r]) (resv_sent q)).
Definition abort_first (f : fused) : M ioq unit :=
  complete_first (Rsp (rsp_cdw0 (f_rsp f)) SPDK_NVME_SCT_GENERIC SPDK_NVME_SC_ABORTED_MISSING_FUSED
    (rsp_dnr (f_rsp f))).

(** spdk_nvme_cpl_is_error *)
Definition rsp_is_error (r : nvmf_rsp) : bool :=
  negb (rsp_sc r =? SPDK_NVME_SC_SUCCESS) || negb (rsp_sct r =? SPDK_NVME_SCT_GENERIC).

Section Dispatch.
Context (E : ioenv).
Let B := io_bdev E.

Definition nvmf_ctrlr_process_io_fused_cmd (req : nvmf_request) : M ioq exec_status :=
  let c := nvme_command req in
  q ← get;
  if cmd_fuse c =? SPDK_NVME_CMD_FUSE_FIRST then
    let store : M ioq exec_status :=
      _ ← set_qp_first (Some (Fused req (b_rsp (q_bst q)))); mret ASYNCHRONOUS in
    match qp_first_fused q with
    | Some f => _ ← abort_first f; store
    | None =>
        if negb (cmd_opc c =? SPDK_NVME_OPC_COMPARE)
        then lift_b (complete_with SPDK_NVME_SCT_GENERIC SPDK_NVME_SC_INVALID_OPCODE)
        else store
    end
  else if cmd_fuse c =? SPDK_NVME_CMD_FUSE_SECOND then
    match qp_first_fused q with
    | None => lift_b (complete_with SPDK_NVME_SCT_GENERIC SPDK_NVME_SC_ABORTED_MISSING_FUSED)
    | Some f =>
        if negb (cmd_opc c =? SPDK_NVME_OPC_WRITE) then
          _ ← abort_first f;
          st ← lift_b (complete_with SPDK_NVME_SCT_GENERIC SPDK_NVME_SC_INVALID_OPCODE);
          _ ← set_qp_first None; mret st
        else
          _ ← set_rq_first (Some f);
          _ ← set_qp_first None;
          st ← lift_b (nvmf_bdev_ctrlr_compare_and_write_cmd B (f_req f) req);
          q ← get;
          match st with
          | COMPLETE =>
              let r := b_rsp (q_bst q) in
              if rsp_is_error r then
                _ ← lift_b (complete_with SPDK_NVME_SCT_GENERIC SPDK_NVME_SC_ABORTED_FAILED_FUSED);
                _ ← complete_first (Rsp (rsp_cdw0 (f_rsp f)) (rsp_sct r) (rsp_sc r) (rsp_dnr r));
                _ ← set_rq_first None; mret COMPLETE
              else mret COMPLETE
          | ASYNCHRONOUS => mret ASYNCHRONOUS
          end
    end
  else lift_b (complete_with SPDK_NVME_SCT_GENERIC SPDK_NVME_SC_INVALID_FIELD).

(** The command as the reservation check reads it. *)
Definition resv_req (req : nvmf_request) : req_t :=
  Req (cmd_opc (nvme_command req)) (NvmfBdev.cdw10 (nvme_command req))
    (NvmfBdev.cdw11 (nvme_command req)) 1 (req_length req) 0 0.

Definition dispatch_opc (req : nvmf_request) : M ioq exec_status :=
  let o := cmd_opc (nvme_command req) in
  if o =? SPDK_NVME_OPC_READ then lift_b (nvmf_bdev_ctrlr_read_cmd B req)
  else if o =? SPDK_NVME_OPC_WRITE then lift_b (nvmf_bdev_ctrlr_write_cmd B req)
  else if o =? SPDK_NVME_OPC_COMPARE then lift_b (nvmf_bdev_ctrlr_compare_cmd B req)
  else if o =? SPDK_NVME_OPC_WRITE_ZEROES then lift_b (nvmf_bdev_ctrlr_write_zeroes_cmd B req)
  else if o =? SPDK_NVME_OPC_FLUSH then lift_b (nvmf_bdev_ctrlr_flush_cmd B)
  else if o =? SPDK_NVME_OPC_DATASET_MANAGEMENT then lift_b (nvmf_bdev_ctrlr_dsm_cmd B req)
  else if (o =? SPDK_NVME_OPC_RESERVATION_REGISTER) || (o =? SPDK_NVME_OPC_RESERVATION_ACQUIRE)
       || (o =? SPDK_NVME_OPC_RESERVATION_RELEASE) || (o =? SPDK_NVME_OPC_RESERVATION_REPORT)
  then
    _ ← modify (fun q => Ioq (q_bst q) (qp_first_fused q) (rq_first_fused q) (first_done q)
                           (resv_sent q ++ [req]));
    mret ASYNCHRONOUS
  else if o =? SPDK_NVME_OPC_COPY then lift_b (nvmf_bdev_ctrlr_copy_cmd B req)
  else lift_b (nvmf_bdev_ctrlr_nvme_passthru_io B req).

Definition set_dnr : M bst unit :=
  modify (fun s => let r := b_rsp s in set_rsp (Rsp (rsp_cdw0 r) (rsp_sct r) (rsp_sc r) 1) s).

(** [zcopy]: spdk_nvmf_request_using_zcopy(req). *)
Definition nvmf_ctrlr_process_io_cmd (zcopy : bool) (req : nvmf_request) : M ioq exec_status :=
  let c := nvme_command req in
  _ ← lift_b (set_sc SPDK_NVME_SC_SUCCESS);
  if negb (cc_en E)
  then lift_b (complete_with SPDK_NVME_SCT_GENERIC SPDK_NVME_SC_COMMAND_SEQUENCE_ERROR)
  else if negb (ns_has_bdev E) then
    _ ← lift_b (_ ← set_sc SPDK_NVME_SC_INVALID_NAMESPACE_OR_FORMAT; set_dnr); mret COMPLETE
  else if negb (io_ana_state E =? SPDK_NVME_ANA_OPTIMIZED_STATE)
       && negb (io_ana_state E =? SPDK_NVME_ANA_NON_OPTIMIZED_STATE)
  then lift_b (complete_with SPDK_NVME_SCT_PATH (_nvme_ana_state_to_path_status (io_ana_state E)))
  else
    _ ← lift_b (_ ← set_sct SPDK_NVME_SCT_GENERIC;
                set_sc (reservation_check_status (io_ns_info E) (io_ctrlr E) (resv_req req)));
    if negb (nvmf_ns_reservation_request_check (io_ns_info E) (io_ctrlr E) (resv_req req) =? 0)
    then mret COMPLETE
    else if negb (Z.land (cmd_fuse c) SPDK_NVME_CMD_FUSE_MASK =? 0)
    then nvmf_ctrlr_process_io_fused_cmd req
    else
      q ← get;
      _ ← match qp_first_fused q with
          | Some f => _ ← abort_first f; set_qp_first None
          | None => mret tt
          end;
      if zcopy then lift_b (nvmf_bdev_ctrlr_zcopy_start B req) else dispatch_opc req.

(** nvmf_bdev_ctrlr_complete_cmd with the two statuses of a fused pair. *)
Definition complete_cmd (cdw0 first_sct first_sc sct sc : Z) : M ioq unit :=
  q ← get;
  _ ← match rq_first_fused q with
      | Some f =>
          _ ← complete_first (Rsp cdw0 first_sct first_sc (rsp_dnr (f_rsp f))); set_rq_first None
      | None => mret tt
      end;
  lift_b (nvmf_bdev_ctrlr_complete_cmd cdw0 sct sc).

End Dispatch.
