(* ===== verification/NvmfLemmas.v ===== *)
(** * The target's handlers: what reaches the block device

    The submissions of each handler, the completion status, and the life of a
    deallocate command. *)

From S2P Require Import Prelude Reservation NsCmd NvmfBdev NvmfIo.

(** ** Ranges *)

Lemma lba_in_range_spec blocks lba n :
  0 <= blocks < 2 ^ 64 -> 0 <= lba < 2 ^ 64 -> 0 <= n < 2 ^ 64 ->
  nvmf_bdev_ctrlr_lba_in_range blocks lba n = true <-> lba + n <= blocks.
Proof.
  intros Hb Hl Hn. unfold nvmf_bdev_ctrlr_lba_in_range.
  rewrite negb_true_iff, orb_false_iff, !Z.ltb_ge. unfold wrap.
  destruct (Z.lt_ge_cases (lba + n) (2 ^ 64)) as [H|H].
  - rewrite Z.mod_small by lia. lia.
  - replace (lba + n) with (lba + n - 2 ^ 64 + 1 * 2 ^ 64) at 1 2 by lia.
    rewrite Z.mod_add, Z.mod_small by lia. lia.
Qed.

Lemma get_rw_params_bounds c :
  0 < snd (nvmf_bdev_ctrlr_get_rw_params c) <= 2 ^ 16.
Proof.
  cbn [nvmf_bdev_ctrlr_get_rw_params snd]. change 0xFFFF with (Z.ones 16).
  rewrite Z.land_ones by lia. pose proof (Z.mod_pos_bound (cmd_cdw12 c) (2 ^ 16)). lia.
Qed.

(** ** Submissions *)

(** The device and the environment of the checks. *)
Record benv_ok (B : benv) : Prop := {
  bo_blocks : 0 <= bdev_num_blocks B < 2 ^ 64;
  bo_size : 0 < bdev_block_size B < 2 ^ 32;
  bo_queue : queue_io_wait_rc B = 0 }.

(** The submission lies on the device and in the buffer of [len] bytes; the
    block device itself checks unmap, copy and passthrough commands.  A
    compare-and-write covers the blocks and has the compare buffer of [first],
    whose length nobody compares with them. *)
Definition op_in_bounds (B : benv) (first : option nvmf_request) (len : Z) (op : bdev_op) : Prop :=
  match op with
  | bdev_readv_blocks lba n | bdev_writev_blocks lba n _ _ | bdev_comparev_blocks lba n
  | bdev_zcopy_start lba n _ =>
      0 < n /\ 0 <= lba /\ lba + n <= bdev_num_blocks B /\ n * bdev_block_size B <= len
  | bdev_comparev_and_writev_blocks lba n cmp_len write_len =>
      0 < n /\ 0 <= lba /\ lba + n <= bdev_num_blocks B /\ n * bdev_block_size B <= write_len
      /\ write_len = len /\ exists f, first = Some f /\ cmp_len = req_length f
      /\ nvmf_bdev_ctrlr_get_rw_params (nvme_command f) = (lba, n)
  | bdev_write_zeroes_blocks lba n => 0 < n /\ 0 <= lba /\ lba + n <= bdev_num_blocks B
  | bdev_flush_blocks lba n => lba = 0 /\ n = bdev_num_blocks B
  | bdev_unmap_blocks _ _ | bdev_copy_blocks _ _ _ | bdev_nvme_iov_passthru _ _ => True
  end.

(** Between [s] and [s'] only submissions with [P] were accepted. *)
Definition adds (P : bdev_op -> Prop) (s s' : bst) : Prop :=
  exists new, b_ops s' = b_ops s ++ new /\ Forall P new.

Lemma adds_refl P s s' : b_ops s' = b_ops s -> adds P s s'.
Proof. intros He. exists []. by rewrite app_nil_r. Qed.

Lemma adds_trans P s1 s2 s3 : adds P s1 s2 -> adds P s2 s3 -> adds P s1 s3.
Proof.
  intros (k & Hk & Pk) (l & Hl & Pl). exists (k ++ l). rewrite Hl, Hk, app_assoc.
  split; [done|]. by apply Forall_app.
Qed.

Section Handlers.
Context (B : benv).
Hypothesis H_B : benv_ok B.

Lemma wp_complete_with sct sc (Q : exec_status -> bst -> Prop) s :
  Q COMPLETE (set_rsp (Rsp (rsp_cdw0 (b_rsp s)) sct sc (rsp_dnr (b_rsp s))) s) ->
  wp (complete_with sct sc) Q s.
Proof. intros HQ. unfold complete_with, set_sct, set_sc. repeat wstep. exact HQ. Qed.

Lemma wp_bdev_submit op (Q : Z -> bst -> Prop) s :
  (forall s', b_rsp s' = b_rsp s -> b_unmap s' = b_unmap s -> b_wait s' = b_wait s ->
     b_completed s' = b_completed s -> b_submits s' = S (b_submits s) ->
     b_ops s' = b_ops s ++ (if bdev_rc B (b_submits s) op =? 0 then [op] else []) ->
     Q (bdev_rc B (b_submits s) op) s') ->
  wp (bdev_submit B op) Q s.
Proof.
  intros HQ. unfold bdev_submit. repeat wstep. apply HQ; try done.
  cbn. destruct (_ =? 0); [done|by rewrite app_nil_r].
Qed.

Lemma wp_queue_io w (Q : unit -> bst -> Prop) s :
  (forall s', b_rsp s' = b_rsp s -> b_unmap s' = b_unmap s -> b_wait s' = b_wait s ++ [w] ->
     b_completed s' = b_completed s -> b_submits s' = b_submits s -> b_ops s' = b_ops s ->
     Q tt s') ->
  wp (nvmf_bdev_ctrl_queue_io B w) Q s.
Proof.
  intros HQ. unfold nvmf_bdev_ctrl_queue_io. wstep. apply wp_assert; [by rewrite (bo_queue _ H_B)|].
  wstep. by apply HQ.
Qed.

(** A handler whose submissions satisfy [P] and whose immediate completions
    report an error. *)
Definition handled (P : bdev_op -> Prop) (s : bst) (st : exec_status) (s' : bst) : Prop :=
  adds P s s' /\ (st = COMPLETE -> rsp_is_error (b_rsp s') = true).

Lemma complete_handled P sct sc s :
  (sct =? 0) && (sc =? 0) = false -> wp (complete_with sct sc) (handled P s) s.
Proof.
  intros He. apply wp_complete_with. split; [by apply adds_refl|]. intros _.
  unfold rsp_is_error. cbn. change SPDK_NVME_SCT_GENERIC with 0. change SPDK_NVME_SC_SUCCESS with 0.
  destruct (sct =? 0), (sc =? 0); done.
Qed.

Lemma submit_or_queue_handled (P : bdev_op -> Prop) op queue s :
  P op -> (forall s Q, (forall s', b_ops s' = b_ops s -> Q tt s') -> wp queue Q s) ->
  wp (submit_or_queue B op queue) (handled P s) s.
Proof.
  intros HP Hqueue. unfold submit_or_queue. wstep. apply wp_bdev_submit.
  intros s1 _ _ _ _ _ Hops. set (rc := bdev_rc B _ op) in *.
  destruct (rc =? 0) eqn:E; cbn [negb].
  - wstep. split; [|done]. exists [op]. split; [done|]. by constructor.
  - rewrite app_nil_r in Hops. destruct (rc =? - ENOMEM).
    + wstep. apply Hqueue. intros s2 Ho2. wstep. split; [|done]. apply adds_refl. congruence.
    + eapply wp_mono; [apply (complete_handled P)|].
      { done. }
      intros st s2 [Ha He]. split; [|exact He]. eapply adds_trans; [by apply adds_refl|exact Ha].
Qed.

Lemma queue_one w s (Q : unit -> bst -> Prop) :
  (forall s', b_ops s' = b_ops s -> Q tt s') -> wp (nvmf_bdev_ctrl_queue_io B w) Q s.
Proof. intros HQ. apply wp_queue_io. auto. Qed.

Lemma queue_two w w' s (Q : unit -> bst -> Prop) :
  (forall s', b_ops s' = b_ops s -> Q tt s') ->
  wp (_ ← nvmf_bdev_ctrl_queue_io B w; nvmf_bdev_ctrl_queue_io B w') Q s.
Proof.
  intros HQ. wstep. apply queue_one. intros s1 H1. apply queue_one. intros s2 H2. apply HQ. congruence.
Qed.

Lemma check_range_handled (P : bdev_op -> Prop) len c k s :
  0 <= cmd_lba c < 2 ^ 64 ->
  let '(lba, n) := nvmf_bdev_ctrlr_get_rw_params c in
  (0 < n -> 0 <= lba -> lba + n <= bdev_num_blocks B -> n * bdev_block_size B <= len ->
     wp k (handled P s) s) ->
  wp (check_range B len lba n k) (handled P s) s.
Proof.
  intros Hl. pose proof (get_rw_params_bounds c) as Hn.
  unfold nvmf_bdev_ctrlr_get_rw_params in *. cbn [snd] in Hn.
  set (n := Z.land _ _ + 1) in *. intros Hk. unfold check_range.
  destruct H_B as [Hb Hs _].
  destruct (nvmf_bdev_ctrlr_lba_in_range _ _ _) eqn:Er; cbn [negb]; [|by apply complete_handled].
  apply lba_in_range_spec in Er; [|lia..].
  assert (0 <= n * bdev_block_size B < 2 ^ 64) by nia.
  rewrite wrap_small by lia. destruct (Z.ltb_spec len (n * bdev_block_size B)).
  - by apply complete_handled.
  - apply Hk; lia.
Qed.

(** The handlers of the commands with a range. *)
Lemma data_cmd_handled first req s :
  0 <= cmd_lba (nvme_command req) < 2 ^ 64 ->
  let P := op_in_bounds B first (req_length req) in
  wp (nvmf_bdev_ctrlr_read_cmd B req) (handled P s) s
  /\ wp (nvmf_bdev_ctrlr_write_cmd B req) (handled P s) s
  /\ wp (nvmf_bdev_ctrlr_compare_cmd B req) (handled P s) s
  /\ wp (nvmf_bdev_ctrlr_zcopy_start B req) (handled P s) s
  /\ forall cmp, first = Some cmp -> wp (nvmf_bdev_ctrlr_compare_and_write_cmd B cmp req) (handled P s) s.
Proof.
  intros Hl P.
  pose proof (fun k => check_range_handled P (req_length req) (nvme_command req) k s Hl) as Hc.
  unfold nvmf_bdev_ctrlr_read_cmd, nvmf_bdev_ctrlr_write_cmd, nvmf_bdev_ctrlr_compare_cmd,
    nvmf_bdev_ctrlr_zcopy_start, nvmf_bdev_ctrlr_compare_and_write_cmd,
    nvmf_bdev_ctrlr_get_rw_ext_params.
  destruct (nvmf_bdev_ctrlr_get_rw_params (nvme_command req)) as [lba n].
  split_and!; try (apply Hc; intros; apply submit_or_queue_handled; [done|intros; by apply queue_one]).
  intros cmp Hcmp. destruct (nvmf_bdev_ctrlr_get_rw_params (nvme_command cmp)) as [lba' n'] eqn:Ec.
  destruct (_ || _) eqn:Eq; [by apply complete_handled|].
  apply orb_false_iff in Eq as [->%negb_false_iff%Z.eqb_eq ->%negb_false_iff%Z.eqb_eq].
  apply Hc. intros. apply submit_or_queue_handled; [|intros; by apply queue_two].
  cbn. split_and!; try done. by exists cmp.
Qed.
End Handlers.

(** ** Deallocate *)

(** The unmaps of the first [k] ranges. *)
Fixpoint range_ops (k : nat) (ranges : list (Z * Z)) : list bdev_op :=
  match k with
  | O => []
  | S k' => let '(lba, n) := default (0, 0) (hd_error ranges) in
            bdev_unmap_blocks lba n :: range_ops k' (tl ranges)
  end.

Lemma range_ops_length k ranges : length (range_ops k ranges) = k.
Proof.
  revert ranges. induction k as [|k IH]; intros ranges; cbn [range_ops]; [done|].
  destruct (default _ _). cbn. by rewrite IH.
Qed.

Section Unmap.
Context (B : benv).
Hypothesis H_B : benv_ok B.

Lemma wp_load_ctx u (Q : unmap_ctx -> bst -> Prop) s :
  b_unmap s = Some u -> Q u s -> wp load_ctx Q s.
Proof. intros Hu HQ. unfold load_ctx. repeat wstep. rewrite Hu. by apply wp_ret. Qed.

Lemma wp_set_count u n (Q : unit -> bst -> Prop) s :
  b_unmap s = Some u -> 0 <= n < 2 ^ 32 ->
  Q tt (set_unmap (Some (UnmapCtx n (range_index u))) s) -> wp (set_count n) Q s.
Proof.
  intros Hu Hn HQ. unfold set_count. wstep. eapply wp_load_ctx; [done|]. wstep.
  by rewrite wrap_small.
Qed.

(** The range is refused by the size limit. *)
Definition too_big (n : Z) : bool :=
  (0 <? max_discard_size_kib B)
  && (u64 (Z.shiftl (max_discard_size_kib B) 10) / bdev_block_size B <? n).

Lemma wp_too_big n (Q : bool -> bst -> Prop) s :
  Q (too_big n) s ->
  wp (if 0 <? max_discard_size_kib B then
        if bdev_block_size B =? 0 then fail UB_div0
        else mret (u64 (Z.shiftl (max_discard_size_kib B) 10) / bdev_block_size B <? n)
      else mret false) Q s.
Proof.
  intros HQ. unfold too_big in HQ. destruct (0 <? _); cbn [andb] in HQ; [|by wstep].
  rewrite (proj2 (Z.eqb_neq (bdev_block_size B) 0)) by (destruct H_B; lia). by wstep.
Qed.

(** How the loop over the ranges ends. *)
Definition loop_end (todo k : nat) (u u' : unmap_ctx) (s s' : bst) (st : option exec_status) : Prop :=
  match st with
  | None => u_count u' = u_count u + Z.of_nat k /\ b_wait s' = b_wait s
      /\ ((k = todo /\ b_rsp s' = b_rsp s) \/ rsp_sc (b_rsp s') = SPDK_NVME_SC_INTERNAL_DEVICE_ERROR)
  | Some ASYNCHRONOUS => u_count u' = u_count u + Z.of_nat k + 1
      /\ b_wait s' = b_wait s ++ [WaitUnmap] /\ b_rsp s' = b_rsp s
  | Some COMPLETE => 0 < max_discard_size_kib B
  end.

Lemma unmap_loop_ok todo ranges u s :
  b_unmap s = Some u -> 0 <= u_count u -> 0 <= range_index u ->
  u_count u + Z.of_nat todo < 2 ^ 32 -> range_index u + Z.of_nat todo < 2 ^ 32 ->
  wp (unmap_loop B todo ranges) (fun st s' => exists k u',
    (k <= todo)%nat /\ b_ops s' = b_ops s ++ range_ops k ranges /\ b_unmap s' = Some u'
    /\ range_index u' = range_index u + Z.of_nat k /\ b_completed s' = b_completed s
    /\ loop_end todo k u u' s s' st) s.
Proof.
  revert ranges u s. induction todo as [|todo IH]; intros ranges u s Hu Hc Hi Hcm Him.
  { cbn [unmap_loop]. wstep. exists O, u. cbn. rewrite app_nil_r, !Z.add_0_r. by split_and!; [..|left]. }
  cbn [unmap_loop]. destruct (default (0, 0) (hd_error ranges)) as [lba n] eqn:Ehd.
  wstep. apply wp_too_big. destruct (too_big n) eqn:Etb.
  { wstep. apply wp_complete_with. wstep. exists O, u. cbn. rewrite app_nil_r, !Z.add_0_r.
    split_and!; try done; [lia|]. unfold too_big in Etb. apply andb_true_iff in Etb as [Etb _].
    by apply Z.ltb_lt. }
  wstep. eapply wp_load_ctx; [done|]. wstep. eapply wp_set_count; [done|lia|].
  set (s1 := set_unmap _ s). wstep. apply wp_bdev_submit. intros s2 Hr2 Hu2 Hw2 Hd2 _ Ho2.
  set (rc := bdev_rc B _ _) in *. destruct (rc =? 0) eqn:Erc; cbn [negb].
  - wstep. eapply wp_load_ctx; [by rewrite Hu2|]. cbn [range_index u_count]. wstep. wstep.
    rewrite wrap_small by lia. eapply wp_mono.
    { eapply (IH (tl ranges) (UnmapCtx (u_count u + 1) (range_index u + 1))); cbn; [done|lia..]. }
    intros st s3 (k & u' & Hk & Ho3 & Hu3 & Hi3 & Hd3 & Hend). exists (S k), u'.
    cbn [range_ops u_count range_index b_ops b_completed set_unmap] in *. rewrite Ehd.
    split; [lia|]. split; [by rewrite Ho3, Ho2, <- app_assoc|]. split; [done|]. split; [lia|].
    split; [by rewrite Hd3, Hd2|]. unfold loop_end in *. cbn [b_wait b_rsp set_unmap u_count] in *.
    destruct st as [[]|].
    + done.
    + destruct Hend as (H1 & H2 & H3). split; [lia|]. by rewrite H2, H3, Hw2, Hr2.
    + destruct Hend as (H1 & H2 & H3). split; [lia|]. split; [by rewrite H2, Hw2|].
      destruct H3 as [[-> H3]|H3]; [left|by right]. by rewrite H3, Hr2.
  - rewrite app_nil_r in Ho2. destruct (rc =? - ENOMEM).
    + wstep. apply (wp_queue_io B H_B). intros s3 Hr3 Hu3 Hw3 Hd3 _ Ho3. wstep.
      exists O, (UnmapCtx (u_count u + 1) (range_index u)). cbn. rewrite app_nil_r, !Z.add_0_r.
      split_and!; [lia|by rewrite Ho3, Ho2|by rewrite Hu3, Hu2|done|by rewrite Hd3, Hd2|done
        |by rewrite Hw3, Hw2|by rewrite Hr3, Hr2].
    + wstep. unfold set_sc. wstep. wstep. eapply wp_load_ctx; [by cbn; rewrite Hu2|].
      cbn [u_count]. wstep. eapply wp_set_count; [by cbn; rewrite Hu2|lia|]. wstep.
      exists O, (UnmapCtx (u_count u) (range_index u)). cbn. rewrite app_nil_r, !Z.add_0_r.
      split_and!; try done; [lia|by rewrite Z.add_simpl_r|by right].
Qed.

(** *** The life of the command *)

Context (req : nvmf_request).
Hypothesis H_len : (cdw10_dsm_nr (nvme_command req) + 1) * 16 <= req_length req.
Let nr : Z := cdw10_dsm_nr (nvme_command req) + 1.

Lemma nr_bounds : 1 <= nr <= 256.
Proof.
  unfold nr, cdw10_dsm_nr. change 0xff with (Z.ones 8). rewrite Z.land_ones by lia.
  pose proof (Z.mod_pos_bound (cdw10 (nvme_command req)) (2 ^ 8)). lia.
Qed.

Lemma wp_free_ctx u (Q : unit -> bst -> Prop) s :
  b_unmap s = Some u -> Q tt (set_unmap None s) -> wp free_ctx Q s.
Proof. intros Hu HQ. unfold free_ctx. wstep. eapply wp_load_ctx; [done|]. by wstep. Qed.

(** The part of nvmf_bdev_ctrlr_unmap after the context is set up. *)
Definition unmap_rest : M bst exec_status :=
  u ← load_ctx;
  st ← unmap_loop B (Z.to_nat (nr - range_index u)) (req_ranges req);
  match st with
  | Some st => mret st
  | None =>
      u ← load_ctx;
      if u_count u =? 0 then _ ← free_ctx; mret COMPLETE else mret ASYNCHRONOUS
  end.

(** The context counts the unmaps in flight ([out]) and the queued one. *)
Record live (out waits : nat) (s : bst) (u : unmap_ctx) : Prop := {
  lv_ctx : b_unmap s = Some u;
  lv_count : u_count u = Z.of_nat out + Z.of_nat waits;
  lv_wait : b_wait s = replicate waits WaitUnmap;
  lv_index : Z.of_nat out <= range_index u <= nr;
  lv_completed : b_completed s = 0 }.

Lemma unmap_rest_ok out s u :
  max_discard_size_kib B = 0 -> live out 0 s u ->
  wp unmap_rest (fun st s' => exists k, b_ops s' = b_ops s ++ range_ops k (req_ranges req) /\
    match st with
    | COMPLETE => (out + k = 0)%nat /\ b_unmap s' = None /\ b_wait s' = [] /\ b_completed s' = 0
    | ASYNCHRONOUS => exists waits u', live (out + k) waits s' u' /\ (waits <= 1)%nat
        /\ (0 < out + k + waits)%nat
    end) s.
Proof.
  intros Hmax [Hu Hc Hw Hi Hd]. pose proof nr_bounds. unfold unmap_rest.
  wstep. eapply wp_load_ctx; [done|]. wstep.
  eapply wp_mono; [apply (unmap_loop_ok _ _ u); [done|lia..]|].
  intros st s' (k & u' & Hk & Ho & Hu' & Hi' & Hd' & Hend). destruct st as [[]|].
  - cbn in Hend. lia.
  - destruct Hend as (Hc' & Hw' & _). wstep. exists k. split; [done|]. exists 1%nat, u'.
    split; [|lia]. constructor; [done|lia|by rewrite Hw', Hw|lia|lia].
  - destruct Hend as (Hc' & Hw' & _). wstep. eapply wp_load_ctx; [done|].
    destruct (Z.eqb_spec (u_count u') 0) as [E|E].
    + wstep. eapply wp_free_ctx; [done|]. wstep. exists k. split; [done|].
      split_and!; [lia|done|by cbn; rewrite Hw', Hw|cbn; lia].
    + wstep. exists k. split; [done|]. exists O, u'. split; [|lia].
      constructor; [done|lia|by rewrite Hw', Hw|lia|lia].
Qed.

(** The events of a deallocate command: one of its unmaps completes, or the
    block device takes the queued entry from its wait queue. *)
Inductive unmap_event := EvCpl (cdw0 sct sc : Z) | EvDequeue.

(** The first execution: nvmf_ctrlr_process_io_cmd's caller completes the
    request when the handler says so. *)
Definition unmap_start (s : bst) : res (bst * nat) :=
  '(st, s') ← nvmf_bdev_ctrlr_unmap B req false s;
  match st with
  | COMPLETE => '(_, s'') ← spdk_nvmf_request_complete s'; mret (s'', (length (b_ops s'') - length (b_ops s))%nat)
  | ASYNCHRONOUS => mret (s', (length (b_ops s') - length (b_ops s))%nat)
  end.

(** [out]: the unmaps in flight.  An event that cannot happen changes
    nothing. *)
Definition unmap_event_step (e : unmap_event) (w : bst * nat) : res (bst * nat) :=
  let '(s, out) := w in
  match e, out, b_wait s with
  | EvCpl cdw0 sct sc, S out', _ =>
      '(_, s') ← nvmf_bdev_ctrlr_unmap_cpl cdw0 sct sc s; mret (s', out')
  | EvDequeue, _, WaitUnmap :: rest =>
      '(_, s') ← nvmf_bdev_ctrlr_unmap_resubmit B req
        (Bst (b_rsp s) (b_ops s) (b_submits s) rest (pending_bdev_io s) (b_completed s) (b_unmap s));
      mret (s', (out + (length (b_ops s') - length (b_ops s)))%nat)
  | _, _, _ => mret w
  end.

Fixpoint unmap_run (es : list unmap_event) (w : bst * nat) : res (bst * nat) :=
  match es with
  | [] => mret w
  | e :: es' => w' ← unmap_event_step e w; unmap_run es' w'
  end.

(** In flight with a context, or finished. *)
Definition unmap_inv (w : bst * nat) : Prop :=
  let '(s, out) := w in
  (exists waits u, live out waits s u /\ (waits <= 1)%nat /\ (0 < out + waits)%nat)
  \/ (out = O /\ b_unmap s = None /\ b_wait s = [] /\ 0 <= b_completed s <= 1).

Lemma unmap_eq (resubmit : bool) s :
  (resubmit = false -> calloc_ok B = true) ->
  nvmf_bdev_ctrlr_unmap B req resubmit s =
  (_ ← (if resubmit then u ← load_ctx; set_count (u_count u - 1)
        else
          _ ← modify (set_unmap (Some (UnmapCtx 0 0)));
          _ ← set_sct SPDK_NVME_SCT_GENERIC; set_sc SPDK_NVME_SC_SUCCESS);
   unmap_rest) s.
Proof.
  intros Hca. unfold nvmf_bdev_ctrlr_unmap. fold nr.
  rewrite (proj2 (Z.ltb_ge (req_length req) (nr * 16))) by (unfold nr; lia).
  destruct resubmit; [done|]. by rewrite Hca.
Qed.

Lemma unmap_first_ok s :
  max_discard_size_kib B = 0 -> b_wait s = [] -> b_completed s = 0 -> calloc_ok B = true ->
  wp (nvmf_bdev_ctrlr_unmap B req false) (fun st s' => exists k,
    b_ops s' = b_ops s ++ range_ops k (req_ranges req) /\
    match st with
    | COMPLETE => k = 0%nat /\ b_unmap s' = None /\ b_wait s' = [] /\ b_completed s' = 0
    | ASYNCHRONOUS => exists waits u', live k waits s' u' /\ (waits <= 1)%nat /\ (0 < k + waits)%nat
    end) s.
Proof.
  intros Hmax Hw Hd Hca. eapply wp_eq; [by apply unmap_eq|]. unfold set_sct, set_sc. do 6 wstep.
  eapply wp_mono; [apply (unmap_rest_ok 0 _ (UnmapCtx 0 0)); [done|]|].
  - pose proof nr_bounds. constructor; try done. cbn. lia.
  - intros st s' (k & Ho & Hst). exists k. by destruct st.
Qed.

Lemma unmap_start_inv s :
  max_discard_size_kib B = 0 -> b_unmap s = None -> b_wait s = [] -> b_completed s = 0 ->
  exists w, unmap_start s = Ok w /\ unmap_inv w.
Proof.
  intros Hmax Hn Hw Hd. unfold unmap_start. destruct (calloc_ok B) eqn:Eca.
  - destruct (unmap_first_ok s Hmax Hw Hd Eca) as (st & s' & -> & k & Ho & Hst).
    cbn [mbind res_bind]. assert (Hl : (length (b_ops s') - length (b_ops s) = k)%nat).
    { rewrite Ho, length_app, range_ops_length. lia. }
    destruct st.
    + destruct Hst as (-> & Hu & Hw' & Hd'). eexists. split; [reflexivity|]. right.
      split_and!; [done|done|done|cbn; lia..].
    + destruct Hst as (waits & u' & Hlive & Hst). eexists. split; [reflexivity|]. left.
      rewrite Hl. by exists waits, u'.
  - assert (Hrun : nvmf_bdev_ctrlr_unmap B req false s
      = (_ ← set_sc SPDK_NVME_SC_INTERNAL_DEVICE_ERROR; mret COMPLETE) s).
    { unfold nvmf_bdev_ctrlr_unmap. fold nr.
      rewrite (proj2 (Z.ltb_ge (req_length req) (nr * 16))) by (unfold nr; lia). by rewrite Eca. }
    rewrite Hrun. eexists. split; [reflexivity|]. right. cbn. split_and!; [lia|done|done|lia..].
Qed.

Lemma unmap_cpl_ok cdw0 sct sc out waits s u :
  live (S out) waits s u -> (waits <= 1)%nat ->
  exists s', nvmf_bdev_ctrlr_unmap_cpl cdw0 sct sc s = Ok (tt, s') /\ unmap_inv (s', out).
Proof.
  intros [Hu Hc Hw Hi Hd] Hwt. pose proof nr_bounds.
  assert (Hwp : wp (nvmf_bdev_ctrlr_unmap_cpl cdw0 sct sc) (fun _ s' => unmap_inv (s', out)) s).
  { unfold nvmf_bdev_ctrlr_unmap_cpl. wstep. eapply wp_load_ctx; [done|]. wstep.
    eapply wp_set_count; [done|lia|]. set (u1 := UnmapCtx (u_count u - 1) (range_index u)).
    wstep. wstep. apply wp_bind. eapply (wp_mono _ (fun _ s' => b_unmap s' = Some u1
      /\ b_wait s' = b_wait s /\ b_completed s' = b_completed s)).
    { destruct (_ && _); wstep; done. }
    intros _ s2 (Hu2 & Hw2 & Hd2). wstep. eapply wp_load_ctx; [done|].
    destruct (Z.eqb_spec (u_count u1) 0) as [E|E]; cbn [u_count u1] in E.
    - wstep. unfold spdk_nvmf_request_complete. wstep. eapply wp_free_ctx; [done|]. right. cbn.
      rewrite Hw2, Hd2, Hw. assert (waits = O) as -> by lia. split_and!; [lia|done|done|lia..].
    - wstep. left. exists waits, u1. split; [|lia].
      constructor; [done|cbn; lia|by rewrite Hw2|cbn; lia|lia]. }
  destruct Hwp as ([] & s' & Hrun & Hinv). by exists s'.
Qed.

Lemma unmap_resubmit_ok out s u rest :
  max_discard_size_kib B = 0 -> b_wait s = WaitUnmap :: rest -> live out 1 s u ->
  exists w, unmap_event_step EvDequeue (s, out) = Ok w /\ unmap_inv w.
Proof.
  intros Hmax Ew [Hu Hc Hw Hi Hd]. pose proof nr_bounds.
  cbn [unmap_event_step]. rewrite Ew. assert (rest = []) as -> by (rewrite Ew in Hw; by injection Hw).
  set (s1 := Bst _ _ _ _ _ _ _).
  assert (Hwp : wp (nvmf_bdev_ctrlr_unmap_resubmit B req) (fun _ s' => exists k,
    b_ops s' = b_ops s ++ range_ops k (req_ranges req) /\ unmap_inv (s', (out + k)%nat)) s1).
  { unfold nvmf_bdev_ctrlr_unmap_resubmit. wstep. eapply wp_eq; [by apply unmap_eq|].
    do 2 wstep. eapply wp_load_ctx; [done|]. eapply wp_set_count; [done|lia|].
    eapply wp_mono; [apply (unmap_rest_ok out _ (UnmapCtx (u_count u - 1) (range_index u))); [done|]|].
    - constructor; cbn; [done|lia|done|lia|done].
    - intros st s' (k & Ho & Hst). wstep. exists k. split; [done|]. destruct st.
      + destruct Hst as (Hk & Hu' & Hw' & Hd'). right. split_and!; [lia|done|done|lia..].
      + left. exact Hst. }
  destruct Hwp as ([] & s' & Hrun & k & Ho & Hinv). rewrite Hrun. eexists. split; [reflexivity|].
  rewrite Ho, length_app, range_ops_length. by replace (_ + k - _)%nat with k by lia.
Qed.

Lemma unmap_run_inv es w :
  max_discard_size_kib B = 0 -> unmap_inv w ->
  exists w', unmap_run es w = Ok w' /\ unmap_inv w'.
Proof.
  intros Hmax. revert w. induction es as [|e es IH]; intros [s out] Hinv; [by eexists|].
  assert (Hstep : exists w', unmap_event_step e (s, out) = Ok w' /\ unmap_inv w').
  { destruct Hinv as [(waits & u & Hlive & Hwt & Hpos)|Hdone].
    - destruct e as [cdw0 sct sc|].
      + destruct out as [|out]; [eexists; split; [reflexivity|]; left; by exists waits, u|].
        destruct (unmap_cpl_ok cdw0 sct sc out waits s u Hlive Hwt) as (s' & Hr & Hi).
        cbn [unmap_event_step]. rewrite Hr. by eexists.
      + destruct waits as [|[|]]; [| |lia].
        * cbn [unmap_event_step]. rewrite (lv_wait _ _ _ _ Hlive). eexists. split; [reflexivity|].
          left. by exists O, u.
        * by apply (unmap_resubmit_ok out s u []); [done|apply Hlive|].
    - destruct Hdone as (-> & Hu & Hw & Hd). exists (s, O). split; [|by right].
      destruct e; cbn [unmap_event_step]; [done|by rewrite Hw]. }
  destruct Hstep as (w' & Hr & Hi). cbn [unmap_run]. rewrite Hr. by apply IH.
Qed.
End Unmap.
