(* ===== verification/NvmfTheorems.v ===== *)
(** * The target's I/O path: bounds, reservations, fused pairs, deallocate

    Every command that reaches the block device lies on it; a conflicting
    reservation stops a command before the device; fused commands are paired
    and completed once; a deallocate command is completed once, with the ranges
    it names; and the deviations of its retry path. *)

From S2P Require Import Prelude Reservation NsCmd NsCmdLemmas NvmfBdev NvmfIo NvmfLemmas.

(** ** Handlers without a shared check *)

Section Handlers.
Context (B : benv) (first : option nvmf_request).
Hypothesis H_B : benv_ok B.

Lemma adds_app P s s' new : b_ops s' = b_ops s ++ new -> Forall P new -> adds P s s'.
Proof. intros. by exists new. Qed.

(** The submissions and the choice of an error path do not matter to [adds]. *)
Lemma submit_adds (P : bdev_op -> Prop) op s s' (rc : Z) :
  P op -> b_ops s' = b_ops s ++ (if rc =? 0 then [op] else []) -> adds P s s'.
Proof.
  intros HP Ho. eapply adds_app; [exact Ho|]. destruct (rc =? 0); by repeat constructor.
Qed.

Lemma write_zeroes_adds req s :
  0 <= cmd_lba (nvme_command req) < 2 ^ 64 ->
  wp (nvmf_bdev_ctrlr_write_zeroes_cmd B req) (fun _ => adds (op_in_bounds B first (req_length req)) s) s.
Proof.
  intros Hl. unfold nvmf_bdev_ctrlr_write_zeroes_cmd.
  pose proof (get_rw_params_bounds (nvme_command req)) as Hn.
  unfold nvmf_bdev_ctrlr_get_rw_params in *. cbn [snd] in Hn. set (n := Z.land _ _ + 1) in *.
  assert (Hend : forall sct sc, wp (complete_with sct sc)
    (fun _ => adds (op_in_bounds B first (req_length req)) s) s).
  { intros. apply wp_complete_with. by apply adds_refl. }
  wstep. apply (wp_mono _ (fun _ s' => s' = s)).
  { destruct (0 <? _); [|by wstep]. rewrite (proj2 (Z.eqb_neq (bdev_block_size B) 0)).
    - by wstep.
    - destruct H_B; lia. }
  intros big s' ->. destruct big; [apply Hend|].
  destruct (nvmf_bdev_ctrlr_lba_in_range _ _ _) eqn:Er; cbn [negb]; [|apply Hend].
  apply lba_in_range_spec in Er; [|destruct H_B; lia..].
  destruct (cdw12_deac _); [apply Hend|].
  eapply wp_mono; [apply (submit_or_queue_handled B (op_in_bounds B first (req_length req)))|].
  - cbn. lia.
  - intros. by apply queue_one.
  - by intros st s' [Ha _].
Qed.

Lemma flush_adds len s :
  wp (nvmf_bdev_ctrlr_flush_cmd B) (fun _ => adds (op_in_bounds B first len) s) s.
Proof.
  unfold nvmf_bdev_ctrlr_flush_cmd. destruct (flush_supported B); cbn [negb].
  - wstep. apply wp_bdev_submit. intros s1 _ _ _ _ _ Ho.
    assert (Ha : adds (op_in_bounds B first len) s s1) by (eapply submit_adds; [|exact Ho]; done).
    destruct (negb _); [|by wstep]. destruct (_ =? - ENOMEM).
    + wstep. apply (queue_one B H_B). intros s2 H2. wstep. eapply adds_trans; [exact Ha|by apply adds_refl].
    + wstep. unfold set_sc. wstep. wstep. eapply adds_trans; [exact Ha|by apply adds_refl].
  - apply wp_complete_with. by apply adds_refl.
Qed.

Lemma copy_adds (P : bdev_op -> Prop) req s :
  (forall dst src n, P (bdev_copy_blocks dst src n)) ->
  wp (nvmf_bdev_ctrlr_copy_cmd B req) (fun _ => adds P s) s.
Proof.
  intros HP. unfold nvmf_bdev_ctrlr_copy_cmd. assert (Hend : forall sct sc, wp (complete_with sct sc)
    (fun _ => adds P s) s).
  { intros. apply wp_complete_with. by apply adds_refl. }
  destruct (negb _); [apply Hend|]. destruct (0 <? _); [apply Hend|]. destruct (negb _); [apply Hend|].
  destruct (default _ _) as [slba nlb].
  eapply wp_mono; [apply (submit_or_queue_handled B P); [done|]|].
  - intros. by apply queue_one.
  - by intros st s' [Ha _].
Qed.

Lemma passthru_adds (P : bdev_op -> Prop) req s :
  (forall c l, P (bdev_nvme_iov_passthru c l)) ->
  wp (nvmf_bdev_ctrlr_nvme_passthru_io B req) (fun _ => adds P s) s.
Proof.
  intros HP. unfold nvmf_bdev_ctrlr_nvme_passthru_io. wstep. apply wp_bdev_submit. intros s1 _ _ _ _ _ Ho.
  assert (Ha : adds P s s1) by (by eapply submit_adds; [|exact Ho]).
  destruct (negb _); [|by wstep]. destruct (_ =? - ENOMEM).
  - wstep. apply (queue_one B H_B). intros s2 H2. wstep. eapply adds_trans; [exact Ha|by apply adds_refl].
  - unfold set_sct, set_sc. repeat wstep. eapply adds_trans; [exact Ha|by apply adds_refl].
Qed.

Lemma range_ops_unbounded len k ranges : Forall (op_in_bounds B first len) (range_ops k ranges).
Proof.
  revert ranges. induction k as [|k IH]; intros ranges; cbn [range_ops]; [done|].
  destruct (default _ _). by constructor.
Qed.

Lemma dsm_adds req len s :
  wp (nvmf_bdev_ctrlr_dsm_cmd B req) (fun _ => adds (op_in_bounds B first len) s) s.
Proof.
  unfold nvmf_bdev_ctrlr_dsm_cmd.
  destruct (cdw11_dsm_ad _); [|apply wp_complete_with; by apply adds_refl].
  unfold nvmf_bdev_ctrlr_unmap. pose proof (nr_bounds req) as Hnr.
  set (nr := cdw10_dsm_nr (nvme_command req) + 1) in *.
  destruct (_ <? nr * 16); [unfold set_sc; do 3 wstep; by apply adds_refl|].
  destruct (_ && _); [unfold set_sc; do 3 wstep; by apply adds_refl|].
  unfold set_sct, set_sc. do 6 wstep. wstep. eapply wp_load_ctx; [done|]. wstep.
  eapply wp_mono; [apply (unmap_loop_ok B H_B _ _ (UnmapCtx 0 0)); cbn [u_count range_index]; [done|lia..]|].
  intros st s' (k & u' & _ & Ho & Hu' & _ & _ & _).
  assert (Ha : adds (op_in_bounds B first len) s s') by (eapply adds_app; [exact Ho|apply range_ops_unbounded]).
  destruct st as [st|]; [by wstep|]. wstep. eapply wp_load_ctx; [done|].
  destruct (_ =? 0); [|by wstep]. wstep. eapply wp_free_ctx; [done|]. wstep.
  eapply adds_trans; [exact Ha|by apply adds_refl].
Qed.
End Handlers.

(** ** The dispatch *)

Lemma wp_lift_b {A} (m : M bst A) (Q : A -> ioq -> Prop) q :
  wp m (fun a b => Q a (Ioq b (qp_first_fused q) (rq_first_fused q) (first_done q) (resv_sent q)))
    (q_bst q) -> wp (lift_b m) Q q.
Proof. intros (a & b & Hm & HQ). unfold wp, lift_b. rewrite Hm. by eexists _, _. Qed.

(** The first fused commands a queue pair has accepted: waiting for their
    second command, paired with the request, or completed. *)
Definition fused_count (q : ioq) : nat :=
  (match qp_first_fused q with Some _ => 1 | None => 0 end)
  + (match rq_first_fused q with Some _ => 1 | None => 0 end) + length (first_done q).

Section Dispatch.
Context (E : ioenv).
Let B := io_bdev E.
Hypothesis H_B : benv_ok B.

(** What a command does: its submissions and its effect on the fused commands. *)
Record io_effect (req : nvmf_request) (q : ioq) (st : exec_status) (q' : ioq) : Prop := {
  ie_ops : adds (op_in_bounds B (f_req <$> qp_first_fused q) (req_length req)) (q_bst q) (q_bst q');
  ie_fused : fused_count q' = (fused_count q
    + match st with
      | ASYNCHRONOUS =>
          if (cmd_fuse (nvme_command req) =? SPDK_NVME_CMD_FUSE_FIRST)%Z then 1 else 0
      | COMPLETE => 0
      end)%nat;
  ie_pair : forall f, rq_first_fused q' = Some f -> st = ASYNCHRONOUS /\ qp_first_fused q = Some f
    /\ cmd_fuse (nvme_command req) = SPDK_NVME_CMD_FUSE_SECOND
    /\ cmd_opc (nvme_command req) = SPDK_NVME_OPC_WRITE }.

(** A handler that leaves the fused commands alone. *)
Lemma plain_effect (m : M bst exec_status) req q0 q :
  rq_first_fused q = None -> fused_count q = fused_count q0 ->
  cmd_fuse (nvme_command req) <> SPDK_NVME_CMD_FUSE_FIRST -> b_ops (q_bst q) = b_ops (q_bst q0) ->
  wp m (fun _ => adds (op_in_bounds B (f_req <$> qp_first_fused q0) (req_length req)) (q_bst q)) (q_bst q) ->
  wp (lift_b m) (io_effect req q0) q.
Proof.
  intros Hrq Hf Hfuse Ho Hm. apply wp_lift_b. eapply wp_mono; [exact Hm|]. intros st b Ha.
  constructor; cbn.
  - eapply adds_trans; [by apply adds_refl|exact Ha].
  - rewrite (proj2 (Z.eqb_neq _ _) Hfuse). unfold fused_count in *. cbn. rewrite <- Hf.
    destruct st; lia.
  - by rewrite Hrq.
Qed.

Lemma complete_effect sct sc req q0 q :
  rq_first_fused q = None -> fused_count q = fused_count q0 -> b_ops (q_bst q) = b_ops (q_bst q0) ->
  wp (lift_b (complete_with sct sc)) (io_effect req q0) q.
Proof.
  intros Hrq Hf Ho. apply wp_lift_b, wp_complete_with. constructor; cbn.
  - apply adds_refl. cbn. done.
  - unfold fused_count in *. cbn. lia.
  - by rewrite Hrq.
Qed.

Lemma dispatch_effect req q0 q :
  0 <= cmd_lba (nvme_command req) < 2 ^ 64 ->
  rq_first_fused q = None -> fused_count q = fused_count q0 ->
  cmd_fuse (nvme_command req) <> SPDK_NVME_CMD_FUSE_FIRST -> b_ops (q_bst q) = b_ops (q_bst q0) ->
  wp (dispatch_opc E req) (io_effect req q0) q.
Proof.
  intros Hl Hrq Hf Hfuse Ho.
  set (first := f_req <$> qp_first_fused q0).
  destruct (data_cmd_handled B H_B first req (q_bst q) Hl) as (Hr & Hw & Hc & _ & _).
  assert (Hh : forall m, wp m (handled (op_in_bounds B first (req_length req)) (q_bst q)) (q_bst q) ->
    wp (lift_b m) (io_effect req q0) q).
  { intros m Hm. apply plain_effect; try done. eapply wp_mono; [exact Hm|]. by intros st s' [Ha _]. }
  unfold dispatch_opc. fold B.
  destruct (_ =? SPDK_NVME_OPC_READ); [by apply Hh|].
  destruct (_ =? SPDK_NVME_OPC_WRITE); [by apply Hh|].
  destruct (_ =? SPDK_NVME_OPC_COMPARE); [by apply Hh|].
  destruct (_ =? SPDK_NVME_OPC_WRITE_ZEROES);
    [apply plain_effect; try done; by apply write_zeroes_adds|].
  destruct (_ =? SPDK_NVME_OPC_FLUSH); [apply plain_effect; try done; by apply flush_adds|].
  destruct (_ =? SPDK_NVME_OPC_DATASET_MANAGEMENT);
    [apply plain_effect; try done; by apply dsm_adds|].
  destruct (_ || _).
  { do 3 wstep. constructor; cbn; [by apply adds_refl| |by rewrite Hrq].
    rewrite (proj2 (Z.eqb_neq _ _) Hfuse). unfold fused_count in *. cbn. lia. }
  destruct (_ =? SPDK_NVME_OPC_COPY); [apply plain_effect; try done; by apply copy_adds|].
  apply plain_effect; try done. by apply passthru_adds.
Qed.

Lemma fused_effect req q0 q :
  0 <= cmd_lba (nvme_command req) < 2 ^ 64 ->
  rq_first_fused q = None -> qp_first_fused q = qp_first_fused q0 ->
  fused_count q = fused_count q0 -> b_ops (q_bst q) = b_ops (q_bst q0) ->
  wp (nvmf_ctrlr_process_io_fused_cmd E req) (io_effect req q0) q.
Proof.
  intros Hl Hrq Hqp Hf Ho. unfold nvmf_ctrlr_process_io_fused_cmd. wstep. wstep.
  unfold fused_count in Hf.
  destruct (Z.eqb_spec (cmd_fuse (nvme_command req)) SPDK_NVME_CMD_FUSE_FIRST) as [E1|E1].
  - destruct (qp_first_fused q) as [f|] eqn:Eq.
    + unfold abort_first, complete_first, set_qp_first. repeat wstep.
      constructor; cbn; [by apply adds_refl| |by rewrite Hrq].
      rewrite E1. unfold fused_count. cbn. rewrite length_app. cbn. cbn in Hf. lia.
    + destruct (negb _); [by apply complete_effect; [|unfold fused_count; rewrite Eq|]|].
      unfold set_qp_first. repeat wstep. constructor; cbn; [by apply adds_refl| |by rewrite Hrq].
      rewrite E1. unfold fused_count. cbn. cbn in Hf. lia.
  - destruct (Z.eqb_spec (cmd_fuse (nvme_command req)) SPDK_NVME_CMD_FUSE_SECOND) as [E2|E2];
      [|apply complete_effect; try done; unfold fused_count; done].
    destruct (qp_first_fused q) as [f|] eqn:Eq;
      [|apply complete_effect; try done; unfold fused_count; by rewrite Eq].
    destruct (Z.eqb_spec (cmd_opc (nvme_command req)) SPDK_NVME_OPC_WRITE) as [Ew|Ew]; cbn [negb].
    + unfold set_rq_first, set_qp_first. wstep. wstep. wstep. wstep. wstep. apply wp_lift_b.
      destruct (data_cmd_handled B H_B (f_req <$> qp_first_fused q0) req (q_bst q) Hl) as (_ & _ & _ & _ & Hcw).
      eapply wp_mono; [apply Hcw; by rewrite <- Hqp|]. intros st b [Ha He]. wstep. wstep.
      assert (Ha' : adds (op_in_bounds B (f_req <$> qp_first_fused q0) (req_length req)) (q_bst q0) b)
        by (eapply adds_trans; [by apply adds_refl|exact Ha]).
      destruct st.
      * cbn [q_bst]. rewrite (He eq_refl). wstep. apply wp_lift_b, wp_complete_with.
        unfold complete_first. repeat wstep. constructor; cbn.
        -- eapply adds_trans; [exact Ha'|by apply adds_refl].
        -- unfold fused_count. cbn. rewrite length_app. cbn. rewrite Hrq in Hf. cbn in Hf. lia.
        -- done.
      * wstep. constructor; cbn; [done| |].
        -- rewrite (proj2 (Z.eqb_neq _ _) E1). unfold fused_count. cbn. rewrite Hrq in Hf. cbn in Hf. lia.
        -- intros f' [= <-]. done.
    + unfold abort_first, complete_first, set_qp_first. wstep. wstep. wstep.
      apply wp_lift_b, wp_complete_with. repeat wstep. constructor; cbn; [by apply adds_refl| |by rewrite Hrq].
      unfold fused_count. cbn. rewrite length_app. cbn. cbn in Hf. lia.
Qed.

Lemma process_effect zcopy req q :
  0 <= cmd_lba (nvme_command req) < 2 ^ 64 -> 0 <= cmd_fuse (nvme_command req) < 4 ->
  rq_first_fused q = None ->
  wp (nvmf_ctrlr_process_io_cmd E zcopy req) (io_effect req q) q.
Proof.
  intros Hl Hfu Hrq. unfold nvmf_ctrlr_process_io_cmd. wstep. apply wp_lift_b. unfold set_sc at 1. wstep.
  destruct (cc_en E); cbn [negb]; [|by apply complete_effect].
  destruct (ns_has_bdev E); cbn [negb].
  2: { wstep. apply wp_lift_b. unfold set_sc, set_dnr. repeat wstep.
       constructor; cbn; [by apply adds_refl|unfold fused_count; cbn; lia|by rewrite Hrq]. }
  destruct (_ && _); [by apply complete_effect|].
  wstep. apply wp_lift_b. unfold set_sct, set_sc. repeat wstep.
  destruct (negb _).
  { wstep. constructor; cbn; [by apply adds_refl|unfold fused_count; cbn; lia|by rewrite Hrq]. }
  destruct (Z.eqb_spec (Z.land (cmd_fuse (nvme_command req)) SPDK_NVME_CMD_FUSE_MASK) 0) as [Ef|Ef];
    cbn [negb]; [|by apply fused_effect].
  assert (Hf1 : cmd_fuse (nvme_command req) <> SPDK_NVME_CMD_FUSE_FIRST)
    by (intros E1; rewrite E1 in Ef; done).
  wstep. wstep. cbn [qp_first_fused]. apply wp_bind.
  eapply (wp_mono _ (fun _ q' => rq_first_fused q' = None /\ fused_count q' = fused_count q
    /\ b_ops (q_bst q') = b_ops (q_bst q))).
  { destruct (qp_first_fused q) eqn:Eq.
    - unfold abort_first, complete_first, set_qp_first. repeat wstep. cbn. split_and!; [done| |done].
      unfold fused_count. cbn. rewrite Eq, length_app. cbn. lia.
    - wstep. cbn. split_and!; [done| |done]. unfold fused_count. cbn. by rewrite Eq. }
  intros _ q1 (Hrq1 & Hf & Ho). destruct zcopy; [|by apply dispatch_effect].
  apply plain_effect; try done. destruct (data_cmd_handled B H_B (f_req <$> qp_first_fused q) req (q_bst q1) Hl) as (_ & _ & _ & Hz & _).
  eapply wp_mono; [exact Hz|]. by intros st s' [Ha _].
Qed.

(** C14: whatever command a host sends (a 64-bit first block, a fuse field of two
    bits, on a request not yet paired with a first command), the dispatch returns
    normally, and every read, write, compare, zero-copy and write-zeroes submission
    to the block device lies on the device, 64-bit wrap-around of the range
    included, and its data inside the command's buffer.  A compare-and-write lies
    on the device with its write data inside the buffer of the second command; its
    compare buffer is the one of the waiting first command, which named the same
    blocks, and is long enough exactly when that command's length covers them: the
    dispatch does not check it.  Nothing is said of unmap, copy and passthrough
    submissions, which the block device checks.  The device has less than 2^64
    blocks, and a wait for memory can be registered. *)
Theorem io_cmds_in_bounds zcopy req q :
  0 <= cmd_lba (nvme_command req) < 2 ^ 64 -> 0 <= cmd_fuse (nvme_command req) < 4 ->
  rq_first_fused q = None ->
  exists st q', nvmf_ctrlr_process_io_cmd E zcopy req q = Ok (st, q')
    /\ exists new, b_ops (q_bst q') = b_ops (q_bst q) ++ new
         /\ Forall (op_in_bounds B (f_req <$> qp_first_fused q) (req_length req)) new.
Proof.
  intros Hl Hfu Hrq. destruct (process_effect zcopy req q Hl Hfu Hrq) as (st & q' & Hr & [Hi _ _]).
  by exists st, q'.
Qed.

(** The dispatch of a request neither loses a first command of a fused pair nor
    completes it twice: each one accepted is waiting, paired with the second
    command under execution, or in the list of completed ones; and a second command
    is paired only with the waiting first command, and only when it is a write. *)
Lemma fused_commands_conserved zcopy req q :
  0 <= cmd_lba (nvme_command req) < 2 ^ 64 -> 0 <= cmd_fuse (nvme_command req) < 4 ->
  rq_first_fused q = None ->
  exists st q', nvmf_ctrlr_process_io_cmd E zcopy req q = Ok (st, q')
    /\ fused_count q' = (fused_count q
      + match st with
        | ASYNCHRONOUS =>
            if (cmd_fuse (nvme_command req) =? SPDK_NVME_CMD_FUSE_FIRST)%Z then 1 else 0
        | COMPLETE => 0
        end)%nat
    /\ forall f, rq_first_fused q' = Some f -> st = ASYNCHRONOUS /\ qp_first_fused q = Some f
         /\ cmd_fuse (nvme_command req) = SPDK_NVME_CMD_FUSE_SECOND
         /\ cmd_opc (nvme_command req) = SPDK_NVME_OPC_WRITE.
Proof.
  intros Hl Hfu Hrq. destruct (process_effect zcopy req q Hl Hfu Hrq) as (st & q' & Hr & [_ Hf Hp]).
  by exists st, q'.
Qed.

(** The opcodes the reservation check knows as writes. *)
Definition is_write_opc (o : Z) : bool :=
  (o =? SPDK_NVME_OPC_WRITE) || (o =? SPDK_NVME_OPC_WRITE_ZEROES) || (o =? SPDK_NVME_OPC_FLUSH)
  || (o =? SPDK_NVME_OPC_WRITE_UNCORRECTABLE) || (o =? SPDK_NVME_OPC_DATASET_MANAGEMENT).

(** A conflict ends the command, whatever the state of the controller. *)
Lemma conflict_silent zcopy req q :
  reservation_check_status (io_ns_info E) (io_ctrlr E) (resv_req req)
    = SPDK_NVME_SC_RESERVATION_CONFLICT ->
  exists q', nvmf_ctrlr_process_io_cmd E zcopy req q = Ok (COMPLETE, q')
    /\ b_ops (q_bst q') = b_ops (q_bst q) /\ resv_sent q' = resv_sent q
    /\ (cc_en E = true -> ns_has_bdev E = true -> io_ana_state E = SPDK_NVME_ANA_OPTIMIZED_STATE ->
        rsp_sct (b_rsp (q_bst q')) = SPDK_NVME_SCT_GENERIC
        /\ rsp_sc (b_rsp (q_bst q')) = SPDK_NVME_SC_RESERVATION_CONFLICT).
Proof.
  intros Hc. unfold nvmf_ctrlr_process_io_cmd. erewrite M_bind_ok by reflexivity.
  destruct (cc_en E); cbn [negb]; [|by eexists]. destruct (ns_has_bdev E); cbn [negb]; [|by eexists].
  destruct (_ && _) eqn:Ea.
  { eexists. split; [reflexivity|]. split_and!; [done|done|]. intros _ _ Hana. by rewrite Hana in Ea. }
  erewrite M_bind_ok by reflexivity. unfold nvmf_ns_reservation_request_check. rewrite Hc, Z.eqb_refl.
  change (negb (- EPERM =? 0)) with true. cbn iota. eexists. split; [reflexivity|]. done.
Qed.

Lemma exclusive_conflicts req :
  p_holder_id (io_ns_info E) <> c_hostid (io_ctrlr E) ->
  let o := cmd_opc (nvme_command req) in
  let t := p_rtype (io_ns_info E) in
  ((t = SPDK_NVME_RESERVE_WRITE_EXCLUSIVE \/ t = SPDK_NVME_RESERVE_EXCLUSIVE_ACCESS)
     /\ is_write_opc o = true)
  \/ (t = SPDK_NVME_RESERVE_EXCLUSIVE_ACCESS
       /\ (o = SPDK_NVME_OPC_READ \/ o = SPDK_NVME_OPC_COMPARE)) ->
  reservation_check_status (io_ns_info E) (io_ctrlr E) (resv_req req)
    = SPDK_NVME_SC_RESERVATION_CONFLICT.
Proof.
  intros Hh o t Ht. unfold reservation_check_status. cbn [resv_req opc]. fold o t.
  rewrite (proj2 (Z.eqb_neq (p_holder_id _) _) Hh).
  assert (Hw : is_write_opc o = true -> o = 1 \/ o = 8 \/ o = 0 \/ o = 4 \/ o = 9).
  { unfold is_write_opc. rewrite !orb_true_iff, !Z.eqb_eq. cbv. tauto. }
  clearbody o t. destruct Ht as [[[-> | ->] Hwo]|[-> [-> | ->]]]; [| |reflexivity..].
  all: destruct (Hw Hwo) as [-> |[-> |[-> |[-> | ->]]]]; reflexivity.
Qed.

(** What a host that is not the holder may still submit under an exclusive
    reservation of type [t]: copies and passthrough commands, and reads and
    compares under write exclusive. *)
Definition foreign_op (t : Z) (op : bdev_op) : Prop :=
  match op with
  | bdev_copy_blocks _ _ _ | bdev_nvme_iov_passthru _ _ => True
  | bdev_readv_blocks _ _ | bdev_comparev_blocks _ _ | bdev_zcopy_start _ _ true =>
      t = SPDK_NVME_RESERVE_WRITE_EXCLUSIVE
  | _ => False
  end.

(** A fused command that is not a write submits nothing. *)
Lemma fused_silent P req q :
  cmd_opc (nvme_command req) <> SPDK_NVME_OPC_WRITE ->
  wp (nvmf_ctrlr_process_io_fused_cmd E req) (fun _ q' => adds P (q_bst q) (q_bst q')) q.
Proof.
  intros Ho. unfold nvmf_ctrlr_process_io_fused_cmd. wstep. wstep.
  assert (Hend : forall sct sc q, wp (lift_b (complete_with sct sc)) (fun _ q' => adds P (q_bst q) (q_bst q')) q)
    by (intros; apply wp_lift_b, wp_complete_with; by apply adds_refl).
  rewrite (proj2 (Z.eqb_neq _ _) Ho). cbn [negb]. unfold abort_first, complete_first, set_qp_first.
  destruct (_ =? _).
  - destruct (qp_first_fused q); [repeat wstep; by apply adds_refl|].
    destruct (negb _); [apply Hend|]. repeat wstep. by apply adds_refl.
  - destruct (_ =? _); [|apply Hend]. destruct (qp_first_fused q); [|apply Hend].
    wstep. wstep. wstep. apply wp_lift_b, wp_complete_with. repeat wstep. by apply adds_refl.
Qed.

Lemma foreign_dispatch t req q :
  let o := cmd_opc (nvme_command req) in
  0 <= cmd_lba (nvme_command req) < 2 ^ 64 -> is_write_opc o = false ->
  (o = SPDK_NVME_OPC_READ \/ o = SPDK_NVME_OPC_COMPARE -> t = SPDK_NVME_RESERVE_WRITE_EXCLUSIVE) ->
  wp (dispatch_opc E req) (fun _ q' => adds (foreign_op t) (q_bst q) (q_bst q')) q.
Proof.
  intros o Hl Hw Ht. pose proof (fun k => check_range_handled B H_B (foreign_op t) (req_length req)
    (nvme_command req) k (q_bst q) Hl) as Hc. unfold is_write_opc in Hw. rewrite !orb_false_iff in Hw.
  destruct Hw as [[[[Hw1 Hw2] Hw3] _] Hw4]. unfold dispatch_opc. fold B o. rewrite Hw1, Hw2, Hw3, Hw4.
  unfold nvmf_bdev_ctrlr_read_cmd, nvmf_bdev_ctrlr_compare_cmd.
  destruct (nvmf_bdev_ctrlr_get_rw_params (nvme_command req)) as [lba n].
  assert (Hh : forall m, wp m (handled (foreign_op t) (q_bst q)) (q_bst q) ->
    wp (lift_b m) (fun _ q' => adds (foreign_op t) (q_bst q) (q_bst q')) q).
  { intros m Hm. apply wp_lift_b. eapply wp_mono; [exact Hm|]. by intros st s' [Ha _]. }
  destruct (Z.eqb_spec o SPDK_NVME_OPC_READ) as [Er|_];
    [apply Hh, Hc; intros; apply submit_or_queue_handled; [by apply Ht; left|intros; by apply queue_one]|].
  destruct (Z.eqb_spec o SPDK_NVME_OPC_COMPARE) as [Er|_];
    [apply Hh, Hc; intros; apply submit_or_queue_handled; [by apply Ht; right|intros; by apply queue_one]|].
  destruct (_ || _); [do 3 wstep; by apply adds_refl|].
  destruct (_ =? SPDK_NVME_OPC_COPY); apply wp_lift_b; [by apply copy_adds|by apply passthru_adds].
Qed.

Lemma foreign_process t zcopy req q :
  let o := cmd_opc (nvme_command req) in
  0 <= cmd_lba (nvme_command req) < 2 ^ 64 -> is_write_opc o = false ->
  (o = SPDK_NVME_OPC_READ \/ o = SPDK_NVME_OPC_COMPARE -> t = SPDK_NVME_RESERVE_WRITE_EXCLUSIVE) ->
  (zcopy = true -> o = SPDK_NVME_OPC_READ \/ o = SPDK_NVME_OPC_WRITE) ->
  wp (nvmf_ctrlr_process_io_cmd E zcopy req) (fun _ q' => adds (foreign_op t) (q_bst q) (q_bst q')) q.
Proof.
  intros o Hl Hw Hrd Hz. unfold nvmf_ctrlr_process_io_cmd. wstep. apply wp_lift_b. unfold set_sc at 1. wstep.
  assert (Hend : forall sct sc q1, b_ops (q_bst q1) = b_ops (q_bst q) ->
    wp (lift_b (complete_with sct sc)) (fun _ q' => adds (foreign_op t) (q_bst q) (q_bst q')) q1)
    by (intros; apply wp_lift_b, wp_complete_with; by apply adds_refl).
  destruct (cc_en E); cbn [negb]; [|by apply Hend].
  destruct (ns_has_bdev E); cbn [negb].
  2: { wstep. apply wp_lift_b. unfold set_sc, set_dnr. repeat wstep. by apply adds_refl. }
  destruct (_ && _); [by apply Hend|].
  wstep. apply wp_lift_b. unfold set_sct, set_sc. repeat wstep.
  destruct (negb _); [wstep; by apply adds_refl|].
  assert (Hnw : o <> SPDK_NVME_OPC_WRITE) by (intros E1; by rewrite E1 in Hw).
  destruct (negb _).
  { eapply wp_mono; [by apply (fused_silent (foreign_op t) req)|]. intros st q' Ha.
    eapply adds_trans; [by apply adds_refl|exact Ha]. }
  wstep. wstep. apply wp_bind. eapply (wp_mono _ (fun _ q' => b_ops (q_bst q') = b_ops (q_bst q))).
  { destruct (qp_first_fused _); [|by wstep].
    unfold abort_first, complete_first, set_qp_first. by repeat wstep. }
  intros _ q1 Ho. assert (Hq1 : forall q', adds (foreign_op t) (q_bst q1) (q_bst q') ->
    adds (foreign_op t) (q_bst q) (q_bst q')) by (intros q'; apply adds_trans; by apply adds_refl).
  destruct zcopy; [|eapply wp_mono; [by apply foreign_dispatch|intros; by apply Hq1]].
  destruct (Hz eq_refl) as [Er|]; [|done]. apply wp_lift_b. unfold nvmf_bdev_ctrlr_zcopy_start.
  pose proof (fun k => check_range_handled B H_B (foreign_op t) (req_length req)
    (nvme_command req) k (q_bst q1) Hl) as Hc.
  destruct (nvmf_bdev_ctrlr_get_rw_params (nvme_command req)) as [lba n].
  eapply wp_mono; [apply Hc; intros; apply submit_or_queue_handled; [|intros; by apply queue_one]|].
  - fold o. rewrite Er. by apply Hrd; left.
  - intros st s' [Ha _]. by apply Hq1.
Qed.

(** C34: while another host holds the namespace under an exclusive reservation
    (write exclusive or exclusive access, by the poll group's copy), nothing this
    host sends makes the block device write, compare-and-write, write zeroes,
    unmap or flush: whatever the opcode, the device sees copies and passthrough
    commands only (the check does not know Copy), and reads and compares under
    write exclusive.  A flush, write, write zeroes, write uncorrectable or dataset
    management, and under exclusive access a read or compare, is completed with
    Reservation Conflict by an enabled controller on an optimised path.  The
    first block has 64 bits, zero copy is used for reads and writes only, and a
    wait for memory can be registered. *)
Theorem exclusive_reservation_enforced zcopy req q :
  0 <= cmd_lba (nvme_command req) < 2 ^ 64 ->
  p_holder_id (io_ns_info E) <> c_hostid (io_ctrlr E) ->
  let o := cmd_opc (nvme_command req) in
  let t := p_rtype (io_ns_info E) in
  t = SPDK_NVME_RESERVE_WRITE_EXCLUSIVE \/ t = SPDK_NVME_RESERVE_EXCLUSIVE_ACCESS ->
  (zcopy = true -> o = SPDK_NVME_OPC_READ \/ o = SPDK_NVME_OPC_WRITE) ->
  exists st q', nvmf_ctrlr_process_io_cmd E zcopy req q = Ok (st, q')
    /\ (exists new, b_ops (q_bst q') = b_ops (q_bst q) ++ new /\ Forall (foreign_op t) new)
    /\ (is_write_opc o = true
        \/ t = SPDK_NVME_RESERVE_EXCLUSIVE_ACCESS
           /\ (o = SPDK_NVME_OPC_READ \/ o = SPDK_NVME_OPC_COMPARE) ->
        st = COMPLETE /\ b_ops (q_bst q') = b_ops (q_bst q) /\ resv_sent q' = resv_sent q
        /\ (cc_en E = true -> ns_has_bdev E = true -> io_ana_state E = SPDK_NVME_ANA_OPTIMIZED_STATE ->
            rsp_sct (b_rsp (q_bst q')) = SPDK_NVME_SCT_GENERIC
            /\ rsp_sc (b_rsp (q_bst q')) = SPDK_NVME_SC_RESERVATION_CONFLICT)).
Proof.
  intros Hl Hh o t Ht Hz.
  destruct (decide (is_write_opc o = true \/ t = SPDK_NVME_RESERVE_EXCLUSIVE_ACCESS
      /\ (o = SPDK_NVME_OPC_READ \/ o = SPDK_NVME_OPC_COMPARE))) as [Hc|Hc].
  - destruct (conflict_silent zcopy req q) as (q' & Hr & Ho & Hs & Hrsp).
    { apply exclusive_conflicts; [done|]. fold o t. tauto. }
    exists COMPLETE, q'. split_and!; [done|by apply adds_refl|done].
  - assert (Hw : is_write_opc o = false) by (destruct (is_write_opc o); tauto).
    assert (Hrd : o = SPDK_NVME_OPC_READ \/ o = SPDK_NVME_OPC_COMPARE ->
      t = SPDK_NVME_RESERVE_WRITE_EXCLUSIVE) by tauto.
    destruct (foreign_process t zcopy req q Hl Hw Hrd Hz) as (st & q' & Hr & Ha).
    exists st, q'. by split_and!.
Qed.
End Dispatch.

(** ** From the host's split to the block device *)

(** A leaf request of [NsCmd] as the target receives it. *)
Definition target_req (r : request) : nvmf_request :=
  NvmfReq (r_cmd (req_f r)) (r_payload_size (req_f r)) [].

(** The submissions are reads (writes) of consecutive ranges that make up [n]
    blocks from [lba]. *)
Fixpoint covers (o : Z) (ops : list bdev_op) (lba n : Z) : Prop :=
  match ops with
  | [] => n = 0
  | op :: ops' => exists k, 0 < k
      /\ match op with
         | bdev_readv_blocks l m => o = SPDK_NVME_OPC_READ /\ l = lba /\ m = k
         | bdev_writev_blocks l m _ _ => o = SPDK_NVME_OPC_WRITE /\ l = lba /\ m = k
         | _ => False
         end
      /\ covers o ops' (lba + k) (n - k)
  end.

Lemma rw_params_leaf ns a lba n :
  0 < n <= 2 ^ 16 -> nvmf_bdev_ctrlr_get_rw_params (leaf_cmd ns a lba n) = (lba, n).
Proof.
  intros Hn. unfold nvmf_bdev_ctrlr_get_rw_params, leaf_cmd. cbn [cmd_lba cmd_cdw12]. f_equal.
  rewrite wrap_small by lia. rewrite Z.land_lor_distr_l, <- Z.land_assoc.
  change (Z.land SPDK_NVME_IO_FLAGS_CDW12_MASK 0xFFFF) with 0.
  rewrite Z.land_0_r, Z.lor_0_r. change 0xFFFF with (Z.ones 16). rewrite Z.land_ones by lia.
  rewrite Z.mod_small by lia. lia.
Qed.

(** The leaves, executed in order. *)
Fixpoint serve (E : ioenv) (l : list request) : M ioq unit :=
  match l with
  | [] => mret tt
  | r :: l' => _ ← nvmf_ctrlr_process_io_cmd E false (target_req r); serve E l'
  end.

Section EndToEnd.
Context (E : ioenv) (ns : nvme_ns) (a : rw_args).
Let B := io_bdev E.
Let ss := _nvme_get_host_buffer_sector_size ns (a_flags a).

(** The target is ready for I/O and the device accepts every submission. *)
Record ready : Prop := {
  rd_B : benv_ok B;
  rd_en : cc_en E = true;
  rd_ns : ns_has_bdev E = true;
  rd_ana : io_ana_state E = SPDK_NVME_ANA_OPTIMIZED_STATE;
  rd_resv : p_rtype (io_ns_info E) = 0;
  rd_rc : forall k op, bdev_rc B k op = 0 }.

(** The host and the target agree on the geometry, and the command is a read
    or a write that is not fused. *)
Record agrees : Prop := {
  ag_size : bdev_block_size B = ss;
  ag_max : _nvme_get_sectors_per_max_io ns (a_flags a) <= 2 ^ 16;
  ag_opc : a_opc a = SPDK_NVME_OPC_READ \/ a_opc a = SPDK_NVME_OPC_WRITE;
  ag_fuse : Z.land (a_flags a) SPDK_NVME_IO_FLAGS_FUSE_MASK = 0 }.

Hypothesis H_ready : ready.
Hypothesis H_agrees : agrees.

Lemma checked_submit len lba n op queue s :
  0 <= lba -> 0 < n <= 2 ^ 16 -> lba + n <= bdev_num_blocks B -> n * ss <= len ->
  exists s', check_range B len lba n (submit_or_queue B op queue) s = Ok (ASYNCHRONOUS, s')
    /\ b_ops s' = b_ops s ++ [op].
Proof.
  intros Hl Hn Hle Hlen. destruct H_ready as [[Hb Hs _] _ _ _ _ Hrc]. unfold check_range.
  rewrite (proj2 (lba_in_range_spec (bdev_num_blocks B) lba n Hb ltac:(lia) ltac:(lia)) Hle).
  cbn [negb]. assert (0 <= n * bdev_block_size B < 2 ^ 64) by nia.
  rewrite wrap_small, (ag_size H_agrees) by lia. rewrite (proj2 (Z.ltb_ge _ _) Hlen).
  assert (Hsub : wp (submit_or_queue B op queue)
    (fun st s' => st = ASYNCHRONOUS /\ b_ops s' = b_ops s ++ [op]) s).
  { unfold submit_or_queue. wstep. apply wp_bdev_submit. intros s1 _ _ _ _ _ Ho. rewrite Hrc in *.
    cbn [Z.eqb negb]. by wstep. }
  destruct Hsub as (st & s' & Hr & -> & Ho). by exists s'.
Qed.

(** A command that is not fused reaches its handler. *)
Lemma process_plain req q :
  Z.land (cmd_fuse (nvme_command req)) SPDK_NVME_CMD_FUSE_MASK = 0 -> qp_first_fused q = None ->
  exists q1, nvmf_ctrlr_process_io_cmd E false req q = dispatch_opc E req q1
    /\ qp_first_fused q1 = None /\ b_ops (q_bst q1) = b_ops (q_bst q).
Proof.
  intros Hf Hq. destruct H_ready as [HB He Hns Ha Hr Hrc]. unfold nvmf_ctrlr_process_io_cmd.
  erewrite M_bind_ok by reflexivity. rewrite He, Hns, Ha, Z.eqb_refl, Hf. cbn [negb andb].
  erewrite M_bind_ok by reflexivity.
  assert (Hck : nvmf_ns_reservation_request_check (io_ns_info E) (io_ctrlr E) (resv_req req) = 0)
    by (unfold nvmf_ns_reservation_request_check, reservation_check_status; by rewrite Hr).
  rewrite Hck. cbn [Z.eqb negb]. erewrite M_bind_ok by reflexivity. cbn [qp_first_fused].
  rewrite Hq. erewrite M_bind_ok by reflexivity. eexists. by split_and!.
Qed.

Lemma leaf_served q r po mo lba n :
  qp_first_fused q = None -> leaf_ok ns a r po mo lba n -> 0 <= lba -> 0 < n <= 2 ^ 16 ->
  lba + n <= bdev_num_blocks B ->
  exists q' op, nvmf_ctrlr_process_io_cmd E false (target_req r) q = Ok (ASYNCHRONOUS, q')
    /\ qp_first_fused q' = None /\ b_ops (q_bst q') = b_ops (q_bst q) ++ [op]
    /\ covers (a_opc a) [op] lba n.
Proof.
  intros Hq [_ _ _ Hsz _ Hcmd] Hl Hn Hle.
  destruct (process_plain (target_req r) q) as (q1 & -> & Hq1 & Ho1); [|done|].
  { cbn [target_req nvme_command]. rewrite Hcmd. cbn [leaf_cmd cmd_fuse].
    by rewrite (ag_fuse H_agrees). }
  unfold dispatch_opc. cbn [target_req nvme_command]. rewrite Hcmd. cbn [leaf_cmd cmd_opc].
  assert (Hone : forall op queue, (covers (a_opc a) [op] lba n) ->
    exists q', lift_b (check_range B (r_payload_size (req_f r)) lba n (submit_or_queue B op queue)) q1
      = Ok (ASYNCHRONOUS, q') /\ qp_first_fused q' = None
      /\ b_ops (q_bst q') = b_ops (q_bst q) ++ [op] /\ covers (a_opc a) [op] lba n).
  { intros op queue Hc. destruct (checked_submit (r_payload_size (req_f r)) lba n op queue (q_bst q1))
      as (s' & Hrun & Ho); [done|done|done|by rewrite Hsz|].
    unfold lift_b. rewrite Hrun. eexists. split; [reflexivity|]. rewrite <- Ho1. by split_and!. }
  destruct (ag_opc H_agrees) as [Eo|Eo]; rewrite Eo.
  - unfold nvmf_bdev_ctrlr_read_cmd. cbn [target_req nvme_command req_length].
    rewrite Hcmd, rw_params_leaf by done. cbn [Z.eqb].
    rewrite Z.eqb_refl. rewrite Eo in Hone.
    destruct (Hone (bdev_readv_blocks lba n) (nvmf_bdev_ctrl_queue_io B WaitIoCmd))
      as (q' & Hrun & Hrest).
    + exists n. cbn. split_and!; [lia|done..|lia].
    + by exists q', (bdev_readv_blocks lba n).
  - unfold nvmf_bdev_ctrlr_write_cmd. cbn [target_req nvme_command req_length].
    rewrite Hcmd, rw_params_leaf by done. cbn [Z.eqb].
    change (SPDK_NVME_OPC_WRITE =? SPDK_NVME_OPC_READ) with false. rewrite Z.eqb_refl.
    rewrite Eo in Hone. cbn [nvmf_bdev_ctrlr_get_rw_ext_params].
    destruct (Hone (bdev_writev_blocks lba n (cmd_cdw12 (leaf_cmd ns a lba n))
      (cmd_cdw13 (leaf_cmd ns a lba n))) (nvmf_bdev_ctrl_queue_io B WaitIoCmd))
      as (q' & Hrun & Hrest).
    + exists n. cbn. split_and!; [lia|done..|lia].
    + by eexists q', _.
Qed.

(** C5: the requests a host builds for a contiguous read or write, executed by the
    target, become block device submissions of exactly the blocks of the command,
    in order, without gap or overlap: the host's encoding, its splitting and the
    target's decoding and checks agree.  The target's controller is enabled on an
    optimised path, no reservation is held, the command is not fused and lies on
    the device, no first command of a fused pair waits, the device accepts every
    submission, and host and target agree on the size of a block, with transfers
    of at most 2^16 blocks. *)
Theorem split_io_reaches_device l po mo lba n q :
  tile ns a l po mo lba n -> 0 <= lba -> lba + n <= bdev_num_blocks B ->
  qp_first_fused q = None ->
  exists q' ops, serve E l q = Ok (tt, q') /\ b_ops (q_bst q') = b_ops (q_bst q) ++ ops
    /\ covers (a_opc a) ops lba n.
Proof.
  revert po mo lba n q. induction l as [|r l IH]; intros po mo lba n q Ht Hl Hle Hq.
  { exists q, []. cbn in *. by rewrite app_nil_r. }
  destruct Ht as (k & Hk & _ & Hlf & Ht). pose proof (ag_max H_agrees).
  assert (Hkn : k <= n).
  { pose proof (tile_nonneg ns a _ _ _ _ _ Ht). lia. }
  destruct (leaf_served q r po mo lba k Hq Hlf Hl ltac:(lia) ltac:(lia)) as (q1 & op & Hr & Hq1 & Ho1 & Hc1).
  destruct (IH _ _ _ _ q1 Ht ltac:(lia) ltac:(lia) Hq1) as (q2 & ops & Hs & Ho2 & Hc2).
  exists q2, (op :: ops). cbn [serve]. erewrite M_bind_ok by exact Hr. split; [exact Hs|].
  split; [by rewrite Ho2, Ho1, <- app_assoc|].
  destruct Hc1 as (k' & Hk' & Hop & Hrest). cbn in Hrest. assert (k' = k) as -> by lia.
  by exists k.
Qed.
End EndToEnd.

(** ** Deallocate *)

(** The status of the command after the completions [l]: the first error, or
    the last status. *)
Definition merge_status (r : nvmf_rsp) (c : Z * Z * Z) : nvmf_rsp :=
  let '(cdw0, sct, sc) := c in
  if rsp_is_error r then r else Rsp cdw0 sct sc (rsp_dnr r).

Section Dsm.
Context (B : benv) (req : nvmf_request).
Hypothesis H_B : benv_ok B.
Hypothesis H_max : max_discard_size_kib B = 0.
Hypothesis H_len : (cdw10_dsm_nr (nvme_command req) + 1) * 16 <= req_length req.
Let nr : nat := Z.to_nat (cdw10_dsm_nr (nvme_command req) + 1).

(** C29: on a target without a limit on the size of a discard, for every behaviour
    of the block device (success, error or no memory for each unmap) and every
    interleaving of completions and retries, a deallocate command runs without
    undefined behaviour and completes at most once, and when it has completed
    nothing is in flight or queued and its context is freed. *)
Theorem deallocate_completes_at_most_once es s :
  b_unmap s = None -> b_wait s = [] -> b_completed s = 0 ->
  exists s' out, (w ← unmap_start B req s; unmap_run B req es w) = Ok (s', out)
    /\ 0 <= b_completed s' <= 1
    /\ (b_completed s' = 1 -> out = O /\ b_unmap s' = None /\ b_wait s' = []).
Proof.
  intros Hu Hw Hd. destruct (unmap_start_inv B H_B req H_len s H_max Hu Hw Hd) as (w & -> & Hinv).
  destruct (unmap_run_inv B H_B req H_len es w H_max Hinv) as ([s' out] & Hr & Hi).
  exists s', out. cbn [mbind res_bind]. split; [exact Hr|].
  destruct Hi as [(waits & u & Hlive & _)|(-> & Hn & Hw' & Hc)]; [|done].
  rewrite (lv_completed _ _ _ _ _ Hlive). lia.
Qed.

Lemma unmap_loop_exact todo ranges u s :
  (forall k op, bdev_rc B k op = 0) -> b_unmap s = Some u -> 0 <= u_count u -> 0 <= range_index u ->
  u_count u + Z.of_nat todo < 2 ^ 32 -> range_index u + Z.of_nat todo < 2 ^ 32 ->
  wp (unmap_loop B todo ranges) (fun st s' => st = None /\ b_rsp s' = b_rsp s
    /\ b_ops s' = b_ops s ++ range_ops todo ranges /\ b_wait s' = b_wait s
    /\ b_completed s' = b_completed s
    /\ b_unmap s' = Some (UnmapCtx (u_count u + Z.of_nat todo) (range_index u + Z.of_nat todo))) s.
Proof.
  intros Hrc. revert ranges u s. induction todo as [|todo IH]; intros ranges u s Hu Hc Hi Hcm Him.
  { cbn [unmap_loop]. wstep. cbn. rewrite app_nil_r, !Z.add_0_r. by destruct u. }
  cbn [unmap_loop range_ops]. destruct (default (0, 0) (hd_error ranges)) as [lba n].
  wstep. rewrite H_max. cbn [Z.ltb Z.compare]. wstep. wstep. eapply wp_load_ctx; [done|]. wstep.
  eapply wp_set_count; [done|lia|]. wstep. apply wp_bdev_submit. intros s2 Hr2 Hu2 Hw2 Hd2 _ Ho2.
  rewrite Hrc in *. cbn [Z.eqb negb]. wstep. eapply wp_load_ctx; [by rewrite Hu2|].
  cbn [range_index u_count]. wstep. wstep. rewrite wrap_small by lia. eapply wp_mono.
  { eapply (IH (tl ranges) (UnmapCtx (u_count u + 1) (range_index u + 1))); cbn; [done|lia..]. }
  intros st s3 (-> & Hr & Ho & Hw & Hd & Hu3). cbn [b_rsp b_ops b_wait b_completed set_unmap] in *.
  split_and!; [done|by rewrite Hr, Hr2|by rewrite Ho, Ho2, <- app_assoc|by rewrite Hw, Hw2
    |by rewrite Hd, Hd2|]. rewrite Hu3. cbn [u_count range_index]. do 2 f_equal; lia.
Qed.

Lemma unmap_cpls_run l s u :
  live req (length l) 0 s u -> (0 < length l)%nat ->
  exists s', unmap_run B req (map (fun '(c, t, e) => EvCpl c t e) l) (s, length l) = Ok (s', O)
    /\ b_completed s' = 1 /\ b_unmap s' = None /\ b_ops s' = b_ops s
    /\ b_rsp s' = fold_left merge_status l (b_rsp s).
Proof.
  revert s u. induction l as [|[[c t] e] l IH]; intros s u [Hu Hc Hw Hi Hd] Hl; [cbn in Hl; lia|].
  pose proof (nr_bounds req) as Hnr. cbn [length map] in *.
  assert (Hone : wp (nvmf_bdev_ctrlr_unmap_cpl c t e) (fun _ s' =>
    b_rsp s' = merge_status (b_rsp s) (c, t, e) /\ b_ops s' = b_ops s /\ b_wait s' = b_wait s /\
    match l with
    | [] => b_completed s' = 1 /\ b_unmap s' = None
    | _ => b_completed s' = 0 /\ b_unmap s' = Some (UnmapCtx (u_count u - 1) (range_index u))
    end) s).
  { unfold nvmf_bdev_ctrlr_unmap_cpl. wstep. eapply wp_load_ctx; [done|]. wstep.
    eapply wp_set_count; [done|lia|]. set (u1 := UnmapCtx (u_count u - 1) (range_index u)).
    wstep. wstep. apply wp_bind. eapply (wp_mono _ (fun _ s' => b_unmap s' = Some u1
      /\ b_wait s' = b_wait s /\ b_completed s' = b_completed s /\ b_ops s' = b_ops s
      /\ b_rsp s' = merge_status (b_rsp s) (c, t, e))).
    { cbn [b_rsp set_unmap]. unfold merge_status, rsp_is_error.
      destruct (rsp_sct (b_rsp s) =? _), (rsp_sc (b_rsp s) =? _); cbn [andb orb negb]; wstep; done. }
    intros _ s2 (Hu2 & Hw2 & Hd2 & Ho2 & Hr2). wstep. eapply wp_load_ctx; [done|].
    cbn [u_count u1]. destruct l as [|x l]; cbn [length] in *.
    - rewrite (proj2 (Z.eqb_eq (u_count u - 1) 0)) by lia. wstep.
      unfold spdk_nvmf_request_complete. wstep. eapply wp_free_ctx; [done|]. cbn.
      split_and!; try done. lia.
    - rewrite (proj2 (Z.eqb_neq (u_count u - 1) 0)) by lia. wstep. split_and!; try done. lia. }
  destruct Hone as ([] & s1 & Hr1 & Hrsp & Hops & Hwt & Hcase). cbn [unmap_run unmap_event_step].
  rewrite Hr1. cbn [mbind res_bind]. destruct l as [|x l].
  - destruct Hcase. exists s1. by split_and!.
  - destruct Hcase as [Hc1 Hu1].
    destruct (IH s1 (UnmapCtx (u_count u - 1) (range_index u))) as (s' & H1 & H2 & H3 & H4 & H5).
    + constructor; cbn [length u_count range_index] in *; [done|lia|by rewrite Hwt, Hw|lia|done].
    + cbn. lia.
    + exists s'. cbn [fold_left]. split_and!; [exact H1|done|done|by rewrite H4, Hops|].
      by rewrite H5, Hrsp.
Qed.

(** The first call of a device that accepts everything submits every range. *)
Lemma unmap_first s :
  calloc_ok B = true -> (forall k op, bdev_rc B k op = 0) -> b_wait s = [] -> b_completed s = 0 ->
  wp (nvmf_bdev_ctrlr_unmap B req false) (fun st s' => st = ASYNCHRONOUS
    /\ b_ops s' = b_ops s ++ range_ops nr (req_ranges req)
    /\ live req nr 0 s' (UnmapCtx (Z.of_nat nr) (Z.of_nat nr))
    /\ b_rsp s' = Rsp (rsp_cdw0 (b_rsp s)) SPDK_NVME_SCT_GENERIC SPDK_NVME_SC_SUCCESS
         (rsp_dnr (b_rsp s))) s.
Proof.
  intros Hca Hrc Hw Hd. pose proof (nr_bounds req) as Hnr.
  eapply wp_eq; [by apply (unmap_eq B req H_len)|]. unfold set_sct, set_sc. do 6 wstep.
  unfold unmap_rest. wstep. eapply wp_load_ctx; [done|]. cbn [range_index]. rewrite Z.sub_0_r.
  fold nr. wstep. eapply wp_mono.
  { apply (unmap_loop_exact nr (req_ranges req) (UnmapCtx 0 0)); cbn; [done|done|lia..]. }
  intros st s' (-> & Hr & Ho & Hw' & Hd' & Hu'). wstep. eapply wp_load_ctx; [done|].
  cbn [u_count range_index] in *. rewrite !Z.add_0_l in *.
  rewrite (proj2 (Z.eqb_neq (Z.of_nat nr) 0)) by lia. wstep. split_and!; [done|done| |done].
  constructor; cbn; [done|lia|by rewrite Hw', <- Hw|lia|by rewrite Hd', <- Hd].
Qed.

(** C37: when the block device accepts every unmap, the context can be allocated
    and the target sets no limit on the size of a discard, a deallocate command
    whose buffer holds its ranges submits exactly these, in order, and after their
    completions, in any order and with any statuses, it has completed once, with
    the first error among them as its status. *)
Theorem deallocate_unmaps_every_range (l : list (Z * Z * Z)) s :
  calloc_ok B = true -> (forall k op, bdev_rc B k op = 0) ->
  b_wait s = [] -> b_completed s = 0 -> length l = nr ->
  exists s1 s2, unmap_start B req s = Ok (s1, nr)
    /\ b_ops s1 = b_ops s ++ range_ops nr (req_ranges req)
    /\ unmap_run B req (map (fun '(c, t, e) => EvCpl c t e) l) (s1, nr) = Ok (s2, O)
    /\ b_completed s2 = 1 /\ b_unmap s2 = None
    /\ b_rsp s2 = fold_left merge_status l
         (Rsp (rsp_cdw0 (b_rsp s)) SPDK_NVME_SCT_GENERIC SPDK_NVME_SC_SUCCESS (rsp_dnr (b_rsp s))).
Proof.
  intros Hca Hrc Hw Hd Hl. pose proof (nr_bounds req) as Hnr.
  pose proof (unmap_first s Hca Hrc Hw Hd) as Hfirst.
  destruct Hfirst as (st & s1 & Hr & -> & Ho & Hlive & Hrsp). rewrite <- Hl in Hlive.
  destruct (unmap_cpls_run l s1 _ Hlive ltac:(lia)) as (s2 & H1 & H2 & H3 & _ & H5).
  rewrite Hl in H1. exists s1, s2. unfold unmap_start. rewrite Hr. cbn [mbind res_bind].
  rewrite Ho, length_app, range_ops_length. split.
  { do 2 f_equal. by replace (_ + nr - _)%nat with nr by lia. }
  split_and!; [done|exact H1|done|done|]. by rewrite H5, Hrsp.
Qed.
End Dsm.

(** ** Concrete runs *)

Module NvmfDemo.
Definition bdev (rc : nat -> bdev_op -> Z) (max_discard : Z) : benv :=
  Benv 1000 512 true 0 max_discard rc 0 true.
Definition accept (_ : nat) (_ : bdev_op) : Z := 0.
(** Host 7 on a namespace; [rtype] is held by host 5. *)
Definition env (rtype : Z) : ioenv :=
  IoEnv (bdev accept 0) true true SPDK_NVME_ANA_OPTIMIZED_STATE
    (PgInfo 0 rtype 5 (repeat 0 16)) (Ctrlr 1 7).
Definition s0 : bst := Bst (Rsp 0 0 0 0) [] 0 [] 0 0 None.
Definition q0 : ioq := Ioq s0 None None [] [].
Definition cmd (o lba cdw12 fuse : Z) : nvme_cmd := NvmeCmd o 1 lba fuse cdw12 0 0 0.
(** Deallocate with [n] ranges: NR in cdw10, AD in cdw11. *)
Definition dsm (n : Z) (ranges : list (Z * Z)) : nvmf_request :=
  NvmfReq (cmd SPDK_NVME_OPC_DATASET_MANAGEMENT (Z.shiftl 4 32 + (n - 1)) 0 0) 4096 ranges.
(** The state after the first execution and the given events. *)
Definition life (B : benv) (req : nvmf_request) (es : list unmap_event) : res (bst * nat) :=
  w ← unmap_start B req s0; unmap_run B req es w.

Lemma env_ok t : benv_ok (io_bdev (env t)).
Proof. constructor; cbn; lia. Qed.
End NvmfDemo.

(** The retry after -ENOMEM continues at the saved range index but reads the
    ranges from the start of the buffer again: the first range is unmapped a
    second time, and the range that had to wait never is. *)
Lemma deallocate_retry_wrong_range :
  let rc (k : nat) (_ : bdev_op) := if (k =? 1)%nat then - ENOMEM else 0 in
  (b_ops ∘ fst) <$> (match NvmfDemo.life (NvmfDemo.bdev rc 0)
      (NvmfDemo.dsm 2 [(100, 8); (200, 8)]) [EvDequeue] with Ok w => Some w | _ => None end)
  = Some [bdev_unmap_blocks 100 8; bdev_unmap_blocks 100 8].
Proof. vm_compute. reflexivity. Qed.

(** A range over the size limit ends the command while an earlier unmap is in
    flight, whose completion then completes it a second time. *)
Lemma deallocate_completes_twice :
  (b_completed ∘ fst) <$> (match NvmfDemo.life (NvmfDemo.bdev NvmfDemo.accept 4)
      (NvmfDemo.dsm 2 [(0, 8); (100, 9)]) [EvCpl 0 0 0] with Ok w => Some w | _ => None end)
  = Some 2.
Proof. vm_compute. reflexivity. Qed.

(** A retry that fails for good frees the context and reports completion to a
    caller that ignores it: the command never completes. *)
Lemma deallocate_never_completes :
  let rc (k : nat) (_ : bdev_op) := if (k =? 0)%nat then - ENOMEM else - EIO in
  (fun w => (b_completed (fst w), b_unmap (fst w), b_wait (fst w), snd w))
    <$> (match NvmfDemo.life (NvmfDemo.bdev rc 0) (NvmfDemo.dsm 1 [(100, 8)]) [EvDequeue] with
         | Ok w => Some w | _ => None end)
  = Some (0, None, [], O).
Proof. vm_compute. reflexivity. Qed.

(** The reservation check does not know the copy command: a host without a
    registration copies blocks while another host holds the namespace write
    exclusive. *)
Lemma copy_ignores_reservation :
  (b_ops ∘ q_bst ∘ snd) <$> (match nvmf_ctrlr_process_io_cmd
      (NvmfDemo.env SPDK_NVME_RESERVE_WRITE_EXCLUSIVE) false
      (NvmfReq (NvmfDemo.cmd SPDK_NVME_OPC_COPY 300 0 0) 32 [(10, 7)]) NvmfDemo.q0 with
    | Ok w => Some w | _ => None end)
  = Some [bdev_copy_blocks 300 10 8].
Proof. vm_compute. reflexivity. Qed.

(** The length of the compare buffer of a fused pair is not checked. *)
Lemma compare_length_unchecked :
  let cmp := NvmfReq (NvmfDemo.cmd SPDK_NVME_OPC_COMPARE 10 7 1) 0 [] in
  let wr := NvmfReq (NvmfDemo.cmd SPDK_NVME_OPC_WRITE 10 7 2) 4096 [] in
  (b_ops ∘ q_bst ∘ snd) <$> (match nvmf_ctrlr_process_io_cmd (NvmfDemo.env 0) false wr
      (Ioq NvmfDemo.s0 (Some (Fused cmp (Rsp 0 0 0 0))) None [] []) with
    | Ok w => Some w | _ => None end)
  = Some [bdev_comparev_and_writev_blocks 10 8 0 4096].
Proof. vm_compute. reflexivity. Qed.

(** A second first command replaces the waiting one without a check of its
    opcode. *)
Lemma first_fused_opcode_unchecked :
  let cmp := NvmfReq (NvmfDemo.cmd SPDK_NVME_OPC_COMPARE 10 7 1) 4096 [] in
  let rd := NvmfReq (NvmfDemo.cmd SPDK_NVME_OPC_READ 10 7 1) 4096 [] in
  (fun w => (fst w, f_req <$> qp_first_fused (snd w)))
    <$> (match nvmf_ctrlr_process_io_cmd (NvmfDemo.env 0) false rd
      (Ioq NvmfDemo.s0 (Some (Fused cmp (Rsp 0 0 0 0))) None [] []) with
    | Ok w => Some w | _ => None end)
  = Some (ASYNCHRONOUS, Some rd).
Proof. vm_compute. reflexivity. Qed.

(** ** Witnesses *)

(** [io_cmds_in_bounds] on a read that ends at the last block. *)
Lemma io_cmds_in_bounds_witness :
  let E := NvmfDemo.env 0 in
  let req := NvmfReq (NvmfDemo.cmd SPDK_NVME_OPC_READ 992 7 0) 4096 [] in
  exists st q', nvmf_ctrlr_process_io_cmd E false req NvmfDemo.q0 = Ok (st, q')
    /\ exists new, b_ops (q_bst q') = b_ops (q_bst NvmfDemo.q0) ++ new
         /\ Forall (op_in_bounds (io_bdev E) None (req_length req)) new.
Proof.
  apply io_cmds_in_bounds.
  - apply NvmfDemo.env_ok.
  - cbn. lia.
  - cbn. lia.
  - reflexivity.
Defined.

(** [fused_commands_conserved] on the second command of a pair. *)
Lemma fused_commands_conserved_demo :
  let cmp := NvmfReq (NvmfDemo.cmd SPDK_NVME_OPC_COMPARE 10 7 1) 4096 [] in
  let wr := NvmfReq (NvmfDemo.cmd SPDK_NVME_OPC_WRITE 10 7 2) 4096 [] in
  let q := Ioq NvmfDemo.s0 (Some (Fused cmp (Rsp 0 0 0 0))) None [] [] in
  exists st q', nvmf_ctrlr_process_io_cmd (NvmfDemo.env 0) false wr q = Ok (st, q')
    /\ fused_count q' = (fused_count q
      + match st with
        | ASYNCHRONOUS =>
            if (cmd_fuse (nvme_command wr) =? SPDK_NVME_CMD_FUSE_FIRST)%Z then 1 else 0
        | COMPLETE => 0
        end)%nat
    /\ forall f, rq_first_fused q' = Some f -> st = ASYNCHRONOUS /\ qp_first_fused q = Some f
         /\ cmd_fuse (nvme_command wr) = SPDK_NVME_CMD_FUSE_SECOND
         /\ cmd_opc (nvme_command wr) = SPDK_NVME_OPC_WRITE.
Proof.
  apply fused_commands_conserved.
  - apply NvmfDemo.env_ok.
  - cbn. lia.
  - cbn. lia.
  - reflexivity.
Defined.

(** [exclusive_reservation_enforced] on a write of host 7 against host 5. *)
Lemma exclusive_reservation_enforced_witness :
  let E := NvmfDemo.env SPDK_NVME_RESERVE_WRITE_EXCLUSIVE in
  let req := NvmfReq (NvmfDemo.cmd SPDK_NVME_OPC_WRITE 10 7 0) 4096 [] in
  exists st q', nvmf_ctrlr_process_io_cmd E false req NvmfDemo.q0 = Ok (st, q')
    /\ st = COMPLETE /\ b_ops (q_bst q') = b_ops (q_bst NvmfDemo.q0)
    /\ rsp_sc (b_rsp (q_bst q')) = SPDK_NVME_SC_RESERVATION_CONFLICT.
Proof.
  destruct (exclusive_reservation_enforced (NvmfDemo.env SPDK_NVME_RESERVE_WRITE_EXCLUSIVE)
    (NvmfDemo.env_ok _) false (NvmfReq (NvmfDemo.cmd SPDK_NVME_OPC_WRITE 10 7 0) 4096 []) NvmfDemo.q0)
    as (st & q' & Hr & _ & Hc).
  - cbn. lia.
  - discriminate.
  - left. reflexivity.
  - discriminate.
  - destruct Hc as (? & ? & _ & Hc); [left; reflexivity|]. exists st, q'. split_and!; try done. by apply Hc.
Defined.

(** [deallocate_completes_at_most_once] with a device that is out of memory at
    the second unmap. *)
Lemma deallocate_at_most_once_witness :
  let rc (k : nat) (_ : bdev_op) := if (k =? 1)%nat then - ENOMEM else 0 in
  let B := NvmfDemo.bdev rc 0 in
  let req := NvmfDemo.dsm 2 [(100, 8); (200, 8)] in
  exists s' out, (w ← unmap_start B req NvmfDemo.s0;
      unmap_run B req [EvCpl 0 0 0; EvDequeue; EvCpl 0 2 0x81] w) = Ok (s', out)
    /\ 0 <= b_completed s' <= 1
    /\ (b_completed s' = 1 -> out = O /\ b_unmap s' = None /\ b_wait s' = []).
Proof.
  intros rc B req. apply (deallocate_completes_at_most_once B req).
  - constructor; cbn; lia.
  - reflexivity.
  - vm_compute. discriminate.
  - reflexivity.
  - reflexivity.
  - reflexivity.
Defined.

(** [deallocate_unmaps_every_range] with two ranges, the first of which fails. *)
Lemma deallocate_every_range_witness :
  let B := NvmfDemo.bdev NvmfDemo.accept 0 in
  let req := NvmfDemo.dsm 2 [(100, 8); (200, 8)] in
  let l := [(0, 2, 0x81); (0, 0, 0)] in
  exists s1 s2, unmap_start B req NvmfDemo.s0 = Ok (s1, 2%nat)
    /\ b_ops s1 = b_ops NvmfDemo.s0 ++ range_ops 2 (req_ranges req)
    /\ unmap_run B req (map (fun '(c, t, e) => EvCpl c t e) l) (s1, 2%nat) = Ok (s2, O)
    /\ b_completed s2 = 1 /\ b_unmap s2 = None
    /\ b_rsp s2 = fold_left merge_status l (Rsp 0 SPDK_NVME_SCT_GENERIC SPDK_NVME_SC_SUCCESS 0).
Proof.
  intros B req l. apply (deallocate_unmaps_every_range B req).
  - reflexivity.
  - vm_compute. discriminate.
  - reflexivity.
  - reflexivity.
  - reflexivity.
  - reflexivity.
  - reflexivity.
Defined.

(** [split_io_reaches_device]: a read of 3 blocks, 2 per transfer. *)
Lemma split_io_reaches_device_witness :
  let E := NvmfDemo.env 0 in
  let ns := NvmeNs 1 512 512 0 0 0 2 2 0 false in
  let a := RwArgs SPDK_NVME_OPC_READ 0 0 0 0 (PayloadContig 0x1000 None) in
  let leaf i po lba n := Request i (Fields CbChild (a_payload a) po 0 (n * 512) 0 None
    (leaf_cmd ns a lba n) 0) [] in
  exists q' ops, serve E [leaf 1%nat 0 10 2; leaf 2%nat 1024 12 1] NvmfDemo.q0 = Ok (tt, q')
    /\ b_ops (q_bst q') = b_ops (q_bst NvmfDemo.q0) ++ ops /\ covers (a_opc a) ops 10 3.
Proof.
  intros E ns a leaf. apply (split_io_reaches_device E ns a) with (po := 0) (mo := 0).
  - constructor; try reflexivity. apply NvmfDemo.env_ok.
  - constructor; [reflexivity|discriminate|left; reflexivity|reflexivity].
  - exists 2. split; [vm_compute; done|]. split; [reflexivity|]. split; [constructor; reflexivity|].
    exists 1. split; [vm_compute; done|]. split; [reflexivity|]. split; [constructor; reflexivity|].
    reflexivity.
  - lia.
  - cbn. lia.
  - reflexivity.
Defined.
