(* ===== verification/Subsys.v ===== *)
(** * States of a subsystem and of its poll groups (lib/nvmf)

    A subsystem is started, stopped, paused and resumed by changes that are
    queued and carried out one at a time: an intermediate state is set, every
    poll group in turn changes its copy of the state, and the new state is set
    (lib/nvmf/subsystem.c).  A poll group (lib/nvmf/nvmf.c) that pauses waits
    for the requests it has in flight; requests that arrive meanwhile are queued
    and executed on resumption (lib/nvmf/ctrlr.c).  The poll groups run on
    threads of their own: the state machine has one event for every message or
    callback, so that a history is an interleaving of them.

    Of a request the model has what these functions look at; what a handler does
    with it is a parameter of the event.  Requests do not use zero copy. *)

From S2P Require Import Prelude NvmfBdev.

Definition SPDK_NVME_OPC_FABRIC : Z := 0x7f.
Definition SPDK_NVME_OPC_ASYNC_EVENT_REQUEST : Z := 0x0c.
Definition SPDK_NVMF_FABRIC_COMMAND_CONNECT : Z := 0x01.
Definition SPDK_NVMF_FABRIC_COMMAND_AUTHENTICATION_SEND : Z := 0x05.
Definition SPDK_NVMF_FABRIC_COMMAND_AUTHENTICATION_RECV : Z := 0x06.
Definition SPDK_NVME_GLOBAL_NS_TAG : Z := 0xFFFFFFFF.
Definition SPDK_NVMF_MAX_NUM_REGISTRANTS : nat := 16.
(** sizeof(struct spdk_nvmf_fabric_connect_data) *)
Definition sizeof_connect_data : Z := 1024.

(** ** Data *)

Inductive subsystem_state :=
  | SPDK_NVMF_SUBSYSTEM_INACTIVE
  | SPDK_NVMF_SUBSYSTEM_ACTIVATING
  | SPDK_NVMF_SUBSYSTEM_ACTIVE
  | SPDK_NVMF_SUBSYSTEM_PAUSING
  | SPDK_NVMF_SUBSYSTEM_PAUSED
  | SPDK_NVMF_SUBSYSTEM_RESUMING
  | SPDK_NVMF_SUBSYSTEM_DEACTIVATING.

#[export] Instance subsystem_state_eq_dec : EqDecision subsystem_state.
Proof. solve_decision. Defined.

Inductive qpair_state :=
  | SPDK_NVMF_QPAIR_UNINITIALIZED
  | SPDK_NVMF_QPAIR_CONNECTING
  | SPDK_NVMF_QPAIR_AUTHENTICATING
  | SPDK_NVMF_QPAIR_ENABLED
  | SPDK_NVMF_QPAIR_DEACTIVATING
  | SPDK_NVMF_QPAIR_ERROR.

(** struct spdk_nvmf_request: its number, the number of its queue pair, whether
    that is an admin queue and whether it has a controller of this subsystem; the
    fields of the command, and the length of its data.  [q_connect_ok] says that
    the data of a connect command names this subsystem. *)
Record sreq := SReq {
  q_id : nat;
  q_qpair : nat;
  q_admin : bool;
  q_ctrlr : bool;
  q_opc : Z;
  q_fctype : Z;
  q_nsid : Z;
  q_length : Z;
  q_connect_ok : bool }.

#[export] Instance sreq_eq_dec : EqDecision sreq.
Proof. solve_decision. Defined.

(** struct spdk_nvmf_subsystem_pg_ns_info, without the copy of the reservation. *)
Record pg_ns_info := NsInfo {
  ni_channel : bool;
  ni_uuid : Z;
  ni_num_blocks : Z;
  io_outstanding : Z;
  ni_state : subsystem_state }.

(** The slot after memset. *)
Definition ns_info0 : pg_ns_info := NsInfo false 0 0 0 SPDK_NVMF_SUBSYSTEM_INACTIVE.

(** A namespace of the subsystem, with the number of its registrants. *)
Record sub_ns := SubNs { sn_uuid : Z; sn_num_blocks : Z; sn_registrants : nat }.

(** struct spdk_nvmf_subsystem_poll_group; [sg_cb]: cb_fn is set.  With it are
    the requests of the group's queue pairs that are in flight, and the removals
    that wait for queue pairs to disconnect ([true]: with a callback). *)
Record sgroup := SGroup {
  sg_ns : list pg_ns_info;
  sg_state : subsystem_state;
  mgmt_io_outstanding : Z;
  sg_cb : bool;
  sg_queued : list sreq;
  sg_out : list sreq;
  sg_removals : list bool }.

(** struct nvmf_subsystem_state_change_ctx; [ch_nsid] is a uint16_t. *)
Record change := Change {
  ch_requested : subsystem_state;
  ch_original : subsystem_state;
  ch_nsid : Z;
  ch_arg : Z }.

(** struct spdk_io_channel_iter: the groups to be visited, the group that has
    been called and has not continued, the status, and whether the completion is
    subsystem_state_change_revert_done. *)
Record iter := Iter { it_todo : list nat; it_cur : option nat; it_status : Z; it_revert : bool }.

(** Where the change at the head of the list is: its iteration is under way, or
    its completion message is, with its status. *)
Inductive phase := Idle | Running (it : iter) | Finishing (status : Z).

Record tst := Tst {
  t_state : subsystem_state;
  t_ns : list (option sub_ns) (** max_nsid slots *);
  t_changes : list change;
  t_phase : phase;
  t_groups : list sgroup;
  t_done : list (Z * Z) (** callbacks of changes: argument and status *);
  t_completed : list nat (** requests completed to the transport *);
  t_freed : list nat (** requests freed with their queue pair *) }.

(** What the environment does during an event: allocations, the channels of the
    block devices, whether a queue pair of the subsystem is still connected, and
    for each request the state of its queue pair and the result of its handler. *)
Record senv := Senv {
  e_calloc : bool;
  e_ns_array : bool;
  e_channel : nat -> bool;
  e_qpair_found : bool;
  e_exec : nat -> qpair_state * exec_status }.

(** ** Field updates *)

Definition set_t_state (x : subsystem_state) (t : tst) : tst :=
  Tst x (t_ns t) (t_changes t) (t_phase t) (t_groups t) (t_done t) (t_completed t) (t_freed t).
Definition set_changes (l : list change) (t : tst) : tst :=
  Tst (t_state t) (t_ns t) l (t_phase t) (t_groups t) (t_done t) (t_completed t) (t_freed t).
Definition set_phase (p : phase) (t : tst) : tst :=
  Tst (t_state t) (t_ns t) (t_changes t) p (t_groups t) (t_done t) (t_completed t) (t_freed t).
Definition set_groups (l : list sgroup) (t : tst) : tst :=
  Tst (t_state t) (t_ns t) (t_changes t) (t_phase t) l (t_done t) (t_completed t) (t_freed t).
Definition log_change (x : Z * Z) (t : tst) : tst :=
  Tst (t_state t) (t_ns t) (t_changes t) (t_phase t) (t_groups t) (t_done t ++ [x]) (t_completed t) (t_freed t).
Definition log_completed (i : nat) (t : tst) : tst :=
  Tst (t_state t) (t_ns t) (t_changes t) (t_phase t) (t_groups t) (t_done t) (t_completed t ++ [i]) (t_freed t).
Definition log_freed (l : list nat) (t : tst) : tst :=
  Tst (t_state t) (t_ns t) (t_changes t) (t_phase t) (t_groups t) (t_done t) (t_completed t) (t_freed t ++ l).

Definition with_ns (l : list pg_ns_info) (g : sgroup) : sgroup :=
  SGroup l (sg_state g) (mgmt_io_outstanding g) (sg_cb g) (sg_queued g) (sg_out g) (sg_removals g).
Definition with_sg_state (x : subsystem_state) (g : sgroup) : sgroup :=
  SGroup (sg_ns g) x (mgmt_io_outstanding g) (sg_cb g) (sg_queued g) (sg_out g) (sg_removals g).
Definition with_mgmt (n : Z) (g : sgroup) : sgroup :=
  SGroup (sg_ns g) (sg_state g) n (sg_cb g) (sg_queued g) (sg_out g) (sg_removals g).
Definition with_cb (b : bool) (g : sgroup) : sgroup :=
  SGroup (sg_ns g) (sg_state g) (mgmt_io_outstanding g) b (sg_queued g) (sg_out g) (sg_removals g).
Definition with_sg_queued (l : list sreq) (g : sgroup) : sgroup :=
  SGroup (sg_ns g) (sg_state g) (mgmt_io_outstanding g) (sg_cb g) l (sg_out g) (sg_removals g).
Definition with_out (l : list sreq) (g : sgroup) : sgroup :=
  SGroup (sg_ns g) (sg_state g) (mgmt_io_outstanding g) (sg_cb g) (sg_queued g) l (sg_removals g).
Definition with_removals (l : list bool) (g : sgroup) : sgroup :=
  SGroup (sg_ns g) (sg_state g) (mgmt_io_outstanding g) (sg_cb g) (sg_queued g) (sg_out g) l.
Definition with_ni_state (x : subsystem_state) (n : pg_ns_info) : pg_ns_info :=
  NsInfo (ni_channel n) (ni_uuid n) (ni_num_blocks n) (io_outstanding n) x.
Definition with_io (k : Z) (n : pg_ns_info) : pg_ns_info :=
  NsInfo (ni_channel n) (ni_uuid n) (ni_num_blocks n) k (ni_state n).

Definition load_sg (i : nat) : M tst sgroup := t ← get; lift_opt UB_bounds (t_groups t !! i).
Definition upd_sg (i : nat) (f : sgroup -> sgroup) : M tst unit :=
  g ← load_sg i; modify (fun t => set_groups (<[i := f g]> (t_groups t)) t).

(** The change under way. *)
Definition current : M tst change := t ← get; lift_opt UB_null (head (t_changes t)).
Definition upd_current (f : change -> change) : M tst unit :=
  t ← get;
  match t_changes t with
  | [] => fail UB_null
  | c :: l => put (set_changes (f c :: l) t)
  end.

(** ** States *)

Definition nvmf_subsystem_get_intermediate_state (current_state requested_state : subsystem_state)
  : M tst subsystem_state :=
  match requested_state with
  | SPDK_NVMF_SUBSYSTEM_INACTIVE => mret SPDK_NVMF_SUBSYSTEM_DEACTIVATING
  | SPDK_NVMF_SUBSYSTEM_ACTIVE =>
      mret (if bool_decide (current_state = SPDK_NVMF_SUBSYSTEM_PAUSED)
            then SPDK_NVMF_SUBSYSTEM_RESUMING else SPDK_NVMF_SUBSYSTEM_ACTIVATING)
  | SPDK_NVMF_SUBSYSTEM_PAUSED => mret SPDK_NVMF_SUBSYSTEM_PAUSING
  | _ => fail UB_assert
  end.

(** The old state nvmf_subsystem_set_state expects. *)
Definition expected_old_state (state : subsystem_state) : subsystem_state :=
  match state with
  | SPDK_NVMF_SUBSYSTEM_INACTIVE => SPDK_NVMF_SUBSYSTEM_DEACTIVATING
  | SPDK_NVMF_SUBSYSTEM_ACTIVATING => SPDK_NVMF_SUBSYSTEM_INACTIVE
  | SPDK_NVMF_SUBSYSTEM_ACTIVE => SPDK_NVMF_SUBSYSTEM_ACTIVATING
  | SPDK_NVMF_SUBSYSTEM_PAUSING => SPDK_NVMF_SUBSYSTEM_ACTIVE
  | SPDK_NVMF_SUBSYSTEM_PAUSED => SPDK_NVMF_SUBSYSTEM_PAUSING
  | SPDK_NVMF_SUBSYSTEM_RESUMING => SPDK_NVMF_SUBSYSTEM_PAUSED
  | SPDK_NVMF_SUBSYSTEM_DEACTIVATING => SPDK_NVMF_SUBSYSTEM_ACTIVE
  end.

(** The other old states it admits when the exchange fails. *)
Definition also_expected (actual state : subsystem_state) : bool :=
  match actual, state with
  | SPDK_NVMF_SUBSYSTEM_RESUMING, SPDK_NVMF_SUBSYSTEM_ACTIVE
  | SPDK_NVMF_SUBSYSTEM_ACTIVATING, SPDK_NVMF_SUBSYSTEM_DEACTIVATING
  | SPDK_NVMF_SUBSYSTEM_RESUMING, SPDK_NVMF_SUBSYSTEM_PAUSING
  | SPDK_NVMF_SUBSYSTEM_PAUSED, SPDK_NVMF_SUBSYSTEM_DEACTIVATING => true
  | _, _ => false
  end.

(** The assertion at the end leaves 0 as the only result. *)
Definition nvmf_subsystem_set_state (state : subsystem_state) : M tst Z :=
  t ← get;
  let actual := t_state t in
  _ ← c_assert (bool_decide (actual = expected_old_state state) || also_expected actual state);
  _ ← modify (set_t_state state);
  mret 0.

(** ** The iteration over the poll groups (lib/thread/thread.c) *)

Definition spdk_for_each_channel (revert : bool) : M tst unit :=
  modify (fun t => set_phase (Running (Iter (seq 0 (length (t_groups t))) None 0 revert)) t).

(** spdk_for_each_channel_continue, called on the thread of group [i]. *)
Definition spdk_for_each_channel_continue (i : nat) (status : Z) : M tst unit :=
  t ← get;
  match t_phase t with
  | Running it =>
      _ ← c_assert (bool_decide (it_cur it = Some i));
      modify (set_phase (Running (Iter (if status =? 0 then it_todo it else []) None status (it_revert it))))
  | _ => fail UB_freed
  end.

(** ** Requests *)

Definition nvmf_request_is_fabric_connect (r : sreq) : bool :=
  (q_opc r =? SPDK_NVME_OPC_FABRIC) && (q_fctype r =? SPDK_NVMF_FABRIC_COMMAND_CONNECT).

(** Whether there is a subsystem poll group for the request. *)
Definition has_sgroup (r : sreq) : bool := q_ctrlr r || nvmf_request_is_fabric_connect r && q_connect_ok r.

Definition is_mgmt (r : sreq) : bool := (q_opc r =? SPDK_NVME_OPC_FABRIC) || q_admin r.
Definition is_aer (r : sreq) : bool := q_ctrlr r && (q_opc r =? SPDK_NVME_OPC_ASYNC_EVENT_REQUEST).
(** The slot of the namespace; 0 - 1 wraps around to UINT32_MAX. *)
Definition ns_slot (r : sreq) : nat := Z.to_nat (u32 (q_nsid r - 1)).

(** TAILQ_REMOVE; the element is on the list. *)
Fixpoint tailq_remove (r : sreq) (l : list sreq) : option (list sreq) :=
  match l with
  | [] => None
  | x :: l => if bool_decide (x = r) then Some l else cons x <$> tailq_remove r l
  end.

Definition take_out (i : nat) (r : sreq) : M tst unit :=
  g ← load_sg i;
  l ← lift_opt UB_freed (tailq_remove r (sg_out g));
  upd_sg i (with_out l).

(** All namespaces that are to be paused have no I/O in flight. *)
Definition ns_quiet (l : list pg_ns_info) : bool :=
  forallb (fun n => negb (bool_decide (ni_state n = SPDK_NVMF_SUBSYSTEM_PAUSING) && (0 <? io_outstanding n))) l.

(** The end of a pause, at the completion of a request. *)
Definition check_paused (i : nat) : M tst unit :=
  g ← load_sg i;
  if bool_decide (sg_state g = SPDK_NVMF_SUBSYSTEM_PAUSING) && (mgmt_io_outstanding g =? 0)
     && ns_quiet (sg_ns g)
  then
    _ ← upd_sg i (with_sg_state SPDK_NVMF_SUBSYSTEM_PAUSED);
    _ ← (if sg_cb g then spdk_for_each_channel_continue i 0 else fail UB_null);
    upd_sg i (with_cb false)
  else mret tt.

Definition _nvmf_request_complete (i : nat) (r : sreq) : M tst unit :=
  _ ← take_out i r;
  _ ← modify (log_completed (q_id r));
  if has_sgroup r && negb (is_aer r) then
    g ← load_sg i;
    _ ← (if is_mgmt r then
           _ ← c_assert (0 <? mgmt_io_outstanding g);
           upd_sg i (with_mgmt (u64 (mgmt_io_outstanding g - 1)))
         else match sg_ns g !! ns_slot r with
              | Some n => upd_sg i (with_ns (<[ns_slot r := with_io (u64 (io_outstanding n - 1)) n]> (sg_ns g)))
              | None => mret tt
              end);
    check_paused i
  else mret tt.

Definition put_out (i : nat) (r : sreq) : M tst unit := upd_sg i (fun g => with_out (sg_out g ++ [r]) g).
Definition enqueue (i : nat) (r : sreq) : M tst unit := upd_sg i (fun g => with_sg_queued (sg_queued g ++ [r]) g).

Definition nvmf_check_subsystem_active (i : nat) (r : sreq) : M tst bool :=
  if negb (has_sgroup r) then mret true
  else
    g ← load_sg i;
    if is_mgmt r then
      if negb (bool_decide (sg_state g = SPDK_NVMF_SUBSYSTEM_ACTIVE)) then _ ← enqueue i r; mret false
      else _ ← upd_sg i (with_mgmt (u64 (mgmt_io_outstanding g + 1))); mret true
    else match sg_ns g !! ns_slot r with
    | None => _ ← put_out i r; _ ← _nvmf_request_complete i r; mret false
    | Some n =>
        let count := upd_sg i (fun g => with_ns (<[ns_slot r := with_io (u64 (io_outstanding n + 1)) n]> (sg_ns g)) g) in
        if negb (ni_channel n) then
          _ ← put_out i r; _ ← count; _ ← _nvmf_request_complete i r; mret false
        else if negb (bool_decide (ni_state n = SPDK_NVMF_SUBSYSTEM_ACTIVE)) then _ ← enqueue i r; mret false
        else _ ← count; mret true
    end.

(** The test of nvmf_check_qpair_active. *)
Definition qpair_admits (q : qpair_state) (r : sreq) : bool :=
  match q with
  | SPDK_NVMF_QPAIR_ENABLED => true
  | SPDK_NVMF_QPAIR_CONNECTING => nvmf_request_is_fabric_connect r
  | SPDK_NVMF_QPAIR_AUTHENTICATING =>
      (q_opc r =? SPDK_NVME_OPC_FABRIC)
      && ((q_fctype r =? SPDK_NVMF_FABRIC_COMMAND_AUTHENTICATION_SEND)
          || (q_fctype r =? SPDK_NVMF_FABRIC_COMMAND_AUTHENTICATION_RECV))
  | _ => false
  end.

Definition nvmf_check_qpair_active (i : nat) (q : qpair_state) (r : sreq) : M tst bool :=
  if qpair_admits q r then mret true
  else _ ← put_out i r; _ ← _nvmf_request_complete i r; mret false.

(** A connect command to a subsystem that is not ready goes back to the queue. *)
Definition connect_not_ready (x : subsystem_state) : bool :=
  match x with
  | SPDK_NVMF_SUBSYSTEM_INACTIVE | SPDK_NVMF_SUBSYSTEM_PAUSING
  | SPDK_NVMF_SUBSYSTEM_PAUSED | SPDK_NVMF_SUBSYSTEM_DEACTIVATING => true
  | _ => false
  end.

(** nvmf_ctrlr_cmd_connect; [res] is the result of what follows the test of the
    state, and of the errors before it. *)
Definition nvmf_ctrlr_cmd_connect (i : nat) (r : sreq) (res : exec_status) : M tst exec_status :=
  if q_length r <? sizeof_connect_data then mret COMPLETE
  else if negb (q_connect_ok r) then mret res
  else
    t ← get;
    if connect_not_ready (t_state t) then
      _ ← upd_sg i (fun g => with_mgmt (u64 (mgmt_io_outstanding g - 1)) g);
      _ ← take_out i r;
      _ ← enqueue i r;
      mret ASYNCHRONOUS
    else mret res.

Definition nvmf_ctrlr_process_fabrics_cmd (i : nat) (r : sreq) (res : exec_status) : M tst exec_status :=
  if negb (q_ctrlr r) then
    _ ← c_assert (q_fctype r =? SPDK_NVMF_FABRIC_COMMAND_CONNECT);
    nvmf_ctrlr_cmd_connect i r res
  else mret res.

Definition nvmf_ctrlr_process_admin_cmd (i : nat) (r : sreq) (res : exec_status) : M tst exec_status :=
  _ ← c_assert (q_ctrlr r);
  _ ← (if q_opc r =? SPDK_NVME_OPC_ASYNC_EVENT_REQUEST
       then upd_sg i (fun g => with_mgmt (u64 (mgmt_io_outstanding g - 1)) g) else mret tt);
  mret res.

Definition nvmf_ctrlr_process_io_cmd (r : sreq) (res : exec_status) : M tst exec_status :=
  _ ← c_assert (q_ctrlr r); mret res.

Definition process_cmd (i : nat) (r : sreq) (res : exec_status) : M tst exec_status :=
  if q_opc r =? SPDK_NVME_OPC_FABRIC then nvmf_ctrlr_process_fabrics_cmd i r res
  else if q_admin r then nvmf_ctrlr_process_admin_cmd i r res
  else nvmf_ctrlr_process_io_cmd r res.

Definition spdk_nvmf_request_exec (E : senv) (i : nat) (r : sreq) : M tst unit :=
  active ← nvmf_check_subsystem_active i r;
  if negb active then mret tt
  else
    admitted ← nvmf_check_qpair_active i (fst (e_exec E (q_id r))) r;
    if negb admitted then mret tt
    else
      _ ← put_out i r;
      status ← process_cmd i r (snd (e_exec E (q_id r)));
      match status with
      | COMPLETE => _nvmf_request_complete i r
      | ASYNCHRONOUS => mret tt
      end.

(** spdk_nvmf_request_free: a request that ends without a completion. *)
Definition spdk_nvmf_request_free (i : nat) (r : sreq) : M tst unit :=
  _ ← take_out i r; modify (log_freed [q_id r]).

(** The end of queue pair [q]: it waits for its requests in flight, then the
    queued ones are freed. *)
Definition _nvmf_qpair_sgroup_req_clean (i q : nat) : M tst unit :=
  g ← load_sg i;
  _ ← modify (log_freed (q_id <$> filter (fun r => q_qpair r = q) (sg_queued g)));
  upd_sg i (with_sg_queued (filter (fun r => q_qpair r <> q) (sg_queued g))).

Definition qpair_disconnected (i q : nat) : M tst unit :=
  g ← load_sg i;
  if existsb (fun r => q_qpair r =? q)%nat (sg_out g) then mret tt
  else _nvmf_qpair_sgroup_req_clean i q.

(** ** Poll groups *)

(** poll_group_update_subsystem on one slot; [ch]: spdk_bdev_get_io_channel
    succeeds.  The notices to the hosts of the namespaces that changed complete
    event requests; these completions are events of their own. *)
Definition update_slot (ch : bool) (ns : option sub_ns) (n : pg_ns_info) : pg_ns_info * Z :=
  match ns with
  | None => (ns_info0, 0)
  | Some s =>
      let fill (n : pg_ns_info) :=
        (NsInfo true (sn_uuid s) (sn_num_blocks s) (io_outstanding n) (ni_state n),
         if (SPDK_NVMF_MAX_NUM_REGISTRANTS <? sn_registrants s)%nat then - EINVAL else 0) in
      if negb (ni_channel n) then if ch then fill n else (n, - ENOMEM)
      else if negb (ni_uuid n =? sn_uuid s) then if ch then fill ns_info0 else (ns_info0, - ENOMEM)
      else fill n
  end.

(** Its loop over the slots, from slot [k] on. *)
Fixpoint update_slots (channel : nat -> bool) (k : nat) (nss : list (option sub_ns)) (l : list pg_ns_info)
  : list pg_ns_info * Z :=
  match nss, l with
  | ns :: nss, n :: l =>
      let '(n', rc) := update_slot (channel k) ns n in
      if rc =? 0 then let '(l', rc) := update_slots channel (S k) nss l in (n' :: l', rc)
      else (n' :: l, rc)
  | _, _ => (l, 0)
  end.

(** The array of slots, made as long as the subsystem's; [ok]: there is memory.
    The channels of the slots that go are released before the array shrinks. *)
Definition without_channel (n : pg_ns_info) : pg_ns_info :=
  NsInfo false (ni_uuid n) (ni_num_blocks n) (io_outstanding n) (ni_state n).

Definition resize_ns (ok : bool) (new_num_ns : nat) (l : list pg_ns_info) : list pg_ns_info * Z :=
  let old_num_ns := length l in
  if (old_num_ns =? 0)%nat then
    if (0 <? new_num_ns)%nat && negb ok then (l, - ENOMEM) else (replicate new_num_ns ns_info0, 0)
  else if (old_num_ns <? new_num_ns)%nat then
    if ok then (l ++ replicate (new_num_ns - old_num_ns) ns_info0, 0) else (l, - ENOMEM)
  else if (new_num_ns <? old_num_ns)%nat then
    if (0 <? new_num_ns)%nat && negb ok
    then (take new_num_ns l ++ (without_channel <$> drop new_num_ns l), - ENOMEM)
    else (take new_num_ns l, 0)
  else (l, 0).

Definition poll_group_update_subsystem (E : senv) (i : nat) : M tst Z :=
  t ← get;
  g ← load_sg i;
  let '(l, rc) := resize_ns (e_ns_array E) (length (t_ns t)) (sg_ns g) in
  if negb (rc =? 0) then _ ← upd_sg i (with_ns l); mret rc
  else
    let '(l, rc) := update_slots (e_channel E) 0 (t_ns t) l in
    _ ← upd_sg i (with_ns l);
    mret rc.

(** cb_fn of the operations on a group: subsystem_state_change_continue, or NULL. *)
Definition mod_done (cb : bool) (i : nat) (status : Z) : M tst unit :=
  if cb then spdk_for_each_channel_continue i status else mret tt.

Definition _nvmf_poll_group_remove_subsystem_cb (i : nat) (cb : bool) : M tst unit :=
  _ ← upd_sg i (with_ns []);
  mod_done cb i 0.

Definition nvmf_poll_group_remove_subsystem_msg (E : senv) (i : nat) (cb : bool) : M tst unit :=
  if e_qpair_found E then upd_sg i (fun g => with_removals (sg_removals g ++ [cb]) g)
  else _nvmf_poll_group_remove_subsystem_cb i cb.

Definition nvmf_poll_group_remove_subsystem (E : senv) (i : nat) (cb : bool) : M tst unit :=
  if negb (e_calloc E) then mod_done cb i (-1)
  else
    _ ← upd_sg i (fun g => with_ns (with_ni_state SPDK_NVMF_SUBSYSTEM_INACTIVE <$> sg_ns g)
                             (with_sg_state SPDK_NVMF_SUBSYSTEM_INACTIVE g));
    nvmf_poll_group_remove_subsystem_msg E i cb.

Definition nvmf_poll_group_add_subsystem (E : senv) (i : nat) : M tst unit :=
  g ← load_sg i;
  _ ← c_assert (bool_decide (sg_queued g = []));
  rc ← poll_group_update_subsystem E i;
  _ ← (if negb (rc =? 0) then nvmf_poll_group_remove_subsystem E i false
       else upd_sg i (fun g => with_ns (with_ni_state SPDK_NVMF_SUBSYSTEM_ACTIVE <$> sg_ns g)
                                 (with_sg_state SPDK_NVMF_SUBSYSTEM_ACTIVE g)));
  mod_done true i rc.

(** The slots a pause of [nsid] is about. *)
Definition covers (nsid : Z) (k : nat) : bool :=
  (nsid =? SPDK_NVME_GLOBAL_NS_TAG) || (u32 (nsid - 1) =? Z.of_nat k).

Definition pause_slots (nsid : Z) (l : list pg_ns_info) : list pg_ns_info :=
  imap (fun k n => if covers nsid k then with_ni_state SPDK_NVMF_SUBSYSTEM_PAUSING n else n) l.

Definition nvmf_poll_group_pause_subsystem (i : nat) (nsid : Z) : M tst unit :=
  g ← load_sg i;
  if bool_decide (sg_state g = SPDK_NVMF_SUBSYSTEM_PAUSED) then mod_done true i 0
  else
    _ ← upd_sg i (fun g => with_ns (pause_slots nsid (sg_ns g)) (with_sg_state SPDK_NVMF_SUBSYSTEM_PAUSING g));
    if (0 <? mgmt_io_outstanding g)
       || existsb (fun x => x) (imap (fun k n => covers nsid k && (0 <? io_outstanding n)) (sg_ns g))
    then
      _ ← c_assert (negb (sg_cb g));
      upd_sg i (with_cb true)
    else
      _ ← c_assert (mgmt_io_outstanding g =? 0);
      _ ← upd_sg i (with_sg_state SPDK_NVMF_SUBSYSTEM_PAUSED);
      mod_done true i 0.

(** The release of the queued requests: the next request is looked up before the
    first one is executed. *)
Fixpoint release_queued (fuel : nat) (E : senv) (i : nat) : M tst unit :=
  g ← load_sg i;
  match sg_queued g with
  | [] => mret tt
  | r :: l =>
      match fuel with
      | O => out_of_fuel
      | S fuel =>
          _ ← upd_sg i (with_sg_queued l);
          _ ← spdk_nvmf_request_exec E i r;
          match l with [] => mret tt | _ => release_queued fuel E i end
      end
  end.

Definition nvmf_poll_group_resume_subsystem (E : senv) (i : nat) : M tst unit :=
  g ← load_sg i;
  if bool_decide (sg_state g = SPDK_NVMF_SUBSYSTEM_ACTIVE) then mod_done true i 0
  else
    rc ← poll_group_update_subsystem E i;
    if negb (rc =? 0) then mod_done true i rc
    else
      _ ← upd_sg i (fun g => with_ns (with_ni_state SPDK_NVMF_SUBSYSTEM_ACTIVE <$> sg_ns g)
                               (with_sg_state SPDK_NVMF_SUBSYSTEM_ACTIVE g));
      _ ← release_queued (length (sg_queued g)) E i;
      mod_done true i 0.

(** ** Changes of state *)

Definition subsystem_state_change_on_pg (E : senv) (i : nat) : M tst unit :=
  ctx ← current;
  t ← get;
  match ch_requested ctx with
  | SPDK_NVMF_SUBSYSTEM_INACTIVE => nvmf_poll_group_remove_subsystem E i true
  | SPDK_NVMF_SUBSYSTEM_ACTIVE =>
      match t_state t with
      | SPDK_NVMF_SUBSYSTEM_ACTIVATING => nvmf_poll_group_add_subsystem E i
      | SPDK_NVMF_SUBSYSTEM_RESUMING => nvmf_poll_group_resume_subsystem E i
      | _ => mret tt
      end
  | SPDK_NVMF_SUBSYSTEM_PAUSED => nvmf_poll_group_pause_subsystem i (ch_nsid ctx)
  | _ => fail UB_assert
  end.

(** _call_channel, on the thread of the next group. *)
Definition call_channel (E : senv) : M tst unit :=
  t ← get;
  match t_phase t with
  | Running (Iter (i :: l) None st rv) =>
      _ ← put (set_phase (Running (Iter l (Some i) st rv)) t);
      subsystem_state_change_on_pg E i
  | _ => mret tt
  end.

Definition nvmf_subsystem_state_change_complete (status : Z) : M tst unit :=
  modify (set_phase (Finishing status)).

Definition nvmf_subsystem_do_state_change : M tst unit :=
  ctx ← current;
  t ← get;
  if bool_decide (t_state t = ch_requested ctx) then nvmf_subsystem_state_change_complete 0
  else
    intermediate_state ← nvmf_subsystem_get_intermediate_state (t_state t) (ch_requested ctx);
    _ ← upd_current (fun c => Change (ch_requested c) (t_state t) (ch_nsid c) (ch_arg c));
    rc ← nvmf_subsystem_set_state intermediate_state;
    if negb (rc =? 0) then nvmf_subsystem_state_change_complete (-1)
    else spdk_for_each_channel false.

(** The completion message of the change at the head of the list. *)
Definition _nvmf_subsystem_state_change_complete : M tst unit :=
  t ← get;
  match t_phase t, t_changes t with
  | Finishing status, c :: l =>
      _ ← put (set_phase Idle (set_changes l (log_change (ch_arg c, status) t)));
      match l with [] => mret tt | _ => nvmf_subsystem_do_state_change end
  | _, _ => mret tt
  end.

Definition subsystem_state_change_revert_done : M tst unit :=
  ctx ← current;
  _ ← nvmf_subsystem_set_state (ch_requested ctx);
  nvmf_subsystem_state_change_complete (-1).

Definition subsystem_state_change_done (status : Z) : M tst unit :=
  ctx ← current;
  status ← (if status =? 0
            then rc ← nvmf_subsystem_set_state (ch_requested ctx); mret (if rc =? 0 then 0 else -1)
            else mret status);
  if negb (status =? 0) then
    intermediate_state ← nvmf_subsystem_get_intermediate_state (ch_requested ctx) (ch_original ctx);
    rc ← nvmf_subsystem_set_state intermediate_state;
    if negb (rc =? 0) then nvmf_subsystem_state_change_complete status
    else
      _ ← upd_current (fun c => Change (ch_original c) (ch_original c) (ch_nsid c) (ch_arg c));
      spdk_for_each_channel true
  else nvmf_subsystem_state_change_complete status.

(** _call_completion, when all groups have continued. *)
Definition call_completion : M tst unit :=
  t ← get;
  match t_phase t with
  | Running (Iter [] None st rv) =>
      if rv then subsystem_state_change_revert_done else subsystem_state_change_done st
  | _ => mret tt
  end.

(** [alloc]: the memory for the change; the result is the return value.  The
    change has 16 bits for the identifier of the namespace. *)
Definition nvmf_subsystem_state_change (alloc : bool) (nsid : Z) (requested : subsystem_state) (cb_arg : Z)
  : M tst Z :=
  if negb alloc then mret (- ENOMEM)
  else
    t ← get;
    _ ← put (set_changes (t_changes t ++ [Change requested SPDK_NVMF_SUBSYSTEM_INACTIVE (u16 nsid) cb_arg]) t);
    _ ← (match t_changes t with [] => nvmf_subsystem_do_state_change | _ => mret tt end);
    mret 0.

Definition spdk_nvmf_subsystem_start (alloc : bool) := nvmf_subsystem_state_change alloc 0 SPDK_NVMF_SUBSYSTEM_ACTIVE.
Definition spdk_nvmf_subsystem_stop (alloc : bool) := nvmf_subsystem_state_change alloc 0 SPDK_NVMF_SUBSYSTEM_INACTIVE.
Definition spdk_nvmf_subsystem_pause (alloc : bool) (nsid : Z) :=
  nvmf_subsystem_state_change alloc nsid SPDK_NVMF_SUBSYSTEM_PAUSED.
Definition spdk_nvmf_subsystem_resume (alloc : bool) := nvmf_subsystem_state_change alloc 0 SPDK_NVMF_SUBSYSTEM_ACTIVE.

(** The removal message of group [i] that is first in its queue. *)
Definition remove_msg (E : senv) (i : nat) : M tst unit :=
  g ← load_sg i;
  match sg_removals g with
  | [] => mret tt
  | cb :: l => _ ← upd_sg i (with_removals l); nvmf_poll_group_remove_subsystem_msg E i cb
  end.

(** What becomes of a slot of the subsystem when a namespace is added to it or
    removed from it: only an inactive or a paused subsystem is changed. *)
Definition subsystem_set_ns (k : nat) (ns : option sub_ns) : M tst unit :=
  t ← get;
  match t_state t with
  | SPDK_NVMF_SUBSYSTEM_INACTIVE | SPDK_NVMF_SUBSYSTEM_PAUSED =>
      put (Tst (t_state t) (<[k := ns]> (t_ns t)) (t_changes t) (t_phase t) (t_groups t) (t_done t)
             (t_completed t) (t_freed t))
  | _ => match ns with Some _ => mret tt | None => fail UB_assert end
  end.

(** ** Histories *)

Inductive sop := Start | Stop | Pause (nsid : Z) | Resume.

Inductive event :=
  | EvChange (alloc : bool) (o : sop) (cb_arg : Z)
  | EvPg (E : senv)
  | EvIterDone
  | EvFinish
  | EvRemoveMsg (E : senv) (i : nat)
  | EvReq (E : senv) (i : nat) (r : sreq)
  | EvComplete (i : nat) (r : sreq)
  | EvFree (i : nat) (r : sreq)
  | EvQpairGone (i q : nat)
  | EvNs (k : nat) (ns : option sub_ns).

Definition change_op (alloc : bool) (o : sop) (cb_arg : Z) : M tst Z :=
  match o with
  | Start => spdk_nvmf_subsystem_start alloc cb_arg
  | Stop => spdk_nvmf_subsystem_stop alloc cb_arg
  | Pause nsid => spdk_nvmf_subsystem_pause alloc nsid cb_arg
  | Resume => spdk_nvmf_subsystem_resume alloc cb_arg
  end.

Definition step_event (e : event) : M tst unit :=
  match e with
  | EvChange alloc o cb_arg => _ ← change_op alloc o cb_arg; mret tt
  | EvPg E => call_channel E
  | EvIterDone => call_completion
  | EvFinish => _nvmf_subsystem_state_change_complete
  | EvRemoveMsg E i => remove_msg E i
  | EvReq E i r => spdk_nvmf_request_exec E i r
  | EvComplete i r => _nvmf_request_complete i r
  | EvFree i r => spdk_nvmf_request_free i r
  | EvQpairGone i q => qpair_disconnected i q
  | EvNs k ns => subsystem_set_ns k ns
  end.

Fixpoint run_events (es : list event) : M tst unit :=
  match es with
  | [] => mret tt
  | e :: es => _ ← step_event e; run_events es
  end.

(** A subsystem that has been created, and its poll groups. *)
Definition sgroup0 : sgroup := SGroup [] SPDK_NVMF_SUBSYSTEM_INACTIVE 0 false [] [] [].
Definition tst0 (nss : list (option sub_ns)) (n : nat) : tst :=
  Tst SPDK_NVMF_SUBSYSTEM_INACTIVE nss [] Idle (replicate n sgroup0) [] [] [].
