(* ===== verification/SubsysInv.v ===== *)
(** * Invariants of a subsystem and its poll groups

    What a history may contain, the counts of the requests in flight, the
    invariant of a poll group and that of the change under way. *)

From S2P Require Import Prelude NvmfBdev Subsys.

(** ** Counts *)

Fixpoint cnt (p : sreq -> bool) (l : list sreq) : Z :=
  match l with
  | [] => 0
  | r :: l => (if p r then 1 else 0) + cnt p l
  end.

Lemma cnt_app p l k : cnt p (l ++ k) = cnt p l + cnt p k.
Proof. induction l as [|r l IH]; cbn [app cnt]; lia. Qed.

#[export] Instance cnt_perm p : Proper ((≡ₚ) ==> (=)) (cnt p).
Proof. intros l k H. induction H; cbn [cnt]; lia. Qed.

Lemma cnt_bounds p l : 0 <= cnt p l <= Z.of_nat (length l).
Proof. induction l as [|r l IH]; cbn [cnt length]; [lia|]. destruct (p r); lia. Qed.

Lemma cnt_pos p l : 0 < cnt p l -> exists r, r ∈ l /\ p r = true.
Proof.
  induction l as [|r l IH]; cbn [cnt]; [lia|]. destruct (p r) eqn:Hp; intros H.
  - exists r. split; [left|done].
  - destruct IH as (x & Hx & Hpx); [lia|]. exists x. split; [by right|done].
Qed.

Lemma cnt_zero p l r : cnt p l = 0 -> r ∈ l -> p r = false.
Proof.
  intros H Hin. destruct (p r) eqn:Hp; [|done]. exfalso.
  induction Hin as [r l|r y l Hin IH]; cbn [cnt] in H; pose proof (cnt_bounds p l).
  - rewrite Hp in H. lia.
  - apply IH; [|done]. destruct (p y); lia.
Qed.

Lemma tailq_remove_perm r l : r ∈ l -> exists l', tailq_remove r l = Some l' /\ l ≡ₚ r :: l'.
Proof.
  induction 1 as [x l|x y l Hin (l' & Hl' & Hp)]; cbn [tailq_remove].
  - rewrite bool_decide_true; [|done]. by exists l.
  - case_bool_decide as He; [subst y; by exists l|]. rewrite Hl'. exists (y :: l').
    split; [done|]. rewrite Hp. constructor.
Qed.

(** ** Histories *)

(** The requests counted as management commands, and as I/O to slot [k]. *)
Definition counted_mgmt (r : sreq) : bool := has_sgroup r && is_mgmt r && negb (is_aer r).
Definition counted_io (k : nat) (r : sreq) : bool := has_sgroup r && negb (is_mgmt r) && (ns_slot r =? k)%nat.

(** A request that is executed: the queue pair is enabled or authenticating only
    with a controller, and opcode 0Ch only comes on an enabled admin queue. *)
Definition req_ok (E : senv) (r : sreq) : bool :=
  let q := fst (e_exec E (q_id r)) in
  (negb (qpair_admits q r) || q_ctrlr r || nvmf_request_is_fabric_connect r)
  && (negb (is_aer r)
      || q_admin r && match q with SPDK_NVMF_QPAIR_ENABLED => true | _ => false end).

(** An inactive subsystem is not paused. *)
Definition start_ok (x : subsystem_state) (c : subsystem_state) : bool :=
  match x, c with SPDK_NVMF_SUBSYSTEM_INACTIVE, SPDK_NVMF_SUBSYSTEM_PAUSED => false | _, _ => true end.

Definition op_state (o : sop) : subsystem_state :=
  match o with
  | Start | Resume => SPDK_NVMF_SUBSYSTEM_ACTIVE
  | Stop => SPDK_NVMF_SUBSYSTEM_INACTIVE
  | Pause _ => SPDK_NVMF_SUBSYSTEM_PAUSED
  end.

(** A queue pair that has requests in flight is still connected. *)
Definition found_ok (E : senv) (g : sgroup) : bool := e_qpair_found E || forallb (fun r => negb (q_ctrlr r)) (sg_out g).

Definition pg_ok (t : tst) (E : senv) (i : nat) : bool :=
  match head (t_changes t), t_groups t !! i with
  | Some c, Some g =>
      match ch_requested c, t_state t with
      | SPDK_NVMF_SUBSYSTEM_INACTIVE, _ => e_calloc E && found_ok E g
      | SPDK_NVMF_SUBSYSTEM_ACTIVE, SPDK_NVMF_SUBSYSTEM_ACTIVATING =>
          bool_decide (sg_queued g = []) && negb (e_qpair_found E)
      | SPDK_NVMF_SUBSYSTEM_ACTIVE, SPDK_NVMF_SUBSYSTEM_RESUMING => forallb (req_ok E) (sg_queued g)
      | _, _ => true
      end
  | _, _ => true
  end.

(** The slot of a namespace that is added or removed is not in use. *)
Definition slot_idle (k : nat) (g : sgroup) : bool :=
  match sg_ns g !! k with
  | Some n => negb (ni_channel n && bool_decide (ni_state n = SPDK_NVMF_SUBSYSTEM_ACTIVE))
  | None => true
  end.

Definition ev_ok (t : tst) (e : event) : bool :=
  match e with
  | EvChange alloc o _ =>
      match t_changes t with [] => negb alloc || start_ok (t_state t) (op_state o) | _ => true end
  | EvFinish => match t_changes t with _ :: c :: _ => start_ok (t_state t) (ch_requested c) | _ => true end
  | EvPg E => match t_phase t with Running (Iter (i :: _) None _ _) => pg_ok t E i | _ => true end
  | EvIterDone => true
  | EvRemoveMsg E i => match t_groups t !! i with Some g => found_ok E g | None => false end
  | EvReq E i r =>
      match t_groups t !! i with
      | Some g => req_ok E r && (Z.of_nat (length (sg_out g) + length (sg_queued g)) + 1 <? 2 ^ 64)
      | None => false
      end
  | EvComplete i r => match t_groups t !! i with Some g => bool_decide (r ∈ sg_out g) | None => false end
  | EvFree i r => match t_groups t !! i with Some g => bool_decide (r ∈ sg_out g) && is_aer r | None => false end
  | EvQpairGone i _ => (i <? length (t_groups t))%nat
  | EvNs k _ =>
      match t_state t with
      | SPDK_NVMF_SUBSYSTEM_INACTIVE | SPDK_NVMF_SUBSYSTEM_PAUSED => forallb (slot_idle k) (t_groups t)
      | _ => false
      end
  end.

Fixpoint run_ok (t : tst) (es : list event) : bool :=
  match es with
  | [] => true
  | e :: es => ev_ok t e && match step_event e t with Ok (_, t') => run_ok t' es | _ => true end
  end.

(** ** The invariant of a poll group *)

(** A slot that the next update clears has no I/O in flight, and gets none; nor
    has a slot without a channel. *)
Definition slot_ok (ns : option sub_ns) (n : pg_ns_info) : Prop :=
  (exists s, ns = Some s /\ if ni_channel n then ni_uuid n = sn_uuid s else io_outstanding n = 0) \/
  (io_outstanding n = 0 /\ (ni_state n <> SPDK_NVMF_SUBSYSTEM_ACTIVE \/ ni_channel n = false)).

Definition state_inv (g : sgroup) : Prop :=
  match sg_state g with
  | SPDK_NVMF_SUBSYSTEM_ACTIVE =>
      Forall (fun n => ni_state n = SPDK_NVMF_SUBSYSTEM_ACTIVE) (sg_ns g) /\ sg_cb g = false
  | SPDK_NVMF_SUBSYSTEM_PAUSED =>
      mgmt_io_outstanding g = 0 /\ sg_cb g = false /\
      Forall (fun n => ni_state n <> SPDK_NVMF_SUBSYSTEM_ACTIVE -> io_outstanding n = 0) (sg_ns g)
  | SPDK_NVMF_SUBSYSTEM_PAUSING =>
      sg_cb g = true /\
      Forall (fun n => ni_state n = SPDK_NVMF_SUBSYSTEM_ACTIVE \/ ni_state n = SPDK_NVMF_SUBSYSTEM_PAUSING) (sg_ns g)
  | SPDK_NVMF_SUBSYSTEM_INACTIVE =>
      sg_cb g = false /\ Forall (fun n => ni_state n <> SPDK_NVMF_SUBSYSTEM_ACTIVE) (sg_ns g) /\
      (sg_removals g <> [] \/ forall k, cnt (counted_io k) (sg_out g) = 0)
  | _ => False
  end.

Record gcore (nss : list (option sub_ns)) (g : sgroup) : Prop := GCore {
  gc_mgmt : mgmt_io_outstanding g = cnt counted_mgmt (sg_out g);
  gc_io : forall k n, sg_ns g !! k = Some n -> io_outstanding n = cnt (counted_io k) (sg_out g);
  gc_aer : Forall (fun r => is_aer r = true -> q_admin r = true) (sg_out g);
  gc_bound : Z.of_nat (length (sg_out g) + length (sg_queued g)) < 2 ^ 64;
  gc_len : sg_ns g = [] \/ length (sg_ns g) = length nss;
  gc_out : forall k, (length (sg_ns g) <= k)%nat -> cnt (counted_io k) (sg_out g) = 0;
  gc_slots : forall k ns n, nss !! k = Some ns -> sg_ns g !! k = Some n -> slot_ok ns n;
  gc_state : state_inv g }.

(** The test for the end of a pause, and that a pausing group still has to wait. *)
Definition quiescent (g : sgroup) : bool :=
  bool_decide (sg_state g = SPDK_NVMF_SUBSYSTEM_PAUSING) && (mgmt_io_outstanding g =? 0) && ns_quiet (sg_ns g).

Definition ginv (nss : list (option sub_ns)) (g : sgroup) : Prop := gcore nss g /\ quiescent g = false.

(** ** The invariant of the change under way *)

(** From the original state to the requested one through the intermediate one;
    with [true], back after a failure. *)
Inductive trans : subsystem_state -> subsystem_state -> subsystem_state -> bool -> Prop :=
  | tr_start : trans SPDK_NVMF_SUBSYSTEM_INACTIVE SPDK_NVMF_SUBSYSTEM_ACTIVE SPDK_NVMF_SUBSYSTEM_ACTIVATING false
  | tr_resume : trans SPDK_NVMF_SUBSYSTEM_PAUSED SPDK_NVMF_SUBSYSTEM_ACTIVE SPDK_NVMF_SUBSYSTEM_RESUMING false
  | tr_pause : trans SPDK_NVMF_SUBSYSTEM_ACTIVE SPDK_NVMF_SUBSYSTEM_PAUSED SPDK_NVMF_SUBSYSTEM_PAUSING false
  | tr_stop : trans SPDK_NVMF_SUBSYSTEM_ACTIVE SPDK_NVMF_SUBSYSTEM_INACTIVE SPDK_NVMF_SUBSYSTEM_DEACTIVATING false
  | tr_stop_paused : trans SPDK_NVMF_SUBSYSTEM_PAUSED SPDK_NVMF_SUBSYSTEM_INACTIVE SPDK_NVMF_SUBSYSTEM_DEACTIVATING false
  | tr_unstart : trans SPDK_NVMF_SUBSYSTEM_INACTIVE SPDK_NVMF_SUBSYSTEM_INACTIVE SPDK_NVMF_SUBSYSTEM_DEACTIVATING true
  | tr_unresume : trans SPDK_NVMF_SUBSYSTEM_PAUSED SPDK_NVMF_SUBSYSTEM_PAUSED SPDK_NVMF_SUBSYSTEM_PAUSING true.

(** The slots the change pauses do not admit I/O. *)
Definition scope (nsid : Z) (g : sgroup) : Prop :=
  forall k n, sg_ns g !! k = Some n -> covers nsid k = true -> ni_state n <> SPDK_NVMF_SUBSYSTEM_ACTIVE.

Definition scoped (c : change) (rv : bool) (g : sgroup) : Prop :=
  rv = false -> ch_requested c = SPDK_NVMF_SUBSYSTEM_PAUSED -> scope (ch_nsid c) g.

Definition visited (c : change) (rv : bool) (g : sgroup) : Prop :=
  sg_state g = ch_requested c /\ sg_removals g = [] /\ scoped c rv g.

Definition unvisited (c : change) (rv : bool) (g : sgroup) : Prop :=
  (sg_state g = ch_original c \/ rv = true /\ sg_state g = SPDK_NVMF_SUBSYSTEM_ACTIVE) /\ sg_removals g = [].

Definition waiting (c : change) (rv : bool) (g : sgroup) : Prop :=
  (ch_requested c = SPDK_NVMF_SUBSYSTEM_PAUSED /\ sg_state g = SPDK_NVMF_SUBSYSTEM_PAUSING /\
   sg_removals g = [] /\ scoped c rv g) \/
  (ch_requested c = SPDK_NVMF_SUBSYSTEM_INACTIVE /\ sg_state g = SPDK_NVMF_SUBSYSTEM_INACTIVE /\
   sg_removals g = [true]).

(** Group [i] of an iteration that visits [k] next. *)
Definition place (c : change) (rv : bool) (k : nat) (cur : option nat) (i : nat) (g : sgroup) : Prop :=
  if decide (cur = Some i) then waiting c rv g
  else if decide (i < k)%nat then visited c rv g else unvisited c rv g.

Definition failed (c : change) (g : sgroup) : Prop :=
  (sg_state g = ch_original c \/ sg_state g = SPDK_NVMF_SUBSYSTEM_ACTIVE) /\ sg_removals g = [].

Definition running (c : change) (it : iter) (gs : list sgroup) : Prop :=
  (it_status it = 0 /\
   exists k, (k <= length gs)%nat /\ it_todo it = seq k (length gs - k) /\
     (forall j, it_cur it = Some j -> k = S j) /\
     forall i g, gs !! i = Some g -> place c (it_revert it) k (it_cur it) i g) \/
  (it_status it <> 0 /\ it_revert it = false /\ it_cur it = None /\ it_todo it = [] /\
   ch_requested c = SPDK_NVMF_SUBSYSTEM_ACTIVE /\ Forall (failed c) gs).

Definition is_settled (x : subsystem_state) : Prop :=
  x = SPDK_NVMF_SUBSYSTEM_INACTIVE \/ x = SPDK_NVMF_SUBSYSTEM_ACTIVE \/ x = SPDK_NVMF_SUBSYSTEM_PAUSED.

Definition settled (t : tst) : Prop :=
  is_settled (t_state t) /\ Forall (fun g => sg_state g = t_state t /\ sg_removals g = []) (t_groups t).

(** What the callback is told. *)
Definition told (c : change) (status : Z) (t : tst) : Prop :=
  status = 0 -> t_state t = ch_requested c /\
    (ch_original c = SPDK_NVMF_SUBSYSTEM_ACTIVE -> ch_requested c = SPDK_NVMF_SUBSYSTEM_PAUSED ->
     Forall (scope (ch_nsid c)) (t_groups t)).

Definition phase_inv (t : tst) : Prop :=
  match t_phase t, t_changes t with
  | Idle, [] => settled t
  | Finishing status, c :: _ => settled t /\ told c status t
  | Running it, c :: _ =>
      trans (ch_original c) (ch_requested c) (t_state t) (it_revert it) /\ running c it (t_groups t)
  | _, _ => False
  end.

(** Requests are queued at an active group only before it is paused or stopped. *)
Definition no_stranded (x : subsystem_state) (g : sgroup) : Prop :=
  sg_state g = SPDK_NVMF_SUBSYSTEM_ACTIVE -> x <> SPDK_NVMF_SUBSYSTEM_PAUSING ->
  x <> SPDK_NVMF_SUBSYSTEM_DEACTIVATING -> sg_queued g = [].

Record tinv (t : tst) : Prop := TInv {
  ti_groups : Forall (ginv (t_ns t)) (t_groups t);
  ti_phase : phase_inv t;
  ti_queued : Forall (no_stranded (t_state t)) (t_groups t);
  ti_changes : Forall (fun c => is_settled (ch_requested c)) (t_changes t);
  ti_fresh : Forall (fun c => ch_original c = SPDK_NVMF_SUBSYSTEM_INACTIVE) (tail (t_changes t)) }.
