(* ===== verification/SubsysReq.v ===== *)
(** * Requests at a poll group

    The operations on the requests of one poll group, as functions of the group:
    a completion removes the request from the counts and may end a pause; an
    execution queues the request, starts it or completes it, and never ends a
    pause.  The invariant of the group is preserved by each of them. *)

From S2P Require Import Prelude NvmfBdev Subsys SubsysInv.

(** ** One group of the state *)

Definition at_sg (t : tst) (i : nat) (g : sgroup) : tst := set_groups (<[i := g]> (t_groups t)) t.

Lemma at_sg_id t i g : t_groups t !! i = Some g -> t = at_sg t i g.
Proof. intros H. destruct t. cbn in *. unfold at_sg, set_groups. cbn. by rewrite list_insert_id. Qed.

Lemma at_sg_at_sg t i g g' : at_sg (at_sg t i g) i g' = at_sg t i g'.
Proof. destruct t. unfold at_sg, set_groups. cbn. by rewrite list_insert_insert_eq. Qed.

Section at_sg.
Context (t : tst) (i : nat) (Hi : (i < length (t_groups t))%nat).

Lemma wp_load g Q : Q g (at_sg t i g) -> wp (load_sg i) Q (at_sg t i g).
Proof using Hi.
  intros HQ. apply wp_bind, wp_get. cbn [at_sg set_groups t_groups].
  rewrite list_lookup_insert_eq; [|done]. by apply wp_ret.
Qed.

Lemma wp_upd g f Q : Q tt (at_sg t i (f g)) -> wp (upd_sg i f) Q (at_sg t i g).
Proof using Hi.
  intros HQ. apply wp_bind, wp_load, wp_modify. fold (at_sg (at_sg t i g) i (f g)).
  by rewrite at_sg_at_sg.
Qed.

Lemma wp_take_out g r l Q :
  tailq_remove r (sg_out g) = Some l -> Q tt (at_sg t i (with_out l g)) -> wp (take_out i r) Q (at_sg t i g).
Proof using Hi.
  intros Hr HQ. apply wp_bind, wp_load. rewrite Hr. apply wp_bind, wp_ret, wp_upd, HQ.
Qed.
End at_sg.

Ltac gstep :=
  first [ wstep | apply wp_load; [done|] | apply wp_upd; [done|] ]; cbn beta iota.
Ltac gsteps := repeat gstep.

(** ** The iteration goes on *)

Definition called (t : tst) (i : nat) : Prop := exists it, t_phase t = Running it /\ it_cur it = Some i.

Definition advance (status : Z) (t : tst) : tst :=
  match t_phase t with
  | Running it => set_phase (Running (Iter (if status =? 0 then it_todo it else []) None status (it_revert it))) t
  | _ => t
  end.

Lemma wp_continue t i g status Q :
  called t i -> Q tt (at_sg (advance status t) i g) ->
  wp (spdk_for_each_channel_continue i status) Q (at_sg t i g).
Proof.
  intros (it & Hp & Hc) HQ. unfold spdk_for_each_channel_continue, advance in *. rewrite Hp in HQ.
  wstep. wstep. cbn [t_phase at_sg set_groups]. rewrite Hp, Hc, bool_decide_true; [|done].
  apply wp_bind, wp_assert; [done|]. by apply wp_modify.
Qed.

(** ** Completion *)

(** The request goes out of the counts. *)
Definition dec_sg (r : sreq) (g : sgroup) : sgroup :=
  if has_sgroup r && negb (is_aer r) then
    if is_mgmt r then with_mgmt (u64 (mgmt_io_outstanding g - 1)) g
    else match sg_ns g !! ns_slot r with
         | Some n => with_ns (<[ns_slot r := with_io (u64 (io_outstanding n - 1)) n]> (sg_ns g)) g
         | None => g
         end
  else g.

Definition end_pause (g : sgroup) : sgroup := with_cb false (with_sg_state SPDK_NVMF_SUBSYSTEM_PAUSED g).

Section complete.
Context (t : tst) (i : nat) (Hi : (i < length (t_groups t))%nat).

Lemma wp_check_paused g (Q : unit -> tst -> Prop) :
  (if quiescent g
   then sg_cb g = true /\ called t i /\ Q tt (at_sg (advance 0 t) i (end_pause g))
   else Q tt (at_sg t i g)) ->
  wp (check_paused i) Q (at_sg t i g).
Proof using Hi.
  intros HQ. apply wp_bind, wp_load; [done|]. unfold quiescent in HQ. destruct (_ && _ && _).
  - destruct HQ as (Hcb & Hc & HQ). rewrite Hcb. gsteps. apply wp_continue; [done|]. apply wp_upd; [|done].
    unfold advance. by destruct (t_phase t).
  - by apply wp_ret.
Qed.
End complete.

Lemma wp_complete t i g r l (Q : unit -> tst -> Prop) :
  (i < length (t_groups t))%nat ->
  tailq_remove r (sg_out g) = Some l ->
  (counted_mgmt r = true -> 0 < mgmt_io_outstanding g) ->
  (if has_sgroup r && negb (is_aer r) && quiescent (dec_sg r (with_out l g))
   then sg_cb g = true /\ called t i /\
        Q tt (at_sg (advance 0 (log_completed (q_id r) t)) i (end_pause (dec_sg r (with_out l g))))
   else Q tt (at_sg (log_completed (q_id r) t) i (dec_sg r (with_out l g)))) ->
  wp (_nvmf_request_complete i r) Q (at_sg t i g).
Proof.
  intros Hi Hr Hm HQ. apply wp_bind, (wp_take_out _ _ Hi _ _ _ _ Hr). gsteps.
  change (wp ?m Q (log_completed ?x (at_sg t i ?h))) with (wp m Q (at_sg (log_completed x t) i h)).
  set (t1 := log_completed _ t) in *. assert (Hi1 : (i < length (t_groups t1))%nat) by done.
  unfold dec_sg, counted_mgmt in *. destruct (has_sgroup r && negb (is_aer r)) eqn:Hs; [|by apply wp_ret].
  apply andb_true_iff in Hs as (Hs & Ha). rewrite Hs, Ha in Hm. cbn [andb] in HQ.
  apply wp_bind, wp_load; [done|]. cbn [mgmt_io_outstanding with_out sg_ns] in *. apply wp_bind.
  destruct (is_mgmt r).
  - apply wp_bind, wp_assert; [apply Z.ltb_lt; auto|]. apply wp_upd; [done|]. by apply wp_check_paused.
  - destruct (sg_ns g !! ns_slot r) as [n|].
    + apply wp_upd; [done|]. by apply wp_check_paused.
    + apply wp_ret. by apply wp_check_paused.
Qed.

(** ** The invariant of the group *)

Definition same_but_io (n n' : pg_ns_info) : Prop :=
  ni_channel n' = ni_channel n /\ ni_uuid n' = ni_uuid n /\ ni_state n' = ni_state n.

#[export] Instance same_but_io_refl : Reflexive same_but_io.
Proof. done. Qed.

(** The group keeps its invariant when its counts follow the requests in flight,
    and slots that admit no I/O get none. *)
Lemma gcore_counts nss g g' :
  gcore nss g ->
  sg_state g' = sg_state g -> sg_cb g' = sg_cb g -> sg_removals g' = sg_removals g ->
  Forall2 same_but_io (sg_ns g) (sg_ns g') ->
  mgmt_io_outstanding g' = cnt counted_mgmt (sg_out g') ->
  (forall k n, sg_ns g' !! k = Some n -> io_outstanding n = cnt (counted_io k) (sg_out g')) ->
  Forall (fun r => is_aer r = true -> q_admin r = true) (sg_out g') ->
  Z.of_nat (length (sg_out g') + length (sg_queued g')) < 2 ^ 64 ->
  (forall k, (length (sg_ns g) <= k)%nat -> cnt (counted_io k) (sg_out g') = 0) ->
  (sg_state g = SPDK_NVMF_SUBSYSTEM_PAUSED -> mgmt_io_outstanding g' = 0) ->
  (forall k n, sg_ns g !! k = Some n -> ni_state n <> SPDK_NVMF_SUBSYSTEM_ACTIVE \/ ni_channel n = false ->
     cnt (counted_io k) (sg_out g) = 0 -> cnt (counted_io k) (sg_out g') = 0) ->
  gcore nss g'.
Proof.
  intros [Hm Hio Ha Hb Hl Ho Hs Hst] Es Ecb Er Hns Hm' Hio' Ha' Hb' Ho' Hp Hz.
  pose proof (Forall2_length _ _ _ Hns) as Hlen.
  assert (Hslot : forall k n', sg_ns g' !! k = Some n' -> exists n, sg_ns g !! k = Some n /\ same_but_io n n').
  { intros k n' Hk. destruct (Forall2_lookup_r _ _ _ _ _ Hns Hk) as (n & ? & ?). eauto. }
  assert (Hz' : forall k n n', sg_ns g !! k = Some n -> sg_ns g' !! k = Some n' -> io_outstanding n = 0 ->
    ni_state n <> SPDK_NVMF_SUBSYSTEM_ACTIVE \/ ni_channel n = false -> io_outstanding n' = 0).
  { intros k n n' Hk Hk' H0 Hc. rewrite (Hio' _ _ Hk'). eapply Hz; [done|done|]. by rewrite <- (Hio _ _ Hk). }
  split; try done.
  - destruct Hl as [Hl|Hl]; [left|right; congruence]. rewrite Hl in Hlen. by apply nil_length_inv.
  - intros k Hk. apply Ho'. lia.
  - intros k ns n' Hns' Hk. destruct (Hslot _ _ Hk) as (n & Hn & Hc & Hu & Hx).
    destruct (Hs _ _ _ Hns' Hn) as [(s & -> & Hsu)|(H0 & Hcl)].
    + left. exists s. split; [done|]. rewrite Hc, Hu. destruct (ni_channel n) eqn:Hch; [done|]. eapply Hz'; eauto.
    + right. rewrite Hc, Hx. split; [|done]. by eapply Hz'.
  - unfold state_inv in *. rewrite Es, Ecb, Er.
    assert (Hall : forall P Q : pg_ns_info -> Prop, Forall P (sg_ns g) ->
      (forall k n n', sg_ns g !! k = Some n -> sg_ns g' !! k = Some n' -> same_but_io n n' -> P n -> Q n') ->
      Forall Q (sg_ns g')).
    { intros P Q HP HPQ. apply Forall_lookup. intros k n' Hk. destruct (Hslot _ _ Hk) as (n & Hn & Hsb).
      eapply HPQ; eauto. by eapply (Forall_lookup_1 P). }
    destruct (sg_state g); try done.
    + destruct Hst as (? & HF & Hq). split; [done|]. split.
      { eapply Hall; [exact HF|]. intros k n n' _ _ (_ & _ & ->). done. }
      destruct Hq as [|Hq]; [by left|right]. intros k. destruct (decide (length (sg_ns g) <= k)%nat) as [?|Hlt]; [auto|].
      destruct (lookup_lt_is_Some_2 (sg_ns g) k) as (n & Hn); [lia|]. eapply Hz; eauto. left.
      by eapply (Forall_lookup_1 _ _ _ _ HF).
    + destruct Hst as (HF & ?). split; [|done]. eapply Hall; [exact HF|]. intros k n n' _ _ (_ & _ & ->). done.
    + destruct Hst as (? & HF). split; [done|]. eapply Hall; [exact HF|]. intros k n n' _ _ (_ & _ & ->). done.
    + destruct Hst as (? & ? & HF). split; [auto|]. split; [done|]. eapply Hall; [exact HF|].
      intros k n n' Hn Hn' (_ & _ & Hx) Himp Hna. rewrite Hx in Hna. eauto.
Qed.

Lemma Forall2_insert_same k n n' l :
  l !! k = Some n -> same_but_io n n' -> Forall2 same_but_io l (<[k := n']> l).
Proof.
  intros Hk Hs. rewrite <- (list_insert_id l k n Hk) at 1. apply Forall2_insert; [|done]. reflexivity.
Qed.

Lemma counted_io_slot k r : counted_io k r = true -> ns_slot r = k /\ has_sgroup r = true /\ is_mgmt r = false.
Proof.
  unfold counted_io. intros H. apply andb_true_iff in H as (H & Hk). apply andb_true_iff in H as (Hs & Hm).
  apply Nat.eqb_eq in Hk. by rewrite negb_true_iff in Hm.
Qed.

Lemma aer_is_mgmt r : is_aer r = true -> q_admin r = true -> is_mgmt r = true.
Proof. intros _ H. unfold is_mgmt. rewrite H. apply orb_true_r. Qed.

(** A request in flight leaves the counts. *)
Section leave.
Context (nss : list (option sub_ns)) (g : sgroup) (r : sreq) (l : list sreq).
Context (Hg : gcore nss g) (Hp : sg_out g ≡ₚ r :: l).

Lemma leave_cnt p : cnt p (sg_out g) = (if p r then 1 else 0) + cnt p l.
Proof using Hp. by rewrite Hp. Qed.

Lemma leave_zero p : cnt p (sg_out g) = 0 -> cnt p l = 0.
Proof using Hp. rewrite leave_cnt. pose proof (cnt_bounds p l). destruct (p r); lia. Qed.

Lemma leave_length : length (sg_out g) = S (length l).
Proof using Hp. by rewrite Hp. Qed.

Lemma leave_wrap p : p r = true -> u64 (cnt p (sg_out g) - 1) = cnt p l.
Proof using Hg Hp.
  intros Hpr. rewrite leave_cnt, Hpr. pose proof (cnt_bounds p l). pose proof (gc_bound _ _ Hg) as Hb.
  rewrite leave_length in Hb. rewrite wrap_small; lia.
Qed.

Lemma leave_core g' :
  sg_state g' = sg_state g -> sg_cb g' = sg_cb g -> sg_removals g' = sg_removals g ->
  sg_queued g' = sg_queued g -> sg_out g' = l ->
  Forall2 same_but_io (sg_ns g) (sg_ns g') ->
  mgmt_io_outstanding g' = cnt counted_mgmt l ->
  (forall k n, sg_ns g' !! k = Some n -> io_outstanding n = cnt (counted_io k) l) ->
  gcore nss g'.
Proof using Hg Hp.
  intros Es Ecb Er Eq Eo Hns Hm Hio. apply (gcore_counts _ g); rewrite ?Eo, ?Eq; auto.
  - pose proof (gc_aer _ _ Hg) as Ha. rewrite Hp in Ha. by inversion Ha.
  - pose proof (gc_bound _ _ Hg) as Hb. rewrite leave_length in Hb. lia.
  - intros k Hk. apply leave_zero. by apply (gc_out _ _ Hg).
  - intros Hx. pose proof (gc_state _ _ Hg) as Hst. unfold state_inv in Hst. rewrite Hx in Hst.
    rewrite Hm. apply leave_zero. rewrite <- (gc_mgmt _ _ Hg). apply Hst.
  - intros k n _ _. apply leave_zero.
Qed.

Lemma leave_mgmt : is_aer r = true -> is_mgmt r = true.
Proof using Hg Hp.
  intros Ha. apply aer_is_mgmt; [done|]. pose proof (gc_aer _ _ Hg) as Hall.
  rewrite Hp in Hall. inversion Hall; auto.
Qed.

Lemma complete_core : gcore nss (dec_sg r (with_out l g)).
Proof using Hg Hp.
  pose proof (gc_io _ _ Hg) as Hio. pose proof (gc_mgmt _ _ Hg) as Hm. unfold dec_sg.
  destruct (has_sgroup r && negb (is_aer r)) eqn:Hcase; [|apply leave_core; try done; cbn].
  - apply andb_true_iff in Hcase as (Hsg & Hna). destruct (is_mgmt r) eqn:Hmg.
    + apply leave_core; try done; cbn.
      * rewrite Hm. apply leave_wrap. unfold counted_mgmt. by rewrite Hsg, Hmg, Hna.
      * intros k n Hn. rewrite (Hio _ _ Hn), leave_cnt. unfold counted_io at 1. by rewrite Hmg, andb_false_r.
    + cbn [with_out sg_ns]. destruct (sg_ns g !! ns_slot r) as [n|] eqn:Hn; apply leave_core; try done; cbn.
      * by eapply Forall2_insert_same.
      * rewrite Hm, leave_cnt. unfold counted_mgmt at 1. by rewrite Hmg, andb_false_r.
      * intros k n' Hk. apply list_lookup_insert_Some in Hk as [(<- & <- & _)|(Hne & Hk)]; cbn.
        -- rewrite (Hio _ _ Hn). apply leave_wrap. unfold counted_io. by rewrite Hsg, Hmg, Nat.eqb_refl.
        -- rewrite (Hio _ _ Hk), leave_cnt. unfold counted_io at 1. apply Nat.eqb_neq in Hne.
           by rewrite Hne, andb_false_r.
      * rewrite Hm, leave_cnt. unfold counted_mgmt at 1. by rewrite Hmg, andb_false_r.
      * intros k n' Hk. rewrite (Hio _ _ Hk), leave_cnt. destruct (counted_io k r) eqn:Hc; [|done].
        apply counted_io_slot in Hc as (<- & _). congruence.
  - rewrite Hm, leave_cnt. unfold counted_mgmt at 1. apply andb_false_iff in Hcase as [->| ->]; [done|].
    by rewrite andb_false_r.
  - intros k n Hk. rewrite (Hio _ _ Hk), leave_cnt. unfold counted_io at 1.
    apply andb_false_iff in Hcase as [->|Hna]; [done|]. rewrite negb_false_iff in Hna.
    by rewrite (leave_mgmt Hna), andb_false_r.
Qed.
End leave.

(** What the invariant of a change needs to know of a group. *)
Definition alike (g g' : sgroup) : Prop :=
  sg_removals g' = sg_removals g /\
  forall k n', sg_ns g' !! k = Some n' -> exists n, sg_ns g !! k = Some n /\ ni_state n = ni_state n'.

Lemma alike_refl g g' : sg_removals g' = sg_removals g -> sg_ns g' = sg_ns g -> alike g g'.
Proof. intros ? Hns. split; [done|]. intros k n. rewrite Hns. eauto. Qed.

Lemma alike_trans g1 g2 g3 : alike g1 g2 -> alike g2 g3 -> alike g1 g3.
Proof.
  intros (Hr & Hs) (Hr' & Hs'). split; [congruence|]. intros k n Hn.
  destruct (Hs' _ _ Hn) as (n2 & Hn2 & ?), (Hs _ _ Hn2) as (n1 & ? & ?). exists n1. split; [done|congruence].
Qed.

Lemma alike_scope nsid g g' : alike g g' -> scope nsid g -> scope nsid g'.
Proof.
  intros (_ & Hs) Hsc k n Hn Hc. destruct (Hs _ _ Hn) as (n0 & Hn0 & <-). eauto.
Qed.

Lemma dec_sg_alike r g : alike g (dec_sg r g).
Proof.
  unfold dec_sg. repeat case_match; try by apply alike_refl. split; [done|]. cbn. intros k n' Hk.
  apply list_lookup_insert_Some in Hk as [(<- & <- & _)|(_ & Hk)]; eauto.
Qed.

Lemma dec_sg_other r g :
  sg_state (dec_sg r g) = sg_state g /\ sg_queued (dec_sg r g) = sg_queued g /\
  sg_out (dec_sg r g) = sg_out g /\ sg_cb (dec_sg r g) = sg_cb g.
Proof. unfold dec_sg. by repeat case_match. Qed.

(** The end of the pause of a group whose requests are gone. *)
Lemma end_pause_inv nss g : gcore nss g -> quiescent g = true -> ginv nss (end_pause g).
Proof.
  intros [Hm Hio Ha Hb Hl Ho Hs Hst] Hq. apply andb_true_iff in Hq as (Hq & Hqn).
  apply andb_true_iff in Hq as (Hx & Hz). apply bool_decide_eq_true in Hx. apply Z.eqb_eq in Hz.
  split; [|done]. split; try done. unfold state_inv in *. rewrite Hx in Hst. cbn.
  split; [done|]. split; [done|]. destruct Hst as (_ & HF). apply Forall_lookup. intros k n Hn Hna.
  destruct (Forall_lookup_1 _ _ _ _ HF Hn) as [?|Hpg]; [done|].
  apply forallb_forall with (x := n) in Hqn; [|by eapply list_elem_of_In, list_elem_of_lookup_2].
  rewrite bool_decide_true in Hqn; [|done]. cbn in Hqn. rewrite negb_true_iff in Hqn. apply Z.ltb_ge in Hqn.
  rewrite (Hio _ _ Hn) in *. pose proof (cnt_bounds (counted_io k) (sg_out g)). lia.
Qed.

Lemma gcore_positive nss g r : gcore nss g -> r ∈ sg_out g -> counted_mgmt r = true -> 0 < mgmt_io_outstanding g.
Proof.
  intros Hg Hr Hc. rewrite (gc_mgmt _ _ Hg). pose proof (cnt_bounds counted_mgmt (sg_out g)).
  destruct (decide (cnt counted_mgmt (sg_out g) = 0)) as [H0|]; [|lia].
  rewrite (cnt_zero _ _ _ H0 Hr) in Hc. done.
Qed.

(** A request in flight completes: the group stays as it is, or its pause ends. *)
Lemma wp_complete_inv nss t i g r :
  (i < length (t_groups t))%nat -> ginv nss g -> r ∈ sg_out g ->
  (sg_state g = SPDK_NVMF_SUBSYSTEM_PAUSING -> called t i) ->
  wp (_nvmf_request_complete i r)
    (fun _ t' => exists g', sg_out g ≡ₚ r :: sg_out g' /\ sg_queued g' = sg_queued g /\ alike g g' /\ ginv nss g' /\
       (sg_state g' = sg_state g /\ t' = at_sg (log_completed (q_id r) t) i g' \/
        sg_state g = SPDK_NVMF_SUBSYSTEM_PAUSING /\ sg_state g' = SPDK_NVMF_SUBSYSTEM_PAUSED /\
        t' = at_sg (advance 0 (log_completed (q_id r) t)) i g'))
    (at_sg t i g).
Proof.
  intros Hi (Hg & Hq) Hr Hcall. destruct (tailq_remove_perm _ _ Hr) as (l & Hl & Hp).
  pose proof (complete_core _ _ _ _ Hg Hp) as Hg'. set (g' := dec_sg r (with_out l g)) in *.
  assert (Ha : alike g g') by (eapply alike_trans; [|apply dec_sg_alike]; by apply alike_refl).
  destruct (dec_sg_other r (with_out l g)) as (Hx & Hqu & Ho & Hcb). fold g' in Hx, Hqu, Ho, Hcb. cbn in Hx, Hqu, Ho, Hcb.
  eapply wp_complete; [done|done|by apply (gcore_positive nss)|]. fold g'.
  destruct (has_sgroup r && negb (is_aer r) && quiescent g') eqn:Hcase.
  - apply andb_true_iff in Hcase as (_ & Hqs). pose proof Hqs as Hst. unfold quiescent in Hst.
    rewrite !andb_true_iff, bool_decide_eq_true in Hst. destruct Hst as ((Hst & _) & _).
    pose proof (gc_state _ _ Hg') as Hsi. unfold state_inv in Hsi. rewrite Hst in Hsi.
    split; [rewrite <- Hcb; apply Hsi|]. split; [apply Hcall; congruence|].
    exists (end_pause g'). cbn. rewrite Ho. split; [done|]. split; [done|]. split; [done|].
    split; [by apply end_pause_inv|]. right. by rewrite <- Hx.
  - exists g'. rewrite Ho. split; [done|]. split; [done|]. split; [done|]. split; [|by left].
    split; [done|]. apply andb_false_iff in Hcase as [Hcase|]; [|done].
    unfold g', dec_sg. rewrite Hcase. exact Hq.
Qed.
