(* ===== verification/SubsysExec.v ===== *)
(** * Execution of a request at a poll group

    The three outcomes of spdk_nvmf_request_exec, each of which keeps the
    invariant of the group; a group that is resumed releases its whole queue. *)

From S2P Require Import Prelude NvmfBdev Subsys SubsysInv SubsysReq.

(** The counts before a request is executed. *)
Definition inc_raw (r : sreq) (g : sgroup) : sgroup :=
  if negb (has_sgroup r) then g
  else if is_mgmt r then with_mgmt (u64 (mgmt_io_outstanding g + 1)) g
  else match sg_ns g !! ns_slot r with
       | Some n => with_ns (<[ns_slot r := with_io (u64 (io_outstanding n + 1)) n]> (sg_ns g)) g
       | None => g
       end.

(** Asynchronous event requests are not counted. *)
Definition inc_sg (r : sreq) (g : sgroup) : sgroup := if is_aer r then g else inc_raw r g.

(** The group admits the request. *)
Definition admitted (r : sreq) (g : sgroup) : Prop :=
  has_sgroup r = true ->
  if is_mgmt r then sg_state g = SPDK_NVMF_SUBSYSTEM_ACTIVE
  else exists n, sg_ns g !! ns_slot r = Some n /\ ni_channel n = true /\ ni_state n = SPDK_NVMF_SUBSYSTEM_ACTIVE.

Inductive exec_outcome (x : subsystem_state) (r : sreq) (g : sgroup) : bool -> sgroup -> Prop :=
  | eo_done l : l ≡ₚ sg_out g -> exec_outcome x r g true (with_out l g)
  | eo_started :
      admitted r g ->
      exec_outcome x r g false (with_out (sg_out g ++ [r]) (inc_sg r g))
  | eo_queued l :
      l ≡ₚ sg_out g -> (sg_state g <> SPDK_NVMF_SUBSYSTEM_ACTIVE \/ connect_not_ready x = true) ->
      exec_outcome x r g false (with_sg_queued (sg_queued g ++ [r]) (with_out l g)).

Definition exec_post (t : tst) (i : nat) (r : sreq) (g : sgroup) (_ : unit) (t' : tst) : Prop :=
  exists c g', exec_outcome (t_state t) r g c g' /\ t' = at_sg (if c then log_completed (q_id r) t else t) i g'.

Lemma ginv_counts nss g : ginv nss g -> Z.of_nat (length (sg_out g)) + 1 < 2 ^ 64 ->
  0 <= mgmt_io_outstanding g < 2 ^ 64 - 1 /\
  forall k n, sg_ns g !! k = Some n -> 0 <= io_outstanding n < 2 ^ 64 - 1.
Proof.
  intros (Hg & _) Hb. split.
  - rewrite (gc_mgmt _ _ Hg). pose proof (cnt_bounds counted_mgmt (sg_out g)). lia.
  - intros k n Hn. rewrite (gc_io _ _ Hg _ _ Hn). pose proof (cnt_bounds (counted_io k) (sg_out g)). lia.
Qed.

Lemma u64_inc_dec x : 0 <= x < 2 ^ 64 - 1 -> u64 (u64 (x + 1) - 1) = x.
Proof. intros H. rewrite (wrap_small 64 (x + 1)), wrap_small; lia. Qed.

Lemma inc_raw_other r g :
  sg_state (inc_raw r g) = sg_state g /\ sg_queued (inc_raw r g) = sg_queued g /\
  sg_out (inc_raw r g) = sg_out g /\ sg_cb (inc_raw r g) = sg_cb g.
Proof. unfold inc_raw. by repeat case_match. Qed.

Lemma inc_raw_out r g : sg_out (inc_raw r g) = sg_out g.
Proof. apply inc_raw_other. Qed.

Section exec.
Context (nss : list (option sub_ns)) (t : tst) (i : nat) (g : sgroup) (r : sreq).
Context (Hi : (i < length (t_groups t))%nat) (Hg : ginv nss g).
Context (Hb : Z.of_nat (length (sg_out g)) + 1 < 2 ^ 64).

Lemma dec_inc l l' :
  is_aer r = false -> dec_sg r (with_out l (with_out l' (inc_raw r g))) = with_out l g.
Proof using Hg Hb.
  intros Ha. destruct (ginv_counts _ _ Hg Hb) as (Hm & Hio). unfold dec_sg, inc_raw. rewrite Ha, andb_true_r.
  destruct (has_sgroup r); cbn [negb]; [|done]. destruct (is_mgmt r).
  - cbn. rewrite u64_inc_dec; [|done]. done.
  - destruct (sg_ns g !! ns_slot r) as [n|] eqn:Hn; cbn; [|by rewrite Hn].
    rewrite list_lookup_insert_eq; [|by eapply lookup_lt_Some]. cbn.
    rewrite list_insert_insert_eq, u64_inc_dec; [|by eapply Hio].
    unfold with_ns, with_out, with_io. cbn. rewrite list_insert_id; [done|]. rewrite Hn. by destruct n.
Qed.

(** A request that completes at once leaves the group as it was. *)
Lemma wp_complete_back h :
  sg_out h = sg_out g ++ [r] ->
  (forall l, dec_sg r (with_out l h) = with_out l g) ->
  (counted_mgmt r = true -> 0 < mgmt_io_outstanding h) ->
  wp (_nvmf_request_complete i r) (exec_post t i r g) (at_sg t i h).
Proof using Hg Hi Hb.
  intros Ho Hd Hm. assert (Hr : r ∈ sg_out h) by (rewrite Ho; apply elem_of_app; right; left).
  destruct (tailq_remove_perm _ _ Hr) as (l & Hl & Hp). eapply wp_complete; [done|done|done|].
  rewrite Hd. assert (Hq : quiescent (with_out l g) = false) by apply Hg.
  rewrite Hq, andb_false_r. exists true, (with_out l g). split; [|done]. apply eo_done.
  rewrite Ho in Hp. apply (Permutation_cons_inv (a := r)). rewrite <- Hp. symmetry. apply Permutation_cons_append.
Qed.

Lemma wp_complete_after :
  is_aer r = false ->
  wp (_nvmf_request_complete i r) (exec_post t i r g) (at_sg t i (with_out (sg_out g ++ [r]) (inc_raw r g))).
Proof using Hg Hi Hb.
  intros Ha. destruct (ginv_counts _ _ Hg Hb) as (Hm & Hio).
  apply wp_complete_back; [done| |].
  - intros l. by apply dec_inc.
  - unfold counted_mgmt, inc_raw. intros Hc. rewrite !andb_true_iff in Hc. destruct Hc as ((-> & ->) & _).
    cbn. rewrite wrap_small; lia.
Qed.

Lemma wp_check_active Q :
  (is_aer r = true -> q_admin r = true) ->
  (admitted r g -> Q true (at_sg t i (inc_raw r g))) ->
  (forall t', exec_post t i r g tt t' -> Q false t') ->
  wp (nvmf_check_subsystem_active i r) Q (at_sg t i g).
Proof using Hg Hi Hb.
  intros Haer Ht Hf. unfold nvmf_check_subsystem_active. unfold admitted in Ht.
  destruct (has_sgroup r) eqn:Hs; cbn [negb].
  2: { apply wp_ret. specialize (Ht ltac:(done)). unfold inc_raw in Ht. by rewrite Hs in Ht. }
  assert (Hqueue : (sg_state g <> SPDK_NVMF_SUBSYSTEM_ACTIVE) -> exec_post t i r g tt
    (at_sg t i (with_sg_queued (sg_queued g ++ [r]) g))).
  { intros Hna. exists false, (with_sg_queued (sg_queued g ++ [r]) (with_out (sg_out g) g)).
    split; [apply eo_queued; auto|done]. }
  gsteps. destruct (is_mgmt r) eqn:Hm.
  - case_bool_decide as Hx; cbn [negb]; gsteps.
    + unfold inc_raw in Ht. rewrite Hs, Hm in Ht. cbn [negb] in Ht. auto.
    + unfold enqueue. gsteps. auto.
  - assert (Ha : is_aer r = false).
    { destruct (is_aer r) eqn:Ha; [|done]. rewrite (aer_is_mgmt r) in Hm; auto. }
    assert (Hraw : inc_raw r g = match sg_ns g !! ns_slot r with
       | Some n => with_ns (<[ns_slot r := with_io (u64 (io_outstanding n + 1)) n]> (sg_ns g)) g
       | None => g end) by (unfold inc_raw; by rewrite Hs, Hm).
    pose proof (wp_complete_after Ha) as Hc. rewrite Hraw in Hc, Ht.
    destruct (sg_ns g !! ns_slot r) as [n|] eqn:Hn.
    + destruct (ni_channel n) eqn:Hch; cbn [negb].
      * case_bool_decide as Hx; cbn [negb]; gsteps; [apply Ht; eauto|]. unfold enqueue. gsteps. apply Hf, Hqueue.
        intros Hact. destruct Hg as (Hgc & _). pose proof (gc_state _ _ Hgc) as Hst. unfold state_inv in Hst.
        rewrite Hact in Hst. destruct Hst as (HF & _). by rewrite (Forall_lookup_1 _ _ _ _ HF Hn) in Hx.
      * unfold put_out. gsteps. eapply wp_mono; [exact Hc|]. intros [] t' Hp. apply wp_ret, Hf, Hp.
    + unfold put_out. gsteps. eapply wp_mono; [exact Hc|]. intros [] t' Hp. apply wp_ret, Hf, Hp.
Qed.

(** The handler has run: the request is in flight, or completes. *)
Definition handled (st : exec_status) (t' : tst) : Prop :=
  match st with
  | COMPLETE => wp (_nvmf_request_complete i r) (exec_post t i r g) t'
  | ASYNCHRONOUS => exec_post t i r g tt t'
  end.

Definition in_flight : sgroup := with_out (sg_out g ++ [r]) (inc_raw r g).

Lemma handled_plain st : is_aer r = false -> admitted r g -> handled st (at_sg t i in_flight).
Proof using Hg Hi Hb.
  intros Ha Had. destruct st; [by apply wp_complete_after|]. exists false, in_flight. split; [|done].
  unfold in_flight. replace (inc_raw r g) with (inc_sg r g); [by apply eo_started|]. unfold inc_sg. by rewrite Ha.
Qed.

Lemma handled_aer st : is_aer r = true -> admitted r g -> handled st (at_sg t i (with_out (sg_out g ++ [r]) g)).
Proof using Hg Hi Hb.
  intros Ha Had. destruct st.
  - apply wp_complete_back.
    + done.
    + intros l. unfold dec_sg. by rewrite Ha, andb_false_r.
    + unfold counted_mgmt. by rewrite Ha, andb_false_r.
  - exists false, (with_out (sg_out g ++ [r]) g). split; [|done].
    assert (He : inc_sg r g = g) by (unfold inc_sg; by rewrite Ha).
    pose proof (eo_started (t_state t) r g Had) as Ho. by rewrite He in Ho.
Qed.

Lemma inc_raw_mgmt :
  has_sgroup r = true -> is_mgmt r = true -> inc_raw r g = with_mgmt (u64 (mgmt_io_outstanding g + 1)) g.
Proof. intros Hs Hm. unfold inc_raw. by rewrite Hs, Hm. Qed.

Lemma wp_connect res :
  admitted r g -> nvmf_request_is_fabric_connect r = true ->
  wp (nvmf_ctrlr_cmd_connect i r res) handled (at_sg t i in_flight).
Proof using Hg Hi Hb.
  intros Had Hc. assert (Hop : q_opc r = SPDK_NVME_OPC_FABRIC).
  { apply andb_true_iff in Hc as (Hc & _). by apply Z.eqb_eq. }
  assert (Ha : is_aer r = false) by (unfold is_aer; rewrite Hop; apply andb_false_r).
  assert (Hm : is_mgmt r = true) by (unfold is_mgmt; by rewrite Hop).
  unfold nvmf_ctrlr_cmd_connect. destruct (_ <? _); [gsteps; by apply handled_plain|].
  destruct (q_connect_ok r) eqn:Hok; cbn [negb]; [|gsteps; by apply handled_plain].
  wstep. wstep. cbn [t_state at_sg set_groups]. destruct (connect_not_ready (t_state t)) eqn:Hnr;
    [|gsteps; by apply handled_plain].
  assert (Hs : has_sgroup r = true) by (unfold has_sgroup; rewrite Hc, Hok; apply orb_true_r).
  destruct (ginv_counts _ _ Hg Hb) as (Hmb & _).
  unfold in_flight. rewrite (inc_raw_mgmt Hs Hm). gsteps.
  cbn [with_out mgmt_io_outstanding with_mgmt]. rewrite u64_inc_dec; [|done].
  destruct (tailq_remove_perm r (sg_out g ++ [r])) as (l & Hl & Hp); [apply elem_of_app; right; left|].
  eapply wp_take_out; [done|exact Hl|]. unfold enqueue. gsteps.
  exists false, (with_sg_queued (sg_queued g ++ [r]) (with_out l g)). split; [|done].
  apply eo_queued; [|by right]. apply (Permutation_cons_inv (a := r)). rewrite <- Hp. symmetry. apply Permutation_cons_append.
Qed.

Lemma wp_process E res :
  req_ok E r = true -> qpair_admits (fst (e_exec E (q_id r))) r = true -> admitted r g ->
  wp (process_cmd i r res) handled (at_sg t i in_flight).
Proof using Hg Hi Hb.
  intros Hok Hq Had. unfold req_ok in Hok. rewrite Hq in Hok. cbn [negb orb] in Hok.
  apply andb_true_iff in Hok as (Hc & Haer). unfold process_cmd.
  destruct (q_opc r =? SPDK_NVME_OPC_FABRIC) eqn:Hop.
  - assert (Ha : is_aer r = false).
    { unfold is_aer. apply Z.eqb_eq in Hop. rewrite Hop. apply andb_false_r. }
    unfold nvmf_ctrlr_process_fabrics_cmd. destruct (q_ctrlr r); cbn [negb orb] in *; [gsteps; by apply handled_plain|].
    apply wp_bind, wp_assert; [by apply andb_true_iff in Hc as (_ & ?)|]. by apply wp_connect.
  - assert (Hctl : q_ctrlr r = true).
    { apply orb_true_iff in Hc as [|Hc]; [done|]. unfold nvmf_request_is_fabric_connect in Hc. by rewrite Hop in Hc. }
    destruct (q_admin r) eqn:Had'.
    + unfold nvmf_ctrlr_process_admin_cmd. apply wp_bind, wp_assert; [done|]. wstep.
      destruct (q_opc r =? SPDK_NVME_OPC_ASYNC_EVENT_REQUEST) eqn:Hae.
      * assert (Ha : is_aer r = true) by (unfold is_aer; by rewrite Hctl, Hae).
        destruct (ginv_counts _ _ Hg Hb) as (Hmb & _). unfold in_flight. rewrite inc_raw_mgmt;
          [|unfold has_sgroup; by rewrite Hctl|by apply aer_is_mgmt].
        gsteps. cbn [with_out mgmt_io_outstanding with_mgmt]. rewrite u64_inc_dec; [|done].
        by apply (handled_aer res).
      * gsteps. apply handled_plain; [|done]. unfold is_aer. rewrite Hae. apply andb_false_r.
    + unfold nvmf_ctrlr_process_io_cmd. apply wp_bind, wp_assert; [done|]. gsteps. apply handled_plain; [|done].
      destruct (is_aer r); [done|done].
Qed.

(** What executing a request does to its group. *)
Lemma wp_exec E : req_ok E r = true -> wp (spdk_nvmf_request_exec E i r) (exec_post t i r g) (at_sg t i g).
Proof using Hg Hi Hb.
  intros Hok. assert (Haer : is_aer r = true -> q_admin r = true /\ qpair_admits (fst (e_exec E (q_id r))) r = true).
  { intros Ha. unfold req_ok in Hok. rewrite Ha in Hok. apply andb_true_iff in Hok as (_ & Hok).
    apply andb_true_iff in Hok as (? & Hq). split; [done|]. by destruct (fst _). }
  apply wp_bind, wp_check_active; [intros Ha; by destruct (Haer Ha)| |].
  2: { intros t' Hp. cbn [negb]. by apply wp_ret. }
  intros Had. cbn [negb]. apply wp_bind. unfold nvmf_check_qpair_active.
  destruct (qpair_admits (fst (e_exec E (q_id r))) r) eqn:Hq.
  - gsteps. cbn [negb]. unfold put_out. gsteps.
    rewrite inc_raw_out. fold in_flight. eapply wp_mono; [by eapply (wp_process E)|].
    intros st t' Hh. destruct st; [exact Hh|by apply wp_ret].
  - unfold put_out. gsteps. rewrite inc_raw_out. eapply wp_mono; [apply wp_complete_after|].
    + destruct (is_aer r); [|done]. destruct Haer as (_ & ?); [done|congruence].
    + intros [] t' Hp. apply wp_ret. cbn [negb]. by apply wp_ret.
Qed.
End exec.

(** ** The outcomes keep the invariant *)

Lemma gcore_perm nss g l q :
  gcore nss g -> l ≡ₚ sg_out g -> Z.of_nat (length l + length q) < 2 ^ 64 ->
  gcore nss (with_sg_queued q (with_out l g)).
Proof.
  intros Hg Hp Hb. apply (gcore_counts _ g); cbn; try done.
  - rewrite Hp. apply Hg.
  - intros k n Hn. rewrite Hp. by apply Hg.
  - rewrite Hp. apply Hg.
  - intros k Hk. rewrite Hp. by apply Hg.
  - intros Hx. pose proof (gc_state _ _ Hg) as Hst. unfold state_inv in Hst. rewrite Hx in Hst. apply Hst.
  - intros k n _ _. by rewrite Hp.
Qed.

Section started.
Context (nss : list (option sub_ns)) (g : sgroup) (r : sreq).
Context (Hg : ginv nss g) (Had : admitted r g) (Haer : is_aer r = true -> q_admin r = true).
Context (Hb : Z.of_nat (length (sg_out g) + length (sg_queued g)) + 1 < 2 ^ 64).

Lemma inc_mgmt :
  mgmt_io_outstanding (inc_sg r g) = mgmt_io_outstanding g + (if counted_mgmt r then 1 else 0).
Proof using Hg Hb.
  clear Haer Had. destruct (ginv_counts _ _ Hg ltac:(lia)) as (Hm & _). unfold inc_sg, counted_mgmt, inc_raw.
  destruct (is_aer r), (has_sgroup r), (is_mgmt r); cbn; try lia; [rewrite wrap_small; lia|].
  destruct (sg_ns g !! ns_slot r); cbn; lia.
Qed.

(** Only a slot that admits I/O is counted. *)
Lemma inc_ns k n :
  sg_ns (inc_sg r g) !! k = Some n ->
  exists m, sg_ns g !! k = Some m /\ same_but_io m n /\
    io_outstanding n = io_outstanding m + (if counted_io k r then 1 else 0) /\
    (counted_io k r = true -> ni_state m = SPDK_NVMF_SUBSYSTEM_ACTIVE /\ ni_channel m = true).
Proof using Hg Hb Had Haer.
  destruct (ginv_counts _ _ Hg ltac:(lia)) as (_ & Hio). intros Hk.
  destruct (counted_io k r) eqn:Hc.
  - apply counted_io_slot in Hc as (<- & Hs & Hm). unfold admitted in Had. rewrite Hm in Had.
    destruct (Had Hs) as (m & Hm' & Hch & Hx). unfold inc_sg, inc_raw in Hk. rewrite Hs, Hm, Hm' in Hk.
    destruct (is_aer r) eqn:Ha; [rewrite (aer_is_mgmt r) in Hm; auto; done|].
    cbn in Hk. rewrite list_lookup_insert_eq in Hk; [|by eapply lookup_lt_Some]. injection Hk as <-.
    exists m. cbn. specialize (Hio _ _ Hm'). rewrite wrap_small; [done|lia].
  - exists n. rewrite Z.add_0_r. split; [|done]. revert Hk. unfold inc_sg, inc_raw.
    destruct (is_aer r); [done|]. destruct (has_sgroup r) eqn:Hs; [|done]. destruct (is_mgmt r) eqn:Hm; [done|].
    destruct (sg_ns g !! ns_slot r) as [m|] eqn:Hm'; [|done]. cbn.
    assert (Hne : ns_slot r <> k).
    { intros <-. unfold counted_io in Hc. by rewrite Hs, Hm, Nat.eqb_refl in Hc. }
    by rewrite list_lookup_insert_ne.
Qed.

Lemma inc_other :
  sg_state (inc_sg r g) = sg_state g /\ sg_queued (inc_sg r g) = sg_queued g /\ sg_cb (inc_sg r g) = sg_cb g /\
  sg_removals (inc_sg r g) = sg_removals g /\ length (sg_ns (inc_sg r g)) = length (sg_ns g).
Proof using. clear. unfold inc_sg, inc_raw. repeat case_match; cbn; rewrite ?length_insert; done. Qed.

Lemma inc_out_of_range k : (length (sg_ns g) <= k)%nat -> counted_io k r = false.
Proof using Had.
  clear Hb. intros Hk. destruct (counted_io k r) eqn:Hc; [|done]. apply counted_io_slot in Hc as (<- & Hs & Hm).
  unfold admitted in Had. rewrite Hm in Had. destruct (Had Hs) as (n & Hn & _).
  apply lookup_lt_Some in Hn. lia.
Qed.

Lemma started_core : gcore nss (with_out (sg_out g ++ [r]) (inc_sg r g)).
Proof using Hg Hb Had Haer.
  destruct inc_other as (Hx & Hq & Hcb & Hr & Hlen). destruct Hg as (Hgc & _).
  assert (Hcnt : forall p, cnt p (sg_out g ++ [r]) = cnt p (sg_out g) + (if p r then 1 else 0)).
  { intros p. rewrite cnt_app. cbn. lia. }
  apply (gcore_counts _ g); cbn; try done.
  - apply Forall2_same_length_lookup_2; [done|]. intros k m n Hm Hn. destruct (inc_ns _ _ Hn) as (m' & Hm' & ? & _).
    congruence.
  - rewrite inc_mgmt, (gc_mgmt _ _ Hgc), Hcnt. done.
  - intros k n Hn. destruct (inc_ns _ _ Hn) as (m & Hm & _ & -> & _). by rewrite (gc_io _ _ Hgc _ _ Hm), Hcnt.
  - apply Forall_app. split; [apply Hgc|]. by constructor.
  - rewrite Hq, length_app. cbn. lia.
  - intros k Hk. rewrite Hcnt, (gc_out _ _ Hgc), inc_out_of_range; done.
  - intros Hp. rewrite inc_mgmt. pose proof (gc_state _ _ Hgc) as Hst. unfold state_inv in Hst. rewrite Hp in Hst.
    destruct Hst as (-> & _). unfold counted_mgmt, admitted in *. destruct (has_sgroup r); [|done].
    destruct (is_mgmt r); [|done]. rewrite Had in Hp; done.
  - intros k m Hm Hcl H0. rewrite Hcnt, H0.
    destruct (lookup_lt_is_Some_2 (sg_ns (inc_sg r g)) k) as (n & Hn);
      [rewrite Hlen; by eapply lookup_lt_Some|].
    destruct (inc_ns _ _ Hn) as (m' & Hm' & _ & _ & Hact). simplify_eq.
    destruct (counted_io k r); [|done]. destruct Hact as (? & ?); [done|]. destruct Hcl; congruence.
Qed.
End started.

(** The requests a group has. *)
Definition held (g : sgroup) : list nat := q_id <$> (sg_out g ++ sg_queued g).

Lemma started_waits nss g r :
  ginv nss g -> admitted r g -> (is_aer r = true -> q_admin r = true) ->
  Z.of_nat (length (sg_out g) + length (sg_queued g)) + 1 < 2 ^ 64 ->
  quiescent (with_out (sg_out g ++ [r]) (inc_sg r g)) = false.
Proof.
  intros Hg Had Haer Hb. destruct (quiescent (with_out _ _)) eqn:Hq; [|done].
  destruct (inc_other g r) as (Hx & _ & _ & _ & Hlen).
  destruct (ginv_counts _ _ Hg ltac:(lia)) as (Hm & _). pose proof Hg as (Hgc & Hnq).
  enough (quiescent g = true) by congruence.
  unfold quiescent in *. cbn in Hq. rewrite !andb_true_iff, Hx in Hq. destruct Hq as ((-> & Hz) & Hqn).
  apply Z.eqb_eq in Hz. rewrite (inc_mgmt _ _ _ Hg Hb) in Hz.
  replace (mgmt_io_outstanding g) with 0 by (destruct (counted_mgmt r); lia). cbn.
  apply forallb_forall. intros m Hin. apply list_elem_of_In, list_elem_of_lookup in Hin as (k & Hk).
  destruct (lookup_lt_is_Some_2 (sg_ns (inc_sg r g)) k) as (n & Hn); [rewrite Hlen; by eapply lookup_lt_Some|].
  destruct (inc_ns _ _ _ Hg Had Haer Hb _ _ Hn) as (m' & Hm' & (_ & _ & Hst) & Hio & _). simplify_eq.
  unfold ns_quiet in Hqn. rewrite forallb_forall in Hqn.
  specialize (Hqn n ltac:(by eapply list_elem_of_In, list_elem_of_lookup_2)). rewrite Hst in Hqn.
  destruct (bool_decide (ni_state m = _)); [|done]. cbn in *. rewrite negb_true_iff, Z.ltb_ge in *.
  destruct (counted_io k r); lia.
Qed.

Lemma exec_outcome_inv nss x E g r c g' :
  ginv nss g -> req_ok E r = true ->
  Z.of_nat (length (sg_out g) + length (sg_queued g)) + 1 < 2 ^ 64 ->
  exec_outcome x r g c g' ->
  ginv nss g' /\ alike g g' /\ sg_state g' = sg_state g /\
  q_id r :: held g ≡ₚ (if c then [q_id r] else []) ++ held g' /\
  (sg_queued g' = sg_queued g \/
   (sg_state g <> SPDK_NVMF_SUBSYSTEM_ACTIVE \/ connect_not_ready x = true)).
Proof.
  intros Hg Hok Hb Ho. assert (Haer : is_aer r = true -> q_admin r = true).
  { intros Ha. unfold req_ok in Hok. rewrite Ha in Hok. by apply andb_true_iff in Hok as (_ & (? & _)%andb_true_iff). }
  unfold held. destruct Ho as [l Hp|Had|l Hp Hwhy].
  - assert (Hgc : gcore nss (with_sg_queued (sg_queued g) (with_out l g))).
    { apply gcore_perm; [apply Hg|done|]. rewrite Hp. lia. }
    split; [split; [exact Hgc|apply Hg]|]. split; [by apply alike_refl|]. split; [done|].
    split; [cbn; by rewrite Hp|by left].
  - destruct (inc_other g r) as (Hx & Hq & _ & Hr & _).
    split; [split; [by apply started_core|by eapply started_waits]|]. split; [|split; [done|]].
    + split; [done|]. intros k n Hn. destruct (inc_ns _ _ _ Hg Had Haer Hb _ _ Hn) as (m & Hm & (_ & _ & Hs) & _). eauto.
    + split; [|by left]. cbn. rewrite Hq, !fmap_app. cbn. rewrite <- app_assoc. by apply Permutation_middle.
  - split; [split; [|apply Hg]|].
    { apply gcore_perm; [apply Hg|done|]. rewrite Hp, length_app. cbn. lia. }
    split; [by apply alike_refl|]. split; [done|]. split; [|by right].
    cbn. rewrite Hp, !fmap_app. cbn. rewrite app_assoc. apply Permutation_cons_append.
Qed.

(** ** The release of the queue *)

Definition log_all (cs : list nat) (t : tst) : tst :=
  Tst (t_state t) (t_ns t) (t_changes t) (t_phase t) (t_groups t) (t_done t) (t_completed t ++ cs) (t_freed t).

Lemma log_all_nil t : log_all [] t = t.
Proof. destruct t. unfold log_all. cbn. by rewrite app_nil_r. Qed.

Lemma log_all_cons (c : bool) r cs t :
  log_all cs (if c then log_completed r t else t) = log_all ((if c then [r] else []) ++ cs) t.
Proof. destruct t, c; [|done]. unfold log_all, log_completed. cbn. by rewrite <- app_assoc. Qed.

Lemma wp_release nss E i fuel : forall t g,
  (i < length (t_groups t))%nat -> ginv nss g -> sg_state g = SPDK_NVMF_SUBSYSTEM_ACTIVE ->
  connect_not_ready (t_state t) = false ->
  Forall (fun r => req_ok E r = true) (sg_queued g) -> (length (sg_queued g) <= fuel)%nat ->
  wp (release_queued fuel E i)
    (fun _ t' => exists cs g', t' = at_sg (log_all cs t) i g' /\ ginv nss g' /\
       sg_state g' = SPDK_NVMF_SUBSYSTEM_ACTIVE /\ sg_queued g' = [] /\ sg_removals g' = sg_removals g /\
       held g ≡ₚ cs ++ held g')
    (at_sg t i g).
Proof.
  induction fuel as [|fuel IH]; intros t g Hi Hg Hx Hr Hok Hf; cbn [release_queued];
    (apply wp_bind, wp_load; [done|]); destruct (sg_queued g) as [|r q] eqn:Hq; cbn [length] in Hf; try lia.
  1-2: apply wp_ret; exists [], g; rewrite log_all_nil; repeat (split; [done|]); done.
  inversion_clear Hok as [|? ? Hrq Hok'].
  set (g1 := with_sg_queued q g). assert (Hbd : Z.of_nat (length (sg_out g1) + length (sg_queued g1)) + 1 < 2 ^ 64).
  { destruct Hg as (Hgc & _). pose proof (gc_bound _ _ Hgc) as Hb. rewrite Hq in Hb. cbn in *. lia. }
  assert (Hg1 : ginv nss g1).
  { split; [|apply Hg]. change g1 with (with_sg_queued q (with_out (sg_out g) g)).
    apply gcore_perm; [apply Hg|done|]. cbn in Hbd. lia. }
  gsteps. fold g1. eapply wp_mono; [eapply wp_exec; [done|exact Hg1|lia|done]|].
  intros _ t' (c & g2 & Ho & ->).
  destruct (exec_outcome_inv _ _ _ _ _ _ _ Hg1 Hrq Hbd Ho) as (Hg2 & (Hrm & _) & Hx2 & Hheld & Hqq).
  destruct Hqq as [Hq2|[Hq2|Hq2]]; [|by destruct Hq2|congruence].
  assert (Hheld' : held g ≡ₚ (if c then [q_id r] else []) ++ held g2).
  { rewrite <- Hheld. unfold held. rewrite Hq. cbn. rewrite !fmap_app. cbn. symmetry. apply Permutation_middle. }
  destruct q as [|r' q]; cbn [g1 with_sg_queued sg_queued] in Hq2.
  - apply wp_ret. exists (if c then [q_id r] else []), g2. split; [|split; [done|split; [by rewrite Hx2|done]]].
    rewrite <- (app_nil_r (if c then [_] else _)), <- log_all_cons. by rewrite log_all_nil.
  - eapply wp_mono; [apply IH|].
    + by destruct c.
    + exact Hg2.
    + by rewrite Hx2.
    + by destruct c.
    + by rewrite Hq2.
    + rewrite Hq2. cbn [length] in *. lia.
    + intros _ t' (cs & g3 & -> & Hg3 & Hx3 & Hq3 & Hr3 & Hh3). exists ((if c then [q_id r] else []) ++ cs), g3.
      rewrite log_all_cons. split; [done|]. split; [done|]. split; [done|]. split; [done|].
      split; [by rewrite Hr3, Hrm|]. by rewrite Hheld', Hh3, app_assoc.
Qed.
