(* ===== verification/SubsysGroup.v ===== *)
(** * Operations on a poll group

    Adding a subsystem to a group, removing it, pausing and resuming it, and the
    update of the slots of its namespaces. *)

From S2P Require Import Prelude NvmfBdev Subsys SubsysInv SubsysReq SubsysExec.

(** ** The update of the slots *)

(** A slot that has been brought up to date. *)
Definition slot_fresh (ns : option sub_ns) (n : pg_ns_info) : Prop :=
  match ns with
  | Some s => ni_channel n = true /\ ni_uuid n = sn_uuid s
  | None => ni_channel n = false /\ io_outstanding n = 0
  end.

Definition upd_rel (n n' : pg_ns_info) : Prop :=
  io_outstanding n' = io_outstanding n /\
  (ni_state n' = ni_state n \/ ni_state n' = SPDK_NVMF_SUBSYSTEM_INACTIVE /\ io_outstanding n' = 0).

Lemma update_slot_ok ch ns n n' rc :
  slot_ok ns n -> update_slot ch ns n = (n', rc) ->
  upd_rel n n' /\ slot_ok ns n' /\ (rc = 0 -> slot_fresh ns n').
Proof.
  intros Hs Hu. unfold update_slot in Hu. destruct ns as [s|].
  - assert (Hagree : ni_channel n = true -> ni_uuid n <> sn_uuid s -> io_outstanding n = 0).
    { intros Hc Hne. destruct Hs as [(s' & [= <-] & Hs)|(H0 & _)]; [|done]. by rewrite Hc in Hs. }
    assert (Hfill : forall m x, io_outstanding m = io_outstanding n ->
      ni_state m = ni_state n \/ ni_state m = SPDK_NVMF_SUBSYSTEM_INACTIVE /\ io_outstanding m = 0 ->
      (NsInfo true (sn_uuid s) (sn_num_blocks s) (io_outstanding m) (ni_state m), x) = (n', rc) ->
      upd_rel n n' /\ slot_ok (Some s) n' /\ (rc = 0 -> slot_fresh (Some s) n')).
    { intros m x Hio Hst [= <- _]. split; [done|]. split; [|done]. left. by exists s. }
    destruct (ni_channel n) eqn:Hc; cbn [negb] in Hu.
    + destruct (ni_uuid n =? sn_uuid s) eqn:Hid; cbn [negb] in Hu; [eapply (Hfill n); eauto|].
      apply Z.eqb_neq in Hid. destruct ch; [eapply (Hfill ns_info0); eauto; by rewrite Hagree|].
      injection Hu as <- <-. split; [|split; [|by intros ?]]; [|by right; cbn; auto].
      split; [by rewrite Hagree|by right].
    + destruct ch; [eapply (Hfill n); eauto|]. injection Hu as <- <-.
      split; [by split; [|left]|]. split; [|by intros ?]. left. exists s. rewrite Hc. split; [done|].
      destruct Hs as [(s' & [= <-] & Hs)|(H0 & _)]; [by rewrite Hc in Hs|done].
  - injection Hu as <- <-. destruct Hs as [(? & ? & _)|(H0 & _)]; [done|].
    split; [by split; [|right]|]. split; [|done]. right. cbn. auto.
Qed.

Lemma update_slots_ok channel nss : forall k l l' rc,
  Forall2 slot_ok nss l -> update_slots channel k nss l = (l', rc) ->
  Forall2 upd_rel l l' /\ Forall2 slot_ok nss l' /\ (rc = 0 -> Forall2 slot_fresh nss l').
Proof.
  assert (Hrefl : forall l, Forall2 upd_rel l l).
  { intros l. induction l; constructor; [|done]. by split; [|left]. }
  induction nss as [|ns nss IH]; intros k l l' rc HF Hu; inversion HF as [|? n ? l0 Hs HF']; subst;
    cbn [update_slots] in Hu.
  - injection Hu as <- <-. split; [constructor|]. split; [constructor|]. constructor.
  - destruct (update_slot (channel k) ns n) as [n' rc1] eqn:H1.
    destruct (update_slot_ok _ _ _ _ _ Hs H1) as (Hr1 & Hs1 & Hf1). destruct (rc1 =? 0) eqn:Hz.
    + destruct (update_slots channel (S k) nss l0) as [l1 rc2] eqn:H2. injection Hu as <- <-.
      destruct (IH _ _ _ _ HF' H2) as (Hr2 & Hs2 & Hf2). apply Z.eqb_eq in Hz.
      split; [by constructor|]. split; [by constructor|]. intros H0. constructor; auto.
    + injection Hu as <- <-. apply Z.eqb_neq in Hz.
      split; [by constructor|]. split; [by constructor|]. done.
Qed.

Lemma gcore_slots nss g : gcore nss g -> length (sg_ns g) = length nss -> Forall2 slot_ok nss (sg_ns g).
Proof. intros Hg Hl. apply Forall2_same_length_lookup_2; [done|]. intros k ns n. apply Hg. Qed.

(** A group that is not active gets new slots. *)
Lemma core_with_ns nss g l :
  gcore nss g -> sg_state g = SPDK_NVMF_SUBSYSTEM_INACTIVE \/ sg_state g = SPDK_NVMF_SUBSYSTEM_PAUSED ->
  length l = length nss -> Forall2 slot_ok nss l ->
  (forall k n, l !! k = Some n -> io_outstanding n = cnt (counted_io k) (sg_out g)) ->
  (forall k n, l !! k = Some n -> ni_state n = SPDK_NVMF_SUBSYSTEM_INACTIVE /\ io_outstanding n = 0 \/
     exists m, sg_ns g !! k = Some m /\ ni_state n = ni_state m /\ io_outstanding n = io_outstanding m) ->
  gcore nss (with_ns l g).
Proof.
  intros [Hm Hio Ha Hb Hl Ho Hs Hst] Hx Hlen HF Hio' Hfrom. split; cbn; try done.
  - by right.
  - intros k Hk. apply Ho. destruct Hl as [->| ->]; [cbn; lia|lia].
  - intros k ns n Hns Hn. by eapply (Forall2_lookup_lr _ _ _ _ _ _ HF).
  - unfold state_inv in *. cbn. destruct Hx as [Hx|Hx]; rewrite Hx in *.
    + destruct Hst as (? & HI & ?). split; [done|]. split; [|done]. apply Forall_lookup. intros k n Hn.
      destruct (Hfrom _ _ Hn) as [(-> & _)|(m & Hm' & -> & _)]; [done|by eapply (Forall_lookup_1 _ _ _ _ HI)].
    + destruct Hst as (? & ? & HI). split; [done|]. split; [done|]. apply Forall_lookup. intros k n Hn Hna.
      destruct (Hfrom _ _ Hn) as [(_ & ->)|(m & Hm' & Hst & ->)]; [done|].
      eapply (Forall_lookup_1 _ _ _ _ HI); [done|]. by rewrite <- Hst.
Qed.

Definition update_post (nss : list (option sub_ns)) (t : tst) (i : nat) (g : sgroup) (rc : Z) (t' : tst) : Prop :=
  exists l, t' = at_sg t i (with_ns l g) /\ gcore nss (with_ns l g) /\ (rc = 0 -> Forall2 slot_fresh nss l).

Lemma resize_ok nss g ok l rc :
  gcore nss g -> resize_ns ok (length nss) (sg_ns g) = (l, rc) ->
  rc <> 0 /\ l = sg_ns g \/
  rc = 0 /\ length l = length nss /\ Forall2 slot_ok nss l /\
  forall k n, l !! k = Some n -> io_outstanding n = cnt (counted_io k) (sg_out g) /\
    (ni_state n = SPDK_NVMF_SUBSYSTEM_INACTIVE /\ io_outstanding n = 0 \/ sg_ns g !! k = Some n).
Proof.
  intros Hg. unfold resize_ns. destruct (gc_len _ _ Hg) as [Hnil|Hlen].
  - rewrite Hnil. cbn [length Nat.eqb]. destruct (_ && _); intros [= <- <-]; [by left|]. right.
    rewrite length_replicate. split; [done|]. split; [done|]. split.
    + apply Forall2_same_length_lookup_2; [by rewrite length_replicate|]. intros k ns n _ Hn.
      apply lookup_replicate in Hn as (-> & _). right. cbn. auto.
    + intros k n Hn. apply lookup_replicate in Hn as (-> & _). cbn. split; [|by left].
      rewrite (gc_out _ _ Hg); [done|]. rewrite Hnil. cbn. lia.
  - rewrite Hlen. destruct (length nss =? 0)%nat eqn:Hz.
    + apply Nat.eqb_eq in Hz. assert (Hnil : sg_ns g = []) by (apply nil_length_inv; lia).
      rewrite Hz, Hnil. cbn. intros [= <- <-]. right. split; [done|]. split; [done|].
      destruct nss; [|done]. split; [constructor|]. intros k n Hn. by rewrite lookup_nil in Hn.
    + rewrite !Nat.ltb_irrefl. intros [= <- <-]. right. split; [done|]. split; [done|].
      split; [by apply gcore_slots|]. intros k n Hn. split; [by apply Hg|by right].
Qed.

Lemma wp_update E t i g :
  (i < length (t_groups t))%nat -> gcore (t_ns t) g ->
  sg_state g = SPDK_NVMF_SUBSYSTEM_INACTIVE \/ sg_state g = SPDK_NVMF_SUBSYSTEM_PAUSED ->
  wp (poll_group_update_subsystem E i) (update_post (t_ns t) t i g) (at_sg t i g).
Proof.
  intros Hi Hg Hx. unfold poll_group_update_subsystem. gsteps. cbn [t_ns at_sg set_groups].
  destruct (resize_ns _ _ _) as [l rc] eqn:Hrs.
  destruct (resize_ok _ _ _ _ _ Hg Hrs) as [(Hrc & ->)|(-> & Hlen & HF & Hl)].
  - apply Z.eqb_neq in Hrc as Hrc'. rewrite Hrc'. cbn [negb]. gsteps. exists (sg_ns g). split; [done|].
    split; [|done]. by destruct g.
  - cbn [Z.eqb negb]. destruct (update_slots _ _ _ _) as [l' rc] eqn:Hus.
    destruct (update_slots_ok _ _ _ _ _ _ HF Hus) as (Hr & HF' & Hf). gsteps. exists l'. split; [done|].
    split; [|done]. pose proof (Forall2_length _ _ _ Hr) as Hlen'. apply core_with_ns; try done; [lia| |].
    + intros k n Hn. destruct (Forall2_lookup_r _ _ _ _ _ Hr Hn) as (m & Hm & -> & _). by apply Hl.
    + intros k n Hn. destruct (Forall2_lookup_r _ _ _ _ _ Hr Hn) as (m & Hm & Hio & Hst).
      destruct Hst as [Hst|(? & ?)]; [|by left]. rewrite Hst, Hio. destruct (Hl _ _ Hm) as (_ & [?|?]); [by left|].
      right. eauto.
Qed.

(** ** Activation, removal and pause of the group *)

Definition sg_activate (g : sgroup) : sgroup :=
  with_ns (with_ni_state SPDK_NVMF_SUBSYSTEM_ACTIVE <$> sg_ns g) (with_sg_state SPDK_NVMF_SUBSYSTEM_ACTIVE g).

Definition sg_deactivate (g : sgroup) : sgroup :=
  with_ns (with_ni_state SPDK_NVMF_SUBSYSTEM_INACTIVE <$> sg_ns g) (with_sg_state SPDK_NVMF_SUBSYSTEM_INACTIVE g).

Lemma sg_cb_false nss g : gcore nss g -> sg_state g <> SPDK_NVMF_SUBSYSTEM_PAUSING -> sg_cb g = false.
Proof.
  intros Hg Hx. pose proof (gc_state _ _ Hg) as Hst. unfold state_inv in Hst.
  destruct (sg_state g); try done; naive_solver.
Qed.

(** The slots of a group get new states. *)
Lemma core_with_states nss g g' f :
  gcore nss g ->
  sg_ns g' = imap (fun k n => with_ni_state (f k n) n) (sg_ns g) ->
  mgmt_io_outstanding g' = mgmt_io_outstanding g -> sg_out g' = sg_out g -> sg_queued g' = sg_queued g ->
  (forall k n ns, nss !! k = Some ns -> sg_ns g !! k = Some n -> slot_ok ns n -> slot_ok ns (with_ni_state (f k n) n)) ->
  state_inv g' -> gcore nss g'.
Proof.
  intros [Hm Hio Ha Hb Hl Ho Hs Hst] Hns Em Eo Eq Hok Hst'.
  assert (Hlk : forall k n', sg_ns g' !! k = Some n' -> exists n, sg_ns g !! k = Some n /\ n' = with_ni_state (f k n) n).
  { intros k n'. rewrite Hns, list_lookup_imap. intros (n & Hn & ->)%fmap_Some. eauto. }
  split; rewrite ?Em, ?Eo, ?Eq; try done.
  - intros k n' Hk. destruct (Hlk _ _ Hk) as (n & Hn & ->). exact (Hio _ _ Hn).
  - rewrite Hns, length_imap. destruct Hl as [Hl|Hl]; [left; by rewrite Hl|by right].
  - intros k. rewrite Hns, length_imap. apply Ho.
  - intros k ns n' Hk Hn'. destruct (Hlk _ _ Hn') as (n & Hn & ->). eauto.
Qed.

Lemma imap_const {A B} (f : A -> B) (l : list A) : imap (fun _ x => f x) l = f <$> l.
Proof. apply list_eq. intros k. by rewrite list_lookup_imap, list_lookup_fmap. Qed.

Lemma activate_inv nss g :
  gcore nss g -> sg_state g <> SPDK_NVMF_SUBSYSTEM_PAUSING -> Forall2 slot_fresh nss (sg_ns g) ->
  ginv nss (sg_activate g).
Proof.
  intros Hg Hx HF. split; [|done].
  eapply (core_with_states nss g _ (fun _ _ => SPDK_NVMF_SUBSYSTEM_ACTIVE)); try done; cbn.
  - by rewrite imap_const.
  - intros k n ns Hns Hn _. pose proof (Forall2_lookup_lr _ _ _ _ _ _ HF Hns Hn) as Hf. destruct ns as [s|].
    + destruct Hf as (Hc & Hu). left. exists s. cbn. by rewrite Hc.
    + destruct Hf as (Hc & H0). right. cbn. auto.
  - unfold state_inv. cbn. split; [|by eapply sg_cb_false]. apply Forall_fmap, Forall_true. done.
Qed.

Lemma deactivate_core nss g (l : list bool) :
  gcore nss g -> sg_state g <> SPDK_NVMF_SUBSYSTEM_PAUSING ->
  l <> [] \/ (forall k, cnt (counted_io k) (sg_out g) = 0) -> gcore nss (with_removals l (sg_deactivate g)).
Proof.
  intros Hg Hx Hl. eapply (core_with_states nss g _ (fun _ _ => SPDK_NVMF_SUBSYSTEM_INACTIVE)); try done; cbn.
  - by rewrite imap_const.
  - intros k n ns _ _ [Hs|(H0 & _)]; [by left|right; cbn; auto].
  - unfold state_inv. cbn. split; [by eapply sg_cb_false|]. split; [|done].
    apply Forall_fmap, Forall_true. done.
Qed.

(** A group without queue pairs of the subsystem loses its slots. *)
Lemma no_io_in_flight g : forallb (fun r => negb (q_ctrlr r)) (sg_out g) = true ->
  forall k, cnt (counted_io k) (sg_out g) = 0.
Proof.
  intros H k. pose proof (cnt_bounds (counted_io k) (sg_out g)).
  destruct (decide (cnt (counted_io k) (sg_out g) = 0)) as [|Hne]; [done|].
  destruct (cnt_pos (counted_io k) (sg_out g)) as (r & Hr & Hc); [lia|].
  rewrite forallb_forall in H. apply list_elem_of_In, H in Hr. rewrite negb_true_iff in Hr.
  apply counted_io_slot in Hc as (_ & Hs & Hm). unfold has_sgroup, nvmf_request_is_fabric_connect, is_mgmt in *.
  rewrite Hr in Hs. by destruct (q_opc r =? SPDK_NVME_OPC_FABRIC).
Qed.

Lemma removed_inv nss g :
  gcore nss g -> sg_state g = SPDK_NVMF_SUBSYSTEM_INACTIVE -> (forall k, cnt (counted_io k) (sg_out g) = 0) ->
  ginv nss (with_ns [] (with_removals [] g)).
Proof.
  intros [Hm Hio Ha Hb Hl Ho Hs Hst] Hx H0. unfold ginv, quiescent. cbn. rewrite Hx. split; [|done].
  split; cbn; try done; [by left|]. unfold state_inv in *. cbn. rewrite Hx in *. split; [apply Hst|].
  split; [constructor|by right].
Qed.

Lemma pause_scope nsid g : scope nsid (with_ns (pause_slots nsid (sg_ns g)) g).
Proof.
  intros k n Hn Hc. cbn in Hn. unfold pause_slots in Hn. rewrite list_lookup_imap in Hn.
  apply fmap_Some in Hn as (m & _ & ->). by rewrite Hc.
Qed.

(** A covered slot has I/O in flight. *)
Definition io_pending (nsid : Z) (l : list pg_ns_info) : bool :=
  existsb (fun x => x) (imap (fun k n => covers nsid k && (0 <? io_outstanding n)) l).

Lemma io_pending_spec nsid l :
  io_pending nsid l = true <-> exists k n, l !! k = Some n /\ covers nsid k = true /\ 0 < io_outstanding n.
Proof.
  unfold io_pending. rewrite existsb_exists. split.
  - intros (b & Hb & ->). apply list_elem_of_In, list_elem_of_lookup in Hb as (k & Hk).
    rewrite list_lookup_imap in Hk. apply fmap_Some in Hk as (n & Hn & Hk). symmetry in Hk.
    apply andb_true_iff in Hk as (? & ?%Z.ltb_lt). eauto.
  - intros (k & n & Hn & Hc & Hio). exists true. split; [|done]. apply list_elem_of_In.
    apply (list_elem_of_lookup_2 _ k). rewrite list_lookup_imap, Hn. cbn. rewrite Hc. by apply Z.ltb_lt in Hio as ->.
Qed.

Section pause.
Context (nss : list (option sub_ns)) (nsid : Z) (g : sgroup).
Context (Hg : gcore nss g) (Hx : sg_state g = SPDK_NVMF_SUBSYSTEM_ACTIVE).

Definition sg_pausing : sgroup := with_ns (pause_slots nsid (sg_ns g)) (with_sg_state SPDK_NVMF_SUBSYSTEM_PAUSING g).

Lemma pausing_slot k n :
  sg_ns sg_pausing !! k = Some n -> exists m, sg_ns g !! k = Some m /\ io_outstanding n = io_outstanding m /\
    ni_state n = if covers nsid k then SPDK_NVMF_SUBSYSTEM_PAUSING else SPDK_NVMF_SUBSYSTEM_ACTIVE.
Proof using Hg Hx.
  cbn. unfold pause_slots. rewrite list_lookup_imap. intros (m & Hm & ->)%fmap_Some. exists m. split; [done|].
  pose proof (gc_state _ _ Hg) as Hst. unfold state_inv in Hst. rewrite Hx in Hst. destruct Hst as (HF & _).
  destruct (covers nsid k); [done|]. split; [done|]. by eapply (Forall_lookup_1 _ _ _ _ HF).
Qed.

Lemma pausing_core g' :
  sg_ns g' = sg_ns sg_pausing -> mgmt_io_outstanding g' = mgmt_io_outstanding g -> sg_out g' = sg_out g ->
  sg_queued g' = sg_queued g -> state_inv g' -> gcore nss g'.
Proof using Hg.
  intros Hns Hm Ho Hq Hst.
  eapply (core_with_states nss g _ (fun k n => if covers nsid k then SPDK_NVMF_SUBSYSTEM_PAUSING else ni_state n)); try done.
  - rewrite Hns. cbn. unfold pause_slots. apply imap_ext. intros k n _. destruct (covers nsid k); [done|by destruct n].
  - intros k n ns _ _ [Hs|(H0 & Hs)]; [by left|]. right. cbn. split; [done|]. destruct (covers nsid k); [by left|done].
Qed.

Lemma pausing_inv :
  (0 <? mgmt_io_outstanding g) || io_pending nsid (sg_ns g) = true -> ginv nss (with_cb true sg_pausing).
Proof using Hg Hx.
  intros Hw. split.
  - apply pausing_core; try done. unfold state_inv. split; [done|]. apply Forall_lookup. intros k n Hn.
    destruct (pausing_slot _ _ Hn) as (m & _ & _ & ->). destruct (covers nsid k); [by right|by left].
  - unfold quiescent. cbn. apply orb_true_iff in Hw as [Hw|Hw].
    + apply Z.ltb_lt in Hw. rewrite (proj2 (Z.eqb_neq _ _)); [done|lia].
    + apply io_pending_spec in Hw as (k & n & Hn & Hc & Hio). apply andb_false_iff. right.
      destruct (ns_quiet (pause_slots nsid (sg_ns g))) eqn:Hq; [|done]. unfold ns_quiet in Hq. rewrite forallb_forall in Hq.
      specialize (Hq (with_ni_state SPDK_NVMF_SUBSYSTEM_PAUSING n)). cbn in Hq.
      apply Z.ltb_lt in Hio. rewrite Hio, bool_decide_true in Hq; [|done].
      enough (false = true) by done. apply Hq, list_elem_of_In, (list_elem_of_lookup_2 _ k).
      unfold pause_slots. rewrite list_lookup_imap, Hn. cbn. by rewrite Hc.
Qed.

Lemma paused_inv :
  (0 <? mgmt_io_outstanding g) || io_pending nsid (sg_ns g) = false ->
  mgmt_io_outstanding g = 0 /\ ginv nss (with_sg_state SPDK_NVMF_SUBSYSTEM_PAUSED sg_pausing).
Proof using Hg Hx.
  intros Hw. apply orb_false_iff in Hw as (Hm & Hp). apply Z.ltb_ge in Hm.
  pose proof (cnt_bounds counted_mgmt (sg_out g)) as Hb. rewrite <- (gc_mgmt _ _ Hg) in Hb.
  assert (H0 : mgmt_io_outstanding g = 0) by lia. split; [done|]. split; [|done].
  apply pausing_core; try done. unfold state_inv. split; [done|]. split; [apply (sg_cb_false nss g); [done|by rewrite Hx]|].
  apply Forall_lookup. intros k n Hn Hna. destruct (pausing_slot _ _ Hn) as (m & Hk & -> & Hst).
  destruct (covers nsid k) eqn:Hc; [|done]. rewrite (gc_io _ _ Hg _ _ Hk).
  pose proof (cnt_bounds (counted_io k) (sg_out g)) as Hb'. destruct (decide (0 < io_outstanding m)) as [Hio|Hio].
  - assert (io_pending nsid (sg_ns g) = true) by (apply io_pending_spec; eauto). congruence.
  - rewrite (gc_io _ _ Hg _ _ Hk) in Hio. lia.
Qed.
End pause.

(** ** The operations *)

Section ops.
Context (t : tst) (i : nat) (g : sgroup).
Context (Hi : (i < length (t_groups t))%nat) (Hc : called t i) (Hg : ginv (t_ns t) g).

(** The group at the end of an operation has the requests it had. *)
Definition kept (g' : sgroup) : Prop := sg_out g' = sg_out g /\ sg_queued g' = sg_queued g.

(** The subsystem is removed from the group, or the removal waits for queue pairs. *)
Definition remove_post (_ : unit) (t' : tst) : Prop :=
  exists g', ginv (t_ns t) g' /\ kept g' /\ sg_state g' = SPDK_NVMF_SUBSYSTEM_INACTIVE /\
    (sg_removals g' = [true] /\ t' = at_sg t i g' \/ sg_removals g' = [] /\ t' = at_sg (advance 0 t) i g').

Lemma wp_remove_msg E :
  sg_state g = SPDK_NVMF_SUBSYSTEM_INACTIVE -> found_ok E g = true -> sg_removals g = [true] ->
  wp (nvmf_poll_group_remove_subsystem_msg E i true) remove_post (at_sg t i (with_removals [] g)).
Proof using Hi Hc Hg.
  intros Hx Hf Hr. unfold nvmf_poll_group_remove_subsystem_msg, found_ok in *. destruct (e_qpair_found E).
  - gsteps. cbn [with_removals sg_removals app]. exists g.
    replace (with_removals [true] (with_removals [] g)) with g by (destruct g; cbn in *; by subst). unfold kept. auto 10.
  - unfold _nvmf_poll_group_remove_subsystem_cb, mod_done. gsteps. apply wp_continue; [done|].
    exists (with_ns [] (with_removals [] g)). split; [|unfold kept; auto].
    apply removed_inv; [apply Hg|done|]. by apply no_io_in_flight.
Qed.

Lemma wp_remove E :
  e_calloc E = true -> found_ok E g = true -> sg_state g <> SPDK_NVMF_SUBSYSTEM_PAUSING -> sg_removals g = [] ->
  wp (nvmf_poll_group_remove_subsystem E i true) remove_post (at_sg t i g).
Proof using Hi Hc Hg.
  intros Hcl Hf Hx Hr. unfold nvmf_poll_group_remove_subsystem. rewrite Hcl. cbn [negb]. gsteps.
  change (with_ns (_ <$> sg_ns g) _) with (sg_deactivate g). destruct Hg as (Hgc & _).
  unfold nvmf_poll_group_remove_subsystem_msg, found_ok in *. destruct (e_qpair_found E).
  - gsteps. cbn [sg_removals sg_deactivate with_ns with_sg_state]. rewrite Hr. cbn [app].
    exists (with_removals [true] (sg_deactivate g)). split; [split; [|done]|unfold kept; auto].
    apply deactivate_core; [done|done|by left].
  - unfold _nvmf_poll_group_remove_subsystem_cb, mod_done. gsteps. apply wp_continue; [done|].
    pose proof (no_io_in_flight _ Hf) as H0.
    exists (with_ns [] (with_removals [] (with_removals [] (sg_deactivate g)))). split.
    + apply removed_inv; [|done|done]. apply deactivate_core; [done|done|by right].
    + unfold kept. split; [done|]. split; [done|]. right. split; [done|]. f_equal.
      destruct g. cbn in *. by subst.
Qed.

(** The subsystem is added to the group, or the group is as it was. *)
Lemma wp_add E :
  sg_state g = SPDK_NVMF_SUBSYSTEM_INACTIVE -> sg_removals g = [] -> sg_queued g = [] -> e_qpair_found E = false ->
  wp (nvmf_poll_group_add_subsystem E i)
    (fun _ t' => exists rc g', t' = at_sg (advance rc t) i g' /\ ginv (t_ns t) g' /\ kept g' /\ sg_removals g' = [] /\
       (rc = 0 /\ sg_state g' = SPDK_NVMF_SUBSYSTEM_ACTIVE \/ rc <> 0 /\ sg_state g' = SPDK_NVMF_SUBSYSTEM_INACTIVE))
    (at_sg t i g).
Proof using Hi Hc Hg.
  intros Hx Hr Hq Hf. destruct Hg as (Hgc & _). unfold nvmf_poll_group_add_subsystem. gstep. gstep.
  apply wp_bind, wp_assert; [by apply bool_decide_eq_true|]. wstep.
  eapply wp_mono; [apply wp_update; auto|]. intros rc t' (l & -> & Hgl & Hfr).
  assert (Hnp : sg_state (with_ns l g) <> SPDK_NVMF_SUBSYSTEM_PAUSING) by (cbn; by rewrite Hx).
  wstep. destruct (rc =? 0) eqn:Hz; cbn [negb].
  - apply Z.eqb_eq in Hz. gsteps. apply wp_continue; [done|]. exists rc, (sg_activate (with_ns l g)).
    split; [done|]. split; [apply activate_inv; auto|]. unfold kept. auto.
  - apply Z.eqb_neq in Hz. unfold nvmf_poll_group_remove_subsystem. destruct (e_calloc E); cbn [negb].
    + gsteps. unfold nvmf_poll_group_remove_subsystem_msg. rewrite Hf.
      unfold _nvmf_poll_group_remove_subsystem_cb, mod_done. gsteps. apply wp_continue; [done|].
      assert (H0 : forall k, cnt (counted_io k) (sg_out g) = 0).
      { pose proof (gc_state _ _ Hgc) as Hst. unfold state_inv in Hst. rewrite Hx, Hr in Hst. naive_solver. }
      exists rc, (with_ns [] (with_removals [] (with_removals [] (sg_deactivate (with_ns l g))))).
      split; [f_equal; destruct g; cbn in *; by subst|]. split; [|unfold kept; auto].
      apply removed_inv; [|done|done]. apply deactivate_core; [done|done|by right].
    + unfold mod_done. gsteps. apply wp_continue; [done|]. exists rc, (with_ns l g).
      split; [done|]. split; [split; [done|unfold quiescent; cbn; by rewrite Hx]|]. unfold kept. auto.
Qed.

(** The group is paused, or waits for the requests in flight. *)
Lemma wp_pause nsid :
  sg_state g = SPDK_NVMF_SUBSYSTEM_ACTIVE ->
  wp (nvmf_poll_group_pause_subsystem i nsid)
    (fun _ t' => exists g', ginv (t_ns t) g' /\ kept g' /\ sg_removals g' = sg_removals g /\ scope nsid g' /\
       (sg_state g' = SPDK_NVMF_SUBSYSTEM_PAUSED /\ t' = at_sg (advance 0 t) i g' \/
        sg_state g' = SPDK_NVMF_SUBSYSTEM_PAUSING /\ t' = at_sg t i g'))
    (at_sg t i g).
Proof using Hi Hc Hg.
  intros Hx. destruct Hg as (Hgc & _). unfold nvmf_poll_group_pause_subsystem. gsteps.
  rewrite Hx, bool_decide_false; [|done]. gsteps. fold (io_pending nsid (sg_ns g)). fold (sg_pausing nsid g).
  destruct ((0 <? mgmt_io_outstanding g) || io_pending nsid (sg_ns g)) eqn:Hw.
  - apply wp_bind, wp_assert; [rewrite (sg_cb_false _ _ Hgc); [done|by rewrite Hx]|]. gsteps.
    exists (with_cb true (sg_pausing nsid g)). split; [by apply pausing_inv|]. split; [done|]. split; [done|].
    split; [apply (pause_scope nsid (with_cb true (with_sg_state SPDK_NVMF_SUBSYSTEM_PAUSING g)))|by right].
  - destruct (paused_inv _ _ _ Hgc Hx Hw) as (H0 & Hinv). apply wp_bind, wp_assert; [by rewrite H0|].
    gsteps. apply wp_continue; [done|]. exists (with_sg_state SPDK_NVMF_SUBSYSTEM_PAUSED (sg_pausing nsid g)).
    split; [done|]. split; [done|]. split; [done|]. split; [|by left].
    apply (pause_scope nsid (with_sg_state SPDK_NVMF_SUBSYSTEM_PAUSED g)).
Qed.

Lemma wp_pause_paused nsid Q :
  sg_state g = SPDK_NVMF_SUBSYSTEM_PAUSED -> Q tt (at_sg (advance 0 t) i g) ->
  wp (nvmf_poll_group_pause_subsystem i nsid) Q (at_sg t i g).
Proof using Hi Hc.
  intros Hx HQ. unfold nvmf_poll_group_pause_subsystem. gsteps. rewrite Hx, bool_decide_true; [|done].
  by apply wp_continue.
Qed.

(** The group is active again and its queue is empty, or it is still paused. *)
Lemma wp_resume E :
  sg_state g = SPDK_NVMF_SUBSYSTEM_PAUSED -> connect_not_ready (t_state t) = false ->
  Forall (fun r => req_ok E r = true) (sg_queued g) ->
  wp (nvmf_poll_group_resume_subsystem E i)
    (fun _ t' => exists rc cs g', t' = at_sg (advance rc (log_all cs t)) i g' /\ ginv (t_ns t) g' /\
       sg_removals g' = sg_removals g /\ held g ≡ₚ cs ++ held g' /\
       (rc = 0 /\ sg_state g' = SPDK_NVMF_SUBSYSTEM_ACTIVE /\ sg_queued g' = [] \/
        rc <> 0 /\ sg_state g' = SPDK_NVMF_SUBSYSTEM_PAUSED))
    (at_sg t i g).
Proof using Hi Hc Hg.
  intros Hx Hnr Hok. destruct Hg as (Hgc & _). unfold nvmf_poll_group_resume_subsystem. gstep. gstep.
  rewrite Hx, bool_decide_false; [|done]. wstep.
  eapply wp_mono; [apply wp_update; auto|]. intros rc t' (l & -> & Hgl & Hfr).
  destruct (rc =? 0) eqn:Hz; cbn [negb].
  - apply Z.eqb_eq in Hz. gsteps. fold (sg_activate (with_ns l g)). eapply wp_mono.
    + apply (wp_release (t_ns t)); try done. apply activate_inv; auto. cbn. by rewrite Hx.
    + intros _ t' (cs & g' & -> & Hg' & Hx' & Hq' & Hr' & Hh). apply wp_continue; [done|].
      exists 0, cs, g'. split; [done|]. split; [done|]. split; [by rewrite Hr'|]. split; [done|]. by left.
  - apply Z.eqb_neq in Hz. apply wp_continue; [done|]. exists rc, [], (with_ns l g). rewrite log_all_nil.
    split; [done|]. split; [split; [done|unfold quiescent; cbn; by rewrite Hx]|]. auto.
Qed.
End ops.
