(* ===== verification/SubsysStep.v ===== *)
(** * The steps of a subsystem

    Every event of a history keeps the invariant of the subsystem, and the
    requests it holds. *)

From S2P Require Import Prelude NvmfBdev Subsys SubsysInv SubsysReq SubsysExec SubsysGroup.

(** ** One group changes *)

Section local.
Context (c : change) (rv : bool) (g g' : sgroup).
Context (Hx : sg_state g' = sg_state g) (Ha : alike g g').

Lemma visited_local : visited c rv g -> visited c rv g'.
Proof using Hx Ha.
  intros (H1 & H2 & H3). destruct Ha as (Hr & _). split; [congruence|]. split; [congruence|].
  intros ? ?. eapply alike_scope; [done|]. auto.
Qed.

Lemma unvisited_local : unvisited c rv g -> unvisited c rv g'.
Proof using Hx Ha. unfold unvisited. destruct Ha as (Hr & _). by rewrite Hr, Hx. Qed.

Lemma failed_local : failed c g -> failed c g'.
Proof using Hx Ha. unfold failed. destruct Ha as (Hr & _). by rewrite Hr, Hx. Qed.

Lemma waiting_local : waiting c rv g -> waiting c rv g'.
Proof using Hx Ha.
  unfold waiting. destruct Ha as (Hr & _). rewrite Hx, Hr. intros [(H1 & H2 & H3 & H4)|H]; [left|by right].
  split; [done|]. split; [done|]. split; [done|]. intros ? ?. eapply alike_scope; [done|]. auto.
Qed.

Lemma place_local k cur i : place c rv k cur i g -> place c rv k cur i g'.
Proof using Hx Ha.
  unfold place. destruct (decide _); [apply waiting_local|].
  destruct (decide _); [apply visited_local|apply unvisited_local].
Qed.
End local.

(** The places of the groups, when group [i] changes. *)
Lemma running_insert c it gs i g g' :
  gs !! i = Some g -> sg_state g' = sg_state g -> alike g g' -> running c it gs -> running c it (<[i := g']> gs).
Proof.
  intros Hi Hx Ha [(H0 & k & Hk & Ht & Hcur & Hp)|(H0 & H1 & H2 & H3 & H4 & HF)].
  - left. split; [done|]. exists k. rewrite length_insert. split; [done|]. split; [done|]. split; [done|].
    intros j h Hj. apply list_lookup_insert_Some in Hj as [(<- & <- & _)|(_ & Hj)]; [|by apply Hp].
    eapply place_local; eauto.
  - right. repeat (split; [done|]). apply Forall_insert; [done|].
    eapply failed_local; eauto. by eapply (Forall_lookup_1 _ _ _ _ HF).
Qed.

Lemma phase_local t i g g' :
  t_groups t !! i = Some g -> sg_state g' = sg_state g -> alike g g' -> phase_inv t -> phase_inv (at_sg t i g').
Proof.
  intros Hi Hx Ha. assert (Hs : settled t -> settled (at_sg t i g')).
  { intros (Hst & HF). split; [done|]. cbn. apply Forall_insert; [done|].
    destruct (Forall_lookup_1 _ _ _ _ HF Hi) as (H1 & H2). destruct Ha as (Hr & _). rewrite Hr. split; congruence. }
  unfold phase_inv. cbn [t_phase at_sg set_groups t_changes t_groups t_state].
  destruct (t_phase t) as [|it|s], (t_changes t) as [|c l]; try done.
  - intros (Htr & Hr). split; [done|]. by eapply running_insert.
  - intros (Hst & Ht). split; [auto|]. intros H0. destruct (Ht H0) as (H1 & H2). split; [done|].
    intros Ho Hp. cbn. apply Forall_insert; [auto|]. eapply alike_scope; [done|].
    by apply (Forall_lookup_1 _ _ _ _ (H2 Ho Hp) Hi).
Qed.

Lemma tinv_local t i g g' :
  tinv t -> t_groups t !! i = Some g -> ginv (t_ns t) g' -> sg_state g' = sg_state g -> alike g g' ->
  no_stranded (t_state t) g' -> tinv (at_sg t i g').
Proof.
  intros [Hg Hp Hq Hc Hf] Hi Hg' Hx Ha Hns. split; cbn; try done; [by apply Forall_insert| |by apply Forall_insert].
  by eapply phase_local.
Qed.

Lemma tinv_log t x : tinv t -> tinv (log_completed x t).
Proof. intros [? ? ? ? ?]. by split. Qed.

Lemma tinv_free t x : tinv t -> tinv (log_freed x t).
Proof. intros [? ? ? ? ?]. by split. Qed.

Lemma trans_states o r x rv : trans o r x rv ->
  is_settled o /\ is_settled r /\ ~ is_settled x /\ o <> SPDK_NVMF_SUBSYSTEM_PAUSING /\ (rv = true -> r = o).
Proof. unfold is_settled. destruct 1; naive_solver. Qed.

Lemma is_settled_cases x : is_settled x ->
  x <> SPDK_NVMF_SUBSYSTEM_PAUSING /\ x <> SPDK_NVMF_SUBSYSTEM_DEACTIVATING /\
  x <> SPDK_NVMF_SUBSYSTEM_ACTIVATING /\ x <> SPDK_NVMF_SUBSYSTEM_RESUMING.
Proof. unfold is_settled. naive_solver. Qed.

(** A group that pauses, or has a removal, is the one the iteration waits for. *)
Lemma phase_waits t i g :
  phase_inv t -> t_groups t !! i = Some g ->
  sg_state g = SPDK_NVMF_SUBSYSTEM_PAUSING \/ sg_removals g <> [] ->
  exists c l it, t_changes t = c :: l /\ t_phase t = Running it /\ it_cur it = Some i /\ waiting c (it_revert it) g.
Proof.
  intros Hp Hi Hw. unfold phase_inv in Hp.
  assert (Hset : settled t -> False).
  { intros (Hs & HF). destruct (Forall_lookup_1 _ _ _ _ HF Hi) as (Hx & Hr).
    apply is_settled_cases in Hs as (Hn & _). destruct Hw as [Hw|Hw]; congruence. }
  destruct (t_phase t) as [|it|s], (t_changes t) as [|c l]; try done; [|exfalso; naive_solver].
  destruct Hp as (Htr & Hr). destruct (trans_states _ _ _ _ Htr) as (Ho & Hrq & _ & Hop & _).
  apply is_settled_cases in Hrq as (Hrp & _).
  destruct Hr as [(H0 & k & _ & _ & _ & Hpl)|(_ & _ & _ & _ & _ & HF)].
  - specialize (Hpl _ _ Hi). unfold place in Hpl. destruct (decide _) as [Hc|_]; [eauto 10|].
    destruct (decide _).
    + destruct Hpl as (H1 & H2 & _). destruct Hw as [Hw|Hw]; [|done]. congruence.
    + destruct Hpl as (H1 & H2). destruct Hw as [Hw|Hw]; [|done]. rewrite Hw in H1. destruct H1 as [H1|(_ & H1)]; congruence.
  - destruct (Forall_lookup_1 _ _ _ _ HF Hi) as (H1 & H2). destruct Hw as [Hw|Hw]; [|done].
    rewrite Hw in H1. destruct H1 as [H1|H1]; congruence.
Qed.

(** The group the iteration waits for has done its part. *)
Lemma phase_advance t i c l it g' :
  phase_inv t -> t_changes t = c :: l -> t_phase t = Running it -> it_cur it = Some i ->
  visited c (it_revert it) g' -> phase_inv (at_sg (advance 0 t) i g').
Proof.
  intros Hp Hc Hph Hcur Hv. unfold phase_inv, advance in *. rewrite Hph, Hc in *. cbn.
  rewrite Hc. destruct Hp as (Htr & Hr). split; [done|]. left. split; [done|].
  destruct Hr as [(H0 & k & Hk & Ht & Hcu & Hpl)|(_ & _ & H2 & _)]; [|congruence].
  exists k. rewrite length_insert. split; [done|]. split; [done|]. split; [done|].
  pose proof (Hcu _ Hcur) as ->. intros j h Hj. unfold place in *. cbn.
  rewrite (decide_False (P := None = Some j)); [|done].
  apply list_lookup_insert_Some in Hj as [(<- & <- & _)|(Hne & Hj)].
  - rewrite decide_True; [done|lia].
  - specialize (Hpl _ _ Hj). rewrite Hcur, decide_False in Hpl; [done|congruence].
Qed.

(** ** Requests are neither lost nor made up *)

(** The requests of a state: held by a group, completed or freed. *)
Definition ids (t : tst) : list nat := concat (held <$> t_groups t) ++ t_completed t ++ t_freed t.

Ltac perm_count := apply (Permutation_count_occ Nat.eq_dec); intros; rewrite ?count_occ_app; lia.

Lemma held_insert gs i g g' :
  gs !! i = Some g -> concat (held <$> <[i := g']> gs) ++ held g ≡ₚ concat (held <$> gs) ++ held g'.
Proof.
  revert i. induction gs as [|h gs IH]; intros [|i] Hi; simplify_eq; cbn in *.
  - injection Hi as ->. perm_count.
  - rewrite <- !app_assoc. f_equiv. by apply IH.
Qed.

Lemma ids_step t t0 i g g' (cs fs new : list nat) :
  t_groups t !! i = Some g -> t_groups t0 = t_groups t ->
  t_completed t0 = t_completed t ++ cs -> t_freed t0 = t_freed t ++ fs ->
  new ++ held g ≡ₚ cs ++ fs ++ held g' -> ids (at_sg t0 i g') ≡ₚ new ++ ids t.
Proof.
  intros Hi Hg Hc Hf Hp. pose proof (held_insert _ _ _ g' Hi) as Hh. unfold ids. cbn. rewrite Hg, Hc, Hf.
  apply (Permutation_count_occ Nat.eq_dec). intros x.
  rewrite (Permutation_count_occ Nat.eq_dec) in Hp, Hh. specialize (Hp x). specialize (Hh x).
  rewrite !count_occ_app in *. lia.
Qed.

(** The change under way stays where it is. *)
Definition phase_kind (p : phase) : phase :=
  match p with Running it => Running (Iter [] None 0 (it_revert it)) | _ => p end.

Definition same_change (t t' : tst) : Prop :=
  t_changes t' = t_changes t /\ t_done t' = t_done t /\ t_state t' = t_state t /\
  phase_kind (t_phase t') = phase_kind (t_phase t).

Definition step_post (new : list nat) (t : tst) (_ : unit) (t' : tst) : Prop :=
  tinv t' /\ ids t' ≡ₚ new ++ ids t /\ same_change t t'.

Lemma advance_same rc t : t_changes (advance rc t) = t_changes t /\ t_done (advance rc t) = t_done t /\
  t_state (advance rc t) = t_state t /\ phase_kind (t_phase (advance rc t)) = phase_kind (t_phase t).
Proof. unfold advance. by destruct (t_phase t) eqn:Hp; cbn; rewrite ?Hp. Qed.

Lemma advance_other rc t : t_groups (advance rc t) = t_groups t /\ t_ns (advance rc t) = t_ns t /\
  t_completed (advance rc t) = t_completed t /\ t_freed (advance rc t) = t_freed t.
Proof. unfold advance. by destruct (t_phase t). Qed.

Lemma tinv_advance t i c l it g' :
  tinv t -> t_changes t = c :: l -> t_phase t = Running it -> it_cur it = Some i ->
  visited c (it_revert it) g' -> ginv (t_ns t) g' -> sg_state g' <> SPDK_NVMF_SUBSYSTEM_ACTIVE ->
  tinv (at_sg (advance 0 t) i g').
Proof.
  intros Ht Hc Hph Hcur Hv Hg' Hna. destruct (advance_other 0 t) as (Eg & En & Ec & Ef).
  destruct (advance_same 0 t) as (Sc & Sd & Ss & Sp). split; cbn; rewrite ?Eg, ?En, ?Sc, ?Ss; try apply Ht.
  - apply Forall_insert; [apply Ht|done].
  - eapply phase_advance; [apply Ht|done..].
  - apply Forall_insert; [apply Ht|]. by intros ?.
Qed.

(** ** Requests arrive, complete and go *)

Section req_events.
Context (t : tst) (i : nat) (g : sgroup) (Ht : tinv t) (Hi : t_groups t !! i = Some g).

Lemma group_inv : ginv (t_ns t) g.
Proof using Ht Hi. exact (Forall_lookup_1 _ _ _ _ (ti_groups _ Ht) Hi). Qed.

Lemma group_lt : (i < length (t_groups t))%nat.
Proof using Hi. by eapply lookup_lt_Some. Qed.

Lemma group_stranded : no_stranded (t_state t) g.
Proof using Ht Hi. exact (Forall_lookup_1 _ _ _ _ (ti_queued _ Ht) Hi). Qed.

(** A connect command goes back to the queue of a group that is about to pause or stop. *)
Lemma active_not_ready :
  sg_state g = SPDK_NVMF_SUBSYSTEM_ACTIVE -> connect_not_ready (t_state t) = true ->
  t_state t = SPDK_NVMF_SUBSYSTEM_PAUSING \/ t_state t = SPDK_NVMF_SUBSYSTEM_DEACTIVATING.
Proof using Ht Hi.
  intros Hx Hn. assert (Hset : settled t -> False).
  { intros (Hs & HF). destruct (Forall_lookup_1 _ _ _ _ HF Hi) as (Hx' & _). rewrite <- Hx', Hx in Hn. done. }
  pose proof (ti_phase _ Ht) as Hp. unfold phase_inv in Hp.
  destruct (t_phase t), (t_changes t); try done; [|naive_solver].
  destruct Hp as (Htr & _). destruct Htr; naive_solver.
Qed.

Lemma step_req E r :
  ev_ok t (EvReq E i r) = true -> wp (spdk_nvmf_request_exec E i r) (step_post [q_id r] t) t.
Proof using Ht Hi.
  cbn. rewrite Hi. intros Hok. apply andb_true_iff in Hok as (Hok & Hb). apply Z.ltb_lt in Hb.
  rewrite (at_sg_id t i g Hi) at 2. eapply wp_mono; [eapply wp_exec; [apply group_lt|apply group_inv|lia|done]|].
  intros [] t' (c & g' & Ho & ->).
  destruct (exec_outcome_inv _ _ _ _ _ _ _ group_inv Hok Hb Ho) as (Hg' & Ha & Hx & Hh & Hq).
  split; [|split].
  - assert (Hns : no_stranded (t_state t) g').
    { intros Hact Hp Hd. rewrite Hx in Hact. destruct Hq as [->|[|Hq]]; [by apply group_stranded|done|].
      destruct (active_not_ready Hact Hq); done. }
    destruct c; [apply (tinv_local (log_completed _ t) i g); try done; by apply tinv_log|by apply (tinv_local t i g)].
  - destruct c; [eapply (ids_step _ _ _ _ _ [q_id r] []); eauto|eapply (ids_step _ _ _ _ _ [] []); eauto];
      cbn; rewrite ?app_nil_r; done.
  - by destruct c.
Qed.

Lemma step_complete r :
  ev_ok t (EvComplete i r) = true -> wp (_nvmf_request_complete i r) (step_post [] t) t.
Proof using Ht Hi.
  cbn. rewrite Hi. intros Hr. apply bool_decide_eq_true in Hr.
  rewrite (at_sg_id t i g Hi) at 2. eapply wp_mono; [eapply wp_complete_inv; [apply group_lt|apply group_inv|done|]|].
  { intros Hx. destruct (phase_waits _ _ _ (ti_phase _ Ht) Hi (or_introl Hx)) as (c & l & it & _ & ? & ? & _). by exists it. }
  intros [] t' (g' & Hp & Hq & Ha & Hg' & Hcase).
  assert (Hh : [] ++ held g ≡ₚ [q_id r] ++ [] ++ held g').
  { unfold held. cbn. rewrite Hq, !fmap_app, Hp. done. }
  destruct Hcase as [(Hx & ->)|(Hx & Hx' & ->)].
  - split; [|split; [eapply (ids_step _ _ _ _ _ [q_id r] []); eauto; by rewrite ?app_nil_r|done]].
    apply (tinv_local (log_completed _ t) i g); try done; [by apply tinv_log|].
    intros Hact Hpa Hd. rewrite Hq. apply group_stranded; [congruence|done|done].
  - destruct (phase_waits _ _ _ (ti_phase _ Ht) Hi (or_introl Hx)) as (c & l & it & Hc & Hph & Hcur & Hw).
    set (t1 := log_completed (q_id r) t). destruct (advance_other 0 t1) as (Eg & En & Ec & Ef).
    destruct (advance_same 0 t1) as (Sc & Sd & Ss & Sp).
    split; [|split; [eapply (ids_step _ _ _ _ _ [q_id r] []); eauto; by rewrite ?Ef, ?app_nil_r|done]].
    eapply (tinv_advance t1); [by apply tinv_log|done..| | |congruence]; [|done].
    destruct Hw as [(Hrq & _ & Hrm & Hsc)|(_ & Hbad & _)]; [|congruence].
    pose proof Ha as (Hrm' & _). split; [congruence|]. split; [congruence|].
    intros ? ?. eapply alike_scope; [exact Ha|]. auto.
Qed.

Lemma step_free r : ev_ok t (EvFree i r) = true -> wp (spdk_nvmf_request_free i r) (step_post [] t) t.
Proof using Ht Hi.
  cbn. rewrite Hi. intros Hr. apply andb_true_iff in Hr as (Hr & Ha). apply bool_decide_eq_true in Hr.
  destruct (tailq_remove_perm _ _ Hr) as (l & Hl & Hp). pose proof group_inv as (Hgc & Hq).
  rewrite (at_sg_id t i g Hi) at 2. apply wp_bind. eapply wp_take_out; [apply group_lt|done|]. gsteps.
  split; [|split].
  - apply tinv_free, (tinv_local t i g); try done; [|by apply alike_refl|by apply group_stranded].
    split; [|done]. pose proof (complete_core _ _ _ _ Hgc Hp) as Hgl. unfold dec_sg in Hgl.
    by rewrite Ha, andb_false_r in Hgl.
  - change (log_freed [q_id r] (at_sg t i ?h)) with (at_sg (log_freed [q_id r] t) i h).
    eapply (ids_step _ _ _ _ _ [] [q_id r]); eauto; cbn; [by rewrite app_nil_r|].
    unfold held. cbn. by rewrite !fmap_app, Hp.
  - done.
Qed.

Lemma step_gone q : wp (qpair_disconnected i q) (step_post [] t) t.
Proof using Ht Hi.
  unfold qpair_disconnected. rewrite (at_sg_id t i g Hi) at 2. apply wp_bind, wp_load; [apply group_lt|].
  destruct (existsb _ _).
  { apply wp_ret. rewrite <- at_sg_id; [|done]. by split. }
  unfold _nvmf_qpair_sgroup_req_clean. apply wp_bind, wp_load; [apply group_lt|].
  set (fs := q_id <$> _). set (ks := filter _ _).
  wstep. wstep. change (log_freed fs (at_sg t i ?h)) with (at_sg (log_freed fs t) i h).
  apply wp_upd; [apply group_lt|]. pose proof group_inv as (Hgc & Hq).
  assert (Hpq : sg_queued g ≡ₚ filter (fun r => q_qpair r = q) (sg_queued g) ++ ks).
  { symmetry. apply filter_app_complement. }
  split; [|split; [|done]].
  - apply (tinv_local (log_freed fs t) i g); try done; [by apply tinv_free| |by apply alike_refl|].
    + split; [|done]. change (with_sg_queued ks g) with (with_sg_queued ks (with_out (sg_out g) g)).
      apply gcore_perm; [done|done|]. pose proof (gc_bound _ _ Hgc) as Hb. rewrite Hpq, length_app in Hb. lia.
    + intros Hact Hpa Hd. cbn. apply group_stranded in Hact; try done. unfold ks. by rewrite Hact.
  - eapply (ids_step _ _ _ _ _ [] fs); eauto; cbn; [by rewrite app_nil_r|].
    unfold held, fs. cbn. rewrite !fmap_app, Hpq at 1. rewrite fmap_app. perm_count.
Qed.

Lemma step_remove_msg E : ev_ok t (EvRemoveMsg E i) = true -> wp (remove_msg E i) (step_post [] t) t.
Proof using Ht Hi.
  cbn. rewrite Hi. intros Hf. unfold remove_msg. rewrite (at_sg_id t i g Hi) at 2.
  apply wp_bind, wp_load; [apply group_lt|]. destruct (sg_removals g) as [|cb l] eqn:Hr.
  { apply wp_ret. rewrite <- at_sg_id; [|done]. by split. }
  destruct (phase_waits t i g (ti_phase _ Ht) Hi) as (c & l' & it & Hc & Hph & Hcur & Hw); [right; by rewrite Hr|].
  destruct Hw as [(_ & _ & Hw & _)|(Hrq & Hx & Hw)]; [congruence|]. rewrite Hw in Hr. injection Hr as <- <-.
  apply wp_bind, wp_upd; [apply group_lt|]. eapply wp_mono.
  { apply (wp_remove_msg t i g); try done; [apply group_lt|by exists it|apply group_inv]. }
  intros [] t' (g' & Hg' & (Ho & Hq) & Hx' & Hcase).
  assert (Hh : [] ++ held g ≡ₚ [] ++ [] ++ held g') by (unfold held; cbn; by rewrite Ho, Hq).
  destruct Hcase as [(Hr & ->)|(Hr & ->)].
  - split; [|split; [eapply (ids_step _ _ _ _ _ [] []); eauto; by rewrite app_nil_r|done]].
    destruct Ht as [Hgs Hp Hns Hch Hfr]. split; cbn; try done.
    + by apply Forall_insert.
    + unfold phase_inv in *. cbn. rewrite Hph, Hc in *. destruct Hp as (Htr & Hrn). split; [done|].
      destruct Hrn as [(H0 & k & Hk & Htd & Hcu & Hpl)|(_ & _ & H2 & _)]; [|congruence]. left. split; [done|].
      exists k. rewrite length_insert. split; [done|]. split; [done|]. split; [done|]. intros j h Hj.
      apply list_lookup_insert_Some in Hj as [(<- & <- & _)|(_ & Hj)]; [|by apply Hpl].
      unfold place. rewrite decide_True; [|done]. right. done.
    + apply Forall_insert; [done|]. intros Hact. congruence.
  - destruct (advance_other 0 t) as (Eg & En & Ec & Ef). destruct (advance_same 0 t) as (Sc & Sd & Ss & Sp).
    split; [|split; [eapply (ids_step _ _ _ _ _ [] []); eauto; by rewrite app_nil_r|done]].
    eapply tinv_advance; eauto; [|congruence]. split; [congruence|]. split; [done|]. intros _ Hbad. congruence.
Qed.
End req_events.

(** ** The next group changes its state *)

Section pg.
Context (t : tst) (c : change) (cs : list change) (i : nat) (l : list nat) (st : Z) (rv : bool).
Context (Ht : tinv t) (Hcs : t_changes t = c :: cs) (Hph : t_phase t = Running (Iter (i :: l) None st rv)).

Definition pg_called : tst := set_phase (Running (Iter l (Some i) st rv)) t.

Lemma pg_called_called : called pg_called i.
Proof. by exists (Iter l (Some i) st rv). Qed.

Lemma pg_facts :
  trans (ch_original c) (ch_requested c) (t_state t) rv /\ st = 0 /\ l = seq (S i) (length (t_groups t) - S i) /\
  (i < length (t_groups t))%nat /\
  forall j g, t_groups t !! j = Some g -> if decide (j < i)%nat then visited c rv g else unvisited c rv g.
Proof using Ht Hcs Hph.
  pose proof (ti_phase _ Ht) as Hp. unfold phase_inv in Hp. rewrite Hph, Hcs in Hp. destruct Hp as (Htr & Hr).
  split; [done|]. destruct Hr as [(H0 & k & Hk & Htd & _ & Hpl)|(_ & _ & _ & H3 & _)]; [|done]. cbn in *.
  split; [done|]. destruct (length (t_groups t) - k)%nat as [|m] eqn:Hm; [done|]. cbn in Htd. injection Htd as -> ->.
  split; [f_equal; lia|]. split; [lia|]. intros j g Hj. exact (Hpl _ _ Hj).
Qed.

Lemma pg_group : exists g, t_groups t !! i = Some g /\ unvisited c rv g.
Proof using Ht Hcs Hph.
  destruct pg_facts as (_ & _ & _ & Hlt & Hpl). destruct (lookup_lt_is_Some_2 _ _ Hlt) as (g & Hg).
  exists g. split; [done|]. specialize (Hpl _ _ Hg). by rewrite decide_False in Hpl; [|lia].
Qed.

Lemma pg_next g' : visited c rv g' -> phase_inv (at_sg (advance 0 pg_called) i g').
Proof using Ht Hcs Hph.
  intros Hv. destruct pg_facts as (Htr & -> & Hl & Hlt & Hpl). unfold phase_inv. cbn. rewrite Hcs.
  split; [done|]. left. split; [done|]. exists (S i). cbn. rewrite length_insert. split; [lia|]. split; [done|].
  split; [done|]. intros j g Hj. unfold place. rewrite decide_False; [|done].
  apply list_lookup_insert_Some in Hj as [(<- & <- & _)|(Hne & Hj)]; [by rewrite decide_True; [|lia]|].
  specialize (Hpl _ _ Hj). destruct (decide (j < i)%nat); [rewrite decide_True; [done|lia]|rewrite decide_False; [done|lia]].
Qed.

Lemma pg_wait g' : waiting c rv g' -> phase_inv (at_sg pg_called i g').
Proof using Ht Hcs Hph.
  intros Hv. destruct pg_facts as (Htr & -> & Hl & Hlt & Hpl). unfold phase_inv. cbn. rewrite Hcs.
  split; [done|]. left. split; [done|]. exists (S i). cbn. rewrite length_insert. split; [lia|]. split; [done|].
  split; [by intros j [= ->]|]. intros j g Hj. unfold place.
  apply list_lookup_insert_Some in Hj as [(<- & <- & _)|(Hne & Hj)]; [by rewrite decide_True|].
  rewrite decide_False; [|congruence].
  specialize (Hpl _ _ Hj). destruct (decide (j < i)%nat); [rewrite decide_True; [done|lia]|rewrite decide_False; [done|lia]].
Qed.

Lemma pg_fail g' rc :
  rc <> 0 -> ch_requested c = SPDK_NVMF_SUBSYSTEM_ACTIVE -> failed c g' -> phase_inv (at_sg (advance rc pg_called) i g').
Proof using Ht Hcs Hph.
  intros Hrc Hrq Hf. destruct pg_facts as (Htr & -> & Hl & Hlt & Hpl). unfold phase_inv. cbn. rewrite Hcs.
  split; [done|]. apply Z.eqb_neq in Hrc as Hz. rewrite Hz. right. split; [done|].
  assert (Hrv : rv = false) by (destruct Htr; congruence). cbn. do 4 (split; [done|]).
  apply Forall_insert; [|done]. apply Forall_lookup. intros j g Hj. specialize (Hpl _ _ Hj).
  destruct (decide (j < i)%nat); destruct Hpl as (H1 & H2); unfold failed.
  - split; [right; congruence|apply H2].
  - destruct H1 as [?|(? & _)]; [auto|congruence].
Qed.

(** The group's part of the invariant of the subsystem. *)
Lemma pg_tinv t' g' cl :
  t_groups t' = t_groups t -> t_ns t' = t_ns t -> t_changes t' = t_changes t -> t_state t' = t_state t ->
  t_done t' = t_done t -> t_completed t' = t_completed t ++ cl -> t_freed t' = t_freed t ->
  phase_kind (t_phase t') = phase_kind (t_phase t) ->
  (forall g, t_groups t !! i = Some g -> held g ≡ₚ cl ++ held g') ->
  ginv (t_ns t) g' -> no_stranded (t_state t) g' -> phase_inv (at_sg t' i g') ->
  step_post [] t tt (at_sg t' i g').
Proof using Ht Hcs Hph.
  intros Eg En Ec Es Ed Ecm Ef Ep Hh Hg' Hq' Hp'. destruct pg_group as (g & Hi & _). split; [|split].
  - split; cbn; rewrite ?Eg, ?En, ?Ec, ?Es; try apply Ht; try done; apply Forall_insert; try done; apply Ht.
  - eapply (ids_step _ _ _ _ _ cl []); [done|done|done|by rewrite app_nil_r|cbn; auto].
  - by split.
Qed.

Lemma on_pg_remove E g :
  t_groups t !! i = Some g -> unvisited c rv g -> ch_requested c = SPDK_NVMF_SUBSYSTEM_INACTIVE ->
  e_calloc E && found_ok E g = true -> sg_state g <> SPDK_NVMF_SUBSYSTEM_PAUSING ->
  wp (nvmf_poll_group_remove_subsystem E i true) (step_post [] t) (at_sg pg_called i g).
Proof using Ht Hcs Hph.
  intros Hi (_ & Hr) Hrq Hok Hx. apply andb_true_iff in Hok as (Hcl & Hf). destruct pg_facts as (_ & Hst & _ & Hlt & _).
  eapply wp_mono; [apply wp_remove; try done; [apply pg_called_called|exact (group_inv _ _ _ Ht Hi)]|].
  intros [] t' (g' & Hg' & (Ho & Hq) & Hx' & Hcase).
  assert (Hh : forall h, t_groups t !! i = Some h -> held h ≡ₚ [] ++ held g').
  { intros h Hh. simplify_eq. unfold held. by rewrite Ho, Hq. }
  assert (Hns : no_stranded (t_state t) g') by (intros Hact; congruence).
  assert (Hsc : scoped c rv g') by (intros _ Hp; congruence).
  destruct Hcase as [(Hr' & ->)|(Hr' & ->)]; eapply pg_tinv; try done; try (by rewrite app_nil_r); try (by rewrite Hph).
  - apply pg_wait. right. done.
  - apply pg_next. split; [congruence|done].
Qed.

Lemma on_pg_pause g :
  t_groups t !! i = Some g -> sg_removals g = [] -> ch_requested c = SPDK_NVMF_SUBSYSTEM_PAUSED ->
  sg_state g = SPDK_NVMF_SUBSYSTEM_ACTIVE \/ rv = true /\ sg_state g = SPDK_NVMF_SUBSYSTEM_PAUSED ->
  wp (nvmf_poll_group_pause_subsystem i (ch_nsid c)) (step_post [] t) (at_sg pg_called i g).
Proof using Ht Hcs Hph.
  intros Hi Hr Hrq Hx. destruct pg_facts as (_ & Hst & _ & Hlt & _).
  pose proof (group_inv _ _ _ Ht Hi) as Hg. destruct Hx as [Hx|(Hrv & Hx)].
  - eapply wp_mono; [apply wp_pause; try done; apply pg_called_called|].
    intros [] t' (g' & Hg' & (Ho & Hq) & Hr' & Hsc & Hcase).
    assert (Hh : forall h, t_groups t !! i = Some h -> held h ≡ₚ [] ++ held g').
    { intros h Hh. simplify_eq. unfold held. by rewrite Ho, Hq. }
    destruct Hcase as [(Hx' & ->)|(Hx' & ->)];
      (eapply pg_tinv; try done; try (by rewrite app_nil_r); try (by rewrite Hph); [intros Hact; congruence|]).
    + apply pg_next. split; [congruence|]. split; [congruence|]. by intros _ _.
    + apply pg_wait. left. split; [done|]. split; [done|]. split; [congruence|]. by intros _ _.
  - apply wp_pause_paused; try done; [apply pg_called_called|].
    eapply pg_tinv; try done; try (by rewrite app_nil_r); try (by rewrite Hph).
    + intros h Hh. by simplify_eq.
    + intros Hact. congruence.
    + apply pg_next. split; [congruence|]. split; [done|]. intros ? _. congruence.
Qed.

Lemma on_pg_add E g :
  t_groups t !! i = Some g -> sg_removals g = [] -> ch_requested c = SPDK_NVMF_SUBSYSTEM_ACTIVE ->
  ch_original c = SPDK_NVMF_SUBSYSTEM_INACTIVE -> sg_state g = SPDK_NVMF_SUBSYSTEM_INACTIVE ->
  bool_decide (sg_queued g = []) && negb (e_qpair_found E) = true ->
  wp (nvmf_poll_group_add_subsystem E i) (step_post [] t) (at_sg pg_called i g).
Proof using Ht Hcs Hph.
  intros Hi Hr Hrq Hor Hx Hok. destruct pg_facts as (_ & Hst & _ & Hlt & _).
  apply andb_true_iff in Hok as (Hq & Hf). apply bool_decide_eq_true in Hq. rewrite negb_true_iff in Hf.
  pose proof (group_inv _ _ _ Ht Hi) as Hg.
  eapply wp_mono; [apply wp_add; try done; apply pg_called_called|].
  intros [] t' (rc & g' & -> & Hg' & (Ho & Hq') & Hr' & Hcase).
  destruct (advance_other rc pg_called) as (Eg & En & Ec & Ef). destruct (advance_same rc pg_called) as (Sc & Sd & Ss & Sp).
  eapply (pg_tinv _ _ []); try done; try (by rewrite app_nil_r).
  - by rewrite Sp, Hph.
  - intros h Hh. simplify_eq. unfold held. by rewrite Ho, Hq'.
  - intros _ _ _. congruence.
  - destruct Hcase as [(-> & Hx')|(Hz & Hx')].
    + apply pg_next. split; [congruence|]. split; [done|]. intros _ Hp. congruence.
    + apply pg_fail; [done|done|]. split; [left; congruence|done].
Qed.

Lemma on_pg_resume E g :
  t_groups t !! i = Some g -> sg_removals g = [] -> ch_requested c = SPDK_NVMF_SUBSYSTEM_ACTIVE ->
  ch_original c = SPDK_NVMF_SUBSYSTEM_PAUSED -> sg_state g = SPDK_NVMF_SUBSYSTEM_PAUSED ->
  t_state t = SPDK_NVMF_SUBSYSTEM_RESUMING -> forallb (req_ok E) (sg_queued g) = true ->
  wp (nvmf_poll_group_resume_subsystem E i) (step_post [] t) (at_sg pg_called i g).
Proof using Ht Hcs Hph.
  intros Hi Hr Hrq Hor Hx Hts Hok. destruct pg_facts as (_ & Hst & _ & Hlt & _).
  pose proof (group_inv _ _ _ Ht Hi) as Hg.
  eapply wp_mono; [apply wp_resume; try done; [apply pg_called_called|cbn; by rewrite Hts|]|].
  { apply Forall_forall. intros r Hin. rewrite forallb_forall in Hok. by apply Hok, list_elem_of_In. }
  intros [] t' (rc & cl & g' & -> & Hg' & Hr' & Hh & Hcase). set (t1 := log_all cl pg_called) in *.
  destruct (advance_other rc t1) as (Eg & En & Ec & Ef). destruct (advance_same rc t1) as (Sc & Sd & Ss & Sp).
  eapply (pg_tinv _ _ cl); try done.
  - by rewrite Sp, Hph.
  - intros h Hh'. by simplify_eq.
  - intros Hact _ _. destruct Hcase as [(_ & _ & ?)|(_ & ?)]; [done|congruence].
  - destruct Hcase as [(-> & Hx' & _)|(Hz & Hx')].
    + apply pg_next. split; [congruence|]. split; [congruence|]. intros _ Hp. congruence.
    + apply pg_fail; [done|done|]. split; [left; congruence|congruence].
Qed.
End pg.

Lemma step_pg t E : tinv t -> ev_ok t (EvPg E) = true -> wp (call_channel E) (step_post [] t) t.
Proof.
  intros Ht Hok. unfold call_channel. wstep. wstep.
  assert (Hskip : wp (mret tt) (step_post [] t) t) by (apply wp_ret; by split).
  destruct (t_phase t) as [|[todo cur st rv]|s] eqn:Hph; try done. destruct todo as [|i l], cur; try done.
  pose proof (ti_phase _ Ht) as Hp. unfold phase_inv in Hp. rewrite Hph in Hp.
  destruct (t_changes t) as [|c cs] eqn:Hcs; [done|]. destruct Hp as (Htr & _). cbn in Htr.
  destruct (pg_group t c cs i l st rv Ht Hcs Hph) as (g & Hi & Hun). pose proof Hun as (Hx & Hr).
  cbn in Hok. rewrite Hph in Hok. unfold pg_ok in Hok. rewrite Hcs, Hi in Hok. cbn in Hok.
  wstep. wstep. fold (pg_called t i l st rv). unfold subsystem_state_change_on_pg, current.
  wstep. wstep. wstep. cbn [t_changes pg_called set_phase]. rewrite Hcs. cbn [head lift_opt]. wstep. wstep. wstep.
  cbn [t_state pg_called set_phase]. rewrite (at_sg_id (pg_called t i l st rv) i g Hi).
  remember (ch_original c) as o eqn:Ho. remember (ch_requested c) as q eqn:Hrq.
  remember (t_state t) as x eqn:Hs. remember rv as v eqn:Hv.
  destruct Htr; (destruct Hx as [Hx|(Hrv & Hx)]; [|try done]);
    first [eapply on_pg_remove; eauto; by rewrite Hx | eapply on_pg_pause; eauto; fail
          |eapply on_pg_add; eauto; fail|eapply on_pg_resume; eauto; fail].
Qed.

(** ** Changes begin and end *)

Definition mid_state (x requested : subsystem_state) : subsystem_state :=
  match requested with
  | SPDK_NVMF_SUBSYSTEM_INACTIVE => SPDK_NVMF_SUBSYSTEM_DEACTIVATING
  | SPDK_NVMF_SUBSYSTEM_ACTIVE =>
      if bool_decide (x = SPDK_NVMF_SUBSYSTEM_PAUSED) then SPDK_NVMF_SUBSYSTEM_RESUMING
      else SPDK_NVMF_SUBSYSTEM_ACTIVATING
  | _ => SPDK_NVMF_SUBSYSTEM_PAUSING
  end.

Definition may_set (x state : subsystem_state) : bool :=
  bool_decide (x = expected_old_state state) || also_expected x state.

Lemma wp_set_state t x Q :
  may_set (t_state t) x = true -> Q 0 (set_t_state x t) -> wp (nvmf_subsystem_set_state x) Q t.
Proof. intros Hm HQ. unfold nvmf_subsystem_set_state. wstep. wstep. apply wp_bind, wp_assert; [done|]. by do 3 wstep. Qed.

Lemma wp_intermediate t x c Q :
  is_settled c -> Q (mid_state x c) t -> wp (nvmf_subsystem_get_intermediate_state x c) Q t.
Proof.
  intros Hc HQ. unfold nvmf_subsystem_get_intermediate_state. destruct Hc as [->|[->| ->]]; by apply wp_ret.
Qed.

Lemma wp_current t c l Q : t_changes t = c :: l -> Q c t -> wp current Q t.
Proof. intros Hc HQ. unfold current. wstep. wstep. rewrite Hc. by apply wp_ret. Qed.

Definition iterate (revert : bool) (t : tst) : tst :=
  set_phase (Running (Iter (seq 0 (length (t_groups t))) None 0 revert)) t.

(** nvmf_subsystem_do_state_change, as a function of the state. *)
Definition begin_change (t : tst) (c : change) (l : list change) : tst :=
  if bool_decide (t_state t = ch_requested c) then set_phase (Finishing 0) t
  else iterate false (set_t_state (mid_state (t_state t) (ch_requested c))
         (set_changes (Change (ch_requested c) (t_state t) (ch_nsid c) (ch_arg c) :: l) t)).

Lemma begin_trans x c :
  is_settled x -> is_settled c -> x <> c -> start_ok x c = true ->
  may_set x (mid_state x c) = true /\ trans x c (mid_state x c) false.
Proof.
  intros [->|[->| ->]] [->|[->| ->]] Hne Hok; try done; split; try reflexivity; constructor.
Qed.

Lemma wp_begin t c l Q :
  t_changes t = c :: l -> is_settled (t_state t) -> is_settled (ch_requested c) ->
  start_ok (t_state t) (ch_requested c) = true -> Q tt (begin_change t c l) ->
  wp nvmf_subsystem_do_state_change Q t.
Proof.
  intros Hc Hs Hr Hok HQ. unfold nvmf_subsystem_do_state_change. wstep. eapply wp_current; [done|]. wstep. wstep.
  unfold begin_change in HQ. case_bool_decide as Hx; [by apply wp_modify|].
  destruct (begin_trans _ _ Hs Hr Hx Hok) as (Hm & _). wstep. apply wp_intermediate; [done|]. wstep.
  unfold upd_current. wstep. wstep. rewrite Hc. wstep. wstep. apply wp_set_state; [done|]. by apply wp_modify.
Qed.

Lemma begin_inv t c l :
  t_changes t = c :: l -> settled t -> ch_original c = SPDK_NVMF_SUBSYSTEM_INACTIVE ->
  start_ok (t_state t) (ch_requested c) = true ->
  Forall (ginv (t_ns t)) (t_groups t) -> Forall (no_stranded (t_state t)) (t_groups t) ->
  Forall (fun c => is_settled (ch_requested c)) (t_changes t) ->
  Forall (fun c => ch_original c = SPDK_NVMF_SUBSYSTEM_INACTIVE) (tail (t_changes t)) ->
  tinv (begin_change t c l).
Proof.
  intros Hc Hs Hor Hok Hg Hq Hch Hfr. pose proof Hs as (Hst & HF). rewrite Hc in Hch, Hfr.
  inversion_clear Hch as [|? ? Hrq Hrest]. unfold begin_change. case_bool_decide as Hx.
  - split; cbn; rewrite ?Hc; try done; [|by constructor]. unfold phase_inv. cbn. rewrite ?Hc. split; [done|].
    intros _. split; [done|]. intros Hbad. congruence.
  - destruct (begin_trans _ _ Hst Hrq Hx Hok) as (_ & Htr). split; cbn; try done.
    + unfold phase_inv. cbn. split; [done|]. left. split; [done|]. exists 0%nat. cbn. split; [lia|].
      split; [by rewrite Nat.sub_0_r|]. split; [done|]. intros j g Hj. unfold place. rewrite decide_False, decide_False; [|lia|done].
      destruct (Forall_lookup_1 _ _ _ _ HF Hj) as (Hxg & Hr). split; [by left|done].
    + apply Forall_lookup. intros j g Hj Hact Hp Hd. destruct (Forall_lookup_1 _ _ _ _ HF Hj) as (Hxg & _).
      destruct Hrq as [Hr|[Hr|Hr]]; rewrite Hr in *; cbn in *; congruence.
    + by constructor.
Qed.

(** The change under way ends, or the groups go back. *)
Definition end_change (t : tst) (c : change) (l : list change) (st : Z) (rv : bool) : tst :=
  if rv then set_phase (Finishing (-1)) (set_t_state (ch_requested c) t)
  else if st =? 0 then set_phase (Finishing 0) (set_t_state (ch_requested c) t)
  else iterate true (set_changes (Change (ch_original c) (ch_original c) (ch_nsid c) (ch_arg c) :: l)
         (set_t_state (mid_state (ch_requested c) (ch_original c)) t)).

Lemma wp_end t c l st rv Q :
  tinv t -> t_changes t = c :: l -> t_phase t = Running (Iter [] None st rv) -> Q tt (end_change t c l st rv) ->
  wp call_completion Q t.
Proof.
  intros Ht Hc Hph HQ. unfold call_completion. wstep. wstep. rewrite Hph.
  pose proof (ti_phase _ Ht) as Hp. unfold phase_inv in Hp. rewrite Hph, Hc in Hp. destruct Hp as (Htr & Hr). cbn in Htr.
  destruct (trans_states _ _ _ _ Htr) as (Ho & _ & _ & _ & Hrv). unfold end_change in HQ.
  assert (Hmay : may_set (t_state t) (ch_requested c) = true) by (by destruct Htr).
  destruct rv.
  - unfold subsystem_state_change_revert_done. wstep. eapply wp_current; [done|]. wstep.
    apply wp_set_state; [done|]. by apply wp_modify.
  - unfold subsystem_state_change_done. wstep. eapply wp_current; [done|]. wstep. destruct (st =? 0) eqn:Hz.
    + wstep. apply wp_set_state; [done|]. wstep. cbn. by apply wp_modify.
    + wstep. rewrite Hz. cbn [negb]. wstep. apply wp_intermediate; [done|]. wstep. apply wp_set_state.
      * destruct Hr as [(H0 & _)|(_ & _ & _ & _ & Hact & _)]; [cbn in H0; lia|]. rewrite Hact in *. inversion Htr; done.
      * cbn [Z.eqb negb]. unfold upd_current. wstep. wstep. wstep. cbn [t_changes set_t_state]. rewrite Hc.
        wstep. by apply wp_modify.
Qed.

Lemma end_visited c it gs : running c it gs -> it_todo it = [] -> it_cur it = None -> it_status it = 0 ->
  Forall (visited c (it_revert it)) gs.
Proof.
  intros [(_ & k & Hk & Ht & _ & Hp)|(H0 & _)] Htd Hcur Hs; [|done]. rewrite Htd in Ht.
  assert (k = length gs) as ->.
  { destruct (length gs - k)%nat eqn:Hm; [lia|done]. }
  apply Forall_lookup. intros j g Hj. specialize (Hp _ _ Hj). unfold place in Hp.
  rewrite Hcur, decide_False, decide_True in Hp; [done|by eapply lookup_lt_Some|done].
Qed.

Lemma end_inv t c l st rv :
  tinv t -> t_changes t = c :: l -> t_phase t = Running (Iter [] None st rv) -> tinv (end_change t c l st rv).
Proof.
  intros [Hg Hp Hq Hch Hfr] Hc Hph. unfold phase_inv in Hp. rewrite Hph, Hc in Hp. destruct Hp as (Htr & Hr). cbn in Htr.
  destruct (trans_states _ _ _ _ Htr) as (Ho & Hrq & _ & _ & Hrv). rewrite Hc in Hch, Hfr.
  inversion_clear Hch as [|? ? _ Hrest].
  assert (Hdone : st = 0 -> Forall (visited c rv) (t_groups t)) by (intros ->; by apply (end_visited _ _ _ Hr)).
  assert (Hset : Forall (visited c rv) (t_groups t) -> settled (set_t_state (ch_requested c) t)).
  { intros HF. split; [done|]. eapply Forall_impl; [exact HF|]. intros g (H1 & H2 & _). done. }
  assert (Hst : Forall (visited c rv) (t_groups t) -> Forall (no_stranded (ch_requested c)) (t_groups t)).
  { intros HF. apply Forall_lookup. intros j g Hj Hact _ _. destruct (Forall_lookup_1 _ _ _ _ HF Hj) as (Hv & _).
    rewrite Hact in Hv. apply (Forall_lookup_1 _ _ _ _ Hq Hj); [done| |];
      rewrite <- Hv in Htr; inversion Htr; congruence. }
  unfold end_change. destruct rv.
  - assert (Hz : st = 0) by (destruct Hr as [(H0 & _)|(_ & ? & _)]; done).
    split; cbn; rewrite ?Hc; auto. unfold phase_inv. cbn. rewrite ?Hc. split; [exact (Hset (Hdone Hz))|]. done.
  - destruct (st =? 0) eqn:Hz.
    + apply Z.eqb_eq in Hz. split; cbn; rewrite ?Hc; auto. unfold phase_inv. cbn. rewrite ?Hc.
      split; [exact (Hset (Hdone Hz))|]. intros _. split; [done|]. intros _ Hpa. cbn.
      eapply Forall_impl; [exact (Hdone Hz)|]. intros g (_ & _ & Hsc). auto.
    + apply Z.eqb_neq in Hz. destruct Hr as [(H0 & _)|(_ & _ & _ & _ & Hact & HF)]; [done|].
      rewrite Hact in *. assert (Hmid : trans (ch_original c) (ch_original c) (mid_state SPDK_NVMF_SUBSYSTEM_ACTIVE (ch_original c)) true).
      { inversion Htr; constructor. }
      split; cbn; auto.
      * unfold phase_inv. cbn. split; [done|]. left. split; [done|]. exists 0%nat. cbn. split; [lia|].
        split; [by rewrite Nat.sub_0_r|]. split; [done|]. intros j g Hj. unfold place.
        rewrite decide_False, decide_False; [|lia|done]. destruct (Forall_lookup_1 _ _ _ _ HF Hj) as ([?|?] & Hrm);
          split; auto.
      * apply Forall_lookup. intros j g _ _ Hn1 Hn2. exfalso. clear - Hmid Hn1 Hn2. destruct (ch_original c); inversion Hmid; by cbn in *.
Qed.

(** nvmf_subsystem_state_change, and the completion of a change. *)
Definition submit_change (t : tst) (c : change) : tst :=
  let t1 := set_changes (t_changes t ++ [c]) t in
  match t_changes t with [] => begin_change t1 c [] | _ => t1 end.

Definition finish_change (t : tst) (c : change) (l : list change) (s : Z) : tst :=
  let t1 := set_phase Idle (set_changes l (log_change (ch_arg c, s) t)) in
  match l with [] => t1 | c2 :: l2 => begin_change t1 c2 l2 end.

Definition op_nsid (o : sop) : Z := match o with Pause nsid => nsid | _ => 0 end.
Definition op_change (o : sop) (cb_arg : Z) : change :=
  Change (op_state o) SPDK_NVMF_SUBSYSTEM_INACTIVE (u16 (op_nsid o)) cb_arg.

Lemma op_settled o : is_settled (op_state o).
Proof. unfold is_settled. destruct o; cbn; auto. Qed.

Lemma tinv_settled t : tinv t -> t_phase t = Idle -> t_changes t = [] /\ settled t.
Proof.
  intros Ht Hph. pose proof (ti_phase _ Ht) as Hp. unfold phase_inv in Hp. rewrite Hph in Hp. by destruct (t_changes t).
Qed.

Lemma tinv_no_changes t : tinv t -> t_changes t = [] -> t_phase t = Idle.
Proof.
  intros Ht Hc. pose proof (ti_phase _ Ht) as Hp. unfold phase_inv in Hp. rewrite Hc in Hp. by destruct (t_phase t).
Qed.

Lemma wp_submit t o cb_arg Q :
  tinv t -> ev_ok t (EvChange true o cb_arg) = true -> Q 0 (submit_change t (op_change o cb_arg)) ->
  wp (change_op true o cb_arg) Q t.
Proof.
  intros Ht Hok HQ. cbn in Hok.
  assert (He : change_op true o cb_arg = nvmf_subsystem_state_change true (op_nsid o) (op_state o) cb_arg)
    by (by destruct o).
  rewrite He. unfold nvmf_subsystem_state_change. cbn [negb]. do 4 wstep. wstep.
  fold (op_change o cb_arg). unfold submit_change in HQ. destruct (t_changes t) as [|c l] eqn:Hc; [|by do 2 wstep].
  destruct (tinv_settled t Ht (tinv_no_changes t Ht Hc)) as (_ & Hs & _).
  eapply wp_begin; [done|done|apply op_settled|done|]. by wstep.
Qed.

Lemma submit_inv t o cb_arg :
  tinv t -> ev_ok t (EvChange true o cb_arg) = true -> tinv (submit_change t (op_change o cb_arg)).
Proof.
  intros Ht Hok. cbn in Hok. unfold submit_change. destruct (t_changes t) as [|c l] eqn:Hc.
  - destruct (tinv_settled t Ht (tinv_no_changes t Ht Hc)) as (_ & Hs). destruct Ht. apply begin_inv; cbn; try done.
    constructor; [apply op_settled|done].
  - destruct Ht as [Hg Hp Hq Hch Hfr]. rewrite Hc in Hch, Hfr. split; cbn; try done.
    + unfold phase_inv in *. cbn. by rewrite Hc in Hp.
    + apply (Forall_app _ (c :: l)). split; [done|]. constructor; [apply op_settled|done].
    + apply Forall_app. split; [done|]. by constructor.
Qed.

Lemma finish_parts t c l s :
  tinv t -> t_changes t = c :: l -> t_phase t = Finishing s ->
  let t1 := set_phase Idle (set_changes l (log_change (ch_arg c, s) t)) in
  settled t1 /\ Forall (ginv (t_ns t1)) (t_groups t1) /\ Forall (no_stranded (t_state t1)) (t_groups t1) /\
  Forall (fun c => is_settled (ch_requested c)) (t_changes t1) /\
  Forall (fun c => ch_original c = SPDK_NVMF_SUBSYSTEM_INACTIVE) (t_changes t1).
Proof.
  intros [Hg Hp Hq Hch Hfr] Hc Hph. rewrite Hc in Hch, Hfr. inversion_clear Hch as [|? ? _ Hrest].
  unfold phase_inv in Hp. rewrite Hph, Hc in Hp. destruct Hp as (Hs & _). done.
Qed.

Lemma step_finish t Q :
  tinv t -> ev_ok t EvFinish = true ->
  (forall c l s, t_changes t = c :: l -> t_phase t = Finishing s -> Q tt (finish_change t c l s)) ->
  ((forall s, t_phase t <> Finishing s) -> Q tt t) ->
  wp _nvmf_subsystem_state_change_complete Q t.
Proof.
  intros Ht Hok HQ Hno. cbn in Hok. unfold _nvmf_subsystem_state_change_complete. wstep. wstep.
  destruct (t_phase t) as [|it|s] eqn:Hph; try (apply wp_ret, Hno; by intros ?).
  pose proof (ti_phase _ Ht) as Hp. unfold phase_inv in Hp. rewrite Hph in Hp.
  destruct (t_changes t) as [|c l] eqn:Hc; [done|]. specialize (HQ _ _ _ eq_refl eq_refl).
  destruct (finish_parts _ _ _ _ Ht Hc Hph) as (Hs & _ & _ & Hch & _). cbn in Hch.
  unfold finish_change in HQ. wstep. wstep. destruct l as [|c2 l2]; [by apply wp_ret|].
  inversion_clear Hch. eapply wp_begin; try done. apply Hs.
Qed.

Lemma finish_inv t c l s :
  tinv t -> ev_ok t EvFinish = true -> t_changes t = c :: l -> t_phase t = Finishing s -> tinv (finish_change t c l s).
Proof.
  intros Ht Hok Hc Hph. destruct (finish_parts _ _ _ _ Ht Hc Hph) as (Hs & Hg & Hq & Hch & Hfr).
  cbn in Hok. rewrite Hc in Hok. unfold finish_change. destruct l as [|c2 l2].
  - by split.
  - cbn in Hch, Hfr. inversion_clear Hfr. by apply begin_inv.
Qed.

(** Namespaces are added and removed. *)
Lemma ginv_ns nss g k ns :
  ginv nss g -> slot_idle k g = true -> sg_removals g = [] ->
  sg_state g = SPDK_NVMF_SUBSYSTEM_INACTIVE \/ sg_state g = SPDK_NVMF_SUBSYSTEM_PAUSED -> ginv (<[k := ns]> nss) g.
Proof.
  intros ([Hm Hio Haer Hb Hl Ho Hsl Hst] & Hqs) Hidle Hr Hx. split; [|done].
  split; try done; [by rewrite length_insert|]. intros k' ns' n Hk' Hn.
  apply list_lookup_insert_Some in Hk' as [(<- & <- & Hlt)|(_ & Hk')]; [|eauto].
  destruct (lookup_lt_is_Some_2 _ _ Hlt) as (ns0 & Hns0). pose proof (Hsl _ _ _ Hns0 Hn) as Hold.
  unfold slot_idle in Hidle. rewrite Hn in Hidle. right. destruct (ni_channel n) eqn:Hch; [|split; [|by right]].
  - cbn in Hidle. rewrite negb_true_iff in Hidle. apply bool_decide_eq_false in Hidle. split; [|by left].
    unfold state_inv in Hst. destruct Hx as [Hx|Hx]; rewrite Hx, ?Hr in Hst.
    + rewrite (Hio _ _ Hn). naive_solver.
    + destruct Hst as (_ & _ & HP). by apply (Forall_lookup_1 _ _ _ _ HP Hn).
  - destruct Hold as [(s & _ & Hu)|(? & _)]; [by rewrite Hch in Hu|done].
Qed.

Lemma tinv_settled_state t : tinv t -> is_settled (t_state t) -> settled t.
Proof.
  intros Ht Hs. pose proof (ti_phase _ Ht) as Hp. unfold phase_inv in Hp.
  destruct (t_phase t), (t_changes t); try done; [|naive_solver].
  destruct Hp as (Htr & _). apply trans_states in Htr. naive_solver.
Qed.

Lemma step_ns t k ns :
  tinv t -> ev_ok t (EvNs k ns) = true -> wp (subsystem_set_ns k ns) (step_post [] t) t.
Proof.
  intros Ht Hok. unfold subsystem_set_ns. wstep. wstep. cbn in Hok.
  assert (Hkey : t_state t = SPDK_NVMF_SUBSYSTEM_INACTIVE \/ t_state t = SPDK_NVMF_SUBSYSTEM_PAUSED ->
    forallb (slot_idle k) (t_groups t) = true ->
    step_post [] t tt (Tst (t_state t) (<[k := ns]> (t_ns t)) (t_changes t) (t_phase t) (t_groups t) (t_done t)
      (t_completed t) (t_freed t))).
  { intros Hs Hidle. split; [|by split]. destruct (tinv_settled_state t Ht) as (_ & HF); [unfold is_settled; tauto|].
    destruct Ht as [Hg Hp Hq Hch Hfr]. split; cbn; try done. apply Forall_lookup. intros j g Hj.
    destruct (Forall_lookup_1 _ _ _ _ HF Hj) as (Hx & Hr). rewrite forallb_forall in Hidle.
    apply ginv_ns; [by apply (Forall_lookup_1 _ _ _ _ Hg Hj)| |done|by rewrite Hx].
    by eapply Hidle, list_elem_of_In, list_elem_of_lookup_2. }
  destruct (t_state t) eqn:Hts; try done; apply wp_put, Hkey; auto.
Qed.
