(* ===== verification/SubsysTheorems.v ===== *)
(** * Correctness of the changes of state of a subsystem

    Over every history of changes, requests, completions and disconnections:
    no assertion fails and no request is lost; a change that is called back has
    been carried out by every poll group; a pause ends exactly when the requests
    it waits for are gone, and then nothing is in flight. *)

From S2P Require Import Prelude NvmfBdev Subsys SubsysInv SubsysReq SubsysExec SubsysGroup SubsysStep.

(** ** What the changes promise

    The changes that were asked for, in their order, with the argument of the
    callback; the state after those that have been called back is that of the
    last one that succeeded. *)

Definition new_ids (e : event) : list nat := match e with EvReq _ _ r => [q_id r] | _ => [] end.
Definition new_subs (e : event) : list (sop * Z) :=
  match e with EvChange true o cb_arg => [(o, cb_arg)] | _ => [] end.

Definition submitted (es : list event) : list (sop * Z) := concat (new_subs <$> es).
Definition arrived (es : list event) : list nat := concat (new_ids <$> es).

(** The state a call asks for, and the bits of the identifier that are kept. *)
Definition asked (p : sop * Z) : subsystem_state := op_state (fst p).
Definition named (p : sop * Z) : Z := u16 (op_nsid (fst p)).

Definition spec_state (subs : list (sop * Z)) (done : list (Z * Z)) : subsystem_state :=
  foldl (fun x p => if snd (snd p) =? 0 then asked (fst p) else x) SPDK_NVMF_SUBSYSTEM_INACTIVE (zip subs done).

Definition hist_head (x : subsystem_state) (post : list (sop * Z)) (t : tst) : Prop :=
  match t_phase t, post, t_changes t with
  | Idle, [], [] => t_state t = x
  | Running it, p :: _, c :: _ => ch_original c = x /\ (it_revert it = false -> asked p = ch_requested c)
  | Finishing s, p :: _, c :: _ => t_state t = if s =? 0 then asked p else x
  | _, _, _ => False
  end.

Definition hist (subs : list (sop * Z)) (t : tst) : Prop :=
  exists pre post, subs = pre ++ post /\ snd <$> pre = fst <$> t_done t /\
    snd <$> post = ch_arg <$> t_changes t /\ named <$> post = ch_nsid <$> t_changes t /\
    asked <$> tail post = ch_requested <$> tail (t_changes t) /\
    hist_head (spec_state pre (t_done t)) post t.

Lemma hist_same subs t t' : same_change t t' -> hist subs t -> hist subs t'.
Proof.
  intros (Hc & Hd & Hs & Hp) (pre & post & H1 & H2 & H3 & H4 & H5 & H6). exists pre, post.
  rewrite Hc, Hd. do 5 (split; [done|]). unfold hist_head in *. rewrite Hc, Hs.
  by destruct (t_phase t), (t_phase t'); simplify_eq/=; rewrite ?Hp.
Qed.

Lemma spec_state_snoc pre p done d :
  snd <$> pre = fst <$> done ->
  spec_state (pre ++ [p]) (done ++ [d]) = if snd d =? 0 then asked p else spec_state pre done.
Proof.
  intros H. apply (f_equal length) in H. rewrite !length_fmap in H. unfold spec_state.
  rewrite zip_with_app; [|done]. by rewrite foldl_app.
Qed.

(** A change begins where the ones before it have left the subsystem. *)
Lemma hist_begin pre p post t c l :
  t_changes t = c :: l -> snd <$> pre = fst <$> t_done t -> t_state t = spec_state pre (t_done t) ->
  snd p = ch_arg c -> named p = ch_nsid c -> asked p = ch_requested c ->
  snd <$> post = ch_arg <$> l -> named <$> post = ch_nsid <$> l -> asked <$> post = ch_requested <$> l ->
  hist (pre ++ p :: post) (begin_change t c l).
Proof.
  intros Hc Hd Hs Ha Hn Hr Hpa Hpn Hpr. exists pre, (p :: post). unfold begin_change.
  case_bool_decide as Hx; (split; [done|]); (split; [done|]); cbn; rewrite ?Hc; cbn; rewrite Ha, Hpa, Hn, Hpn;
    (split; [done|]); (split; [done|]); (split; [done|]).
  - unfold hist_head. cbn. rewrite ?Hc. congruence.
  - unfold hist_head. cbn. done.
Qed.

Lemma hist_submit subs t o cb_arg :
  tinv t -> hist subs t -> hist (subs ++ [(o, cb_arg)]) (submit_change t (op_change o cb_arg)).
Proof.
  intros Ht (pre & post & -> & Hd & Ha & Hn & Hr & Hh). unfold submit_change.
  destruct (t_changes t) as [|c l] eqn:Hc.
  - pose proof (tinv_no_changes _ Ht Hc) as Hph. unfold hist_head in Hh. rewrite Hph, Hc in Hh.
    destruct post; [|done]. rewrite app_nil_r. by apply hist_begin.
  - exists pre, (post ++ [(o, cb_arg)]). cbn. rewrite app_assoc. split; [done|]. split; [done|].
    rewrite !fmap_app, Ha, Hn. split; [done|]. split; [done|]. unfold hist_head in *. cbn. rewrite Hc in Hh.
    destruct post as [|p post]; [by destruct (t_phase t)|]. cbn in *. rewrite !fmap_app, Hr. split; [done|].
    by destruct (t_phase t).
Qed.

Lemma hist_finish subs t c l s :
  hist subs t -> t_changes t = c :: l -> t_phase t = Finishing s -> hist subs (finish_change t c l s).
Proof.
  intros (pre & post & -> & Hd & Ha & Hn & Hr & Hh) Hc Hph. unfold hist_head in Hh. rewrite Hph, Hc in *.
  destruct post as [|p post]; [done|]. cbn in Ha, Hn, Hr. injection Ha as Hap Ha. injection Hn as _ Hn.
  assert (Hd' : snd <$> (pre ++ [p]) = fst <$> (t_done t ++ [(ch_arg c, s)])).
  { rewrite !fmap_app, Hd. cbn. by rewrite Hap. }
  pose proof (spec_state_snoc pre p (t_done t) (ch_arg c, s) Hd) as Hsp. cbn in Hsp. rewrite <- Hh in Hsp.
  replace (pre ++ p :: post) with ((pre ++ [p]) ++ post) by (by rewrite <- app_assoc).
  unfold finish_change. destruct l as [|c2 l2].
  - apply fmap_nil_inv in Ha as ->. exists (pre ++ [p]), []. done.
  - destruct post as [|p2 post]; [done|]. cbn in Ha, Hn, Hr. injection Ha as Ha2 Ha. injection Hn as Hn2 Hn.
    injection Hr as Hr2 Hr.
    by apply hist_begin.
Qed.

Lemma hist_end subs t c l st rv :
  tinv t -> hist subs t -> t_changes t = c :: l -> t_phase t = Running (Iter [] None st rv) ->
  hist subs (end_change t c l st rv).
Proof.
  intros Ht (pre & post & -> & Hd & Ha & Hn & Hr & Hh) Hc Hph. unfold hist_head in Hh. rewrite Hph, Hc in *.
  destruct post as [|p post]; [done|]. cbn in Hh. destruct Hh as (Ho & Hrq).
  pose proof (ti_phase _ Ht) as Hp. unfold phase_inv in Hp. rewrite Hph, Hc in Hp. destruct Hp as (Htr & _).
  destruct (trans_states _ _ _ _ Htr) as (_ & _ & _ & _ & Hrv). cbn in Hrv.
  exists pre, (p :: post). unfold end_change, hist_head. destruct rv; [|destruct (st =? 0) eqn:Hz]; cbn; rewrite ?Hc; try done.
  - do 5 (split; [done|]). rewrite Hrv; done.
  - do 5 (split; [done|]). symmetry. auto.
Qed.

(** ** Histories *)

Definition ok_post (t : tst) (e : event) (_ : unit) (t' : tst) : Prop :=
  tinv t' /\ ids t' ≡ₚ new_ids e ++ ids t /\ forall subs, hist subs t -> hist (subs ++ new_subs e) t'.

Lemma step_post_ok t e u t' : new_subs e = [] -> step_post (new_ids e) t u t' -> ok_post t e u t'.
Proof.
  intros He (Ht & Hids & Hsame). split; [done|]. split; [done|]. intros subs Hh. rewrite He, app_nil_r.
  by eapply hist_same.
Qed.

Lemma stay_ok t e u : tinv t -> new_ids e = [] -> new_subs e = [] -> ok_post t e u t.
Proof. intros Ht He Hs. split; [done|]. rewrite He, Hs. split; [done|]. intros subs. by rewrite app_nil_r. Qed.

Lemma step_all t e : tinv t -> ev_ok t e = true -> wp (step_event e) (ok_post t e) t.
Proof.
  intros Ht Hok. destruct e as [alloc o a|E| | |E i|E i r|i r|i r|i q|k ns]; cbn [step_event].
  - destruct alloc.
    + wstep. eapply wp_submit; [done|done|]. wstep. split; [by apply submit_inv|]. split.
      * unfold submit_change, begin_change. destruct (t_changes t); [by case_bool_decide|done].
      * intros subs. by apply hist_submit.
    + assert (He : change_op false o a = mret (- ENOMEM)) by (by destruct o). rewrite He. do 3 wstep. by apply stay_ok.
  - eapply wp_mono; [by apply step_pg|]. intros u t' Hst. by apply step_post_ok.
  - assert (Hstay : wp (mret tt) (ok_post t EvIterDone) t) by (apply wp_ret; by apply stay_ok).
    destruct (t_phase t) as [|[[|i l] [j|] st rv]|s] eqn:Hph;
      try (unfold call_completion; do 2 wstep; rewrite Hph; exact Hstay).
    pose proof (ti_phase _ Ht) as Hp. unfold phase_inv in Hp. rewrite Hph in Hp.
    destruct (t_changes t) as [|c l] eqn:Hc; [done|]. eapply wp_end; [done|done|done|].
    split; [by apply end_inv|]. split; [unfold end_change; by repeat case_match|].
    intros subs Hh. rewrite app_nil_r. by apply hist_end.
  - eapply step_finish; [done|done| |intros _; by apply stay_ok]. intros c l s Hc Hph.
    split; [by apply finish_inv|]. split; [unfold finish_change, begin_change; repeat case_match; done|].
    intros subs Hh. rewrite app_nil_r. by apply hist_finish.
  - destruct (t_groups t !! i) as [g|] eqn:Hi; [|cbn in Hok; by rewrite Hi in Hok].
    eapply wp_mono; [by eapply step_remove_msg|]. intros u t' Hst. by apply step_post_ok.
  - destruct (t_groups t !! i) as [g|] eqn:Hi; [|cbn in Hok; by rewrite Hi in Hok].
    eapply wp_mono; [by eapply step_req|]. intros u t' Hst. by apply step_post_ok.
  - destruct (t_groups t !! i) as [g|] eqn:Hi; [|cbn in Hok; by rewrite Hi in Hok].
    eapply wp_mono; [by eapply step_complete|]. intros u t' Hst. by apply step_post_ok.
  - destruct (t_groups t !! i) as [g|] eqn:Hi; [|cbn in Hok; by rewrite Hi in Hok].
    eapply wp_mono; [by eapply step_free|]. intros u t' Hst. by apply step_post_ok.
  - cbn in Hok. apply Nat.ltb_lt in Hok. destruct (lookup_lt_is_Some_2 _ _ Hok) as (g & Hi).
    eapply wp_mono; [by eapply step_gone|]. intros u t' Hst. by apply step_post_ok.
  - eapply wp_mono; [by apply step_ns|]. intros u t' Hst. by apply step_post_ok.
Qed.

Lemma run_all es : forall t subs,
  tinv t -> hist subs t -> run_ok t es = true ->
  wp (run_events es) (fun _ t' => tinv t' /\ ids t' ≡ₚ arrived es ++ ids t /\ hist (subs ++ submitted es) t') t.
Proof.
  induction es as [|e es IH]; intros t subs Ht Hh Hok; cbn [run_events].
  - wstep. split; [done|]. split; [done|]. unfold submitted. cbn. by rewrite app_nil_r.
  - cbn [run_ok] in Hok. apply andb_true_iff in Hok as (Hev & Hrest).
    destruct (step_all t e Ht Hev) as (u & t1 & Hst & Ht1 & Hids & Hh1). rewrite Hst in Hrest.
    wstep. eapply wp_eval; [exact Hst|]. eapply wp_mono; [by apply (IH t1 (subs ++ new_subs e)); auto|].
    intros _ t' (Ht' & Hids' & Hh'). split; [done|]. split.
    + rewrite Hids', Hids. unfold arrived. cbn. perm_count.
    + unfold submitted in *. cbn. by rewrite app_assoc.
Qed.

Lemma sgroup0_inv nss : ginv nss sgroup0.
Proof.
  split; [|done]. split; cbn; try done; [by left|]. unfold state_inv. cbn. split; [done|].
  split; [constructor|by right].
Qed.

Lemma tst0_inv nss n : tinv (tst0 nss n) /\ hist [] (tst0 nss n) /\ ids (tst0 nss n) = [].
Proof.
  split; [|split].
  - split; cbn; try done.
    + apply Forall_replicate, sgroup0_inv.
    + split; [by left|]. by apply Forall_replicate.
    + by apply Forall_replicate.
  - by exists [], [].
  - unfold ids. cbn. rewrite app_nil_r. induction n; [done|]. cbn. done.
Qed.

Lemma run_all0 nss n es :
  run_ok (tst0 nss n) es = true ->
  wp (run_events es) (fun _ t' => tinv t' /\ ids t' ≡ₚ arrived es /\ hist (submitted es) t') (tst0 nss n).
Proof.
  intros Hok. destruct (tst0_inv nss n) as (Ht & Hh & Hi). eapply wp_mono; [by apply (run_all es _ [])|].
  intros [] t' (H1 & H2 & H3). by rewrite Hi, app_nil_r in H2.
Qed.

(** ** A history of a subsystem with two poll groups *)

Definition demo_ns (u : Z) : option sub_ns := Some (SubNs u 1000 0).
Definition demo_env (q : qpair_state) (st : exec_status) : senv := Senv true true (fun _ => true) false (fun _ => (q, st)).
Definition demo_async : senv := demo_env SPDK_NVMF_QPAIR_ENABLED ASYNCHRONOUS.
Definition demo_io (id : nat) (nsid : Z) : sreq := SReq id 1 false true 0x02 0 nsid 0 false.
Definition demo_admin (id : nat) : sreq := SReq id 0 true true 0x06 0 0 0 false.
Definition demo_aer (id : nat) : sreq := SReq id 0 true true 0x0c 0 0 0 false.
Definition demo_connect (id : nat) : sreq := SReq id 2 false false 0x7f 0x01 0 1024 true.
Definition demo_t0 : tst := tst0 [demo_ns 7; None] 2.

(** A change whose groups all continue at once. *)
Definition demo_change (o : sop) (cb_arg : Z) : list event :=
  [EvChange true o cb_arg; EvPg demo_async; EvPg demo_async; EvIterDone; EvFinish].

(** The first group pauses while an I/O and an admin command are in flight; an
    I/O that arrives meanwhile is queued. *)
Definition demo_pausing : list event :=
  demo_change Start 1 ++
  [EvReq demo_async 0 (demo_io 1 1); EvReq demo_async 0 (demo_admin 2); EvReq demo_async 0 (demo_aer 3);
   EvChange true (Pause 1) 2; EvChange true Resume 3; EvPg demo_async; EvReq demo_async 0 (demo_io 4 1);
   EvReq demo_async 0 (demo_connect 5)].

Definition demo_paused : list event :=
  demo_pausing ++ [EvComplete 0 (demo_admin 2); EvComplete 0 (demo_io 1 1); EvPg demo_async; EvIterDone].

(** A namespace is added while the subsystem is paused; it is resumed. *)
Definition demo_resumed : list event :=
  demo_paused ++
  [EvNs 1 (demo_ns 8); EvFinish; EvPg demo_async; EvPg demo_async; EvIterDone; EvFinish;
   EvComplete 0 (demo_connect 5); EvComplete 0 (demo_io 4 1); EvReq demo_async 1 (demo_io 6 2)].

Definition demo_view (es : list event) : option (subsystem_state * phase * list (Z * Z) * list nat) :=
  match run_events es demo_t0 with
  | Ok (_, t) => Some (t_state t, t_phase t, t_done t, t_completed t)
  | _ => None
  end.

(** ** Properties *)

(** C15: over every history of a subsystem that keeps to the rules of [ev_ok],
    whatever the interleaving of its poll groups, no assertion fails; the callbacks
    of the changes are called in the order of the calls; and when no change is
    under way every one has been called back, the state is that of the last change
    that succeeded, and every poll group is in that state.  The rules: a change
    whose context cannot be allocated is refused, but during a stop the poll groups
    can allocate; an inactive subsystem is not paused; a poll group has no requests
    queued and no queue pair when the subsystem is started; a queue pair with
    requests in flight is still connected when the subsystem is stopped or removed;
    a queue pair that admits requests has a controller, and opcode 0Ch comes on
    enabled admin queues only; what completes is in flight; and namespaces change
    while the subsystem is inactive or paused and the slot is idle. *)
Theorem changes_serialised nss n es :
  run_ok (tst0 nss n) es = true ->
  wp (run_events es)
    (fun _ t => fst <$> t_done t = take (length (t_done t)) (snd <$> submitted es) /\
       (t_phase t = Idle ->
        length (t_done t) = length (submitted es) /\ t_state t = spec_state (submitted es) (t_done t) /\
        Forall (fun g => sg_state g = t_state t) (t_groups t)))
    (tst0 nss n).
Proof.
  intros Hok. eapply wp_mono; [by apply run_all0|]. intros [] t (Ht & _ & pre & post & -> & Hd & Ha & _ & _ & Hh).
  pose proof (f_equal length Hd) as Hl. rewrite !length_fmap in Hl. split.
  - rewrite fmap_app, Hd, take_app_length' by (by rewrite length_fmap). done.
  - intros Hph. unfold hist_head in Hh. rewrite Hph in Hh. destruct post, (t_changes t); try done.
    rewrite app_nil_r. split; [done|]. split; [done|].
    destruct (tinv_settled t Ht Hph) as (_ & _ & HF). eapply Forall_impl; [exact HF|]. by intros g (? & _).
Qed.

Lemma changes_serialised_witness :
  wp (run_events demo_resumed)
    (fun _ t => fst <$> t_done t = take (length (t_done t)) (snd <$> submitted demo_resumed) /\
       (t_phase t = Idle ->
        length (t_done t) = length (submitted demo_resumed) /\ t_state t = spec_state (submitted demo_resumed) (t_done t) /\
        Forall (fun g => sg_state g = t_state t) (t_groups t)))
    demo_t0 /\
  demo_view demo_resumed = Some (SPDK_NVMF_SUBSYSTEM_ACTIVE, Idle, [(1, 0); (2, 0); (3, 0)], [2; 1; 5; 4]%nat).
Proof.
  split; [|reflexivity]. apply (changes_serialised [demo_ns 7; None] 2 demo_resumed). vm_compute. reflexivity.
Defined.

(** A paused group has no command in flight, but event requests and I/O to
    namespaces that are not paused. *)
Lemma paused_quiet nss nsid g r :
  ginv nss g -> sg_state g = SPDK_NVMF_SUBSYSTEM_PAUSED -> scope nsid g -> r ∈ sg_out g ->
  counted_mgmt r = false /\ forall k, covers nsid k = true -> counted_io k r = false.
Proof.
  intros (Hg & _) Hx Hsc Hr. pose proof (gc_state _ _ Hg) as Hst. unfold state_inv in Hst. rewrite Hx in Hst.
  destruct Hst as (Hm & _ & HF). split.
  - eapply cnt_zero; [|exact Hr]. by rewrite <- (gc_mgmt _ _ Hg).
  - intros k Hk. eapply cnt_zero; [|exact Hr]. destruct (decide (length (sg_ns g) <= k)%nat) as [|Hlt]; [by apply Hg|].
    destruct (lookup_lt_is_Some_2 (sg_ns g) k) as (n & Hn); [lia|]. rewrite <- (gc_io _ _ Hg _ _ Hn).
    apply (Forall_lookup_1 _ _ _ _ HF Hn). by apply (Hsc k).
Qed.

(** C16: over every history that keeps to the rules of C15, when the callback of a
    pause of an active subsystem is about to be called with status 0, it is the
    call whose turn it is, and, with the identifier of that call cut to 16 bits,
    no admin or fabrics command is in flight in any poll group except asynchronous
    event requests, and no I/O to the namespace the cut identifier names: 0 names
    none, and FFFFFFFFh, meant for all of them, is cut to that of namespace 65535.
    *)
Theorem pause_quiesces nss n es :
  run_ok (tst0 nss n) es = true ->
  wp (run_events es)
    (fun _ t => forall c l, t_changes t = c :: l -> t_phase t = Finishing 0 ->
       ch_requested c = SPDK_NVMF_SUBSYSTEM_PAUSED -> ch_original c = SPDK_NVMF_SUBSYSTEM_ACTIVE ->
       exists nsid, submitted es !! length (t_done t) = Some (Pause nsid, ch_arg c) /\
       forall g r, g ∈ t_groups t -> r ∈ sg_out g ->
         (has_sgroup r && is_mgmt r = true -> is_aer r = true) /\
         (has_sgroup r && negb (is_mgmt r) = true -> covers (u16 nsid) (ns_slot r) = false))
    (tst0 nss n).
Proof.
  intros Hok. eapply wp_mono; [by apply run_all0|].
  intros [] t (Ht & _ & pre & post & Hsub & Hd & Ha & Hn & _ & Hh) c l Hc Hph Hrq Hor.
  pose proof (ti_phase _ Ht) as Hp. unfold phase_inv in Hp. rewrite Hph, Hc in Hp. destruct Hp as ((_ & HF) & Htold).
  destruct (Htold eq_refl) as (Hst & Hsc). specialize (Hsc Hor Hrq). rewrite Forall_forall in HF, Hsc.
  unfold hist_head in Hh. rewrite Hph, Hc in *. destruct post as [|[o a] post]; [done|]. cbn in Ha, Hn, Hh.
  injection Ha as Ha _. injection Hn as Hn _. rewrite Hst, Hrq in Hh. destruct o as [| |nsid|]; try done.
  exists nsid. apply (f_equal length) in Hd. rewrite !length_fmap in Hd. split.
  { rewrite Hsub, <- Hd, lookup_app_r, Nat.sub_diag by done. cbn. by rewrite Ha. }
  intros g r Hg Hr. pose proof (ti_groups _ Ht) as Hgs. rewrite Forall_forall in Hgs.
  destruct (HF _ Hg) as (Hx & _). rewrite Hst, Hrq in Hx.
  destruct (paused_quiet _ _ _ _ (Hgs _ Hg) Hx (Hsc _ Hg) Hr) as (Hm & Hio). split.
  - intros Hmg. unfold counted_mgmt in Hm. rewrite Hmg in Hm. by destruct (is_aer r).
  - intros Hi. change (u16 nsid) with (named (Pause nsid, a)). rewrite Hn.
    destruct (covers (ch_nsid c) (ns_slot r)) eqn:Hcv; [|done]. specialize (Hio _ Hcv).
    unfold counted_io in Hio. by rewrite Hi, Nat.eqb_refl in Hio.
Qed.

Lemma pause_quiesces_witness :
  wp (run_events demo_paused)
    (fun _ t => forall c l, t_changes t = c :: l -> t_phase t = Finishing 0 ->
       ch_requested c = SPDK_NVMF_SUBSYSTEM_PAUSED -> ch_original c = SPDK_NVMF_SUBSYSTEM_ACTIVE ->
       exists nsid, submitted demo_paused !! length (t_done t) = Some (Pause nsid, ch_arg c) /\
       forall g r, g ∈ t_groups t -> r ∈ sg_out g ->
         (has_sgroup r && is_mgmt r = true -> is_aer r = true) /\
         (has_sgroup r && negb (is_mgmt r) = true -> covers (u16 nsid) (ns_slot r) = false))
    demo_t0 /\
  demo_view demo_paused = Some (SPDK_NVMF_SUBSYSTEM_PAUSED, Finishing 0, [(1, 0)], [2; 1]%nat).
Proof.
  split; [|reflexivity]. apply (pause_quiesces [demo_ns 7; None] 2 demo_paused). vm_compute. reflexivity.
Defined.

(** ** A pause ends *)

(** A pausing group waits for a request in flight. *)
Lemma pausing_busy nss g : ginv nss g -> sg_state g = SPDK_NVMF_SUBSYSTEM_PAUSING -> sg_out g <> [].
Proof.
  intros (Hg & Hq) Hx Ho. unfold quiescent in Hq. rewrite Hx, bool_decide_true in Hq; [|done].
  rewrite (gc_mgmt _ _ Hg), Ho in Hq. cbn in Hq. assert (Hqt : ns_quiet (sg_ns g) = true); [|congruence].
  apply forallb_forall. intros n Hin. apply list_elem_of_In, list_elem_of_lookup in Hin as (k & Hk).
  rewrite (gc_io _ _ Hg _ _ Hk), Ho. cbn. by rewrite andb_false_r.
Qed.

Definition drained (t : tst) (i : nat) : Prop :=
  exists g it, t_groups t !! i = Some g /\ sg_state g = SPDK_NVMF_SUBSYSTEM_PAUSED /\ sg_out g = [] /\
    t_phase t = Running it /\ it_cur it = None.

(** The requests of the group complete, in any order. *)
Lemma drain_group i l : forall t g it,
  tinv t -> t_groups t !! i = Some g -> l ≡ₚ sg_out g -> t_phase t = Running it ->
  sg_state g = SPDK_NVMF_SUBSYSTEM_PAUSING \/ sg_state g = SPDK_NVMF_SUBSYSTEM_PAUSED /\ it_cur it = None ->
  wp (run_events (EvComplete i <$> l)) (fun _ t' => drained t' i) t.
Proof.
  induction l as [|r l IH]; intros t g it Ht Hi Hl Hph Hx; cbn [fmap list_fmap run_events].
  - apply wp_ret. apply Permutation_nil_l in Hl. symmetry in Hl. destruct Hx as [Hx|(Hx & Hcur)].
    + by apply (pausing_busy _ _ (group_inv _ _ _ Ht Hi)) in Hx.
    + by exists g, it.
  - assert (Hr : r ∈ sg_out g) by (rewrite <- Hl; left).
    assert (Hok : ev_ok t (EvComplete i r) = true) by (cbn; rewrite Hi; by apply bool_decide_eq_true).
    assert (Hcall : sg_state g = SPDK_NVMF_SUBSYSTEM_PAUSING -> called t i).
    { intros Hp. destruct (phase_waits _ _ _ (ti_phase _ Ht) Hi (or_introl Hp)) as (c & m & it' & _ & ? & ? & _). by exists it'. }
    pose proof (step_complete _ _ _ Ht Hi _ Hok) as H1.
    pose proof (wp_complete_inv _ _ _ _ _ (group_lt _ _ _ Hi) (group_inv _ _ _ Ht Hi) Hr Hcall) as H2.
    rewrite <- (at_sg_id _ _ _ Hi) in H2. cbn [step_event]. wstep.
    eapply wp_mono; [exact (wp_conj _ _ _ _ H1 H2)|].
    intros [] t' ((Ht' & _ & _) & g' & Hp & _ & _ & _ & Hcase).
    assert (Hl' : l ≡ₚ sg_out g') by (apply (Permutation_cons_inv (a := r)); by rewrite <- Hp).
    pose proof (group_lt _ _ _ Hi) as Hlt.
    destruct Hcase as [(Hx' & ->)|(Hx1 & Hx' & ->)].
    + apply (IH _ g' it); try done; [|by rewrite Hx']. cbn. by rewrite list_lookup_insert_eq.
    + destruct (Hcall Hx1) as (it' & Hph' & Hcur'). rewrite Hph in Hph'. injection Hph' as <-.
      eapply (IH _ g'); [done| |done| |right; split; [done|]].
      * cbn. unfold advance. cbn. rewrite Hph. cbn. by rewrite list_lookup_insert_eq.
      * cbn. unfold advance. cbn. by rewrite Hph.
      * done.
Qed.

(** C17: no wake-up is lost: in a history that keeps to the rules of C15 (a
    Verify command, whose opcode is 0Ch, on an I/O queue breaks them, and so does
    an event request released while its queue pair is being disconnected), from
    every state in which a poll group is pausing, the completion of the requests
    it has in flight, in any order, ends its pause and lets the change go on to the
    next group. *)
Theorem pause_ends nss n es t i g l :
  run_ok (tst0 nss n) es = true -> run_events es (tst0 nss n) = Ok (tt, t) ->
  t_groups t !! i = Some g -> sg_state g = SPDK_NVMF_SUBSYSTEM_PAUSING -> l ≡ₚ sg_out g ->
  wp (run_events (EvComplete i <$> l)) (fun _ t' => drained t' i) t.
Proof.
  intros Hok Hrun Hi Hx Hl. destruct (run_all0 nss n es Hok) as (u & t0 & Hrun' & Ht & _). rewrite Hrun in Hrun'.
  injection Hrun' as <- <-. destruct (phase_waits _ _ _ (ti_phase _ Ht) Hi (or_introl Hx)) as (c & m & it & _ & Hph & _).
  eapply drain_group; eauto.
Qed.

Lemma pause_ends_witness :
  match run_events demo_pausing demo_t0 with
  | Ok (_, t) => wp (run_events [EvComplete 0 (demo_aer 3); EvComplete 0 (demo_io 1 1); EvComplete 0 (demo_admin 2)])
                   (fun _ t' => drained t' 0) t
  | _ => False
  end.
Proof.
  destruct (run_events demo_pausing demo_t0) as [[[] t]| | |] eqn:Hrun; vm_compute in Hrun; try discriminate Hrun.
  eapply (pause_ends [demo_ns 7; None] 2 demo_pausing t 0 _ [demo_aer 3; demo_io 1 1; demo_admin 2]).
  - vm_compute. reflexivity.
  - change (tst0 [demo_ns 7; None] 2) with demo_t0. vm_compute. exact Hrun.
  - injection Hrun as <-. reflexivity.
  - reflexivity.
  - vm_compute. apply (Permutation_app_comm [demo_aer 3] [demo_io 1 1; demo_admin 2]).
Defined.

(** C18: every request that arrived is in exactly one place: in flight or queued
    at one poll group, completed, or freed with its queue pair; and at an active
    subsystem no request is queued.  The history keeps to the rules of C15. *)
Theorem requests_accounted nss n es :
  run_ok (tst0 nss n) es = true ->
  wp (run_events es)
    (fun _ t => arrived es ≡ₚ concat (held <$> t_groups t) ++ t_completed t ++ t_freed t /\
       (t_state t = SPDK_NVMF_SUBSYSTEM_ACTIVE -> Forall (fun g => sg_queued g = []) (t_groups t)))
    (tst0 nss n).
Proof.
  intros Hok. eapply wp_mono; [by apply run_all0|]. intros [] t (Ht & Hids & _). split; [by rewrite <- Hids|].
  intros Hx. destruct (tinv_settled_state t Ht) as (_ & HF); [unfold is_settled; tauto|].
  apply Forall_lookup. intros j g Hj. destruct (Forall_lookup_1 _ _ _ _ HF Hj) as (Hg & _).
  apply (Forall_lookup_1 _ _ _ _ (ti_queued _ Ht) Hj); rewrite ?Hx; congruence.
Qed.

Lemma requests_accounted_witness :
  wp (run_events demo_resumed)
    (fun _ t => arrived demo_resumed ≡ₚ concat (held <$> t_groups t) ++ t_completed t ++ t_freed t /\
       (t_state t = SPDK_NVMF_SUBSYSTEM_ACTIVE -> Forall (fun g => sg_queued g = []) (t_groups t)))
    demo_t0 /\ arrived demo_resumed = [1; 2; 3; 4; 5; 6]%nat.
Proof.
  split; [|reflexivity]. apply (requests_accounted [demo_ns 7; None] 2 demo_resumed). vm_compute. reflexivity.
Defined.

(** ** What the histories leave out *)

Definition demo_group (es : list event) (i : nat) : option (subsystem_state * Z * list Z * nat * nat) :=
  match run_events es demo_t0 with
  | Ok (_, t) =>
      g ← t_groups t !! i;
      Some (sg_state g, mgmt_io_outstanding g, io_outstanding <$> sg_ns g, length (sg_out g), length (sg_queued g))
  | _ => None
  end.

(** The completion of a command with opcode 0Ch on an I/O queue (Verify) is taken
    for that of an event request: the namespace keeps a count for it, and a pause
    of the namespace waits for ever, with nothing in flight. *)
Lemma verify_blocks_pause :
  demo_group (demo_change Start 1 ++
      [EvReq (demo_env SPDK_NVMF_QPAIR_ENABLED COMPLETE) 0 (SReq 1 1 false true 0x0c 0 1 0 false);
       EvChange true (Pause 1) 2; EvPg demo_async]) 0
  = Some (SPDK_NVMF_SUBSYSTEM_PAUSING, 0, [1; 0], 0%nat, 0%nat).
Proof. vm_compute. reflexivity. Qed.

(** An event request that was queued during a pause and is released when its
    queue pair is being disconnected stays in the count of management commands:
    the next pause waits for ever. *)
Lemma aer_blocks_pause :
  demo_group (demo_change Start 1 ++
      [EvChange true (Pause 0) 2; EvPg demo_async; EvReq demo_async 0 (demo_aer 1); EvPg demo_async; EvIterDone; EvFinish;
       EvChange true Resume 3; EvPg (demo_env SPDK_NVMF_QPAIR_DEACTIVATING COMPLETE); EvPg demo_async; EvIterDone; EvFinish;
       EvChange true (Pause 0) 4; EvPg demo_async]) 0
  = Some (SPDK_NVMF_SUBSYSTEM_PAUSING, 1, [0; 0], 0%nat, 0%nat).
Proof. vm_compute. reflexivity. Qed.

(** A connect command that arrives while the subsystem is inactive is queued, and
    the start of the subsystem fails an assertion. *)
Lemma queued_connect_stops_start :
  run_events [EvReq (demo_env SPDK_NVMF_QPAIR_CONNECTING ASYNCHRONOUS) 0 (demo_connect 1);
              EvChange true Start 1; EvPg demo_async] demo_t0 = UB UB_assert.
Proof. vm_compute. reflexivity. Qed.

(** A stop that fails for lack of memory cannot be undone. *)
Lemma failed_stop_asserts :
  run_events (demo_change Start 1 ++
    [EvChange true Stop 2; EvPg (Senv false true (fun _ => true) false (e_exec demo_async)); EvIterDone]) demo_t0
  = UB UB_assert.
Proof. vm_compute. reflexivity. Qed.

(** The pause of an inactive subsystem fails an assertion. *)
Lemma pause_inactive_asserts : run_events [EvChange true (Pause 1) 1] demo_t0 = UB UB_assert.
Proof. vm_compute. reflexivity. Qed.

(** A second pause, of another namespace, succeeds at once and leaves that
    namespace as it is: its I/O goes on. *)
Lemma second_pause_ignored :
  demo_group (demo_change Start 1 ++ demo_change (Pause 2) 2 ++
      [EvChange true (Pause 1) 3; EvFinish; EvReq demo_async 0 (demo_io 1 1)]) 0
  = Some (SPDK_NVMF_SUBSYSTEM_PAUSED, 0, [1; 0], 1%nat, 0%nat) /\
  demo_view (demo_change Start 1 ++ demo_change (Pause 2) 2 ++ [EvChange true (Pause 1) 3; EvFinish])
  = Some (SPDK_NVMF_SUBSYSTEM_PAUSED, Idle, [(1, 0); (2, 0); (3, 0)], []).
Proof. split; vm_compute; reflexivity. Qed.

(** A resumption that fails in the second group is undone by a pause of no
    namespace: the subsystem is paused again, but the first group goes on with the
    I/O of the namespace that had been paused. *)
Lemma failed_resume_unpauses :
  let es := demo_change Start 1 ++ demo_change (Pause 1) 2 ++
    [EvNs 1 (demo_ns 8); EvChange true Resume 3; EvPg demo_async;
     EvPg (Senv true true (fun _ => false) false (e_exec demo_async)); EvIterDone;
     EvPg demo_async; EvPg demo_async; EvIterDone; EvFinish; EvReq demo_async 0 (demo_io 1 1)] in
  demo_group es 0 = Some (SPDK_NVMF_SUBSYSTEM_PAUSED, 0, [1; 0], 1%nat, 0%nat) /\
  demo_view es = Some (SPDK_NVMF_SUBSYSTEM_PAUSED, Idle, [(1, 0); (2, 0); (3, -1)], []).
Proof. split; vm_compute; reflexivity. Qed.

(** A pause of all namespaces, by the identifier FFFFFFFFh, loses its upper bits on
    the way to the poll groups: it pauses none of them, and succeeds while their
    I/O is in flight. *)
Lemma global_pause_pauses_none :
  let es := demo_change Start 1 ++ [EvReq demo_async 0 (demo_io 1 1)]
            ++ demo_change (Pause SPDK_NVME_GLOBAL_NS_TAG) 2 ++ [EvReq demo_async 0 (demo_io 2 1)] in
  demo_group es 0 = Some (SPDK_NVMF_SUBSYSTEM_PAUSED, 0, [2; 0], 2%nat, 0%nat) /\
  demo_view es = Some (SPDK_NVMF_SUBSYSTEM_PAUSED, Idle, [(1, 0); (2, 0)], []).
Proof. split; vm_compute; reflexivity. Qed.
