(* ===== verification/Pipe.v ===== *)
(** * Pipes (lib/util/pipe.c) and scattered memory (lib/util/iov.c)

    A pipe is a ring of bytes over a buffer; pipes of a group give their buffer
    back when they are empty and take one when they are written to.  The memory
    is a map from buffers to their bytes, so that two iovecs may point into the
    same buffer; pipes and groups are objects of a heap.  A buffer on the list of
    a group holds the link and the size in its first 12 bytes, and what is written
    there is written to the memory; the list of a group is also a list of buffers
    and sizes here, so that a walk does not decode the bytes. *)

From S2P Require Import Prelude.

(** ** Memory *)

(** A pointer: buffer and offset. *)
Record iovec := Iov { iov_base : option (nat * Z); iov_len : Z }.

Definition iov0 : iovec := Iov None 0.

Record pipe := Pipe {
  p_buf : option nat;
  p_sz : Z;
  p_write : Z;
  p_read : Z;
  p_full : bool;
  p_group : option nat }.

Record pst := Pst {
  mem : gmap nat (list Z);
  pipes : gmap nat pipe;
  pgroups : gmap nat (list (nat * Z)) }.

Definition set_mem (f : gmap nat (list Z) -> gmap nat (list Z)) (s : pst) : pst :=
  Pst (f (mem s)) (pipes s) (pgroups s).
Definition set_pipes (f : gmap nat pipe -> gmap nat pipe) (s : pst) : pst :=
  Pst (mem s) (f (pipes s)) (pgroups s).
Definition set_pgroups (f : gmap nat (list (nat * Z)) -> gmap nat (list (nat * Z))) (s : pst) : pst :=
  Pst (mem s) (pipes s) (f (pgroups s)).

Definition with_buf (b : option nat) (p : pipe) : pipe :=
  Pipe b (p_sz p) (p_write p) (p_read p) (p_full p) (p_group p).
Definition with_group (g : option nat) (p : pipe) : pipe :=
  Pipe (p_buf p) (p_sz p) (p_write p) (p_read p) (p_full p) g.
(** The three fields of the ring. *)
Definition with_ring (w r : Z) (f : bool) (p : pipe) : pipe :=
  Pipe (p_buf p) (p_sz p) w r f (p_group p).

Definition load_pipe (i : nat) : M pst pipe := s ← get; lift_opt UB_null (pipes s !! i).
Definition store_pipe (i : nat) (p : pipe) : M pst unit := modify (set_pipes <[i := p]>).
Definition load_group (g : nat) : M pst (list (nat * Z)) := s ← get; lift_opt UB_null (pgroups s !! g).
Definition store_group (g : nat) (l : list (nat * Z)) : M pst unit := modify (set_pgroups <[g := l]>).

(** The [n] bytes at a pointer. *)
Definition mem_read (ptr : option (nat * Z)) (n : Z) : M pst (list Z) :=
  if n =? 0 then mret []
  else
    '(b, off) ← lift_opt UB_null ptr;
    s ← get;
    l ← lift_opt UB_freed (mem s !! b);
    if (0 <=? off) && (off + n <=? Z.of_nat (length l))
    then mret (take (Z.to_nat n) (drop (Z.to_nat off) l))
    else fail UB_bounds.

(** [bs] over the bytes from [off] on. *)
Definition overwrite (off : nat) (bs l : list Z) : list Z :=
  take off l ++ bs ++ drop (off + length bs) l.

Definition mem_write (ptr : option (nat * Z)) (bs : list Z) : M pst unit :=
  match bs with
  | [] => mret tt
  | _ =>
      '(b, off) ← lift_opt UB_null ptr;
      s ← get;
      l ← lift_opt UB_freed (mem s !! b);
      if (0 <=? off) && (off + Z.of_nat (length bs) <=? Z.of_nat (length l))
      then put (set_mem <[b := overwrite (Z.to_nat off) bs l]> s)
      else fail UB_bounds
  end.

(** ** Creation and groups *)

(** [mem_ok]: whether calloc succeeds; the new pipe gets the number [i]. *)
Definition spdk_pipe_create (mem_ok : bool) (i buf : nat) (sz : Z) : M pst (option nat) :=
  if mem_ok then _ ← store_pipe i (Pipe (Some buf) sz 0 0 false None); mret (Some i)
  else mret None.

(** struct spdk_pipe_buf over the start of a free buffer: the link, 8 bytes, and
    the size, 4 bytes.  The address of a buffer is its number plus one. *)
Definition PIPE_HDR : Z := 12.
Definition link_bytes (next : option nat) : list Z :=
  le_bytes 8 (match next with Some b => Z.of_nat b + 1 | None => 0 end).

(** The buffer before [b] on a list and the one after it. *)
Fixpoint slist_prev (b : nat) (l : list (nat * Z)) : option (nat * option nat) :=
  match l with
  | (c, _) :: l' =>
      match l' with
      | (d, _) :: l2 => if (d =? b)%nat then Some (c, fst <$> head l2) else slist_prev b l'
      | [] => None
      end
  | [] => None
  end.

(** SLIST_REMOVE: the first element leaves through the head of the list, another
    through the link of the element before it. *)
Definition slist_unlink (b : nat) (l : list (nat * Z)) : M pst unit :=
  if bool_decide (fst <$> head l = Some b) then mret tt
  else match slist_prev b l with
       | Some (c, next) => mem_write (Some (c, 0)) (link_bytes next)
       | None => fail UB_null
       end.

(** The first buffer of the right size is taken off the list. *)
Fixpoint take_buf (sz : Z) (l : list (nat * Z)) : option (nat * list (nat * Z)) :=
  match l with
  | [] => None
  | (b, z) :: l' =>
      if z =? sz then Some (b, l')
      else match take_buf sz l' with
           | Some (x, m) => Some (x, (b, z) :: m)
           | None => None
           end
  end.

Definition pipe_alloc_buf_from_group (i : nat) : M pst unit :=
  p ← load_pipe i;
  g ← lift_opt UB_assert (p_group p);
  l ← load_group g;
  match take_buf (p_sz p) l with
  | Some (b, l') =>
      _ ← slist_unlink b l;
      _ ← store_group g l';
      store_pipe i (with_buf (Some b) p)
  | None => fail UB_assert
  end.

(** The buffer goes to the front of the group's list: its size and its link are
    stored in its own first bytes. *)
Definition release_buf (g i : nat) (p : pipe) : M pst unit :=
  b ← lift_opt UB_null (p_buf p);
  l ← load_group g;
  _ ← mem_write (Some (b, 8)) (le_bytes 4 (p_sz p));
  _ ← mem_write (Some (b, 0)) (link_bytes (fst <$> head l));
  _ ← store_group g ((b, p_sz p) :: l);
  store_pipe i (with_buf None p).

Definition spdk_pipe_group_create (mem_ok : bool) (g : nat) : M pst (option nat) :=
  if mem_ok then _ ← store_group g []; mret (Some g) else mret None.

Definition spdk_pipe_group_destroy (g : nat) : M pst unit :=
  l ← load_group g;
  _ ← c_assert (bool_decide (l = []));
  modify (set_pgroups (delete g)).

Definition spdk_pipe_group_add (g i : nat) : M pst Z :=
  p ← load_pipe i;
  _ ← c_assert (bool_decide (p_group p = None));
  let p := with_group (Some g) p in
  _ ← store_pipe i p;
  if negb (p_read p =? p_write p) || p_full p then mret 0
  else _ ← release_buf g i p; mret 0.

Definition spdk_pipe_group_remove (g i : nat) : M pst Z :=
  p ← load_pipe i;
  _ ← c_assert (bool_decide (p_group p = Some g));
  _ ← match p_buf p with
      | None =>
          _ ← pipe_alloc_buf_from_group i;
          p ← load_pipe i; c_assert (negb (bool_decide (p_buf p = None)))
      | Some _ => mret tt
      end;
  p ← load_pipe i;
  _ ← store_pipe i (with_group None p);
  mret 0.

(** Result: the buffer for the caller to free. *)
Definition spdk_pipe_destroy (i : option nat) : M pst (option nat) :=
  match i with
  | None => mret None
  | Some i =>
      p ← load_pipe i;
      _ ← match p_group p with Some g => spdk_pipe_group_remove g i | None => mret 0 end;
      p ← load_pipe i;
      _ ← modify (set_pipes (delete i));
      mret (p_buf p)
  end.

(** ** Writing and reading *)

(** A pointer into the buffer of a pipe; NULL for an empty piece. *)
Definition at_buf (p : pipe) (off : Z) : option (nat * Z) := b ← p_buf p; Some (b, off).

(** Result: the number of bytes, and the iovecs that were set. *)
Definition spdk_pipe_writer_get_buffer (i : nat) (requested_sz : Z) : M pst (Z * list iovec) :=
  p ← load_pipe i;
  if p_full p || (requested_sz =? 0) then mret (0, [iov0])
  else
    _ ← match p_buf p with None => pipe_alloc_buf_from_group i | Some _ => mret tt end;
    p ← load_pipe i;
    if p_read p <=? p_write p then
      let sz := Z.min requested_sz (u32 (p_sz p - p_write p)) in
      let rest := u32 (requested_sz - sz) in
      let sz2 := if 0 <? rest then Z.min rest (p_read p) else 0 in
      mret (s32 (sz + sz2),
            [Iov (at_buf p (p_write p)) sz; Iov (if sz2 =? 0 then None else at_buf p 0) sz2])
    else
      let sz := Z.min requested_sz (u32 (p_read p - p_write p)) in
      mret (s32 sz, [Iov (at_buf p (p_write p)) sz; iov0]).

Definition spdk_pipe_writer_advance (i : nat) (requested_sz : Z) : M pst Z :=
  p ← load_pipe i;
  let read := p_read p in
  let write := p_write p in
  if (p_sz p <? requested_sz) || p_full p then mret (- EINVAL)
  else
    let finish (write' : Z) : M pst Z :=
      _ ← store_pipe i (with_ring write' read (if read =? write' then true else p_full p) p);
      mret 0 in
    if read <=? write then
      if u32 (u32 (p_sz p - write) + read) <? requested_sz then mret (- EINVAL)
      else
        let sz := Z.min requested_sz (u32 (p_sz p - write)) in
        let w := u32 (write + sz) in
        let w := if w =? p_sz p then 0 else w in
        let rest := u32 (requested_sz - sz) in
        finish (if 0 <? rest then rest else w)
    else if u32 (read - write) <? requested_sz then mret (- EINVAL)
    else finish (u32 (write + requested_sz)).

Definition bytes_available (p : pipe) : Z :=
  if (p_read p =? p_write p) && negb (p_full p) then 0
  else if p_read p <? p_write p then u32 (p_write p - p_read p)
  else u32 (u32 (p_sz p - p_read p) + p_write p).

Definition spdk_pipe_reader_bytes_available (i : nat) : M pst Z :=
  p ← load_pipe i; mret (bytes_available p).

Definition spdk_pipe_reader_get_buffer (i : nat) (requested_sz : Z) : M pst (Z * list iovec) :=
  p ← load_pipe i;
  if (p_read p =? p_write p) && negb (p_full p) || (requested_sz =? 0) then mret (0, [iov0; iov0])
  else if p_read p <? p_write p then
    let sz := Z.min requested_sz (u32 (p_write p - p_read p)) in
    mret (s32 sz, [Iov (at_buf p (p_read p)) sz; iov0])
  else
    let sz := Z.min requested_sz (u32 (p_sz p - p_read p)) in
    let rest := u32 (requested_sz - sz) in
    let sz2 := if 0 <? rest then Z.min rest (p_write p) else 0 in
    mret (s32 (sz + sz2),
          [Iov (at_buf p (p_read p)) sz; Iov (if sz2 =? 0 then None else at_buf p 0) sz2]).

(** The end of spdk_pipe_reader_advance, with the new read position. *)
Definition reader_finish (i : nat) (read : Z) (p : pipe) : M pst Z :=
  if read =? p_write p then
    let p := with_ring 0 0 false p in
    _ ← store_pipe i p;
    _ ← match p_group p with Some g => release_buf g i p | None => mret tt end;
    mret 0
  else _ ← store_pipe i (with_ring (p_write p) read false p); mret 0.

Definition spdk_pipe_reader_advance (i : nat) (requested_sz : Z) : M pst Z :=
  p ← load_pipe i;
  let read := p_read p in
  let write := p_write p in
  if requested_sz =? 0 then mret 0
  else if read <? write then
    if u32 (write - read) <? requested_sz then mret (- EINVAL)
    else reader_finish i (u32 (read + requested_sz)) p
  else
    let sz := Z.min requested_sz (u32 (p_sz p - read)) in
    let r := u32 (read + sz) in
    let r := if r =? p_sz p then 0 else r in
    let rest := u32 (requested_sz - sz) in
    if 0 <? rest then
      if write <? rest then mret (- EINVAL) else reader_finish i rest p
    else reader_finish i r p.

(** ** Scattered memory *)

Definition ptr_add (ptr : option (nat * Z)) (n : Z) : option (nat * Z) :=
  '(b, off) ← ptr; Some (b, off + n).

(** One iterator of struct spdk_ioviter: the rest of the current element and the
    elements after it. *)
Definition ioviter := (iovec * list iovec)%type.

(** What is left of an iterator after [len] bytes. *)
Definition iter_step (len : Z) (it : ioviter) : option ioviter :=
  let '(v, vs) := it in
  if iov_len v =? len then match vs with [] => None | w :: ws => Some (w, ws) end
  else Some (Iov (ptr_add (iov_base v) len) (iov_len v - len), vs).

(** The loop of spdk_iovcpy; it ends when an iterator is at its end or at an
    element of length 0. *)
Fixpoint iovcpy_loop (fuel : nat) (s d : option ioviter) (total : Z) : M pst Z :=
  match s, d with
  | Some (sv, ss), Some (dv, ds) =>
      if (iov_len sv =? 0) || (iov_len dv =? 0) then mret total
      else match fuel with
      | O => out_of_fuel
      | S fuel' =>
          let len := Z.min (Z.min UINT32_MAX (iov_len sv)) (iov_len dv) in
          bs ← mem_read (iov_base sv) len;
          _ ← mem_write (iov_base dv) bs;
          iovcpy_loop fuel' (iter_step len (sv, ss)) (iter_step len (dv, ds)) (total + len)
      end
  | _, _ => mret total
  end.

(** spdk_ioviter_firstv reads the first element of each array. *)
Definition iter_first (l : list iovec) : M pst ioviter :=
  match l with [] => fail UB_bounds | v :: vs => mret (v, vs) end.

Definition spdk_iovcpy (fuel : nat) (siov diov : list iovec) : M pst Z :=
  s ← iter_first siov;
  d ← iter_first diov;
  iovcpy_loop fuel (Some s) (Some d) 0.

(** The bytes an array of iovecs has room for. *)
Definition iov_total (vs : list iovec) : Z := zsum (map iov_len vs).

(** [bs] written over the elements of an array, one after the other. *)
Fixpoint write_iovs (vs : list iovec) (bs : list Z) : M pst unit :=
  match vs with
  | [] => mret tt
  | v :: vs' =>
      _ ← mem_write (iov_base v) (take (Z.to_nat (iov_len v)) bs);
      write_iovs vs' (drop (Z.to_nat (iov_len v)) bs)
  end.
