(* ===== verification/PipeLemmas.v ===== *)
(** * Rings of bytes and copies between iovecs

    The contents of a ring as a list of bytes, what writing behind it and
    reading from its front do, and the specification of spdk_iovcpy. *)

From S2P Require Import Prelude Pipe.

(** ** Overwriting part of a list *)

Lemma overwrite_length off bs l :
  (off + length bs <= length l)%nat -> length (overwrite off bs l) = length l.
Proof. intros H. unfold overwrite. rewrite !length_app, length_take, length_drop. lia. Qed.

Lemma overwrite_in off bs l k :
  (off + length bs <= length l)%nat -> (off <= k < off + length bs)%nat ->
  overwrite off bs l !! k = bs !! (k - off)%nat.
Proof.
  intros Hl Hk. unfold overwrite. rewrite lookup_app_r by (rewrite length_take; lia).
  rewrite length_take, lookup_app_l by lia. f_equal. lia.
Qed.

Lemma overwrite_out off bs l k :
  (off + length bs <= length l)%nat -> (k < off \/ off + length bs <= k)%nat ->
  overwrite off bs l !! k = l !! k.
Proof.
  intros Hl Hk. unfold overwrite. destruct Hk as [Hk|Hk].
  - rewrite lookup_app_l by (rewrite length_take; lia). by rewrite lookup_take_lt.
  - rewrite lookup_app_r by (rewrite length_take; lia). rewrite length_take, lookup_app_r by lia.
    rewrite lookup_drop. f_equal. lia.
Qed.

(** ** The ring *)

(** Case distinction on the comparisons of natural numbers of the goal. *)
Ltac nat_cases :=
  repeat match goal with
  | |- context [(?a <? ?b)%nat] => destruct (Nat.ltb_spec a b)
  | |- context [(?a =? ?b)%nat] => destruct (Nat.eqb_spec a b)
  end; cbn [andb negb orb]; intros; try lia.

Section Ring.
Context (sz : nat).

(** Positions are counted without wrapping and reduced once. *)
Definition ridx (k : nat) : nat := if (k <? sz)%nat then k else (k - sz)%nat.

Definition rused (r w : nat) (full : bool) : nat :=
  if (r =? w)%nat && negb full then 0%nat
  else if (r <? w)%nat then (w - r)%nat else (sz - r + w)%nat.

Definition rcontents (l : list Z) (r w : nat) (full : bool) : list Z :=
  if (r =? w)%nat && negb full then []
  else if (r <? w)%nat then take (w - r) (drop r l) else drop r l ++ take w l.

Lemma rcontents_length l r w full :
  length l = sz -> (r < sz)%nat -> (w < sz)%nat -> length (rcontents l r w full) = rused r w full.
Proof.
  intros Hl Hr Hw. unfold rcontents, rused. destruct (_ && _); [done|].
  destruct (Nat.ltb_spec r w).
  - rewrite length_take, length_drop. lia.
  - rewrite length_app, length_take, length_drop. lia.
Qed.

Lemma rcontents_lookup l r w full i :
  length l = sz -> (r < sz)%nat -> (w < sz)%nat -> (i < rused r w full)%nat ->
  rcontents l r w full !! i = l !! ridx (r + i).
Proof.
  intros Hl Hr Hw. unfold rcontents, rused, ridx. destruct (_ && _); [lia|].
  destruct (Nat.ltb_spec r w) as [Hrw|Hrw]; intros Hi.
  - rewrite lookup_take_lt, lookup_drop by lia. destruct (Nat.ltb_spec (r + i) sz); [done|lia].
  - destruct (Nat.ltb_spec (r + i) sz).
    + rewrite lookup_app_l by (rewrite length_drop; lia). by rewrite lookup_drop.
    + rewrite lookup_app_r by (rewrite length_drop; lia). rewrite length_drop, lookup_take_lt by lia.
      f_equal. lia.
Qed.

(** The bytes [bs] stored from position [w] on, wrapping at the end. *)
Definition rstore (l : list Z) (w : nat) (bs : list Z) : list Z :=
  overwrite 0 (drop (sz - w) bs) (overwrite w (take (sz - w) bs) l).

Lemma rstore_length l w bs :
  length l = sz -> (w < sz)%nat -> (length bs <= sz)%nat -> length (rstore l w bs) = sz.
Proof.
  intros Hl Hw Hb. unfold rstore.
  assert (H1 : length (overwrite w (take (sz - w) bs) l) = sz)
    by (rewrite overwrite_length; [done|rewrite length_take; lia]).
  rewrite overwrite_length; [done|]. rewrite H1, length_drop. lia.
Qed.

Lemma rstore_in l w bs j :
  length l = sz -> (w < sz)%nat -> (length bs <= sz)%nat -> (j < length bs)%nat ->
  rstore l w bs !! ridx (w + j) = bs !! j.
Proof.
  intros Hl Hw Hb Hj. unfold rstore, ridx.
  assert (H1 : length (overwrite w (take (sz - w) bs) l) = sz)
    by (rewrite overwrite_length; [done|rewrite length_take; lia]).
  destruct (Nat.ltb_spec (w + j) sz).
  - rewrite overwrite_out; [|rewrite H1, length_drop; lia|right; rewrite length_drop; lia].
    rewrite overwrite_in by (rewrite length_take; lia). rewrite lookup_take_lt by lia. f_equal. lia.
  - rewrite overwrite_in by (rewrite ?H1, length_drop; lia). rewrite lookup_drop. f_equal. lia.
Qed.

Lemma rstore_out l w bs k :
  length l = sz -> (w < sz)%nat -> (length bs <= sz)%nat -> (k < sz)%nat ->
  (forall j, (j < length bs)%nat -> ridx (w + j) <> k) -> rstore l w bs !! k = l !! k.
Proof.
  intros Hl Hw Hb Hk Hne. unfold rstore.
  assert (H1 : length (overwrite w (take (sz - w) bs) l) = sz)
    by (rewrite overwrite_length; [done|rewrite length_take; lia]).
  rewrite overwrite_out.
  - rewrite overwrite_out; [done|rewrite length_take; lia|]. rewrite length_take.
    destruct (decide (k < w)%nat); [by left|]. right.
    destruct (decide (k - w < length bs)%nat) as [Hlt|]; [|lia].
    destruct (Hne (k - w)%nat Hlt). unfold ridx. destruct (Nat.ltb_spec (w + (k - w)) sz); lia.
  - rewrite H1, length_drop. lia.
  - right. rewrite length_drop. destruct (decide (length bs - (sz - w) <= k)%nat); [lia|].
    destruct (Hne (k + (sz - w))%nat); [lia|]. unfold ridx.
    destruct (Nat.ltb_spec (w + (k + (sz - w))) sz); lia.
Qed.

Lemma rused_le r w full : (r < sz)%nat -> (w < sz)%nat -> (rused r w full <= sz)%nat.
Proof. intros. unfold rused. destruct (_ && _); [lia|]. destruct (Nat.ltb_spec r w); lia. Qed.

(** The write position is behind the contents. *)
Lemma ridx_write r w full :
  (r < sz)%nat -> (w < sz)%nat -> (full = true -> r = w) -> ridx (r + rused r w full) = w.
Proof.
  intros Hr Hw Hf. unfold ridx, rused. destruct full; cbn [negb]; rewrite ?andb_false_r, ?andb_true_r.
  - rewrite <- Hf by done. nat_cases.
  - nat_cases.
Qed.

(** *** Writing behind the contents *)

Lemma rused_push r w n :
  (r < sz)%nat -> (w < sz)%nat -> (0 < n)%nat -> (rused r w false + n <= sz)%nat ->
  rused r (ridx (w + n)) (r =? ridx (w + n))%nat = (rused r w false + n)%nat.
Proof.
  intros Hr Hw Hn Hu. unfold ridx, rused in *. cbn [negb] in *. rewrite andb_true_r in *.
  revert Hu. nat_cases.
Qed.

Lemma ridx_lt k : (k < 2 * sz)%nat -> (ridx k < sz)%nat.
Proof. unfold ridx. nat_cases. Qed.

Lemma rcontents_push l r w bs :
  length l = sz -> (r < sz)%nat -> (w < sz)%nat -> (0 < length bs)%nat ->
  (rused r w false + length bs <= sz)%nat ->
  rcontents (rstore l w bs) r (ridx (w + length bs)) (r =? ridx (w + length bs))%nat
  = rcontents l r w false ++ bs.
Proof.
  intros Hl Hr Hw Hn Hu. pose proof (rused_push r w (length bs) Hr Hw Hn Hu) as Hu'.
  assert (Hw' : (ridx (w + length bs) < sz)%nat) by (apply ridx_lt; lia).
  assert (Hls : length (rstore l w bs) = sz) by (apply rstore_length; lia).
  assert (Hlen : length (rcontents l r w false) = rused r w false) by by apply rcontents_length.
  apply list_eq. intros i. destruct (decide (i < rused r w false + length bs)%nat) as [Hi|Hi].
  2: { rewrite !lookup_ge_None_2; [done|rewrite length_app; lia|]. rewrite rcontents_length by done. lia. }
  rewrite rcontents_lookup by (done || lia). destruct (decide (i < rused r w false)%nat) as [Hlt|Hge].
  - rewrite lookup_app_l, rcontents_lookup by (done || lia).
    apply rstore_out; [done|done|lia|apply ridx_lt; lia|]. intros j Hj.
    pose proof (ridx_write r w false Hr Hw ltac:(done)) as Hwr. revert Hwr Hlt Hj Hu.
    generalize (rused r w false). intros u. unfold ridx. nat_cases.
  - rewrite lookup_app_r by lia. rewrite Hlen. rewrite <- (rstore_in l w bs (i - rused r w false)) by lia.
    f_equal. pose proof (ridx_write r w false Hr Hw ltac:(done)) as Hwr. revert Hwr Hi Hge Hu.
    generalize (rused r w false). intros u. unfold ridx. nat_cases.
Qed.

(** *** Reading from the front *)

Lemma rused_pop r w full n :
  (r < sz)%nat -> (w < sz)%nat -> (full = true -> r = w) -> (0 < n < rused r w full)%nat ->
  ridx (r + n) <> w /\ rused (ridx (r + n)) w false = (rused r w full - n)%nat.
Proof.
  intros Hr Hw Hf Hn. unfold ridx, rused in *. revert Hn Hf. destruct full; cbn [negb];
    rewrite ?andb_false_r, ?andb_true_r.
  - intros Hn Hf. rewrite <- Hf in * by done. revert Hn. nat_cases.
  - intros Hn _. revert Hn. nat_cases.
Qed.

Lemma rcontents_pop l r w full n :
  length l = sz -> (r < sz)%nat -> (w < sz)%nat -> (full = true -> r = w) ->
  (0 < n < rused r w full)%nat ->
  rcontents l (ridx (r + n)) w false = drop n (rcontents l r w full).
Proof.
  intros Hl Hr Hw Hf Hn. destruct (rused_pop r w full n Hr Hw Hf Hn) as [_ Hu].
  pose proof (rused_le r w full Hr Hw). assert (Hr' : (ridx (r + n) < sz)%nat) by (apply ridx_lt; lia).
  apply list_eq. intros i. rewrite lookup_drop.
  destruct (decide (i < rused r w full - n)%nat) as [Hi|Hi].
  - rewrite !rcontents_lookup by (done || lia). f_equal.
    pose proof (ridx_write r w full Hr Hw Hf) as Hwr. revert Hn Hi H.
    generalize (rused r w full). intros u. unfold ridx. nat_cases.
  - rewrite !lookup_ge_None_2; [done|..]; rewrite rcontents_length by done; lia.
Qed.

(** The first [n] bytes, as the two pieces of the buffer. *)
Lemma rcontents_take l r w full n :
  length l = sz -> (r < sz)%nat -> (w < sz)%nat -> (0 < rused r w full)%nat ->
  take n (rcontents l r w full)
  = if (r <? w)%nat then take (Nat.min n (w - r)) (drop r l)
    else take n (drop r l) ++ take (Nat.min (n - (sz - r)) w) l.
Proof.
  intros Hl Hr Hw. unfold rcontents, rused. destruct (_ && _); [lia|].
  destruct (Nat.ltb_spec r w); intros _.
  - by rewrite take_take.
  - rewrite take_app, length_drop, take_take, Hl. done.
Qed.
End Ring.
