(* ===== verification/IovLemmas.v ===== *)
(** * Copies between scattered memory

    The bytes an array of iovecs points to, what a copy leaves in memory, and
    the specification of spdk_iovcpy (lib/util/iov.c) against the two. *)

From S2P Require Import Prelude Pipe PipeLemmas.

Implicit Types (m : gmap nat (list Z)) (v : iovec) (vs : list iovec) (bs : list Z).

(** ** Reading and writing through a pointer *)

Definition in_range m (ptr : option (nat * Z)) (n : Z) : Prop :=
  exists b off l, ptr = Some (b, off) /\ m !! b = Some l /\ 0 <= off /\ off + n <= Z.of_nat (length l).

Definition peek m (ptr : option (nat * Z)) (n : Z) : list Z :=
  match ptr with
  | Some (b, off) => take (Z.to_nat n) (drop (Z.to_nat off) (default [] (m !! b)))
  | None => []
  end.

Definition poke (ptr : option (nat * Z)) bs m : gmap nat (list Z) :=
  match bs, ptr with
  | _ :: _, Some (b, off) => alter (overwrite (Z.to_nat off) bs) b m
  | _, _ => m
  end.

Lemma peek_length m ptr n : 0 <= n -> in_range m ptr n -> length (peek m ptr n) = Z.to_nat n.
Proof.
  intros Hn (b & off & l & -> & Hl & Ho & Hr). cbn. rewrite Hl. cbn.
  rewrite length_take, length_drop. lia.
Qed.

Lemma mem_read_ok s ptr n :
  0 < n -> in_range (mem s) ptr n -> mem_read ptr n s = Ok (peek (mem s) ptr n, s).
Proof.
  intros Hn (b & off & l & -> & Hl & Ho & Hr). unfold mem_read.
  destruct (Z.eqb_spec n 0); [lia|]. cbn. unfold mbind, M_bind, lift_opt, get, mret, M_ret. rewrite Hl.
  destruct (Z.leb_spec 0 off), (Z.leb_spec (off + n) (Z.of_nat (length l))); (done || lia).
Qed.

Lemma mem_write_ok s ptr bs :
  bs = [] \/ in_range (mem s) ptr (Z.of_nat (length bs)) ->
  mem_write ptr bs s = Ok (tt, set_mem (poke ptr bs) s).
Proof.
  destruct bs as [|x bs]; [by destruct s|]. intros [[=]|(b & off & l & -> & Hl & Ho & Hr)].
  unfold mem_write, mbind, M_bind, lift_opt, get, mret, M_ret, put. rewrite Hl.
  destruct (Z.leb_spec 0 off), (Z.leb_spec (off + Z.of_nat (length (x :: bs))) (Z.of_nat (length l))); try lia. cbn [andb].
  unfold set_mem, poke. do 4 f_equal. apply map_eq. intros c. destruct (decide (b = c)) as [<-|].
  - by rewrite lookup_insert_eq, lookup_alter_eq, Hl.
  - by rewrite lookup_insert_ne, lookup_alter_ne.
Qed.

Lemma overwrite_app off b1 b2 l :
  (off + length b1 + length b2 <= length l)%nat ->
  overwrite (off + length b1) b2 (overwrite off b1 l) = overwrite off (b1 ++ b2) l.
Proof.
  intros H. unfold overwrite. rewrite !length_app.
  assert (H1 : length (take off l ++ b1) = (off + length b1)%nat) by (rewrite length_app, length_take; lia).
  rewrite (app_assoc (take off l)), take_app_le, <- H1, firstn_all by lia.
  rewrite drop_app, drop_ge by lia. rewrite drop_drop. cbn. rewrite <- !app_assoc. do 3 f_equal.
  f_equal. lia.
Qed.

Lemma poke_app m ptr b1 b2 :
  in_range m ptr (Z.of_nat (length (b1 ++ b2))) ->
  poke (ptr_add ptr (Z.of_nat (length b1))) b2 (poke ptr b1 m) = poke ptr (b1 ++ b2) m.
Proof.
  intros (b & off & l & -> & Hl & Ho & Hr). rewrite length_app in Hr. destruct b1 as [|x b1]; cbn [app].
  - cbn. rewrite Z.add_0_r. by destruct b2.
  - destruct b2 as [|y b2]; [by rewrite app_nil_r|]. cbn.
    apply map_eq. intros c. destruct (decide (b = c)) as [<-|].
    + rewrite !lookup_alter_eq, Hl. cbn [fmap option_fmap option_map]. f_equal.
      replace (Z.to_nat _) with (Z.to_nat off + length (x :: b1))%nat by (cbn; lia).
      apply overwrite_app. lia.
    + by rewrite !lookup_alter_ne.
Qed.

(** A copy keeps the lengths of the buffers, and the other buffers. *)
Lemma poke_range m ptr bs p n :
  bs = [] \/ in_range m ptr (Z.of_nat (length bs)) -> in_range m p n -> in_range (poke ptr bs m) p n.
Proof.
  intros Hw (b & off & l & -> & Hl & Ho & Hr). destruct bs as [|x bs]; [by exists b, off, l|].
  destruct Hw as [[=]|(c & o & k & -> & Hk & Ho' & Hr')]. cbn [poke].
  destruct (decide (c = b)) as [->|].
  - rewrite Hl in Hk. simplify_eq. exists b, off, (overwrite (Z.to_nat o) (x :: bs) k).
    rewrite lookup_alter_eq, Hl. split_and!; [done|done|lia|]. rewrite overwrite_length; lia.
  - exists b, off, l. by rewrite lookup_alter_ne.
Qed.

Lemma poke_other m b off bs c : c <> b -> poke (Some (b, off)) bs m !! c = m !! c.
Proof. intros H. destruct bs; [done|]. cbn. by rewrite lookup_alter_ne. Qed.

(** ** Arrays of iovecs *)

(** The elements before the first empty one: a copy by iterator ends there. *)
Fixpoint live vs : list iovec :=
  match vs with
  | [] => []
  | v :: vs' => if iov_len v =? 0 then [] else v :: live vs'
  end.

Definition fits m vs : Prop :=
  Forall (fun v => iov_len v = 0 \/ 0 < iov_len v /\ in_range m (iov_base v) (iov_len v)) vs.

Definition iov_bytes m vs : list Z :=
  concat (map (fun v => peek m (iov_base v) (iov_len v)) vs).

(** The buffers an array points into. *)
Definition iov_bufs vs : list nat := concat (map (fun v => option_list (fst <$> iov_base v)) vs).

Fixpoint scatter vs bs m : gmap nat (list Z) :=
  match vs with
  | [] => m
  | v :: vs' =>
      scatter vs' (drop (Z.to_nat (iov_len v)) bs) (poke (iov_base v) (take (Z.to_nat (iov_len v)) bs) m)
  end.

Lemma scatter_nil vs m : scatter vs [] m = m.
Proof. induction vs as [|v vs IH]; cbn; [done|]. by rewrite take_nil, drop_nil. Qed.

Lemma fits_live m vs : fits m vs -> fits m (live vs).
Proof.
  unfold fits. induction 1 as [|v vs Hv _ IH]; cbn; [constructor|]. destruct (_ =? _); by constructor.
Qed.

Lemma live_idemp vs : live (live vs) = live vs.
Proof. induction vs as [|v vs IH]; cbn; [done|]. destruct (iov_len v =? 0) eqn:E; cbn; [done|]. by rewrite E, IH. Qed.

(** Every buffer an array points into is kept by writes to the others. *)
Lemma scatter_other vs bs m c : c ∉ iov_bufs vs -> scatter vs bs m !! c = m !! c.
Proof.
  unfold iov_bufs. revert bs m. induction vs as [|v vs IH]; intros bs m; cbn; [done|].
  intros [Hv Hvs]%not_elem_of_app. rewrite IH by done. destruct (iov_base v) as [[b off]|] eqn:E.
  - apply poke_other. cbn in Hv. by apply not_elem_of_cons in Hv as [? _].
  - by destruct (take _ _).
Qed.

Lemma fits_poke m ptr bs vs :
  bs = [] \/ in_range m ptr (Z.of_nat (length bs)) -> fits m vs -> fits (poke ptr bs m) vs.
Proof.
  intros Hw Hf. eapply Forall_impl; [exact Hf|]. intros v [?|[? ?]]; [by left|]. right. split; [done|].
  by apply poke_range.
Qed.

(** A piece of an element, cut to the bytes to write, is in range. *)
Lemma fits_take m v vs bs n :
  fits m (v :: vs) -> (n <= Z.to_nat (iov_len v))%nat ->
  take n bs = [] \/ in_range m (iov_base v) (Z.of_nat (length (take n bs))).
Proof.
  intros [Hv _]%Forall_cons Hn. destruct Hv as [Hv|[Hv (b & off & l & Hb & Hl & Ho & Hr)]].
  - left. replace n with 0%nat by lia. done.
  - right. exists b, off, l. rewrite length_take. split_and!; (done || lia).
Qed.

Lemma write_iovs_ok s vs bs :
  fits (mem s) vs -> write_iovs vs bs s = Ok (tt, set_mem (scatter vs bs) s).
Proof.
  revert s bs. induction vs as [|v vs IH]; intros s bs Hf; cbn [write_iovs scatter]; [by destruct s|].
  pose proof (fits_take (mem s) v vs bs _ Hf (le_n _)) as Hr.
  erewrite M_bind_ok by (by apply mem_write_ok). rewrite IH; [done|]. cbn.
  apply fits_poke; [done|]. by apply Forall_cons in Hf as [_ ?].
Qed.

(** ** spdk_iovcpy *)

Definition start vs : option ioviter := match vs with [] => None | v :: vs' => Some (v, vs') end.

(** What is left of an array after [n] bytes of its first element. *)
Definition after (n : Z) v vs : list iovec :=
  if iov_len v =? n then vs else Iov (ptr_add (iov_base v) n) (iov_len v - n) :: vs.

Lemma iter_step_after n v vs : iter_step n (v, vs) = start (after n v vs).
Proof. unfold iter_step, after. destruct (_ =? _); [by destruct vs|done]. Qed.

Lemma peek_split m ptr n k :
  0 <= n <= k -> in_range m ptr k -> peek m ptr k = peek m ptr n ++ peek m (ptr_add ptr n) (k - n).
Proof.
  intros Hn (b & off & l & -> & Hl & Ho & Hr). cbn. rewrite Hl. cbn.
  replace (Z.to_nat k) with (Z.to_nat n + Z.to_nat (k - n))%nat by lia.
  rewrite <- take_take_drop, drop_drop. do 3 f_equal. lia.
Qed.

Lemma range_add m ptr n k : 0 <= n -> in_range m ptr k -> in_range m (ptr_add ptr n) (k - n).
Proof. intros Hn (b & off & l & -> & Hl & Ho & Hr). exists b, (off + n), l. split_and!; (done || lia). Qed.

Lemma range_le m ptr n k : n <= k -> in_range m ptr k -> in_range m ptr n.
Proof. intros Hn (b & off & l & -> & Hl & Ho & Hr). exists b, off, l. split_and!; (done || lia). Qed.

Lemma after_fits m v vs n : 0 < n <= iov_len v -> fits m (v :: vs) -> fits m (after n v vs).
Proof.
  intros Hn [[?|[_ Hv]] Hvs]%Forall_cons; [lia|]. unfold after. destruct (Z.eqb_spec (iov_len v) n); [done|].
  constructor; [|done]. right. cbn. split; [lia|]. apply range_add; [lia|done].
Qed.

Lemma after_bufs v vs n c : c ∈ iov_bufs (after n v vs) -> c ∈ iov_bufs (v :: vs).
Proof.
  unfold after, iov_bufs. destruct (_ =? _); cbn; rewrite ?elem_of_app; [by right|].
  intros [H|H]; [left|by right]. by destruct (iov_base v) as [[b off]|].
Qed.

Lemma after_bytes m v vs n :
  0 < n <= iov_len v -> fits m (v :: vs) ->
  iov_bytes m (live (v :: vs)) = peek m (iov_base v) n ++ iov_bytes m (live (after n v vs)).
Proof.
  intros Hn [[?|[_ Hv]] _]%Forall_cons; [lia|]. unfold after, iov_bytes. cbn [live].
  destruct (Z.eqb_spec (iov_len v) 0); [lia|].
  destruct (Z.eqb_spec (iov_len v) n) as [<-|]; [done|]. cbn [live iov_len].
  destruct (Z.eqb_spec (iov_len v - n) 0); [lia|]. cbn. rewrite (peek_split m _ n) by (done || lia).
  by rewrite app_assoc.
Qed.

Lemma after_scatter m v vs n bs :
  0 < n <= iov_len v -> (Z.to_nat n <= length bs)%nat -> fits m (v :: vs) ->
  scatter (live (v :: vs)) bs m
  = scatter (live (after n v vs)) (drop (Z.to_nat n) bs) (poke (iov_base v) (take (Z.to_nat n) bs) m).
Proof.
  intros Hn Hb Hf. unfold after. cbn [live]. destruct (Z.eqb_spec (iov_len v) 0); [lia|].
  destruct (Z.eqb_spec (iov_len v) n) as [<-|]; [done|]. cbn [live iov_len].
  destruct (Z.eqb_spec (iov_len v - n) 0); [lia|]. cbn [scatter iov_len iov_base].
  set (N := Z.to_nat n). set (K := Z.to_nat (iov_len v - n)).
  replace (Z.to_nat (iov_len v)) with (N + K)%nat by lia. rewrite drop_drop. f_equal.
  rewrite <- take_take_drop. pose proof (fits_take m v vs bs (N + K) Hf ltac:(lia)) as Hr.
  rewrite <- take_take_drop in Hr. destruct Hr as [Hr|Hr].
  - apply (f_equal length) in Hr. rewrite length_app, length_take in Hr. cbn in Hr. lia.
  - rewrite <- (poke_app m _ _ _ Hr). do 2 f_equal. rewrite length_take. lia.
Qed.

Lemma after_total v vs n :
  0 < n <= iov_len v -> iov_total (live (v :: vs)) = n + iov_total (live (after n v vs)).
Proof.
  intros Hn. unfold after, iov_total. cbn [live]. destruct (Z.eqb_spec (iov_len v) 0); [lia|].
  destruct (Z.eqb_spec (iov_len v) n) as [<-|]; [done|]. cbn [live iov_len].
  destruct (Z.eqb_spec (iov_len v - n) 0); [lia|]. cbn [map]. rewrite !zsum_cons. cbn. lia.
Qed.

Lemma total_nonneg m vs : fits m vs -> 0 <= iov_total vs.
Proof.
  unfold iov_total. induction 1 as [|v l Hv _ IH]; [done|]. cbn [map]. rewrite zsum_cons. lia.
Qed.

Lemma iov_total_nonneg m vs : fits m vs -> 0 <= iov_total (live vs).
Proof. intros H%fits_live. by eapply total_nonneg. Qed.

Lemma iov_bytes_other m m' vs :
  (forall c, c ∈ iov_bufs vs -> m' !! c = m !! c) -> iov_bytes m' (live vs) = iov_bytes m (live vs).
Proof.
  unfold iov_bytes, iov_bufs. induction vs as [|v vs IH]; intros H; cbn; [done|].
  destruct (_ =? _); [done|]. cbn in *. rewrite IH by (intros; apply H, elem_of_app; by right). f_equal.
  unfold peek. destruct (iov_base v) as [[b off]|]; [|done]. rewrite H; [done|]. by left.
Qed.

Lemma scatter_fits m vs ws bs : fits m vs -> fits m ws -> fits (scatter vs bs m) ws.
Proof.
  revert m bs. induction vs as [|v vs IH]; intros m bs Hv Hw; cbn; [done|].
  pose proof (fits_take m v vs bs _ Hv (le_n _)). apply IH; apply fits_poke; try done.
  by apply Forall_cons in Hv as [_ ?].
Qed.

Definition copied m ss ds : nat :=
  Nat.min (length (iov_bytes m (live ss))) (Z.to_nat (iov_total (live ds))).

Lemma copied_end m ss ds :
  match start ss with Some (v, _) => iov_len v = 0 | None => True end \/
  match start ds with Some (v, _) => iov_len v = 0 | None => True end -> copied m ss ds = 0%nat.
Proof.
  unfold copied. intros [H|H].
  - destruct ss as [|v ss]; cbn in *; [done|]. by rewrite H.
  - destruct ds as [|v ds]; cbn in *; [by rewrite Nat.min_0_r|]. rewrite H. cbn. by rewrite Nat.min_0_r.
Qed.

(** The step from one piece to the next. *)
Lemma iovcpy_piece m sv ss dv ds n :
  0 < n <= iov_len sv -> n <= iov_len dv -> fits m (sv :: ss) -> fits m (dv :: ds) ->
  (forall c, c ∈ iov_bufs (sv :: ss) -> c ∉ iov_bufs (dv :: ds)) ->
  let m' := poke (iov_base dv) (peek m (iov_base sv) n) m in
  fits m' (after n sv ss) /\ fits m' (after n dv ds) /\
  copied m (sv :: ss) (dv :: ds) = (Z.to_nat n + copied m' (after n sv ss) (after n dv ds))%nat /\
  scatter (live (dv :: ds)) (take (copied m (sv :: ss) (dv :: ds)) (iov_bytes m (live (sv :: ss)))) m
  = scatter (live (after n dv ds))
      (take (copied m' (after n sv ss) (after n dv ds)) (iov_bytes m' (live (after n sv ss)))) m'.
Proof.
  intros Hs Hd Hfs Hfd Hdis m'.
  assert (Hrs : in_range m (iov_base sv) n).
  { apply Forall_cons in Hfs as [[?|[_ ?]] _]; [lia|]. eapply range_le; [|done]. lia. }
  assert (Hrd : in_range m (iov_base dv) n).
  { apply Forall_cons in Hfd as [[?|[_ ?]] _]; [lia|]. eapply range_le; [|done]. lia. }
  assert (Hlen : length (peek m (iov_base sv) n) = Z.to_nat n) by (apply peek_length; [lia|done]).
  assert (Hm' : iov_bytes m' (live (after n sv ss)) = iov_bytes m (live (after n sv ss))).
  { apply iov_bytes_other. intros c Hc%after_bufs%Hdis. unfold m'. destruct (iov_base dv) as [[b o]|] eqn:E.
    - apply poke_other. intros ->. apply Hc. unfold iov_bufs. cbn. rewrite E. by left.
    - by destruct (peek m (iov_base sv) n). }
  assert (Hw : peek m (iov_base sv) n = [] \/ in_range m (iov_base dv)
            (Z.of_nat (length (peek m (iov_base sv) n))))
    by (right; rewrite Hlen, Z2Nat.id by lia; done).
  assert (Hcop : copied m (sv :: ss) (dv :: ds)
            = (Z.to_nat n + copied m' (after n sv ss) (after n dv ds))%nat).
  { unfold copied. rewrite Hm', (after_bytes m sv ss n) by (done || lia).
    rewrite (after_total dv ds n) by lia. rewrite length_app, Hlen.
    pose proof (iov_total_nonneg m _ (after_fits m dv ds n ltac:(lia) Hfd)). lia. }
  split_and!; [by apply fits_poke; [done|apply after_fits; [lia|]]
              |by apply fits_poke; [done|apply after_fits; [lia|]]|done|].
  rewrite (after_scatter m dv ds n); [|lia| |done].
  - rewrite Hcop, Hm', (after_bytes m sv ss n) by (done || lia).
    rewrite <- Hlen, take_app_add, take_app_length, drop_app_length. done.
  - rewrite length_take, Hcop, (after_bytes m sv ss n), length_app, Hlen by (done || lia).
    unfold copied. rewrite Hm'. lia.
Qed.

Lemma after_length v vs n :
  0 < iov_len v -> (length (live (after n v vs)) + (if (iov_len v =? n)%Z then 1 else 0)
                    <= length (live (v :: vs)))%nat.
Proof.
  intros Hv. unfold after. cbn [live]. destruct (Z.eqb_spec (iov_len v) 0); [lia|].
  destruct (_ =? _); cbn [live length]; [lia|]. destruct (_ =? _); cbn; lia.
Qed.

(** The loop at the end of an array or at an empty element. *)
Lemma iovcpy_stop fuel ss ds total s :
  match start ss with Some (v, _) => iov_len v = 0 | None => True end \/
  match start ds with Some (v, _) => iov_len v = 0 | None => True end ->
  iovcpy_loop fuel (start ss) (start ds) total s
  = Ok (total + Z.of_nat (copied (mem s) ss ds),
        set_mem (scatter (live ds) (take (copied (mem s) ss ds) (iov_bytes (mem s) (live ss)))) s).
Proof.
  intros H. rewrite copied_end by done. unfold set_mem. rewrite take_0, scatter_nil, Z.add_0_r.
  destruct s, ss as [|sv ss], ds as [|dv ds], fuel; cbn in *; try done;
    destruct H as [-> | ->]; rewrite ?orb_true_r; done.
Qed.

Lemma iovcpy_loop_ok fuel ss ds total s :
  (length (live ss) + length (live ds) <= fuel)%nat ->
  Forall (fun v => iov_len v <= UINT32_MAX) ss -> fits (mem s) ss -> fits (mem s) ds ->
  (forall c, c ∈ iov_bufs ss -> c ∉ iov_bufs ds) ->
  iovcpy_loop fuel (start ss) (start ds) total s
  = Ok (total + Z.of_nat (copied (mem s) ss ds),
        set_mem (scatter (live ds) (take (copied (mem s) ss ds) (iov_bytes (mem s) (live ss)))) s).
Proof.
  revert ss ds total s. induction fuel as [|fuel IH]; intros ss ds total s Hfuel Hmax Hs Hd Hdis;
    (destruct ss as [|sv ss]; [|destruct ds as [|dv ds]; [|
       destruct (Z.eqb_spec (iov_len sv) 0) as [E1|E1]; [|
       destruct (Z.eqb_spec (iov_len dv) 0) as [E2|E2]]]]);
    try (apply iovcpy_stop; cbn; auto; fail);
    (assert (Hsv : 0 < iov_len sv) by (apply Forall_cons in Hs as [? _]; lia));
    (assert (Hdv : 0 < iov_len dv) by (apply Forall_cons in Hd as [? _]; lia)).
  - cbn in Hfuel. destruct (Z.eqb_spec (iov_len sv) 0); [lia|]. cbn in Hfuel. lia.
  - cbn [start iovcpy_loop]. rewrite (proj2 (Z.eqb_neq _ _) E1), (proj2 (Z.eqb_neq _ _) E2).
    cbn [orb]. set (n := Z.min _ _).
    assert (Hn : 0 < n <= iov_len sv /\ n <= iov_len dv) by (unfold n, UINT32_MAX; lia).
    destruct (iovcpy_piece (mem s) sv ss dv ds n (proj1 Hn) (proj2 Hn) Hs Hd Hdis) as (Hs' & Hd' & Hc & Hw).
    rewrite (M_bind_ok _ _ s _ _ (mem_read_ok s _ n ltac:(lia)
      ltac:(apply Forall_cons in Hs as [[?|[_ ?]] _]; [lia|eapply range_le; [|done]; lia]))).
    erewrite M_bind_ok; [|apply mem_write_ok; right; rewrite peek_length;
      [rewrite Z2Nat.id by lia|lia|]; apply Forall_cons in Hd as [[?|[_ ?]] _], Hs as [[?|[_ ?]] _];
      try lia; (eapply range_le; [|done]); lia].
    rewrite !iter_step_after, IH; cbn [mem set_mem]; [| |apply Forall_cons in Hmax as [? ?]|done|done|].
    + unfold set_mem. rewrite Hw, Hc. cbn [mem pipes pgroups]. do 2 f_equal. lia.
    + pose proof (after_length sv ss n Hsv) as H1. pose proof (after_length dv ds n Hdv) as H2.
      apply Forall_cons in Hmax as [? _]. revert H1 H2.
      destruct (Z.eqb_spec (iov_len sv) n), (Z.eqb_spec (iov_len dv) n); lia.
    + unfold after. destruct (_ =? _); [done|]. constructor; [cbn; lia|done].
    + intros c ?%after_bufs ?%after_bufs. by eapply Hdis.
Qed.

Lemma iovcpy_ok fuel ss ds s :
  ss <> [] -> ds <> [] -> (length (live ss) + length (live ds) <= fuel)%nat ->
  Forall (fun v => iov_len v <= UINT32_MAX) ss -> fits (mem s) ss -> fits (mem s) ds ->
  (forall c, c ∈ iov_bufs ss -> c ∉ iov_bufs ds) ->
  spdk_iovcpy fuel ss ds s
  = Ok (Z.of_nat (copied (mem s) ss ds),
        set_mem (scatter (live ds) (take (copied (mem s) ss ds) (iov_bytes (mem s) (live ss)))) s).
Proof.
  intros Hs Hd. destruct ss as [|sv ss]; [done|]. destruct ds as [|dv ds]; [done|]. intros.
  change (spdk_iovcpy fuel (sv :: ss) (dv :: ds) s)
    with (iovcpy_loop fuel (start (sv :: ss)) (start (dv :: ds)) 0 s).
  by rewrite iovcpy_loop_ok.
Qed.

(** No more bytes than fit before the first empty element. *)
Lemma scatter_live m vs bs :
  fits m vs -> Z.of_nat (length bs) <= iov_total (live vs) -> scatter (live vs) bs m = scatter vs bs m.
Proof.
  intros Hf. revert m bs Hf. induction vs as [|v vs IH]; intros m bs Hf Hb; [done|].
  pose proof (fits_take m v vs bs _ Hf (le_n _)) as Hr.
  cbn [live] in *. destruct (Z.eqb_spec (iov_len v) 0) as [E|E].
  - assert (bs = []) as -> by (apply nil_length_inv; change (iov_total []) with 0 in Hb; lia). by rewrite !scatter_nil.
  - cbn [scatter]. apply Forall_cons in Hf as [Hv Hf].
    rewrite IH; [done|by apply fits_poke|]. unfold iov_total in *. cbn [map] in Hb. rewrite zsum_cons in Hb.
    rewrite length_drop. pose proof (iov_total_nonneg m vs Hf). unfold iov_total in *. lia.
Qed.

Lemma iov_total_live m vs : fits m vs -> iov_total (live vs) <= iov_total vs.
Proof.
  unfold iov_total. induction 1 as [|v vs Hv Hf IH]; [done|]. cbn [live].
  destruct (Z.eqb_spec (iov_len v) 0); cbn [map]; rewrite !zsum_cons; [|lia].
  rewrite zsum_nil. pose proof (total_nonneg m vs Hf). unfold iov_total in *. lia.
Qed.

Lemma live_total m vs : fits m vs -> live vs <> [] -> 0 < iov_total (live vs).
Proof.
  destruct vs as [|v vs]; [done|]. intros Hf Hl. pose proof Hf as [Hv Hf']%Forall_cons.
  cbn [live] in *. destruct (Z.eqb_spec (iov_len v) 0); [done|]. unfold iov_total. cbn [map]. rewrite zsum_cons.
  pose proof (iov_total_nonneg m vs Hf'). unfold iov_total in *. lia.
Qed.

Lemma live_length vs : (length (live vs) <= length vs)%nat.
Proof. induction vs as [|v vs IH]; cbn; [done|]. destruct (_ =? _); cbn; lia. Qed.

Lemma fits_other m m' vs : (forall c, c ∈ iov_bufs vs -> m' !! c = m !! c) -> fits m vs -> fits m' vs.
Proof.
  intros Hm Hf. unfold fits in *. revert Hm. induction Hf as [|v vs Hv Hf IH]; intros Hm; constructor.
  - destruct Hv as [?|[? (b & off & l & Hb & Hl & Hr)]]; [by left|right]. split; [done|]. exists b, off, l.
    split_and!; try apply Hr; [done|]. rewrite Hm; [done|]. unfold iov_bufs. cbn. rewrite Hb. by left.
  - apply IH. intros c Hc. apply Hm. unfold iov_bufs. cbn. apply elem_of_app. by right.
Qed.

(** The bytes a copy leaves in a buffer depend on that buffer alone. *)
Lemma scatter_agree m m' vs bs c : m' !! c = m !! c -> scatter vs bs m' !! c = scatter vs bs m !! c.
Proof.
  revert m m' bs. induction vs as [|v vs IH]; intros m m' bs H; [done|]. cbn [scatter]. apply IH.
  destruct (iov_base v) as [[b off]|]; [|by destruct (take _ bs)]. destruct (decide (c = b)) as [->|].
  - destruct (take _ bs) as [|y ys]; [done|]. cbn. by rewrite !lookup_alter_eq, H.
  - by rewrite !poke_other.
Qed.

(** ** Reading back *)

Lemma peek_poke m m' b off n t l :
  m !! b = Some l -> 0 <= off -> off + n <= Z.of_nat (length l) -> (length t <= Z.to_nat n)%nat ->
  m' !! b = poke (Some (b, off)) t m !! b ->
  take (length t) (peek m' (Some (b, off)) n) = t.
Proof.
  intros Hl Ho Hr Ht Hm. destruct t as [|y t]; [done|].
  assert (0 < n) by (cbn in Ht; lia). cbn [peek]. rewrite Hm. cbn [poke].
  rewrite lookup_alter_eq, Hl. cbn [fmap option_fmap option_map default]. unfold id. unfold overwrite.
  assert (Hlt : length (take (Z.to_nat off) l) = Z.to_nat off) by (rewrite length_take; lia).
  rewrite drop_app, Hlt, Nat.sub_diag, drop_0, drop_ge, app_nil_l by lia.
  rewrite take_take. rewrite Nat.min_l by lia. rewrite take_app_le, firstn_all by lia. done.
Qed.

Lemma scatter_read m vs bs :
  NoDup (iov_bufs vs) -> fits m vs -> Z.of_nat (length bs) <= iov_total vs ->
  take (length bs) (iov_bytes (scatter vs bs m) vs) = bs.
Proof.
  unfold iov_bytes, iov_bufs, iov_total. revert m bs. induction vs as [|v vs IH]; intros m bs Hnd Hf Hb.
  - cbn in Hb. rewrite zsum_nil in Hb. by destruct bs; [|cbn in Hb; lia].
  - pose proof (fits_take m v vs bs _ Hf (le_n _)) as Hr. pose proof Hf as [Hv Hfs]%Forall_cons.
    cbn [map concat scatter] in *. rewrite zsum_cons in Hb. apply NoDup_app in Hnd as (_ & Hdis & Hnd).
    set (n := Z.to_nat (iov_len v)) in *. set (m1 := poke (iov_base v) (take n bs) m).
    assert (Hrest : take (length (drop n bs))
              (concat (map (fun v => peek (scatter vs (drop n bs) m1) (iov_base v) (iov_len v)) vs)) = drop n bs).
    { apply IH; [done|by apply fits_poke|]. pose proof (total_nonneg m vs Hfs) as Ht0. unfold iov_total in Ht0.
      rewrite length_drop. destruct Hv as [Hv|[Hv _]]; unfold n; [|lia].
      rewrite Hv. cbn. lia. }
    destruct Hv as [Hv|[Hv (b & off & l & Eb & Hl & Ho & Hrg)]].
    + assert (n = 0%nat) as -> by (unfold n; rewrite Hv; done). rewrite drop_0 in *.
      replace (peek _ (iov_base v) (iov_len v)) with (@nil Z); [done|]. rewrite Hv. unfold peek.
      by destruct (iov_base v) as [[]|]; rewrite ?take_0.
    + assert (Hkeep : scatter vs (drop n bs) m1 !! b = m1 !! b).
      { apply scatter_other. unfold iov_bufs. apply Hdis. rewrite Eb. by left. }
      pose proof (peek_poke m (scatter vs (drop n bs) m1) b off (iov_len v) (take n bs) l Hl Ho Hrg) as Hpk.
      rewrite length_take in Hpk. specialize (Hpk ltac:(lia) ltac:(rewrite Hkeep; unfold m1; by rewrite Eb)).
      rewrite Eb. set (p := peek _ _ _) in *. assert (Hpl : length p = n).
      { unfold p. rewrite peek_length; [done|lia|]. exists b, off.
        exists (default l (scatter vs (drop n bs) m1 !! b)). rewrite Hkeep. unfold m1. rewrite Eb.
        destruct (take n bs) as [|y t] eqn:Et; cbn [poke]; [by rewrite Hl; cbn|].
        rewrite lookup_alter_eq, Hl. cbn. split_and!; try done. rewrite overwrite_length; [lia|].
        rewrite <- Et, length_take. lia. }
      destruct (decide (n <= length bs)%nat) as [Hn|Hn].
      * rewrite Nat.min_l, take_ge in Hpk by lia. replace (length bs) with (n + length (drop n bs))%nat
          by (rewrite length_drop; lia). rewrite <- Hpl at 1. rewrite take_app_add, Hrest, Hpk. apply take_drop.
      * rewrite Nat.min_r in Hpk by lia. rewrite take_app_le by lia. rewrite Hpk. by apply take_ge; lia.
Qed.

Lemma iov_bytes_agree m m' vs :
  (forall c, c ∈ iov_bufs vs -> m' !! c = m !! c) -> iov_bytes m' vs = iov_bytes m vs.
Proof.
  unfold iov_bytes, iov_bufs. induction vs as [|v vs IH]; intros H; cbn; [done|]. cbn in H.
  rewrite IH by (intros; apply H, elem_of_app; by right). f_equal.
  unfold peek. destruct (iov_base v) as [[b off]|]; [|done]. rewrite H; [done|]. by left.
Qed.
