(* ===== verification/PipeInv.v ===== *)
(** * The invariant of pipes and of the buffers they share

    Every buffer belongs to one pipe or to the list of one group, and the list
    of a group has a buffer of the right size for every pipe of the group that
    has none.  Under it each operation of lib/util/pipe.c is defined, and acts
    on the bytes in the pipes ([view]) as on independent bounded queues. *)

From S2P Require Import Prelude Pipe PipeLemmas.

(** ** Collecting over a map *)

Section gather.
Context {A B : Type}.
Implicit Types (f : A -> list B) (m : gmap nat A).

Definition gather f m : list B := concat (map (fun kv => f kv.2) (map_to_list m)).

Lemma gather_delete f m i x : m !! i = Some x -> gather f m ≡ₚ f x ++ gather f (delete i m).
Proof.
  intros H. unfold gather. rewrite <- (map_to_list_delete m i x H) at 1. done.
Qed.

Lemma gather_insert f m i x : gather f (<[i := x]> m) ≡ₚ f x ++ gather f (delete i m).
Proof.
  rewrite (gather_delete f _ i x) by apply lookup_insert_eq. by rewrite delete_insert_eq.
Qed.

Lemma gather_fresh f m i x : m !! i = None -> gather f (<[i := x]> m) ≡ₚ f x ++ gather f m.
Proof. intros H. rewrite gather_insert. by rewrite delete_id. Qed.

Lemma elem_of_gather f m y : y ∈ gather f m <-> exists i x, m !! i = Some x /\ y ∈ f x.
Proof.
  unfold gather. rewrite elem_of_concat_map. split.
  - intros ([i x] & H & Hy). exists i, x. by apply elem_of_map_to_list in H.
  - intros (i & x & H & Hy). exists (i, x). by rewrite elem_of_map_to_list.
Qed.

(** An entry replaced by one that contributes the same. *)
Lemma gather_same f m i x y :
  m !! i = Some x -> f y = f x -> gather f (<[i := y]> m) ≡ₚ gather f m.
Proof. intros H He. rewrite gather_insert, He. symmetry. by apply gather_delete. Qed.
End gather.

(** ** The invariant *)

Record pipe_ok (s : pst) (p : pipe) : Prop := PipeOk {
  ok_sz : 0 < p_sz p < 2 ^ 31;
  ok_read : 0 <= p_read p < p_sz p;
  ok_write : 0 <= p_write p < p_sz p;
  ok_full : p_full p = true -> p_read p = p_write p;
  ok_buf : match p_buf p with
           | Some b => exists l, mem s !! b = Some l /\ Z.of_nat (length l) = p_sz p
           | None => p_group p <> None /\ p_read p = p_write p /\ p_full p = false
           end;
  ok_group : forall g, p_group p = Some g -> is_Some (pgroups s !! g) /\ PIPE_HDR <= p_sz p }.

(** The buffers of a pipe, of a group, and the size a pipe wants from [g]. *)
Definition own (p : pipe) : list nat := option_list (p_buf p).
Definition owned (s : pst) : list nat := gather own (pipes s) ++ gather (map fst) (pgroups s).
Definition wants (g : nat) (p : pipe) : list Z :=
  if bool_decide (p_group p = Some g /\ p_buf p = None) then [p_sz p] else [].

Record inv (s : pst) : Prop := Inv {
  inv_pipe : forall i p, pipes s !! i = Some p -> pipe_ok s p;
  inv_free : forall g l b z, pgroups s !! g = Some l -> (b, z) ∈ l ->
             exists bs, mem s !! b = Some bs /\ Z.of_nat (length bs) = z;
  inv_balance : forall g l, pgroups s !! g = Some l -> map snd l ≡ₚ gather (wants g) (pipes s);
  inv_nodup : NoDup (owned s) }.

(** ** What the pipes hold *)

Definition used (p : pipe) : nat :=
  rused (Z.to_nat (p_sz p)) (Z.to_nat (p_read p)) (Z.to_nat (p_write p)) (p_full p).

Definition pbytes (s : pst) (p : pipe) : list Z :=
  match p_buf p with
  | None => []
  | Some b =>
      rcontents (default [] (mem s !! b)) (Z.to_nat (p_read p)) (Z.to_nat (p_write p)) (p_full p)
  end.

(** A pipe as a bounded queue of bytes. *)
Record queue := Queue { q_bytes : list Z; q_cap : Z; q_group : option nat }.

Definition queue_of (s : pst) (p : pipe) : queue := Queue (pbytes s p) (p_sz p) (p_group p).
Definition view (s : pst) : gmap nat queue := queue_of s <$> pipes s.
#[global] Arguments view : simpl never.

Lemma used_length s p : pipe_ok s p -> length (pbytes s p) = used p.
Proof.
  intros [Hs Hr Hw Hf Hb _]. unfold pbytes, used. destruct (p_buf p) as [b|].
  - destruct Hb as (l & -> & Hl). cbn. apply rcontents_length; lia.
  - destruct Hb as (_ & -> & ->). unfold rused. by rewrite Nat.eqb_refl.
Qed.

Lemma used_le s p : pipe_ok s p -> (used p <= Z.to_nat (p_sz p))%nat.
Proof. intros [Hs Hr Hw _ _ _]. apply rused_le; lia. Qed.

(** ** Changes of state that keep the invariant *)

Lemma pipe_ok_mem s s' p :
  pgroups s' = pgroups s ->
  (forall b l, p_buf p = Some b -> mem s !! b = Some l ->
     exists l', mem s' !! b = Some l' /\ length l' = length l) ->
  pipe_ok s p -> pipe_ok s' p.
Proof.
  intros Hg Hm [? ? ? ? Hb Hgr]. split; try done.
  - destruct (p_buf p) as [b|]; [|done]. destruct Hb as (l & Hl & Hlen).
    destruct (Hm b l eq_refl Hl) as (l' & ? & ?). exists l'. split; [done|lia].
  - intros g E. rewrite Hg. by apply Hgr.
Qed.

Lemma pipe_ok_same s s' p : mem s' = mem s -> pgroups s' = pgroups s -> pipe_ok s p -> pipe_ok s' p.
Proof. intros Hm Hg. apply pipe_ok_mem; [done|]. rewrite Hm. eauto. Qed.

(** Bytes written over a buffer. *)
Lemma inv_write s b l l' :
  inv s -> mem s !! b = Some l -> length l' = length l -> inv (set_mem <[b := l']> s).
Proof.
  intros [Hp Hf Hbal Hnd] Hb Hlen.
  assert (Hm : forall c x, mem s !! c = Some x ->
            exists x', <[b := l']> (mem s) !! c = Some x' /\ length x' = length x).
  { intros c x Hx. destruct (decide (c = b)) as [->|].
    - exists l'. rewrite lookup_insert_eq. split; [done|congruence].
    - exists x. by rewrite lookup_insert_ne. }
  split; cbn; [|..|done|done].
  - intros i p Hi. apply (pipe_ok_mem s); [done| |by eapply Hp]. intros. by apply Hm.
  - intros g lg c z Hg Hc. destruct (Hf g lg c z Hg Hc) as (x & Hx & Hz).
    destruct (Hm c x Hx) as (x' & ? & ?). exists x'. split; [done|lia].
Qed.

(** The positions of a ring moved. *)
Lemma inv_ring s i p w r f :
  inv s -> pipes s !! i = Some p -> pipe_ok s (with_ring w r f p) ->
  inv (set_pipes <[i := with_ring w r f p]> s).
Proof.
  intros [Hp Hf Hbal Hnd] Hi Hok. split; cbn; [|done|..].
  - intros j q Hj. apply (pipe_ok_same s); [done|done|].
    apply lookup_insert_Some in Hj as [[<- <-]|[_ Hj]]; [done|by eapply Hp].
  - intros g l Hg. rewrite (gather_same _ _ _ _ _ Hi) by done. by apply Hbal.
  - unfold owned in *. cbn. by rewrite (gather_same _ _ _ _ _ Hi).
Qed.

(** The buffer of an empty pipe handed to its group. *)
Lemma inv_release s i p g l b :
  inv s -> pipes s !! i = Some p -> p_group p = Some g -> pgroups s !! g = Some l ->
  p_buf p = Some b -> p_read p = p_write p -> p_full p = false ->
  inv (Pst (mem s) (<[i := with_buf None p]> (pipes s)) (<[g := (b, p_sz p) :: l]> (pgroups s))).
Proof.
  intros [Hp Hf Hbal Hnd] Hi Hg Hl Hb He Hfu. pose proof (Hp i p Hi) as [H1 H2 H3 H4 H5 H6].
  split; cbn.
  - assert (Hok : forall q, pipe_ok s q -> pipe_ok (Pst (mem s) (pipes s)
        (<[g := (b, p_sz p) :: l]> (pgroups s))) q).
    { intros q [? ? ? ? ? Hq]. split; try done. intros g' Hg'. destruct (Hq g' Hg'). split; [|done].
      cbn. apply lookup_insert_is_Some'. auto. }
    intros j q [[<- <-]|[_ Hj]]%lookup_insert_Some.
    + split; cbn; try done; [by rewrite Hg|]. intros g' Hg'. destruct (H6 g' Hg'). split; [|done].
      apply lookup_insert_is_Some'. auto.
    + eapply pipe_ok_same; [..|by eapply Hok, Hp]; done.
  - intros g' l' b' z [[<- <-]|[_ Hg']]%lookup_insert_Some Hin; [|by eapply Hf].
    apply elem_of_cons in Hin as [[= -> ->]|Hin]; [by rewrite Hb in H5|by eapply Hf].
  - intros g' l' Hg'. rewrite gather_insert.
    apply lookup_insert_Some in Hg' as [[<- <-]|[Hne Hg']].
    + unfold wants at 1. rewrite bool_decide_true by done. cbn. f_equiv.
      rewrite (Hbal g l Hl), (gather_delete _ _ i p Hi). unfold wants at 1.
      by rewrite bool_decide_false by (rewrite Hb; by intros [_ ?]).
    + rewrite (Hbal g' l' Hg'), (gather_delete _ _ i p Hi). f_equiv. unfold wants.
      rewrite !bool_decide_false; [done|..]; cbn; rewrite Hg; by intros [[=] _].
  - unfold owned in *. cbn. rewrite gather_insert, gather_insert. cbn.
    rewrite (gather_delete _ _ i p Hi), (gather_delete _ _ g l Hl) in Hnd.
    unfold own at 1 in Hnd. rewrite Hb in Hnd. cbn in Hnd. by rewrite <- Permutation_middle.
Qed.

Lemma take_buf_spec z l b l' : take_buf z l = Some (b, l') -> l ≡ₚ (b, z) :: l'.
Proof.
  revert l'. induction l as [|[c y] l IH]; intros l'; cbn; [done|].
  destruct (Z.eqb_spec y z) as [->|]; [by intros [= -> ->]|].
  destruct (take_buf z l) as [[x m]|]; [|done]. intros [= -> <-]. rewrite (IH m eq_refl). constructor.
Qed.

Lemma take_buf_some z l : z ∈ map snd l -> exists b l', take_buf z l = Some (b, l').
Proof.
  induction l as [|[c y] l IH]; cbn; [by intros ?%not_elem_of_nil|].
  intros [->|H]%elem_of_cons; [rewrite Z.eqb_refl; eauto|]. destruct (y =? z); [eauto|].
  destruct (IH H) as (b & l' & ->). eauto.
Qed.

(** A pipe without a buffer takes one of its group. *)
Lemma inv_alloc s i p g l b l' :
  inv s -> pipes s !! i = Some p -> p_group p = Some g -> pgroups s !! g = Some l ->
  p_buf p = None -> l ≡ₚ (b, p_sz p) :: l' ->
  inv (Pst (mem s) (<[i := with_buf (Some b) p]> (pipes s)) (<[g := l']> (pgroups s))).
Proof.
  intros [Hp Hf Hbal Hnd] Hi Hg Hl Hb Hl'. pose proof (Hp i p Hi) as [H1 H2 H3 H4 H5 H6].
  assert (Hgr : forall h, is_Some (pgroups s !! h) -> is_Some (<[g := l']> (pgroups s) !! h))
    by (intros h Hh; apply lookup_insert_is_Some'; auto).
  split; cbn.
  - intros j q [[<- <-]|[_ Hj]]%lookup_insert_Some.
    + split; cbn; auto; [|intros h Hh; destruct (H6 h Hh); auto]. apply (Hf g l b (p_sz p) Hl). rewrite Hl'. by left.
    + destruct (Hp j q Hj) as [? ? ? ? ? Hq]. split; cbn; auto. intros h Hh. destruct (Hq h Hh). auto.
  - intros g' l0 b' z [[<- <-]|[_ Hg']]%lookup_insert_Some Hin; [|by eapply Hf].
    apply (Hf g l b' z Hl). rewrite Hl'. by right.
  - intros g' l0 Hg'. rewrite gather_insert.
    apply lookup_insert_Some in Hg' as [[<- <-]|[Hne Hg']].
    + pose proof (Hbal g l Hl) as HB. rewrite (gather_delete _ _ i p Hi), Hl' in HB.
      unfold wants at 1 in HB. rewrite bool_decide_true in HB by done. apply Permutation_cons_inv in HB.
      unfold wants at 1. by rewrite bool_decide_false by (intros [_ [=]]).
    + rewrite (Hbal g' l0 Hg'), (gather_delete _ _ i p Hi). f_equiv. unfold wants.
      rewrite !bool_decide_false; [done|..]; cbn; rewrite Hg; by intros [[=] _].
  - unfold owned in *. cbn. rewrite gather_insert, gather_insert. cbn.
    rewrite (gather_delete _ _ i p Hi), (gather_delete _ _ g l Hl), Hl' in Hnd.
    unfold own at 1 in Hnd. rewrite Hb in Hnd. cbn in Hnd. by rewrite <- Permutation_middle in Hnd.
Qed.

(** A pipe with a buffer moved into or out of a group. *)
Lemma inv_regroup s i p o :
  inv s -> pipes s !! i = Some p -> p_buf p <> None ->
  (forall g, o = Some g -> is_Some (pgroups s !! g) /\ PIPE_HDR <= p_sz p) ->
  inv (set_pipes <[i := with_group o p]> s).
Proof.
  intros [Hp Hf Hbal Hnd] Hi Hb Ho. split; cbn; [|done|..].
  - intros j q Hj. apply (pipe_ok_same s); [done|done|].
    apply lookup_insert_Some in Hj as [[<- <-]|[_ Hj]]; [|by eapply Hp].
    destruct (Hp i p Hi). split; cbn; try done. by destruct (p_buf p).
  - intros g l Hg. rewrite (gather_same _ _ _ _ _ Hi); [by apply Hbal|].
    unfold wants. rewrite !bool_decide_false; [done|..]; by intros [_ ?].
  - unfold owned in *. cbn. by rewrite (gather_same _ _ _ _ _ Hi).
Qed.

(** A new pipe over a buffer nobody owns. *)
Lemma inv_create s i b sz l :
  inv s -> pipes s !! i = None -> mem s !! b = Some l -> b ∉ owned s ->
  Z.of_nat (length l) = sz -> 0 < sz < 2 ^ 31 ->
  inv (set_pipes <[i := Pipe (Some b) sz 0 0 false None]> s).
Proof.
  intros [Hp Hf Hbal Hnd] Hi Hb Ho Hl Hsz. split; cbn; [|done|..].
  - intros j q Hj. apply (pipe_ok_same s); [done|done|].
    apply lookup_insert_Some in Hj as [[<- <-]|[_ Hj]]; [|by eapply Hp].
    split; cbn; (done || lia || eauto).
  - intros g lg Hg. rewrite gather_fresh by done. unfold wants at 1.
    rewrite bool_decide_false by (by intros [[=] _]). by apply Hbal.
  - unfold owned in *. cbn. rewrite gather_fresh by done. cbn. by apply NoDup_cons.
Qed.

(** A pipe without a group taken away; its buffer belongs to nobody. *)
Lemma inv_remove s i p b :
  inv s -> pipes s !! i = Some p -> p_group p = None -> p_buf p = Some b ->
  inv (set_pipes (delete i) s) /\ b ∉ owned (set_pipes (delete i) s).
Proof.
  intros [Hp Hf Hbal Hnd] Hi Hg Hb. unfold owned in *. cbn.
  rewrite (gather_delete _ _ i p Hi) in Hnd. unfold own at 1 in Hnd. rewrite Hb in Hnd. cbn in Hnd.
  apply NoDup_cons in Hnd as [Hn Hnd]. split; [|done]. split; cbn; [|done|..|done].
  - intros j q [_ Hj]%lookup_delete_Some. by apply (pipe_ok_same s), Hp with j.
  - intros g l Hgl. rewrite (Hbal g l Hgl), (gather_delete _ _ i p Hi). unfold wants at 1.
    rewrite bool_decide_false; [done|]. rewrite Hg. by intros [[=] _].
Qed.

(** A buffer on the list of a group has room for its header. *)
Lemma free_size s g l b z : inv s -> pgroups s !! g = Some l -> (b, z) ∈ l -> PIPE_HDR <= z.
Proof.
  intros Hinv Hl Hin. assert (Hz : z ∈ map snd l) by (apply list_elem_of_fmap; by exists (b, z)).
  rewrite (inv_balance s Hinv g l Hl) in Hz. apply elem_of_gather in Hz as (i & p & Hi & Hz).
  unfold wants in Hz. destruct (bool_decide_reflect (p_group p = Some g /\ p_buf p = None)) as [[Hg _]|];
    [|by apply not_elem_of_nil in Hz].
  apply list_elem_of_singleton in Hz as ->. by apply (ok_group s p (inv_pipe s Hinv i p Hi) g).
Qed.

(** ** The view after a change *)

Lemma own_inj s i j p q b :
  inv s -> pipes s !! i = Some p -> pipes s !! j = Some q -> p_buf p = Some b -> p_buf q = Some b -> i = j.
Proof.
  intros Hinv Hi Hj Hp Hq. destruct (decide (i = j)) as [|Hne]; [done|exfalso].
  pose proof (inv_nodup s Hinv) as Hnd. unfold owned in Hnd.
  rewrite (gather_delete _ _ i p Hi), (gather_delete _ _ j q) in Hnd by (by rewrite lookup_delete_ne).
  unfold own at 1 2 in Hnd. rewrite Hp, Hq in Hnd. cbn in Hnd. apply NoDup_cons in Hnd as [[]%not_elem_of_cons _].
  done.
Qed.

Lemma owned_pipe s i p b : pipes s !! i = Some p -> p_buf p = Some b -> b ∈ owned s.
Proof.
  intros Hi Hb. unfold owned. apply elem_of_app. left. apply elem_of_gather. exists i, p.
  split; [done|]. unfold own. rewrite Hb. by left.
Qed.

(** The buffer of pipe [i]. *)
Definition buf_of (s : pst) (i b : nat) : Prop := exists p, pipes s !! i = Some p /\ p_buf p = Some b.

Lemma buf_of_owned s i b : buf_of s i b -> b ∈ owned s.
Proof. intros (p & Hi & Hb). by eapply owned_pipe. Qed.

Lemma buf_of_inj s i j b : inv s -> buf_of s i b -> buf_of s j b -> i = j.
Proof. intros Hinv (p & Hi & Hp) (q & Hj & Hq). by eapply own_inj. Qed.

(** Owned buffers are live. *)
Lemma owned_live s c : inv s -> c ∈ owned s -> is_Some (mem s !! c).
Proof.
  intros Hinv. unfold owned. rewrite elem_of_app, !elem_of_gather. intros [(i & p & Hi & Hc)|(g & l & Hg & Hc)].
  - unfold own in Hc. destruct (p_buf p) as [b|] eqn:Eb; [|by apply not_elem_of_nil in Hc].
    apply list_elem_of_singleton in Hc as ->. pose proof (ok_buf s p (inv_pipe s Hinv i p Hi)) as Hok.
    rewrite Eb in Hok. destruct Hok as (l & Hl & _). eauto.
  - apply list_elem_of_fmap in Hc as ([c' z] & -> & Hin). destruct (inv_free s Hinv g l c' z Hg Hin) as (bs & ? & _). eauto.
Qed.

Lemma view_lookup s i q : view s !! i = Some q <-> exists p, pipes s !! i = Some p /\ q = queue_of s p.
Proof. unfold view. rewrite lookup_fmap_Some. naive_solver. Qed.

Lemma queue_of_mem s s' p :
  (forall c, p_buf p = Some c -> mem s' !! c = mem s !! c) -> queue_of s' p = queue_of s p.
Proof.
  intros H. unfold queue_of, pbytes. f_equal. destruct (p_buf p) as [c|]; [|done]. by rewrite (H c eq_refl).
Qed.

Lemma view_upd s s' i p' :
  pipes s' = <[i := p']> (pipes s) ->
  (forall j p c, j <> i -> pipes s !! j = Some p -> p_buf p = Some c -> mem s' !! c = mem s !! c) ->
  view s' = <[i := queue_of s' p']> (view s).
Proof.
  intros Hp Hm. unfold view. apply map_eq. intros j. rewrite Hp, fmap_insert.
  destruct (decide (j = i)) as [->|Hne]; [by rewrite !lookup_insert_eq|].
  rewrite !lookup_insert_ne, !lookup_fmap by done. destruct (pipes s !! j) as [q|] eqn:Hj; [|done].
  cbn. f_equal. apply queue_of_mem. intros c. by apply Hm with j.
Qed.

(** Only the memory changed, and not that of the pipes. *)
Lemma view_mem s s' :
  pipes s' = pipes s ->
  (forall j p c, pipes s !! j = Some p -> p_buf p = Some c -> mem s' !! c = mem s !! c) ->
  view s' = view s.
Proof.
  intros Hp Hm. unfold view. rewrite Hp. apply map_fmap_ext. intros j q Hj. apply queue_of_mem. eauto.
Qed.

(** Memory that nobody owns changed. *)
Lemma inv_mem s f :
  (forall c, c ∈ owned s -> f (mem s) !! c = mem s !! c) -> inv s ->
  inv (set_mem f s) /\ view (set_mem f s) = view s.
Proof.
  intros Hm Hinv. pose proof Hinv as [Hp Hf Hbal Hnd]. split; [split; cbn; [|..|done|done]|].
  - intros i p Hi. apply (pipe_ok_mem s); [done| |by eapply Hp]. intros c l Hc Hl. exists l. cbn.
    split; [|done]. rewrite Hm; [done|]. by eapply owned_pipe.
  - intros g l c z Hg Hc. destruct (Hf g l c z Hg Hc) as (bs & Hb & Hz). exists bs. split; [|done].
    rewrite Hm; [done|]. unfold owned. apply elem_of_app. right. apply elem_of_gather. exists g, l.
    split; [done|]. apply list_elem_of_fmap. by exists (c, z).
  - apply view_mem; [done|]. intros j p c Hj Hc. apply Hm. by eapply owned_pipe.
Qed.

(** No pipes yet, and groups without buffers. *)
Lemma inv_start m gs : (forall g l, gs !! g = Some l -> l = []) -> inv (Pst m ∅ gs).
Proof.
  intros Hg. split; cbn.
  - intros i p Hi. by rewrite lookup_empty in Hi.
  - intros g l b z Hl Hin. rewrite (Hg g l Hl) in Hin. by apply not_elem_of_nil in Hin.
  - intros g l Hl. by rewrite (Hg g l Hl).
  - unfold owned. cbn. replace (gather (map fst) gs) with (@nil nat); [constructor|]. symmetry.
    destruct (gather (map fst) gs) as [|b l] eqn:E; [done|exfalso].
    assert (Hin : b ∈ gather (map fst) gs) by (rewrite E; by left).
    apply elem_of_gather in Hin as (g & l' & Hl' & Hb). rewrite (Hg g l' Hl') in Hb. by apply not_elem_of_nil in Hb.
Qed.
