(* ===== verification/PipeOps.v ===== *)
(** * The operations of a pipe on the bytes it holds

    Each operation of lib/util/pipe.c run from a state of the invariant: it is
    defined, keeps the invariant, and changes the bytes in the pipes as a queue
    of bytes would. *)

From S2P Require Import Prelude Pipe PipeLemmas IovLemmas PipeInv.

(** ** The pieces of a ring *)

(** The [k] bytes from position [pos] on, as the two iovecs of the ring. *)
Definition ring_iovs (b : nat) (sz pos k : Z) : list iovec :=
  let a := Z.min k (sz - pos) in
  [Iov (Some (b, pos)) a; Iov (if k - a =? 0 then None else Some (b, 0)) (k - a)].

(** The two iovecs from the lengths of the pieces. *)
Lemma ring_result b sz pos k a c (s : pst) :
  k = a + c -> a = Z.min k (sz - pos) -> 0 <= k < 2 ^ 31 ->
  Ok (s32 (a + c), [Iov (Some (b, pos)) a; Iov (if c =? 0 then None else Some (b, 0)) c], s)
  = Ok (k, ring_iovs b sz pos k, s).
Proof.
  intros Hk Ha Hr. rewrite <- Hk, s32_small by lia. unfold ring_iovs. rewrite <- Ha.
  by replace (k - a) with c by lia.
Qed.

Section pieces.
Context (m : gmap nat (list Z)) (b : nat) (l : list Z) (sz pos k : Z).
Context (Hb : m !! b = Some l) (Hl : Z.of_nat (length l) = sz).
Context (Hpos : 0 <= pos < sz) (Hk : 0 < k <= sz).

Lemma ring_fits : fits m (ring_iovs b sz pos k).
Proof using Hb Hl Hpos Hk.
  unfold ring_iovs. constructor; [|constructor; [|constructor]]; cbn.
  - right. split; [lia|]. exists b, pos, l. split_and!; (done || lia).
  - destruct (Z.eqb_spec (k - Z.min k (sz - pos)) 0); [by left|right]. split; [lia|].
    exists b, 0, l. split_and!; (done || lia).
Qed.

Lemma ring_bufs c : c ∈ iov_bufs (ring_iovs b sz pos k) -> c = b.
Proof.
  clear Hb Hl Hpos Hk. unfold ring_iovs, iov_bufs. cbn. destruct (_ =? 0); cbn; rewrite ?elem_of_cons; set_solver.
Qed.

Lemma ring_max : sz < 2 ^ 31 -> Forall (fun v => iov_len v <= UINT32_MAX) (ring_iovs b sz pos k).
Proof using Hpos Hk. clear Hb Hl. unfold UINT32_MAX. intros. repeat constructor; cbn; lia. Qed.

Lemma ring_live_scatter bs : scatter (live (ring_iovs b sz pos k)) bs m = scatter (ring_iovs b sz pos k) bs m.
Proof using Hpos Hk.
  clear Hb Hl.
  unfold ring_iovs. cbn [live iov_len]. destruct (Z.eqb_spec (Z.min k (sz - pos)) 0); [lia|].
  destruct (Z.eqb_spec (k - Z.min k (sz - pos)) 0) as [->|]; [|done].
  cbn [scatter iov_len iov_base Z.to_nat]. by rewrite take_0.
Qed.

Lemma ring_live_bytes : iov_bytes m (live (ring_iovs b sz pos k)) = iov_bytes m (ring_iovs b sz pos k).
Proof using Hpos Hk.
  clear Hb Hl. unfold ring_iovs, iov_bytes. cbn [live iov_len]. destruct (Z.eqb_spec (Z.min k (sz - pos)) 0); [lia|].
  by destruct (k - Z.min k (sz - pos) =? 0).
Qed.

Lemma ring_live_total : iov_total (live (ring_iovs b sz pos k)) = k.
Proof using Hpos Hk.
  clear Hb Hl.
  unfold ring_iovs, iov_total. cbn [live iov_len]. destruct (Z.eqb_spec (Z.min k (sz - pos)) 0); [lia|].
  destruct (Z.eqb_spec (k - Z.min k (sz - pos)) 0); cbn [map iov_len];
    rewrite ?zsum_cons, zsum_nil; lia.
Qed.

Lemma ring_live_length : (length (live (ring_iovs b sz pos k)) <= 2)%nat.
Proof. clear Hb Hl Hpos Hk. unfold ring_iovs. cbn. repeat (destruct (_ =? _); cbn); lia. Qed.

Lemma ring_scatter bs :
  Z.of_nat (length bs) <= k ->
  scatter (ring_iovs b sz pos k) bs m = <[b := rstore (Z.to_nat sz) l (Z.to_nat pos) bs]> m.
Proof using Hb Hl Hpos Hk.
  intros Hbs. unfold ring_iovs, rstore. cbn [scatter iov_len iov_base].
  assert (H1 : take (Z.to_nat (Z.min k (sz - pos))) bs = take (Z.to_nat sz - Z.to_nat pos) bs)
    by (destruct (Z.min_spec k (sz - pos)) as [[? ->]|[? ->]]; [rewrite !take_ge; (done || lia)|f_equal; lia]).
  assert (H2 : drop (Z.to_nat (Z.min k (sz - pos))) bs = drop (Z.to_nat sz - Z.to_nat pos) bs)
    by (destruct (Z.min_spec k (sz - pos)) as [[? ->]|[? ->]]; [rewrite !drop_ge; (done || lia)|f_equal; lia]).
  rewrite H1, H2. set (b1 := take _ bs). set (b2 := drop _ bs).
  assert (Hp : forall off x c, poke (Some (b, off)) c (<[b := x]> m)
            = <[b := overwrite (Z.to_nat off) c x]> m).
  { intros off x c. destruct c as [|y c]; cbn [poke].
    - unfold overwrite. cbn. by rewrite Nat.add_0_r, take_drop.
    - by rewrite alter_insert_eq. }
  rewrite <- (insert_id m b l Hb) at 1. rewrite Hp.
  destruct (Z.eqb_spec (k - Z.min k (sz - pos)) 0) as [E|].
  - rewrite E. cbn. assert (b2 = []) as -> by (apply nil_length_inv; unfold b2; rewrite length_drop; lia).
    f_equal.
  - rewrite take_ge by (unfold b2; rewrite length_drop; lia). apply Hp.
Qed.

Lemma ring_bytes w full :
  0 <= w < sz -> (full = true -> pos = w) ->
  k <= Z.of_nat (rused (Z.to_nat sz) (Z.to_nat pos) (Z.to_nat w) full) ->
  iov_bytes m (live (ring_iovs b sz pos k))
  = take (Z.to_nat k) (rcontents l (Z.to_nat pos) (Z.to_nat w) full).
Proof using Hb Hl Hpos Hk.
  intros Hw Hf Hu. rewrite (rcontents_take (Z.to_nat sz)) by lia.
  unfold ring_iovs, iov_bytes. cbn [live iov_len]. destruct (Z.eqb_spec (Z.min k (sz - pos)) 0); [lia|].
  unfold rused in Hu. revert Hu.
  destruct (Nat.ltb_spec (Z.to_nat pos) (Z.to_nat w)) as [Hlt|Hge]; intros Hu.
  - assert (E : k - Z.min k (sz - pos) = 0) by (destruct (_ && _); lia). rewrite E. cbn [Z.eqb].
    cbn. rewrite Hb, app_nil_r. cbn. f_equal. destruct (_ && _); lia.
  - destruct (Z.eqb_spec (k - Z.min k (sz - pos)) 0) as [E|E].
    + cbn. rewrite Hb, app_nil_r. cbn. replace (_ - (Z.to_nat sz - Z.to_nat pos))%nat with 0%nat by lia.
      rewrite take_0, app_nil_r. f_equal. lia.
    + cbn. rewrite Hb, app_nil_r. cbn. rewrite drop_0. f_equal.
      * rewrite !take_ge; [done|..]; rewrite length_drop; lia.
      * f_equal. destruct (_ && _); lia.
Qed.
End pieces.

(** ** Operations *)

(** [s'] is a state of the invariant over the same buffers, with the memory of
    nobody's buffers unchanged and the queues [V]. *)
Record becomes (s : pst) (V : gmap nat queue) (s' : pst) : Prop := Becomes {
  be_inv : inv s';
  be_mem : forall c, c ∉ owned s -> mem s' !! c = mem s !! c;
  be_owned : owned s' ≡ₚ owned s;
  be_groups : dom (pgroups s') = dom (pgroups s);
  be_view : view s' = V }.

Lemma becomes_refl s : inv s -> becomes s (view s) s.
Proof. by split. Qed.

Lemma load_pipe_ok s i p : pipes s !! i = Some p -> load_pipe i s = Ok (p, s).
Proof. intros H. unfold load_pipe, mbind, M_bind, get, lift_opt, mret, M_ret. by rewrite H. Qed.

Lemma load_group_ok s g l : pgroups s !! g = Some l -> load_group g s = Ok (l, s).
Proof. intros H. unfold load_group, mbind, M_bind, get, lift_opt, mret, M_ret. by rewrite H. Qed.

(** The view after a change of pipe [i] of [s] alone. *)
Ltac view_step s i :=
  match goal with |- view ?s' = _ => erewrite (view_upd s s' i); [|reflexivity|done] end.

Lemma becomes_trans s V s1 V' s2 : becomes s V s1 -> becomes s1 V' s2 -> becomes s V' s2.
Proof.
  intros [? Hm1 Ho1 ? Hv1] [? Hm2 Ho2 Hg2 Hv2]. split; [done| |by rewrite Ho2, Ho1|by rewrite Hg2|done].
  intros c Hc. rewrite Hm2 by (by rewrite Ho1). by apply Hm1.
Qed.

(** The buffer [b] belongs to no pipe that holds bytes. *)
Definition idle (s : pst) (b : nat) : Prop :=
  forall i p, pipes s !! i = Some p -> p_buf p = Some b -> p_read p = p_write p /\ p_full p = false.

(** Bytes written over an idle buffer are no pipe's bytes. *)
Lemma scribble_ok s b l off bs :
  inv s -> b ∈ owned s -> idle s b -> mem s !! b = Some l -> 0 <= off ->
  off + Z.of_nat (length bs) <= Z.of_nat (length l) ->
  exists m l', mem_write (Some (b, off)) bs s = Ok (tt, set_mem (fun _ => m) s) /\
    m !! b = Some l' /\ length l' = length l /\ becomes s (view s) (set_mem (fun _ => m) s).
Proof.
  intros Hinv Ho Hidle Hb Hoff Hlen. set (l' := overwrite (Z.to_nat off) bs l).
  assert (Hl' : length l' = length l) by (apply overwrite_length; lia).
  destruct bs as [|x bs].
  { exists (mem s), l. replace (set_mem _ s) with s by (by destruct s). split_and!; try done.  }
  exists (<[b := l']> (mem s)), l'. split_and!; [|apply lookup_insert_eq|done|].
  - unfold mem_write, mbind, M_bind, lift_opt, get, mret, M_ret, put. rewrite Hb.
    rewrite (proj2 (Z.leb_le _ _) Hoff), (proj2 (Z.leb_le _ _) Hlen). done.
  - split; [by eapply inv_write| |done|done|].
    + intros c Hc. apply lookup_insert_ne. by intros <-.
    + unfold view. apply map_fmap_ext. intros j q Hj. destruct (decide (p_buf q = Some b)) as [E|E].
      * destruct (Hidle j q Hj E) as [He Hf]. unfold queue_of, pbytes, rcontents. cbn [mem set_mem].
        by rewrite E, He, Hf, Nat.eqb_refl.
      * apply queue_of_mem. intros c Hc. apply lookup_insert_ne. congruence.
Qed.

Lemma owned_free s g l b z : pgroups s !! g = Some l -> (b, z) ∈ l -> b ∈ owned s.
Proof.
  intros Hl Hin. unfold owned. apply elem_of_app. right. apply elem_of_gather. exists g, l. split; [done|].
  apply list_elem_of_fmap. by exists (b, z).
Qed.

(** A buffer on a list belongs to no pipe. *)
Lemma idle_free s g l b z : inv s -> pgroups s !! g = Some l -> (b, z) ∈ l -> idle s b.
Proof.
  intros Hinv Hl Hin i p Hi Hb. exfalso. pose proof (inv_nodup s Hinv) as Hnd. unfold owned in Hnd.
  apply NoDup_app in Hnd as (_ & Hnd & _). apply (Hnd b).
  - apply elem_of_gather. exists i, p. split; [done|]. unfold own. rewrite Hb. by left.
  - apply elem_of_gather. exists g, l. split; [done|]. apply list_elem_of_fmap. by exists (b, z).
Qed.

Lemma slist_prev_in b l : b ∈ map fst l -> fst <$> head l <> Some b ->
  exists c z next, slist_prev b l = Some (c, next) /\ (c, z) ∈ l.
Proof.
  induction l as [|[c y] [|[d z] l] IH]; intros Hin Hne.
  - by apply not_elem_of_nil in Hin.
  - apply list_elem_of_singleton in Hin as ->. done.
  - cbn [slist_prev]. destruct (Nat.eqb_spec d b) as [->|Hd]; [exists c, y; eexists; split; [done|by left]|].
    apply elem_of_cons in Hin as [->|Hin]; [done|]. destruct (IH Hin) as (e & w & n & Hp & He); [cbn; congruence|].
    exists e, w, n. split; [done|by right].
Qed.

Lemma slist_unlink_ok s g l b z :
  inv s -> pgroups s !! g = Some l -> (b, z) ∈ l ->
  exists m, slist_unlink b l s = Ok (tt, set_mem (fun _ => m) s) /\ becomes s (view s) (set_mem (fun _ => m) s).
Proof.
  intros Hinv Hl Hb. unfold slist_unlink. destruct (bool_decide_reflect (fst <$> head l = Some b)) as [E|E].
  - exists (mem s). replace (set_mem _ s) with s by (by destruct s). split; [done|by apply becomes_refl].
  - destruct (slist_prev_in b l) as (c & y & next & -> & Hc); [apply list_elem_of_fmap; by exists (b, z)|done|].
    destruct (inv_free s Hinv g l c y Hl Hc) as (bs & Hbs & Hlen). pose proof (free_size s g l c y Hinv Hl Hc) as Hy.
    destruct (scribble_ok s c bs 0 (link_bytes next)) as (m & l' & ? & _ & _ & ?);
      [done|by eapply owned_free|by eapply idle_free|done|done|unfold link_bytes; rewrite le_bytes_length; unfold PIPE_HDR in Hy; lia|].
    by exists m.
Qed.

Lemma alloc_ok s i p :
  inv s -> pipes s !! i = Some p -> p_buf p = None ->
  exists b s', pipe_alloc_buf_from_group i s = Ok (tt, s') /\ becomes s (view s) s' /\
               pipes s' = <[i := with_buf (Some b) p]> (pipes s).
Proof.
  intros Hinv Hi Hb. pose proof (inv_pipe s Hinv i p Hi) as Hok.
  pose proof (ok_buf s p Hok) as Hbuf. rewrite Hb in Hbuf. destruct Hbuf as (Hg & Hrw & Hfull).
  destruct (p_group p) as [g|] eqn:Eg; [|done]. destruct (ok_group s p Hok g Eg) as [[l Hl] _].
  destruct (take_buf_some (p_sz p) l) as (b & l' & Ht).
  { rewrite (inv_balance s Hinv g l Hl). apply elem_of_gather. exists i, p. split; [done|].
    unfold wants. rewrite bool_decide_true by done. by left. }
  pose proof (take_buf_spec _ _ _ _ Ht) as Hperm.
  destruct (slist_unlink_ok s g l b (p_sz p) Hinv Hl) as (m & Hun & Hbm); [rewrite Hperm; by left|].
  exists b, (Pst m (<[i := with_buf (Some b) p]> (pipes s)) (<[g := l']> (pgroups s))).
  split_and!; [| |done].
  - unfold pipe_alloc_buf_from_group. rewrite (M_bind_ok _ _ _ _ _ (load_pipe_ok s i p Hi)), Eg. cbn [lift_opt].
    mstep. rewrite (M_bind_ok _ _ _ _ _ (load_group_ok s g l Hl)), Ht. by rewrite (M_bind_ok _ _ _ _ _ Hun).
  - eapply becomes_trans; [exact Hbm|]. set (s1 := set_mem (fun _ => m) s) in *.
    split; [by eapply (inv_alloc s1 i p g l); [apply Hbm|..]|done| |cbn; by rewrite dom_insert_lookup_L|].
    + unfold owned. cbn. rewrite !gather_insert, (gather_delete _ _ i p Hi), (gather_delete _ _ g l Hl), Hperm.
      unfold own at 1 3. cbn. rewrite Hb. cbn. by rewrite <- Permutation_middle.
    + rewrite <- (be_view _ _ _ Hbm). view_step s1 i. apply insert_id, view_lookup. exists p. split; [done|].
      unfold queue_of, pbytes, rcontents. cbn. by rewrite Hb, Hrw, Hfull, Nat.eqb_refl.
Qed.

Lemma release_buf_ok s i p g :
  inv s -> pipes s !! i = Some p -> p_group p = Some g -> p_buf p <> None ->
  p_read p = p_write p -> p_full p = false ->
  exists s', release_buf g i p s = Ok (tt, s') /\ becomes s (view s) s'.
Proof.
  intros Hinv Hi Hg Hb Hrw Hfull. pose proof (inv_pipe s Hinv i p Hi) as Hok.
  destruct (p_buf p) as [b|] eqn:Eb; [|done]. destruct (ok_group s p Hok g Hg) as [[l Hl] Hz].
  pose proof (ok_buf s p Hok) as Hbuf. rewrite Eb in Hbuf. destruct Hbuf as (bs & Hbs & Hlen). unfold PIPE_HDR in Hz.
  assert (Hown : b ∈ owned s) by (by eapply owned_pipe).
  assert (Hidle : idle s b) by (intros j q Hj Hq; assert (j = i) as -> by (by eapply own_inj); by simplify_eq).
  destruct (scribble_ok s b bs 8 (le_bytes 4 (p_sz p))) as (m1 & l1 & Hw1 & Hm1 & Hl1 & Hb1);
    [done..|rewrite le_bytes_length; lia|].
  set (s1 := set_mem (fun _ => m1) s) in *.
  destruct (scribble_ok s1 b l1 0 (link_bytes (fst <$> head l))) as (m2 & l2 & Hw2 & Hm2 & Hl2 & Hb2);
    [apply Hb1|done|done|done|done|unfold link_bytes; rewrite le_bytes_length; lia|].
  set (s2 := set_mem (fun _ => m2) s1) in *. rewrite (be_view _ _ _ Hb1) in Hb2.
  exists (Pst m2 (<[i := with_buf None p]> (pipes s)) (<[g := (b, p_sz p) :: l]> (pgroups s))).
  split.
  - unfold release_buf. rewrite Eb. cbn [lift_opt]. mstep.
    rewrite (M_bind_ok _ _ _ _ _ (load_group_ok s g l Hl)), (M_bind_ok _ _ _ _ _ Hw1).
    by rewrite (M_bind_ok _ _ _ _ _ Hw2).
  - eapply becomes_trans; [exact Hb1|]. eapply becomes_trans; [exact Hb2|].
    split; [by eapply (inv_release s2 i p g l); [apply Hb2|..]|done| |cbn; by rewrite dom_insert_lookup_L|].
    + unfold owned. cbn. rewrite !gather_insert, (gather_delete _ _ i p Hi), (gather_delete _ _ g l Hl).
      unfold own at 1 3. cbn. rewrite Eb. cbn. by rewrite <- Permutation_middle.
    + rewrite <- (be_view _ _ _ Hb2). view_step s2 i. apply insert_id, view_lookup. exists p. split; [done|].
      unfold queue_of, pbytes, rcontents. cbn. by rewrite Eb, Hrw, Hfull, Nat.eqb_refl.
Qed.

(** The positions of the ring moved, the buffers left as they are. *)
Lemma ring_becomes s i p w r f :
  inv s -> pipes s !! i = Some p -> pipe_ok s (with_ring w r f p) ->
  becomes s (<[i := queue_of s (with_ring w r f p)]> (view s)) (set_pipes <[i := with_ring w r f p]> s).
Proof.
  intros Hinv Hi Hok. split; [by apply inv_ring|done| |done|].
  - unfold owned. cbn. by rewrite (gather_same _ _ _ _ _ Hi).
  - view_step s i. done.
Qed.

(** *** Writing *)

(** The bytes a pipe has room for. *)
Definition room (p : pipe) : Z := p_sz p - Z.of_nat (used p).

(** The ring in integers. *)
Lemma used_cases s p :
  pipe_ok s p ->
  Z.of_nat (used p) = (if (p_read p =? p_write p) && negb (p_full p) then 0
                       else if p_read p <? p_write p then p_write p - p_read p
                       else p_sz p - p_read p + p_write p) /\
  0 <= Z.of_nat (used p) <= p_sz p.
Proof.
  intros [Hs Hr Hw Hf _ _]. unfold used, rused.
  destruct (Z.eqb_spec (p_read p) (p_write p)), (Nat.eqb_spec (Z.to_nat (p_read p)) (Z.to_nat (p_write p)));
    try lia; destruct (p_full p); cbn [andb negb];
    destruct (Z.ltb_spec (p_read p) (p_write p)), (Nat.ltb_spec (Z.to_nat (p_read p)) (Z.to_nat (p_write p)));
    try lia.
Qed.

Ltac u32s := repeat match goal with
  | |- context [wrap 32 ?x] => rewrite (wrap_small 32 x) by lia
  end.

(** A pipe ready to be written: its buffer is attached, and the iovecs point to
    the [k] bytes behind its contents. *)
Definition window (s : pst) (i : nat) (k : Z) (vs : list iovec) : Prop :=
  exists p b, pipes s !! i = Some p /\ p_buf p = Some b /\ p_full p = false /\
              0 < k <= room p /\ vs = ring_iovs b (p_sz p) (p_write p) k.

Lemma writer_get_ok s i p n :
  inv s -> pipes s !! i = Some p -> 0 <= n < 2 ^ 32 ->
  exists vs s', spdk_pipe_writer_get_buffer i n s = Ok ((Z.min n (room p), vs), s') /\
    becomes s (view s) s' /\ (forall j, j <> i -> pipes s' !! j = pipes s !! j) /\
    (if Z.min n (room p) =? 0 then s' = s else window s' i (Z.min n (room p)) vs).
Proof.
  intros Hinv Hi Hn. pose proof (inv_pipe s Hinv i p Hi) as Hok. destruct (used_cases s p Hok) as [Hu Hle].
  assert (Hroom : p_full p || (n =? 0) = true -> Z.min n (room p) = 0).
  { unfold room. destruct Hok as [? ? ? Hf _ _]. destruct (p_full p); cbn [orb].
    - rewrite Hu, Hf, Z.eqb_refl, Z.ltb_irrefl by done. cbn. lia.
    - lia. }
  unfold spdk_pipe_writer_get_buffer. rewrite (M_bind_ok _ _ _ _ _ (load_pipe_ok s i p Hi)).
  destruct (p_full p || (n =? 0)) eqn:E.
  - exists [iov0], s. rewrite Hroom by done. split_and!; [done|by apply becomes_refl|done|done].
  - apply orb_false_iff in E as [Ef En]. apply Z.eqb_neq in En.
    assert (exists b s1, (match p_buf p with None => pipe_alloc_buf_from_group i | Some _ => mret tt end) s
              = Ok (tt, s1) /\ becomes s (view s) s1 /\ pipes s1 !! i = Some (with_buf (Some b) p) /\
              forall j, j <> i -> pipes s1 !! j = pipes s !! j)
      as (b & s1 & Ha & Hb & Hi1 & Hoth).
    { destruct (p_buf p) as [b|] eqn:Eb.
      - exists b, s. split_and!; [done|by apply becomes_refl| |done]. rewrite Hi. f_equal. rewrite <- Eb. by destruct p.
      - destruct (alloc_ok s i p Hinv Hi Eb) as (b & s1 & ? & ? & Hp). exists b, s1.
        rewrite Hp. split_and!; [done|done|apply lookup_insert_eq|]. intros j Hj. by rewrite lookup_insert_ne. }
    rewrite (M_bind_ok _ _ _ _ _ Ha), (M_bind_ok _ _ _ _ _ (load_pipe_ok s1 i _ Hi1)). cbn [with_buf p_read p_write p_sz].
    destruct Hok as [Hsz Hr Hw _ _ _]. rewrite Ef in Hu. cbn [negb] in Hu. rewrite andb_true_r in Hu.
    assert (Hpos : 0 < Z.min n (room p)).
    { unfold room. rewrite Hu. destruct (Z.eqb_spec (p_read p) (p_write p)), (Z.ltb_spec (p_read p) (p_write p)); lia. }
    destruct (Z.eqb_spec (Z.min n (room p)) 0); [lia|].
    exists (ring_iovs b (p_sz p) (p_write p) (Z.min n (room p))), s1. split_and!; [|done|done|].
    2:{ exists (with_buf (Some b) p), b. split_and!; [done..| |done].
        change (room (with_buf (Some b) p)) with (room p). lia. }
    revert Hpos. unfold room. rewrite Hu. unfold at_buf. cbn [with_buf p_buf mbind option_bind].
    destruct (Z.leb_spec (p_read p) (p_write p)).
    + u32s. intros Hpos. apply (ring_result b (p_sz p) (p_write p)).
      * destruct (Z.ltb_spec 0 (n - Z.min n (p_sz p - p_write p)));
          destruct (Z.eqb_spec (p_read p) (p_write p)), (Z.ltb_spec (p_read p) (p_write p)); lia.
      * destruct (Z.eqb_spec (p_read p) (p_write p)), (Z.ltb_spec (p_read p) (p_write p)); lia.
      * destruct (Z.eqb_spec (p_read p) (p_write p)), (Z.ltb_spec (p_read p) (p_write p)); lia.
    + u32s. intros Hpos. destruct (Z.eqb_spec (p_read p) (p_write p)), (Z.ltb_spec (p_read p) (p_write p)); try lia.
      replace (p_sz p - (p_sz p - p_read p + p_write p)) with (p_read p - p_write p) in * by lia.
      pose proof (ring_result b (p_sz p) (p_write p) (Z.min n (p_read p - p_write p))
        (Z.min n (p_read p - p_write p)) 0 s1) as HR. rewrite Z.add_0_r in HR.
      apply HR; lia.
Qed.

(** The position [n] bytes further on. *)
Definition zidx (sz k : Z) : Z := if k <? sz then k else k - sz.

Lemma zidx_nat sz k : 0 <= k -> 0 <= sz -> Z.to_nat (zidx sz k) = ridx (Z.to_nat sz) (Z.to_nat k).
Proof.
  intros Hk Hs. unfold zidx, ridx. destruct (Z.ltb_spec k sz), (Nat.ltb_spec (Z.to_nat k) (Z.to_nat sz)); lia.
Qed.

(** spdk_pipe_writer_advance is refused without room, and moves the write
    position otherwise. *)
Lemma writer_advance_eq s i p n :
  inv s -> pipes s !! i = Some p -> 0 <= n < 2 ^ 32 ->
  spdk_pipe_writer_advance i n s
  = if (room p <? n) || p_full p then Ok (- EINVAL, s)
    else Ok (0, let w := zidx (p_sz p) (p_write p + n) in
                set_pipes <[i := with_ring w (p_read p) (p_read p =? w) p]> s).
Proof.
  intros Hinv Hi Hn. pose proof (inv_pipe s Hinv i p Hi) as Hok. destruct (used_cases s p Hok) as [Hu Hle].
  destruct Hok as [Hsz Hr Hw _ _ _]. unfold spdk_pipe_writer_advance.
  rewrite (M_bind_ok _ _ _ _ _ (load_pipe_ok s i p Hi)). unfold room. rewrite Hu.
  destruct (p_full p) eqn:Ef; [by rewrite !orb_true_r|]. rewrite !orb_false_r. cbn [negb]. rewrite andb_true_r.
  assert (Hfin : forall w, (if p_read p =? w then true else false) = (p_read p =? w))
    by (intros w; by case (p_read p =? w)).
  destruct (Z.ltb_spec (p_sz p) n).
  { destruct (Z.ltb_spec (p_sz p - (if p_read p =? p_write p then 0 else
      if p_read p <? p_write p then p_write p - p_read p else p_sz p - p_read p + p_write p)) n); [done|].
    exfalso. revert H0. case_ifs; lia. }
  set (u := if p_read p =? p_write p then 0 else _) in *.
  destruct (Z.leb_spec (p_read p) (p_write p)).
  - replace (p_sz p - u) with (p_sz p - p_write p + p_read p)
      by (unfold u; destruct (Z.eqb_spec (p_read p) (p_write p)), (Z.ltb_spec (p_read p) (p_write p)); lia).
    u32s. destruct (_ <? n) eqn:E; [done|]. apply Z.ltb_ge in E. u32s.
    replace (if 0 <? n - Z.min n (p_sz p - p_write p) then _ else _) with (zidx (p_sz p) (p_write p + n)).
    + cbn [mbind M_bind store_pipe modify]. by rewrite Hfin.
    + unfold zidx. case_ifs; lia.
  - replace (p_sz p - u) with (p_read p - p_write p)
      by (unfold u; destruct (Z.eqb_spec (p_read p) (p_write p)), (Z.ltb_spec (p_read p) (p_write p)); lia).
    u32s. destruct (_ <? n) eqn:E; [done|]. apply Z.ltb_ge in E. u32s.
    replace (p_write p + n) with (zidx (p_sz p) (p_write p + n)) at 1 2
      by (unfold zidx; destruct (Z.ltb_spec (p_write p + n) (p_sz p)); lia).
    cbn [mbind M_bind store_pipe modify]. by rewrite Hfin.
Qed.

(** Bytes stored through the iovecs and then announced are appended. *)
Lemma push_ok s i k vs bs q :
  inv s -> window s i k vs -> view s !! i = Some q -> 0 < Z.of_nat (length bs) <= k ->
  let s1 := set_mem (scatter vs bs) s in
  inv s1 /\
  exists s2, spdk_pipe_writer_advance i (Z.of_nat (length bs)) s1 = Ok (0, s2) /\
    becomes s1 (<[i := Queue (q_bytes q ++ bs) (q_cap q) (q_group q)]> (view s)) s2.
Proof.
  intros Hinv (p & b & Hi & Hb & Hf & Hk & ->) Hq Hn s1. pose proof (inv_pipe s Hinv i p Hi) as Hok.
  pose proof (used_cases s p Hok) as [_ Hle]. unfold room in Hk.
  pose proof Hok as [Hsz Hr Hw _ Hbuf _]. rewrite Hb in Hbuf. destruct Hbuf as (l & Hl & Hlen).
  assert (Hs1 : s1 = set_mem <[b := rstore (Z.to_nat (p_sz p)) l (Z.to_nat (p_write p)) bs]> s).
  { unfold s1, set_mem. by rewrite (ring_scatter (mem s) b l) by (done || lia). }
  assert (Hinv1 : inv s1).
  { rewrite Hs1. eapply inv_write; [done|done|]. rewrite rstore_length; lia. }
  split; [done|]. set (w := zidx (p_sz p) (p_write p + Z.of_nat (length bs))).
  assert (Hwr : 0 <= w < p_sz p) by (unfold w, zidx; destruct (Z.ltb_spec (p_write p + Z.of_nat (length bs)) (p_sz p)); lia).
  exists (set_pipes <[i := with_ring w (p_read p) (p_read p =? w) p]> s1). split.
  - rewrite (writer_advance_eq s1 i p); [|done|done|lia]. rewrite Hf, orb_false_r. unfold room.
    destruct (Z.ltb_spec (p_sz p - Z.of_nat (used p)) (Z.of_nat (length bs))); [lia|done].
  - assert (Hok1 : pipe_ok s1 (with_ring w (p_read p) (p_read p =? w) p)).
    { destruct (inv_pipe s1 Hinv1 i p Hi) as [? ? ? ? Hbuf' ?]. split; cbn; try done.
      - intros ?%Z.eqb_eq. done.
      - by rewrite Hb in *. }
    destruct (ring_becomes s1 i p w (p_read p) (p_read p =? w) Hinv1 Hi Hok1) as [? ? ? ? Hview].
    split; try done. clear Hview. apply view_lookup in Hq as (p' & Hi' & ->). rewrite Hi in Hi'.
    injection Hi' as <-. erewrite (view_upd s _ i); [|rewrite Hs1; reflexivity|].
    + f_equal. unfold queue_of, pbytes. cbn [with_ring p_buf p_sz p_read p_write p_full p_group].
      cbn [q_bytes q_cap q_group]. f_equal. rewrite Hb, Hs1. cbn [mem set_mem set_pipes].
      rewrite lookup_insert_eq, Hl, Hf. cbn.
      rewrite <- (rcontents_push (Z.to_nat (p_sz p))); [|lia..|unfold used in *; rewrite Hf in *; lia].
      assert (Hwn : ridx (Z.to_nat (p_sz p)) (Z.to_nat (p_write p) + length bs) = Z.to_nat w).
      { unfold w. rewrite zidx_nat by lia. f_equal. lia. }
      rewrite Hwn. f_equal.
      destruct (Z.eqb_spec (p_read p) w), (Nat.eqb_spec (Z.to_nat (p_read p)) (Z.to_nat w)); lia || done.
    + intros j q c Hj Hq Hc. rewrite Hs1. apply lookup_insert_ne. intros <-. apply Hj.
      by apply (own_inj s j i q p b).
Qed.

(** *** Reading *)

Lemma reader_get_ok s i p n :
  inv s -> pipes s !! i = Some p -> 0 <= n < 2 ^ 32 ->
  exists vs, spdk_pipe_reader_get_buffer i n s = Ok ((Z.min n (Z.of_nat (used p)), vs), s) /\
    (0 < Z.min n (Z.of_nat (used p)) -> exists b, p_buf p = Some b /\
       vs = ring_iovs b (p_sz p) (p_read p) (Z.min n (Z.of_nat (used p)))) /\
    (Z.min n (Z.of_nat (used p)) = 0 -> vs = [iov0; iov0]).
Proof.
  intros Hinv Hi Hn. pose proof (inv_pipe s Hinv i p Hi) as Hok. destruct (used_cases s p Hok) as [Hu Hle].
  unfold spdk_pipe_reader_get_buffer. rewrite (M_bind_ok _ _ _ _ _ (load_pipe_ok s i p Hi)). rewrite Hu.
  destruct Hok as [Hsz Hr Hw Hf Hbuf _].
  destruct ((p_read p =? p_write p) && negb (p_full p)) eqn:E; cbn [orb].
  - exists [iov0; iov0]. rewrite Z.min_r by lia. split_and!; [done|lia|done].
  - destruct (p_buf p) as [b|] eqn:Eb.
    2:{ destruct Hbuf as (_ & H1 & H2). by rewrite H1, H2, Z.eqb_refl in E. }
    destruct (Z.eqb_spec n 0) as [->|].
    { exists [iov0; iov0]. rewrite Z.min_l by (rewrite <- Hu; lia). split_and!; [done|lia|done]. }
    exists (ring_iovs b (p_sz p) (p_read p) (Z.min n (Z.of_nat (used p)))).
    assert (Hpos : 0 < Z.min n (Z.of_nat (used p))).
    { rewrite Hu. destruct (Z.ltb_spec (p_read p) (p_write p)); lia. }
    rewrite Hu in *. split_and!; [|by exists b|lia]. unfold at_buf. rewrite Eb. cbn [mbind option_bind].
    destruct (Z.ltb_spec (p_read p) (p_write p)).
    + u32s. pose proof (ring_result b (p_sz p) (p_read p) (Z.min n (p_write p - p_read p))
        (Z.min n (p_write p - p_read p)) 0 s) as HR. rewrite Z.add_0_r in HR. apply HR; lia.
    + u32s. apply (ring_result b (p_sz p) (p_read p)).
      * destruct (Z.ltb_spec 0 (n - Z.min n (p_sz p - p_read p))); lia.
      * lia.
      * lia.
Qed.

(** The bytes the iovecs of the reader point to. *)
Lemma reader_bytes s i p b k :
  inv s -> pipes s !! i = Some p -> p_buf p = Some b -> 0 < k <= Z.of_nat (used p) ->
  fits (mem s) (ring_iovs b (p_sz p) (p_read p) k) /\
  iov_bytes (mem s) (live (ring_iovs b (p_sz p) (p_read p) k)) = take (Z.to_nat k) (pbytes s p).
Proof.
  intros Hinv Hi Hb Hk. pose proof (inv_pipe s Hinv i p Hi) as Hok. destruct (used_cases s p Hok) as [_ Hle].
  destruct Hok as [Hsz Hr Hw Hf Hbuf _]. rewrite Hb in Hbuf. destruct Hbuf as (l & Hl & Hlen).
  split; [apply (ring_fits _ _ l); done || lia|]. unfold pbytes. rewrite Hb, Hl. cbn.
  apply (ring_bytes _ _ l); done || lia || (unfold used in Hk; lia).
Qed.

Lemma reader_advance_eq s i p n :
  inv s -> pipes s !! i = Some p -> 0 < n < 2 ^ 32 -> 0 < Z.of_nat (used p) ->
  spdk_pipe_reader_advance i n s
  = if Z.of_nat (used p) <? n then Ok (- EINVAL, s)
    else reader_finish i (zidx (p_sz p) (p_read p + n)) p s.
Proof.
  intros Hinv Hi Hn Hpos. pose proof (inv_pipe s Hinv i p Hi) as Hok.
  destruct (used_cases s p Hok) as [Hu Hle]. destruct Hok as [Hsz Hr Hw _ _ _].
  unfold spdk_pipe_reader_advance. rewrite (M_bind_ok _ _ _ _ _ (load_pipe_ok s i p Hi)).
  destruct (Z.eqb_spec n 0); [lia|]. rewrite Hu in *. destruct (_ && _); [lia|].
  destruct (Z.ltb_spec (p_read p) (p_write p)).
  - u32s. destruct (_ <? n) eqn:E; [done|]. apply Z.ltb_ge in E. u32s. f_equal. unfold zidx.
    destruct (Z.ltb_spec (p_read p + n) (p_sz p)); lia.
  - u32s. destruct (Z.ltb_spec (p_sz p - p_read p + p_write p) n).
    + destruct (Z.ltb_spec 0 (n - Z.min n (p_sz p - p_read p))); [|lia].
      destruct (Z.ltb_spec (p_write p) (n - Z.min n (p_sz p - p_read p))); [done|lia].
    + unfold zidx. destruct (Z.ltb_spec 0 (n - Z.min n (p_sz p - p_read p))).
      * destruct (Z.ltb_spec (p_write p) (n - Z.min n (p_sz p - p_read p))); [lia|]. f_equal.
        destruct (Z.ltb_spec (p_read p + n) (p_sz p)); lia.
      * f_equal. destruct (Z.eqb_spec (p_read p + Z.min n (p_sz p - p_read p)) (p_sz p)),
          (Z.ltb_spec (p_read p + n) (p_sz p)); lia.
Qed.

Lemma zidx_end s p n :
  pipe_ok s p -> 0 < n <= Z.of_nat (used p) ->
  (zidx (p_sz p) (p_read p + n) =? p_write p) = (n =? Z.of_nat (used p)).
Proof.
  intros Hok Hn. destruct (used_cases s p Hok) as [Hu Hle]. destruct Hok as [Hsz Hr Hw Hf _ _].
  rewrite Hu in *. unfold zidx. destruct (_ && _) eqn:E; [lia|].
  destruct (Z.ltb_spec (p_read p) (p_write p)), (Z.ltb_spec (p_read p + n) (p_sz p));
  match goal with |- (?a =? ?b) = (?c =? ?d) => destruct (Z.eqb_spec a b), (Z.eqb_spec c d) end; lia || done.
Qed.

Definition popped (n : Z) (q : queue) : queue := Queue (drop (Z.to_nat n) (q_bytes q)) (q_cap q) (q_group q).

Lemma reader_advance_ok s i p n :
  inv s -> pipes s !! i = Some p -> 0 < n <= Z.of_nat (used p) ->
  exists s', spdk_pipe_reader_advance i n s = Ok (0, s') /\
    becomes s (<[i := popped n (queue_of s p)]> (view s)) s'.
Proof.
  intros Hinv Hi Hn. pose proof (inv_pipe s Hinv i p Hi) as Hok. destruct (used_cases s p Hok) as [_ Hle].
  pose proof (ok_sz _ _ Hok). rewrite (reader_advance_eq s i p) by (done || lia).
  destruct (Z.ltb_spec (Z.of_nat (used p)) n); [lia|]. unfold reader_finish. rewrite (zidx_end s) by done.
  pose proof Hok as [Hsz Hr Hw Hf Hbuf Hgr]. destruct (p_buf p) as [b|] eqn:Eb.
  2:{ pose proof (used_length s p Hok) as HL. unfold pbytes in HL. rewrite Eb in HL. cbn in HL. lia. }
  destruct Hbuf as (l & Hl & Hlen). destruct (Z.eqb_spec n (Z.of_nat (used p))) as [->|Hne].
  - set (p0 := with_ring 0 0 false p).
    assert (Hok0 : pipe_ok s p0) by (split; cbn; rewrite ?Eb; eauto; lia).
    assert (Hq : queue_of s p0 = popped (Z.of_nat (used p)) (queue_of s p)).
    { unfold popped, queue_of. cbn. rewrite Nat2Z.id, <- (used_length s p Hok), drop_all. f_equal.
      unfold pbytes, rcontents. cbn. by rewrite Eb. }
    pose proof (ring_becomes s i p 0 0 false Hinv Hi Hok0) as Hb1. fold p0 in Hb1. rewrite Hq in Hb1.
    set (s1 := set_pipes <[i := p0]> s) in *. rewrite (M_bind_ok _ _ s tt s1) by done.
    destruct (p_group p0) as [g|] eqn:Eg; [|by exists s1].
    destruct (release_buf_ok s1 i p0 g) as (s2 & Hrel & Hb2); [apply Hb1|apply lookup_insert_eq|done| |done|done|].
    { cbn. by rewrite Eb. }
    rewrite (M_bind_ok _ _ _ _ _ Hrel). exists s2. split; [done|]. rewrite (be_view _ _ _ Hb1) in Hb2.
    by eapply becomes_trans.
  - set (r := zidx (p_sz p) (p_read p + n)). set (p1 := with_ring (p_write p) r false p).
    exists (set_pipes <[i := p1]> s). split; [done|].
    assert (Hrr : 0 <= r < p_sz p)
      by (unfold r, zidx; destruct (Z.ltb_spec (p_read p + n) (p_sz p)); lia).
    assert (Hok1 : pipe_ok s p1) by (split; cbn; rewrite ?Eb; eauto; done).
    pose proof (ring_becomes s i p (p_write p) r false Hinv Hi Hok1) as Hb1. fold p1 in Hb1.
    replace (popped n (queue_of s p)) with (queue_of s p1); [done|].
    unfold popped, queue_of, pbytes. cbn. f_equal. rewrite Eb, Hl. cbn. unfold r. rewrite zidx_nat by lia.
    rewrite Z2Nat.inj_add by lia. apply rcontents_pop; [lia..|intros; f_equal; auto|unfold used in *; lia].
Qed.

(** *** Groups, creation and destruction *)

Definition regrouped (o : option nat) (q : queue) : queue := Queue (q_bytes q) (q_cap q) o.

Lemma regroup_becomes s i p o :
  inv s -> pipes s !! i = Some p -> p_buf p <> None ->
  (forall g, o = Some g -> is_Some (pgroups s !! g) /\ PIPE_HDR <= p_sz p) ->
  becomes s (<[i := regrouped o (queue_of s p)]> (view s)) (set_pipes <[i := with_group o p]> s).
Proof.
  intros Hinv Hi Hb Ho. split; [by apply inv_regroup|done| |done|].
  - unfold owned. cbn. by rewrite (gather_same _ _ _ _ _ Hi).
  - view_step s i. done.
Qed.

Lemma group_add_ok s g i p :
  inv s -> pipes s !! i = Some p -> p_group p = None -> is_Some (pgroups s !! g) -> PIPE_HDR <= p_sz p ->
  exists s', spdk_pipe_group_add g i s = Ok (0, s') /\
    becomes s (<[i := regrouped (Some g) (queue_of s p)]> (view s)) s'.
Proof.
  intros Hinv Hi Hg Hgs Hsz. pose proof (inv_pipe s Hinv i p Hi) as Hok.
  pose proof (ok_buf s p Hok) as Hbuf. destruct (p_buf p) as [b|] eqn:Eb; [|by destruct Hbuf].
  unfold spdk_pipe_group_add. rewrite (M_bind_ok _ _ _ _ _ (load_pipe_ok s i p Hi)), Hg. cbn [c_assert bool_decide].
  set (p' := with_group (Some g) p). pose proof (regroup_becomes s i p (Some g) Hinv Hi
    ltac:(by rewrite Eb) ltac:(by intros ? [= <-])) as Hb. fold p' in Hb.
  set (s1 := set_pipes <[i := p']> s) in *.
  rewrite (M_bind_ok _ _ s tt s) by done. rewrite (M_bind_ok _ _ s tt s1) by done.
  destruct (negb (p_read p' =? p_write p') || p_full p') eqn:E; [by exists s1|].
  apply orb_false_iff in E as [E1%negb_false_iff%Z.eqb_eq E2].
  destruct (release_buf_ok s1 i p' g) as (s2 & Hrel & Hb2);
    [apply Hb|apply lookup_insert_eq|done|by cbn; rewrite Eb|done|done|].
  rewrite (M_bind_ok _ _ _ _ _ Hrel). exists s2. split; [done|]. rewrite (be_view _ _ _ Hb) in Hb2.
  by eapply becomes_trans.
Qed.

Lemma group_remove_ok s g i p :
  inv s -> pipes s !! i = Some p -> p_group p = Some g ->
  exists s' p', spdk_pipe_group_remove g i s = Ok (0, s') /\
    becomes s (<[i := regrouped None (queue_of s p)]> (view s)) s' /\
    pipes s' !! i = Some p' /\ p_group p' = None /\ p_buf p' <> None.
Proof.
  intros Hinv Hi Hg. unfold spdk_pipe_group_remove. rewrite (M_bind_ok _ _ _ _ _ (load_pipe_ok s i p Hi)), Hg.
  rewrite bool_decide_true by done. rewrite (M_bind_ok _ _ s tt s) by done.
  assert (exists b s1, (match p_buf p with
      | None => _ ← pipe_alloc_buf_from_group i; p ← load_pipe i; c_assert (negb (bool_decide (p_buf p = None)))
      | Some _ => mret tt end) s = Ok (tt, s1) /\ becomes s (view s) s1 /\
      pipes s1 !! i = Some (with_buf (Some b) p)) as (b & s1 & Ha & Hb & Hi1).
  { destruct (p_buf p) as [b|] eqn:Eb.
    - exists b, s. split_and!; [done|by apply becomes_refl|]. rewrite Hi. f_equal. rewrite <- Eb. by destruct p.
    - destruct (alloc_ok s i p Hinv Hi Eb) as (b & s1 & Hal & ? & Hp). exists b, s1.
      assert (Hi1 : pipes s1 !! i = Some (with_buf (Some b) p)) by (by rewrite Hp, lookup_insert_eq).
      split_and!; [|done|done]. rewrite (M_bind_ok _ _ _ _ _ Hal), (M_bind_ok _ _ _ _ _ (load_pipe_ok s1 i _ Hi1)).
      done. }
  rewrite (M_bind_ok _ _ _ _ _ Ha), (M_bind_ok _ _ _ _ _ (load_pipe_ok s1 i _ Hi1)).
  set (p' := with_group None (with_buf (Some b) p)). exists (set_pipes <[i := p']> s1), p'.
  split_and!; [done| |apply lookup_insert_eq|done|done].
  pose proof (regroup_becomes s1 i (with_buf (Some b) p) None (be_inv _ _ _ Hb) Hi1 ltac:(done) ltac:(done)) as Hb1.
  pose proof (be_view _ _ _ Hb) as Hv. pose proof (proj2 (view_lookup s1 i _) (ex_intro _ _ (conj Hi1 eq_refl))) as H1.
  pose proof (proj2 (view_lookup s i _) (ex_intro _ _ (conj Hi eq_refl))) as H2.
  assert (Hq : queue_of s1 (with_buf (Some b) p) = queue_of s p) by congruence.
  rewrite Hq, Hv in Hb1. by eapply becomes_trans.
Qed.

Lemma destroy_ok s i p :
  inv s -> pipes s !! i = Some p ->
  exists b s', spdk_pipe_destroy (Some i) s = Ok (Some b, s') /\
    inv s' /\ (forall c, c ∉ owned s -> mem s' !! c = mem s !! c) /\ view s' = delete i (view s) /\ b ∉ owned s' /\
    owned s ≡ₚ b :: owned s' /\ dom (pgroups s') = dom (pgroups s).
Proof.
  intros Hinv Hi. pose proof (inv_pipe s Hinv i p Hi) as Hok. cbn [spdk_pipe_destroy].
  rewrite (M_bind_ok _ _ _ _ _ (load_pipe_ok s i p Hi)).
  assert (exists s1 p1 q, (match p_group p with Some g => spdk_pipe_group_remove g i | None => mret 0 end) s
      = Ok (0, s1) /\ becomes s (<[i := q]> (view s)) s1 /\ pipes s1 !! i = Some p1 /\
      p_group p1 = None /\ p_buf p1 <> None) as (s1 & p1 & q & Ha & Hb & Hi1 & Hg1 & Hb1).
  { destruct (p_group p) as [g|] eqn:Eg.
    - destruct (group_remove_ok s g i p Hinv Hi Eg) as (s1 & p1 & ? & ? & ? & ? & ?). by eexists _, _, _.
    - exists s, p, (queue_of s p). split_and!; [done| |done|done|].
      + rewrite insert_id; [by apply becomes_refl|]. apply view_lookup. eauto.
      + pose proof (ok_buf s p Hok) as Hbuf. destruct (p_buf p); [done|]. by rewrite Eg in Hbuf; destruct Hbuf. }
  rewrite (M_bind_ok _ _ _ _ _ Ha), (M_bind_ok _ _ _ _ _ (load_pipe_ok s1 i _ Hi1)).
  destruct (p_buf p1) as [b|] eqn:Eb; [|done]. destruct Hb as [Hinv1 Hm1 Ho1 Hgr1 Hv1].
  destruct (inv_remove s1 i p1 b Hinv1 Hi1 Hg1 Eb) as [Hinv2 Hno].
  exists b, (set_pipes (delete i) s1). split_and!; try done.
  - unfold view. cbn. rewrite fmap_delete. change (queue_of (set_pipes (delete i) s1) <$> pipes s1) with (view s1).
    by rewrite Hv1, delete_insert_eq.
  - rewrite <- Ho1. unfold owned. cbn. rewrite (gather_delete _ _ i p1 Hi1). unfold own at 1. by rewrite Eb.
Qed.

Lemma create_ok s i b sz l :
  inv s -> pipes s !! i = None -> mem s !! b = Some l -> b ∉ owned s ->
  Z.of_nat (length l) = sz -> 0 < sz < 2 ^ 31 ->
  exists s', spdk_pipe_create true i b sz s = Ok (Some i, s') /\ inv s' /\ mem s' = mem s /\
    pgroups s' = pgroups s /\ owned s' ≡ₚ b :: owned s /\ view s' = <[i := Queue [] sz None]> (view s) /\
    pipes s' !! i = Some (Pipe (Some b) sz 0 0 false None).
Proof.
  intros Hinv Hi Hb Ho Hl Hsz. eexists. split; [done|]. split_and!; [by eapply inv_create|done|done| | |].
  - unfold owned. cbn. by rewrite gather_fresh.
  - view_step s i. done.
  - apply lookup_insert_eq.
Qed.

(** *** In terms of the queues *)

Lemma available_ok s i q :
  inv s -> view s !! i = Some q ->
  spdk_pipe_reader_bytes_available i s = Ok (Z.of_nat (length (q_bytes q)), s).
Proof.
  intros Hinv (p & Hi & ->)%view_lookup. pose proof (inv_pipe s Hinv i p Hi) as Hok.
  unfold spdk_pipe_reader_bytes_available. rewrite (M_bind_ok _ _ _ _ _ (load_pipe_ok s i p Hi)).
  cbn [q_bytes queue_of]. rewrite (used_length s p Hok). destruct (used_cases s p Hok) as [-> _].
  destruct Hok as [? ? ? _ _ _]. unfold bytes_available. unfold mret, M_ret. do 2 f_equal.
  destruct (_ && _); [done|]. destruct (Z.ltb_spec (p_read p) (p_write p)); u32s; lia.
Qed.

Lemma queue_cap s i q :
  inv s -> view s !! i = Some q -> 0 < q_cap q < 2 ^ 31 /\ Z.of_nat (length (q_bytes q)) <= q_cap q.
Proof.
  intros Hinv (p & Hi & ->)%view_lookup. pose proof (inv_pipe s Hinv i p Hi) as Hok. cbn.
  rewrite (used_length s p Hok). destruct (used_cases s p Hok) as [_ ?]. pose proof (ok_sz s p Hok). lia.
Qed.

(** All the bytes of a pipe. *)
Lemma reader_all s i q :
  inv s -> view s !! i = Some q ->
  exists vs, spdk_pipe_reader_get_buffer i (q_cap q) s = Ok ((Z.of_nat (length (q_bytes q)), vs), s) /\
    (q_bytes q <> [] -> vs <> [] /\ (length (live vs) <= length vs)%nat /\
       fits (mem s) vs /\ iov_bytes (mem s) (live vs) = q_bytes q /\
       Forall (fun v => iov_len v <= UINT32_MAX) vs /\ forall c, c ∈ iov_bufs vs -> buf_of s i c).
Proof.
  intros Hinv Hq. destruct (queue_cap s i q Hinv Hq) as [Hc Hl]. pose proof Hq as (p & Hi & E)%view_lookup.
  pose proof (inv_pipe s Hinv i p Hi) as Hok. pose proof (used_length s p Hok) as Hu.
  assert (Hub : used p = length (q_bytes q)) by (by rewrite E).
  destruct (reader_get_ok s i p (q_cap q) Hinv Hi) as (vs & Hrun & Hvs & _); [lia|].
  rewrite Hub, Z.min_r in Hrun, Hvs by lia. exists vs. split; [done|]. intros Hne.
  assert (Hpos : 0 < Z.of_nat (length (q_bytes q))) by (destruct (q_bytes q); [done|cbn; lia]).
  destruct (Hvs Hpos) as (b & Hb & ->). destruct (reader_bytes s i p b (Z.of_nat (length (q_bytes q))) Hinv Hi Hb)
    as [Hf Hbytes]; [rewrite Hub; lia|].
  split_and!; [done|apply ring_live_length|done| | |].
  - rewrite Hbytes, Nat2Z.id, E. cbn. by apply take_ge.
  - apply ring_max; destruct Hok as [? ? ? _ _ _]; rewrite ?E in *; cbn in *; lia.
  - intros c ->%ring_bufs. by exists p.
Qed.

Lemma pop_ok s i q n :
  inv s -> view s !! i = Some q -> 0 < n <= Z.of_nat (length (q_bytes q)) ->
  exists s', spdk_pipe_reader_advance i n s = Ok (0, s') /\ becomes s (<[i := popped n q]> (view s)) s'.
Proof.
  intros Hinv (p & Hi & ->)%view_lookup Hn. apply reader_advance_ok; [done|done|].
  cbn in Hn. by rewrite (used_length s p (inv_pipe s Hinv i p Hi)) in Hn.
Qed.

Lemma ring_total b sz pos k : iov_total (ring_iovs b sz pos k) = k.
Proof. unfold ring_iovs, iov_total. cbn [map iov_len]. rewrite !zsum_cons, zsum_nil. lia. Qed.

(** All the room of a pipe that is empty. *)
Lemma writer_all s i q :
  inv s -> view s !! i = Some q -> q_bytes q = [] ->
  exists vs s', spdk_pipe_writer_get_buffer i (q_cap q) s = Ok ((q_cap q, vs), s') /\
    becomes s (view s) s' /\ window s' i (q_cap q) vs /\ fits (mem s') vs /\ iov_total vs = q_cap q /\
    iov_total (live vs) = q_cap q /\ (forall c, c ∈ iov_bufs vs -> buf_of s' i c) /\ vs <> [] /\
    (forall j, j <> i -> pipes s' !! j = pipes s !! j).
Proof.
  intros Hinv Hq He. destruct (queue_cap s i q Hinv Hq) as [Hc Hl]. pose proof Hq as (p & Hi & E)%view_lookup.
  pose proof (inv_pipe s Hinv i p Hi) as Hok. pose proof (used_length s p Hok) as Hu.
  assert (Hr : room p = q_cap q) by (unfold room; rewrite <- Hu, E in *; cbn in *; rewrite He; cbn; lia).
  destruct (writer_get_ok s i p (q_cap q) Hinv Hi) as (vs & s' & Hrun & Hb & Hoth & Hw); [lia|].
  rewrite Hr, Z.min_id in *. destruct (Z.eqb_spec (q_cap q) 0); [lia|].
  exists vs, s'. destruct Hb as [Hinv' Hm Ho Hg Hv]. pose proof Hw as (p' & b & Hi' & Hb' & Hf' & Hk' & ->).
  pose proof (inv_pipe s' Hinv' i p' Hi') as Hok'. destruct Hok' as [? ? Hw' _ Hbuf _]. rewrite Hb' in Hbuf.
  destruct Hbuf as (l & Hl' & Hlen).
  split_and!; [done|done|done| |apply ring_total| | |done|done].
  - apply (ring_fits _ _ l); (done || unfold room in *; lia).
  - apply ring_live_total; (done || unfold room in *; lia).
  - intros c ->%ring_bufs. by exists p'.
Qed.
