(* ===== verification/PipeTheorems.v ===== *)
(** * Pipes are bounded queues of bytes; spdk_iovcpy copies a prefix

    The contract of lib/util/pipe.c against a map of abstract queues, the
    specification and the termination of spdk_iovcpy (lib/util/iov.c), and what
    the two do outside it. *)

From S2P Require Import Prelude Pipe PipeLemmas IovLemmas PipeInv PipeOps.

(** ** The abstract machine *)

Inductive pipe_event :=
  | PWrite (i : nat) (bs : list Z)
  | PRead (i : nat) (n : Z)
  | PAdd (g i : nat)
  | PRemove (g i : nat).

(** A writer fills the iovecs it got; a reader takes the bytes of its iovecs out. *)
Definition pipe_exec (e : pipe_event) : M pst (Z * list Z) :=
  match e with
  | PWrite i bs =>
      '(k, vs) ← spdk_pipe_writer_get_buffer i (Z.of_nat (length bs));
      if k =? 0 then mret (0, [])
      else
        _ ← write_iovs vs (take (Z.to_nat k) bs);
        rc ← spdk_pipe_writer_advance i k;
        mret (rc, take (Z.to_nat k) bs)
  | PRead i n =>
      '(k, vs) ← spdk_pipe_reader_get_buffer i n;
      s ← get;
      let bs := iov_bytes (mem s) vs in
      rc ← spdk_pipe_reader_advance i k;
      mret (rc, bs)
  | PAdd g i => rc ← spdk_pipe_group_add g i; mret (rc, [])
  | PRemove g i => rc ← spdk_pipe_group_remove g i; mret (rc, [])
  end.

Fixpoint pipe_execs (es : list pipe_event) : M pst (list (Z * list Z)) :=
  match es with
  | [] => mret []
  | e :: es' => r ← pipe_exec e; rs ← pipe_execs es'; mret (r :: rs)
  end.

(** What the queues do: a write appends what there is room for, a read takes from
    the front, and a group does not touch the bytes. *)
Definition queue_exec (e : pipe_event) (V : gmap nat queue) : option (Z * list Z * gmap nat queue) :=
  match e with
  | PWrite i bs =>
      q ← V !! i;
      let w := take (Z.to_nat (q_cap q) - length (q_bytes q)) bs in
      Some (0, w, <[i := Queue (q_bytes q ++ w) (q_cap q) (q_group q)]> V)
  | PRead i n => q ← V !! i; Some (0, take (Z.to_nat n) (q_bytes q), <[i := popped n q]> V)
  | PAdd g i => q ← V !! i; Some (0, [], <[i := regrouped (Some g) q]> V)
  | PRemove g i => q ← V !! i; Some (0, [], <[i := regrouped None q]> V)
  end.

Fixpoint queue_execs (es : list pipe_event) (V : gmap nat queue) : option (list (Z * list Z) * gmap nat queue) :=
  match es with
  | [] => Some ([], V)
  | e :: es' =>
      '(r, V) ← queue_exec e V;
      '(rs, V) ← queue_execs es' V;
      Some (r :: rs, V)
  end.

(** The pipe exists, sizes are 32-bit, and a pipe is added to an existing group
    when it is in none and its buffer has room for the 12 bytes of the list's
    header, and removed from its own. *)
Definition pipe_allowed (e : pipe_event) (s : pst) : Prop :=
  match e with
  | PWrite i bs => is_Some (pipes s !! i) /\ Z.of_nat (length bs) < 2 ^ 32
  | PRead i n => is_Some (pipes s !! i) /\ 0 <= n < 2 ^ 32
  | PAdd g i => is_Some (pgroups s !! g) /\ exists p, pipes s !! i = Some p /\ p_group p = None /\ PIPE_HDR <= p_sz p
  | PRemove g i => exists p, pipes s !! i = Some p /\ p_group p = Some g
  end.

Fixpoint pipe_alloweds (es : list pipe_event) (s : pst) : Prop :=
  match es with
  | [] => True
  | e :: es' => pipe_allowed e s /\ forall r s', pipe_exec e s = Ok (r, s') -> pipe_alloweds es' s'
  end.

(** ** Simulation *)

Lemma popped_0 q : popped 0 q = q.
Proof. by destruct q. Qed.

Lemma pipe_write_ok s i bs :
  inv s -> is_Some (pipes s !! i) -> Z.of_nat (length bs) < 2 ^ 32 ->
  exists r s', pipe_exec (PWrite i bs) s = Ok (r, s') /\ inv s' /\
    queue_exec (PWrite i bs) (view s) = Some (r, view s').
Proof.
  intros Hinv [p Hi] Hlen. pose proof (inv_pipe s Hinv i p Hi) as Hok. pose proof (used_length s p Hok) as Hu.
  assert (Hq : view s !! i = Some (queue_of s p)) by (apply view_lookup; eauto).
  destruct (used_cases s p Hok) as [_ Hle]. cbn [pipe_exec queue_exec]. rewrite Hq. cbn [mbind option_bind].
  destruct (writer_get_ok s i p (Z.of_nat (length bs)) Hinv Hi) as (vs & s1 & Hget & Hb1 & _ & Hw); [lia|].
  rewrite (M_bind_ok _ _ _ _ _ Hget). set (k := Z.min _ _) in *. cbn [q_bytes q_cap q_group queue_of].
  assert (Hw0 : take (Z.to_nat (p_sz p) - length (pbytes s p)) bs = take (Z.to_nat k) bs).
  { unfold k, room. rewrite Hu. destruct (decide (Z.of_nat (length bs) <= p_sz p - Z.of_nat (used p))).
    - rewrite !take_ge; [done|lia..].
    - f_equal. lia. }
  rewrite Hw0. destruct (Z.eqb_spec k 0) as [Ek|Ek].
  - subst s1. eexists _, s. split; [done|]. split; [done|]. rewrite Ek. cbn [Z.to_nat]. rewrite take_0, app_nil_r.
    change (Queue (pbytes s p) (p_sz p) (p_group p)) with (queue_of s p). by rewrite insert_id.
  - destruct Hb1 as [Hinv1 Hm1 Ho1 Hg1 Hv1]. pose proof Hw as (p1 & b & Hi1 & Hb & Hf & Hk & Hvs).
    pose proof (inv_pipe s1 Hinv1 i p1 Hi1) as [? ? ? _ Hbuf _]. rewrite Hb in Hbuf. destruct Hbuf as (l & Hl & Hll).
    set (w := take (Z.to_nat k) bs).
    assert (Hwl : Z.of_nat (length w) = k) by (unfold w; rewrite length_take; unfold k; lia).
    destruct (push_ok s1 i k vs w (queue_of s p)) as (_ & s2 & Hadv & [Hinv2 _ _ _ Hv2]); [done|done|by rewrite Hv1|lia|].
    erewrite M_bind_ok by (apply write_iovs_ok; rewrite Hvs; apply (ring_fits _ _ l); (done || unfold room in *; lia)).
    rewrite Hwl in Hadv. rewrite (M_bind_ok _ _ _ _ _ Hadv). eexists _, s2. split; [done|]. split; [done|].
    by rewrite Hv2, Hv1.
Qed.

Lemma pipe_read_ok s i n :
  inv s -> is_Some (pipes s !! i) -> 0 <= n < 2 ^ 32 ->
  exists r s', pipe_exec (PRead i n) s = Ok (r, s') /\ inv s' /\
    queue_exec (PRead i n) (view s) = Some (r, view s').
Proof.
  intros Hinv [p Hi] Hn. pose proof (inv_pipe s Hinv i p Hi) as Hok. pose proof (used_length s p Hok) as Hu.
  assert (Hq : view s !! i = Some (queue_of s p)) by (apply view_lookup; eauto).
  cbn [pipe_exec queue_exec]. rewrite Hq. cbn [mbind option_bind].
  destruct (reader_get_ok s i p n Hinv Hi Hn) as (vs & Hget & Hvs & Hvs0).
  rewrite (M_bind_ok _ _ _ _ _ Hget). cbv beta iota. mstep. set (k := Z.min _ _) in *.
  assert (Hk : take (Z.to_nat n) (q_bytes (queue_of s p)) = take (Z.to_nat k) (pbytes s p)).
  { unfold k. cbn. destruct (decide (n <= Z.of_nat (used p))); [f_equal; lia|]. rewrite !take_ge; [done|lia..]. }
  assert (Hpop : popped n (queue_of s p) = popped k (queue_of s p)).
  { unfold popped, k. f_equal. cbn. destruct (decide (n <= Z.of_nat (used p))); [f_equal; lia|].
    rewrite !drop_ge; [done|lia..]. }
  rewrite Hk, Hpop. destruct (Z.eq_dec k 0) as [Ek|Ek].
  - rewrite (Hvs0 Ek), Ek. erewrite M_bind_ok; [|unfold spdk_pipe_reader_advance;
      rewrite (M_bind_ok _ _ _ _ _ (load_pipe_ok s i p Hi)); reflexivity].
    eexists _, s. split; [done|]. split; [done|]. rewrite popped_0, insert_id by done. by rewrite take_0.
  - destruct (Hvs ltac:(lia)) as (b & Hb & ->).
    destruct (reader_bytes s i p b k Hinv Hi Hb) as [_ Hbytes]; [lia|].
    destruct (used_cases s p Hok) as [_ Hle]. destruct Hok as [? ? ? _ _ _].
    rewrite ring_live_bytes in Hbytes by lia. rewrite Hbytes.
    destruct (reader_advance_ok s i p k Hinv Hi) as (s' & Hadv & [Hinv' _ _ _ Hv']); [lia|].
    rewrite (M_bind_ok _ _ _ _ _ Hadv). eexists _, s'. split; [done|]. split; [done|]. by rewrite Hv'.
Qed.

Lemma pipe_step_ok s e :
  inv s -> pipe_allowed e s ->
  exists r s', pipe_exec e s = Ok (r, s') /\ inv s' /\ queue_exec e (view s) = Some (r, view s').
Proof.
  intros Hinv Ha. destruct e as [i bs|i n|g i|g i]; cbn in Ha.
  - apply pipe_write_ok; [done|apply Ha..].
  - apply pipe_read_ok; [done|apply Ha..].
  - destruct Ha as (Hg & p & Hi & Hp & Hsz). destruct (group_add_ok s g i p Hinv Hi Hp Hg Hsz) as (s' & Hrun & [Hinv' _ _ _ Hv]).
    cbn. rewrite (M_bind_ok _ _ _ _ _ Hrun). eexists _, s'. split; [done|]. split; [done|].
    rewrite (proj2 (view_lookup s i _) (ex_intro _ p (conj Hi eq_refl))). cbn. by rewrite Hv.
  - destruct Ha as (p & Hi & Hp). destruct (group_remove_ok s g i p Hinv Hi Hp) as (s' & p' & Hrun & [Hinv' _ _ _ Hv] & _).
    cbn. rewrite (M_bind_ok _ _ _ _ _ Hrun). eexists _, s'. split; [done|]. split; [done|].
    rewrite (proj2 (view_lookup s i _) (ex_intro _ p (conj Hi eq_refl))). cbn. by rewrite Hv.
Qed.

(** C19: pipes refine bounded queues of bytes, over every sequence of writes,
    reads and group changes on any number of pipes that share the buffers of
    their groups, where a pipe is added to a group only when it is in none and its
    buffer has at least 12 bytes, and removed from the group it is in, and sizes
    are of 32 bits: each operation is defined, returns what the queues return (a
    write appends the bytes there is room for, a read takes the oldest ones, in
    order), and no pipe changes another's bytes. *)
Theorem pipes_refine_queues s es :
  inv s -> pipe_alloweds es s ->
  exists rs s', pipe_execs es s = Ok (rs, s') /\ inv s' /\ queue_execs es (view s) = Some (rs, view s').
Proof.
  revert s. induction es as [|e es IH]; intros s Hinv Ha; [by exists [], s|]. destruct Ha as [Ha Hnext].
  destruct (pipe_step_ok s e Hinv Ha) as (r & s1 & Hrun & Hinv1 & Hq).
  destruct (IH s1 Hinv1 (Hnext r s1 Hrun)) as (rs & s2 & Hruns & Hinv2 & Hqs).
  exists (r :: rs), s2. cbn. rewrite (M_bind_ok _ _ _ _ _ Hrun), (M_bind_ok _ _ _ _ _ Hruns), Hq. cbn. by rewrite Hqs.
Qed.

Module PipeDemo.
(** Two pipes of 16 bytes and a group. *)
Definition m : gmap nat (list Z) := {[ 0%nat := repeat 0 16; 1%nat := repeat 0 16 ]}.
Definition s0 : pst := Pst m ∅ {[ 7%nat := [] ]}.
Definition s : pst :=
  set_pipes <[1%nat := Pipe (Some 1%nat) 16 0 0 false None]>
    (set_pipes <[0%nat := Pipe (Some 0%nat) 16 0 0 false None]> s0).

Lemma s_inv : inv s.
Proof.
  eapply (inv_create _ 1 1 16 (repeat 0 16)); [eapply (inv_create _ 0 0 16 (repeat 0 16))|..]; try done.
  - apply inv_start. intros g l [<- <-]%lookup_singleton_Some. done.
  - by intros ?%not_elem_of_nil.
  - vm_compute. intros Hin. by repeat (apply elem_of_cons in Hin as [[=]|Hin]); apply not_elem_of_nil in Hin.
Qed.

Definition es : list pipe_event :=
  [PWrite 0 [1; 2; 3; 4; 5; 6]; PAdd 7 0; PAdd 7 1; PRead 0 4; PWrite 1 [9];
   PWrite 0 [7; 8; 9; 10; 11; 12; 13; 14; 15; 16; 17; 18; 19; 20; 21]; PRead 0 20; PWrite 1 [10; 11]; PRemove 7 0; PRead 1 2].
End PipeDemo.

Lemma pipes_refine_queues_witness :
  exists rs s', pipe_execs PipeDemo.es PipeDemo.s = Ok (rs, s') /\
    rs = [(0, [1; 2; 3; 4; 5; 6]); (0, []); (0, []); (0, [1; 2; 3; 4]); (0, [9]);
          (0, [7; 8; 9; 10; 11; 12; 13; 14; 15; 16; 17; 18; 19; 20]);
          (0, [5; 6; 7; 8; 9; 10; 11; 12; 13; 14; 15; 16; 17; 18; 19; 20]); (0, [10; 11]); (0, []); (0, [9; 10])].
Proof.
  destruct (pipes_refine_queues PipeDemo.s PipeDemo.es PipeDemo.s_inv) as (rs & s' & Hrun & _ & Hq).
  - unfold PipeDemo.es.
    repeat (split; [first [by (split; [by eexists|cbn; lia]) | by (split; [by eexists|by (eexists; split_and!)])
                          | by (eexists; split)]|intros r s' H; vm_compute in H; injection H as <- <-]). done.
  - exists rs, s'. split; [done|]. vm_compute in Hq. by injection Hq as <- _.
Defined.

(** ** spdk_iovcpy *)

Lemma iov_bytes_length m vs : fits m vs -> length (iov_bytes m vs) = Z.to_nat (iov_total vs).
Proof.
  unfold iov_bytes, iov_total. induction 1 as [|v vs Hv Hf IH]; [done|]. cbn [map concat].
  rewrite length_app, IH, zsum_cons. pose proof (total_nonneg m vs Hf) as Ht. unfold iov_total in Ht.
  destruct Hv as [Hv|[Hv Hr]].
  - rewrite Hv. unfold peek. destruct (iov_base v) as [[b o]|]; rewrite ?take_0; cbn; lia.
  - rewrite peek_length by (done || lia). lia.
Qed.

Lemma iov_bytes_prefix m vs n :
  (n <= length (iov_bytes m (live vs)))%nat -> take n (iov_bytes m (live vs)) = take n (iov_bytes m vs).
Proof.
  unfold iov_bytes. revert n. induction vs as [|v vs IH]; intros n Hn; [done|]. cbn [live] in *.
  destruct (iov_len v =? 0); [cbn in Hn; by replace n with 0%nat by lia|]. cbn [map concat] in *.
  rewrite length_app in Hn. rewrite !take_app. f_equal. apply IH. lia.
Qed.

(** C36: spdk_iovcpy copies, into distinct destination buffers the source does not
    share, from source elements of at most 2^32 - 1 bytes, both arrays non-empty and
    in live memory, exactly the bytes up to the shorter of the two arrays (an
    array ends at its first empty element), in order and split over the elements as
    they come; it returns their number, after at most one turn of its loop per
    element, and changes no other buffer. *)
Theorem iovcpy_correct fuel ss ds s :
  ss <> [] -> ds <> [] -> (length ss + length ds <= fuel)%nat ->
  Forall (fun v => iov_len v <= UINT32_MAX) ss -> fits (mem s) ss -> fits (mem s) ds ->
  (forall c, c ∈ iov_bufs ss -> c ∉ iov_bufs ds) -> NoDup (iov_bufs ds) ->
  let n := Z.min (iov_total (live ss)) (iov_total (live ds)) in
  exists s', spdk_iovcpy fuel ss ds s = Ok (n, s') /\
    take (Z.to_nat n) (iov_bytes (mem s') ds) = take (Z.to_nat n) (iov_bytes (mem s) ss) /\
    (forall c, c ∉ iov_bufs ds -> mem s' !! c = mem s !! c) /\
    pipes s' = pipes s /\ pgroups s' = pgroups s.
Proof.
  intros Hs Hd Hf Hmax Hfs Hfd Hdis Hnd n. pose proof (live_length ss). pose proof (live_length ds).
  pose proof (iov_total_nonneg _ _ Hfs). pose proof (iov_total_nonneg _ _ Hfd). pose proof (iov_total_live _ _ Hfd).
  assert (Hc : copied (mem s) ss ds = Z.to_nat n)
    by (unfold copied, n; rewrite iov_bytes_length by (by apply fits_live); lia).
  rewrite (iovcpy_ok fuel ss ds s) by (done || lia). rewrite Hc, Z2Nat.id by lia. eexists. split; [done|].
  set (bs := take (Z.to_nat n) (iov_bytes (mem s) (live ss))).
  assert (Hlen : length bs = Z.to_nat n)
    by (unfold bs; rewrite length_take, iov_bytes_length by (by apply fits_live); lia).
  cbn [mem set_mem pipes pgroups]. rewrite scatter_live by (done || lia). split_and!; [|by intros; apply scatter_other|done|done].
  rewrite <- Hlen at 1. rewrite scatter_read by (done || lia). unfold bs. apply iov_bytes_prefix.
  rewrite iov_bytes_length by (by apply fits_live). lia.
Qed.

Lemma iovcpy_correct_witness :
  exists s', spdk_iovcpy 4 [Iov (Some (0%nat, 1)) 3; Iov (Some (0%nat, 5)) 2] [Iov (Some (1%nat, 0)) 1; Iov (Some (2%nat, 2)) 3]
      (Pst {[ 0%nat := [10; 11; 12; 13; 14; 15; 16]; 1%nat := [0; 0]; 2%nat := [0; 0; 0; 0; 0; 0] ]} ∅ ∅)
    = Ok (4, s') /\ mem s' !! 1%nat = Some [11; 0] /\ mem s' !! 2%nat = Some [0; 0; 12; 13; 15; 0].
Proof.
  destruct (iovcpy_correct 4 [Iov (Some (0%nat, 1)) 3; Iov (Some (0%nat, 5)) 2]
    [Iov (Some (1%nat, 0)) 1; Iov (Some (2%nat, 2)) 3]
    (Pst {[ 0%nat := [10; 11; 12; 13; 14; 15; 16]; 1%nat := [0; 0]; 2%nat := [0; 0; 0; 0; 0; 0] ]} ∅ ∅))
    as (s' & Hrun & _); [done|done|done| | | | | |].
  - repeat constructor; vm_compute; discriminate.
  - repeat (constructor; [right; split; [done|eexists _, _, _; split; [done|]; split; [done|cbn; lia]]|]). constructor.
  - repeat (constructor; [right; split; [done|eexists _, _, _; split; [done|]; split; [done|cbn; lia]]|]). constructor.
  - intros c. vm_compute. set_solver.
  - vm_compute. repeat constructor; set_solver.
  - exists s'. split; [exact Hrun|]. vm_compute in Hrun. injection Hrun as <-. done.
Defined.

Lemma iovcpy_loop_fuel fuel ss ds total s :
  (length ss + length ds <= fuel)%nat -> Forall (fun v => 0 <= iov_len v <= UINT32_MAX) ss ->
  Forall (fun v => 0 <= iov_len v) ds -> iovcpy_loop fuel (start ss) (start ds) total s <> OutOfFuel.
Proof.
  revert ss ds total s. induction fuel as [|fuel IH]; intros ss ds total s Hf Hs Hd.
  { destruct ss as [|v ss]; [done|]. destruct ds as [|w ds]; [done|]. cbn in Hf. lia. }
  destruct ss as [|v ss]; [done|]. destruct ds as [|w ds]; [done|]. cbn [start iovcpy_loop].
  destruct (_ || _) eqn:E; [done|]. apply orb_false_iff in E as [E1%Z.eqb_neq E2%Z.eqb_neq].
  apply Forall_cons in Hs as [Hv Hs]. apply Forall_cons in Hd as [Hw Hd]. set (n := Z.min _ _).
  rewrite !iter_step_after. unfold mbind at 1, M_bind at 1.
  destruct (mem_read (iov_base v) n s) as [[bs s1]| | |] eqn:Er; try done.
  - unfold mbind, M_bind. destruct (mem_write (iov_base w) bs s1) as [[[] s2]| | |] eqn:Ew; try done.
    + apply IH.
      * unfold after. destruct (Z.eqb_spec (iov_len v) n), (Z.eqb_spec (iov_len w) n); cbn in *; lia.
      * unfold after. destruct (_ =? n); [done|]. constructor; [cbn; lia|done].
      * unfold after. destruct (_ =? n); [done|]. constructor; [cbn; lia|done].
    + exfalso. revert Ew. unfold mem_write. destruct bs; [done|]. unfold mbind, M_bind, lift_opt.
      destruct (iov_base w) as [[b o]|]; [|done]. cbn. destruct (mem s1 !! b); [|done]. cbn. by destruct (_ && _).
  - exfalso. revert Er. unfold mem_read. destruct (n =? 0); [done|]. unfold mbind, M_bind, lift_opt.
    destruct (iov_base v) as [[b o]|]; [|done]. cbn. destruct (mem s !! b); [|done]. cbn. by destruct (_ && _).
Qed.

(** The loop of spdk_iovcpy terminates on every pair of arrays, valid or
    not: it makes at most one step per element of the two, since every step uses
    up an element of one of them. *)
Lemma iovcpy_terminates ss ds s :
  Forall (fun v => 0 <= iov_len v <= UINT32_MAX) ss -> Forall (fun v => 0 <= iov_len v) ds ->
  spdk_iovcpy (length ss + length ds) ss ds s <> OutOfFuel.
Proof.
  intros Hs Hd. destruct ss as [|v ss]; [done|]. destruct ds as [|w ds]; [done|].
  exact (iovcpy_loop_fuel _ (v :: ss) (w :: ds) 0 s (le_n _) Hs Hd).
Qed.

Lemma iovcpy_terminates_demo :
  spdk_iovcpy 3 [Iov (Some (0%nat, 0)) 2; Iov None 5] [Iov None (2 ^ 40)]
    (Pst {[ 0%nat := [1; 2] ]} ∅ ∅) <> OutOfFuel.
Proof.
  apply (iovcpy_terminates [Iov (Some (0%nat, 0)) 2; Iov None 5] [Iov None (2 ^ 40)]);
    repeat constructor; vm_compute; discriminate.
Defined.

(** ** Outside the contract *)

(** Announcing no bytes to an empty pipe makes it full: it then offers its whole
    buffer to the reader. *)
Lemma advance_zero_fills s i p :
  inv s -> pipes s !! i = Some p -> p_read p = p_write p -> p_full p = false ->
  exists s' p', spdk_pipe_writer_advance i 0 s = Ok (0, s') /\ pipes s' !! i = Some p' /\
    p_full p' = true /\ bytes_available p' = p_sz p.
Proof.
  intros Hinv Hi He Hf. pose proof (inv_pipe s Hinv i p Hi) as Hok. destruct (used_cases s p Hok) as [Hu Hle].
  destruct Hok as [? ? ? _ _ _]. rewrite (writer_advance_eq s i p 0) by (done || lia). rewrite Hf, orb_false_r.
  unfold room. rewrite Hu, He, Hf, Z.eqb_refl. cbn [andb negb]. destruct (Z.ltb_spec (p_sz p - 0) 0); [lia|].
  eexists _, _. split; [done|]. split; [apply lookup_insert_eq|]. unfold zidx. rewrite Z.add_0_r.
  destruct (Z.ltb_spec (p_write p) (p_sz p)); [|lia]. rewrite Z.eqb_refl. split; [done|].
  unfold bytes_available. cbn. rewrite ?He, Z.eqb_refl, Z.ltb_irrefl. cbn. u32s; lia.
Qed.

(** A reader that takes bytes out of an empty pipe is not refused, and the pipe
    then holds bytes nobody wrote. *)
Lemma read_empty_accepted :
  match spdk_pipe_reader_advance 0 3 PipeDemo.s with
  | Ok (0, s') => bytes_available <$> pipes s' !! 0%nat = Some 13
  | _ => False
  end.
Proof. vm_compute. done. Qed.

Lemma write_overruns s b l off bs :
  mem s !! b = Some l -> bs <> [] -> Z.of_nat (length l) < off + Z.of_nat (length bs) ->
  mem_write (Some (b, off)) bs s = UB UB_bounds.
Proof.
  intros Hb Hne Hl. unfold mem_write, mbind, M_bind, lift_opt, get, mret, M_ret. destruct bs; [done|]. rewrite Hb.
  by rewrite (proj2 (Z.leb_gt _ _) Hl), andb_false_r.
Qed.

(** An empty pipe whose buffer is shorter than the link and the size of the list
    overruns its buffer when it is added to a group. *)
Lemma group_add_overruns s g i p b bs l :
  pipes s !! i = Some p -> p_group p = None -> p_buf p = Some b -> mem s !! b = Some bs ->
  p_read p = p_write p -> p_full p = false -> pgroups s !! g = Some l ->
  Z.of_nat (length bs) < PIPE_HDR -> spdk_pipe_group_add g i s = UB UB_bounds.
Proof.
  intros Hi Hg Hb Hm He Hf Hl Hlen. unfold spdk_pipe_group_add.
  rewrite (M_bind_ok _ _ _ _ _ (load_pipe_ok s i p Hi)), Hg. cbn [c_assert bool_decide].
  rewrite (M_bind_ok _ _ s tt s) by done. set (p' := with_group (Some g) p).
  set (s1 := set_pipes <[i := p']> s). rewrite (M_bind_ok _ _ s tt s1) by done.
  cbn [p' p_read p_write p_full with_group]. rewrite He, Hf, Z.eqb_refl. cbn [negb orb].
  unfold release_buf. cbn [p' p_buf with_group]. rewrite Hb. cbn [lift_opt].
  rewrite M_bind_assoc, (M_bind_ok _ _ s1 b s1) by done.
  rewrite M_bind_assoc, (M_bind_ok _ _ _ _ _ (load_group_ok s1 g l Hl)).
  rewrite M_bind_assoc. unfold mbind at 1, M_bind at 1.
  by rewrite (write_overruns s1 b bs) by (done || rewrite le_bytes_length; unfold PIPE_HDR in Hlen; lia).
Qed.
