(* ===== verification/Dif.v ===== *)
(** * Protection information (lib/util/dif.c)

    End-to-end protection appends to every block a field with a guard over its
    data, an application tag and a reference tag.  The functions work on
    scattered memory: an array of iovecs that is walked with a struct _dif_sgl.
    The memory is that of [Pipe].  The three CRC functions come from ISA-L
    (SPDK_CONFIG_ISAL), which is not part of the sources: they are the
    operations of the class [Crc]. *)

From S2P Require Import Prelude Pipe.

(** ** Types and constants *)

(** The CRC of [bs], started from a seed. *)
Class Crc := {
  crc16_t10dif : Z -> list Z -> Z;
  crc32_iscsi : Z -> list Z -> Z;
  crc64_rocksoft_refl : Z -> list Z -> Z }.

Definition SPDK_DIF_REFTAG_IGNORE : Z := 0xFFFFFFFF.
Definition SPDK_DIF_APPTAG_IGNORE : Z := 0xFFFF.
Definition SPDK_DIF_FLAGS_REFTAG_CHECK : Z := Z.shiftl 1 26.
Definition SPDK_DIF_FLAGS_APPTAG_CHECK : Z := Z.shiftl 1 27.
Definition SPDK_DIF_FLAGS_GUARD_CHECK : Z := Z.shiftl 1 28.
Definition SPDK_DIF_REFTAG_ERROR : Z := 1.
Definition SPDK_DIF_APPTAG_ERROR : Z := 2.
Definition SPDK_DIF_GUARD_ERROR : Z := 4.
Definition SPDK_DIF_DATA_ERROR : Z := 8.
Definition REFTAG_MASK_16 : Z := 0x00000000FFFFFFFF.
Definition REFTAG_MASK_32 : Z := 0xFFFFFFFFFFFFFFFF.
Definition REFTAG_MASK_64 : Z := 0x0000FFFFFFFFFFFF.

Inductive dif_type_t := SPDK_DIF_DISABLE | SPDK_DIF_TYPE1 | SPDK_DIF_TYPE2 | SPDK_DIF_TYPE3.
Inductive dif_pi_format_t := SPDK_DIF_PI_FORMAT_16 | SPDK_DIF_PI_FORMAT_32 | SPDK_DIF_PI_FORMAT_64.

#[export] Instance dif_type_t_eq_dec : EqDecision dif_type_t.
Proof. solve_decision. Defined.
#[export] Instance dif_pi_format_t_eq_dec : EqDecision dif_pi_format_t.
Proof. solve_decision. Defined.

(** struct spdk_dif_ctx *)
Record dif_ctx := DifCtx {
  block_size : Z;
  guard_interval : Z;
  c_md_size : Z;
  md_interleave : bool;
  dif_type : dif_type_t;
  dif_pi_format : dif_pi_format_t;
  dif_flags : Z;
  init_ref_tag : Z;
  app_tag : Z;
  apptag_mask : Z;
  data_offset : Z;
  ref_tag_offset : Z;
  remapped_init_ref_tag : Z;
  last_guard : Z;
  guard_seed : Z }.

(** struct spdk_dif_error *)
Record dif_error := DifError { err_type : Z; expected : Z; actual : Z; err_offset : Z }.

(** struct _dif_sgl during an iteration: the iovecs from the current one on, and
    the offset in it. *)
Record dif_sgl := Sgl { sgl_iov : list iovec; iov_offset : Z }.

(** ** Iteration *)

Definition _dif_sgl_init (iovs : list iovec) : dif_sgl := Sgl iovs 0.

Fixpoint advance_loop (l : list iovec) (off : Z) : dif_sgl :=
  match l with
  | [] => Sgl [] off
  | v :: l' => if off <? iov_len v then Sgl l off else advance_loop l' (u32 (off - iov_len v))
  end.

Definition _dif_sgl_advance (s : dif_sgl) (step : Z) : dif_sgl :=
  advance_loop (sgl_iov s) (u32 (iov_offset s + step)).

(** The pointer and the bytes left at it; behind the last iovec this reads
    outside the array. *)
Definition _dif_sgl_get_buf (s : dif_sgl) : M pst (option (nat * Z) * Z) :=
  match sgl_iov s with
  | [] => fail UB_bounds
  | v :: _ => mret (ptr_add (iov_base v) (iov_offset s), u32 (iov_len v - iov_offset s))
  end.

Definition _dif_sgl_is_bytes_multiple (iovs : list iovec) (bytes : Z) : M pst bool :=
  if (bytes =? 0) && negb (bool_decide (iovs = [])) then fail UB_div0
  else mret (forallb (fun v => iov_len v mod bytes =? 0) iovs).

Definition _dif_sgl_is_valid_block_aligned (iovs : list iovec) (num_blocks bsz : Z) : M pst bool :=
  if (bsz =? 0) && negb (bool_decide (iovs = [])) then fail UB_div0
  else mret (forallb (fun v => iov_len v mod bsz =? 0) iovs
             && (num_blocks <=? fold_left (fun c v => u32 (c + iov_len v / bsz)) iovs 0)).

Definition _dif_sgl_is_valid (iovs : list iovec) (bytes : Z) : bool :=
  bytes <=? fold_left (fun t v => u64 (t + iov_len v)) iovs 0.

(** ** The fields *)

Definition _dif_is_disabled (t : dif_type_t) : bool := bool_decide (t = SPDK_DIF_DISABLE).

Definition _dif_size (f : dif_pi_format_t) : Z :=
  match f with SPDK_DIF_PI_FORMAT_16 => 8 | _ => 16 end.

Definition _get_guard_interval (bsz md : Z) (dif_loc interleave : bool) (dif_size : Z) : Z :=
  if negb dif_loc
  then if interleave then u32 (bsz - dif_size) else u32 (md - dif_size)
  else if interleave then u32 (bsz - md) else 0.

Definition _dif_guard_size (f : dif_pi_format_t) : Z :=
  match f with
  | SPDK_DIF_PI_FORMAT_16 => 2 | SPDK_DIF_PI_FORMAT_32 => 4 | SPDK_DIF_PI_FORMAT_64 => 8
  end.
Definition _dif_apptag_offset : dif_pi_format_t -> Z := _dif_guard_size.
Definition _dif_apptag_size : Z := 2.
Definition _dif_reftag_offset (f : dif_pi_format_t) : Z :=
  match f with
  | SPDK_DIF_PI_FORMAT_32 => _dif_apptag_offset f + _dif_apptag_size + 2
  | _ => _dif_apptag_offset f + _dif_apptag_size
  end.
Definition _dif_reftag_size (f : dif_pi_format_t) : Z :=
  match f with
  | SPDK_DIF_PI_FORMAT_16 => 4 | SPDK_DIF_PI_FORMAT_32 => 8 | SPDK_DIF_PI_FORMAT_64 => 2 + 4
  end.

(** to_be16, to_be32 and to_be64: the [k] low bytes, the highest first. *)
Fixpoint to_be (k : nat) (x : Z) : list Z :=
  match k with
  | O => []
  | S k' => Z.land (Z.shiftr x (8 * Z.of_nat k')) 0xFF :: to_be k' x
  end.

Definition from_be (bs : list Z) : Z := fold_left (fun a b => Z.lor (Z.shiftl a 8) b) bs 0.

(** [n] bytes of a DIF field at an offset. *)
Definition dif_bytes (d : list Z) (off n : Z) : list Z := take (Z.to_nat n) (drop (Z.to_nat off) d).

(** The stores of a field: offset and bytes. *)
Definition _dif_set_guard (guard : Z) (f : dif_pi_format_t) : Z * list Z :=
  (0, to_be (Z.to_nat (_dif_guard_size f)) guard).
Definition _dif_set_apptag (tag : Z) (f : dif_pi_format_t) : Z * list Z :=
  (_dif_apptag_offset f, to_be 2 tag).
(** In the third format the tag is stored in two parts of 16 and 32 bits. *)
Definition _dif_set_reftag (tag : Z) (f : dif_pi_format_t) : Z * list Z :=
  (_dif_reftag_offset f,
   match f with
   | SPDK_DIF_PI_FORMAT_16 => to_be 4 tag
   | SPDK_DIF_PI_FORMAT_32 => to_be 8 tag
   | SPDK_DIF_PI_FORMAT_64 => to_be 2 (u16 (Z.shiftr tag 32)) ++ to_be 4 (u32 tag)
   end).

Definition _dif_get_guard (d : list Z) (f : dif_pi_format_t) : Z :=
  from_be (dif_bytes d 0 (_dif_guard_size f)).
Definition _dif_get_apptag (d : list Z) (f : dif_pi_format_t) : Z :=
  from_be (dif_bytes d (_dif_apptag_offset f) 2).
Definition _dif_get_reftag (d : list Z) (f : dif_pi_format_t) : Z :=
  match f with
  | SPDK_DIF_PI_FORMAT_64 =>
      Z.lor (Z.shiftl (from_be (dif_bytes d (_dif_reftag_offset f) 2)) 32)
        (from_be (dif_bytes d (_dif_reftag_offset f + 2) 4))
  | _ => from_be (dif_bytes d (_dif_reftag_offset f) (_dif_reftag_size f))
  end.

Definition _dif_apptag_ignore (d : list Z) (f : dif_pi_format_t) : bool :=
  _dif_get_apptag d f =? SPDK_DIF_APPTAG_IGNORE.

Definition _dif_reftag_match (d : list Z) (tag : Z) (f : dif_pi_format_t) : bool :=
  _dif_get_reftag d f =?
    match f with
    | SPDK_DIF_PI_FORMAT_16 => Z.land tag REFTAG_MASK_16
    | SPDK_DIF_PI_FORMAT_32 => tag
    | SPDK_DIF_PI_FORMAT_64 => Z.land tag REFTAG_MASK_64
    end.

Definition _dif_reftag_ignore (d : list Z) (f : dif_pi_format_t) : bool :=
  _dif_reftag_match d REFTAG_MASK_32 f.

Definition _dif_ignore (d : list Z) (c : dif_ctx) : bool :=
  match dif_type c with
  | SPDK_DIF_TYPE1 | SPDK_DIF_TYPE2 => _dif_apptag_ignore d (dif_pi_format c)
  | SPDK_DIF_TYPE3 =>
      _dif_apptag_ignore d (dif_pi_format c) && _dif_reftag_ignore d (dif_pi_format c)
  | SPDK_DIF_DISABLE => false
  end.

Definition has_flag (c : dif_ctx) (flag : Z) : bool := negb (Z.land (dif_flags c) flag =? 0).

(** ** The context *)

(** [opts]: the format of the options, None in it for a number that is not one.
    A block size equal to the metadata size passes the checks. *)
Definition spdk_dif_ctx_init (bsz md : Z) (interleave dif_loc : bool) (t : dif_type_t)
    (flags ref mask tag data_off seed : Z) (opts : option (option dif_pi_format_t))
  : res (dif_ctx + Z) :=
  match default (Some SPDK_DIF_PI_FORMAT_16) opts with
  | None => Ok (inr (- EINVAL))
  | Some f =>
      if md <? _dif_size f then Ok (inr (- EINVAL))
      else if (if interleave then bsz <? md
               else (bsz =? 0)
                    || negb (bsz mod (match f with SPDK_DIF_PI_FORMAT_16 => 512 | _ => 4096 end) =? 0))
      then Ok (inr (- EINVAL))
      else
        let data_block_size := if interleave then u32 (bsz - md) else bsz in
        if data_block_size =? 0 then UB UB_div0
        else Ok (inl (DifCtx bsz (_get_guard_interval bsz md dif_loc interleave (_dif_size f)) md interleave t f
               flags ref tag mask data_off (data_off / data_block_size) 0 seed seed))
  end.

Definition with_data_offset (off ref : Z) (c : dif_ctx) : dif_ctx :=
  DifCtx (block_size c) (guard_interval c) (c_md_size c) (md_interleave c) (dif_type c)
    (dif_pi_format c) (dif_flags c) (init_ref_tag c) (app_tag c) (apptag_mask c) off ref
    (remapped_init_ref_tag c) (last_guard c) (guard_seed c).
Definition with_remapped (r : Z) (c : dif_ctx) : dif_ctx :=
  DifCtx (block_size c) (guard_interval c) (c_md_size c) (md_interleave c) (dif_type c)
    (dif_pi_format c) (dif_flags c) (init_ref_tag c) (app_tag c) (apptag_mask c) (data_offset c)
    (ref_tag_offset c) r (last_guard c) (guard_seed c).
Definition with_last_guard (g : Z) (c : dif_ctx) : dif_ctx :=
  DifCtx (block_size c) (guard_interval c) (c_md_size c) (md_interleave c) (dif_type c)
    (dif_pi_format c) (dif_flags c) (init_ref_tag c) (app_tag c) (apptag_mask c) (data_offset c)
    (ref_tag_offset c) (remapped_init_ref_tag c) g (guard_seed c).

Definition spdk_dif_ctx_set_data_offset (off : Z) (c : dif_ctx) : res dif_ctx :=
  let data_block_size :=
    if md_interleave c then u32 (block_size c - c_md_size c) else block_size c in
  if data_block_size =? 0 then UB UB_div0
  else Ok (with_data_offset off (off / data_block_size) c).

Definition spdk_dif_ctx_set_remapped_init_ref_tag (r : Z) (c : dif_ctx) : dif_ctx :=
  with_remapped r c.

(** ** Guards and fields of one block *)

Section Dif.
Context {C : Crc}.

Definition u32_not (x : Z) : Z := u32 (- x - 1).

Definition spdk_crc32c_nvme (bs : list Z) (crc : Z) : Z := u32_not (crc32_iscsi (u32_not crc) bs).

Definition _dif_generate_guard (seed : Z) (bs : list Z) (f : dif_pi_format_t) : Z :=
  match f with
  | SPDK_DIF_PI_FORMAT_16 => crc16_t10dif (u16 seed) bs
  | SPDK_DIF_PI_FORMAT_32 => spdk_crc32c_nvme bs (u32 seed)
  | SPDK_DIF_PI_FORMAT_64 => crc64_rocksoft_refl seed bs
  end.

(** The guard of [n] bytes of memory. *)
Definition guard_of (seed : Z) (buf : option (nat * Z)) (n : Z) (c : dif_ctx) : M pst Z :=
  bs ← mem_read buf n; mret (_dif_generate_guard seed bs (dif_pi_format c)).

(** Copies [n] bytes and yields their guard. *)
Definition _dif_generate_guard_copy (seed : Z) (dst src : option (nat * Z)) (n : Z) (c : dif_ctx)
  : M pst Z :=
  bs ← mem_read src n;
  _ ← mem_write dst bs;
  mret (_dif_generate_guard seed bs (dif_pi_format c)).

Definition memcpy (dst src : option (nat * Z)) (n : Z) : M pst unit :=
  bs ← mem_read src n; mem_write dst bs.

(** The reference tag of a block; init_ref_tag has 64 bits. *)
Definition block_ref_tag (offset_blocks : Z) (c : dif_ctx) : Z :=
  if bool_decide (dif_type c = SPDK_DIF_TYPE3) then u64 (init_ref_tag c + ref_tag_offset c)
  else u64 (init_ref_tag c + ref_tag_offset c + offset_blocks).

(** The stores of _dif_generate. *)
Definition _dif_generate (guard offset_blocks : Z) (c : dif_ctx) : list (Z * list Z) :=
  let f := dif_pi_format c in
  (if has_flag c SPDK_DIF_FLAGS_GUARD_CHECK then [_dif_set_guard guard f] else [])
  ++ (if has_flag c SPDK_DIF_FLAGS_APPTAG_CHECK then [_dif_set_apptag (app_tag c) f] else [])
  ++ (if has_flag c SPDK_DIF_FLAGS_REFTAG_CHECK then
        let tag :=
          if init_ref_tag c =? SPDK_DIF_REFTAG_IGNORE then
            match f with
            | SPDK_DIF_PI_FORMAT_16 => REFTAG_MASK_16
            | SPDK_DIF_PI_FORMAT_32 => REFTAG_MASK_32
            | SPDK_DIF_PI_FORMAT_64 => REFTAG_MASK_64
            end
          else block_ref_tag offset_blocks c in
        [_dif_set_reftag tag f]
      else []).

(** The stores into a DIF field in memory, and into one held in a variable. *)
Fixpoint store_mem (ptr : option (nat * Z)) (l : list (Z * list Z)) : M pst unit :=
  match l with
  | [] => mret tt
  | (off, bs) :: l' => _ ← mem_write (ptr_add ptr off) bs; store_mem ptr l'
  end.
Definition store_var (l : list (Z * list Z)) (d : list Z) : list Z :=
  fold_left (fun d '(off, bs) => overwrite (Z.to_nat off) bs d) l d.

(** The zeroed variable of type struct spdk_dif. *)
Definition dif_zero (c : dif_ctx) : list Z := replicate (Z.to_nat (_dif_size (dif_pi_format c))) 0.

(** Some error: the check fails and this is stored in err_blk. *)
Definition _dif_reftag_check (d : list Z) (c : dif_ctx) (tag offset_blocks : Z) : option dif_error :=
  if has_flag c SPDK_DIF_FLAGS_REFTAG_CHECK then
    match dif_type c with
    | SPDK_DIF_TYPE1 | SPDK_DIF_TYPE2 =>
        if _dif_reftag_match d tag (dif_pi_format c) then None
        else Some (DifError SPDK_DIF_REFTAG_ERROR tag (_dif_get_reftag d (dif_pi_format c))
                     offset_blocks)
    | _ => None
    end
  else None.

Definition _dif_verify (d : list Z) (guard offset_blocks : Z) (c : dif_ctx) : option dif_error :=
  let f := dif_pi_format c in
  if _dif_ignore d c then None
  else
    let tag := block_ref_tag offset_blocks c in
    if has_flag c SPDK_DIF_FLAGS_GUARD_CHECK && negb (_dif_get_guard d f =? guard)
    then Some (DifError SPDK_DIF_GUARD_ERROR (_dif_get_guard d f) guard offset_blocks)
    else if has_flag c SPDK_DIF_FLAGS_APPTAG_CHECK
            && negb (Z.land (_dif_get_apptag d f) (apptag_mask c)
                     =? Z.land (app_tag c) (apptag_mask c))
    then Some (DifError SPDK_DIF_APPTAG_ERROR (app_tag c)
                 (Z.land (_dif_get_apptag d f) (apptag_mask c)) offset_blocks)
    else _dif_reftag_check d c tag offset_blocks.

(** _dif_verify on a field in memory. *)
Definition verify_mem (ptr : option (nat * Z)) (guard offset_blocks : Z) (c : dif_ctx)
  : M pst (option dif_error) :=
  d ← mem_read ptr (_dif_size (dif_pi_format c)); mret (_dif_verify d guard offset_blocks c).

(** ** Generation *)

(** A loop over the blocks from [k] on, of which [n] are left. *)
Fixpoint for_blocks {A} (n : nat) (k : Z) (body : Z -> A -> M pst A) (x : A) : M pst A :=
  match n with
  | O => mret x
  | S n' => x ← body k x; for_blocks n' (u32 (k + 1)) body x
  end.

(** The same for a body that may fail. *)
Fixpoint for_blocks_err {A} (n : nat) (k : Z) (body : Z -> A -> M pst (A + dif_error)) (x : A)
  : M pst (A + dif_error) :=
  match n with
  | O => mret (inl x)
  | S n' =>
      r ← body k x;
      match r with
      | inl x => for_blocks_err n' (u32 (k + 1)) body x
      | inr e => mret (inr e)
      end
  end.

Definition dif_generate (s : dif_sgl) (num_blocks : Z) (c : dif_ctx) : M pst dif_sgl :=
  for_blocks (Z.to_nat num_blocks) 0 (fun k s =>
    '(buf, _) ← _dif_sgl_get_buf s;
    guard ← (if has_flag c SPDK_DIF_FLAGS_GUARD_CHECK
             then guard_of (guard_seed c) buf (guard_interval c) c else mret 0);
    _ ← store_mem (ptr_add buf (guard_interval c)) (_dif_generate guard k c);
    mret (_dif_sgl_advance s (block_size c))) s.

(** The first loop of the split functions, over the data of a block: at most
    [n] pieces.  Result: the position, the offset in the block and the guard. *)
Fixpoint guard_pieces (n : nat) (s : dif_sgl) (offset_in_block data_len guard : Z) (c : dif_ctx)
  : M pst (dif_sgl * Z * Z) :=
  if negb (data_len =? 0) && (offset_in_block <? guard_interval c) then
    match n with
    | O => out_of_fuel
    | S n' =>
        '(buf, buf_len) ← _dif_sgl_get_buf s;
        let len := Z.min (Z.min buf_len data_len) (u32 (guard_interval c - offset_in_block)) in
        guard ← (if has_flag c SPDK_DIF_FLAGS_GUARD_CHECK then guard_of guard buf len c
                 else mret guard);
        guard_pieces n' (_dif_sgl_advance s len) (u32 (offset_in_block + len)) (u32 (data_len - len))
          guard c
    end
  else mret (s, offset_in_block, guard).

(** The second loop, over the metadata from the DIF field on.  [f] is called for
    every piece of the field, with the pointer, the offset in the field and the
    length. *)
Fixpoint dif_pieces {A} (n : nat) (s : dif_sgl) (offset_in_block : Z) (c : dif_ctx)
    (f : option (nat * Z) -> Z -> Z -> A -> M pst A) (x : A) : M pst (dif_sgl * A) :=
  if offset_in_block <? block_size c then
    match n with
    | O => out_of_fuel
    | S n' =>
        '(buf, buf_len) ← _dif_sgl_get_buf s;
        let size := _dif_size (dif_pi_format c) in
        '(len, x) ←
          (if offset_in_block <? guard_interval c + size then
             let offset_in_dif := u32 (offset_in_block - guard_interval c) in
             let len := Z.min buf_len (size - offset_in_dif) in
             x ← f buf offset_in_dif len x; mret (len, x)
           else mret (Z.min buf_len (u32 (block_size c - offset_in_block)), x));
        dif_pieces n' (_dif_sgl_advance s len) (u32 (offset_in_block + len)) c f x
    end
  else mret (s, x).

(** The number of pieces: a loop moves to the next iovec, except at the end of
    the data, of the DIF field and of the block. *)
Definition pieces (s : dif_sgl) : nat := S (S (length (sgl_iov s))).

Definition put_piece (d : list Z) (buf : option (nat * Z)) (off len : Z) (x : unit) : M pst unit :=
  mem_write buf (dif_bytes d off len).

Definition get_piece (buf : option (nat * Z)) (off len : Z) (d : list Z) : M pst (list Z) :=
  bs ← mem_read buf len; mret (overwrite (Z.to_nat off) bs d).

(** The assertions of the split functions. *)
Definition split_assert (offset_in_block data_len : Z) (c : dif_ctx) : M pst unit :=
  _ ← c_assert (offset_in_block <? guard_interval c);
  c_assert ((u32 (offset_in_block + data_len) <? guard_interval c)
            || (u32 (offset_in_block + data_len) =? block_size c)).

Definition _dif_generate_split (s : dif_sgl) (offset_in_block data_len guard offset_blocks : Z)
    (c : dif_ctx) : M pst (dif_sgl * Z) :=
  _ ← split_assert offset_in_block data_len c;
  '(s, offset_in_block, guard) ← guard_pieces (pieces s) s offset_in_block data_len guard c;
  if offset_in_block <? guard_interval c then mret (s, guard)
  else
    let dif := store_var (_dif_generate guard offset_blocks c) (dif_zero c) in
    '(s, _) ← dif_pieces (pieces s) s offset_in_block c (put_piece dif) tt;
    mret (s, if has_flag c SPDK_DIF_FLAGS_GUARD_CHECK then guard_seed c else guard).

(** The guard a split function starts a block with. *)
Definition start_guard (c : dif_ctx) : Z :=
  if has_flag c SPDK_DIF_FLAGS_GUARD_CHECK then guard_seed c else 0.

Definition dif_generate_split (s : dif_sgl) (num_blocks : Z) (c : dif_ctx) : M pst dif_sgl :=
  for_blocks (Z.to_nat num_blocks) 0 (fun k s =>
    '(s, _) ← _dif_generate_split s 0 (block_size c) (start_guard c) k c; mret s) s.

Definition spdk_dif_generate (iovs : list iovec) (num_blocks : Z) (c : dif_ctx) : M pst Z :=
  if negb (_dif_sgl_is_valid iovs (u32 (block_size c * num_blocks))) then mret (- EINVAL)
  else if _dif_is_disabled (dif_type c) then mret 0
  else
    b ← _dif_sgl_is_bytes_multiple iovs (block_size c);
    _ ← (if b : bool then dif_generate (_dif_sgl_init iovs) num_blocks c
         else dif_generate_split (_dif_sgl_init iovs) num_blocks c);
    mret 0.

(** ** Verification *)

(** The error of a check stops a loop. *)
Definition or_error {A} (e : option dif_error) (x : A) : A + dif_error :=
  match e with Some e => inr e | None => inl x end.

(** The return code, and what is stored in err_blk. *)
Definition verdict {A} (r : A + dif_error) : Z * option dif_error :=
  match r with inl _ => (0, None) | inr e => (-1, Some e) end.

Definition dif_verify (s : dif_sgl) (num_blocks : Z) (c : dif_ctx) : M pst (dif_sgl + dif_error) :=
  for_blocks_err (Z.to_nat num_blocks) 0 (fun k s =>
    '(buf, _) ← _dif_sgl_get_buf s;
    guard ← (if has_flag c SPDK_DIF_FLAGS_GUARD_CHECK
             then guard_of (guard_seed c) buf (guard_interval c) c else mret 0);
    e ← verify_mem (ptr_add buf (guard_interval c)) guard k c;
    mret (or_error e (_dif_sgl_advance s (block_size c)))) s.

(** Result: the position and the guard for the next call. *)
Definition _dif_verify_split (s : dif_sgl) (offset_in_block data_len guard offset_blocks : Z)
    (c : dif_ctx) : M pst ((dif_sgl * Z) + dif_error) :=
  _ ← split_assert offset_in_block data_len c;
  '(s, offset_in_block, guard) ← guard_pieces (pieces s) s offset_in_block data_len guard c;
  if offset_in_block <? guard_interval c then mret (inl (s, guard))
  else
    '(s, dif) ← dif_pieces (pieces s) s offset_in_block c get_piece (dif_zero c);
    mret (or_error (_dif_verify dif guard offset_blocks c)
            (s, if has_flag c SPDK_DIF_FLAGS_GUARD_CHECK then guard_seed c else guard)).

Definition dif_verify_split (s : dif_sgl) (num_blocks : Z) (c : dif_ctx)
  : M pst ((dif_sgl * Z) + dif_error) :=
  for_blocks_err (Z.to_nat num_blocks) 0 (fun k '(s, guard) =>
    _dif_verify_split s 0 (block_size c) guard k c) (s, start_guard c).

Definition spdk_dif_verify (iovs : list iovec) (num_blocks : Z) (c : dif_ctx)
  : M pst (Z * option dif_error) :=
  if negb (_dif_sgl_is_valid iovs (u32 (block_size c * num_blocks))) then mret (- EINVAL, None)
  else if _dif_is_disabled (dif_type c) then mret (0, None)
  else
    b ← _dif_sgl_is_bytes_multiple iovs (block_size c);
    if b : bool
    then r ← dif_verify (_dif_sgl_init iovs) num_blocks c; mret (verdict r)
    else r ← dif_verify_split (_dif_sgl_init iovs) num_blocks c; mret (verdict r).

(** ** Copies to and from a buffer with metadata *)

Definition data_block_size (c : dif_ctx) : Z := u32 (block_size c - c_md_size c).

(** The guard of the metadata in front of the DIF field, continued from
    [guard]. *)
Definition guard_md (guard : Z) (buf : option (nat * Z)) (c : dif_ctx) : M pst Z :=
  guard_of guard (ptr_add buf (data_block_size c)) (u32 (guard_interval c - data_block_size c)) c.

(** Copies the data of a block and, when guards are checked, yields the guard of
    the block, whose metadata is at [md]. *)
Definition copy_block (dst src md : option (nat * Z)) (c : dif_ctx) : M pst Z :=
  if has_flag c SPDK_DIF_FLAGS_GUARD_CHECK then
    guard ← _dif_generate_guard_copy (guard_seed c) dst src (data_block_size c) c;
    guard_md guard md c
  else _ ← memcpy dst src (data_block_size c); mret 0.

Definition dif_generate_copy (src dst : dif_sgl) (num_blocks : Z) (c : dif_ctx)
  : M pst (dif_sgl * dif_sgl) :=
  for_blocks (Z.to_nat num_blocks) 0 (fun k '(src, dst) =>
    '(sb, _) ← _dif_sgl_get_buf src;
    '(db, _) ← _dif_sgl_get_buf dst;
    guard ← copy_block db sb db c;
    _ ← store_mem (ptr_add db (guard_interval c)) (_dif_generate guard k c);
    mret (_dif_sgl_advance src (data_block_size c), _dif_sgl_advance dst (block_size c))) (src, dst).

(** The loop over the pieces of a block's data on the side that is scattered;
    [at_piece] gives the destination and the source of a piece from the pointer
    to it and the offset in the block. *)
Fixpoint copy_pieces (n : nat) (s : dif_sgl) (offset_in_block guard : Z) (c : dif_ctx)
    (at_piece : option (nat * Z) -> Z -> option (nat * Z) * option (nat * Z))
  : M pst (dif_sgl * Z) :=
  if offset_in_block <? data_block_size c then
    match n with
    | O => out_of_fuel
    | S n' =>
        '(buf, buf_len) ← _dif_sgl_get_buf s;
        let len := Z.min buf_len (u32 (data_block_size c - offset_in_block)) in
        let '(dst, src) := at_piece buf offset_in_block in
        guard ← (if has_flag c SPDK_DIF_FLAGS_GUARD_CHECK
                 then _dif_generate_guard_copy guard dst src len c
                 else _ ← memcpy dst src len; mret guard);
        copy_pieces n' (_dif_sgl_advance s len) (u32 (offset_in_block + len)) guard c at_piece
    end
  else mret (s, guard).

Definition _dif_generate_copy_split (src dst : dif_sgl) (offset_blocks : Z) (c : dif_ctx)
  : M pst (dif_sgl * dif_sgl) :=
  '(db, _) ← _dif_sgl_get_buf dst;
  '(src, guard) ← copy_pieces (pieces src) src 0 (start_guard c) c (fun sb off => (ptr_add db off, sb));
  guard ← (if has_flag c SPDK_DIF_FLAGS_GUARD_CHECK then guard_md guard db c else mret guard);
  _ ← store_mem (ptr_add db (guard_interval c)) (_dif_generate guard offset_blocks c);
  mret (src, _dif_sgl_advance dst (block_size c)).

Definition dif_generate_copy_split (src dst : dif_sgl) (num_blocks : Z) (c : dif_ctx)
  : M pst (dif_sgl * dif_sgl) :=
  for_blocks (Z.to_nat num_blocks) 0 (fun k '(src, dst) => _dif_generate_copy_split src dst k c)
    (src, dst).

Definition spdk_dif_generate_copy (iovs bounce_iovs : list iovec) (num_blocks : Z) (c : dif_ctx)
  : M pst Z :=
  if negb (_dif_sgl_is_valid iovs (u32 (data_block_size c * num_blocks))) then mret (- EINVAL)
  else
    b ← _dif_sgl_is_valid_block_aligned bounce_iovs num_blocks (block_size c);
    if negb (b : bool) then mret (- EINVAL)
    else if _dif_is_disabled (dif_type c) then mret 0
    else
      b ← _dif_sgl_is_bytes_multiple iovs (data_block_size c);
      _ ← (if b : bool
           then dif_generate_copy (_dif_sgl_init iovs) (_dif_sgl_init bounce_iovs) num_blocks c
           else dif_generate_copy_split (_dif_sgl_init iovs) (_dif_sgl_init bounce_iovs) num_blocks c);
      mret 0.

Definition dif_verify_copy (src dst : dif_sgl) (num_blocks : Z) (c : dif_ctx)
  : M pst ((dif_sgl * dif_sgl) + dif_error) :=
  for_blocks_err (Z.to_nat num_blocks) 0 (fun k '(src, dst) =>
    '(sb, _) ← _dif_sgl_get_buf src;
    '(db, _) ← _dif_sgl_get_buf dst;
    guard ← copy_block db sb sb c;
    e ← verify_mem (ptr_add sb (guard_interval c)) guard k c;
    mret (or_error e (_dif_sgl_advance src (block_size c), _dif_sgl_advance dst (data_block_size c))))
    (src, dst).

Definition _dif_verify_copy_split (src dst : dif_sgl) (offset_blocks : Z) (c : dif_ctx)
  : M pst ((dif_sgl * dif_sgl) + dif_error) :=
  '(sb, _) ← _dif_sgl_get_buf src;
  '(dst, guard) ← copy_pieces (pieces dst) dst 0 (start_guard c) c (fun db off => (db, ptr_add sb off));
  guard ← (if has_flag c SPDK_DIF_FLAGS_GUARD_CHECK then guard_md guard sb c else mret guard);
  e ← verify_mem (ptr_add sb (guard_interval c)) guard offset_blocks c;
  mret (or_error e (_dif_sgl_advance src (block_size c), dst)).

Definition dif_verify_copy_split (src dst : dif_sgl) (num_blocks : Z) (c : dif_ctx)
  : M pst ((dif_sgl * dif_sgl) + dif_error) :=
  for_blocks_err (Z.to_nat num_blocks) 0 (fun k '(src, dst) => _dif_verify_copy_split src dst k c)
    (src, dst).

Definition spdk_dif_verify_copy (iovs bounce_iovs : list iovec) (num_blocks : Z) (c : dif_ctx)
  : M pst (Z * option dif_error) :=
  if negb (_dif_sgl_is_valid iovs (u32 (data_block_size c * num_blocks))) then mret (- EINVAL, None)
  else
    b ← _dif_sgl_is_valid_block_aligned bounce_iovs num_blocks (block_size c);
    if negb (b : bool) then mret (- EINVAL, None)
    else if _dif_is_disabled (dif_type c) then mret (0, None)
    else
      b ← _dif_sgl_is_bytes_multiple iovs (data_block_size c);
      if b : bool
      then r ← dif_verify_copy (_dif_sgl_init bounce_iovs) (_dif_sgl_init iovs) num_blocks c;
           mret (verdict r)
      else r ← dif_verify_copy_split (_dif_sgl_init bounce_iovs) (_dif_sgl_init iovs) num_blocks c;
           mret (verdict r).

End Dif.
