(* ===== verification/DifExt.v ===== *)
(** * Protection information: separate metadata, streams, remapping (lib/util/dif.c)

    The functions for metadata in a buffer of its own, for data that arrives in
    parts, for the replacement of reference tags, for the injection of errors,
    and for the CRC-32C of the data. *)

From S2P Require Import Prelude Pipe Dif.

(** struct _dif_sgl while an array is created: the iovecs set so far, and how
    many are left. *)
Record dif_dst := Dst { dst_iovs : list iovec; dst_room : Z; total_size : Z }.

Section DifExt.
Context {C : Crc}.

(** ** Separate metadata *)

Definition dix_guard (data md : option (nat * Z)) (c : dif_ctx) : M pst Z :=
  if has_flag c SPDK_DIF_FLAGS_GUARD_CHECK then
    guard ← guard_of (guard_seed c) data (block_size c) c;
    guard_of guard md (guard_interval c) c
  else mret 0.

Definition dix_generate (data md : dif_sgl) (num_blocks : Z) (c : dif_ctx)
  : M pst (dif_sgl * dif_sgl) :=
  for_blocks (Z.to_nat num_blocks) 0 (fun k '(data, md) =>
    '(db, _) ← _dif_sgl_get_buf data;
    '(mb, _) ← _dif_sgl_get_buf md;
    guard ← dix_guard db mb c;
    _ ← store_mem (ptr_add mb (guard_interval c)) (_dif_generate guard k c);
    mret (_dif_sgl_advance data (block_size c), _dif_sgl_advance md (c_md_size c))) (data, md).

(** The loop over the pieces of a block. *)
Fixpoint dix_pieces (n : nat) (s : dif_sgl) (offset_in_block guard : Z) (c : dif_ctx)
  : M pst (dif_sgl * Z) :=
  if offset_in_block <? block_size c then
    match n with
    | O => out_of_fuel
    | S n' =>
        '(buf, buf_len) ← _dif_sgl_get_buf s;
        let len := Z.min buf_len (u32 (block_size c - offset_in_block)) in
        guard ← (if has_flag c SPDK_DIF_FLAGS_GUARD_CHECK then guard_of guard buf len c
                 else mret guard);
        dix_pieces n' (_dif_sgl_advance s len) (u32 (offset_in_block + len)) guard c
    end
  else mret (s, guard).

(** The guard of a scattered block with its metadata. *)
Definition dix_split_guard (data : dif_sgl) (mb : option (nat * Z)) (c : dif_ctx)
  : M pst (dif_sgl * Z) :=
  '(data, guard) ← dix_pieces (pieces data) data 0 (start_guard c) c;
  guard ← (if has_flag c SPDK_DIF_FLAGS_GUARD_CHECK then guard_of guard mb (guard_interval c) c
           else mret guard);
  mret (data, guard).

Definition _dix_generate_split (data md : dif_sgl) (offset_blocks : Z) (c : dif_ctx)
  : M pst (dif_sgl * dif_sgl) :=
  '(mb, _) ← _dif_sgl_get_buf md;
  '(data, guard) ← dix_split_guard data mb c;
  _ ← store_mem (ptr_add mb (guard_interval c)) (_dif_generate guard offset_blocks c);
  mret (data, _dif_sgl_advance md (c_md_size c)).

Definition dix_generate_split (data md : dif_sgl) (num_blocks : Z) (c : dif_ctx)
  : M pst (dif_sgl * dif_sgl) :=
  for_blocks (Z.to_nat num_blocks) 0 (fun k '(data, md) => _dix_generate_split data md k c) (data, md).

Definition dix_valid (iovs : list iovec) (md_iov : iovec) (num_blocks : Z) (c : dif_ctx) : bool :=
  _dif_sgl_is_valid iovs (u32 (block_size c * num_blocks))
  && _dif_sgl_is_valid [md_iov] (u32 (c_md_size c * num_blocks)).

Definition spdk_dix_generate (iovs : list iovec) (md_iov : iovec) (num_blocks : Z) (c : dif_ctx)
  : M pst Z :=
  if negb (dix_valid iovs md_iov num_blocks c) then mret (- EINVAL)
  else if _dif_is_disabled (dif_type c) then mret 0
  else
    b ← _dif_sgl_is_bytes_multiple iovs (block_size c);
    _ ← (if b : bool
         then dix_generate (_dif_sgl_init iovs) (_dif_sgl_init [md_iov]) num_blocks c
         else dix_generate_split (_dif_sgl_init iovs) (_dif_sgl_init [md_iov]) num_blocks c);
    mret 0.

Definition dix_verify (data md : dif_sgl) (num_blocks : Z) (c : dif_ctx)
  : M pst ((dif_sgl * dif_sgl) + dif_error) :=
  for_blocks_err (Z.to_nat num_blocks) 0 (fun k '(data, md) =>
    '(db, _) ← _dif_sgl_get_buf data;
    '(mb, _) ← _dif_sgl_get_buf md;
    guard ← dix_guard db mb c;
    e ← verify_mem (ptr_add mb (guard_interval c)) guard k c;
    mret (or_error e (_dif_sgl_advance data (block_size c), _dif_sgl_advance md (c_md_size c))))
    (data, md).

Definition _dix_verify_split (data md : dif_sgl) (offset_blocks : Z) (c : dif_ctx)
  : M pst ((dif_sgl * dif_sgl) + dif_error) :=
  '(mb, _) ← _dif_sgl_get_buf md;
  '(data, guard) ← dix_split_guard data mb c;
  e ← verify_mem (ptr_add mb (guard_interval c)) guard offset_blocks c;
  mret (or_error e (data, _dif_sgl_advance md (c_md_size c))).

Definition dix_verify_split (data md : dif_sgl) (num_blocks : Z) (c : dif_ctx)
  : M pst ((dif_sgl * dif_sgl) + dif_error) :=
  for_blocks_err (Z.to_nat num_blocks) 0 (fun k '(data, md) => _dix_verify_split data md k c) (data, md).

Definition spdk_dix_verify (iovs : list iovec) (md_iov : iovec) (num_blocks : Z) (c : dif_ctx)
  : M pst (Z * option dif_error) :=
  if bool_decide (iov_base md_iov = None) then mret (- EINVAL, None)
  else if negb (dix_valid iovs md_iov num_blocks c) then mret (- EINVAL, None)
  else if _dif_is_disabled (dif_type c) then mret (0, None)
  else
    b ← _dif_sgl_is_bytes_multiple iovs (block_size c);
    if b : bool
    then r ← dix_verify (_dif_sgl_init iovs) (_dif_sgl_init [md_iov]) num_blocks c; mret (verdict r)
    else r ← dix_verify_split (_dif_sgl_init iovs) (_dif_sgl_init [md_iov]) num_blocks c;
         mret (verdict r).

(** ** Sizes and streams *)

Definition _to_next_boundary (offset boundary : Z) : Z := u32 (boundary - offset mod boundary).

Definition _to_size_with_md (size data_bsz bsz : Z) : Z :=
  u32 (u32 (size / data_bsz * bsz) + size mod data_bsz).

Definition spdk_dif_get_range_with_md (data_off data_len : Z) (c : dif_ctx) : res (Z * Z) :=
  if negb (md_interleave c) then Ok (data_off, data_len)
  else
    let d := data_block_size c in
    if d =? 0 then UB UB_div0
    else
      let data_unalign := data_off mod d in
      Ok (_to_size_with_md data_off d (block_size c),
          u32 (_to_size_with_md (u32 (data_unalign + data_len)) d (block_size c) - data_unalign)).

Definition spdk_dif_get_length_with_md (data_len : Z) (c : dif_ctx) : res Z :=
  if negb (md_interleave c) then Ok data_len
  else if data_block_size c =? 0 then UB UB_div0
  else Ok (_to_size_with_md data_len (data_block_size c) (block_size c)).

(** Result: the position, buf_offset and buf_len. *)
Definition _dif_sgl_setup_stream (iovs : list iovec) (data_off data_len : Z) (c : dif_ctx)
  : M pst ((dif_sgl * Z * Z) + Z) :=
  let d := data_block_size c in
  if d =? 0 then fail UB_div0
  else
    let data_unalign := data_offset c mod d in
    let buf_len := _to_size_with_md (u32 (u32 (data_unalign + data_off) + data_len)) d (block_size c) in
    let buf_len := u32 (buf_len - data_unalign) in
    if negb (_dif_sgl_is_valid iovs buf_len) then mret (inr (- ERANGE))
    else
      let buf_offset := _to_size_with_md (u32 (data_unalign + data_off)) d (block_size c) in
      let buf_offset := u32 (buf_offset - data_unalign) in
      mret (inl (_dif_sgl_advance (_dif_sgl_init iovs) buf_offset,
                 u32 (buf_offset + data_unalign), u32 (buf_len - buf_offset))).

(** The loop of the stream functions: at most one part per block, and one at
    each end. *)
Fixpoint stream_loop {A} (n : nat) (buf_offset buf_len : Z) (c : dif_ctx)
    (body : Z -> Z -> Z -> A -> M pst (A + dif_error)) (x : A) : M pst (A + dif_error) :=
  if buf_len =? 0 then mret (inl x)
  else match n with
  | O => out_of_fuel
  | S n' =>
      if block_size c =? 0 then fail UB_div0 else
      let len := Z.min buf_len (_to_next_boundary buf_offset (block_size c)) in
      r ← body (buf_offset mod block_size c) len (buf_offset / block_size c) x;
      match r with
      | inl x => stream_loop n' (u32 (buf_offset + len)) (u32 (buf_len - len)) c body x
      | inr e => mret (inr e)
      end
  end.

Definition parts (buf_len : Z) (c : dif_ctx) : nat := S (S (Z.to_nat (buf_len / block_size c))).

(** The guard a stream continues with. *)
Definition stream_guard (c : dif_ctx) : Z :=
  if has_flag c SPDK_DIF_FLAGS_GUARD_CHECK then last_guard c else 0.

Definition keep_guard (guard : Z) (c : dif_ctx) : dif_ctx :=
  if has_flag c SPDK_DIF_FLAGS_GUARD_CHECK then with_last_guard guard c else c.

(** Result: the return code and the context. *)
Definition spdk_dif_generate_stream (iovs : list iovec) (data_off data_len : Z) (c : dif_ctx)
  : M pst (Z * dif_ctx) :=
  if bool_decide (iovs = []) then mret (- EINVAL, c)
  else
    r ← _dif_sgl_setup_stream iovs data_off data_len c;
    match r with
    | inr rc => mret (rc, c)
    | inl (s, buf_offset, buf_len) =>
        r ← stream_loop (parts buf_len c) buf_offset buf_len c
              (fun off len k '(s, guard) =>
                 x ← _dif_generate_split s off len guard k c; mret (inl x))
              (s, stream_guard c);
        match r with
        | inl (_, guard) => mret (0, keep_guard guard c)
        | inr _ => mret (0, c)
        end
    end.

Definition spdk_dif_verify_stream (iovs : list iovec) (data_off data_len : Z) (c : dif_ctx)
  : M pst (Z * option dif_error * dif_ctx) :=
  if bool_decide (iovs = []) then mret (- EINVAL, None, c)
  else
    r ← _dif_sgl_setup_stream iovs data_off data_len c;
    match r with
    | inr rc => mret (rc, None, c)
    | inl (s, buf_offset, buf_len) =>
        r ← stream_loop (parts buf_len c) buf_offset buf_len c
              (fun off len k '(s, guard) => _dif_verify_split s off len guard k c)
              (s, stream_guard c);
        match r with
        | inl (_, guard) => mret (0, None, keep_guard guard c)
        | inr e => mret (-1, Some e, c)
        end
    end.

(** ** The CRC-32C of the data *)

Definition crc32c_of (crc : Z) (buf : option (nat * Z)) (n : Z) : M pst Z :=
  bs ← mem_read buf n; mret (crc32_iscsi crc bs).

Definition dif_update_crc32c (s : dif_sgl) (num_blocks crc : Z) (c : dif_ctx) : M pst (dif_sgl * Z) :=
  for_blocks (Z.to_nat num_blocks) 0 (fun _ '(s, crc) =>
    '(buf, _) ← _dif_sgl_get_buf s;
    crc ← crc32c_of crc buf (data_block_size c);
    mret (_dif_sgl_advance s (block_size c), crc)) (s, crc).

Fixpoint crc32c_pieces (n : nat) (s : dif_sgl) (offset_in_block data_len crc : Z) (c : dif_ctx)
  : M pst (dif_sgl * Z) :=
  if data_len =? 0 then mret (s, crc)
  else match n with
  | O => out_of_fuel
  | S n' =>
      '(buf, buf_len) ← _dif_sgl_get_buf s;
      let len := Z.min buf_len data_len in
      '(len, crc) ←
        (if offset_in_block <? data_block_size c then
           let len := Z.min len (u32 (data_block_size c - offset_in_block)) in
           crc ← crc32c_of crc buf len; mret (len, crc)
         else mret (len, crc));
      crc32c_pieces n' (_dif_sgl_advance s len) (u32 (offset_in_block + len)) (u32 (data_len - len)) crc c
  end.

Definition _dif_update_crc32c_split (s : dif_sgl) (offset_in_block data_len crc : Z) (c : dif_ctx)
  : M pst (dif_sgl * Z) :=
  _ ← c_assert (u32 (offset_in_block + data_len) <=? block_size c);
  crc32c_pieces (pieces s) s offset_in_block data_len crc c.

Definition dif_update_crc32c_split (s : dif_sgl) (num_blocks crc : Z) (c : dif_ctx)
  : M pst (dif_sgl * Z) :=
  for_blocks (Z.to_nat num_blocks) 0 (fun _ '(s, crc) =>
    _dif_update_crc32c_split s 0 (block_size c) crc c) (s, crc).

(** [crc]: what _crc32c points to; result: the return code and its new value. *)
Definition spdk_dif_update_crc32c (iovs : list iovec) (num_blocks : Z) (crc : option Z) (c : dif_ctx)
  : M pst (Z * option Z) :=
  match crc with
  | None => mret (- EINVAL, None)
  | Some x =>
      if negb (_dif_sgl_is_valid iovs (u32 (block_size c * num_blocks))) then mret (- EINVAL, crc)
      else
        b ← _dif_sgl_is_bytes_multiple iovs (block_size c);
        '(_, x) ← (if b : bool then dif_update_crc32c (_dif_sgl_init iovs) num_blocks x c
                   else dif_update_crc32c_split (_dif_sgl_init iovs) num_blocks x c);
        mret (0, Some x)
  end.

Definition spdk_dif_update_crc32c_stream (iovs : list iovec) (data_off data_len crc : Z) (c : dif_ctx)
  : M pst (Z * Z) :=
  if bool_decide (iovs = []) then mret (- EINVAL, crc)
  else
    r ← _dif_sgl_setup_stream iovs data_off data_len c;
    match r with
    | inr rc => mret (rc, crc)
    | inl (s, buf_offset, buf_len) =>
        r ← stream_loop (parts buf_len c) buf_offset buf_len c
              (fun off len _ '(s, crc) =>
                 x ← _dif_update_crc32c_split s off len crc c; mret (inl x)) (s, crc);
        match r with inl (_, crc) => mret (0, crc) | inr _ => mret (0, crc) end
    end.

(** ** Replacement of reference tags *)

(** The 32-bit sum of the remapped tag. *)
Definition remapped_tag (offset_blocks : Z) (c : dif_ctx) : Z :=
  if bool_decide (dif_type c = SPDK_DIF_TYPE3) then remapped_init_ref_tag c
  else u32 (remapped_init_ref_tag c + ref_tag_offset c + offset_blocks).

(** What is expected in the field; 0 for type 3. *)
Definition expected_tag (offset_blocks : Z) (c : dif_ctx) : Z :=
  if bool_decide (dif_type c = SPDK_DIF_TYPE3) then 0
  else u64 (init_ref_tag c + ref_tag_offset c + offset_blocks).

(** The loops over the pieces of a DIF field. *)
Fixpoint field_pieces {A} (n : nat) (s : dif_sgl) (offset : Z) (c : dif_ctx)
    (f : option (nat * Z) -> Z -> Z -> A -> M pst A) (x : A) : M pst (dif_sgl * A) :=
  let size := _dif_size (dif_pi_format c) in
  if offset <? size then
    match n with
    | O => out_of_fuel
    | S n' =>
        '(buf, buf_len) ← _dif_sgl_get_buf s;
        let len := Z.min buf_len (size - offset) in
        x ← f buf offset len x;
        field_pieces n' (_dif_sgl_advance s len) (u32 (offset + len)) c f x
    end
  else mret (s, x).

Definition _dif_remap_ref_tag (s : dif_sgl) (offset_blocks : Z) (c : dif_ctx) (check : bool)
  : M pst (dif_sgl + dif_error) :=
  let s := _dif_sgl_advance s (guard_interval c) in
  let tmp := s in
  '(s, dif) ← field_pieces (pieces s) s 0 c get_piece (dif_zero c);
  let skip := u32 (block_size c - guard_interval c - _dif_size (dif_pi_format c)) in
  if _dif_ignore dif c then mret (inl (_dif_sgl_advance s skip))
  else
    match (if check then _dif_reftag_check dif c (expected_tag offset_blocks c) offset_blocks
           else None) with
    | Some e => mret (inr e)
    | None =>
        let dif := store_var [_dif_set_reftag (remapped_tag offset_blocks c) (dif_pi_format c)] dif in
        _ ← field_pieces (pieces tmp) tmp 0 c (put_piece dif) tt;
        mret (inl (_dif_sgl_advance s skip))
    end.

Definition spdk_dif_remap_ref_tag (iovs : list iovec) (num_blocks : Z) (c : dif_ctx) (check : bool)
  : M pst (Z * option dif_error) :=
  if negb (_dif_sgl_is_valid iovs (u32 (block_size c * num_blocks))) then mret (- EINVAL, None)
  else if _dif_is_disabled (dif_type c) then mret (0, None)
  else if negb (has_flag c SPDK_DIF_FLAGS_REFTAG_CHECK) then mret (0, None)
  else
    r ← for_blocks_err (Z.to_nat num_blocks) 0 (fun k s => _dif_remap_ref_tag s k c check)
          (_dif_sgl_init iovs);
    mret (verdict r).

Definition _dix_remap_ref_tag (md : dif_sgl) (offset_blocks : Z) (c : dif_ctx) (check : bool)
  : M pst (dif_sgl + dif_error) :=
  '(mb, _) ← _dif_sgl_get_buf md;
  let ptr := ptr_add mb (guard_interval c) in
  dif ← mem_read ptr (_dif_size (dif_pi_format c));
  if _dif_ignore dif c then mret (inl (_dif_sgl_advance md (c_md_size c)))
  else
    match (if check then _dif_reftag_check dif c (expected_tag offset_blocks c) offset_blocks
           else None) with
    | Some e => mret (inr e)
    | None =>
        _ ← store_mem ptr [_dif_set_reftag (remapped_tag offset_blocks c) (dif_pi_format c)];
        mret (inl (_dif_sgl_advance md (c_md_size c)))
    end.

Definition spdk_dix_remap_ref_tag (md_iov : iovec) (num_blocks : Z) (c : dif_ctx) (check : bool)
  : M pst (Z * option dif_error) :=
  if negb (_dif_sgl_is_valid [md_iov] (u32 (c_md_size c * num_blocks))) then mret (- EINVAL, None)
  else if _dif_is_disabled (dif_type c) then mret (0, None)
  else if negb (has_flag c SPDK_DIF_FLAGS_REFTAG_CHECK) then mret (0, None)
  else
    r ← for_blocks_err (Z.to_nat num_blocks) 0 (fun k s => _dix_remap_ref_tag s k c check)
          (_dif_sgl_init [md_iov]);
    mret (verdict r).

(** ** Injection of errors *)

Definition _bit_flip (buf : option (nat * Z)) (bit : Z) : M pst unit :=
  bs ← mem_read buf 1;
  match bs with
  | [b] => mem_write buf [Z.land (Z.lxor b (Z.shiftl 1 bit)) 0xFF]
  | _ => fail UB_bounds
  end.

Fixpoint inject_pieces (n : nat) (s : dif_sgl) (bsz offset_in_block bytes bits : Z) : M pst (dif_sgl * Z) :=
  if offset_in_block <? bsz then
    match n with
    | O => out_of_fuel
    | S n' =>
        '(buf, buf_len) ← _dif_sgl_get_buf s;
        let len := Z.min buf_len (u32 (bsz - offset_in_block)) in
        if (offset_in_block <=? bytes) && (bytes <? u32 (offset_in_block + len)) then
          _ ← _bit_flip (ptr_add buf (bytes - offset_in_block)) bits; mret (s, 0)
        else inject_pieces n' (_dif_sgl_advance s len) bsz (u32 (offset_in_block + len)) bytes bits
    end
  else mret (s, -1).

(** The position is not set back for the next injection. *)
Definition _dif_inject_error (s : dif_sgl) (bsz blocks bytes bits : Z) : M pst (dif_sgl * Z) :=
  let s := _dif_sgl_advance s (u32 (bsz * blocks)) in
  inject_pieces (pieces s) s bsz 0 bytes bits.

(** The loop over the blocks ends at the one that was drawn.  [r]: the results
    of rand(). *)
Definition dif_inject_error (s : dif_sgl) (bsz num_blocks start range : Z) (r : Z * Z * Z)
    (inject_offset : Z) : M pst (dif_sgl * Z * Z) :=
  let '(r1, r2, r3) := r in
  if (num_blocks =? 0) || (range =? 0) then fail UB_div0
  else
    let blocks := r1 mod num_blocks in
    '(s, rc) ← _dif_inject_error s bsz blocks (u32 (start + r2 mod range)) (r3 mod 8);
    mret (s, rc, if rc =? 0 then blocks else inject_offset).

(** One kind of error; the ones before it may have failed. *)
Definition inject_step (flag flags : Z) (s : dif_sgl) (bsz num_blocks start range : Z) (r : Z * Z * Z)
    (st : Z * Z) : M pst (dif_sgl * (Z * Z)) :=
  let '(rc, off) := st in
  if (rc =? 0) && negb (Z.land flags flag =? 0) then
    '(s, rc, off) ← dif_inject_error s bsz num_blocks start range r off; mret (s, (rc, off))
  else mret (s, (rc, off)).

(** Result: the return code and inject_offset. *)
Definition spdk_dif_inject_error (iovs : list iovec) (num_blocks : Z) (c : dif_ctx) (flags : Z)
    (rand : nat -> Z * Z * Z) (inject_offset : Z) : M pst (Z * Z) :=
  let f := dif_pi_format c in
  let b := block_size c in
  let g := guard_interval c in
  if negb (_dif_sgl_is_valid iovs (u32 (b * num_blocks))) then mret (- EINVAL, inject_offset)
  else
    '(s, st) ← inject_step SPDK_DIF_REFTAG_ERROR flags (_dif_sgl_init iovs) b num_blocks
                 (u32 (g + _dif_reftag_offset f)) (_dif_reftag_size f) (rand 0%nat) (0, inject_offset);
    '(s, st) ← inject_step SPDK_DIF_APPTAG_ERROR flags s b num_blocks
                 (u32 (g + _dif_apptag_offset f)) _dif_apptag_size (rand 1%nat) st;
    '(s, st) ← inject_step SPDK_DIF_GUARD_ERROR flags s b num_blocks g (_dif_guard_size f) (rand 2%nat) st;
    '(s, st) ← inject_step SPDK_DIF_DATA_ERROR flags s b num_blocks 0 (data_block_size c) (rand 3%nat) st;
    mret st.

Definition spdk_dix_inject_error (iovs : list iovec) (md_iov : iovec) (num_blocks : Z) (c : dif_ctx)
    (flags : Z) (rand : nat -> Z * Z * Z) (inject_offset : Z) : M pst (Z * Z) :=
  let f := dif_pi_format c in
  let m := c_md_size c in
  let g := guard_interval c in
  if negb (dix_valid iovs md_iov num_blocks c) then mret (- EINVAL, inject_offset)
  else
    '(s, st) ← inject_step SPDK_DIF_REFTAG_ERROR flags (_dif_sgl_init [md_iov]) m num_blocks
                 (u32 (g + _dif_reftag_offset f)) (_dif_reftag_size f) (rand 0%nat) (0, inject_offset);
    '(s, st) ← inject_step SPDK_DIF_APPTAG_ERROR flags s m num_blocks
                 (u32 (g + _dif_apptag_offset f)) _dif_apptag_size (rand 1%nat) st;
    '(s, st) ← inject_step SPDK_DIF_GUARD_ERROR flags s m num_blocks g (_dif_guard_size f) (rand 2%nat) st;
    '(_, st) ← inject_step SPDK_DIF_DATA_ERROR flags (_dif_sgl_init iovs) (block_size c) num_blocks 0
                 (block_size c) (rand 3%nat) st;
    mret st.

(** ** The iovecs of the data between the metadata *)

(** Whether there is room for another iovec. *)
Definition _dif_sgl_append (d : dif_dst) (data : option (nat * Z)) (len : Z) : M pst (dif_dst * bool) :=
  _ ← c_assert (0 <? dst_room d);
  mret (Dst (dst_iovs d ++ [Iov data len]) (dst_room d - 1) (u32 (total_size d + len)),
        0 <? dst_room d - 1).

Fixpoint append_pieces (n : nat) (d : dif_dst) (s : dif_sgl) (data_len : Z)
  : M pst (dif_dst * dif_sgl * bool) :=
  if data_len =? 0 then mret (d, s, true)
  else match n with
  | O => out_of_fuel
  | S n' =>
      '(buf, buf_len) ← _dif_sgl_get_buf s;
      let len := Z.min buf_len data_len in
      '(d, more) ← _dif_sgl_append d buf len;
      if negb (more : bool) then mret (d, s, false)
      else append_pieces n' d (_dif_sgl_advance s len) (u32 (data_len - len))
  end.

Definition _dif_sgl_append_split (d : dif_dst) (s : dif_sgl) (data_len : Z)
  : M pst (dif_dst * dif_sgl * bool) := append_pieces (pieces s) d s data_len.

(** One part per block, and one at each end. *)
Fixpoint interleave_loop (n : nat) (d : dif_dst) (s : dif_sgl) (data_off data_len : Z) (c : dif_ctx)
  : M pst dif_dst :=
  if data_len =? 0 then mret d
  else match n with
  | O => out_of_fuel
  | S n' =>
      let len := Z.min data_len (_to_next_boundary (u32 (data_offset c + data_off)) (data_block_size c)) in
      '(d, s, more) ← _dif_sgl_append_split d s len;
      if negb (more : bool) then mret d
      else interleave_loop n' d (_dif_sgl_advance s (c_md_size c)) (u32 (data_off + len))
             (u32 (data_len - len)) c
  end.

(** [iovcnt]: the room in the array that is created.  Result: the number of
    iovecs or an error, the iovecs, and the mapped length. *)
Definition spdk_dif_set_md_interleave_iovs (iovcnt : Z) (buf_iovs : list iovec) (data_off data_len : Z)
    (c : dif_ctx) : M pst (Z * list iovec * Z) :=
  if (iovcnt =? 0) || bool_decide (buf_iovs = []) then mret (- EINVAL, [], 0)
  else
    let d := data_block_size c in
    if d =? 0 then fail UB_div0
    else
      let data_unalign := data_offset c mod d in
      let buf_len := _to_size_with_md (u32 (u32 (data_unalign + data_off) + data_len)) d (block_size c) in
      let buf_len := u32 (buf_len - data_unalign) in
      if negb (_dif_sgl_is_valid buf_iovs buf_len) then mret (- ERANGE, [], 0)
      else
        let buf_offset := _to_size_with_md (u32 (data_unalign + data_off)) d (block_size c) in
        let buf_offset := u32 (buf_offset - data_unalign) in
        r ← interleave_loop (S (S (Z.to_nat (data_len / d)))) (Dst [] iovcnt 0)
              (_dif_sgl_advance (_dif_sgl_init buf_iovs) buf_offset) data_off data_len c;
        mret (iovcnt - dst_room r, dst_iovs r, total_size r).

End DifExt.
