(* ===== verification/DifMem.v ===== *)
(** * Scattered memory as one list of bytes

    The bytes of an array of iovecs in order; a position of the walk of dif.c in
    them; what a read or a write at a position does to them.  The arrays of a
    call do not overlap. *)

From S2P Require Import Prelude Pipe PipeLemmas IovLemmas Dif.

(** ** Parts of a list *)

Definition slice (F : list Z) (p n : Z) : list Z := take (Z.to_nat n) (drop (Z.to_nat p) F).
Definition splice (p : Z) (bs F : list Z) : list Z := overwrite (Z.to_nat p) bs F.

(** The length of a list, as an integer. *)
Definition zlen (l : list Z) : Z := Z.of_nat (length l).

Lemma slice_lookup F p n i :
  slice F p n !! i = if decide (i < Z.to_nat n)%nat then F !! (Z.to_nat p + i)%nat else None.
Proof.
  unfold slice. destruct (decide _) as [H|H].
  - by rewrite lookup_take_lt, lookup_drop by done.
  - apply lookup_take_ge. lia.
Qed.

Lemma splice_lookup p bs F i :
  0 <= p -> p + zlen bs <= zlen F ->
  splice p bs F !! i =
    if decide (Z.to_nat p <= i < Z.to_nat p + length bs)%nat then bs !! (i - Z.to_nat p)%nat else F !! i.
Proof.
  intros Hp Hl. unfold splice, zlen in *. destruct (decide _) as [H|H].
  - apply overwrite_in; lia.
  - apply overwrite_out; lia.
Qed.

Lemma slice_zlen F p n : 0 <= p -> 0 <= n -> p + n <= zlen F -> zlen (slice F p n) = n.
Proof. intros Hp Hn Hl. unfold zlen, slice in *. rewrite length_take, length_drop. lia. Qed.

Lemma splice_zlen p bs F : 0 <= p -> p + zlen bs <= zlen F -> zlen (splice p bs F) = zlen F.
Proof. intros Hp Hl. unfold zlen, splice in *. rewrite overwrite_length; lia. Qed.

Lemma zlen_app a b : zlen (a ++ b) = zlen a + zlen b.
Proof. unfold zlen. rewrite length_app. lia. Qed.

Lemma zlen_nonneg l : 0 <= zlen l.
Proof. unfold zlen. lia. Qed.

#[local] Hint Resolve zlen_nonneg : core.

Lemma slice_app F p n1 n2 :
  0 <= p -> 0 <= n1 -> 0 <= n2 -> slice F p (n1 + n2) = slice F p n1 ++ slice F (p + n1) n2.
Proof.
  intros Hp H1 H2. unfold slice. replace (Z.to_nat (n1 + n2)) with (Z.to_nat n1 + Z.to_nat n2)%nat by lia.
  rewrite <- take_take_drop, drop_drop. do 3 f_equal. lia.
Qed.

Lemma slice_slice F p n q k :
  0 <= p -> 0 <= q -> 0 <= k -> q + k <= n -> slice (slice F p n) q k = slice F (p + q) k.
Proof.
  intros Hp Hq Hk Hn. apply list_eq. intros i. rewrite !slice_lookup. repeat case_decide; try lia; [|done].
  f_equal. lia.
Qed.

Lemma slice_all F : slice F 0 (zlen F) = F.
Proof. unfold slice, zlen. rewrite drop_0, take_ge; [done|lia]. Qed.

Lemma slice_nil F p : slice F p 0 = [].
Proof. done. Qed.

Lemma slice_splice_out p bs F q n :
  0 <= p -> p + zlen bs <= zlen F -> 0 <= q -> q + n <= p \/ p + zlen bs <= q ->
  slice (splice p bs F) q n = slice F q n.
Proof.
  intros Hp Hl Hq Ho. apply list_eq. intros i. rewrite !slice_lookup. case_decide; [|done].
  rewrite splice_lookup by done. unfold zlen in *. case_decide; [lia|done].
Qed.

Lemma slice_splice_in p bs F q n :
  0 <= p -> p + zlen bs <= zlen F -> p <= q -> 0 <= n -> q + n <= p + zlen bs ->
  slice (splice p bs F) q n = slice bs (q - p) n.
Proof.
  intros Hp Hl Hq Hn Hle. apply list_eq. intros i. rewrite !slice_lookup. case_decide; [|done].
  rewrite splice_lookup by done. unfold zlen in *. case_decide; [|lia]. f_equal. lia.
Qed.

Lemma slice_splice_same p bs F :
  0 <= p -> p + zlen bs <= zlen F -> slice (splice p bs F) p (zlen bs) = bs.
Proof.
  intros Hp Hl. rewrite slice_splice_in by (done || lia). rewrite Z.sub_diag. apply slice_all.
Qed.

Lemma slice_splice_eq p bs F n :
  0 <= p -> zlen bs = n -> p + n <= zlen F -> slice (splice p bs F) p n = bs.
Proof. intros Hp <- Hl. by apply slice_splice_same. Qed.

Lemma splice_app p a b F :
  0 <= p -> p + zlen (a ++ b) <= zlen F ->
  splice (p + zlen a) b (splice p a F) = splice p (a ++ b) F.
Proof.
  intros Hp Hl. unfold splice, zlen in *. rewrite length_app in Hl.
  replace (Z.to_nat (p + Z.of_nat (length a))) with (Z.to_nat p + length a)%nat by lia.
  apply overwrite_app. lia.
Qed.

Lemma splice_nil p F : 0 <= p -> splice p [] F = F.
Proof. intros Hp. unfold splice, overwrite. cbn. rewrite Nat.add_0_r. apply take_drop. Qed.

Lemma splice_whole a F : zlen a = zlen F -> splice 0 a F = a.
Proof.
  intros H. unfold splice, overwrite, zlen in *. rewrite drop_ge by lia. cbn. apply app_nil_r.
Qed.

(** A write inside a part is a write of the whole part. *)
Lemma splice_part q o b F n :
  0 <= q -> 0 <= o -> o + zlen b <= n -> q + n <= zlen F ->
  splice (q + o) b F = splice q (splice o b (slice F q n)) F.
Proof.
  intros Hq Ho Hb Hn. pose proof (zlen_nonneg b).
  assert (Hs : zlen (slice F q n) = n) by (apply slice_zlen; lia).
  assert (Hs2 : zlen (splice o b (slice F q n)) = n) by (rewrite splice_zlen; lia).
  apply list_eq. intros i. rewrite !splice_lookup by lia. rewrite slice_lookup. unfold zlen in *.
  repeat case_decide; first [lia | done | f_equal; lia].
Qed.

Lemma splice_slice q n F : 0 <= q -> 0 <= n -> q + n <= zlen F -> splice q (slice F q n) F = F.
Proof.
  intros Hq Hn Hl. assert (Hs : zlen (slice F q n) = n) by (apply slice_zlen; lia).
  apply list_eq. intros i. rewrite splice_lookup by lia. case_decide; [|done].
  rewrite slice_lookup. unfold zlen in *. case_decide; [|lia]. f_equal. lia.
Qed.

Lemma splice_twice q a b F :
  0 <= q -> zlen a = zlen b -> q + zlen a <= zlen F -> splice q b (splice q a F) = splice q b F.
Proof.
  intros Hq Hab Hl. apply list_eq. intros i. rewrite !splice_lookup by (rewrite ?splice_zlen; lia).
  unfold zlen in *. repeat case_decide; lia || done.
Qed.

Lemma splice_comm p a q b F :
  0 <= p -> 0 <= q -> p + zlen a <= q -> q + zlen b <= zlen F ->
  splice p a (splice q b F) = splice q b (splice p a F).
Proof.
  intros Hp Hq Hpq Hl. pose proof (zlen_nonneg b). apply list_eq. intros i.
  rewrite !splice_lookup by (rewrite ?splice_zlen; lia). unfold zlen in *. repeat case_decide; lia || done.
Qed.

(** ** Arrays that do not overlap *)

Definition sep (v w : iovec) : Prop :=
  iov_len v = 0 \/ iov_len w = 0 \/
  match iov_base v, iov_base w with
  | Some (b, o), Some (b', o') => b <> b' \/ o + iov_len v <= o' \/ o' + iov_len w <= o
  | _, _ => True
  end.

Lemma sep_sym v w : sep v w -> sep w v.
Proof.
  unfold sep. destruct (iov_base v) as [[b o]|], (iov_base w) as [[b' o']|]; naive_solver.
Qed.

(** Every element of one array is apart from every element of the other. *)
Definition disj (vs ws : list iovec) : Prop := Forall (fun v => Forall (sep v) ws) vs.

Record iov_ok (m : gmap nat (list Z)) (vs : list iovec) : Prop := {
  io_fits_ : fits m vs;
  io_len : Forall (fun v => iov_len v < 2 ^ 32) vs;
  io_apart : ForallOrdPairs sep vs }.

Definition same_shape (m m' : gmap nat (list Z)) : Prop :=
  forall b, length <$> m' !! b = length <$> m !! b.

(** A program that works on [vs] may have changed [m] to [m']. *)
Record changed (vs : list iovec) (m m' : gmap nat (list Z)) : Prop := {
  ch_shape : same_shape m m';
  ch_frame : forall w, 0 <= iov_len w -> in_range m (iov_base w) (iov_len w) -> Forall (fun v => sep v w) vs ->
    peek m' (iov_base w) (iov_len w) = peek m (iov_base w) (iov_len w) }.

Lemma range_shape m m' ptr n : same_shape m m' -> in_range m ptr n -> in_range m' ptr n.
Proof.
  intros Hs (b & off & l & -> & Hl & Ho & Hr). specialize (Hs b). rewrite Hl in Hs. cbn in Hs.
  destruct (m' !! b) as [l'|] eqn:E; [|done]. injection Hs as Hs. exists b, off, l'.
  split_and!; (done || lia).
Qed.

Lemma fits_shape m m' vs : same_shape m m' -> fits m vs -> fits m' vs.
Proof.
  intros Hs Hf. eapply Forall_impl; [exact Hf|]. intros v [?|[? ?]]; [by left|right].
  split; [done|]. by eapply range_shape.
Qed.

Lemma iov_ok_changed ws m m' vs : changed ws m m' -> iov_ok m vs -> iov_ok m' vs.
Proof. intros [Hs _] [H1 H2 H3]. constructor; [by eapply fits_shape|done|done]. Qed.

Lemma changed_refl vs m : changed vs m m.
Proof. by constructor. Qed.

Lemma changed_trans vs m1 m2 m3 : changed vs m1 m2 -> changed vs m2 m3 -> changed vs m1 m3.
Proof.
  intros [S1 F1] [S2 F2]. constructor; [intros b; by rewrite S2|].
  intros w Hw Hr Hd. rewrite F2; [by apply F1|done|by eapply range_shape|done].
Qed.

Lemma changed_bytes vs m m' ws :
  changed vs m m' -> fits m ws -> disj vs ws -> iov_bytes m' ws = iov_bytes m ws.
Proof.
  intros [_ Hf] Hfit Hd. unfold iov_bytes. f_equal. apply map_ext_in. intros w Hw%list_elem_of_In.
  unfold fits in Hfit. rewrite Forall_forall in Hfit. destruct (Hfit w Hw) as [H0|[Hp Hr]].
  - rewrite H0. unfold peek. destruct (iov_base w) as [[b o]|]; [|done]. by rewrite !take_0.
  - apply Hf; [lia|done|]. eapply Forall_impl; [exact Hd|]. cbn. intros v Hv.
    by apply Forall_forall with (x := w) in Hv.
Qed.

Lemma bytes_zlen m vs : fits m vs -> zlen (iov_bytes m vs) = iov_total vs.
Proof.
  unfold iov_bytes, iov_total. induction 1 as [|v vs Hv _ IH]; [done|]. cbn [map concat].
  rewrite zlen_app, IH, zsum_cons. f_equal. unfold zlen. destruct Hv as [Hv|[Hv Hr]].
  - rewrite Hv. unfold peek. by destruct (iov_base v) as [[b o]|].
  - rewrite peek_length by (done || lia). lia.
Qed.

Lemma bytes_app m vs ws : iov_bytes m (vs ++ ws) = iov_bytes m vs ++ iov_bytes m ws.
Proof. unfold iov_bytes. by rewrite map_app, concat_app. Qed.

Lemma total_app vs ws : iov_total (vs ++ ws) = iov_total vs + iov_total ws.
Proof. unfold iov_total. by rewrite map_app, zsum_app. Qed.

Lemma total_cons v vs : iov_total (v :: vs) = iov_len v + iov_total vs.
Proof. unfold iov_total. cbn [map]. by rewrite zsum_cons. Qed.

(** ** One access *)

Lemma peek_slice m b o n : peek m (Some (b, o)) n = slice (default [] (m !! b)) o n.
Proof. done. Qed.

(** A part of an element. *)
Lemma peek_part m v o n :
  0 <= o -> 0 <= n -> o + n <= iov_len v -> in_range m (iov_base v) (iov_len v) ->
  peek m (ptr_add (iov_base v) o) n = slice (peek m (iov_base v) (iov_len v)) o n.
Proof.
  intros Ho Hn Hl (b & off & l & -> & Hb & Hoff & Hr). cbn [ptr_add mbind option_bind].
  rewrite !peek_slice, slice_slice by lia. done.
Qed.

Lemma poke_shape m ptr bs : bs = [] \/ in_range m ptr (zlen bs) -> same_shape m (poke ptr bs m).
Proof.
  intros Hw b. destruct bs as [|x bs]; [done|]. destruct Hw as [[=]|(c & o & l & -> & Hl & Ho & Hr)].
  cbn [poke]. destruct (decide (c = b)) as [->|].
  - rewrite lookup_alter_eq, Hl. cbn. f_equal. apply overwrite_length. unfold zlen in Hr. lia.
  - by rewrite lookup_alter_ne.
Qed.

Lemma poke_frame m b o bs w :
  in_range m (Some (b, o)) (zlen bs) -> 0 <= iov_len w -> in_range m (iov_base w) (iov_len w) ->
  sep (Iov (Some (b, o)) (zlen bs)) w ->
  peek (poke (Some (b, o)) bs m) (iov_base w) (iov_len w) = peek m (iov_base w) (iov_len w).
Proof.
  intros (b0 & o0 & l & [= <- <-] & Hl & Ho & Hr) Hw (c & oc & k & Hb & Hc & Hoc & Hrc) Hs.
  destruct bs as [|x bs]; [done|]. destruct (Z.eq_dec (iov_len w) 0) as [->|Hn].
  { rewrite Hb. unfold peek. by rewrite !take_0. }
  destruct Hs as [Hs|[Hs|Hs]]; [unfold zlen in Hs; cbn in Hs; lia|lia|]. cbn in Hs. rewrite Hb in *.
  rewrite !peek_slice. cbn [poke]. destruct (decide (b = c)) as [->|].
  - rewrite lookup_alter_eq, Hl. cbn [fmap option_fmap option_map default id]. unfold id.
    apply (slice_splice_out o (x :: bs) l); [done|done|done|]. destruct Hs as [|[|]]; [done|lia|lia].
  - by rewrite lookup_alter_ne.
Qed.

Lemma poke_part m v o bs :
  0 <= o -> o + zlen bs <= iov_len v -> in_range m (iov_base v) (iov_len v) ->
  peek (poke (ptr_add (iov_base v) o) bs m) (iov_base v) (iov_len v)
  = splice o bs (peek m (iov_base v) (iov_len v)).
Proof.
  intros Ho Hb (b & off & l & -> & Hl & Hoff & Hr). cbn [ptr_add mbind option_bind].
  destruct bs as [|x bs]; [by rewrite splice_nil|]. cbn [poke]. rewrite !peek_slice, lookup_alter_eq, Hl.
  cbn [fmap option_fmap option_map default id]. unfold id. change (overwrite (Z.to_nat (off + o)) (x :: bs) l)
    with (splice (off + o) (x :: bs) l).
  assert (0 <= zlen (x :: bs)) by apply zlen_nonneg.
  rewrite (splice_part off o (x :: bs) l (iov_len v)) by (unfold zlen in *; lia).
  assert (Hs : zlen (slice l off (iov_len v)) = iov_len v) by (apply slice_zlen; unfold zlen; lia).
  assert (Hs2 : zlen (splice o (x :: bs) (slice l off (iov_len v))) = iov_len v)
    by (rewrite splice_zlen; lia).
  apply slice_splice_eq; [done|done|]. unfold zlen in *. lia.
Qed.

(** ** Positions *)

Lemma slice_mid A B D o n :
  0 <= o -> 0 <= n -> o + n <= zlen B -> slice (A ++ B ++ D) (zlen A + o) n = slice B o n.
Proof.
  intros Ho Hn Hl. apply list_eq. intros i. rewrite !slice_lookup. case_decide; [|done]. unfold zlen in *.
  rewrite lookup_app_r, lookup_app_l by lia. f_equal. lia.
Qed.

Lemma splice_mid A B D o bs :
  0 <= o -> o + zlen bs <= zlen B -> splice (zlen A + o) bs (A ++ B ++ D) = A ++ splice o bs B ++ D.
Proof.
  intros Ho Hl. unfold splice, overwrite, zlen in *.
  replace (Z.to_nat (Z.of_nat (length A) + o)) with (length A + Z.to_nat o)%nat by lia.
  rewrite take_app_add, <- Nat.add_assoc, drop_app_add, take_app_le, drop_app_le by lia.
  by rewrite <- !app_assoc.
Qed.

(** The walk [s] of [vs] is at byte [p]. *)
Definition at_pos (vs : list iovec) (s : dif_sgl) (p : Z) : Prop :=
  exists pre, vs = pre ++ sgl_iov s /\ p = iov_total pre + iov_offset s /\
    match sgl_iov s with
    | [] => iov_offset s = 0
    | v :: _ => iov_offset s = 0 \/ 0 <= iov_offset s < iov_len v
    end.

(** The walk is not at an empty element. *)
Definition settled (s : dif_sgl) : Prop :=
  match sgl_iov s with [] => True | v :: _ => iov_offset s < iov_len v end.

(** The pointer to the current byte, and the bytes left in the element. *)
Definition cur (s : dif_sgl) : option (nat * Z) :=
  match sgl_iov s with [] => None | v :: _ => ptr_add (iov_base v) (iov_offset s) end.
Definition room (s : dif_sgl) : Z :=
  match sgl_iov s with [] => 0 | v :: _ => iov_len v - iov_offset s end.

Lemma fits_len m vs v : fits m vs -> v ∈ vs -> 0 <= iov_len v.
Proof. intros H Hv. unfold fits in H. rewrite Forall_forall in H. destruct (H v Hv) as [?|[? _]]; lia. Qed.

Lemma at_pos_bounds m vs s p :
  fits m vs -> at_pos vs s p -> 0 <= p /\ p + room s <= iov_total vs /\ 0 <= room s.
Proof.
  intros Hf (pre & -> & -> & Hh). apply Forall_app in Hf as [H1 H2].
  pose proof (total_nonneg m pre H1). rewrite total_app. unfold room. destruct (sgl_iov s) as [|v l] eqn:E.
  - change (iov_total []) with 0. lia.
  - assert (0 <= iov_len v) by (apply (fits_len m (v :: l)); [done|set_solver]).
    apply Forall_cons in H2 as [_ H2]. pose proof (total_nonneg m l H2). rewrite total_cons. lia.
Qed.

Lemma get_buf_ok m vs s p st :
  iov_ok m vs -> at_pos vs s p -> p < iov_total vs ->
  _dif_sgl_get_buf s st = Ok ((cur s, room s), st).
Proof.
  intros [Hf Hl _] (pre & -> & -> & Hh) Hp. rewrite total_app in Hp.
  unfold _dif_sgl_get_buf, cur, room. destruct (sgl_iov s) as [|v l] eqn:E; [change (iov_total []) with 0 in Hp; lia|].
  rewrite Forall_app, Forall_cons in Hl. destruct Hl as (_ & Hl & _). cbn in Hl.
  assert (Hv : 0 <= iov_len v) by (apply (fits_len _ _ v Hf); set_solver).
  rewrite wrap_small by lia. done.
Qed.

(** The elements from the first one that is not empty on. *)
Lemma advance_skip m l :
  fits m l ->
  exists e l', l = e ++ l' /\ advance_loop l 0 = Sgl l' 0 /\ iov_total e = 0 /\
    match l' with [] => True | v :: _ => 0 < iov_len v end.
Proof.
  induction 1 as [|v l Hv _ IH]; [by exists [], []|]. cbn [advance_loop]. destruct (Z.ltb_spec 0 (iov_len v)).
  - by exists [], (v :: l).
  - destruct IH as (e & l' & -> & E & He & Hl). assert (iov_len v = 0) as Hz by lia.
    exists (v :: e), l'. rewrite Hz. change (u32 (0 - 0)) with 0. rewrite total_cons. split_and!; (done || lia).
Qed.

Lemma advance_ok m vs s p n :
  iov_ok m vs -> at_pos vs s p -> p < iov_total vs -> 0 <= n <= room s ->
  let s' := _dif_sgl_advance s n in
  at_pos vs s' (p + n) /\ settled s' /\
  (length (sgl_iov s') <= length (sgl_iov s))%nat /\
  (n = room s -> (length (sgl_iov s') < length (sgl_iov s))%nat).
Proof.
  intros [Hf Hl _] (pre & -> & -> & Hh) Hp Hn. rewrite total_app in Hp. destruct s as [[|v l] off]; cbn [sgl_iov iov_offset room] in *; [change (iov_total []) with 0 in Hp; lia|].
  rewrite Forall_app, Forall_cons in Hl. destruct Hl as (_ & Hl & _).
  unfold _dif_sgl_advance. cbn [sgl_iov iov_offset]. rewrite wrap_small by lia.
  cbn [advance_loop]. destruct (Z.ltb_spec (off + n) (iov_len v)).
  { split_and!; [|done|done|cbn; lia]. exists pre. cbn. split_and!; [done|lia|lia]. }
  replace (off + n - iov_len v) with 0 by lia. change (u32 0) with 0.
  apply Forall_app in Hf as [_ [_ Hf]%Forall_cons].
  destruct (advance_skip m l Hf) as (e & l' & -> & -> & He & Hl').
  split_and!; cbn; [| |rewrite length_app; lia|rewrite length_app; lia].
  - exists (pre ++ v :: e). cbn. rewrite <- app_assoc. split_and!; [done|rewrite total_app, total_cons; lia|].
    destruct l'; [done|]. by left.
  - unfold settled. by destruct l'.
Qed.

(** ** Reads and writes at a position *)

Lemma ptr_add_add ptr a b : ptr_add (ptr_add ptr a) b = ptr_add ptr (a + b).
Proof. destruct ptr as [[c o]|]; cbn; [|done]. do 2 f_equal. lia. Qed.

(** The element a position is in, between the ones before and behind it. *)
Lemma at_pos_split m vs s p :
  fits m vs -> at_pos vs s p -> 0 < room s ->
  exists pre v post, vs = pre ++ v :: post /\ cur s = ptr_add (iov_base v) (iov_offset s) /\
    room s = iov_len v - iov_offset s /\ p = iov_total pre + iov_offset s /\
    0 <= iov_offset s < iov_len v /\ in_range m (iov_base v) (iov_len v).
Proof.
  intros Hf (pre & -> & -> & Hh) Hr. unfold room, cur in *. destruct (sgl_iov s) as [|v l] eqn:E; [lia|].
  exists pre, v, l. apply Forall_app in Hf as [_ [Hv _]%Forall_cons].
  split_and!; [done|done|done|done|lia|lia|]. destruct Hv as [Hv|[_ Hv]]; [lia|done].
Qed.

Lemma peek_at m vs s p k n :
  iov_ok m vs -> at_pos vs s p -> 0 <= k -> 0 < n -> k + n <= room s ->
  peek m (ptr_add (cur s) k) n = slice (iov_bytes m vs) (p + k) n /\ in_range m (ptr_add (cur s) k) n.
Proof.
  intros [Hf _ _] Hp Hk Hn Hr.
  destruct (at_pos_split _ _ _ _ Hf Hp ltac:(lia)) as (pre & v & post & -> & -> & Er & -> & Ho & Hv).
  rewrite ptr_add_add. split.
  - rewrite (peek_part _ v) by (done || lia). rewrite bytes_app.
    apply Forall_app in Hf as [Hpre Hv2]. rewrite <- (bytes_zlen m pre) by done.
    cbn [iov_bytes map concat]. rewrite <- Z.add_assoc. symmetry. apply slice_mid; [lia|lia|].
    unfold zlen. rewrite peek_length by (done || lia). lia.
  - eapply range_le; [|apply range_add; [|exact Hv]]; lia.
Qed.

Lemma read_at vs s p k n st :
  iov_ok (mem st) vs -> at_pos vs s p -> 0 <= k -> 0 <= n -> k + n <= room s ->
  mem_read (ptr_add (cur s) k) n st = Ok (slice (iov_bytes (mem st) vs) (p + k) n, st).
Proof.
  intros Hio Hp Hk Hn Hr. destruct (Z.eq_dec n 0) as [->|].
  { unfold mem_read. by rewrite slice_nil. }
  destruct (peek_at (mem st) vs s p k n) as [E Hin]; try (done || lia). by rewrite mem_read_ok, E by (done || lia).
Qed.

Lemma apart_mid (pre : list iovec) v post :
  ForallOrdPairs sep (pre ++ v :: post) -> Forall (fun w => sep w v) pre /\ Forall (sep v) post.
Proof.
  induction pre as [|w pre IH]; cbn; intros H; inversion H as [|? ? H1 H2]; subst; [done|].
  rewrite Forall_app, Forall_cons in H1. destruct H1 as (_ & ? & _). destruct (IH H2) as [? ?].
  split; [by constructor|done].
Qed.

(** A part of an element is as far from the others. *)
Lemma sep_part v o n w :
  0 <= o -> 0 <= n -> o + n <= iov_len v -> sep v w -> sep (Iov (ptr_add (iov_base v) o) n) w.
Proof.
  intros Ho Hn Hl. unfold sep. cbn. destruct (iov_base v) as [[b p]|]; cbn; [|tauto].
  destruct (iov_base w) as [[b' p']|]; [|tauto]. intros [?|[?|[?|?]]]; [left; lia|by right; left|right; right; by left|].
  right. right. right. lia.
Qed.

Lemma poke_bytes m ptr bs ws :
  bs = [] \/ in_range m ptr (zlen bs) -> fits m ws -> Forall (sep (Iov ptr (zlen bs))) ws ->
  iov_bytes (poke ptr bs m) ws = iov_bytes m ws.
Proof.
  intros Hr Hf Hs. unfold iov_bytes. f_equal. apply map_ext_in. intros w Hw%list_elem_of_In.
  unfold fits in Hf. rewrite !Forall_forall in Hf, Hs. destruct bs as [|x bs]; [done|].
  destruct Hr as [[=]|Hr]. destruct (Hf w Hw) as [H0|[Hl Hr']].
  - rewrite H0. unfold peek. destruct (iov_base w) as [[? ?]|]; [|done]. by rewrite !take_0.
  - destruct Hr as (b & o & l & -> & ?). apply poke_frame; [by exists b, o, l|lia|done|by apply Hs].
Qed.

Lemma write_at vs s p k bs st :
  iov_ok (mem st) vs -> at_pos vs s p -> 0 <= k -> k + zlen bs <= room s ->
  exists m', mem_write (ptr_add (cur s) k) bs st = Ok (tt, set_mem (fun _ => m') st) /\
    changed vs (mem st) m' /\ iov_bytes m' vs = splice (p + k) bs (iov_bytes (mem st) vs).
Proof.
  intros [Hf Hl Ha] Hp Hk Hr. pose proof (at_pos_bounds _ _ _ _ Hf Hp) as Hb. pose proof (zlen_nonneg bs) as Hz.
  destruct (decide (bs = [])) as [->|Hne].
  { exists (mem st). rewrite splice_nil by lia. split_and!; [|apply changed_refl|done]. by destruct st. }
  assert (0 < zlen bs) by (destruct bs; [done|unfold zlen; cbn; lia]).
  destruct (at_pos_split _ _ _ _ Hf Hp ltac:(lia)) as (pre & v & post & -> & -> & Er & -> & Ho & Hv).
  rewrite ptr_add_add. set (o := iov_offset s + k) in *.
  assert (Hin : in_range (mem st) (ptr_add (iov_base v) o) (zlen bs))
    by (eapply range_le; [|apply range_add; [|exact Hv]]; lia).
  exists (poke (ptr_add (iov_base v) o) bs (mem st)). destruct (apart_mid _ _ _ Ha) as [H1 H2].
  pose proof (bytes_zlen _ _ (proj1 (proj1 (Forall_app _ _ _) Hf))) as Epre.
  apply Forall_app in Hf as [Hfp [Hfv Hfq]%Forall_cons]. split_and!.
  - by rewrite mem_write_ok by (right; exact Hin).
  - constructor; [apply poke_shape; by right|]. intros w Hw Hrw Hsw.
    rewrite Forall_app, Forall_cons in Hsw. destruct Hsw as (_ & Hsw & _).
    destruct Hin as (b & q & l & E & ?). rewrite E. apply poke_frame; [by exists b, q, l|done|done|].
    rewrite <- E. apply sep_part; (lia || done).
  - rewrite !bytes_app, (poke_bytes _ _ _ pre); [|by right|done|].
    2:{ eapply Forall_impl; [exact H1|]. intros w Hw. apply sep_part; [lia|lia|lia|]. by apply sep_sym. }
    change (v :: post) with ([v] ++ post). rewrite !bytes_app, (poke_bytes _ _ _ post); [|by right|done|].
    2:{ eapply Forall_impl; [exact H2|]. intros w Hw. apply sep_part; (lia || done). }
    rewrite <- Epre, <- Z.add_assoc, splice_mid.
    + cbn. rewrite !app_nil_r. by rewrite (poke_part _ v) by (done || lia).
    + lia.
    + cbn. rewrite app_nil_r. unfold zlen at 2. rewrite peek_length by (done || lia). lia.
Qed.

(** A block of [b] bytes is in one element when [b] divides all lengths. *)
Lemma block_room m vs s p b :
  fits m vs -> at_pos vs s p -> settled s -> p < iov_total vs -> 0 < b ->
  forallb (fun v => iov_len v mod b =? 0) vs = true -> p mod b = 0 -> b <= room s.
Proof.
  intros Hf (pre & -> & -> & Hh) Hs Hp Hb Hm Hpm. rewrite total_app in Hp. unfold settled, room in *.
  destruct (sgl_iov s) as [|v l]; [change (iov_total []) with 0 in Hp; lia|].
  rewrite forallb_app in Hm. cbn [forallb] in Hm. apply andb_true_iff in Hm as [Hm1 [Hm2 _]%andb_true_iff].
  assert (Hd : forall l, forallb (fun v => iov_len v mod b =? 0) l = true -> iov_total l mod b = 0).
  { clear -Hb. induction l as [|v l IH]; [intros _; apply Z.mod_0_l; lia|]. cbn [forallb]. intros [H1 H2]%andb_true_iff.
    rewrite total_cons, Z.add_mod, (IH H2) by lia. apply Z.eqb_eq in H1. by rewrite H1, Z.mod_0_l by lia. }
  apply Hd in Hm1. apply Z.eqb_eq, Z.mod_divide in Hm2; [|lia]. apply Z.mod_divide in Hm1; [|lia].
  apply Z.mod_divide in Hpm; [|lia]. destruct Hm1 as [a Ha], Hm2 as [c Hc], Hpm as [d Hd'].
  assert (iov_offset s = (d - a) * b) as -> by lia. assert (d - a < c) by nia. nia.
Qed.

Lemma at_pos_init vs : at_pos vs (_dif_sgl_init vs) 0.
Proof. exists []. split_and!; [done|done|]. destruct vs; [done|by left]. Qed.

(** ** The checks of an array *)

Lemma is_valid_total m vs bytes :
  fits m vs -> iov_total vs < 2 ^ 64 -> _dif_sgl_is_valid vs bytes = (bytes <=? iov_total vs).
Proof.
  intros Hf Ht. unfold _dif_sgl_is_valid. f_equal.
  assert (H : forall a, 0 <= a -> a + iov_total vs < 2 ^ 64 ->
            fold_left (fun t v => u64 (t + iov_len v)) vs a = a + iov_total vs).
  { clear Ht. induction Hf as [|v vs Hv Hvs IH]; intros a Ha Hl; cbn [fold_left].
    - change (iov_total []) with 0. lia.
    - rewrite total_cons in *. pose proof (total_nonneg m vs Hvs).
      assert (0 <= iov_len v) by (destruct Hv as [?|[? _]]; lia). rewrite wrap_small, IH by lia. lia. }
  rewrite H by lia. lia.
Qed.

Lemma is_multiple_ok vs b st :
  0 < b -> _dif_sgl_is_bytes_multiple vs b st = Ok (forallb (fun v => iov_len v mod b =? 0) vs, st).
Proof. intros Hb. unfold _dif_sgl_is_bytes_multiple. by destruct (Z.eqb_spec b 0); [lia|]. Qed.

(** ** Moving over several elements *)

Lemma advance_loop_ok m l off :
  fits m l -> Forall (fun v => iov_len v < 2 ^ 32) l -> 0 <= off <= iov_total l -> off < 2 ^ 32 ->
  exists pre l' off', l = pre ++ l' /\ advance_loop l off = Sgl l' off' /\ off = iov_total pre + off' /\
    match l' with [] => off' = 0 | v :: _ => 0 <= off' < iov_len v end.
Proof.
  intros Hf. revert off. induction Hf as [|v l Hv Hl IH]; intros off H32 Ho Ho2.
  { exists [], [], off. change (iov_total []) with 0 in *. split_and!; (done || lia). }
  apply Forall_cons in H32 as [Hv32 H32]. rewrite total_cons in Ho. cbn [advance_loop].
  destruct (Z.ltb_spec off (iov_len v)).
  - exists [], (v :: l), off. split_and!; try done; lia.
  - assert (0 <= iov_len v) by (destruct Hv as [?|[? _]]; lia). rewrite wrap_small by lia.
    destruct (IH (off - iov_len v)) as (pre & l' & off' & -> & E & Eo & Hm); [done|lia|lia|].
    exists (v :: pre), l', off'. rewrite total_cons. split_and!; (done || lia).
Qed.

Lemma advance_init m vs n :
  iov_ok m vs -> 0 <= n <= iov_total vs -> n < 2 ^ 32 -> at_pos vs (_dif_sgl_advance (_dif_sgl_init vs) n) n.
Proof.
  intros [Hf Hl _] Hn H32. unfold _dif_sgl_advance. cbn [_dif_sgl_init sgl_iov iov_offset].
  rewrite Z.add_0_l, wrap_small by lia.
  destruct (advance_loop_ok m vs n Hf Hl Hn H32) as (pre & l' & off' & -> & -> & -> & Hm).
  exists pre. cbn. split_and!; [done|done|]. destruct l'; [done|]. lia.
Qed.

Lemma advance_far m vs s p n :
  iov_ok m vs -> at_pos vs s p -> 0 <= n -> p + n <= iov_total vs -> iov_offset s + n < 2 ^ 32 ->
  at_pos vs (_dif_sgl_advance s n) (p + n) /\ settled (_dif_sgl_advance s n).
Proof.
  intros [Hf Hl _] (pre & -> & -> & Hh) Hn Ht H32. rewrite total_app in Ht.
  apply Forall_app in Hf as [_ Hf]. apply Forall_app in Hl as [_ Hl].
  assert (0 <= iov_offset s) by (destruct (sgl_iov s); lia).
  unfold _dif_sgl_advance. rewrite wrap_small by lia.
  destruct (advance_loop_ok m _ (iov_offset s + n) Hf Hl ltac:(lia) ltac:(lia)) as (pre' & l' & off' & E & -> & Eo & Hm).
  split; [|unfold settled; cbn; destruct l'; [done|lia]].
  exists (pre ++ pre'). cbn. rewrite E, <- app_assoc, total_app. split_and!; [done|lia|]. destruct l'; lia.
Qed.

(** The offset in an element is not above the position. *)
Lemma at_pos_offset m vs s p : fits m vs -> at_pos vs s p -> iov_offset s <= p.
Proof. intros Hf (pre & -> & -> & _). apply Forall_app in Hf as [Hf _]. pose proof (total_nonneg m pre Hf). lia. Qed.
