(* ===== verification/IovXfer.v ===== *)
(** * Transfers between a flat buffer and scattered memory (lib/util/iov.c)

    struct spdk_iov_xfer walks an array of iovecs across calls; the target reads
    the payload of a command through it, one structure at a time.  With it are
    spdk_iov_memset and spdk_iovmove.  The memory is the one of the pipes. *)

From S2P Require Import Prelude Pipe PipeLemmas IovLemmas Dif DifMem.

(** ** Model *)

(** iovcnt is the length of the array. *)
Record iov_xfer_t := IovXfer {
  ix_iovs : list iovec;
  cur_iov_idx : Z;
  cur_iov_offset : Z }.

Definition spdk_iov_xfer_init (iovs : list iovec) : iov_xfer_t := IovXfer iovs 0 0.

Fixpoint iov_xfer_loop (fuel : nat) (ix : iov_xfer_t) (buf : option (nat * Z)) (buf_len : Z)
  (to_buf : bool) (copied_len : Z) : M pst (Z * iov_xfer_t) :=
  if cur_iov_idx ix <? Z.of_nat (length (ix_iovs ix)) then
    match fuel with
    | O => out_of_fuel
    | S fuel' =>
        iov ← lift_opt UB_bounds (ix_iovs ix !! Z.to_nat (cur_iov_idx ix));
        let iov_remain_len := u64 (iov_len iov - cur_iov_offset ix) in
        if iov_remain_len =? 0 then
          iov_xfer_loop fuel' (IovXfer (ix_iovs ix) (cur_iov_idx ix + 1) 0) buf buf_len to_buf copied_len
        else
          let len := Z.min iov_remain_len (u64 (buf_len - copied_len)) in
          let there := ptr_add (iov_base iov) (cur_iov_offset ix) in
          let here := ptr_add buf copied_len in
          bs ← mem_read (if to_buf then there else here) len;
          _ ← mem_write (if to_buf then here else there) bs;
          let copied_len := u64 (copied_len + len) in
          let ix := IovXfer (ix_iovs ix) (cur_iov_idx ix) (u64 (cur_iov_offset ix + len)) in
          if buf_len =? copied_len then mret (copied_len, ix)
          else iov_xfer_loop fuel' ix buf buf_len to_buf copied_len
    end
  else mret (copied_len, ix).

(** An element is left at most once and copied from at most once. *)
Definition xfer_fuel (ix : iov_xfer_t) : nat := 2 * length (ix_iovs ix) + 1.

Definition iov_xfer (ix : iov_xfer_t) (buf : option (nat * Z)) (buf_len : Z) (to_buf : bool)
  : M pst (Z * iov_xfer_t) :=
  if buf_len =? 0 then mret (0, ix)
  else iov_xfer_loop (xfer_fuel ix) ix buf buf_len to_buf 0.

Definition spdk_iov_xfer_from_buf (ix : iov_xfer_t) (buf : option (nat * Z)) (buf_len : Z)
  : M pst (Z * iov_xfer_t) := iov_xfer ix buf buf_len false.

Definition spdk_iov_xfer_to_buf (ix : iov_xfer_t) (buf : option (nat * Z)) (buf_len : Z)
  : M pst (Z * iov_xfer_t) := iov_xfer ix buf buf_len true.

Definition spdk_copy_iovs_to_buf (buf : option (nat * Z)) (buf_len : Z) (iovs : list iovec)
  : M pst unit :=
  _ ← spdk_iov_xfer_to_buf (spdk_iov_xfer_init iovs) buf buf_len; mret tt.

Definition spdk_copy_buf_to_iovs (iovs : list iovec) (buf : option (nat * Z)) (buf_len : Z)
  : M pst unit :=
  _ ← spdk_iov_xfer_from_buf (spdk_iov_xfer_init iovs) buf buf_len; mret tt.

(** memset of [c] over the elements, one after the other. *)
Fixpoint spdk_iov_memset (iovs : list iovec) (c : Z) : M pst unit :=
  match iovs with
  | [] => mret tt
  | v :: iovs' =>
      _ ← mem_write (iov_base v) (repeat (u8 c) (Z.to_nat (iov_len v)));
      spdk_iov_memset iovs' c
  end.

(** The loop of spdk_iovcpy with memmove: a piece is read before it is written,
    and so may overlap its destination. *)
Definition spdk_iovmove (fuel : nat) (siov diov : list iovec) : M pst Z :=
  s ← iter_first siov;
  d ← iter_first diov;
  iovcpy_loop fuel (Some s) (Some d) 0.

(** ** Positions *)

(** The transfer of [vs] is at byte [p]. *)
Definition xfer_at (vs : list iovec) (ix : iov_xfer_t) (p : Z) : Prop :=
  ix_iovs ix = vs /\
  exists pre rest, vs = pre ++ rest /\ cur_iov_idx ix = Z.of_nat (length pre) /\
    p = iov_total pre + cur_iov_offset ix /\ 0 <= cur_iov_offset ix /\
    match rest with [] => cur_iov_offset ix = 0 | v :: _ => cur_iov_offset ix <= iov_len v end.

(** The steps left: two for an element, one when it is used up. *)
Definition xfer_steps (ix : iov_xfer_t) : nat :=
  let rest := drop (Z.to_nat (cur_iov_idx ix)) (ix_iovs ix) in
  match rest with
  | [] => 0%nat
  | v :: l => ((if (iov_len v - cur_iov_offset ix =? 0)%Z then 1 else 2) + 2 * length l)%nat
  end.

Lemma xfer_at_init m vs : fits m vs -> xfer_at vs (spdk_iov_xfer_init vs) 0.
Proof.
  intros Hf. split; [done|]. exists [], vs. split_and!; try done. destruct vs as [|v vs]; [done|].
  cbn. apply (fits_len m (v :: vs)); [done|set_solver].
Qed.

Lemma xfer_at_bounds m vs ix p : fits m vs -> xfer_at vs ix p -> 0 <= p <= iov_total vs.
Proof.
  intros Hf (_ & pre & rest & -> & _ & -> & Ho & Hr). apply Forall_app in Hf as [H1 H2].
  pose proof (total_nonneg m pre H1). rewrite total_app. destruct rest as [|v l].
  - change (iov_total []) with 0. lia.
  - apply Forall_cons in H2 as [_ H2]. pose proof (total_nonneg m l H2). rewrite total_cons. lia.
Qed.

Lemma xfer_steps_fuel ix : (xfer_steps ix < xfer_fuel ix)%nat.
Proof.
  unfold xfer_steps, xfer_fuel. destruct (drop _ _) as [|v l] eqn:E; [lia|].
  apply (f_equal length) in E. rewrite length_drop in E. cbn in E. destruct (_ =? _); lia.
Qed.

(** ** The loop *)

(** [bs] is what a transfer of [n] bytes takes from the array [S] at [sp]; the
    destination [D] has it at [dp] and nothing else has changed. *)
Record transferred (S D : list iovec) (sp dp n : Z) (m m' : gmap nat (list Z)) : Prop := {
  tr_changed : changed D m m';
  tr_bytes : iov_bytes m' D = splice dp (slice (iov_bytes m S) sp n) (iov_bytes m D) }.

Section Transfer.
Context (vs : list iovec) (bv : iovec).
Context (H_apart : Forall (fun v => sep v bv) vs).

Definition src (to_buf : bool) : list iovec := if to_buf then vs else [bv].
Definition dst (to_buf : bool) : list iovec := if to_buf then [bv] else vs.

Lemma src_dst_disj to_buf : disj (dst to_buf) (src to_buf).
Proof.
  unfold disj, src, dst. destruct to_buf.
  - constructor; [|constructor]. eapply Forall_impl; [exact H_apart|]. intros v. apply sep_sym.
  - eapply Forall_impl; [exact H_apart|]. intros v Hv. by constructor.
Qed.

Lemma transferred_trans (to_buf : bool) sp dp n k m1 m2 m3 :
  iov_ok m1 (src to_buf) -> 0 <= sp -> 0 <= dp -> 0 <= n -> 0 <= k ->
  sp + n + k <= zlen (iov_bytes m1 (src to_buf)) -> dp + n + k <= zlen (iov_bytes m1 (dst to_buf)) ->
  transferred (src to_buf) (dst to_buf) sp dp n m1 m2 ->
  transferred (src to_buf) (dst to_buf) (sp + n) (dp + n) k m2 m3 ->
  transferred (src to_buf) (dst to_buf) sp dp (n + k) m1 m3.
Proof.
  intros Hs Hsp Hdp Hn Hk Hls Hld [C1 B1] [C2 B2]. constructor; [by eapply changed_trans|].
  rewrite B2, B1, (changed_bytes _ _ _ _ C1 (io_fits_ _ _ Hs) (src_dst_disj to_buf)).
  rewrite slice_app by lia. set (F := iov_bytes m1 (src to_buf)) in *.
  assert (E : zlen (slice F sp n) = n) by (apply slice_zlen; lia).
  rewrite <- splice_app; [by rewrite E|lia|]. rewrite zlen_app, E, slice_zlen; lia.
Qed.

(** One piece: [n] bytes between the walk [w] of [vs] and [bv]. *)
Lemma xfer_piece_ok (to_buf : bool) w p c n st :
  iov_ok (mem st) vs -> iov_ok (mem st) [bv] -> at_pos vs w p -> 0 <= c -> 0 < n <= room w ->
  c + n <= iov_len bv ->
  exists bs m', mem_read (if to_buf then cur w else ptr_add (iov_base bv) c) n st = Ok (bs, st)
    /\ mem_write (if to_buf then ptr_add (iov_base bv) c else cur w) bs st
      = Ok (tt, set_mem (fun _ => m') st)
    /\ transferred (src to_buf) (dst to_buf) (if to_buf then p else c) (if to_buf then c else p) n
         (mem st) m'.
Proof.
  intros Hv Hb Hp Hc Hn Hcn.
  assert (Hp0 : at_pos [bv] (Sgl [bv] 0) 0) by (exists []; split_and!; (done || by left)).
  assert (Ec : forall k, ptr_add (cur (Sgl [bv] 0)) k = ptr_add (iov_base bv) k)
    by (intros k; unfold cur; cbn [sgl_iov iov_offset]; rewrite ptr_add_add; f_equal; lia).
  assert (Ew : ptr_add (cur w) 0 = cur w) by (destruct (cur w) as [[b o]|]; cbn; by rewrite ?Z.add_0_r).
  pose proof (at_pos_bounds _ _ _ _ (io_fits_ _ _ Hv) Hp) as Hbd.
  pose proof (bytes_zlen _ _ (io_fits_ _ _ Hv)) as Zv. pose proof (bytes_zlen _ _ (io_fits_ _ _ Hb)) as Zb.
  rewrite total_cons in Zb. change (iov_total []) with 0 in Zb.
  destruct to_buf; cbn [src dst].
  - pose proof (read_at vs w p 0 n st Hv Hp ltac:(lia) ltac:(lia) ltac:(lia)) as Hrd.
    rewrite Ew, Z.add_0_r in Hrd.
    assert (E : zlen (slice (iov_bytes (mem st) vs) p n) = n) by (apply slice_zlen; lia).
    rewrite <- Ec. destruct (write_at [bv] (Sgl [bv] 0) 0 c (slice (iov_bytes (mem st) vs) p n) st)
      as (m' & Hw & Hch & Hby); try done; [cbn; lia|]. eexists _, m'. by split_and!.
  - pose proof (read_at [bv] (Sgl [bv] 0) 0 c n st Hb Hp0 ltac:(lia) ltac:(lia) ltac:(cbn; lia)) as Hrd.
    rewrite Ec, Z.add_0_l in Hrd.
    assert (E : zlen (slice (iov_bytes (mem st) [bv]) c n) = n) by (apply slice_zlen; lia).
    rewrite <- Ew. destruct (write_at vs w p 0 (slice (iov_bytes (mem st) [bv]) c n) st)
      as (m' & Hw & Hch & Hby); try (done || lia). rewrite Z.add_0_r in Hby. eexists _, m'. by split_and!.
Qed.

Lemma transferred_none (to_buf : bool) sp dp m :
  0 <= dp -> transferred (src to_buf) (dst to_buf) sp dp 0 m m.
Proof. intros Hd. constructor; [apply changed_refl|]. by rewrite slice_nil, splice_nil. Qed.

(** The element a transfer is at; behind its end comes the next one. *)
Lemma xfer_at_next pre v rest m :
  vs = pre ++ v :: rest -> fits m vs ->
  xfer_at vs (IovXfer vs (Z.of_nat (length pre) + 1) 0) (iov_total pre + iov_len v).
Proof.
  intros E Hf. split; [done|]. exists (pre ++ [v]), rest. cbn [cur_iov_idx cur_iov_offset].
  split_and!; [by rewrite <- app_assoc|rewrite length_app; cbn; lia| |done|].
  - rewrite total_app, total_cons. change (iov_total []) with 0. lia.
  - destruct rest as [|w rest]; [done|]. apply (fits_len m vs); [done|]. rewrite E. set_solver.
Qed.

Lemma total_upto pre v rest m :
  vs = pre ++ v :: rest -> fits m vs -> iov_total pre + iov_len v <= iov_total vs.
Proof.
  intros -> [_ [_ Hf]%Forall_cons]%Forall_app. pose proof (total_nonneg _ _ Hf).
  rewrite total_app, total_cons. lia.
Qed.

Lemma xfer_steps_next pre v rest off :
  vs = pre ++ v :: rest ->
  (xfer_steps (IovXfer vs (Z.of_nat (length pre) + 1) 0)
   < xfer_steps (IovXfer vs (Z.of_nat (length pre)) off))%nat.
Proof.
  intros E. unfold xfer_steps. cbn [ix_iovs cur_iov_idx cur_iov_offset]. rewrite E.
  replace (Z.to_nat (Z.of_nat (length pre) + 1)) with (length pre + 1)%nat by lia.
  rewrite Nat2Z.id, drop_app_add, drop_app_length. cbn [drop]. rewrite drop_0.
  destruct rest as [|w rest]; cbn [length]; repeat destruct (_ =? _); lia.
Qed.

Lemma xfer_steps_used pre v rest off :
  vs = pre ++ v :: rest -> off < iov_len v ->
  (xfer_steps (IovXfer vs (Z.of_nat (length pre)) (iov_len v))
   < xfer_steps (IovXfer vs (Z.of_nat (length pre)) off))%nat.
Proof.
  intros E Ho. unfold xfer_steps. cbn [ix_iovs cur_iov_idx cur_iov_offset].
  rewrite E, Nat2Z.id, drop_app_length, Z.sub_diag. cbn [Z.eqb].
  destruct (Z.eqb_spec (iov_len v - off) 0); lia.
Qed.

(** The loop from byte [p] of the array and byte [c] of the buffer. *)
Lemma xfer_loop_ok (to_buf : bool) fuel ix p c st :
  iov_ok (mem st) vs -> iov_ok (mem st) [bv] -> xfer_at vs ix p -> 0 <= c < iov_len bv ->
  (xfer_steps ix < fuel)%nat ->
  let n := Z.min (iov_len bv - c) (iov_total vs - p) in
  exists m' ix',
    iov_xfer_loop fuel ix (iov_base bv) (iov_len bv) to_buf c st = Ok ((c + n, ix'), set_mem (fun _ => m') st)
    /\ xfer_at vs ix' (p + n)
    /\ transferred (src to_buf) (dst to_buf) (if to_buf then p else c) (if to_buf then c else p) n
         (mem st) m'.
Proof.
  revert ix p c st. induction fuel as [|fuel IH]; intros ix p c st Hv Hb Hat Hc Hs; [lia|]. cbn zeta.
  pose proof (xfer_at_bounds _ _ _ _ (io_fits_ _ _ Hv) Hat) as Hpb.
  destruct ix as [iovs idx off]. destruct Hat as (E & pre & rest & Evs & Ei & Ep & Ho & Hr).
  cbn [ix_iovs cur_iov_idx cur_iov_offset] in *. subst iovs idx.
  cbn [iov_xfer_loop ix_iovs cur_iov_idx cur_iov_offset].
  destruct rest as [|v rest].
  { rewrite app_nil_r in Evs. rewrite (proj2 (Z.ltb_ge _ _)) by (rewrite Evs; lia).
    replace (Z.min _ _) with 0 by (rewrite Evs; lia).
    exists (mem st), (IovXfer vs (Z.of_nat (length pre)) off). rewrite !Z.add_0_r. split_and!.
    - by destruct st.
    - split; [done|]. exists pre, []. rewrite app_nil_r. by split_and!.
    - apply transferred_none. destruct to_buf; lia. }
  assert (Hvl : 0 <= iov_len v < 2 ^ 32).
  { destruct Hv as [Hf Hl _]. split; [apply (fits_len _ _ v Hf); rewrite Evs; set_solver|].
    rewrite Evs, Forall_app, Forall_cons in Hl. tauto. }
  assert (Hbl : iov_len bv < 2 ^ 32) by (by apply io_len, Forall_cons in Hb as [? _]).
  rewrite (proj2 (Z.ltb_lt _ _)) by (rewrite Evs, length_app; cbn; lia).
  rewrite Nat2Z.id. erewrite M_bind_ok by (by rewrite Evs, list_lookup_middle).
  cbv beta zeta. rewrite (wrap_small 64 (iov_len v - off)), (wrap_small 64 (iov_len bv - c)) by lia.
  destruct (Z.eqb_spec (iov_len v - off) 0) as [E0|E0].
  { pose proof (xfer_steps_next pre v rest off Evs). replace p with (iov_total pre + iov_len v) by lia.
    apply IH; [done|done|by eapply xfer_at_next, io_fits_|done|lia]. }
  pose proof (total_upto pre v rest _ Evs (io_fits_ _ _ Hv)) as Hup.
  set (n1 := Z.min (iov_len v - off) (iov_len bv - c)).
  assert (Hpos : at_pos vs (Sgl (v :: rest) off) p).
  { exists pre. cbn. split_and!; [done|done|]. right. lia. }
  destruct (xfer_piece_ok to_buf (Sgl (v :: rest) off) p c n1 st Hv Hb Hpos) as (bs & m1 & Hrd & Hwr & Htr);
    [lia|cbn; lia|lia|].
  cbn [cur sgl_iov iov_offset] in Hrd, Hwr. rewrite (M_bind_ok _ _ _ _ _ Hrd), (M_bind_ok _ _ _ _ _ Hwr).
  rewrite !wrap_small by lia. destruct (Z.eqb_spec (iov_len bv) (c + n1)) as [E1|E1].
  { replace (Z.min (iov_len bv - c) _) with n1 by lia.
    exists m1, (IovXfer vs (Z.of_nat (length pre)) (off + n1)). split_and!; [done| |done].
    split; [done|]. exists pre, (v :: rest). cbn. split_and!; (done || lia). }
  assert (n1 = iov_len v - off) as En by lia. replace (off + n1) with (iov_len v) by lia.
  pose proof (xfer_steps_used pre v rest off Evs ltac:(lia)) as Hst.
  pose proof (tr_changed _ _ _ _ _ _ _ Htr) as Hch.
  destruct (IH (IovXfer vs (Z.of_nat (length pre)) (iov_len v)) (p + n1) (c + n1) (set_mem (fun _ => m1) st))
    as (m2 & ix' & Hl & Hat & Htr2); cbn [mem set_mem].
  1,2: by eapply iov_ok_changed.
  { split; [done|]. exists pre, (v :: rest). cbn. split_and!; (done || lia). }
  1,2: lia.
  set (k := Z.min (iov_len bv - (c + n1)) (iov_total vs - (p + n1))) in *.
  exists m2, ix'. replace (Z.min (iov_len bv - c) (iov_total vs - p)) with (n1 + k) by lia.
  rewrite !Z.add_assoc. split_and!; [exact Hl|exact Hat|].
  pose proof (bytes_zlen _ _ (io_fits_ _ _ Hv)) as Zv. pose proof (bytes_zlen _ _ (io_fits_ _ _ Hb)) as Zb.
  rewrite total_cons in Zb. change (iov_total []) with 0 in Zb.
  eapply transferred_trans; [..|exact Htr|]; try (destruct to_buf; cbn [src dst]; (done || lia)).
Qed.


(** A call of iov_xfer. *)
Lemma iov_xfer_ok (to_buf : bool) ix p st :
  iov_ok (mem st) vs -> iov_ok (mem st) [bv] -> xfer_at vs ix p ->
  let n := Z.min (iov_len bv) (iov_total vs - p) in
  exists m' ix', iov_xfer ix (iov_base bv) (iov_len bv) to_buf st = Ok ((n, ix'), set_mem (fun _ => m') st)
    /\ xfer_at vs ix' (p + n)
    /\ transferred (src to_buf) (dst to_buf) (if to_buf then p else 0) (if to_buf then 0 else p) n
         (mem st) m'.
Proof.
  intros Hv Hb Hat n. pose proof (xfer_at_bounds _ _ _ _ (io_fits_ _ _ Hv) Hat) as Hpb. unfold iov_xfer.
  assert (0 <= iov_len bv) by (apply (fits_len _ _ bv (io_fits_ _ _ Hb)); set_solver).
  destruct (Z.eqb_spec (iov_len bv) 0) as [E|E].
  - assert (n = 0) as -> by lia. exists (mem st), ix. rewrite Z.add_0_r. split_and!; [by destruct st|done|].
    apply transferred_none. destruct to_buf; lia.
  - destruct (xfer_loop_ok to_buf (xfer_fuel ix) ix p 0 st Hv Hb Hat) as (m' & ix' & H1 & H2 & H3);
      [lia|apply xfer_steps_fuel|]. rewrite Z.sub_0_r in *. by exists m', ix'.
Qed.

End Transfer.

(** ** Sequences of calls *)

Lemma changed_mono vs ws m m' : vs ⊆ ws -> changed vs m m' -> changed ws m m'.
Proof.
  intros Hs [H1 H2]. constructor; [done|]. intros w Hw Hr Hd. apply H2; [done|done|].
  apply Forall_forall. intros v Hv. rewrite Forall_forall in Hd. apply Hd, Hs, Hv.
Qed.

Lemma iov_ok_cons m v vs : iov_ok m (v :: vs) -> iov_ok m [v] /\ iov_ok m vs /\ disj [v] vs.
Proof.
  intros [Hf%Forall_cons Hl%Forall_cons Ha]. inversion Ha as [|? ? H1 H2]; subst.
  split_and!; [constructor|constructor|]; try tauto.
  - constructor; [tauto|constructor].
  - constructor; [tauto|constructor].
  - repeat constructor.
  - repeat constructor. done.
Qed.

Lemma disj_sym vs ws : disj vs ws -> disj ws vs.
Proof.
  unfold disj. rewrite !Forall_forall. intros H w Hw. apply Forall_forall. intros v Hv.
  specialize (H v Hv). rewrite Forall_forall in H. by apply sep_sym, H.
Qed.

(** One call for each of the buffers. *)
Fixpoint xfer_calls (to_buf : bool) (ix : iov_xfer_t) (bvs : list iovec) : M pst iov_xfer_t :=
  match bvs with
  | [] => mret ix
  | bv :: bvs' =>
      '(_, ix) ← iov_xfer ix (iov_base bv) (iov_len bv) to_buf;
      xfer_calls to_buf ix bvs'
  end.

Lemma to_buf_calls_ok vs bvs ix p st :
  iov_ok (mem st) vs -> iov_ok (mem st) bvs -> disj bvs vs -> xfer_at vs ix p ->
  p + iov_total bvs <= iov_total vs ->
  exists m' ix', xfer_calls true ix bvs st = Ok (ix', set_mem (fun _ => m') st)
    /\ xfer_at vs ix' (p + iov_total bvs) /\ changed bvs (mem st) m'
    /\ iov_bytes m' bvs = slice (iov_bytes (mem st) vs) p (iov_total bvs).
Proof.
  revert ix p st. induction bvs as [|bv bvs IH]; intros ix p st Hv Hb Hd Hat Ht; cbn [xfer_calls].
  { exists (mem st), ix. change (iov_total []) with 0. rewrite Z.add_0_r, slice_nil.
    split_and!; [by destruct st|done|apply changed_refl|done]. }
  apply Forall_cons in Hd as [Hd1 Hd2]. destruct (iov_ok_cons _ _ _ Hb) as (Hb1 & Hb2 & Hb12).
  rewrite total_cons in *. pose proof (total_nonneg _ _ (io_fits_ _ _ Hb2)) as Hn.
  assert (0 <= iov_len bv) by (apply (fits_len _ _ bv (io_fits_ _ _ Hb)); set_solver).
  pose proof (xfer_at_bounds _ _ _ _ (io_fits_ _ _ Hv) Hat) as Hpb.
  destruct (iov_xfer_ok vs bv) with (to_buf := true) (ix := ix) (p := p) (st := st)
    as (m1 & ix1 & Hr1 & Hat1 & [Hc1 Hby1]); [|done|done|done|].
  { eapply Forall_impl; [exact Hd1|]. intros v. apply sep_sym. }
  replace (Z.min (iov_len bv) (iov_total vs - p)) with (iov_len bv) in * by lia.
  rewrite (M_bind_ok _ _ _ _ _ Hr1). cbn beta match. cbn [src dst] in *.
  destruct (IH ix1 (p + iov_len bv) (set_mem (fun _ => m1) st)) as (m2 & ix2 & Hr2 & Hat2 & Hc2 & Hby2);
    cbn [mem set_mem] in *; try done; [by eapply iov_ok_changed..|lia|].
  exists m2, ix2. rewrite Z.add_assoc. split_and!; [exact Hr2|done| |].
  - eapply changed_trans; [eapply changed_mono, Hc1|eapply changed_mono, Hc2]; set_solver.
  - change (bv :: bvs) with ([bv] ++ bvs). rewrite bytes_app, slice_app, Hby2 by lia.
    rewrite (changed_bytes _ _ _ vs Hc1 (io_fits_ _ _ Hv)) by (by repeat constructor). f_equal.
    rewrite (changed_bytes _ _ _ [bv] Hc2), Hby1; [|eapply io_fits_, iov_ok_changed; [exact Hc1|done]|by apply disj_sym].
    apply splice_whole. rewrite slice_zlen, bytes_zlen; [|apply Hb1|lia|lia|].
    + rewrite total_cons. change (iov_total []) with 0. lia.
    + rewrite bytes_zlen by apply Hv. lia.
Qed.

Lemma from_buf_calls_ok vs bvs ix p st :
  iov_ok (mem st) vs -> iov_ok (mem st) bvs -> disj bvs vs -> xfer_at vs ix p ->
  p + iov_total bvs <= iov_total vs ->
  exists m' ix', xfer_calls false ix bvs st = Ok (ix', set_mem (fun _ => m') st)
    /\ xfer_at vs ix' (p + iov_total bvs) /\ changed vs (mem st) m'
    /\ iov_bytes m' vs = splice p (iov_bytes (mem st) bvs) (iov_bytes (mem st) vs).
Proof.
  revert ix p st. induction bvs as [|bv bvs IH]; intros ix p st Hv Hb Hd Hat Ht; cbn [xfer_calls];
    pose proof (xfer_at_bounds _ _ _ _ (io_fits_ _ _ Hv) Hat) as Hpb.
  { exists (mem st), ix. change (iov_total []) with 0. rewrite Z.add_0_r.
    split_and!; [by destruct st|done|apply changed_refl|].
    change (iov_bytes (mem st) []) with (@nil Z). rewrite splice_nil; [done|lia]. }
  apply Forall_cons in Hd as [Hd1 Hd2]. destruct (iov_ok_cons _ _ _ Hb) as (Hb1 & Hb2 & Hb12).
  rewrite total_cons in *. pose proof (total_nonneg _ _ (io_fits_ _ _ Hb2)) as Hn.
  assert (0 <= iov_len bv) by (apply (fits_len _ _ bv (io_fits_ _ _ Hb)); set_solver).
  destruct (iov_xfer_ok vs bv) with (to_buf := false) (ix := ix) (p := p) (st := st)
    as (m1 & ix1 & Hr1 & Hat1 & [Hc1 Hby1]); [|done|done|done|].
  { eapply Forall_impl; [exact Hd1|]. intros v. apply sep_sym. }
  replace (Z.min (iov_len bv) (iov_total vs - p)) with (iov_len bv) in * by lia.
  rewrite (M_bind_ok _ _ _ _ _ Hr1). cbn beta match. cbn [src dst] in *.
  destruct (IH ix1 (p + iov_len bv) (set_mem (fun _ => m1) st)) as (m2 & ix2 & Hr2 & Hat2 & Hc2 & Hby2);
    cbn [mem set_mem] in *; try done; [by eapply iov_ok_changed..|lia|].
  exists m2, ix2. rewrite Z.add_assoc. split_and!; [exact Hr2|done|by eapply changed_trans|].
  pose proof (bytes_zlen _ _ (io_fits_ _ _ Hb1)) as Z1. pose proof (bytes_zlen _ _ (io_fits_ _ _ Hb2)) as Z2.
  pose proof (bytes_zlen _ _ (io_fits_ _ _ Hv)) as Z3.
  rewrite total_cons in Z1. change (iov_total []) with 0 in Z1. rewrite Z.add_0_r in Z1.
  change (bv :: bvs) with ([bv] ++ bvs). rewrite bytes_app, <- splice_app; [|lia|rewrite zlen_app; lia].
  rewrite Z1, Hby2, Hby1, (changed_bytes _ _ _ bvs Hc1 (io_fits_ _ _ Hb2)) by (by apply disj_sym).
  rewrite <- Z1 at 2. by rewrite slice_all.
Qed.

(** C39: the transfer context is a cursor over the bytes of the array, whatever
    the lengths of its elements, empty ones included: what is written through it
    from any sequence of buffers is read back through it into any other sequence of
    buffers of the same total length, and memory apart from the array and the
    second sequence keeps its bytes. *)
Theorem iov_xfer_roundtrip vs ws bvs ix p st :
  iov_ok (mem st) vs -> iov_ok (mem st) ws -> iov_ok (mem st) bvs ->
  disj ws vs -> disj bvs vs -> disj bvs ws -> xfer_at vs ix p ->
  iov_total bvs = iov_total ws -> p + iov_total ws <= iov_total vs ->
  exists ix1 st1 ix2 st2,
    xfer_calls false ix ws st = Ok (ix1, st1) /\ xfer_at vs ix1 (p + iov_total ws)
    /\ iov_bytes (mem st1) vs = splice p (iov_bytes (mem st) ws) (iov_bytes (mem st) vs)
    /\ xfer_calls true ix bvs st1 = Ok (ix2, st2) /\ xfer_at vs ix2 (p + iov_total ws)
    /\ iov_bytes (mem st2) bvs = iov_bytes (mem st) ws
    /\ changed (vs ++ bvs) (mem st) (mem st2).
Proof.
  intros Hv Hw Hb Dw Db Dbw Hat Et Ht.
  pose proof (xfer_at_bounds _ _ _ _ (io_fits_ _ _ Hv) Hat) as Hpb.
  pose proof (bytes_zlen _ _ (io_fits_ _ _ Hv)) as Zv. pose proof (bytes_zlen _ _ (io_fits_ _ _ Hw)) as Zw.
  destruct (from_buf_calls_ok vs ws ix p st) as (m1 & ix1 & R1 & A1 & C1 & B1); try done.
  destruct (to_buf_calls_ok vs bvs ix p (set_mem (fun _ => m1) st)) as (m2 & ix2 & R2 & A2 & C2 & B2);
    cbn [mem set_mem] in *; try done; [by eapply iov_ok_changed..|lia|].
  exists ix1, (set_mem (fun _ => m1) st), ix2, (set_mem (fun _ => m2) st). cbn [mem set_mem].
  rewrite <- Et. split_and!; try done; [by rewrite Et| |].
  - rewrite B2, B1, Et. apply slice_splice_eq; lia.
  - eapply changed_trans; [eapply changed_mono, C1|eapply changed_mono, C2]; set_solver.
Qed.

(** spdk_iov_memset fills the array and nothing else. *)
Lemma iov_memset_ok vs c st :
  iov_ok (mem st) vs ->
  exists m', spdk_iov_memset vs c st = Ok (tt, set_mem (fun _ => m') st) /\ changed vs (mem st) m'
    /\ iov_bytes m' vs = repeat (u8 c) (Z.to_nat (iov_total vs)).
Proof.
  revert st. induction vs as [|v vs IH]; intros st Hv; cbn [spdk_iov_memset].
  { exists (mem st). split_and!; [by destruct st|apply changed_refl|done]. }
  destruct (iov_ok_cons _ _ _ Hv) as (H1 & H2 & H12).
  assert (Hl : 0 <= iov_len v) by (apply (fits_len _ _ v (io_fits_ _ _ Hv)); set_solver).
  pose proof (total_nonneg _ _ (io_fits_ _ _ H2)) as Hn.
  assert (Ez : zlen (repeat (u8 c) (Z.to_nat (iov_len v))) = iov_len v) by (unfold zlen; rewrite repeat_length; lia).
  destruct (write_at [v] (Sgl [v] 0) 0 0 (repeat (u8 c) (Z.to_nat (iov_len v))) st)
    as (m1 & Hw & C1 & B1); [done|exists []; split_and!; (done || by left)|lia|cbn; lia|].
  cbn [cur sgl_iov iov_offset] in Hw. rewrite ptr_add_add in Hw.
  assert (Ep : ptr_add (iov_base v) (0 + 0) = iov_base v) by (destruct (iov_base v) as [[b o]|]; cbn; by rewrite ?Z.add_0_r).
  rewrite Ep in Hw. rewrite (M_bind_ok _ _ _ _ _ Hw).
  destruct (IH (set_mem (fun _ => m1) st)) as (m2 & Hr & C2 & B2); [by eapply iov_ok_changed|].
  exists m2. cbn [mem set_mem] in *. split_and!; [exact Hr| |].
  - eapply changed_trans; [eapply changed_mono, C1|eapply changed_mono, C2]; set_solver.
  - change (v :: vs) with ([v] ++ vs). rewrite bytes_app, B2, total_app, total_cons.
    change (iov_total []) with 0. rewrite Z.add_0_r, Z2Nat.inj_add, repeat_app by lia. f_equal.
    rewrite (changed_bytes _ _ _ [v] C2), B1; [|eapply io_fits_, iov_ok_changed; [exact C1|done]|by apply disj_sym].
    apply splice_whole. rewrite Ez, bytes_zlen by apply H1. rewrite total_cons. change (iov_total []) with 0. lia.
Qed.

(** spdk_iovmove between overlapping parts of one buffer moves the bytes that
    were there before. *)
Lemma iovmove_overlap fuel b o1 o2 n l st :
  mem st !! b = Some l -> 0 <= o1 -> 0 <= o2 -> 0 < n < 2 ^ 32 ->
  o1 + n <= zlen l -> o2 + n <= zlen l -> (1 <= fuel)%nat ->
  spdk_iovmove fuel [Iov (Some (b, o1)) n] [Iov (Some (b, o2)) n] st
  = Ok (n, set_mem <[b := splice o2 (slice l o1 n) l]> st).
Proof.
  intros Hl H1 H2 Hn Hr1 Hr2 Hfu. destruct fuel as [|fuel]; [lia|]. unfold zlen in *.
  unfold spdk_iovmove. do 2 erewrite M_bind_ok by reflexivity. cbn [iovcpy_loop iov_len iov_base].
  rewrite (proj2 (Z.eqb_neq n 0)) by lia. cbn [orb].
  replace (Z.min (Z.min UINT32_MAX n) n) with n by (unfold UINT32_MAX; lia).
  assert (Hin : forall o, 0 <= o -> o + n <= Z.of_nat (length l) -> in_range (mem st) (Some (b, o)) n)
    by (intros o ? ?; exists b, o, l; split_and!; (done || lia)).
  erewrite M_bind_ok by (apply mem_read_ok; [lia|by apply Hin]).
  assert (El : Z.of_nat (length (peek (mem st) (Some (b, o1)) n)) = n) by (rewrite peek_length; [lia|lia|by apply Hin]).
  erewrite M_bind_ok by (apply mem_write_ok; right; rewrite El; by apply Hin).
  unfold iter_step. rewrite Z.eqb_refl, peek_slice, Hl in *. cbn [default] in *. unfold id in *.
  assert (slice l o1 n <> []) as Hne by (intros E; rewrite E in El; cbn in El; lia).
  assert (Em : poke (Some (b, o2)) (slice l o1 n) (mem st) = <[b := splice o2 (slice l o1 n) l]> (mem st)).
  { unfold poke. destruct (slice l o1 n); [done|]. apply map_eq. intros k. destruct (decide (b = k)) as [<-|].
    - by rewrite lookup_alter_eq, lookup_insert_eq, Hl.
    - by rewrite lookup_alter_ne, lookup_insert_ne. }
  rewrite Z.eqb_refl. destruct fuel; cbn [iovcpy_loop]; unfold mret, M_ret, set_mem; by rewrite Em.
Qed.

Ltac sep_demo := unfold sep; cbn; lia.
Ltac seps_all := repeat (apply Forall_cons; split; [sep_demo|]); by apply Forall_nil.
Ltac disj_all := repeat (apply Forall_cons; split; [seps_all|]); by apply Forall_nil.
Ltac iov_ok_demo :=
  constructor;
  [repeat (apply Forall_cons; split;
     [first [by left | right; split; [done|]; eexists _, _, _; split_and!; [reflexivity|reflexivity|done|done]]|]);
   by apply Forall_nil
  |repeat (apply Forall_cons; split; [done|]); by apply Forall_nil
  |repeat (apply FOP_cons; [seps_all|]); apply FOP_nil].

(** A message of two buffers through an array with an empty element. *)
Lemma iov_xfer_roundtrip_witness :
  let st := Pst {[ 0%nat := [1; 2; 3; 4; 5]; 1%nat := repeat 0 8; 2%nat := repeat 9 5 ]} ∅ ∅ in
  let vs := [Iov (Some (1%nat, 0)) 3; Iov None 0; Iov (Some (1%nat, 4)) 4] in
  let ws := [Iov (Some (0%nat, 0)) 4; Iov (Some (0%nat, 4)) 1] in
  let bvs := [Iov (Some (2%nat, 0)) 2; Iov (Some (2%nat, 2)) 3] in
  exists ix1 st1 ix2 st2,
    xfer_calls false (spdk_iov_xfer_init vs) ws st = Ok (ix1, st1) /\ xfer_at vs ix1 (0 + iov_total ws)
    /\ iov_bytes (mem st1) vs = splice 0 (iov_bytes (mem st) ws) (iov_bytes (mem st) vs)
    /\ xfer_calls true (spdk_iov_xfer_init vs) bvs st1 = Ok (ix2, st2) /\ xfer_at vs ix2 (0 + iov_total ws)
    /\ iov_bytes (mem st2) bvs = iov_bytes (mem st) ws
    /\ changed (vs ++ bvs) (mem st) (mem st2).
Proof.
  intros st vs ws bvs. apply iov_xfer_roundtrip.
  - iov_ok_demo.
  - iov_ok_demo.
  - iov_ok_demo.
  - disj_all.
  - disj_all.
  - disj_all.
  - split; [reflexivity|]. exists [], vs. split_and!; try reflexivity; discriminate.
  - reflexivity.
  - discriminate.
Defined.
