(* ===== verification/DifLemmas.v ===== *)
(** * Protection information: fields, guards and walks

    The laws of the CRC functions the guards rest on, what a generated field
    reads back as, and the loops of dif.c as functions of the bytes of an
    array: the generated bytes and the first error of a verification do not
    depend on how the bytes are scattered. *)

From S2P Require Import Prelude Pipe PipeLemmas IovLemmas Dif DifMem.

(** ** Big-endian numbers *)

Lemma to_be_length k x : length (to_be k x) = k.
Proof. induction k as [|k IH]; cbn; [done|]. by rewrite IH. Qed.

Lemma from_be_app a b : from_be (a ++ b) = fold_left (fun a b => Z.lor (Z.shiftl a 8) b) b (from_be a).
Proof. unfold from_be. apply fold_left_app. Qed.

(** Reading what was stored yields the low [k] bytes, behind an accumulator. *)
Lemma from_to_be_acc k x a :
  0 <= a ->
  fold_left (fun a b => Z.lor (Z.shiftl a 8) b) (to_be k x) a
  = Z.lor (Z.shiftl a (8 * Z.of_nat k)) (wrap (8 * Z.of_nat k) x).
Proof.
  revert a. induction k as [|k IH]; intros a Ha.
  { cbn. rewrite Z.shiftl_0_r. unfold wrap. by rewrite Z.mod_1_r, Z.lor_0_r. }
  cbn [to_be fold_left]. rewrite IH.
  2:{ apply Z.lor_nonneg. split; [by apply Z.shiftl_nonneg|]. apply Z.land_nonneg. by right. }
  apply Z.bits_inj'. intros i Hi. unfold wrap. set (m := 8 * Z.of_nat k).
  replace (8 * Z.of_nat (S k)) with (m + 8) by lia. rewrite !Z.lor_spec, !Z.shiftl_spec by lia.
  destruct (Z.ltb_spec i m).
  - rewrite !Z.testbit_mod_pow2, (Z.testbit_neg_r _ (i - m)), (Z.testbit_neg_r _ (i - (m + 8))) by lia.
    f_equal. destruct (Z.ltb_spec i m), (Z.ltb_spec i (m + 8)); (done || lia).
  - rewrite Z.lor_spec, Z.shiftl_spec, Z.land_spec, Z.shiftr_spec by lia.
    replace (i - m - 8) with (i - (m + 8)) by lia. replace (i - m + m) with i by lia.
    rewrite !Z.testbit_mod_pow2 by lia. change 0xFF with (Z.ones 8).
    rewrite Z.testbit_ones by lia. destruct (Z.ltb_spec i m), (Z.ltb_spec i (m + 8)); try lia;
      destruct (Z.leb_spec 0 (i - m)), (Z.ltb_spec (i - m) 8); try lia; cbn [andb];
      rewrite ?andb_true_r, ?andb_false_r, ?orb_false_r; done.
Qed.

Lemma from_to_be k x : from_be (to_be k x) = wrap (8 * Z.of_nat k) x.
Proof. unfold from_be. rewrite from_to_be_acc by done. rewrite Z.shiftl_0_l. apply Z.lor_0_l. Qed.

(** ** Reading back a generated field *)

Lemma store_one off bs d : store_var [(off, bs)] d = splice off bs d.
Proof. done. Qed.

Lemma store_app a b d : store_var (a ++ b) d = store_var b (store_var a d).
Proof. unfold store_var. apply fold_left_app. Qed.

Section Fields.
Context {C : Crc} (c : dif_ctx).
Notation f := (dif_pi_format c).
Notation sz := (_dif_size f).

(** The tag _dif_generate stores. *)
Definition gen_tag (k : Z) : Z :=
  if init_ref_tag c =? SPDK_DIF_REFTAG_IGNORE then
    match f with
    | SPDK_DIF_PI_FORMAT_16 => REFTAG_MASK_16
    | SPDK_DIF_PI_FORMAT_32 => REFTAG_MASK_32
    | SPDK_DIF_PI_FORMAT_64 => REFTAG_MASK_64
    end
  else block_ref_tag k c.

(** The bits of a reference tag that a format stores. *)
Definition tag_bits : Z :=
  match f with SPDK_DIF_PI_FORMAT_16 => 32 | SPDK_DIF_PI_FORMAT_32 => 64 | SPDK_DIF_PI_FORMAT_64 => 48 end.

Lemma gen_stores g k d :
  store_var (_dif_generate g k c) d =
    let d1 := if has_flag c SPDK_DIF_FLAGS_GUARD_CHECK then splice 0 (to_be (Z.to_nat (_dif_guard_size f)) g) d else d in
    let d2 := if has_flag c SPDK_DIF_FLAGS_APPTAG_CHECK then splice (_dif_apptag_offset f) (to_be 2 (app_tag c)) d1 else d1 in
    if has_flag c SPDK_DIF_FLAGS_REFTAG_CHECK then splice (_dif_reftag_offset f) (_dif_set_reftag (gen_tag k) f).2 d2 else d2.
Proof. unfold _dif_generate. rewrite !store_app. by repeat (destruct (has_flag _ _)). Qed.

(** A field byte by byte. *)
#[local] Ltac explode :=
  lazymatch goal with
  | H : zlen ?d = _ |- _ =>
      unfold zlen in H; repeat (destruct d as [|? d]; [cbn in H; discriminate H|]);
      destruct d as [|? d]; [|cbn in H; lia]
  end.
Lemma gen_zlen g k d : zlen d = sz -> zlen (store_var (_dif_generate g k c) d) = sz.
Proof.
  intros Hd. rewrite gen_stores. cbv zeta. generalize (gen_tag k). intros t.
  destruct f; explode; by repeat destruct (has_flag _ _).
Qed.

Lemma gen_guard g k d :
  zlen d = sz -> has_flag c SPDK_DIF_FLAGS_GUARD_CHECK = true ->
  _dif_get_guard (store_var (_dif_generate g k c) d) f = wrap (8 * _dif_guard_size f) g.
Proof.
  intros Hd Hf. rewrite gen_stores, Hf. cbv zeta. generalize (gen_tag k). intros t.
  destruct f; explode; repeat destruct (has_flag _ _);
    (exact (from_to_be 2 g) || exact (from_to_be 4 g) || exact (from_to_be 8 g)).
Qed.

Lemma gen_apptag g k d :
  zlen d = sz -> has_flag c SPDK_DIF_FLAGS_APPTAG_CHECK = true ->
  _dif_get_apptag (store_var (_dif_generate g k c) d) f = wrap 16 (app_tag c).
Proof.
  intros Hd Hf. rewrite gen_stores, Hf. cbv zeta. generalize (gen_tag k). intros t.
  destruct f; explode; repeat destruct (has_flag _ _); exact (from_to_be 2 (app_tag c)).
Qed.

(** The two parts of the tag of the third format. *)
Lemma tag_parts t :
  Z.lor (Z.shiftl (from_be (to_be 2 (u16 (Z.shiftr t 32)))) 32) (from_be (to_be 4 (u32 t))) = wrap 48 t.
Proof.
  rewrite !from_to_be. apply Z.bits_inj'. intros i Hi. unfold wrap. cbn [Z.of_nat].
  change (8 * Z.of_nat 2) with 16. change (8 * Z.of_nat 4) with 32. rewrite !Z.mod_mod by done.
  rewrite Z.lor_spec, Z.shiftl_spec by lia. destruct (Z.ltb_spec i 32).
  - rewrite Z.testbit_neg_r, !Z.testbit_mod_pow2 by lia. cbn [orb].
    destruct (Z.ltb_spec i 32), (Z.ltb_spec i 48); (done || lia).
  - rewrite !Z.testbit_mod_pow2, Z.shiftr_spec by lia. replace (i - 32 + 32) with i by lia.
    destruct (Z.ltb_spec i 32), (Z.ltb_spec i 48), (Z.ltb_spec (i - 32) 16); try lia; cbn;
      by rewrite ?orb_false_r.
Qed.

Lemma gen_reftag g k d :
  zlen d = sz -> has_flag c SPDK_DIF_FLAGS_REFTAG_CHECK = true ->
  _dif_get_reftag (store_var (_dif_generate g k c) d) f = wrap tag_bits (gen_tag k).
Proof.
  intros Hd Hf. rewrite gen_stores, Hf. cbv zeta. generalize (gen_tag k). intros t. unfold tag_bits.
  destruct f; explode; repeat destruct (has_flag _ _);
    (exact (from_to_be 4 t) || exact (from_to_be 8 t) || exact (tag_parts t)).
Qed.

Lemma tag_mask t :
  0 <= t < 2 ^ 64 ->
  match f with
  | SPDK_DIF_PI_FORMAT_16 => Z.land t REFTAG_MASK_16
  | SPDK_DIF_PI_FORMAT_32 => t
  | SPDK_DIF_PI_FORMAT_64 => Z.land t REFTAG_MASK_64
  end = wrap tag_bits t.
Proof.
  intros Ht. unfold tag_bits. destruct f.
  - change REFTAG_MASK_16 with (Z.ones 32). by rewrite Z.land_ones.
  - symmetry. by apply wrap_small.
  - change REFTAG_MASK_64 with (Z.ones 48). by rewrite Z.land_ones.
Qed.

Lemma block_ref_tag_range k : 0 <= block_ref_tag k c < 2 ^ 64.
Proof. unfold block_ref_tag. case_bool_decide; by apply wrap_range. Qed.

(** The reference tag is checked and the initial one asks for no check. *)
Definition tag_conflict : Prop :=
  has_flag c SPDK_DIF_FLAGS_REFTAG_CHECK = true /\ init_ref_tag c = SPDK_DIF_REFTAG_IGNORE /\
  dif_type c ≠ SPDK_DIF_TYPE3.

(** A generated field passes the verification with the same guard and block. *)
Lemma generated_verifies g k d :
  zlen d = sz -> 0 <= g < 2 ^ (8 * _dif_guard_size f) -> 0 <= app_tag c < 2 ^ 16 -> ~ tag_conflict ->
  _dif_verify (store_var (_dif_generate g k c) d) g k c = None.
Proof.
  intros Hd Hg Ha Ht. unfold _dif_verify. destruct (_dif_ignore _ _); [done|].
  assert (E1 : has_flag c SPDK_DIF_FLAGS_GUARD_CHECK
               && negb (_dif_get_guard (store_var (_dif_generate g k c) d) f =? g) = false).
  { destruct (has_flag c SPDK_DIF_FLAGS_GUARD_CHECK) eqn:E; [|done].
    by rewrite gen_guard, wrap_small, Z.eqb_refl by done. }
  rewrite E1. clear E1.
  assert (E2 : has_flag c SPDK_DIF_FLAGS_APPTAG_CHECK
               && negb (Z.land (_dif_get_apptag (store_var (_dif_generate g k c) d) f) (apptag_mask c)
                        =? Z.land (app_tag c) (apptag_mask c)) = false).
  { destruct (has_flag c SPDK_DIF_FLAGS_APPTAG_CHECK) eqn:E; [|done].
    by rewrite gen_apptag, wrap_small, Z.eqb_refl by done. }
  rewrite E2. clear E2. unfold _dif_reftag_check, _dif_reftag_match.
  destruct (has_flag c SPDK_DIF_FLAGS_REFTAG_CHECK) eqn:E; [|done]. rewrite gen_reftag by done.
  rewrite tag_mask by apply block_ref_tag_range. unfold gen_tag. unfold tag_conflict in Ht.
  destruct (Z.eqb_spec (init_ref_tag c) SPDK_DIF_REFTAG_IGNORE); [|by rewrite Z.eqb_refl; destruct (dif_type c)].
  destruct (dif_type c); try done; exfalso; by apply Ht.
Qed.

End Fields.

(** ** Guards *)

(** What ISA-L documents of the CRC functions: the CRC of a buffer can be
    computed piece by piece, seeded with that of the pieces before, and has the
    width of the result type. *)
Class CrcLaws (C : Crc) : Prop := {
  crc16_range : forall s bs, 0 <= crc16_t10dif s bs < 2 ^ 16;
  crc32_range : forall s bs, 0 <= crc32_iscsi s bs < 2 ^ 32;
  crc64_range : forall s bs, 0 <= crc64_rocksoft_refl s bs < 2 ^ 64;
  crc16_app : forall s a b, 0 <= s < 2 ^ 16 ->
    crc16_t10dif (crc16_t10dif s a) b = crc16_t10dif s (a ++ b);
  crc32_app : forall s a b, 0 <= s < 2 ^ 32 ->
    crc32_iscsi (crc32_iscsi s a) b = crc32_iscsi s (a ++ b);
  crc64_app : forall s a b, 0 <= s < 2 ^ 64 ->
    crc64_rocksoft_refl (crc64_rocksoft_refl s a) b = crc64_rocksoft_refl s (a ++ b) }.

Section Guards.
Context {C : Crc} {L : CrcLaws C}.

Lemma u32_not_range x : 0 <= u32_not x < 2 ^ 32.
Proof. unfold u32_not. by apply wrap_range. Qed.

Lemma u32_not_not x : 0 <= x < 2 ^ 32 -> u32_not (u32_not x) = x.
Proof.
  intros Hx. unfold u32_not, wrap. rewrite <- (Z.mod_small x (2 ^ 32)) at 2 by done.
  replace (- x - 1) with ((2 ^ 32 - 1 - x) + (-1) * 2 ^ 32) by lia.
  rewrite Z.mod_add by done. rewrite (Z.mod_small (2 ^ 32 - 1 - x)) by lia.
  replace (- (2 ^ 32 - 1 - x) - 1) with (x + (-1) * 2 ^ 32) by lia. by rewrite Z.mod_add.
Qed.

Lemma guard_range s bs f : 0 <= _dif_generate_guard s bs f < 2 ^ (8 * _dif_guard_size f).
Proof. destruct f; cbn; [apply crc16_range|apply u32_not_range|apply crc64_range]. Qed.

Lemma guard_app s a b f :
  0 <= s < 2 ^ 64 ->
  _dif_generate_guard (_dif_generate_guard s a f) b f = _dif_generate_guard s (a ++ b) f.
Proof.
  intros Hs. destruct f; cbn [_dif_generate_guard].
  - rewrite (wrap_small 16 (crc16_t10dif _ _)) by apply crc16_range. apply crc16_app. by apply wrap_range.
  - unfold spdk_crc32c_nvme. rewrite (wrap_small 32 (u32_not (crc32_iscsi _ _))) by apply u32_not_range.
    rewrite u32_not_not by apply crc32_range. f_equal. apply crc32_app, u32_not_range.
  - by apply crc64_app.
Qed.

Lemma guard_u64 s bs f : 0 <= _dif_generate_guard s bs f < 2 ^ 64.
Proof.
  pose proof (guard_range s bs f) as [H1 H2]. split; [done|]. eapply Z.lt_le_trans; [exact H2|]. by destruct f.
Qed.

End Guards.

(** ** Contexts *)

(** What spdk_dif_ctx_init gives for a format with interleaved metadata. *)
Record ctx_ok (c : dif_ctx) : Prop := {
  ok_md : _dif_size (dif_pi_format c) <= c_md_size c;
  ok_block : c_md_size c < block_size c < 2 ^ 32;
  ok_interval : block_size c - c_md_size c <= guard_interval c
                <= block_size c - _dif_size (dif_pi_format c);
  ok_seed : 0 <= guard_seed c < 2 ^ 64;
  ok_app : 0 <= app_tag c < 2 ^ 16 }.

Lemma size_pos f : 8 <= _dif_size f <= 16.
Proof. by destruct f. Qed.

Lemma ctx_init_ok bsz md loc t flags ref mask tag off seed opts c :
  0 <= bsz < 2 ^ 32 -> 0 <= md < 2 ^ 32 -> 0 <= tag < 2 ^ 16 -> 0 <= seed < 2 ^ 64 ->
  spdk_dif_ctx_init bsz md true loc t flags ref mask tag off seed opts = Ok (inl c) -> ctx_ok c.
Proof.
  intros Hb Hm Ht Hs. unfold spdk_dif_ctx_init. destruct (default _ opts) as [f|]; [|done].
  pose proof (size_pos f). destruct (Z.ltb_spec md (_dif_size f)); [done|]. destruct (Z.ltb_spec bsz md); [done|].
  rewrite wrap_small by lia. destruct (Z.eqb_spec (bsz - md) 0); [done|]. intros [= <-].
  constructor; cbn; try done; [lia|]. unfold _get_guard_interval. destruct loc; cbn [negb]; rewrite wrap_small; lia.
Qed.

(** ** The loops over one block *)

Section Walk.
Context {C : Crc} {L : CrcLaws C} (c : dif_ctx) (Hc : ctx_ok c).
Notation f := (dif_pi_format c).
Notation sz := (_dif_size f).
Notation gi := (guard_interval c).
Notation bs := (block_size c).
Notation G g l := (_dif_generate_guard g l f).
Notation guarded := (has_flag c SPDK_DIF_FLAGS_GUARD_CHECK).

Lemma ctx_bounds : 8 <= sz <= 16 /\ 0 < gi /\ gi + sz <= bs /\ bs < 2 ^ 32 /\ 0 < bs - c_md_size c <= gi.
Proof. destruct Hc. pose proof (size_pos f). lia. Qed.

Lemma guard_of_ok vs s p k n g st :
  iov_ok (mem st) vs -> at_pos vs s p -> 0 <= k -> 0 <= n -> k + n <= room s ->
  guard_of g (ptr_add (cur s) k) n c st = Ok (G g (slice (iov_bytes (mem st) vs) (p + k) n), st).
Proof.
  intros Ho Hp Hk Hn Hr. unfold guard_of. by rewrite (M_bind_ok _ _ _ _ _ (read_at _ _ _ _ _ _ Ho Hp Hk Hn Hr)).
Qed.

Lemma cur_0 s : ptr_add (cur s) 0 = cur s.
Proof. destruct (cur s) as [[b o]|]; cbn; [|done]. by rewrite Z.add_0_r. Qed.

(** The guard the first loop of a split function computes from [a] bytes of
    data. *)
Definition next_guard (g : Z) (data : list Z) : Z :=
  if guarded then match data with [] => g | _ => G g data end else g.

Lemma slice_ne F p n : 0 <= p -> 0 < n -> p + n <= zlen F -> slice F p n <> [].
Proof. intros H1 H2 H3 E. pose proof (slice_zlen F p n H1 ltac:(lia) H3) as H. rewrite E in H. change (zlen []) with 0 in H. lia. Qed.

Lemma next_guard_app g a b :
  0 <= g < 2 ^ 64 -> a ++ b <> [] -> next_guard (if guarded then G g a else g) b = next_guard g (a ++ b).
Proof.
  intros Hg Hne. unfold next_guard. destruct guarded; [|done]. destruct b as [|y b].
  - rewrite app_nil_r in *. by destruct a.
  - rewrite guard_app by done. by destruct a.
Qed.

Lemma guard_pieces_done n s o len g :
  len = 0 \/ gi <= o -> guard_pieces n s o len g c = mret (s, o, next_guard g []).
Proof.
  intros H. assert (E : negb (len =? 0) && (o <? gi) = false) by (apply andb_false_iff; lia).
  unfold next_guard. destruct n; cbn [guard_pieces]; rewrite E; by destruct guarded.
Qed.

Lemma guard_pieces_ok vs n s p o len g st :
  let e := Z.min (o + len) gi in
  let F := iov_bytes (mem st) vs in
  iov_ok (mem st) vs -> at_pos vs s p -> 0 <= o <= gi -> 0 <= len -> o + len < 2 ^ 32 ->
  p + (e - o) <= iov_total vs -> (length (sgl_iov s) < n)%nat -> 0 <= g < 2 ^ 64 ->
  exists s', guard_pieces n s o len g c st = Ok ((s', e, next_guard g (slice F p (e - o))), st) /\
    at_pos vs s' (p + (e - o)) /\ (o < e -> settled s') /\ (length (sgl_iov s') <= length (sgl_iov s))%nat.
Proof.
  cbv zeta. pose proof ctx_bounds as Hb. revert s p o len g.
  induction n as [|n IH]; intros s p o len g Hio Hp Ho Hlen H32 Ht Hn Hg; [lia|].
  cbn [guard_pieces]. remember (Z.min (o + len) gi) as e eqn:Ee.
  destruct (decide (o < e)) as [He|He].
  2:{ assert (e = o) as -> by lia. rewrite Z.sub_diag, Z.add_0_r, slice_nil. exists s.
      split_and!; [|done|lia|done]. exact (f_equal (fun x => x st) (guard_pieces_done (S n) s o len g ltac:(lia))). }
  replace (negb (len =? 0) && (o <? gi)) with true by (symmetry; apply andb_true_iff; lia).
  assert (Hlt : p < iov_total vs) by lia.
  rewrite (M_bind_ok _ _ _ _ _ (get_buf_ok _ _ _ _ st Hio Hp Hlt)).
  rewrite (wrap_small 32 (gi - o)) by lia.
  destruct (at_pos_bounds _ _ _ _ (io_fits_ _ _ Hio) Hp) as (Hp0 & Hpr & Hr0).
  remember (Z.min (Z.min (room s) len) (gi - o)) as l eqn:El.
  destruct (advance_ok _ _ _ _ l Hio Hp Hlt ltac:(lia)) as (Hp' & Hs' & Hle & Hlt').
  set (s1 := _dif_sgl_advance s l) in *. set (F := iov_bytes (mem st) vs).
  assert (Eg : (if guarded then guard_of g (cur s) l c else mret g) st
               = Ok (if guarded then G g (slice F p l) else g, st)).
  { destruct guarded; [|done]. rewrite <- (cur_0 s), (guard_of_ok vs s p 0 l g st) by (done || lia).
    by rewrite Z.add_0_r. }
  rewrite (M_bind_ok _ _ _ _ _ Eg). rewrite !wrap_small by lia.
  assert (HF : zlen F = iov_total vs) by apply bytes_zlen, Hio.
  assert (Hsl : slice F p (e - o) = slice F p l ++ slice F (p + l) (e - (o + l)))
    by (rewrite <- slice_app by lia; f_equal; lia).
  pose proof (slice_ne F p (e - o) ltac:(lia) ltac:(lia) ltac:(lia)) as Hne. rewrite Hsl in Hne |- *.
  rewrite <- next_guard_app by done. set (g1 := if guarded then _ else g).
  assert (Hg1 : 0 <= g1 < 2 ^ 64) by (unfold g1; destruct guarded; [apply guard_u64|done]).
  replace (p + (e - o)) with (p + l + (e - (o + l))) by lia.
  assert (Ee' : Z.min (o + l + (len - l)) gi = e) by lia.
  destruct (decide (l = e - o)) as [Heq|Hneq].
  - exists s1. replace (e - (o + l)) with 0 by lia. rewrite slice_nil, Z.add_0_r.
    split_and!; [|done|done|done]. replace e with (o + l) by lia.
    by rewrite guard_pieces_done by lia.
  - destruct (IH s1 (p + l) (o + l) (len - l) g1) as (s' & E & Hp2 & Hs2 & Hl2); rewrite ?Ee'; try (done || lia).
    exists s'. rewrite E. rewrite Ee'. split_and!; [done| |naive_solver lia|lia]. by rewrite Ee' in Hp2.
Qed.

(** What the body of a loop over the pieces of a field at [q] has to do. *)
Definition piece_body {A} (vs : list iovec) (q : Z) (body : option (nat * Z) -> Z -> Z -> A -> M pst A)
    (I : Z -> A -> pst -> Prop) : Prop :=
  forall s j l x st, iov_ok (mem st) vs -> at_pos vs s (q + j) -> 0 <= j -> 0 <= l -> j + l <= sz ->
    l <= room s -> I j x st ->
    exists x' st', body (cur s) j l x st = Ok (x', st') /\ I (j + l) x' st' /\ changed vs (mem st) (mem st').

(** The second loop of the split functions: [I j] holds when [j] bytes of the
    field at [q] have been passed to the body. *)
Lemma dif_pieces_ok {A} vs q (body : option (nat * Z) -> Z -> Z -> A -> M pst A) (I : Z -> A -> pst -> Prop) :
  piece_body vs q body I ->
  forall n s o x st,
  iov_ok (mem st) vs -> at_pos vs s (q + (o - gi)) -> settled s -> gi <= o <= bs ->
  q + (bs - gi) <= iov_total vs -> I (Z.min (o - gi) sz) x st ->
  o = bs \/ (length (sgl_iov s) + (if decide (o < gi + sz)%Z then 1 else 0) < n)%nat ->
  exists s' x' st', dif_pieces n s o c body x st = Ok ((s', x'), st') /\
    at_pos vs s' (q + (bs - gi)) /\ settled s' /\ I sz x' st' /\ changed vs (mem st) (mem st').
Proof.
  intros Hbody. pose proof ctx_bounds as Hb.
  induction n as [|n IH]; intros s o x st Hio Hp Hse Ho Ht HI Hn.
  all: cbn [dif_pieces]; destruct (Z.ltb_spec o bs) as [Hlt|Hge]; [try lia|].
  1, 3: assert (o = bs) as -> by lia; rewrite Z.min_r in HI by lia; exists s, x, st;
        split_and!; (done || apply changed_refl).
  assert (Hlt' : q + (o - gi) < iov_total vs) by lia.
  rewrite (M_bind_ok _ _ _ _ _ (get_buf_ok _ _ _ _ st Hio Hp Hlt')).
  destruct (at_pos_bounds _ _ _ _ (io_fits_ _ _ Hio) Hp) as (Hp0 & Hpr & Hr0).
  assert (Hr1 : 0 < room s).
  { destruct Hp as (pre & -> & Ep & Hh). rewrite total_app in Hlt'. unfold settled, room in *.
    destruct (sgl_iov s); [change (iov_total []) with 0 in Hlt'|]; lia. }
  (* one piece *)
  assert (exists l x1 st1, 0 <= l <= room s /\
            (if o <? gi + sz
             then x ← body (cur s) (u32 (o - gi)) (Z.min (room s) (sz - u32 (o - gi))) x;
                  mret (Z.min (room s) (sz - u32 (o - gi)), x)
             else mret (Z.min (room s) (u32 (bs - o)), x)) st = Ok ((l, x1), st1) /\
            l = Z.min (room s) (if decide (o < gi + sz) then gi + sz - o else bs - o) /\
            I (Z.min (o + l - gi) sz) x1 st1 /\ changed vs (mem st) (mem st1))
    as (l & x1 & st1 & Hl & E & El & HI1 & Hch).
  { destruct (Z.ltb_spec o (gi + sz)) as [H|H].
    - rewrite !wrap_small by lia. rewrite Z.min_l in HI by lia.
      destruct (Hbody s (o - gi) (Z.min (room s) (sz - (o - gi))) x st) as (x1 & st1 & E1 & HI1 & Hch); try (done || lia).
      eexists _, x1, st1. split; [|split]; [|rewrite (M_bind_ok _ _ _ _ _ E1); reflexivity|]; [lia|].
      case_decide; [|lia]. split_and!; [lia| |done].
      rewrite Z.min_l by lia. by replace (o + _ - gi) with (o - gi + Z.min (room s) (sz - (o - gi))) by lia.
    - rewrite !wrap_small by lia. rewrite Z.min_r in HI by lia. eexists _, x, st. split; [|split]; [|reflexivity|]; [lia|].
      case_decide; [lia|]. split_and!; [done|by rewrite Z.min_r by lia|apply changed_refl]. }
  rewrite (M_bind_ok _ _ _ _ _ E). rewrite wrap_small by (case_decide; lia).
  destruct (advance_ok _ _ _ _ l Hio Hp Hlt' Hl) as (Hp' & Hs' & Hle & Hlt2).
  destruct (IH (_dif_sgl_advance s l) (o + l) x1 st1) as (s' & x' & st' & E' & Hp2 & Hs2 & HI2 & Hch2); try done.
  - by eapply iov_ok_changed.
  - by replace (q + (o + l - gi)) with (q + (o - gi) + l) by lia.
  - case_decide; lia.
  - destruct Hn as [?|Hn]; [lia|]. repeat case_decide; lia.
  - exists s', x', st'. split_and!; [done|done|done|done|]. by eapply changed_trans.
Qed.

Lemma dif_bytes_slice d o n : dif_bytes d o n = slice d o n.
Proof. done. Qed.

(** [j] bytes of the field [d] are written; [j] bytes of the field are read. *)
Definition put_inv vs q d (st : pst) (j : Z) (_ : unit) (st' : pst) : Prop :=
  st' = set_mem (fun _ => mem st') st /\
  iov_bytes (mem st') vs = splice q (slice d 0 j) (iov_bytes (mem st) vs).
Definition get_inv vs q (st : pst) (j : Z) (d : list Z) (st' : pst) : Prop :=
  st' = st /\ d = splice 0 (slice (iov_bytes (mem st) vs) q j) (dif_zero c).

Lemma dif_zero_zlen : zlen (dif_zero c) = sz.
Proof. pose proof (size_pos f). unfold zlen, dif_zero. rewrite length_replicate. lia. Qed.

Lemma put_body vs q d st :
  iov_ok (mem st) vs -> zlen d = sz -> 0 <= q -> q + sz <= iov_total vs ->
  piece_body vs q (put_piece d) (put_inv vs q d st).
Proof.
  intros Hio Hd Hp0 Ht s1 j l [] st1 Hio1 Hp1 Hj Hl Hjl Hr [E1 E2]. unfold put_piece. rewrite dif_bytes_slice.
  assert (HF : zlen (iov_bytes (mem st) vs) = iov_total vs) by apply bytes_zlen, Hio.
  assert (Hz : zlen (slice d j l) = l) by (apply slice_zlen; lia).
  destruct (write_at vs s1 _ 0 (slice d j l) st1 Hio1 Hp1 ltac:(lia) ltac:(lia)) as (m' & E & Hch & Eb).
  rewrite cur_0 in E. exists tt, (set_mem (fun _ => m') st1). split_and!; [done|split; [by rewrite E1|]|done].
  cbn. rewrite Eb, E2, Z.add_0_r. assert (Hz2 : zlen (slice d 0 j) = j) by (apply slice_zlen; lia).
  rewrite (slice_app d 0 j l) by lia. rewrite <- (splice_app q (slice d 0 j)); [by rewrite Hz2|done|].
  rewrite zlen_app, Hz2, Z.add_0_l, Hz. lia.
Qed.

Lemma get_body vs q st :
  iov_ok (mem st) vs -> 0 <= q -> q + sz <= iov_total vs -> piece_body vs q get_piece (get_inv vs q st).
Proof.
  intros Hio Hp0 Ht s1 j l d st1 Hio1 Hp1 Hj Hl Hjl Hr [-> ->]. unfold get_piece. set (F := iov_bytes (mem st) vs).
  assert (HF : zlen F = iov_total vs) by apply bytes_zlen, Hio.
  pose proof (read_at vs s1 _ 0 l st Hio1 Hp1 ltac:(lia) Hl ltac:(lia)) as E. rewrite cur_0, Z.add_0_r in E.
  rewrite (M_bind_ok _ _ _ _ _ E). eexists _, st. split_and!; [reflexivity|split; [done|]|apply changed_refl].
  fold F. assert (Hz2 : zlen (slice F q j) = j) by (apply slice_zlen; lia).
  assert (Hz3 : zlen (slice F (q + j) l) = l) by (apply slice_zlen; lia).
  rewrite (slice_app F q j l) by lia. rewrite <- (splice_app 0 (slice F q j)); [by rewrite Hz2|done|].
  rewrite zlen_app, Hz2, Hz3, dif_zero_zlen. lia.
Qed.

Lemma put_start vs q d st : 0 <= q -> put_inv vs q d st 0 tt st.
Proof. intros Hq. split; [by destruct st|]. by rewrite slice_nil, splice_nil. Qed.

Lemma put_end vs q d st st' :
  zlen d = sz -> put_inv vs q d st sz tt st' -> iov_bytes (mem st') vs = splice q d (iov_bytes (mem st) vs).
Proof. intros Hd [_ ->]. by rewrite <- Hd, slice_all. Qed.

Lemma get_start vs q st : get_inv vs q st 0 (dif_zero c) st.
Proof. split; [done|]. by rewrite slice_nil, splice_nil. Qed.

Lemma get_end vs q st d st' :
  iov_ok (mem st) vs -> 0 <= q -> q + sz <= iov_total vs -> get_inv vs q st sz d st' ->
  st' = st /\ d = slice (iov_bytes (mem st) vs) q sz.
Proof.
  intros Hio Hq Ht [-> ->]. split; [done|]. apply splice_whole. pose proof (size_pos f).
  rewrite dif_zero_zlen. apply slice_zlen; [lia|lia|]. rewrite bytes_zlen by apply Hio. lia.
Qed.

Lemma dif_pieces_put vs q n s o d st :
  iov_ok (mem st) vs -> at_pos vs s q -> settled s -> o = gi -> q + (bs - gi) <= iov_total vs ->
  zlen d = sz -> (length (sgl_iov s) + 1 < n)%nat ->
  exists s' m', dif_pieces n s o c (put_piece d) tt st = Ok ((s', tt), set_mem (fun _ => m') st) /\
    at_pos vs s' (q + (bs - gi)) /\ settled s' /\ changed vs (mem st) m' /\
    iov_bytes m' vs = splice q d (iov_bytes (mem st) vs).
Proof.
  intros Hio Hp Hse -> Ht Hd Hn. pose proof ctx_bounds as Hb.
  destruct (at_pos_bounds _ _ _ _ (io_fits_ _ _ Hio) Hp) as (Hp0 & _).
  destruct (dif_pieces_ok vs q (put_piece d) (put_inv vs q d st) (put_body vs q d st Hio Hd Hp0 ltac:(lia))
    n s gi tt st) as (s' & [] & st' & E & H1 & H2 & H3 & H5); try (done || lia).
  - by rewrite Z.sub_diag, Z.add_0_r.
  - rewrite Z.sub_diag, Z.min_l by lia. by apply put_start.
  - right. case_decide; lia.
  - exists s', (mem st'). split_and!; [|done|done|done|by apply put_end]. rewrite E. by rewrite (proj1 H3) at 1.
Qed.

Lemma dif_pieces_get vs q n s o st :
  iov_ok (mem st) vs -> at_pos vs s q -> settled s -> o = gi -> q + (bs - gi) <= iov_total vs ->
  (length (sgl_iov s) + 1 < n)%nat ->
  exists s', dif_pieces n s o c get_piece (dif_zero c) st = Ok ((s', slice (iov_bytes (mem st) vs) q sz), st) /\
    at_pos vs s' (q + (bs - gi)) /\ settled s'.
Proof.
  intros Hio Hp Hse -> Ht Hn. pose proof ctx_bounds as Hb.
  destruct (at_pos_bounds _ _ _ _ (io_fits_ _ _ Hio) Hp) as (Hp0 & _).
  destruct (dif_pieces_ok vs q get_piece (get_inv vs q st) (get_body vs q st Hio Hp0 ltac:(lia))
    n s gi (dif_zero c) st) as (s' & d & st' & E & H1 & H2 & H3 & H5); try (done || lia).
  - by rewrite Z.sub_diag, Z.add_0_r.
  - rewrite Z.sub_diag, Z.min_l by lia. apply get_start.
  - right. case_decide; lia.
  - destruct (get_end vs q st d st' Hio Hp0 ltac:(lia) H3) as [-> ->]. by exists s'.
Qed.

End Walk.
