(* ===== verification/DifBlocks.v ===== *)
(** * Protection information: blocks and buffers

    The functions of dif.c over whole buffers, as functions of the bytes of the
    buffer: [gen_at] writes the field of one block, [verify_at] checks one.
    Both the path for blocks that are contiguous and the path for blocks that
    are split over iovecs compute them. *)

From S2P Require Import Prelude Pipe PipeLemmas IovLemmas Dif DifMem DifLemmas.

Section Blocks.
Context {C : Crc} (c : dif_ctx).
Notation sz := (_dif_size (dif_pi_format c)).
Notation gi := (guard_interval c).
Notation bs := (block_size c).

(** The guard of the block at [p], its generated field over [base], and its
    verification. *)
Definition block_guard (F : list Z) (p : Z) : Z :=
  if has_flag c SPDK_DIF_FLAGS_GUARD_CHECK
  then _dif_generate_guard (guard_seed c) (slice F p gi) (dif_pi_format c) else 0.

Definition field (base F : list Z) (k p : Z) : list Z := store_var (_dif_generate (block_guard F p) k c) base.

(** The bytes under the fields of a block that are not generated: zeros when the
    block is written piece by piece. *)
Definition base_of (z : bool) (F : list Z) (p : Z) : list Z := if z then dif_zero c else slice F (p + gi) sz.

Definition gen_at (z : bool) (k : Z) (F : list Z) : list Z :=
  splice (k * bs + gi) (field (base_of z F (k * bs)) F k (k * bs)) F.

Fixpoint flat_generate (z : bool) (n : nat) (F : list Z) : list Z :=
  match n with O => F | S n' => gen_at z (Z.of_nat n') (flat_generate z n' F) end.

Definition verify_at (k : Z) (F : list Z) : option dif_error :=
  _dif_verify (slice F (k * bs + gi) sz) (block_guard F (k * bs)) k c.

End Blocks.

(** The first error of the checks from [k] on. *)
Fixpoint first_err (chk : Z -> option dif_error) (n : nat) (k : Z) : option dif_error :=
  match n with
  | O => None
  | S n' => match chk k with Some e => Some e | None => first_err chk n' (k + 1) end
  end.

Section Walk.
Context {C : Crc} {L : CrcLaws C} (c : dif_ctx) (Hc : ctx_ok c).
Notation f := (dif_pi_format c).
Notation sz := (_dif_size f).
Notation gi := (guard_interval c).
Notation bs := (block_size c).
Notation guarded := (has_flag c SPDK_DIF_FLAGS_GUARD_CHECK).

(** ** One block *)

Lemma gen_in_field g k : Forall (fun '(o, b) => 0 <= o /\ o + zlen b <= sz) (_dif_generate g k c).
Proof.
  unfold _dif_generate. rewrite !Forall_app. split_and!; destruct (has_flag _ _); try constructor; try constructor; by destruct f.
Qed.

Lemma store_zlen l d :
  Forall (fun '(o, b) => 0 <= o /\ o + zlen b <= zlen d) l -> zlen (store_var l d) = zlen d.
Proof.
  revert d. induction l as [|[o b] l IH]; intros d Hl; [done|]. apply Forall_cons in Hl as [[Ho Hb] Hl].
  assert (E : zlen (splice o b d) = zlen d) by (by apply splice_zlen).
  change (store_var ((o, b) :: l) d) with (store_var l (splice o b d)).
  rewrite IH; [done|]. by rewrite E.
Qed.

Lemma store_mem_ok vs s p o l st :
  iov_ok (mem st) vs -> at_pos vs s p -> 0 <= o -> o + sz <= room s ->
  Forall (fun '(x, b) => 0 <= x /\ x + zlen b <= sz) l ->
  exists m', store_mem (ptr_add (cur s) o) l st = Ok (tt, set_mem (fun _ => m') st) /\ changed vs (mem st) m' /\
    iov_bytes m' vs = splice (p + o) (store_var l (slice (iov_bytes (mem st) vs) (p + o) sz)) (iov_bytes (mem st) vs).
Proof.
  intros Hio Hp Ho Hr Hl. pose proof (size_pos f) as Hsz. revert st Hio.
  induction Hl as [|[x b] l [Hx Hb] Hl IH]; intros st Hio;
    destruct (at_pos_bounds _ _ _ _ (io_fits_ _ _ Hio) Hp) as (Hp0 & Hpr & _);
    assert (HF : zlen (iov_bytes (mem st) vs) = iov_total vs) by apply bytes_zlen, Hio.
  { exists (mem st). split_and!; [by destruct st|apply changed_refl|]. cbn. by rewrite splice_slice by lia. }
  cbn [store_mem]. rewrite ptr_add_add.
  destruct (write_at vs s p (o + x) b st Hio Hp ltac:(lia) ltac:(lia)) as (m1 & E1 & Hc1 & Eb1).
  rewrite (M_bind_ok _ _ _ _ _ E1). set (st1 := set_mem (fun _ => m1) st).
  destruct (IH st1) as (m2 & E2 & Hc2 & Eb2); [by eapply iov_ok_changed|].
  exists m2. split_and!; [done|by eapply changed_trans|]. rewrite Eb2. cbn [st1 mem set_mem].
  set (F := iov_bytes (mem st) vs) in *. assert (Hs : zlen (slice F (p + o) sz) = sz) by (apply slice_zlen; lia).
  assert (E : iov_bytes m1 vs = splice (p + o) (splice x b (slice F (p + o) sz)) F).
  { rewrite Eb1, Z.add_assoc. apply splice_part; lia. }
  assert (Hs2 : zlen (splice x b (slice F (p + o) sz)) = sz) by (rewrite splice_zlen; lia).
  rewrite E, slice_splice_eq by (done || lia). apply splice_twice; [lia| |lia].
  rewrite Hs2, store_zlen; rewrite Hs; [done|]. by constructor.
Qed.

(** The part of a block a split function is called for. *)
Record part_ok (o len : Z) : Prop := {
  part_start : 0 <= o < gi;
  part_len : 0 <= len;
  part_end : o + len < gi \/ o + len = bs }.

Lemma split_assert_ok o len st : part_ok o len -> split_assert o len c st = Ok (tt, st).
Proof.
  intros [Hq1 Hq2 Hq3]. destruct (ctx_bounds c Hc) as (? & ? & ? & ? & _). unfold split_assert.
  rewrite !wrap_small by lia. unfold c_assert, mbind, M_bind, mret, M_ret.
  destruct (Z.ltb_spec o gi); [|lia]. destruct (Z.ltb_spec (o + len) gi), (Z.eqb_spec (o + len) bs); (done || lia).
Qed.

(** The guard behind the data of a part, and the guard for the next call. *)
Definition part_guard (g o len : Z) (F : list Z) (p : Z) : Z :=
  next_guard c g (slice F p (Z.min (o + len) gi - o)).
Definition next_start (g o len : Z) : Z :=
  if decide (o + len < gi) then g else if guarded then guard_seed c else g.

Lemma generate_split_ok vs s p o len g k st :
  let F := iov_bytes (mem st) vs in
  let g1 := part_guard g o len F p in
  iov_ok (mem st) vs -> at_pos vs s p -> part_ok o len -> p + len <= iov_total vs -> 0 <= g < 2 ^ 64 ->
  exists s' m', _dif_generate_split s o len g k c st = Ok ((s', next_start g1 o len), set_mem (fun _ => m') st) /\
    at_pos vs s' (p + len) /\ changed vs (mem st) m' /\
    iov_bytes m' vs =
      (if decide (o + len < gi) then F
       else splice (p + (gi - o)) (store_var (_dif_generate g1 k c) (dif_zero c)) F).
Proof.
  cbv zeta. intros Hio Hp Hpart Ht Hg. destruct (ctx_bounds c Hc) as (? & ? & ? & ? & _).
  unfold _dif_generate_split. rewrite (M_bind_ok _ _ _ _ _ (split_assert_ok _ _ _ Hpart)).
  destruct Hpart as [Hq1 Hq2 Hq3].
  destruct (guard_pieces_ok c Hc vs (pieces s) s p o len g st) as (s1 & E1 & Hp1 & Hs1 & Hl1); try (done || lia).
  { unfold pieces. lia. }
  rewrite (M_bind_ok _ _ _ _ _ E1). fold (part_guard g o len (iov_bytes (mem st) vs) p).
  set (g1 := part_guard _ _ _ _ _). unfold next_start. case_decide as Hd.
  - rewrite Z.min_l in * by lia. destruct (Z.ltb_spec (o + len) gi); [|lia]. exists s1, (mem st).
    replace (p + len) with (p + (o + len - o)) by lia. split_and!; [by destruct st|done|apply changed_refl|done].
  - rewrite Z.min_r in * by lia. destruct (Z.ltb_spec gi gi); [lia|].
    destruct (dif_pieces_put c Hc vs (p + (gi - o)) (pieces s1) s1 gi (store_var (_dif_generate g1 k c) (dif_zero c)) st)
      as (s2 & m' & E2 & Hp2 & Hs2 & Hch & Eb); try (done || lia).
    + apply Hs1. lia.
    + apply gen_zlen. apply dif_zero_zlen.
    + unfold pieces. lia.
    + rewrite (M_bind_ok _ _ _ _ _ E2). exists s2, m'.
      replace (p + len) with (p + (gi - o) + (bs - gi)) by lia. done.
Qed.

Lemma verify_split_ok vs s p o len g k st :
  let F := iov_bytes (mem st) vs in
  let g1 := part_guard g o len F p in
  iov_ok (mem st) vs -> at_pos vs s p -> part_ok o len -> p + len <= iov_total vs -> 0 <= g < 2 ^ 64 ->
  exists s', at_pos vs s' (p + len) /\
    _dif_verify_split s o len g k c st =
      Ok (if decide (o + len < gi) then inl (s', g1)
          else or_error (_dif_verify (slice F (p + (gi - o)) sz) g1 k c) (s', next_start g1 o len), st).
Proof.
  cbv zeta. intros Hio Hp Hpart Ht Hg. destruct (ctx_bounds c Hc) as (? & ? & ? & ? & _).
  unfold _dif_verify_split. rewrite (M_bind_ok _ _ _ _ _ (split_assert_ok _ _ _ Hpart)).
  destruct Hpart as [Hq1 Hq2 Hq3].
  destruct (guard_pieces_ok c Hc vs (pieces s) s p o len g st) as (s1 & E1 & Hp1 & Hs1 & Hl1); try (done || lia).
  { unfold pieces. lia. }
  rewrite (M_bind_ok _ _ _ _ _ E1). fold (part_guard g o len (iov_bytes (mem st) vs) p).
  set (g1 := part_guard _ _ _ _ _). unfold next_start. case_decide as Hd.
  - rewrite Z.min_l in * by lia. destruct (Z.ltb_spec (o + len) gi); [|lia]. exists s1.
    by replace (p + len) with (p + (o + len - o)) by lia.
  - rewrite Z.min_r in * by lia. destruct (Z.ltb_spec gi gi); [lia|].
    destruct (dif_pieces_get c Hc vs (p + (gi - o)) (pieces s1) s1 gi st) as (s2 & E2 & Hp2 & Hs2); try (done || lia).
    + apply Hs1. lia.
    + unfold pieces. lia.
    + rewrite (M_bind_ok _ _ _ _ _ E2). exists s2. split; [|done].
      by replace (p + len) with (p + (gi - o) + (bs - gi)) by lia.
Qed.

Lemma start_guard_range : 0 <= start_guard c < 2 ^ 64.
Proof. unfold start_guard. destruct guarded; [apply Hc|done]. Qed.

Lemma whole_part : part_ok 0 bs.
Proof. destruct (ctx_bounds c Hc) as (? & ? & ? & ? & _). constructor; lia. Qed.

Lemma whole_guard F p : 0 <= p -> p + bs <= zlen F -> part_guard (start_guard c) 0 bs F p = block_guard c F p.
Proof.
  intros Hp Hl. destruct (ctx_bounds c Hc) as (? & ? & ? & ? & _).
  unfold part_guard, start_guard, block_guard, next_guard. destruct guarded; [|done].
  rewrite Z.min_r, Z.sub_0_r by lia.
  pose proof (slice_ne F p gi ltac:(lia) ltac:(lia) ltac:(lia)) as Hne.
  by destruct (slice F p gi).
Qed.

Lemma whole_start F p : next_start (block_guard c F p) 0 bs = start_guard c.
Proof.
  destruct (ctx_bounds c Hc) as (? & ? & ? & ? & _). unfold next_start, start_guard, block_guard.
  case_decide; [lia|]. by destruct guarded.
Qed.

(** ** The loops over the blocks *)

Lemma for_blocks_inv {A} (I : Z -> A -> pst -> Prop) body n k x st :
  0 <= k -> k + Z.of_nat n < 2 ^ 32 -> I k x st ->
  (forall j x st, k <= j < k + Z.of_nat n -> I j x st ->
     exists x' st', body j x st = Ok (x', st') /\ I (j + 1) x' st') ->
  exists x' st', for_blocks n k body x st = Ok (x', st') /\ I (k + Z.of_nat n) x' st'.
Proof.
  revert k x st. induction n as [|n IH]; intros k x st Hk Hn HI Hb.
  { exists x, st. by rewrite Z.add_0_r. }
  cbn [for_blocks]. destruct (Hb k x st ltac:(lia) HI) as (x1 & st1 & E1 & HI1).
  rewrite (M_bind_ok _ _ _ _ _ E1), wrap_small by lia.
  destruct (IH (k + 1) x1 st1) as (x' & st' & E & HI'); [lia|lia|done| |].
  { intros j y s Hj. apply Hb. lia. }
  exists x', st'. split; [done|]. by replace (k + Z.of_nat (S n)) with (k + 1 + Z.of_nat n) by lia.
Qed.

(** A loop of checks ends with the first error; [R] holds behind it. *)
Lemma for_blocks_err_inv {A} (I : Z -> A -> pst -> Prop) (R : pst -> Prop) (chk : Z -> option dif_error) body n k x st :
  0 <= k -> k + Z.of_nat n < 2 ^ 32 -> I k x st ->
  (forall j x st, k <= j < k + Z.of_nat n -> I j x st ->
     exists x' st', body j x st = Ok (or_error (chk j) x', st') /\
       if chk j then R st' else I (j + 1) x' st') ->
  exists x' st', for_blocks_err n k body x st = Ok (or_error (first_err chk n k) x', st') /\
    if first_err chk n k then R st' else I (k + Z.of_nat n) x' st'.
Proof.
  revert k x st. induction n as [|n IH]; intros k x st Hk Hn HI Hb.
  { exists x, st. cbn. by rewrite Z.add_0_r. }
  cbn [for_blocks_err first_err]. destruct (Hb k x st ltac:(lia) HI) as (x1 & st1 & E1 & HI1).
  rewrite (M_bind_ok _ _ _ _ _ E1). destruct (chk k) as [e|] eqn:Ec; cbn [or_error]; [by exists x1, st1|].
  rewrite wrap_small by lia.
  destruct (IH (k + 1) x1 st1) as (x' & st' & E & HI'); [lia|lia|done| |].
  { intros i y s Hi. apply Hb. lia. }
  exists x', st'. split; [done|]. by replace (k + Z.of_nat (S n)) with (k + 1 + Z.of_nat n) by lia.
Qed.

(** ** Whole buffers *)

Lemma gen_at_zlen z k F : 0 <= k -> k * bs + bs <= zlen F -> zlen (gen_at c z k F) = zlen F.
Proof.
  intros Hk Hl. destruct (ctx_bounds c Hc) as (? & ? & ? & ? & _). unfold gen_at.
  assert (0 <= k * bs) by nia.
  assert (Hz : zlen (field c (base_of c z F (k * bs)) F k (k * bs)) = sz).
  { apply gen_zlen. unfold base_of. destruct z; [apply dif_zero_zlen|apply slice_zlen; lia]. }
  apply splice_zlen; lia.
Qed.

Lemma flat_zlen z n F : Z.of_nat n * bs <= zlen F -> zlen (flat_generate c z n F) = zlen F.
Proof.
  induction n as [|n IH]; intros Hl; [done|]. destruct (ctx_bounds c Hc) as (? & ? & ? & ? & _).
  cbn [flat_generate]. rewrite gen_at_zlen; rewrite ?IH by lia; lia.
Qed.

(** The states of a generation behind block [k]. *)
Record gen_inv (vs : list iovec) (z : bool) (st0 : pst) (k : Z) (s : dif_sgl) (st : pst) : Prop := {
  gi_pos : at_pos vs s (k * bs);
  gi_settled : z = false -> settled s;
  gi_state : st = set_mem (fun _ => mem st) st0;
  gi_changed : changed vs (mem st0) (mem st);
  gi_bytes : iov_bytes (mem st) vs = flat_generate c z (Z.to_nat k) (iov_bytes (mem st0) vs) }.

Section Buffer.
Variables (vs : list iovec) (n : Z) (st : pst).
Hypotheses (Hio : iov_ok (mem st) vs) (Hn : 0 <= n < 2 ^ 32) (Ht : n * bs <= iov_total vs).

Lemma block_bounds k : 0 <= k < n -> 0 <= k * bs /\ k * bs + bs <= iov_total vs.
Proof. intros Hk. destruct (ctx_bounds c Hc) as (? & ? & ? & ? & _). nia. Qed.

Lemma gen_inv_start z s :
  at_pos vs s 0 -> (z = false -> settled s) -> gen_inv vs z st 0 s st.
Proof. intros Hp Hs. constructor; [done|done|by destruct st|apply changed_refl|done]. Qed.

Lemma gen_inv_next z k s st1 s' m' :
  0 <= k -> gen_inv vs z st k s st1 -> at_pos vs s' (k * bs + bs) -> (z = false -> settled s') ->
  changed vs (mem st1) m' -> iov_bytes m' vs = gen_at c z k (iov_bytes (mem st1) vs) ->
  gen_inv vs z st (k + 1) s' (set_mem (fun _ => m') st1).
Proof.
  intros Hk [H1 H2 H3 H4 H5] Hp Hs Hch Eb. constructor; cbn.
  - by replace ((k + 1) * bs) with (k * bs + bs) by lia.
  - naive_solver.
  - by rewrite H3.
  - by eapply changed_trans.
  - replace (Z.to_nat (k + 1)) with (S (Z.to_nat k)) by lia. cbn [flat_generate].
    rewrite Z2Nat.id by done. by rewrite <- H5.
Qed.

Lemma generate_split_blocks :
  exists s' st', dif_generate_split (_dif_sgl_init vs) n c st = Ok (s', st') /\ gen_inv vs true st n s' st'.
Proof.
  unfold dif_generate_split.
  destruct (for_blocks_inv (gen_inv vs true st)
    (fun k s => '(s, _) ← _dif_generate_split s 0 bs (start_guard c) k c; mret s) (Z.to_nat n) 0 (_dif_sgl_init vs) st)
    as (s' & st' & E & HI); [lia|lia| | |exists s', st'; split; [done|by rewrite Z2Nat.id in HI by lia]].
  { apply gen_inv_start; [apply at_pos_init|done]. }
  intros j s st1 Hj HI. pose proof (block_bounds j ltac:(lia)) as Hjb.
  assert (Hio1 : iov_ok (mem st1) vs) by (eapply iov_ok_changed; [apply HI|done]).
  assert (HF : zlen (iov_bytes (mem st1) vs) = iov_total vs) by apply bytes_zlen, Hio1.
  destruct (generate_split_ok vs s (j * bs) 0 bs (start_guard c) j st1) as (s' & m' & E & Hp' & Hch & Eb);
    [done|apply HI|apply whole_part|lia|apply start_guard_range|].
  rewrite (M_bind_ok _ _ _ _ _ E). eexists s', _. split; [reflexivity|].
  apply (gen_inv_next true j s); [lia|done|done|done|done|]. rewrite Eb, whole_guard by lia.
  destruct (ctx_bounds c Hc) as (? & ? & ? & ? & _). case_decide; [lia|]. by rewrite Z.sub_0_r.
Qed.

Lemma verify_split_blocks :
  exists x, dif_verify_split (_dif_sgl_init vs) n c st
    = Ok (or_error (first_err (fun k => verify_at c k (iov_bytes (mem st) vs)) (Z.to_nat n) 0) x, st).
Proof.
  unfold dif_verify_split. set (chk := fun k => verify_at c k (iov_bytes (mem st) vs)).
  match goal with |- context [for_blocks_err _ _ ?body _ _] =>
    destruct (for_blocks_err_inv (fun k '(s, g) st' => st' = st /\ at_pos vs s (k * bs) /\ g = start_guard c) (eq st) chk body
      (Z.to_nat n) 0 (_dif_sgl_init vs, start_guard c) st) as (x & st' & E & HI); [lia|lia| | |] end.
  { split_and!; [done|apply at_pos_init|done]. }
  2:{ exists x. assert (st' = st) as -> by (destruct (first_err _ _ _); [done|by destruct x, HI]). exact E. }
  intros j [s g] st1 Hj (-> & Hp & ->). pose proof (block_bounds j ltac:(lia)) as Hjb.
  assert (HF : zlen (iov_bytes (mem st) vs) = iov_total vs) by apply bytes_zlen, Hio.
  destruct (ctx_bounds c Hc) as (? & ? & ? & ? & _).
  destruct (verify_split_ok vs s (j * bs) 0 bs (start_guard c) j st) as (s' & Hp' & E);
    [done|done|apply whole_part|lia|apply start_guard_range|].
  rewrite whole_guard, whole_start, Z.sub_0_r in E by lia. case_decide; [lia|].
  exists (s', start_guard c), st. split; [exact E|]. destruct (chk j); [done|].
  split_and!; [done| |done]. by replace ((j + 1) * bs) with (j * bs + bs) by lia.
Qed.

Lemma guard_block_ok s p st1 :
  iov_ok (mem st1) vs -> at_pos vs s p -> bs <= room s ->
  (if guarded then guard_of (guard_seed c) (cur s) gi c else mret 0) st1
  = Ok (block_guard c (iov_bytes (mem st1) vs) p, st1).
Proof.
  intros Hio1 Hp Hr. unfold block_guard. destruct guarded; [|done]. destruct (ctx_bounds c Hc) as (? & ? & ? & ? & _).
  rewrite <- (cur_0 s), (guard_of_ok c vs s p 0 gi) by (done || lia). by rewrite Z.add_0_r.
Qed.

(** The path for contiguous blocks; the walk must not begin at an empty iovec. *)
Hypothesis Hm : forallb (fun v => iov_len v mod bs =? 0) vs = true.
Hypothesis Hhead : settled (_dif_sgl_init vs).

Lemma generate_blocks :
  exists s' st', dif_generate (_dif_sgl_init vs) n c st = Ok (s', st') /\ gen_inv vs false st n s' st'.
Proof.
  unfold dif_generate.
  match goal with |- context [for_blocks _ _ ?body _ _] =>
    destruct (for_blocks_inv (gen_inv vs false st) body (Z.to_nat n) 0 (_dif_sgl_init vs) st)
    as (s' & st' & E & HI); [lia|lia| | |exists s', st'; split; [done|by rewrite Z2Nat.id in HI by lia]] end.
  { apply gen_inv_start; [apply at_pos_init|done]. }
  intros j s st1 Hj HI. pose proof (block_bounds j ltac:(lia)) as Hjb.
  assert (Hio1 : iov_ok (mem st1) vs) by (eapply iov_ok_changed; [apply HI|done]).
  destruct (ctx_bounds c Hc) as (? & ? & ? & ? & _).
  pose proof (gi_pos _ _ _ _ _ _ HI) as Hp.
  assert (Hr : bs <= room s).
  { eapply block_room; [apply Hio1|exact Hp|by apply HI|lia|lia|done|apply Z.mod_mul; lia]. }
  rewrite (M_bind_ok _ _ _ _ _ (get_buf_ok _ _ _ _ st1 Hio1 Hp ltac:(lia))).
  rewrite (M_bind_ok _ _ _ _ _ (guard_block_ok s _ st1 Hio1 Hp Hr)).
  set (g := block_guard c _ _).
  destruct (store_mem_ok vs s (j * bs) gi (_dif_generate g j c) st1) as (m' & E & Hch & Eb); try (done || lia).
  { apply gen_in_field. }
  rewrite (M_bind_ok _ _ _ _ _ E). eexists (_dif_sgl_advance s bs), _. split; [reflexivity|].
  destruct (advance_ok _ _ _ _ bs Hio1 Hp ltac:(lia) ltac:(lia)) as (Hp' & Hs' & _).
  apply (gen_inv_next false j s); [lia|done|done|done|done|]. exact Eb.
Qed.

(** A verification leaves the memory, and stops at the first error. *)
Lemma verify_blocks :
  exists x, dif_verify (_dif_sgl_init vs) n c st
    = Ok (or_error (first_err (fun k => verify_at c k (iov_bytes (mem st) vs)) (Z.to_nat n) 0) x, st).
Proof.
  unfold dif_verify. set (chk := fun k => verify_at c k (iov_bytes (mem st) vs)).
  match goal with |- context [for_blocks_err _ _ ?body _ _] =>
    destruct (for_blocks_err_inv (fun k s st' => st' = st /\ at_pos vs s (k * bs) /\ settled s) (eq st) chk body
      (Z.to_nat n) 0 (_dif_sgl_init vs) st) as (x & st' & E & HI); [lia|lia| | |] end.
  { split_and!; [done|apply at_pos_init|done]. }
  2:{ exists x. assert (st' = st) as -> by (destruct (first_err _ _ _); [done|by destruct HI]). exact E. }
  intros j s st1 Hj (-> & Hp & Hs). pose proof (block_bounds j ltac:(lia)) as Hjb.
  destruct (ctx_bounds c Hc) as (? & ? & ? & ? & _).
  assert (Hr : bs <= room s).
  { eapply block_room; [apply Hio|exact Hp|done|lia|lia|done|apply Z.mod_mul; lia]. }
  rewrite (M_bind_ok _ _ _ _ _ (get_buf_ok _ _ _ _ st Hio Hp ltac:(lia))).
  rewrite (M_bind_ok _ _ _ _ _ (guard_block_ok s _ st Hio Hp Hr)). unfold verify_mem.
  rewrite M_bind_assoc, (M_bind_ok _ _ _ _ _ (read_at vs s _ gi sz st Hio Hp ltac:(lia) ltac:(lia) ltac:(lia))).
  destruct (advance_ok _ _ _ _ bs Hio Hp ltac:(lia) ltac:(lia)) as (Hp' & Hs' & _).
  eexists (_dif_sgl_advance s bs), st. split; [reflexivity|]. destruct (chk j); [done|].
  by replace ((j + 1) * bs) with (j * bs + bs) by lia.
Qed.

End Buffer.

End Walk.
