(* ===== verification/DifCopy.v ===== *)
(** * Protection information: copies to and from a bounce buffer

    spdk_dif_generate_copy inserts the metadata while it copies the data of the
    caller to a buffer with blocks of data and metadata; spdk_dif_verify_copy
    checks such a buffer while it copies the data out.  Both as functions of
    the bytes of the two buffers, which do not overlap. *)

From S2P Require Import Prelude Pipe PipeLemmas IovLemmas Dif DifMem DifLemmas DifBlocks.

Section Flat.
Context {C : Crc} (c : dif_ctx).
Notation bs := (block_size c).
Notation dbs := (block_size c - c_md_size c).

(** The data of block [k] of [D] put into the buffer [B]. *)
Definition put_data (k : Z) (D B : list Z) : list Z := splice (k * bs) (slice D (k * dbs) dbs) B.

Fixpoint flat_insert (n : nat) (D B : list Z) : list Z :=
  match n with O => B | S n' => gen_at c false (Z.of_nat n') (put_data (Z.of_nat n') D (flat_insert n' D B)) end.

(** The data of the first [n] blocks of [B] put into [D]. *)
Fixpoint flat_extract (n : nat) (B D : list Z) : list Z :=
  match n with
  | O => D
  | S n' => splice (Z.of_nat n' * dbs) (slice B (Z.of_nat n' * bs) dbs) (flat_extract n' B D)
  end.

End Flat.

Section Copy.
Context {C : Crc} {L : CrcLaws C} (c : dif_ctx) (Hc : ctx_ok c).
Notation f := (dif_pi_format c).
Notation sz := (_dif_size f).
Notation gi := (guard_interval c).
Notation bs := (block_size c).
Notation dbs := (block_size c - c_md_size c).
Notation G g l := (_dif_generate_guard g l f).
Notation guarded := (has_flag c SPDK_DIF_FLAGS_GUARD_CHECK).

Lemma dbs_ok : data_block_size c = dbs.
Proof. destruct Hc, (ctx_bounds c Hc) as (? & ? & ? & ? & ?). unfold data_block_size. apply wrap_small. lia. Qed.

(** ** One piece *)

Definition copy_piece (g : Z) (dst src : option (nat * Z)) (n : Z) : M pst Z :=
  if guarded then _dif_generate_guard_copy g dst src n c else _ ← memcpy dst src n; mret g.

Lemma copy_piece_ok vs s p k ws t q j n g st :
  let D := iov_bytes (mem st) vs in
  iov_ok (mem st) vs -> at_pos vs s p -> 0 <= k -> k + n <= room s ->
  iov_ok (mem st) ws -> at_pos ws t q -> 0 <= j -> j + n <= room t -> 0 <= n ->
  exists m', copy_piece g (ptr_add (cur t) j) (ptr_add (cur s) k) n st
      = Ok (if guarded then G g (slice D (p + k) n) else g, set_mem (fun _ => m') st) /\
    changed ws (mem st) m' /\ iov_bytes m' ws = splice (q + j) (slice D (p + k) n) (iov_bytes (mem st) ws).
Proof.
  cbv zeta. intros Hv Hp Hk Hkr Hw Hq Hj Hjr Hn. set (D := iov_bytes (mem st) vs).
  assert (HD : zlen D = iov_total vs) by apply bytes_zlen, Hv.
  destruct (at_pos_bounds _ _ _ _ (io_fits_ _ _ Hv) Hp) as (Hp0 & Hpr & _).
  assert (Hz : zlen (slice D (p + k) n) = n) by (apply slice_zlen; lia).
  pose proof (read_at vs s p k n st Hv Hp Hk Hn Hkr) as Er. fold D in Er.
  destruct (write_at ws t q j (slice D (p + k) n) st Hw Hq Hj ltac:(lia)) as (m' & Ew & Hch & Eb).
  exists m'. split_and!; [|done|done]. unfold copy_piece, _dif_generate_guard_copy, memcpy. destruct guarded.
  - by rewrite (M_bind_ok _ _ _ _ _ Er), (M_bind_ok _ _ _ _ _ Ew).
  - by rewrite M_bind_assoc, (M_bind_ok _ _ _ _ _ Er), (M_bind_ok _ _ _ _ _ Ew).
Qed.

Lemma iov_ok_shape m m' vs : same_shape m m' -> iov_ok m vs -> iov_ok m' vs.
Proof. intros Hs [H1 H2 H3]. constructor; [by eapply fits_shape|done|done]. Qed.

(** The loop over the pieces of a block: [I j] holds when [j] bytes of the data
    at [q] have been copied. *)
Lemma copy_pieces_ok vs q at_piece (I : Z -> Z -> pst -> Prop) :
  (forall s j l g st, iov_ok (mem st) vs -> at_pos vs s (q + j) -> 0 <= j -> 0 <= l -> j + l <= dbs -> l <= room s ->
    I j g st ->
    exists g' st', copy_piece g (at_piece (cur s) j).1 (at_piece (cur s) j).2 l st = Ok (g', st') /\
      I (j + l) g' st' /\ same_shape (mem st) (mem st')) ->
  forall n s o g st,
  iov_ok (mem st) vs -> at_pos vs s (q + o) -> 0 <= o <= dbs -> q + dbs <= iov_total vs -> I o g st ->
  o = dbs \/ (length (sgl_iov s) < n)%nat ->
  exists s' g' st', copy_pieces n s o g c at_piece st = Ok ((s', g'), st') /\ at_pos vs s' (q + dbs) /\
    I dbs g' st' /\ same_shape (mem st) (mem st').
Proof.
  intros Hbody. destruct (ctx_bounds c Hc) as (? & ? & ? & ? & Hd). pose proof dbs_ok as Ed.
  induction n as [|n IH]; intros s o g st Hio Hp Ho Ht HI Hn;
    cbn [copy_pieces]; rewrite Ed; destruct (Z.ltb_spec o dbs) as [Hlt|Hge]; try lia.
  1, 3: assert (o = dbs) as -> by lia; exists s, g, st; by split_and!; try lia.
  assert (Hlt' : q + o < iov_total vs) by lia.
  rewrite (M_bind_ok _ _ _ _ _ (get_buf_ok _ _ _ _ st Hio Hp Hlt')). rewrite wrap_small by (destruct Hc; lia).
  destruct (at_pos_bounds _ _ _ _ (io_fits_ _ _ Hio) Hp) as (Hp0 & Hpr & Hr0).
  remember (Z.min (room s) (dbs - o)) as l eqn:El.
  destruct (Hbody s o l g st) as (g1 & st1 & E1 & HI1 & Hsh); try (done || lia).
  destruct (at_piece (cur s) o) as [dst src]. rewrite (M_bind_ok _ _ _ _ _ E1).
  destruct (advance_ok _ _ _ _ l Hio Hp Hlt' ltac:(lia)) as (Hp' & Hs' & Hle & Hlt2).
  rewrite wrap_small by lia.
  destruct (IH (_dif_sgl_advance s l) (o + l) g1 st1) as (s' & g' & st' & E & Hp2 & HI2 & Hsh2); try (done || lia).
  - by eapply iov_ok_shape.
  - by rewrite Z.add_assoc.
  - exists s', g', st'. split_and!; [done|done|done|intros b; by rewrite Hsh2].
Qed.

(** The guard behind [j] bytes of data: a block may start with an empty piece. *)
Definition data_guard (data : list Z) (j g : Z) : Prop :=
  j = 0 /\ g = start_guard c \/ g = if guarded then G (guard_seed c) data else 0.

Lemma data_guard_next F q j l g :
  0 <= guard_seed c < 2 ^ 64 -> 0 <= q -> 0 <= j -> 0 <= l -> data_guard (slice F q j) j g ->
  data_guard (slice F q (j + l)) (j + l) (if guarded then G g (slice F (q + j) l) else g).
Proof.
  intros Hs Hq Hj Hl. unfold data_guard, start_guard. rewrite slice_app by lia. intros [[-> ->]| ->]; right; destruct guarded; try done.
  by rewrite guard_app.
Qed.

(** The data of one block of the caller, at [q] of [vs], copied to the block at
    [r] of [ws]. *)
Lemma copy_in_ok vs q s ws t r st :
  let D := iov_bytes (mem st) vs in
  iov_ok (mem st) vs -> at_pos vs s q -> q + dbs <= iov_total vs ->
  iov_ok (mem st) ws -> at_pos ws t r -> bs <= room t -> disj ws vs ->
  exists s' m', copy_pieces (pieces s) s 0 (start_guard c) c (fun sb off => (ptr_add (cur t) off, sb)) st
      = Ok ((s', if guarded then G (guard_seed c) (slice D q dbs) else 0), set_mem (fun _ => m') st) /\
    at_pos vs s' (q + dbs) /\ changed ws (mem st) m' /\
    iov_bytes m' ws = splice r (slice D q dbs) (iov_bytes (mem st) ws).
Proof.
  cbv zeta. intros Hv Hp Ht Hw Hr Hroom Hdj. set (D := iov_bytes (mem st) vs). set (B := iov_bytes (mem st) ws).
  destruct (ctx_bounds c Hc) as (? & ? & ? & ? & Hd). pose proof (ok_md c Hc) as Hmd.
  destruct (at_pos_bounds _ _ _ _ (io_fits_ _ _ Hv) Hp) as (Hp0 & _).
  destruct (at_pos_bounds _ _ _ _ (io_fits_ _ _ Hw) Hr) as (Hr0 & Hrr & _).
  assert (HD : zlen D = iov_total vs) by apply bytes_zlen, Hv.
  assert (HB : zlen B = iov_total ws) by apply bytes_zlen, Hw.
  destruct (copy_pieces_ok vs q (fun sb off => (ptr_add (cur t) off, sb))
     (fun j g st' => st' = set_mem (fun _ => mem st') st /\ changed ws (mem st) (mem st') /\
        iov_bytes (mem st') ws = splice r (slice D q j) B /\ data_guard (slice D q j) j g))
     with (n := pieces s) (s := s) (o := 0) (g := start_guard c) (st := st)
     as (s' & g' & st' & E & Hp' & (Es & Hch & Eb & Hg) & _); try (done || lia).
  - intros s1 j l g st1 Hv1 Hp1 Hj Hl Hjl Hlr (Es & Hch & Eb & Hg). cbn.
    assert (Ev : iov_bytes (mem st1) vs = D) by (eapply changed_bytes; [exact Hch|apply Hv|done]).
    destruct (copy_piece_ok vs s1 (q + j) 0 ws t r j l g st1) as (m' & E & Hch1 & Eb1);
      [done|done|lia|lia|by eapply iov_ok_changed|done|lia|lia|lia|].
    rewrite cur_0, Ev, Z.add_0_r in E. rewrite Ev, Z.add_0_r in Eb1. eexists _, _. split; [exact E|]. split_and!.
    + by rewrite Es.
    + by eapply changed_trans.
    + cbn. rewrite Eb1, Eb. assert (Hz : zlen (slice D q j) = j) by (apply slice_zlen; lia).
      assert (Hz2 : zlen (slice D (q + j) l) = l) by (apply slice_zlen; lia).
      rewrite (slice_app D q j l) by lia. rewrite <- (splice_app r (slice D q j)); [by rewrite Hz|done|].
      rewrite zlen_app. lia.
    + apply data_guard_next; [apply Hc|done..].
    + apply Hch1.
  - by rewrite Z.add_0_r.
  - split_and!; [by destruct st|apply changed_refl|by rewrite slice_nil, splice_nil by done|by left].
  - right. unfold pieces. lia.
  - exists s', (mem st'). split_and!; try done. rewrite E, Es at 1. do 2 f_equal.
    destruct Hg as [[? _]| ->]; [lia|done].
Qed.

(** The data of the block at [r] of [ws], copied to [q] of [vs]. *)
Lemma copy_out_ok vs q s ws t r st :
  let B := iov_bytes (mem st) ws in
  iov_ok (mem st) vs -> at_pos vs s q -> q + dbs <= iov_total vs ->
  iov_ok (mem st) ws -> at_pos ws t r -> bs <= room t -> disj vs ws ->
  exists s' m', copy_pieces (pieces s) s 0 (start_guard c) c (fun db off => (db, ptr_add (cur t) off)) st
      = Ok ((s', if guarded then G (guard_seed c) (slice B r dbs) else 0), set_mem (fun _ => m') st) /\
    at_pos vs s' (q + dbs) /\ changed vs (mem st) m' /\
    iov_bytes m' vs = splice q (slice B r dbs) (iov_bytes (mem st) vs).
Proof.
  cbv zeta. intros Hv Hp Ht Hw Hr Hroom Hdj. set (D := iov_bytes (mem st) vs). set (B := iov_bytes (mem st) ws).
  destruct (ctx_bounds c Hc) as (? & ? & ? & ? & Hd). pose proof (ok_md c Hc) as Hmd.
  destruct (at_pos_bounds _ _ _ _ (io_fits_ _ _ Hv) Hp) as (Hp0 & _).
  destruct (at_pos_bounds _ _ _ _ (io_fits_ _ _ Hw) Hr) as (Hr0 & Hrr & _).
  assert (HD : zlen D = iov_total vs) by apply bytes_zlen, Hv.
  assert (HB : zlen B = iov_total ws) by apply bytes_zlen, Hw.
  destruct (copy_pieces_ok vs q (fun db off => (db, ptr_add (cur t) off))
     (fun j g st' => st' = set_mem (fun _ => mem st') st /\ changed vs (mem st) (mem st') /\
        iov_bytes (mem st') vs = splice q (slice B r j) D /\ data_guard (slice B r j) j g))
     with (n := pieces s) (s := s) (o := 0) (g := start_guard c) (st := st)
     as (s' & g' & st' & E & Hp' & (Es & Hch & Eb & Hg) & _); try (done || lia).
  - intros s1 j l g st1 Hv1 Hp1 Hj Hl Hjl Hlr (Es & Hch & Eb & Hg). cbn.
    assert (Ew : iov_bytes (mem st1) ws = B) by (eapply changed_bytes; [exact Hch|apply Hw|done]).
    destruct (copy_piece_ok ws t r j vs s1 (q + j) 0 l g st1) as (m' & E & Hch1 & Eb1);
      [by eapply iov_ok_changed|done|lia|lia|done|done|lia|lia|lia|].
    rewrite cur_0, Ew in E. rewrite Ew, Z.add_0_r in Eb1. eexists _, _. split; [exact E|]. split_and!.
    + by rewrite Es.
    + by eapply changed_trans.
    + cbn. rewrite Eb1, Eb. assert (Hz : zlen (slice B r j) = j) by (apply slice_zlen; lia).
      assert (Hz2 : zlen (slice B (r + j) l) = l) by (apply slice_zlen; lia).
      rewrite (slice_app B r j l) by lia. rewrite <- (splice_app q (slice B r j)); [by rewrite Hz|done|].
      rewrite zlen_app. lia.
    + apply data_guard_next; [apply Hc|done..].
    + apply Hch1.
  - by rewrite Z.add_0_r.
  - split_and!; [by destruct st|apply changed_refl|by rewrite slice_nil, splice_nil by done|by left].
  - right. unfold pieces. lia.
  - exists s', (mem st'). split_and!; try done. rewrite E, Es at 1. do 2 f_equal.
    destruct Hg as [[? _]| ->]; [lia|done].
Qed.

(** The guard of the data, continued over the metadata in front of the field, is
    that of the block. *)
Lemma guard_md_ok ws t r st data :
  let B := iov_bytes (mem st) ws in
  iov_ok (mem st) ws -> at_pos ws t r -> bs <= room t -> slice B r dbs = data ->
  (if guarded then guard_md (if guarded then G (guard_seed c) data else 0) (cur t) c
   else mret (if guarded then G (guard_seed c) data else 0)) st
  = Ok (block_guard c B r, st).
Proof.
  cbv zeta. intros Hw Hr Hroom <-. unfold block_guard. destruct guarded; [|done].
  destruct (ctx_bounds c Hc) as (? & ? & ? & ? & Hd). unfold guard_md. rewrite dbs_ok, wrap_small by lia.
  destruct (at_pos_bounds _ _ _ _ (io_fits_ _ _ Hw) Hr) as (Hr0 & _).
  rewrite (guard_of_ok c ws t r dbs (gi - dbs)) by (done || lia). rewrite guard_app by apply Hc.
  by rewrite <- slice_app, Zplus_minus by lia.
Qed.

Lemma copy_block_split dst src md st :
  copy_block dst src md c st
  = (g ← copy_piece (start_guard c) dst src dbs; if guarded then guard_md g md c else mret g) st.
Proof.
  unfold copy_block, copy_piece, start_guard. rewrite dbs_ok. destruct guarded; [done|].
  by rewrite M_bind_assoc.
Qed.

(** ** Whole buffers *)

Section Buffers.
Variables (vs ws : list iovec) (n : Z) (st0 : pst).
Hypotheses (Hv : iov_ok (mem st0) vs) (Hw : iov_ok (mem st0) ws).
Hypotheses (Hn : 0 <= n < 2 ^ 32) (Hvt : n * dbs <= iov_total vs) (Hwt : n * bs <= iov_total ws).
(** The bounce buffer has whole blocks in every element. *)
Hypotheses (Hwm : forallb (fun v => iov_len v mod bs =? 0) ws = true) (Hwh : settled (_dif_sgl_init ws)).
Notation D0 := (iov_bytes (mem st0) vs).
Notation B0 := (iov_bytes (mem st0) ws).

(** The data is in whole blocks: the path without pieces. *)
Definition whole : Prop :=
  forallb (fun v => iov_len v mod dbs =? 0) vs = true /\ settled (_dif_sgl_init vs).

Lemma dbs_pos : 0 < dbs /\ dbs <= gi /\ gi + sz <= bs /\ 8 <= sz /\ dbs < bs < 2 ^ 32.
Proof. destruct Hc, (ctx_bounds c Hc) as (? & ? & ? & ? & ?). lia. Qed.

Lemma bounds k : 0 <= k < n ->
  0 <= k * dbs /\ k * dbs + dbs <= iov_total vs /\ 0 <= k * bs /\ k * bs + bs <= iov_total ws.
Proof. intros Hk. pose proof dbs_pos. nia. Qed.

Lemma bounce_room st k t :
  iov_ok (mem st) ws -> 0 <= k < n -> at_pos ws t (k * bs) -> settled t -> bs <= room t.
Proof.
  intros Hio Hk Hp Hs. pose proof dbs_pos. pose proof (bounds k Hk).
  eapply block_room; [apply Hio|exact Hp|done|lia|lia|done|apply Z.mod_mul; lia].
Qed.

Lemma data_room st k s :
  iov_ok (mem st) vs -> whole -> 0 <= k < n -> at_pos vs s (k * dbs) -> settled s -> dbs <= room s.
Proof.
  intros Hio [Hm _] Hk Hp Hs. pose proof dbs_pos. pose proof (bounds k Hk).
  eapply block_room; [apply Hio|exact Hp|done|lia|lia|done|apply Z.mod_mul; lia].
Qed.

(** *** Insertion *)

Record ins_inv (k : Z) (x : dif_sgl * dif_sgl) (st : pst) : Prop := {
  ii_src : at_pos vs x.1 (k * dbs);
  ii_src_s : whole -> settled x.1;
  ii_dst : at_pos ws x.2 (k * bs);
  ii_dst_s : settled x.2;
  ii_state : st = set_mem (fun _ => mem st) st0;
  ii_changed : changed ws (mem st0) (mem st);
  ii_bytes : iov_bytes (mem st) ws = flat_insert c (Z.to_nat k) D0 B0 }.

Lemma ins_start : ins_inv 0 (_dif_sgl_init vs, _dif_sgl_init ws) st0.
Proof.
  constructor; cbn; [apply at_pos_init|by intros [_ ?]|apply at_pos_init|done|by destruct st0|apply changed_refl|done].
Qed.

Lemma ins_ok k x st : ins_inv k x st -> iov_ok (mem st) vs /\ iov_ok (mem st) ws.
Proof. intros HI. split; (eapply iov_ok_changed; [apply HI|done]). Qed.

(** The end of an iteration: the field is stored behind the copied data. *)
Lemma ins_finish k x st s' m' :
  0 <= k < n -> ins_inv k x st -> changed ws (mem st) m' ->
  at_pos vs s' (k * dbs + dbs) -> (whole -> settled s') ->
  iov_bytes m' ws = put_data c k D0 (iov_bytes (mem st) ws) ->
  exists st', store_mem (ptr_add (cur x.2) gi) (_dif_generate (block_guard c (iov_bytes m' ws) (k * bs)) k c)
      (set_mem (fun _ => m') st) = Ok (tt, st') /\
    ins_inv (k + 1) (s', _dif_sgl_advance x.2 bs) st'.
Proof.
  intros Hk HI Hch Hs1 Hs2 Eb. pose proof dbs_pos as Hd. pose proof (bounds k Hk) as Hkb.
  destruct (ins_ok _ _ _ HI) as [_ Hw1]. destruct HI as [H1 H2 H3 H4 H5 H6 H7].
  set (st1 := set_mem (fun _ => m') st). assert (Hw2 : iov_ok (mem st1) ws) by (by eapply iov_ok_changed).
  pose proof (bounce_room st1 k x.2 Hw2 Hk H3 H4) as Hr.
  destruct (store_mem_ok c ws x.2 (k * bs) gi (_dif_generate (block_guard c (iov_bytes m' ws) (k * bs)) k c) st1)
    as (m2 & E & Hch2 & Eb2); [done|done|lia|lia|apply gen_in_field|].
  eexists. split; [exact E|].
  destruct (advance_ok _ _ _ _ bs Hw2 H3 ltac:(lia) ltac:(lia)) as (Hp' & Hs' & _).
  constructor; cbn [fst snd mem set_mem st1].
  - by replace ((k + 1) * dbs) with (k * dbs + dbs) by lia.
  - done.
  - by replace ((k + 1) * bs) with (k * bs + bs) by lia.
  - done.
  - transitivity (set_mem (fun _ => m2) st); [done|]. by rewrite H5.
  - eapply changed_trans; [exact H6|]. by eapply changed_trans.
  - replace (Z.to_nat (k + 1)) with (S (Z.to_nat k)) by lia. cbn [flat_insert]. rewrite Z2Nat.id by lia.
    rewrite <- H7, <- Eb. exact Eb2.
Qed.

Hypotheses (Hvw : disj vs ws) (Hwv : disj ws vs).

Lemma ins_data k x st : ins_inv k x st -> iov_bytes (mem st) vs = D0.
Proof. intros HI. eapply changed_bytes; [apply HI|apply Hv|done]. Qed.

Lemma put_data_slice k D B :
  0 <= k < n -> zlen D = iov_total vs -> zlen B = iov_total ws ->
  slice (put_data c k D B) (k * bs) dbs = slice D (k * dbs) dbs.
Proof.
  intros Hk HD HB. pose proof dbs_pos. pose proof (bounds k Hk). unfold put_data.
  assert (zlen (slice D (k * dbs) dbs) = dbs) by (apply slice_zlen; lia).
  apply slice_splice_eq; lia.
Qed.

(** Without whole blocks nothing is known of empty elements of the data. *)
Lemma insert_split_blocks (Hnw : ~ whole) :
  exists x st', dif_generate_copy_split (_dif_sgl_init vs) (_dif_sgl_init ws) n c st0 = Ok (x, st') /\ ins_inv n x st'.
Proof.
  unfold dif_generate_copy_split.
  match goal with |- context [for_blocks _ _ ?body _ _] =>
    destruct (for_blocks_inv ins_inv body (Z.to_nat n) 0 (_dif_sgl_init vs, _dif_sgl_init ws) st0)
    as (x & st' & E & HI); [lia|lia|apply ins_start| |exists x, st'; split; [done|by rewrite Z2Nat.id in HI by lia]] end.
  intros k [s t] st Hk' HI. assert (Hk : 0 <= k < n) by lia.
  pose proof dbs_pos as Hd. pose proof (bounds k Hk) as Hkb. destruct (ins_ok _ _ _ HI) as [Hv1 Hw1].
  pose proof (ii_dst _ _ _ HI) as Ht. pose proof (bounce_room st k t Hw1 Hk Ht (ii_dst_s _ _ _ HI)) as Hr.
  unfold _dif_generate_copy_split.
  rewrite (M_bind_ok _ _ _ _ _ (get_buf_ok _ _ _ _ st Hw1 Ht ltac:(lia))).
  destruct (copy_in_ok vs (k * dbs) s ws t (k * bs) st) as (s' & m1 & E1 & Hp1 & Hch1 & Eb1);
    [done|apply HI|lia|done|done|done|done|].
  rewrite (M_bind_ok _ _ _ _ _ E1). rewrite (ins_data _ _ _ HI) in *.
  set (st1 := set_mem (fun _ => m1) st). fold (put_data c k D0 (iov_bytes (mem st) ws)) in Eb1.
  assert (Hw2 : iov_ok (mem st1) ws) by (by eapply iov_ok_changed).
  rewrite (M_bind_ok _ _ _ _ _ (guard_md_ok ws t (k * bs) st1 (slice D0 (k * dbs) dbs) Hw2 Ht Hr
    ltac:(cbn [mem set_mem st1]; rewrite Eb1; apply put_data_slice; [lia|apply bytes_zlen, Hv|apply bytes_zlen, Hw1]))).
  destruct (ins_finish k (s, t) st s' m1 Hk HI Hch1 Hp1 ltac:(done) Eb1) as (st2 & E2 & HI2).
  cbn [snd] in *. rewrite (M_bind_ok _ _ _ _ _ E2). by eexists _, st2.
Qed.

Lemma insert_blocks (Hwhole : whole) :
  exists x st', dif_generate_copy (_dif_sgl_init vs) (_dif_sgl_init ws) n c st0 = Ok (x, st') /\ ins_inv n x st'.
Proof.
  unfold dif_generate_copy.
  match goal with |- context [for_blocks _ _ ?body _ _] =>
    destruct (for_blocks_inv ins_inv body (Z.to_nat n) 0 (_dif_sgl_init vs, _dif_sgl_init ws) st0)
    as (x & st' & E & HI); [lia|lia|apply ins_start| |exists x, st'; split; [done|by rewrite Z2Nat.id in HI by lia]] end.
  intros k [s t] st Hk' HI. assert (Hk : 0 <= k < n) by lia.
  pose proof dbs_pos as Hd. pose proof (bounds k Hk) as Hkb. destruct (ins_ok _ _ _ HI) as [Hv1 Hw1].
  pose proof (ii_dst _ _ _ HI) as Ht. pose proof (bounce_room st k t Hw1 Hk Ht (ii_dst_s _ _ _ HI)) as Hr.
  pose proof (ii_src _ _ _ HI) as Hs. pose proof (data_room st k s Hv1 Hwhole Hk Hs (ii_src_s _ _ _ HI Hwhole)) as Hrs.
  cbn [fst snd] in *.
  rewrite (M_bind_ok _ _ _ _ _ (get_buf_ok _ _ _ _ st Hv1 Hs ltac:(lia))).
  rewrite (M_bind_ok _ _ _ _ _ (get_buf_ok _ _ _ _ st Hw1 Ht ltac:(lia))).
  destruct (copy_piece_ok vs s (k * dbs) 0 ws t (k * bs) 0 dbs (start_guard c) st) as (m1 & E1 & Hch1 & Eb1);
    [done|done|lia|lia|done|done|lia|lia|lia|].
  rewrite !cur_0, !Z.add_0_r, (ins_data _ _ _ HI) in *.
  set (st1 := set_mem (fun _ => m1) st). fold (put_data c k D0 (iov_bytes (mem st) ws)) in Eb1.
  assert (Hw2 : iov_ok (mem st1) ws) by (by eapply iov_ok_changed).
  assert (Eg : copy_block (cur t) (cur s) (cur t) c st = Ok (block_guard c (iov_bytes m1 ws) (k * bs), st1)).
  { rewrite copy_block_split, (M_bind_ok _ _ _ _ _ E1).
    pose proof (guard_md_ok ws t (k * bs) st1 (slice D0 (k * dbs) dbs) Hw2 Ht Hr) as E2. cbn [mem set_mem st1] in E2.
    rewrite Eb1 in E2 |- *. rewrite <- E2 by (apply put_data_slice; [lia|apply bytes_zlen, Hv|apply bytes_zlen, Hw1]).
    unfold start_guard. by destruct guarded. }
  rewrite (M_bind_ok _ _ _ _ _ Eg).
  destruct (advance_ok _ _ _ _ dbs Hv1 Hs ltac:(lia) ltac:(lia)) as (Hp' & Hs' & _).
  destruct (ins_finish k (s, t) st _ m1 Hk HI Hch1 Hp' ltac:(done) Eb1) as (st2 & E2 & HI2).
  rewrite dbs_ok. cbn [snd] in *. rewrite (M_bind_ok _ _ _ _ _ E2). by eexists _, st2.
Qed.

(** *** Extraction *)

Record ext_inv (k : Z) (x : dif_sgl * dif_sgl) (st : pst) : Prop := {
  ei_src : at_pos ws x.1 (k * bs);
  ei_src_s : settled x.1;
  ei_dst : at_pos vs x.2 (k * dbs);
  ei_dst_s : whole -> settled x.2;
  ei_state : st = set_mem (fun _ => mem st) st0;
  ei_changed : changed vs (mem st0) (mem st);
  ei_bytes : iov_bytes (mem st) vs = flat_extract c (Z.to_nat k) B0 D0 }.

Lemma ext_start : ext_inv 0 (_dif_sgl_init ws, _dif_sgl_init vs) st0.
Proof.
  constructor; cbn; [apply at_pos_init|done|apply at_pos_init|by intros [_ ?]|by destruct st0|apply changed_refl|done].
Qed.

Lemma ext_ok k x st : ext_inv k x st -> iov_ok (mem st) vs /\ iov_ok (mem st) ws.
Proof. intros HI. split; (eapply iov_ok_changed; [apply HI|done]). Qed.

Lemma ext_bounce k x st : ext_inv k x st -> iov_bytes (mem st) ws = B0.
Proof. intros HI. eapply changed_bytes; [apply HI|apply Hw|done]. Qed.

(** The end of an iteration: the field is checked behind the copied data. *)
Lemma ext_finish k x st t' m' :
  0 <= k < n -> ext_inv k x st -> changed vs (mem st) m' ->
  at_pos vs t' (k * dbs + dbs) -> (whole -> settled t') ->
  iov_bytes m' vs = splice (k * dbs) (slice B0 (k * bs) dbs) (iov_bytes (mem st) vs) ->
  verify_mem (ptr_add (cur x.1) gi) (block_guard c B0 (k * bs)) k c (set_mem (fun _ => m') st)
    = Ok (verify_at c k B0, set_mem (fun _ => m') st) /\
  ext_inv (k + 1) (_dif_sgl_advance x.1 bs, t') (set_mem (fun _ => m') st).
Proof.
  intros Hk HI Hch Ht1 Ht2 Eb. pose proof dbs_pos as Hd. pose proof (bounds k Hk) as Hkb.
  destruct (ext_ok _ _ _ HI) as [_ Hw1]. pose proof (ext_bounce _ _ _ HI) as EB.
  destruct HI as [H1 H2 H3 H4 H5 H6 H7]. set (st1 := set_mem (fun _ => m') st).
  assert (Hw2 : iov_ok (mem st1) ws) by (by eapply iov_ok_changed).
  assert (EB1 : iov_bytes (mem st1) ws = B0) by (rewrite <- EB; eapply changed_bytes; [exact Hch|apply Hw1|done]).
  pose proof (bounce_room st1 k x.1 Hw2 Hk H1 H2) as Hr. split.
  - unfold verify_mem. rewrite (M_bind_ok _ _ _ _ _ (read_at ws x.1 _ gi sz st1 Hw2 H1 ltac:(lia) ltac:(lia) ltac:(lia))).
    by rewrite EB1.
  - destruct (advance_ok _ _ _ _ bs Hw2 H1 ltac:(lia) ltac:(lia)) as (Hp' & Hs' & _).
    constructor; cbn [fst snd].
    + by replace ((k + 1) * bs) with (k * bs + bs) by lia.
    + done.
    + by replace ((k + 1) * dbs) with (k * dbs + dbs) by lia.
    + done.
    + transitivity (set_mem (fun _ => m') st); [done|]. by rewrite H5.
    + by eapply changed_trans.
    + replace (Z.to_nat (k + 1)) with (S (Z.to_nat k)) by lia. cbn [flat_extract]. rewrite Z2Nat.id by lia.
      by rewrite <- H7.
Qed.

(** The result of an extraction of [n] blocks: the first error, or all of the
    data. *)
Definition extracted (run : M pst ((dif_sgl * dif_sgl) + dif_error)) : Prop :=
  let e := first_err (fun k => verify_at c k B0) (Z.to_nat n) 0 in
  exists x st', run st0 = Ok (or_error e x, st') /\ changed vs (mem st0) (mem st') /\
    (e = None -> iov_bytes (mem st') vs = flat_extract c (Z.to_nat n) B0 D0).

Lemma extracted_inv e x st' :
  (if e : option dif_error then changed vs (mem st0) (mem st') else ext_inv (0 + Z.of_nat (Z.to_nat n)) x st') ->
  changed vs (mem st0) (mem st') /\ (e = None -> iov_bytes (mem st') vs = flat_extract c (Z.to_nat n) B0 D0).
Proof.
  destruct e; [done|]. rewrite Z.add_0_l, Z2Nat.id by lia. intros HI. split; [apply HI|intros _; apply HI].
Qed.

Lemma extract_split_blocks (Hnw : ~ whole) :
  extracted (dif_verify_copy_split (_dif_sgl_init ws) (_dif_sgl_init vs) n c).
Proof.
  unfold extracted, dif_verify_copy_split. cbv zeta.
  match goal with |- context [for_blocks_err _ _ ?body _ _] =>
    destruct (for_blocks_err_inv ext_inv (fun st' => changed vs (mem st0) (mem st')) (fun k => verify_at c k B0) body
      (Z.to_nat n) 0 (_dif_sgl_init ws, _dif_sgl_init vs) st0) as (x & st' & E & HI);
    [lia|lia|apply ext_start| |exists x, st'; split; [done|by eapply extracted_inv]] end.
  intros k [t s] st Hk' HI. assert (Hk : 0 <= k < n) by lia.
  pose proof dbs_pos as Hd. pose proof (bounds k Hk) as Hkb. destruct (ext_ok _ _ _ HI) as [Hv1 Hw1].
  pose proof (ei_src _ _ _ HI) as Ht. pose proof (bounce_room st k t Hw1 Hk Ht (ei_src_s _ _ _ HI)) as Hr.
  unfold _dif_verify_copy_split.
  rewrite (M_bind_ok _ _ _ _ _ (get_buf_ok _ _ _ _ st Hw1 Ht ltac:(lia))).
  destruct (copy_out_ok vs (k * dbs) s ws t (k * bs) st) as (s' & m1 & E1 & Hp1 & Hch1 & Eb1);
    [done|apply HI|lia|done|done|done|done|].
  rewrite (M_bind_ok _ _ _ _ _ E1). pose proof (ext_bounce _ _ _ HI) as EB. rewrite EB in *.
  set (st1 := set_mem (fun _ => m1) st). assert (Hw2 : iov_ok (mem st1) ws) by (by eapply iov_ok_changed).
  assert (EB1 : iov_bytes (mem st1) ws = B0) by (rewrite <- EB; eapply changed_bytes; [exact Hch1|apply Hw1|done]).
  pose proof (guard_md_ok ws t (k * bs) st1 (slice B0 (k * bs) dbs) Hw2 Ht Hr) as Eg.
  rewrite EB1 in Eg. rewrite (M_bind_ok _ _ _ _ _ (Eg eq_refl)).
  destruct (ext_finish k (t, s) st s' m1 Hk HI Hch1 Hp1 ltac:(done) Eb1) as (E2 & HI2).
  cbn [fst] in *. rewrite (M_bind_ok _ _ _ _ _ E2). eexists _, st1. split; [reflexivity|].
  destruct (verify_at c k B0); [apply HI2|exact HI2].
Qed.

Lemma extract_blocks (Hwhole : whole) :
  extracted (dif_verify_copy (_dif_sgl_init ws) (_dif_sgl_init vs) n c).
Proof.
  unfold extracted, dif_verify_copy. cbv zeta.
  match goal with |- context [for_blocks_err _ _ ?body _ _] =>
    destruct (for_blocks_err_inv ext_inv (fun st' => changed vs (mem st0) (mem st')) (fun k => verify_at c k B0) body
      (Z.to_nat n) 0 (_dif_sgl_init ws, _dif_sgl_init vs) st0) as (x & st' & E & HI);
    [lia|lia|apply ext_start| |exists x, st'; split; [done|by eapply extracted_inv]] end.
  intros k [t s] st Hk' HI. assert (Hk : 0 <= k < n) by lia.
  pose proof dbs_pos as Hd. pose proof (bounds k Hk) as Hkb. destruct (ext_ok _ _ _ HI) as [Hv1 Hw1].
  pose proof (ei_src _ _ _ HI) as Ht. pose proof (bounce_room st k t Hw1 Hk Ht (ei_src_s _ _ _ HI)) as Hr.
  pose proof (ei_dst _ _ _ HI) as Hs. pose proof (data_room st k s Hv1 Hwhole Hk Hs (ei_dst_s _ _ _ HI Hwhole)) as Hrs.
  cbn [fst snd] in *.
  rewrite (M_bind_ok _ _ _ _ _ (get_buf_ok _ _ _ _ st Hw1 Ht ltac:(lia))).
  rewrite (M_bind_ok _ _ _ _ _ (get_buf_ok _ _ _ _ st Hv1 Hs ltac:(lia))).
  destruct (copy_piece_ok ws t (k * bs) 0 vs s (k * dbs) 0 dbs (start_guard c) st) as (m1 & E1 & Hch1 & Eb1);
    [done|done|lia|lia|done|done|lia|lia|lia|].
  pose proof (ext_bounce _ _ _ HI) as EB. rewrite !cur_0, !Z.add_0_r, EB in *.
  set (st1 := set_mem (fun _ => m1) st). assert (Hw2 : iov_ok (mem st1) ws) by (by eapply iov_ok_changed).
  assert (EB1 : iov_bytes (mem st1) ws = B0) by (rewrite <- EB; eapply changed_bytes; [exact Hch1|apply Hw1|done]).
  assert (Eg : copy_block (cur s) (cur t) (cur t) c st = Ok (block_guard c B0 (k * bs), st1)).
  { rewrite copy_block_split, (M_bind_ok _ _ _ _ _ E1).
    pose proof (guard_md_ok ws t (k * bs) st1 (slice B0 (k * bs) dbs) Hw2 Ht Hr) as E2.
    rewrite EB1 in E2. rewrite <- E2 by done. unfold start_guard. by destruct guarded. }
  rewrite (M_bind_ok _ _ _ _ _ Eg).
  destruct (advance_ok _ _ _ _ dbs Hv1 Hs ltac:(lia) ltac:(lia)) as (Hp' & Hs' & _).
  destruct (ext_finish k (t, s) st _ m1 Hk HI Hch1 Hp' ltac:(done) Eb1) as (E2 & HI2).
  rewrite dbs_ok. cbn [fst] in *. rewrite (M_bind_ok _ _ _ _ _ E2). eexists _, st1. split; [reflexivity|].
  destruct (verify_at c k B0); [apply HI2|exact HI2].
Qed.

End Buffers.

End Copy.
