(* ===== verification/DifFlat.v ===== *)
(** * Protection information: buffers as lists of blocks

    The reference functions of [DifBlocks] and [DifCopy]: a block that was
    generated passes its check, and the blocks do not disturb each other. *)

From S2P Require Import Prelude Pipe PipeLemmas IovLemmas Dif DifMem DifLemmas DifBlocks DifCopy.

Lemma first_err_none chk n k :
  first_err chk n k = None <-> (forall j, k <= j < k + Z.of_nat n -> chk j = None).
Proof.
  revert k. induction n as [|n IH]; intros k; cbn [first_err]; [split; [intros _ j; lia|done]|].
  split.
  - destruct (chk k) eqn:E; [done|]. intros H j Hj. destruct (decide (j = k)) as [->|]; [done|].
    apply (proj1 (IH (k + 1)) H). lia.
  - intros H. rewrite (H k) by lia. apply IH. intros j Hj. apply H. lia.
Qed.

Lemma first_err_some chk n k e :
  first_err chk n k = Some e <->
  exists j, k <= j < k + Z.of_nat n /\ chk j = Some e /\ forall i, k <= i < j -> chk i = None.
Proof.
  revert k. induction n as [|n IH]; intros k; cbn [first_err].
  { split; [done|]. intros (j & ? & _). lia. }
  destruct (chk k) as [e'|] eqn:E.
  - split.
    + intros [= <-]. exists k. split_and!; [lia|lia|done|]. intros i ?. lia.
    + intros (j & Hj & Ej & Hi). destruct (decide (j = k)) as [->|]; [congruence|].
      rewrite (Hi k) in E by lia. done.
  - rewrite IH. split; intros (j & Hj & Ej & Hi).
    + exists j. split_and!; [lia|lia|done|]. intros i ?. destruct (decide (i = k)) as [->|]; [done|]. apply Hi. lia.
    + exists j. destruct (decide (j = k)) as [->|]; [congruence|]. split_and!; [lia|lia|done|]. intros i ?. apply Hi. lia.
Qed.

Lemma first_err_ext chk chk' n k :
  (forall j, k <= j < k + Z.of_nat n -> chk j = chk' j) -> first_err chk n k = first_err chk' n k.
Proof.
  revert k. induction n as [|n IH]; intros k H; cbn [first_err]; [done|]. rewrite (H k), IH by (intros; lia || (apply H; lia)).
  done.
Qed.

Section Flat.
Context {C : Crc} {L : CrcLaws C} (c : dif_ctx) (Hc : ctx_ok c).
Notation sz := (_dif_size (dif_pi_format c)).
Notation gi := (guard_interval c).
Notation bs := (block_size c).
Notation dbs := (block_size c - c_md_size c).
Notation block F k := (slice F (k * bs) bs).

Lemma block_part F k o m :
  0 <= k -> 0 <= o -> 0 <= m -> o + m <= bs -> slice F (k * bs + o) m = slice (block F k) o m.
Proof. intros Hk Ho Hm Hl. pose proof (dbs_pos c Hc). rewrite slice_slice by nia. done. Qed.

Lemma block_head F k m : 0 <= k -> 0 <= m <= bs -> slice F (k * bs) m = slice (block F k) 0 m.
Proof. intros Hk Hm. rewrite <- block_part by lia. by rewrite Z.add_0_r. Qed.

(** A check reads the block only. *)
Lemma verify_at_block k F F' : 0 <= k -> block F k = block F' k -> verify_at c k F = verify_at c k F'.
Proof.
  intros Hk E. pose proof (dbs_pos c Hc). unfold verify_at, block_guard.
  rewrite (block_part F k gi sz), (block_part F' k gi sz), (block_head F k gi), (block_head F' k gi), E by lia. done.
Qed.

Lemma base_zlen z F p : 0 <= p -> p + bs <= zlen F -> zlen (base_of c z F p) = sz.
Proof.
  intros Hp Hl. pose proof (dbs_pos c Hc). unfold base_of. destruct z; [apply dif_zero_zlen|apply slice_zlen; lia].
Qed.

Lemma field_zlen base F k p : zlen base = sz -> zlen (field c base F k p) = sz.
Proof. apply gen_zlen. Qed.

Lemma block_guard_range F p : 0 <= block_guard c F p < 2 ^ (8 * _dif_guard_size (dif_pi_format c)).
Proof. unfold block_guard. destruct (has_flag _ _); [apply guard_range|]. split; [done|]. by destruct (dif_pi_format c). Qed.

(** What a generation does to the parts of its block, and to the others. *)
Section Gen.
Variables (z : bool) (k : Z) (F : list Z).
Hypotheses (Hk : 0 <= k) (Hl : k * bs + bs <= zlen F).

Lemma gen_data o m : 0 <= o -> 0 <= m -> o + m <= gi -> slice (gen_at c z k F) (k * bs + o) m = slice F (k * bs + o) m.
Proof.
  intros Ho Hm Hg. pose proof (dbs_pos c Hc). assert (0 <= k * bs) by nia. unfold gen_at.
  pose proof (field_zlen (base_of c z F (k * bs)) F k (k * bs) ltac:(apply base_zlen; lia)).
  apply slice_splice_out; lia.
Qed.

Lemma gen_field : slice (gen_at c z k F) (k * bs + gi) sz = field c (base_of c z F (k * bs)) F k (k * bs).
Proof.
  pose proof (dbs_pos c Hc). assert (0 <= k * bs) by nia. unfold gen_at.
  pose proof (field_zlen (base_of c z F (k * bs)) F k (k * bs) ltac:(apply base_zlen; lia)).
  apply slice_splice_eq; lia.
Qed.

(** The bytes outside the block. *)
Lemma gen_other p m : 0 <= p -> 0 <= m -> p + m <= k * bs \/ k * bs + bs <= p -> slice (gen_at c z k F) p m = slice F p m.
Proof.
  intros Hp Hm Ho. pose proof (dbs_pos c Hc). assert (0 <= k * bs) by nia. unfold gen_at.
  pose proof (field_zlen (base_of c z F (k * bs)) F k (k * bs) ltac:(apply base_zlen; lia)).
  apply slice_splice_out; lia.
Qed.

Lemma gen_verifies : ~ tag_conflict c -> verify_at c k (gen_at c z k F) = None.
Proof.
  intros Ht. pose proof (dbs_pos c Hc). unfold verify_at. rewrite gen_field.
  assert (E : block_guard c (gen_at c z k F) (k * bs) = block_guard c F (k * bs)).
  { unfold block_guard. destruct (has_flag _ _); [|done]. f_equal.
    pose proof (gen_data 0 gi ltac:(lia) ltac:(lia) ltac:(lia)) as E. by rewrite Z.add_0_r in E. }
  rewrite E. apply generated_verifies; [apply base_zlen; nia|apply block_guard_range|apply Hc|done].
Qed.

End Gen.

Lemma block_order j k : j < k -> j * bs + bs <= k * bs.
Proof. intros H. pose proof (dbs_pos c Hc). nia. Qed.

Lemma gen_block_other z j k F :
  0 <= j -> 0 <= k -> j <> k -> k * bs + bs <= zlen F -> block (gen_at c z k F) j = block F j.
Proof.
  intros Hj Hk Hne Hl. pose proof (dbs_pos c Hc). apply gen_other; [done|done|nia|lia|].
  destruct (Z.lt_total j k) as [H1|[?|H1]]; [left; by apply block_order|lia|right; by apply block_order].
Qed.

Lemma flat_block_other z n j F :
  Z.of_nat n <= j -> Z.of_nat n * bs <= zlen F -> block (flat_generate c z n F) j = block F j.
Proof.
  intros Hj. pose proof (dbs_pos c Hc). induction n as [|n IH]; intros Hl; [done|]. cbn [flat_generate].
  rewrite gen_block_other; [apply IH; lia|lia|lia|lia|]. rewrite flat_zlen by (done || lia). lia.
Qed.

Lemma flat_verifies z n k F :
  ~ tag_conflict c -> Z.of_nat n * bs <= zlen F -> 0 <= k < Z.of_nat n ->
  verify_at c k (flat_generate c z n F) = None.
Proof.
  intros Ht. pose proof (dbs_pos c Hc). induction n as [|n IH]; intros Hl Hk; [lia|]. cbn [flat_generate].
  assert (Hz : zlen (flat_generate c z n F) = zlen F) by (apply flat_zlen; [done|lia]).
  destruct (decide (k = Z.of_nat n)) as [->|].
  - apply gen_verifies; [lia|lia|done].
  - rewrite <- (IH ltac:(lia) ltac:(lia)). apply verify_at_block; [lia|]. apply gen_block_other; lia.
Qed.

(** The data of a block, and the bytes behind the blocks, are kept. *)
Lemma flat_data z n k F :
  Z.of_nat n * bs <= zlen F -> 0 <= k < Z.of_nat n ->
  slice (flat_generate c z n F) (k * bs) gi = slice F (k * bs) gi.
Proof.
  pose proof (dbs_pos c Hc). induction n as [|n IH]; intros Hl Hk; [lia|]. cbn [flat_generate].
  assert (Hz : zlen (flat_generate c z n F) = zlen F) by (apply flat_zlen; [done|lia]).
  destruct (decide (k = Z.of_nat n)) as [->|].
  - rewrite <- (Z.add_0_r (Z.of_nat n * bs)) at 1. rewrite gen_data, Z.add_0_r by lia.
    rewrite (block_head (flat_generate c z n F) (Z.of_nat n) gi), (block_head F (Z.of_nat n) gi) by lia.
    by rewrite flat_block_other by lia.
  - rewrite <- (IH ltac:(lia) ltac:(lia)), (block_head (gen_at _ _ _ _) k gi), (block_head (flat_generate c z n F) k gi) by lia.
    by rewrite gen_block_other by lia.
Qed.

(** The bytes of a block outside its protection field are kept. *)
Lemma gen_part z k o m F :
  0 <= k -> k * bs + bs <= zlen F -> 0 <= o -> 0 <= m -> o + m <= bs -> o + m <= gi \/ gi + sz <= o ->
  slice (gen_at c z k F) (k * bs + o) m = slice F (k * bs + o) m.
Proof.
  intros Hk Hl Ho Hm Hb Hout. pose proof (dbs_pos c Hc). assert (0 <= k * bs) by nia. unfold gen_at.
  pose proof (field_zlen (base_of c z F (k * bs)) F k (k * bs) ltac:(apply base_zlen; lia)).
  apply slice_splice_out; lia.
Qed.

Lemma flat_part z n k o m F :
  Z.of_nat n * bs <= zlen F -> 0 <= k < Z.of_nat n -> 0 <= o -> 0 <= m -> o + m <= bs ->
  o + m <= gi \/ gi + sz <= o ->
  slice (flat_generate c z n F) (k * bs + o) m = slice F (k * bs + o) m.
Proof.
  intros Hl Hk Ho Hm Hb Hout. pose proof (dbs_pos c Hc). revert Hl Hk.
  induction n as [|n IH]; intros Hl Hk; [lia|]. cbn [flat_generate].
  assert (Hz : zlen (flat_generate c z n F) = zlen F) by (apply flat_zlen; [done|lia]).
  destruct (decide (k = Z.of_nat n)) as [->|].
  - rewrite gen_part by lia. rewrite (block_part (flat_generate c z n F)), (block_part F) by lia.
    by rewrite flat_block_other by lia.
  - rewrite <- (IH ltac:(lia) ltac:(lia)), (block_part (gen_at _ _ _ _)), (block_part (flat_generate c z n F)) by lia.
    by rewrite gen_block_other by lia.
Qed.

Lemma flat_guard z n k F :
  Z.of_nat n * bs <= zlen F -> 0 <= k < Z.of_nat n ->
  block_guard c (flat_generate c z n F) (k * bs) = block_guard c F (k * bs).
Proof. intros Hl Hk. unfold block_guard. by rewrite flat_data. Qed.

Lemma flat_field z n k F :
  Z.of_nat n * bs <= zlen F -> 0 <= k < Z.of_nat n ->
  slice (flat_generate c z n F) (k * bs + gi) sz = field c (base_of c z F (k * bs)) F k (k * bs).
Proof.
  pose proof (dbs_pos c Hc). induction n as [|n IH]; intros Hl Hk; [lia|]. cbn [flat_generate].
  assert (Hz : zlen (flat_generate c z n F) = zlen F) by (apply flat_zlen; [done|lia]).
  destruct (decide (k = Z.of_nat n)) as [->|].
  - rewrite gen_field by lia. pose proof (flat_block_other z n (Z.of_nat n) F ltac:(lia) ltac:(lia)) as Eb.
    unfold field, base_of, block_guard.
    rewrite (block_head (flat_generate c z n F) (Z.of_nat n) gi), (block_head F (Z.of_nat n) gi) by lia.
    rewrite (block_part (flat_generate c z n F) (Z.of_nat n) gi sz), (block_part F (Z.of_nat n) gi sz) by lia.
    by rewrite Eb.
  - rewrite <- (IH ltac:(lia) ltac:(lia)), (block_part (gen_at _ _ _ _) k gi sz), (block_part (flat_generate c z n F) k gi sz) by lia.
    by rewrite gen_block_other by lia.
Qed.

Lemma flat_tail z n m F :
  Z.of_nat n * bs + m <= zlen F -> 0 <= m ->
  slice (flat_generate c z n F) (Z.of_nat n * bs) m = slice F (Z.of_nat n * bs) m.
Proof.
  intros Hl Hm. pose proof (dbs_pos c Hc).
  assert (H' : forall i, (i <= n)%nat -> slice (flat_generate c z i F) (Z.of_nat n * bs) m = slice F (Z.of_nat n * bs) m).
  { induction i as [|i IH]; intros Hi; [done|]. cbn [flat_generate].
    assert (Z.of_nat i * bs + bs <= Z.of_nat n * bs) by (apply block_order; lia).
    rewrite gen_other; [apply IH; lia|lia| |nia|lia|by right].
    rewrite flat_zlen by (done || lia). lia. }
  by apply H'.
Qed.

(** ** Copies *)

Section Insert.
Variables (D B : list Z) (n : nat).
Hypotheses (HD : Z.of_nat n * dbs <= zlen D) (HB : Z.of_nat n * bs <= zlen B).

Lemma data_zlen k : 0 <= k < Z.of_nat n -> zlen (slice D (k * dbs) dbs) = dbs.
Proof. intros Hk. pose proof (dbs_pos c Hc). apply slice_zlen; nia. Qed.

Lemma put_zlen k B' : 0 <= k < Z.of_nat n -> zlen B' = zlen B -> zlen (put_data c k D B') = zlen B.
Proof.
  intros Hk E. pose proof (dbs_pos c Hc). pose proof (data_zlen k Hk). rewrite <- E. unfold put_data.
  apply splice_zlen; nia.
Qed.

Lemma insert_zlen i : (i <= n)%nat -> zlen (flat_insert c i D B) = zlen B.
Proof.
  pose proof (dbs_pos c Hc). induction i as [|i IH]; intros Hi; [done|]. cbn [flat_insert].
  assert (Hp : zlen (put_data c (Z.of_nat i) D (flat_insert c i D B)) = zlen B) by (apply put_zlen; [lia|apply IH; lia]).
  rewrite gen_at_zlen; [done|done|lia|nia].
Qed.

(** A copied block and the other blocks. *)
Lemma put_block_other j k B' :
  0 <= j -> 0 <= k < Z.of_nat n -> j <> k -> zlen B' = zlen B -> block (put_data c k D B') j = block B' j.
Proof.
  intros Hj Hk Hne E. pose proof (dbs_pos c Hc). pose proof (data_zlen k Hk). unfold put_data.
  apply slice_splice_out; [nia|nia|nia|].
  destruct (Z.lt_total j k) as [H1|[?|H1]]; [left; by apply block_order|lia|]. right.
  pose proof (block_order k j H1). lia.
Qed.

Lemma put_head k B' :
  0 <= k < Z.of_nat n -> zlen B' = zlen B -> slice (put_data c k D B') (k * bs) dbs = slice D (k * dbs) dbs.
Proof.
  intros Hk E. pose proof (dbs_pos c Hc). pose proof (data_zlen k Hk). unfold put_data. apply slice_splice_eq; [nia|done|nia].
Qed.

(** Every inserted block passes its check, and has the data of the caller. *)
Lemma insert_block i k :
  ~ tag_conflict c -> (i <= n)%nat -> 0 <= k < Z.of_nat i ->
  verify_at c k (flat_insert c i D B) = None /\ slice (flat_insert c i D B) (k * bs) dbs = slice D (k * dbs) dbs.
Proof.
  intros Ht. pose proof (dbs_pos c Hc) as Hd. induction i as [|i IH]; intros Hi Hk; [lia|]. cbn [flat_insert].
  assert (Hi' : zlen (flat_insert c i D B) = zlen B) by (apply insert_zlen; lia).
  set (P := put_data c (Z.of_nat i) D (flat_insert c i D B)).
  assert (Hp : zlen P = zlen B) by (apply put_zlen; [lia|done]).
  destruct (decide (k = Z.of_nat i)) as [->|Hne].
  - split; [apply gen_verifies; [lia|nia|done]|]. rewrite <- (put_head (Z.of_nat i) (flat_insert c i D B)) by (lia || done). fold P.
    rewrite <- (Z.add_0_r (Z.of_nat i * bs)) at 1. by rewrite gen_data, Z.add_0_r by (lia || nia).
  - assert (Eb : block (gen_at c false (Z.of_nat i) P) k = block (flat_insert c i D B) k).
    { rewrite gen_block_other by (lia || nia). by apply put_block_other; try lia. }
    destruct (IH ltac:(lia) ltac:(lia)) as [E1 E2]. split.
    + rewrite <- E1. apply verify_at_block; [lia|done].
    + rewrite <- E2, (block_head (gen_at _ _ _ _) k dbs), (block_head (flat_insert c i D B) k dbs), Eb by lia. done.
Qed.

(** The extracted data is that of the blocks. *)
Lemma extract_zlen i : (i <= n)%nat -> zlen (flat_extract c i B D) = zlen D.
Proof.
  pose proof (dbs_pos c Hc). induction i as [|i IH]; intros Hi; [done|]. cbn [flat_extract].
  assert (zlen (slice B (Z.of_nat i * bs) dbs) = dbs) by (apply slice_zlen; nia).
  rewrite splice_zlen; rewrite ?IH; lia || nia.
Qed.

Lemma extract_data i k :
  (i <= n)%nat -> 0 <= k < Z.of_nat i -> slice (flat_extract c i B D) (k * dbs) dbs = slice B (k * bs) dbs.
Proof.
  pose proof (dbs_pos c Hc) as Hd. induction i as [|i IH]; intros Hi Hk; [lia|]. cbn [flat_extract].
  assert (Hz : zlen (slice B (Z.of_nat i * bs) dbs) = dbs) by (apply slice_zlen; nia).
  pose proof (extract_zlen i ltac:(lia)) as Hz2. destruct (decide (k = Z.of_nat i)) as [->|Hne].
  - apply slice_splice_eq; [nia|done|nia].
  - rewrite <- IH by lia. apply slice_splice_out; nia.
Qed.

End Insert.

(** Lists that agree block by block. *)
Lemma slices_eq A A' n b :
  0 <= b -> (forall k, 0 <= k < Z.of_nat n -> slice A (k * b) b = slice A' (k * b) b) ->
  slice A 0 (Z.of_nat n * b) = slice A' 0 (Z.of_nat n * b).
Proof.
  intros Hb. induction n as [|n IH]; intros H; [done|].
  replace (Z.of_nat (S n) * b) with (Z.of_nat n * b + b) by lia. rewrite !slice_app by nia.
  rewrite !Z.add_0_l, (H (Z.of_nat n)), IH by (lia || (intros; apply H; lia)). done.
Qed.

End Flat.
