(* ===== verification/DifTheorems.v ===== *)
(** * Protection information: theorems

    Generation, verification and the copies of lib/util/dif.c over scattered
    buffers: the result does not depend on how a buffer is scattered, generated
    blocks verify, copies in and out give back the data, and blocks that were
    moved are detected. *)

From S2P Require Import Prelude Pipe PipeLemmas IovLemmas Dif DifMem DifLemmas DifBlocks DifCopy DifFlat.

(** ** Calls *)

(** The whole blocks of an array are contiguous: the first path of the
    functions. *)
Definition aligned (vs : list iovec) (b : Z) : bool := forallb (fun v => iov_len v mod b =? 0) vs.

(** The buffer of a call has room for [n] blocks of [b] bytes, in memory that can
    be accessed; its length fits the type of the size, and on the path for
    contiguous blocks the first element is not empty. *)
Record buffer (vs : list iovec) (n b : Z) (st : pst) : Prop := {
  bf_iov : iov_ok (mem st) vs;
  bf_n : 0 <= n;
  bf_len : n * b <= iov_total vs;
  bf_total : iov_total vs < 2 ^ 64;
  bf_32 : n * b < 2 ^ 32;
  bf_head : aligned vs b = true -> settled (_dif_sgl_init vs) }.

Record enabled (c : dif_ctx) : Prop := {
  en_ok : ctx_ok c;
  en_type : dif_type c ≠ SPDK_DIF_DISABLE }.

Section Calls.
Context {C : Crc} {L : CrcLaws C} (c : dif_ctx).
Notation bs := (block_size c).
Notation dbs := (block_size c - c_md_size c).

Lemma buffer_n vs n b st : buffer vs n b st -> 0 < b -> 0 <= n < 2 ^ 32.
Proof. intros [_ H1 _ _ H2 _] Hb. nia. Qed.

Lemma buffer_changed ws vs n b st st' : changed ws (mem st) (mem st') -> buffer vs n b st -> buffer vs n b st'.
Proof. intros Hch [H1 H2 H3 H4 H5 H6]. constructor; try done. by eapply iov_ok_changed. Qed.

Lemma valid_ok vs n b st : buffer vs n b st -> 0 < b -> _dif_sgl_is_valid vs (u32 (b * n)) = true.
Proof.
  intros [H1 H2 H3 H4 H5 H6] Hb. rewrite (is_valid_total (mem st)) by (done || apply H1).
  rewrite wrap_small by nia. lia.
Qed.

Lemma not_disabled : enabled c -> _dif_is_disabled (dif_type c) = false.
Proof. intros [_ H]. by apply bool_decide_eq_false_2. Qed.

(** spdk_dif_generate on any layout. *)
Lemma generate_flat vs n st :
  enabled c -> buffer vs n bs st ->
  exists st', spdk_dif_generate vs n c st = Ok (0, st') /\ changed vs (mem st) (mem st') /\
    iov_bytes (mem st') vs = flat_generate c (negb (aligned vs bs)) (Z.to_nat n) (iov_bytes (mem st) vs).
Proof.
  intros He Hb. pose proof (en_ok c He) as Hc. pose proof (dbs_pos c Hc) as Hd.
  pose proof (buffer_n _ _ _ _ Hb ltac:(lia)) as Hn. unfold spdk_dif_generate.
  rewrite (valid_ok _ _ _ _ Hb), not_disabled by (done || lia). cbn [negb].
  rewrite (M_bind_ok _ _ _ _ _ (is_multiple_ok vs bs st ltac:(lia))). fold (aligned vs bs).
  destruct (aligned vs bs) eqn:Ea; cbn [negb].
  - destruct (generate_blocks c Hc vs n st) as (s' & st' & E & HI); [apply Hb|done|apply Hb|done|by apply Hb|].
    rewrite (M_bind_ok _ _ _ _ _ E). exists st'. split_and!; [done|apply HI|apply HI].
  - destruct (generate_split_blocks c Hc vs n st) as (s' & st' & E & HI); [apply Hb|done|apply Hb|].
    rewrite (M_bind_ok _ _ _ _ _ E). exists st'. split_and!; [done|apply HI|apply HI].
Qed.

Definition verdict_of (e : option dif_error) : Z * option dif_error :=
  match e with None => (0, None) | Some e => (-1, Some e) end.

Lemma verdict_or_error {A} (e : option dif_error) (x : A) : verdict (or_error e x) = verdict_of e.
Proof. by destruct e. Qed.

(** spdk_dif_verify on any layout. *)
Lemma verify_flat vs n st :
  enabled c -> buffer vs n bs st ->
  spdk_dif_verify vs n c st
  = Ok (verdict_of (first_err (fun k => verify_at c k (iov_bytes (mem st) vs)) (Z.to_nat n) 0), st).
Proof.
  intros He Hb. pose proof (en_ok c He) as Hc. pose proof (dbs_pos c Hc) as Hd.
  pose proof (buffer_n _ _ _ _ Hb ltac:(lia)) as Hn. unfold spdk_dif_verify.
  rewrite (valid_ok _ _ _ _ Hb), not_disabled by (done || lia). cbn [negb].
  rewrite (M_bind_ok _ _ _ _ _ (is_multiple_ok vs bs st ltac:(lia))). fold (aligned vs bs).
  destruct (aligned vs bs) eqn:Ea.
  - destruct (verify_blocks c Hc vs n st) as (x & E); [apply Hb|done|apply Hb|done|by apply Hb|].
    rewrite (M_bind_ok _ _ _ _ _ E). by rewrite verdict_or_error.
  - destruct (verify_split_blocks c Hc vs n st) as (x & E); [apply Hb|done|apply Hb|].
    rewrite (M_bind_ok _ _ _ _ _ E). by rewrite verdict_or_error.
Qed.

(** The two buffers of a copy: [vs] has the data of [n] blocks, [ws] the blocks
    with their metadata, each contiguous.  They do not overlap. *)
Record copy_buffers (vs ws : list iovec) (n : Z) (st : pst) : Prop := {
  cb_data : buffer vs n dbs st;
  cb_bounce : buffer ws n bs st;
  cb_aligned : aligned ws bs = true;
  cb_count : iov_total ws / bs < 2 ^ 32;
  cb_vw : disj vs ws;
  cb_wv : disj ws vs }.

Lemma copy_buffers_changed us vs ws n st st' :
  changed us (mem st) (mem st') -> copy_buffers vs ws n st -> copy_buffers vs ws n st'.
Proof. intros Hch [H1 H2 H3 H4 H5 H6]. constructor; try done; by eapply buffer_changed. Qed.

Lemma block_count m ws :
  fits m ws -> 0 < bs -> aligned ws bs = true -> forall a, 0 <= a -> a + iov_total ws / bs < 2 ^ 32 ->
  fold_left (fun x v => u32 (x + iov_len v / bs)) ws a = a + iov_total ws / bs.
Proof.
  intros Hf Hb. induction Hf as [|v ws Hv Hws IH]; intros Ha a Ha0 Hl; cbn [fold_left].
  { change (iov_total [] / bs) with (0 / bs). rewrite Z.div_0_l by lia. lia. }
  cbn [aligned forallb] in Ha. apply andb_true_iff in Ha as [H1%Z.eqb_eq H2].
  pose proof (total_nonneg m ws Hws). assert (0 <= iov_len v) by (destruct Hv as [?|[? _]]; lia).
  rewrite total_cons in *. rewrite (Z_div_exact_full_2 (iov_len v) bs) in Hl |- * by lia.
  rewrite (Z.mul_comm bs), Z.div_add_l in * by lia. rewrite Z.div_mul by lia.
  assert (0 <= iov_len v / bs) by (apply Z.div_pos; lia). assert (0 <= iov_total ws / bs) by (apply Z.div_pos; lia).
  rewrite wrap_small, IH by (done || lia). lia.
Qed.

Lemma bounce_valid vs ws n st :
  ctx_ok c -> copy_buffers vs ws n st -> _dif_sgl_is_valid_block_aligned ws n bs st = Ok (true, st).
Proof.
  intros Hc [_ [H1 H2 H3 _ _ _] H4 H5 _ _]. pose proof (dbs_pos c Hc). unfold _dif_sgl_is_valid_block_aligned.
  destruct (Z.eqb_spec bs 0); [lia|]. cbn [andb negb]. fold (aligned ws bs). rewrite H4. cbn [andb].
  rewrite (block_count (mem st)) by (done || apply H1 || lia).
  assert (n <= iov_total ws / bs) by (apply Z.div_le_lower_bound; lia).
  unfold mret, M_ret. do 2 f_equal. lia.
Qed.

Lemma generate_copy_flat vs ws n st :
  enabled c -> copy_buffers vs ws n st ->
  exists st', spdk_dif_generate_copy vs ws n c st = Ok (0, st') /\ changed ws (mem st) (mem st') /\
    iov_bytes (mem st') ws = flat_insert c (Z.to_nat n) (iov_bytes (mem st) vs) (iov_bytes (mem st) ws).
Proof.
  intros He Hb. pose proof (en_ok c He) as Hc. pose proof (dbs_pos c Hc) as Hd. pose proof (dbs_ok c Hc) as Ed.
  pose proof Hb as [Hv Hw Ha Hcn Hvw Hwv].
  pose proof (buffer_n _ _ _ _ Hw ltac:(lia)) as Hn. unfold spdk_dif_generate_copy. rewrite Ed.
  rewrite (valid_ok _ _ _ _ Hv), not_disabled by (done || lia). cbn [negb].
  rewrite (M_bind_ok _ _ _ _ _ (bounce_valid vs ws n st Hc Hb)). cbn [negb].
  rewrite (M_bind_ok _ _ _ _ _ (is_multiple_ok vs dbs st ltac:(lia))). fold (aligned vs dbs).
  assert (exists x st', (if aligned vs dbs then dif_generate_copy (_dif_sgl_init vs) (_dif_sgl_init ws) n c
            else dif_generate_copy_split (_dif_sgl_init vs) (_dif_sgl_init ws) n c) st = Ok (x, st')
            /\ ins_inv c vs ws st n x st') as (x & st' & E & HI).
  { destruct (aligned vs dbs) eqn:Ea.
    - apply insert_blocks; try done; try apply Hv; try by apply Hw. split; [done|by apply Hv].
    - apply insert_split_blocks; try done; try apply Hv; try by apply Hw. intros [H' _]. unfold aligned in Ea. congruence. }
  rewrite (M_bind_ok _ _ _ _ _ E). exists st'. split_and!; [done|apply HI|apply HI].
Qed.

Lemma verify_copy_flat vs ws n st :
  let B := iov_bytes (mem st) ws in
  let e := first_err (fun k => verify_at c k B) (Z.to_nat n) 0 in
  enabled c -> copy_buffers vs ws n st ->
  exists st', spdk_dif_verify_copy vs ws n c st = Ok (verdict_of e, st') /\ changed vs (mem st) (mem st') /\
    (e = None -> iov_bytes (mem st') vs = flat_extract c (Z.to_nat n) B (iov_bytes (mem st) vs)).
Proof.
  cbv zeta. intros He Hb. pose proof (en_ok c He) as Hc. pose proof (dbs_pos c Hc) as Hd. pose proof (dbs_ok c Hc) as Ed.
  pose proof Hb as [Hv Hw Ha Hcn Hvw Hwv].
  pose proof (buffer_n _ _ _ _ Hw ltac:(lia)) as Hn. unfold spdk_dif_verify_copy. rewrite Ed.
  rewrite (valid_ok _ _ _ _ Hv), not_disabled by (done || lia). cbn [negb].
  rewrite (M_bind_ok _ _ _ _ _ (bounce_valid vs ws n st Hc Hb)). cbn [negb].
  rewrite (M_bind_ok _ _ _ _ _ (is_multiple_ok vs dbs st ltac:(lia))). fold (aligned vs dbs).
  destruct (aligned vs dbs) eqn:Ea.
  - destruct (extract_blocks c Hc vs ws n st) as (x & st' & E & Hch & Hb'); try done; try apply Hv; try by apply Hw.
    { split; [done|by apply Hv]. }
    rewrite (M_bind_ok _ _ _ _ _ E). rewrite verdict_or_error. by exists st'.
  - destruct (extract_split_blocks c Hc vs ws n st) as (x & st' & E & Hch & Hb'); try done; try apply Hv; try by apply Hw.
    { intros [H' _]. unfold aligned in Ea. congruence. }
    rewrite (M_bind_ok _ _ _ _ _ E). rewrite verdict_or_error. by exists st'.
Qed.

End Calls.

(** ** Moved blocks *)

(** The context of a transfer whose blocks begin at another tag. *)
Definition moved (r : Z) (c : dif_ctx) : dif_ctx :=
  DifCtx (block_size c) (guard_interval c) (c_md_size c) (md_interleave c) (dif_type c)
    (dif_pi_format c) (dif_flags c) r (app_tag c) (apptag_mask c) (data_offset c) (ref_tag_offset c)
    (remapped_init_ref_tag c) (last_guard c) (guard_seed c).

(** The reference tags are generated and checked, and the application tag does
    not switch the checks off. *)
Record tags_checked (c : dif_ctx) : Prop := {
  tc_type : dif_type c = SPDK_DIF_TYPE1 \/ dif_type c = SPDK_DIF_TYPE2;
  tc_ref : has_flag c SPDK_DIF_FLAGS_REFTAG_CHECK = true;
  tc_app : has_flag c SPDK_DIF_FLAGS_APPTAG_CHECK = true;
  tc_tag : app_tag c <> SPDK_DIF_APPTAG_IGNORE;
  tc_init : init_ref_tag c <> SPDK_DIF_REFTAG_IGNORE }.

Lemma wrap_wrap_le a b x : 0 <= a <= b -> wrap a (wrap b x) = wrap a x.
Proof.
  intros H. unfold wrap. replace b with (a + (b - a)) by lia. rewrite Z.pow_add_r by lia.
  rewrite Z.rem_mul_r by (try apply Z.pow_nonzero; try apply Z.pow_pos_nonneg; lia).
  rewrite Z.mul_comm, Z.mod_add, Z.mod_mod by (apply Z.pow_nonzero; lia). done.
Qed.

Section Moved.
Context {C : Crc} {L : CrcLaws C} (c : dif_ctx).

Lemma tag_bits_le : 32 <= tag_bits c <= 64.
Proof. unfold tag_bits. by destruct (dif_pi_format c). Qed.

Lemma moved_tag r k :
  tags_checked c -> wrap 32 r <> wrap 32 (init_ref_tag c) ->
  wrap (tag_bits c) (block_ref_tag k (moved r c)) <> wrap (tag_bits c) (block_ref_tag k c).
Proof.
  intros [Ht _ _ _ _] Hr E. apply Hr. clear Hr. pose proof tag_bits_le as Hb. unfold block_ref_tag in E. cbn in E.
  rewrite bool_decide_eq_false_2 in E by (destruct Ht as [-> | ->]; done).
  rewrite !wrap_wrap_le in E by lia. apply (f_equal (wrap 32)) in E. rewrite !wrap_wrap_le in E by lia.
  unfold wrap in *. set (d := ref_tag_offset c + k) in E.
  rewrite <- !Z.add_assoc in E. fold d in E.
  replace r with ((r + d) - d) by lia. replace (init_ref_tag c) with ((init_ref_tag c + d) - d) by lia.
  by rewrite (Zminus_mod (r + d)), E, <- Zminus_mod.
Qed.

Lemma generated_moved r g k d :
  zlen d = _dif_size (dif_pi_format c) -> 0 <= g < 2 ^ (8 * _dif_guard_size (dif_pi_format c)) ->
  0 <= app_tag c < 2 ^ 16 -> tags_checked c -> wrap 32 r <> wrap 32 (init_ref_tag c) ->
  _dif_verify (store_var (_dif_generate g k c) d) g k (moved r c)
  = Some (DifError SPDK_DIF_REFTAG_ERROR (block_ref_tag k (moved r c)) (wrap (tag_bits c) (block_ref_tag k c)) k).
Proof.
  intros Hd Hg Ha Hc Hr. pose proof (moved_tag r k Hc Hr) as Hne. destruct Hc as [Ht Hf Hfa Hat Hi].
  set (D := store_var (_dif_generate g k c) d).
  assert (Ea : _dif_get_apptag D (dif_pi_format c) = app_tag c) by (unfold D; by rewrite gen_apptag, wrap_small).
  assert (Er : _dif_get_reftag D (dif_pi_format c) = wrap (tag_bits c) (block_ref_tag k c)).
  { unfold D. rewrite gen_reftag by done. unfold gen_tag. by destruct (Z.eqb_spec (init_ref_tag c) SPDK_DIF_REFTAG_IGNORE). }
  assert (Eg : has_flag c SPDK_DIF_FLAGS_GUARD_CHECK && negb (_dif_get_guard D (dif_pi_format c) =? g) = false).
  { destruct (has_flag c SPDK_DIF_FLAGS_GUARD_CHECK) eqn:E; [|done]. unfold D.
    by rewrite gen_guard, wrap_small, Z.eqb_refl by done. }
  unfold _dif_verify, _dif_ignore, _dif_apptag_ignore, _dif_reftag_check, _dif_reftag_match.
  cbn [moved dif_pi_format dif_type apptag_mask app_tag]. change (has_flag (moved r c)) with (has_flag c).
  rewrite Ea, Er, Eg, Hf, Hfa, Z.eqb_refl. cbn [andb negb].
  pose proof (tag_mask c _ (block_ref_tag_range (moved r c) k)) as Em. rewrite Em.
  destruct (Z.eqb_spec (app_tag c) SPDK_DIF_APPTAG_IGNORE); [done|].
  destruct (Z.eqb_spec (wrap (tag_bits c) (block_ref_tag k c)) (wrap (tag_bits c) (block_ref_tag k (moved r c)))); [congruence|].
  by destruct Ht as [-> | ->].
Qed.

End Moved.

(** ** The theorems *)

(** Two buffers hold the same [len] bytes. *)
Definition same_bytes (len : Z) (vs : list iovec) (st : pst) (ws : list iovec) (st' : pst) : Prop :=
  slice (iov_bytes (mem st) vs) 0 len = slice (iov_bytes (mem st') ws) 0 len.

Section Theorems.
Context {C : Crc} {L : CrcLaws C} (c : dif_ctx).
Notation bs := (block_size c).
Notation dbs := (block_size c - c_md_size c).

Lemma same_block n vs st ws st' k :
  0 < bs -> same_bytes (n * bs) vs st ws st' -> 0 <= k < n ->
  slice (iov_bytes (mem st) vs) (k * bs) bs = slice (iov_bytes (mem st') ws) (k * bs) bs.
Proof.
  intros Hb E Hk. apply (f_equal (fun l => slice l (k * bs) bs)) in E.
  by rewrite !slice_slice, !Z.add_0_l in E by nia.
Qed.

Lemma verify_same n vs st ws st' :
  ctx_ok c -> 0 <= n -> same_bytes (n * bs) vs st ws st' ->
  first_err (fun k => verify_at c k (iov_bytes (mem st) vs)) (Z.to_nat n) 0
  = first_err (fun k => verify_at c k (iov_bytes (mem st') ws)) (Z.to_nat n) 0.
Proof.
  intros Hc Hn E. pose proof (dbs_pos c Hc). apply first_err_ext. intros k Hk.
  apply verify_at_block; [done|lia|]. eapply same_block; [lia|done|lia].
Qed.

Lemma verify_at_offset k F e : verify_at c k F = Some e -> err_offset e = k.
Proof.
  unfold verify_at, _dif_verify, _dif_reftag_check. intros H.
  repeat (case_match; simplify_eq); done.
Qed.

(** C27: spdk_dif_verify reports the error of the first block that fails, with its
    number, and success when no block fails; what it reports depends on the
    bytes only, not on the way they are scattered over the iovecs, and the
    memory is unchanged.  The iovecs are over distinct live memory and hold the
    blocks; when all are multiples of the block size (the path for contiguous
    blocks) the first one is not empty. *)
Theorem dif_verify_exact vs n st :
  enabled c -> buffer vs n bs st ->
  exists rc e, spdk_dif_verify vs n c st = Ok ((rc, e), st) /\
    match e with
    | None => rc = 0 /\ forall k, 0 <= k < n -> verify_at c k (iov_bytes (mem st) vs) = None
    | Some e => rc = -1 /\ exists k, 0 <= k < n /\ err_offset e = k /\
        verify_at c k (iov_bytes (mem st) vs) = Some e /\
        forall j, 0 <= j < k -> verify_at c j (iov_bytes (mem st) vs) = None
    end.
Proof.
  intros He Hb. pose proof (bf_n _ _ _ _ Hb) as Hn. rewrite (verify_flat c vs n st He Hb).
  destruct (first_err _ _ _) as [e|] eqn:E; eexists _, _; (split; [reflexivity|]); (split; [done|]).
  - apply first_err_some in E as (k & Hk & Ek & Hj). exists k.
    split_and!; [lia|lia|by eapply verify_at_offset|done|]. intros j ?. apply Hj. lia.
  - intros k Hk. rewrite first_err_none in E. apply E. lia.
Qed.

(** C26: blocks with generated protection information verify, on any other buffer
    that holds the same bytes, however either buffer is scattered, provided that
    the initial reference tag is not the value that asks for no check while the
    reference tag is checked.  Generation changes nothing but the protection fields:
    not the data of a block, not the metadata before and after its field, not the
    bytes behind the blocks, not other memory.  Either buffer is a list of iovecs
    over distinct live memory that holds the blocks; one that is taken for
    contiguous begins with a non-empty iovec. *)
Theorem dif_roundtrip vs n st :
  enabled c -> buffer vs n bs st ->
  exists st', spdk_dif_generate vs n c st = Ok (0, st') /\ changed vs (mem st) (mem st') /\
    (forall k o m, 0 <= k < n -> 0 <= o -> 0 <= m -> o + m <= bs ->
       o + m <= guard_interval c \/ guard_interval c + _dif_size (dif_pi_format c) <= o ->
       slice (iov_bytes (mem st') vs) (k * bs + o) m = slice (iov_bytes (mem st) vs) (k * bs + o) m) /\
    slice (iov_bytes (mem st') vs) (n * bs) (iov_total vs - n * bs)
      = slice (iov_bytes (mem st) vs) (n * bs) (iov_total vs - n * bs) /\
    forall ws st2, ~ tag_conflict c -> buffer ws n bs st2 -> same_bytes (n * bs) ws st2 vs st' ->
      spdk_dif_verify ws n c st2 = Ok ((0, None), st2).
Proof.
  intros He Hb. pose proof (en_ok c He) as Hc. pose proof (dbs_pos c Hc) as Hd.
  pose proof Hb as [Hio Hn Hlen _ _ _].
  assert (HF : zlen (iov_bytes (mem st) vs) = iov_total vs) by apply bytes_zlen, Hio.
  destruct (generate_flat c vs n st He Hb) as (st' & E & Hch & EF). exists st'. rewrite EF.
  assert (En : Z.of_nat (Z.to_nat n) = n) by lia.
  split_and!; [done|done| | |].
  - intros k o m Hk Ho Hm Hl Hout. apply flat_part; rewrite ?En; (done || lia).
  - rewrite <- En at 2 4. apply flat_tail; [done| |]; rewrite ?En; lia.
  - intros ws st2 Ht Hw Es. rewrite (verify_flat c ws n st2 He Hw).
    rewrite (verify_same n ws st2 vs st') by done. rewrite EF.
    replace (first_err _ _ _) with (@None dif_error); [done|]. symmetry. apply first_err_none. intros k Hk.
    apply flat_verifies; [done|done|lia|lia].
Qed.

(** C30: data copied to a bounce buffer of whole blocks with
    spdk_dif_generate_copy comes back from any buffer with the same blocks through
    spdk_dif_verify_copy, which reports no error; the bounce buffer also passes
    spdk_dif_verify.  The data buffer and everything else apart from the bounce
    buffer is unchanged.  This supposes that the initial reference tag is not the
    value that asks for no check while the reference tag is checked, which the
    verification takes for a failure ([ignored_tag_fails]), and that the buffers do
    not overlap and begin with non-empty iovecs where they are taken for
    contiguous. *)
Theorem dif_copy_roundtrip vs ws n st :
  enabled c -> copy_buffers c vs ws n st -> ~ tag_conflict c ->
  exists st', spdk_dif_generate_copy vs ws n c st = Ok (0, st') /\ changed ws (mem st) (mem st') /\
    spdk_dif_verify ws n c st' = Ok ((0, None), st') /\
    forall vs2 ws2 st2, copy_buffers c vs2 ws2 n st2 -> same_bytes (n * bs) ws2 st2 ws st' ->
      exists st3, spdk_dif_verify_copy vs2 ws2 n c st2 = Ok ((0, None), st3) /\
        changed vs2 (mem st2) (mem st3) /\ same_bytes (n * dbs) vs2 st3 vs st.
Proof.
  intros He Hb Ht. pose proof (en_ok c He) as Hc. pose proof (dbs_pos c Hc) as Hd.
  pose proof Hb as [Hv Hw Ha _ _ _]. pose proof (bf_n _ _ _ _ Hv) as Hn.
  assert (HD : zlen (iov_bytes (mem st) vs) = iov_total vs) by apply bytes_zlen, Hv.
  assert (HB : zlen (iov_bytes (mem st) ws) = iov_total ws) by apply bytes_zlen, Hw.
  destruct (generate_copy_flat c vs ws n st He Hb) as (st' & E & Hch & EB). exists st'.
  assert (Hins : forall k, 0 <= k < n -> verify_at c k (iov_bytes (mem st') ws) = None /\
            slice (iov_bytes (mem st') ws) (k * bs) dbs = slice (iov_bytes (mem st) vs) (k * dbs) dbs).
  { intros k Hk. rewrite EB. destruct Hv as [_ _ ? _ _ _], Hw as [_ _ ? _ _ _].
    eapply insert_block with (n := Z.to_nat n); try done; lia. }
  assert (Hok : first_err (fun k => verify_at c k (iov_bytes (mem st') ws)) (Z.to_nat n) 0 = None)
    by (apply first_err_none; intros k Hk; apply Hins; lia).
  assert (Hw' : buffer ws n bs st') by (by eapply buffer_changed).
  split_and!; [done|done|by rewrite (verify_flat c ws n st' He Hw'), Hok|].
  intros vs2 ws2 st2 Hb2 Es. destruct (verify_copy_flat c vs2 ws2 n st2 He Hb2) as (st3 & E3 & Hch3 & Eb3).
  rewrite (verify_same n ws2 st2 ws st'), Hok in * by done. exists st3. split_and!; [done|done|].
  unfold same_bytes. rewrite Eb3 by done. rewrite <- (Z2Nat.id n) at 2 3 by done.
  apply slices_eq; [lia|]. intros k Hk. destruct Hb2 as [Hv2 Hw2 _ _ _ _].
  assert (zlen (iov_bytes (mem st2) vs2) = iov_total vs2) by apply bytes_zlen, Hv2.
  assert (zlen (iov_bytes (mem st2) ws2) = iov_total ws2) by apply bytes_zlen, Hw2.
  destruct Hv2 as [_ _ ? _ _ _], Hw2 as [_ _ ? _ _ _].
  rewrite (extract_data c Hc _ _ (Z.to_nat n)) by (done || lia). rewrite <- (proj2 (Hins k ltac:(lia))).
  rewrite !(block_head c Hc _ k dbs) by lia. f_equal. eapply same_block; [lia|done|lia].
Qed.

(** Blocks that are read back from another place are detected: a buffer with
    generated protection information fails the verification of a transfer that
    begins at another reference tag, at its first block and with a reference tag
    error that names the two tags. *)
Lemma dif_misdirected_detected vs n st r :
  enabled c -> buffer vs n bs st -> tags_checked c -> 0 < n -> wrap 32 r <> wrap 32 (init_ref_tag c) ->
  exists st', spdk_dif_generate vs n c st = Ok (0, st') /\
    forall ws st2, buffer ws n bs st2 -> same_bytes (n * bs) ws st2 vs st' ->
      spdk_dif_verify ws n (moved r c) st2
      = Ok ((-1, Some (DifError SPDK_DIF_REFTAG_ERROR (block_ref_tag 0 (moved r c))
                         (wrap (tag_bits c) (block_ref_tag 0 c)) 0)), st2).
Proof.
  intros He Hb Ht Hn0 Hr. pose proof (en_ok c He) as Hc. pose proof (dbs_pos c Hc) as Hd.
  pose proof Hb as [Hio Hn Hlen _ _ _].
  assert (HF : zlen (iov_bytes (mem st) vs) = iov_total vs) by apply bytes_zlen, Hio.
  destruct (generate_flat c vs n st He Hb) as (st' & E & Hch & EF). exists st'. split; [done|].
  intros ws st2 Hw Es.
  assert (He' : enabled (moved r c)) by (destruct He as [[] ?]; constructor; [by constructor|done]).
  rewrite (verify_flat (moved r c) ws n st2 He' Hw).
  set (F2 := iov_bytes (mem st2) ws). set (F := iov_bytes (mem st) vs) in *.
  assert (Eb : slice F2 (0 * bs) bs = slice (flat_generate c (negb (aligned vs bs)) (Z.to_nat n) F) (0 * bs) bs)
    by (rewrite <- EF; apply (same_block n); [lia|done|lia]).
  assert (Ev : verify_at (moved r c) 0 F2 = Some (DifError SPDK_DIF_REFTAG_ERROR (block_ref_tag 0 (moved r c))
                         (wrap (tag_bits c) (block_ref_tag 0 c)) 0)).
  { rewrite (verify_at_block (moved r c) (en_ok _ He') 0 _ _ ltac:(done) Eb).
    change (verify_at (moved r c) 0) with (fun F => _dif_verify (slice F (0 * bs + guard_interval c)
      (_dif_size (dif_pi_format c))) (block_guard c F (0 * bs)) 0 (moved r c)). cbv beta.
    rewrite flat_field, flat_guard by (done || lia).
    apply generated_moved; [apply base_zlen; [done|lia|nia]|apply block_guard_range|apply Hc|done|done]. }
  replace (Z.to_nat n) with (S (Z.to_nat (n - 1))) by lia. cbn [first_err]. by rewrite Ev.
Qed.

End Theorems.

(** ** Concrete calls *)

(** A checksum with the laws. *)
#[local] Instance sum_crc : Crc := {|
  crc16_t10dif s bs := u16 (s + zsum bs);
  crc32_iscsi s bs := u32 (s + zsum bs);
  crc64_rocksoft_refl s bs := u64 (s + zsum bs) |}.

Lemma wrap_sum w s a b : wrap w (wrap w (s + zsum a) + zsum b) = wrap w (s + zsum (a ++ b)).
Proof. unfold wrap. rewrite Zplus_mod_idemp_l. f_equal. rewrite zsum_app. lia. Qed.

#[local] Instance sum_crc_laws : CrcLaws sum_crc.
Proof. constructor; intros; cbn; (by apply wrap_range) || apply wrap_sum. Qed.

(** Two blocks of 8 bytes of data and 8 of metadata, over two buffers. *)
Definition demo_ctx : dif_ctx :=
  DifCtx 16 8 8 true SPDK_DIF_TYPE1 SPDK_DIF_PI_FORMAT_16
    (SPDK_DIF_FLAGS_GUARD_CHECK + SPDK_DIF_FLAGS_APPTAG_CHECK + SPDK_DIF_FLAGS_REFTAG_CHECK) 7 0x1234 0xFFFF 0 0 0 0 0.
Definition demo_mem : gmap nat (list Z) :=
  <[0%nat := seqZ 10 20]> (<[1%nat := seqZ 40 12]> (<[2%nat := seqZ 60 16]> (<[3%nat := replicate 32 0]> ∅))).
Definition demo_state : pst := Pst demo_mem ∅ ∅.
Definition demo_iovs : list iovec := [Iov (Some (0%nat, 0)) 20; Iov (Some (1%nat, 0)) 12].
Definition demo_data : list iovec := [Iov (Some (2%nat, 0)) 3; Iov (Some (2%nat, 3)) 13].
Definition demo_bounce : list iovec := [Iov (Some (3%nat, 0)) 32].

Lemma demo_enabled : enabled demo_ctx.
Proof. constructor; [|done]. constructor; cbn; lia. Qed.

Ltac fits_demo :=
  repeat (apply Forall_cons; split;
    [right; split; [done|]; eexists _, _, _; (split_and!; [reflexivity|reflexivity|done|done])|]); by apply Forall_nil.

Ltac seps_demo :=
  repeat (apply Forall_cons; split; [right; right; first [by left | by right; left]|]); by apply Forall_nil.
Ltac apart_demo := repeat (apply FOP_cons; [seps_demo|]); apply FOP_nil.

Lemma demo_iovs_ok : iov_ok (mem demo_state) demo_iovs.
Proof. constructor; [fits_demo|by repeat constructor|apart_demo]. Qed.

Lemma demo_buffer : buffer demo_iovs 2 16 demo_state.
Proof. constructor; [apply demo_iovs_ok|done|done|done|done|done]. Qed.

Lemma demo_copy : copy_buffers demo_ctx demo_data demo_bounce 2 demo_state.
Proof.
  constructor; try done.
  - constructor; try done. constructor; [fits_demo|by repeat constructor|apart_demo].
  - constructor; try done. constructor; [fits_demo|by repeat constructor|apart_demo].
  - repeat (apply Forall_cons; split; [seps_demo|]); by apply Forall_nil.
  - repeat (apply Forall_cons; split; [seps_demo|]); by apply Forall_nil.
Qed.

Lemma demo_no_conflict : ~ tag_conflict demo_ctx.
Proof. by intros (_ & [=] & _). Qed.

Lemma demo_tags : tags_checked demo_ctx.
Proof. by constructor; try by left. Qed.

Lemma dif_verify_exact_witness :
  exists rc e, spdk_dif_verify demo_iovs 2 demo_ctx demo_state = Ok ((rc, e), demo_state) /\ rc = -1.
Proof.
  destruct (dif_verify_exact demo_ctx demo_iovs 2 demo_state demo_enabled demo_buffer) as (rc & e & E & H).
  exists rc, e. split; [exact E|]. vm_compute in E. by simplify_eq.
Defined.

Lemma dif_roundtrip_witness :
  exists st', spdk_dif_generate demo_iovs 2 demo_ctx demo_state = Ok (0, st') /\
    spdk_dif_verify demo_iovs 2 demo_ctx st' = Ok ((0, None), st').
Proof.
  destruct (dif_roundtrip demo_ctx demo_iovs 2 demo_state demo_enabled demo_buffer)
    as (st' & E & Hch & _ & _ & H).
  exists st'. split; [exact E|]. apply H; [exact demo_no_conflict| |reflexivity]. exact (buffer_changed _ _ _ _ _ _ Hch demo_buffer).
Defined.

Lemma dif_copy_roundtrip_witness :
  exists st' st3, spdk_dif_generate_copy demo_data demo_bounce 2 demo_ctx demo_state = Ok (0, st') /\
    spdk_dif_verify_copy demo_data demo_bounce 2 demo_ctx st' = Ok ((0, None), st3) /\
    iov_bytes (mem st3) demo_data = seqZ 60 16.
Proof.
  destruct (dif_copy_roundtrip demo_ctx demo_data demo_bounce 2 demo_state demo_enabled demo_copy demo_no_conflict)
    as (st' & E & Hch & _ & H).
  destruct (H demo_data demo_bounce st') as (st3 & E3 & Hch3 & Hd);
    [exact (copy_buffers_changed _ _ _ _ _ _ _ Hch demo_copy)|reflexivity|].
  exists st', st3. split; [exact E|]. split; [exact E3|]. unfold same_bytes in Hd.
  assert (Hz : zlen (iov_bytes (mem st3) demo_data) = 16).
  { rewrite bytes_zlen; [done|]. eapply fits_shape; [apply Hch3|]. eapply fits_shape; [apply Hch|]. apply demo_copy. }
  change (2 * (block_size demo_ctx - c_md_size demo_ctx)) with 16 in Hd. rewrite <- Hz in Hd at 1. rewrite slice_all in Hd.
  rewrite Hd. reflexivity.
Defined.

Lemma dif_misdirected_demo :
  exists st', spdk_dif_generate demo_iovs 2 demo_ctx demo_state = Ok (0, st') /\
    spdk_dif_verify demo_iovs 2 (moved 9 demo_ctx) st'
    = Ok ((-1, Some (DifError SPDK_DIF_REFTAG_ERROR 9 7 0)), st').
Proof.
  destruct (generate_flat demo_ctx demo_iovs 2 demo_state demo_enabled demo_buffer) as (st1 & E1 & Hch & _).
  destruct (dif_misdirected_detected demo_ctx demo_iovs 2 demo_state 9 demo_enabled demo_buffer demo_tags)
    as (st' & E & H); [done|done|].
  assert (st1 = st') as -> by congruence. exists st'. split; [exact E|]. apply (H demo_iovs st'); [|reflexivity].
  exact (buffer_changed _ _ _ _ _ _ Hch demo_buffer).
Defined.

(** ** Where the code departs from the theorems' assumptions *)

(** A block size equal to the metadata size passes the checks of
    spdk_dif_ctx_init and divides by zero. *)
Lemma ctx_init_div0 b loc t flags ref mask tag off seed :
  8 <= b < 2 ^ 32 ->
  spdk_dif_ctx_init b b true loc t flags ref mask tag off seed None = UB UB_div0.
Proof.
  intros Hb. unfold spdk_dif_ctx_init. cbn [default _dif_size]. destruct (Z.ltb_spec b 8); [lia|].
  destruct (Z.ltb_spec b b); [lia|]. by rewrite Z.sub_diag.
Qed.

(** The size check of spdk_dif_generate is made with a product of 32 bits: an
    empty array passes it for 2^23 blocks of 512 bytes, and is read. *)
Lemma size_check_wraps c st :
  block_size c = 512 -> dif_type c ≠ SPDK_DIF_DISABLE -> spdk_dif_generate [] (2 ^ 23) c st = UB UB_bounds.
Proof.
  intros Hb Ht. unfold spdk_dif_generate. rewrite Hb. change (u32 (512 * 2 ^ 23)) with 0.
  unfold _dif_is_disabled. rewrite bool_decide_eq_false_2 by done.
  change (_dif_sgl_is_valid [] 0) with true. cbn [negb].
  rewrite (M_bind_ok _ _ _ _ _ (is_multiple_ok [] 512 st ltac:(lia))). unfold dif_generate.
  replace (Z.to_nat (2 ^ 23)) with (S (Z.to_nat (2 ^ 23 - 1))) by lia. done.
Qed.

(** An empty first iovec in front of contiguous blocks: the first block is looked
    for behind it. *)
Lemma empty_first_iovec :
  spdk_dif_generate (Iov (Some (4%nat, 0)) 0 :: demo_bounce) 2 demo_ctx
    (set_mem (<[4%nat := []]>) demo_state) = UB UB_bounds.
Proof. vm_compute. reflexivity. Qed.

Definition demo_guard_only : dif_ctx :=
  DifCtx 16 8 8 true SPDK_DIF_TYPE1 SPDK_DIF_PI_FORMAT_16 SPDK_DIF_FLAGS_GUARD_CHECK 7 0x1234 0xFFFF 0 0 0 0 0.

(** The bytes of [vs] behind a call. *)
Definition bytes_after {A} (r : res (A * pst)) (vs : list iovec) : list Z :=
  match r with Ok (_, st) => iov_bytes (mem st) vs | _ => [] end.

(** With the guard as the only check, a block in one iovec keeps the bytes of its
    tags; the same block over two iovecs gets zeros there. *)
Lemma split_generation_clears_tags :
  let st := Pst {[0%nat := replicate 16 1]} ∅ ∅ in
  let v := [Iov (Some (0%nat, 0)) 16] in
  let w := [Iov (Some (0%nat, 0)) 4; Iov (Some (0%nat, 4)) 12] in
  iov_bytes (mem st) v = iov_bytes (mem st) w /\
  bytes_after (spdk_dif_generate v 1 demo_guard_only st) v = replicate 8 1 ++ [0; 8] ++ replicate 6 1 /\
  bytes_after (spdk_dif_generate w 1 demo_guard_only st) w = replicate 8 1 ++ [0; 8] ++ replicate 6 0.
Proof. vm_compute. split_and!; reflexivity. Qed.

Definition demo_ignore : dif_ctx := moved SPDK_DIF_REFTAG_IGNORE demo_ctx.

(** Generated with the initial tag that asks for no check, the second block fails
    the verification: its tag is compared with the one that is counted on. *)
Lemma ignored_tag_fails :
  match spdk_dif_generate demo_iovs 2 demo_ignore demo_state with
  | Ok (_, st) =>
      match spdk_dif_verify demo_iovs 2 demo_ignore st with Ok (r, _) => Some r | _ => None end
  | _ => None
  end = Some (-1, Some (DifError SPDK_DIF_REFTAG_ERROR 0x100000000 0xFFFFFFFF 1)).
Proof. vm_compute. reflexivity. Qed.
