(* ===== verification/DifStream.v ===== *)
(** * Protection information for a stream of data

    spdk_dif_generate_stream and spdk_dif_verify_stream are called for the parts
    of a transfer in order, as the data arrives; a part may end inside of a
    block, and the guard of the block is kept in the context until the next
    call. *)

From S2P Require Import Prelude Pipe PipeLemmas IovLemmas Dif DifExt DifMem DifLemmas DifBlocks DifCopy DifFlat DifTheorems.

Section Stream.
Context {C : Crc} {L : CrcLaws C}.

Section Context_.
Variable c : dif_ctx.
Notation bs := (block_size c).
Notation dbs := (block_size c - c_md_size c).

(** The position of byte [x] of the data in the buffer with metadata. *)
Definition buf_pos (x : Z) : Z := x / dbs * bs + x mod dbs.

(** The guard of the [o] bytes of block [k] that have been seen. *)
Definition partial_guard (F : list Z) (k o : Z) : Z :=
  if o =? 0 then guard_seed c else _dif_generate_guard (guard_seed c) (slice F (k * bs) o) (dif_pi_format c).

(** The blocks [k], [k + 1], ... generated. *)
Fixpoint gen_range (k : Z) (n : nat) (F : list Z) : list Z :=
  match n with O => F | S n' => gen_range (k + 1) n' (gen_at c true k F) end.

(** The context between two calls: the guard of the block the data ends in. *)
Definition stream_at (F : list Z) (x : Z) : Prop :=
  has_flag c SPDK_DIF_FLAGS_GUARD_CHECK = true -> last_guard c = partial_guard F (x / dbs) (x mod dbs).

End Context_.

Section Walk.
Variables (c : dif_ctx) (Hc : ctx_ok c).
Notation f := (dif_pi_format c).
Notation sz := (_dif_size f).
Notation gi := (guard_interval c).
Notation bs := (block_size c).
Notation dbs := (block_size c - c_md_size c).
Notation guarded := (has_flag c SPDK_DIF_FLAGS_GUARD_CHECK).
Notation pg F k o := (if guarded then partial_guard c F k o else 0).

Lemma pg_range F k o : 0 <= pg F k o < 2 ^ 64.
Proof.
  unfold partial_guard. destruct guarded; [|done]. destruct (o =? 0); [apply Hc|apply guard_u64].
Qed.

(** The guard behind a part of a block. *)
Lemma part_guard_step F k o len :
  0 <= k -> part_ok c o len -> 0 < len -> k * bs + bs <= zlen F \/ k * bs + o + len <= zlen F ->
  part_guard c (pg F k o) o len F (k * bs + o)
  = if guarded then _dif_generate_guard (guard_seed c) (slice F (k * bs) (Z.min (o + len) gi)) f else 0.
Proof.
  intros Hk [H1 H2 H3] Hlen Hl. pose proof (dbs_pos c Hc). unfold part_guard, next_guard, partial_guard.
  destruct guarded; [|done]. set (e := Z.min (o + len) gi). assert (He : o < e <= gi /\ e <= o + len) by lia. clearbody e.
  assert (Hne : slice F (k * bs + o) (e - o) <> []) by (apply slice_ne; [nia|lia|lia]).
  destruct (slice F (k * bs + o) (e - o)) as [|y l] eqn:Es; [done|]. rewrite <- Es. clear Hne Es y l.
  destruct (Z.eqb_spec o 0) as [->|].
  - by rewrite Z.add_0_r, Z.sub_0_r.
  - rewrite guard_app by apply Hc. rewrite <- slice_app by nia. do 2 f_equal. lia.
Qed.

(** ** The loop *)

Section Loop.
Variables (vs : list iovec) (e : Z).
Hypotheses (He : e <= iov_total vs) (He32 : e < 2 ^ 32) (Hem : e mod bs < dbs).

(** What is left of a part of the transfer: the walk is at [o] of block [k]. *)
Record left_of (k o len : Z) (s : dif_sgl) (st : pst) : Prop := {
  lo_iov : iov_ok (mem st) vs;
  lo_k : 0 <= k;
  lo_o : 0 <= o < dbs;
  lo_len : 0 <= len;
  lo_end : k * bs + o + len = e;
  lo_pos : at_pos vs s (k * bs + o) }.

Lemma block_div k o : 0 <= o < bs -> (k * bs + o) / bs = k /\ (k * bs + o) mod bs = o.
Proof.
  intros Ho. split; [rewrite Z.div_add_l, Z.div_small; lia|]. rewrite Z.add_comm, Z.mod_add, Z.mod_small; lia.
Qed.

(** The length of the next step, and where it ends. *)
Lemma step_len k o len s st :
  left_of k o len s st -> len <> 0 ->
  let l := Z.min len (_to_next_boundary (k * bs + o) bs) in
  (k * bs + o) mod bs = o /\ (k * bs + o) / bs = k /\ part_ok c o l /\ 0 < l <= len /\ k * bs + o + l <= iov_total vs /\
  u32 (k * bs + o + l) = k * bs + o + l /\ u32 (len - l) = len - l /\
  (l = len /\ o + l < dbs /\ e / bs = k /\ e mod bs = o + l \/ o + l = bs /\ k + 1 <= e / bs).
Proof.
  intros [H1 H2 H3 H4 H5 H6] Hne. pose proof (dbs_pos c Hc) as Hd. cbv zeta.
  destruct (block_div k o ltac:(lia)) as [Ed Em].
  unfold _to_next_boundary. rewrite Em. rewrite (wrap_small 32 (bs - o)) by lia.
  remember (Z.min len (bs - o)) as l eqn:El.
  assert (Hcase : l = len /\ o + l < dbs /\ e / bs = k /\ e mod bs = o + l \/ o + l = bs /\ k + 1 <= e / bs).
  { destruct (Z.ltb_spec len (bs - o)).
    - left. assert (l = len) as -> by lia. destruct (block_div k (o + len) ltac:(lia)) as [E1 E2].
      replace (k * bs + (o + len)) with e in * by lia. lia.
    - right. split; [lia|]. apply Z.div_le_lower_bound; nia. }
  split_and!; try done; try lia; [|rewrite wrap_small; nia|rewrite wrap_small; nia].
  constructor; lia.
Qed.

Lemma generate_loop n k o len s st :
  left_of k o len s st -> e <= (k + Z.of_nat n) * bs ->
  exists s' m', stream_loop n (k * bs + o) len c
      (fun off len k '(s, guard) => x ← _dif_generate_split s off len guard k c; mret (inl x))
      (s, pg (iov_bytes (mem st) vs) k o) st
    = Ok (inl (s', pg (iov_bytes m' vs) (e / bs) (e mod bs)), set_mem (fun _ => m') st) /\
    changed vs (mem st) m' /\ iov_bytes m' vs = gen_range c k (Z.to_nat (e / bs - k)) (iov_bytes (mem st) vs).
Proof.
  pose proof (dbs_pos c Hc) as Hd. revert k o len s st. induction n as [|n IH]; intros k o len s st HL Hn;
    cbn [stream_loop]; destruct (Z.eqb_spec len 0) as [Hl0|Hl0].
  1, 3: destruct HL as [H1 H2 H3 H4 H5 H6]; destruct (block_div k o ltac:(lia)) as [E1 E2];
        replace (k * bs + o) with e in * by lia; exists s, (mem st); rewrite E1, E2, Z.sub_diag;
        split_and!; [by destruct st|apply changed_refl|done].
  { destruct HL. nia. }
  destruct (step_len k o len s st HL Hl0) as (Em & Ed & Hpart & Hl & Ht & W1 & W2 & Hcase).
  set (l := Z.min len _) in *. destruct (Z.eqb_spec bs 0); [lia|]. rewrite Em, Ed. pose proof HL as [H1 H2 H3 H4 H5 H6].
  set (F := iov_bytes (mem st) vs).
  assert (HF : zlen F = iov_total vs) by apply bytes_zlen, H1.
  destruct (generate_split_ok c Hc vs s (k * bs + o) o l (pg F k o) k st) as (s1 & m1 & E1 & Hp1 & Hch1 & Eb1);
    [done|done|done|lia|apply pg_range|].
  fold F in E1, Eb1. rewrite part_guard_step in E1, Eb1 by (done || lia).
  rewrite M_bind_assoc, (M_bind_ok _ _ _ _ _ E1), W1, W2. clear W1 W2.
  clearbody l. unfold next_start. destruct Hcase as [(-> & Ho & Ek & Eo)|[Ho Hk1]]; case_decide; try lia.
  - exists s1, m1. rewrite Z.sub_diag, Ek, Eo, Eb1, Z.sub_diag. split_and!; [|done|done].
    rewrite Z.min_l by lia. unfold partial_guard. destruct (Z.eqb_spec (o + len) 0); [lia|]. by destruct n.
  - rewrite Z.min_r in Eb1 by lia.
    assert (EF : iov_bytes m1 vs = gen_at c true k F) by (rewrite Eb1; unfold gen_at; f_equal; lia).
    destruct (IH (k + 1) 0 (len - l) s1 (set_mem (fun _ => m1) st)) as (s2 & m2 & E2 & Hch2 & Eb2).
    { constructor; cbn; try lia; [by eapply iov_ok_changed|]. by replace ((k + 1) * bs + 0) with (k * bs + o + l) by lia. }
    { lia. }
    exists s2, m2. split_and!; [|by eapply changed_trans|].
    + replace ((k + 1) * bs + 0) with (k * bs + o + l) in E2 by lia. etrans; [|exact E2]. by destruct guarded.
    + rewrite Eb2. cbn [mem set_mem]. rewrite EF.
      by replace (Z.to_nat (e / bs - k)) with (S (Z.to_nat (e / bs - (k + 1)))) by lia.
Qed.

Lemma verify_loop n k o len s st :
  left_of k o len s st -> e <= (k + Z.of_nat n) * bs ->
  let F := iov_bytes (mem st) vs in
  exists s', stream_loop n (k * bs + o) len c
      (fun off len k '(s, guard) => _dif_verify_split s off len guard k c) (s, pg F k o) st
    = Ok (or_error (first_err (fun k => verify_at c k F) (Z.to_nat (e / bs - k)) k) (s', pg F (e / bs) (e mod bs)), st).
Proof.
  cbv zeta. pose proof (dbs_pos c Hc) as Hd. revert k o len s. induction n as [|n IH]; intros k o len s HL Hn;
    cbn [stream_loop]; destruct (Z.eqb_spec len 0) as [Hl0|Hl0].
  1, 3: destruct HL as [H1 H2 H3 H4 H5 H6]; destruct (block_div k o ltac:(lia)) as [E1 E2];
        replace (k * bs + o) with e in * by lia; exists s; by rewrite E1, E2, Z.sub_diag.
  { destruct HL. nia. }
  destruct (step_len k o len s st HL Hl0) as (Em & Ed & Hpart & Hl & Ht & W1 & W2 & Hcase).
  set (l := Z.min len _) in *. destruct (Z.eqb_spec bs 0); [lia|]. rewrite Em, Ed. pose proof HL as [H1 H2 H3 H4 H5 H6].
  set (F := iov_bytes (mem st) vs) in *.
  assert (HF : zlen F = iov_total vs) by apply bytes_zlen, H1.
  destruct (verify_split_ok c Hc vs s (k * bs + o) o l (pg F k o) k st) as (s1 & Hp1 & E1);
    [done|done|done|lia|apply pg_range|].
  fold F in E1. rewrite part_guard_step in E1 by (done || lia).
  rewrite (M_bind_ok _ _ _ _ _ E1), W1, W2. clear W1 W2.
  clearbody l. unfold next_start in *. destruct Hcase as [(-> & Ho & Ek & Eo)|[Ho Hk1]]; case_decide; try lia.
  - exists s1. rewrite Z.sub_diag, Ek, Eo, Z.sub_diag. rewrite Z.min_l by lia. unfold partial_guard.
    destruct (Z.eqb_spec (o + len) 0); [lia|]. by destruct n.
  - rewrite Z.min_r by lia. replace (k * bs + o + (gi - o)) with (k * bs + gi) by lia.
    replace (Z.to_nat (e / bs - k)) with (S (Z.to_nat (e / bs - (k + 1)))) by lia. cbn [first_err].
    fold (block_guard c F (k * bs)). fold (verify_at c k F).
    destruct (verify_at c k F) as [err|]; [by exists s1|]. cbn [or_error].
    destruct (IH (k + 1) 0 (len - l) s1) as (s2 & E2).
    { constructor; cbn; try lia; [done|]. by replace ((k + 1) * bs + 0) with (k * bs + o + l) by lia. }
    { lia. }
    exists s2. replace ((k + 1) * bs + 0) with (k * bs + o + l) in E2 by lia. etrans; [|exact E2].
    unfold block_guard, partial_guard. by destruct guarded.
Qed.

End Loop.

(** ** One call *)

Lemma buf_pos_split x : 0 <= x -> buf_pos c x / bs = x / dbs /\ buf_pos c x mod bs = x mod dbs /\
  buf_pos c x = x / dbs * bs + x mod dbs /\ 0 <= x mod dbs < dbs /\ 0 <= x / dbs /\ x <= buf_pos c x.
Proof.
  intros Hx. pose proof (dbs_pos c Hc) as Hd. pose proof (Z.mod_pos_bound x dbs ltac:(lia)) as Hm.
  destruct (block_div (x / dbs) (x mod dbs) ltac:(lia)) as [E1 E2]. pose proof (Z.div_pos x dbs Hx ltac:(lia)).
  pose proof (Z.div_mod x dbs ltac:(lia)). unfold buf_pos. split_and!; try done; nia.
Qed.

Lemma buf_pos_gap x y : 0 <= x <= y -> buf_pos c x + (y - x) <= buf_pos c y.
Proof.
  intros Hx. pose proof (dbs_pos c Hc) as Hd. unfold buf_pos.
  pose proof (Z.div_le_mono x y dbs ltac:(lia) ltac:(lia)).
  pose proof (Z.div_mod x dbs ltac:(lia)). pose proof (Z.div_mod y dbs ltac:(lia)). nia.
Qed.

Lemma buf_pos_mono x y : 0 <= x <= y -> buf_pos c x <= buf_pos c y.
Proof. intros Hx. pose proof (buf_pos_gap x y Hx). lia. Qed.

Lemma to_size_ok x : 0 <= x -> buf_pos c x < 2 ^ 32 -> _to_size_with_md x dbs bs = buf_pos c x.
Proof.
  intros Hx H32. destruct (buf_pos_split x Hx) as (_ & _ & E & ? & ? & ?). unfold _to_size_with_md.
  pose proof (dbs_pos c Hc). rewrite !wrap_small; rewrite ?wrap_small by nia; nia.
Qed.

End Walk.

(** A part of a transfer: the bytes from [x] on, [y] of them, in a buffer that
    begins with a block. *)
Record stream_part (c : dif_ctx) (vs : list iovec) (x y : Z) (st : pst) : Prop := {
  sp_iov : iov_ok (mem st) vs;
  sp_ne : vs <> [];
  sp_total : iov_total vs < 2 ^ 64;
  sp_x : 0 <= x;
  sp_y : 0 <= y;
  sp_len : buf_pos c (x + y) <= iov_total vs;
  sp_32 : buf_pos c (x + y) < 2 ^ 32;
  sp_off : data_offset c mod (block_size c - c_md_size c) = 0 }.

Section Call.
Variables (c : dif_ctx) (Hc : ctx_ok c) (vs : list iovec) (x y : Z) (st : pst).
Hypothesis Hp : stream_part c vs x y st.
Notation bs := (block_size c).
Notation dbs := (block_size c - c_md_size c).
Notation F := (iov_bytes (mem st) vs).

Lemma setup_ok :
  exists s, _dif_sgl_setup_stream vs x y c st
    = Ok (inl (s, buf_pos c x, buf_pos c (x + y) - buf_pos c x), st) /\
    left_of c vs (buf_pos c (x + y)) (x / dbs) (x mod dbs) (buf_pos c (x + y) - buf_pos c x) s st.
Proof.
  destruct Hp as [H1 H2 H3 H4 H5 H6 H7 H8]. pose proof (dbs_pos c Hc) as Hd.
  destruct (buf_pos_split c Hc x H4) as (_ & _ & E & ? & ? & ?).
  destruct (buf_pos_split c Hc (x + y) ltac:(lia)) as (_ & _ & _ & _ & _ & ?).
  pose proof (buf_pos_mono c Hc x (x + y) ltac:(lia)) as Hm.
  unfold _dif_sgl_setup_stream. rewrite (dbs_ok c Hc). destruct (Z.eqb_spec dbs 0); [lia|].
  rewrite H8, Z.add_0_l, !Z.sub_0_r, (wrap_small 32 x), (wrap_small 32 (x + y)) by lia.
  rewrite !(to_size_ok c Hc) by lia. rewrite !wrap_small by (rewrite ?wrap_small; lia).
  rewrite (is_valid_total (mem st)) by (done || apply H1). destruct (Z.leb_spec (buf_pos c (x + y)) (iov_total vs)); [|lia].
  cbn [negb]. eexists. rewrite Z.add_0_r. split; [reflexivity|].
  constructor; try done; try lia. rewrite <- E. eapply advance_init; [done|lia|lia].
Qed.

Lemma parts_enough k o len :
  0 <= o < bs -> 0 <= len -> k * bs + o + len <= (k + Z.of_nat (parts len c)) * bs.
Proof.
  intros Ho Hl. pose proof (dbs_pos c Hc). unfold parts. pose proof (Z.div_pos len bs Hl ltac:(lia)).
  pose proof (Z.div_mod len bs ltac:(lia)). pose proof (Z.mod_pos_bound len bs ltac:(lia)). nia.
Qed.

Lemma stream_guard_ok : stream_at c F x ->
  stream_guard c = if has_flag c SPDK_DIF_FLAGS_GUARD_CHECK then partial_guard c F (x / dbs) (x mod dbs) else 0.
Proof. unfold stream_at, stream_guard. destruct (has_flag _ _); [|done]. intros H. by apply H. Qed.

(** The blocks that are complete with the part. *)
Notation k0 := (x / dbs).
Notation n0 := (Z.to_nat ((x + y) / dbs - x / dbs)).

Lemma kept g F' :
  g = (if has_flag c SPDK_DIF_FLAGS_GUARD_CHECK then partial_guard c F' ((x + y) / dbs) ((x + y) mod dbs) else 0) ->
  stream_at (keep_guard g c) F' (x + y).
Proof.
  intros ->. unfold keep_guard. destruct (has_flag c SPDK_DIF_FLAGS_GUARD_CHECK) eqn:E; [done|].
  unfold stream_at. by rewrite E.
Qed.

Lemma generate_call :
  stream_at c F x ->
  exists g m', spdk_dif_generate_stream vs x y c st = Ok ((0, keep_guard g c), set_mem (fun _ => m') st) /\
    changed vs (mem st) m' /\ iov_bytes m' vs = gen_range c k0 n0 F /\
    stream_at (keep_guard g c) (iov_bytes m' vs) (x + y).
Proof.
  intros Hs. destruct setup_ok as (s & E & HL). pose proof Hp as [H1 H2 H3 H4 H5 H6 H7 H8]. pose proof (dbs_pos c Hc) as Hd.
  destruct (buf_pos_split c Hc (x + y) ltac:(lia)) as (Ed & Em & _ & Hm & _).
  destruct (buf_pos_split c Hc x ltac:(lia)) as (_ & _ & Ex & Hmx & _).
  unfold spdk_dif_generate_stream. rewrite bool_decide_eq_false_2 by done.
  rewrite (M_bind_ok _ _ _ _ _ E), (stream_guard_ok Hs).
  destruct (generate_loop c Hc vs (buf_pos c (x + y)) H6 H7 ltac:(lia) (parts (buf_pos c (x + y) - buf_pos c x) c)
    k0 (x mod dbs) _ s st HL) as (s' & m' & E2 & Hch & Eb).
  { etrans; [|apply (parts_enough k0 (x mod dbs) (buf_pos c (x + y) - buf_pos c x))]; [lia|lia|apply HL]. }
  rewrite <- Ex, Ed in *. rewrite Em in E2. rewrite (M_bind_ok _ _ _ _ _ E2). eexists _, m'.
  split_and!; [reflexivity|done|done|]. by apply kept.
Qed.

Lemma verify_call :
  stream_at c F x ->
  exists g, spdk_dif_verify_stream vs x y c st
    = Ok (match first_err (fun k => verify_at c k F) n0 k0 with
          | None => (0, None, keep_guard g c) | Some e => (-1, Some e, c) end, st) /\
    stream_at (keep_guard g c) F (x + y).
Proof.
  intros Hs. destruct setup_ok as (s & E & HL). pose proof Hp as [H1 H2 H3 H4 H5 H6 H7 H8]. pose proof (dbs_pos c Hc) as Hd.
  destruct (buf_pos_split c Hc (x + y) ltac:(lia)) as (Ed & Em & _ & Hm & _).
  destruct (buf_pos_split c Hc x ltac:(lia)) as (_ & _ & Ex & Hmx & _).
  unfold spdk_dif_verify_stream. rewrite bool_decide_eq_false_2 by done.
  rewrite (M_bind_ok _ _ _ _ _ E), (stream_guard_ok Hs).
  destruct (verify_loop c Hc vs (buf_pos c (x + y)) H6 H7 ltac:(lia) (parts (buf_pos c (x + y) - buf_pos c x) c)
    k0 (x mod dbs) _ s st HL) as (s' & E2).
  { etrans; [|apply (parts_enough k0 (x mod dbs) (buf_pos c (x + y) - buf_pos c x))]; [lia|lia|apply HL]. }
  rewrite <- Ex, Ed in *. rewrite Em in E2. rewrite (M_bind_ok _ _ _ _ _ E2). eexists.
  split; [|by apply kept]. by destruct (first_err _ _ _).
Qed.

End Call.

(** ** Transfers *)

(** The context of a transfer: everything but the guard is as at its start. *)
Definition ctx_of (c0 c : dif_ctx) : Prop := c = c0 \/ exists g, c = with_last_guard g c0.

(** A receiver that generates protection information as the data arrives: after
    [x] bytes of the data.  Between the calls anything may be written behind the
    bytes that were passed to a call. *)
Inductive receiving (c0 : dif_ctx) (vs : list iovec) : Z -> dif_ctx -> pst -> Prop :=
| rcv_start st : last_guard c0 = guard_seed c0 -> iov_ok (mem st) vs -> receiving c0 vs 0 c0 st
| rcv_arrive x c st st' :
    receiving c0 vs x c st -> iov_ok (mem st') vs -> same_bytes (buf_pos c0 x) vs st' vs st ->
    receiving c0 vs x c st'
| rcv_part x y c st c' st' :
    receiving c0 vs x c st -> stream_part c0 vs x y st ->
    spdk_dif_generate_stream vs x y c st = Ok ((0, c'), st') -> receiving c0 vs (x + y) c' st'.

Section Transfer.
Variables (c0 : dif_ctx) (Hc0 : ctx_ok c0) (Ht : ~ tag_conflict c0).
Notation bs := (block_size c0).
Notation dbs := (block_size c0 - c_md_size c0).

(** What holds behind [x] bytes. *)
Record stream_inv (vs : list iovec) (x : Z) (c : dif_ctx) (st : pst) : Prop := {
  si_x : 0 <= x;
  si_ctx : ctx_of c0 c;
  si_iov : iov_ok (mem st) vs;
  si_len : buf_pos c0 x <= iov_total vs;
  si_guard : stream_at c (iov_bytes (mem st) vs) x;
  si_blocks : forall k, 0 <= k < x / dbs -> verify_at c0 k (iov_bytes (mem st) vs) = None }.

(** Nothing but the guard tells the contexts apart. *)
Lemma ctx_of_ok c : ctx_of c0 c -> ctx_ok c.
Proof. intros [-> |[g ->]]; [done|]. destruct Hc0. by constructor. Qed.

Lemma ctx_of_keep c g : ctx_of c0 c -> ctx_of c0 (keep_guard g c).
Proof.
  intros Hc. unfold keep_guard. destruct (has_flag _ _); [|done]. right. exists g. by destruct Hc as [-> |[g' ->]].
Qed.

Lemma ctx_of_part c vs x y st : ctx_of c0 c -> stream_part c0 vs x y st -> stream_part c vs x y st.
Proof. intros [-> |[g ->]]; [done|]. intros []. by constructor. Qed.

Lemma gen_range_zlen k n F :
  0 <= k -> (k + Z.of_nat n) * bs <= zlen F -> zlen (gen_range c0 k n F) = zlen F.
Proof.
  revert k F. induction n as [|n IH]; intros k F Hk Hl; [done|]. pose proof (dbs_pos c0 Hc0). cbn [gen_range].
  assert (E : zlen (gen_at c0 true k F) = zlen F) by (apply gen_at_zlen; [done|lia|nia]).
  rewrite IH; rewrite ?E; lia || done.
Qed.

Lemma gen_range_other k n F j :
  0 <= k -> (k + Z.of_nat n) * bs <= zlen F -> 0 <= j < k -> slice (gen_range c0 k n F) (j * bs) bs = slice F (j * bs) bs.
Proof.
  revert k F. induction n as [|n IH]; intros k F Hk Hl Hj; [done|]. pose proof (dbs_pos c0 Hc0). cbn [gen_range].
  assert (E : zlen (gen_at c0 true k F) = zlen F) by (apply gen_at_zlen; [done|lia|nia]).
  rewrite IH by (rewrite ?E; lia). apply gen_block_other; [done|lia|lia|lia|nia].
Qed.

Lemma gen_range_verifies k n F j :
  0 <= k -> (k + Z.of_nat n) * bs <= zlen F -> k <= j < k + Z.of_nat n -> verify_at c0 j (gen_range c0 k n F) = None.
Proof.
  revert k F. induction n as [|n IH]; intros k F Hk Hl Hj; [lia|]. pose proof (dbs_pos c0 Hc0). cbn [gen_range].
  assert (E : zlen (gen_at c0 true k F) = zlen F) by (apply gen_at_zlen; [done|lia|nia]).
  destruct (decide (j = k)) as [->|].
  - rewrite <- (gen_verifies c0 Hc0 true k F ltac:(lia) ltac:(nia) Ht).
    apply verify_at_block; [done|lia|]. apply gen_range_other; rewrite ?E; lia.
  - apply IH; rewrite ?E; lia.
Qed.

Lemma buf_pos_0 : buf_pos c0 0 = 0.
Proof. pose proof (dbs_pos c0 Hc0). unfold buf_pos. rewrite Z.div_0_l, Z.mod_0_l; lia. Qed.

Lemma stream_start vs st : last_guard c0 = guard_seed c0 -> iov_ok (mem st) vs -> stream_inv vs 0 c0 st.
Proof.
  intros Hg Hio. pose proof (dbs_pos c0 Hc0). constructor; [done|by left|done| | |].
  - rewrite buf_pos_0. apply (total_nonneg (mem st)), Hio.
  - intros _. rewrite Z.mod_0_l by lia. done.
  - intros k. rewrite Z.div_0_l; lia.
Qed.

(** Bytes in front of the position. *)
Lemma same_before vs st ws st' x p m :
  0 <= p -> 0 <= m -> p + m <= buf_pos c0 x -> same_bytes (buf_pos c0 x) ws st' vs st ->
  slice (iov_bytes (mem st') ws) p m = slice (iov_bytes (mem st) vs) p m.
Proof.
  intros Hp Hm Hl E. apply (f_equal (fun l => slice l p m)) in E. by rewrite !slice_slice, !Z.add_0_l in E by lia.
Qed.

Lemma same_verify vs st ws st' x k :
  0 <= x -> same_bytes (buf_pos c0 x) ws st' vs st -> 0 <= k < x / dbs ->
  verify_at c0 k (iov_bytes (mem st') ws) = verify_at c0 k (iov_bytes (mem st) vs).
Proof.
  intros Hx E Hk. destruct (buf_pos_split c0 Hc0 x Hx) as (_ & _ & Ex & ? & ? & _). pose proof (dbs_pos c0 Hc0).
  apply verify_at_block; [done|lia|]. eapply same_before; [nia|lia| |exact E]. nia.
Qed.

Lemma stream_arrive vs x c st st' :
  stream_inv vs x c st -> iov_ok (mem st') vs -> same_bytes (buf_pos c0 x) vs st' vs st -> stream_inv vs x c st'.
Proof.
  intros [H1 H2 H3 H4 H5 H6] Hio E. destruct (buf_pos_split c0 Hc0 x H1) as (_ & _ & Ex & ? & ? & _).
  pose proof (dbs_pos c0 Hc0). constructor; try done.
  - intros Hf. rewrite (H5 Hf). destruct H2 as [-> |[g ->]]; unfold partial_guard; cbn;
      rewrite (same_before vs st vs st' x) by (done || nia); done.
  - intros k Hk. by rewrite (same_verify vs st vs st' x), H6.
Qed.

(** A call makes progress, and keeps the invariant. *)
Lemma stream_step vs x y c st :
  stream_inv vs x c st -> stream_part c0 vs x y st ->
  exists c' st', spdk_dif_generate_stream vs x y c st = Ok ((0, c'), st') /\ changed vs (mem st) (mem st') /\
    stream_inv vs (x + y) c' st'.
Proof.
  intros [H1 H2 H3 H4 H5 H6] Hp. pose proof (dbs_pos c0 Hc0) as Hd.
  destruct (generate_call c (ctx_of_ok c H2) vs x y st (ctx_of_part c vs x y st H2 Hp) H5) as (g & m' & E & Hch & Eb & Hs).
  eexists _, _. split; [exact E|]. split; [done|]. pose proof Hp as [_ _ _ _ Hy Hlen _ _].
  assert (Hb : iov_bytes m' vs = gen_range c0 (x / dbs) (Z.to_nat ((x + y) / dbs - x / dbs)) (iov_bytes (mem st) vs))
    by (rewrite Eb; by destruct H2 as [-> |[? ->]]).
  assert (HF : zlen (iov_bytes (mem st) vs) = iov_total vs) by apply bytes_zlen, H3.
  destruct (buf_pos_split c0 Hc0 (x + y) ltac:(lia)) as (_ & _ & Ex & ? & ? & _).
  pose proof (Z.div_pos x dbs H1 ltac:(lia)). pose proof (Z.div_le_mono x (x + y) dbs ltac:(lia) ltac:(lia)).
  constructor; cbn; [lia|by apply ctx_of_keep|by eapply iov_ok_changed|done|done|].
  intros k Hk. rewrite Hb. destruct (Z.ltb_spec k (x / dbs)).
  - rewrite <- (H6 k) by lia. apply verify_at_block; [done|lia|]. apply gen_range_other; lia || nia.
  - apply gen_range_verifies; lia || nia.
Qed.

Lemma receiving_inv vs x c st : receiving c0 vs x c st -> stream_inv vs x c st.
Proof.
  induction 1 as [st Hg Hio|x c st st' _ IH Hio E|x y c st c' st' _ IH Hp E].
  - by apply stream_start.
  - by eapply stream_arrive.
  - destruct (stream_step vs x y c st IH Hp) as (c2 & st2 & E2 & _ & HI). rewrite E2 in E. by simplify_eq.
Qed.

(** ** Verification of a transfer in parts *)

Fixpoint verify_parts (vs : list iovec) (x : Z) (ys : list Z) (c : dif_ctx) : M pst (Z * option dif_error) :=
  match ys with
  | [] => mret (0, None)
  | y :: ys' =>
      '(rc, e, c) ← spdk_dif_verify_stream vs x y c;
      if rc =? 0 then verify_parts vs (x + y) ys' c else mret (rc, e)
  end.

Lemma stream_part_cut vs x y z st :
  0 <= x -> 0 <= y -> 0 <= z -> stream_part c0 vs x (y + z) st -> stream_part c0 vs x y st /\ stream_part c0 vs (x + y) z st.
Proof.
  intros Hx Hy Hz [H1 H2 H3 H4 H5 H6 H7 H8].
  pose proof (buf_pos_mono c0 Hc0 (x + y) (x + (y + z)) ltac:(lia)). rewrite Z.add_assoc in *.
  split; constructor; (done || lia).
Qed.

Lemma verify_parts_ok vs ys : forall x c st,
  ctx_of c0 c -> Forall (fun y => 0 <= y) ys -> stream_part c0 vs x (zsum ys) st ->
  stream_at c (iov_bytes (mem st) vs) x ->
  (forall k, 0 <= k < (x + zsum ys) / dbs -> verify_at c0 k (iov_bytes (mem st) vs) = None) ->
  verify_parts vs x ys c st = Ok ((0, None), st).
Proof.
  pose proof (dbs_pos c0 Hc0) as Hd.
  induction ys as [|y ys IH]; intros x c st Hctx Hys Hp Hg Hv; [done|]. apply Forall_cons in Hys as [Hy Hys].
  rewrite zsum_cons in *. assert (Hz : 0 <= zsum ys) by (clear -Hys; induction Hys; [done|rewrite zsum_cons; lia]).
  pose proof (sp_x _ _ _ _ _ Hp) as Hx. destruct (stream_part_cut vs x y (zsum ys) st Hx Hy Hz Hp) as [Hp1 Hp2].
  destruct (verify_call c (ctx_of_ok c Hctx) vs x y st (ctx_of_part c vs x y st Hctx Hp1) Hg) as (g & E & Hg').
  cbn [verify_parts]. rewrite (M_bind_ok _ _ _ _ _ E).
  pose proof (Z.div_pos x dbs Hx ltac:(lia)). pose proof (Z.div_le_mono (x + y) (x + (y + zsum ys)) dbs ltac:(lia) ltac:(lia)).
  pose proof (Z.div_le_mono x (x + y) dbs ltac:(lia) ltac:(lia)).
  assert (En : first_err (fun k => verify_at c k (iov_bytes (mem st) vs))
      (Z.to_nat ((x + y) / (block_size c - c_md_size c) - x / (block_size c - c_md_size c))) (x / (block_size c - c_md_size c)) = None).
  { destruct Hctx as [-> |[? ->]]; apply first_err_none; intros k Hk; (etrans; [|apply (Hv k); cbn in *; lia]); done. }
  rewrite En. cbn. apply IH; [by apply ctx_of_keep|done|done|done|]. intros k Hk. apply Hv. by rewrite Z.add_assoc.
Qed.

End Transfer.

Lemma receiving_seed c0 vs x c st : receiving c0 vs x c st -> last_guard c0 = guard_seed c0.
Proof. by induction 1. Qed.

(** C28: protection information that is generated part by part, while the data
    arrives, with a new context of an enabled type, is right wherever the parts
    end, provided that the offset of the data in the context is a multiple of the
    data block size and that the initial reference tag is not the value that asks
    for no check while the reference tag is checked, and the blocks have less than
    2^32 bytes: a next part is always accepted; the blocks that are complete pass
    spdk_dif_verify on any buffer with the same bytes; and they pass
    spdk_dif_verify_stream however the receiver cuts the data into parts. *)
Theorem dif_stream_correct c0 vs x c st :
  enabled c0 -> ~ tag_conflict c0 -> receiving c0 vs x c st ->
  (forall y, stream_part c0 vs x y st ->
     exists c' st', spdk_dif_generate_stream vs x y c st = Ok ((0, c'), st') /\ changed vs (mem st) (mem st')) /\
  (forall ws st2, buffer ws (x / (block_size c0 - c_md_size c0)) (block_size c0) st2 ->
     same_bytes (buf_pos c0 x) ws st2 vs st ->
     spdk_dif_verify ws (x / (block_size c0 - c_md_size c0)) c0 st2 = Ok ((0, None), st2)) /\
  (forall ws ys st2, Forall (fun y => 0 <= y) ys -> zsum ys <= x -> stream_part c0 ws 0 (zsum ys) st2 ->
     same_bytes (buf_pos c0 x) ws st2 vs st -> verify_parts ws 0 ys c0 st2 = Ok ((0, None), st2)).
Proof.
  intros He Ht Hr. pose proof (en_ok c0 He) as Hc. pose proof (dbs_pos c0 Hc) as Hd.
  pose proof (receiving_inv c0 Hc Ht vs x c st Hr) as HI. pose proof (si_x _ _ _ _ _ HI) as Hx. split_and!.
  - intros y Hp. destruct (stream_step c0 Hc Ht vs x y c st HI Hp) as (c' & st' & E & Hch & _). by exists c', st'.
  - intros ws st2 Hb Es. rewrite (verify_flat c0 ws _ st2 He Hb).
    replace (first_err _ _ _) with (@None dif_error); [done|]. symmetry. apply first_err_none. intros k Hk.
    assert (0 <= x / (block_size c0 - c_md_size c0)) by (apply Z.div_pos; lia).
    rewrite (same_verify c0 Hc vs st ws st2 x) by (done || lia). apply HI. lia.
  - intros ws ys st2 Hys Hz Hp Es.
    assert (HI2 : stream_inv c0 ws 0 c0 st2) by (apply stream_start; [done|by eapply receiving_seed|apply Hp]).
    apply (verify_parts_ok c0 Hc); [by left|done|done|apply HI2|]. intros k Hk. rewrite Z.add_0_l in Hk.
    pose proof (Z.div_le_mono (zsum ys) x (block_size c0 - c_md_size c0) ltac:(lia) Hz).
    rewrite (same_verify c0 Hc vs st ws st2 x) by (done || lia). apply HI. lia.
Qed.

End Stream.

(** ** A concrete transfer *)

#[local] Existing Instance sum_crc.
#[local] Existing Instance sum_crc_laws.

Lemma demo_part x y st :
  changed demo_iovs demo_mem (mem st) -> 0 <= x -> 0 <= y -> x + y <= 16 -> stream_part demo_ctx demo_iovs x y st.
Proof.
  intros Hch Hx Hy Hl.
  pose proof (buf_pos_mono demo_ctx (en_ok _ demo_enabled) (x + y) 16 ltac:(lia)) as Hm.
  change (buf_pos demo_ctx 16) with 32 in Hm. change (iov_total demo_iovs) with 32.
  constructor; try done; [exact (iov_ok_changed _ _ _ _ Hch demo_iovs_ok)|]. lia.
Qed.

(** 13 bytes of data in two parts of 5 and 8: one block is complete. *)
Lemma dif_stream_correct_witness :
  exists c st, receiving demo_ctx demo_iovs 13 c st /\
    spdk_dif_verify demo_iovs 1 demo_ctx st = Ok ((0, None), st).
Proof.
  pose proof (en_ok _ demo_enabled) as Hc.
  assert (R0 : receiving demo_ctx demo_iovs 0 demo_ctx demo_state) by (apply rcv_start; [reflexivity|apply demo_iovs_ok]).
  pose proof (demo_part 0 5 demo_state (changed_refl _ _) ltac:(lia) ltac:(lia) ltac:(lia)) as P1.
  destruct (stream_step demo_ctx Hc demo_no_conflict _ _ _ _ _ (receiving_inv demo_ctx Hc demo_no_conflict _ _ _ _ R0) P1)
    as (c1 & st1 & E1 & Hch1 & _).
  pose proof (rcv_part _ _ _ _ _ _ _ _ R0 P1 E1) as R1.
  pose proof (demo_part 5 8 st1 Hch1 ltac:(lia) ltac:(lia) ltac:(lia)) as P2.
  destruct (stream_step demo_ctx Hc demo_no_conflict _ _ _ _ _ (receiving_inv demo_ctx Hc demo_no_conflict _ _ _ _ R1) P2)
    as (c2 & st2 & E2 & Hch2 & _).
  pose proof (rcv_part _ _ _ _ _ _ _ _ R1 P2 E2) as R2.
  exists c2, st2. split; [exact R2|].
  destruct (dif_stream_correct demo_ctx demo_iovs 13 c2 st2 demo_enabled demo_no_conflict R2) as (_ & H & _).
  apply (H demo_iovs st2); [|reflexivity].
  pose proof (changed_trans _ _ _ _ Hch1 Hch2) as Hch. change (13 / _) with 1.
  constructor; [exact (iov_ok_changed _ _ _ _ Hch demo_iovs_ok)|done|done|done|done|done].
Defined.
