(* ===== verification/DifInterleave.v ===== *)
(** * Data between metadata

    spdk_dif_set_md_interleave_iovs makes an array of iovecs of the data in a
    buffer with metadata, for a transport that reads or writes the data only. *)

From S2P Require Import Prelude Pipe PipeLemmas IovLemmas Dif DifExt DifMem DifLemmas DifBlocks DifCopy DifFlat DifTheorems DifStream.

Section Interleave.
Context (c : dif_ctx) (Hc : ctx_ok c) (vs : list iovec) (st : pst) (Hio : iov_ok (mem st) vs).
Notation bs := (block_size c).
Notation dbs := (block_size c - c_md_size c).
Notation F := (iov_bytes (mem st) vs).

(** Enough room in the types of the offsets to step over the metadata. *)
Hypothesis Hlen : Forall (fun v => iov_len v + c_md_size c < 2 ^ 32) vs.

(** The array made so far: it maps the bytes of [F] given by [D], and counts
    them. *)
Record made (cnt : Z) (d : dif_dst) (D : list Z) : Prop := {
  md_bytes : iov_bytes (mem st) (dst_iovs d) = D;
  md_size_ : total_size d = zlen D;
  md_room : 0 <= dst_room d /\ dst_room d = cnt - Z.of_nat (length (dst_iovs d)) }.

(** The pieces of a part of [len] bytes at [p]: all of them, or as many as there is
    room for. *)
Lemma append_pieces_ok cnt n d s p len D :
  made cnt d D -> 0 < dst_room d -> at_pos vs s p -> 0 <= len -> p + len <= iov_total vs -> zlen D + len < 2 ^ 32 ->
  len = 0 \/ (length (sgl_iov s) < n)%nat ->
  exists d' s' l, 0 <= l <= len /\
    append_pieces n d s len st = Ok ((d', s', bool_decide (0 < dst_room d')), st) /\
    made cnt d' (D ++ slice F p l) /\ (0 < dst_room d' -> l = len /\ at_pos vs s' (p + len)).
Proof.
  assert (HF : zlen F = iov_total vs) by apply bytes_zlen, Hio.
  revert d s p len D. induction n as [|n IH]; intros d s p len D Hd Hroom Hp Hl Ht H32 Hn;
    cbn [append_pieces]; destruct (Z.eqb_spec len 0) as [->|Hne]; try lia.
  1, 2: exists d, s, 0; rewrite bool_decide_eq_true_2, slice_nil, app_nil_r, Z.add_0_r by lia; split_and!; (done || lia).
  rewrite (M_bind_ok _ _ _ _ _ (get_buf_ok _ _ _ _ st Hio Hp ltac:(lia))).
  destruct (at_pos_bounds _ _ _ _ (io_fits_ _ _ Hio) Hp) as (Hp0 & Hpr & Hr0).
  remember (Z.min (room s) len) as l eqn:El.
  destruct (advance_ok _ _ _ _ l Hio Hp ltac:(lia) ltac:(lia)) as (Hp' & Hs' & Hle & Hlt).
  assert (Hz : zlen (slice F p l) = l) by (apply slice_zlen; lia).
  set (d1 := Dst (dst_iovs d ++ [Iov (cur s) l]) (dst_room d - 1) (u32 (total_size d + l))).
  assert (Hd1 : made cnt d1 (D ++ slice F p l)).
  { destruct Hd as [H1 H2 [H3 H4]]. constructor; unfold d1; cbn [dst_iovs dst_room total_size].
    - rewrite bytes_app, H1. f_equal. unfold iov_bytes at 1. cbn [map concat iov_base iov_len]. rewrite app_nil_r.
      destruct (Z.eq_dec l 0) as [->|]; [by destruct (cur s) as [[? ?]|]|].
      pose proof (peek_at (mem st) vs s p 0 l Hio Hp) as Ep. rewrite cur_0, Z.add_0_r in Ep. apply Ep; lia.
    - rewrite zlen_app, Hz, H2. pose proof (zlen_nonneg D). rewrite wrap_small; lia.
    - rewrite length_app. cbn. lia. }
  assert (Ea : _dif_sgl_append d (cur s) l st = Ok ((d1, 0 <? dst_room d1), st)).
  { unfold _dif_sgl_append, c_assert, mbind, M_bind, mret, M_ret. destruct (Z.ltb_spec 0 (dst_room d)); [done|lia]. }
  rewrite (M_bind_ok _ _ _ _ _ Ea). destruct (Z.ltb_spec 0 (dst_room d1)) as [Hr1|Hr1]; cbn [negb].
  - pose proof (zlen_nonneg D). rewrite wrap_small by lia. destruct (IH d1 (_dif_sgl_advance s l) (p + l) (len - l) (D ++ slice F p l))
      as (d' & s' & l' & Hl' & E & Hd' & Hmore); try (done || lia).
    { rewrite zlen_app. lia. }
    exists d', s', (l + l'). split_and!; [lia|lia|done| |].
    + rewrite slice_app, app_assoc by lia. done.
    + intros Hr. destruct (Hmore Hr) as [-> Hp2]. split; [lia|]. by replace (p + len) with (p + l + (len - l)) by lia.
  - exists d1, s, l. rewrite bool_decide_eq_false_2 by lia. split_and!; [lia|lia|done|done|lia].
Qed.

(** The bytes of [D] are those of the data from [x] on. *)
Definition maps (D : list Z) (x : Z) : Prop :=
  forall i, (i < length D)%nat -> D !! i = F !! Z.to_nat (buf_pos c (x + Z.of_nat i)).

Lemma buf_pos_add x i : 0 <= x -> 0 <= i -> x mod dbs + i < dbs -> buf_pos c (x + i) = buf_pos c x + i.
Proof.
  intros Hx Hi Hl. pose proof (dbs_pos c Hc). unfold buf_pos. pose proof (Z.mod_pos_bound x dbs ltac:(lia)).
  replace (x + i) with (x / dbs * dbs + (x mod dbs + i)) by (pose proof (Z.div_mod x dbs ltac:(lia)); lia).
  rewrite Z.div_add_l, (Z.div_small (x mod dbs + i)) by lia.
  rewrite (Z.add_comm (x / dbs * dbs)), Z.mod_add, (Z.mod_small (x mod dbs + i)) by lia. lia.
Qed.

Lemma maps_app D x0 l :
  let x := x0 + zlen D in
  maps D x0 -> 0 <= x0 -> 0 <= l -> x mod dbs + l <= dbs -> buf_pos c x + l <= zlen F -> maps (D ++ slice F (buf_pos c x) l) x0.
Proof.
  cbv zeta. intros Hm Hx Hl Hb Ht i Hi. pose proof (zlen_nonneg D).
  destruct (buf_pos_split c Hc (x0 + zlen D) ltac:(lia)) as (_ & _ & _ & ? & _ & ?).
  pose proof (slice_zlen F (buf_pos c (x0 + zlen D)) l ltac:(lia) Hl Ht) as Hz. unfold zlen in Hz at 1.
  rewrite length_app in Hi. destruct (decide (i < length D)%nat) as [Hlt|Hge].
  - rewrite lookup_app_l by done. by apply Hm.
  - rewrite lookup_app_r, slice_lookup by lia. case_decide; [|lia]. f_equal.
    replace (x0 + Z.of_nat i) with (x0 + zlen D + (Z.of_nat i - zlen D)) by lia.
    assert (EzD : zlen D = Z.of_nat (length D)) by done.
    rewrite (buf_pos_add (x0 + zlen D) (Z.of_nat i - zlen D)) by lia. lia.
Qed.

(** The end of a block's data is followed by the metadata. *)
Lemma buf_pos_next x :
  0 <= x -> buf_pos c (x + (dbs - x mod dbs)) = buf_pos c x + (dbs - x mod dbs) + c_md_size c.
Proof.
  intros Hx. pose proof (dbs_pos c Hc). unfold buf_pos. pose proof (Z.div_mod x dbs ltac:(lia)).
  replace (x + (dbs - x mod dbs)) with ((x / dbs + 1) * dbs) by lia. rewrite Z.div_mul, Z.mod_mul by lia. lia.
Qed.

Lemma offset_room s p : at_pos vs s p -> p < iov_total vs \/ sgl_iov s <> [] -> iov_offset s + c_md_size c < 2 ^ 32.
Proof.
  intros (pre & E & -> & Hh) Hp. rewrite E in Hlen. destruct (sgl_iov s) as [|v l].
  - rewrite E, app_nil_r in Hp. rewrite Hh in *. destruct Hp; [lia|done].
  - rewrite Forall_app, Forall_cons in Hlen. destruct Hlen as (_ & Hv & _). cbn in Hv.
    destruct Hh as [->|]; [|lia]. pose proof (dbs_pos c Hc). destruct Hc. lia.
Qed.

Section Loop.
Variables (cnt x0 e : Z).
Hypotheses (Hx0 : 0 <= x0) (He : buf_pos c e <= iov_total vs) (He32 : e < 2 ^ 32) (Hoff : data_offset c mod dbs = 0)
  (Hoff32 : 0 <= data_offset c /\ data_offset c + e < 2 ^ 32).

(** The position, [x] bytes of the data into the transfer. *)
Record at_data (d : dif_dst) (D : list Z) (x len : Z) (s : dif_sgl) : Prop := {
  ad_made : made cnt d D;
  ad_maps : maps D x0;
  ad_x : x = x0 + zlen D;
  ad_len : 0 <= len;
  ad_end : x + len = e;
  ad_room : 0 < dst_room d;
  ad_pos : len <> 0 -> at_pos vs s (buf_pos c x) }.

Lemma interleave_loop_ok n d D s x len :
  at_data d D x len s -> len = 0 \/ e <= (x / dbs + Z.of_nat n) * dbs ->
  exists r D', interleave_loop n d s x len c st = Ok (r, st) /\ made cnt r D' /\ maps D' x0 /\
    x0 + zlen D' <= e /\ (0 < dst_room r -> x0 + zlen D' = e).
Proof.
  pose proof (dbs_pos c Hc) as Hd. assert (HF : zlen F = iov_total vs) by apply bytes_zlen, Hio.
  revert d D s x len. induction n as [|n IH]; intros d D s x len HA Hn;
    cbn [interleave_loop]; destruct (Z.eqb_spec len 0) as [->|Hne].
  1, 3: exists d, D; destruct HA; split_and!; (done || lia).
  { destruct HA. pose proof (zlen_nonneg D). pose proof (Z.div_mod x dbs ltac:(lia)).
    pose proof (Z.mod_pos_bound x dbs ltac:(lia)). nia. }
  destruct HA as [H1 H2 H3 H4 H5 H6 H7]. pose proof (zlen_nonneg D) as HzD.
  destruct (buf_pos_split c Hc x ltac:(lia)) as (_ & _ & Ex & Hmx & Hdx & Hxx).
  assert (Eb : _to_next_boundary (u32 (data_offset c + x)) (data_block_size c) = dbs - x mod dbs).
  { unfold _to_next_boundary. rewrite (dbs_ok c Hc), (wrap_small 32 (data_offset c + x)) by lia.
    rewrite Zplus_mod, Hoff, Z.add_0_l, Z.mod_mod, wrap_small by lia. done. }
  rewrite Eb. remember (Z.min len (dbs - x mod dbs)) as l eqn:El.
  assert (Hpos : buf_pos c x + l <= iov_total vs).
  { pose proof (buf_pos_gap c Hc x e ltac:(lia)). lia. }
  unfold _dif_sgl_append_split.
  destruct (append_pieces_ok cnt (pieces s) d s (buf_pos c x) l D) as (d1 & s1 & l1 & Hl1 & E1 & Hd1 & Hmore); try (done || lia).
  { by apply H7. }
  { right. unfold pieces. lia. }
  rewrite (M_bind_ok _ _ _ _ _ E1).
  assert (Hm1 : maps (D ++ slice F (buf_pos c x) l1) x0) by (subst x; apply maps_app; (done || lia)).
  assert (Hz1 : zlen (D ++ slice F (buf_pos c x) l1) = zlen D + l1) by (rewrite zlen_app, slice_zlen; lia).
  case_bool_decide as Hr; cbn [negb]; [|exists d1, (D ++ slice F (buf_pos c x) l1); split_and!; (done || lia)].
  destruct (Hmore Hr) as [-> Hp1]. rewrite !wrap_small by lia.
  apply (IH d1 (D ++ slice F (buf_pos c x) l)).
  - constructor; try done; try lia. intros Hne2. assert (l = dbs - x mod dbs) as Hl by lia.
    assert (Ep : buf_pos c (x + l) = buf_pos c x + l + c_md_size c) by (rewrite Hl; apply buf_pos_next; lia).
    rewrite Ep. eapply (advance_far (mem st)); [exact Hio|done|destruct Hc; lia|rewrite <- Ep; pose proof (buf_pos_mono c Hc (x + l) e ltac:(lia)); lia|].
    apply (offset_room s1 (buf_pos c x + l)); [done|]. left. pose proof (buf_pos_gap c Hc (x + l) e ltac:(lia)).
    destruct Hc. lia.
  - destruct (decide (l = dbs - x mod dbs)) as [Hl|]; [right|left; lia]. destruct Hn as [?|Hn]; [lia|].
    assert (x / dbs + 1 <= (x + l) / dbs); [|nia]. apply Z.div_le_lower_bound; [lia|].
    pose proof (Z.div_mod x dbs ltac:(lia)). lia.
Qed.

End Loop.

End Interleave.

(** A call: the part of a transfer and room for [cnt] iovecs. *)
Record interleave_call (c : dif_ctx) (vs : list iovec) (cnt x y : Z) (st : pst) : Prop := {
  ic_part : stream_part c vs x y st;
  ic_cnt : 0 < cnt;
  ic_len : Forall (fun v => iov_len v + c_md_size c < 2 ^ 32) vs;
  ic_off : 0 <= data_offset c /\ data_offset c + (x + y) < 2 ^ 32 }.

(** The array made by spdk_dif_set_md_interleave_iovs maps the data of a transfer
    and no metadata: byte [i] of it is byte [x + i] of the data, at its place in
    the buffer with metadata.  The mapped length is the number of these bytes;
    it is the whole part unless the array is full. *)
Lemma interleave_maps_data c vs cnt x y st :
  ctx_ok c -> interleave_call c vs cnt x y st ->
  exists ws len, spdk_dif_set_md_interleave_iovs cnt vs x y c st = Ok ((Z.of_nat (length ws), ws, len), st) /\
    Z.of_nat (length ws) <= cnt /\ len = zlen (iov_bytes (mem st) ws) /\ len <= y /\
    (Z.of_nat (length ws) < cnt -> len = y) /\
    forall i, 0 <= i < len ->
      iov_bytes (mem st) ws !! Z.to_nat i = iov_bytes (mem st) vs !! Z.to_nat (buf_pos c (x + i)).
Proof.
  intros Hc [Hp Hcnt Hlen Hoff]. pose proof Hp as [H1 H2 H3 H4 H5 H6 H7 H8]. pose proof (dbs_pos c Hc) as Hd.
  destruct (buf_pos_split c Hc x H4) as (_ & _ & E & ? & ? & ?).
  destruct (buf_pos_split c Hc (x + y) ltac:(lia)) as (_ & _ & _ & _ & _ & ?).
  pose proof (buf_pos_mono c Hc x (x + y) ltac:(lia)) as Hm. set (dbs := block_size c - c_md_size c) in *.
  unfold spdk_dif_set_md_interleave_iovs. rewrite (bool_decide_eq_false_2 (vs = [])) by done.
  rewrite (dbs_ok c Hc). fold dbs. destruct (Z.eqb_spec cnt 0); [lia|]. destruct (Z.eqb_spec dbs 0); [lia|]. cbn [orb].
  rewrite H8, Z.add_0_l, !Z.sub_0_r, (wrap_small 32 x), (wrap_small 32 (x + y)) by lia. unfold dbs at 1 2.
  rewrite !(to_size_ok c Hc) by lia. rewrite !wrap_small by lia.
  rewrite (is_valid_total (mem st)) by (done || apply H1). destruct (Z.leb_spec (buf_pos c (x + y)) (iov_total vs)); [|lia].
  cbn [negb].
  destruct (interleave_loop_ok c Hc vs st H1 Hlen cnt x (x + y) H4 H6 ltac:(lia) H8 Hoff (S (S (Z.to_nat (y / dbs))))
    (Dst [] cnt 0) [] (_dif_sgl_advance (_dif_sgl_init vs) (buf_pos c x)) x y) as (r & D & El & [M1 M2 M3] & Hmaps & Hle & Hfull).
  - constructor; try done; try lia.
    + constructor; cbn; (done || lia).
    + intros i Hi. cbn in Hi. lia.
    + change (zlen []) with 0. lia.
    + intros _. eapply advance_init; [done|lia|lia].
  - right. fold dbs. pose proof (Z.div_mod x dbs ltac:(lia)). pose proof (Z.div_mod y dbs ltac:(lia)).
    pose proof (Z.mod_pos_bound y dbs ltac:(lia)). pose proof (Z.div_pos y dbs H5 ltac:(lia)). fold dbs in H. nia.
  - rewrite (M_bind_ok _ _ _ _ _ El). exists (dst_iovs r), (zlen D). rewrite M1.
    split; [unfold mret, M_ret; do 4 f_equal; lia|]. split_and!; try (done || lia).
    intros i Hi. rewrite (Hmaps (Z.to_nat i)) by (unfold zlen in Hi; lia). by rewrite Z2Nat.id by lia.
Qed.

(** The 13 bytes of data behind the first 3, from the buffer of two blocks over
    two iovecs: rest of the first block, and the second in two pieces. *)
Lemma interleave_demo :
  exists ws len, spdk_dif_set_md_interleave_iovs 5 demo_iovs 3 13 demo_ctx demo_state
      = Ok ((Z.of_nat (length ws), ws, len), demo_state) /\ len = 13 /\
    iov_bytes (mem demo_state) ws = seqZ 13 5 ++ seqZ 26 4 ++ seqZ 40 4.
Proof.
  destruct (interleave_maps_data demo_ctx demo_iovs 5 3 13 demo_state (en_ok _ demo_enabled))
    as (ws & len & E & _ & _ & _ & _ & _).
  { constructor; [exact (demo_part 3 13 demo_state (changed_refl _ _) ltac:(lia) ltac:(lia) ltac:(lia))|lia| |cbn; lia].
    by repeat constructor. }
  exists ws, len. split; [exact E|]. vm_compute in E. injection E as _ <- <-. split; reflexivity.
Defined.
