(* ===== verification/DifRemap.v ===== *)
(** * Protection information: replacement of reference tags

    spdk_dif_remap_ref_tag gives the blocks of a buffer the reference tags of
    another place, after it has checked the ones they have. *)

From S2P Require Import Prelude Pipe PipeLemmas IovLemmas Dif DifExt DifMem DifLemmas DifBlocks DifCopy DifFlat DifTheorems.

Section Remap.
Context {C : Crc} (c : dif_ctx) (Hc : ctx_ok c) (check : bool).
Notation f := (dif_pi_format c).
Notation sz := (_dif_size f).
Notation gi := (guard_interval c).
Notation bs := (block_size c).

(** ** One block *)

Lemma field_pieces_ok {A} vs q (body : option (nat * Z) -> Z -> Z -> A -> M pst A) (I : Z -> A -> pst -> Prop) :
  piece_body c vs q body I ->
  forall n s o x st,
  iov_ok (mem st) vs -> at_pos vs s (q + o) -> 0 <= o <= sz -> q + sz <= iov_total vs -> I o x st ->
  o = sz \/ (length (sgl_iov s) < n)%nat ->
  exists s' x' st', field_pieces n s o c body x st = Ok ((s', x'), st') /\
    at_pos vs s' (q + sz) /\ I sz x' st' /\ changed vs (mem st) (mem st').
Proof.
  intros Hbody. pose proof (size_pos f) as Hsz.
  induction n as [|n IH]; intros s o x st Hio Hp Ho Ht HI Hn;
    cbn [field_pieces]; destruct (Z.ltb_spec o sz) as [Hlt|Hge]; try lia.
  1, 3: assert (o = sz) as -> by lia; exists s, x, st; split_and!; (done || apply changed_refl).
  rewrite (M_bind_ok _ _ _ _ _ (get_buf_ok _ _ _ _ st Hio Hp ltac:(lia))).
  destruct (at_pos_bounds _ _ _ _ (io_fits_ _ _ Hio) Hp) as (Hp0 & Hpr & Hr0).
  remember (Z.min (room s) (sz - o)) as l eqn:El.
  destruct (Hbody s o l x st) as (x1 & st1 & E1 & HI1 & Hch1); try (done || lia).
  rewrite (M_bind_ok _ _ _ _ _ E1), wrap_small by lia.
  destruct (advance_ok _ _ _ _ l Hio Hp ltac:(lia) ltac:(lia)) as (Hp' & Hs' & Hle & Hlt2).
  destruct (IH (_dif_sgl_advance s l) (o + l) x1 st1) as (s' & x' & st' & E & Hp2 & HI2 & Hch2); try (done || lia).
  - by eapply iov_ok_changed.
  - by rewrite Z.add_assoc.
  - exists s', x', st'. split_and!; [done|done|done|]. by eapply changed_trans.
Qed.

(** The error of a field, and the field with its new tag. *)
Definition remap_check (k : Z) (d : list Z) : option dif_error :=
  if _dif_ignore d c then None
  else if check then _dif_reftag_check d c (expected_tag k c) k else None.
Definition remap_field (k : Z) (d : list Z) : list Z :=
  if _dif_ignore d c then d else store_var [_dif_set_reftag (remapped_tag k c) f] d.

Lemma remap_zlen k d : zlen d = sz -> zlen (remap_field k d) = sz.
Proof.
  intros Hd. unfold remap_field. destruct (_dif_ignore d c); [done|]. rewrite store_zlen; [done|].
  apply Forall_singleton. rewrite Hd. by destruct f.
Qed.

Lemma remap_block vs s p k st :
  let F := iov_bytes (mem st) vs in
  let d := slice F (p + gi) sz in
  iov_ok (mem st) vs -> at_pos vs s p -> p + bs <= iov_total vs -> p + bs < 2 ^ 32 ->
  exists s' m', _dif_remap_ref_tag s k c check st = Ok (or_error (remap_check k d) s', set_mem (fun _ => m') st) /\
    changed vs (mem st) m' /\
    (remap_check k d = None ->
       at_pos vs s' (p + bs) /\ iov_bytes m' vs = splice (p + gi) (remap_field k d) F).
Proof.
  cbv zeta. intros Hio Hp Ht H32. destruct (ctx_bounds c Hc) as (? & ? & ? & ? & _).
  destruct (at_pos_bounds _ _ _ _ (io_fits_ _ _ Hio) Hp) as (Hp0 & _).
  pose proof (at_pos_offset _ _ _ _ (io_fits_ _ _ Hio) Hp) as Hof.
  destruct (advance_far _ _ _ _ gi Hio Hp ltac:(lia) ltac:(lia) ltac:(lia)) as [Hp1 _].
  unfold _dif_remap_ref_tag. set (s1 := _dif_sgl_advance s gi) in *. set (q := p + gi) in *.
  set (F := iov_bytes (mem st) vs). assert (HF : zlen F = iov_total vs) by apply bytes_zlen, Hio.
  destruct (field_pieces_ok vs q get_piece (get_inv c vs q st) (get_body c vs q st Hio ltac:(lia) ltac:(lia))
    (pieces s1) s1 0 (dif_zero c) st) as (s2 & d & st' & E & Hp2 & HI & _); try (done || lia).
  { by rewrite Z.add_0_r. }
  { right. unfold pieces. lia. }
  destruct (get_end c vs q st d st' Hio ltac:(lia) ltac:(lia) HI) as [-> Ed]. fold F in Ed. rewrite <- Ed.
  assert (Hzd : zlen d = sz) by (rewrite Ed; apply slice_zlen; lia).
  rewrite (M_bind_ok _ _ _ _ _ E). rewrite wrap_small by lia. set (skip := bs - gi - sz).
  pose proof (at_pos_offset _ _ _ _ (io_fits_ _ _ Hio) Hp2) as Hof2.
  assert (Hp3 : at_pos vs (_dif_sgl_advance s2 skip) (p + bs)).
  { replace (p + bs) with (q + sz + skip) by lia. apply (advance_far (mem st)); (done || lia). }
  unfold remap_check, remap_field. destruct (_dif_ignore d c).
  { exists (_dif_sgl_advance s2 skip), (mem st). split_and!; [by destruct st|apply changed_refl|]. intros _. split; [done|].
    rewrite Ed. by rewrite splice_slice by lia. }
  destruct (if check then _ else None) as [e|].
  { exists s, (mem st). split_and!; [by destruct st|apply changed_refl|done]. }
  set (d' := store_var _ d).
  assert (Hzd' : zlen d' = sz) by (unfold d'; rewrite store_zlen; [done|]; apply Forall_singleton; rewrite Hzd; by destruct f).
  destruct (field_pieces_ok vs q (put_piece d') (put_inv vs q d' st) (put_body c vs q d' st Hio Hzd' ltac:(lia) ltac:(lia))
    (pieces s1) s1 0 tt st) as (s3 & [] & st3 & E3 & _ & HI3 & Hch3); try (done || lia).
  { by rewrite Z.add_0_r. }
  { apply put_start. lia. }
  { right. unfold pieces. lia. }
  rewrite (M_bind_ok _ _ _ _ _ E3). exists (_dif_sgl_advance s2 skip), (mem st3).
  split_and!; [by rewrite (proj1 HI3) at 1|done|]. intros _. split; [done|]. by eapply put_end.
Qed.

(** ** Whole buffers *)

Notation fld F k := (slice F (k * bs + gi) sz).
Notation block F k := (slice F (k * bs) bs).

Definition remap_at (k : Z) (F : list Z) : list Z := splice (k * bs + gi) (remap_field k (fld F k)) F.

Fixpoint flat_remap (n : nat) (F : list Z) : list Z :=
  match n with O => F | S n' => remap_at (Z.of_nat n') (flat_remap n' F) end.

Lemma fld_zlen F k : 0 <= k -> k * bs + bs <= zlen F -> zlen (fld F k) = sz.
Proof. intros Hk Hl. pose proof (dbs_pos c Hc). apply slice_zlen; nia. Qed.

Lemma remap_at_zlen k F : 0 <= k -> k * bs + bs <= zlen F -> zlen (remap_at k F) = zlen F.
Proof.
  intros Hk Hl. pose proof (dbs_pos c Hc). pose proof (remap_zlen k _ (fld_zlen F k Hk Hl)).
  unfold remap_at. apply splice_zlen; nia.
Qed.

Lemma flat_remap_zlen n F : Z.of_nat n * bs <= zlen F -> zlen (flat_remap n F) = zlen F.
Proof.
  pose proof (dbs_pos c Hc). induction n as [|n IH]; intros Hl; [done|]. cbn [flat_remap].
  rewrite remap_at_zlen; rewrite ?IH by lia; lia.
Qed.

Lemma remap_other j k F :
  0 <= j -> 0 <= k -> j <> k -> k * bs + bs <= zlen F -> block (remap_at k F) j = block F j.
Proof.
  intros Hj Hk Hne Hl. pose proof (dbs_pos c Hc). pose proof (remap_zlen k _ (fld_zlen F k Hk Hl)).
  unfold remap_at. apply slice_splice_out; [nia|nia|nia|].
  destruct (Z.lt_total j k) as [H1|[?|H1]]; [left|lia|right]; pose proof (block_order c Hc _ _ H1); lia.
Qed.

(** A block is as it was until its turn, and afterwards has the new field only. *)
Lemma flat_remap_block n k F :
  0 <= k -> Z.of_nat n * bs <= zlen F -> k * bs + bs <= zlen F ->
  block (flat_remap n F) k = if decide (k < Z.of_nat n) then splice gi (remap_field k (fld F k)) (block F k) else block F k.
Proof.
  intros Hk. pose proof (dbs_pos c Hc) as Hd. induction n as [|n IH]; intros Hl Hkl; [case_decide; [lia|done]|].
  cbn [flat_remap]. pose proof (flat_remap_zlen n F ltac:(lia)) as Hz. destruct (decide (k = Z.of_nat n)) as [->|Hne].
  - specialize (IH ltac:(lia) Hkl). case_decide; [lia|]. case_decide; [|lia].
    assert (Ef : fld (flat_remap n F) (Z.of_nat n) = fld F (Z.of_nat n)).
    { rewrite (block_part c Hc (flat_remap n F)), (block_part c Hc F) by lia. by rewrite IH. }
    pose proof (remap_zlen (Z.of_nat n) _ (fld_zlen F (Z.of_nat n) Hk Hkl)) as Hrz. unfold remap_at. rewrite Ef.
    rewrite (splice_part (Z.of_nat n * bs) gi _ _ bs) by nia. rewrite IH.
    assert (Hbz : zlen (block F (Z.of_nat n)) = bs) by (apply slice_zlen; nia).
    apply slice_splice_eq; [nia| |nia]. rewrite splice_zlen; lia.
  - rewrite remap_other by (lia || nia). rewrite IH by lia. repeat case_decide; (done || lia).
Qed.

Record remap_inv (vs : list iovec) (st0 : pst) (k : Z) (s : dif_sgl) (st : pst) : Prop := {
  ri_pos : at_pos vs s (k * bs);
  ri_changed : changed vs (mem st0) (mem st);
  ri_bytes : iov_bytes (mem st) vs = flat_remap (Z.to_nat k) (iov_bytes (mem st0) vs) }.

Lemma remap_flat vs n st :
  let F := iov_bytes (mem st) vs in
  let e := first_err (fun k => remap_check k (fld F k)) (Z.to_nat n) 0 in
  enabled c -> buffer vs n bs st -> has_flag c SPDK_DIF_FLAGS_REFTAG_CHECK = true ->
  exists st', spdk_dif_remap_ref_tag vs n c check st = Ok (verdict_of e, st') /\ changed vs (mem st) (mem st') /\
    (e = None -> iov_bytes (mem st') vs = flat_remap (Z.to_nat n) F).
Proof.
  cbv zeta. intros He Hb Hf. pose proof (dbs_pos c Hc) as Hd. pose proof Hb as [Hio Hn Hlen _ H32 _].
  pose proof (buffer_n _ _ _ _ Hb ltac:(lia)) as Hn32. unfold spdk_dif_remap_ref_tag.
  rewrite (valid_ok _ _ _ _ Hb), not_disabled, Hf by (done || lia). cbn [negb].
  set (F := iov_bytes (mem st) vs). assert (HF : zlen F = iov_total vs) by apply bytes_zlen, Hio.
  destruct (for_blocks_err_inv (remap_inv vs st) (fun st' => changed vs (mem st) (mem st'))
    (fun k => remap_check k (fld F k)) (fun k s => _dif_remap_ref_tag s k c check) (Z.to_nat n) 0 (_dif_sgl_init vs) st)
    as (s' & st' & E & HI); [lia|lia|constructor; [apply at_pos_init|apply changed_refl|done]| |].
  - intros k s st1 Hk [H1 H2 H3]. fold F in H3.
    assert (Hio1 : iov_ok (mem st1) vs) by (by eapply iov_ok_changed).
    destruct (remap_block vs s (k * bs) k st1) as (s1 & m1 & E1 & Hch & Hok); [done|done|nia|nia|].
    assert (Ef : fld (iov_bytes (mem st1) vs) k = fld F k).
    { rewrite H3, (block_part c Hc (flat_remap _ _)), (block_part c Hc F) by lia.
      rewrite flat_remap_block by nia. case_decide; [lia|done]. }
    rewrite Ef in *. exists s1, (set_mem (fun _ => m1) st1). split; [exact E1|].
    assert (Hch2 : changed vs (mem st) m1) by (by eapply changed_trans).
    destruct (remap_check k (fld F k)); [done|]. destruct (Hok eq_refl) as [Hp' Eb]. constructor; cbn [mem set_mem].
    + by replace ((k + 1) * bs) with (k * bs + bs) by lia.
    + done.
    + replace (Z.to_nat (k + 1)) with (S (Z.to_nat k)) by lia. cbn [flat_remap]. rewrite Z2Nat.id by lia. fold F.
      rewrite <- H3. unfold remap_at. by rewrite Ef.
  - rewrite (M_bind_ok _ _ _ _ _ E), verdict_or_error. exists st'. destruct (first_err _ _ _); [done|].
    destruct HI as [_ H2 H3]. rewrite Z.add_0_l, Z2Nat.id in H3 by lia. done.
Qed.

End Remap.

(** ** Generated fields *)

Lemma to_be_wrap k w x : 8 * Z.of_nat k <= w -> to_be k (wrap w x) = to_be k x.
Proof.
  intros Hw. induction k as [|k IH]; [done|]. cbn [to_be]. rewrite IH by lia. f_equal.
  apply Z.bits_inj'. intros i Hi. unfold wrap. rewrite !Z.land_spec, !Z.shiftr_spec by lia.
  change 0xFF with (Z.ones 8). rewrite Z.testbit_ones by lia. destruct (Z.leb_spec 0 i), (Z.ltb_spec i 8); try lia.
  rewrite Z.testbit_mod_pow2 by lia. destruct (Z.ltb_spec (i + 8 * Z.of_nat k) w); [done|lia].
Qed.

Section Generated.
Context {C : Crc} {L : CrcLaws C} (c : dif_ctx) (r : Z).
Notation f := (dif_pi_format c).
Notation sz := (_dif_size f).
Notation c' := (spdk_dif_ctx_set_remapped_init_ref_tag r c).

(** The new tags of [n] blocks: in the formats with wider tags they must not pass
    32 bits, the width of the remapped tag. *)
Definition tags_fit (n : Z) : Prop :=
  0 <= r /\ 0 <= ref_tag_offset c /\ (tag_bits c = 32 \/ r + ref_tag_offset c + n <= 2 ^ 32).

Lemma remapped_bytes n k :
  tags_checked c -> tags_fit n -> 0 <= k < n ->
  _dif_set_reftag (remapped_tag k c') f = _dif_set_reftag (block_ref_tag k (moved r c)) f.
Proof.
  intros [Ht _ _ _ _] (Hr & Ho & Hf) Hk. unfold remapped_tag, block_ref_tag.
  cbn [spdk_dif_ctx_set_remapped_init_ref_tag with_remapped moved dif_type remapped_init_ref_tag init_ref_tag ref_tag_offset].
  rewrite bool_decide_eq_false_2 by (destruct Ht as [-> | ->]; done). destruct Hf as [Hf|Hf].
  - unfold tag_bits in Hf. unfold _dif_set_reftag. destruct f; try lia. f_equal. by rewrite !to_be_wrap by (cbn; lia).
  - by rewrite !wrap_small by lia.
Qed.

Lemma generated_not_ignored g k d :
  zlen d = sz -> 0 <= app_tag c < 2 ^ 16 -> tags_checked c -> _dif_ignore (store_var (_dif_generate g k c) d) c = false.
Proof.
  intros Hd Ha [Ht _ Hfa Hne _]. unfold _dif_ignore, _dif_apptag_ignore. rewrite gen_apptag, wrap_small by done.
  destruct (Z.eqb_spec (app_tag c) SPDK_DIF_APPTAG_IGNORE); [done|]. by destruct Ht as [-> | ->].
Qed.

Lemma no_conflict : tags_checked c -> ~ tag_conflict c.
Proof. intros [_ _ _ _ Hi] (_ & ? & _). done. Qed.

Lemma generated_remap_check g k d :
  zlen d = sz -> 0 <= g < 2 ^ (8 * _dif_guard_size f) -> 0 <= app_tag c < 2 ^ 16 -> tags_checked c ->
  remap_check c' true k (store_var (_dif_generate g k c) d) = None.
Proof.
  intros Hd Hg Ha Ht. pose proof (generated_verifies c g k d Hd Hg Ha (no_conflict Ht)) as Hv.
  pose proof (generated_not_ignored g k d Hd Ha Ht) as Hi. unfold remap_check.
  change (_dif_ignore (store_var (_dif_generate g k c) d) c') with (_dif_ignore (store_var (_dif_generate g k c) d) c).
  unfold _dif_verify in Hv. rewrite Hi in *. destruct (_ && _); [done|]. destruct (_ && _); [done|].
  unfold expected_tag. change (dif_type c') with (dif_type c). destruct Ht as [Ht _ _ _ _].
  rewrite bool_decide_eq_false_2 by (destruct Ht as [-> | ->]; done).
  unfold block_ref_tag in Hv. by rewrite bool_decide_eq_false_2 in Hv by (destruct Ht as [-> | ->]; done).
Qed.

(** A remapped field is the one that would have been generated at the new place. *)
Lemma generated_remap_field n g k d :
  zlen d = sz -> 0 <= app_tag c < 2 ^ 16 -> tags_checked c -> tags_checked (moved r c) -> tags_fit n -> 0 <= k < n ->
  remap_field c' k (store_var (_dif_generate g k c) d) = store_var (_dif_generate g k (moved r c)) d.
Proof.
  intros Hd Ha Ht Ht' Hfit Hk. unfold remap_field.
  change (_dif_ignore (store_var (_dif_generate g k c) d) c') with (_dif_ignore (store_var (_dif_generate g k c) d) c).
  rewrite generated_not_ignored by done. change (dif_pi_format c') with f. rewrite (remapped_bytes n) by done.
  unfold _dif_generate. change (has_flag (moved r c)) with (has_flag c). rewrite !store_app.
  destruct Ht as [_ Hf _ _ Hi], Ht' as [_ _ _ _ Hi']. rewrite Hf. cbn [init_ref_tag moved dif_pi_format app_tag] in *.
  destruct (Z.eqb_spec (init_ref_tag c) SPDK_DIF_REFTAG_IGNORE); [done|].
  destruct (Z.eqb_spec r SPDK_DIF_REFTAG_IGNORE); [done|].
  set (d2 := store_var _ (store_var _ d)).
  assert (Hz : zlen d2 = sz).
  { unfold d2. assert (Hone : forall (b : bool) x, 0 <= x.1 /\ x.1 + zlen x.2 <= sz ->
      Forall (fun '(o, bs) => 0 <= o /\ o + zlen bs <= sz) (if b then [x] else [])).
    { intros [] [? ?] ?; [by apply Forall_singleton|apply Forall_nil]; done. }
    rewrite !store_zlen; rewrite ?store_zlen; rewrite Hd; try done; apply Hone; by destruct f. }
  clearbody d2. assert (Hrz : forall t, zlen (_dif_set_reftag t f).2 = _dif_reftag_size f) by (intros t; by destruct f).
  unfold _dif_set_reftag in *. cbn [snd] in Hrz. rewrite !store_one.
  apply splice_twice; rewrite ?Hrz, ?Hz; by destruct f.
Qed.

(** ** The theorem *)

Notation bs := (block_size c).
Notation gi := (guard_interval c).

(** The blocks of a generated buffer, behind the remapping: the data is kept, and
    the field is that of the new place. *)
Lemma remapped_block n z F F2 k :
  ctx_ok c -> tags_checked c -> tags_checked (moved r c) -> tags_fit n -> 0 <= k < n ->
  n * bs <= zlen F -> n * bs <= zlen F2 ->
  slice F2 (k * bs) bs = slice (flat_generate c z (Z.to_nat n) F) (k * bs) bs ->
  let G := flat_remap c' (Z.to_nat n) F2 in
  remap_check c' true k (slice F2 (k * bs + gi) sz) = None /\
  slice G (k * bs) gi = slice F2 (k * bs) gi /\ verify_at (moved r c) k G = None.
Proof.
  cbv zeta. intros Hc Ht Ht' Hfit Hk HF HF2 Eb. pose proof (dbs_pos c Hc) as Hd.
  assert (Hc1 : ctx_ok c') by (destruct Hc; by constructor). assert (Hc2 : ctx_ok (moved r c)) by (destruct Hc; by constructor).
  assert (En : Z.of_nat (Z.to_nat n) = n) by lia. assert (Hkb : 0 <= k * bs /\ k * bs + bs <= n * bs) by nia.
  set (base := base_of c z F (k * bs)). assert (Hbase : zlen base = sz) by (apply base_zlen; [done|lia|lia]).
  set (g := block_guard c F (k * bs)).
  assert (Ef : slice F2 (k * bs + gi) sz = store_var (_dif_generate g k c) base).
  { rewrite (block_part c Hc F2), Eb by lia. rewrite <- block_part by (done || lia). apply flat_field; [done|lia|lia]. }
  assert (Eg : slice F2 (k * bs) gi = slice F (k * bs) gi).
  { rewrite (block_head c Hc F2), Eb by lia. rewrite <- block_head by (done || lia). apply flat_data; [done|lia|lia]. }
  pose proof (flat_remap_block c' Hc1 (Z.to_nat n) k F2 ltac:(lia) ltac:(cbn; lia) ltac:(cbn; lia)) as Er.
  cbn [spdk_dif_ctx_set_remapped_init_ref_tag with_remapped block_size guard_interval dif_pi_format] in Er.
  set (c1 := spdk_dif_ctx_set_remapped_init_ref_tag r c) in *. change (with_remapped r c) with c1 in Er.
  rewrite decide_True, Ef in Er by lia. unfold c1 in Er at 2. rewrite (generated_remap_field n) in Er by (done || apply Hc).
  set (G := flat_remap c1 (Z.to_nat n) F2) in *. set (d := store_var _ base) in Er.
  assert (Hd' : zlen d = sz) by (apply (gen_zlen (moved r c)); done).
  assert (Hzb : zlen (slice F2 (k * bs) bs) = bs) by (apply slice_zlen; lia).
  assert (Eg2 : slice G (k * bs) gi = slice F2 (k * bs) gi).
  { rewrite (block_head c Hc G), (block_head c Hc F2), Er by lia. apply slice_splice_out; lia. }
  split_and!; [rewrite Ef; apply generated_remap_check; [done|apply block_guard_range|apply Hc|done]|done|].
  unfold verify_at. change (slice G (k * block_size (moved r c) + guard_interval (moved r c)) _) with (slice G (k * bs + gi) sz).
  replace (slice G (k * bs + gi) sz) with d by (rewrite (block_part c Hc G), Er by lia; symmetry; apply slice_splice_eq; lia).
  replace (block_guard (moved r c) G (k * block_size (moved r c))) with g.
  - apply generated_verifies; [done|exact (block_guard_range c F (k * bs))|apply Hc2|]. by intros (_ & ? & _); destruct Ht'.
  - unfold g, block_guard. change (has_flag (moved r c)) with (has_flag c). cbn [moved guard_seed dif_pi_format guard_interval block_size].
    by rewrite Eg2, Eg.
Qed.

(** Blocks that are moved keep their protection: spdk_dif_remap_ref_tag accepts a
    buffer with generated protection information, keeps its data, and the result
    passes the verification of a transfer that begins at the new reference tag. *)
Theorem dif_remap_correct vs n st :
  enabled c -> buffer vs n bs st -> tags_checked c -> tags_checked (moved r c) -> tags_fit n ->
  exists st1, spdk_dif_generate vs n c st = Ok (0, st1) /\
    forall ws st2, buffer ws n bs st2 -> same_bytes (n * bs) ws st2 vs st1 ->
    exists st3, spdk_dif_remap_ref_tag ws n c' true st2 = Ok ((0, None), st3) /\ changed ws (mem st2) (mem st3) /\
      (forall k, 0 <= k < n -> slice (iov_bytes (mem st3) ws) (k * bs) gi = slice (iov_bytes (mem st2) ws) (k * bs) gi) /\
      forall us st4, buffer us n bs st4 -> same_bytes (n * bs) us st4 ws st3 ->
        spdk_dif_verify us n (moved r c) st4 = Ok ((0, None), st4).
Proof.
  intros He Hb Ht Ht' Hfit. pose proof (en_ok c He) as Hc. pose proof (dbs_pos c Hc) as Hd. pose proof Hb as [Hio Hn Hlen _ _ _].
  assert (He1 : enabled c') by (destruct He as [[] ?]; constructor; [by constructor|done]).
  assert (He2 : enabled (moved r c)) by (destruct He as [[] ?]; constructor; [by constructor|done]).
  assert (HF : zlen (iov_bytes (mem st) vs) = iov_total vs) by apply bytes_zlen, Hio.
  destruct (generate_flat c vs n st He Hb) as (st1 & E & Hch & EF). exists st1. split; [done|].
  intros ws st2 Hw Es. assert (HF2 : zlen (iov_bytes (mem st2) ws) = iov_total ws) by apply bytes_zlen, Hw.
  assert (Hblk : forall k, 0 <= k < n -> slice (iov_bytes (mem st2) ws) (k * bs) bs
     = slice (flat_generate c (negb (aligned vs bs)) (Z.to_nat n) (iov_bytes (mem st) vs)) (k * bs) bs).
  { intros k Hk. rewrite <- EF. apply (same_block c n); [lia|done|lia]. }
  pose proof (bf_len _ _ _ _ Hw) as Hwl. rewrite <- HF in Hlen. rewrite <- HF2 in Hwl.
  pose proof (fun k Hk => remapped_block n _ _ _ k Hc Ht Ht' Hfit Hk Hlen Hwl (Hblk k Hk)) as Hrb.
  destruct (remap_flat c' (en_ok _ He1) true ws n st2 He1 Hw (tc_ref _ Ht)) as (st3 & E3 & Hch3 & Eb3).
  assert (Hnone : first_err (fun k => remap_check c' true k (slice (iov_bytes (mem st2) ws) (k * bs + gi) sz)) (Z.to_nat n) 0 = None)
    by (apply first_err_none; intros k Hk; apply Hrb; lia).
  specialize (Eb3 Hnone). exists st3. split_and!; [|done| |].
  - rewrite E3. by change (first_err _ _ _) with
      (first_err (fun k => remap_check c' true k (slice (iov_bytes (mem st2) ws) (k * bs + gi) sz)) (Z.to_nat n) 0); rewrite Hnone.
  - intros k Hk. rewrite Eb3. by apply Hrb.
  - intros us st4 Hu Es4. rewrite (verify_flat (moved r c) us n st4 He2 Hu).
    rewrite (verify_same (moved r c) n us st4 ws st3) by (done || apply He2).
    replace (first_err _ _ _) with (@None dif_error); [done|]. symmetry. apply first_err_none. intros k Hk.
    rewrite Eb3. apply Hrb. lia.
Qed.

End Generated.

#[local] Existing Instance sum_crc.
#[local] Existing Instance sum_crc_laws.

Lemma dif_remap_correct_demo :
  exists st1 st3, spdk_dif_generate demo_iovs 2 demo_ctx demo_state = Ok (0, st1) /\
    spdk_dif_remap_ref_tag demo_iovs 2 (spdk_dif_ctx_set_remapped_init_ref_tag 9 demo_ctx) true st1 = Ok ((0, None), st3) /\
    spdk_dif_verify demo_iovs 2 (moved 9 demo_ctx) st3 = Ok ((0, None), st3).
Proof.
  destruct (generate_flat demo_ctx demo_iovs 2 demo_state demo_enabled demo_buffer) as (st & E & Hch & _).
  destruct (dif_remap_correct demo_ctx 9 demo_iovs 2 demo_state demo_enabled demo_buffer demo_tags) as (st1 & E1 & H).
  { by constructor; try by left. }
  { split_and!; [lia|done|by left]. }
  assert (st = st1) as -> by congruence. pose proof (buffer_changed _ _ _ _ _ _ Hch demo_buffer) as Hb1.
  destruct (H demo_iovs st1 Hb1 eq_refl) as (st3 & E3 & Hch3 & _ & Hv).
  exists st1, st3. split; [exact E1|]. split; [exact E3|]. apply (Hv demo_iovs st3); [|reflexivity].
  exact (buffer_changed _ _ _ _ _ _ Hch3 Hb1).
Defined.

(** Protection information with tags of 64 bits. *)
Definition demo_wide (r : Z) : dif_ctx :=
  DifCtx 24 8 16 true SPDK_DIF_TYPE1 SPDK_DIF_PI_FORMAT_32 SPDK_DIF_FLAGS_REFTAG_CHECK r 0 0xFFFF 0 0 0 0 0.

(** Two blocks moved to the tags 2^32 - 1 and 2^32: the second fails. *)
Lemma remapped_tag_truncated :
  let st := Pst {[0%nat := replicate 48 0]} ∅ ∅ in
  let v := [Iov (Some (0%nat, 0)) 48] in
  let c := demo_wide 7 in
  match spdk_dif_generate v 2 c st with
  | Ok (_, st1) =>
      match spdk_dif_remap_ref_tag v 2 (spdk_dif_ctx_set_remapped_init_ref_tag (2 ^ 32 - 1) c) true st1 with
      | Ok (rc, st2) =>
          match spdk_dif_verify v 2 (demo_wide (2 ^ 32 - 1)) st2 with Ok (r, _) => Some (rc, r) | _ => None end
      | _ => None
      end
  | _ => None
  end = Some ((0, None), (-1, Some (DifError SPDK_DIF_REFTAG_ERROR (2 ^ 32) 0 1))).
Proof. vm_compute. reflexivity. Qed.
