(* ===== verification/DifDix.v ===== *)
(** * Protection information in a buffer of its own

    spdk_dix_generate and spdk_dix_verify (lib/util/dif.c) for data and metadata
    in separate buffers, as functions of the bytes of the two. *)

From S2P Require Import Prelude Pipe PipeLemmas IovLemmas Dif DifExt DifMem DifLemmas DifBlocks DifCopy DifFlat DifTheorems.

(** What spdk_dif_ctx_init gives for metadata that is not interleaved. *)
Record dix_ok (c : dif_ctx) : Prop := {
  dx_block : 0 < block_size c < 2 ^ 32;
  dx_md : c_md_size c < 2 ^ 32;
  dx_interval : 0 <= guard_interval c <= c_md_size c - _dif_size (dif_pi_format c);
  dx_seed : 0 <= guard_seed c < 2 ^ 64;
  dx_app : 0 <= app_tag c < 2 ^ 16 }.

Lemma dix_init_ok bsz md loc t flags ref mask tag off seed opts c :
  0 <= bsz < 2 ^ 32 -> 0 <= md < 2 ^ 32 -> 0 <= tag < 2 ^ 16 -> 0 <= seed < 2 ^ 64 ->
  spdk_dif_ctx_init bsz md false loc t flags ref mask tag off seed opts = Ok (inl c) -> dix_ok c.
Proof.
  intros Hb Hm Ht Hs. unfold spdk_dif_ctx_init. destruct (default _ opts) as [f|]; [|done].
  pose proof (size_pos f). destruct (Z.ltb_spec md (_dif_size f)); [done|].
  destruct (_ || _); [done|]. destruct (Z.eqb_spec bsz 0); [done|]. intros [= <-].
  constructor; cbn; try done; [lia|lia|]. unfold _get_guard_interval. destruct loc; cbn [negb]; rewrite ?wrap_small; lia.
Qed.

Section Flat.
Context {C : Crc} (c : dif_ctx).
Notation f := (dif_pi_format c).
Notation sz := (_dif_size f).
Notation gi := (guard_interval c).
Notation bs := (block_size c).
Notation ms := (c_md_size c).

(** The guard of block [k]: its data in [F], then its metadata in [B]. *)
Definition dix_block_guard (F B : list Z) (k : Z) : Z :=
  if has_flag c SPDK_DIF_FLAGS_GUARD_CHECK
  then _dif_generate_guard (_dif_generate_guard (guard_seed c) (slice F (k * bs) bs) f) (slice B (k * ms) gi) f
  else 0.

Definition dix_gen_at (F : list Z) (k : Z) (B : list Z) : list Z :=
  splice (k * ms + gi) (store_var (_dif_generate (dix_block_guard F B k) k c) (slice B (k * ms + gi) sz)) B.

Fixpoint dix_flat (F : list Z) (n : nat) (B : list Z) : list Z :=
  match n with O => B | S n' => dix_gen_at F (Z.of_nat n') (dix_flat F n' B) end.

Definition dix_verify_at (F B : list Z) (k : Z) : option dif_error :=
  _dif_verify (slice B (k * ms + gi) sz) (dix_block_guard F B k) k c.

End Flat.

Section Dix.
Context {C : Crc} {L : CrcLaws C} (c : dif_ctx) (Hc : dix_ok c).
Notation f := (dif_pi_format c).
Notation sz := (_dif_size f).
Notation gi := (guard_interval c).
Notation bs := (block_size c).
Notation ms := (c_md_size c).
Notation G g l := (_dif_generate_guard g l f).
Notation guarded := (has_flag c SPDK_DIF_FLAGS_GUARD_CHECK).

Lemma dix_bounds : 0 < bs < 2 ^ 32 /\ 8 <= sz /\ 0 <= gi /\ gi + sz <= ms < 2 ^ 32.
Proof. destruct Hc. pose proof (size_pos f). lia. Qed.

(** ** One block *)

Lemma dix_pieces_ok vs q n st :
  let F := iov_bytes (mem st) vs in
  iov_ok (mem st) vs -> 0 <= q -> q + bs <= iov_total vs -> forall s o g,
  at_pos vs s (q + o) -> 0 <= o <= bs -> data_guard c (slice F q o) o g -> o = bs \/ (length (sgl_iov s) < n)%nat ->
  exists s', dix_pieces n s o g c st = Ok ((s', if guarded then G (guard_seed c) (slice F q bs) else 0), st) /\
    at_pos vs s' (q + bs).
Proof.
  cbv zeta. intros Hio Hq Ht. pose proof dix_bounds as Hb. induction n as [|n IH]; intros s o g Hp Ho Hg Hn;
    cbn [dix_pieces]; destruct (Z.ltb_spec o bs) as [Hlt|Hge]; try lia.
  1, 3: assert (o = bs) as -> by lia; exists s; destruct Hg as [[? _]| ->]; [lia|done].
  rewrite (M_bind_ok _ _ _ _ _ (get_buf_ok _ _ _ _ st Hio Hp ltac:(lia))). rewrite wrap_small by lia.
  destruct (at_pos_bounds _ _ _ _ (io_fits_ _ _ Hio) Hp) as (Hp0 & Hpr & Hr0).
  remember (Z.min (room s) (bs - o)) as l eqn:El.
  assert (Eg : (if guarded then guard_of g (cur s) l c else mret g) st
               = Ok (if guarded then G g (slice (iov_bytes (mem st) vs) (q + o) l) else g, st)).
  { destruct guarded; [|done]. rewrite <- (cur_0 s), (guard_of_ok c vs s (q + o) 0 l g st) by (done || lia).
    by rewrite Z.add_0_r. }
  rewrite (M_bind_ok _ _ _ _ _ Eg), wrap_small by lia.
  destruct (advance_ok _ _ _ _ l Hio Hp ltac:(lia) ltac:(lia)) as (Hp' & _ & Hle & Hlt2).
  apply IH; [by rewrite Z.add_assoc|lia| |lia]. apply data_guard_next; [apply Hc|lia|lia|lia|done].
Qed.

(** The metadata of block [k] is contiguous in the one element of its buffer. *)
Lemma single_room w t p m :
  fits m [w] -> at_pos [w] t p -> p < iov_len w -> room t = iov_len w - p.
Proof.
  intros Hf (pre & E & -> & Hh) Hp. destruct pre as [|x pre]; cbn in E.
  - unfold room. rewrite <- E in *. change (iov_total []) with 0. lia.
  - injection E as <- E. symmetry in E. apply app_eq_nil in E as [-> E]. rewrite E in Hh.
    rewrite total_cons in Hp. change (iov_total []) with 0 in Hp. lia.
Qed.

(** ** Whole buffers *)

(** The buffers of a call: [vs] has the data of [n] blocks, [w] their metadata. *)
Record dix_buffers (vs : list iovec) (w : iovec) (n : Z) (st : pst) : Prop := {
  db_data : buffer vs n bs st;
  db_md : buffer [w] n ms st;
  db_base : iov_base w <> None;
  db_vw : disj vs [w];
  db_wv : disj [w] vs }.

Section Buffers.
Variables (vs : list iovec) (w : iovec) (n : Z) (st0 : pst).
Hypothesis Hb : dix_buffers vs w n st0.
Notation F := (iov_bytes (mem st0) vs).
Notation B0 := (iov_bytes (mem st0) [w]).

Lemma dix_n : 0 <= n < 2 ^ 32.
Proof. pose proof dix_bounds. apply (buffer_n _ _ _ _ (db_data _ _ _ _ Hb)). lia. Qed.

Lemma md_total : iov_total [w] = iov_len w.
Proof. rewrite total_cons. change (iov_total []) with 0. lia. Qed.

Lemma dix_room k : 0 <= k < n ->
  0 <= k * bs /\ k * bs + bs <= iov_total vs /\ 0 <= k * ms /\ k * ms + ms <= iov_len w.
Proof.
  intros Hk. pose proof dix_bounds. destruct Hb as [[_ _ H1 _ _ _] [_ _ H2 _ _ _] _ _ _]. rewrite md_total in H2. nia.
Qed.

(** The walks of a call at block [k], over a state in which the metadata may have
    changed. *)
Record dix_at (k : Z) (x : dif_sgl * dif_sgl) (st : pst) : Prop := {
  da_data : at_pos vs x.1 (k * bs);
  da_data_s : aligned vs bs = true -> settled x.1;
  da_md : at_pos [w] x.2 (k * ms);
  da_changed : changed [w] (mem st0) (mem st) }.

Lemma dix_at_start : dix_at 0 (_dif_sgl_init vs, _dif_sgl_init [w]) st0.
Proof. constructor; cbn; [apply at_pos_init|apply Hb|apply at_pos_init|apply changed_refl]. Qed.

Lemma dix_at_ok k x st : dix_at k x st ->
  iov_ok (mem st) vs /\ iov_ok (mem st) [w] /\ iov_bytes (mem st) vs = F.
Proof.
  intros [_ _ _ Hch]. split_and!; [eapply iov_ok_changed; [exact Hch|apply Hb]..|].
  eapply changed_bytes; [exact Hch|apply Hb|apply Hb].
Qed.

Lemma dix_md k x st :
  dix_at k x st -> 0 <= k < n -> ms <= room x.2 /\ _dif_sgl_get_buf x.2 st = Ok ((cur x.2, room x.2), st).
Proof.
  intros HA Hk. pose proof dix_bounds. pose proof (dix_room k Hk) as Hr. destruct (dix_at_ok k x st HA) as (_ & Hw & _).
  rewrite (single_room w x.2 (k * ms) (mem st)); [|apply Hw|apply HA|lia]. split; [lia|].
  rewrite <- (single_room w x.2 (k * ms) (mem st)); [|apply Hw|apply HA|lia].
  eapply get_buf_ok; [exact Hw|apply HA|rewrite md_total; lia].
Qed.

(** The guard of a block, on both paths. *)
Lemma dix_guard_ok k x st :
  dix_at k x st -> 0 <= k < n -> aligned vs bs = true ->
  _dif_sgl_get_buf x.1 st = Ok ((cur x.1, room x.1), st) /\ bs <= room x.1 /\
  dix_guard (cur x.1) (cur x.2) c st = Ok (dix_block_guard c F (iov_bytes (mem st) [w]) k, st).
Proof.
  intros HA Hk Ha. pose proof dix_bounds as Hd. pose proof (dix_room k Hk) as Hr.
  destruct (dix_at_ok k x st HA) as (Hv & Hw & EF). destruct (dix_md k x st HA Hk) as [Hm _].
  assert (Hbr : bs <= room x.1).
  { eapply block_room; [apply Hv|apply HA|by apply HA|lia|lia|exact Ha|apply Z.mod_mul; lia]. }
  split_and!; [eapply get_buf_ok; [exact Hv|apply HA|lia]|done|].
  unfold dix_guard, dix_block_guard. destruct guarded; [|done]. rewrite <- (cur_0 x.1), <- (cur_0 x.2).
  rewrite (M_bind_ok _ _ _ _ _ (guard_of_ok c vs x.1 (k * bs) 0 bs _ st Hv (da_data _ _ _ HA) ltac:(lia) ltac:(lia) ltac:(lia))).
  rewrite (guard_of_ok c [w] x.2 (k * ms) 0 gi _ st Hw (da_md _ _ _ HA)) by lia. by rewrite !Z.add_0_r, EF.
Qed.

Lemma dix_split_guard_ok k x st :
  dix_at k x st -> 0 <= k < n ->
  exists s', dix_split_guard x.1 (cur x.2) c st
    = Ok ((s', dix_block_guard c F (iov_bytes (mem st) [w]) k), st) /\ at_pos vs s' (k * bs + bs).
Proof.
  intros HA Hk. pose proof dix_bounds as Hd. pose proof (dix_room k Hk) as Hr.
  destruct (dix_at_ok k x st HA) as (Hv & Hw & EF). destruct (dix_md k x st HA Hk) as [Hm _].
  destruct (dix_pieces_ok vs (k * bs) (pieces x.1) st Hv ltac:(lia) ltac:(lia) x.1 0 (start_guard c)) as (s' & E & Hp).
  { rewrite Z.add_0_r. apply HA. }
  { lia. }
  { by left. }
  { right. unfold pieces. lia. }
  exists s'. split; [|done]. unfold dix_split_guard. rewrite (M_bind_ok _ _ _ _ _ E), EF. unfold dix_block_guard.
  destruct guarded; [|done]. rewrite <- (cur_0 x.2).
  rewrite (M_bind_ok _ _ _ _ _ (guard_of_ok c [w] x.2 (k * ms) 0 gi _ st Hw (da_md _ _ _ HA) ltac:(lia) ltac:(lia) ltac:(lia))).
  by rewrite Z.add_0_r.
Qed.

(** *** Generation *)

Record dix_gen (k : Z) (x : dif_sgl * dif_sgl) (st : pst) : Prop := {
  dg_at : dix_at k x st;
  dg_bytes : iov_bytes (mem st) [w] = dix_flat c F (Z.to_nat k) B0 }.

Lemma dix_store k x s' st :
  dix_gen k x st -> 0 <= k < n -> at_pos vs s' (k * bs + bs) -> (aligned vs bs = true -> settled s') ->
  exists st', store_mem (ptr_add (cur x.2) gi) (_dif_generate (dix_block_guard c F (iov_bytes (mem st) [w]) k) k c) st
      = Ok (tt, st') /\ dix_gen (k + 1) (s', _dif_sgl_advance x.2 ms) st'.
Proof.
  intros [HA Eb] Hk Hs Hs2. pose proof dix_bounds as Hd. pose proof (dix_room k Hk) as Hr.
  destruct (dix_at_ok k x st HA) as (Hv & Hw & EF). destruct (dix_md k x st HA Hk) as [Hm _].
  pose proof (da_md _ _ _ HA) as Hp.
  destruct (store_mem_ok c [w] x.2 (k * ms) gi (_dif_generate (dix_block_guard c F (iov_bytes (mem st) [w]) k) k c) st)
    as (m' & E & Hch & Eb'); [done|done|lia|lia|apply gen_in_field|].
  eexists. split; [exact E|].
  destruct (advance_ok _ _ _ _ ms Hw Hp ltac:(rewrite md_total; lia) ltac:(lia)) as (Hp' & _).
  constructor; [constructor; cbn [fst snd mem set_mem]|cbn [mem set_mem]].
  - by replace ((k + 1) * bs) with (k * bs + bs) by lia.
  - done.
  - by replace ((k + 1) * ms) with (k * ms + ms) by lia.
  - eapply changed_trans; [apply HA|done].
  - replace (Z.to_nat (k + 1)) with (S (Z.to_nat k)) by lia. cbn [dix_flat]. rewrite Z2Nat.id by lia.
    rewrite <- Eb. exact Eb'.
Qed.

Lemma dix_generate_ok :
  exists x st', (if aligned vs bs then dix_generate (_dif_sgl_init vs) (_dif_sgl_init [w]) n c
                 else dix_generate_split (_dif_sgl_init vs) (_dif_sgl_init [w]) n c) st0 = Ok (x, st') /\ dix_gen n x st'.
Proof.
  pose proof dix_n as Hn. pose proof dix_bounds as Hd.
  assert (H0 : dix_gen 0 (_dif_sgl_init vs, _dif_sgl_init [w]) st0) by (constructor; [apply dix_at_start|done]).
  destruct (aligned vs bs) eqn:Ea; unfold dix_generate, dix_generate_split;
    match goal with |- context [for_blocks _ _ ?body _ _] =>
      destruct (for_blocks_inv dix_gen body (Z.to_nat n) 0 _ st0 ltac:(lia) ltac:(lia) H0) as (x & st' & E & HI);
      [|exists x, st'; split; [done|by rewrite Z.add_0_l, Z2Nat.id in HI by lia]] end;
    intros k [s t] st Hk' HG; assert (Hk : 0 <= k < n) by lia; pose proof (dg_at _ _ _ HG) as HA;
    destruct (dix_md k _ st HA Hk) as [Hm Em]; cbn [fst snd] in *.
  - destruct (dix_guard_ok k _ st HA Hk Ea) as (E1 & Hbr & E2). cbn [fst snd] in *.
    rewrite (M_bind_ok _ _ _ _ _ E1), (M_bind_ok _ _ _ _ _ Em), (M_bind_ok _ _ _ _ _ E2).
    destruct (dix_at_ok k _ st HA) as (Hv & _). pose proof (dix_room k Hk).
    destruct (advance_ok _ _ _ _ bs Hv (da_data _ _ _ HA) ltac:(lia) ltac:(cbn; lia)) as (Hp' & Hs' & _).
    destruct (dix_store k _ _ st HG Hk Hp' ltac:(done)) as (st2 & E3 & HG'). cbn [fst snd] in *.
    rewrite (M_bind_ok _ _ _ _ _ E3). by eexists _, st2.
  - unfold _dix_generate_split. rewrite (M_bind_ok _ _ _ _ _ Em).
    destruct (dix_split_guard_ok k _ st HA Hk) as (s' & E1 & Hp'). cbn [fst snd] in *. rewrite (M_bind_ok _ _ _ _ _ E1).
    destruct (dix_store k _ s' st HG Hk Hp' ltac:(rewrite Ea; done)) as (st2 & E3 & HG'). cbn [fst snd] in *.
    rewrite (M_bind_ok _ _ _ _ _ E3). by eexists _, st2.
Qed.

(** *** Verification *)

Lemma dix_check_ok k x st :
  dix_at k x st -> 0 <= k < n -> st = st0 ->
  verify_mem (ptr_add (cur x.2) gi) (dix_block_guard c F B0 k) k c st = Ok (dix_verify_at c F B0 k, st).
Proof.
  intros HA Hk ->. pose proof dix_bounds. destruct (dix_at_ok k x st0 HA) as (_ & Hw & _).
  destruct (dix_md k x st0 HA Hk) as [Hm _]. unfold verify_mem.
  by rewrite (M_bind_ok _ _ _ _ _ (read_at [w] x.2 _ gi sz st0 Hw (da_md _ _ _ HA) ltac:(lia) ltac:(lia) ltac:(lia))).
Qed.

Lemma dix_verify_ok :
  exists x, (if aligned vs bs then dix_verify (_dif_sgl_init vs) (_dif_sgl_init [w]) n c
             else dix_verify_split (_dif_sgl_init vs) (_dif_sgl_init [w]) n c) st0
    = Ok (or_error (first_err (dix_verify_at c F B0) (Z.to_nat n) 0) x, st0).
Proof.
  pose proof dix_n as Hn. pose proof dix_bounds as Hd.
  set (I := fun k x st => st = st0 /\ dix_at k x st).
  assert (H0 : I 0 (_dif_sgl_init vs, _dif_sgl_init [w]) st0) by (split; [done|apply dix_at_start]).
  assert (Hnext : forall k s t s', 0 <= k < n -> dix_at k (s, t) st0 -> at_pos vs s' (k * bs + bs) ->
      (aligned vs bs = true -> settled s') -> I (k + 1) (s', _dif_sgl_advance t ms) st0).
  { intros k s t s' Hk HA Hp Hs. split; [done|]. pose proof (dix_room k Hk). destruct (dix_md k _ st0 HA Hk) as [Hm _].
    destruct (dix_at_ok k _ st0 HA) as (_ & Hw & _).
    destruct (advance_ok _ _ _ _ ms Hw (da_md _ _ _ HA) ltac:(rewrite md_total; lia) ltac:(lia)) as (Hp' & _).
    constructor; cbn [fst snd] in *; [|done| |apply changed_refl].
    - by replace ((k + 1) * bs) with (k * bs + bs) by lia.
    - by replace ((k + 1) * ms) with (k * ms + ms) by lia. }
  destruct (aligned vs bs) eqn:Ea; unfold dix_verify, dix_verify_split;
    match goal with |- context [for_blocks_err _ _ ?body _ _] =>
      destruct (for_blocks_err_inv I (eq st0) (dix_verify_at c F B0) body (Z.to_nat n) 0 _ st0
        ltac:(lia) ltac:(lia) H0) as (x & st' & E & HI);
      [|exists x; assert (st' = st0) as -> by (destruct (first_err _ _ _); [done|by destruct HI]); exact E] end;
    intros k [s t] st Hk' [-> HA]; assert (Hk : 0 <= k < n) by lia;
    destruct (dix_md k _ st0 HA Hk) as [Hm Em]; pose proof (dix_check_ok k _ st0 HA Hk eq_refl) as Ec; cbn [fst snd] in *.
  - destruct (dix_guard_ok k _ st0 HA Hk Ea) as (E1 & Hbr & E2). cbn [fst snd] in *.
    rewrite (M_bind_ok _ _ _ _ _ E1), (M_bind_ok _ _ _ _ _ Em), (M_bind_ok _ _ _ _ _ E2), (M_bind_ok _ _ _ _ _ Ec).
    eexists _, st0. split; [reflexivity|]. destruct (dix_verify_at c F B0 k); [done|].
    destruct (dix_at_ok k _ st0 HA) as (Hv & _). pose proof (dix_room k Hk).
    destruct (advance_ok _ _ _ _ bs Hv (da_data _ _ _ HA) ltac:(lia) ltac:(cbn; lia)) as (Hp' & Hs' & _).
    by apply (Hnext k s).
  - unfold _dix_verify_split. rewrite (M_bind_ok _ _ _ _ _ Em).
    destruct (dix_split_guard_ok k _ st0 HA Hk) as (s' & E1 & Hp'). cbn [fst snd] in *.
    rewrite (M_bind_ok _ _ _ _ _ E1), (M_bind_ok _ _ _ _ _ Ec).
    eexists _, st0. split; [reflexivity|]. destruct (dix_verify_at c F B0 k); [done|]. by apply (Hnext k s).
Qed.

(** *** The calls *)

Lemma dix_valid_ok : dix_valid vs w n c = true.
Proof.
  pose proof dix_bounds. unfold dix_valid. destruct Hb as [Hv Hw _ _ _].
  by rewrite (valid_ok _ _ _ _ Hv), (valid_ok _ _ _ _ Hw) by lia.
Qed.

Hypothesis Ht : dif_type c ≠ SPDK_DIF_DISABLE.

Lemma dix_generate_flat :
  exists st', spdk_dix_generate vs w n c st0 = Ok (0, st') /\ changed [w] (mem st0) (mem st') /\
    iov_bytes (mem st') [w] = dix_flat c F (Z.to_nat n) B0.
Proof.
  pose proof dix_bounds. unfold spdk_dix_generate, _dif_is_disabled. rewrite dix_valid_ok, bool_decide_eq_false_2 by done.
  cbn [negb]. rewrite (M_bind_ok _ _ _ _ _ (is_multiple_ok vs bs st0 ltac:(lia))). fold (aligned vs bs).
  destruct dix_generate_ok as (x & st' & E & [HA Eb]). rewrite (M_bind_ok _ _ _ _ _ E).
  exists st'. split_and!; [done|apply HA|done].
Qed.

Lemma dix_verify_flat :
  spdk_dix_verify vs w n c st0 = Ok (verdict_of (first_err (dix_verify_at c F B0) (Z.to_nat n) 0), st0).
Proof.
  pose proof dix_bounds. unfold spdk_dix_verify, _dif_is_disabled.
  rewrite (bool_decide_eq_false_2 (iov_base w = None)) by apply Hb.
  rewrite dix_valid_ok, bool_decide_eq_false_2 by done. cbn [negb].
  rewrite (M_bind_ok _ _ _ _ _ (is_multiple_ok vs bs st0 ltac:(lia))). fold (aligned vs bs).
  destruct dix_verify_ok as (x & E). destruct (aligned vs bs);
    rewrite (M_bind_ok _ _ _ _ _ E); by rewrite verdict_or_error.
Qed.

End Buffers.

(** ** Blocks *)

Notation md B k := (slice B (k * ms) ms).

Lemma dix_gen_zlen F k B : 0 <= k -> k * ms + ms <= zlen B ->
  zlen (store_var (_dif_generate (dix_block_guard c F B k) k c) (slice B (k * ms + gi) sz)) = sz.
Proof. intros Hk Hl. pose proof dix_bounds. apply gen_zlen, slice_zlen; nia. Qed.

Lemma dix_flat_zlen F n B : Z.of_nat n * ms <= zlen B -> zlen (dix_flat c F n B) = zlen B.
Proof.
  pose proof dix_bounds. induction n as [|n IH]; intros Hl; [done|]. cbn [dix_flat]. unfold dix_gen_at.
  pose proof (dix_gen_zlen F (Z.of_nat n) (dix_flat c F n B) ltac:(lia) ltac:(rewrite IH; lia)).
  rewrite splice_zlen; rewrite ?IH; lia || nia.
Qed.

Lemma dix_other F j k B :
  0 <= j -> 0 <= k -> j <> k -> k * ms + ms <= zlen B -> md (dix_gen_at c F k B) j = md B j.
Proof.
  intros Hj Hk Hne Hl. pose proof dix_bounds. pose proof (dix_gen_zlen F k B Hk Hl). unfold dix_gen_at.
  apply slice_splice_out; [nia|nia|nia|]. destruct (Z.lt_total j k) as [|[?|]]; [left; nia|lia|right; nia].
Qed.

(** The metadata in front of the field is kept, so the guard is. *)
Lemma dix_front F k B o m :
  0 <= k -> k * ms + ms <= zlen B -> 0 <= o -> 0 <= m -> o + m <= gi ->
  slice (dix_gen_at c F k B) (k * ms + o) m = slice B (k * ms + o) m.
Proof.
  intros Hk Hl Ho Hm Hg. pose proof dix_bounds. pose proof (dix_gen_zlen F k B Hk Hl). unfold dix_gen_at.
  apply slice_splice_out; nia.
Qed.

(** A check reads the data and the metadata of the block only. *)
Lemma dix_verify_local F F' B B' k :
  0 <= k -> slice F (k * bs) bs = slice F' (k * bs) bs -> md B k = md B' k ->
  dix_verify_at c F B k = dix_verify_at c F' B' k.
Proof.
  intros Hk EF EB. pose proof dix_bounds.
  assert (Ep : forall o m, 0 <= o -> 0 <= m -> o + m <= ms -> slice B (k * ms + o) m = slice B' (k * ms + o) m).
  { intros o m Ho Hm Hl. apply (f_equal (fun l => slice l o m)) in EB. by rewrite !slice_slice in EB by nia. }
  pose proof (Ep 0 gi ltac:(lia) ltac:(lia) ltac:(lia)) as E0. rewrite Z.add_0_r in E0.
  unfold dix_verify_at, dix_block_guard. by rewrite Ep, EF, E0 by lia.
Qed.

Lemma dix_gen_verifies F k B :
  ~ tag_conflict c -> 0 <= k -> k * ms + ms <= zlen B -> dix_verify_at c F (dix_gen_at c F k B) k = None.
Proof.
  intros Ht Hk Hl. pose proof dix_bounds. pose proof (dix_gen_zlen F k B Hk Hl) as Hz. unfold dix_verify_at.
  replace (slice (dix_gen_at c F k B) (k * ms + gi) sz)
    with (store_var (_dif_generate (dix_block_guard c F B k) k c) (slice B (k * ms + gi) sz))
    by (symmetry; apply slice_splice_eq; nia).
  replace (dix_block_guard c F (dix_gen_at c F k B) k) with (dix_block_guard c F B k).
  - apply generated_verifies; [apply slice_zlen; nia| |apply Hc|done].
    unfold dix_block_guard. destruct guarded; [apply guard_range|]. split; [done|]. by destruct f.
  - unfold dix_block_guard. destruct guarded; [|done]. f_equal.
    pose proof (dix_front F k B 0 gi Hk Hl ltac:(lia) ltac:(lia) ltac:(lia)) as E. by rewrite Z.add_0_r in E.
Qed.

Lemma dix_flat_verifies F n k B :
  ~ tag_conflict c -> Z.of_nat n * ms <= zlen B -> 0 <= k < Z.of_nat n -> dix_verify_at c F (dix_flat c F n B) k = None.
Proof.
  intros Ht. pose proof dix_bounds. induction n as [|n IH]; intros Hl Hk; [lia|]. cbn [dix_flat].
  pose proof (dix_flat_zlen F n B ltac:(lia)) as Hz. destruct (decide (k = Z.of_nat n)) as [->|].
  - apply dix_gen_verifies; [done|lia|nia].
  - rewrite <- (IH ltac:(lia) ltac:(lia)). apply dix_verify_local; [lia|done|]. apply dix_other; lia || nia.
Qed.

(** C31: protection information in a separate buffer, for data that is scattered
    in any way and a type other than disabled: spdk_dix_generate succeeds and
    changes the metadata buffer only, and for arbitrary buffers spdk_dix_verify
    reports exactly the first block whose check fails.  It accepts generated
    metadata and its data in any buffers with the same bytes, provided that the
    initial reference tag is not the value that asks for no check while the
    reference tag is checked. *)
Theorem dix_roundtrip vs w n st :
  dif_type c ≠ SPDK_DIF_DISABLE -> dix_buffers vs w n st ->
  exists st', spdk_dix_generate vs w n c st = Ok (0, st') /\ changed [w] (mem st) (mem st') /\
    forall vs2 w2 st2, dix_buffers vs2 w2 n st2 ->
      spdk_dix_verify vs2 w2 n c st2
        = Ok (verdict_of (first_err (dix_verify_at c (iov_bytes (mem st2) vs2) (iov_bytes (mem st2) [w2])) (Z.to_nat n) 0), st2) /\
      (~ tag_conflict c -> same_bytes (n * bs) vs2 st2 vs st -> same_bytes (n * ms) [w2] st2 [w] st' ->
       spdk_dix_verify vs2 w2 n c st2 = Ok ((0, None), st2)).
Proof.
  intros Hty Hb. pose proof dix_bounds as Hd. pose proof (dix_n _ _ _ _ Hb) as Hn.
  destruct (dix_generate_flat vs w n st Hb Hty) as (st' & E & Hch & EB). exists st'. split_and!; [done|done|].
  intros vs2 w2 st2 Hb2. rewrite (dix_verify_flat vs2 w2 n st2 Hb2 Hty). split; [done|]. intros Ht EF EB2.
  replace (first_err _ _ _) with (@None dif_error); [done|]. symmetry. apply first_err_none. intros k Hk.
  assert (HB : n * ms <= zlen (iov_bytes (mem st) [w])).
  { rewrite bytes_zlen by apply Hb. destruct Hb as [_ [] _ _ _]. done. }
  rewrite <- (dix_flat_verifies (iov_bytes (mem st) vs) (Z.to_nat n) k (iov_bytes (mem st) [w]) Ht) by lia.
  rewrite <- EB. apply dix_verify_local; [lia| |].
  - apply (f_equal (fun l => slice l (k * bs) bs)) in EF. by rewrite !slice_slice, !Z.add_0_l in EF by nia.
  - apply (f_equal (fun l => slice l (k * ms) ms)) in EB2. by rewrite !slice_slice, !Z.add_0_l in EB2 by nia.
Qed.

End Dix.

(** Two blocks of 512 bytes over three iovecs, with 8 bytes of metadata each. *)
Definition dix_ctx : dif_ctx :=
  DifCtx 512 0 8 false SPDK_DIF_TYPE1 SPDK_DIF_PI_FORMAT_16
    (SPDK_DIF_FLAGS_GUARD_CHECK + SPDK_DIF_FLAGS_APPTAG_CHECK + SPDK_DIF_FLAGS_REFTAG_CHECK) 7 0x1234 0xFFFF 0 0 0 0 0.
Definition dix_state : pst := Pst (<[0%nat := replicate 1024 1]> (<[1%nat := replicate 16 0]> ∅)) ∅ ∅.
Definition dix_data : list iovec :=
  [Iov (Some (0%nat, 0)) 100; Iov (Some (0%nat, 100)) 500; Iov (Some (0%nat, 600)) 424].
Definition dix_md_iov : iovec := Iov (Some (1%nat, 0)) 16.

Lemma dix_demo : dix_ok dix_ctx /\ dix_buffers dix_ctx dix_data dix_md_iov 2 dix_state.
Proof.
  split; [by constructor|]. constructor; [constructor; try done|constructor; try done|done| |].
  1, 2: constructor; [fits_demo|by repeat constructor|apart_demo].
  all: repeat (apply Forall_cons; split; [seps_demo|]); by apply Forall_nil.
Qed.

#[local] Existing Instance sum_crc.
#[local] Existing Instance sum_crc_laws.

Lemma dix_roundtrip_witness :
  exists st', spdk_dix_generate dix_data dix_md_iov 2 dix_ctx dix_state = Ok (0, st') /\
    spdk_dix_verify dix_data dix_md_iov 2 dix_ctx st' = Ok ((0, None), st').
Proof.
  destruct dix_demo as [Hc Hb].
  destruct (dix_roundtrip dix_ctx Hc dix_data dix_md_iov 2 dix_state) as (st' & E & Hch & H); [done|exact Hb|].
  exists st'. split; [exact E|]. pose proof Hb as [H1 H2 H3 H4 H5]. apply (H dix_data dix_md_iov st').
  - constructor; [exact (buffer_changed _ _ _ _ _ _ Hch H1)|exact (buffer_changed _ _ _ _ _ _ Hch H2)|done|done|done].
  - by intros (_ & [=] & _).
  - unfold same_bytes. f_equal. eapply changed_bytes; [exact Hch|apply H1|done].
  - reflexivity.
Defined.
