(* ===== verification/UserCmd.v ===== *)
(** * Commands with a copied payload (lib/nvme/nvme_ns_cmd.c, lib/nvme/nvme.c)

    Dataset management, copy, the reservation commands and I/O management take
    a payload in memory that need not be suitable for DMA: the driver allocates
    a buffer for the request, copies a payload that goes to the controller into
    it, and on completion copies a payload that comes from the controller back
    and frees the buffer.  The memory is the one of the pipes; a request is the
    one of the queue pair, with the fields user_buffer and user_cb_arg beside
    it.  spdk_zmalloc and the outcome of the submission are parameters. *)

From S2P Require Import Prelude Reservation NsCmd Pipe.

Definition SPDK_NVME_DATASET_MANAGEMENT_MAX_RANGES : Z := 256.
Definition SPDK_NVME_OPC_IO_MANAGEMENT_RECEIVE : Z := 0x12.
Definition SPDK_NVME_OPC_COPY : Z := 0x19.
Definition SPDK_NVME_OPC_IO_MANAGEMENT_SEND : Z := 0x1d.

Definition SPDK_NVME_DATA_CONTROLLER_TO_HOST : Z := 2.
Definition SPDK_NVME_DATA_BIDIRECTIONAL : Z := 3.

Definition spdk_nvme_opc_get_data_transfer (opc : Z) : Z := Z.land opc 3.

(** ** State *)

(** user_buffer and user_cb_arg of a request. *)
Record user_req := UserReq { user_buffer : option (nat * Z); user_cb_arg : Z }.

Record ust := Ust {
  u_pst : pst (** memory *);
  u_qpair : qpair;
  u_live : gmap nat (request * user_req) (** accepted by the queue pair *);
  u_calls : list (Z * Z) (** calls of user_cb_fn: argument and completion *) }.

(** What the environment does during a command: the buffer spdk_zmalloc finds
    in a memory for a size, and the result of handing the request to the
    transport. *)
Record uenv := Uenv {
  spdk_zmalloc : gmap nat (list Z) -> Z -> option nat;
  submit_rc : request -> Z }.

Definition set_pst (p : pst) (s : ust) : ust := Ust p (u_qpair s) (u_live s) (u_calls s).
Definition set_live (f : gmap nat (request * user_req) -> gmap nat (request * user_req)) (s : ust) : ust :=
  Ust (u_pst s) (u_qpair s) (f (u_live s)) (u_calls s).

Definition on_mem {A} (m : M pst A) : M ust A :=
  fun s => '(a, p) ← m (u_pst s); Ok (a, set_pst p s).
Definition on_qpair {A} (m : M qpair A) : M ust A :=
  fun s => '(a, q) ← m (u_qpair s); Ok (a, Ust (u_pst s) q (u_live s) (u_calls s)).

(** Pointers to DMA buffers as the addresses of a payload. *)
Definition dma_addr (b : option nat) : Z := match b with Some b => Z.of_nat b | None => 0 end.
Definition payload_buf (r : request) : option nat :=
  match r_payload (req_f r) with
  | PayloadContig a _ => if a =? 0 then None else Some (Z.to_nat a)
  | PayloadSgl _ => None
  end.

Definition spdk_free (b : option nat) : M ust unit :=
  match b with
  | None => mret tt
  | Some b =>
      s ← get;
      _ ← lift_opt UB_freed (mem (u_pst s) !! b);
      modify (set_pst (set_mem (delete b) (u_pst s)))
  end.

(** ** The payload *)

Definition has_payload (buffer : option (nat * Z)) (payload_size : Z) : bool :=
  negb (bool_decide (buffer = None)) && negb (payload_size =? 0).

(** The DMA buffer, zeroed and for a command to the controller filled. *)
Definition copy_in (b : nat) (buffer : option (nat * Z)) (payload_size : Z) (host_to_controller : bool)
  : M ust unit :=
  _ ← on_mem (modify (set_mem <[b := repeat 0 (Z.to_nat payload_size)]>));
  if host_to_controller then
    bs ← on_mem (mem_read buffer payload_size); on_mem (mem_write (Some (b, 0)) bs)
  else mret tt.

(** The request with the DMA buffer, which may be the null pointer. *)
Definition request_contig (dma : option nat) (buffer : option (nat * Z)) (payload_size cb_arg : Z)
  : M ust (option (request * user_req)) :=
  r ← on_qpair (nvme_allocate_request (PayloadContig (dma_addr dma) None) payload_size 0);
  match r with
  | None => _ ← spdk_free dma; mret None
  | Some req => mret (Some (req, UserReq buffer cb_arg))
  end.

Section Commands.
Context (E : uenv) (ns : nvme_ns).

Definition nvme_allocate_request_user_copy (buffer : option (nat * Z)) (payload_size cb_arg : Z)
  (host_to_controller : bool) : M ust (option (request * user_req)) :=
  if has_payload buffer payload_size then
    s ← get;
    match spdk_zmalloc E (mem (u_pst s)) payload_size with
    | None => mret None
    | Some b =>
        _ ← copy_in b buffer payload_size host_to_controller;
        request_contig (Some b) buffer payload_size cb_arg
    end
  else request_contig None buffer payload_size cb_arg.

Definition nvme_cleanup_user_req (r : request) (u : user_req) : M ust unit :=
  if has_payload (user_buffer u) (r_payload_size (req_f r)) then spdk_free (payload_buf r) else mret tt.

(** nvme_qpair_submit_request of a request without children that is not queued:
    the error path cleans up and frees the request. *)
Definition submit_user (r : request) (u : user_req) : M ust Z :=
  let rc := submit_rc E r in
  if rc =? 0 then _ ← modify (set_live <[req_id r := (r, u)]>); mret 0
  else
    _ ← nvme_cleanup_user_req r u;
    _ ← on_qpair (free_id (req_id r));
    mret rc.

(** The common part of the commands. *)
Definition user_copy_cmd (buffer : option (nat * Z)) (payload_size cb_arg : Z)
  (host_to_controller : bool) (c : nvme_cmd) : M ust Z :=
  r ← nvme_allocate_request_user_copy buffer payload_size cb_arg host_to_controller;
  match r with
  | None => mret (- ENOMEM)
  | Some (req, u) => submit_user (set_cmd c req) u
  end.

(** ** Commands *)

(** A bit field of [len] bits at [lo], and cdw10 with cdw11. *)
Definition field (v lo len : Z) : Z := Z.shiftl (Z.land v (2 ^ len - 1)) lo.
Definition dwords (cdw10 cdw11 : Z) : Z := Z.lor cdw10 (Z.shiftl cdw11 32).

Definition user_command (opc cdw10 cdw11 cdw12 : Z) : nvme_cmd :=
  NvmeCmd opc (ns_id ns) (dwords cdw10 cdw11) 0 cdw12 0 0 0.

Definition spdk_nvme_ns_cmd_dataset_management (type : Z) (ranges : option (nat * Z)) (num_ranges cb_arg : Z)
  : M ust Z :=
  if (num_ranges =? 0) || (SPDK_NVME_DATASET_MANAGEMENT_MAX_RANGES <? num_ranges) then mret (- EINVAL)
  else if bool_decide (ranges = None) then mret (- EINVAL)
  else user_copy_cmd ranges (num_ranges * 16) cb_arg true
         (user_command SPDK_NVME_OPC_DATASET_MANAGEMENT (field (num_ranges - 1) 0 8) type 0).

Definition spdk_nvme_ns_cmd_copy (ranges : option (nat * Z)) (num_ranges dest_lba cb_arg : Z) : M ust Z :=
  if num_ranges =? 0 then mret (- EINVAL)
  else if bool_decide (ranges = None) then mret (- EINVAL)
  else user_copy_cmd ranges (num_ranges * 32) cb_arg true
         (NvmeCmd SPDK_NVME_OPC_COPY (ns_id ns) dest_lba 0 (num_ranges - 1) 0 0 0).

Definition spdk_nvme_ns_cmd_reservation_register (payload : option (nat * Z)) (ignore_key : bool)
  (action cptpl cb_arg : Z) : M ust Z :=
  user_copy_cmd payload 16 cb_arg true
    (user_command SPDK_NVME_OPC_RESERVATION_REGISTER
       (Z.lor (Z.lor (field action 0 3) (field (Z.b2z ignore_key) 3 1)) (field cptpl 30 2)) 0 0).

Definition spdk_nvme_ns_cmd_reservation_release (payload : option (nat * Z)) (ignore_key : bool)
  (action type cb_arg : Z) : M ust Z :=
  user_copy_cmd payload 8 cb_arg true
    (user_command SPDK_NVME_OPC_RESERVATION_RELEASE
       (Z.lor (Z.lor (field action 0 3) (field (Z.b2z ignore_key) 3 1)) (field type 8 8)) 0 0).

Definition spdk_nvme_ns_cmd_reservation_acquire (payload : option (nat * Z)) (ignore_key : bool)
  (action type cb_arg : Z) : M ust Z :=
  user_copy_cmd payload 16 cb_arg true
    (user_command SPDK_NVME_OPC_RESERVATION_ACQUIRE
       (Z.lor (Z.lor (field action 0 3) (field (Z.b2z ignore_key) 3 1)) (field type 8 8)) 0 0).

Definition spdk_nvme_ns_cmd_reservation_report (payload : option (nat * Z)) (len cb_arg : Z) : M ust Z :=
  if negb (Z.land len 0x3 =? 0) then mret (- EINVAL)
  else user_copy_cmd payload len cb_arg false
         (user_command SPDK_NVME_OPC_RESERVATION_REPORT (u32 (Z.shiftr len 2 - 1)) 0 0).

Definition spdk_nvme_ns_cmd_io_mgmt_recv (payload : option (nat * Z)) (len mo mos cb_arg : Z) : M ust Z :=
  if negb (Z.land len 0x3 =? 0) then mret (- EINVAL)
  else user_copy_cmd payload len cb_arg false
         (user_command SPDK_NVME_OPC_IO_MANAGEMENT_RECEIVE (Z.lor (field mo 0 8) (field mos 16 16))
            (u32 (Z.shiftr len 2 - 1)) 0).

Definition spdk_nvme_ns_cmd_io_mgmt_send (payload : option (nat * Z)) (len mo mos cb_arg : Z) : M ust Z :=
  user_copy_cmd payload len cb_arg false
    (user_command SPDK_NVME_OPC_IO_MANAGEMENT_SEND (Z.lor (field mo 0 8) (field mos 16 16)) 0 0).

End Commands.

(** ** Completion *)

(** The payload goes back to the user before the buffer is freed. *)
Definition nvme_user_copy_cmd_complete (r : request) (u : user_req) (cpl : Z) : M ust unit :=
  let f := req_f r in
  _ ← (if has_payload (user_buffer u) (r_payload_size f) then
         let xfer := spdk_nvme_opc_get_data_transfer (cmd_opc (r_cmd f)) in
         if (xfer =? SPDK_NVME_DATA_CONTROLLER_TO_HOST) || (xfer =? SPDK_NVME_DATA_BIDIRECTIONAL) then
           bs ← on_mem (mem_read ((fun b => (b, 0)) <$> payload_buf r) (r_payload_size f));
           on_mem (mem_write (user_buffer u) bs)
         else mret tt
       else mret tt);
  _ ← nvme_cleanup_user_req r u;
  modify (fun s => Ust (u_pst s) (u_qpair s) (u_live s) (u_calls s ++ [(user_cb_arg u, cpl)])).

(** nvme_complete_request of an accepted request: the request goes back to the
    pool, then its callback runs. *)
Definition complete_user (i : nat) (cpl : Z) : M ust unit :=
  s ← get;
  '(r, u) ← lift_opt UB_freed (u_live s !! i);
  _ ← modify (set_live (delete i));
  _ ← on_qpair (free_id i);
  nvme_user_copy_cmd_complete r u cpl.
