(* ===== verification/UserCmdLemmas.v ===== *)
(** * Life of the copied payloads

    Histories of commands with a copied payload: commands are issued, with any
    result of the allocations and of the submission, the controller writes into
    the buffers of the requests it has, and requests complete in any order.  The
    invariant relates the memory, the pool and the accepted requests. *)

From S2P Require Import Prelude Reservation NsCmd Pipe PipeLemmas IovLemmas Dif DifMem UserCmd.

(** ** Histories *)

Inductive ucmd :=
  | UDsm (type : Z) (ranges : option (nat * Z)) (num_ranges : Z)
  | UCopy (ranges : option (nat * Z)) (num_ranges dest_lba : Z)
  | URegister (payload : option (nat * Z)) (ignore_key : bool) (action cptpl : Z)
  | URelease (payload : option (nat * Z)) (ignore_key : bool) (action type : Z)
  | UAcquire (payload : option (nat * Z)) (ignore_key : bool) (action type : Z)
  | UReport (payload : option (nat * Z)) (len : Z)
  | URecv (payload : option (nat * Z)) (len mo mos : Z)
  | USend (payload : option (nat * Z)) (len mo mos : Z).

Definition run_ucmd (E : uenv) (ns : nvme_ns) (c : ucmd) (arg : Z) : M ust Z :=
  match c with
  | UDsm t p n => spdk_nvme_ns_cmd_dataset_management E ns t p n arg
  | UCopy p n d => spdk_nvme_ns_cmd_copy E ns p n d arg
  | URegister p k a t => spdk_nvme_ns_cmd_reservation_register E ns p k a t arg
  | URelease p k a t => spdk_nvme_ns_cmd_reservation_release E ns p k a t arg
  | UAcquire p k a t => spdk_nvme_ns_cmd_reservation_acquire E ns p k a t arg
  | UReport p n => spdk_nvme_ns_cmd_reservation_report E ns p n arg
  | URecv p n x y => spdk_nvme_ns_cmd_io_mgmt_recv E ns p n x y arg
  | USend p n x y => spdk_nvme_ns_cmd_io_mgmt_send E ns p n x y arg
  end.

(** The payload the command is given, and its size. *)
Definition ucmd_payload (c : ucmd) : option (nat * Z) :=
  match c with
  | UDsm _ p _ | UCopy p _ _ | URegister p _ _ _ | URelease p _ _ _ | UAcquire p _ _ _
  | UReport p _ | URecv p _ _ _ | USend p _ _ _ => p
  end.
Definition ucmd_size (c : ucmd) : Z :=
  match c with
  | UDsm _ _ n => n * 16
  | UCopy _ n _ => n * 32
  | URegister _ _ _ _ | UAcquire _ _ _ _ => 16
  | URelease _ _ _ _ => 8
  | UReport _ n | URecv _ n _ _ | USend _ n _ _ => n
  end.

Inductive uevent :=
  | UIssue (E : uenv) (c : ucmd) (arg : Z)
  | UDma (i : nat) (bs : list Z) (** the controller writes the payload of request [i] *)
  | UDone (i : nat) (cpl : Z).

(** The buffer of a request that has one. *)
Definition dma_of (x : request * user_req) : option nat :=
  if has_payload (user_buffer (snd x)) (r_payload_size (req_f (fst x))) then payload_buf (fst x) else None.

Definition ustep (ns : nvme_ns) (e : uevent) : M ust Z :=
  match e with
  | UIssue E c arg => run_ucmd E ns c arg
  | UDma i bs =>
      s ← get;
      x ← lift_opt UB_freed (u_live s !! i);
      _ ← on_mem (mem_write ((fun b => (b, 0)) <$> dma_of x) bs); mret 0
  | UDone i cpl => _ ← complete_user i cpl; mret 0
  end.

Fixpoint urun (ns : nvme_ns) (es : list uevent) : M ust (list Z) :=
  match es with
  | [] => mret []
  | e :: es' => rc ← ustep ns e; rcs ← urun ns es'; mret (rc :: rcs)
  end.

(** The arguments of the commands that were accepted. *)
Fixpoint uaccepted (es : list uevent) (rcs : list Z) : list Z :=
  match es, rcs with
  | UIssue _ _ arg :: es', rc :: rcs' => (if rc =? 0 then [arg] else []) ++ uaccepted es' rcs'
  | _ :: es', _ :: rcs' => uaccepted es' rcs'
  | _, _ => []
  end.

(** The documented behaviour of the allocator: a buffer that is not in use. *)
Definition zmalloc_ok (E : uenv) : Prop :=
  forall m n b, spdk_zmalloc E m n = Some b -> m !! b = None /\ b <> 0%nat.

(** ** The memory of a payload *)

Definition with_mem (f : gmap nat (list Z) -> gmap nat (list Z)) (s : ust) : ust :=
  set_pst (set_mem f (u_pst s)) s.

Lemma with_mem_with_mem f g s : with_mem f (with_mem g s) = with_mem (f ∘ g) s.
Proof. done. Qed.

Lemma with_mem_ext f g s : f (mem (u_pst s)) = g (mem (u_pst s)) -> with_mem f s = with_mem g s.
Proof. intros H. unfold with_mem, set_mem. by rewrite H. Qed.

Lemma on_mem_ok {A} (m : M pst A) s a p : m (u_pst s) = Ok (a, p) -> on_mem m s = Ok (a, set_pst p s).
Proof. intros H. unfold on_mem. by rewrite H. Qed.

(** A buffer written as a whole. *)
Lemma poke_whole m b l bs :
  m !! b = Some l -> length bs = length l -> bs <> [] -> poke (Some (b, 0)) bs m = <[b := bs]> m.
Proof.
  intros Hb Hl Hne. destruct bs as [|x bs]; [done|]. cbn [poke]. apply map_eq. intros c.
  destruct (decide (b = c)) as [<-|]; [|by rewrite lookup_alter_ne, lookup_insert_ne].
  rewrite lookup_alter_eq, lookup_insert_eq, Hb. cbn [fmap option_fmap option_map]. f_equal.
  unfold overwrite. cbn [Z.to_nat take]. rewrite drop_ge, app_nil_r; [done|]. cbn in *. lia.
Qed.

Lemma write_whole s b l bs :
  mem (u_pst s) !! b = Some l -> length bs = length l ->
  on_mem (mem_write (Some (b, 0)) bs) s = Ok (tt, with_mem <[b := bs]> s).
Proof.
  intros Hb Hl. destruct (decide (bs = [])) as [->|Hne].
  - symmetry in Hl. apply nil_length_inv in Hl as ->. unfold on_mem, with_mem, set_pst, set_mem. cbn.
    rewrite insert_id by done. by destruct s as [[] ? ? ?].
  - erewrite on_mem_ok; [|apply mem_write_ok; right; exists b, 0, l; split_and!; (done || lia)].
    do 2 f_equal. unfold with_mem. f_equal. unfold set_mem. by rewrite (poke_whole _ b l).
Qed.

Lemma peek_insert_fresh m b l p n :
  m !! b = None -> in_range m p n -> peek (<[b := l]> m) p n = peek m p n /\ in_range (<[b := l]> m) p n.
Proof.
  intros Hb (c & off & l' & -> & Hc & Ho & Hr). assert (b <> c) by naive_solver. cbn.
  rewrite lookup_insert_ne by done. split; [done|]. exists c, off, l'. by rewrite lookup_insert_ne.
Qed.

Lemma user_copy_in_ok s b p n (h2c : bool) :
  mem (u_pst s) !! b = None -> 0 < n -> in_range (mem (u_pst s)) p n ->
  let l := if h2c then peek (mem (u_pst s)) p n else repeat 0 (Z.to_nat n) in
  copy_in b p n h2c s = Ok (tt, with_mem <[b := l]> s) /\ Z.of_nat (length l) = n.
Proof.
  intros Hb Hn Hr. cbn zeta. unfold copy_in. erewrite M_bind_ok by reflexivity.
  change (set_pst _ s) with (with_mem <[b := repeat 0 (Z.to_nat n)]> s).
  destruct h2c; [|split; [done|rewrite repeat_length; lia]].
  destruct (peek_insert_fresh _ b (repeat 0 (Z.to_nat n)) p n Hb Hr) as [Ep Hr'].
  erewrite M_bind_ok by (apply on_mem_ok, mem_read_ok; done). rewrite peek_length by (done || lia).
  split; [|lia]. erewrite write_whole.
  - cbn [u_pst with_mem set_pst set_mem mem]. rewrite Ep. do 2 f_equal. unfold with_mem, set_pst, set_mem. cbn.
    by rewrite insert_insert_eq.
  - cbn. apply lookup_insert_eq.
  - cbn [u_pst with_mem set_pst set_mem mem]. rewrite Ep, peek_length, repeat_length by (done || lia). done.
Qed.

Lemma user_free_buf_ok s b : is_Some (mem (u_pst s) !! b) -> spdk_free (Some b) s = Ok (tt, with_mem (delete b) s).
Proof. intros [l Hl]. unfold spdk_free. cbn. unfold mbind, M_bind, get, lift_opt. by rewrite Hl. Qed.

(** ** The invariant *)

Section History.
Context (ns : nvme_ns) (m0 : gmap nat (list Z)) (N : nat).

(** The payload is in the memory the caller had at the beginning. *)
Definition payload_ok (p : option (nat * Z)) (n : Z) : Prop :=
  0 <= n /\ (has_payload p n = true -> in_range m0 p n).

(** What can happen in a state. *)
Definition uvalid (s : ust) (e : uevent) : Prop :=
  match e with
  | UIssue E c arg => zmalloc_ok E /\ payload_ok (ucmd_payload c) (ucmd_size c)
  | UDma i bs => exists x, u_live s !! i = Some x /\ is_Some (dma_of x)
      /\ Z.of_nat (length bs) = r_payload_size (req_f (fst x))
  | UDone i _ => is_Some (u_live s !! i)
  end.

(** An accepted request: its buffer is there, and not the caller's. *)
Record entry_ok (s : ust) (i : nat) (x : request * user_req) : Prop := {
  en_id : req_id (fst x) = i;
  en_payload : payload_ok (user_buffer (snd x)) (r_payload_size (req_f (fst x)));
  en_dma : has_payload (user_buffer (snd x)) (r_payload_size (req_f (fst x))) = true ->
    exists b l, payload_buf (fst x) = Some b /\ mem (u_pst s) !! b = Some l
      /\ Z.of_nat (length l) = r_payload_size (req_f (fst x)) /\ m0 !! b = None }.

Record uinv (s : ust) : Prop := {
  ui_entry : forall i x, u_live s !! i = Some x -> entry_ok s i x;
  ui_unique : forall i j x y b, u_live s !! i = Some x -> u_live s !! j = Some y ->
    dma_of x = Some b -> dma_of y = Some b -> i = j;
  ui_user : forall b l, m0 !! b = Some l -> exists l', mem (u_pst s) !! b = Some l' /\ length l' = length l;
  ui_dma : forall b, is_Some (mem (u_pst s) !! b) ->
    is_Some (m0 !! b) \/ exists i x, u_live s !! i = Some x /\ dma_of x = Some b;
  ui_nodup : NoDup (free_req (u_qpair s));
  ui_ids : forall i, i ∈ free_req (u_qpair s) -> u_live s !! i = None /\ (1 <= i <= N)%nat;
  ui_range : forall i, is_Some (u_live s !! i) -> (1 <= i <= N)%nat;
  ui_size : (length (free_req (u_qpair s)) + size (u_live s) = N)%nat;
  ui_out : num_outstanding_reqs (u_qpair s) = Z.of_nat (size (u_live s)) }.

Lemma range_user s p n :
  uinv s -> in_range m0 p n -> in_range (mem (u_pst s)) p n.
Proof.
  intros HI (b & off & l & -> & Hl & Ho & Hr). destruct (ui_user s HI b l Hl) as (l' & Hl' & El).
  exists b, off, l'. split_and!; (done || lia).
Qed.

(** ** Issuing *)

(** The request a command gets, and the state when it is accepted; [b] is its
    buffer with the bytes [l]. *)
Definition user_request (i : nat) (b : option nat) (n : Z) (c : nvme_cmd) : request :=
  Request i (Fields CbUser (PayloadContig (dma_addr b) None) 0 0 n 0 None c 0) [].

Definition put_dma (b : option nat) (l : list Z) (m : gmap nat (list Z)) : gmap nat (list Z) :=
  match b with Some b => <[b := l]> m | None => m end.

Definition accept (i : nat) (free : list nat) (b : option nat) (l : list Z) (n : Z) (c : nvme_cmd)
  (u : user_req) (s : ust) : ust :=
  Ust (set_mem (put_dma b l) (u_pst s))
    (Qpair free (num_outstanding_reqs (u_qpair s) + 1))
    (<[i := (user_request i b n c, u)]> (u_live s)) (u_calls s).

(** The buffer [b] with the contents [l] is what a command needs in [s]. *)
Definition dma_ready (s : ust) (p : option (nat * Z)) (n : Z) (h2c : bool) (b : option nat) (l : list Z) : Prop :=
  match b with
  | Some b => has_payload p n = true /\ b <> 0%nat /\ mem (u_pst s) !! b = None
      /\ Z.of_nat (length l) = n
      /\ l = (if h2c then peek (mem (u_pst s)) p n else repeat 0 (Z.to_nat n))
  | None => has_payload p n = false
  end.

Lemma payload_buf_user i b n c : b <> Some 0%nat -> payload_buf (user_request i b n c) = b.
Proof.
  intros Hb. unfold payload_buf, user_request. cbn. destruct b as [b|]; cbn; [|done].
  destruct (Z.eqb_spec (Z.of_nat b) 0); [|by rewrite Nat2Z.id]. destruct b; [done|lia].
Qed.

Context (H_N : Z.of_nat N < 2 ^ 32).

Lemma outstanding_small s : uinv s -> 0 <= num_outstanding_reqs (u_qpair s) < 2 ^ 32.
Proof. intros HI. rewrite (ui_out s HI). pose proof (ui_size s HI). lia. Qed.

Lemma alloc_empty s pl n :
  free_req (u_qpair s) = [] -> on_qpair (nvme_allocate_request pl n 0) s = Ok (None, s).
Proof.
  intros Ef. unfold on_qpair, nvme_allocate_request. cbn. unfold mbind, M_bind, get. rewrite Ef. cbn.
  by destruct s.
Qed.

Lemma alloc_some s pl n i free :
  free_req (u_qpair s) = i :: free -> 0 <= num_outstanding_reqs (u_qpair s) + 1 < 2 ^ 32 ->
  on_qpair (nvme_allocate_request pl n 0) s
  = Ok (Some (Request i (Fields CbUser pl 0 0 n 0 None cmd0 0) []),
        Ust (u_pst s) (Qpair free (num_outstanding_reqs (u_qpair s) + 1)) (u_live s) (u_calls s)).
Proof.
  intros Ef Ho. unfold on_qpair, nvme_allocate_request. cbn. unfold mbind, M_bind, get. rewrite Ef. cbn.
  by rewrite wrap_small.
Qed.

Lemma free_dma_ok s p n h2c b l :
  dma_ready s p n h2c b l -> spdk_free b (with_mem (put_dma b l) s) = Ok (tt, s).
Proof.
  destruct b as [b|]; cbn [dma_ready put_dma].
  - intros (_ & _ & Hb & _). rewrite user_free_buf_ok by (cbn; rewrite lookup_insert_eq; by eexists).
    rewrite with_mem_with_mem. do 2 f_equal. unfold with_mem, set_pst, set_mem. cbn.
    rewrite delete_insert_id by done. by destruct s as [[] ? ? ?].
  - intros _. cbn. unfold with_mem, set_pst, set_mem. by destruct s as [[] ? ? ?].
Qed.

Lemma cleanup_ok s p n h2c b l i c arg :
  dma_ready s p n h2c b l ->
  nvme_cleanup_user_req (user_request i b n c) (UserReq p arg) (with_mem (put_dma b l) s) = Ok (tt, s).
Proof.
  intros Hd. unfold nvme_cleanup_user_req. cbn [user_request req_f r_payload_size user_buffer].
  rewrite <- (free_dma_ok s p n h2c b l Hd). destruct b as [b|].
  - destruct Hd as (-> & Hb0 & _). by rewrite payload_buf_user by congruence.
  - cbn in Hd. by rewrite Hd.
Qed.

Lemma user_free_id_ok s i :
  0 < num_outstanding_reqs (u_qpair s) < 2 ^ 32 ->
  on_qpair (free_id i) s
  = Ok (tt, Ust (u_pst s) (Qpair (i :: free_req (u_qpair s)) (num_outstanding_reqs (u_qpair s) - 1))
              (u_live s) (u_calls s)).
Proof.
  intros Ho. unfold on_qpair, free_id. cbn. unfold mbind, M_bind, get, c_assert.
  rewrite (proj2 (Z.ltb_lt _ _)) by lia. cbn. by rewrite wrap_small by lia.
Qed.

(** The request is allocated and handed to the queue pair, which takes it or
    not; in the second case nothing is left behind. *)
Lemma request_submit_ok E s p n arg h2c c b l :
  uinv s -> dma_ready s p n h2c b l ->
  let s1 := with_mem (put_dma b l) s in
  exists rc s', (r ← request_contig b p n arg;
      match r with
      | None => mret (- ENOMEM)
      | Some (req, u) => submit_user E (set_cmd c req) u
      end) s1 = Ok (rc, s') /\
    (rc <> 0 /\ s' = s \/
     rc = 0 /\ exists i free, free_req (u_qpair s) = i :: free
       /\ s' = accept i free b l n c (UserReq p arg) s).
Proof.
  intros HI Hd. cbn zeta. pose proof (outstanding_small s HI) as Ho. unfold request_contig.
  rewrite M_bind_assoc. destruct (free_req (u_qpair s)) as [|i free] eqn:Ef.
  - erewrite M_bind_ok by (apply alloc_empty; exact Ef). cbn beta match. rewrite M_bind_assoc.
    erewrite M_bind_ok by (by eapply free_dma_ok). exists (- ENOMEM), s. split; [done|]. by left.
  - assert (Hk : num_outstanding_reqs (u_qpair s) + 1 < 2 ^ 32).
    { rewrite (ui_out s HI). pose proof (ui_size s HI) as Hsz. rewrite Ef in Hsz. cbn in Hsz. lia. }
    erewrite M_bind_ok by (apply alloc_some; [exact Ef|cbn; lia]). cbn beta match.
    erewrite M_bind_ok by reflexivity. cbn beta match. unfold submit_user. cbn [set_cmd].
    change (Request i _ []) with (user_request i b n c).
    destruct (Z.eqb_spec (submit_rc E (user_request i b n c)) 0) as [E0|E0].
    + exists 0. eexists. split; [reflexivity|]. right. split; [done|]. by exists i, free.
    + eexists _, s. split; [|left; split; [exact E0|done]].
      set (s2 := Ust (u_pst s) (Qpair free (num_outstanding_reqs (u_qpair s) + 1)) (u_live s) (u_calls s)).
      erewrite M_bind_ok by (apply (cleanup_ok s2 p n h2c b l i c arg); exact Hd).
      erewrite M_bind_ok by (apply user_free_id_ok; cbn; lia).
      unfold s2. cbn [u_qpair u_pst u_live u_calls free_req num_outstanding_reqs req_id user_request].
      rewrite Z.add_simpl_r, <- Ef. by destruct s as [? [] ? ?].
Qed.

Lemma user_copy_cmd_ok E s p n arg h2c c :
  uinv s -> zmalloc_ok E -> payload_ok p n ->
  exists rc s', user_copy_cmd E p n arg h2c c s = Ok (rc, s') /\
    (rc <> 0 /\ s' = s \/
     rc = 0 /\ exists i free b l, free_req (u_qpair s) = i :: free /\ dma_ready s p n h2c b l
       /\ s' = accept i free b l n c (UserReq p arg) s).
Proof.
  intros HI HE [Hn Hp]. unfold user_copy_cmd, nvme_allocate_request_user_copy.
  destruct (has_payload p n) eqn:Hh.
  - rewrite M_bind_assoc. erewrite M_bind_ok by reflexivity.
    destruct (spdk_zmalloc E (mem (u_pst s)) n) as [b|] eqn:Ez.
    2:{ exists (- ENOMEM), s. split; [done|]. by left. }
    destruct (HE _ _ _ Ez) as [Hfresh Hb0].
    assert (0 < n) by (unfold has_payload in Hh; destruct (Z.eqb_spec n 0); [by rewrite andb_false_r in Hh|lia]).
    destruct (user_copy_in_ok s b p n h2c Hfresh ltac:(done) (range_user s p n HI (Hp eq_refl))) as [Hc Hl].
    set (l := if h2c then _ else _) in *.
    rewrite M_bind_assoc, (M_bind_ok _ _ _ _ _ Hc).
    destruct (request_submit_ok E s p n arg h2c c (Some b) l HI) as (rc & s' & Hr & Hcase); [done|].
    exists rc, s'. split; [exact Hr|]. destruct Hcase as [|(-> & i & free & ? & ->)]; [by left|right].
    split; [done|]. by exists i, free, (Some b), l.
  - destruct (request_submit_ok E s p n arg h2c c None [] HI) as (rc & s' & Hr & Hcase); [done|].
    exists rc, s'. split.
    { rewrite <- Hr. f_equal. by destruct s as [[] ? ? ?]. }
    destruct Hcase as [|(-> & i & free & ? & ->)]; [by left|right].
    split; [done|]. by exists i, free, None, [].
Qed.

Lemma dma_of_user s i p n arg h2c c b l :
  dma_ready s p n h2c b l -> dma_of (user_request i b n c, UserReq p arg) = b.
Proof.
  intros Hd. unfold dma_of. cbn [fst snd user_buffer user_request req_f r_payload_size].
  destruct b as [b|]; [|by rewrite Hd]. destruct Hd as (-> & Hb0 & _). by apply payload_buf_user; congruence.
Qed.

(** The buffer of a request is in memory, and not the caller's. *)
Lemma dma_of_mem s i x b :
  uinv s -> u_live s !! i = Some x -> dma_of x = Some b ->
  m0 !! b = None /\ exists l, mem (u_pst s) !! b = Some l
    /\ Z.of_nat (length l) = r_payload_size (req_f (fst x)).
Proof.
  intros HI Hx Hb. unfold dma_of in Hb. destruct (has_payload _ _) eqn:Hh; [|done].
  destruct (ui_entry s HI i x Hx) as [_ _ (b' & l & E & Hl & Hz & Hm)]; [done|].
  assert (b' = b) as -> by congruence. eauto.
Qed.

Lemma uinv_accept s i free b l n c p h2c arg :
  uinv s -> payload_ok p n -> free_req (u_qpair s) = i :: free -> dma_ready s p n h2c b l ->
  uinv (accept i free b l n c (UserReq p arg) s).
Proof.
  intros HI Hp Ef Hd. pose proof (ui_nodup s HI) as Hnd. rewrite Ef in Hnd. apply NoDup_cons in Hnd as [Hni Hnd].
  destruct (ui_ids s HI i) as [Hi Hi1]; [rewrite Ef; by left|].
  pose proof (dma_of_user s i p n arg h2c c b l Hd) as Edma.
  assert (Hput : forall k v, mem (u_pst s) !! k = Some v -> put_dma b l (mem (u_pst s)) !! k = Some v).
  { intros k v Hk. destruct b as [b|]; [|done]. destruct Hd as (_ & _ & Hb & _). cbn.
    rewrite lookup_insert_ne; [done|]. intros ->. by rewrite Hk in Hb. }
  constructor; cbn [accept u_live u_pst u_qpair u_calls free_req num_outstanding_reqs mem set_mem].
  - intros j x [[<- <-]|[Hj Hx]]%lookup_insert_Some.
    + constructor; [done|done|]. intros Hh. cbn in Hh. cbn [fst]. destruct b as [b|]; [|by rewrite Hd in Hh].
      destruct Hd as (_ & Hb0 & Hb & Hl & _). exists b, l. rewrite payload_buf_user by congruence. cbn.
      rewrite lookup_insert_eq. split_and!; try done. destruct (m0 !! b) eqn:Em; [|done].
      destruct (ui_user s HI b _ Em) as (? & ? & _). congruence.
    + destruct (ui_entry s HI j x Hx) as [E1 E2 E3]. constructor; [done|done|]. intros Hh.
      destruct (E3 Hh) as (b' & l' & ? & Hl' & ?). exists b', l'. split; [done|]. split; [by apply Hput|done].
  - assert (Hnew : forall j y k, u_live s !! j = Some y -> dma_of y = Some k -> b <> Some k).
    { intros j y k Hy Hk ->. destruct Hd as (_ & _ & Hb & _).
      destruct (dma_of_mem s j y k HI Hy Hk) as (_ & l' & Hl' & _). congruence. }
    intros j1 j2 x y k Hx%lookup_insert_Some Hy%lookup_insert_Some Kx Ky.
    destruct Hx as [[<- <-]|[_ Hx]], Hy as [[<- <-]|[_ Hy]]; [done| | |by eapply (ui_unique s HI)];
      exfalso; (eapply Hnew; [eassumption..|congruence]).
  - intros k v Hk. destruct (ui_user s HI k v Hk) as (v' & Hv & Hl). exists v'. split; [by apply Hput|done].
  - intros k [v Hv]. assert (Hk : b = Some k \/ is_Some (mem (u_pst s) !! k)).
    { destruct b as [b|]; [|right; by exists v]. cbn in Hv. apply lookup_insert_Some in Hv as [[-> _]|[_ Hv]];
        [by left|right; by exists v]. }
    destruct Hk as [->|Hk].
    + right. exists i, (user_request i (Some k) n c, UserReq p arg). by rewrite lookup_insert_eq.
    + destruct (ui_dma s HI k Hk) as [?|(j & x & Hx & ?)]; [by left|right]. exists j, x. split; [|done].
      rewrite lookup_insert_ne; [done|]. intros ->. congruence.
  - done.
  - intros j Hj. destruct (ui_ids s HI j) as [Hj1 Hj2]; [rewrite Ef; by right|].
    rewrite lookup_insert_ne by (intros ->; done). done.
  - intros j. rewrite lookup_insert_is_Some. intros [->|[_ Hj]]; [done|by apply (ui_range s HI)].
  - rewrite map_size_insert_None by done. pose proof (ui_size s HI) as Hs. rewrite Ef in Hs. cbn in Hs. lia.
  - rewrite map_size_insert_None by done. rewrite (ui_out s HI). lia.
Qed.

Lemma run_ucmd_ok E s c arg :
  uinv s -> zmalloc_ok E -> payload_ok (ucmd_payload c) (ucmd_size c) ->
  exists rc s', run_ucmd E ns c arg s = Ok (rc, s') /\
    (rc <> 0 /\ s' = s \/
     rc = 0 /\ exists i free b l h2c cmd, free_req (u_qpair s) = i :: free
       /\ dma_ready s (ucmd_payload c) (ucmd_size c) h2c b l
       /\ s' = accept i free b l (ucmd_size c) cmd (UserReq (ucmd_payload c) arg) s).
Proof.
  intros HI HE Hp.
  assert (Hinval : exists rc s', (mret (- EINVAL) : M ust Z) s = Ok (rc, s') /\ rc <> 0 /\ s' = s)
    by (by exists (- EINVAL), s).
  assert (Hgo : forall h2c cmd, exists rc s',
    user_copy_cmd E (ucmd_payload c) (ucmd_size c) arg h2c cmd s = Ok (rc, s') /\
    (rc <> 0 /\ s' = s \/
     rc = 0 /\ exists i free b l h2c cmd, free_req (u_qpair s) = i :: free
       /\ dma_ready s (ucmd_payload c) (ucmd_size c) h2c b l
       /\ s' = accept i free b l (ucmd_size c) cmd (UserReq (ucmd_payload c) arg) s)).
  { intros h2c cmd. destruct (user_copy_cmd_ok E s _ _ arg h2c cmd HI HE Hp) as (rc & s' & Hr & Hcase).
    exists rc, s'. split; [done|]. destruct Hcase as [|(-> & i & free & b & l & ? & ? & ->)]; [by left|right].
    split; [done|]. by exists i, free, b, l, h2c, cmd. }
  destruct Hinval as (rc1 & s1 & R1 & N1 & S1).
  destruct c; cbn [run_ucmd ucmd_payload ucmd_size] in *;
    unfold spdk_nvme_ns_cmd_dataset_management, spdk_nvme_ns_cmd_copy, spdk_nvme_ns_cmd_reservation_register,
      spdk_nvme_ns_cmd_reservation_release, spdk_nvme_ns_cmd_reservation_acquire,
      spdk_nvme_ns_cmd_reservation_report, spdk_nvme_ns_cmd_io_mgmt_recv, spdk_nvme_ns_cmd_io_mgmt_send;
    repeat case_match; try apply Hgo; exists rc1, s1; (split; [exact R1|by left]).
Qed.

(** ** The controller and completions *)

Lemma shape_some m m' b l : same_shape m m' -> m !! b = Some l -> exists l', m' !! b = Some l' /\ length l' = length l.
Proof.
  intros Hs Hl. specialize (Hs b). rewrite Hl in Hs. cbn in Hs. destruct (m' !! b) as [l'|]; [|done].
  injection Hs as Hs. eauto.
Qed.

(** The invariant depends on the lengths of the buffers only. *)
Lemma uinv_shape s m' :
  uinv s -> same_shape (mem (u_pst s)) m' -> uinv (with_mem (fun _ => m') s).
Proof.
  intros HI Hs. constructor; cbn [with_mem set_pst u_live u_pst u_qpair u_calls mem set_mem]; try apply HI.
  - intros i x Hx. destruct (ui_entry s HI i x Hx) as [E1 E2 E3]. constructor; [done|done|]. intros Hh.
    destruct (E3 Hh) as (b & l & Hb & Hl & Hz & Hm). destruct (shape_some _ _ _ _ Hs Hl) as (l' & Hl' & El).
    exists b, l'. cbn. split_and!; (done || lia).
  - intros b l Hb. destruct (ui_user s HI b l Hb) as (l1 & Hl1 & E1).
    destruct (shape_some _ _ _ _ Hs Hl1) as (l2 & Hl2 & E2). exists l2. split; [done|lia].
  - intros b [l Hb]. apply (ui_dma s HI). specialize (Hs b). rewrite Hb in Hs. cbn in Hs.
    destruct (mem (u_pst s) !! b); [by eexists|done].
Qed.

(** The state after a completion that leaves the memory [m']. *)
Definition completed (i : nat) (arg cpl : Z) (m' : gmap nat (list Z)) (s : ust) : ust :=
  Ust (set_mem (fun _ => m') (u_pst s))
    (Qpair (i :: free_req (u_qpair s)) (num_outstanding_reqs (u_qpair s) - 1))
    (delete i (u_live s)) (u_calls s ++ [(arg, cpl)]).

(** What the caller's memory gets. *)
Definition copied_back (x : request * user_req) (m : gmap nat (list Z)) : gmap nat (list Z) :=
  let xfer := spdk_nvme_opc_get_data_transfer (cmd_opc (r_cmd (req_f (fst x)))) in
  match dma_of x with
  | Some b =>
      delete b (if (xfer =? SPDK_NVME_DATA_CONTROLLER_TO_HOST) || (xfer =? SPDK_NVME_DATA_BIDIRECTIONAL)
                then poke (user_buffer (snd x)) (default [] (m !! b)) m else m)
  | None => m
  end.

Lemma payload_pos p n : 0 <= n -> has_payload p n = true -> 0 < n.
Proof.
  intros Hn Hh. unfold has_payload in Hh. destruct (Z.eqb_spec n 0); [by rewrite andb_false_r in Hh|lia].
Qed.

(** The copy to the caller, before the buffer is freed. *)
Lemma copy_back_ok s b l p n :
  mem (u_pst s) !! b = Some l -> Z.of_nat (length l) = n -> 0 < n -> in_range (mem (u_pst s)) p n ->
  (bs ← on_mem (mem_read (Some (b, 0)) n); on_mem (mem_write p bs)) s = Ok (tt, with_mem (poke p l) s).
Proof.
  intros Hb Hl Hn Hp. assert (Hr : in_range (mem (u_pst s)) (Some (b, 0)) n) by (exists b, 0, l; split_and!; (done || lia)).
  erewrite M_bind_ok by (apply on_mem_ok, mem_read_ok; done).
  assert (E : peek (mem (u_pst s)) (Some (b, 0)) n = l) by (cbn; rewrite Hb; cbn; rewrite drop_0; apply take_ge; lia).
  rewrite E. change (set_pst (u_pst s) s) with (Ust (u_pst s) (u_qpair s) (u_live s) (u_calls s)).
  erewrite on_mem_ok; [done|]. apply mem_write_ok. right. by rewrite Hl.
Qed.

Lemma user_finish_ok r u cpl s m' :
  nvme_cleanup_user_req r u s = Ok (tt, with_mem (fun _ => m') s) ->
  (_ ← nvme_cleanup_user_req r u;
   modify (fun s => Ust (u_pst s) (u_qpair s) (u_live s) (u_calls s ++ [(user_cb_arg u, cpl)]))) s
  = Ok (tt, Ust (set_mem (fun _ => m') (u_pst s)) (u_qpair s) (u_live s) (u_calls s ++ [(user_cb_arg u, cpl)])).
Proof. intros H. by rewrite (M_bind_ok _ _ _ _ _ H). Qed.

Lemma user_complete_ok s i x cpl :
  entry_ok s i x -> (forall p n, in_range m0 p n -> in_range (mem (u_pst s)) p n) ->
  nvme_user_copy_cmd_complete (fst x) (snd x) cpl s
  = Ok (tt, Ust (set_mem (fun _ => copied_back x (mem (u_pst s))) (u_pst s)) (u_qpair s) (u_live s)
              (u_calls s ++ [(user_cb_arg (snd x), cpl)])).
Proof.
  intros [E1 [Hn Hp] E3] Hrange. destruct x as [r u]. cbn [fst snd] in *. unfold nvme_user_copy_cmd_complete, copied_back, dma_of.
  cbn [fst snd]. destruct (has_payload _ _) eqn:Hh.
  2:{ erewrite M_bind_ok by reflexivity. apply user_finish_ok. unfold nvme_cleanup_user_req. rewrite Hh. by destruct s as [[] ? ? ?]. }
  destruct (E3 eq_refl) as (b & l & Hb & Hl & Hz & Hm). rewrite Hb. cbn [fmap option_fmap option_map].
  pose proof (payload_pos _ _ Hn Hh) as Hpos. pose proof (Hrange _ _ (Hp eq_refl)) as Hin.
  set (c2h := (_ =? _) || _). rewrite Hl. cbn [default].
  assert (Hcopy : (if c2h then bs ← on_mem (mem_read (Some (b, 0)) (r_payload_size (req_f r)));
                     on_mem (mem_write (user_buffer u) bs) else mret tt) s
    = Ok (tt, with_mem (if c2h then poke (user_buffer u) l else id) s)).
  { destruct c2h; [by apply copy_back_ok|]. by destruct s as [[] ? ? ?]. }
  rewrite (M_bind_ok _ _ _ _ _ Hcopy).
  set (m1 := if c2h then poke (user_buffer u) l (mem (u_pst s)) else mem (u_pst s)).
  assert (Em : (if c2h then poke (user_buffer u) l else id) (mem (u_pst s)) = m1) by (unfold m1; by destruct c2h).
  assert (Hb1 : is_Some (m1 !! b)).
  { unfold m1. destruct c2h; [|by eexists]. destruct (Hp eq_refl) as (c & off & lc & -> & Hc & _).
    rewrite poke_other; [by eexists|]. congruence. }
  erewrite user_finish_ok with (m' := delete b m1).
  - cbn. unfold m1. by destruct c2h.
  - unfold nvme_cleanup_user_req. rewrite Hh, Hb, user_free_buf_ok by (cbn; by rewrite Em).
    unfold with_mem, set_pst, set_mem. cbn. by rewrite Em.
Qed.

Lemma complete_user_ok s i x cpl :
  uinv s -> u_live s !! i = Some x ->
  complete_user i cpl s
  = Ok (tt, completed i (user_cb_arg (snd x)) cpl (copied_back x (mem (u_pst s))) s).
Proof.
  intros HI Hx. pose proof (ui_entry s HI i x Hx) as [E1 E2 E3].
  assert (Hsz : (1 <= size (u_live s))%nat).
  { destruct (size (u_live s)) eqn:Es; [|lia]. apply map_size_empty_inv in Es. by rewrite Es, lookup_empty in Hx. }
  pose proof (outstanding_small s HI) as Ho. rewrite (ui_out s HI) in Ho.
  unfold complete_user. erewrite M_bind_ok by reflexivity. rewrite Hx. cbn [lift_opt].
  erewrite M_bind_ok by reflexivity. destruct x as [r u]. erewrite M_bind_ok by reflexivity.
  erewrite M_bind_ok by (apply user_free_id_ok; cbn; rewrite (ui_out s HI); lia). cbn [set_live u_pst u_qpair u_live u_calls].
  etrans; [refine (user_complete_ok _ i (r, u) cpl _ _); [by constructor|]|done]. intros p n. exact (range_user s p n HI).
Qed.

Lemma copied_back_lookup s i x k :
  uinv s -> u_live s !! i = Some x -> dma_of x <> Some k ->
  length <$> copied_back x (mem (u_pst s)) !! k = length <$> mem (u_pst s) !! k.
Proof.
  intros HI Hx Hk. unfold copied_back. destruct (dma_of x) as [b|] eqn:Eb; [|done].
  destruct (dma_of_mem s i x b HI Hx Eb) as (Hm & l & Hl & Hz). rewrite lookup_delete_ne by congruence.
  destruct ((_ =? _) || _); [|done]. destruct (ui_entry s HI i x Hx) as [_ [_ Hp] _].
  rewrite Hl. cbn [default]. apply poke_shape. right. unfold zlen, id. rewrite Hz. apply range_user; [done|].
  apply Hp. unfold dma_of in Eb. by destruct (has_payload _ _).
Qed.

Lemma copied_back_dma s i x b :
  uinv s -> u_live s !! i = Some x -> dma_of x = Some b -> copied_back x (mem (u_pst s)) !! b = None.
Proof. intros HI Hx Eb. unfold copied_back. rewrite Eb. apply lookup_delete_eq. Qed.

Lemma uinv_completed s i x arg cpl :
  uinv s -> u_live s !! i = Some x ->
  uinv (completed i arg cpl (copied_back x (mem (u_pst s))) s).
Proof.
  intros HI Hx. pose proof (ui_range s HI i ltac:(by eexists)) as Hi.
  assert (Hkeep : forall k l, dma_of x <> Some k -> mem (u_pst s) !! k = Some l ->
    exists l', copied_back x (mem (u_pst s)) !! k = Some l' /\ length l' = length l).
  { intros k l Hk Hl. pose proof (copied_back_lookup s i x k HI Hx Hk) as E. rewrite Hl in E.
    destruct (copied_back _ _ !! k) as [l'|]; [|done]. injection E as E. eauto. }
  assert (Hsz : size (delete i (u_live s)) = Nat.pred (size (u_live s))) by (apply map_size_delete_Some; by eexists).
  assert (Hs1 : (1 <= size (u_live s))%nat).
  { destruct (size (u_live s)) eqn:Es; [|lia]. apply map_size_empty_inv in Es. by rewrite Es, lookup_empty in Hx. }
  constructor; cbn [completed u_live u_pst u_qpair u_calls free_req num_outstanding_reqs mem set_mem].
  - intros j y [Hj Hy]%lookup_delete_Some. destruct (ui_entry s HI j y Hy) as [E1 E2 E3].
    constructor; [done|done|]. intros Hh. destruct (E3 Hh) as (b & l & Hb & Hl & Hz & Hm).
    destruct (Hkeep b l) as (l' & Hl' & El); [|done|].
    { intros E. apply Hj. eapply (ui_unique s HI i j); [done|done|exact E|]. unfold dma_of. by rewrite Hh. }
    exists b, l'. cbn. split_and!; (done || lia).
  - intros j1 j2 y z b [_ H1]%lookup_delete_Some [_ H2]%lookup_delete_Some. by apply (ui_unique s HI).
  - intros b l Hb. destruct (ui_user s HI b l Hb) as (l1 & Hl1 & El). destruct (Hkeep b l1) as (l2 & ? & ?); [|done|].
    + intros E. destruct (dma_of_mem s i x b HI Hx E). congruence.
    + exists l2. split; [done|lia].
  - intros b [l Hb]. destruct (decide (dma_of x = Some b)) as [E|E].
    { by rewrite (copied_back_dma s i x b HI Hx E) in Hb. }
    pose proof (copied_back_lookup s i x b HI Hx E) as El. rewrite Hb in El.
    destruct (ui_dma s HI b) as [?|(j & y & Hy & Ey)]; [destruct (mem (u_pst s) !! b); [by eexists|done]|by left|].
    right. exists j, y. split; [|done]. apply lookup_delete_Some. split; [|done]. intros ->. congruence.
  - apply NoDup_cons. split; [|apply HI]. intros Hin. destruct (ui_ids s HI i Hin). congruence.
  - intros j [->|Hj]%elem_of_cons; [by rewrite lookup_delete_eq|].
    destruct (ui_ids s HI j Hj) as [Hn Hr]. by rewrite lookup_delete_None; auto.
  - intros j [y [_ Hy]%lookup_delete_Some]. apply (ui_range s HI). by eexists.
  - cbn. rewrite Hsz. pose proof (ui_size s HI). lia.
  - rewrite Hsz, (ui_out s HI). lia.
Qed.

End History.
