(* ===== verification/UserWire.v ===== *)
(** * How the target reads the payload of a command

    The structures of a payload as bytes, and the target's code that reads them
    from the iovecs of a request: the ranges of a deallocate and of a copy
    (lib/nvmf/ctrlr_bdev.c) and the keys of the reservation commands
    (lib/nvmf/subsystem.c). *)

From S2P Require Import Prelude Reservation NsCmd Pipe PipeLemmas IovLemmas Dif DifMem IovXfer.

(** ** Little-endian fields *)

Fixpoint le_val (bs : list Z) : Z :=
  match bs with [] => 0 | b :: bs' => b + 256 * le_val bs' end.

Lemma le_val_bytes n x : 0 <= x < 256 ^ Z.of_nat n -> le_val (le_bytes n x) = x.
Proof.
  revert x. induction n as [|n IH]; intros x Hx; cbn [le_bytes le_val]; [cbn in Hx; lia|].
  rewrite Nat2Z.inj_succ, Z.pow_succ_r in Hx by lia.
  rewrite IH; [pose proof (Z.div_mod x 256); lia|]. split; [apply Z.div_pos; lia|].
  apply Z.div_lt_upper_bound; lia.
Qed.

(** ** Ranges *)

(** struct spdk_nvme_dsm_range: attributes, length and first block. *)
Record dsm_range := DsmRange { dr_attributes : Z; dr_length : Z; dr_starting_lba : Z }.

Definition dsm_range_bytes (r : dsm_range) : list Z :=
  le_bytes 4 (dr_attributes r) ++ le_bytes 4 (dr_length r) ++ le_bytes 8 (dr_starting_lba r).

(** starting_lba and length of the bytes of a range. *)
Definition range_of_bytes (bs : list Z) : Z * Z := (le_val (slice bs 8 8), le_val (slice bs 4 4)).

Definition dsm_range_ok (r : dsm_range) : Prop :=
  0 <= dr_length r < 2 ^ 32 /\ 0 <= dr_starting_lba r < 2 ^ 64.

(** A local variable [var] of [size] bytes, zeroed, is filled through the
    transfer and read. *)
Definition read_struct (var : nat) (size : Z) (ix : iov_xfer_t) : M pst (list Z * iov_xfer_t) :=
  _ ← mem_write (Some (var, 0)) (repeat 0 (Z.to_nat size));
  '(_, ix) ← spdk_iov_xfer_to_buf ix (Some (var, 0)) size;
  bs ← mem_read (Some (var, 0)) size;
  mret (bs, ix).

(** One turn of the loop over the ranges. *)
Definition read_range (var : nat) (ix : iov_xfer_t) : M pst ((Z * Z) * iov_xfer_t) :=
  '(bs, ix) ← read_struct var 16 ix; mret (range_of_bytes bs, ix).

(** The ranges the loop sees, from range [0] on. *)
Fixpoint read_ranges (var : nat) (nr : nat) (ix : iov_xfer_t) : M pst (list (Z * Z)) :=
  match nr with
  | O => mret []
  | S nr' =>
      '(r, ix) ← read_range var ix;
      rs ← read_ranges var nr' ix;
      mret (r :: rs)
  end.

(** The keys of Register and Acquire (16 bytes) or Release (8 bytes). *)
Definition read_keys (var : nat) (size : Z) (iovs : list iovec) : M pst (Z * Z) :=
  '(bs, _) ← read_struct var size (spdk_iov_xfer_init iovs);
  mret (le_val (slice bs 0 8), le_val (slice bs 8 8)).

(** ** What they read *)

Lemma dsm_range_bytes_zlen r : zlen (dsm_range_bytes r) = 16.
Proof. unfold zlen, dsm_range_bytes. by rewrite !length_app, !le_bytes_length. Qed.

Lemma range_of_dsm r : dsm_range_ok r -> range_of_bytes (dsm_range_bytes r) = (dr_starting_lba r, dr_length r).
Proof.
  intros [Hl Hs]. unfold range_of_bytes, dsm_range_bytes, slice. f_equal.
  - rewrite app_assoc. change (Z.to_nat 8) with 8%nat.
    rewrite drop_app_length' by (by rewrite length_app, !le_bytes_length).
    rewrite take_ge by (by rewrite le_bytes_length). by apply le_val_bytes.
  - change (Z.to_nat 4) with 4%nat. rewrite drop_app_length' by (by rewrite le_bytes_length).
    rewrite take_app_length' by (by rewrite le_bytes_length). by apply le_val_bytes.
Qed.

(** The local variable, apart from the payload. *)
Record var_ok (st : pst) (vs : list iovec) (var : nat) (size : Z) : Prop := {
  vo_mem : exists l, mem st !! var = Some l /\ zlen l = size;
  vo_apart : Forall (fun v => sep v (Iov (Some (var, 0)) size)) vs }.

Lemma var_iov st vs var size :
  var_ok st vs var size -> 0 < size < 2 ^ 32 -> iov_ok (mem st) [Iov (Some (var, 0)) size].
Proof.
  intros [(l & Hl & Hz) _] Hs. constructor.
  - constructor; [|constructor]. right. cbn. split; [lia|]. exists var, 0, l. unfold zlen in Hz. split_and!; (done || lia).
  - constructor; [cbn; lia|constructor].
  - repeat constructor.
Qed.

(** A structure of [size] bytes read at byte [p]. *)
Lemma read_struct_ok vs var size ix p st :
  iov_ok (mem st) vs -> var_ok st vs var size -> 0 < size < 2 ^ 32 -> xfer_at vs ix p ->
  p + size <= iov_total vs ->
  exists ix' st', read_struct var size ix st = Ok ((slice (iov_bytes (mem st) vs) p size, ix'), st')
    /\ xfer_at vs ix' (p + size) /\ iov_ok (mem st') vs /\ var_ok st' vs var size
    /\ iov_bytes (mem st') vs = iov_bytes (mem st) vs.
Proof.
  intros Hv Hvar Hs Hat Hp. pose proof Hvar as [_ Ha]. pose proof (var_iov _ _ _ _ Hvar Hs) as Hb.
  set (bv := Iov (Some (var, 0)) size) in *.
  assert (Hd : disj [bv] vs).
  { apply disj_sym. eapply Forall_impl; [exact Ha|]. intros v Hsep. by constructor. }
  assert (Hp0 : at_pos [bv] (Sgl [bv] 0) 0) by (exists []; split_and!; (done || by left)).
  assert (Ez : zlen (repeat 0 (Z.to_nat size)) = size) by (unfold zlen; rewrite repeat_length; lia).
  destruct (write_at [bv] (Sgl [bv] 0) 0 0 (repeat 0 (Z.to_nat size)) st) as (m1 & W1 & C1 & B1);
    [done|done|lia|cbn; lia|].
  change (ptr_add (cur (Sgl [bv] 0)) 0) with (Some (var, 0)) in W1. unfold read_struct. rewrite (M_bind_ok _ _ _ _ _ W1).
  pose proof (changed_bytes _ _ _ vs C1 (io_fits_ _ _ Hv) Hd) as E1.
  set (st1 := set_mem (fun _ => m1) st) in *.
  assert (Hb1 : iov_ok m1 [bv]) by (by eapply iov_ok_changed).
  destruct (iov_xfer_ok vs bv Ha true ix p st1) as (m2 & ix2 & R2 & A2 & [C2 B2]);
    [by eapply iov_ok_changed|done|done|]. cbn [st1 mem set_mem src dst] in *.
  replace (Z.min (iov_len bv) (iov_total vs - p)) with size in * by (cbn; lia).
  unfold spdk_iov_xfer_to_buf. rewrite (M_bind_ok _ _ _ _ _ R2). cbn beta match.
  pose proof (changed_bytes _ _ _ vs C2) as E2. rewrite E1 in E2, B2.
  assert (Hf1 : fits m1 vs) by (by eapply io_fits_, iov_ok_changed).
  pose proof (xfer_at_bounds _ _ _ _ (io_fits_ _ _ Hv) Hat) as Hpb.
  assert (Es : zlen (slice (iov_bytes (mem st) vs) p size) = size)
    by (apply slice_zlen; rewrite ?bytes_zlen by apply Hv; lia).
  assert (Eb : iov_bytes m2 [bv] = slice (iov_bytes (mem st) vs) p size).
  { rewrite B2. apply splice_whole. rewrite Es, bytes_zlen by apply Hb1.
    rewrite total_cons. change (iov_total []) with 0. cbn [iov_len bv]. lia. }
  assert (Hb2 : iov_ok m2 [bv]) by (by eapply iov_ok_changed).
  set (X := slice (iov_bytes (mem st) vs) p size) in *.
  assert (R3 : mem_read (Some (var, 0)) size (set_mem (fun _ => m2) st) = Ok (X, set_mem (fun _ => m2) st)).
  { change (Some (var, 0)) with (ptr_add (cur (Sgl [bv] 0)) 0).
    rewrite (read_at [bv] (Sgl [bv] 0) 0 0 size) by (done || cbn; lia). cbn [mem set_mem].
    rewrite Eb. do 2 f_equal. rewrite <- Es at 1. by rewrite slice_all. }
  rewrite (M_bind_ok _ _ _ _ _ R3). exists ix2, (set_mem (fun _ => m2) st). cbn [mem set_mem].
  split_and!; [done|done|by eapply iov_ok_changed, iov_ok_changed| |by apply E2].
  constructor; [|done]. destruct Hvar as [(l & Hl & Hz) _]. destruct C1 as [S1 _], C2 as [S2 _].
  specialize (S1 var). specialize (S2 var). cbn [mem set_mem]. rewrite S1, Hl in S2. cbn in S2.
  destruct (m2 !! var) as [l2|]; [|done]. injection S2 as S2. exists l2. split; [done|]. unfold zlen in *. lia.
Qed.

(** The ranges, from byte [p] of the payload on. *)
Lemma read_ranges_ok vs var rs ix p st :
  iov_ok (mem st) vs -> var_ok st vs var 16 -> xfer_at vs ix p ->
  p + 16 * Z.of_nat (length rs) <= iov_total vs ->
  slice (iov_bytes (mem st) vs) p (16 * Z.of_nat (length rs)) = concat (map dsm_range_bytes rs) ->
  Forall dsm_range_ok rs ->
  exists st', read_ranges var (length rs) ix st
    = Ok (map (fun r => (dr_starting_lba r, dr_length r)) rs, st').
Proof.
  revert ix p st. induction rs as [|r rs IH]; intros ix p st Hv Hvar Hat Hp Hb Hok; cbn [read_ranges length map].
  { by exists st. }
  apply Forall_cons in Hok as [Hr Hok]. cbn [length map concat] in Hp, Hb.
  pose proof (xfer_at_bounds _ _ _ _ (io_fits_ _ _ Hv) Hat) as Hpb.
  replace (16 * Z.of_nat (S (length rs))) with (16 + 16 * Z.of_nat (length rs)) in * by lia.
  rewrite slice_app in Hb by lia. apply app_inj_1 in Hb as [Hb1 Hb2].
  2:{ pose proof (dsm_range_bytes_zlen r) as Z1.
      assert (Z2 : zlen (slice (iov_bytes (mem st) vs) p 16) = 16)
        by (apply slice_zlen; rewrite ?bytes_zlen by apply Hv; lia). unfold zlen in *. lia. }
  destruct (read_struct_ok vs var 16 ix p st Hv Hvar ltac:(lia) Hat ltac:(lia))
    as (ix1 & st1 & R1 & A1 & V1 & W1 & B1).
  rewrite Hb1 in R1. unfold read_range. rewrite M_bind_assoc, (M_bind_ok _ _ _ _ _ R1). cbn beta match.
  erewrite M_bind_ok by reflexivity. cbn beta match. rewrite range_of_dsm by done.
  destruct (IH ix1 (p + 16) st1) as (st2 & R2); try done; [lia|by rewrite B1|].
  rewrite (M_bind_ok _ _ _ _ _ R2). by exists st2.
Qed.

Lemma read_keys_ok vs var size l st :
  iov_ok (mem st) vs -> var_ok st vs var size -> 0 < size < 2 ^ 32 -> size <= iov_total vs ->
  slice (iov_bytes (mem st) vs) 0 size = l ->
  exists st', read_keys var size vs st = Ok ((le_val (slice l 0 8), le_val (slice l 8 8)), st').
Proof.
  intros Hv Hvar Hs Ht <-. destruct (read_struct_ok vs var size (spdk_iov_xfer_init vs) 0 st)
    as (ix1 & st1 & R1 & _); [done|done|lia|by eapply xfer_at_init, io_fits_|lia|].
  exists st1. unfold read_keys. by rewrite (M_bind_ok _ _ _ _ _ R1).
Qed.

Lemma keys_fields k0 k1 :
  0 <= k0 < 2 ^ 64 -> 0 <= k1 < 2 ^ 64 ->
  le_val (slice (le_bytes 8 k0 ++ le_bytes 8 k1) 0 8) = k0
  /\ le_val (slice (le_bytes 8 k0 ++ le_bytes 8 k1) 8 8) = k1.
Proof.
  intros H0 H1. unfold slice. change (Z.to_nat 8) with 8%nat. split.
  - rewrite drop_0, take_app_length' by (by rewrite le_bytes_length). by apply le_val_bytes.
  - rewrite drop_app_length' by (by rewrite le_bytes_length).
    rewrite take_ge by (by rewrite le_bytes_length). by apply le_val_bytes.
Qed.

Lemma key_field k0 :
  0 <= k0 < 2 ^ 64 ->
  le_val (slice (le_bytes 8 k0) 0 8) = k0 /\ le_val (slice (le_bytes 8 k0) 8 8) = 0.
Proof.
  intros H0. unfold slice. change (Z.to_nat 8) with 8%nat. split.
  - rewrite drop_0, take_ge by (by rewrite le_bytes_length). by apply le_val_bytes.
  - by rewrite drop_ge by (by rewrite le_bytes_length).
Qed.
