(* ===== verification/UserCmdTheorems.v ===== *)
(** * Commands with a copied payload, from the caller to the target

    The copies of the payloads are freed on every path and requests complete
    once; data from the controller reaches the caller; and the target decodes
    from the command and the payload what the caller passed to the driver. *)

From S2P Require Import Prelude Reservation NsCmd Pipe PipeLemmas IovLemmas Dif DifMem IovXfer.
From S2P Require Import NvmfBdev NvmfIo NvmfLemmas NvmfTheorems.
From S2P Require Import UserCmd UserCmdLemmas UserWire.

(** ** Histories *)

Section Histories.
Context (ns : nvme_ns) (m0 : gmap nat (list Z)) (N : nat).
Hypothesis H_N : Z.of_nat N < 2 ^ 32.

Definition ustart : ust := Ust (Pst m0 ∅ ∅) (Qpair (seq 1 N) 0) ∅ [].

(** [s] is reached by the events [es], which returned [rcs]. *)
Inductive uruns : list uevent -> list Z -> ust -> Prop :=
  | uruns_start : uruns [] [] ustart
  | uruns_step es rcs s e rc s' :
      uruns es rcs s -> uvalid m0 s e -> ustep ns e s = Ok (rc, s') ->
      uruns (es ++ [e]) (rcs ++ [rc]) s'.

(** The arguments of the commands that have not been called back. *)
Definition pending_args (s : ust) : list Z :=
  map (fun '(_, x) => user_cb_arg (snd x)) (map_to_list (u_live s)).

Lemma uinv_start : uinv m0 N ustart.
Proof.
  constructor; cbn.
  - intros i x. by rewrite lookup_empty.
  - intros i j x y b. by rewrite lookup_empty.
  - eauto.
  - eauto.
  - apply NoDup_seq.
  - intros i Hi%elem_of_seq. rewrite lookup_empty. split; [done|lia].
  - intros i [x Hx]. by rewrite lookup_empty in Hx.
  - rewrite length_seq, map_size_empty. lia.
  - by rewrite map_size_empty.
Qed.

Lemma dma_step_ok s i x b l bs :
  u_live s !! i = Some x -> dma_of x = Some b -> mem (u_pst s) !! b = Some l -> length bs = length l ->
  ustep ns (UDma i bs) s = Ok (0, with_mem <[b := bs]> s).
Proof.
  intros Hx Hb Hm Hl. cbn [ustep]. erewrite M_bind_ok by reflexivity. rewrite Hx. cbn [lift_opt].
  erewrite M_bind_ok by reflexivity. rewrite Hb. cbn [fmap option_fmap option_map].
  by erewrite M_bind_ok by (eapply write_whole; [exact Hm|done]).
Qed.

Lemma insert_shape (m : gmap nat (list Z)) b l bs :
  m !! b = Some l -> length bs = length l -> same_shape m (<[b := bs]> m).
Proof.
  intros Hm Hl k. destruct (decide (b = k)) as [<-|]; [|by rewrite lookup_insert_ne].
  rewrite lookup_insert_eq, Hm. cbn. by rewrite Hl.
Qed.

(** The memory of the caller does not see what happens to other buffers. *)
Lemma peek_away b (m : gmap nat (list Z)) ptr n :
  m0 !! b = None -> in_range m0 ptr n -> peek (delete b m) ptr n = peek m ptr n.
Proof.
  intros Hb (c & o & l & -> & Hl & _). unfold peek. rewrite lookup_delete_ne by congruence. done.
Qed.

(** One event: it runs, keeps the invariant, and keeps the balance of accepted,
    pending and called back. *)
Lemma ustep_ok s e :
  uinv m0 N s -> uvalid m0 s e ->
  exists rc s', ustep ns e s = Ok (rc, s') /\ uinv m0 N s'
    /\ pending_args s' ++ map fst (u_calls s') ≡ₚ pending_args s ++ map fst (u_calls s)
         ++ (match e with UIssue _ _ arg => if rc =? 0 then [arg] else [] | _ => [] end).
Proof.
  intros HI He. destruct e as [E c arg|i bs|i cpl]; cbn [ustep uvalid] in *.
  - destruct He as [HE Hp]. destruct (run_ucmd_ok ns m0 N H_N E s c arg HI HE Hp) as (rc & s' & Hr & Hcase).
    exists rc, s'. split; [done|]. destruct Hcase as [[Hrc ->]|(-> & i & free & b & l & h2c & cmd & Ef & Hd & ->)].
    + rewrite (proj2 (Z.eqb_neq _ _) Hrc), app_nil_r. done.
    + split; [by eapply uinv_accept|]. cbn [Z.eqb]. destruct (ui_ids _ _ s HI i) as [Hi _]; [rewrite Ef; by left|].
      unfold pending_args. cbn [accept u_live u_calls]. rewrite map_to_list_insert by done. cbn [map fst snd user_cb_arg].
      rewrite app_assoc, (Permutation_app_comm (_ ++ _)). done.
  - destruct He as (x & Hx & [b Hb] & Hl). destruct (dma_of_mem m0 N s i x b HI Hx Hb) as (_ & l & Hm & Hz).
    exists 0, (with_mem <[b := bs]> s). split; [eapply dma_step_ok; [done|exact Hb|exact Hm|lia]|].
    rewrite app_nil_r. split; [|done]. apply (uinv_shape m0 N s _ HI), insert_shape with l; [done|lia].
  - destruct He as [x Hx]. exists 0. eexists. split; [by erewrite M_bind_ok by (by eapply complete_user_ok)|].
    split; [by apply uinv_completed|]. rewrite app_nil_r. unfold pending_args. cbn [completed u_live u_calls].
    rewrite map_app. cbn [map fst]. rewrite <- (insert_delete_id (u_live s) i x Hx) at 2.
    rewrite map_to_list_insert by apply lookup_delete_eq. cbn [map].
    rewrite app_assoc, Permutation_app_comm. done.
Qed.

Lemma uaccepted_snoc es rcs e rc :
  length es = length rcs ->
  uaccepted (es ++ [e]) (rcs ++ [rc])
  = uaccepted es rcs ++ (match e with UIssue _ _ arg => if rc =? 0 then [arg] else [] | _ => [] end).
Proof.
  revert rcs. induction es as [|e' es IH]; intros [|r rcs] Hl; try done.
  - cbn. destruct e; try done. by rewrite app_nil_r.
  - injection Hl as Hl. cbn [app uaccepted]. rewrite IH by done. destruct e'; [by rewrite app_assoc|done|done].
Qed.

Lemma uruns_inv es rcs s :
  uruns es rcs s -> length es = length rcs /\ uinv m0 N s
    /\ pending_args s ++ map fst (u_calls s) ≡ₚ uaccepted es rcs.
Proof.
  induction 1 as [|es rcs s e rc s' _ (Hl & HI & Hp) He Hs]; [split_and!; [done|apply uinv_start|done]|].
  destruct (ustep_ok s e HI He) as (rc' & s1 & Hs1 & HI1 & Hp1).
  rewrite Hs in Hs1. injection Hs1 as <- <-. split_and!; [rewrite !length_app; cbn; lia|done|].
  rewrite Hp1, app_assoc, Hp, uaccepted_snoc by done. done.
Qed.

(** C24: in every history of commands with a copied payload, whatever the
    allocator and the queue pair answer, every further event that is possible
    runs without undefined behaviour; the memory holds the buffers of the caller
    and exactly one buffer for each accepted request with a payload; every accepted
    command has been called back once or is pending; and when nothing is
    pending no copy is left and all requests are back in the pool. *)
Theorem user_copy_conserved es rcs s :
  uruns es rcs s ->
  (forall e, uvalid m0 s e -> exists rc s', ustep ns e s = Ok (rc, s'))
  /\ (forall b, is_Some (mem (u_pst s) !! b) <->
       is_Some (m0 !! b) \/ exists i x, u_live s !! i = Some x /\ dma_of x = Some b)
  /\ (forall i j x y b, u_live s !! i = Some x -> u_live s !! j = Some y ->
       dma_of x = Some b -> dma_of y = Some b -> i = j)
  /\ uaccepted es rcs ≡ₚ pending_args s ++ map fst (u_calls s)
  /\ (u_live s = ∅ -> dom (mem (u_pst s)) = dom m0 /\ free_req (u_qpair s) ≡ₚ seq 1 N).
Proof.
  intros H. destruct (uruns_inv es rcs s H) as (_ & HI & Hp).
  assert (Hmem : forall b, is_Some (mem (u_pst s) !! b) <->
       is_Some (m0 !! b) \/ exists i x, u_live s !! i = Some x /\ dma_of x = Some b).
  { intros b. split; [apply (ui_dma _ _ s HI)|]. intros [[l Hl]|(i & x & Hx & Hb)].
    - destruct (ui_user _ _ s HI b l Hl) as (l' & Hl' & _). by exists l'.
    - destruct (dma_of_mem m0 N s i x b HI Hx Hb) as (_ & l & Hl & _). by exists l. }
  split_and!; [|done|apply HI|done|].
  - intros e He. destruct (ustep_ok s e HI He) as (rc & s' & ? & _). eauto.
  - intros Hn. split.
    + apply set_eq. intros b. rewrite !elem_of_dom, Hmem, Hn. setoid_rewrite lookup_empty. naive_solver.
    + apply submseteq_length_Permutation.
      * apply NoDup_submseteq; [apply HI|]. intros i Hi. destruct (ui_ids _ _ s HI i Hi). apply elem_of_seq. lia.
      * pose proof (ui_size _ _ s HI) as Hs. rewrite Hn, map_size_empty in Hs. rewrite length_seq. lia.
Qed.

(** In every history, the data that the controller writes for an accepted
    command that transfers data to the host is in the buffer of the caller, and
    nothing else of the memory of the caller has changed, when the command is called
    back, with the argument of the caller. *)
Lemma payload_returned es rcs s i x bs cpl :
  uruns es rcs s -> u_live s !! i = Some x -> is_Some (dma_of x) ->
  spdk_nvme_opc_get_data_transfer (cmd_opc (r_cmd (req_f (fst x)))) = SPDK_NVME_DATA_CONTROLLER_TO_HOST ->
  Z.of_nat (length bs) = r_payload_size (req_f (fst x)) ->
  exists s', urun ns [UDma i bs; UDone i cpl] s = Ok ([0; 0], s')
    /\ peek (mem (u_pst s')) (user_buffer (snd x)) (Z.of_nat (length bs)) = bs
    /\ u_calls s' = u_calls s ++ [(user_cb_arg (snd x), cpl)]
    /\ forall w, 0 <= iov_len w -> in_range m0 (iov_base w) (iov_len w) ->
         sep (Iov (user_buffer (snd x)) (Z.of_nat (length bs))) w ->
         peek (mem (u_pst s')) (iov_base w) (iov_len w) = peek (mem (u_pst s)) (iov_base w) (iov_len w).
Proof.
  intros H Hx [b Hb] Hc2h Hl. destruct (uruns_inv es rcs s H) as (_ & HI & _).
  destruct (dma_of_mem m0 N s i x b HI Hx Hb) as (Hm0 & l & Hm & Hz).
  set (s1 := with_mem <[b := bs]> s).
  assert (S1 : ustep ns (UDma i bs) s = Ok (0, s1)) by (eapply dma_step_ok; [done|exact Hb|exact Hm|lia]).
  assert (HI1 : uinv m0 N s1) by (apply (uinv_shape m0 N s _ HI), insert_shape with l; [done|lia]).
  cbn [urun]. rewrite (M_bind_ok _ _ _ _ _ S1). cbn [ustep].
  rewrite !M_bind_assoc. erewrite M_bind_ok by (by apply (complete_user_ok m0 N H_N s1 i x cpl HI1)).
  eexists. split; [reflexivity|]. cbn [completed u_pst mem set_mem u_calls s1 with_mem set_pst].
  unfold copied_back. rewrite Hc2h, Z.eqb_refl, Hb, lookup_insert_eq. cbn [orb default from_option]. unfold id.
  destruct (ui_entry _ _ s HI i x Hx) as [_ [_ Hp] _].
  assert (Hr0 : in_range m0 (user_buffer (snd x)) (zlen bs)).
  { unfold zlen. rewrite Hl. apply Hp. unfold dma_of in Hb. by destruct (has_payload _ _). }
  pose proof (range_user m0 N s1 _ _ HI1 Hr0) as Hr1. cbn [s1 with_mem set_pst u_pst mem set_mem] in Hr1.
  split_and!; [|done|].
  - rewrite (peek_away b) by done. destruct Hr1 as (c & o & lc & E & Hc & Ho & Hr). rewrite E.
    pose proof (peek_poke _ _ c o (zlen bs) bs lc Hc Ho Hr ltac:(unfold zlen; lia) eq_refl) as Hpk.
    etrans; [|exact Hpk]. symmetry. apply take_ge. unfold zlen. unfold peek. rewrite length_take. lia.
  - intros w Hw Hrw Hsep. rewrite (peek_away b) by done.
    pose proof (range_user m0 N s1 _ _ HI1 Hrw) as Hrw1. cbn [s1 with_mem set_pst u_pst mem set_mem] in Hrw1.
    destruct Hr1 as (c & o & lc & E & Hr). rewrite E in *. rewrite poke_frame; [|by exists c, o, lc|done|done|done].
    destruct Hrw as (d & od & ld & Ew & Hd & _). rewrite Ew. unfold peek.
    rewrite lookup_insert_ne by congruence. done.
Qed.
End Histories.

(** ** Fields of the command dwords *)

Lemma bits_spec x lo len i :
  0 <= lo -> 0 <= len -> 0 <= i -> Z.testbit (bits x lo len) i = Z.testbit x (i + lo) && (i <? len).
Proof.
  intros Hlo Hlen Hi. unfold bits. replace (2 ^ len - 1) with (Z.ones len) by (rewrite Z.ones_equiv; lia).
  by rewrite Z.land_spec, Z.shiftr_spec, Z.testbit_ones_nonneg by done.
Qed.

Lemma field_spec v lo len i :
  0 <= lo -> 0 <= len -> 0 <= i ->
  Z.testbit (field v lo len) i = Z.testbit v (i - lo) && (lo <=? i) && (i <? lo + len).
Proof.
  intros Hlo Hlen Hi. unfold field. replace (2 ^ len - 1) with (Z.ones len) by (rewrite Z.ones_equiv; lia).
  rewrite Z.shiftl_spec by done. destruct (Z.leb_spec lo i).
  - rewrite Z.land_spec, Z.testbit_ones_nonneg by lia. rewrite andb_true_r. f_equal. lia.
  - rewrite Z.testbit_neg_r by lia. by rewrite andb_false_r.
Qed.

Lemma bits_field v lo len : 0 <= lo -> 0 <= len -> 0 <= v < 2 ^ len -> bits (field v lo len) lo len = v.
Proof.
  intros Hlo Hlen Hv. apply Z.bits_inj'. intros i Hi. rewrite bits_spec, field_spec by lia.
  rewrite (proj2 (Z.leb_le _ _)) by lia. replace (i + lo - lo) with i by lia. rewrite andb_true_r.
  destruct (Z.ltb_spec i len).
  - rewrite (proj2 (Z.ltb_lt _ _)) by lia. by rewrite !andb_true_r.
  - rewrite andb_false_r. symmetry. rewrite <- (Z.mod_small v (2 ^ len)) by lia. apply Z.mod_pow2_bits_high. lia.
Qed.

Lemma bits_field_apart v lo len lo' len' :
  0 <= lo -> 0 <= len -> 0 <= lo' -> 0 <= len' -> lo + len <= lo' \/ lo' + len' <= lo ->
  bits (field v lo len) lo' len' = 0.
Proof.
  intros. apply Z.bits_inj'. intros i Hi. rewrite bits_spec, field_spec, Z.bits_0 by lia.
  destruct (Z.leb_spec lo (i + lo')), (Z.ltb_spec (i + lo') (lo + len)), (Z.ltb_spec i len');
    rewrite ?andb_false_r; (done || lia).
Qed.

Lemma bits_lor x y lo len : 0 <= lo -> 0 <= len -> bits (Z.lor x y) lo len = Z.lor (bits x lo len) (bits y lo len).
Proof.
  intros. apply Z.bits_inj'. intros i Hi. rewrite Z.lor_spec, !bits_spec, Z.lor_spec by done.
  by rewrite andb_orb_distrib_l.
Qed.

(** The two dwords the target reads back. *)
Lemma bits_cdw10 opc nsid d10 d11 d12 lo len :
  0 <= lo -> 0 <= len -> lo + len <= 32 ->
  bits (NvmfBdev.cdw10 (NvmeCmd opc nsid (dwords d10 d11) 0 d12 0 0 0)) lo len = bits d10 lo len.
Proof.
  intros. unfold NvmfBdev.cdw10, wrap. cbn [cmd_lba]. apply Z.bits_inj'. intros i Hi.
  rewrite !bits_spec by done. destruct (Z.ltb_spec i len); [|by rewrite !andb_false_r]. f_equal.
  rewrite Z.mod_pow2_bits_low by lia. unfold dwords.
  rewrite Z.lor_spec, Z.shiftl_spec_low by lia. by rewrite orb_false_r.
Qed.

Lemma cdw11_back opc nsid d10 d11 d12 :
  0 <= d10 < 2 ^ 32 -> NvmfBdev.cdw11 (NvmeCmd opc nsid (dwords d10 d11) 0 d12 0 0 0) = d11.
Proof.
  intros Hd. unfold NvmfBdev.cdw11, dwords. cbn [cmd_lba].
  rewrite Z.shiftr_lor, Z.shiftr_shiftl_l by lia. cbn [Z.sub Z.opp Z.add Z.pos_sub].
  rewrite Z.shiftr_div_pow2, Z.div_small by lia. cbn. by rewrite Z.shiftl_0_r.
Qed.

(** ** From the caller to the target *)

(** The step from [s] to [s'] hands the queue pair a request with the command
    [cmd] and the payload [bs], to be called back with [arg]. *)
Definition sent (s s' : ust) (arg : Z) (cmd : nvme_cmd) (bs : list Z) : Prop :=
  exists i x b, u_live s !! i = None /\ u_live s' = <[i := x]> (u_live s)
    /\ r_cmd (req_f (fst x)) = cmd /\ user_cb_arg (snd x) = arg
    /\ dma_of x = Some b /\ mem (u_pst s') = <[b := bs]> (mem (u_pst s)) /\ mem (u_pst s) !! b = None.

Section EndToEnd.
Context (ns : nvme_ns) (m0 : gmap nat (list Z)) (N : nat) (E : uenv).
Hypothesis (H_N : Z.of_nat N < 2 ^ 32) (H_E : zmalloc_ok E).

Lemma sent_ok s s' p n arg (h2c : bool) cmd :
  uinv m0 N s -> 0 < n -> in_range m0 p n ->
  user_copy_cmd E p n arg h2c cmd s = Ok (0, s') ->
  sent s s' arg cmd (if h2c then peek (mem (u_pst s)) p n else repeat 0 (Z.to_nat n)).
Proof.
  intros HI Hn Hr H. assert (Hh : has_payload p n = true).
  { destruct Hr as (b & o & l & -> & _). unfold has_payload. by rewrite (proj2 (Z.eqb_neq n 0)) by lia. }
  destruct (user_copy_cmd_ok m0 N H_N E s p n arg h2c cmd HI H_E) as (rc & s1 & Hs & Hcase); [split; [lia|done]|].
  rewrite H in Hs. injection Hs as <- <-. destruct Hcase as [[? _]|(_ & i & free & b & l & Ef & Hd & ->)]; [done|].
  pose proof (dma_of_user s i p n arg h2c cmd b l Hd) as Edma.
  destruct b as [b|]; [|by rewrite Hd in Hh]. destruct Hd as (_ & _ & Hb & _ & ->).
  eexists i, _, b. cbn [accept u_live u_pst mem set_mem put_dma].
  destruct (ui_ids _ _ s HI i) as [Hi _]; [rewrite Ef; by left|]. by split_and!.
Qed.

Lemma range_ops_all rs :
  range_ops (length rs) (map (fun r => (dr_starting_lba r, dr_length r)) rs)
  = map (fun r => bdev_unmap_blocks (dr_starting_lba r) (dr_length r)) rs.
Proof. induction rs as [|r rs IH]; [done|]. cbn. by rewrite IH. Qed.

Lemma ranges_zlen rs : zlen (concat (map dsm_range_bytes rs)) = 16 * Z.of_nat (length rs).
Proof.
  induction rs as [|r rs IH]; [done|]. cbn [map concat length]. rewrite zlen_app, IH, dsm_range_bytes_zlen. lia.
Qed.

(** C23: when a caller, in any state that histories reach, has the driver
    deallocate (the AD attribute is set) 1 to 256 ranges and the command is
    accepted, the request carries a command and a payload from which a target, with
    the payload cut into iovecs in any way, reads exactly these ranges; and when
    the target can allocate its context, has no limit on the size of a discard and
    its block device accepts every unmap at once, it unmaps them in order.  A
    device that runs out of memory meanwhile makes the target unmap the wrong
    ranges: [deallocate_retry_wrong_range]. *)
Theorem deallocate_end_to_end es rcs s s' type p rs arg :
  uruns ns m0 N es rcs s -> (1 <= length rs <= 256)%nat -> Forall dsm_range_ok rs ->
  0 <= type < 2 ^ 32 -> Z.testbit type 2 = true ->
  let n := Z.of_nat (length rs) in
  in_range m0 p (n * 16) -> peek (mem (u_pst s)) p (n * 16) = concat (map dsm_range_bytes rs) ->
  spdk_nvme_ns_cmd_dataset_management E ns type p n arg s = Ok (0, s') ->
  let bs := concat (map dsm_range_bytes rs) in
  exists cmd, sent s s' arg cmd bs /\
    forall vs var st B t, iov_ok (mem st) vs -> var_ok st vs var 16 -> iov_bytes (mem st) vs = bs ->
      max_discard_size_kib B = 0 -> calloc_ok B = true -> (forall k op, bdev_rc B k op = 0) ->
      b_wait t = [] -> b_completed t = 0 ->
      exists ranges st' t',
        read_ranges var (Z.to_nat (cdw10_dsm_nr cmd + 1)) (spdk_iov_xfer_init vs) st = Ok (ranges, st')
        /\ nvmf_bdev_ctrlr_dsm_cmd B (NvmfReq cmd (zlen bs) ranges) t = Ok (ASYNCHRONOUS, t')
        /\ b_ops t' = b_ops t ++ map (fun r => bdev_unmap_blocks (dr_starting_lba r) (dr_length r)) rs.
Proof.
  intros Hrun Hlen Hok Ht Had n Hr Hpk Hcmd bs. destruct (uruns_inv ns m0 N H_N es rcs s Hrun) as (_ & HI & _).
  unfold spdk_nvme_ns_cmd_dataset_management in Hcmd.
  rewrite (proj2 (Z.eqb_neq n 0)), (proj2 (Z.ltb_ge _ _)) in Hcmd by (unfold n, SPDK_NVME_DATASET_MANAGEMENT_MAX_RANGES; lia).
  rewrite bool_decide_false in Hcmd by (intros ->; by destruct Hr as (? & ? & ? & ? & _)).
  pose proof (sent_ok s s' p (n * 16) arg true _ HI ltac:(unfold n; lia) Hr Hcmd) as Hsent. rewrite Hpk in Hsent.
  eexists. split; [exact Hsent|]. intros vs var st B t Hv Hvar Hby Hmax Hca Hrc Hw Hd.
  set (cmd := user_command ns _ _ _ _) in *.
  assert (Enr : cdw10_dsm_nr cmd = n - 1).
  { change (cdw10_dsm_nr cmd) with (bits (NvmfBdev.cdw10 cmd) 0 8). unfold cmd, user_command.
    rewrite bits_cdw10, bits_field by (unfold n; lia). done. }
  assert (Ead : cdw11_dsm_ad cmd = true).
  { unfold cdw11_dsm_ad, cmd, user_command. rewrite cdw11_back; [done|]. unfold field.
    rewrite Z.shiftl_0_r. change (2 ^ 8 - 1) with (Z.ones 8). rewrite Z.land_ones by lia.
    pose proof (Z.mod_pos_bound (n - 1) (2 ^ 8)). lia. }
  pose proof (ranges_zlen rs) as Hz. pose proof (bytes_zlen _ _ (io_fits_ _ _ Hv)) as Htot. unfold bs in Hby. rewrite Hby, Hz in Htot.
  rewrite Enr. replace (Z.to_nat (n - 1 + 1)) with (length rs) by (unfold n; lia).
  destruct (read_ranges_ok vs var rs (spdk_iov_xfer_init vs) 0 st) as (st' & Hread); try done.
  { by eapply xfer_at_init, io_fits_. }
  { lia. }
  { rewrite Hby, <- Hz. apply slice_all. }
  set (ranges := map _ rs) in Hread. exists ranges, st'. set (req := NvmfReq cmd _ ranges).
  assert (Hl : (cdw10_dsm_nr (nvme_command req) + 1) * 16 <= req_length req).
  { cbn [nvme_command req_length req]. unfold bs. rewrite Enr, Hz. unfold n. lia. }
  destruct (unmap_first B req Hmax Hl t Hca Hrc Hw Hd) as (st1 & t' & Hrun' & -> & Hops & _).
  exists t'. split; [done|]. split.
  - unfold nvmf_bdev_ctrlr_dsm_cmd. cbn [nvme_command req]. by rewrite Ead.
  - rewrite Hops. cbn [nvme_command req_ranges req]. rewrite Enr.
    replace (Z.to_nat (n - 1 + 1)) with (length rs) by (unfold n; lia). unfold ranges. by rewrite range_ops_all.
Qed.

(** The arguments of a reservation command are in the range of their fields. *)
Definition resv_args (c : ucmd) : Prop :=
  match c with
  | URegister _ _ action cptpl => 0 <= action < 8 /\ 0 <= cptpl < 4
  | UAcquire _ _ action type | URelease _ _ action type => 0 <= action < 8 /\ 0 <= type < 256
  | _ => False
  end.

Definition resv_bytes (c : ucmd) (k0 k1 : Z) : list Z :=
  match c with URelease _ _ _ _ => le_bytes 8 k0 | _ => le_bytes 8 k0 ++ le_bytes 8 k1 end.

(** The target's request has what the command was called with. *)
Definition resv_decoded (c : ucmd) (k0 k1 : Z) (req : req_t) : Prop :=
  0 < iovcnt req /\ ucmd_size c <= length_ req /\
  match c with
  | URegister _ ignore_key action cptpl =>
      opc req = SPDK_NVME_OPC_RESERVATION_REGISTER /\ rrega req = action /\ iekey req = ignore_key
      /\ Reservation.cptpl req = cptpl /\ key0 req = k0 /\ key1 req = k1
  | UAcquire _ ignore_key action type =>
      opc req = SPDK_NVME_OPC_RESERVATION_ACQUIRE /\ racqa req = action /\ iekey req = ignore_key
      /\ req_rtype req = type /\ key0 req = k0 /\ key1 req = k1
  | URelease _ ignore_key action type =>
      opc req = SPDK_NVME_OPC_RESERVATION_RELEASE /\ rrela req = action /\ iekey req = ignore_key
      /\ req_rtype req = type /\ key0 req = k0
  | _ => False
  end.

(** The three fields of cdw10, as the target reads them. *)
Lemma resv_fields opc_ nsid action k x lo len :
  0 <= action < 8 -> 4 <= lo -> 0 <= len -> lo + len <= 32 -> 0 <= x < 2 ^ len ->
  let d := NvmfBdev.cdw10 (NvmeCmd opc_ nsid
    (dwords (Z.lor (Z.lor (field action 0 3) (field (Z.b2z k) 3 1)) (field x lo len)) 0) 0 0 0 0 0) in
  bits d 0 3 = action /\ Z.testbit d 3 = k /\ bits d lo len = x.
Proof.
  intros Ha Hlo Hlen Hle Hx d. assert (0 <= Z.b2z k < 2 ^ 1) by (destruct k; cbn; lia).
  assert (Hb : forall l n, 0 <= l -> 0 <= n -> l + n <= 32 -> bits d l n
    = Z.lor (Z.lor (bits (field action 0 3) l n) (bits (field (Z.b2z k) 3 1) l n)) (bits (field x lo len) l n)).
  { intros l n Hl Hn Hln. unfold d. rewrite bits_cdw10, !bits_lor by lia. done. }
  split_and!.
  - rewrite Hb, bits_field, !bits_field_apart by lia. by rewrite !Z.lor_0_r.
  - assert (Ek : bits d 3 1 = Z.b2z k).
    { rewrite Hb, bits_field, !bits_field_apart by lia. by rewrite Z.lor_0_r, Z.lor_0_l. }
    pose proof (bits_spec d 3 1 0 ltac:(lia) ltac:(lia) ltac:(lia)) as Hs.
    rewrite Ek in Hs. change (0 + 3) with 3 in Hs. change (0 <? 1) with true in Hs.
    rewrite andb_true_r in Hs. rewrite <- Hs. by destruct k.
  - rewrite Hb, bits_field, !bits_field_apart by lia. by rewrite !Z.lor_0_l.
Qed.

(** A target that has the payload [bs] in iovecs reads the command [cmd] as [c]
    with the keys [k0] and [k1]. *)
Definition resv_read (c : ucmd) (k0 k1 : Z) (cmd : nvme_cmd) (bs : list Z) : Prop :=
  forall vs var st, iov_ok (mem st) vs -> var_ok st vs var (ucmd_size c) -> iov_bytes (mem st) vs = bs ->
    exists keys st', read_keys var (ucmd_size c) vs st = Ok (keys, st')
      /\ resv_decoded c k0 k1 (Req (cmd_opc cmd) (NvmfBdev.cdw10 cmd) (NvmfBdev.cdw11 cmd)
           (Z.of_nat (length vs)) (zlen bs) (fst keys) (snd keys)).

Lemma resv_size c k0 k1 :
  resv_args c -> 0 < ucmd_size c < 2 ^ 32 /\ zlen (resv_bytes c k0 k1) = ucmd_size c.
Proof.
  intros H. destruct c; try done; unfold zlen; cbn [ucmd_size resv_bytes]; rewrite ?length_app, !le_bytes_length; lia.
Qed.

Lemma resv_read_ok c k0 k1 cmd :
  resv_args c ->
  (forall n, 0 < n -> resv_decoded c k0 k1 (Req (cmd_opc cmd) (NvmfBdev.cdw10 cmd) (NvmfBdev.cdw11 cmd) n
     (ucmd_size c) (le_val (slice (resv_bytes c k0 k1) 0 8)) (le_val (slice (resv_bytes c k0 k1) 8 8)))) ->
  resv_read c k0 k1 cmd (resv_bytes c k0 k1).
Proof.
  intros Ha Hdec vs var st Hv Hvar Hby. destruct (resv_size c k0 k1 Ha) as [Hsz Hzl].
  pose proof (bytes_zlen _ _ (io_fits_ _ _ Hv)) as Htot. rewrite Hby, Hzl in Htot.
  destruct (read_keys_ok vs var (ucmd_size c) (resv_bytes c k0 k1) st) as (st' & Hk); try done; [lia| |].
  { rewrite Hby, <- Hzl. apply slice_all. }
  eexists _, st'. split; [exact Hk|]. rewrite Hzl. apply Hdec.
  destruct vs; [change (iov_total []) with 0 in Htot; lia|cbn; lia].
Qed.

(** C25: the keys and the fields with which a caller has the driver register,
    acquire or release a reservation are those the target's handler reads from
    the command and from its payload, cut into iovecs in any way. *)
Theorem reservation_end_to_end es rcs s s' c k0 k1 arg :
  uruns ns m0 N es rcs s -> resv_args c -> 0 <= k0 < 2 ^ 64 -> 0 <= k1 < 2 ^ 64 ->
  in_range m0 (ucmd_payload c) (ucmd_size c) ->
  peek (mem (u_pst s)) (ucmd_payload c) (ucmd_size c) = resv_bytes c k0 k1 ->
  run_ucmd E ns c arg s = Ok (0, s') ->
  exists cmd, sent s s' arg cmd (resv_bytes c k0 k1) /\ resv_read c k0 k1 cmd (resv_bytes c k0 k1).
Proof.
  intros Hrun Hargs Hk0 Hk1 Hr Hpk Hcmd. destruct (uruns_inv ns m0 N H_N es rcs s Hrun) as (_ & HI & _).
  destruct (resv_size c k0 k1 Hargs) as [Hsz Hzl].
  assert (Hc : exists cmd, user_copy_cmd E (ucmd_payload c) (ucmd_size c) arg true cmd s = Ok (0, s')
    /\ resv_read c k0 k1 cmd (resv_bytes c k0 k1)).
  { destruct (keys_fields k0 k1 Hk0 Hk1) as [F0 F1]. destruct (key_field k0 Hk0) as [G0 _].
    destruct c as [| |p k a t|p k a t|p k a t| | |]; try done; (eexists; split; [exact Hcmd|]);
      (apply resv_read_ok; [done|]); intros n Hn; destruct Hargs as [Ha Hx];
      [destruct (resv_fields SPDK_NVME_OPC_RESERVATION_REGISTER (ns_id ns) a k t 30 2) as (B1 & B2 & B3)
      |destruct (resv_fields SPDK_NVME_OPC_RESERVATION_RELEASE (ns_id ns) a k t 8 8) as (B1 & B2 & B3)
      |destruct (resv_fields SPDK_NVME_OPC_RESERVATION_ACQUIRE (ns_id ns) a k t 8 8) as (B1 & B2 & B3)];
      try lia; by split_and!. }
  destruct Hc as (cmd & Hc & Hread). exists cmd. split; [|done].
  rewrite <- Hpk. eapply (sent_ok s s' _ _ arg true); [done|lia|done|exact Hc].
Qed.

(** ** Deviations *)

(** spdk_nvme_ns_cmd_io_mgmt_send does not copy the payload: whatever the caller
    passes, the controller gets zeros. *)
Lemma io_mgmt_send_sends_zeros es rcs s s' p len mo mos arg :
  uruns ns m0 N es rcs s -> 0 < len -> in_range m0 p len ->
  spdk_nvme_ns_cmd_io_mgmt_send E ns p len mo mos arg s = Ok (0, s') ->
  exists cmd, sent s s' arg cmd (repeat 0 (Z.to_nat len)).
Proof.
  intros Hrun Hl Hr Hc. destruct (uruns_inv ns m0 N H_N es rcs s Hrun) as (_ & HI & _).
  eexists. by eapply (sent_ok s s' p len arg false).
Qed.

(** The number of ranges of a copy command is not limited to its field of 8
    bits: with 257 ranges the target reads one range in descriptor format 1. *)
Lemma copy_ranges_spill es rcs s s' p dest arg :
  uruns ns m0 N es rcs s -> in_range m0 p (257 * 32) ->
  spdk_nvme_ns_cmd_copy E ns p 257 dest arg s = Ok (0, s') ->
  exists cmd bs, sent s s' arg cmd bs /\ zlen bs = 257 * 32 /\ cdw12_copy_nr cmd = 0 /\ cdw12_copy_df cmd = 1.
Proof.
  intros Hrun Hr Hc. destruct (uruns_inv ns m0 N H_N es rcs s Hrun) as (_ & HI & _).
  unfold spdk_nvme_ns_cmd_copy in Hc. rewrite bool_decide_false in Hc by (intros ->; by destruct Hr as (? & ? & ? & ? & _)).
  eexists _, _. split; [by apply (sent_ok s s' p (257 * 32) arg true _ HI ltac:(lia) Hr Hc)|]. split; [|done].
  cbn beta iota. unfold zlen. rewrite peek_length; [done|done|by apply (range_user m0 N)].
Qed.

(** A report of length 0 is accepted and asks for 2^32 dwords. *)
Lemma report_zero_length s s' p arg :
  uinv m0 N s -> spdk_nvme_ns_cmd_reservation_report E ns p 0 arg s = Ok (0, s') ->
  exists i x, u_live s' !! i = Some x /\ r_payload_size (req_f (fst x)) = 0
    /\ NvmfBdev.cdw10 (r_cmd (req_f (fst x))) = 2 ^ 32 - 1.
Proof.
  intros HI Hc. assert (Hp : payload_ok m0 p 0).
  { split; [done|]. unfold has_payload. by rewrite andb_false_r. }
  unfold spdk_nvme_ns_cmd_reservation_report in Hc. change (negb (Z.land 0 3 =? 0)) with false in Hc.
  cbn match in Hc. set (cmd := user_command _ _ _ _ _) in Hc.
  destruct (user_copy_cmd_ok m0 N H_N E s p 0 arg false cmd HI H_E Hp) as (rc & s1 & Hs & Hcase).
  rewrite Hc in Hs. injection Hs as <- <-. destruct Hcase as [[? _]|(_ & i & free & b & l & _ & _ & ->)]; [done|].
  eexists i, _. cbn [accept u_live]. rewrite lookup_insert_eq. by split_and!.
Qed.
End EndToEnd.

(** ** Examples *)

Module UserDemo.
Definition m0 : gmap nat (list Z) :=
  {[ 1%nat := dsm_range_bytes (DsmRange 0 8 100) ++ dsm_range_bytes (DsmRange 0 16 200); 2%nat := [1; 2; 3; 4] ]}.
Definition E : uenv := Uenv (fun m _ => Some (S (max_list (elements (dom m))))) (fun _ => 0).
Definition ns : nvme_ns := NvmeNs 1 512 512 0 0 0 128 128 0 false.
Definition s0 : ust := ustart m0 4.

Lemma zmalloc : zmalloc_ok E.
Proof.
  intros m n b [= <-]. split; [|done]. apply not_elem_of_dom. rewrite <- elem_of_elements.
  intros H%max_list_elem_of_le. lia.
Qed.

(** The state after an event. *)
Definition next (e : uevent) (s : ust) : ust := match ustep ns e s with Ok (_, s') => s' | _ => s end.

Definition dsm : ucmd := UDsm 4 (Some (1%nat, 0)) 2.
Definition s1 : ust := next (UIssue E dsm 77) s0.
Definition s2 : ust := next (UDone 1 0) s1.
Definition report : ucmd := UReport (Some (2%nat, 0)) 4.
Definition s3 : ust := next (UIssue E report 88) s0.

Lemma demo_issue_ok c arg s : payload_ok m0 (ucmd_payload c) (ucmd_size c) -> uvalid m0 s (UIssue E c arg).
Proof. intros H. split; [exact zmalloc|exact H]. Qed.

Lemma dsm_payload : in_range m0 (Some (1%nat, 0)) 32.
Proof. exists 1%nat, 0. eexists. split_and!; [reflexivity|reflexivity|done|done]. Qed.
Lemma report_payload : in_range m0 (Some (2%nat, 0)) 4.
Proof. exists 2%nat, 0. eexists. split_and!; [reflexivity|reflexivity|done|done]. Qed.

Lemma run0 : uruns ns m0 4 [] [] s0.
Proof. constructor. Qed.
Lemma run1 : uruns ns m0 4 [UIssue E dsm 77] [0] s1.
Proof.
  apply (uruns_step ns m0 4 [] [] s0 (UIssue E dsm 77) 0 s1 run0); [|vm_compute; reflexivity].
  apply demo_issue_ok. split; [done|intros _; exact dsm_payload].
Qed.
Lemma run2 : uruns ns m0 4 [UIssue E dsm 77; UDone 1 0] [0; 0] s2.
Proof.
  apply (uruns_step ns m0 4 [UIssue E dsm 77] [0] s1 (UDone 1 0) 0 s2 run1); [|vm_compute; reflexivity].
  vm_compute. eexists. reflexivity.
Qed.
Lemma run3 : uruns ns m0 4 [UIssue E report 88] [0] s3.
Proof.
  apply (uruns_step ns m0 4 [] [] s0 (UIssue E report 88) 0 s3 run0); [|vm_compute; reflexivity].
  apply demo_issue_ok. split; [done|intros _; exact report_payload].
Qed.
End UserDemo.

(** [user_copy_conserved] after a deallocate of two ranges has completed. *)
Lemma user_copy_conserved_witness :
  uruns UserDemo.ns UserDemo.m0 4 [UIssue UserDemo.E UserDemo.dsm 77; UDone 1 0] [0; 0] UserDemo.s2
  /\ dom (mem (u_pst UserDemo.s2)) = dom UserDemo.m0 /\ free_req (u_qpair UserDemo.s2) ≡ₚ seq 1 4.
Proof.
  split; [exact UserDemo.run2|].
  apply (user_copy_conserved UserDemo.ns UserDemo.m0 4 ltac:(reflexivity) _ _ _ UserDemo.run2). reflexivity.
Defined.

(** [payload_returned] for a report of four bytes. *)
Lemma payload_returned_demo :
  exists x s', u_live UserDemo.s3 !! 1%nat = Some x
    /\ urun UserDemo.ns [UDma 1 [7; 8; 9; 10]; UDone 1 0] UserDemo.s3 = Ok ([0; 0], s')
    /\ peek (mem (u_pst s')) (Some (2%nat, 0)) 4 = [7; 8; 9; 10].
Proof.
  destruct (u_live UserDemo.s3 !! 1%nat) as [x|] eqn:Ex; [|discriminate (eq_trans (eq_sym Ex) eq_refl)].
  destruct (payload_returned UserDemo.ns UserDemo.m0 4 ltac:(reflexivity) _ _ _ 1 x [7; 8; 9; 10] 0 UserDemo.run3 Ex)
    as (s' & H1 & H2 & _).
  - vm_compute in Ex. injection Ex as <-. eexists. reflexivity.
  - vm_compute in Ex. injection Ex as <-. reflexivity.
  - vm_compute in Ex. injection Ex as <-. reflexivity.
  - exists x, s'. split; [reflexivity|]. split; [exact H1|]. vm_compute in Ex. injection Ex as <-. exact H2.
Defined.

Module TargetDemo.
(** The payload of the deallocate in three pieces, and a local variable. *)
Definition st : pst :=
  Pst {[ 1%nat := dsm_range_bytes (DsmRange 0 8 100) ++ dsm_range_bytes (DsmRange 0 16 200); 2%nat := repeat 0 16 ]} ∅ ∅.
Definition vs : list iovec := [Iov (Some (1%nat, 0)) 5; Iov (Some (1%nat, 5)) 17; Iov (Some (1%nat, 22)) 10].

Lemma vs_ok : iov_ok (mem st) vs.
Proof. iov_ok_demo. Qed.
Lemma var : var_ok st vs 2 16.
Proof. constructor; [eexists; split; reflexivity|seps_all]. Qed.
End TargetDemo.

(** [deallocate_end_to_end] with two ranges: the device gets both. *)
Lemma deallocate_end_to_end_witness :
  exists cmd ranges st' t', sent UserDemo.s0 UserDemo.s1 77 cmd (mem TargetDemo.st !!! 1%nat)
    /\ read_ranges 2 (Z.to_nat (cdw10_dsm_nr cmd + 1)) (spdk_iov_xfer_init TargetDemo.vs) TargetDemo.st = Ok (ranges, st')
    /\ nvmf_bdev_ctrlr_dsm_cmd (NvmfDemo.bdev NvmfDemo.accept 0) (NvmfReq cmd 32 ranges) NvmfDemo.s0 = Ok (ASYNCHRONOUS, t')
    /\ b_ops t' = [bdev_unmap_blocks 100 8; bdev_unmap_blocks 200 16].
Proof.
  destruct (deallocate_end_to_end UserDemo.ns UserDemo.m0 4 UserDemo.E ltac:(reflexivity) UserDemo.zmalloc [] []
    UserDemo.s0 UserDemo.s1 4 (Some (1%nat, 0)) [DsmRange 0 8 100; DsmRange 0 16 200] 77 UserDemo.run0)
    as (cmd & H & Ht).
  - cbn. lia.
  - repeat constructor; discriminate.
  - lia.
  - reflexivity.
  - exact UserDemo.dsm_payload.
  - reflexivity.
  - vm_compute. reflexivity.
  - destruct (Ht TargetDemo.vs 2%nat TargetDemo.st (NvmfDemo.bdev NvmfDemo.accept 0) NvmfDemo.s0 TargetDemo.vs_ok
      TargetDemo.var eq_refl eq_refl eq_refl (fun _ _ => eq_refl) eq_refl eq_refl) as (ranges & st' & t' & H1 & H2 & H3).
    exists cmd, ranges, st', t'. split; [exact H|]. split; [exact H1|]. split; [exact H2|exact H3].
Defined.

(** [reservation_end_to_end]: acquire with the key 5. *)
Lemma reservation_end_to_end_witness :
  let m0 := {[ 1%nat := le_bytes 8 5 ++ le_bytes 8 0 ]} in
  let c := UAcquire (Some (1%nat, 0)) false 0 1 in
  exists s' cmd, run_ucmd UserDemo.E UserDemo.ns c 9 (ustart m0 4) = Ok (0, s')
    /\ sent (ustart m0 4) s' 9 cmd (resv_bytes c 5 0) /\ resv_read c 5 0 cmd (resv_bytes c 5 0).
Proof.
  intros m0 c. set (s' := match run_ucmd UserDemo.E UserDemo.ns c 9 (ustart m0 4) with Ok (_, s) => s | _ => ustart m0 4 end).
  assert (Hr : run_ucmd UserDemo.E UserDemo.ns c 9 (ustart m0 4) = Ok (0, s')) by (vm_compute; reflexivity).
  destruct (reservation_end_to_end UserDemo.ns m0 4 UserDemo.E ltac:(reflexivity) UserDemo.zmalloc [] []
    (ustart m0 4) s' c 5 0 9 (uruns_start UserDemo.ns m0 4)) as (cmd & H1 & H2).
  - split; lia.
  - lia.
  - lia.
  - exists 1%nat, 0. eexists. split_and!; [reflexivity|reflexivity|discriminate|discriminate].
  - reflexivity.
  - exact Hr.
  - exists s', cmd. split; [exact Hr|]. split; [exact H1|exact H2].
Defined.
