(* ===== verification/Sock.v ===== *)
(** * Receiving on TCP sockets (module/sock/posix/posix.c, lib/sock/sock.c)

    A socket reads ahead from the kernel into its pipe and serves small reads
    from there.  The sockets of a group that have something to read, in the
    kernel or in their pipe, are on the group's list [socks_with_data], kept as
    a tail queue at pointer level.  The kernel is the bytes that are still to
    come on each socket and, per call, how many of them it delivers.  Sending,
    TLS and placement ids are left out. *)

From S2P Require Import Prelude Tailq Pipe.

Record sock := Sock {
  recv_pipe : option nat;
  recv_buf_sz : Z;
  pipe_has_data : bool;
  socket_has_data : bool;
  group_impl : option nat;
  cb_fn : bool }.

(** A group has the same number as its pipe group; [g_socks] is its list of
    members. *)
Record sst := Sst {
  ps : pst;
  socks : gmap loc sock;
  with_data : tailqs nat;
  g_socks : gmap nat (list loc);
  kern : gmap loc (list Z);
  errno : Z }.

Definition set_ps (x : pst) (s : sst) : sst := Sst x (socks s) (with_data s) (g_socks s) (kern s) (errno s).
Definition set_socks (f : gmap loc sock -> gmap loc sock) (s : sst) : sst :=
  Sst (ps s) (f (socks s)) (with_data s) (g_socks s) (kern s) (errno s).
Definition set_with_data (x : tailqs nat) (s : sst) : sst :=
  Sst (ps s) (socks s) x (g_socks s) (kern s) (errno s).
Definition set_g_socks (f : gmap nat (list loc) -> gmap nat (list loc)) (s : sst) : sst :=
  Sst (ps s) (socks s) (with_data s) (f (g_socks s)) (kern s) (errno s).
Definition set_kern (f : gmap loc (list Z) -> gmap loc (list Z)) (s : sst) : sst :=
  Sst (ps s) (socks s) (with_data s) (g_socks s) (f (kern s)) (errno s).
Definition set_errno (e : Z) (s : sst) : sst :=
  Sst (ps s) (socks s) (with_data s) (g_socks s) (kern s) e.

Definition with_pipe_data (b : bool) (x : sock) : sock :=
  Sock (recv_pipe x) (recv_buf_sz x) b (socket_has_data x) (group_impl x) (cb_fn x).
Definition with_socket_data (b : bool) (x : sock) : sock :=
  Sock (recv_pipe x) (recv_buf_sz x) (pipe_has_data x) b (group_impl x) (cb_fn x).
Definition with_recv_pipe (i : option nat) (x : sock) : sock :=
  Sock i (recv_buf_sz x) (pipe_has_data x) (socket_has_data x) (group_impl x) (cb_fn x).
Definition with_recv_buf_sz (n : Z) (x : sock) : sock :=
  Sock (recv_pipe x) n (pipe_has_data x) (socket_has_data x) (group_impl x) (cb_fn x).
Definition with_group_impl (g : option nat) (c : bool) (x : sock) : sock :=
  Sock (recv_pipe x) (recv_buf_sz x) (pipe_has_data x) (socket_has_data x) g c.

Definition load_sock (k : loc) : M sst sock := s ← get; lift_opt UB_freed (socks s !! k).
Definition update_sock (k : loc) (f : sock -> sock) : M sst unit :=
  x ← load_sock k; modify (set_socks <[k := f x]>).

(** An operation of a pipe. *)
Definition on_pipes {A} (m : M pst A) : M sst A := fun s =>
  match m (ps s) with
  | Ok (a, p) => Ok (a, set_ps p s)
  | Exit c => Exit c
  | UB r => UB r
  | OutOfFuel => OutOfFuel
  end.

(** A macro on [socks_with_data]. *)
Definition on_list (f : tailqs nat -> option (tailqs nat)) : M sst unit :=
  s ← get; q ← lift_opt UB_freed (f (with_data s)); put (set_with_data q s).

Definition fail_with (e : Z) : M sst Z := _ ← modify (set_errno e); mret (-1).

(** free(buf) *)
Definition free_buf (b : option nat) : M sst unit :=
  match b with Some b => on_pipes (modify (set_mem (delete b))) | None => mret tt end.

(** readv(2): with [kr] positive the kernel delivers up to [kr] of the bytes that
    are still to come; otherwise [kr] is its result. *)
Definition sys_readv (k : loc) (iov : list iovec) (kr : Z) : M sst Z :=
  if kr <=? 0 then mret kr
  else
    s ← get;
    q ← lift_opt UB_freed (kern s !! k);
    let n := Z.min kr (Z.min (iov_total iov) (Z.of_nat (length q))) in
    if iov_total iov =? 0 then mret 0
    else if n =? 0 then fail_with EAGAIN
    else
      _ ← on_pipes (write_iovs iov (take (Z.to_nat n) q));
      _ ← modify (set_kern <[k := drop (Z.to_nat n) q]>);
      mret n.

Section Sock.
(** MIN_SOCK_PIPE_SIZE of spdk_internal/sock.h. *)
Context (MIN_SOCK_PIPE_SIZE : Z).

(** Pull all of the data out of the old pipe. *)
Definition pull_old_pipe (old i : nat) (recv_buf_sz sz : Z) : M sst Z :=
  '(sbytes, siov) ← on_pipes (spdk_pipe_reader_get_buffer old (u32 recv_buf_sz));
  if sz <? sbytes then
    old_buf ← on_pipes (spdk_pipe_destroy (Some i));
    _ ← free_buf old_buf;
    mret (- EINVAL)
  else
    '(sbytes, diov) ← on_pipes (spdk_pipe_writer_get_buffer i (u32 sz));
    _ ← c_assert (sbytes =? sz);
    bytes ← on_pipes (spdk_iovcpy (length siov + length diov) siov diov);
    _ ← on_pipes (spdk_pipe_writer_advance i (u32 bytes));
    old_buf ← on_pipes (spdk_pipe_destroy (Some old));
    _ ← free_buf old_buf;
    mret 0.

(** [ok1] and [ok2]: whether the two allocations succeed; the new buffer gets
    the number [b], the new pipe the number [i]. *)
Definition posix_sock_alloc_pipe (k : loc) (sz : Z) (ok1 ok2 : bool) (b i : nat) : M sst Z :=
  x ← load_sock k;
  if recv_buf_sz x =? sz then mret 0
  else if sz =? 0 then
    old_buf ← on_pipes (spdk_pipe_destroy (recv_pipe x));
    _ ← free_buf old_buf;
    _ ← update_sock k (with_recv_pipe None);
    mret 0
  else if sz <? MIN_SOCK_PIPE_SIZE then mret (-1)
  else if negb ok1 then mret (- ENOMEM)
  else
    _ ← on_pipes (modify (set_mem <[b := repeat 0 (Z.to_nat sz)]>));
    new_pipe ← on_pipes (spdk_pipe_create ok2 i b (u32 sz));
    match new_pipe with
    | None => _ ← free_buf (Some b); mret (- ENOMEM)
    | Some i =>
        rc ← match recv_pipe x with
             | None => mret 0
             | Some old => pull_old_pipe old i (recv_buf_sz x) sz
             end;
        if negb (rc =? 0) then mret rc
        else
          _ ← update_sock k (fun x => with_recv_pipe (Some i) (with_recv_buf_sz sz x));
          x ← load_sock k;
          _ ← match group_impl x with
              | Some g => on_pipes (spdk_pipe_group_add g i)
              | None => mret 0
              end;
          mret 0
    end.

Definition posix_sock_recv_from_pipe (k : loc) (diov : list iovec) : M sst Z :=
  x ← load_sock k;
  i ← lift_opt UB_null (recv_pipe x);
  '(sbytes, siov) ← on_pipes (spdk_pipe_reader_get_buffer i (u32 (recv_buf_sz x)));
  if sbytes <? 0 then fail_with EINVAL
  else if sbytes =? 0 then fail_with EAGAIN
  else
    bytes ← on_pipes (spdk_iovcpy (length siov + length diov) siov diov);
    if bytes =? 0 then fail_with EINVAL
    else
      _ ← on_pipes (spdk_pipe_reader_advance i (u32 bytes));
      n ← on_pipes (spdk_pipe_reader_bytes_available i);
      _ ← (if n =? 0 then
             _ ← c_assert (pipe_has_data x);
             _ ← match group_impl x with
                 | Some g => if negb (socket_has_data x) then on_list (TAILQ_REMOVE g k) else mret tt
                 | None => mret tt
                 end;
             update_sock k (with_pipe_data false)
           else mret tt);
      mret bytes.

Definition posix_sock_read (k : loc) (kr : Z) : M sst Z :=
  x ← load_sock k;
  i ← lift_opt UB_null (recv_pipe x);
  '(bytes_avail, iov) ← on_pipes (spdk_pipe_writer_get_buffer i (u32 (recv_buf_sz x)));
  if bytes_avail <=? 0 then mret bytes_avail
  else
    bytes_recvd ← sys_readv k iov kr;
    _ ← c_assert (negb (pipe_has_data x));
    if bytes_recvd <=? 0 then
      _ ← match group_impl x with
          | Some g => if socket_has_data x then on_list (TAILQ_REMOVE g k) else mret tt
          | None => mret tt
          end;
      _ ← update_sock k (with_socket_data false);
      mret bytes_recvd
    else
      _ ← on_pipes (spdk_pipe_writer_advance i (u32 bytes_recvd));
      _ ← match group_impl x with Some _ => c_assert (socket_has_data x) | None => mret tt end;
      _ ← update_sock k (with_pipe_data true);
      _ ← (if bytes_recvd <? bytes_avail then update_sock k (with_socket_data false) else mret tt);
      mret bytes_recvd.

Definition posix_sock_readv (k : loc) (iov : list iovec) (kr : Z) : M sst Z :=
  x ← load_sock k;
  match recv_pipe x with
  | None =>
      _ ← c_assert (negb (pipe_has_data x));
      _ ← match group_impl x with
          | Some g =>
              if socket_has_data x then
                _ ← update_sock k (with_socket_data false); on_list (TAILQ_REMOVE g k)
              else mret tt
          | None => mret tt
          end;
      sys_readv k iov kr
  | Some _ =>
      if negb (pipe_has_data x) && (bool_decide (group_impl x = None) || socket_has_data x) then
        if MIN_SOCK_PIPE_SIZE <=? iov_total iov then sys_readv k iov kr
        else
          rc ← posix_sock_read k kr;
          if rc <=? 0 then mret rc else posix_sock_recv_from_pipe k iov
      else posix_sock_recv_from_pipe k iov
  end.

Definition posix_sock_recv (k : loc) (buf : option (nat * Z)) (len : Z) (kr : Z) : M sst Z :=
  posix_sock_readv k [Iov buf len] kr.

(** The socket and its list entry are freed. *)
Definition posix_sock_close (k : loc) : M sst Z :=
  x ← load_sock k;
  pipe_buf ← on_pipes (spdk_pipe_destroy (recv_pipe x));
  _ ← free_buf pipe_buf;
  _ ← on_list (fun q => Some (Tailqs (heads q) (delete k (nodes q))));
  _ ← modify (set_socks (delete k));
  mret 0.
End Sock.

(** ** Groups *)

(** [rc]: the result of epoll_ctl. *)
Definition posix_sock_group_impl_add_sock (g : nat) (k : loc) (rc : Z) : M sst Z :=
  if negb (rc =? 0) then mret rc
  else
    x ← load_sock k;
    match recv_pipe x with
    | None => mret rc
    | Some i =>
        n ← on_pipes (spdk_pipe_reader_bytes_available i);
        if 0 <? n then
          _ ← update_sock k (fun x => with_socket_data false (with_pipe_data true x));
          _ ← on_list (TAILQ_INSERT_TAIL g k);
          mret rc
        else
          rc ← on_pipes (spdk_pipe_group_add g i);
          _ ← c_assert (rc =? 0);
          mret rc
    end.

Definition posix_sock_group_impl_remove_sock (g : nat) (k : loc) (rc : Z) : M sst Z :=
  x ← load_sock k;
  _ ← (if pipe_has_data x || socket_has_data x then
         _ ← on_list (TAILQ_REMOVE g k);
         update_sock k (fun x => with_socket_data false (with_pipe_data false x))
       else match recv_pipe x with
            | Some i => r ← on_pipes (spdk_pipe_group_remove g i); c_assert (r =? 0)
            | None => mret tt
            end);
  mret rc.

Definition spdk_sock_group_add_sock (g : nat) (k : loc) (cb : bool) (rc : Z) : M sst Z :=
  if negb cb then fail_with EINVAL
  else
    x ← load_sock k;
    if negb (bool_decide (group_impl x = None)) then fail_with EINVAL
    else
      r ← posix_sock_group_impl_add_sock g k rc;
      if negb (r =? 0) then mret r
      else
        _ ← modify (set_g_socks (alter (fun l => l ++ [k]) g));
        _ ← update_sock k (with_group_impl (Some g) true);
        mret 0.

Definition spdk_sock_group_remove_sock (g : nat) (k : loc) (rc : Z) : M sst Z :=
  x ← load_sock k;
  _ ← c_assert (bool_decide (group_impl x = Some g));
  r ← posix_sock_group_impl_remove_sock g k rc;
  if r =? 0 then
    _ ← modify (set_g_socks (alter (filter (fun j => j <> k)) g));
    _ ← update_sock k (with_group_impl None false);
    mret r
  else mret r.

(** *** Polling *)

(** An event of epoll_wait: the socket, and whether EPOLLIN is set. *)
Fixpoint mark_events (g : nat) (evs : list (loc * bool)) : M sst unit :=
  match evs with
  | [] => mret tt
  | (k, false) :: evs' => mark_events g evs'
  | (k, true) :: evs' =>
      x ← load_sock k;
      _ ← (if negb (socket_has_data x) && negb (pipe_has_data x)
           then on_list (TAILQ_INSERT_TAIL g k) else mret tt);
      _ ← update_sock k (with_socket_data true);
      mark_events g evs'
  end.

(** The TAILQ_FOREACH_SAFE over [socks_with_data]; the result is the array of
    sockets and the element the loop stopped at. *)
Fixpoint collect (fuel : nat) (g : nat) (max_events : nat) (cur : option loc) (acc : list loc) :
    M sst (list loc * option loc) :=
  match cur with
  | None => mret (acc, None)
  | Some k =>
      match fuel with
      | O => out_of_fuel
      | S fuel' =>
          s ← get;
          next ← lift_opt UB_freed (TAILQ_NEXT k (with_data s));
          if (length acc =? max_events)%nat then mret (acc, Some k)
          else
            x ← load_sock k;
            if negb (cb_fn x) then
              _ ← update_sock k (fun x => with_pipe_data false (with_socket_data false x));
              _ ← on_list (TAILQ_REMOVE g k);
              collect fuel' g max_events next acc
            else collect fuel' g max_events next (acc ++ [k])
      end
  end.

(** The pointer stored at a slot, and the slot found by reading the memory at a
    slot as a list head: the second word of an entry is [tqe_prev], that of a
    head is [tqh_last]. *)
Definition deref (p : slot nat) (q : tailqs nat) : option (option loc) :=
  match p with
  | SNull => None
  | SFirst h => x ← heads q !! h; Some (tqh_first x)
  | SNext e => x ← nodes q !! e; Some (tqe_next x)
  end.

Definition second_word (p : slot nat) (q : tailqs nat) : option (slot nat) :=
  match p with
  | SNull => None
  | SFirst h => x ← heads q !! h; Some (tqh_last x)
  | SNext e => x ← nodes q !! e; Some (tqe_prev x)
  end.

Definition TAILQ_LAST (h : nat) (q : tailqs nat) : option (option loc) :=
  x ← heads q !! h; p ← second_word (tqh_last x) q; deref p q.

Definition TAILQ_PREV (e : loc) (q : tailqs nat) : option (option loc) :=
  x ← nodes q !! e; p ← second_word (tqe_prev x) q; deref p q.

Definition set_next (e : loc) (v : option loc) (q : tailqs nat) : option (tailqs nat) :=
  x ← nodes q !! e; Some (set_node e (Entry v (tqe_prev x)) q).
Definition set_prev (e : loc) (v : slot nat) (q : tailqs nat) : option (tailqs nat) :=
  x ← nodes q !! e; Some (set_node e (Entry (tqe_next x) v) q).

(** The list cycled so that [pd] is first. *)
Definition rotate (h : nat) (pd : loc) (q : tailqs nat) : option (tailqs nat) :=
  pc' ← TAILQ_PREV pd q; pc ← pc';
  pa' ← TAILQ_FIRST h q; pa ← pa';
  pf' ← TAILQ_LAST h q; pf ← pf';
  q ← set_next pc None q;
  q ← set_next pf (Some pa) q;
  q ← set_prev pa (SNext pf) q;
  x ← heads q !! h;
  let q := set_head h (Head (Some pd) (tqh_last x)) q in
  x ← heads q !! h;
  let q := set_head h (Head (tqh_first x) (SNext pc)) q in
  set_prev pd (SFirst h) q.

(** [evs]: the result of epoll_wait, None when it fails. *)
Definition posix_sock_group_impl_poll (g : nat) (max_events : Z) (evs : option (list (loc * bool))) :
    M sst (Z * list loc) :=
  _ ← c_assert (0 <? max_events);
  match evs with
  | None => mret (-1, [])
  | Some evs =>
      _ ← mark_events g evs;
      s ← get;
      first ← lift_opt UB_freed (TAILQ_FIRST g (with_data s));
      '(found, psock) ← collect (S (size (nodes (with_data s)))) g (Z.to_nat max_events) first [];
      _ ← match psock with Some pd => on_list (rotate g pd) | None => mret tt end;
      mret (Z.of_nat (length found), found)
  end.

(** The callbacks of the sockets that were found. *)
Fixpoint call_back (cb : loc -> M sst unit) (l : list loc) : M sst unit :=
  match l with
  | [] => mret tt
  | k :: l' => x ← load_sock k; _ ← c_assert (cb_fn x); _ ← cb k; call_back cb l'
  end.

Definition sock_group_impl_poll_count (cb : loc -> M sst unit) (g : nat) (max_events : Z)
    (evs : option (list (loc * bool))) : M sst Z :=
  s ← get;
  l ← lift_opt UB_freed (g_socks s !! g);
  match l with
  | [] => mret 0
  | _ =>
      '(num_events, found) ← posix_sock_group_impl_poll g max_events evs;
      if num_events =? -1 then mret (-1)
      else _ ← call_back cb found; mret num_events
  end.

(** The implementations of a group, each with its events. *)
Fixpoint poll_impls (cb : loc -> M sst unit) (max_events : Z) (impls : list (nat * option (list (loc * bool))))
    (num_events : Z) : M sst Z :=
  match impls with
  | [] => mret num_events
  | (g, evs) :: impls' =>
      rc ← sock_group_impl_poll_count cb g max_events evs;
      poll_impls cb max_events impls'
        (if rc <? 0 then -1 else if 0 <=? num_events then num_events + rc else num_events)
  end.

(** MAX_EVENTS_PER_POLL of spdk_internal/sock.h. *)
Definition spdk_sock_group_poll_count (MAX_EVENTS_PER_POLL : Z) (cb : loc -> M sst unit) (max_events : Z)
    (impls : list (nat * option (list (loc * bool)))) : M sst Z :=
  if max_events <? 1 then fail_with (- EINVAL)
  else poll_impls cb (Z.min max_events MAX_EVENTS_PER_POLL) impls 0.
