(* ===== verification/SockList.v ===== *)
(** * The list of sockets with data

    The pointer surgery of posix_sock_group_impl_poll turns the list, and the
    loop over it finds the sockets to report. *)

From S2P Require Import Prelude Tailq Pipe Sock.

(** ** TAILQ_PREV, TAILQ_LAST and the rotation *)

Lemma seg_deref (q : tailqs nat) h l d y z :
  heads q !! h = Some (Head (hd_or l d) z) -> seg (nodes q) (SFirst h) l d y -> deref y q = Some d.
Proof.
  intros Hh Hs. destruct (decide (l = [])) as [->|Hl].
  - cbn in *. subst y. cbn. by rewrite Hh.
  - destruct (exists_last Hl) as (l' & b & ->). apply seg_snoc_inv in Hs as (y' & _ & Hb & ->).
    cbn. by rewrite Hb.
Qed.

Lemma TAILQ_LAST_rep (q : tailqs nat) h l e :
  tq_rep q h (l ++ [e]) -> TAILQ_LAST h q = Some (Some e).
Proof.
  intros (z & Hz & Hs & _). unfold TAILQ_LAST. rewrite Hz. cbn.
  apply seg_snoc_inv in Hs as (y & Hs & He & ->). cbn. rewrite He. cbn.
  eapply seg_deref; [|done]. rewrite Hz. by rewrite hd_or_app.
Qed.

Lemma TAILQ_PREV_rep (q : tailqs nat) h l1 c d l2 :
  tq_rep q h ((l1 ++ [c]) ++ d :: l2) -> TAILQ_PREV d q = Some (Some c).
Proof.
  intros (z & Hz & Hs & _). apply seg_app in Hs as (y & Hs & Hd & _). cbn [hd_or] in Hs.
  apply seg_snoc_inv in Hs as (y' & Hs & Hc & ->). unfold TAILQ_PREV. rewrite Hd. cbn. rewrite Hc. cbn.
  eapply seg_deref; [|done]. rewrite Hz. by rewrite !hd_or_app.
Qed.

Lemma set_next_eq (q : tailqs nat) e v n p :
  nodes q !! e = Some (Entry n p) -> set_next e v q = Some (set_node e (Entry v p) q).
Proof. intros H. unfold set_next. by rewrite H. Qed.

Lemma set_prev_eq (q : tailqs nat) e v n p :
  nodes q !! e = Some (Entry n p) -> set_prev e v q = Some (set_node e (Entry n v) q).
Proof. intros H. unfold set_prev. by rewrite H. Qed.

(** A head represents one list. *)
Lemma seg_inj (ns : gmap loc (entry nat)) p l l' z z' :
  hd_or l None = hd_or l' None -> seg ns p l None z -> seg ns p l' None z' -> l = l'.
Proof.
  revert p l'. induction l as [|a l IH]; intros p [|b l'] Hh Hs Hs'; cbn in Hh; try done.
  injection Hh as <-. destruct Hs as [Ha Hs], Hs' as [Hb Hs']. f_equal. eapply IH; [|done|done].
  rewrite Ha in Hb. by injection Hb.
Qed.

Lemma tq_rep_inj (q : tailqs nat) h l l' : tq_rep q h l -> tq_rep q h l' -> l = l'.
Proof.
  intros (z & Hz & Hs & _) (z' & Hz' & Hs' & _). rewrite Hz in Hz'. injection Hz' as Hh _. by eapply seg_inj.
Qed.

(** The elements before [d] go to the end. *)
Lemma rotate_rep (q : tailqs nat) h l1 d l2 :
  l1 <> [] -> tq_rep q h (l1 ++ d :: l2) ->
  exists q', rotate h d q = Some q' /\ tq_rep q' h (d :: l2 ++ l1) /\ only_touches h (l1 ++ d :: l2) q q'.
Proof.
  intros Hl1 Hrep. destruct (exists_last Hl1) as (l1' & c & El1).
  destruct (exists_last (l := d :: l2)) as (l2' & f & El2); [done|].
  assert (Hprev : TAILQ_PREV d q = Some (Some c)) by (eapply TAILQ_PREV_rep; by rewrite <- El1).
  assert (Hlast : TAILQ_LAST h q = Some (Some f))
    by (eapply TAILQ_LAST_rep; rewrite <- app_assoc, <- El2; exact Hrep).
  pose proof (TAILQ_FIRST_rep q h _ Hrep) as Hfirst. destruct l1 as [|a la]; [done|]. cbn in Hfirst.
  unfold rotate. rewrite Hprev, Hfirst, Hlast. cbn [mbind option_bind].
  destruct Hrep as (z & Hz & Hs & Hnd). apply seg_app in Hs as (y & Hs1 & Hs2). cbn [hd_or] in Hs1.
  pose proof Hnd as (Hnd1 & Hdis & Hnd2)%NoDup_app.
  pose proof Hs1 as Hs1'. rewrite El1 in Hs1'. apply seg_snoc_inv in Hs1' as (yc & Hsc & Hc & Ey). subst y.
  pose proof Hs2 as Hs2'. rewrite El2 in Hs2'. apply seg_snoc_inv in Hs2' as (yf & Hsf & Hf & Ez). subst z.
  assert (c ∈ a :: la) by (rewrite El1; set_solver). assert (f ∈ d :: l2) by (rewrite El2; set_solver).
  assert (c ∉ l1') by (rewrite El1 in Hnd1; apply NoDup_app in Hnd1 as (_ & H' & _); set_solver).
  assert (f ∉ l2') by (rewrite El2 in Hnd2; apply NoDup_app in Hnd2 as (_ & H' & _); set_solver).
  assert (HfA : f ∉ a :: la) by (intros Hin; by apply (Hdis f)).
  assert (HcD : c ∉ d :: l2) by (by apply Hdis).
  assert (HaD : a ∉ d :: l2) by (apply Hdis; by left).
  assert (HdA : d ∉ a :: la) by (intros Hin; apply (Hdis d Hin); by left).
  assert (Hfc : f <> c) by congruence.
  (* pc->next = NULL; pf->next = pa *)
  set (n2 := <[f := Entry (Some a) yf]> (<[c := Entry None yc]> (nodes q))).
  assert (HA2 : seg n2 (SFirst h) (a :: la) None (SNext c)).
  { apply seg_insert_ne; [done|]. rewrite El1. by eapply seg_retarget. }
  assert (HD2 : seg n2 (SNext c) (d :: l2) (Some a) (SNext f)).
  { rewrite El2. eapply seg_retarget; [|done| |done].
    - apply seg_insert_ne; [|done]. rewrite El2 in HcD. set_solver.
    - by rewrite lookup_insert_ne. }
  (* pa->prev = &pf->next; pd->prev = &head *)
  pose proof (seg_restart n2 _ (SNext f) _ _ _ HA2 Hnd1) as HA3. cbv beta iota in HA3.
  set (n3 := <[a := Entry (hd_or la None) (SNext f)]> n2) in *.
  assert (HD3 : seg n3 (SNext c) (d :: l2) (Some a) (SNext f)) by (by apply seg_insert_ne).
  pose proof (seg_restart n3 _ (SFirst h) _ _ _ HD3 Hnd2) as HD4. cbv beta iota in HD4.
  set (n4 := <[d := Entry (hd_or l2 (Some a)) (SFirst h)]> n3) in *.
  assert (HA4 : seg n4 (SNext f) (a :: la) None (SNext c)) by (by apply seg_insert_ne).
  exists (Tailqs (<[h := Head (Some d) (SNext c)]> (heads q)) n4). split_and!.
  - rewrite (set_next_eq q c None _ _ Hc). cbn [mbind option_bind].
    erewrite set_next_eq by (cbn [nodes set_node]; rewrite lookup_insert_ne by done; exact Hf).
    cbn [mbind option_bind]. erewrite set_prev_eq by (exact (proj1 HA2)). cbn [mbind option_bind heads set_node].
    rewrite Hz. cbn [mbind option_bind heads set_head tqh_first tqh_last]. rewrite lookup_insert_eq.
    cbn [mbind option_bind]. erewrite set_prev_eq by (exact (proj1 HD3)).
    unfold set_head, set_node. cbn [heads nodes tqh_first]. by rewrite insert_insert_eq.
  - exists (SNext c). cbn -[insert seg]. rewrite lookup_insert_eq. split_and!; [done| |].
    + change (d :: l2 ++ a :: la) with ((d :: l2) ++ a :: la). apply seg_app. by exists (SNext f).
    + rewrite app_comm_cons. by rewrite (Permutation_app_comm _ _).
  - split; cbn -[insert].
    + intros h' Hh'. by rewrite lookup_insert_ne.
    + intros e He. rewrite app_comm_cons in He. apply not_elem_of_app in He as [He1 He2]. unfold n4, n3, n2.
      rewrite !lookup_insert_ne; [done|..]; intros ->; (by apply He1; left) || (by apply He2; left) || done.
Qed.
