(* ===== verification/SockInv.v ===== *)
(** * The invariant of sockets and their groups

    A socket's flags say whether its pipe holds bytes and whether the kernel
    announced some, it is on the list of its group exactly when one of them is
    set, and no two sockets share a pipe.  What a socket still has to deliver is
    the bytes in its pipe followed by those of the kernel. *)

From S2P Require Import Prelude Tailq Pipe PipeLemmas IovLemmas PipeInv PipeOps Sock SockList.

(** ** Running operations *)

Lemma load_sock_ok s k x : socks s !! k = Some x -> load_sock k s = Ok (x, s).
Proof. intros H. unfold load_sock, mbind, M_bind, get, lift_opt, mret, M_ret. by rewrite H. Qed.

Lemma update_sock_ok s k x f :
  socks s !! k = Some x -> update_sock k f s = Ok (tt, set_socks <[k := f x]> s).
Proof. intros H. unfold update_sock. by rewrite (M_bind_ok _ _ _ _ _ (load_sock_ok s k x H)). Qed.

Lemma on_pipes_ok {A} (m : M pst A) s a p : m (ps s) = Ok (a, p) -> on_pipes m s = Ok (a, set_ps p s).
Proof. intros H. unfold on_pipes. by rewrite H. Qed.

Lemma on_list_ok f s q : f (with_data s) = Some q -> on_list f s = Ok (tt, set_with_data q s).
Proof. intros H. unfold on_list, mbind, M_bind, get, lift_opt, mret, M_ret, put. by rewrite H. Qed.

(** ** The invariant *)

(** The bytes in the pipe of a socket. *)
Definition piped (s : sst) (x : sock) : list Z :=
  match recv_pipe x with Some i => default [] (q_bytes <$> view (ps s) !! i) | None => [] end.

(** What the socket still has to deliver. *)
Definition stream (s : sst) (k : loc) (x : sock) : list Z := piped s x ++ default [] (kern s !! k).
Definition streams (s : sst) : gmap loc (list Z) := map_imap (fun k x => Some (stream s k x)) (socks s).

Record sock_ok (s : sst) (L : gmap nat (list loc)) (k : loc) (x : sock) : Prop := SockOk {
  so_pipe : forall i, recv_pipe x = Some i -> exists q, view (ps s) !! i = Some q /\ q_cap q = recv_buf_sz x /\
            (q_group q = None \/ q_group q = group_impl x) /\ PIPE_HDR <= q_cap q;
  so_flag : pipe_has_data x = negb (bool_decide (piped s x = []));
  so_alone : group_impl x = None -> socket_has_data x = false;
  so_group : forall g, group_impl x = Some g -> is_Some (L !! g);
  so_listed : forall g l, L !! g = Some l ->
              (k ∈ l <-> group_impl x = Some g /\ pipe_has_data x || socket_has_data x = true);
  so_kern : is_Some (kern s !! k);
  so_node : is_Some (nodes (with_data s) !! k);
  so_cb : cb_fn x = negb (bool_decide (group_impl x = None)) }.

Record sinv (s : sst) (L : gmap nat (list loc)) : Prop := Sinv {
  si_pipes : inv (ps s);
  si_sock : forall k x, socks s !! k = Some x -> sock_ok s L k x;
  si_inj : forall k k' x x' i, socks s !! k = Some x -> socks s !! k' = Some x' ->
           recv_pipe x = Some i -> recv_pipe x' = Some i -> k = k';
  si_list : forall g l, L !! g = Some l ->
            tq_rep (with_data s) g l /\ is_Some (pgroups (ps s) !! g) /\
            forall k, k ∈ l -> is_Some (socks s !! k) }.

Lemma sinv_member s L g l k :
  sinv s L -> L !! g = Some l -> k ∈ l -> exists x, socks s !! k = Some x /\ group_impl x = Some g.
Proof.
  intros Hs Hl Hk. destruct (si_list s L Hs g l Hl) as (_ & _ & Hm). destruct (Hm k Hk) as [x Hx].
  exists x. split; [done|]. by apply (so_listed s L k x (si_sock s L Hs k x Hx) g l Hl) in Hk as [? _].
Qed.

(** The lists of two groups have no socket in common. *)
Lemma sinv_disjoint s L g g' l l' :
  sinv s L -> L !! g = Some l -> L !! g' = Some l' -> g <> g' -> l ## l'.
Proof.
  intros Hs Hl Hl' Hne k Hk Hk'. destruct (sinv_member s L g l k Hs Hl Hk) as (x & Hx & Hg).
  destruct (sinv_member s L g' l' k Hs Hl' Hk') as (x' & Hx' & Hg'). congruence.
Qed.

Lemma streams_lookup s k x : socks s !! k = Some x -> streams s !! k = Some (stream s k x).
Proof. intros H. unfold streams. by rewrite map_lookup_imap, H. Qed.

(** What a step leaves of another socket's bytes and flags. *)
Lemma stream_other s s' k x :
  (forall i, recv_pipe x = Some i -> view (ps s') !! i = view (ps s) !! i) ->
  kern s' !! k = kern s !! k -> piped s' x = piped s x /\ stream s' k x = stream s k x.
Proof.
  intros Hv Hk. assert (Hp : piped s' x = piped s x).
  { unfold piped. destruct (recv_pipe x) as [i|]; [|done]. by rewrite Hv. }
  split; [done|]. unfold stream. by rewrite Hp, Hk.
Qed.

Lemma streams_upd s s' k x :
  (forall j y, j <> k -> socks s !! j = Some y -> exists y', socks s' !! j = Some y' /\ stream s' j y' = stream s j y) ->
  (forall j, socks s' !! j = None <-> socks s !! j = None) ->
  socks s' !! k = Some x -> streams s' = <[k := stream s' k x]> (streams s).
Proof.
  intros Ho Hd Hk. apply map_eq. intros j. destruct (decide (j = k)) as [->|Hne].
  - by rewrite lookup_insert_eq, (streams_lookup s' k x).
  - rewrite lookup_insert_ne by done. destruct (socks s !! j) as [y|] eqn:Ej.
    + destruct (Ho j y Hne Ej) as (y' & Hy' & He). by rewrite (streams_lookup s' j y'), (streams_lookup s j y), He.
    + unfold streams. rewrite !map_lookup_imap, Ej. by rewrite (proj2 (Hd j) Ej).
Qed.

(** ** Changes of one socket *)

(** [L'] differs from [L] in the places of [k] only. *)
Definition relist (k : loc) (L L' : gmap nat (list loc)) : Prop :=
  forall g l', L' !! g = Some l' -> exists l, L !! g = Some l /\ forall j, j <> k -> (j ∈ l' <-> j ∈ l).

Lemma relist_refl k L : relist k L L.
Proof. intros g l Hl. by exists l. Qed.

Lemma relist_insert k L g l l' :
  L !! g = Some l -> (forall j, j <> k -> (j ∈ l' <-> j ∈ l)) -> relist k L (<[g := l']> L).
Proof. intros Hl Hj h m [[<- <-]|[_ Hm]]%lookup_insert_Some; eauto. Qed.

(** The part of the state other sockets see. *)
Record others_keep (k : loc) (s s' : sst) : Prop := OthersKeep {
  ok_view : forall j y i, j <> k -> socks s !! j = Some y -> recv_pipe y = Some i ->
            view (ps s') !! i = view (ps s) !! i;
  ok_kern : forall j, j <> k -> kern s' !! j = kern s !! j;
  ok_grp : forall g, is_Some (pgroups (ps s) !! g) -> is_Some (pgroups (ps s') !! g);
  ok_node : forall j, is_Some (nodes (with_data s) !! j) -> is_Some (nodes (with_data s') !! j) }.

Lemma sock_ok_other s s' L L' k j y :
  others_keep k s s' -> relist k L L' -> (forall g, is_Some (L !! g) -> is_Some (L' !! g)) ->
  j <> k -> socks s !! j = Some y -> sock_ok s L j y -> sock_ok s' L' j y.
Proof.
  intros Hk Hr Hd Hne Hy [H1 H2 H3 H4 H5 H6 H7 H8].
  destruct (stream_other s s' j y) as [Hp _]; [by intros i; eapply (ok_view k s s' Hk)|by apply (ok_kern k s s' Hk)|].
  split; [|by rewrite Hp|done|eauto| |by rewrite (ok_kern k s s' Hk)|by apply (ok_node k s s' Hk)|done].
  - intros i Hi. rewrite (ok_view k s s' Hk j y i) by done. eauto.
  - intros g l' Hl'. destruct (Hr g l' Hl') as (l & Hl & Hj). rewrite Hj by done. by apply H5.
Qed.

Lemma sinv_upd s s' L L' k x x' :
  sinv s L -> socks s !! k = Some x -> socks s' = <[k := x']> (socks s) -> inv (ps s') ->
  others_keep k s s' -> relist k L L' -> dom L' = dom L ->
  (forall g l, L' !! g = Some l -> tq_rep (with_data s') g l) ->
  (recv_pipe x' = recv_pipe x \/
   forall j y i, socks s !! j = Some y -> recv_pipe x' = Some i -> recv_pipe y <> Some i) ->
  sock_ok s' L' k x' -> sinv s' L'.
Proof.
  intros Hs Hx Hs' Hinv Hk Hr Hd Hrep Hp Hok.
  assert (Hd' : forall g, is_Some (L !! g) <-> is_Some (L' !! g)) by (intros g; rewrite <- !elem_of_dom; by rewrite Hd).
  assert (Hinj : forall j y i, j <> k -> socks s !! j = Some y -> recv_pipe x' = Some i -> recv_pipe y <> Some i).
  { intros j y i Hne Hy Hi Hy'. destruct Hp as [Hp|Hp]; [|by eapply Hp].
    apply Hne. eapply (si_inj s L Hs); [done|done|done|]. by rewrite <- Hp. }
  split; [done|..].
  - intros j y Hj. rewrite Hs' in Hj. apply lookup_insert_Some in Hj as [[<- <-]|[Hne Hj]]; [done|].
    eapply (sock_ok_other s s' L L' k); [done|done|by apply Hd'|done|done|by apply (si_sock s L Hs)].
  - intros j j' y y' i Hj Hj' Hi Hi'. rewrite Hs' in Hj, Hj'.
    apply lookup_insert_Some in Hj as [[<- <-]|[Hne Hj]], Hj' as [[E Ey]|[Hne' Hj']]; subst; try done.
    + by edestruct (Hinj j' y' i).
    + by edestruct (Hinj j y i).
    + by eapply (si_inj s L Hs).
  - intros g l Hl. destruct (Hr g l Hl) as (l0 & Hl0 & Hj). destruct (si_list s L Hs g l0 Hl0) as (_ & Hg & Hm).
    split_and!; [by apply Hrep|by apply (ok_grp k s s' Hk)|]. intros j Hjl. rewrite Hs'.
    destruct (decide (j = k)) as [->|]; [rewrite lookup_insert_eq; eauto|]. rewrite lookup_insert_ne by done.
    apply Hm. by apply Hj.
Qed.

Lemma streams_step s s' k x x' :
  socks s !! k = Some x -> socks s' = <[k := x']> (socks s) -> others_keep k s s' ->
  streams s' = <[k := stream s' k x']> (streams s).
Proof.
  intros Hx Hs' Hk. apply streams_upd; [|intros j; rewrite Hs', lookup_insert_None|by rewrite Hs', lookup_insert_eq].
  - intros j y Hne Hj. exists y. rewrite Hs', lookup_insert_ne by done. split; [done|].
    apply (stream_other s s' j y); [by intros i; eapply (ok_view k s s' Hk)|by apply (ok_kern k s s' Hk)].
  - split; [by intros [? _]|]. intros Hj. split; [done|]. intros ->. congruence.
Qed.

(** ** The lists *)

Lemma filter_ne_id (k : loc) (l : list loc) : k ∉ l -> filter (fun j => j <> k) l = l.
Proof.
  induction l as [|a l IH]; [done|]. intros [Ha Hl]%not_elem_of_cons.
  rewrite filter_cons_True by done. by rewrite IH.
Qed.

Lemma list_remove s L g l k :
  sinv s L -> L !! g = Some l -> k ∈ l ->
  exists q', TAILQ_REMOVE g k (with_data s) = Some q' /\
    (forall h m, <[g := filter (fun j => j <> k) l]> L !! h = Some m -> tq_rep q' h m) /\
    (forall j, is_Some (nodes (with_data s) !! j) -> is_Some (nodes q' !! j)).
Proof.
  intros Hs Hl Hk. destruct (si_list s L Hs g l Hl) as (Hrep & _ & _).
  apply list_elem_of_split in Hk as (l1 & l2 & ->). destruct (TAILQ_REMOVE_rep _ g l1 k l2 Hrep) as (q' & Hq & Hr & Ht).
  exists q'. split_and!; [done| |].
  - assert (Hf : filter (fun j => j <> k) (l1 ++ k :: l2) = l1 ++ l2).
    { destruct Hrep as (_ & _ & _ & (H1 & H2 & H3)%NoDup_app). apply NoDup_cons in H3 as [H3 H4].
      rewrite filter_app, filter_cons_False by auto. rewrite !filter_ne_id; [done|done|].
      intros Hk. by apply (H2 k Hk); left. }
    rewrite Hf. intros h m [[<- <-]|[Hne Hm]]%lookup_insert_Some; [done|].
    eapply only_touches_rep; [done|done| |by apply (si_list s L Hs)]. by eapply sinv_disjoint.
  - intros j. by eapply TAILQ_REMOVE_live.
Qed.

Lemma list_insert s L g l k :
  sinv s L -> L !! g = Some l -> (forall h m, L !! h = Some m -> k ∉ m) -> is_Some (nodes (with_data s) !! k) ->
  exists q', TAILQ_INSERT_TAIL g k (with_data s) = Some q' /\
    (forall h m, <[g := l ++ [k]]> L !! h = Some m -> tq_rep q' h m) /\
    (forall j, is_Some (nodes (with_data s) !! j) -> is_Some (nodes q' !! j)).
Proof.
  intros Hs Hl Hk Hn. destruct (si_list s L Hs g l Hl) as (Hrep & _ & _).
  destruct (TAILQ_INSERT_TAIL_rep _ g l k Hrep (Hk g l Hl) Hn) as (q' & Hq & Hr & Ht).
  exists q'. split_and!; [done| |].
  - intros h m [[<- <-]|[Hne Hm]]%lookup_insert_Some; [done|].
    eapply only_touches_rep; [done|done| |by apply (si_list s L Hs)].
    intros j [Hj| ->%list_elem_of_singleton]%elem_of_app; [|by apply Hk with h]. by apply (sinv_disjoint s L g h l m).
  - intros j Hj. destruct (decide (j ∈ l ++ [k])) as [Hin|Hin]; [by eapply tq_rep_elem|].
    destruct Ht as [_ Ht]. by rewrite Ht.
Qed.

(** ** Reading *)

(** The kernel's result, with the bytes it delivered. *)
Definition after_readv (k : loc) (iov : list iovec) (q : list Z) (rc e : Z) (s : sst) : sst :=
  set_errno e (set_kern <[k := drop (Z.to_nat rc) q]>
    (set_ps (set_mem (scatter iov (take (Z.to_nat rc) q)) (ps s)) s)).

Lemma sys_readv_ok s k iov kr q :
  kern s !! k = Some q -> fits (mem (ps s)) iov ->
  exists rc e, sys_readv k iov kr s = Ok (rc, after_readv k iov q rc e s) /\
    rc <= iov_total iov /\ (Z.to_nat rc <= length q)%nat /\
    (0 < kr -> q <> [] -> 0 < iov_total iov -> 0 < rc).
Proof.
  intros Hq Hf.
  assert (Hid : forall rc e, rc <= 0 -> after_readv k iov q rc e s = set_errno e s).
  { intros rc e Hrc. unfold after_readv. replace (Z.to_nat rc) with 0%nat by lia.
    unfold set_kern, set_ps, set_mem, set_errno. cbn. rewrite take_0, drop_0, scatter_nil, insert_id by done.
    by destruct s as [[] ]. }
  pose proof (total_nonneg _ _ Hf) as Htot.
  unfold sys_readv. destruct (Z.leb_spec kr 0).
  - exists kr, (errno s). rewrite Hid by done. split_and!; [by destruct s|lia..].
  - mstep. rewrite Hq. cbn [lift_opt]. mstep.
    destruct (Z.eqb_spec (iov_total iov) 0) as [E|E].
    { exists 0, (errno s). rewrite Hid by done. split_and!; [by destruct s|lia..]. }
    destruct (Z.eqb_spec (Z.min kr (Z.min (iov_total iov) (Z.of_nat (length q)))) 0) as [E'|E'].
    { exists (-1), EAGAIN. rewrite Hid by lia. split_and!; [done|lia..|].
      intros _ Hne _. destruct q; [done|]. cbn in E'. lia. }
    exists (Z.min kr (Z.min (iov_total iov) (Z.of_nat (length q)))), (errno s). split_and!; [|lia..].
    erewrite M_bind_ok by (apply on_pipes_ok; by apply write_iovs_ok). mstep. by destruct s.
Qed.

(** The result of a read: [rc] bytes of the stream are in the caller's memory,
    and the rest is still to come. *)
Record received (s : sst) (k : loc) (x : sock) (iov : list iovec) (rc : Z) (s' : sst) : Prop := Received {
  rv_fits : rc <= iov_total iov /\ (Z.to_nat rc <= length (stream s k x))%nat;
  rv_streams : streams s' = <[k := drop (Z.to_nat rc) (stream s k x)]> (streams s);
  rv_mem : forall c, c ∉ owned (ps s) ->
           mem (ps s') !! c = scatter iov (take (Z.to_nat rc) (stream s k x)) (mem (ps s)) !! c;
  rv_owned : owned (ps s') ≡ₚ owned (ps s) }.

(** The lists keep their sockets, but for [k]. *)
Definition shrinks (k : loc) (L L' : gmap nat (list loc)) : Prop :=
  forall g, L' !! g = L !! g \/ L' !! g = filter (fun j => j <> k) <$> L !! g.

Lemma shrinks_refl k L : shrinks k L L.
Proof. intros g. by left. Qed.

Lemma shrinks_remove k L g l : L !! g = Some l -> shrinks k L (<[g := filter (fun j => j <> k) l]> L).
Proof.
  intros Hl h. destruct (decide (h = g)) as [->|].
  - right. by rewrite lookup_insert_eq, Hl.
  - left. by rewrite lookup_insert_ne.
Qed.

Lemma shrinks_trans k L1 L2 L3 : shrinks k L1 L2 -> shrinks k L2 L3 -> shrinks k L1 L3.
Proof.
  intros H12 H23 g. destruct (H12 g) as [E|E], (H23 g) as [E'|E']; rewrite E in E'; auto.
  right. rewrite E'. destruct (L1 !! g) as [l|]; [|done]. cbn. f_equal. by apply list_filter_filter_r.
Qed.

Lemma shrinks_relist k L L' : shrinks k L L' -> relist k L L' /\ dom L' = dom L.
Proof.
  intros H. split.
  - intros g l' Hl'. destruct (H g) as [E|E]; rewrite E in Hl'; [by exists l'|].
    apply fmap_Some in Hl' as (l & Hl & ->). exists l. split; [done|]. intros j Hj.
    rewrite list_elem_of_filter. naive_solver.
  - apply set_eq. intros g. rewrite !elem_of_dom. destruct (H g) as [-> | ->]; [done|]. by rewrite fmap_is_Some.
Qed.

(** ** A change of the flags of a socket with its list *)

Definition listed (x : sock) : bool := pipe_has_data x || socket_has_data x.

(** What a step that turns [x] into [x'] does to the lists: nothing, or it takes
    the socket off, or it appends it. *)
Inductive list_step (s s' : sst) (L L' : gmap nat (list loc)) (k : loc) (x x' : sock) : Prop :=
  | step_keep : with_data s' = with_data s -> L' = L ->
      (group_impl x <> None -> listed x' = listed x) -> list_step s s' L L' k x x'
  | step_remove g l : group_impl x = Some g -> L !! g = Some l -> listed x = true -> listed x' = false ->
      TAILQ_REMOVE g k (with_data s) = Some (with_data s') ->
      L' = <[g := filter (fun j => j <> k) l]> L -> list_step s s' L L' k x x'
  | step_insert g l : group_impl x = Some g -> L !! g = Some l -> listed x = false -> listed x' = true ->
      TAILQ_INSERT_TAIL g k (with_data s) = Some (with_data s') ->
      L' = <[g := l ++ [k]]> L -> list_step s s' L L' k x x'.

Lemma list_step_ok s s' L L' k x x' :
  sinv s L -> socks s !! k = Some x -> group_impl x' = group_impl x ->
  list_step s s' L L' k x x' ->
  relist k L L' /\ dom L' = dom L /\ (forall g l, L' !! g = Some l -> tq_rep (with_data s') g l) /\
  (forall j, is_Some (nodes (with_data s) !! j) -> is_Some (nodes (with_data s') !! j)) /\
  (forall g l, L' !! g = Some l -> (k ∈ l <-> group_impl x' = Some g /\ listed x' = true)).
Proof.
  intros Hs Hx Hg Hstep. pose proof (si_sock s L Hs k x Hx) as Hok. pose proof (so_listed s L k x Hok) as Hl0.
  destruct Hstep as [Hw -> Hli|g l Hgx Hl Hon Hoff Hrm ->|g l Hgx Hl Hoff Hon Hin ->].
  - rewrite Hw, Hg. split_and!; [apply relist_refl|done|by intros; apply (si_list s L Hs)|done|].
    intros g l Hl. rewrite (Hl0 g l Hl). destruct (group_impl x) as [g'|] eqn:Eg; [|naive_solver].
    rewrite Hli by done. done.
  - assert (Hk : k ∈ l) by (by apply (Hl0 g l Hl)).
    destruct (list_remove s L g l k Hs Hl Hk) as (q' & Hq & Hrep & Hn). rewrite Hrm in Hq. injection Hq as Hq. subst q'.
    destruct (shrinks_relist k L (<[g := filter (fun j => j <> k) l]> L)) as [? ?]; [by apply shrinks_remove|].
    split_and!; try done. intros h m [[<- <-]|[Hne Hm]]%lookup_insert_Some.
    + rewrite list_elem_of_filter. rewrite Hoff. naive_solver.
    + rewrite (Hl0 h m Hm), Hg, Hgx. naive_solver.
  - assert (Hk : forall h m, L !! h = Some m -> k ∉ m).
    { intros h m Hm Hin'. apply (Hl0 h m Hm) in Hin' as [_ Hin']. unfold listed in Hoff. congruence. }
    destruct (list_insert s L g l k Hs Hl Hk (so_node s L k x Hok)) as (q' & Hq & Hrep & Hn).
    rewrite Hin in Hq. injection Hq as Hq. subst q'. split_and!; try done.
    + eapply relist_insert; [done|]. intros j Hj. rewrite elem_of_app, list_elem_of_singleton. naive_solver.
    + apply dom_insert_lookup_L. eauto.
    + intros h m [[<- <-]|[Hne Hm]]%lookup_insert_Some.
      * rewrite elem_of_app, list_elem_of_singleton, Hg. naive_solver.
      * rewrite Hg, Hgx. split; [intros ?; by edestruct Hk|naive_solver].
Qed.

Lemma sinv_k s s' L L' k x x' :
  sinv s L -> socks s !! k = Some x -> socks s' = <[k := x']> (socks s) -> inv (ps s') ->
  (forall j y i, j <> k -> socks s !! j = Some y -> recv_pipe y = Some i -> view (ps s') !! i = view (ps s) !! i) ->
  (forall j, j <> k -> kern s' !! j = kern s !! j) ->
  (forall g, is_Some (pgroups (ps s) !! g) -> is_Some (pgroups (ps s') !! g)) ->
  recv_pipe x' = recv_pipe x -> recv_buf_sz x' = recv_buf_sz x -> group_impl x' = group_impl x ->
  cb_fn x' = cb_fn x ->
  (forall i q, recv_pipe x = Some i -> view (ps s) !! i = Some q ->
     exists q', view (ps s') !! i = Some q' /\ q_cap q' = q_cap q /\ q_group q' = q_group q) ->
  is_Some (kern s' !! k) -> pipe_has_data x' = negb (bool_decide (piped s' x' = [])) ->
  (group_impl x = None -> socket_has_data x' = false) ->
  list_step s s' L L' k x x' -> sinv s' L'.
Proof.
  intros Hs Hx Hs' Hinv Hv Hkern Hgr Hrp Hsz Hg Hcb Hq Hk Hflag Hsock Hstep.
  pose proof (si_sock s L Hs k x Hx) as [O1 O2 O3 O4 O5 O6 O7 O8].
  destruct (list_step_ok s s' L L' k x x' Hs Hx Hg Hstep) as (Hr & Hd & Hrep & Hn & Hl).
  eapply (sinv_upd s s' L L' k x x'); try done; [by left|]. split; try done.
  - intros i Hi. rewrite Hrp in Hi. destruct (O1 i Hi) as (q & Hq1 & Hq2 & Hq3).
    destruct (Hq i q Hi Hq1) as (q' & Hv' & Hc & Hgq). exists q'. rewrite Hc, Hgq, Hsz, Hg. auto.
  - by rewrite Hg.
  - rewrite Hg. intros g Hgx. rewrite <- elem_of_dom, Hd, elem_of_dom. by apply O4.
  - by apply Hn.
  - by rewrite Hcb, Hg.
Qed.
