(* ===== verification/SockRead.v ===== *)
(** * Reading from a socket delivers its stream

    posix_sock_readv, whichever way it takes (straight from the kernel, through
    the pipe, or from the pipe alone), hands over the next bytes of the stream
    in order and keeps the rest. *)

From S2P Require Import Prelude Tailq Pipe PipeLemmas IovLemmas PipeInv PipeOps Sock SockList SockInv.

(** Memory of the caller: valid, and not a buffer of a pipe. *)
Definition user_iovs (s : sst) (iov : list iovec) : Prop :=
  fits (mem (ps s)) iov /\ forall c, c ∈ iov_bufs iov -> c ∉ owned (ps s).

(** A write to the caller's memory. *)
Lemma user_write s iov bs :
  inv (ps s) -> user_iovs s iov ->
  inv (set_mem (scatter iov bs) (ps s)) /\ view (set_mem (scatter iov bs) (ps s)) = view (ps s).
Proof.
  intros Hinv [Hf Hd]. apply inv_mem; [|done]. intros c Hc. apply scatter_other. intros Hin. by apply (Hd c).
Qed.

Lemma direct_ok s L k x iov kr :
  sinv s L -> socks s !! k = Some x -> piped s x = [] -> user_iovs s iov ->
  exists rc s', sys_readv k iov kr s = Ok (rc, s') /\ sinv s' L /\ received s k x iov rc s' /\
    socks s' = socks s /\
    (0 < kr -> stream s k x <> [] -> 0 < iov_total iov -> 0 < rc).
Proof.
  intros Hs Hx Hp Hu. pose proof (si_sock s L Hs k x Hx) as Hok. destruct (so_kern s L k x Hok) as [q Hq].
  destruct (sys_readv_ok s k iov kr q Hq (proj1 Hu)) as (rc & e & Hrun & Hle & Hlen & Hpos).
  assert (Hst : stream s k x = q) by (unfold stream; by rewrite Hp, Hq).
  exists rc, (after_readv k iov q rc e s). set (s' := after_readv k iov q rc e s).
  destruct (user_write s iov (take (Z.to_nat rc) q) (si_pipes s L Hs) Hu) as [Hinv Hview].
  change (set_mem (scatter iov (take (Z.to_nat rc) q)) (ps s)) with (ps s') in Hinv, Hview.
  assert (Hsame : socks s' = <[k := x]> (socks s)) by (by rewrite insert_id).
  assert (Hpiped : piped s' x = piped s x) by (unfold piped; by rewrite Hview).
  assert (Hko : forall j, j <> k -> kern s' !! j = kern s !! j) by (intros j Hj; by apply lookup_insert_ne).
  split_and!; [done| | |done|by rewrite Hst].
  - eapply (sinv_k s s' L L k x x); try done; [by rewrite Hview|..].
    + intros i q0 Hi Hq0. rewrite Hview. eauto.
    + cbn. rewrite lookup_insert_eq. eauto.
    + rewrite Hpiped. by apply (so_flag s L k x Hok).
    + by apply (so_alone s L k x Hok).
    + by apply step_keep.
  - split; [by rewrite Hst| |by rewrite Hst|done]. rewrite (streams_step s s' k x x); [|done|done|].
    + f_equal. unfold stream. rewrite Hpiped, Hp, Hq. cbn. by rewrite lookup_insert_eq.
    + split; try done. by rewrite Hview.
Qed.

Lemma errno_sinv s L e : sinv s L -> sinv (set_errno e s) L.
Proof.
  intros [H1 H2 H3 H4]. split; try done. intros k x Hx. destruct (H2 k x Hx). by split.
Qed.

(** Nothing was read. *)
Lemma nothing_received s k x iov rc e :
  socks s !! k = Some x -> rc <= 0 -> fits (mem (ps s)) iov -> received s k x iov rc (set_errno e s).
Proof.
  intros Hx Hrc Hf. split.
  - split; [|lia]. pose proof (iov_total_nonneg _ _ Hf). pose proof (iov_total_live _ _ Hf). lia.
  - replace (Z.to_nat rc) with 0%nat by lia. rewrite drop_0. transitivity (streams s); [done|].
    symmetry. by apply insert_id, streams_lookup.
  - intros c _. replace (Z.to_nat rc) with 0%nat by lia. by rewrite take_0, scatter_nil.
  - done.
Qed.

(** [n] bytes of the pipe of [x] were read, and the flags of [x] became those of
    [x']. *)
Lemma popped_ok s L L' k x x' i q n m1 p2 wd :
  sinv s L -> socks s !! k = Some x -> recv_pipe x = Some i -> view (ps s) !! i = Some q ->
  (Z.to_nat n <= length (q_bytes q))%nat ->
  view m1 = view (ps s) -> dom (pgroups m1) = dom (pgroups (ps s)) ->
  becomes m1 (<[i := popped n q]> (view m1)) p2 ->
  recv_pipe x' = Some i -> recv_buf_sz x' = recv_buf_sz x -> group_impl x' = group_impl x ->
  cb_fn x' = cb_fn x -> socket_has_data x' = socket_has_data x ->
  pipe_has_data x' = negb (bool_decide (drop (Z.to_nat n) (q_bytes q) = [])) ->
  let s3 := set_socks <[k := x']> (set_with_data wd (set_ps p2 s)) in
  list_step s s3 L L' k x x' ->
  sinv s3 L' /\ streams s3 = <[k := drop (Z.to_nat n) (stream s k x)]> (streams s).
Proof.
  intros Hs Hx Hi Hq Hn Hv1 Hd1 [Hinv Hm Ho Hg Hv] H1 H2 H3 H4 H5 H6 s3 Hst.
  pose proof (si_sock s L Hs k x Hx) as Hok. rewrite Hv1 in Hv.
  assert (Hvo : forall j y i', j <> k -> socks s !! j = Some y -> recv_pipe y = Some i' ->
            view p2 !! i' = view (ps s) !! i').
  { intros j y i' Hj Hy Hi'. rewrite Hv. apply lookup_insert_ne. intros <-. apply Hj. by eapply (si_inj s L Hs). }
  assert (Hgr : forall g, is_Some (pgroups (ps s) !! g) -> is_Some (pgroups p2 !! g)).
  { intros g. rewrite <- !elem_of_dom, Hg, Hd1. done. }
  assert (Hp' : piped s3 x' = drop (Z.to_nat n) (q_bytes q))
    by (unfold piped; rewrite H1; cbn; by rewrite Hv, lookup_insert_eq).
  split.
  - eapply (sinv_k s s3 L L' k x x'); try done; [by rewrite H1, Hi| |by apply (so_kern s L k x Hok)|by rewrite Hp'|].
    + intros i' q' Hi' Hq'. rewrite Hi in Hi'. simplify_eq. exists (popped n q). split; [|done].
      cbn. by rewrite Hv, lookup_insert_eq.
    + rewrite H5. by apply (so_alone s L k x Hok).
  - rewrite (streams_step s s3 k x x'); [|done|done|].
    + f_equal. unfold stream. rewrite Hp'. unfold piped. rewrite Hi, Hq. cbn. by rewrite drop_app_le.
    + split; try done. by apply (list_step_ok s s3 L L' k x x').
Qed.

(** The end of posix_sock_recv_from_pipe: the flag and the list follow. *)
Lemma drained_ok s L k x i q n p2 m1 :
  sinv s L -> socks s !! k = Some x -> recv_pipe x = Some i -> view (ps s) !! i = Some q ->
  0 < n <= Z.of_nat (length (q_bytes q)) ->
  view m1 = view (ps s) -> dom (pgroups m1) = dom (pgroups (ps s)) ->
  becomes m1 (<[i := popped n q]> (view m1)) p2 ->
  exists s3 L', (if Z.of_nat (length (drop (Z.to_nat n) (q_bytes q))) =? 0 then
      _ ← c_assert (pipe_has_data x);
      _ ← match group_impl x with
          | Some g => if negb (socket_has_data x) then on_list (TAILQ_REMOVE g k) else mret tt
          | None => mret tt
          end;
      update_sock k (with_pipe_data false)
    else mret tt) (set_ps p2 s) = Ok (tt, s3) /\
    sinv s3 L' /\ shrinks k L L' /\ ps s3 = p2 /\
    streams s3 = <[k := drop (Z.to_nat n) (stream s k x)]> (streams s).
Proof.
  intros Hs Hx Hi Hq Hn Hv1 Hd1 Hb. pose proof (si_sock s L Hs k x Hx) as Hok.
  assert (Hpd : pipe_has_data x = true).
  { rewrite (so_flag s L k x Hok). unfold piped. rewrite Hi, Hq. cbn. destruct (q_bytes q); [cbn in Hn; lia|done]. }
  pose proof (fun L' x' wd => popped_ok s L L' k x x' i q n m1 p2 wd Hs Hx Hi Hq ltac:(lia) Hv1 Hd1 Hb) as Hfin.
  set (s2 := set_ps p2 s) in *. set (x0 := with_pipe_data false x).
  destruct (Z.eqb_spec (Z.of_nat (length (drop (Z.to_nat n) (q_bytes q)))) 0) as [E|E].
  - assert (En : drop (Z.to_nat n) (q_bytes q) = []) by (apply nil_length_inv; lia). rewrite Hpd, En in *. mstep.
    destruct (decide (group_impl x <> None /\ socket_has_data x = false)) as [[Hgi Hsd]|Hkeep].
    + destruct (group_impl x) as [g|] eqn:Eg; [|done]. rewrite Hsd. cbn [negb].
      destruct (so_group s L k x Hok g Eg) as [l Hl].
      assert (Hk : k ∈ l) by (apply (so_listed s L k x Hok g l Hl); by rewrite Hpd).
      destruct (list_remove s L g l k Hs Hl Hk) as (q' & Hq' & _).
      rewrite (M_bind_ok _ _ _ _ _ (on_list_ok (TAILQ_REMOVE g k) s2 q' Hq')), (update_sock_ok _ k x) by done.
      destruct (Hfin (<[g := filter (fun j => j <> k) l]> L) x0 q') as [? ?]; try done.
      * eapply step_remove; try done; unfold listed; cbn; rewrite ?Hpd, ?Hsd; done.
      * eexists _, _. split_and!; [done|done|by apply shrinks_remove|done|done].
    + rewrite (M_bind_ok _ _ s2 tt s2).
      2:{ destruct (group_impl x); [|done]. destruct (socket_has_data x); [done|]. by destruct Hkeep. }
      rewrite (update_sock_ok s2 k x) by done. destruct (Hfin L x0 (with_data s2)) as [? ?]; try done.
      * apply step_keep; [done|done|]. intros Hgi. unfold listed. cbn. rewrite Hpd. cbn.
        destruct (socket_has_data x); [done|]. by destruct Hkeep.
      * eexists _, L. split_and!; [done|by destruct s|apply shrinks_refl|done|by destruct s].
  - assert (Hne : drop (Z.to_nat n) (q_bytes q) <> []) by (intros H'; by rewrite H' in E).
    destruct (Hfin L x (with_data s2)) as [Hf1 Hf2]; try done; [by rewrite Hpd, bool_decide_false|by apply step_keep|].
    assert (Hs2 : set_socks <[k := x]> (set_with_data (with_data s2) s2) = s2)
      by (unfold set_socks; cbn; rewrite insert_id by done; by destruct s).
    rewrite Hs2 in Hf1, Hf2. exists s2, L. split_and!; [done|done|apply shrinks_refl|done|done].
Qed.

Lemma recv_from_pipe_ok s L k x i iov :
  sinv s L -> socks s !! k = Some x -> recv_pipe x = Some i -> iov <> [] -> user_iovs s iov ->
  exists rc s' L', posix_sock_recv_from_pipe k iov s = Ok (rc, s') /\ sinv s' L' /\ shrinks k L L' /\
    received s k x iov rc s' /\ (piped s x <> [] -> live iov <> [] -> 0 < rc).
Proof.
  intros Hs Hx Hi Hne Hu. pose proof (si_sock s L Hs k x Hx) as Hok.
  destruct (so_pipe s L k x Hok i Hi) as (q & Hq & Hcap & _). pose proof (si_pipes s L Hs) as Hinv.
  destruct (queue_cap _ _ _ Hinv Hq) as [Hc Hlen].
  assert (Hp : piped s x = q_bytes q) by (unfold piped; by rewrite Hi, Hq).
  destruct (reader_all (ps s) i q Hinv Hq) as (vs & Hget & Hvs).
  unfold posix_sock_recv_from_pipe. rewrite (M_bind_ok _ _ _ _ _ (load_sock_ok s k x Hx)), Hi. cbn [lift_opt].
  mstep. rewrite <- Hcap, wrap_small by lia.
  rewrite (M_bind_ok _ _ _ _ _ (on_pipes_ok _ s _ _ Hget)). replace (set_ps (ps s) s) with s by (by destruct s).
  destruct (Z.ltb_spec (Z.of_nat (length (q_bytes q))) 0); [lia|].
  destruct (Z.eqb_spec (Z.of_nat (length (q_bytes q))) 0) as [E|E].
  { eexists (-1), _, L. split_and!; [done|by apply errno_sinv|apply shrinks_refl|by apply nothing_received; [| |apply Hu]|].
    rewrite Hp. intros []. apply nil_length_inv. lia. }
  destruct Hvs as (Hv0 & Hvl & Hvf & Hvb & Hvm & Hvo); [intros H'; by rewrite H' in E|].
  pose proof (iovcpy_ok (length vs + length iov) vs iov (ps s) Hv0 Hne) as Hcpy.
  specialize (Hcpy ltac:(pose proof (live_length iov); lia) Hvm Hvf (proj1 Hu)).
  specialize (Hcpy ltac:(intros c Hin Hc'; apply (proj2 Hu c Hc'); eapply buf_of_owned, Hvo, Hin)).
  rewrite (M_bind_ok _ _ _ _ _ (on_pipes_ok _ s _ _ Hcpy)). unfold copied in *. rewrite Hvb in *. clear Hcpy.
  set (n := Nat.min _ _). pose proof (iov_total_nonneg _ _ (proj1 Hu)) as Htot.
  pose proof (iov_total_live _ _ (proj1 Hu)) as Htl.
  assert (Hm1 : set_mem (scatter (live iov) (take n (q_bytes q))) (ps s)
            = set_mem (scatter iov (take n (q_bytes q))) (ps s)).
  { unfold set_mem. rewrite scatter_live; [done|apply Hu|]. rewrite length_take. lia. }
  rewrite Hm1. set (m1 := set_mem _ (ps s)). destruct (Z.eqb_spec (Z.of_nat n) 0) as [En|En].
  { assert (m1 = ps s) as ->. { unfold m1, set_mem. replace n with 0%nat by lia. rewrite take_0, scatter_nil. by destruct (ps s). }
    replace (set_ps (ps s) s) with s by (by destruct s). eexists (-1), _, L.
    split_and!; [done|by apply errno_sinv|apply shrinks_refl|by apply nothing_received; [| |apply Hu]|].
    intros _ Hlive. pose proof (live_total _ _ (proj1 Hu) Hlive). lia. }
  destruct (user_write s iov (take n (q_bytes q)) Hinv Hu) as [Hinv1 Hview1]. fold m1 in Hinv1, Hview1.
  destruct (pop_ok m1 i q (Z.of_nat n) Hinv1) as (p2 & Hadv & Hb); [by rewrite Hview1|lia|].
  assert (Hw : u32 (Z.of_nat n) = Z.of_nat n) by (apply wrap_small; lia). rewrite Hw.
  rewrite (M_bind_ok _ _ _ _ _ (on_pipes_ok _ (set_ps m1 s) _ _ Hadv)).
  change (set_ps p2 (set_ps m1 s)) with (set_ps p2 s).
  assert (Hav : view p2 !! i = Some (popped (Z.of_nat n) q)) by (by rewrite (be_view _ _ _ Hb), lookup_insert_eq).
  pose proof (available_ok p2 i _ (be_inv _ _ _ Hb) Hav) as Ha. cbn [popped q_bytes] in Ha.
  rewrite (M_bind_ok _ _ _ _ _ (on_pipes_ok _ (set_ps p2 s) _ _ Ha)).
  change (set_ps p2 (set_ps p2 s)) with (set_ps p2 s).
  destruct (drained_ok s L k x i q (Z.of_nat n) p2 m1) as (s3 & L' & Hrun & Hs3 & Hsh & Hps & Hstr); try done; [lia|].
  rewrite (M_bind_ok _ _ _ _ _ Hrun). exists (Z.of_nat n), s3, L'. split_and!; [done|done|done| |lia].
  assert (Htk : take (Z.to_nat (Z.of_nat n)) (stream s k x) = take n (q_bytes q)).
  { unfold stream. rewrite Hp, Nat2Z.id. rewrite take_app_le by lia. done. }
  split; [| |rewrite Htk|].
  - split; [lia|]. unfold stream. rewrite Hp, length_app. lia.
  - done.
  - intros c Hc'. by rewrite Hps, (be_mem _ _ _ Hb).
  - rewrite Hps. by rewrite (be_owned _ _ _ Hb).
Qed.

(** The flags of a socket after a read into its pipe. *)
Definition read_flags (rc avail : Z) (x : sock) : sock :=
  if rc <=? 0 then with_socket_data false x
  else if rc <? avail then with_socket_data false (with_pipe_data true x) else with_pipe_data true x.

Lemma read_flags_same rc avail x :
  recv_pipe (read_flags rc avail x) = recv_pipe x /\ recv_buf_sz (read_flags rc avail x) = recv_buf_sz x /\
  group_impl (read_flags rc avail x) = group_impl x /\ cb_fn (read_flags rc avail x) = cb_fn x /\
  pipe_has_data (read_flags rc avail x) = (0 <? rc) || pipe_has_data x.
Proof.
  unfold read_flags. destruct (Z.leb_spec rc 0), (Z.ltb_spec 0 rc); try lia; destruct (rc <? avail); done.
Qed.

(** [rc] bytes moved from the kernel to the end of the pipe of [x]. *)
Lemma moved_ok s s' L L' k x i q rest rc avail :
  sinv s L -> socks s !! k = Some x -> recv_pipe x = Some i -> view (ps s) !! i = Some q -> q_bytes q = [] ->
  kern s !! k = Some rest -> (Z.to_nat rc <= length rest)%nat ->
  (group_impl x = None \/ socket_has_data x = true) ->
  inv (ps s') ->
  view (ps s') = <[i := Queue (take (Z.to_nat rc) rest) (q_cap q) (q_group q)]> (view (ps s)) ->
  dom (pgroups (ps s')) = dom (pgroups (ps s)) ->
  kern s' = <[k := drop (Z.to_nat rc) rest]> (kern s) ->
  socks s' = <[k := read_flags rc avail x]> (socks s) ->
  list_step s s' L L' k x (read_flags rc avail x) ->
  sinv s' L' /\ streams s' = streams s.
Proof.
  intros Hs Hx Hi Hq He Hr Hlen Hg Hinv Hv Hd Hk Hso Hst. pose proof (si_sock s L Hs k x Hx) as Hok.
  destruct (read_flags_same rc avail x) as (F1 & F2 & F3 & F4 & F5). set (x' := read_flags rc avail x) in *.
  assert (Hvo : forall j y i', j <> k -> socks s !! j = Some y -> recv_pipe y = Some i' ->
            view (ps s') !! i' = view (ps s) !! i').
  { intros j y i' Hj Hy Hi'. rewrite Hv. apply lookup_insert_ne. intros <-. apply Hj. by eapply (si_inj s L Hs). }
  assert (Hgr : forall g, is_Some (pgroups (ps s) !! g) -> is_Some (pgroups (ps s') !! g)).
  { intros g. rewrite <- !elem_of_dom, Hd. done. }
  assert (Hpx : pipe_has_data x = false)
    by (rewrite (so_flag s L k x Hok); unfold piped; rewrite Hi, Hq; cbn; by rewrite He).
  assert (Hp' : piped s' x' = take (Z.to_nat rc) rest)
    by (unfold piped; rewrite F1, Hi, Hv, lookup_insert_eq; done).
  assert (Hko : forall j, j <> k -> kern s' !! j = kern s !! j) by (intros j Hj; by rewrite Hk, lookup_insert_ne).
  split.
  - eapply (sinv_k s s' L L' k x x'); try done.
    + intros i' q' Hi' Hq'. rewrite Hi in Hi'. simplify_eq. rewrite Hv, lookup_insert_eq. by eexists.
    + rewrite Hk, lookup_insert_eq. eauto.
    + rewrite Hp', F5, Hpx, orb_false_r. destruct (Z.ltb_spec 0 rc).
      * rewrite bool_decide_false; [done|]. intros E%(f_equal length). rewrite length_take in E. cbn in E. lia.
      * rewrite bool_decide_true; [done|]. by replace (Z.to_nat rc) with 0%nat by lia.
    + intros Hgn. pose proof (so_alone s L k x Hok Hgn). unfold x', read_flags.
      destruct (rc <=? 0); [done|]. by destruct (rc <? avail).
  - rewrite (streams_step s s' k x x'); [|done|done|].
    + apply insert_id. rewrite (streams_lookup s k x Hx). f_equal. unfold stream. rewrite Hp', Hk, lookup_insert_eq, Hr.
      unfold piped. rewrite Hi, Hq. cbn. rewrite He. cbn. by rewrite take_drop.
    + split; try done. by apply (list_step_ok s s' L L' k x x').
Qed.

(** The end of posix_sock_read when the kernel had nothing. *)
Lemma read_nothing s L k x (rc : Z) (s1 : sst) :
  sinv s L -> socks s !! k = Some x -> pipe_has_data x = false ->
  (group_impl x = None \/ socket_has_data x = true) ->
  socks s1 = socks s -> with_data s1 = with_data s ->
  exists q' L', (_ ← match group_impl x with
      | Some g => if socket_has_data x then on_list (TAILQ_REMOVE g k) else mret tt
      | None => mret tt
      end;
      _ ← update_sock k (with_socket_data false); mret rc) s1
    = Ok (rc, set_socks <[k := with_socket_data false x]> (set_with_data q' s1)) /\
    shrinks k L L' /\
    forall s', with_data s' = q' -> list_step s s' L L' k x (with_socket_data false x).
Proof.
  intros Hs Hx Hpd Hg Hs1 Hw1. pose proof (si_sock s L Hs k x Hx) as Hok.
  assert (Hx1 : forall q, socks (set_with_data q s1) !! k = Some x) by (intros q; cbn; by rewrite Hs1).
  destruct (group_impl x) as [g|] eqn:Eg.
  - destruct Hg as [Hg|Hsd]; [done|]. rewrite Hsd. destruct (so_group s L k x Hok g Eg) as [l Hl].
    assert (Hk : k ∈ l) by (apply (so_listed s L k x Hok g l Hl); by rewrite Hsd, orb_true_r).
    destruct (list_remove s L g l k Hs Hl Hk) as (q' & Hq' & _). exists q', (<[g := filter (fun j => j <> k) l]> L).
    rewrite (M_bind_ok _ _ _ _ _ (on_list_ok (TAILQ_REMOVE g k) s1 q' ltac:(by rewrite Hw1))).
    rewrite (M_bind_ok _ _ _ _ _ (update_sock_ok _ k x _ (Hx1 q'))). split_and!; [done|by apply shrinks_remove|].
    intros s' Hw. eapply step_remove; try done; unfold listed; cbn; rewrite ?Hpd, ?Hsd; [done|done|by rewrite Hw].
  - exists (with_data s), L. mstep. rewrite <- Hw1. rewrite (M_bind_ok _ _ s1 tt (set_socks <[k := with_socket_data false x]> s1)).
    2:{ apply update_sock_ok. by rewrite Hs1. }
    split_and!; [by destruct s1|apply shrinks_refl|]. intros s' Hw. apply step_keep; [by rewrite Hw|done|by rewrite Eg].
Qed.

(** The end of posix_sock_read when the kernel delivered bytes. *)
Lemma read_something k x (rc avail : Z) (s2 : sst) :
  socks s2 !! k = Some x -> (group_impl x = None \/ socket_has_data x = true) -> 0 < rc ->
  (_ ← match group_impl x with Some _ => c_assert (socket_has_data x) | None => mret tt end;
   _ ← update_sock k (with_pipe_data true);
   _ ← (if rc <? avail then update_sock k (with_socket_data false) else mret tt);
   mret rc) s2
  = Ok (rc, set_socks <[k := read_flags rc avail x]> s2).
Proof.
  intros Hx Hg Hrc. rewrite (M_bind_ok _ _ s2 tt s2).
  2:{ destruct (group_impl x); [|done]. by destruct Hg as [?| ->]. }
  rewrite (M_bind_ok _ _ _ _ _ (update_sock_ok s2 k x _ Hx)). unfold read_flags.
  destruct (Z.leb_spec rc 0); [lia|]. destruct (rc <? avail); [|done].
  erewrite M_bind_ok by (apply update_sock_ok; cbn; apply lookup_insert_eq). unfold set_socks. cbn.
  by rewrite insert_insert_eq.
Qed.

Lemma sock_read_ok s L k x i kr :
  sinv s L -> socks s !! k = Some x -> recv_pipe x = Some i -> pipe_has_data x = false ->
  (group_impl x = None \/ socket_has_data x = true) ->
  exists rc s' L', posix_sock_read k kr s = Ok (rc, s') /\ sinv s' L' /\ shrinks k L L' /\
    streams s' = streams s /\ owned (ps s') ≡ₚ owned (ps s) /\
    (forall c, c ∉ owned (ps s) -> mem (ps s') !! c = mem (ps s) !! c) /\
    socks s' !! k = Some (read_flags rc (recv_buf_sz x) x) /\
    (0 < kr -> stream s k x <> [] -> 0 < rc).
Proof.
  intros Hs Hx Hi Hpd Hg. pose proof (si_sock s L Hs k x Hx) as Hok. pose proof (si_pipes s L Hs) as Hinv.
  destruct (so_pipe s L k x Hok i Hi) as (q & Hq & Hcap & _). destruct (so_kern s L k x Hok) as [rest Hrest].
  assert (He : q_bytes q = []).
  { pose proof (so_flag s L k x Hok) as Hf. rewrite Hpd in Hf. unfold piped in Hf. rewrite Hi, Hq in Hf. cbn in Hf.
    by destruct (q_bytes q). }
  assert (Hst : stream s k x = rest) by (unfold stream, piped; rewrite Hi, Hq, Hrest; cbn; by rewrite He).
  destruct (queue_cap _ _ _ Hinv Hq) as [Hc _]. destruct (writer_all (ps s) i q Hinv Hq He)
    as (vs & p1 & Hget & Hb1 & Hw & Hf & Htot & _ & Hvo & _ & _). pose proof Hb1 as [Hinv1 Hm1 Ho1 Hg1 Hv1].
  unfold posix_sock_read. rewrite (M_bind_ok _ _ _ _ _ (load_sock_ok s k x Hx)), Hi. cbn [lift_opt].
  mstep. rewrite <- Hcap, wrap_small by lia. rewrite (M_bind_ok _ _ _ _ _ (on_pipes_ok _ s _ _ Hget)).
  destruct (Z.leb_spec (q_cap q) 0); [lia|].
  destruct (sys_readv_ok (set_ps p1 s) k vs kr rest) as (rc & e & Hrun & Hle & Hlen & Hpos);
    [done|done|]. rewrite (M_bind_ok _ _ _ _ _ Hrun). rewrite Hpd. mstep.
  set (s1 := after_readv k vs rest rc e (set_ps p1 s)). set (x' := read_flags rc (q_cap q) x).
  pose proof (fun s' L' => moved_ok s s' L L' k x i q rest rc (q_cap q) Hs Hx Hi Hq He Hrest Hlen Hg) as Hmoved.
  destruct (Z.leb_spec rc 0) as [Hrc|Hrc].
  - assert (Hps : ps s1 = p1).
    { unfold s1, after_readv, set_mem. replace (Z.to_nat rc) with 0%nat by lia. cbn. rewrite take_0, scatter_nil.
      by destruct p1. }
    destruct (read_nothing s L k x rc s1) as (q' & L' & Hrest' & Hsh & Hls); [done..|].
    rewrite Hrest'. assert (Hx' : x' = with_socket_data false x)
      by (unfold x', read_flags; by rewrite (proj2 (Z.leb_le rc 0) Hrc)). rewrite <- Hx' in *.
    set (S := set_socks <[k := x']> (set_with_data q' s1)). assert (HS : ps S = p1) by done.
    exists rc, S, L'. split; [done|]. edestruct (Hmoved S L') as [Hsinv Hstr]; rewrite ?HS; try done; [|by apply Hls|].
    { rewrite Hv1. symmetry. apply insert_id. rewrite Hq. f_equal. destruct q as [bs c g]. cbn in *. subst bs.
      f_equal. by replace (Z.to_nat rc) with 0%nat by lia. }
    split_and!; try done; [cbn; rewrite lookup_insert_eq; unfold x'; by rewrite Hcap|].
    rewrite Hst. rewrite Htot in Hpos. intros. apply Hpos; (done || lia).
  - set (bs := take (Z.to_nat rc) rest).
    assert (Hbs : rc = Z.of_nat (length bs)) by (unfold bs; rewrite length_take; lia).
    destruct (push_ok p1 i (q_cap q) vs bs q Hinv1 Hw) as (_ & p2 & Hadv & Hb2); [by rewrite Hv1|lia|].
    change (set_mem (scatter vs bs) p1) with (ps s1) in Hadv, Hb2. rewrite <- Hbs in Hadv.
    assert (Hu : u32 rc = rc) by (apply wrap_small; lia). rewrite Hu.
    rewrite (M_bind_ok _ _ _ _ _ (on_pipes_ok _ s1 _ _ Hadv)), (read_something k x rc (q_cap q)) by done.
    destruct Hb2 as [Hinv2 Hm2 Ho2 Hg2 Hv2]. fold x'. eexists rc, _, L. split; [done|].
    edestruct (Hmoved (set_socks <[k := x']> (set_ps p2 s1)) L) as [Hsinv Hstr]; try done.
    { cbn. by rewrite Hv2, Hv1, He. }
    { cbn. by rewrite Hg2. }
    { apply step_keep; [done|done|]. intros Hgn. destruct Hg as [?|Hsd]; [done|].
      destruct (read_flags_same rc (q_cap q) x) as (_ & _ & _ & _ & F). unfold listed. rewrite F, Hsd.
      by rewrite (proj2 (Z.ltb_lt 0 rc) Hrc), orb_true_r. }
    split_and!; try done; [apply shrinks_refl|cbn; by rewrite Ho2| |cbn; apply lookup_insert_eq].
    intros c Hc'. cbn. rewrite <- Ho1 in Hc'. rewrite Hm2 by done. cbn. rewrite scatter_other; [by rewrite Hm1; rewrite <- ?Ho1|].
    by intros ?%Hvo%buf_of_owned.
Qed.

(** A step before a read that leaves the streams and the caller's memory. *)
Lemma received_after s s1 k x x1 iov rc s' :
  socks s !! k = Some x -> socks s1 !! k = Some x1 ->
  streams s1 = streams s -> owned (ps s1) ≡ₚ owned (ps s) ->
  (forall c, c ∉ owned (ps s) -> mem (ps s1) !! c = mem (ps s) !! c) ->
  received s1 k x1 iov rc s' -> received s k x iov rc s'.
Proof.
  intros Hx Hx1 Hst Ho Hm [R1 R2 R3 R4].
  assert (Hs : stream s1 k x1 = stream s k x).
  { pose proof (streams_lookup s k x Hx) as H1. pose proof (streams_lookup s1 k x1 Hx1) as H2. congruence. }
  rewrite Hs in *. split; [done|by rewrite R2, Hst| |by rewrite R4].
  intros c Hc. rewrite R3 by (by rewrite Ho). by apply scatter_agree, Hm.
Qed.

Lemma user_iovs_after s s1 iov :
  owned (ps s1) ≡ₚ owned (ps s) -> (forall c, c ∉ owned (ps s) -> mem (ps s1) !! c = mem (ps s) !! c) ->
  user_iovs s iov -> user_iovs s1 iov.
Proof.
  intros Ho Hm [Hf Hd]. split.
  - eapply fits_other; [|done]. intros c Hc. by apply Hm, Hd.
  - intros c Hc. rewrite Ho. by apply Hd.
Qed.

(** Without a pipe: the flag is taken back before the kernel is asked. *)
Lemma unflag_ok s L k x :
  sinv s L -> socks s !! k = Some x -> pipe_has_data x = false ->
  exists s1 L', (match group_impl x with
      | Some g => if socket_has_data x then _ ← update_sock k (with_socket_data false); on_list (TAILQ_REMOVE g k)
                  else mret tt
      | None => mret tt
      end) s = Ok (tt, s1) /\ sinv s1 L' /\ shrinks k L L' /\ ps s1 = ps s /\ kern s1 = kern s /\
    socks s1 !! k = Some (with_socket_data false x) /\ streams s1 = streams s.
Proof.
  intros Hs Hx Hpd. pose proof (si_sock s L Hs k x Hx) as Hok.
  assert (Hsame : socket_has_data x = false -> with_socket_data false x = x) by (destruct x; by cbn; intros ->).
  destruct (group_impl x) as [g|] eqn:Eg.
  2:{ exists s, L. rewrite Hsame by (by apply (so_alone s L k x Hok)). split_and!; try done. apply shrinks_refl. }
  destruct (socket_has_data x) eqn:Esd.
  2:{ exists s, L. rewrite Hsame by done. split_and!; try done. apply shrinks_refl. }
  destruct (so_group s L k x Hok g Eg) as [l Hl].
  assert (Hk : k ∈ l) by (apply (so_listed s L k x Hok g l Hl); by rewrite Esd, orb_true_r).
  destruct (list_remove s L g l k Hs Hl Hk) as (q' & Hq' & _).
  rewrite (M_bind_ok _ _ _ _ _ (update_sock_ok s k x _ Hx)).
  rewrite (on_list_ok (TAILQ_REMOVE g k) (set_socks <[k := with_socket_data false x]> s) q' Hq').
  set (s1 := set_with_data q' _). set (L' := <[g := filter (fun j => j <> k) l]> L). exists s1, L'.
  assert (Hst : list_step s s1 L L' k x (with_socket_data false x)).
  { eapply step_remove; try done; unfold listed; cbn; rewrite ?Hpd, ?Esd; done. }
  split_and!; [done| |by apply shrinks_remove|done|done|apply lookup_insert_eq|].
  - eapply (sinv_k s s1 L L' k x); try done; [apply (si_pipes s L Hs)| | |].
    + intros i q _ Hq. by exists q.
    + by apply (so_kern s L k x Hok).
    + apply (so_flag s L k x Hok).
  - rewrite (streams_step s s1 k x (with_socket_data false x)); [|done|done|].
    + apply insert_id. by rewrite (streams_lookup s k x Hx).
    + split; try done. by apply (list_step_ok s s1 L L' k x (with_socket_data false x)).
Qed.

Lemma live_total_all m iov : fits m iov -> live iov <> [] -> 0 < iov_total iov.
Proof. intros Hf Hl. pose proof (live_total m iov Hf Hl). pose proof (iov_total_live m iov Hf). lia. Qed.

(** posix_sock_readv *)
Lemma readv_ok MIN s L k x iov kr :
  sinv s L -> socks s !! k = Some x -> iov <> [] -> user_iovs s iov ->
  exists rc s' L', posix_sock_readv MIN k iov kr s = Ok (rc, s') /\ sinv s' L' /\ shrinks k L L' /\
    received s k x iov rc s' /\
    (live iov <> [] ->
     piped s x <> [] \/ 0 < kr /\ stream s k x <> [] /\
       (group_impl x = None \/ socket_has_data x = true \/ recv_pipe x = None) -> 0 < rc).
Proof.
  intros Hs Hx Hne Hu. pose proof (si_sock s L Hs k x Hx) as Hok. pose proof (so_flag s L k x Hok) as Hflag.
  unfold posix_sock_readv. rewrite (M_bind_ok _ _ _ _ _ (load_sock_ok s k x Hx)).
  destruct (recv_pipe x) as [i|] eqn:Ei.
  - destruct (negb (pipe_has_data x) && _) eqn:Ec.
    + apply andb_true_iff in Ec as [Hpd%negb_true_iff Hg].
      assert (Hg' : group_impl x = None \/ socket_has_data x = true).
      { apply orb_true_iff in Hg as [Hg|Hg]; [left|by right]. by apply bool_decide_eq_true in Hg. }
      assert (Hp : piped s x = []) by (rewrite Hpd in Hflag; by destruct (piped s x)).
      destruct (MIN <=? iov_total iov).
      * destruct (direct_ok s L k x iov kr Hs Hx Hp Hu) as (rc & s' & ? & ? & ? & _ & Hpos).
        exists rc, s', L. split_and!; try done; [apply shrinks_refl|]. intros Hl [?|(? & ? & _)]; [done|].
        apply Hpos; try done. by eapply live_total_all; [apply Hu|].
      * destruct (sock_read_ok s L k x i kr Hs Hx Ei Hpd Hg')
          as (rc & s1 & L1 & Hrun & Hs1 & Hsh & Hst & Ho & Hm & Hx1 & Hpos).
        rewrite (M_bind_ok _ _ _ _ _ Hrun). set (x1 := read_flags rc (recv_buf_sz x) x) in *.
        destruct (Z.leb_spec rc 0) as [Hrc|Hrc].
        -- exists rc, s1, L1. split_and!; try done.
           ++ eapply received_after; try done. eapply (nothing_received s1 k x1 iov rc (errno s1)) in Hx1; [|done|].
              ** by destruct s1.
              ** by apply (user_iovs_after s s1 iov Ho Hm Hu).
           ++ intros Hl [?|(? & ? & _)]; [done|]. by apply Hpos.
        -- destruct (read_flags_same rc (recv_buf_sz x) x) as (F1 & _ & _ & _ & F5).
           destruct (recv_from_pipe_ok s1 L1 k x1 i iov Hs1 Hx1) as (rc2 & s2 & L2 & Hrun2 & Hs2 & Hsh2 & Hrc2 & Hpos2);
             [by rewrite <- Ei|done|by apply (user_iovs_after s s1 iov Ho Hm Hu)|].
           exists rc2, s2, L2. split_and!; try done; [by eapply shrinks_trans|by eapply received_after|].
           intros Hl _. apply Hpos2; [|done]. pose proof (so_flag s1 L1 k x1 (si_sock s1 L1 Hs1 k x1 Hx1)) as Hf1.
           unfold x1 in Hf1 at 1. rewrite F5, (proj2 (Z.ltb_lt 0 rc) Hrc) in Hf1. intros Hnil. by rewrite Hnil in Hf1.
    + destruct (recv_from_pipe_ok s L k x i iov Hs Hx Ei Hne Hu) as (rc & s' & L' & ? & ? & ? & ? & Hpos).
      exists rc, s', L'. split_and!; try done. intros Hl Hor. apply Hpos; [|done].
      apply andb_false_iff in Ec. destruct Hor as [?|(_ & _ & Hor)]; [done|]. intros Hnil. rewrite Hnil in Hflag.
      destruct Ec as [Hpd|Hg]; [by rewrite Hflag in Hpd|]. apply orb_false_iff in Hg as [Hg1 Hg2].
      apply bool_decide_eq_false in Hg1. destruct Hor as [?|[?|?]]; congruence.
  - assert (Hp : piped s x = []) by (unfold piped; by rewrite Ei).
    assert (Hpd : pipe_has_data x = false) by (by rewrite Hflag, Hp). rewrite Hpd. mstep.
    destruct (unflag_ok s L k x Hs Hx Hpd) as (s1 & L1 & Hrun & Hs1 & Hsh & Hps & Hk & Hx1 & Hst).
    rewrite (M_bind_ok _ _ _ _ _ Hrun).
    destruct (direct_ok s1 L1 k _ iov kr Hs1 Hx1) as (rc & s' & ? & ? & ? & _ & Hpos);
      [unfold piped; cbn; by rewrite Ei|by unfold user_iovs; rewrite Hps|].
    exists rc, s', L1. split_and!; try done.
    + eapply received_after; try done; by rewrite Hps.
    + intros Hl [?|(? & Hst' & _)]; [done|]. apply Hpos; [done| |by eapply live_total_all; [apply Hu|]].
      unfold stream, piped in *. cbn. by rewrite Hps, Hk.
Qed.
