(* ===== verification/SockResize.v ===== *)
(** * Resizing the pipe of a socket

    posix_sock_alloc_pipe moves the bytes of the old pipe to a new one: the
    stream of the socket, and everything of the others, stays as it is. *)

From S2P Require Import Prelude Tailq Pipe PipeLemmas IovLemmas PipeInv PipeOps Sock SockList SockInv SockRead.

(** ** The pipes *)

(** What the reader is given depends on the pipe alone. *)
Lemma reader_get_same s s' i n r :
  pipes s' !! i = pipes s !! i -> spdk_pipe_reader_get_buffer i n s = Ok (r, s) ->
  spdk_pipe_reader_get_buffer i n s' = Ok (r, s').
Proof.
  intros Hp. unfold spdk_pipe_reader_get_buffer, load_pipe, mbind, M_bind, get, lift_opt, mret, M_ret. rewrite Hp.
  destruct (pipes s !! i) as [p|]; [|done]. case_ifs; by intros [= <-].
Qed.

(** The contents of pipe [old] moved to the empty pipe [i]. *)
Lemma refill_ok s old i q qi :
  inv s -> view s !! old = Some q -> view s !! i = Some qi -> q_bytes qi = [] -> q_bytes q <> [] ->
  Z.of_nat (length (q_bytes q)) <= q_cap qi -> i <> old ->
  let n := Z.of_nat (length (q_bytes q)) in
  exists siov, spdk_pipe_reader_get_buffer old (q_cap q) s = Ok ((n, siov), s) /\
  exists diov s3, spdk_pipe_writer_get_buffer i (q_cap qi) s = Ok ((q_cap qi, diov), s3) /\
  exists s4, spdk_iovcpy (length siov + length diov) siov diov s3 = Ok (n, s4) /\
  exists s5, spdk_pipe_writer_advance i n s4 = Ok (0, s5) /\
  exists b s6, spdk_pipe_destroy (Some old) s5 = Ok (Some b, s6) /\
    inv s6 /\ view s6 = <[i := Queue (q_bytes q) (q_cap qi) (q_group qi)]> (delete old (view s)) /\
    b ∉ owned s6 /\ owned s ≡ₚ b :: owned s6 /\ dom (pgroups s6) = dom (pgroups s) /\
    forall c, c ∉ owned s -> mem s6 !! c = mem s !! c.
Proof.
  intros Hinv Hq Hqi He Hne Hfit Hio n. destruct (queue_cap s i qi Hinv Hqi) as [Hci _].
  destruct (reader_all s old q Hinv Hq) as (siov & Hget & _). exists siov. split; [done|].
  destruct (writer_all s i qi Hinv Hqi He) as (diov & s3 & Hwget & Hb3 & Hw & Hdf & Hdt & Hdl & Hdo & Hd0 & Hoth).
  exists diov, s3. split; [done|]. pose proof Hb3 as [Hinv3 Hm3 Ho3 Hg3 Hv3].
  destruct (reader_all s3 old q Hinv3) as (vs & Hget3 & Hsv); [by rewrite Hv3|].
  rewrite (reader_get_same s s3 old _ _ (Hoth old ltac:(done)) Hget) in Hget3. injection Hget3 as <-.
  destruct (Hsv Hne) as (Hs0 & Hsl & Hsf & Hsb & Hsm & Hso).
  assert (Hpos : 0 < n) by (unfold n; destruct (q_bytes q); [done|cbn; lia]).
  assert (Hdis : forall c, c ∈ iov_bufs siov -> c ∉ iov_bufs diov).
  { intros c Hp%Hso Hc%Hdo. apply Hio. by apply (buf_of_inj s3 i old c Hinv3 Hc). }
  pose proof (iovcpy_ok (length siov + length diov) siov diov s3 Hs0 Hd0) as Hcpy.
  specialize (Hcpy ltac:(pose proof (live_length diov); lia) Hsm Hsf Hdf Hdis).
  assert (Hcop : copied (mem s3) siov diov = length (q_bytes q)) by (unfold copied; rewrite Hsb, Hdl; lia).
  rewrite Hcop, Hsb, firstn_all in Hcpy.
  assert (Hm4 : set_mem (scatter (live diov) (q_bytes q)) s3 = set_mem (scatter diov (q_bytes q)) s3).
  { unfold set_mem. rewrite scatter_live; [done|done|lia]. }
  rewrite Hm4 in Hcpy. set (s4 := set_mem (scatter diov (q_bytes q)) s3) in *. exists s4. split; [done|].
  destruct (push_ok s3 i (q_cap qi) diov (q_bytes q) qi Hinv3 Hw) as (Hinv4 & s5 & Hadv & Hb5); [by rewrite Hv3|lia|].
  fold s4 in Hinv4, Hadv, Hb5. exists s5. split; [done|]. destruct Hb5 as [Hinv5 Hm5 Ho5 Hg5 Hv5].
  assert (Hold : view s5 !! old = Some q) by (by rewrite Hv5, lookup_insert_ne, Hv3).
  apply view_lookup in Hold as (p & Hp & _).
  destruct (destroy_ok s5 old p Hinv5 Hp) as (b & s6 & Hd & Hinv6 & Hm6 & Hv6 & Hb6 & Ho6 & Hg6).
  assert (Hos : owned s ≡ₚ owned s5) by (rewrite Ho5; change (owned s4) with (owned s3); by rewrite Ho3).
  exists b, s6. split_and!; try done.
  - rewrite Hv6, Hv5, He, Hv3. cbn [app]. by rewrite delete_insert_ne.
  - by rewrite Hos.
  - rewrite Hg6, Hg5. cbn. by rewrite Hg3.
  - intros c Hc. assert (Hc3 : c ∉ owned s3) by (by rewrite Ho3). rewrite Hm6 by (by rewrite <- Hos). rewrite Hm5 by done.
    cbn. rewrite scatter_other; [by rewrite Hm3|]. by intros Hin%Hdo%buf_of_owned.
Qed.

(** ** The socket *)

(** A change of the pipes that no socket sees. *)
Lemma same_view_ok s L p' :
  sinv s L -> inv p' -> view p' = view (ps s) -> dom (pgroups p') = dom (pgroups (ps s)) ->
  sinv (set_ps p' s) L /\ streams (set_ps p' s) = streams s.
Proof.
  intros [H1 H2 H3 H4] Hinv Hv Hd.
  assert (Hp : forall x, piped (set_ps p' s) x = piped s x) by (intros x; unfold piped; cbn; by rewrite Hv).
  split; [split; try done|].
  - intros k x Hx. destruct (H2 k x Hx) as [O1 O2 O3 O4 O5 O6 O7 O8]. split; try done; [|by rewrite Hp].
    cbn. by rewrite Hv.
  - intros g l Hl. destruct (H4 g l Hl) as (? & Hg & ?). split_and!; try done. cbn.
    by rewrite <- elem_of_dom, Hd, elem_of_dom.
  - unfold streams. cbn. apply map_eq. intros k. rewrite !map_lookup_imap. destruct (socks s !! k) as [x|]; [|done].
    cbn. unfold stream. by rewrite Hp.
Qed.

Definition with_new_pipe (i : nat) (sz : Z) (x : sock) : sock := with_recv_pipe (Some i) (with_recv_buf_sz sz x).

(** The socket has a new pipe with the bytes of the old one. *)
Lemma new_pipe_ok s L k x i sz g p' :
  sinv s L -> socks s !! k = Some x -> inv p' -> pipes (ps s) !! i = None ->
  view p' = <[i := Queue (piped s x) sz g]>
              (match recv_pipe x with Some old => delete old (view (ps s)) | None => view (ps s) end) ->
  dom (pgroups p') = dom (pgroups (ps s)) -> (g = None \/ g = group_impl x) -> PIPE_HDR <= sz ->
  let s' := set_socks <[k := with_new_pipe i sz x]> (set_ps p' s) in
  sinv s' L /\ streams s' = streams s.
Proof.
  intros Hs Hx Hinv Hi Hv Hd Hg Hsz s'. pose proof (si_sock s L Hs k x Hx) as Hok. set (x' := with_new_pipe i sz x).
  assert (Hfresh : forall j y, socks s !! j = Some y -> recv_pipe y <> Some i).
  { intros j y Hy Hyi. destruct (so_pipe s L j y (si_sock s L Hs j y Hy) i Hyi) as (q & (p & Hp & _)%view_lookup & _).
    congruence. }
  assert (Hvo : forall j y i', j <> k -> socks s !! j = Some y -> recv_pipe y = Some i' ->
            view p' !! i' = view (ps s) !! i').
  { intros j y i' Hj Hy Hi'. rewrite Hv, lookup_insert_ne by (intros <-; by eapply Hfresh).
    destruct (recv_pipe x) as [old|] eqn:Eo; [|done]. apply lookup_delete_ne. intros <-. apply Hj.
    by eapply (si_inj s L Hs). }
  assert (Hgr : forall h, is_Some (pgroups (ps s) !! h) -> is_Some (pgroups p' !! h))
    by (intros h; rewrite <- !elem_of_dom, Hd; done).
  assert (Hp' : piped s' x' = piped s x) by (unfold piped at 1; cbn; by rewrite Hv, lookup_insert_eq).
  assert (Hkeep : others_keep k s s') by (split; done).
  split.
  - eapply (sinv_upd s s' L L k x x'); try done; [apply relist_refl|by intros; apply (si_list s L Hs)| |].
    + right. intros j y i' Hy [= <-]. by eapply Hfresh.
    + destruct Hok as [O1 O2 O3 O4 O5 O6 O7 O8]. split; try done; [|by rewrite Hp'].
      intros i' [= <-]. cbn. rewrite Hv, lookup_insert_eq. by eexists.
  - rewrite (streams_step s s' k x x' Hx eq_refl Hkeep). apply insert_id. rewrite (streams_lookup s k x Hx).
    unfold stream. by rewrite Hp'.
Qed.

(** A buffer that came with a pipe and left with it. *)
Definition other_mem (b : nat) (s s' : pst) : Prop :=
  forall c, c ∉ owned s -> c <> b -> mem s' !! c = mem s !! c /\ c ∉ owned s'.

Lemma free_buf_ok s b : free_buf (Some b) s = Ok (tt, set_ps (set_mem (delete b) (ps s)) s).
Proof. done. Qed.

Lemma fresh_pipe s b i sz :
  inv s -> mem s !! b = None -> pipes s !! i = None -> 0 < sz < 2 ^ 31 ->
  exists s2, spdk_pipe_create true i b (u32 sz) (set_mem <[b := repeat 0 (Z.to_nat sz)]> s) = Ok (Some i, s2) /\
    inv s2 /\ view s2 = <[i := Queue [] sz None]> (view s) /\ owned s2 ≡ₚ b :: owned s /\
    dom (pgroups s2) = dom (pgroups s) /\ forall c, c <> b -> mem s2 !! c = mem s !! c.
Proof.
  intros Hinv Hb Hi Hsz. assert (Hno : b ∉ owned s).
  { intros Hin. destruct (owned_live s b Hinv Hin) as [? ?]. congruence. }
  destruct (inv_mem s <[b := repeat 0 (Z.to_nat sz)]>) as [Hinv1 Hv1]; [|done|].
  { intros c Hc. apply lookup_insert_ne. by intros <-. }
  rewrite (wrap_small 32) by lia. set (s1 := set_mem _ s) in *.
  destruct (create_ok s1 i b sz (repeat 0 (Z.to_nat sz)) Hinv1) as (s2 & Hrun & Hinv2 & Hm2 & Hg2 & Ho2 & Hv2 & _);
    [done|apply lookup_insert_eq|done|rewrite repeat_length; lia|done|].
  exists s2. split_and!; try done; [by rewrite Hv2, Hv1|by rewrite Hg2|].
  intros c Hc. rewrite Hm2. by apply lookup_insert_ne.
Qed.

(** The new pipe given up again. *)
Lemma undo_pipe s b i sz s2 :
  inv s -> pipes s !! i = None -> inv s2 -> view s2 = <[i := Queue [] sz None]> (view s) -> owned s2 ≡ₚ b :: owned s ->
  dom (pgroups s2) = dom (pgroups s) -> (forall c, c <> b -> mem s2 !! c = mem s !! c) ->
  exists b' s3, spdk_pipe_destroy (Some i) s2 = Ok (Some b', s3) /\ inv (set_mem (delete b') s3) /\
    view (set_mem (delete b') s3) = view s /\ dom (pgroups s3) = dom (pgroups s) /\
    other_mem b s (set_mem (delete b') s3).
Proof.
  intros Hinv Hi Hinv2 Hv2 Ho2 Hg2 Hm2.
  assert (exists p, pipes s2 !! i = Some p) as [p Hp].
  { assert (H : view s2 !! i = Some (Queue [] sz None)) by (by rewrite Hv2, lookup_insert_eq).
    apply view_lookup in H as (p & ? & _). eauto. }
  destruct (destroy_ok s2 i p Hinv2 Hp) as (b' & s3 & Hrun & Hinv3 & Hm3 & Hv3 & Hb3 & Ho3 & Hg3).
  exists b', s3. destruct (inv_mem s3 (delete b')) as [Hinv4 Hv4]; [|done|].
  { intros c Hc. apply lookup_delete_ne. by intros <-. }
  split_and!; try done.
  - rewrite Hv4, Hv3, Hv2. apply delete_insert_id. unfold view. by rewrite lookup_fmap, Hi.
  - by rewrite Hg3.
  - assert (Hin : b' ∈ b :: owned s) by (rewrite <- Ho2, Ho3; by left).
    intros c Hc Hcb. split.
    + assert (Hc2 : c ∉ owned s2) by (rewrite Ho2; by apply not_elem_of_cons).
      cbn. rewrite lookup_delete_ne; [by rewrite Hm3, Hm2|]. intros <-. apply elem_of_cons in Hin as [?|?]; done.
    + change (c ∉ owned s3). intros Hc3. assert (c ∈ b :: owned s) as [?|?]%elem_of_cons; [|done..].
      rewrite <- Ho2, Ho3. by right.
Qed.

(** The new pipe installed, and added to the pipe group of the socket's group. *)
Lemma install_pipe s L k x i b sz p' :
  sinv s L -> socks s !! k = Some x -> inv p' -> pipes (ps s) !! i = None -> PIPE_HDR <= sz ->
  view p' = <[i := Queue (piped s x) sz None]>
              (match recv_pipe x with Some old => delete old (view (ps s)) | None => view (ps s) end) ->
  dom (pgroups p') = dom (pgroups (ps s)) -> other_mem b (ps s) p' ->
  exists s', (_ ← update_sock k (with_new_pipe i sz);
      x ← load_sock k;
      _ ← match group_impl x with Some g => on_pipes (spdk_pipe_group_add g i) | None => mret 0 end;
      mret 0) (set_ps p' s) = Ok (0, s') /\
    sinv s' L /\ streams s' = streams s /\ other_mem b (ps s) (ps s').
Proof.
  intros Hs Hx Hinv Hi Hsz Hv Hd Hm. rewrite (M_bind_ok _ _ _ _ _ (update_sock_ok (set_ps p' s) k x _ Hx)).
  erewrite M_bind_ok by (apply load_sock_ok, lookup_insert_eq). cbn [group_impl with_new_pipe with_recv_pipe with_recv_buf_sz].
  destruct (group_impl x) as [g|] eqn:Eg.
  - assert (Hgs : is_Some (pgroups p' !! g)).
    { destruct (so_group s L k x (si_sock s L Hs k x Hx) g Eg) as [l Hl].
      destruct (si_list s L Hs g l Hl) as (_ & Hg & _). by rewrite <- elem_of_dom, Hd, elem_of_dom. }
    assert (Hq : view p' !! i = Some (Queue (piped s x) sz None)) by (by rewrite Hv, lookup_insert_eq).
    apply view_lookup in Hq as (p & Hp & Eq). destruct (group_add_ok p' g i p Hinv Hp) as (p2 & Hrun & Hb2);
      [by injection Eq|done|by injection Eq as _ <-|]. rewrite <- Eq in Hb2. destruct Hb2 as [Hinv2 Hm2 Ho2 Hg2 Hv2].
    erewrite M_bind_ok by (by apply on_pipes_ok). eexists. split; [done|].
    destruct (new_pipe_ok s L k x i sz (Some g) p2 Hs Hx Hinv2 Hi) as [? ?].
    + by rewrite Hv2, Hv, insert_insert_eq.
    + by rewrite Hg2.
    + by right.
    + done.
    + split_and!; try done. intros c Hc Hcb. destruct (Hm c Hc Hcb) as [? ?]. cbn. by rewrite Hm2, Ho2.
  - mstep. eexists. split; [done|]. destruct (new_pipe_ok s L k x i sz None p' Hs Hx Hinv Hi Hv Hd) as [? ?]; [by left|done|].
    done.
Qed.

Lemma pull_long s old i q b' p3 sz :
  inv (ps s) -> view (ps s) !! old = Some q -> sz < Z.of_nat (length (q_bytes q)) ->
  spdk_pipe_destroy (Some i) (ps s) = Ok (Some b', p3) ->
  pull_old_pipe old i (q_cap q) sz s = Ok (- EINVAL, set_ps (set_mem (delete b') p3) s).
Proof.
  intros Hinv Hq Hlong Hd. destruct (queue_cap _ _ _ Hinv Hq) as [Hc _].
  destruct (reader_all (ps s) old q Hinv Hq) as (siov & Hget & _). unfold pull_old_pipe.
  rewrite (wrap_small 32 (q_cap q)) by lia. rewrite (M_bind_ok _ _ _ _ _ (on_pipes_ok _ s _ _ Hget)).
  cbv beta iota. rewrite (proj2 (Z.ltb_lt _ _) Hlong). replace (set_ps (ps s) s) with s by (by destruct s).
  rewrite (M_bind_ok _ _ _ _ _ (on_pipes_ok _ s _ _ Hd)). by rewrite (M_bind_ok _ _ _ _ _ (free_buf_ok _ b')).
Qed.

Lemma pull_ok s old i q sz g :
  inv (ps s) -> view (ps s) !! old = Some q -> view (ps s) !! i = Some (Queue [] sz g) ->
  q_bytes q <> [] -> Z.of_nat (length (q_bytes q)) <= sz -> i <> old ->
  exists p', pull_old_pipe old i (q_cap q) sz s = Ok (0, set_ps p' s) /\ inv p' /\
    view p' = <[i := Queue (q_bytes q) sz g]> (delete old (view (ps s))) /\
    dom (pgroups p') = dom (pgroups (ps s)) /\
    forall c, c ∉ owned (ps s) -> mem p' !! c = mem (ps s) !! c /\ c ∉ owned p'.
Proof.
  intros Hinv Hq Hqi Hne Hlen Hio. destruct (queue_cap _ _ _ Hinv Hq) as [Hc _].
  destruct (queue_cap _ _ _ Hinv Hqi) as [Hci _]. cbn [q_cap] in Hci.
  destruct (refill_ok (ps s) old i q (Queue [] sz g)) as (siov & Hget & diov & p3 & Hwr & p4 & Hcpy & p5 & Hadv &
    b' & p6 & Hdes & Hinv6 & Hv6 & Hb6 & Ho6 & Hg6 & Hm6); try done. cbn [q_cap q_group] in Hwr, Hv6.
  unfold pull_old_pipe. rewrite (wrap_small 32 (q_cap q)), (wrap_small 32 sz) by lia.
  rewrite (M_bind_ok _ _ _ _ _ (on_pipes_ok _ s _ _ Hget)). cbv beta iota.
  rewrite (proj2 (Z.ltb_ge _ _) Hlen). replace (set_ps (ps s) s) with s by (by destruct s).
  rewrite (M_bind_ok _ _ _ _ _ (on_pipes_ok _ s _ _ Hwr)). cbv beta iota. rewrite Z.eqb_refl. mstep.
  rewrite (M_bind_ok _ _ _ _ _ (on_pipes_ok _ (set_ps p3 s) _ _ Hcpy)).
  rewrite (wrap_small 32 (Z.of_nat _)) by lia.
  rewrite (M_bind_ok _ _ _ _ _ (on_pipes_ok _ (set_ps p4 s) _ _ Hadv)).
  rewrite (M_bind_ok _ _ _ _ _ (on_pipes_ok _ (set_ps p5 s) _ _ Hdes)), (M_bind_ok _ _ _ _ _ (free_buf_ok _ b')).
  exists (set_mem (delete b') p6). destruct (inv_mem p6 (delete b')) as [Hinv7 Hv7]; [|done|].
  { intros c Hc'. apply lookup_delete_ne. by intros <-. }
  split_and!; [done|done|by rewrite Hv7|done|]. intros c Hc'. rewrite Ho6 in Hc'.
  apply not_elem_of_cons in Hc' as [Hcb Hc']. split; [|done]. cbn. rewrite lookup_delete_ne by done.
  apply Hm6. rewrite Ho6. by apply not_elem_of_cons.
Qed.

(** posix_sock_alloc_pipe on a socket without a pipe, or with bytes in it. *)
Lemma alloc_pipe_ok MIN s L k x sz ok1 ok2 b i :
  (MIN <= sz -> PIPE_HDR <= sz) -> sinv s L -> socks s !! k = Some x -> 0 < sz < 2 ^ 31 ->
  mem (ps s) !! b = None -> pipes (ps s) !! i = None -> (recv_pipe x = None \/ piped s x <> []) ->
  exists rc s', posix_sock_alloc_pipe MIN k sz ok1 ok2 b i s = Ok (rc, s') /\ sinv s' L /\
    streams s' = streams s /\ other_mem b (ps s) (ps s').
Proof.
  intros HMIN Hs Hx Hsz Hb Hi Hpipe. pose proof (si_pipes s L Hs) as Hinv.
  assert (Hm0 : other_mem b (ps s) (ps s)) by done.
  unfold posix_sock_alloc_pipe. rewrite (M_bind_ok _ _ _ _ _ (load_sock_ok s k x Hx)).
  destruct (recv_buf_sz x =? sz); [by exists 0, s|]. destruct (Z.eqb_spec sz 0); [lia|].
  destruct (Z.ltb_spec sz MIN) as [|Hmin]; [by exists (-1), s|]. pose proof (HMIN Hmin) as Hhdr. destruct ok1; cbn [negb]; [|by exists (- ENOMEM), s].
  rewrite (M_bind_ok _ _ s tt (set_ps (set_mem <[b := repeat 0 (Z.to_nat sz)]> (ps s)) s)) by done.
  destruct ok2.
  2:{ rewrite (M_bind_ok _ _ _ _ _ (on_pipes_ok _ (set_ps _ s) None _ eq_refl)). cbn [ps set_ps].
      rewrite (M_bind_ok _ _ _ _ _ (free_buf_ok _ b)). eexists _, _. split; [done|].
      assert (Hback : set_mem (delete b) (set_mem <[b := repeat 0 (Z.to_nat sz)]> (ps s)) = ps s)
        by (unfold set_mem; cbn; rewrite delete_insert_id by done; by destruct (ps s)).
      cbn [ps set_ps]. unfold set_ps at 1. cbn. rewrite Hback. by destruct s. }
  destruct (fresh_pipe (ps s) b i sz Hinv Hb Hi Hsz) as (p2 & Hcr & Hinv2 & Hv2 & Ho2 & Hg2 & Hm2).
  erewrite M_bind_ok by (apply on_pipes_ok; exact Hcr). change (set_ps p2 (set_ps _ s)) with (set_ps p2 s).
  assert (Hou : forall c, c ∉ owned (ps s) -> c <> b -> c ∉ owned p2)
    by (intros c Hc Hcb; rewrite Ho2; by apply not_elem_of_cons).
  destruct (recv_pipe x) as [old|] eqn:Eo.
  - destruct Hpipe as [Hpipe|Hne]; [done|]. destruct (so_pipe s L k x (si_sock s L Hs k x Hx) old Eo) as (q & Hq & Hcap & _).
    assert (Hpq : piped s x = q_bytes q) by (unfold piped; by rewrite Eo, Hq). rewrite Hpq in Hne.
    assert (Hio : i <> old) by (intros <-; apply view_lookup in Hq as (p & ? & _); congruence).
    assert (Hq2 : view p2 !! old = Some q) by (by rewrite Hv2, lookup_insert_ne). rewrite <- Hcap.
    destruct (Z.lt_ge_cases sz (Z.of_nat (length (q_bytes q)))) as [Hlong|Hlong].
    + destruct (undo_pipe (ps s) b i sz p2) as (b' & p3 & Hd & Hinv3 & Hv3 & Hg3 & Hm3); try done.
      rewrite (M_bind_ok _ _ _ _ _ (pull_long (set_ps p2 s) old i q b' p3 sz Hinv2 Hq2 Hlong Hd)).
      change (negb (- EINVAL =? 0)) with true. cbv iota. eexists _, _. split; [done|].
      by destruct (same_view_ok s L (set_mem (delete b') p3) Hs Hinv3 Hv3 Hg3).
    + destruct (pull_ok (set_ps p2 s) old i q sz None Hinv2 Hq2) as (p3 & Hpull & Hinv3 & Hv3 & Hg3 & Hm3); try done;
        [cbn; by rewrite Hv2, lookup_insert_eq|].
      rewrite (M_bind_ok _ _ _ _ _ Hpull). change (negb (0 =? 0)) with false. cbv iota.
      destruct (install_pipe s L k x i b sz p3) as (s' & Hrun & ?); try done; [..|by exists 0, s'].
      * rewrite Hv3, Eo, Hpq. cbn [ps set_ps]. rewrite Hv2, delete_insert_ne, insert_insert_eq by done. done.
      * rewrite Hg3. cbn. by rewrite Hg2.
      * intros c Hc Hcb. destruct (Hm3 c (Hou c Hc Hcb)) as [-> ?]. by rewrite <- Hm2.
  - mstep. change (negb (0 =? 0)) with false. cbv iota.
    destruct (install_pipe s L k x i b sz p2) as (s' & Hrun & ?); try done; [..|by exists 0, s'].
    + rewrite Hv2, Eo. unfold piped. by rewrite Eo.
    + intros c Hc Hcb. by rewrite Hm2; [split; [|apply Hou]|].
Qed.
