(* ===== verification/SockGroup.v ===== *)
(** * Groups of sockets

    Joining and leaving a group, and polling it: the sockets with data are
    reported in turn, and no stream changes. *)

From S2P Require Import Prelude Tailq Pipe PipeLemmas IovLemmas PipeInv PipeOps Sock SockList SockInv SockRead SockResize.

(** ** Polling *)

(** The socket is marked readable and put on the list. *)
Lemma mark_one s L g l k x :
  sinv s L -> L !! g = Some l -> socks s !! k = Some x -> group_impl x = Some g ->
  exists s1 l', (_ ← (if negb (socket_has_data x) && negb (pipe_has_data x)
                      then on_list (TAILQ_INSERT_TAIL g k) else mret tt);
                 update_sock k (with_socket_data true)) s = Ok (tt, s1) /\
    sinv s1 (<[g := l']> L) /\ streams s1 = streams s /\ ps s1 = ps s /\
    socks s1 = <[k := with_socket_data true x]> (socks s) /\
    (exists new, l' = l ++ new) /\ k ∈ l'.
Proof.
  intros Hs Hl Hx Hg. pose proof (si_sock s L Hs k x Hx) as Hok. set (x' := with_socket_data true x).
  assert (exists q' l', (if negb (socket_has_data x) && negb (pipe_has_data x)
            then on_list (TAILQ_INSERT_TAIL g k) else mret tt) s = Ok (tt, set_with_data q' s) /\
            (forall s', with_data s' = q' -> list_step s s' L (<[g := l']> L) k x x') /\
            (exists new, l' = l ++ new) /\ k ∈ l') as (q' & l' & Hrun & Hst & Hnew & Hk).
  { destruct (negb (socket_has_data x) && negb (pipe_has_data x)) eqn:E.
    - apply andb_true_iff in E as [E1%negb_true_iff E2%negb_true_iff].
      assert (Hoff : listed x = false) by (unfold listed; by rewrite E1, E2).
      destruct (list_insert s L g l k Hs Hl) as (q' & Hq' & _); [|by apply (so_node s L k x Hok)|].
      { intros h m Hm [_ Hin]%(so_listed s L k x Hok h m Hm). unfold listed in Hoff. congruence. }
      exists q', (l ++ [k]). split_and!; [by apply on_list_ok| |by eexists|apply elem_of_app; right; by left].
      intros s' Hw. eapply step_insert; try done; [unfold listed; cbn; apply orb_true_r|by rewrite Hw].
    - assert (Hon : listed x = true).
      { unfold listed. apply andb_false_iff in E as [E%negb_false_iff|E%negb_false_iff]; rewrite E; by rewrite ?orb_true_r. }
      exists (with_data s), l. rewrite (insert_id L g l Hl). split_and!; [by destruct s| |exists []; by rewrite app_nil_r|].
      + intros s' Hw. apply step_keep; [done|done|]. intros _. rewrite Hon. unfold listed. cbn. apply orb_true_r.
      + by apply (so_listed s L k x Hok g l Hl). }
  rewrite (M_bind_ok _ _ _ _ _ Hrun), (update_sock_ok _ k x) by done.
  set (s1 := set_socks _ _). exists s1, l'.
  assert (Hstep : list_step s s1 L (<[g := l']> L) k x x') by (by apply Hst).
  split_and!; try done.
  - eapply (sinv_k s s1 L _ k x x'); try done; [apply (si_pipes s L Hs)| | | |].
    + intros i q _ Hq. by exists q.
    + by apply (so_kern s L k x Hok).
    + apply (so_flag s L k x Hok).
    + by rewrite Hg.
  - rewrite (streams_step s s1 k x x'); [|done|done|].
    + apply insert_id. by rewrite (streams_lookup s k x Hx).
    + split; try done. by apply (list_step_ok s s1 L (<[g := l']> L) k x x').
Qed.

Definition member (s : sst) (g : nat) (k : loc) : Prop := exists x, socks s !! k = Some x /\ group_impl x = Some g.

(** The same sockets in the same groups with the same pipes. *)
Definition same_socks (s s' : sst) : Prop :=
  forall k, (fun x => (recv_pipe x, recv_buf_sz x, group_impl x)) <$> socks s' !! k
            = (fun x => (recv_pipe x, recv_buf_sz x, group_impl x)) <$> socks s !! k.

Lemma same_socks_member s s' g k : same_socks s s' -> member s g k -> member s' g k.
Proof.
  intros H (x & Hx & Hg). specialize (H k). rewrite Hx in H. cbn in H.
  apply fmap_Some in H as (x' & Hx' & E). exists x'. split; [done|]. congruence.
Qed.

Lemma mark_events_ok s L g l evs :
  sinv s L -> L !! g = Some l -> Forall (fun e => member s g e.1) evs ->
  exists s' l', mark_events g evs s = Ok (tt, s') /\ sinv s' (<[g := l']> L) /\ streams s' = streams s /\
    ps s' = ps s /\ same_socks s s' /\ (exists new, l' = l ++ new) /\
    (forall k, (k, true) ∈ evs -> k ∈ l').
Proof.
  revert s L l. induction evs as [|[k b] evs IH]; intros s L l Hs Hl Hm.
  - exists s, l. rewrite insert_id by done. split_and!; try done; [exists []; by rewrite app_nil_r|].
    by intros k ?%not_elem_of_nil.
  - apply Forall_cons in Hm as [(x & Hx & Hg) Hm]. cbn in Hx. destruct b.
    + destruct (mark_one s L g l k x Hs Hl Hx Hg) as (s1 & l1 & Hrun & Hs1 & Hst1 & Hp1 & Hso1 & (n1 & ->) & Hk1).
      assert (Hsame : same_socks s s1).
      { intros j. rewrite Hso1. destruct (decide (j = k)) as [->|]; [by rewrite lookup_insert_eq, Hx|].
        by rewrite lookup_insert_ne. }
      destruct (IH s1 (<[g := l ++ n1]> L) (l ++ n1) Hs1) as (s2 & l2 & Hrun2 & Hs2 & Hst2 & Hp2 & Hso2 & (n2 & ->) & Hk2).
      { apply lookup_insert_eq. }
      { eapply Forall_impl; [exact Hm|]. intros e. by apply same_socks_member. }
      exists s2, ((l ++ n1) ++ n2). rewrite insert_insert_eq in Hs2. split_and!; try done.
      * cbn [mark_events]. rewrite (M_bind_ok _ _ _ _ _ (load_sock_ok s k x Hx)), <- M_bind_assoc.
        by rewrite (M_bind_ok _ _ _ _ _ Hrun).
      * by rewrite Hst2.
      * by rewrite Hp2.
      * intros j. by rewrite Hso2.
      * exists (n1 ++ n2). by rewrite app_assoc.
      * intros j [[= ->]|Hj]%elem_of_cons; [|by apply Hk2]. apply elem_of_app. by left.
    + destruct (IH s L l Hs Hl Hm) as (s2 & l2 & Hrun2 & Hs2 & Hst2 & Hp2 & Hso2 & Hn2 & Hk2).
      exists s2, l2. split_and!; try done. intros j [[= ]|Hj]%elem_of_cons. by apply Hk2.
Qed.

Lemma collect_ok s g max fuel pre rest acc :
  tq_rep (with_data s) g (pre ++ rest) -> (length rest <= fuel)%nat -> (length acc <= max)%nat ->
  (forall k, k ∈ rest -> exists x, socks s !! k = Some x /\ cb_fn x = true) ->
  collect fuel g max (hd_or rest None) acc s
  = Ok ((acc ++ take (max - length acc) rest, hd_or (drop (max - length acc) rest) None), s).
Proof.
  revert pre rest acc. induction fuel as [|fuel IH]; intros pre rest acc Hrep Hf Ha Hcb.
  - destruct rest; [|cbn in Hf; lia]. by rewrite take_nil, drop_nil, app_nil_r.
  - destruct rest as [|k rest]; [by rewrite take_nil, drop_nil, app_nil_r|].
    destruct (Hcb k) as (x & Hx & Hc); [by left|]. cbn [hd_or collect]. mstep.
    rewrite (TAILQ_NEXT_rep _ _ pre k rest Hrep). cbn [lift_opt]. mstep.
    destruct (Nat.eqb_spec (length acc) max) as [E|E].
    { by rewrite E, Nat.sub_diag, take_0, drop_0, app_nil_r. }
    rewrite (M_bind_ok _ _ _ _ _ (load_sock_ok s k x Hx)), Hc. cbn [negb].
    rewrite (IH (pre ++ [k]) rest).
    + rewrite length_app. cbn [length]. replace (max - length acc)%nat with (S (max - (length acc + 1))) by lia.
      cbn [take drop]. by rewrite <- app_assoc.
    + by rewrite <- app_assoc.
    + cbn in Hf. lia.
    + rewrite length_app. cbn. lia.
    + intros j Hj. apply Hcb. by right.
Qed.

Lemma list_size (q : tailqs nat) g l : tq_rep q g l -> (length l <= size (nodes q))%nat.
Proof.
  intros Hrep. pose proof Hrep as (z & _ & _ & Hnd). rewrite <- size_dom.
  rewrite <- (size_list_to_set (C := gset loc) l) by done. apply subseteq_size. intros k.
  rewrite elem_of_list_to_set, elem_of_dom. by eapply tq_rep_elem.
Qed.

(** A list in another order. *)
Lemma reorder_ok s L g l l' q' :
  sinv s L -> L !! g = Some l -> l' ≡ₚ l -> tq_rep q' g l' -> only_touches g l (with_data s) q' ->
  sinv (set_with_data q' s) (<[g := l']> L).
Proof.
  intros Hs Hl Hp Hrep Ht. pose proof Hs as [H1 H2 H3 H4].
  assert (Hn : forall k, is_Some (nodes (with_data s) !! k) -> is_Some (nodes q' !! k)).
  { intros k Hk. destruct (decide (k ∈ l)) as [Hin|Hin].
    - eapply tq_rep_elem; [exact Hrep|]. by rewrite Hp.
    - destruct Ht as [_ Ht]. by rewrite Ht. }
  split; try done.
  - intros k x Hx. destruct (H2 k x Hx) as [O1 O2 O3 O4 O5 O6 O7 O8]. split; try done; [| |by apply Hn].
    + intros h Hh. apply lookup_insert_is_Some'. right. by apply O4.
    + intros h m [[<- <-]|[_ Hm]]%lookup_insert_Some; [rewrite Hp|]; by apply O5.
  - intros h m [[<- <-]|[Hne Hm]]%lookup_insert_Some.
    + destruct (H4 g l Hl) as (_ & ? & Hk). split_and!; try done. intros k. rewrite Hp. apply Hk.
    + destruct (H4 h m Hm) as (Hr & ? & ?). split_and!; try done. cbn.
      eapply only_touches_rep; [done|done| |done]. by eapply sinv_disjoint.
Qed.

(** posix_sock_group_impl_poll reports the first sockets of the list, and the
    others come first the next time. *)
Lemma group_poll_ok s L g l max evs :
  sinv s L -> L !! g = Some l -> 0 < max -> Forall (fun e => member s g e.1) evs ->
  exists s' new, let all := l ++ new in
    posix_sock_group_impl_poll g max (Some evs) s
    = Ok ((Z.of_nat (length (take (Z.to_nat max) all)), take (Z.to_nat max) all), s') /\
    sinv s' (<[g := drop (Z.to_nat max) all ++ take (Z.to_nat max) all]> L) /\
    streams s' = streams s /\ ps s' = ps s /\ same_socks s s' /\ (forall k, (k, true) ∈ evs -> k ∈ all).
Proof.
  intros Hs Hl Hmax Hm. destruct (mark_events_ok s L g l evs Hs Hl Hm)
    as (s1 & l' & Hrun & Hs1 & Hst & Hps & Hso & (new & ->) & Hin).
  set (all := l ++ new) in *. set (n := Z.to_nat max).
  assert (Hall : <[g := all]> L !! g = Some all) by apply lookup_insert_eq.
  destruct (si_list _ _ Hs1 g all Hall) as (Hrep & _ & _).
  assert (Hcb : forall k, k ∈ all -> exists x, socks s1 !! k = Some x /\ cb_fn x = true).
  { intros k Hk. destruct (sinv_member _ _ _ _ k Hs1 Hall Hk) as (x & Hx & Hg). exists x. split; [done|].
    rewrite (so_cb _ _ _ _ (si_sock _ _ Hs1 k x Hx)), Hg. done. }
  pose proof (collect_ok s1 g n (S (size (nodes (with_data s1)))) [] all []) as Hcol. cbn [length app] in Hcol.
  specialize (Hcol Hrep ltac:(pose proof (list_size _ _ _ Hrep); lia) ltac:(lia) Hcb). rewrite Nat.sub_0_r in Hcol.
  unfold posix_sock_group_impl_poll. rewrite (proj2 (Z.ltb_lt 0 max) Hmax). mstep.
  rewrite (M_bind_ok _ _ _ _ _ Hrun). mstep. rewrite (TAILQ_FIRST_rep _ _ _ Hrep). cbn [lift_opt]. mstep.
  rewrite (M_bind_ok _ _ _ _ _ Hcol). cbv beta iota.
  destruct (drop n all) as [|d rest] eqn:Ed.
  - cbn [hd_or]. mstep. exists s1, new. fold all. fold n. rewrite Ed. cbn [app].
    assert (take n all = all) as ->. { rewrite <- (take_drop n all) at 2. by rewrite Ed, app_nil_r. }
    done.
  - cbn [hd_or]. assert (Et : all = take n all ++ d :: rest) by (by rewrite <- Ed, take_drop).
    rewrite Et in Hrep. destruct (rotate_rep (with_data s1) g (take n all) d rest) as (q' & Hq' & Hrep' & Ht); [|done|].
    { intros Hnil. apply (f_equal length) in Hnil. rewrite length_take in Hnil. cbn in Hnil.
      apply (f_equal length) in Ed. rewrite length_drop in Ed. cbn in Ed. lia. }
    rewrite (M_bind_ok _ _ _ _ _ (on_list_ok (rotate g d) s1 q' Hq')). exists (set_with_data q' s1), new.
    fold all. fold n. rewrite Ed. split_and!; try done.
    pose proof (reorder_ok s1 (<[g := all]> L) g all ((d :: rest) ++ take n all) q' Hs1 Hall) as Hr.
    rewrite insert_insert_eq in Hr. apply Hr; [|done|by rewrite Et].
    rewrite Et at 2. apply Permutation_app_comm.
Qed.

(** ** Joining *)

(** [k] belongs to [g] from now on; [L'] is [L], or has [k] at the end of [g]'s
    list when its pipe holds bytes. *)
Lemma joined_ok s L L' k x g l p' q' gs :
  sinv s L -> socks s !! k = Some x -> group_impl x = None -> L !! g = Some l -> inv p' ->
  (forall j y i, j <> k -> socks s !! j = Some y -> recv_pipe y = Some i -> view p' !! i = view (ps s) !! i) ->
  (forall i q, recv_pipe x = Some i -> view (ps s) !! i = Some q ->
     exists q', view p' !! i = Some q' /\ q_cap q' = q_cap q /\ q_bytes q' = q_bytes q /\
       (q_group q' = None \/ q_group q' = Some g)) ->
  dom (pgroups p') = dom (pgroups (ps s)) ->
  (if pipe_has_data x then TAILQ_INSERT_TAIL g k (with_data s) = Some q' /\ L' = <[g := l ++ [k]]> L
   else q' = with_data s /\ L' = L) ->
  let s' := set_socks <[k := with_group_impl (Some g) true x]> (set_g_socks gs (set_with_data q' (set_ps p' s))) in
  sinv s' L' /\ streams s' = streams s.
Proof.
  intros Hs Hx Hg Hl Hinv Hvo Hvk Hd HL s'. pose proof (si_sock s L Hs k x Hx) as Hok.
  set (x' := with_group_impl (Some g) true x). pose proof (so_alone s L k x Hok Hg) as Hsd.
  assert (Hno : forall h m, L !! h = Some m -> k ∉ m) by (intros h m Hm [? _]%(so_listed s L k x Hok h m Hm); congruence).
  assert (Hgr : forall h, is_Some (pgroups (ps s) !! h) -> is_Some (pgroups p' !! h))
    by (intros h; rewrite <- !elem_of_dom, Hd; done).
  assert (Hp' : piped s' x' = piped s x).
  { unfold piped. cbn. destruct (recv_pipe x) as [i|] eqn:Ei; [|done].
    destruct (so_pipe s L k x Hok i Ei) as (q & Hq & _). destruct (Hvk i q eq_refl Hq) as (q2 & Hq2 & _ & Hb & _).
    rewrite Hq, Hq2. cbn. by rewrite Hb. }
  assert (Hlist : relist k L L' /\ dom L' = dom L /\ (forall h m, L' !! h = Some m -> tq_rep q' h m) /\
    (forall j, is_Some (nodes (with_data s) !! j) -> is_Some (nodes q' !! j)) /\
    (forall h m, L' !! h = Some m -> (k ∈ m <-> Some g = Some h /\ pipe_has_data x = true))).
  { destruct (pipe_has_data x) eqn:Epd; destruct HL as [Hq' ->].
    - destruct (list_insert s L g l k Hs Hl Hno (so_node s L k x Hok)) as (q2 & Hq2 & Hrep & Hn). simplify_eq.
      split_and!; try done.
      + eapply relist_insert; [done|]. intros j Hj. rewrite elem_of_app, list_elem_of_singleton. naive_solver.
      + apply dom_insert_lookup_L. eauto.
      + intros h m [[<- <-]|[Hne Hm]]%lookup_insert_Some.
        * rewrite elem_of_app, list_elem_of_singleton. naive_solver.
        * split; [intros ?; by edestruct Hno|naive_solver].
    - subst q'. split_and!; try done; [apply relist_refl|by intros; apply (si_list s L Hs)|].
      intros h m Hm. split; [intros ?; by edestruct Hno|naive_solver]. }
  destruct Hlist as (Hr & HdL & Hrep & Hn & Hli).
  assert (Hkeep : others_keep k s s') by (split; done).
  split.
  - eapply (sinv_upd s s' L L' k x x'); try done; [by left|].
    destruct Hok as [O1 O2 O3 O4 O5 O6 O7 O8]. split; try done; [| | | |by apply Hn].
    + intros i Hi. destruct (O1 i Hi) as (q & Hq & Hc & _ & Hz). destruct (Hvk i q Hi Hq) as (q2 & ? & Hc2 & _ & ?).
      exists q2. rewrite Hc2. done.
    + by rewrite Hp'.
    + intros h [= <-]. rewrite <- elem_of_dom, HdL, elem_of_dom. eauto.
    + intros h m Hm. rewrite (Hli h m Hm). cbn. by rewrite Hsd, orb_false_r.
  - rewrite (streams_step s s' k x x' Hx eq_refl Hkeep). apply insert_id. rewrite (streams_lookup s k x Hx).
    unfold stream. by rewrite Hp'.
Qed.

(** The lists after [k] joined [g]. *)
Definition join_lists (k : loc) (g : nat) (x : sock) (L : gmap nat (list loc)) : gmap nat (list loc) :=
  if pipe_has_data x then <[g := default [] (L !! g) ++ [k]]> L else L.

Lemma impl_add_ok s L k x g l :
  sinv s L -> socks s !! k = Some x -> group_impl x = None -> L !! g = Some l ->
  exists p' q', posix_sock_group_impl_add_sock g k 0 s = Ok (0, set_with_data q' (set_ps p' s)) /\ inv p' /\
    (forall j, recv_pipe x <> Some j -> view p' !! j = view (ps s) !! j) /\
    (forall i q, recv_pipe x = Some i -> view (ps s) !! i = Some q ->
       exists q', view p' !! i = Some q' /\ q_cap q' = q_cap q /\ q_bytes q' = q_bytes q /\
         (q_group q' = None \/ q_group q' = Some g)) /\
    dom (pgroups p') = dom (pgroups (ps s)) /\ (forall c, c ∉ owned (ps s) -> mem p' !! c = mem (ps s) !! c) /\ owned p' ≡ₚ owned (ps s) /\
    (if pipe_has_data x then TAILQ_INSERT_TAIL g k (with_data s) = Some q' else q' = with_data s).
Proof.
  intros Hs Hx Hg Hl. pose proof (si_sock s L Hs k x Hx) as Hok. pose proof (si_pipes s L Hs) as Hinv.
  pose proof (so_flag s L k x Hok) as Hflag. pose proof (so_alone s L k x Hok Hg) as Hsd.
  assert (Hno : forall h m, L !! h = Some m -> k ∉ m) by (intros h m Hm [? _]%(so_listed s L k x Hok h m Hm); congruence).
  unfold posix_sock_group_impl_add_sock. cbn [Z.eqb negb]. rewrite (M_bind_ok _ _ _ _ _ (load_sock_ok s k x Hx)).
  destruct (recv_pipe x) as [i|] eqn:Ei.
  - destruct (so_pipe s L k x Hok i Ei) as (q & Hq & _ & Hqg & Hhdr). rewrite Hg in Hqg.
    assert (Hp : piped s x = q_bytes q) by (unfold piped; by rewrite Ei, Hq). rewrite Hp in Hflag.
    rewrite (M_bind_ok _ _ _ _ _ (on_pipes_ok _ s _ _ (available_ok (ps s) i q Hinv Hq))).
    replace (set_ps (ps s) s) with s by (by destruct s).
    destruct (Z.ltb_spec 0 (Z.of_nat (length (q_bytes q)))) as [Hn|Hn].
    + assert (Hpd : pipe_has_data x = true) by (rewrite Hflag, bool_decide_false; [done|]; intros E; rewrite E in Hn; cbn in Hn; lia).
      destruct (list_insert s L g l k Hs Hl Hno (so_node s L k x Hok)) as (q' & Hq' & _).
      rewrite (M_bind_ok _ _ _ _ _ (update_sock_ok s k x _ Hx)).
      replace (with_socket_data false (with_pipe_data true x)) with x by (clear -Hpd Hsd; destruct x; cbn in *; by subst).
      unfold set_socks. rewrite insert_id by done. replace (Sst _ _ _ _ _ _) with s by (by destruct s).
      rewrite (M_bind_ok _ _ _ _ _ (on_list_ok (TAILQ_INSERT_TAIL g k) s q' Hq')). rewrite Hpd.
      exists (ps s), q'. split_and!; try done. intros i' q2 [= <-] Hq2. exists q2.
      split_and!; try done. left. destruct Hqg; congruence.
    + assert (E : q_bytes q = []) by (apply nil_length_inv; lia). rewrite E in Hflag. cbn in Hflag. rewrite Hflag.
      pose proof Hq as (p & Hp' & Eq)%view_lookup. destruct (si_list s L Hs g l Hl) as (_ & Hgs & _).
      destruct (group_add_ok (ps s) g i p Hinv Hp') as (p' & Hrun & [Hinv' Hm' Ho' Hg' Hv']); [|done|by rewrite Eq in Hhdr|].
      { rewrite Eq in Hqg. cbn in Hqg. by destruct Hqg. }
      rewrite (M_bind_ok _ _ _ _ _ (on_pipes_ok _ s _ _ Hrun)). cbn [Z.eqb]. mstep. exists p', (with_data s).
      rewrite <- Eq in Hv'. split_and!; try done.
      * intros j Hj. rewrite Hv'. apply lookup_insert_ne. congruence.
      * intros i' q2 [= <-] Hq2. rewrite Hq in Hq2. injection Hq2 as <-. rewrite Hv', lookup_insert_eq. eexists.
        split; [done|]. split_and!; try done. by right.
  - assert (Hpd : pipe_has_data x = false) by (rewrite Hflag; unfold piped; by rewrite Ei). rewrite Hpd.
    exists (ps s), (with_data s). split_and!; try done. by destruct s as [].
Qed.

Lemma add_sock_ok s L k x g l cb rc :
  sinv s L -> socks s !! k = Some x -> L !! g = Some l ->
  exists r s' L', spdk_sock_group_add_sock g k cb rc s = Ok (r, s') /\ sinv s' L' /\ streams s' = streams s /\
    owned (ps s') ≡ₚ owned (ps s) /\ (forall c, c ∉ owned (ps s) -> mem (ps s') !! c = mem (ps s) !! c) /\ (L' = L \/ L' = join_lists k g x L).
Proof.
  intros Hs Hx Hl. unfold spdk_sock_group_add_sock. destruct cb; cbn [negb].
  2:{ eexists _, _, L. split; [done|]. split_and!; try done; [by apply errno_sinv|by left]. }
  rewrite (M_bind_ok _ _ _ _ _ (load_sock_ok s k x Hx)). destruct (decide (group_impl x = None)) as [Hg|Hg].
  2:{ rewrite bool_decide_false by done. eexists _, _, L. split; [done|]. split_and!; try done; [by apply errno_sinv|by left]. }
  rewrite bool_decide_true by done. cbn [negb]. destruct (Z.eqb_spec rc 0) as [->|Hrc].
  - destruct (impl_add_ok s L k x g l Hs Hx Hg Hl) as (p' & q' & Hrun & Hinv & Hvo & Hvk & Hd & Hm & Ho & Hq').
    rewrite (M_bind_ok _ _ _ _ _ Hrun). cbn [Z.eqb negb]. mstep.
    erewrite M_bind_ok by (apply update_sock_ok; exact Hx). eexists 0, _, _. split; [done|].
    edestruct (joined_ok s L (join_lists k g x L) k x g l p' q' (alter (fun l => l ++ [k]) g)) as [Hs' Hst]; try done.
    + intros j y i Hj Hy Hi. apply Hvo. intros Hxi. apply Hj. by eapply (si_inj s L Hs).
    + unfold join_lists. destruct (pipe_has_data x); [|done]. split; [done|]. by rewrite Hl.
    + split_and!; try done. by right.
  - unfold posix_sock_group_impl_add_sock. rewrite (proj2 (Z.eqb_neq rc 0) Hrc). cbn [negb]. mstep.
    rewrite (proj2 (Z.eqb_neq rc 0) Hrc). exists rc, s, L. split_and!; try done. by left.
Qed.

(** ** Leaving *)

(** The pipe of an idle socket leaves the pipe group of [g], and the socket the
    group when [go]. *)
Lemma left_ok s L k x g go p' gs :
  sinv s L -> socks s !! k = Some x -> group_impl x = Some g -> listed x = false -> inv p' ->
  (forall j y i, j <> k -> socks s !! j = Some y -> recv_pipe y = Some i -> view p' !! i = view (ps s) !! i) ->
  (forall i q, recv_pipe x = Some i -> view (ps s) !! i = Some q -> view p' !! i = Some (regrouped None q)) ->
  dom (pgroups p') = dom (pgroups (ps s)) ->
  let x' := if go : bool then with_group_impl None false x else x in
  let s' := set_socks <[k := x']> (set_g_socks gs (set_ps p' s)) in
  sinv s' L /\ streams s' = streams s.
Proof.
  intros Hs Hx Hg Hoff Hinv Hvo Hvk Hd x' s'. pose proof (si_sock s L Hs k x Hx) as Hok.
  assert (Hrp : recv_pipe x' = recv_pipe x) by (unfold x'; by destruct go).
  assert (Hp' : piped s' x' = piped s x).
  { unfold piped. rewrite Hrp. destruct (recv_pipe x) as [i|] eqn:Ei; [|done].
    destruct (so_pipe s L k x Hok i Ei) as (q & Hq & _). cbn. by rewrite (Hvk i q eq_refl Hq), Hq. }
  assert (Hgr : forall h, is_Some (pgroups (ps s) !! h) -> is_Some (pgroups p' !! h))
    by (intros h; rewrite <- !elem_of_dom, Hd; done).
  assert (Hkeep : others_keep k s s') by (split; done).
  assert (Hno : forall h m, L !! h = Some m -> k ∉ m)
    by (intros h m Hm [_ Hin]%(so_listed s L k x Hok h m Hm); unfold listed in Hoff; congruence).
  split.
  - eapply (sinv_upd s s' L L k x x'); try done; [apply relist_refl|by intros; apply (si_list s L Hs)|by left|].
    pose proof Hok as [O1 O2 O3 O4 O5 O6 O7 O8]. apply orb_false_iff in Hoff as [Hoff1 Hoff2].
    split; try done.
    + intros i Hi. rewrite Hrp in Hi. destruct (O1 i Hi) as (q & Hq & Hc & _ & Hz). exists (regrouped None q).
      cbn. rewrite (Hvk i q Hi Hq). split_and!; [done| |by left|done]. cbn. unfold x'. by destruct go.
    + rewrite Hp', <- O2. unfold x'. by destruct go.
    + intros _. unfold x'. by destruct go.
    + intros h Hh. unfold x' in Hh. destruct go; [done|by apply O4].
    + intros h m Hm. split; [intros ?; by edestruct Hno|]. intros [_ Hin]. exfalso. revert Hin. unfold x'.
      destruct go; cbn; by rewrite Hoff1, Hoff2.
    + unfold x'. by destruct go.
  - rewrite (streams_step s s' k x x' Hx eq_refl Hkeep). apply insert_id. rewrite (streams_lookup s k x Hx).
    unfold stream. by rewrite Hp'.
Qed.

Lemma remove_sock_ok s L k x g rc :
  sinv s L -> socks s !! k = Some x -> group_impl x = Some g -> listed x = false ->
  (forall i q, recv_pipe x = Some i -> view (ps s) !! i = Some q -> q_group q = Some g) ->
  exists s', spdk_sock_group_remove_sock g k rc s = Ok (rc, s') /\ sinv s' L /\ streams s' = streams s /\
    owned (ps s') ≡ₚ owned (ps s) /\ (forall c, c ∉ owned (ps s) -> mem (ps s') !! c = mem (ps s) !! c).
Proof.
  intros Hs Hx Hg Hoff Hpg. pose proof (si_sock s L Hs k x Hx) as Hok. pose proof (si_pipes s L Hs) as Hinv.
  unfold spdk_sock_group_remove_sock. rewrite (M_bind_ok _ _ _ _ _ (load_sock_ok s k x Hx)).
  rewrite bool_decide_true by done. mstep.
  assert (exists p', posix_sock_group_impl_remove_sock g k rc s = Ok (rc, set_ps p' s) /\ inv p' /\
    (forall j, recv_pipe x <> Some j -> view p' !! j = view (ps s) !! j) /\
    (forall i q, recv_pipe x = Some i -> view (ps s) !! i = Some q -> view p' !! i = Some (regrouped None q)) /\
    dom (pgroups p') = dom (pgroups (ps s)) /\ (forall c, c ∉ owned (ps s) -> mem p' !! c = mem (ps s) !! c) /\ owned p' ≡ₚ owned (ps s))
    as (p' & Hrun & Hinv' & Hvo & Hvk & Hd & Hm & Ho).
  { unfold posix_sock_group_impl_remove_sock. rewrite (M_bind_ok _ _ _ _ _ (load_sock_ok s k x Hx)).
    unfold listed in Hoff. rewrite Hoff. destruct (recv_pipe x) as [i|] eqn:Ei.
    - destruct (so_pipe s L k x Hok i Ei) as (q & Hq & _). pose proof Hq as (p & Hp & Eq)%view_lookup.
      destruct (group_remove_ok (ps s) g i p Hinv Hp) as (p' & p1 & Hrun & [Hinv' Hm' Ho' Hg' Hv'] & _).
      { pose proof (Hpg i q eq_refl Hq) as Hq'. by rewrite Eq in Hq'. }
      rewrite M_bind_assoc, (M_bind_ok _ _ _ _ _ (on_pipes_ok _ s _ _ Hrun)). cbn [Z.eqb]. mstep.
      exists p'. rewrite <- Eq in Hv'. split_and!; try done.
      + intros j Hj. rewrite Hv'. apply lookup_insert_ne. congruence.
      + intros i' q2 [= <-] Hq2. rewrite Hq in Hq2. injection Hq2 as <-. by rewrite Hv', lookup_insert_eq.
    - mstep. exists (ps s). split_and!; try done. by destruct s. }
  rewrite (M_bind_ok _ _ _ _ _ Hrun).
  pose proof (fun go gs => left_ok s L k x g go p' gs Hs Hx Hg Hoff Hinv'
    ltac:(intros j y i Hj Hy Hi; apply Hvo; intros Hxi; apply Hj; by eapply (si_inj s L Hs)) Hvk Hd) as Hleft.
  destruct (Z.eqb_spec rc 0) as [->|Hrc].
  - mstep. erewrite M_bind_ok by (apply update_sock_ok; exact Hx). eexists. split; [done|].
    by destruct (Hleft true (alter (filter (fun j => j <> k)) g)).
  - exists (set_ps p' s). split; [done|]. destruct (Hleft false id) as [H1 H2].
    assert (E : set_socks <[k := x]> (set_g_socks id (set_ps p' s)) = set_ps p' s)
      by (unfold set_socks; cbn; by rewrite insert_id).
    cbn [id] in H1, H2. rewrite E in H1, H2. done.
Qed.

(** ** Closing *)

Lemma close_ok s L k x :
  sinv s L -> socks s !! k = Some x -> group_impl x = None ->
  exists s', posix_sock_close k s = Ok (0, s') /\ sinv s' L /\ streams s' = delete k (streams s) /\
    forall c, c ∉ owned (ps s) -> mem (ps s') !! c = mem (ps s) !! c /\ c ∉ owned (ps s').
Proof.
  intros Hs Hx Hg. pose proof (si_sock s L Hs k x Hx) as Hok. pose proof (si_pipes s L Hs) as Hinv.
  assert (Hno : forall h m, L !! h = Some m -> k ∉ m) by (intros h m Hm [? _]%(so_listed s L k x Hok h m Hm); congruence).
  unfold posix_sock_close. rewrite (M_bind_ok _ _ _ _ _ (load_sock_ok s k x Hx)).
  assert (exists b p', on_pipes (spdk_pipe_destroy (recv_pipe x)) s = Ok (b, set_ps p' s) /\
    exists p2, free_buf b (set_ps p' s) = Ok (tt, set_ps p2 s) /\ inv p2 /\
    (forall j, recv_pipe x <> Some j -> view p2 !! j = view (ps s) !! j) /\
    dom (pgroups p2) = dom (pgroups (ps s)) /\
    (forall c, c ∉ owned (ps s) -> mem p2 !! c = mem (ps s) !! c /\ c ∉ owned p2))
    as (b & p' & Hrun & p2 & Hfree & Hinv2 & Hv2 & Hd2 & Hm2).
  { destruct (recv_pipe x) as [i|] eqn:Ei.
    - destruct (so_pipe s L k x Hok i Ei) as (q & (p & Hp & _)%view_lookup & _).
      destruct (destroy_ok (ps s) i p Hinv Hp) as (b & p' & Hd & Hinv' & Hm' & Hv' & Hb' & Ho' & Hg').
      exists (Some b), p'. split; [by apply on_pipes_ok|]. exists (set_mem (delete b) p'). split; [done|].
      destruct (inv_mem p' (delete b)) as [Hinv3 Hv3]; [|done|].
      { intros c Hc. apply lookup_delete_ne. by intros <-. }
      split_and!; try done.
      + intros j Hj. rewrite Hv3, Hv'. apply lookup_delete_ne. congruence.
      + intros c Hc0. pose proof Hc0 as Hc. rewrite Ho' in Hc. apply not_elem_of_cons in Hc as [Hcb Hc]. split; [|done].
        cbn. rewrite lookup_delete_ne by done. by rewrite Hm'.
    - exists None, (ps s). split; [by destruct s|]. exists (ps s). split_and!; done. }
  rewrite (M_bind_ok _ _ _ _ _ Hrun), (M_bind_ok _ _ _ _ _ Hfree).
  erewrite M_bind_ok by (apply on_list_ok; reflexivity). mstep.
  set (s' := set_socks _ _). exists s'. split; [done|].
  assert (Hvo : forall j y i, j <> k -> socks s !! j = Some y -> recv_pipe y = Some i -> view p2 !! i = view (ps s) !! i)
    by (intros j y i Hj Hy Hi; apply Hv2; intros Hxi; apply Hj; by eapply (si_inj s L Hs)).
  assert (Hother : forall j y, j <> k -> socks s !! j = Some y -> piped s' y = piped s y /\ stream s' j y = stream s j y).
  { intros j y Hj Hy. apply stream_other; [|done]. intros i. by apply Hvo with j. }
  split_and!; [|apply map_eq; intros j|done].
  - pose proof Hs as [H1 H2 H3 H4]. split; try done; change (socks s') with (delete k (socks s)).
    + intros j y [Hj Hy]%lookup_delete_Some. destruct (H2 j y Hy) as [O1 O2 O3 O4 O5 O6 O7 O8]. split; try done.
      * intros i Hi. cbn. rewrite (Hvo j y i) by congruence. by apply O1.
      * by rewrite (proj1 (Hother j y (not_eq_sym Hj) Hy)).
      * cbn. by rewrite lookup_delete_ne.
    + intros j j' y y' i [_ Hy]%lookup_delete_Some [_ Hy']%lookup_delete_Some. by eapply H3.
    + intros g l Hl. destruct (H4 g l Hl) as (Hr & Hgs & Hm). split_and!.
      * apply (tq_rep_agree (with_data s)); [done| |done]. intros e He. apply lookup_delete_ne. intros <-. by eapply Hno.
      * cbn. by rewrite <- elem_of_dom, Hd2, elem_of_dom.
      * intros j Hj. rewrite lookup_delete_ne; [by apply Hm|]. intros <-. by eapply Hno.
  - destruct (decide (j = k)) as [->|Hj].
    + rewrite lookup_delete_eq. unfold streams. rewrite map_lookup_imap. cbn. by rewrite lookup_delete_eq.
    + rewrite lookup_delete_ne by done. unfold streams. rewrite !map_lookup_imap. cbn. rewrite lookup_delete_ne by done.
      destruct (socks s !! j) as [y|] eqn:Ey; [|done]. cbn. f_equal. by apply Hother.
Qed.
