(* ===== verification/SockRun.v ===== *)
(** * Runs of the receive path

    Sequences of reads, resizes, group changes and polls on many sockets.  Each
    event is defined when the caller keeps to the rules ([allowed]), and has the
    effect on the streams and on the lists that [sock_step_ok] states. *)

From S2P Require Import Prelude Tailq Pipe PipeLemmas IovLemmas PipeInv PipeOps Sock SockList SockInv.
From S2P Require Import SockRead SockResize SockGroup.

Inductive event :=
  | ERecv (k : loc) (iov : list iovec) (kr : Z)
  | EResize (k : loc) (sz : Z) (ok1 ok2 : bool) (b i : nat)
  | EJoin (g : nat) (k : loc) (cb : bool) (rc : Z)
  | ELeave (g : nat) (k : loc) (rc : Z)
  | EPoll (g : nat) (max_events : Z) (evs : list (loc * bool))
  | EClose (k : loc).

(** What an event shows: its result, the sockets reported, and the socket and
    bytes received. *)
Record seen := Seen { r_rc : Z; r_found : list loc; r_got : option (loc * list Z) }.

Section Run.
Context (MIN : Z) (U : list nat) (G : gset nat).

Definition exec (e : event) : M sst seen :=
  match e with
  | ERecv k iov kr =>
      rc ← posix_sock_readv MIN k iov kr;
      s ← get;
      mret (Seen rc [] (Some (k, take (Z.to_nat rc) (iov_bytes (mem (ps s)) iov))))
  | EResize k sz ok1 ok2 b i => rc ← posix_sock_alloc_pipe MIN k sz ok1 ok2 b i; mret (Seen rc [] None)
  | EJoin g k cb rc => r ← spdk_sock_group_add_sock g k cb rc; mret (Seen r [] None)
  | ELeave g k rc => r ← spdk_sock_group_remove_sock g k rc; mret (Seen r [] None)
  | EPoll g m evs => '(n, found) ← posix_sock_group_impl_poll g m (Some evs); mret (Seen n found None)
  | EClose k => r ← posix_sock_close k; mret (Seen r [] None)
  end.

Fixpoint execs (es : list event) : M sst (list seen) :=
  match es with
  | [] => mret []
  | e :: es' => r ← exec e; rs ← execs es'; mret (r :: rs)
  end.

(** The rules: the groups are [G]; the caller's memory is [U] and the elements of an array are in
    buffers of their own; a pipe is resized when it is absent or holds bytes, to a
    size that has room for the 12 bytes of the group's list when it is accepted; a
    socket leaves its group when it is idle and its pipe is in the pipe group; the
    kernel reports members of the group only. *)
Definition allowed (e : event) (s : sst) : Prop :=
  match e with
  | ERecv k iov _ =>
      is_Some (socks s !! k) /\ iov <> [] /\ fits (mem (ps s)) iov /\ NoDup (iov_bufs iov) /\
      forall c, c ∈ iov_bufs iov -> c ∈ U
  | EResize k sz _ _ b i =>
      (exists x, socks s !! k = Some x /\ (recv_pipe x = None \/ pipe_has_data x = true)) /\
      0 < sz < 2 ^ 31 /\ (MIN <= sz -> PIPE_HDR <= sz) /\ mem (ps s) !! b = None /\ b ∉ U /\ pipes (ps s) !! i = None
  | EJoin g k _ _ => is_Some (socks s !! k) /\ g ∈ G
  | ELeave g k _ =>
      exists x, socks s !! k = Some x /\ group_impl x = Some g /\ listed x = false /\
        forall i p, recv_pipe x = Some i -> pipes (ps s) !! i = Some p -> p_group p = Some g
  | EPoll g m evs =>
      g ∈ G /\ 0 < m /\ Forall (fun e => member s g e.1) evs
  | EClose k => exists x, socks s !! k = Some x /\ group_impl x = None
  end.

Fixpoint alloweds (es : list event) (s : sst) : Prop :=
  match es with
  | [] => True
  | e :: es' => allowed e s /\ forall r s', exec e s = Ok (r, s') -> alloweds es' s'
  end.

(** The lists of all groups, and memory kept apart. *)
Record good (s : sst) (L : gmap nat (list loc)) : Prop := Good {
  gd_inv : sinv s L;
  gd_groups : dom L = G;
  gd_user : forall c, c ∈ U -> c ∉ owned (ps s) }.

(** The streams after an event. *)
Definition astep (e : event) (rc : Z) (S : gmap loc (list Z)) : gmap loc (list Z) :=
  match e with
  | ERecv k _ _ => alter (drop (Z.to_nat rc)) k S
  | EClose k => delete k S
  | _ => S
  end.

(** The lists after an event. *)
Definition lists_step (e : event) (found : list loc) (L L' : gmap nat (list loc)) : Prop :=
  match e with
  | ERecv k _ _ => shrinks k L L'
  | EJoin g k _ _ => L' = L \/ L' = <[g := default [] (L !! g) ++ [k]]> L
  | EPoll g m _ => exists new, let all := default [] (L !! g) ++ new in
      found = take (Z.to_nat m) all /\ L' = <[g := drop (Z.to_nat m) all ++ take (Z.to_nat m) all]> L
  | _ => L' = L
  end.

Lemma alter_is_insert (f : list Z -> list Z) (k : loc) (m : gmap loc (list Z)) x :
  m !! k = Some x -> alter f k m = <[k := f x]> m.
Proof.
  intros H. apply map_eq. intros j. destruct (decide (j = k)) as [->|].
  - by rewrite lookup_alter_eq, lookup_insert_eq, H.
  - by rewrite lookup_alter_ne, lookup_insert_ne.
Qed.

(** ** Every event is defined and does what it says *)

Lemma sock_step_ok s L e :
  good s L -> allowed e s ->
  exists r s' L', exec e s = Ok (r, s') /\ good s' L' /\ streams s' = astep e (r_rc r) (streams s) /\
    lists_step e (r_found r) L L' /\
    match e with
    | ERecv k _ _ => exists st, streams s !! k = Some st /\ (Z.to_nat (r_rc r) <= length st)%nat /\
        r_got r = Some (k, take (Z.to_nat (r_rc r)) st)
    | _ => r_got r = None
    end.
Proof.
  intros [Hs HG HU] Ha. destruct e as [k iov kr|k sz ok1 ok2 b i|g k cb rc|g k rc|g m evs|k]; cbn in Ha; cbn [exec].
  - destruct Ha as ([x Hx] & Hne & Hf & Hnd & Hin).
    destruct (readv_ok MIN s L k x iov kr Hs Hx Hne) as (rc & s' & L' & Hrun & Hs' & Hsh & [R1 R2 R3 R4] & _).
    { split; [done|]. intros c Hc. by apply HU, Hin. }
    rewrite (M_bind_ok _ _ _ _ _ Hrun). mstep. eexists _, s', L'. split; [done|]. cbn [r_rc r_found r_got].
    split_and!.
    + split; [done|by rewrite (proj2 (shrinks_relist _ _ _ Hsh))|]. intros c Hc. rewrite R4. by apply HU.
    + cbn. rewrite R2. symmetry. apply alter_is_insert. by apply streams_lookup.
    + done.
    + exists (stream s k x). rewrite (streams_lookup s k x Hx). destruct R1 as [R1 R1'].
      split_and!; [done|done|]. do 2 f_equal. set (bs := take _ (stream s k x)) in *.
      assert (Hb : Z.to_nat rc = length bs) by (unfold bs; rewrite length_take; lia). rewrite Hb.
      assert (Hsame : iov_bytes (mem (ps s')) iov = iov_bytes (scatter iov bs (mem (ps s))) iov).
      { apply iov_bytes_agree. intros c Hc. by apply R3, HU, Hin. }
      rewrite Hsame. apply scatter_read; [done|done|]. pose proof (total_nonneg _ _ Hf). lia.
  - destruct Ha as ((x & Hx & Hp) & Hsz & Hhdr & Hb & HbU & Hi).
    destruct (alloc_pipe_ok MIN s L k x sz ok1 ok2 b i) as (rc & s' & Hrun & Hs' & Hst & Hm); try done.
    { destruct Hp as [Hp|Hp]; [by left|right]. rewrite (so_flag s L k x (si_sock s L Hs k x Hx)) in Hp.
      intros E. by rewrite E in Hp. }
    rewrite (M_bind_ok _ _ _ _ _ Hrun). eexists _, s', L. split; [done|]. split_and!; try done.
    split; [done|done|]. intros c Hc. apply Hm; [by apply HU|]. by intros ->.
  - destruct Ha as ([x Hx] & Hg). rewrite <- HG, elem_of_dom in Hg. destruct Hg as [l Hl].
    destruct (add_sock_ok s L k x g l cb rc Hs Hx Hl) as (r & s' & L' & Hrun & Hs' & Hst & Ho & _ & HL).
    rewrite (M_bind_ok _ _ _ _ _ Hrun). eexists _, s', L'. split; [done|].
    assert (HL' : L' = L \/ L' = <[g := default [] (L !! g) ++ [k]]> L)
      by (destruct HL as [->| ->]; [by left|]; unfold join_lists; destruct (pipe_has_data x); auto).
    split_and!; try done. split; [done| |intros c Hc; rewrite Ho; by apply HU].
    rewrite <- HG. destruct HL' as [->| ->]; [done|]. apply dom_insert_lookup_L. eauto.
  - destruct Ha as (x & Hx & Hg & Hoff & Hpg). destruct (remove_sock_ok s L k x g rc) as (s' & Hrun & Hs' & Hst & Ho & _); try done.
    { intros i q Hi (p & Hp & ->)%view_lookup. by eapply Hpg. }
    rewrite (M_bind_ok _ _ _ _ _ Hrun). eexists _, s', L. split; [done|]. split_and!; try done.
    split; [done|done|]. intros c Hc. rewrite Ho. by apply HU.
  - destruct Ha as (Hg & Hm & Hev). rewrite <- HG, elem_of_dom in Hg. destruct Hg as [l Hl].
    destruct (group_poll_ok s L g l m evs Hs Hl Hm Hev) as (s' & new & Hrun & Hs' & Hst & Hps & _ & _).
    rewrite (M_bind_ok _ _ _ _ _ Hrun). eexists _, s', _. split; [done|]. split_and!; [|done| |done].
    + split; [exact Hs'| |rewrite Hps; exact HU]. rewrite <- HG. apply dom_insert_lookup_L. eauto.
    + exists new. cbn [r_found]. by rewrite Hl.
  - destruct Ha as (x & Hx & Hg). destruct (close_ok s L k x Hs Hx Hg) as (s' & Hrun & Hs' & Hst & Hm).
    rewrite (M_bind_ok _ _ _ _ _ Hrun). eexists _, s', L. split; [done|]. split_and!; try done.
    split; [done|done|]. intros c Hc. by apply Hm, HU.
Qed.
End Run.
