(* ===== verification/SockTheorems.v ===== *)
(** * What the receive path of sockets guarantees

    Every byte that arrives on a socket is handed to its reader once and in
    order, whatever the pipe, the group and the kernel do in between, and a
    socket with data is reported by its group's polls in turn. *)

From S2P Require Import Prelude Tailq Pipe PipeLemmas IovLemmas PipeInv PipeOps Sock SockList SockInv.
From S2P Require Import SockRead SockResize SockGroup SockRun.

(** ** Starting states *)

Definition sock0 : sock := Sock None 0 false false None false.

(** Sockets without pipe or group, and groups without members. *)
Definition start_state (m : gmap nat (list Z)) (gs : list nat) (ks : list (loc * list Z)) : sst :=
  Sst (Pst m ∅ (list_to_map (map (fun g => (g, [])) gs)))
      (list_to_map (map (fun k => (k.1, sock0)) ks))
      (Tailqs (list_to_map (map (fun g => (g, Head None (SFirst g))) gs))
              (list_to_map (map (fun k => (k.1, Entry None SNull)) ks)))
      (list_to_map (map (fun g => (g, [])) gs))
      (list_to_map ks) 0.

(** A map with the same value at some keys. *)
Lemma lookup_const {K : Type} `{Countable K} {A B} (f : A -> K) (v : A -> B) (l : list A) k x :
  (forall a, a ∈ l -> f a = k -> v a = x) ->
  forall y, (list_to_map (map (fun a => (f a, v a)) l) : gmap K B) !! k = Some y -> y = x /\ exists a, a ∈ l /\ f a = k.
Proof.
  intros Hv y Hy. apply elem_of_list_to_map_2 in Hy. apply list_elem_of_fmap in Hy as (a & [= -> ->] & Ha).
  split; [by apply Hv|eauto].
Qed.

Lemma list_to_map_is_Some {K : Type} `{Countable K} {B} (l : list (K * B)) k :
  k ∈ l.*1 -> is_Some ((list_to_map l : gmap K B) !! k).
Proof.
  intros Hk. destruct ((list_to_map l : gmap K B) !! k) eqn:E; [eauto|].
  by apply not_elem_of_list_to_map_2 in E.
Qed.

Lemma start_good U m gs ks :
  good U (list_to_set gs) (start_state m gs ks) (list_to_map (map (fun g => (g, [])) gs)).
Proof.
  set (L := list_to_map _ : gmap nat (list loc)).
  assert (Hempty : forall A (H : gmap nat (list A)) g l, H = list_to_map (map (fun g => (g, [])) gs) ->
            H !! g = Some l -> l = [] /\ g ∈ gs).
  { intros A H g l -> Hl. by apply (lookup_const (fun g => g) (fun _ => []) gs g []) in Hl as (-> & a & Ha & <-). }
  assert (Hsome : forall B (f : nat -> B) g, g ∈ gs ->
            is_Some ((list_to_map (map (fun g => (g, f g)) gs) : gmap nat B) !! g)).
  { intros B f g Hg. apply list_to_map_is_Some. rewrite <- list_fmap_compose. by rewrite list_fmap_id. }
  assert (Hks : forall B (f : loc * list Z -> B) k, k ∈ ks.*1 ->
            is_Some ((list_to_map (map (fun k => (k.1, f k)) ks) : gmap loc B) !! k)).
  { intros B f k Hk. apply list_to_map_is_Some. by rewrite <- list_fmap_compose. }
  assert (Hsock : forall k x, socks (start_state m gs ks) !! k = Some x -> x = sock0 /\ k ∈ ks.*1).
  { intros k x Hx. apply (lookup_const (fun k => k.1) (fun _ => sock0) ks k sock0) in Hx as (-> & a & Ha & <-); [|done].
    split; [done|]. apply list_elem_of_fmap. eauto. }
  split.
  - split.
    + apply inv_start. intros g l Hl. by eapply Hempty.
    + intros k x [-> Hk]%Hsock. split; cbn; try done.
      * intros g l [-> _]%(Hempty _ L g l eq_refl). split; [by intros ?%not_elem_of_nil|by intros [? _]].
      * by apply list_to_map_is_Some.
      * by apply Hks.
    + intros k k' x x' i [-> _]%Hsock. done.
    + intros g l [-> Hg]%(Hempty _ L g l eq_refl). split_and!; [|by apply Hsome|by intros k ?%not_elem_of_nil].
      exists (SFirst g). cbn. destruct (Hsome _ (fun g => Head None (SFirst g)) g Hg) as [h Hh].
      assert (h = Head None (SFirst g)) as ->.
      { apply (lookup_const (fun g => g) (fun g => Head None (SFirst g)) gs g (Head None (SFirst g))) in Hh as [? _]; [done|].
        by intros a _ ->. }
      split_and!; [done|done|constructor].
  - apply set_eq. intros g. rewrite elem_of_dom, elem_of_list_to_set. split.
    + intros [l Hl]. by eapply (Hempty _ L g l eq_refl).
    + apply Hsome.
  - intros c _. unfold owned. cbn. intros Hin. apply elem_of_gather in Hin as (g & l & Hl & Hc).
    destruct (Hempty _ _ g l eq_refl Hl) as [-> _]. by apply not_elem_of_nil in Hc.
Qed.

(** ** Streams *)

(** The bytes received on [k] in a run. *)
Fixpoint bytes_of (k : loc) (rs : list seen) : list Z :=
  match rs with
  | [] => []
  | r :: rs' =>
      match r_got r with
      | Some (j, bs) => if decide (j = k) then bs ++ bytes_of k rs' else bytes_of k rs'
      | None => bytes_of k rs'
      end
  end.

(** One event: what it takes from the stream of [k]. *)
Lemma step_stream k e r S S' :
  S' = astep e (r_rc r) S ->
  match e with
  | ERecv j _ _ => exists st, S !! j = Some st /\ (Z.to_nat (r_rc r) <= length st)%nat /\
      r_got r = Some (j, take (Z.to_nat (r_rc r)) st)
  | _ => r_got r = None
  end ->
  match S !! k with
  | Some st => exists bs rest, st = bs ++ rest /\ (S' !! k = Some rest \/ S' !! k = None) /\
      forall rs, bytes_of k (r :: rs) = bs ++ bytes_of k rs
  | None => S' !! k = None /\ forall rs, bytes_of k (r :: rs) = bytes_of k rs
  end.
Proof.
  intros -> Hr. destruct e as [j iov kr|j sz ok1 ok2 b i|g j cb rc|g j rc|g m evs|j]; cbn [astep bytes_of] in *;
    try (rewrite Hr; destruct (S !! k) as [st|] eqn:Hk; [exists [], st|]; auto; fail).
  - destruct Hr as (st & Hst & Hlen & ->). destruct (decide (j = k)) as [->|Hne].
    + rewrite Hst, lookup_alter_eq, Hst. exists (take (Z.to_nat (r_rc r)) st), (drop (Z.to_nat (r_rc r)) st).
      rewrite take_drop. auto.
    + rewrite lookup_alter_ne by done. destruct (S !! k) as [st'|]; [exists [], st'|]; auto.
  - rewrite Hr. destruct (decide (j = k)) as [->|Hne].
    + rewrite lookup_delete_eq. destruct (S !! k) as [st|]; [exists [], st|]; auto.
    + rewrite lookup_delete_ne by done. destruct (S !! k) as [st|]; [exists [], st|]; auto.
Qed.

Section Theorems.
Context (MIN : Z) (U : list nat) (G : gset nat).

Lemma run_streams s L es :
  good U G s L -> alloweds MIN U G es s ->
  exists rs s' L', execs MIN es s = Ok (rs, s') /\ good U G s' L' /\
    forall k, match streams s !! k with
    | Some st => exists rest, st = bytes_of k rs ++ rest /\ (streams s' !! k = Some rest \/ streams s' !! k = None)
    | None => streams s' !! k = None /\ bytes_of k rs = []
    end.
Proof.
  revert s L. induction es as [|e es IH]; intros s L Hg Ha.
  - exists [], s, L. split_and!; try done. intros k. destruct (streams s !! k) as [st|] eqn:E; [|done].
    exists st. auto.
  - destruct Ha as [Ha Hnext]. destruct (sock_step_ok MIN U G s L e Hg Ha) as (r & s1 & L1 & Hrun & Hg1 & Hst & _ & Hr).
    destruct (IH s1 L1 Hg1 (Hnext r s1 Hrun)) as (rs & s2 & L2 & Hruns & Hg2 & Hall).
    exists (r :: rs), s2, L2. cbn [execs]. rewrite (M_bind_ok _ _ _ _ _ Hrun), (M_bind_ok _ _ _ _ _ Hruns).
    split_and!; try done. intros k. pose proof (step_stream k e r (streams s) (streams s1) Hst Hr) as Hk.
    specialize (Hall k). destruct (streams s !! k) as [st|].
    + destruct Hk as (bs & rest & -> & [Hk|Hk] & Hb); rewrite Hk in Hall.
      * destruct Hall as (rest' & -> & Hend). exists rest'. by rewrite (Hb rs), app_assoc.
      * destruct Hall as [Hend Hnil]. exists rest. rewrite (Hb rs), Hnil, app_nil_r. auto.
    + destruct Hk as [Hk Hb]. rewrite Hk in Hall. by rewrite (Hb rs).
Qed.
End Theorems.

(** ** A run *)

Module SockDemo.
Definition U : list nat := [100; 101]%nat.
Definition s : sst :=
  start_state {[ 100%nat := repeat 0 8; 101%nat := repeat 0 8 ]} [5%nat]
    [(1%positive, [1; 2; 3; 4; 5; 6; 7; 8; 9; 10; 11; 12]); (2%positive, [21; 22; 23])].

(** Two sockets with pipes join a group of which one socket is polled at a time;
    the first is read in part, resized with bytes in its pipe, and read on. *)
Definition es : list event :=
  [EResize 1 16 true true 0 0; EResize 2 16 true true 1 1; EJoin 5 1 true 0; EJoin 5 2 true 0;
   EPoll 5 1 [(1%positive, true); (2%positive, true)]; ERecv 1 [Iov (Some (100%nat, 0)) 4] 10;
   EPoll 5 1 []; ERecv 2 [Iov (Some (101%nat, 0)) 2] 5; EResize 1 32 true true 2 2;
   ERecv 1 [Iov (Some (100%nat, 2)) 1; Iov (Some (101%nat, 3)) 5] 0; EPoll 5 4 [(1%positive, true)];
   ERecv 1 [Iov (Some (100%nat, 0)) 8] 8].

(** The conditions of [allowed] on concrete states. *)
Ltac allow :=
  match goal with
  | |- allowed _ _ _ _ _ => cbn [allowed]; allow
  | |- fits _ _ => repeat (constructor; [right; split; [done|eexists _, _, _; split; [done|]; split; [done|cbn; lia]]|]); constructor
  | |- NoDup _ => vm_compute; repeat constructor; set_solver
  | |- forall c, c ∈ _ -> c ∈ _ => intros c; vm_compute; set_solver
  | |- is_Some _ => by eexists
  | |- exists _, _ => eexists; split; [done|]; allow
  | |- Forall _ _ => repeat (constructor; [by eexists; split|]); constructor
  | |- _ ∉ _ => vm_compute; set_solver
  | |- _ ∈ (list_to_set _ : gset nat) => vm_compute; done
  | |- _ /\ _ => split; allow
  | |- _ \/ _ => (by left) || (by right)
  | |- _ <= _ -> PIPE_HDR <= _ => by intros _
  | _ => done || lia
  end.

Lemma es_allowed : alloweds 8 U (list_to_set [5%nat]) es s.
Proof. unfold es. repeat (split; [allow|intros r s' H; vm_compute in H; injection H as <- <-]). done. Qed.
End SockDemo.

(** C8: in every run of reads, resizes, group changes, polls and closes over any
    number of sockets and groups that keeps to the rules of [allowed], no
    operation fails an assertion or touches memory it should not, and each socket
    delivers its stream: the bytes the reads left in the callers' memory, in the
    order of the reads, followed by what is still in the pipe and the kernel, are
    the bytes that were to come on the socket.  The rules: a pipe is resized when
    it is absent or holds bytes, to less than 2^31 bytes and, when the size is
    accepted, at least 12 ([PIPE_HDR], which MIN_SOCK_PIPE_SIZE exceeds); a socket
    leaves its group when it is neither marked as having data nor outside the
    group's pipe group, and is closed outside groups; a read has a non-empty array
    over distinct buffers of the caller; the kernel reports members of the group
    only.  What happens outside them: [leave_reorders_stream],
    [join_with_data_leave_asserts], [resize_empty_ends_stream]. *)
Theorem socket_streams_delivered MIN U G s L es :
  good U G s L -> alloweds MIN U G es s ->
  exists rs s' L', execs MIN es s = Ok (rs, s') /\ good U G s' L' /\
    forall k st, streams s !! k = Some st ->
      exists rest, st = bytes_of k rs ++ rest /\ forall st', streams s' !! k = Some st' -> st' = rest.
Proof.
  intros Hg Ha. destruct (run_streams MIN U G s L es Hg Ha) as (rs & s' & L' & Hrun & Hg' & Hall).
  exists rs, s', L'. split_and!; try done. intros k st Hk. specialize (Hall k). rewrite Hk in Hall.
  destruct Hall as (rest & -> & Hend). exists rest. split; [done|]. intros st' Hst'. destruct Hend; congruence.
Qed.

Lemma socket_streams_delivered_witness :
  exists rs s', execs 8 SockDemo.es SockDemo.s = Ok (rs, s') /\
    bytes_of 1 rs = [1; 2; 3; 4; 5; 6; 7; 8; 9; 10; 11; 12] /\ bytes_of 2 rs = [21; 22].
Proof.
  destruct (socket_streams_delivered 8 SockDemo.U (list_to_set [5%nat]) SockDemo.s _ SockDemo.es
    (start_good _ _ _ _) SockDemo.es_allowed) as (rs & s' & L' & Hrun & _ & _).
  exists rs, s'. split; [exact Hrun|]. vm_compute in Hrun. by injection Hrun as <- _.
Defined.

(** ** Fairness of polling *)

(** [k] is on the list with at most [p] sockets before it. *)
Definition within (p : nat) (k : loc) (l : list loc) : Prop :=
  exists l1 l2, l = l1 ++ k :: l2 /\ (length l1 <= p)%nat.

Lemma within_app p k l l' : within p k l -> within p k (l ++ l').
Proof. intros (l1 & l2 & -> & Hp). exists l1, (l2 ++ l'). by rewrite <- app_assoc. Qed.

Lemma within_filter p k j l : j <> k -> within p k l -> within p k (filter (fun i => i <> j) l).
Proof.
  intros Hj (l1 & l2 & -> & Hp). exists (filter (fun i => i <> j) l1), (filter (fun i => i <> j) l2).
  rewrite filter_app, filter_cons_True by auto. split; [done|]. pose proof (length_filter (fun i => i <> j) l1). lia.
Qed.

(** A poll reports [k], or brings it nearer to the front. *)
Lemma within_poll p k l m :
  within p k l -> k ∈ take m l \/ ((m <= p)%nat /\ within (p - m) k (drop m l ++ take m l)).
Proof.
  intros (l1 & l2 & -> & Hp). destruct (decide (length l1 < m)%nat) as [Hlt|Hge].
  - left. rewrite take_app. apply elem_of_app. right. destruct (m - length l1)%nat eqn:E; [lia|]. by left.
  - right. split; [lia|]. apply within_app. exists (drop m l1), l2. rewrite drop_app_le by lia.
    rewrite length_drop. split; [done|lia].
Qed.

(** The polls of [g] for at least [m] sockets. *)
Fixpoint polls (g : nat) (m : Z) (es : list event) : nat :=
  match es with
  | [] => 0
  | EPoll h n _ :: es' => (if decide (h = g /\ m <= n) then 1 else 0) + polls g m es'
  | _ :: es' => polls g m es'
  end.

Definition reads (k : loc) (e : event) : bool :=
  match e with ERecv j _ _ => bool_decide (j = k) | _ => false end.

Lemma lists_within e found L L' g l k p :
  lists_step e found L L' -> reads k e = false -> L !! g = Some l -> within p k l ->
  exists l', L' !! g = Some l' /\
    match e with
    | EPoll h n _ => if decide (h = g) then k ∈ found \/ ((Z.to_nat n <= p)%nat /\ within (p - Z.to_nat n) k l')
                     else within p k l'
    | _ => within p k l'
    end.
Proof.
  intros Hst Hr Hl Hw. destruct e as [j iov kr|j sz ok1 ok2 b i|h j cb rc|h j rc|h n evs|j]; cbn in Hst, Hr; subst; eauto.
  - apply bool_decide_eq_false in Hr. destruct (Hst g) as [E|E]; rewrite E, Hl; eauto.
    exists (filter (fun i => i <> j) l). split; [done|]. by apply within_filter.
  - destruct Hst as [->| ->]; [eauto|]. destruct (decide (h = g)) as [->|Hne].
    + rewrite lookup_insert_eq, Hl. eexists. split; [done|]. by apply within_app.
    + rewrite lookup_insert_ne by done. eauto.
  - destruct Hst as (new & -> & ->). destruct (decide (h = g)) as [->|Hne].
    + rewrite lookup_insert_eq, Hl. eexists. split; [done|]. apply within_poll. by apply within_app.
    + rewrite lookup_insert_ne by done. eauto.
Qed.

Lemma starvation_from MIN U G s L es g l p k m :
  good U G s L -> alloweds MIN U G es s -> L !! g = Some l -> within p k l ->
  Forall (fun e => reads k e = false) es -> 0 < m -> Z.of_nat p < m * Z.of_nat (polls g m es) ->
  exists rs s', execs MIN es s = Ok (rs, s') /\ exists r, r ∈ rs /\ k ∈ r_found r.
Proof.
  revert s L l p. induction es as [|e es IH]; intros s L l p Hg Ha Hl Hw Hr Hm Hp; [cbn in Hp; lia|].
  destruct Ha as [Ha Hnext]. apply Forall_cons in Hr as [Hre Hr].
  destruct (sock_step_ok MIN U G s L e Hg Ha) as (r & s1 & L1 & Hrun & Hg1 & _ & Hli & _).
  destruct (lists_within e (r_found r) L L1 g l k p Hli Hre Hl Hw) as (l1 & Hl1 & Hcase).
  assert (Hdone : k ∈ r_found r -> exists rs s', execs MIN (e :: es) s = Ok (rs, s') /\ exists r, r ∈ rs /\ k ∈ r_found r).
  { intros Hk. destruct (run_streams MIN U G s1 L1 es Hg1 (Hnext r s1 Hrun)) as (rs & s2 & L2 & Hruns & _).
    exists (r :: rs), s2. cbn [execs]. rewrite (M_bind_ok _ _ _ _ _ Hrun), (M_bind_ok _ _ _ _ _ Hruns).
    split; [done|]. exists r. split; [by left|done]. }
  assert (Hlater : forall p', within p' k l1 -> Z.of_nat p' < m * Z.of_nat (polls g m es) ->
    exists rs s', execs MIN (e :: es) s = Ok (rs, s') /\ exists r, r ∈ rs /\ k ∈ r_found r).
  { intros p' Hw' Hp'. destruct (IH s1 L1 l1 p' Hg1 (Hnext r s1 Hrun) Hl1 Hw' Hr Hm Hp') as (rs & s2 & Hruns & r' & Hin & Hk).
    exists (r :: rs), s2. cbn [execs]. rewrite (M_bind_ok _ _ _ _ _ Hrun), (M_bind_ok _ _ _ _ _ Hruns).
    split; [done|]. exists r'. split; [by right|done]. }
  destruct e as [| | | |h n evs|]; try by eapply Hlater.
  cbn [polls] in Hp. destruct (decide (h = g)) as [->|Hne].
  - destruct Hcase as [Hk|[Hn Hw']]; [by apply Hdone|]. apply (Hlater _ Hw'). destruct (decide _) as [[_ Hmn]|Hno]; [|].
    + lia.
    + cbn in Hp. lia.
  - apply (Hlater p Hcase). rewrite decide_False in Hp by (by intros [? _]). done.
Qed.

(** C21: polling starves no socket: a socket on the list of its group with at most
    [p] others before it is reported within any run, by whatever happens on the
    other sockets, that polls the group often enough ([p] divided by the number
    of sockets a poll may report, plus one), as long as nobody reads from it.  The
    run keeps to the rules of [allowed], as in C8. *)
Theorem poll_no_starvation MIN U G s L es g l p k m :
  good U G s L -> alloweds MIN U G es s -> g ∈ G -> tq_rep (with_data s) g l -> within p k l ->
  Forall (fun e => reads k e = false) es -> 0 < m -> Z.of_nat p < m * Z.of_nat (polls g m es) ->
  exists rs s', execs MIN es s = Ok (rs, s') /\ exists r, r ∈ rs /\ k ∈ r_found r.
Proof.
  intros Hg Ha Hin Hrep. rewrite <- (gd_groups U G s L Hg), elem_of_dom in Hin. destruct Hin as [l' Hl].
  rewrite (tq_rep_inj _ _ _ _ Hrep (proj1 (si_list s L (gd_inv U G s L Hg) g l' Hl))). by eapply starvation_from.
Qed.

Lemma poll_no_starvation_witness :
  exists rs s', execs 8 [EPoll 5 1 []; EResize 1 16 true true 0 0; EPoll 5 2 []]
      (match execs 8 [EJoin 5 1 true 0; EJoin 5 2 true 0; EPoll 5 2 [(1%positive, true); (2%positive, true)]] SockDemo.s
       with Ok (_, s') => s' | _ => SockDemo.s end) = Ok (rs, s') /\
    exists r, r ∈ rs /\ (2%positive : loc) ∈ r_found r.
Proof.
  set (es0 := [EJoin 5 1 true 0; EJoin 5 2 true 0; EPoll 5 2 [(1%positive, true); (2%positive, true)]]).
  assert (H0 : alloweds 8 SockDemo.U (list_to_set [5%nat]) es0 SockDemo.s).
  { unfold es0. repeat (split; [SockDemo.allow|intros r s' H; vm_compute in H; injection H as <- <-]). done. }
  destruct (run_streams 8 SockDemo.U (list_to_set [5%nat]) SockDemo.s _ es0 (start_good _ _ _ _) H0)
    as (rs0 & s1 & L1 & Hrun & Hg & _).
  rewrite Hrun. vm_compute in Hrun. injection Hrun as <- <-.
  eapply (poll_no_starvation 8 SockDemo.U (list_to_set [5%nat]) _ L1 _ 5 [1%positive; 2%positive] 1 2%positive 1 Hg).
  - repeat (split; [SockDemo.allow|intros r s' H; vm_compute in H; injection H as <- <-]). done.
  - vm_compute. done.
  - eexists. split; [done|]. split; [done|]. repeat constructor; set_solver.
  - exists [1%positive], []. done.
  - repeat constructor.
  - done.
  - vm_compute. done.
Defined.
