(* ===== verification/SockDeviations.v ===== *)
(** * What the receive path does outside its rules

    Concrete runs of module/sock/posix/posix.c and lib/sock/sock.c in which a
    socket does not deliver its stream, or an assertion fails. *)

From S2P Require Import Prelude Tailq Pipe Sock SockRun SockTheorems.

(** The bytes of the last event of a run, with its result. *)
Definition last_seen (m : res (list seen * sst)) : option (Z * option (loc * list Z)) :=
  match m with Ok (rs, _) => (fun r => (r_rc r, r_got r)) <$> last rs | _ => None end.

(** Resizing an empty pipe leaves the new one full, so that the next read is
    told that the peer closed the connection while the kernel has bytes. *)
Lemma resize_empty_ends_stream :
  last_seen (execs 8 [EResize 1 16 true true 0 0; EResize 1 32 true true 1 1;
                      ERecv 1 [Iov (Some (100%nat, 0)) 4] 4] SockDemo.s)
  = Some (0, Some (1%positive, [])).
Proof. vm_compute. done. Qed.

(** Resized to no pipe and back to the same size, a socket has none. *)
Lemma resize_zero_keeps_size :
  match execs 8 [EResize 1 16 true true 0 0; EResize 1 0 true true 1 1; EResize 1 16 true true 2 2] SockDemo.s with
  | Ok (_, s') => recv_pipe <$> socks s' !! 1%positive = Some None
  | _ => False
  end.
Proof. vm_compute. done. Qed.

(** A socket that left its group with bytes in its pipe hands the kernel's bytes
    over before them. *)
Lemma leave_reorders_stream :
  last_seen (execs 8 [EResize 1 16 true true 0 0; EJoin 5 1 true 0; EPoll 5 4 [(1%positive, true)];
                      ERecv 1 [Iov (Some (100%nat, 0)) 2] 10; ELeave 5 1 0; ERecv 1 [Iov (Some (100%nat, 0)) 8] 8]
             SockDemo.s)
  = Some (2, Some (1%positive, [11; 12])).
Proof. vm_compute. done. Qed.

(** A socket that joined with bytes in its pipe fails an assertion when it leaves
    after they were read. *)
Lemma join_with_data_leave_asserts :
  execs 8 [EResize 1 16 true true 0 0; ERecv 1 [Iov (Some (100%nat, 0)) 2] 4; EJoin 5 1 true 0;
           ERecv 1 [Iov (Some (100%nat, 0)) 2] 0; ELeave 5 1 0] SockDemo.s
  = UB UB_assert.
Proof. vm_compute. done. Qed.

(** An array that starts with an empty element reads nothing of what the pipe
    holds. *)
Lemma empty_first_iov_einval :
  match execs 8 [EResize 1 16 true true 0 0; ERecv 1 [Iov (Some (100%nat, 0)) 2] 4;
                 ERecv 1 [Iov (Some (100%nat, 0)) 0; Iov (Some (101%nat, 0)) 2] 4] SockDemo.s with
  | Ok ([_; _; r], s') => r_rc r = -1 /\ errno s' = EINVAL
  | _ => False
  end.
Proof. vm_compute. done. Qed.

(** spdk_sock_group_poll_count stores a negated error number in errno. *)
Lemma poll_count_negates_errno (n : Z) cb :
  match spdk_sock_group_poll_count n cb 0 [] SockDemo.s with
  | Ok (rc, s') => rc = -1 /\ errno s' = - EINVAL
  | _ => False
  end.
Proof. done. Qed.
